(* ===== verification/_CoqProject ===== *)
-Q . S2P
Prelude.v
Fips.v
Sha256.v
A64.v
TlsPatcher.v
Shm.v
Host.v
BionicSync.v
BionicCond.v
SyncSafe.v
CStr.v
PropCache.v
RuntimeCache.v
Properties.v
TlsArena.v
LinkerFormat.v
StrL.v
SpvEdit.v
SpvMakers.v
SpvConstants.v
SpvMali.v
SpvDecorations.v
NullMap.v
LinkerEnviron.v
BcDecode.v
BcDecoder.v
Registry.v
BcJournal.v
MemVisibility.v
Readback.v
BcImage.v
BcCopy.v
BcScratch.v
BcUpload.v
BcUploadExact.v
BcImageCopy.v
PolygonEdges.v
PolygonDraw.v
PolygonPipelines.v
PolygonSubmit.v
LinkerPool.v
LinkerLookup.v
LinkerInit.v
LinkerStdio.v
LinkerLoad.v
LinkerUnload.v
LinkerReloc.v
LinkerPath.v
LinkerLink.v
LinkerRefs.v
LinkerDlfcn.v
