(* ===== verification/Prelude.v ===== *)
(** * Verification of libhybris

    libhybris lets glibc programs load Android (bionic) libraries.  Its own logic is
    in a few places: the loader of common/jb and the patches it applies to foreign
    code, the hooks that give bionic's pthread objects host counterparts, the property
    service client, the thread-local storage bionic code expects, and the passes of
    vulkan/compat that rewrite shaders and emulate missing GPU features.  This
    library models those parts of src/hybris in Rocq, function by function, and proves
    what makes them correct.

    ** How code is modelled

    A C function is a Rocq function of the same name on the data it reads and
    returns: structs are records, arrays lists, hash tables and memories [gmap]s, and
    shared state is passed explicitly.  Unsigned integers are [Z] with the reduction of
    each operator written out ([u8] ... [u64] below); signed overflow, reads and
    writes outside an object and null dereferences are the outcome [Undef], and
    [abort]/[exit]/[assert] the outcome [Abort].  Results of the environment (allocation,
    system calls, clocks, Vulkan entry points) are arguments or nondeterministic steps.
    A loop without a structural bound carries fuel chosen from its data (the words
    left in a module, the length of a string or list, the number of libraries, 65 levels
    for the constant evaluator's limit of 64); running out of it is [Undef] (or [Spin]
    for a retry loop), so every theorem that a function returns also shows that the fuel
    is enough.

    ** Files

    - [Prelude]: this file.  Integers, the outcome monad, buffers, shared lemmas.
    - [Fips]: SHA-256 as FIPS 180-4 defines it, the reference of the next file.
    - [Sha256]: common/q/integrity_sha256.c.  The streaming hash is [Fips]'s for every
      division of the message, the unrolled round its compression function.
    - [A64], [TlsPatcher]: common/tls_patcher.c, tls_patcher_aarch64.c over a semantics of the
      emitted A64 instructions.  A patched segment behaves as before with each [mrs
      TPIDR_EL0] reading the simulated thread pointer; a region of the counted size is enough.
    - [Shm]: common/hooks_shm.c.  Blocks of all processes are disjoint and handles translate
      to the same block everywhere, as long as the pool is below 16 MiB (past it they alias) and no two
      processes create the pool at once (the race is shown).
    - [Host], [BionicSync], [BionicCond], [SyncSafe]: common/bionic_sync.c, bionic_cond.c as
      programs over host calls.  Under any interleaving every host call gets a live object
      of the right kind, a static initialiser is published once, and nothing that can block
      runs under the guard, for objects that are private to the process and not destroyed; with the
      behaviour of each hook and its defects.
    - [CStr], [StrL]: the C library functions used and common/strlcpy.c, strlcat.c.
    - [PropCache], [RuntimeCache], [Properties]: common/legacy_properties.  The runtime cache
      refines a finite map with timeouts; get, set and list are composed from both caches and the
      socket.
    - [TlsArena]: common/bionic_tls.c.  Each byte of a thread's arena is the last store there
      or the image of a module applied since, under any interleaving of promotions and stores.
    - [LinkerFormat]: common/jb/linker_format.c, the loader's printf.
    - [LinkerEnviron]: common/jb/linker_environ.c.  The compacted environment block refines the
      list of (name, value) pairs.
    - [LinkerPool], [LinkerLookup], [LinkerInit], [LinkerStdio]: common/jb/linker.c.  The table of
      libraries refines a list in load order; symbol lookup is complete and in scope order;
      constructors run once, in dependency order, and the recursion ends.
    - [LinkerPath]: the search paths and [open_library].  The file opened is the first one in search
      order, and truncated or overlong paths never leave the buffers.
    - [LinkerReloc]: [reloc_library] on ARM.  Every place gets the value of its relocation and no other
      byte changes.
    - [LinkerLoad]: [get_lib_extents], [load_segments], [load_library] over an address space.  The
      segments of a well-formed library are in memory as its headers say, nothing outside its
      region changes, and a failed load leaves no trace.
    - [LinkerUnload]: [unload_library].  Reference counts stay exact, so nothing that is still
      referenced is freed, and closing all handles unloads every library outside a cycle.
    - [LinkerLink], [LinkerRefs]: [link_image], [init_library], [find_library], and that reference counts stay exact
      through their recursion.
    - [LinkerDlfcn]: common/jb/dlfcn.c over all of the above.  Sessions of opens and closes; symbols and errors.
    - [SpvEdit], [SpvMakers]: vulkan/compat/malibridge/spirv_edit.c.  Parsing is the inverse of
      writing; makers return what was asked for and reuse it.
    - [SpvConstants], [SpvMali], [SpvDecorations]: the constant evaluator and two SPIR-V passes of
      vulkan/compat, each equal to a definition on decoded instructions.
    - [NullMap]: vulkan/compat/null_map.h, a hash table that refines a finite map.
    - [BcDecode], [BcDecoder]: vulkan/compat/bc_decode.c and the addresses of its kernel.  An
      accepted region keeps the dispatch inside its buffers; device objects are destroyed once.
    - [Registry]: lists with a hashed index, counted holders; shared by the next three.
    - [BcJournal]: vulkan/compat/bc_command_state.c.  A replay brings back the bindings the application made for a bind point;
      cloned layouts are counted exactly and destroyed once.
    - [MemVisibility]: vulkan/compat/memory_visibility.c.  A flush that is skipped was made before in the same
      recording and nothing has happened to the mapping since; ranges are whole atoms inside it.
    - [Readback]: vulkan/compat/readback_record.c, readback_submit.c.  Every submission is tracked until its ranges
      are invalidated, and a wait invalidates all it covers.
    - [BcImage], [BcCopy]: vulkan/compat/bc_image.c, bc_barriers.c and the copies of bc_transfer.c.  The blocks of all
      levels have disjoint places in the backing buffer; copies move exactly a region's blocks and barriers cover
      exactly the blocks they name.
    - [BcScratch]: the scratch memory of bc_transfer.c.  Its counters are exact under any interleaving.
    - [BcUpload], [BcUploadExact]: the decoding loops of bc_transfer.c and a device that executes what they record.  Every texel is
      written once, from its own block, and scratch memory is never overwritten too early; the loops end.
    - [BcImageCopy]: vulkan/compat/bc_image_copy.c, bc_record.c.  Copies between images move exactly the blocks of their regions.
    - [PolygonEdges]: vulkan/compat/polygon_buffers.c, polygon_indices.c and the kernel polygon_indices.comp.  A converted draw has the
      edges of its triangles in scratch memory of its own.
    - [PolygonDraw]: vulkan/compat/polygon_record.c and the variants of polygon_pipeline.c.  A recording with emulated polygon modes,
      executed after its conversions, shows what the application's own commands mean and keeps its bindings.
    - [PolygonPipelines]: the shared list of polygon_pipeline.c.  Reference counts are exact under any interleaving.
    - [PolygonSubmit]: vulkan/compat/polygon_submit.c and secondary command buffers.  Conversions are submitted once, before what needs them.

    Components meet where the code's do: [TlsPatcher] runs thunks on [A64]; [BionicSync] and
    [BionicCond] use the pool handles of [Shm] and the [Host] interface, and [SyncSafe] is proved
    against that interface; [Properties] composes the caches; [LinkerPool] names libraries with
    [StrL.strlcpy], [LinkerLookup] and [LinkerInit] walk its lists, [LinkerReloc] resolves with [LinkerLookup],
    [LinkerLoad] and [LinkerUnload] allocate and free its entries, [LinkerLink] composes search, loading and
    relocation and [LinkerDlfcn] the whole linker; the SPIR-V passes share the
    instructions of [SpvEdit]; [Readback] records the ranges of [MemVisibility] and has them invalidated;
    [BcUploadExact] is proved against what [BcScratch] promises, uses the layout of [BcImage] and shows that the checks of [BcDecode] accept
    every piece; [PolygonDraw] creates its edges with [PolygonEdges] and finds the application's indices through the class
    [StorageBuffers], which [MemVisibility] meets; [PolygonSubmit] queries the recordings of [PolygonDraw].

    ** Assumptions

    Functions that the code runs under one mutex are atomic steps.  Host allocations lie
    above the small values bionic uses as initialisers and below the shared-memory handles.
    [qsort] meets its contract; [bsearch] is glibc's.  A Vulkan creation that succeeds gives a non-null
    handle; only [BcDecoder] takes the output of a failed one to be null.  Functions called by the loader (constructors) do not load libraries
    themselves.  The A64 semantics covers the instructions the patcher emits, and the first-touch
    helper preserves the registers its assembly saves.  The kernel's mmap, mprotect and munmap act as their
    manual pages say, and a region it chooses is free.  Attaching to the shared-memory pool is one step.

    ** Not modelled

    The C++ linkers of Android 6 to 10 (upstream code); the start-up code of the JB linker and its
    debugger notification; the hook table, logging, tracing wrappers and the sysconf table
    (forwarding and constants); the Vulkan ICD, the layer's dispatch and the remaining passes of
    vulkan/compat; EGL and window-system glue; the wrapper libraries that only resolve and forward
    symbols; tests, tools and vendored headers.  The texel arithmetic of the block-decoding shader is not
    modelled, only its addressing. *)

From Stdlib Require Import ZArith Lia Bool Btauto.
From stdpp Require Import base list numbers option.

Open Scope Z_scope.

(** ** Fixed-width unsigned arithmetic

    A [w]-bit C unsigned integer is a [Z] in [0, 2^w); every operator that can
    leave that range is followed by an explicit reduction. *)

Definition wrap (w z : Z) : Z := z mod 2 ^ w.
Abbreviation u8 := (wrap 8).
Abbreviation u16 := (wrap 16).
Abbreviation u32 := (wrap 32).
Abbreviation u64 := (wrap 64).

(** [in_range w z]: [z] is a value of the [w]-bit unsigned type. *)
Definition in_range (w z : Z) : Prop := 0 <= z < 2 ^ w.

(** Two's complement reading of a [w]-bit pattern (the C casts to [intN_t]). *)
Definition to_signed (w z : Z) : Z :=
  let u := wrap w z in if u <? 2 ^ (w - 1) then u else u - 2 ^ w.

Declare Scope cint_scope.
Delimit Scope cint_scope with cint.
Infix "|||" := Z.lor (at level 50, left associativity) : cint_scope.
Infix "&&&" := Z.land (at level 40, left associativity) : cint_scope.
Infix "^^^" := Z.lxor (at level 45, left associativity) : cint_scope.
Infix ">>>" := Z.shiftr (at level 38, left associativity) : cint_scope.
Infix "<<<" := Z.shiftl (at level 38, left associativity) : cint_scope.

Create HintDb hybris.

Lemma wrap_range w z : 0 <= w -> in_range w (wrap w z).
Proof. intros; apply Z.mod_pos_bound, Z.pow_pos_nonneg; lia. Qed.

Lemma wrap_small w z : in_range w z -> wrap w z = z.
Proof. apply Z.mod_small. Qed.

Lemma wrap_idem w z : wrap w (wrap w z) = wrap w z.
Proof.
  unfold wrap. destruct (Z.eq_dec (2 ^ w) 0) as [->|]; [now rewrite !Z.mod_0_r|].
  now apply Z.mod_mod.
Qed.

Lemma wrap_land w z : 0 <= w -> wrap w z = Z.land z (Z.ones w).
Proof. intros; unfold wrap; now rewrite Z.land_ones. Qed.

Lemma wrap_testbit w z i :
  0 <= w -> 0 <= i -> Z.testbit (wrap w z) i = (i <? w) && Z.testbit z i.
Proof.
  intros; unfold wrap. destruct (Z.ltb_spec i w).
  - now rewrite Z.mod_pow2_bits_low.
  - now rewrite Z.mod_pow2_bits_high by lia.
Qed.

Lemma testbit_high w z i : 0 <= w -> in_range w z -> w <= i -> Z.testbit z i = false.
Proof. intros ? H ?. rewrite <- (wrap_small _ _ H), wrap_testbit by lia.
  destruct (Z.ltb_spec i w); [lia | reflexivity]. Qed.

(** A nonnegative number with no bit at or above [w] is a [w]-bit value. *)
Lemma in_range_bits w z :
  0 <= w -> 0 <= z -> (forall i, w <= i -> Z.testbit z i = false) -> in_range w z.
Proof.
  intros Hw Hz Hb. split; [assumption|].
  enough (z = wrap w z) as ->. { apply wrap_range; lia. }
  apply Z.bits_inj'; intros i Hi. rewrite wrap_testbit by lia.
  destruct (Z.ltb_spec i w); [reflexivity | now rewrite Hb].
Qed.

Lemma lxor_range w a b : 0 <= w -> in_range w a -> in_range w b -> in_range w (Z.lxor a b).
Proof.
  intros Hw Ha Hb. apply in_range_bits; [lia| |].
  - apply Z.lxor_nonneg. unfold in_range in *. lia.
  - intros i Hi. rewrite Z.lxor_spec, !(testbit_high w) by (auto; lia). reflexivity.
Qed.

Lemma lor_range w a b : 0 <= w -> in_range w a -> in_range w b -> in_range w (Z.lor a b).
Proof.
  intros Hw Ha Hb. apply in_range_bits; [lia| |].
  - apply Z.lor_nonneg. unfold in_range in *. lia.
  - intros i Hi. rewrite Z.lor_spec, !(testbit_high w) by (auto; lia). reflexivity.
Qed.

Lemma land_range w a b : 0 <= w -> in_range w a -> 0 <= b -> in_range w (Z.land a b).
Proof.
  intros Hw Ha Hb. apply in_range_bits; [lia| |].
  - apply Z.land_nonneg. lia.
  - intros i Hi. rewrite Z.land_spec, (testbit_high w) by (auto; lia). reflexivity.
Qed.

Lemma shiftr_range w a n : 0 <= w -> 0 <= n -> in_range w a -> in_range w (Z.shiftr a n).
Proof.
  intros Hw Hn Ha. apply in_range_bits; [lia| |].
  - apply Z.shiftr_nonneg. unfold in_range in *. lia.
  - intros i Hi. rewrite Z.shiftr_spec by lia. apply (testbit_high w); auto; lia.
Qed.

#[export] Hint Resolve wrap_range lxor_range lor_range land_range shiftr_range : hybris.

(** Bitwise identities on [Z]: compare bit by bit. *)
Ltac bitwise :=
  apply Z.bits_inj'; intros ?i ?Hi;
  repeat (rewrite Z.lxor_spec || rewrite Z.land_spec || rewrite Z.lor_spec ||
          rewrite Z.lnot_spec by lia);
  btauto.

(** [lor] of disjoint fields is a sum. *)
Lemma lor_shift a b n : 0 <= n -> 0 <= a < 2 ^ n -> Z.lor a (Z.shiftl b n) = a + b * 2 ^ n.
Proof.
  intros Hn Ha. rewrite Z.shiftl_mul_pow2 by lia. symmetry.
  rewrite <- Z.lxor_lor, <- Z.add_nocarry_lxor; try reflexivity.
  all: apply Z.bits_inj'; intros i Hi; rewrite Z.land_spec, Z.bits_0;
    destruct (Z_lt_le_dec i n);
    [ rewrite Z.mul_pow2_bits_low by lia; apply andb_false_r
    | rewrite (testbit_high n a) by (auto; lia); reflexivity ].
Qed.

(** Two's complement readings are in range, and the identity on it. *)
Lemma to_signed_range w z : 0 < w -> - 2 ^ (w - 1) <= to_signed w z < 2 ^ (w - 1).
Proof.
  intros Hw. unfold to_signed. pose proof (wrap_range w z ltac:(lia)) as [H1 H2].
  assert (2 ^ w = 2 * 2 ^ (w - 1)) as E by (rewrite <- Z.pow_succ_r by lia; f_equal; lia).
  destruct (Z.ltb_spec (wrap w z) (2 ^ (w - 1))); lia.
Qed.

Lemma to_signed_id w z : 0 < w -> - 2 ^ (w - 1) <= z < 2 ^ (w - 1) -> to_signed w z = z.
Proof.
  intros Hw Hz. unfold to_signed, wrap.
  assert (2 ^ w = 2 * 2 ^ (w - 1)) as E by (rewrite <- Z.pow_succ_r by lia; f_equal; lia).
  destruct (Z_lt_le_dec z 0).
  - replace (z mod 2 ^ w) with (z + 2 ^ w) by (apply (Z.mod_unique_pos _ _ (-1)); lia).
    destruct (Z.ltb_spec (z + 2 ^ w) (2 ^ (w - 1))); lia.
  - rewrite Z.mod_small by lia. destruct (Z.ltb_spec z (2 ^ (w - 1))); lia.
Qed.

(** ** C outcomes

    [Ok a] is normal return; [Abort] is a call of [abort], [exit] or a failed
    [assert]; [Undef] is undefined behaviour (an access outside an object, a
    null dereference). *)

Inductive outcome (A : Type) : Type :=
| Ok (a : A)
| Abort
| Undef.
Arguments Ok {A} _.
Arguments Abort {A}.
Arguments Undef {A}.

Definition obind {A B} (c : outcome A) (k : A -> outcome B) : outcome B :=
  match c with Ok a => k a | Abort => Abort | Undef => Undef end.

Declare Scope outcome_scope.
Delimit Scope outcome_scope with oc.
Notation "'let!' x ':=' c 'in' k" := (obind c (fun x => k))
  (at level 10, x pattern, c at level 100, k at level 200) : outcome_scope.

Definition of_option {A} (o : option A) : outcome A :=
  match o with Some a => Ok a | None => Undef end.

(** [rd l i] reads element [i] of a C array; outside the array it is undefined. *)
Definition rd {A} (l : list A) (i : Z) : outcome A :=
  if i <? 0 then Undef else of_option (l !! Z.to_nat i).

(** Signed [int] addition: overflow is undefined. *)
Definition int_ok (z : Z) : bool := (- 2 ^ 31 <=? z) && (z <? 2 ^ 31).
Definition int_add (a b : Z) : outcome Z := if int_ok (a + b) then Ok (a + b) else Undef.

Lemma obind_ok {A B} (c : outcome A) (k : A -> outcome B) b :
  obind c k = Ok b -> exists a, c = Ok a /\ k a = Ok b.
Proof. destruct c; simpl; intros; simplify_eq; eauto. Qed.

Lemma rd_ok {A} (l : list A) i :
  0 <= i < Z.of_nat (length l) -> exists x, rd l i = Ok x /\ l !! Z.to_nat i = Some x.
Proof.
  intros H. unfold rd. destruct (Z.ltb_spec i 0); [lia|].
  destruct (lookup_lt_is_Some_2 l (Z.to_nat i)) as [x Hx]; [lia|].
  exists x. now rewrite Hx.
Qed.

Lemma rd_middle {A} (pre : list A) x post pos : pos = Z.of_nat (length pre) -> rd (pre ++ x :: post) pos = Ok x.
Proof.
  intros ->. unfold rd. rewrite (proj2 (Z.ltb_ge _ _)) by lia. now rewrite Nat2Z.id, list_lookup_middle.
Qed.

Lemma int_add_ok a b c : int_add a b = Ok c -> c = a + b /\ - 2 ^ 31 <= a + b < 2 ^ 31.
Proof.
  unfold int_add, int_ok. destruct (Z.leb_spec (- 2 ^ 31) (a + b)), (Z.ltb_spec (a + b) (2 ^ 31));
    simpl; intros; simplify_eq; lia.
Qed.

(** Splits an [obind] chain that is known to return. *)
Ltac inv_ok :=
  repeat match goal with
  | H : obind _ _ = Ok _ |- _ =>
      let a := fresh "a" in let Ha := fresh "Ha" in
      apply obind_ok in H; destruct H as (a & Ha & H)
  | H : Ok _ = Ok _ |- _ => injection H as H; try subst
  end.

(** ** Buffers *)

(** [memcpy(dst + at, src, length src)] inside a buffer. *)
Definition blit {A} (dst : list A) (pos : nat) (src : list A) : list A :=
  take pos dst ++ src ++ drop (pos + length src) dst.

Lemma length_blit {A} (dst src : list A) pos :
  (pos + length src <= length dst)%nat -> length (blit dst pos src) = length dst.
Proof. intros. unfold blit. rewrite !length_app, length_take, length_drop. lia. Qed.

Lemma take_blit {A} (dst src : list A) pos :
  (pos + length src <= length dst)%nat ->
  take (pos + length src) (blit dst pos src) = take pos dst ++ src.
Proof.
  intros. unfold blit. rewrite app_assoc, take_app_le.
  - apply take_ge. rewrite length_app, length_take. lia.
  - rewrite length_app, length_take. lia.
Qed.

(** [memcpy(buffer + at, ...)] and [buffer[at] = b] inside the buffer. *)
Definition put (buf : list Z) (at_ : Z) (data : list Z) : outcome (list Z) :=
  if (at_ <? 0) || (Z.of_nat (length buf) <? at_ + Z.of_nat (length data)) then Undef
  else Ok (blit buf (Z.to_nat at_) data).

Lemma put_ok buf at_ data :
  (at_ + length data <= length buf)%nat -> put buf (Z.of_nat at_) data = Ok (blit buf at_ data).
Proof.
  intros H. unfold put. rewrite (proj2 (Z.ltb_ge (Z.of_nat at_) 0)) by lia.
  rewrite (proj2 (Z.ltb_ge _ _)) by lia. cbn [orb]. now rewrite Nat2Z.id.
Qed.

Lemma blit_mid {A} (a b c d : list A) : length b = length c -> blit (a ++ b ++ d) (length a) c = a ++ c ++ d.
Proof.
  intros H. unfold blit. rewrite take_app_length. f_equal. f_equal.
  rewrite drop_app_ge by lia. replace (length a + length c - length a)%nat with (length b) by lia.
  apply drop_app_length.
Qed.

(** Copying [c] and a terminator over what follows [a]. *)
Lemma blit_terminated {A} (a c rest : list A) (x z : A) n :
  (length c <= length rest)%nat -> n = length a ->
  blit (blit (a ++ x :: rest) n c) (n + length c) [z] = a ++ c ++ z :: drop (length c) rest.
Proof.
  intros H ->. set (l := x :: rest).
  replace l with (take (length c) l ++ drop (length c) l) by apply take_drop.
  rewrite blit_mid by (rewrite length_take; cbn; lia).
  destruct (drop (length c) l) as [|y d] eqn:E.
  { apply (f_equal length) in E. rewrite length_drop in E. cbn in E. lia. }
  rewrite app_assoc. replace (length a + length c)%nat with (length (a ++ c)) by (rewrite length_app; lia).
  change (y :: d) with ([y] ++ d). rewrite blit_mid by done. rewrite <- app_assoc. f_equal. f_equal. cbn. f_equal.
  replace d with (drop 1 (drop (length c) l)) by now rewrite E. rewrite drop_drop. unfold l.
  now rewrite Nat.add_1_r.
Qed.
