(* ===== verification/Fips.v ===== *)
(** * SHA-256 as FIPS 180-4 defines it

    The reference that [Sha256] is compared with.  Words and bytes are numbers; rotations, byte
    order and padding are arithmetic, and the constants are computed from the primes
    as the standard says. *)

From Stdlib Require Import ZArith.
From stdpp Require Import base numbers option list.

Open Scope Z_scope.

Module Fips.

(** ** Section 3.2, 4.1.2: operations on 32-bit words *)

Definition rotr (n x : Z) : Z := x / 2 ^ n + (x mod 2 ^ n) * 2 ^ (32 - n).
Definition shr (n x : Z) : Z := x / 2 ^ n.
Definition xor3 (x y z : Z) : Z := Z.lxor (Z.lxor x y) z.
Definition Ch (x y z : Z) : Z := Z.lxor (Z.land x y) (Z.land (Z.lnot x) z).
Definition Maj (x y z : Z) : Z := xor3 (Z.land x y) (Z.land x z) (Z.land y z).
Definition Sigma0 (x : Z) : Z := xor3 (rotr 2 x) (rotr 13 x) (rotr 22 x).
Definition Sigma1 (x : Z) : Z := xor3 (rotr 6 x) (rotr 11 x) (rotr 25 x).
Definition sigma0 (x : Z) : Z := xor3 (rotr 7 x) (rotr 18 x) (shr 3 x).
Definition sigma1 (x : Z) : Z := xor3 (rotr 17 x) (rotr 19 x) (shr 10 x).

(** ** Section 4.2.2, 5.3.3: the constants

    The first 32 bits of the fractional parts of the cube roots of the first 64 primes, and of the square roots
    of the first eight.
      *)

Definition is_prime (n : Z) : bool := forallb (fun d => (n <? d * d) || negb (n mod d =? 0)) (seqZ 2 17).
Definition primes : list Z := List.filter is_prime (seqZ 2 310).
(** The integer cube root, from the highest bit down. *)
Definition cbrt (n : Z) : Z := foldl (fun r b => if (r + 2 ^ b) ^ 3 <=? n then r + 2 ^ b else r) 0 (rev (seqZ 0 36)).
Definition K : list Z := (fun p => cbrt (p * 2 ^ 96) mod 2 ^ 32) <$> primes.
Definition H0 : list Z := (fun p => Z.sqrt (p * 2 ^ 64) mod 2 ^ 32) <$> take 8 primes.

(** ** Section 5.1.1, 5.2.1: padding and parsing *)

(** Big-endian bytes of a number, and the number of a list of bytes. *)
Definition bytes (n v : Z) : list Z := (fun j => v / 2 ^ (8 * (n - 1 - j)) mod 2 ^ 8) <$> seqZ 0 n.
Definition word (l : list Z) : Z := foldl (fun a b => 2 ^ 8 * a + b) 0 l.

(** The bit 1, the fewest zero bits, the length in bits: a multiple of 64 bytes. *)
Definition pad (msg : list Z) : list Z :=
  let len := Z.of_nat (length msg) in msg ++ [0x80] ++ replicate (Z.to_nat ((55 - len) mod 64)) 0 ++ bytes 8 (8
  * len).
Definition blocks (l : list Z) : list (list Z) := (fun k => take 64 (drop (64 * k) l)) <$> seq 0 (length l / 64).
Definition words (block : list Z) : list Z := (fun t => word (take 4 (drop (4 * t) block))) <$> seq 0 16.

(** ** Section 6.2.2 *)

Definition at_ (l : list Z) (t : nat) : Z := default 0 (l !! t).
Definition next_word (w : list Z) (t : nat) : Z := (sigma1 (at_ w (t - 2)) + at_ w (t - 7) + sigma0 (at_ w (t -
  15)) + at_ w (t - 16)) mod 2 ^ 32.
Definition schedule (block : list Z) : list Z := foldl (fun w t => w ++ [next_word w t]) (words block) (seq 16 48).
Definition step (w s : list Z) (t : nat) : list Z :=
  match s with
  | [a; b; c; d; e; f; g; h] =>
      let T1 := (h + Sigma1 e + Ch e f g + at_ K t + at_ w t) mod 2 ^ 32 in
      let T2 := (Sigma0 a + Maj a b c) mod 2 ^ 32 in
      [(T1 + T2) mod 2 ^ 32; a; b; c; (d + T1) mod 2 ^ 32; e; f; g]
  | _ => s
  end.
Definition compress (H block : list Z) : list Z := zip_with (fun a b => (a + b) mod 2 ^ 32) H (foldl (step
  (schedule block)) H (seq 0 64)).

Definition sha256 (msg : list Z) : list Z := concat (bytes 4 <$> foldl compress H0 (blocks (pad msg))).
End Fips.
