(* ===== verification/Sha256.v ===== *)
(** * SHA-256 of the loader integrity check (common/q/integrity_sha256.c)

    The context record, the big-endian codecs, the unrolled compression
    function, the streaming update and the finalisation.  [Blockwise] is the same hash on a whole
    message with the code's own tables and codecs; it is proved equal to
    [Fips], which shares nothing with the code. *)

From Stdlib Require Import ZArith Lia Bool Btauto.
From stdpp Require Import base numbers option list.
From S2P Require Import Prelude Fips.

Open Scope Z_scope.

Module Sha256.

(** ** Big-endian codecs *)

Fixpoint br_range_dec32be (count : nat) (p : list Z) : list Z :=
  match count, p with
  | S n, p0 :: p1 :: p2 :: p3 :: rest =>
      (((p0 <<< 24) ||| (p1 <<< 16)) ||| (p2 <<< 8) ||| p3)%cint :: br_range_dec32be n rest
  | _, _ => []
  end.

Definition enc32be (x : Z) : list Z :=
  map (fun j => u8 (x >>> (24 - 8 * j))%cint) [0; 1; 2; 3].

Definition br_range_enc32be (ws : list Z) (count : nat) : list Z :=
  concat (map enc32be (take count ws)).

Definition br_enc64be (value : Z) : list Z :=
  map (fun j => u8 (value >>> (56 - 8 * j))%cint) [0; 1; 2; 3; 4; 5; 6; 7].

(** ** Round functions *)

Definition CH (x y z : Z) : Z := (((y ^^^ z) &&& x) ^^^ z)%cint.
Definition MAJ (x y z : Z) : Z := ((y &&& z) ||| ((y ||| z) &&& x))%cint.
Definition ROTR (x n : Z) : Z := (u32 (x <<< (32 - n)) ||| (x >>> n))%cint.
Definition BSG2_0 (x : Z) : Z := (ROTR x 2 ^^^ ROTR x 13 ^^^ ROTR x 22)%cint.
Definition BSG2_1 (x : Z) : Z := (ROTR x 6 ^^^ ROTR x 11 ^^^ ROTR x 25)%cint.
Definition SSG2_0 (x : Z) : Z := (ROTR x 7 ^^^ ROTR x 18 ^^^ (x >>> 3))%cint.
Definition SSG2_1 (x : Z) : Z := (ROTR x 17 ^^^ ROTR x 19 ^^^ (x >>> 10))%cint.

Definition br_sha256_IV : list Z :=
  [0x6A09E667; 0xBB67AE85; 0x3C6EF372; 0xA54FF53A;
   0x510E527F; 0x9B05688C; 0x1F83D9AB; 0x5BE0CD19].

Definition K : list Z :=
  [0x428A2F98; 0x71374491; 0xB5C0FBCF; 0xE9B5DBA5;
   0x3956C25B; 0x59F111F1; 0x923F82A4; 0xAB1C5ED5;
   0xD807AA98; 0x12835B01; 0x243185BE; 0x550C7DC3;
   0x72BE5D74; 0x80DEB1FE; 0x9BDC06A7; 0xC19BF174;
   0xE49B69C1; 0xEFBE4786; 0x0FC19DC6; 0x240CA1CC;
   0x2DE92C6F; 0x4A7484AA; 0x5CB0A9DC; 0x76F988DA;
   0x983E5152; 0xA831C66D; 0xB00327C8; 0xBF597FC7;
   0xC6E00BF3; 0xD5A79147; 0x06CA6351; 0x14292967;
   0x27B70A85; 0x2E1B2138; 0x4D2C6DFC; 0x53380D13;
   0x650A7354; 0x766A0ABB; 0x81C2C92E; 0x92722C85;
   0xA2BFE8A1; 0xA81A664B; 0xC24B8B70; 0xC76C51A3;
   0xD192E819; 0xD6990624; 0xF40E3585; 0x106AA070;
   0x19A4C116; 0x1E376C08; 0x2748774C; 0x34B0BCB5;
   0x391C0CB3; 0x4ED8AA4A; 0x5B9CCA4F; 0x682E6FF3;
   0x748F82EE; 0x78A5636F; 0x84C87814; 0x8CC70208;
   0x90BEFFFA; 0xA4506CEB; 0xBEF9A3F7; 0xC67178F2].

(** Array reads of the fixed-size tables: every index the code uses is in range
    (lemma [schedule_length] and the length of [K]). *)
Definition at_ (l : list Z) (i : nat) : Z := nth i l 0.

Definition schedule_word (w : list Z) (i : nat) : Z :=
  u32 (SSG2_1 (at_ w (i - 2)) + at_ w (i - 7) + SSG2_0 (at_ w (i - 15)) + at_ w (i - 16)).

(** [for (i = 16; i < 64; i++) w[i] = ...]: the prefix [w[0..i)] grows. *)
Fixpoint schedule (n : nat) (w : list Z) : list Z :=
  match n with
  | O => w
  | S n' => schedule n' (w ++ [schedule_word w (length w)])
  end.

(** The macro [SHA2_STEP(A..H, j)]: the new values of its [D] and [H] operands. *)
Definition SHA2_STEP (w : list Z) (A B C D E F G H : Z) (j : nat) : Z * Z :=
  let T1 := u32 (H + BSG2_1 E + CH E F G + at_ K j + at_ w j) in
  let T2 := u32 (BSG2_0 A + MAJ A B C) in
  (u32 (D + T1), u32 (T1 + T2)).

Record regs := Regs { ra : Z; rb : Z; rc : Z; rd_ : Z; re : Z; rf : Z; rg : Z; rh : Z }.

(** The body of [for (i = 0; i < 64; i += 8)]: eight steps with rotated operands. *)
Definition eight_steps (w : list Z) (s : regs) (i : nat) : regs :=
  let 'Regs a b c d e f g h := s in
  let (d, h) := SHA2_STEP w a b c d e f g h (i + 0) in
  let (c, g) := SHA2_STEP w h a b c d e f g (i + 1) in
  let (b, f) := SHA2_STEP w g h a b c d e f (i + 2) in
  let (a, e) := SHA2_STEP w f g h a b c d e (i + 3) in
  let (h, d) := SHA2_STEP w e f g h a b c d (i + 4) in
  let (g, c) := SHA2_STEP w d e f g h a b c (i + 5) in
  let (f, b) := SHA2_STEP w c d e f g h a b (i + 6) in
  let (e, a) := SHA2_STEP w b c d e f g h a (i + 7) in
  Regs a b c d e f g h.

Definition regs_of (val : list Z) : regs :=
  Regs (at_ val 0) (at_ val 1) (at_ val 2) (at_ val 3)
       (at_ val 4) (at_ val 5) (at_ val 6) (at_ val 7).

Definition list_of (s : regs) : list Z :=
  [ra s; rb s; rc s; rd_ s; re s; rf s; rg s; rh s].

Definition br_sha2small_round (buf val : list Z) : list Z :=
  let w := schedule 48 (br_range_dec32be 16 buf) in
  let s := foldl (eight_steps w) (regs_of val) [0; 8; 16; 24; 32; 40; 48; 56]%nat in
  zip_with (fun v x => u32 (v + x)) val (list_of s).

(** ** The streaming context *)

Record context := Ctx { buf : list Z; count : Z; val : list Z }.

(** [hybris_sha256_init] leaves [buf] as it was. *)
Definition hybris_sha256_init (cc : context) : context :=
  Ctx (buf cc) 0 br_sha256_IV.

(** The [while (len > 0)] loop of [sha2small_update]: [data] is what is left of
    the input.  Each turn consumes at least one byte, so [length data] turns
    are enough (lemma [update_loop_done]). *)
Fixpoint update_loop (fuel : nat) (b v : list Z) (ptr : nat) (data : list Z)
  : list Z * list Z * list Z :=
  match fuel, data with
  | S fuel', _ :: _ =>
      let clen := if (length data <? 64 - ptr)%nat then length data else (64 - ptr)%nat in
      let b := blit b ptr (take clen data) in
      let ptr := (ptr + clen)%nat in
      let data := drop clen data in
      if (ptr =? 64)%nat then update_loop fuel' b (br_sha2small_round b v) 0 data
      else update_loop fuel' b v ptr data
  | _, _ => (b, v, data)
  end.

Definition sha2small_update (cc : context) (data : list Z) : context :=
  let ptr := Z.to_nat (Z.land (count cc) 63) in
  let '(b, v, _) := update_loop (length data) (buf cc) (val cc) ptr data in
  Ctx b (u64 (count cc + Z.of_nat (length data))) v.

Definition sha2small_out (cc : context) (num : nat) : list Z :=
  let ptr := Z.to_nat (Z.land (count cc) 63) in
  let b := take ptr (buf cc) ++ [0x80] in
  let ptr := S ptr in
  let '(b, v) :=
    if (56 <? ptr)%nat
    then (replicate 56 0, br_sha2small_round (b ++ replicate (64 - ptr) 0) (val cc))
    else (b ++ replicate (56 - ptr) 0, val cc) in
  let v := br_sha2small_round (b ++ br_enc64be (u64 (Z.shiftl (count cc) 3))) v in
  br_range_enc32be v num.

Definition hybris_sha256_update := sha2small_update.
Definition hybris_sha256_out (cc : context) : list Z := sha2small_out cc 8.

(** ** The hash of a whole message *)

Module Blockwise.
Definition Ch (x y z : Z) : Z := Z.lxor (Z.land x y) (Z.land (Z.lnot x) z).
Definition Maj (x y z : Z) : Z := Z.lxor (Z.lxor (Z.land x y) (Z.land x z)) (Z.land y z).

(** One step of section 6.2.2: the eight working variables shift by one. *)
Definition step (w : list Z) (s : regs) (t : nat) : regs :=
  let 'Regs a b c d e f g h := s in
  let T1 := u32 (h + BSG2_1 e + Ch e f g + at_ K t + at_ w t) in
  let T2 := u32 (BSG2_0 a + Maj a b c) in
  Regs (u32 (T1 + T2)) a b c (u32 (d + T1)) e f g.

Definition compress (val block : list Z) : list Z :=
  let w := schedule 48 (br_range_dec32be 16 block) in
  zip_with (fun v x => u32 (v + x)) val (list_of (foldl (step w) (regs_of val) (seq 0 64))).

(** Section 5.1.1: the bit [1], the least number of zero bits, the length. *)
Definition zeros (n : nat) : nat := ((64 - (n + 9) mod 64) mod 64)%nat.
Definition pad (msg : list Z) : list Z :=
  msg ++ [0x80] ++ replicate (zeros (length msg)) 0 ++ br_enc64be (8 * Z.of_nat (length msg)).

Fixpoint blocks (n : nat) (l : list Z) : list (list Z) :=
  match n with O => [] | S n' => take 64 l :: blocks n' (drop 64 l) end.

Definition sha256 (msg : list Z) : list Z :=
  let p := pad msg in
  br_range_enc32be (foldl compress br_sha256_IV (blocks (length p / 64) p)) 8.
End Blockwise.

(** ** The unrolled compression function *)

Lemma CH_Ch x y z : CH x y z = Blockwise.Ch x y z.
Proof. unfold CH, Blockwise.Ch. bitwise. Qed.

Lemma MAJ_Maj x y z : MAJ x y z = Blockwise.Maj x y z.
Proof. unfold MAJ, Blockwise.Maj. bitwise. Qed.

Lemma step_SHA2_STEP w a b c d e f g h j :
  Blockwise.step w (Regs a b c d e f g h) j
  = let (d', h') := SHA2_STEP w a b c d e f g h j in Regs h' a b c d' e f g.
Proof. unfold Blockwise.step, SHA2_STEP. now rewrite CH_Ch, MAJ_Maj. Qed.

Lemma eight_steps_steps w s i :
  eight_steps w s i = foldl (Blockwise.step w) s (seq i 8).
Proof.
  destruct s as [a b c d e f g h]. cbn [seq foldl eight_steps].
  rewrite !Nat.add_succ_r, <- !plus_n_O.
  do 8 (rewrite step_SHA2_STEP;
        match goal with |- context [SHA2_STEP ?w ?a ?b ?c ?d ?e ?f ?g ?h ?j] =>
          destruct (SHA2_STEP w a b c d e f g h j) as [? ?] end).
  reflexivity.
Qed.

Lemma unrolled_rounds w s :
  foldl (eight_steps w) s [0; 8; 16; 24; 32; 40; 48; 56]%nat
  = foldl (Blockwise.step w) s (seq 0 64).
Proof.
  change (seq 0 64) with (seq 0 8 ++ seq 8 8 ++ seq 16 8 ++ seq 24 8 ++ seq 32 8
                          ++ seq 40 8 ++ seq 48 8 ++ seq 56 8).
  rewrite !foldl_app. cbn [foldl]. now rewrite !eight_steps_steps.
Qed.

Lemma round_compress block v : br_sha2small_round block v = Blockwise.compress v block.
Proof. unfold br_sha2small_round, Blockwise.compress. now rewrite unrolled_rounds. Qed.

Lemma schedule_length n w : length (schedule n w) = (n + length w)%nat.
Proof.
  revert w; induction n as [|n IH]; intros w; simpl; [reflexivity|].
  rewrite IH, length_app. simpl. lia.
Qed.

Lemma schedule_prefix n w : take (length w) (schedule n w) = w.
Proof.
  revert w; induction n as [|n IH]; intros w; simpl; [apply take_ge; lia|].
  specialize (IH (w ++ [schedule_word w (length w)])).
  apply (f_equal (take (length w))) in IH.
  rewrite take_take, take_app_le, (take_ge w) in IH by lia.
  rewrite length_app in IH. now rewrite Nat.min_l in IH by lia.
Qed.

Lemma at_take l n i : (i < n)%nat -> at_ (take n l) i = at_ l i.
Proof.
  intros. unfold at_. rewrite !nth_lookup. now rewrite lookup_take_lt by lia.
Qed.

Lemma schedule_word_take l i n :
  (16 <= i <= n)%nat -> schedule_word (take n l) i = schedule_word l i.
Proof. intros. unfold schedule_word. now rewrite !at_take by lia. Qed.

Lemma schedule_recurrence n w t :
  (16 <= length w <= t)%nat -> (t < n + length w)%nat ->
  at_ (schedule n w) t = schedule_word (schedule n w) t.
Proof.
  revert w; induction n as [|n IH]; intros w Hw Ht; [lia|]. simpl.
  destruct (decide (t = length w)) as [->|].
  - pose proof (schedule_prefix n (w ++ [schedule_word w (length w)])) as P.
    set (S := schedule n _) in *. rewrite length_app in P. simpl in P.
    rewrite <- (at_take S (length w + 1)), P by lia.
    rewrite <- (schedule_word_take S _ (length w + 1)), P by lia.
    rewrite <- (schedule_word_take (w ++ _) _ (length w)) by lia.
    rewrite take_app_le, take_ge by lia.
    unfold at_. rewrite nth_lookup, lookup_app_r, Nat.sub_diag by lia. reflexivity.
  - apply IH; rewrite length_app; simpl; lia.
Qed.

Lemma length_dec32be n l :
  length l = (4 * n)%nat -> length (br_range_dec32be n l) = n.
Proof.
  revert l; induction n as [|n IH]; intros l Hl; [reflexivity|].
  do 4 (destruct l as [|? l]; [simpl in Hl; lia|]). simpl in *. rewrite IH; lia.
Qed.

(** ** Splitting a message into blocks *)

Lemma blocks_plus n m l :
  Blockwise.blocks (n + m) l = Blockwise.blocks n l ++ Blockwise.blocks m (drop (64 * n) l).
Proof.
  revert l; induction n as [|n IH]; intros l; [reflexivity|].
  cbn [Blockwise.blocks Nat.add app]. rewrite IH, drop_drop. do 4 f_equal. lia.
Qed.

Lemma blocks_app_l n l r :
  (64 * n <= length l)%nat -> Blockwise.blocks n (l ++ r) = Blockwise.blocks n l.
Proof.
  revert l; induction n as [|n IH]; intros l Hl; [reflexivity|]. cbn [Blockwise.blocks].
  rewrite take_app_le, drop_app_le, IH by (rewrite ?length_drop; lia). reflexivity.
Qed.

(** The whole blocks of a message and its pending tail. *)
Definition whole (l : list Z) : list (list Z) := Blockwise.blocks (length l / 64) l.
Definition pending (l : list Z) : list Z := drop (64 * (length l / 64)) l.

Lemma length_pending l : length (pending l) = (length l mod 64)%nat.
Proof. unfold pending. rewrite length_drop. pose proof (Nat.div_mod_eq (length l) 64). lia. Qed.

Lemma div64_app (l r : list Z) :
  (length (l ++ r) / 64 = length l / 64 + length (pending l ++ r) / 64)%nat.
Proof.
  rewrite !length_app, length_pending.
  rewrite (Nat.div_mod_eq (length l) 64) at 1.
  rewrite (Nat.mul_comm 64), <- Nat.add_assoc, Nat.div_add_l by lia. reflexivity.
Qed.

Lemma whole_app l r : whole (l ++ r) = whole l ++ whole (pending l ++ r).
Proof.
  pose proof (Nat.div_mod_eq (length l) 64).
  unfold whole. rewrite div64_app, blocks_plus, blocks_app_l by lia.
  unfold pending at 3. now rewrite drop_app_le by lia.
Qed.

Lemma pending_app l r : pending (l ++ r) = pending (pending l ++ r).
Proof.
  pose proof (Nat.div_mod_eq (length l) 64).
  unfold pending at 1. rewrite div64_app, Nat.mul_add_distr_l, <- drop_drop, drop_app_le by lia.
  reflexivity.
Qed.

Lemma whole_short l : (length l < 64)%nat -> whole l = [].
Proof. intros. unfold whole. now rewrite Nat.div_small by lia. Qed.

Lemma pending_short l : (length l < 64)%nat -> pending l = l.
Proof. intros. unfold pending. now rewrite Nat.div_small by lia. Qed.

Lemma whole_block b r : length b = 64%nat -> whole (b ++ r) = b :: whole r.
Proof.
  intros Hb. rewrite whole_app. unfold whole at 1, pending. rewrite Hb. simpl.
  rewrite take_ge, drop_ge by lia. reflexivity.
Qed.

Lemma pending_block b r : length b = 64%nat -> pending (b ++ r) = pending r.
Proof. intros Hb. rewrite pending_app. unfold pending at 2. rewrite drop_ge; [reflexivity|]. now rewrite Hb. Qed.

(** ** The update loop *)

Lemma tail_pending (b v : list Z) ptr :
  (ptr < 64)%nat -> length b = 64%nat ->
  let full := take ptr b ++ [] in
  @nil Z = [] /\ length b = 64%nat /\ v = foldl Blockwise.compress v (whole full) /\
  take (length full mod 64) b = pending full.
Proof.
  intros Hp Hb. cbv zeta. rewrite app_nil_r, length_take, Hb, Nat.min_l by lia.
  rewrite whole_short, pending_short, Nat.mod_small by (rewrite ?length_take; lia). auto.
Qed.

Lemma update_loop_done fuel b v ptr data :
  (length data <= fuel)%nat -> (ptr < 64)%nat -> length b = 64%nat ->
  let '(b', v', rest) := update_loop fuel b v ptr data in
  let full := take ptr b ++ data in
  rest = [] /\ length b' = 64%nat /\ v' = foldl Blockwise.compress v (whole full) /\
  take (length full mod 64) b' = pending full.
Proof.
  revert b v ptr data; induction fuel as [|fuel IH]; intros b v ptr data Hf Hp Hb.
  { destruct data; [now apply tail_pending | simpl in Hf; lia]. }
  destruct data as [|x data']; [now apply tail_pending|].
  cbn [update_loop]. set (data := x :: data') in *.
  set (clen := if (length data <? 64 - ptr)%nat then length data else (64 - ptr)%nat).
  assert (clen = Nat.min (length data) (64 - ptr)) as Hc.
  { unfold clen. destruct (Nat.ltb_spec (length data) (64 - ptr)); lia. }
  assert (length (take clen data) = clen) as Ht by (rewrite length_take; lia).
  assert (length (blit b ptr (take clen data)) = 64%nat) as Hb' by (rewrite length_blit; lia).
  pose proof (take_blit b (take clen data) ptr ltac:(lia)) as Htb. rewrite Ht in Htb.
  assert (0 < length data)%nat by (subst data; simpl; lia).
  destruct (Nat.eqb_spec (ptr + clen) 64) as [He|He].
  - set (b1 := blit b ptr (take clen data)) in *.
    specialize (IH b1 (br_sha2small_round b1 v) O (drop clen data)).
    destruct (update_loop _ _ _ _ _) as [[b' v'] rest]. rewrite take_0, app_nil_l in IH. cbv zeta in IH.
    destruct IH as (IH1 & IH2 & IH3 & IH4); [rewrite length_drop; lia | lia | lia |].
    rewrite He, take_ge in Htb by lia.
    assert (take ptr b ++ data = b1 ++ drop clen data) as ->.
    { rewrite Htb, <- app_assoc, take_drop. reflexivity. }
    cbv zeta. rewrite whole_block, pending_block by lia. repeat split; auto.
    + simpl. now rewrite IH3, round_compress.
    + rewrite <- IH4. f_equal. rewrite length_app, Hb'.
      rewrite <- (Nat.Div0.add_mod_idemp_l 64). reflexivity.
  - assert (clen = length data) as Hd by lia.
    specialize (IH (blit b ptr (take clen data)) v (ptr + clen)%nat (drop clen data)).
    destruct (update_loop _ _ _ _ _) as [[b' v'] rest].
    rewrite Htb, Hd, !(drop_ge data), !(take_ge data), app_nil_r in IH by lia.
    rewrite Hd, take_ge in Hb' by lia. apply IH; [simpl; lia | lia | exact Hb'].
Qed.

(** What a context that has absorbed [msg] holds. *)
Definition absorbed (cc : context) (msg : list Z) : Prop :=
  length (buf cc) = 64%nat /\
  count cc = u64 (Z.of_nat (length msg)) /\
  val cc = foldl Blockwise.compress br_sha256_IV (whole msg) /\
  take (length msg mod 64) (buf cc) = pending msg.

Lemma count_ptr n : Z.to_nat (Z.land (u64 (Z.of_nat n)) 63) = (n mod 64)%nat.
Proof.
  change 63 with (Z.ones 6). rewrite Z.land_ones by lia. unfold wrap.
  rewrite Z.mod_mod_divide by (exists (2 ^ 58); reflexivity).
  rewrite <- (Nat2Z.id (n mod 64)). f_equal. now rewrite Nat2Z.inj_mod.
Qed.

Lemma absorbed_init cc : length (buf cc) = 64%nat -> absorbed (hybris_sha256_init cc) [].
Proof. intros H. repeat split; auto. Qed.

Lemma absorbed_update cc msg data :
  absorbed cc msg -> absorbed (hybris_sha256_update cc data) (msg ++ data).
Proof.
  intros (Hb & Hc & Hv & Hp). unfold hybris_sha256_update, sha2small_update.
  rewrite Hc, count_ptr.
  pose proof (update_loop_done (length data) (buf cc) (val cc) (length msg mod 64) data
    (Nat.le_refl _) ltac:(apply Nat.mod_upper_bound; lia) Hb) as U.
  destruct (update_loop _ _ _ _ _) as [[b' v'] rest]. cbv zeta in U. rewrite Hp in U.
  destruct U as (_ & U2 & U3 & U4). repeat split; cbn [buf count val].
  - exact U2.
  - rewrite length_app, Nat2Z.inj_add. unfold wrap. now rewrite Z.add_mod_idemp_l.
  - now rewrite U3, Hv, (whole_app msg), foldl_app.
  - rewrite pending_app, <- U4, !length_app, length_pending.
    now rewrite Nat.Div0.add_mod_idemp_l.
Qed.

Lemma absorbed_updates chunks cc msg :
  absorbed cc msg -> absorbed (foldl hybris_sha256_update cc chunks) (msg ++ concat chunks).
Proof.
  revert cc msg; induction chunks as [|d ds IH]; intros cc msg H; simpl.
  - now rewrite app_nil_r.
  - rewrite app_assoc. now apply IH, absorbed_update.
Qed.

(** ** Finalisation *)

Lemma enc64be_wrap z : br_enc64be (u64 z) = br_enc64be z.
Proof.
  unfold br_enc64be. apply map_ext_in. intros j Hj.
  assert (0 <= j <= 7) by (simpl in Hj; intuition lia).
  apply Z.bits_inj'. intros i Hi.
  rewrite !wrap_testbit, !Z.shiftr_spec by lia.
  destruct (Z.ltb_spec i 8); [|reflexivity]. simpl.
  rewrite wrap_testbit by lia. destruct (Z.ltb_spec (i + (56 - 8 * j)) 64); [reflexivity|lia].
Qed.

Lemma enc64be_count n :
  br_enc64be (u64 (Z.shiftl (u64 (Z.of_nat n)) 3)) = br_enc64be (8 * Z.of_nat n).
Proof.
  rewrite enc64be_wrap, Z.shiftl_mul_pow2 by lia. change (2 ^ 3) with 8.
  rewrite <- enc64be_wrap, <- (enc64be_wrap (8 * _)). f_equal. unfold wrap.
  now rewrite Z.mul_mod_idemp_l, Z.mul_comm by lia.
Qed.

Lemma sha256_pending msg :
  Blockwise.sha256 msg
  = let r := length (pending msg) in
    br_range_enc32be
      (foldl Blockwise.compress (foldl Blockwise.compress br_sha256_IV (whole msg))
         (whole (pending msg ++ [0x80] ++ replicate (Blockwise.zeros r) 0
                 ++ br_enc64be (8 * Z.of_nat (length msg))))) 8.
Proof.
  unfold Blockwise.sha256. cbv zeta. fold (whole (Blockwise.pad msg)). unfold Blockwise.pad.
  rewrite whole_app, foldl_app, length_pending. do 6 f_equal.
  unfold Blockwise.zeros. rewrite (Nat.Div0.add_mod (length msg mod 64)), Nat.Div0.mod_mod.
  now rewrite <- Nat.Div0.add_mod.
Qed.

Lemma absorbed_out cc msg :
  absorbed cc msg -> hybris_sha256_out cc = Blockwise.sha256 msg.
Proof.
  intros (Hb & Hc & Hv & Hp). unfold hybris_sha256_out, sha2small_out.
  rewrite Hc, count_ptr, Hp, enc64be_count, Hv, sha256_pending. cbv zeta.
  pose proof (length_pending msg) as Hr. rewrite <- Hr.
  assert (length (pending msg) < 64)%nat by (rewrite Hr; apply Nat.mod_upper_bound; lia).
  set (r := length (pending msg)) in *. set (E := br_enc64be _).
  assert (length E = 8%nat) by reflexivity.
  destruct (Nat.ltb_spec 56 (S r)).
  - rewrite !round_compress.
    assert (Blockwise.zeros r = (64 - S r) + 56)%nat as ->.
    { unfold Blockwise.zeros. replace (r + 9)%nat with (r - 55 + 1 * 64)%nat by lia.
      rewrite Nat.Div0.mod_add, (Nat.mod_small (r - 55)) by lia.
      rewrite Nat.mod_small; lia. }
    rewrite replicate_add.
    replace (pending msg ++ [128] ++ (replicate (64 - S r) 0 ++ replicate 56 0) ++ E)
      with (((pending msg ++ [128]) ++ replicate (64 - S r) 0) ++ replicate 56 0 ++ E)
      by now rewrite <- !app_assoc.
    rewrite whole_block by (rewrite !length_app, length_replicate; simpl; fold r; lia).
    rewrite <- (app_nil_r (replicate 56 0 ++ E)) at 2.
    rewrite whole_block by (rewrite !length_app, length_replicate; lia). reflexivity.
  - rewrite round_compress.
    assert (Blockwise.zeros r = 56 - S r)%nat as ->.
    { unfold Blockwise.zeros. destruct (decide (r = 55%nat)) as [->|]; [reflexivity|].
      rewrite (Nat.mod_small (r + 9)) by lia. rewrite Nat.mod_small; lia. }
    replace (pending msg ++ [128] ++ replicate (56 - S r) 0 ++ E)
      with ((((pending msg ++ [128]) ++ replicate (56 - S r) 0) ++ E) ++ [])
      by now rewrite app_nil_r, <- !app_assoc.
    rewrite whole_block by (rewrite !length_app, length_replicate; simpl; fold r; lia).
    reflexivity.
Qed.

(** ** The tables, codecs and rotations are those of the standard *)

Lemma constants_fips : Fips.K = K /\ Fips.H0 = br_sha256_IV.
Proof. split; vm_compute; reflexivity. Qed.

Lemma ROTR_rotr x n : in_range 32 x -> 0 < n < 32 -> ROTR x n = Fips.rotr n x.
Proof.
  intros Hx Hn. unfold ROTR, Fips.rotr. rewrite Z.shiftl_mul_pow2, Z.shiftr_div_pow2 by lia.
  assert (u32 (x * 2 ^ (32 - n)) = Z.shiftl (x mod 2 ^ n) (32 - n)) as ->.
  { unfold wrap. replace (2 ^ 32) with (2 ^ n * 2 ^ (32 - n)) at 1 by (rewrite <- Z.pow_add_r by lia; f_equal; lia).
    rewrite Z.mul_mod_distr_r by (apply Z.pow_nonzero; lia). now rewrite Z.shiftl_mul_pow2 by lia. }
  rewrite Z.lor_comm, lor_shift; [reflexivity|lia|]. unfold in_range in Hx. split; [apply Z.div_pos; lia|].
  apply Z.div_lt_upper_bound; [lia|]. rewrite <- Z.pow_add_r by lia. replace (n + (32 - n)) with 32 by lia. lia.
Qed.

Lemma sigmas_fips x : in_range 32 x -> BSG2_0 x = Fips.Sigma0 x /\ BSG2_1 x = Fips.Sigma1 x /\ SSG2_0 x =
  Fips.sigma0 x /\ SSG2_1 x = Fips.sigma1 x.
Proof.
  intros Hx.
    unfold BSG2_0, BSG2_1, SSG2_0, SSG2_1, Fips.Sigma0, Fips.Sigma1, Fips.sigma0, Fips.sigma1, Fips.xor3, Fips.shr.
  rewrite !ROTR_rotr, !Z.shiftr_div_pow2 by (auto; lia). auto.
Qed.

Lemma at_same l t : Fips.at_ l t = at_ l t.
Proof. unfold Fips.at_, at_. rewrite nth_lookup. reflexivity. Qed.

Lemma at_range l t : Forall (in_range 32) l -> in_range 32 (at_ l t).
Proof. intros H. unfold at_. rewrite nth_lookup. destruct (l !! t) as [x|] eqn:E;
  [exact (Forall_lookup_1 _ _ _ _ H E)|unfold in_range; cbn; lia]. Qed.

Lemma word_four a b c d : in_range 8 a -> in_range 8 b -> in_range 8 c -> in_range 8 d ->
  ((((a <<< 24) ||| (b <<< 16)) ||| (c <<< 8) ||| d)%cint = Fips.word [a; b; c;
    d]) /\ in_range 32 (Fips.word [a; b; c; d]).
Proof.
  unfold in_range. intros Ha Hb Hc Hd. unfold Fips.word. cbn [foldl]. split; [|lia].
  transitivity (Z.lor (Z.lor (Z.lor d (Z.shiftl c 8)) (Z.shiftl b 16)) (Z.shiftl a 24)); [bitwise|].
  rewrite (lor_shift d c 8) by lia. rewrite (lor_shift _ b 16) by lia. rewrite (lor_shift _ a 24) by lia. lia.
Qed.

Lemma dec32be_words n : forall l, length l = (4 * n)%nat -> Forall (in_range 8) l ->
  br_range_dec32be n l = (fun t => Fips.word (take 4 (drop (4 * t) l))) <$> seq 0 n /\ Forall (in_range 32)
  (br_range_dec32be n l).
Proof.
  induction n as [|n IH]; intros l Hl Hb; [split; [reflexivity|constructor]|].
  do 4 (destruct l as [|? l]; [simpl in Hl; lia|]). rewrite !Forall_cons in Hb.
    destruct Hb as (H0 & H1 & H2 & H3 & Hb).
  destruct (IH l ltac:(simpl in Hl; lia) Hb) as [IH1 IH2]. cbn [br_range_dec32be].
    destruct (word_four z z0 z1 z2 H0 H1 H2 H3) as [-> Hr]. split; [|constructor; [exact Hr|exact IH2]].
  rewrite IH1. cbn [seq fmap list_fmap]. f_equal. rewrite <- seq_shift.
    change (list_fmap ?A ?B ?f ?l) with (f <$> l). rewrite <- list_fmap_compose. apply list_fmap_ext.
    intros i t _. unfold compose. do 2 f_equal. replace (4 * S t)%nat with (4 + 4 * t)%nat by lia.
    reflexivity.
Qed.

Lemma words_fips block : length block = 64%nat -> Forall (in_range 8) block -> br_range_dec32be 16 block =
  Fips.words block /\ Forall (in_range 32) (Fips.words block).
Proof. intros Hl Hb. destruct (dec32be_words 16 block Hl Hb) as [H1 H2]. unfold Fips.words. rewrite <- H1. auto. Qed.

Lemma schedule_words n : forall w, Forall (in_range 32) w -> schedule n w = foldl (fun w t => w ++
  [Fips.next_word w t]) w (seq (length w) n) /\ Forall (in_range 32) (schedule n w).
Proof.
  induction n as [|n IH]; intros w Hw; [auto|]. cbn [schedule seq foldl].
  assert (schedule_word w (length w) = Fips.next_word w (length w)) as E.
  { unfold schedule_word, Fips.next_word. rewrite !at_same.
    destruct (sigmas_fips (at_ w (length w - 2)) (at_range w _ Hw)) as (_ & _ & _ & ->).
    destruct (sigmas_fips (at_ w (length w - 15)) (at_range w _ Hw)) as (_ & _ & -> & _). reflexivity. }
  destruct (IH (w ++ [schedule_word w (length w)])) as [H1 H2]; [apply Forall_app; split;
    [exact Hw|constructor; [apply wrap_range; lia|constructor]]|]. split; [|exact H2].
  rewrite H1, E, length_app. cbn [length]. now rewrite Nat.add_1_r.
Qed.

Lemma schedule_is_fips block : length block = 64%nat -> Forall (in_range 8) block -> schedule 48
  (br_range_dec32be 16 block) = Fips.schedule block.
Proof.
  intros Hl Hb. destruct (words_fips block Hl Hb) as [-> Hr]. unfold Fips.schedule.
    rewrite (proj1 (schedule_words 48 _ Hr)). unfold Fips.words. now rewrite length_fmap, length_seq.
Qed.

Definition regs_range (s : regs) : Prop := Forall (in_range 32) (list_of s).
Lemma step_fips w s t : regs_range s -> list_of (Blockwise.step w s t) = Fips.step w (list_of s) t /\ regs_range
  (Blockwise.step w s t).
Proof.
  destruct s as [a b c d e f g h]. unfold regs_range, list_of.
    cbn [ra rb rc rd_ re rf rg rh Blockwise.step Fips.step]. rewrite !Forall_cons.
    intros (Ha & Hb & Hc & Hd & He & Hf & Hg & Hh & _).
  destruct (sigmas_fips a Ha) as (-> & _). destruct (sigmas_fips e He) as (_ & -> & _).
    destruct constants_fips as [-> _]. rewrite !at_same. split; [reflexivity|]. repeat (split;
    [first [assumption|apply wrap_range; lia]|]). constructor.
Qed.

Lemma steps_fips w l : forall s, regs_range s -> list_of (foldl (Blockwise.step w) s l) = foldl (Fips.step w)
  (list_of s) l /\ regs_range (foldl (Blockwise.step w) s l).
Proof. induction l as [|t l IH]; intros s Hs; [auto|]. cbn [foldl]. destruct (step_fips w s t Hs) as [E R].
  rewrite <- E. now apply IH. Qed.

(** A chaining value. *)
Definition value_ok (v : list Z) : Prop := length v = 8%nat /\ Forall (in_range 32) v.
Lemma regs_of_list v : value_ok v -> list_of (regs_of v) = v /\ regs_range (regs_of v).
Proof.
  intros [Hl Hr]. assert (list_of (regs_of v) = v) as E; [|split; [exact E|unfold regs_range; now rewrite E]].
  do 8 (destruct v as [|? v]; [discriminate|]). destruct v; [reflexivity|discriminate].
Qed.

Lemma compress_fips v block : value_ok v -> length block = 64%nat -> Forall (in_range 8) block ->
  Blockwise.compress v block = Fips.compress v block /\ value_ok (Fips.compress v block).
Proof.
  intros Hv Hl Hb. destruct (regs_of_list v Hv) as [E R]. unfold Blockwise.compress.
    rewrite (schedule_is_fips block Hl Hb). cbv zeta.
    destruct (steps_fips (Fips.schedule block) (seq 0 64) _ R) as [Es Rs]. rewrite E in Es. rewrite Es.
    split; [reflexivity|].
  unfold Fips.compress. rewrite <- Es. destruct Hv as [Hv1 Hv2]. split; [rewrite length_zip_with, Hv1;
    reflexivity|]. apply Forall_lookup. intros i x Hx. apply lookup_zip_with_Some in Hx as (? & ? & -> & _).
    apply (wrap_range 32). lia.
Qed.

Lemma compress_all_fips bs : forall v, value_ok v -> Forall (fun b => length b = 64%nat /\ Forall (in_range 8)
  b) bs -> foldl Blockwise.compress v bs = foldl Fips.compress v bs /\ value_ok (foldl Fips.compress v bs).
Proof. induction bs as [|b bs IH]; intros v Hv Hb; [auto|]. apply Forall_cons in Hb as [[H1 H2] Hb].
  cbn [foldl]. destruct (compress_fips v b Hv H1 H2) as [-> Hv']. now apply IH. Qed.

Lemma blocks_fips n : forall l, Blockwise.blocks n l = (fun k => take 64 (drop (64 * k) l)) <$> seq 0 n.
Proof.
  induction n as [|n IH]; intros l; [reflexivity|]. cbn [Blockwise.blocks seq fmap list_fmap]. f_equal.
    rewrite IH, <- seq_shift. change (list_fmap ?A ?B ?f ?l) with (f <$> l). rewrite <- list_fmap_compose.
    apply list_fmap_ext. intros i t _. unfold compose. f_equal. rewrite drop_drop. f_equal. lia.
Qed.

Lemma enc_bytes v : enc32be v = Fips.bytes 4 v /\ br_enc64be v = Fips.bytes 8 v.
Proof. unfold enc32be, br_enc64be, Fips.bytes. cbn -[Z.shiftr Z.div Z.pow].
  rewrite !Z.shiftr_div_pow2 by lia. split; reflexivity. Qed.

Lemma enc_words ws : length ws = 8%nat -> br_range_enc32be ws 8 = concat (Fips.bytes 4 <$> ws).
Proof.
  intros Hl. unfold br_range_enc32be. rewrite take_ge by lia. f_equal.
  apply list_fmap_ext. intros i x _. exact (proj1 (enc_bytes x)).
Qed.

Lemma pad_fips msg : Blockwise.pad msg = Fips.pad msg.
Proof.
  unfold Blockwise.pad, Fips.pad. cbv zeta. rewrite (proj2 (enc_bytes _)). do 4 f_equal.
    unfold Blockwise.zeros. apply Nat2Z.inj. rewrite Z2Nat.id by (apply Z.mod_pos_bound; lia).
  set (n := length msg).
    rewrite Nat2Z.inj_mod, Nat2Z.inj_sub by (pose proof (Nat.mod_upper_bound (n + 9) 64); lia).
    rewrite Nat2Z.inj_mod, Nat2Z.inj_add. change (Z.of_nat 64) with 64. change (Z.of_nat 9) with 9.
  rewrite Zminus_mod_idemp_r. replace (64 - (Z.of_nat n + 9)) with (55 - Z.of_nat n) by lia. reflexivity.
Qed.

Lemma pad_bytes msg : Forall (in_range 8) msg -> Forall (in_range 8) (Fips.pad msg).
Proof.
  intros H. unfold Fips.pad. cbv zeta. rewrite !Forall_app. split; [exact H|]. split; [repeat constructor;
    lia|]. split; [apply Forall_replicate; unfold in_range; lia|]. apply Forall_fmap, Forall_true. intros x.
    apply (wrap_range 8). lia.
Qed.

Lemma blockwise_fips msg : Forall (in_range 8) msg -> Blockwise.sha256 msg = Fips.sha256 msg.
Proof.
  intros Hm. unfold Blockwise.sha256, Fips.sha256, Fips.blocks. cbv zeta. rewrite pad_fips, blocks_fips.
    set (bs := _ <$> seq 0 _). destruct constants_fips as [_ E]. rewrite E.
  assert (Forall (fun b => length b = 64%nat /\ Forall (in_range 8) b) bs) as Hbs.
  { apply Forall_fmap, Forall_seq. intros k Hk. unfold compose. split;
    [|apply Forall_take, Forall_drop, pad_bytes, Hm]. rewrite length_take, length_drop.
    pose proof (Nat.Div0.mul_div_le (length (Fips.pad msg)) 64). lia. }
  destruct (compress_all_fips bs br_sha256_IV) as [-> [Hl _]]; [split; [reflexivity|repeat constructor;
    unfold in_range; lia]|exact Hbs|]. exact (enc_words _ Hl).
Qed.

(** C29: hashing any sequence of chunks of bytes through [hybris_sha256_init],
    [hybris_sha256_update] and [hybris_sha256_out] yields the FIPS 180-4 SHA-256
    digest of their concatenation, however the message is cut into chunks and
    whatever bytes the (64-byte) block buffer held before [init]. *)
Theorem streaming_sha256 cc chunks :
  length (buf cc) = 64%nat -> Forall (in_range 8) (concat chunks) ->
  hybris_sha256_out (foldl hybris_sha256_update (hybris_sha256_init cc) chunks)
  = Fips.sha256 (concat chunks).
Proof. intros H Hb. rewrite <- blockwise_fips by exact Hb.
  now apply absorbed_out, (absorbed_updates chunks _ []), absorbed_init. Qed.

Lemma streaming_sha256_witness :
  hybris_sha256_out (foldl hybris_sha256_update
    (hybris_sha256_init (Ctx (replicate 64 0xAA) 5 [])) [[97]; []; [98; 99]])
  = Fips.sha256 [97; 98; 99].
Proof.
  apply (streaming_sha256 (Ctx (replicate 64 0xAA) 5 []) [[97]; []; [98; 99]] eq_refl).
  repeat constructor; lia.
Defined.

(** The test vector of the standard. *)
Example digest_of_abc :
  hybris_sha256_out (foldl hybris_sha256_update
    (hybris_sha256_init (Ctx (replicate 64 0xAA) 5 [])) [[97]; []; [98; 99]])
  = [186; 120; 22; 191; 143; 1; 207; 234; 65; 65; 64; 222; 93; 174; 34; 35;
     176; 3; 97; 163; 150; 23; 122; 156; 180; 16; 255; 97; 242; 0; 21; 173].
Proof. vm_compute. reflexivity. Qed.

Lemma schedule_word_eq w i :
  schedule_word w i
  = u32 (SSG2_1 (at_ w (i - 2)) + at_ w (i - 7) + SSG2_0 (at_ w (i - 15)) + at_ w (i - 16)).
Proof. reflexivity. Qed.

Lemma schedule_fips ws :
  length ws = 16%nat ->
  exists w,
    length w = 64%nat /\ take 16 w = ws /\
    (forall t, (16 <= t < 64)%nat ->
       at_ w t = u32 (SSG2_1 (at_ w (t - 2)) + at_ w (t - 7)
                      + SSG2_0 (at_ w (t - 15)) + at_ w (t - 16))) /\
    w = schedule 48 ws.
Proof.
  intros Hl. pose proof (schedule_length 48 ws) as L. pose proof (schedule_prefix 48 ws) as P.
  pose proof (schedule_recurrence 48 ws) as R.
  remember (schedule 48 ws) as w eqn:Hw. rewrite Hl in *.
  exists w. split; [exact L|]. split; [exact P|]. split; [|reflexivity].
  intros t Ht. rewrite <- schedule_word_eq. apply R; lia.
Qed.

(** The compression function computed by [br_sha2small_round] is that of
    FIPS 180-4: there is a 64-word message schedule that starts with the block
    in big-endian words, satisfies the standard's recurrence in all later
    positions, and the result adds to the chaining value the working variables
    after 64 standard steps over that schedule. *)
Theorem round_is_fips block v :
  length block = 64%nat ->
  exists w,
    length w = 64%nat /\ take 16 w = br_range_dec32be 16 block /\
    (forall t, (16 <= t < 64)%nat ->
       at_ w t = u32 (SSG2_1 (at_ w (t - 2)) + at_ w (t - 7)
                      + SSG2_0 (at_ w (t - 15)) + at_ w (t - 16))) /\
    br_sha2small_round block v
    = zip_with (fun a b => u32 (a + b)) v (list_of (foldl (Blockwise.step w) (regs_of v) (seq 0 64))).
Proof.
  intros Hb. pose proof (length_dec32be 16 block Hb) as Hl.
  destruct (schedule_fips _ Hl) as (w & H1 & H2 & H3 & Hw).
  exists w. split; [exact H1|]. split; [exact H2|]. split; [exact H3|].
  rewrite round_compress. unfold Blockwise.compress. cbv zeta. rewrite <- Hw. reflexivity.
Qed.

Lemma round_is_fips_witness :
  exists w, length w = 64%nat /\ take 16 w = replicate 16 0x01010101.
Proof.
  destruct (round_is_fips (replicate 64 1) br_sha256_IV eq_refl) as (w & H1 & H2 & _).
  exists w. split; [exact H1 | rewrite H2; reflexivity].
Defined.

(** [ROTR] rotates: bit [i] of the result is bit [(i + n) mod 32] of the word. *)
Theorem ROTR_rotates x n i :
  in_range 32 x -> 0 <= n < 32 -> 0 <= i < 32 ->
  Z.testbit (ROTR x n) i = Z.testbit x ((i + n) mod 32).
Proof.
  intros Hx Hn Hi. unfold ROTR. rewrite Z.lor_spec, wrap_testbit, Z.shiftr_spec by lia.
  destruct (Z.ltb_spec i 32); [|lia]. simpl. rewrite Z.shiftl_spec by lia.
  destruct (Z_lt_le_dec (i + n) 32).
  - rewrite Z.mod_small, (Z.testbit_neg_r x) by lia. reflexivity.
  - rewrite (testbit_high 32 x (i + n)) by (auto; lia). rewrite orb_false_r. f_equal.
    rewrite <- (Z.mod_add (i + n) (-1)), Z.mod_small; lia.
Qed.

Lemma ROTR_rotates_witness : Z.testbit (ROTR 0x80000001 4) 28 = Z.testbit 0x80000001 0.
Proof. apply (ROTR_rotates 0x80000001 4 28); unfold in_range; lia. Defined.
End Sha256.
