(* ===== verification/A64.v ===== *)
(** * The AArch64 instructions the TLS thunks are made of

    A decoder and a small-step semantics for the A64 subset that
    [tls_patcher_aarch64.c] emits (Arm ARM, C6.2): 64-bit general registers,
    the stack pointer, [TPIDR_EL0], a program counter, an instruction memory of
    32-bit words and a data memory of naturally aligned 64-bit cells.  An
    unaligned access or a fetch outside mapped code has no successor. *)

From Stdlib Require Import ZArith Lia Bool.
From stdpp Require Import base numbers option gmap.
From S2P Require Import Prelude.

Open Scope Z_scope.

Module A64.

Inductive instr : Type :=
| Stp_pre (rt rt2 rn imm : Z)    (** [stp Xt, Xt2, [Xn|SP, #imm]!] *)
| Ldp_post (rt rt2 rn imm : Z)   (** [ldp Xt, Xt2, [Xn|SP], #imm] *)
| Str_imm (rt rn imm : Z)        (** [str Xt, [Xn|SP, #imm]] *)
| Ldr_imm (rt rn imm : Z)        (** [ldr Xt, [Xn|SP, #imm]] *)
| Mrs_tpidr (rt : Z)             (** [mrs Xt, TPIDR_EL0] *)
| Add_imm (rd rn imm : Z)        (** [add Xd|SP, Xn|SP, #imm] *)
| Cbz (rt off : Z)
| Cbnz (rt off : Z)
| Ldr_lit (rt off : Z)
| Blr (rn : Z)
| Nop
| B (off : Z).

(** Bits [lo, lo+len) of an instruction word. *)
Definition field (w lo len : Z) : Z := (w / 2 ^ lo) mod 2 ^ len.

Definition sext (len z : Z) : Z := if z <? 2 ^ (len - 1) then z else z - 2 ^ len.

Definition decode (w : Z) : option instr :=
  if field w 22 10 =? 0x2A6 then
    Some (Stp_pre (field w 0 5) (field w 10 5) (field w 5 5) (8 * sext 7 (field w 15 7)))
  else if field w 22 10 =? 0x2A3 then
    Some (Ldp_post (field w 0 5) (field w 10 5) (field w 5 5) (8 * sext 7 (field w 15 7)))
  else if field w 22 10 =? 0x3E4 then
    Some (Str_imm (field w 0 5) (field w 5 5) (8 * field w 10 12))
  else if field w 22 10 =? 0x3E5 then
    Some (Ldr_imm (field w 0 5) (field w 5 5) (8 * field w 10 12))
  else if field w 5 27 =? 0x6A9DE82 then Some (Mrs_tpidr (field w 0 5))
  else if field w 23 9 =? 0x122 then
    Some (Add_imm (field w 0 5) (field w 5 5) (field w 10 12 * (if field w 22 1 =? 1 then 4096 else 1)))
  else if field w 24 8 =? 0xB4 then Some (Cbz (field w 0 5) (4 * sext 19 (field w 5 19)))
  else if field w 24 8 =? 0xB5 then Some (Cbnz (field w 0 5) (4 * sext 19 (field w 5 19)))
  else if field w 24 8 =? 0x58 then Some (Ldr_lit (field w 0 5) (4 * sext 19 (field w 5 19)))
  else if (field w 10 22 =? 0x358FC0) && (field w 0 5 =? 0) then Some (Blr (field w 5 5))
  else if w =? 0xD503201F then Some Nop
  else if field w 26 6 =? 5 then Some (B (4 * sext 26 (field w 0 26)))
  else None.

Record mach : Type := Mach {
  regs : Z -> Z;
  sp : Z;
  tpidr : Z;
  pc : Z;
  dmem : Z -> Z;
}.

Definition upd (f : Z -> Z) (k v : Z) : Z -> Z := fun x => if x =? k then v else f x.

(** Register operands: number 31 is SP as a base or ADD operand, XZR elsewhere. *)
Definition xsp (m : mach) (r : Z) : Z := if r =? 31 then sp m else regs m r.
Definition xzr (m : mach) (r : Z) : Z := if r =? 31 then 0 else regs m r.
Definition set_xsp (m : mach) (r v : Z) : mach :=
  if r =? 31 then Mach (regs m) v (tpidr m) (pc m) (dmem m)
  else Mach (upd (regs m) r v) (sp m) (tpidr m) (pc m) (dmem m).
Definition set_xzr (m : mach) (r v : Z) : mach :=
  if r =? 31 then m else Mach (upd (regs m) r v) (sp m) (tpidr m) (pc m) (dmem m).
Definition set_pc (m : mach) (a : Z) : mach := Mach (regs m) (sp m) (tpidr m) (u64 a) (dmem m).
Definition next (m : mach) : mach := set_pc m (pc m + 4).

Definition aligned (a : Z) : bool := a mod 8 =? 0.
Definition load (m : mach) (a : Z) : option Z :=
  if aligned a then Some (dmem m a) else None.
Definition store (m : mach) (a v : Z) : option mach :=
  if aligned a then Some (Mach (regs m) (sp m) (tpidr m) (pc m) (upd (dmem m) a v)) else None.

Section step.
(** Instruction memory, and the routine at address [helper] with its effect. *)
Context (code : gmap Z Z) (helper : Z) (first_touch : mach -> mach).

Definition exec (i : instr) (m : mach) : option mach :=
  match i with
  | Stp_pre rt rt2 rn imm =>
      let a := u64 (xsp m rn + imm) in
      m1 ← store m a (xzr m rt);
      m2 ← store m1 (u64 (a + 8)) (xzr m rt2);
      Some (next (set_xsp m2 rn a))
  | Ldp_post rt rt2 rn imm =>
      let a := xsp m rn in
      v1 ← load m a;
      v2 ← load m (u64 (a + 8));
      Some (next (set_xsp (set_xzr (set_xzr m rt v1) rt2 v2) rn (u64 (a + imm))))
  | Str_imm rt rn imm => next <$> store m (u64 (xsp m rn + imm)) (xzr m rt)
  | Ldr_imm rt rn imm =>
      v ← load m (u64 (xsp m rn + imm)); Some (next (set_xzr m rt v))
  | Mrs_tpidr rt => Some (next (set_xzr m rt (tpidr m)))
  | Add_imm rd rn imm => Some (next (set_xsp m rd (u64 (xsp m rn + imm))))
  | Cbz rt off => Some (if xzr m rt =? 0 then set_pc m (pc m + off) else next m)
  | Cbnz rt off => Some (if xzr m rt =? 0 then next m else set_pc m (pc m + off))
  | Ldr_lit rt off =>
      lo ← code !! u64 (pc m + off);
      hi ← code !! u64 (pc m + off + 4);
      Some (next (set_xzr m rt (lo + 2 ^ 32 * hi)))
  | Blr rn =>
      Some (set_pc (Mach (upd (regs m) 30 (u64 (pc m + 4))) (sp m) (tpidr m) (pc m) (dmem m))
                   (xzr m rn))
  | Nop => Some (next m)
  | B off => Some (set_pc m (pc m + off))
  end.

Definition step (m : mach) : option mach :=
  if pc m =? helper then Some (first_touch m)
  else w ← code !! pc m; i ← decode w; exec i m.

Fixpoint run (n : nat) (m : mach) : option mach :=
  match n with
  | O => Some m
  | S n' => m' ← step m; run n' m'
  end.

Lemma run_step n m i w m' :
  pc m <> helper -> code !! pc m = Some w -> decode w = Some i -> exec i m = Some m' ->
  run (S n) m = run n m'.
Proof.
  intros Hh Hw Hi He. simpl. unfold step.
  destruct (Z.eqb_spec (pc m) helper); [congruence|].
  rewrite Hw. simpl. rewrite Hi. simpl. now rewrite He.
Qed.

Lemma run_helper n m : pc m = helper -> run (S n) m = run n (first_touch m).
Proof. intros H. simpl. unfold step. now rewrite H, Z.eqb_refl. Qed.

Lemma run_add n k m : run (n + k) m = (m' ← run n m; run k m').
Proof.
  revert m; induction n as [|n IH]; intros m; [reflexivity|].
  simpl. destruct (step m); simpl; [apply IH | reflexivity].
Qed.
End step.

Lemma decode_b k :
  - 2 ^ 25 <= k < 2 ^ 25 ->
  decode (Z.lor 0x14000000 (Z.land k 0x3ffffff)) = Some (B (4 * k)).
Proof.
  intros Hk. change 0x3ffffff with (Z.ones 26). rewrite Z.land_ones by lia.
  rewrite Z.lor_comm. change 0x14000000 with (Z.shiftl 5 26).
  pose proof (Z.mod_pos_bound k (2 ^ 26) ltac:(lia)) as Hm.
  rewrite lor_shift by lia. set (r := k mod 2 ^ 26) in *.
  assert (forall lo len, 26 <= lo -> 0 <= len -> field (r + 5 * 2 ^ 26) lo len = (5 / 2 ^ (lo - 26)) mod 2 ^ len) as F.
  { intros lo len Hlo Hlen. unfold field. f_equal.
    replace lo with (26 + (lo - 26)) at 1 by lia.
    rewrite Z.pow_add_r, <- Z.div_div, Z.div_add by lia. now rewrite (Z.div_small r). }
  unfold decode.
  assert (field (r + 5 * 2 ^ 26) 26 6 = 5) as F26 by (rewrite F by lia; reflexivity).
  assert (forall lo len, 0 <= lo <= 26 -> lo + len = 32 ->
     field (r + 5 * 2 ^ 26) lo len / 2 ^ (26 - lo) = 5) as G.
  { intros lo len Hlo Hlen. unfold field.
    rewrite (Z.mod_small _ (2 ^ len)).
    - rewrite Z.div_div by lia. rewrite <- Z.pow_add_r by lia.
      replace (lo + (26 - lo)) with 26 by lia. rewrite Z.div_add by lia. now rewrite Z.div_small.
    - split; [apply Z.div_pos; lia|]. apply Z.div_lt_upper_bound; [lia|].
      rewrite <- Z.pow_add_r by lia. rewrite Hlen. lia. }
  assert (forall lo len c, 0 <= lo <= 26 -> lo + len = 32 -> c / 2 ^ (26 - lo) <> 5 ->
     (field (r + 5 * 2 ^ 26) lo len =? c) = false) as N.
  { intros lo len c H1 H2 H3. apply Z.eqb_neq. intros <-. apply H3. now apply G. }
  rewrite !N by (try lia; discriminate). simpl andb.
  destruct (Z.eqb_spec (r + 5 * 2 ^ 26) 0xD503201F); [lia|].
  rewrite F26. simpl. do 2 f_equal.
  assert (field (r + 5 * 2 ^ 26) 0 26 = r) as ->.
  { unfold field. rewrite Z.pow_0_r, Z.div_1_r, Z.mod_add by lia. now apply Z.mod_small. }
  f_equal. unfold sext. subst r. change (2 ^ (26 - 1)) with (2 ^ 25).
  destruct (Z_lt_le_dec k 0).
  - rewrite <- (Z.mod_add k 1 (2 ^ 26)), Z.mod_small by lia.
    destruct (Z.ltb_spec (k + 1 * 2 ^ 26) (2 ^ 25)); lia.
  - rewrite Z.mod_small by lia. destruct (Z.ltb_spec k (2 ^ 25)); lia.
Qed.
End A64.
