(* ===== verification/TlsPatcher.v ===== *)
(** * The TLS patcher (common/tls_patcher.c, tls_patcher_aarch64.c, tls_patcher.h)

    The thunk-region allocator, the thunk generator, the branch patch and the
    scan over a code segment, on a memory of 32-bit words; and, over the A64
    semantics of [A64.v], that a patched [mrs Xt, TPIDR_EL0] still behaves as an
    [mrs]: it only sets [Xt], to the simulated bionic thread pointer. *)

From Stdlib Require Import ZArith Lia Bool.
From stdpp Require Import base list numbers option gmap.
From S2P Require Import Prelude A64.

Open Scope Z_scope.
Open Scope outcome_scope.

Module TlsPatcher.
Import A64.

(** ** Code *)

Definition HYBRIS_TLS_THUNK_SIZE : Z := 96.

Definition hybris_is_tls_mrs (instruction : Z) : bool :=
  (Z.land instruction 0xffffffe0 =? 0xd53bd040) && negb (Z.land instruction 31 =? 31).

(** [struct { void* start; size_t size; size_t used; } current_thunk_region]. *)
Record thunk_region := Region { start : Z; size : Z; used : Z }.

Definition hybris_register_thunk_region (start size : Z) : thunk_region := Region start size 0.

(** [hybris_allocate_thunk_near]: the thunk's address and the updated region. *)
Definition hybris_allocate_thunk_near (r : thunk_region) (target thunk_size : Z)
  : outcome (Z * thunk_region) :=
  let aligned_size := Z.land (u64 (thunk_size + 15)) (2 ^ 64 - 16) in
  if (start r =? 0) || (size r <? u64 (used r + aligned_size)) then Abort
  else
    let result := u64 (start r + used r) in
    let distance := if result <? target then target - result else result - target in
    if 128 * 1024 * 1024 <? distance then Abort
    else Ok (result, Region (start r) (size r) (u64 (used r + aligned_size))).

(** [hybris_calculate_tls_offset]: the cast to [int] binds before the division,
    which is done in [size_t]; the quotient is returned as [int]. *)
Definition hybris_calculate_tls_offset (tp tls_area : Z) : Z :=
  to_signed 32 (u64 (to_signed 32 (u64 (tls_area - tp))) / 8).

(** Word memory: [wr mem a w] stores to mapped memory only. *)
Definition wr (mem : gmap Z Z) (a w : Z) : outcome (gmap Z Z) :=
  match mem !! a with Some _ => Ok (<[a := w]> mem) | None => Undef end.

Fixpoint wr_words (mem : gmap Z Z) (a : Z) (ws : list Z) : outcome (gmap Z Z) :=
  match ws with
  | [] => Ok mem
  | w :: ws' => let! mem := wr mem a w in wr_words mem (a + 4) ws'
  end.

Definition rd_word (mem : gmap Z Z) (a : Z) : outcome Z := of_option (mem !! a).

(** [diff % 4 != 0 || diff / 4 < -(1 << 25) || diff / 4 >= (1 << 25)] *)
Definition branch_out_of_range (diff : Z) : bool :=
  negb (Z.rem diff 4 =? 0) || (Z.quot diff 4 <? - 2 ^ 25) || (2 ^ 25 <=? Z.quot diff 4).

Definition thunk_words (imm_lo imm_hi target_register return_offset helper : Z) : list Z :=
  [0xa9be47f0;
   0xf9000bfe;
   0xd53bd050;
   Z.lor 0x91000210 (Z.shiftl imm_lo 10);
   Z.lor 0x91400210 (Z.shiftl imm_hi 10);
   0xf9400211;
   0xb4000071;
   0xf9400631;
   0xb5000091;
   0x580001b1;
   0xd63f0220;
   0xd503201f;
   0xf9400bfe;
   0xa8c247f0;
   Z.lor 0xd53bd040 target_register;
   Z.lor (Z.lor (Z.lor 0x91000000 (Z.shiftl target_register 5)) target_register) (Z.shiftl imm_lo 10);
   Z.lor (Z.lor (Z.lor 0x91400000 (Z.shiftl target_register 5)) target_register) (Z.shiftl imm_hi 10);
   Z.lor (Z.lor 0xf9400000 (Z.shiftl target_register 5)) target_register;
   Z.lor 0x14000000 (Z.land return_offset 0x3ffffff);
   0xd503201f;
   0xd503201f;
   0xd503201f;
   helper mod 2 ^ 32;
   helper / 2 ^ 32].

Definition generate_tls_thunk (helper : Z) (tls_offset_words target_register mrs_location thunk : Z)
    (mem : gmap Z Z) : outcome (gmap Z Z) :=
  let tls_offset_bytes := tls_offset_words * 8 in
  if (tls_offset_bytes <? 0) || (0xFFFFFF <? tls_offset_bytes) then Abort
  else
    let imm_lo := Z.land tls_offset_bytes 0xFFF in
    let imm_hi := Z.land (Z.shiftr tls_offset_bytes 12) 0xFFF in
    let return_diff := to_signed 64 (mrs_location + 4) - to_signed 64 (thunk + 72) in
    if branch_out_of_range return_diff then Abort
    else
      let return_offset := Z.quot return_diff 4 in
      wr_words mem thunk (thunk_words imm_lo imm_hi target_register return_offset helper).

Definition patch_mrs_with_branch (mrs_location thunk : Z) (mem : gmap Z Z) : outcome (gmap Z Z) :=
  let diff := to_signed 64 thunk - to_signed 64 mrs_location in
  if branch_out_of_range diff then Abort
  else wr mem mrs_location (Z.lor 0x14000000 (Z.land (Z.quot diff 4) 0x3FFFFFF)).

(** [for (i = ...; i < count; i++) if (is_mrs_tpidr_el0(text[i])) mrs_count++], [n] words left. *)
Fixpoint count_tls_from (mem : gmap Z Z) (a : Z) (n : nat) : outcome Z :=
  match n with
  | O => Ok 0
  | S n' =>
      let! w := rd_word mem a in
      let! c := count_tls_from mem (a + 4) n' in
      Ok (if hybris_is_tls_mrs w then c + 1 else c)
  end.

Definition hybris_count_tls (mem : gmap Z Z) (segment_addr segment_size : Z) : outcome Z :=
  count_tls_from mem segment_addr (Z.to_nat (segment_size / 4)).

(** The loop of [hybris_patch_tls_arch], [n] words left. *)
Fixpoint patch_tls_from (helper tls_offset : Z) (a : Z) (n : nat) (r : thunk_region) (mem : gmap Z Z)
  : outcome (thunk_region * gmap Z Z) :=
  match n with
  | O => Ok (r, mem)
  | S n' =>
      let! w := rd_word mem a in
      if negb (hybris_is_tls_mrs w) then patch_tls_from helper tls_offset (a + 4) n' r mem
      else
        let! (thunk, r) := hybris_allocate_thunk_near r a HYBRIS_TLS_THUNK_SIZE in
        let! mem := generate_tls_thunk helper tls_offset (Z.land w 31) a thunk mem in
        let! mem := patch_mrs_with_branch a thunk mem in
        patch_tls_from helper tls_offset (a + 4) n' r mem
  end.

Definition hybris_patch_tls_arch (helper : Z) (segment_addr segment_size tls_offset : Z)
    (r : thunk_region) (mem : gmap Z Z) : outcome (thunk_region * gmap Z Z) :=
  patch_tls_from helper tls_offset segment_addr (Z.to_nat (segment_size / 4)) r mem.

Definition hybris_patch_tls (helper tp tls_area : Z) (segment_addr segment_size : Z)
    (r : thunk_region) (mem : gmap Z Z) : outcome (thunk_region * gmap Z Z) :=
  hybris_patch_tls_arch helper segment_addr segment_size (hybris_calculate_tls_offset tp tls_area) r mem.

(** ** Word memory *)

Lemma wr_ok mem a w mem' : wr mem a w = Ok mem' -> is_Some (mem !! a) /\ mem' = <[a := w]> mem.
Proof. unfold wr. destruct (mem !! a) eqn:E; intros; simplify_eq; eauto. Qed.

Lemma wr_words_out ws mem a mem' k :
  wr_words mem a ws = Ok mem' ->
  (forall i : nat, (i < length ws)%nat -> k <> a + 4 * Z.of_nat i) -> mem' !! k = mem !! k.
Proof.
  revert mem a; induction ws as [|v ws IH]; intros mem a H Hk; cbn [wr_words] in H; inv_ok; [done|].
  apply wr_ok in Ha as [_ ->]. rewrite (IH _ _ H).
  - apply lookup_insert_ne. specialize (Hk 0%nat). simpl in Hk. lia.
  - intros i Hi. specialize (Hk (S i)). simpl length in Hk. lia.
Qed.

Lemma wr_words_in ws mem a mem' (i : nat) w :
  wr_words mem a ws = Ok mem' -> ws !! i = Some w -> mem' !! (a + 4 * Z.of_nat i) = Some w.
Proof.
  revert mem a i; induction ws as [|v ws IH]; intros mem a i H Hi; [done|].
  cbn [wr_words] in H. inv_ok. apply wr_ok in Ha as [_ ->].
  destruct i as [|i]; simpl in Hi; simplify_eq.
  - rewrite (wr_words_out _ _ _ _ _ H) by lia. rewrite Z.mul_0_r, Z.add_0_r. apply lookup_insert_eq.
  - rewrite <- (IH _ _ _ H Hi). f_equal. lia.
Qed.

Lemma wr_words_ok ws mem a :
  (forall i : nat, (i < length ws)%nat -> is_Some (mem !! (a + 4 * Z.of_nat i))) ->
  exists mem', wr_words mem a ws = Ok mem'.
Proof.
  revert mem a; induction ws as [|v ws IH]; intros mem a H; cbn [wr_words]; [eauto|].
  unfold wr. destruct (H 0%nat) as [x Hx]; [simpl; lia|]. rewrite Z.mul_0_r, Z.add_0_r in Hx.
  rewrite Hx. simpl. apply IH. intros i Hi.
  destruct (decide (a + 4 + 4 * Z.of_nat i = a)); [lia|]. rewrite lookup_insert_ne by lia.
  replace (a + 4 + 4 * Z.of_nat i) with (a + 4 * Z.of_nat (S i)) by lia. apply H. simpl. lia.
Qed.

Lemma wr_words_mono ws mem a mem' k :
  wr_words mem a ws = Ok mem' -> is_Some (mem !! k) -> is_Some (mem' !! k).
Proof.
  revert mem a; induction ws as [|v ws IH]; intros mem a H Hk; cbn [wr_words] in H; inv_ok; [done|].
  apply wr_ok in Ha as [_ ->]. apply (IH _ _ H).
  destruct (decide (a = k)) as [->|]; [rewrite lookup_insert_eq; eauto | now rewrite lookup_insert_ne].
Qed.

(** ** Decoding the generated words *)

Lemma decode_add_word hi imm r :
  hi = 0x244 \/ hi = 0x245 -> 0 <= imm < 4096 -> 0 <= r < 32 ->
  decode (r + r * 32 + imm * 1024 + hi * 2 ^ 22)
  = Some (Add_imm r r (imm * (if hi =? 0x245 then 4096 else 1))).
Proof.
  intros Hh Hi Hr. set (w := r + r * 32 + imm * 1024 + hi * 2 ^ 22).
  assert (field w 22 10 = hi /\ field w 10 12 = imm /\ field w 5 5 = r /\ field w 0 5 = r
          /\ field w 23 9 = 0x122 /\ field w 22 1 = hi - 0x244 /\
          field w 5 27 = hi * 2 ^ 17 + imm * 32 + r) as (F1 & F2 & F3 & F4 & F5 & F6 & F7).
  { unfold field, w. change (2 ^ 22) with 4194304. change (2 ^ 10) with 1024. change (2 ^ 12) with 4096.
    change (2 ^ 5) with 32. change (2 ^ 0) with 1. change (2 ^ 23) with 8388608. change (2 ^ 9) with 512.
    change (2 ^ 1) with 2. change (2 ^ 27) with 134217728. change (2 ^ 17) with 131072.
    destruct Hh as [-> | ->]; Z.div_mod_to_equations; lia. }
  unfold decode. rewrite F1, F2, F3, F4, F5, F6, F7.
  destruct (Z.eqb_spec (hi * 2 ^ 17 + imm * 32 + r) 0x6A9DE82) as [E|_].
  { exfalso. change (2 ^ 17) with 131072 in E. destruct Hh as [-> | ->]; lia. }
  destruct Hh as [-> | ->]; reflexivity.
Qed.

Lemma lor_fields hi imm r :
  0 <= imm < 4096 -> 0 <= r < 32 ->
  Z.lor (Z.lor (Z.lor (Z.shiftl hi 22) (Z.shiftl r 5)) r) (Z.shiftl imm 10)
  = r + r * 32 + imm * 1024 + hi * 2 ^ 22.
Proof.
  intros Hi Hr.
  transitivity (Z.lor (Z.lor (Z.lor r (Z.shiftl r 5)) (Z.shiftl imm 10)) (Z.shiftl hi 22)); [bitwise|].
  rewrite (lor_shift r r 5) by lia. rewrite (lor_shift _ imm 10) by lia.
  rewrite (lor_shift _ hi 22) by lia. lia.
Qed.

Lemma decode_target_add r imm :
  0 <= r < 31 -> 0 <= imm < 4096 ->
  decode (Z.lor (Z.lor (Z.lor 0x91000000 (Z.shiftl r 5)) r) (Z.shiftl imm 10))
    = Some (Add_imm r r imm) /\
  decode (Z.lor (Z.lor (Z.lor 0x91400000 (Z.shiftl r 5)) r) (Z.shiftl imm 10))
    = Some (Add_imm r r (imm * 4096)).
Proof.
  intros Hr Hi. change 0x91000000 with (Z.shiftl 0x244 22). change 0x91400000 with (Z.shiftl 0x245 22).
  rewrite !lor_fields, !decode_add_word by lia. rewrite Z.mul_1_r. done.
Qed.

Lemma decode_target rt :
  0 <= rt < 31 ->
  decode (Z.lor 0xd53bd040 rt) = Some (Mrs_tpidr rt) /\
  decode (Z.lor (Z.lor 0xf9400000 (Z.shiftl rt 5)) rt) = Some (Ldr_imm rt rt 0).
Proof.
  intros Hr. assert (exists n : nat, (n < 31)%nat /\ rt = Z.of_nat n) as (n & Hn & ->).
  { exists (Z.to_nat rt). lia. }
  do 31 (destruct n as [|n]; [done|]). lia.
Qed.

(** ** Running a thunk *)

(** What [hybris_tls_first_touch] (tls_first_touch.S) promises to the thunk that
    calls it: it returns with every general register, the stack pointer and the
    caller's frame as they were, and the thread's arena pointer slot is set. *)
Record first_touch_ok (first_touch : mach -> mach) (off : Z) : Prop := {
  ft_regs : forall m r, 0 <= r <= 30 -> regs (first_touch m) r = regs m r;
  ft_sp : forall m, sp (first_touch m) = sp m;
  ft_tpidr : forall m, tpidr (first_touch m) = tpidr m;
  ft_pc : forall m, pc (first_touch m) = regs m 30;
  ft_frame : forall m a, sp m <= a < sp m + 32 -> dmem (first_touch m) a = dmem m a;
  ft_slot : forall m, ~ (sp m <= tpidr m + off < sp m + 32) ->
    dmem (first_touch m) (tpidr m + off) <> 0;
}.

(** A thread about to execute at [a]: a stack with room for the thunk's frame, an
    aligned arena-pointer slot outside that frame, an aligned arena pointer. *)
Record thread_ok (m : mach) (off a : Z) : Prop := {
  t_pc : pc m = a;
  t_sp : 32 <= sp m < 2 ^ 64;
  t_sp_al : sp m mod 16 = 0;
  t_tp : 0 <= tpidr m /\ tpidr m + off < 2 ^ 64;
  t_slot_al : (tpidr m + off) mod 8 = 0;
  t_slot : ~ (sp m - 32 <= tpidr m + off < sp m);
  t_arena : 0 <= dmem m (tpidr m + off) < 2 ^ 64 - 8 /\ dmem m (tpidr m + off) mod 8 = 0;
}.

(** What the thread finds after the (simulated) [mrs Xrt, TPIDR_EL0]. *)
Record mrs_done (m m' : mach) (off rt back : Z) : Prop := {
  d_pc : pc m' = back;
  d_sp : sp m' = sp m;
  d_tpidr : tpidr m' = tpidr m;
  d_regs : forall r, 0 <= r <= 30 -> r <> rt -> regs m' r = regs m r;
  d_target : regs m' rt = dmem m' (tpidr m + off);
  d_nonzero : dmem m' (tpidr m + off) <> 0;
}.

Section thunk.
Context (code : gmap Z Z) (helper : Z) (first_touch : mach -> mach).
Context (off rt mrs thunk : Z).
Context (Hft : first_touch_ok first_touch off).
Context (Hoff : 0 <= off <= 0xFFFFFF) (Hrt : 0 <= rt < 31).
Context (Hthunk : 0 <= thunk /\ thunk + 96 <= 2 ^ 63) (Hmrs : 0 <= mrs /\ mrs + 4 < 2 ^ 63).
Context (Hhelper : 0 <= helper < 2 ^ 64) (Hapart : ~ (thunk <= helper < thunk + 96)).
Context (Hback : (mrs + 4 - (thunk + 72)) mod 4 = 0 /\
                 - 2 ^ 25 <= (mrs + 4 - (thunk + 72)) / 4 < 2 ^ 25).

Let lo := Z.land off 0xFFF.
Let hi := Z.land (Z.shiftr off 12) 0xFFF.
Let words := thunk_words lo hi rt ((mrs + 4 - (thunk + 72)) / 4) helper.
Context (Hcode : forall i w, words !! i = Some w -> code !! (thunk + 4 * Z.of_nat i) = Some w).

Lemma off_split : 0 <= lo < 4096 /\ 0 <= hi < 4096 /\ lo + hi * 4096 = off.
Proof.
  unfold lo, hi. change 0xFFF with (Z.ones 12). rewrite !Z.land_ones, Z.shiftr_div_pow2 by lia.
  change (2 ^ 12) with 4096. change 0xFFFFFF with 16777215 in Hoff.
  Z.div_mod_to_equations. lia.
Qed.

Definition reaches (m : mach) (P : mach -> Prop) : Prop :=
  exists n m', run code helper first_touch n m = Some m' /\ P m'.

(** One instruction of the thunk. *)
Lemma reach_step (k : nat) w i m m1 P :
  words !! k = Some w -> pc m = thunk + 4 * Z.of_nat k -> decode w = Some i ->
  exec code i m = Some m1 -> reaches m1 P -> reaches m P.
Proof.
  intros Hw Hpc Hi He (n & m' & Hr & HP). exists (S n), m'. split; [|done].
  assert (k < length words)%nat as Hk by (eapply lookup_lt_Some, Hw). simpl in Hk.
  rewrite (run_step _ _ _ n m i w m1); auto; rewrite Hpc; [lia | now apply Hcode].
Qed.

Lemma reach_done m (P : mach -> Prop) : P m -> reaches m P.
Proof. exists 0%nat, m. done. Qed.

Ltac u64s := repeat match goal with |- context [u64 ?e] => rewrite (wrap_small 64 e) by (unfold in_range; lia) end.
Ltac al8 := rewrite ?Z.eqb_eq; Z.div_mod_to_equations; lia.

(** The prologue's frame is pushed and only the scratch registers differ. *)
Record framed (m m1 : mach) (at_ : Z) : Prop := {
  r_pc : pc m1 = at_;
  r_sp : sp m1 = sp m - 32;
  r_tpidr : tpidr m1 = tpidr m;
  r_x16 : dmem m1 (sp m - 32) = regs m 16;
  r_x17 : dmem m1 (sp m - 24) = regs m 17;
  r_x30 : dmem m1 (sp m - 16) = regs m 30;
  r_regs : forall r, 0 <= r <= 30 -> r <> 16 -> r <> 17 -> r <> 30 -> regs m1 r = regs m r;
}.

Lemma set_xzr_low m r v : 0 <= r < 31 -> set_xzr m r v = Mach (upd (regs m) r v) (sp m) (tpidr m) (pc m) (dmem m).
Proof. intros. unfold set_xzr. destruct (Z.eqb_spec r 31); [lia|done]. Qed.

Lemma set_xsp_low m r v : 0 <= r < 31 -> set_xsp m r v = Mach (upd (regs m) r v) (sp m) (tpidr m) (pc m) (dmem m).
Proof. intros. unfold set_xsp. destruct (Z.eqb_spec r 31); [lia|done]. Qed.

Lemma xsp_low m r : 0 <= r < 31 -> xsp m r = regs m r.
Proof. intros. unfold xsp. destruct (Z.eqb_spec r 31); [lia|done]. Qed.

Lemma upd_eq f k v : upd f k v k = v.
Proof. unfold upd. now rewrite Z.eqb_refl. Qed.

Lemma upd_ne f k v x : x <> k -> upd f k v x = f x.
Proof. intros. unfold upd. now destruct (Z.eqb_spec x k). Qed.

Lemma store_ok m a v :
  a mod 8 = 0 -> store m a v = Some (Mach (regs m) (sp m) (tpidr m) (pc m) (upd (dmem m) a v)).
Proof. intros H. unfold store, aligned. now rewrite H. Qed.

Lemma load_ok m a : a mod 8 = 0 -> load m a = Some (dmem m a).
Proof. intros H. unfold load, aligned. now rewrite H. Qed.

Lemma exec_ldr_self m a r :
  0 <= r < 31 -> regs m r = a -> 0 <= a < 2 ^ 64 -> a mod 8 = 0 ->
  exec code (Ldr_imm r r 0) m
  = Some (next (Mach (upd (regs m) r (dmem m a)) (sp m) (tpidr m) (pc m) (dmem m))).
Proof.
  intros Hr <- Ha Hal. cbn [exec]. rewrite xsp_low, Z.add_0_r by done. u64s.
  rewrite load_ok by done. cbn [mbind option_bind]. now rewrite set_xzr_low.
Qed.

Ltac norm := cbv beta iota delta [regs sp tpidr pc dmem set_pc next xsp xzr Z.eqb Pos.eqb set_xsp set_xzr] in *.
Ltac one k i dec :=
  eapply (reach_step k _ i); [reflexivity | norm; lia | dec
    | cbn [exec]; norm;
      repeat (u64s; first [rewrite load_ok by al8 | rewrite store_ok by al8]; cbn [mbind option_bind]; norm);
      u64s; reflexivity
    | norm; u64s].

Lemma run_epilogue m m1 :
  thread_ok m off thunk -> framed m m1 (thunk + 48) -> dmem m1 (tpidr m + off) <> 0 ->
  reaches m1 (fun m' => mrs_done m m' off rt (mrs + 4)).
Proof.
  intros [Hp Hs Hs16 Ht Hsl Hslot Har] [Rp Rs Rt R16 R17 R30 Rr] Rn.
  destruct m as [f s t p d], m1 as [g s1 t1 p1 e]. norm. subst p p1 s1 t1.
  destruct off_split as (Hlo & Hhi & Hsum).
  one 12%nat (Ldr_imm 30 31 16) ltac:(reflexivity).
  one 13%nat (Ldp_post 16 17 31 32) ltac:(reflexivity).
  destruct (decode_target rt Hrt) as [D14 D17].
  destruct (decode_target_add rt lo Hrt Hlo) as [D15 _].
  destruct (decode_target_add rt hi Hrt Hhi) as [_ D16].
  eapply (reach_step 14 _ (Mrs_tpidr rt)); [reflexivity | norm; lia | exact D14 | cbn [exec]; rewrite set_xzr_low by done; norm; u64s; reflexivity |].
  eapply (reach_step 15 _ (Add_imm rt rt lo)); [reflexivity | norm; lia | exact D15 | cbn [exec]; rewrite set_xsp_low, xsp_low by done; norm; rewrite upd_eq; u64s; reflexivity |].
  eapply (reach_step 16 _ (Add_imm rt rt (hi * 4096))); [reflexivity | norm; lia | exact D16 | cbn [exec]; rewrite set_xsp_low, xsp_low by done; norm; rewrite upd_eq; u64s; reflexivity |].
  eapply (reach_step 17 _ (Ldr_imm rt rt 0));
    [reflexivity | norm; lia | exact D17 | apply (exec_ldr_self _ (t + off)); norm; rewrite ?upd_eq; first [lia | al8] |].
  eapply (reach_step 18 _ (B (4 * ((mrs + 4 - (thunk + 72)) / 4)))); [reflexivity | norm; u64s; lia | now apply decode_b | cbn [exec]; norm; reflexivity |].
  apply reach_done. norm.
  split; norm; try done.
  - pose proof (Z.div_mod (mrs + 4 - (thunk + 72)) 4 ltac:(lia)) as Hq.
    rewrite (proj1 Hback), Z.add_0_r in Hq. rewrite <- Hq. u64s. lia.
  - lia.
  - intros r Hr Hne. rewrite !(upd_ne _ rt) by done.
    destruct (decide (r = 16)) as [->|]; [|destruct (decide (r = 17)) as [->|];
      [|destruct (decide (r = 30)) as [->|]]];
      repeat first [rewrite upd_eq | rewrite upd_ne by lia]; try (apply Rr; lia).
    + exact R16.
    + rewrite <- R17. f_equal. lia.
    + rewrite <- R30. f_equal. lia.
  - apply upd_eq.
Qed.

Lemma reaches_trans m (P Q : mach -> Prop) :
  reaches m P -> (forall m1, P m1 -> reaches m1 Q) -> reaches m Q.
Proof.
  intros (n & m1 & Hr & HP) HQ. destruct (HQ m1 HP) as (k & m' & Hk & HQ').
  exists (n + k)%nat, m'. split; [|done]. rewrite run_add, Hr. exact Hk.
Qed.

(** The slow path: [code[9]] to [code[11]] call the helper. *)
Lemma run_slow m m1 :
  thread_ok m off thunk -> framed m m1 (thunk + 36) ->
  reaches m1 (fun m2 => framed m m2 (thunk + 48) /\ dmem m2 (tpidr m + off) <> 0).
Proof.
  intros [Hp Hs Hs16 Ht Hsl Hslot Har] [Rp Rs Rt R16 R17 R30 Rr].
  destruct m as [f s t p d], m1 as [g s1 t1 p1 e]. norm. subst p p1 s1 t1.
  assert (code !! (thunk + 88) = Some (helper mod 2 ^ 32)) as Hlo by exact (Hcode 22 _ eq_refl).
  assert (code !! (thunk + 92) = Some (helper / 2 ^ 32)) as Hhi by exact (Hcode 23 _ eq_refl).
  eapply (reach_step 9 _ (Ldr_lit 17 52)); [reflexivity | norm; lia | reflexivity | |].
  { cbn [exec]. norm. u64s. replace (thunk + 36 + 52) with (thunk + 88) by lia.
    replace (thunk + 88 + 4) with (thunk + 92) by lia. rewrite Hlo. cbn [mbind option_bind].
    rewrite Hhi. cbn [mbind option_bind].
    replace (helper mod 2 ^ 32 + 2 ^ 32 * (helper / 2 ^ 32)) with helper
      by (rewrite (Z.div_mod helper (2 ^ 32)) at 1; lia).
    u64s. reflexivity. }
  one 10%nat (Blr 17) ltac:(reflexivity).
  rewrite upd_eq. u64s.
  set (mh := Mach _ _ _ _ _).
  destruct Hft as [Fr Fs Ft Fp Ff Fn].
  assert (reaches (first_touch mh) (fun m2 => framed (Mach f s t thunk d) m2 (thunk + 48) /\ dmem m2 (t + off) <> 0)) as R.
  { eapply (reach_step 11 _ Nop); [reflexivity | rewrite Fp; unfold mh; norm; rewrite upd_eq; u64s; lia
      | reflexivity | cbn [exec]; reflexivity |].
    apply reach_done. split; [|apply (Fn mh); unfold mh; norm; lia].
    split; unfold next, set_pc; cbn [regs sp tpidr pc dmem]; rewrite ?Fp, ?Fs, ?Ft, ?Ff by (unfold mh; norm; lia).
    all: unfold mh; norm; try done.
    - rewrite upd_eq. u64s. lia.
    - intros r Hr H1 H2 H3. rewrite Fr by lia. norm. rewrite !upd_ne by lia. now apply Rr. }
  destruct R as (n & m2 & Hn & HP). exists (S n), m2. split; [|exact HP].
  rewrite run_helper by reflexivity. exact Hn.
Qed.

(** The prologue, up to the decision between the fast and the slow path. *)
Lemma run_prologue m :
  thread_ok m off thunk ->
  reaches m (fun m1 =>
    framed m m1 (thunk + 36) \/
    framed m m1 (thunk + 48) /\ dmem m1 (tpidr m + off) <> 0).
Proof.
  intros [Hp Hs Hs16 Ht Hsl Hslot Har].
  destruct m as [f s t p d]. norm. subst p. destruct off_split as (Hlo & Hhi & Hsum).
  one 0%nat (Stp_pre 16 17 31 (-32)) ltac:(reflexivity).
  one 1%nat (Str_imm 30 31 16) ltac:(reflexivity).
  one 2%nat (Mrs_tpidr 16) ltac:(reflexivity).
  one 3%nat (Add_imm 16 16 lo) ltac:(exact (proj1 (decode_target_add 16 lo ltac:(lia) Hlo))).
  rewrite upd_eq. u64s.
  one 4%nat (Add_imm 16 16 (hi * 4096)) ltac:(exact (proj2 (decode_target_add 16 hi ltac:(lia) Hhi))).
  rewrite upd_eq. u64s.
  set (frame := upd (upd (upd d _ _) _ _) _ _).
  assert (frame (t + off) = d (t + off)) as Hslotv by (unfold frame; now rewrite !upd_ne by lia).
  assert (forall a g, (forall r, 0 <= r <= 30 -> r <> 16 -> r <> 17 -> r <> 30 -> g r = f r) ->
    framed (Mach f s t thunk d) (Mach g (s + -32) t a frame) a) as Hframed.
  { intros a g Hg. split; norm; unfold frame; try lia; [ | | | exact Hg].
    - rewrite !upd_ne by lia. replace (s - 32) with (s + -32) by lia. apply upd_eq.
    - rewrite upd_ne by lia. replace (s - 24) with (s + -32 + 8) by lia. apply upd_eq.
    - replace (s - 16) with (s + -32 + 16) by lia. apply upd_eq. }
  eapply (reach_step 5 _ (Ldr_imm 17 16 0)); [reflexivity | norm; lia | reflexivity | |].
  { cbn [exec]. norm. rewrite upd_eq. u64s. rewrite load_ok by al8. cbn [mbind option_bind]. norm. u64s. reflexivity. }
  replace (t + lo + hi * 4096 + 0) with (t + off) by lia. rewrite Hslotv.
  eapply (reach_step 6 _ (Cbz 17 12)); [reflexivity | norm; lia | reflexivity | cbn [exec]; norm; reflexivity |].
  rewrite upd_eq.
  change (match d (t + off) with 0 => true | _ => false end) with (d (t + off) =? 0).
  destruct (Z.eqb_spec (d (t + off)) 0) as [Hz|Hnz]; u64s.
  { apply reach_done. left.
    replace (thunk + 4 + 4 + 4 + 4 + 4 + 4 + 12) with (thunk + 36) by lia. apply Hframed. intros r Hr H1 H2 H3. now rewrite !upd_ne by lia. }
  eapply (reach_step 7 _ (Ldr_imm 17 17 8)); [reflexivity | norm; lia | reflexivity | |].
  { cbn [exec]. norm. rewrite upd_eq. u64s. rewrite load_ok by al8. cbn [mbind option_bind]. norm. u64s. reflexivity. }
  set (v := frame (d (t + off) + 8)).
  eapply (reach_step 8 _ (Cbnz 17 16)); [reflexivity | norm; lia | reflexivity | cbn [exec]; norm; reflexivity |].
  rewrite upd_eq. change (match v with 0 => true | _ => false end) with (v =? 0).
  destruct (Z.eqb_spec v 0) as [Hv|Hv]; u64s; apply reach_done.
  - left. replace (thunk + 4 + 4 + 4 + 4 + 4 + 4 + 4 + 4 + 4) with (thunk + 36) by lia. apply Hframed. intros r Hr H1 H2 H3. now rewrite !upd_ne by lia.
  - right. replace (thunk + 4 + 4 + 4 + 4 + 4 + 4 + 4 + 4 + 16) with (thunk + 48) by lia.
    split; [apply Hframed; intros r Hr H1 H2 H3; now rewrite !upd_ne by lia | norm; now rewrite Hslotv].
Qed.

Lemma run_thunk m :
  thread_ok m off thunk -> reaches m (fun m' => mrs_done m m' off rt (mrs + 4)).
Proof.
  intros H. apply (reaches_trans _ _ _ (run_prologue m H)). intros m1 [Hf | [Hf Hn]].
  - apply (reaches_trans _ _ _ (run_slow m m1 H Hf)). intros m2 [Hf2 Hn2]. now apply run_epilogue.
  - now apply run_epilogue.
Qed.
End thunk.

(** ** Patched instructions *)

Lemma branch_in_range diff :
  branch_out_of_range diff = false ->
  diff mod 4 = 0 /\ Z.quot diff 4 = diff / 4 /\ - 2 ^ 25 <= diff / 4 < 2 ^ 25.
Proof.
  unfold branch_out_of_range. intros H.
  apply orb_false_elim in H as [H H3]. apply orb_false_elim in H as [H1 H2].
  apply negb_false_iff, Z.eqb_eq in H1. apply Z.ltb_ge in H2. apply Z.leb_gt in H3.
  pose proof (Z.quot_rem' diff 4) as E. rewrite H1, Z.add_0_r in E.
  assert (diff / 4 = Z.quot diff 4) as -> by (symmetry; apply Z.div_unique_exact; lia).
  split; [|lia]. apply Z.mod_divide; [lia|]. exists (Z.quot diff 4). lia.
Qed.

Lemma signed_addr a : 0 <= a < 2 ^ 63 -> to_signed 64 a = a.
Proof.
  intros H. unfold to_signed. rewrite wrap_small by (unfold in_range; lia).
  change (64 - 1) with 63. destruct (Z.ltb_spec a (2 ^ 63)); lia.
Qed.

(** [mrs] holds a branch to a complete thunk at [thunk] that loads [rt] and returns. *)
Record installed (mem : gmap Z Z) (helper off rt mrs thunk : Z) : Prop := {
  in_off : 0 <= off <= 0xFFFFFF;
  in_words : forall (i : nat) w,
    thunk_words (Z.land off 0xFFF) (Z.land (Z.shiftr off 12) 0xFFF) rt
      ((mrs + 4 - (thunk + 72)) / 4) helper !! i = Some w ->
    mem !! (thunk + 4 * Z.of_nat i) = Some w;
  in_branch : mem !! mrs = Some (Z.lor 0x14000000 (Z.land ((thunk - mrs) / 4) 0x3FFFFFF));
  in_back : (mrs + 4 - (thunk + 72)) mod 4 = 0 /\
            - 2 ^ 25 <= (mrs + 4 - (thunk + 72)) / 4 < 2 ^ 25;
  in_to : (thunk - mrs) mod 4 = 0 /\ - 2 ^ 25 <= (thunk - mrs) / 4 < 2 ^ 25;
}.

Lemma patch_installs helper words rt mrs thunk mem mem1 mem2 :
  0 <= thunk /\ thunk + 96 <= 2 ^ 63 -> 0 <= mrs /\ mrs + 4 < 2 ^ 63 ->
  ~ (thunk <= mrs < thunk + 96) ->
  generate_tls_thunk helper words rt mrs thunk mem = Ok mem1 ->
  patch_mrs_with_branch mrs thunk mem1 = Ok mem2 ->
  installed mem2 helper (words * 8) rt mrs thunk /\
  (forall k, k <> mrs -> ~ (thunk <= k < thunk + 96) -> mem2 !! k = mem !! k).
Proof.
  intros Ht Hm Hd Hg Hp. unfold generate_tls_thunk in Hg. unfold patch_mrs_with_branch in Hp.
  destruct ((words * 8 <? 0) || (16777215 <? words * 8)) eqn:E0; [done|].
  apply orb_false_elim in E0 as [E1 E2]. apply Z.ltb_ge in E1, E2.
  rewrite !signed_addr in Hg, Hp by lia.
  destruct (branch_out_of_range (mrs + 4 - (thunk + 72))) eqn:E3; [done|].
  destruct (branch_out_of_range (thunk - mrs)) eqn:E4; [done|].
  apply branch_in_range in E3 as (B1 & B2 & B3). apply branch_in_range in E4 as (B4 & B5 & B6).
  rewrite B2 in Hg. rewrite B5 in Hp. apply wr_ok in Hp as [_ ->].
  split; [split; auto | ].
  - intros i w Hi. pose proof (lookup_lt_Some _ _ _ Hi) as Hl. simpl in Hl.
    rewrite lookup_insert_ne by lia. eapply wr_words_in; eauto.
  - apply lookup_insert_eq.
  - intros k Hk Hk2. rewrite lookup_insert_ne by done. apply (wr_words_out _ _ _ _ _ Hg).
    simpl length. lia.
Qed.

Lemma installed_run helper first_touch off rt mrs thunk mem m :
  first_touch_ok first_touch off -> 0 <= rt < 31 ->
  0 <= thunk /\ thunk + 96 <= 2 ^ 63 -> 0 <= mrs /\ mrs + 4 < 2 ^ 63 ->
  0 <= helper < 2 ^ 64 -> ~ (thunk <= helper < thunk + 96) -> helper <> mrs ->
  installed mem helper off rt mrs thunk -> thread_ok m off mrs ->
  exists n m', run mem helper first_touch n m = Some m' /\ mrs_done m m' off rt (mrs + 4).
Proof.
  intros Hft Hrt Ht Hm Hh Hap Hne [Ho Hw Hb Hk Hto] Hthr.
  set (m1 := set_pc m (pc m + 4 * ((thunk - mrs) / 4))).
  assert (pc m1 = thunk) as Hpc1.
  { unfold m1, set_pc. cbn [pc]. rewrite (t_pc _ _ _ Hthr).
    pose proof (Z.div_mod (thunk - mrs) 4 ltac:(lia)). rewrite wrap_small; unfold in_range; lia. }
  assert (thread_ok m1 off thunk) as H1 by (destruct Hthr; split; auto).
  destruct (run_thunk mem helper first_touch off rt mrs thunk Hft Ho Hrt Ht Hm Hh Hap Hk Hw m1 H1)
    as (n & m' & Hr & Hd).
  exists (S n), m'. split.
  - rewrite (run_step _ _ _ n m (B (4 * ((thunk - mrs) / 4)))
      (Z.lor 0x14000000 (Z.land ((thunk - mrs) / 4) 0x3FFFFFF)) m1); [exact Hr | | | now apply decode_b | reflexivity].
    + rewrite (t_pc _ _ _ Hthr). congruence.
    + rewrite (t_pc _ _ _ Hthr). exact Hb.
  - destruct Hd. split; auto.
Qed.

(** ** Whole segments *)

Lemma allocate_thunk_ok r target thunk r' :
  0 < start r /\ start r + size r <= 2 ^ 63 -> 0 <= used r <= size r ->
  hybris_allocate_thunk_near r target HYBRIS_TLS_THUNK_SIZE = Ok (thunk, r') ->
  thunk = start r + used r /\ r' = Region (start r) (size r) (used r + 96) /\ used r + 96 <= size r.
Proof.
  intros Hr Hu. unfold hybris_allocate_thunk_near.
  change (Z.land (u64 (HYBRIS_TLS_THUNK_SIZE + 15)) (2 ^ 64 - 16)) with 96. cbv zeta.
  rewrite !wrap_small by (unfold in_range; lia).
  destruct (Z.eqb_spec (start r) 0); [lia|]. destruct (Z.ltb_spec (size r) (used r + 96)); [done|].
  simpl orb. cbv iota. case_match; intros; simplify_eq; auto.
Qed.

(** Where the segment, its thunk region and the helper lie. *)
Record placed (a : Z) (n : nat) (r : thunk_region) (helper : Z) : Prop := {
  p_seg : 0 <= a /\ a + 4 * Z.of_nat n < 2 ^ 63;
  p_region : 0 < start r /\ start r + size r <= 2 ^ 63;
  p_used : 0 <= used r <= size r;
  p_apart : a + 4 * Z.of_nat n <= start r \/ start r + size r <= a;
  p_helper : 0 <= helper < 2 ^ 64;
  p_helper_apart : ~ (start r <= helper < start r + size r) /\
                   ~ (a <= helper < a + 4 * Z.of_nat n);
}.

Lemma placed_next a n r helper : placed a (S n) r helper -> placed (a + 4) n r helper.
Proof. intros [P1 P2 P3 P4 P5 P6]. split; auto; lia. Qed.

Lemma placed_alloc a n r helper u :
  placed a n r helper -> used r <= u <= size r -> placed a n (Region (start r) (size r) u) helper.
Proof. intros [P1 P2 P3 P4 P5 P6] Hu. split; simpl; auto; lia. Qed.

Lemma installed_stable mem mem' helper off rt mrs thunk :
  installed mem helper off rt mrs thunk -> mem' !! mrs = mem !! mrs ->
  (forall k, thunk <= k < thunk + 96 -> mem' !! k = mem !! k) ->
  installed mem' helper off rt mrs thunk.
Proof.
  intros [I1 I2 I3 I4 I5] Hm Hk. split; auto; [|congruence].
  intros i w Hi. pose proof (lookup_lt_Some _ _ _ Hi) as Hl. simpl in Hl.
  rewrite Hk by lia. auto.
Qed.

Lemma mrs_register w : hybris_is_tls_mrs w = true -> 0 <= Z.land w 31 < 31.
Proof.
  unfold hybris_is_tls_mrs. intros H. apply andb_prop in H as [_ H].
  apply negb_true_iff, Z.eqb_neq in H. change 31 with (Z.ones 5) in *.
  rewrite Z.land_ones in * by lia. pose proof (Z.mod_pos_bound w (2 ^ 5)).
  change (Z.ones 5) with 31 in *. change (2 ^ 5) with 32 in *. lia.
Qed.

(** The state of the segment words [a, a+4n) after the scan. *)
Definition segment_patched (helper off : Z) (a : Z) (n : nat) (r r' : thunk_region)
    (mem mem' : gmap Z Z) : Prop :=
  forall (i : nat) w, (i < n)%nat -> mem !! (a + 4 * Z.of_nat i) = Some w ->
    if hybris_is_tls_mrs w
    then exists thunk, start r + used r <= thunk /\ thunk + 96 <= start r + used r' /\
           installed mem' helper off (Z.land w 31) (a + 4 * Z.of_nat i) thunk
    else mem' !! (a + 4 * Z.of_nat i) = Some w.

Lemma patch_tls_from_spec helper words n a r mem r' mem' :
  placed a n r helper ->
  patch_tls_from helper words a n r mem = Ok (r', mem') ->
  start r' = start r /\ size r' = size r /\ used r <= used r' <= size r /\
  (forall k, ~ (a <= k < a + 4 * Z.of_nat n) ->
             ~ (start r + used r <= k < start r + used r') -> mem' !! k = mem !! k) /\
  segment_patched helper (words * 8) a n r r' mem mem'.
Proof.
  revert a r mem; induction n as [|n IH]; intros a r mem Hp H.
  { simpl in H. simplify_eq. repeat split; try lia; try apply (p_used _ _ _ _ Hp).
    intros i w Hi. lia. }
  cbn [patch_tls_from] in H. apply obind_ok in H as (w & Hw & H).
  unfold rd_word, of_option in Hw. destruct (mem !! a) as [w'|] eqn:Ha; simplify_eq.
  pose proof (placed_next _ _ _ _ Hp) as Hp'.
  destruct (hybris_is_tls_mrs w) eqn:E; cbn [negb] in H.
  - apply obind_ok in H as ([thunk r1] & H1 & H). apply obind_ok in H as (mem1 & H2 & H).
    apply obind_ok in H as (mem2 & H3 & H).
    destruct Hp as [P1 P2 P3 P4 P5 P6].
    apply allocate_thunk_ok in H1 as (-> & -> & Hfit); [|done|done].
    destruct (patch_installs helper words (Z.land w 31) a (start r + used r) mem mem1 mem2) as [Hin Hout];
      [lia | lia | lia | done | done |].
    destruct (IH _ _ _ (placed_alloc (a + 4) n r helper (used r + 96) Hp' ltac:(lia)) H)
      as (S1 & S2 & S3 & S4 & S5). cbn [start size used] in *.
    split; [done|]. split; [done|]. split; [lia|]. split.
    + intros k Hk1 Hk2. rewrite S4 by lia. apply Hout; lia.
    + intros [|i] v Hi Hv.
      * rewrite Z.mul_0_r, Z.add_0_r in *. rewrite Ha in Hv. simplify_eq. rewrite E.
        exists (start r + used r). split; [lia|]. split; [lia|].
        apply (installed_stable mem2); [done | apply S4; lia | intros k Hk; apply S4; lia].
      * assert (a + 4 * Z.of_nat (S i) = a + 4 + 4 * Z.of_nat i) as Heq by lia. rewrite Heq in *.
        specialize (S5 i v). rewrite Hout in S5 by lia. specialize (S5 ltac:(lia) Hv).
        destruct (hybris_is_tls_mrs v); [|done].
        destruct S5 as (t & T1 & T2 & T3). cbn [start used] in *. exists t. split; [lia|]. split; [lia|done].
  - destruct (IH _ _ _ Hp' H) as (S1 & S2 & S3 & S4 & S5).
    split; [done|]. split; [done|]. split; [lia|].
    destruct Hp as [P1 P2 P3 P4 P5 P6]. split.
    + intros k Hk1 Hk2. apply S4; lia.
    + intros [|i] v Hi Hv.
      * rewrite Z.mul_0_r, Z.add_0_r in *. rewrite Ha in Hv. simplify_eq. rewrite E.
        rewrite S4 by lia. done.
      * assert (a + 4 * Z.of_nat (S i) = a + 4 + 4 * Z.of_nat i) as Heq by lia. rewrite Heq in *.
        apply S5; [lia|done].
Qed.

Lemma calculate_tls_offset_exact tp tls_area :
  0 <= tls_area - tp < 2 ^ 31 -> hybris_calculate_tls_offset tp tls_area = (tls_area - tp) / 8.
Proof.
  intros H. unfold hybris_calculate_tls_offset, to_signed.
  rewrite (wrap_small 64 (tls_area - tp)), (wrap_small 32 (tls_area - tp)) by (unfold in_range; lia).
  change (32 - 1) with 31. destruct (Z.ltb_spec (tls_area - tp) (2 ^ 31)); [|lia].
  rewrite (wrap_small 64) by (unfold in_range; lia).
  assert (0 <= (tls_area - tp) / 8 < 2 ^ 31) by (Z.div_mod_to_equations; lia).
  rewrite (wrap_small 32) by (unfold in_range; lia).
  destruct (Z.ltb_spec ((tls_area - tp) / 8) (2 ^ 31)); lia.
Qed.

(** C1: after [hybris_patch_tls] has returned, a patched segment behaves like the
    original one on hardware whose [TPIDR_EL0] is the bionic thread pointer.
    Words that are not [mrs Xt, TPIDR_EL0] (t < 31) are unchanged.  A thread that
    executes a patched [mrs] reaches the next instruction after finitely many
    steps with [Xt] equal to the (non-null) pointer in libhybris' own TLS slot
    and every other register, the stack pointer and TPIDR_EL0 unchanged, on the
    initialised and on the first-touch path. *)
Theorem patched_segment_correct helper first_touch tp tls_area seg seg_size r mem r' mem' :
  placed seg (Z.to_nat (seg_size / 4)) r helper ->
  0 <= tls_area - tp < 2 ^ 31 -> (tls_area - tp) mod 8 = 0 ->
  first_touch_ok first_touch (tls_area - tp) ->
  hybris_patch_tls helper tp tls_area seg seg_size r mem = Ok (r', mem') ->
  forall (i : nat) w,
    (i < Z.to_nat (seg_size / 4))%nat -> mem !! (seg + 4 * Z.of_nat i) = Some w ->
    if hybris_is_tls_mrs w then
      forall m, thread_ok m (tls_area - tp) (seg + 4 * Z.of_nat i) ->
        exists n m', run mem' helper first_touch n m = Some m' /\
          mrs_done m m' (tls_area - tp) (Z.land w 31) (seg + 4 * Z.of_nat i + 4)
    else mem' !! (seg + 4 * Z.of_nat i) = Some w.
Proof.
  intros Hp Hd Hal Hft H i w Hi Hw. unfold hybris_patch_tls, hybris_patch_tls_arch in H.
  rewrite calculate_tls_offset_exact in H by done.
  destruct (patch_tls_from_spec _ _ _ _ _ _ _ _ Hp H) as (S1 & S2 & S3 & S4 & S5).
  replace ((tls_area - tp) / 8 * 8) with (tls_area - tp) in S5 by (Z.div_mod_to_equations; lia).
  specialize (S5 i w Hi Hw). destruct (hybris_is_tls_mrs w) eqn:E; [|done].
  destruct S5 as (thunk & T1 & T2 & Hin). intros m Hm. destruct Hp as [P1 P2 P3 P4 P5 P6].
  apply (installed_run helper first_touch (tls_area - tp) (Z.land w 31) (seg + 4 * Z.of_nat i) thunk);
    try done; try lia. now apply mrs_register.
Qed.

(** A segment with one [mrs x3, tpidr_el0] at 0x1000, a region for one thunk at
    0x2000, a TLS slot 16 bytes above the thread pointer 0x8000 and a helper that
    publishes the arena pointer 0x5008. *)
Definition demo_text : gmap Z Z :=
  <[0x1000 := 0xd53bd043]> (<[0x1004 := 0xd65f03c0]>
    (list_to_map (map (fun i => (0x2000 + 4 * Z.of_nat i, 0)) (seq 0 24)))).
Definition demo_region : thunk_region := hybris_register_thunk_region 0x2000 96.
Definition demo_first_touch (m : mach) : mach :=
  let slot := tpidr m + 16 in
  Mach (regs m) (sp m) (tpidr m) (regs m 30)
    (if (sp m <=? slot) && (slot <? sp m + 32) then dmem m else upd (dmem m) slot 0x5008).
Definition demo_thread : mach := Mach (fun r => 100 + r) 0x7000 0x8000 0x1000 (fun _ => 0).

Lemma demo_first_touch_ok : first_touch_ok demo_first_touch 16.
Proof.
  split; try reflexivity; intros m; unfold demo_first_touch; simpl;
    destruct (Z.leb_spec (sp m) (tpidr m + 16)), (Z.ltb_spec (tpidr m + 16) (sp m + 32)); simpl; intros;
    rewrite ?upd_eq; try lia; try reflexivity; now rewrite upd_ne by lia.
Qed.

Lemma demo_placed : placed 0x1000 2 demo_region 0x9000.
Proof. split; simpl; lia. Qed.

Lemma patched_segment_correct_witness :
  exists r' mem' n m',
    hybris_patch_tls 0x9000 0x8000 0x8010 0x1000 8 demo_region demo_text = Ok (r', mem') /\
    run mem' 0x9000 demo_first_touch n demo_thread = Some m' /\
    mrs_done demo_thread m' 16 3 0x1004.
Proof.
  destruct (hybris_patch_tls 0x9000 0x8000 0x8010 0x1000 8 demo_region demo_text)
    as [[r' mem']| |] eqn:E; [|exfalso; vm_compute in E; discriminate E ..].
  assert (thread_ok demo_thread (0x8010 - 0x8000) 0x1000) as Ht by (split; cbn [demo_thread pc sp tpidr dmem]; first [reflexivity | lia | split; [lia | reflexivity]]).
  destruct (patched_segment_correct 0x9000 demo_first_touch 0x8000 0x8010 0x1000 8 demo_region
    demo_text r' mem' demo_placed ltac:(lia) eq_refl demo_first_touch_ok E 0 0xd53bd043
    ltac:(vm_compute; lia) eq_refl demo_thread Ht) as (n & m' & H1 & H2).
  exists r', mem', n, m'. split; [reflexivity|]. split; [exact H1 | exact H2].
Defined.

Lemma count_tls_ext mem mem' a n :
  (forall i : nat, (i < n)%nat -> mem' !! (a + 4 * Z.of_nat i) = mem !! (a + 4 * Z.of_nat i)) ->
  count_tls_from mem' a n = count_tls_from mem a n.
Proof.
  revert a; induction n as [|n IH]; intros a H; [done|]. cbn [count_tls_from]. unfold rd_word.
  pose proof (H 0%nat ltac:(lia)) as H0. rewrite Z.mul_0_r, Z.add_0_r in H0. rewrite H0.
  rewrite IH; [done|]. intros i Hi. specialize (H (S i) ltac:(lia)).
  replace (a + 4 + 4 * Z.of_nat i) with (a + 4 * Z.of_nat (S i)) by lia. done.
Qed.

Lemma count_tls_nonneg mem a n c : count_tls_from mem a n = Ok c -> 0 <= c.
Proof.
  revert a c; induction n as [|n IH]; intros a c H; simpl in H; [simplify_eq; lia|].
  apply obind_ok in H as (w & _ & H). apply obind_ok in H as (c' & Hc & H).
  apply IH in Hc. simplify_eq. case_match; lia.
Qed.

(** Segment and thunk region fit in one 128 MiB window and are word aligned. *)
Record reachable (a : Z) (n : nat) (r : thunk_region) : Prop := {
  w_al : a mod 4 = 0 /\ (start r + used r) mod 4 = 0;
  w_window : exists b, b <= a /\ a + 4 * Z.of_nat n <= b + 2 ^ 27 /\
                       b <= start r /\ start r + size r <= b + 2 ^ 27;
}.

Lemma in_branch_range d : d mod 4 = 0 -> - 2 ^ 27 <= d < 2 ^ 27 -> branch_out_of_range d = false.
Proof.
  intros Hm Hd. assert (exists q, d = 4 * q) as [q ->].
  { exists (d / 4). pose proof (Z.div_mod d 4 ltac:(lia)). lia. }
  unfold branch_out_of_range. rewrite (Z.mul_comm 4), Z.rem_mul, Z.quot_mul by lia. simpl.
  destruct (Z.ltb_spec q (- 2 ^ 25)), (Z.leb_spec (2 ^ 25) q); simpl; try reflexivity; lia.
Qed.

Lemma allocate_thunk_succeeds r target :
  0 < start r /\ start r + size r <= 2 ^ 63 -> 0 <= used r -> used r + 96 <= size r ->
  - 2 ^ 27 <= target - (start r + used r) <= 2 ^ 27 ->
  hybris_allocate_thunk_near r target HYBRIS_TLS_THUNK_SIZE
  = Ok (start r + used r, Region (start r) (size r) (used r + 96)).
Proof.
  intros Hr Hu Hf Ht. unfold hybris_allocate_thunk_near.
  change (Z.land (u64 (HYBRIS_TLS_THUNK_SIZE + 15)) (2 ^ 64 - 16)) with 96. cbv zeta.
  rewrite !wrap_small by (unfold in_range; lia).
  destruct (Z.eqb_spec (start r) 0); [lia|]. destruct (Z.ltb_spec (size r) (used r + 96)); [lia|].
  simpl orb. cbv iota. change (128 * 1024 * 1024) with (2 ^ 27).
  destruct (Z.ltb_spec (start r + used r) target); case_match; try done; lia.
Qed.

Lemma generate_succeeds helper words rt mrs thunk mem :
  0 <= words * 8 <= 0xFFFFFF -> 0 <= thunk /\ thunk + 96 <= 2 ^ 63 -> 0 <= mrs /\ mrs + 4 < 2 ^ 63 ->
  (mrs + 4 - (thunk + 72)) mod 4 = 0 -> - 2 ^ 27 <= mrs + 4 - (thunk + 72) < 2 ^ 27 ->
  (forall i : nat, (i < 24)%nat -> is_Some (mem !! (thunk + 4 * Z.of_nat i))) ->
  exists mem', generate_tls_thunk helper words rt mrs thunk mem = Ok mem'.
Proof.
  intros Hw Ht Hm Ha Hd Hmap. unfold generate_tls_thunk.
  destruct (Z.ltb_spec (words * 8) 0), (Z.ltb_spec 0xFFFFFF (words * 8)); try lia. simpl orb. cbv iota zeta.
  rewrite !signed_addr by lia. rewrite in_branch_range by done. apply wr_words_ok. exact Hmap.
Qed.

(** The free part of the thunk region is mapped. *)
Definition region_mapped (r : thunk_region) (mem : gmap Z Z) : Prop :=
  forall i : nat, used r + 4 * Z.of_nat i + 4 <= size r ->
    is_Some (mem !! (start r + used r + 4 * Z.of_nat i)).

Lemma patch_step_succeeds helper words rt n a r mem :
  placed a (S n) r helper -> reachable a (S n) r -> 0 <= words * 8 <= 0xFFFFFF ->
  region_mapped r mem -> is_Some (mem !! a) -> used r + 96 <= size r ->
  exists mem1 mem2,
    generate_tls_thunk helper words rt a (start r + used r) mem = Ok mem1 /\
    patch_mrs_with_branch a (start r + used r) mem1 = Ok mem2 /\
    (forall k, is_Some (mem !! k) -> is_Some (mem2 !! k)) /\
    (forall k, k <> a -> ~ (start r + used r <= k < start r + used r + 96) -> mem2 !! k = mem !! k).
Proof.
  intros [P1 P2 P3 P4 P5 P6] [[W1 W2] (b & W3 & W4 & W5 & W6)] Hw Hmap Ha Hfit.
  set (t := start r + used r) in *.
  destruct (generate_succeeds helper words rt a t mem) as [mem1 H1]; try (unfold t; lia).
  { Z.div_mod_to_equations; lia. }
  { intros i Hi. apply Hmap. lia. }
  assert (branch_out_of_range (t - a) = false) as Hb.
  { apply in_branch_range; [Z.div_mod_to_equations; lia | unfold t; lia]. }
  assert (forall k, ~ (t <= k < t + 96) -> mem1 !! k = mem !! k) as Hout.
  { intros k Hk. unfold generate_tls_thunk in H1. repeat case_match; try done.
    apply (wr_words_out _ _ _ _ _ H1). simpl length. lia. }
  destruct Ha as [w Hw'].
  assert (mem1 !! a = Some w) as Ha1 by (rewrite Hout; [done | unfold t; lia]).
  assert (patch_mrs_with_branch a t mem1
    = Ok (<[a := Z.lor 0x14000000 (Z.land (Z.quot (t - a) 4) 0x3FFFFFF)]> mem1)) as H2.
  { unfold patch_mrs_with_branch. rewrite !signed_addr by (unfold t; lia). rewrite Hb.
    unfold wr. now rewrite Ha1. }
  eexists mem1, _. split; [exact H1|]. split; [exact H2|]. split.
  - intros k Hk. destruct (decide (a = k)) as [->|]; [rewrite lookup_insert_eq; eauto|].
    rewrite lookup_insert_ne by done. unfold generate_tls_thunk in H1. repeat case_match; try done.
    eapply wr_words_mono; eauto.
  - intros k Hk Hk2. rewrite lookup_insert_ne by done. now apply Hout.
Qed.

Lemma patch_tls_from_succeeds helper words n a r mem c :
  placed a n r helper -> reachable a n r -> 0 <= words * 8 <= 0xFFFFFF ->
  region_mapped r mem -> count_tls_from mem a n = Ok c -> used r + 96 * c <= size r ->
  exists mem', patch_tls_from helper words a n r mem
               = Ok (Region (start r) (size r) (used r + 96 * c), mem').
Proof.
  revert a r mem c; induction n as [|n IH]; intros a r mem c Hp Hr Hw Hmap Hc Hfit.
  { simpl in *. simplify_eq. exists mem. destruct r; simpl. do 3 f_equal. lia. }
  cbn [count_tls_from patch_tls_from] in *. apply obind_ok in Hc as (w & Hrd & Hc).
  apply obind_ok in Hc as (c' & Hc' & Hc). rewrite Hrd. simpl obind.
  pose proof (count_tls_nonneg _ _ _ _ Hc') as Hc0.
  assert (is_Some (mem !! a)) as Ha by (unfold rd_word, of_option in Hrd; destruct (mem !! a); eauto; done).
  pose proof (placed_next _ _ _ _ Hp) as Hp'.
  assert (forall u, (start r + u) mod 4 = 0 -> reachable (a + 4) n (Region (start r) (size r) u)) as Hr'.
  { intros u Hu. destruct Hr as [[W1 W2] (b & W3 & W4 & W5 & W6)]. split; simpl.
    - split; [Z.div_mod_to_equations; lia | done].
    - exists b. lia. }
  destruct (hybris_is_tls_mrs w) eqn:E; simplify_eq; cbn [negb].
  - rewrite allocate_thunk_succeeds.
    2, 3: destruct Hp; lia. 2: lia. 2: { destruct Hp, Hr as [_ (b & ?)]; lia. }
    cbn [obind].
    destruct (patch_step_succeeds helper words (Z.land w 31) n a r mem Hp Hr Hw Hmap Ha ltac:(lia))
      as (mem1 & mem2 & -> & H2 & Hmono & Hout). cbn [obind]. rewrite H2. cbn [obind].
    destruct (IH (a + 4) (Region (start r) (size r) (used r + 96)) mem2 c') as [mem' Hm'].
    + apply placed_alloc; [done | lia].
    + apply Hr'. destruct Hr as [[_ W2] _]. Z.div_mod_to_equations; lia.
    + done.
    + intros i Hi. simpl in *. apply Hmono.
      replace (start r + (used r + 96) + 4 * Z.of_nat i) with (start r + used r + 4 * Z.of_nat (24 + i)) by lia.
      apply Hmap. lia.
    + rewrite (count_tls_ext mem); [done|]. intros i Hi. apply Hout; destruct Hp; lia.
    + simpl. lia.
    + exists mem'. rewrite Hm'. simpl. do 3 f_equal. lia.
  - destruct (IH (a + 4) r mem c Hp') as [mem' Hm']; auto.
    + specialize (Hr' (used r)). destruct r. apply Hr', Hr.
    + eauto.
Qed.

(** C40: [hybris_count_tls] sizes the thunk region exactly: when the freshly
    registered region holds one 96-byte thunk per counted [mrs], is mapped and
    lies with the segment in a 128 MiB window, and the TLS slot is within the
    24-bit offset range, [hybris_patch_tls] never aborts and uses precisely
    that much of the region. *)
Theorem counted_region_suffices helper tp tls_area seg seg_size thunks mem c :
  hybris_count_tls mem seg seg_size = Ok c ->
  let r := hybris_register_thunk_region thunks (c * HYBRIS_TLS_THUNK_SIZE) in
  placed seg (Z.to_nat (seg_size / 4)) r helper -> reachable seg (Z.to_nat (seg_size / 4)) r ->
  region_mapped r mem -> 0 <= tls_area - tp <= 0xFFFFFF ->
  exists mem', hybris_patch_tls helper tp tls_area seg seg_size r mem
               = Ok (Region thunks (c * 96) (c * 96), mem').
Proof.
  intros Hc r Hp Hr Hmap Hoff. unfold hybris_patch_tls, hybris_patch_tls_arch.
  rewrite calculate_tls_offset_exact by lia.
  destruct (patch_tls_from_succeeds helper ((tls_area - tp) / 8) _ _ r mem c Hp Hr) as [mem' H]; auto.
  - change 0xFFFFFF with 16777215 in *. Z.div_mod_to_equations; lia.
  - unfold r, hybris_register_thunk_region, HYBRIS_TLS_THUNK_SIZE. simpl. lia.
  - exists mem'. rewrite H. unfold r, hybris_register_thunk_region, HYBRIS_TLS_THUNK_SIZE. simpl.
    do 3 f_equal. lia.
Qed.

Lemma demo_reachable : reachable 0x1000 2 demo_region.
Proof. split; simpl; [done | exists 0x1000; lia]. Qed.

Lemma demo_mapped : region_mapped demo_region demo_text.
Proof.
  intros i Hi. simpl in Hi. assert (i < 24)%nat as H by lia. clear Hi.
  do 24 (destruct i as [|i]; [vm_compute; eauto|]). lia.
Qed.

Lemma counted_region_suffices_witness :
  hybris_count_tls demo_text 0x1000 8 = Ok 1 /\
  exists mem', hybris_patch_tls 0x9000 0x8000 0x8010 0x1000 8 demo_region demo_text
               = Ok (Region 0x2000 96 96, mem').
Proof.
  split; [reflexivity|].
  apply (counted_region_suffices 0x9000 0x8000 0x8010 0x1000 8 0x2000 demo_text 1 eq_refl
           demo_placed demo_reachable demo_mapped). lia.
Defined.
End TlsPatcher.
