(* ===== verification/Shm.v ===== *)
(** * The shared-memory pool for process-shared objects (common/hooks_shm.c)

    Processes attach to one named POSIX shared-memory object and carve
    process-shared mutexes, conditions and rwlocks out of it.  The state is the
    operating system's objects and name binding, and per process the file's
    statics ([_hybris_shm_data], [_hybris_shm_fd], [_current_mapped_size]).
    Every call runs under the pool's [access_mutex] once attached, so the calls
    of different processes are interleaved as atomic steps. *)

From Stdlib Require Import ZArith Lia Bool.
From stdpp Require Import base list numbers option relations.
From S2P Require Import Prelude.

Open Scope Z_scope.
Open Scope outcome_scope.

Module Shm.

Definition HYBRIS_DATA_SIZE : Z := 4000.
Definition HYBRIS_SHM_MASK : Z := 0xFFFFFFFFFF000000.
Definition HYBRIS_SHM_MASK_TOP : Z := 2 ^ 64 - 1 - 15.

(** LP64 layout of [hybris_shm_data_t] with a 48-byte [pthread_mutex_t] (AArch64
    glibc): [data] at offset 56, the size rounded up to 64, less one byte. *)
Definition data_offset : Z := 56.
Definition HYBRIS_SHM_DATA_HEADER_SIZE : Z := 63.

Definition MAP_FAILED : Z := 2 ^ 64 - 1.

(** A shared-memory object: its file size and the two header words the code uses. *)
Record region := Region { fsize : Z; current_offset : Z; max_offset : Z }.

(** All objects ever created and the one [HYBRIS_SHM_PATH] names. *)
Record os := Os { objs : list region; bound : option nat }.

(** The statics of one process; [obj] is the object behind its descriptor. *)
Record proc := Proc { shm_data : Z; shm_fd : Z; obj : option nat; mapped_size : Z }.

(** Results of the system calls of one library call; [s_truncate]: [ftruncate] succeeds (the code does not look). *)
Record sysres := Sys { s_open : Z; s_create : Z; s_mmap : Z; s_mremap : Z; s_truncate : bool }.

(** The header behind [_hybris_shm_data]. *)
Definition header (w : os) (p : proc) : outcome (nat * region) :=
  if (shm_data p =? 0) || (shm_data p =? MAP_FAILED) then Undef
  else match obj p with
       | Some k => match objs w !! k with Some r => Ok (k, r) | None => Undef end
       | None => Undef
       end.

Definition set_region (w : os) (k : nat) (r : region) : os := Os (<[k := r]> (objs w)) (bound w).

Definition _release_shm (w : os) (p : proc) : os * proc :=
  (Os (objs w) None, Proc 0 (-1) None (mapped_size p)).

Definition _sync_mmap_with_shm (s : sysres) (w : os) (p : proc) : outcome proc :=
  if (0 <=? shm_fd p) && negb (shm_data p =? 0) then
    let! (_, r) := header w p in
    let! need := int_add (max_offset r) HYBRIS_SHM_DATA_HEADER_SIZE in
    if mapped_size p <? need then
      let p := Proc (s_mremap s) (shm_fd p) (obj p) (mapped_size p) in
      let! (_, r) := header w p in
      let! need := int_add (max_offset r) HYBRIS_SHM_DATA_HEADER_SIZE in
      Ok (Proc (shm_data p) (shm_fd p) (obj p) need)
    else Ok p
  else Ok p.

Definition _hybris_shm_init (s : sysres) (w : os) (p : proc) : outcome (os * proc) :=
  if shm_fd p <? 0 then
    let size_to_map := HYBRIS_SHM_DATA_HEADER_SIZE + HYBRIS_DATA_SIZE in
    let fd := match bound w with Some _ => s_open s | None => -1 end in
    if 0 <=? fd then
      let! p := _sync_mmap_with_shm s w (Proc (s_mmap s) fd (bound w) size_to_map) in
      Ok (w, p)
    else
      let fd := s_create s in
      if 0 <=? fd then
        let '(w, k) := match bound w with
                       | Some k => (w, k)
                       | None => (Os (objs w ++ [Region 0 0 0]) (Some (length (objs w))), length (objs w))
                       end in
        let! r := of_option (objs w !! k) in
        let size := if s_truncate s then size_to_map else fsize r in
        let w := set_region w k (Region size (current_offset r) (max_offset r)) in
        if s_mmap s =? MAP_FAILED then
          Ok (_release_shm w (Proc (s_mmap s) fd (Some k) (mapped_size p)))
        else
          if size <? size_to_map then Undef (* the [memset] runs past the end of the object *) else
          let w := set_region w k (Region size 0 HYBRIS_DATA_SIZE) in
          Ok (w, Proc (s_mmap s) fd (Some k) size_to_map)
      else Ok (w, Proc (shm_data p) fd (obj p) (mapped_size p))
  else Ok (w, p).

Definition _hybris_shm_extend_region (s : sysres) (w : os) (p : proc) : outcome (os * proc) :=
  let! (k, r) := header w p in
  let! fsz := int_add (mapped_size p) HYBRIS_DATA_SIZE in
  let! mx := int_add (max_offset r) HYBRIS_DATA_SIZE in
  let w := set_region w k (Region (if s_truncate s then fsz else fsize r) (current_offset r) mx) in
  let! p := _sync_mmap_with_shm s w p in
  Ok (w, p).

Definition hybris_is_pointer_in_shm (ptr : Z) : bool :=
  (HYBRIS_SHM_MASK <=? ptr) && (ptr <=? HYBRIS_SHM_MASK_TOP).

Definition hybris_get_shmpointer (s : sysres) (handle : Z) (w : os) (p : proc)
  : outcome (Z * os * proc) :=
  if hybris_is_pointer_in_shm handle then
    let! (w, p) := (if shm_fd p <? 0 then _hybris_shm_init s w p else Ok (w, p)) in
    if (shm_fd p <? 0) || (shm_data p =? 0) then Ok (0, w, p)
    else
      let! p := _sync_mmap_with_shm s w p in
      let realpointer :=
        if negb (shm_data p =? 0)
        then u64 (shm_data p + data_offset + Z.land handle (2 ^ 64 - 1 - HYBRIS_SHM_MASK)) else 0 in
      Ok (realpointer, w, p)
  else Ok (0, w, p).

Definition hybris_shm_alloc (s : sysres) (size : Z) (w : os) (p : proc)
  : outcome (Z * os * proc) :=
  let! (w, p) := (if shm_fd p <? 0 then _hybris_shm_init s w p else Ok (w, p)) in
  if (shm_fd p <? 0) || (shm_data p =? 0) then Ok (0, w, p)
  else
    let! p := _sync_mmap_with_shm s w p in
    if (shm_data p =? 0) || (shm_fd p <? 0) then Ok (0, w, p)
    else
      let! (k, r) := header w p in
      let! (w, p) :=
        (if u64 (max_offset r) <=? u64 (current_offset r + size)
         then let! (w, p) := _hybris_shm_extend_region s w p in
              let! p := _sync_mmap_with_shm s w p in Ok (w, p)
         else Ok (w, p)) in
      let! (k, r) := header w p in
      let location := Z.lor (u64 (current_offset r)) HYBRIS_SHM_MASK in
      let r := Region (fsize r) (to_signed 32 (current_offset r + size)) (max_offset r) in
      Ok (location, set_region w k r, p).

(** ** The invariant of the pool *)

Definition region_ok (r : region) : Prop :=
  0 <= current_offset r <= max_offset r /\ HYBRIS_DATA_SIZE <= max_offset r /\
  max_offset r + HYBRIS_SHM_DATA_HEADER_SIZE < 2 ^ 31.

(** The object is as long as its header says. *)
Definition room (r : region) : Prop := max_offset r + HYBRIS_SHM_DATA_HEADER_SIZE <= fsize r.
Definition sized (w : os) : Prop := forall k r, objs w !! k = Some r -> region_ok r -> room r.
(** A call whose [ftruncate]s succeed keeps the objects that long. *)
Definition keeps (s : sysres) (w w' : os) : Prop := s_truncate s = true -> sized w -> sized w'.

(** A process that holds the object maps no more of it than the header says. *)
Definition proc_ok (w : os) (p : proc) : Prop :=
  0 <= shm_fd p -> shm_data p <> 0 ->
  shm_data p <> MAP_FAILED /\ exists k r, obj p = Some k /\ objs w !! k = Some r /\
    region_ok r /\ mapped_size p <= max_offset r + HYBRIS_SHM_DATA_HEADER_SIZE.

Definition os_ok (w : os) : Prop :=
  match bound w with Some k => exists r, objs w !! k = Some r /\ region_ok r | None => True end.

Ltac consts := unfold HYBRIS_DATA_SIZE, HYBRIS_SHM_DATA_HEADER_SIZE, data_offset in *.

Lemma header_ok w p k r :
  header w p = Ok (k, r) ->
  shm_data p <> 0 /\ shm_data p <> MAP_FAILED /\ obj p = Some k /\ objs w !! k = Some r.
Proof.
  unfold header. destruct (Z.eqb_spec (shm_data p) 0), (Z.eqb_spec (shm_data p) MAP_FAILED); simpl; try done.
  destruct (obj p) as [k'|]; [|done]. destruct (objs w !! k') eqn:E; [|done]. intros; simplify_eq. auto.
Qed.

Lemma header_intro w p k r :
  shm_data p <> 0 -> shm_data p <> MAP_FAILED -> obj p = Some k -> objs w !! k = Some r ->
  header w p = Ok (k, r).
Proof.
  intros H1 H2 H3 H4. unfold header.
  destruct (Z.eqb_spec (shm_data p) 0), (Z.eqb_spec (shm_data p) MAP_FAILED); try done. simpl.
  now rewrite H3, H4.
Qed.

(** After a synchronisation an attached process maps its whole object. *)
Lemma sync_spec s w p p' :
  proc_ok w p -> _sync_mmap_with_shm s w p = Ok p' ->
  shm_fd p' = shm_fd p /\ obj p' = obj p /\ proc_ok w p' /\
  (0 <= shm_fd p -> shm_data p <> 0 ->
   exists k r, header w p' = Ok (k, r) /\ region_ok r /\ mapped_size p' = max_offset r + HYBRIS_SHM_DATA_HEADER_SIZE).
Proof.
  intros Hp. unfold _sync_mmap_with_shm.
  destruct (Z.leb_spec 0 (shm_fd p)) as [Hfd|Hfd]; simpl.
  2: { intros; simplify_eq. repeat split; auto; lia. }
  destruct (Z.eqb_spec (shm_data p) 0) as [H0|H0]; simpl.
  { intros; simplify_eq. repeat split; auto; lia. }
  intros H. apply obind_ok in H as ([k r] & Hh & H). apply obind_ok in H as (need & Hn & H).
  apply header_ok in Hh as (_ & H1 & H2 & H3). apply int_add_ok in Hn as [-> Hb].
  destruct (Hp Hfd H0) as (_ & k' & r' & K1 & K2 & Hr & K3). simplify_eq.
  pose proof Hr as (R1 & R2 & R4).
  destruct (Z.ltb_spec (mapped_size p) (max_offset r + HYBRIS_SHM_DATA_HEADER_SIZE)).
  - apply obind_ok in H as ([k2 r2] & Hh & H). apply obind_ok in H as (need & Hn & H).
    apply header_ok in Hh as (D1 & D2 & D3 & D4). apply int_add_ok in Hn as [-> _]. cbn in *. simplify_eq.
    cbn. split; [done|]. split; [done|]. split.
    + intros _ _. cbn. split; [done|]. exists k, r. auto with lia.
    + intros _ _. exists k, r. split; [now apply header_intro|]. cbn. auto with lia.
  - simplify_eq. split; [done|]. split; [done|]. split; [done|]. intros _ _. exists k, r.
    split; [now apply header_intro|]. split; [done|lia].
Qed.

(** How library calls change the objects: offsets and sizes only grow. *)
Definition grows (w w' : os) : Prop :=
  forall k r, objs w !! k = Some r -> exists r', objs w' !! k = Some r' /\
    current_offset r <= current_offset r' /\ max_offset r <= max_offset r' /\ (region_ok r -> region_ok r').

Lemma grows_refl w : grows w w.
Proof. intros k r H. exists r. auto with lia. Qed.

Lemma grows_trans w1 w2 w3 : grows w1 w2 -> grows w2 w3 -> grows w1 w3.
Proof.
  intros H12 H23 k r H. destruct (H12 k r H) as (r2 & E2 & ? & ? & ?).
  destruct (H23 k r2 E2) as (r3 & E3 & ? & ? & ?). exists r3. split; [done|]. split; [lia|]. split; [lia|auto].
Qed.

Lemma proc_ok_grows w w' p : grows w w' -> proc_ok w p -> proc_ok w' p.
Proof.
  intros Hg Hp Hfd Hd. destruct (Hp Hfd Hd) as (H1 & k & r & K1 & K2 & Hr & K3).
  destruct (Hg k r K2) as (r' & E & _ & ? & ?). split; [done|]. exists k, r'. auto with lia.
Qed.

Lemma grows_set w k r r' :
  objs w !! k = Some r -> current_offset r <= current_offset r' -> max_offset r <= max_offset r' ->
  (region_ok r -> region_ok r') -> grows w (set_region w k r').
Proof.
  intros Hk H1 H2 H3 j x Hj. unfold set_region. cbn [objs].
  destruct (decide (k = j)) as [->|].
  - simplify_eq. exists r'. rewrite list_lookup_insert_eq; eauto using lookup_lt_Some.
  - exists x. rewrite list_lookup_insert_ne by done. auto with lia.
Qed.

Lemma set_region_lookup w k r r' : objs w !! k = Some r -> objs (set_region w k r') !! k = Some r'.
Proof. intros H. apply list_lookup_insert_eq. eauto using lookup_lt_Some. Qed.

Lemma os_ok_grows w w' : grows w w' -> bound w' = bound w -> os_ok w -> os_ok w'.
Proof.
  intros Hg Hb. unfold os_ok. rewrite Hb. destruct (bound w) as [k|]; [|done].
  intros (r & Hr & Hok). destruct (Hg k r Hr) as (r' & H1 & _ & _ & H2). eauto.
Qed.

Lemma keeps_refl s w : keeps s w w.
Proof. intros _ H. exact H. Qed.

Lemma keeps_trans s w1 w2 w3 : keeps s w1 w2 -> keeps s w2 w3 -> keeps s w1 w3.
Proof. intros H1 H2 Ht H. exact (H2 Ht (H1 Ht H)). Qed.

Lemma keeps_set s w k r r' : objs w !! k = Some r -> region_ok r -> (s_truncate s = true -> room r -> room r') -> keeps s w (set_region w k r').
Proof.
  intros Hk Hr H Ht Hs j x Hj Hx. unfold set_region in Hj. cbn [objs] in Hj. destruct (decide (k = j)) as [<-|].
  - rewrite list_lookup_insert_eq in Hj by eauto using lookup_lt_Some. injection Hj as <-. apply H; [exact Ht|]. exact (Hs k r Hk Hr).
  - rewrite list_lookup_insert_ne in Hj by done. exact (Hs j x Hj Hx).
Qed.

Lemma keeps_snoc s w r b : (region_ok r -> room r) -> keeps s w (Os (objs w ++ [r]) b).
Proof.
  intros Hr _ Hs k x Hk Hx. cbn [objs] in Hk. apply lookup_app_Some in Hk as [Hk|[_ Hk]]; [exact (Hs k x Hk Hx)|].
  apply list_lookup_singleton_Some in Hk as [_ <-]. exact (Hr Hx).
Qed.

Lemma insert_snoc {A} (l : list A) x y : <[length l := x]> (l ++ [y]) = l ++ [x].
Proof. rewrite insert_app_r_alt by lia. now rewrite Nat.sub_diag. Qed.

Lemma grows_snoc w r b : grows w (Os (objs w ++ [r]) b).
Proof. intros k x H. exists x. cbn. rewrite lookup_app_l by eauto using lookup_lt_Some. auto with lia. Qed.

(** [shm_open(O_RDWR)] succeeds when the name is bound (no permission or
    descriptor-limit failure): otherwise the create branch would reset a live object. *)
Definition sys_ok (s : sysres) (w : os) : Prop :=
  match bound w with Some _ => 0 <= s_open s | None => True end.

Lemma attach_ok s w k p' :
  os_ok w -> bound w = Some k -> 0 <= s_open s ->
  _sync_mmap_with_shm s w
    (Proc (s_mmap s) (s_open s) (Some k) (HYBRIS_SHM_DATA_HEADER_SIZE + HYBRIS_DATA_SIZE)) = Ok p' ->
  proc_ok w p'.
Proof.
  intros Hw Hb Ho Hsync. unfold os_ok in Hw. rewrite Hb in Hw. destruct Hw as (r & Hr & Hok).
  destruct (decide (s_mmap s = MAP_FAILED)) as [Hm|Hm].
  { exfalso. unfold _sync_mmap_with_shm in Hsync. cbn in Hsync.
    destruct (Z.leb_spec 0 (s_open s)); [|lia]. rewrite Hm in Hsync. cbn in Hsync. done. }
  refine (proj1 (proj2 (proj2 (sync_spec _ _ _ _ _ Hsync)))).
  intros _ Hdata. cbn in *. split; [done|]. exists k, r. destruct Hok as (? & ? & ?). 
  repeat split; auto; lia.
Qed.

Lemma init_spec s w p w' p' :
  os_ok w -> sys_ok s w -> shm_fd p < 0 -> shm_data p = 0 ->
  _hybris_shm_init s w p = Ok (w', p') -> os_ok w' /\ proc_ok w' p' /\ grows w w' /\ keeps s w w'.
Proof.
  intros Hw Hs Hfd Hd. unfold _hybris_shm_init.
  destruct (Z.ltb_spec (shm_fd p) 0); [|lia]. cbv zeta. unfold sys_ok in Hs.
  destruct (bound w) as [k|] eqn:Hb.
  - destruct (Z.leb_spec 0 (s_open s)); [|lia]. intros H'.
    apply obind_ok in H' as (p1 & Hsync & H'). simplify_eq.
    split; [done|]. split; [eapply attach_ok; eauto|]. split; [apply grows_refl|apply keeps_refl].
  - simpl. destruct (Z.leb_spec 0 (s_create s)) as [Hc|Hc].
    + rewrite lookup_app_r, Nat.sub_diag by lia. cbn [of_option obind lookup list_lookup].
      unfold set_region. cbn [objs bound fsize]. rewrite !insert_snoc.
      set (size := if s_truncate s then _ else 0).
      destruct (Z.eqb_spec (s_mmap s) MAP_FAILED) as [Hm|Hm]; [intros; simplify_eq|].
      * split; [done|]. split; [intros Hf; cbn in Hf; lia|]. split; [apply grows_snoc|].
        apply keeps_snoc. intros (_ & Hr & _). consts. cbn in Hr. lia.
      * destruct (Z.ltb_spec size (HYBRIS_SHM_DATA_HEADER_SIZE + HYBRIS_DATA_SIZE)) as [|Hsize]; [done|]. intros; simplify_eq.
        assert ((objs w ++ [Region size 0 HYBRIS_DATA_SIZE]) !! length (objs w) = Some (Region size 0 HYBRIS_DATA_SIZE)) as Hl.
        { rewrite lookup_app_r, Nat.sub_diag by lia. done. }
        assert (region_ok (Region size 0 HYBRIS_DATA_SIZE)) as Hr by (unfold region_ok; consts; cbn; lia).
        split; [cbn; eauto|]. split.
        -- intros _ _. cbn. split; [done|]. eexists _, _. split; [done|]. split; [exact Hl|]. split; [done|]. cbn. consts. lia.
        -- split; [apply grows_snoc|]. apply keeps_snoc. intros _. unfold room. cbn [max_offset fsize]. lia.
    + intros; simplify_eq. split; [done|]. split; [|split; [apply grows_refl|apply keeps_refl]]. intros Hf. cbn in *. lia.
Qed.

(** Not attached: the data pointer is null. *)
Definition detached_ok (p : proc) : Prop := shm_fd p < 0 -> shm_data p = 0.

Lemma sync_detached s w p p' : _sync_mmap_with_shm s w p = Ok p' -> detached_ok p -> detached_ok p'.
Proof.
  unfold _sync_mmap_with_shm, detached_ok. destruct (Z.leb_spec 0 (shm_fd p)); simpl; [|intros; simplify_eq; auto].
  destruct (shm_data p =? 0); simpl; [intros; simplify_eq; auto|]. intros H' _.
  apply obind_ok in H' as ([k r] & _ & H'). apply obind_ok in H' as (need & _ & H').
  destruct (_ <? need); [|simplify_eq; lia].
  apply obind_ok in H' as ([k2 r2] & _ & H'). apply obind_ok in H' as (need2 & _ & H'). simplify_eq. cbn. lia.
Qed.

Lemma init_detached s w p w' p' :
  shm_data p = 0 -> _hybris_shm_init s w p = Ok (w', p') -> detached_ok p -> detached_ok p'.
Proof.
  intros Hd. unfold _hybris_shm_init. destruct (Z.ltb_spec (shm_fd p) 0); [|intros; simplify_eq; auto].
  cbv zeta. destruct (Z.leb_spec 0 (match bound w with Some _ => s_open s | None => -1 end)) as [Ho|Ho].
  - intros H' Hp. apply obind_ok in H' as (p1 & Hs & H'). simplify_eq.
    apply (sync_detached _ _ _ _ Hs). intros Hf. cbn in Hf. lia.
  - destruct (Z.leb_spec 0 (s_create s)).
    + destruct (bound w); intros H' _; apply obind_ok in H' as (r & _ & H');
        destruct (_ =? MAP_FAILED); try (destruct (_ <? _)); simplify_eq; intros Hf; cbn in *; lia.
    + intros; simplify_eq. intros _. exact Hd.
Qed.

Lemma extend_spec s w p k r w' p' :
  proc_ok w p -> 0 <= shm_fd p -> header w p = Ok (k, r) -> region_ok r -> mapped_size p = max_offset r + HYBRIS_SHM_DATA_HEADER_SIZE ->
  _hybris_shm_extend_region s w p = Ok (w', p') ->
  let r' := Region (if s_truncate s then mapped_size p + HYBRIS_DATA_SIZE else fsize r) (current_offset r) (max_offset r + HYBRIS_DATA_SIZE) in
  w' = set_region w k r' /\ region_ok r' /\ proc_ok w' p' /\ shm_fd p' = shm_fd p /\ obj p' = obj p /\
  header w' p' = Ok (k, r').
Proof.
  intros Hp Hfd Hh Hr Hm H r'. unfold _hybris_shm_extend_region in H. rewrite Hh in H. cbn [obind] in H.
  apply obind_ok in H as (fsz & H1 & H). apply obind_ok in H as (mx & H2 & H).
  apply obind_ok in H as (p1 & H3 & H). simplify_eq.
  apply int_add_ok in H1 as [-> B1]. apply int_add_ok in H2 as [-> B2].
  fold r' in H3 |- *. pose proof (header_ok _ _ _ _ Hh) as (D1 & D2 & D3 & D4).
  assert (region_ok r') as Hr' by (destruct Hr as (?&?&?); unfold region_ok, r'; consts; cbn; lia).
  assert (grows w (set_region w k r')) as Hg.
  { apply (grows_set w k r); [done | cbn; lia | unfold r'; consts; cbn; lia | done]. }
  destruct (sync_spec _ _ _ _ (proc_ok_grows _ _ _ Hg Hp) H3) as (E1 & E2 & E3 & E4).
  destruct (E4 Hfd D1) as (k2 & r2 & E5 & _ & _).
  pose proof (header_ok _ _ _ _ E5) as (_ & _ & F1 & F2). rewrite E2, D3 in F1. simplify_eq.
  rewrite (set_region_lookup _ _ _ _ D4) in F2. simplify_eq. auto 10.
Qed.

Lemma sync_id s w p k r :
  header w p = Ok (k, r) -> region_ok r -> mapped_size p = max_offset r + HYBRIS_SHM_DATA_HEADER_SIZE -> _sync_mmap_with_shm s w p = Ok p.
Proof.
  intros Hh Hr Hm. unfold _sync_mmap_with_shm. case_match; [|done]. rewrite Hh. cbn [obind].
  destruct Hr as (R1 & R2 & R4). unfold int_add, int_ok.
  destruct (Z.leb_spec (- 2 ^ 31) (max_offset r + HYBRIS_SHM_DATA_HEADER_SIZE)); [|consts; lia].
  destruct (Z.ltb_spec (max_offset r + HYBRIS_SHM_DATA_HEADER_SIZE) (2 ^ 31)); [|consts; lia].
  cbn [andb obind]. destruct (Z.ltb_spec (mapped_size p) (max_offset r + HYBRIS_SHM_DATA_HEADER_SIZE)); [lia|done].
Qed.

(** What a successful [hybris_shm_alloc] hands out. *)
Definition allocated (w w' : os) (p' : proc) (h size : Z) : Prop :=
  exists k off r', obj p' = Some k /\ objs w' !! k = Some r' /\ region_ok r' /\ 0 <= off /\
    current_offset r' = off + size /\ h = Z.lor off HYBRIS_SHM_MASK /\
    (forall r, objs w !! k = Some r -> current_offset r <= off).

(** The bump allocation itself, from a synchronised process. *)
Lemma bump_spec s w0 w p k r size :
  grows w0 w -> keeps s w0 w -> os_ok w -> proc_ok w p -> header w p = Ok (k, r) -> region_ok r ->
  0 <= size -> current_offset r + size <= max_offset r ->
  let r' := Region (fsize r) (to_signed 32 (current_offset r + size)) (max_offset r) in
  let w' := set_region w k r' in
  os_ok w' /\ proc_ok w' p /\ grows w0 w' /\ keeps s w0 w' /\
  allocated w0 w' p (Z.lor (u64 (current_offset r)) HYBRIS_SHM_MASK) size.
Proof.
  intros Hg Hk0 Hw Hp Hh Hr Hs Hfit r' w'. pose proof Hr as (R1 & R2 & R4).
  pose proof (header_ok _ _ _ _ Hh) as (D1 & D2 & D3 & D4).
  assert (to_signed 32 (current_offset r + size) = current_offset r + size) as Hsg.
  { unfold to_signed. rewrite wrap_small by (unfold in_range; consts; lia).
    change (32 - 1) with 31. destruct (Z.ltb_spec (current_offset r + size) (2 ^ 31)); consts; lia. }
  assert (region_ok r') as Hr' by (unfold region_ok, r'; cbn; rewrite Hsg; lia).
  assert (grows w w') as Hg2.
  { apply (grows_set w k r); [done | unfold r'; cbn; lia | unfold r'; cbn; lia | done]. }
  split; [now apply (os_ok_grows w)|]. split; [now apply (proc_ok_grows w)|].
  split; [now apply (grows_trans w0 w)|]. split; [apply (keeps_trans s w0 w); [done|]; now apply (keeps_set s w k r)|].
  exists k, (current_offset r), r'. split; [done|]. split; [now apply set_region_lookup with r|].
  split; [done|]. split; [lia|]. split; [exact Hsg|]. split.
  - rewrite wrap_small; [done|]. unfold in_range; consts; lia.
  - intros x Hx. destruct (Hg k x Hx) as (y & Hy & ? & _). simplify_eq. lia.
Qed.

(** The part of [hybris_shm_alloc] after attaching. *)
Lemma alloc_attached s w0 w p size h w' p' :
  grows w0 w -> keeps s w0 w -> os_ok w -> proc_ok w p -> detached_ok p -> 0 <= shm_fd p -> shm_data p <> 0 ->
  0 <= size <= HYBRIS_DATA_SIZE -> hybris_shm_alloc s size w p = Ok (h, w', p') ->
  os_ok w' /\ proc_ok w' p' /\ detached_ok p' /\ grows w0 w' /\ keeps s w0 w' /\ (h = 0 \/ allocated w0 w' p' h size).
Proof.
  intros Hg Hk0 Hw Hp Hdet Hfd Hd Hs H. unfold hybris_shm_alloc in H.
  destruct (Z.ltb_spec (shm_fd p) 0); [lia|]. cbn [obind] in H.
  destruct (Z.ltb_spec (shm_fd p) 0); [lia|]. destruct (Z.eqb_spec (shm_data p) 0); [done|]. cbn [orb] in H.
  apply obind_ok in H as (p1 & Hsync & H). pose proof (sync_detached _ _ _ _ Hsync Hdet) as Hdet1.
  destruct (sync_spec _ _ _ _ Hp Hsync) as (E1 & E2 & E3 & E4).
  destruct (E4 Hfd Hd) as (k & r & Hh & Hr & Hm).
  destruct ((shm_data p1 =? 0) || (shm_fd p1 <? 0)); [simplify_eq; auto 10|].
  rewrite Hh in H. cbn [obind] in H. pose proof Hr as (R1 & R2 & R4).
  rewrite !(wrap_small 64) in H by (unfold in_range; consts; lia).
  destruct (Z.leb_spec (max_offset r) (current_offset r + size)).
  - apply obind_ok in H as ([w1 p2] & Hx & H). apply obind_ok in Hx as ([w2 p3] & Hext & Hx).
    apply obind_ok in Hx as (p4 & Hs4 & Hx). injection Hx as <- <-.
    destruct (extend_spec _ _ _ _ _ _ _ E3 ltac:(lia) Hh Hr Hm Hext) as (X1 & X2 & X3 & X4 & X5 & X6).
    set (r' := Region _ _ _) in *.
    assert (grows w w2) as Hg1.
    { rewrite X1. apply (grows_set w k r); [now apply header_ok in Hh as (_ & _ & _ & ?) | cbn; lia
        | unfold r'; consts; cbn; lia | done]. }
    assert (keeps s w w2) as Hk1.
    { rewrite X1. apply (keeps_set s w k r); [now apply header_ok in Hh as (_ & _ & _ & ?)|done|].
      intros Ht _. unfold room, r'. cbn [max_offset fsize]. rewrite Ht. lia. }
    destruct (sync_spec _ _ _ _ X3 Hs4) as (Y1 & Y2 & Y3 & Y4).
    pose proof (header_ok _ _ _ _ X6) as (D1 & _ & _ & _).
    destruct (Y4 ltac:(lia) D1) as (k2 & r2 & Y5 & Y6 & Y7).
    assert (k2 = k /\ r2 = r') as [-> ->].
    { pose proof (header_ok _ _ _ _ Y5) as (_ & _ & F1 & F2). pose proof (header_ok _ _ _ _ X6) as (_ & _ & F3 & F4).
      rewrite Y2 in F1. simplify_eq. auto. }
    rewrite Y5 in H. cbn [obind] in H. simplify_eq.
    destruct (bump_spec s w0 (set_region w k r') p' k r' size) as (Z1 & Z2 & Z3 & Z4 & Z5); auto; try lia.
    + now apply (grows_trans w0 w).
    + now apply (keeps_trans s w0 w).
    + now apply (os_ok_grows w).
    + unfold r'. consts. cbn. lia.
    + split; [done|]. split; [done|]. split; [intros Hf; lia|]. split; [done|]. split; [done|]. now right.
  - cbn [obind] in H. rewrite Hh in H. cbn [obind] in H. simplify_eq.
    destruct (bump_spec s w0 w p' k r size) as (Z1 & Z2 & Z3 & Z4 & Z5); auto; try lia. auto 10.
Qed.

Lemma alloc_spec s w p size h w' p' :
  os_ok w -> proc_ok w p -> detached_ok p -> sys_ok s w -> 0 <= size <= HYBRIS_DATA_SIZE ->
  hybris_shm_alloc s size w p = Ok (h, w', p') ->
  os_ok w' /\ proc_ok w' p' /\ detached_ok p' /\ grows w w' /\ keeps s w w' /\ (h = 0 \/ allocated w w' p' h size).
Proof.
  intros Hw Hp Hdet Hs Hsz H.
  destruct (Z_lt_le_dec (shm_fd p) 0) as [Hfd|Hfd].
  - pose proof H as H'. unfold hybris_shm_alloc in H'. destruct (Z.ltb_spec (shm_fd p) 0); [|lia].
    apply obind_ok in H' as ([w1 p1] & Hi & H').
    destruct (init_spec _ _ _ _ _ Hw Hs Hfd (Hdet Hfd) Hi) as (I1 & I2 & I3 & I5).
    pose proof (init_detached _ _ _ _ _ (Hdet Hfd) Hi Hdet) as I4.
    destruct (Z_lt_le_dec (shm_fd p1) 0) as [Hf1|Hf1].
    { destruct (Z.ltb_spec (shm_fd p1) 0); [|lia]. cbn [orb] in H'. simplify_eq. auto 10. }
    destruct (decide (shm_data p1 = 0)) as [Hd1|Hd1].
    { rewrite Hd1 in H'. rewrite orb_true_r in H'. simplify_eq. auto 10. }
    apply (alloc_attached s w w1 p1); auto. unfold hybris_shm_alloc.
    assert ((shm_fd p1 <? 0) = false) as Hlt by (apply Z.ltb_ge; lia).
    rewrite Hlt in H' |- *. cbn [obind]. rewrite Hlt. exact H'.
  - destruct (decide (shm_data p = 0)) as [Hd|Hd].
    + unfold hybris_shm_alloc in H. destruct (Z.ltb_spec (shm_fd p) 0); [lia|]. cbn [obind] in H.
      rewrite Hd, orb_true_r in H. simplify_eq. split; [done|]. split; [done|]. split; [done|].
      split; [apply grows_refl|]. split; [apply keeps_refl|now left].
    + apply (alloc_attached s w w p); auto using grows_refl, keeps_refl.
Qed.

Lemma get_spec s handle w p ptr w' p' :
  os_ok w -> proc_ok w p -> detached_ok p -> sys_ok s w ->
  hybris_get_shmpointer s handle w p = Ok (ptr, w', p') ->
  os_ok w' /\ proc_ok w' p' /\ detached_ok p' /\ grows w w' /\ keeps s w w'.
Proof.
  intros Hw Hp Hdet Hs. unfold hybris_get_shmpointer.
  destruct (hybris_is_pointer_in_shm handle); [|intros; simplify_eq; auto using grows_refl, keeps_refl].
  intros H. apply obind_ok in H as ([w1 p1] & Hi & H).
  assert (os_ok w1 /\ proc_ok w1 p1 /\ detached_ok p1 /\ grows w w1 /\ keeps s w w1) as (I1 & I2 & I3 & I4 & I5).
  { destruct (Z.ltb_spec (shm_fd p) 0) as [Hf|]; [|simplify_eq; auto using grows_refl, keeps_refl].
    destruct (init_spec _ _ _ _ _ Hw Hs Hf (Hdet Hf) Hi) as (G1 & G2 & G3 & G4).
    split; [done|]. split; [done|]. split; [exact (init_detached _ _ _ _ _ (Hdet Hf) Hi Hdet)|]. split; done. }
  destruct ((shm_fd p1 <? 0) || (shm_data p1 =? 0)); [simplify_eq; auto 10|].
  apply obind_ok in H as (p2 & Hsync & H). simplify_eq.
  destruct (sync_spec _ _ _ _ I2 Hsync) as (_ & _ & E3 & _). pose proof (sync_detached _ _ _ _ Hsync I3). auto 10.
Qed.

(** ** Interleaved processes *)

(** The objects, the processes, the blocks handed out (object, offset, size), and whether all [ftruncate]s succeeded. *)
Record sys := System { sos : os; procs : list proc; blocks : list (nat * Z * Z); sound : bool }.

(** One library call of one process (or its exit handler), with any outcome of
    the system calls that returns, under [sys_ok].  Attaching, from the first [shm_open] to the [memset] of a new object, is part of the
    step: [creation_race_overlaps] shows what two processes do that both create the object. *)
Inductive step : sys -> sys -> Prop :=
| step_alloc st i p s size h w' p' k r' :
    procs st !! i = Some p -> sys_ok s (sos st) -> 0 < size <= HYBRIS_DATA_SIZE ->
    hybris_shm_alloc s size (sos st) p = Ok (h, w', p') -> h <> 0 ->
    obj p' = Some k -> objs w' !! k = Some r' ->
    step st (System w' (<[i := p']> (procs st)) ((k, current_offset r' - size, size) :: blocks st) (sound st && s_truncate s))
| step_alloc_null st i p s size w' p' :
    procs st !! i = Some p -> sys_ok s (sos st) -> 0 < size <= HYBRIS_DATA_SIZE ->
    hybris_shm_alloc s size (sos st) p = Ok (0, w', p') ->
    step st (System w' (<[i := p']> (procs st)) (blocks st) (sound st && s_truncate s))
| step_get st i p s handle ptr w' p' :
    procs st !! i = Some p -> sys_ok s (sos st) ->
    hybris_get_shmpointer s handle (sos st) p = Ok (ptr, w', p') ->
    step st (System w' (<[i := p']> (procs st)) (blocks st) (sound st && s_truncate s))
| step_exit st i p w' p' :
    procs st !! i = Some p -> _release_shm (sos st) p = (w', p') ->
    step st (System w' (<[i := p']> (procs st)) (blocks st) (sound st)).

(** [n] processes that have not touched the pool. *)
Definition initial (n : nat) : sys := System (Os [] None) (replicate n (Proc 0 (-1) None 0)) [] true.

Definition reach (n : nat) (st : sys) : Prop := rtc step (initial n) st.

Definition apart (b c : nat * Z * Z) : Prop :=
  let '(k, off, size) := b in let '(k', off', size') := c in
  k = k' -> off + size <= off' \/ off' + size' <= off.

Definition block_ok (w : os) (b : nat * Z * Z) : Prop :=
  let '(k, off, size) := b in
  exists r, objs w !! k = Some r /\ 0 <= off /\ 0 < size /\ off + size <= current_offset r.

Record sys_inv (st : sys) : Prop := {
  inv_os : os_ok (sos st);
  inv_procs : Forall (fun p => proc_ok (sos st) p /\ detached_ok p) (procs st);
  inv_blocks : Forall (block_ok (sos st)) (blocks st);
  inv_apart : ForallOrdPairs apart (blocks st);
  inv_sized : sound st = true -> sized (sos st);
}.

Lemma procs_update w w' ps i p' :
  grows w w' -> proc_ok w' p' -> detached_ok p' ->
  Forall (fun p => proc_ok w p /\ detached_ok p) ps ->
  Forall (fun p => proc_ok w' p /\ detached_ok p) (<[i := p']> ps).
Proof.
  intros Hg Hp Hd H. apply Forall_insert; [|done].
  eapply Forall_impl; [exact H|]. intros p [H1 H2]. eauto using proc_ok_grows.
Qed.

Lemma blocks_grow w w' bs : grows w w' -> Forall (block_ok w) bs -> Forall (block_ok w') bs.
Proof.
  intros Hg H. eapply Forall_impl; [exact H|]. intros [[k off] size] (r & H1 & H2 & H3 & H4).
  destruct (Hg k r H1) as (r' & E & ? & _). exists r'. split; [done|]. lia.
Qed.

Lemma pool_step_inv st st' : sys_inv st -> step st st' -> sys_inv st'.
Proof.
  intros [I1 I2 I3 I4 I5] H. destruct H; rename H into Hi;
    pose proof (Forall_lookup_1 _ _ _ _ I2 Hi) as [Hp Hd].
  - destruct (alloc_spec s (sos st) p size h w' p') as (A1 & A2 & A3 & A4 & A6 & A5); auto; [lia|].
    destruct A5 as [->|(k' & off & r2 & B1 & B2 & B3 & B4 & B5 & B6 & B7)]; [done|]. simplify_eq.
    replace (current_offset r' - size) with off by lia.
    split; cbn; [done | now apply (procs_update (sos st)) | | |intros [? ?]%andb_true_iff; auto].
    + constructor; [|now apply (blocks_grow (sos st))]. exists r'. split; [done|]. lia.
    + constructor; [|done]. eapply Forall_impl; [exact I3|].
      intros [[k' off'] size'] (r & C1 & C2 & C3 & C4) <-. specialize (B7 r C1). lia.
  - destruct (alloc_spec s (sos st) p size 0 w' p') as (A1 & A2 & A3 & A4 & A6 & _); auto; [lia|].
    split; cbn; [done | now apply (procs_update (sos st)) | now apply (blocks_grow (sos st)) | done |intros [? ?]%andb_true_iff; auto].
  - destruct (get_spec s handle (sos st) p ptr w' p') as (A1 & A2 & A3 & A4 & A6); auto.
    split; cbn; [done | now apply (procs_update (sos st)) | now apply (blocks_grow (sos st)) | done |intros [? ?]%andb_true_iff; auto].
  - unfold _release_shm in *. simplify_eq.
    assert (grows (sos st) (Os (objs (sos st)) None)) as Hg by (intros k r E; exists r; auto with lia).
    split; cbn; [done | apply (procs_update (sos st)); auto | now apply (blocks_grow (sos st)) | done | exact I5].
    + intros Hf. cbn in Hf. lia.
    + intros _. reflexivity.
Qed.

Lemma pool_reach_inv n st : reach n st -> sys_inv st.
Proof.
  unfold reach. intros H. remember (initial n) as st0 eqn:E.
  assert (sys_inv st0) as I0.
  { subst. split; cbn; [done | | constructor | constructor | intros _ k r Hk; discriminate Hk].
    apply Forall_replicate. split; [intros Hf; cbn in Hf; lia | intros _; reflexivity]. }
  clear E. induction H as [|a b c Hs _ IH]; [done|]. apply IH. eapply pool_step_inv; eauto.
Qed.


(** Two processes whose first [shm_open] finds no object both create it: the second one clears the header, and both get the block at offset 0. *)
Example creation_race_overlaps :
  (let! (h, w, p) := hybris_shm_alloc (Sys (-1) 3 0x10000 0 true) 48 (Os [] None) (Proc 0 (-1) None 0) in
   let! (h', _, _) := hybris_shm_alloc (Sys (-1) 4 0x20000 0 true) 48 w (Proc 0 (-1) None 0) in
   Ok (h, h')) = Ok (HYBRIS_SHM_MASK, HYBRIS_SHM_MASK).
Proof. vm_compute. reflexivity. Qed.

(** A failed [ftruncate] is not noticed: the pool hands out a block behind the end of the object. *)
Example failed_extension_faults :
  (let! (h, w, _) := hybris_shm_alloc (Sys 3 3 0x10000 0x20000 false) 100 (Os [Region 4063 3950 4000] (Some 0%nat)) (Proc 0x10000 3 (Some 0%nat) 4063) in
   Ok (h, objs w)) = Ok (Z.lor 3950 HYBRIS_SHM_MASK, [Region 4063 4050 8000]).
Proof. vm_compute. reflexivity. Qed.


(** ** Handles *)

Definition handle (off : Z) : Z := Z.lor off HYBRIS_SHM_MASK.

Lemma handle_sum off : 0 <= off < 2 ^ 24 -> handle off = off + (2 ^ 40 - 1) * 2 ^ 24.
Proof. intros H. unfold handle. change HYBRIS_SHM_MASK with (Z.shiftl (2 ^ 40 - 1) 24). now apply lor_shift. Qed.

Lemma handle_offset off :
  0 <= off < 2 ^ 24 -> Z.land (handle off) (2 ^ 64 - 1 - HYBRIS_SHM_MASK) = off.
Proof.
  intros H. rewrite handle_sum by done. change (2 ^ 64 - 1 - HYBRIS_SHM_MASK) with (Z.ones 24).
  rewrite Z.land_ones, Z.mod_add by lia. now apply Z.mod_small.
Qed.

(** A handle returned for a live block translates, in every process attached
    to its object, to the address of that block inside the process' own
    mapping: base, data offset and block offset add up, and the whole block lies
    within the mapped size, for offsets the 24-bit handle field can express. *)
Theorem shm_handle_translates n st i p s k off size ptr w' p' :
  reach n st -> procs st !! i = Some p -> 0 <= shm_fd p -> shm_data p <> 0 -> obj p = Some k ->
  (k, off, size) ∈ blocks st -> off < 2 ^ 24 - 15 -> sys_ok s (sos st) ->
  hybris_get_shmpointer s (Z.lor off HYBRIS_SHM_MASK) (sos st) p = Ok (ptr, w', p') ->
  shm_data p' + mapped_size p' < 2 ^ 64 -> 0 <= shm_data p' ->
  ptr = shm_data p' + data_offset + off /\ ptr + size <= shm_data p' + mapped_size p'.
Proof.
  intros Hreach Hi Hfd Hd Hk Hb Hoff Hs H Hwrap Hpos. destruct (pool_reach_inv n st Hreach) as [I1 I2 I3 I4 _].
  pose proof (Forall_lookup_1 _ _ _ _ I2 Hi) as [Hp Hdet].
  rewrite Forall_forall in I3. destruct (I3 _ Hb) as (r0 & B1 & B2 & B3 & B4).
  fold (handle off) in H. unfold hybris_get_shmpointer in H.
  assert (hybris_is_pointer_in_shm (handle off) = true) as Hin.
  { rewrite handle_sum by lia. unfold hybris_is_pointer_in_shm, HYBRIS_SHM_MASK, HYBRIS_SHM_MASK_TOP.
    apply andb_true_intro. rewrite !Z.leb_le. lia. }
  rewrite Hin in H. destruct (Z.ltb_spec (shm_fd p) 0); [lia|]. cbn [obind] in H.
  destruct (Z.ltb_spec (shm_fd p) 0); [lia|]. destruct (Z.eqb_spec (shm_data p) 0); [done|]. cbn [orb] in H.
  apply obind_ok in H as (p1 & Hsync & H). simplify_eq.
  destruct (sync_spec _ _ _ _ Hp Hsync) as (E1 & E2 & E3 & E4).
  destruct (E4 Hfd Hd) as (k1 & r & Hh & (R1 & R2 & R4) & Hm).
  pose proof (header_ok _ _ _ _ Hh) as (D1 & D2 & D3 & D4). rewrite E2, Hk in D3. simplify_eq.
  destruct (Z.eqb_spec (shm_data p') 0); [done|]. cbn [negb]. rewrite handle_offset by lia.
  rewrite wrap_small by (unfold in_range; consts; lia). consts. lia.
Qed.

Lemma shm_handle_translates_witness :
  exists ptr w' p',
    hybris_get_shmpointer (Sys 3 4 0x10000 0x20000 true) (Z.lor 48 HYBRIS_SHM_MASK)
      (Os [Region 4063 96 4000] (Some 0%nat)) (Proc 0x10000 4 (Some 0%nat) 4063) = Ok (ptr, w', p') /\
    ptr = shm_data p' + data_offset + 48 /\ ptr + 48 <= shm_data p' + mapped_size p'.
Proof.
  eexists _, _, _. split; [vm_compute; reflexivity|].
  set (s := Sys 3 4 0x10000 0x20000 true).
  eapply (shm_handle_translates 1 (System (Os [Region 4063 96 4000] (Some 0%nat))
    [Proc 0x10000 4 (Some 0%nat) 4063] [(0%nat, 48, 48); (0%nat, 0, 48)] true) 0 _ s 0 48 48).
  - eapply rtc_l.
    { eapply (step_alloc (initial 1) 0 _ s 48); [reflexivity | exact I | consts; lia | vm_compute; reflexivity | discriminate
        | reflexivity | reflexivity]. }
    eapply rtc_l.
    { eapply (step_alloc _ 0 _ s 48); [reflexivity | vm_compute; done | consts; lia | vm_compute; reflexivity | discriminate
        | reflexivity | reflexivity]. }
    apply rtc_refl.
  - reflexivity.
  - vm_compute; done.
  - done.
  - reflexivity.
  - apply list_elem_of_In. simpl. auto.
  - lia.
  - vm_compute; done.
  - vm_compute. reflexivity.
  - vm_compute. reflexivity.
  - vm_compute. done.
Defined.

(** Nothing bounds the pool at the 24 offset bits a handle can carry: a
    process whose synchronised pool has reached offset [off + 16 MiB] gets the
    handle that [off] already had, so two live objects share one handle. *)
Theorem handles_alias_past_16MiB s w p k r off size :
  0 <= off < 2 ^ 24 -> 0 <= size ->
  0 <= shm_fd p -> header w p = Ok (k, r) -> region_ok r -> mapped_size p = max_offset r + HYBRIS_SHM_DATA_HEADER_SIZE ->
  current_offset r = off + 2 ^ 24 -> current_offset r + size < max_offset r ->
  exists w' p', hybris_shm_alloc s size w p = Ok (Z.lor off HYBRIS_SHM_MASK, w', p').
Proof.
  intros Hoff Hsz Hfd Hh Hr Hm Hc Hfit. pose proof Hr as (R1 & R2 & R4).
  pose proof (header_ok _ _ _ _ Hh) as (D1 & D2 & D3 & D4).
  assert (Z.lor (u64 (off + 2 ^ 24)) HYBRIS_SHM_MASK = Z.lor off HYBRIS_SHM_MASK) as E.
  { rewrite wrap_small by (unfold in_range; lia).
    replace (off + 2 ^ 24) with (off + 1 * 2 ^ 24) by lia. rewrite <- lor_shift by lia.
    rewrite <- Z.lor_assoc. reflexivity. }
  unfold hybris_shm_alloc. rewrite (proj2 (Z.ltb_ge (shm_fd p) 0)) by lia. cbn [obind].
  rewrite (proj2 (Z.ltb_ge (shm_fd p) 0)), (proj2 (Z.eqb_neq (shm_data p) 0)) by done. cbn [orb].
  rewrite (sync_id s w p k r) by done. cbn [obind].
  rewrite (proj2 (Z.ltb_ge (shm_fd p) 0)), (proj2 (Z.eqb_neq (shm_data p) 0)) by done. cbn [orb].
  rewrite Hh. cbn [obind]. rewrite !(wrap_small 64) by (unfold in_range; consts; lia).
  rewrite (proj2 (Z.leb_gt (max_offset r) (current_offset r + size))) by lia. cbn [obind].
  rewrite Hh. cbn [obind]. rewrite Hc, <- E. rewrite wrap_small by (unfold in_range; lia). eauto.
Qed.

Lemma handles_alias_past_16MiB_witness :
  exists w' p',
    hybris_shm_alloc (Sys 3 4 0x10000 0x20000 true) 48
      (Os [Region 16800063 16777216 16800000] (Some 0%nat)) (Proc 0x10000 4 (Some 0%nat) 16800063)
    = Ok (Z.lor 0 HYBRIS_SHM_MASK, w', p').
Proof.
  apply (handles_alias_past_16MiB _ _ _ 0 (Region 16800063 16777216 16800000)); try reflexivity; try (cbn; lia).
  unfold region_ok; consts; cbn; lia.
Defined.
End Shm.
