(* ===== verification/Host.v ===== *)
(** * The host C library as the synchronisation hooks see it

    A hook of common/bionic_sync.c or common/bionic_cond.c is a program that
    calls the host: it takes the publication guard, reads and writes the eight
    bytes of an Android object, allocates, and hands pointers to pthread
    functions.  [prog] is the tree of such calls ([Die] is [abort], [Spin] a retry
    loop cut off after its fuel), [call] their vocabulary and
    [ans] the type of each answer.  [step_call] says which answers the host may
    give and how its state changes; [safe_call] says when the call is defined at
    all.  Threads interleave between calls ([pstep]); [ok] is a rely/guarantee
    condition on one thread that [pool_safe] lifts to any interleaving. *)

From Stdlib Require Import ZArith Lia Bool.
From stdpp Require Import base gmap list numbers option relations.
From S2P Require Import Prelude Shm.

Open Scope Z_scope.

Module Host.

Inductive clockid := CLOCK_REALTIME | CLOCK_MONOTONIC.
Record timespec := Timespec { tv_sec : Z; tv_nsec : Z }.

Inductive mutex_kind := NORMAL | RECURSIVE | ERRORCHECK.

(** The attribute argument of [pthread_mutex_init]: a local attribute of the
    hook, or the caller's pointer (0 for none). *)
Inductive mattr := AttrKind (k : mutex_kind) | AttrPtr (p : Z).

(** What a host object is. *)
Inductive sort := SMutex | SCond | SRwlock | SRwlockattr.

Inductive obj :=
| OMutex (a : mattr)
| OCond (attr : Z)
| ORwlock (attr : Z)
| ORwlockattr (pshared kind : Z).

Definition sort_of (o : obj) : sort :=
  match o with
  | OMutex _ => SMutex | OCond _ => SCond | ORwlock _ => SRwlock | ORwlockattr _ _ => SRwlockattr
  end.

#[export] Instance sort_eq_dec : EqDecision sort.
Proof. solve_decision. Defined.

(** AArch64 glibc sizes of the objects. *)
Definition sizeof (s : sort) : Z :=
  match s with SMutex => 48 | SCond => 48 | SRwlock => 56 | SRwlockattr => 8 end.

Inductive mutex_op :=
| M_lock | M_trylock | M_unlock | M_clocklock (c : clockid) (ts : timespec).
Inductive rwlock_op :=
| R_rdlock | R_tryrdlock | R_timedrdlock (ts : option timespec)
| R_wrlock | R_trywrlock | R_timedwrlock (ts : option timespec)
| R_clockrdlock (c : clockid) (ts : timespec) | R_clockwrlock (c : clockid) (ts : timespec)
| R_unlock.
Inductive cond_op := C_broadcast | C_signal.
Inductive wait_op :=
| W_wait | W_clockwait (c : clockid) (ts : option timespec) | W_timedwait (ts : option timespec).

Inductive call :=
| Guard_lock | Guard_unlock
| Load (a : Z) | Store (a v : Z) | Load32 (a : Z) | Cas32 (a old new : Z)
| Malloc (s : sort) | Free (p : Z)
| Shm_alloc (size : Z) | Shm_pointer (handle : Z)
| Attr_getpshared (attr : Z) | Mutexattr_setpshared (attr v : Z)
| Mutex_init (p : Z) (a : mattr) | Mutex_destroy (p : Z) | Mutex_op (op : mutex_op) (p : Z)
| Cond_init (p attr : Z) | Cond_reset_wrefs (p : Z) | Cond_destroy (p : Z)
| Cond_op (op : cond_op) (p : Z) | Cond_wait (op : wait_op) (p m : Z)
| Rwlock_init (p attr : Z) | Rwlock_destroy (p : Z) | Rwlock_op (op : rwlock_op) (p : Z)
| Rwlockattr_init (p : Z) | Rwlockattr_destroy (p : Z)
| Rwlockattr_setpshared (p v : Z) | Rwlockattr_getpshared (p : Z)
| Rwlockattr_setkind (p v : Z) | Rwlockattr_getkind (p : Z)
| Clock_gettime (c : clockid)
| Futex_wake (a : Z) (private : bool) (counter : Z).

(** Answers: [void] calls give [unit], an out-parameter is paired with the
    returned code, a failing [clock_gettime] gives [errno]. *)
Definition ans (c : call) : Type :=
  match c with
  | Guard_lock | Guard_unlock | Store _ _ | Free _ | Cond_reset_wrefs _ => unit
  | Cas32 _ _ _ => bool
  | Rwlockattr_getpshared _ | Rwlockattr_getkind _ => (Z * Z)%type
  | Clock_gettime _ => (timespec + Z)%type
  | _ => Z
  end.

Inductive prog (A : Type) : Type :=
| Ret (a : A)
| Die
| Spin
| Call (c : call) (k : ans c -> prog A).
Arguments Ret {A} _.
Arguments Die {A}.
Arguments Spin {A}.
Arguments Call {A} _ _.

#[export] Instance prog_ret : MRet prog := fun A => @Ret A.
#[export] Instance prog_bind : MBind prog := fun A B f =>
  fix go p := match p with
              | Ret a => f a
              | Die => Die
              | Spin => Spin
              | Call c k => Call c (fun r => go (k r))
              end.

Definition do (c : call) : prog (ans c) := Call c (fun r => Ret r).

(** ** The host state *)

(** [mem]: the first eight bytes of each Android object; [heap]: live
    allocations with the thread that made them; [objs]: initialised host
    objects by address; [guard]: the holder of [static_sync_guard]. *)
Record env := Env {
  mem : gmap Z Z;
  heap : gmap Z (nat * sort);
  objs : gmap Z obj;
  guard : option nat;
  pool_os : Shm.os;
  pool_proc : Shm.proc;
}.

Definition set_mem (f : gmap Z Z -> gmap Z Z) (e : env) : env :=
  Env (f (mem e)) (heap e) (objs e) (guard e) (pool_os e) (pool_proc e).
Definition set_heap (f : gmap Z (nat * sort) -> gmap Z (nat * sort)) (e : env) : env :=
  Env (mem e) (f (heap e)) (objs e) (guard e) (pool_os e) (pool_proc e).
Definition set_objs (f : gmap Z obj -> gmap Z obj) (e : env) : env :=
  Env (mem e) (heap e) (f (objs e)) (guard e) (pool_os e) (pool_proc e).
Definition set_guard (g : option nat) (e : env) : env :=
  Env (mem e) (heap e) (objs e) g (pool_os e) (pool_proc e).
Definition set_pool (w : Shm.os) (p : Shm.proc) (e : env) : env :=
  Env (mem e) (heap e) (objs e) (guard e) w p.

(** The int in the low half of an Android word, and that half replaced. *)
Definition low_int (v : Z) : Z := to_signed 32 v.
Definition set_low (v i : Z) : Z := Z.shiftr v 32 * 2 ^ 32 + wrap 32 i.

(** Addresses of the host allocator: above the first 64 KiB
    ([vm.mmap_min_addr]) and within 48 bits of user space. *)
Definition host_address (p : Z) : Prop := 0xFFFF < p < 2 ^ 48.

(** An initialising call returns 0 and creates the object, or fails and changes
    nothing; likewise a destroying one. *)
Definition creates (p : Z) (o : obj) (r : Z) (e e' : env) : Prop :=
  (r = 0 /\ e' = set_objs (<[p := o]>) e) \/ (r <> 0 /\ e' = e).
Definition destroys (p : Z) (r : Z) (e e' : env) : Prop :=
  (r = 0 /\ e' = set_objs (delete p) e) \/ (r <> 0 /\ e' = e).

Definition step_call (t : nat) (c : call) (e : env) : ans c -> env -> Prop :=
  match c as c return ans c -> env -> Prop with
  | Guard_lock => fun _ e' => guard e = None /\ e' = set_guard (Some t) e
  | Guard_unlock => fun _ e' => e' = set_guard None e
  | Load a => fun r e' => mem e !! a = Some r /\ e' = e
  | Store a v => fun _ e' => e' = set_mem (<[a := v]>) e
  | Load32 a => fun r e' => exists v, mem e !! a = Some v /\ r = low_int v /\ e' = e
  | Cas32 a old new => fun r e' => exists v, mem e !! a = Some v /\
      r = (low_int v =? to_signed 32 old) /\
      e' = if r then set_mem (<[a := set_low v new]>) e else e
  | Malloc s => fun r e' => (r = 0 /\ e' = e) \/
      (host_address r /\ heap e !! r = None /\ objs e !! r = None /\ e' = set_heap (<[r := (t, s)]>) e)
  | Free p => fun _ e' => e' = set_objs (delete p) (set_heap (delete p) e)
  | Shm_alloc size => fun r e' => exists s w' p',
      Shm.hybris_shm_alloc s size (pool_os e) (pool_proc e) = Ok (r, w', p') /\ e' = set_pool w' p' e
  | Shm_pointer h => fun r e' => exists s w' p',
      Shm.hybris_get_shmpointer s h (pool_os e) (pool_proc e) = Ok (r, w', p') /\ e' = set_pool w' p' e
  | Mutex_init p a => fun r e' => creates p (OMutex a) r e e'
  | Cond_init p a => fun r e' => creates p (OCond a) r e e'
  | Rwlock_init p a => fun r e' => creates p (ORwlock a) r e e'
  | Rwlockattr_init p => fun r e' => creates p (ORwlockattr 0 0) r e e'
  | Mutex_destroy p | Cond_destroy p | Rwlock_destroy p | Rwlockattr_destroy p =>
      fun r e' => destroys p r e e'
  | Rwlockattr_setpshared p v => fun r e' => exists q k, objs e !! p = Some (ORwlockattr q k) /\
      creates p (ORwlockattr v k) r e e'
  | Rwlockattr_setkind p v => fun r e' => exists q k, objs e !! p = Some (ORwlockattr q k) /\
      creates p (ORwlockattr q v) r e e'
  | Rwlockattr_getpshared p => fun r e' => e' = e /\ exists q k,
      objs e !! p = Some (ORwlockattr q k) /\ (r = (0, q))
  | Rwlockattr_getkind p => fun r e' => e' = e /\ exists q k,
      objs e !! p = Some (ORwlockattr q k) /\ (r = (0, k))
  | Attr_getpshared _ => fun r e' => (r = 0 \/ r = 1) /\ e' = e
  | Mutexattr_setpshared _ _ | Mutex_op _ _ | Cond_op _ _ | Cond_wait _ _ _ | Rwlock_op _ _
  | Futex_wake _ _ _ => fun _ e' => e' = e
  | Cond_reset_wrefs _ => fun _ e' => e' = e
  | Clock_gettime _ => fun _ e' => e' = e
  end.

(** [p] is a live, initialised host object of sort [s]. *)
Definition is_obj (e : env) (p : Z) (s : sort) : Prop :=
  exists o, objs e !! p = Some o /\ sort_of o = s.

(** Room for a new object, none being there yet: an allocation of the thread, or a place in the mapped pool. *)
Definition in_pool (e : env) (p : Z) (n : Z) : Prop :=
  let d := Shm.shm_data (pool_proc e) in
  d <> 0 /\ d + Shm.data_offset <= p /\ p + n <= d + Shm.mapped_size (pool_proc e).
Definition room (t : nat) (e : env) (p : Z) (s : sort) : Prop :=
  objs e !! p = None /\ (heap e !! p = Some (t, s) \/ in_pool e p (sizeof s)).

(** When a call is defined.  The guard is not recursive, and no call that can
    block on the user's objects is made while holding it. *)
Definition safe_call (t : nat) (c : call) (e : env) : Prop :=
  match c with
  | Guard_lock => guard e <> Some t
  | Guard_unlock => guard e = Some t
  | Load a | Store a _ | Load32 a | Cas32 a _ _ | Futex_wake a _ _ => is_Some (mem e !! a)
  | Malloc _ | Clock_gettime _ | Shm_alloc _ | Shm_pointer _ => True
  | Free p => is_Some (heap e !! p)
  | Attr_getpshared a | Mutexattr_setpshared a _ => a <> 0
  | Mutex_init p _ => room t e p SMutex
  | Cond_init p _ => room t e p SCond
  | Rwlock_init p _ => room t e p SRwlock
  | Rwlockattr_init p => room t e p SRwlockattr
  | Mutex_destroy p => is_obj e p SMutex /\ guard e <> Some t
  | Mutex_op _ p => is_obj e p SMutex /\ guard e <> Some t
  | Cond_reset_wrefs p | Cond_destroy p | Cond_op _ p => is_obj e p SCond /\ guard e <> Some t
  | Cond_wait _ p m => is_obj e p SCond /\ is_obj e m SMutex /\ guard e <> Some t
  | Rwlock_destroy p | Rwlock_op _ p => is_obj e p SRwlock /\ guard e <> Some t
  | Rwlockattr_destroy p | Rwlockattr_setpshared p _ | Rwlockattr_getpshared p
  | Rwlockattr_setkind p _ | Rwlockattr_getkind p => is_obj e p SRwlockattr
  end.

(** ** One thread running alone *)

(** [exec t p e a e']: run alone from [e], [p] can return [a] leaving [e'], every
    call on the way being defined. *)
Fixpoint exec {A} (t : nat) (p : prog A) (e : env) (a : A) (e' : env) : Prop :=
  match p with
  | Ret x => a = x /\ e' = e
  | Die | Spin => False
  | Call c k => safe_call t c e /\ exists r e1, step_call t c e r e1 /\ exec t (k r) e1 a e'
  end.

Lemma exec_bind {A B} t (p : prog A) (f : A -> prog B) e b e' :
  exec t (p ≫= f) e b e' <-> exists a e1, exec t p e a e1 /\ exec t (f a) e1 b e'.
Proof.
  revert e. induction p as [x| | |c k IH]; intros e.
  - split; [intros H; now exists x, e|]. intros (a & e1 & [-> ->] & H). exact H.
  - split; [done|]. intros (a & e1 & [] & _).
  - split; [done|]. intros (a & e1 & [] & _).
  - split.
    + intros (Hs & r & e1 & Hst & H). apply IH in H as (a & e2 & H1 & H2). exists a, e2. split; [|done].
      split; [done|]. now exists r, e1.
    + intros (a & e2 & (Hs & r & e1 & Hst & H1) & H2). split; [done|]. exists r, e1. split; [done|].
      apply IH. now exists a, e2.
Qed.

(** ** Threads interleaved between calls *)

(** A thread steps by one call.  [Die] is [abort]: the process makes no further step. *)
Inductive pstep : list (prog unit) * env -> list (prog unit) * env -> Prop :=
| pstep_call ts e i c k r e' :
    ts !! i = Some (Call c k) -> step_call i c e r e' -> pstep (ts, e) (<[i := k r]> ts, e').

(** The next call of every thread is defined. *)
Definition all_safe (s : list (prog unit) * env) : Prop :=
  forall i c k, fst s !! i = Some (Call c k) -> safe_call i c (snd s).

Section rely_guarantee.
Context (Rely : nat -> env -> env -> Prop).
Context {HRely : forall t, PreOrder (Rely t)}.

(** What a thread may do: what every other thread relies on. *)
Definition Guar (t : nat) (e e' : env) : Prop := forall t', t' <> t -> Rely t' e e'.

Fixpoint ok {A} (t : nat) (p : prog A) (Q : A -> env -> Prop) (e : env) : Prop :=
  forall e1, Rely t e e1 ->
    match p with
    | Ret a => Q a e1
    | Die => True
    | Spin => False
    | Call c k => safe_call t c e1 /\
        forall r e2, step_call t c e1 r e2 -> Guar t e1 e2 /\ ok t (k r) Q e2
    end.

Lemma ok_rely {A} t (p : prog A) Q e e' : ok t p Q e -> Rely t e e' -> ok t p Q e'.
Proof.
  destruct p; simpl; intros H He e1 H1; specialize (H e1 (transitivity He H1)); exact H.
Qed.

Lemma ok_mono {A} t (p : prog A) (Q Q' : A -> env -> Prop) e :
  (forall a e', Q a e' -> Q' a e') -> ok t p Q e -> ok t p Q' e.
Proof.
  intros HQ. revert e. induction p as [a| | |c k IH]; simpl; intros e H e1 H1; [auto|done|exact (H e1 H1)|].
  destruct (H e1 H1) as [Hs Hk]. split; [done|]. intros r e2 Hr. destruct (Hk r e2 Hr). split; [done|].
  now apply IH.
Qed.

Lemma ok_bind {A B} t (p : prog A) (f : A -> prog B) Q e :
  ok t p (fun a e' => ok t (f a) Q e') e -> ok t (p ≫= f) Q e.
Proof.
  revert e. induction p as [a| | |c k IH]; intros e H.
  - specialize (H e (reflexivity e)). exact H.
  - intros e1 _. exact I.
  - intros e1 H1. exact (H e1 H1).
  - intros e1 H1. destruct (H e1 H1) as [Hs Hk]. split; [done|].
    intros r e2 Hr. destruct (Hk r e2 Hr) as [HG HO]. split; [done|]. now apply IH.
Qed.

Lemma ok_ret {A} t (a : A) (Q : A -> env -> Prop) e :
  (forall e', Rely t e e' -> Q a e') -> ok t (mret a) Q e.
Proof. intros H e1 H1. now apply H. Qed.

Lemma ok_do t c (Q : ans c -> env -> Prop) e :
  (forall e1, Rely t e e1 -> safe_call t c e1 /\
     forall r e2, step_call t c e1 r e2 -> Guar t e1 e2 /\ (forall e3, Rely t e2 e3 -> Q r e3)) ->
  ok t (do c) Q e.
Proof. intros H e1 H1. destruct (H e1 H1) as [Hs Hk]. split; [done|]. exact Hk. Qed.

(** Every thread ok at the start makes every interleaving safe; a thread that
    is not in the pool sees only what it relies on. *)
Lemma pool_safe ts e s :
  (forall i p, ts !! i = Some p -> ok i p (fun _ _ => True) e) ->
  rtc pstep (ts, e) s ->
  all_safe s /\ (forall i p, fst s !! i = Some p -> ok i p (fun _ _ => True) (snd s)) /\
  length (fst s) = length ts /\ Rely (length ts) e (snd s).
Proof.
  intros H0 Hs.
  enough ((forall i p, fst s !! i = Some p -> ok i p (fun _ _ => True) (snd s)) /\
          length (fst s) = length ts /\ Rely (length ts) e (snd s)) as (Hok & Hl & HR).
  { split; [|auto]. intros i c k Hi. exact (proj1 (Hok i _ Hi (snd s) (reflexivity _))). }
  revert s Hs.
  refine (rtc_ind_r (fun s => (forall i p, fst s !! i = Some p -> ok i p (fun _ _ => True) (snd s)) /\
          length (fst s) = length ts /\ Rely (length ts) e (snd s)) _ _ _).
  { split; [exact H0|]. split; [done|reflexivity]. }
  intros s1 s2 _ Hst (H1 & Hl & HR). destruct Hst as [ts1 e1 i c k r e' Hi Hc]. cbn [fst snd] in *.
  pose proof (H1 i _ Hi e1 (reflexivity e1)) as [_ Hk]. destruct (Hk r e' Hc) as [HG HO].
  split; [|split].
  - intros j p Hj. destruct (decide (i = j)) as [->|Hne].
    + rewrite list_lookup_insert_eq in Hj by eauto using lookup_lt_Some. now simplify_eq.
    + rewrite list_lookup_insert_ne in Hj by done. eapply ok_rely; [now apply H1|]. apply HG; congruence.
  - now rewrite length_insert.
  - transitivity e1; [done|]. apply HG. apply lookup_lt_Some in Hi. lia.
Qed.
End rely_guarantee.
End Host.
