(* ===== verification/BionicSync.v ===== *)
(** * Mutex and rwlock hooks (common/bionic_sync.c, bionic_sync.h)

    Android code keeps an Android-sized object whose first eight bytes the hooks
    own: a small value is one of bionic's static initialisers (or a mutex that
    Android itself shares), a value in the top 16 MiB is a handle into the shared
    pool of [Shm], anything else is the address of the host object.  Every hook
    of the file is a [Host.prog]; the storage argument is the address of the
    Android object. *)

From Stdlib Require Import ZArith Lia Bool.
From stdpp Require Import base gmap list numbers option relations.
From S2P Require Import Prelude Shm Host.

Open Scope Z_scope.

Module BionicSync.
Import Host.

Definition ENOMEM : Z := 12.
Definition EBUSY : Z := 16.
Definition EINVAL : Z := 22.
Definition ETIMEDOUT : Z := 110.

Definition ANDROID_TOP_ADDR_VALUE_MUTEX : Z := 0xFFFF.
Definition ANDROID_TOP_ADDR_VALUE_COND : Z := 0xFFFF.
Definition ANDROID_TOP_ADDR_VALUE_RWLOCK : Z := 0xFFFF.
Definition ANDROID_PTHREAD_RECURSIVE_MUTEX_INITIALIZER : Z := 0x4000.
Definition ANDROID_PTHREAD_ERRORCHECK_MUTEX_INITIALIZER : Z := 0x8000.
Definition ANDROID_MUTEX_SHARED_MASK : Z := 0x2000.

Definition hybris_check_android_shared_mutex (mutex_addr : Z) : bool :=
  (mutex_addr <=? ANDROID_TOP_ADDR_VALUE_MUTEX) &&
  negb (Z.land mutex_addr ANDROID_MUTEX_SHARED_MASK =? 0).

(** The attribute the static initialiser [android_value] stands for. *)
Definition hybris_set_mutex_attr (android_value : Z) : mutex_kind :=
  if negb (Z.land android_value ANDROID_PTHREAD_RECURSIVE_MUTEX_INITIALIZER =? 0) then RECURSIVE
  else if negb (Z.land android_value ANDROID_PTHREAD_ERRORCHECK_MUTEX_INITIALIZER =? 0) then ERRORCHECK
  else NORMAL.

Definition hybris_read_sync_value (storage : Z) : prog Z :=
  _ ← do Guard_lock;
  value ← do (Load storage);
  _ ← do Guard_unlock;
  mret value.

Definition hybris_get_static_mutex (storage : Z) : prog Z :=
  _ ← do Guard_lock;
  value ← do (Load storage);
  value ← (if value <=? ANDROID_TOP_ADDR_VALUE_MUTEX then
             candidate ← do (Malloc SMutex);
             if candidate =? 0 then Die else
             error ← do (Mutex_init candidate (AttrKind (hybris_set_mutex_attr (u32 value))));
             if negb (error =? 0) then Die else
             _ ← do (Store storage candidate);
             mret candidate
           else mret value);
  _ ← do Guard_unlock;
  mret value.

Definition hybris_get_static_cond (storage : Z) : prog Z :=
  _ ← do Guard_lock;
  value ← do (Load storage);
  value ← (if value <=? ANDROID_TOP_ADDR_VALUE_COND then
             candidate ← do (Malloc SCond);
             if candidate =? 0 then Die else
             error ← do (Cond_init candidate 0);
             if negb (error =? 0) then Die else
             _ ← do (Store storage candidate);
             mret candidate
           else mret value);
  _ ← do Guard_unlock;
  mret value.

Definition hybris_alloc_init_rwlock : prog Z :=
  realrwlock ← do (Malloc SRwlock);
  if realrwlock =? 0 then Die else
  error ← do (Rwlock_init realrwlock 0);
  if negb (error =? 0) then Die else
  mret realrwlock.

Definition hybris_get_static_rwlock_value (storage : Z) : prog Z :=
  _ ← do Guard_lock;
  value ← do (Load storage);
  value ← (if value <=? ANDROID_TOP_ADDR_VALUE_RWLOCK then
             value ← hybris_alloc_init_rwlock;
             _ ← do (Store storage value);
             mret value
           else mret value);
  _ ← do Guard_unlock;
  mret value.

(** [if (hybris_is_pointer_in_shm(value)) real = hybris_get_shmpointer(value)] *)
Definition translate (value : Z) : prog Z :=
  if Shm.hybris_is_pointer_in_shm value then do (Shm_pointer value) else mret value.

(** ** Mutexes *)

Definition _hybris_hook_pthread_mutex_init (__mutex __mutexattr : Z) : prog Z :=
  pshared ← (if negb (__mutexattr =? 0) then do (Attr_getpshared __mutexattr) else mret 0);
  realmutex ← (if pshared =? 0 then
                 realmutex ← do (Malloc SMutex);
                 _ ← do (Store __mutex realmutex);
                 mret realmutex
               else
                 handle ← do (Shm_alloc (sizeof SMutex));
                 _ ← do (Store __mutex handle);
                 if negb (handle =? 0) then do (Shm_pointer handle) else mret 0);
  if realmutex =? 0 then mret ENOMEM
  else do (Mutex_init realmutex (AttrPtr __mutexattr)).

Definition _hybris_hook_pthread_mutex_destroy (__mutex : Z) : prog Z :=
  if __mutex =? 0 then mret EINVAL else
  value ← hybris_read_sync_value __mutex;
  if (value <=? ANDROID_TOP_ADDR_VALUE_MUTEX) && negb (hybris_check_android_shared_mutex value) then
    _ ← do (Store __mutex 0); mret 0
  else
    let realmutex := value in
    if realmutex =? 0 then mret EINVAL else
    let clear (ret : Z) : prog Z :=
      if ret =? 0 then _ ← do (Store __mutex 0); mret ret else mret ret in
    if negb (Shm.hybris_is_pointer_in_shm realmutex) then
      ret ← do (Mutex_destroy realmutex);
      _ ← (if ret =? 0 then do (Free realmutex) else mret tt);
      clear ret
    else
      realmutex ← do (Shm_pointer realmutex);
      if realmutex =? 0 then mret EINVAL else
      ret ← do (Mutex_destroy realmutex);
      clear ret.

Definition _hybris_hook_pthread_mutex_lock (__mutex : Z) : prog Z :=
  if __mutex =? 0 then mret 0 else
  value ← hybris_read_sync_value __mutex;
  if hybris_check_android_shared_mutex value then mret 0 else
  realmutex ← translate value;
  realmutex ← (if value <=? ANDROID_TOP_ADDR_VALUE_MUTEX then hybris_get_static_mutex __mutex
               else mret realmutex);
  do (Mutex_op M_lock realmutex).

Definition _hybris_hook_pthread_mutex_trylock (__mutex : Z) : prog Z :=
  value ← hybris_read_sync_value __mutex;
  if hybris_check_android_shared_mutex value then mret 0 else
  realmutex ← translate value;
  realmutex ← (if value <=? ANDROID_TOP_ADDR_VALUE_MUTEX then hybris_get_static_mutex __mutex
               else mret realmutex);
  do (Mutex_op M_trylock realmutex).

Definition _hybris_hook_pthread_mutex_unlock (__mutex : Z) : prog Z :=
  if __mutex =? 0 then mret 0 else
  value ← hybris_read_sync_value __mutex;
  if hybris_check_android_shared_mutex value then mret 0 else
  if value <=? ANDROID_TOP_ADDR_VALUE_MUTEX then mret 0 else
  realmutex ← translate value;
  do (Mutex_op M_unlock realmutex).

(** The deadline [msecs] milliseconds after [tv]. *)
Definition add_msecs (tv : timespec) (__msecs : Z) : timespec :=
  let sec := tv_sec tv + __msecs / 1000 in
  let nsec := tv_nsec tv + u32 (__msecs mod 1000 * 1000000) in
  if 1000000000 <=? nsec then Timespec (sec + 1) (nsec - 1000000000) else Timespec sec nsec.

Definition _hybris_hook_pthread_mutex_lock_timeout_np (__mutex __msecs : Z) : prog Z :=
  value ← hybris_read_sync_value __mutex;
  if hybris_check_android_shared_mutex value then mret 0 else
  let rest (realmutex : Z) : prog Z :=
    realmutex ← (if value <=? ANDROID_TOP_ADDR_VALUE_MUTEX then hybris_get_static_mutex __mutex
                 else mret realmutex);
    tv ← do (Clock_gettime CLOCK_MONOTONIC);
    match tv with
    | inr errno => mret errno
    | inl tv =>
        error ← do (Mutex_op (M_clocklock CLOCK_MONOTONIC (add_msecs tv __msecs)) realmutex);
        mret (if error =? ETIMEDOUT then EBUSY else error)
    end in
  if Shm.hybris_is_pointer_in_shm value then
    realmutex ← do (Shm_pointer value);
    if realmutex =? 0 then mret EINVAL else rest realmutex
  else rest value.

Definition mutex_timedlock_clock (__mutex : Z) (__abs_timeout : option timespec) (clock : clockid) : prog Z :=
  if __mutex =? 0 then mret 0 else
  value ← hybris_read_sync_value __mutex;
  if hybris_check_android_shared_mutex value then mret 0 else
  let rest (realmutex : Z) : prog Z :=
    realmutex ← (if value <=? ANDROID_TOP_ADDR_VALUE_MUTEX then hybris_get_static_mutex __mutex
                 else mret realmutex);
    match __abs_timeout with
    | None => do (Mutex_op M_lock realmutex)
    | Some ts => do (Mutex_op (M_clocklock clock ts) realmutex)
    end in
  if Shm.hybris_is_pointer_in_shm value then
    realmutex ← do (Shm_pointer value);
    if realmutex =? 0 then mret EINVAL else rest realmutex
  else rest value.

Definition _hybris_hook_pthread_mutex_timedlock (mutex : Z) (deadline : option timespec) : prog Z :=
  mutex_timedlock_clock mutex deadline CLOCK_REALTIME.

Definition _hybris_hook_pthread_mutex_timedlock_monotonic_np (mutex : Z) (deadline : option timespec) : prog Z :=
  mutex_timedlock_clock mutex deadline CLOCK_MONOTONIC.

Definition _hybris_hook_pthread_mutexattr_setpshared (__attr pshared : Z) : prog Z :=
  do (Mutexattr_setpshared __attr pshared).

(** ** Rwlock attributes *)

Definition PTHREAD_RWLOCK_PREFER_READER_NP : Z := 0.
Definition PTHREAD_RWLOCK_PREFER_WRITER_NONRECURSIVE_NP : Z := 2.

Definition _hybris_hook_pthread_rwlockattr_init (__attr : Z) : prog Z :=
  realattr ← do (Malloc SRwlockattr);
  _ ← do (Store __attr realattr);
  do (Rwlockattr_init realattr).

Definition _hybris_hook_pthread_rwlockattr_destroy (__attr : Z) : prog Z :=
  realattr ← do (Load __attr);
  ret ← do (Rwlockattr_destroy realattr);
  _ ← do (Free realattr);
  mret ret.

Definition _hybris_hook_pthread_rwlockattr_setpshared (__attr pshared : Z) : prog Z :=
  realattr ← do (Load __attr);
  do (Rwlockattr_setpshared realattr pshared).

Definition _hybris_hook_pthread_rwlockattr_getpshared (__attr : Z) : prog (Z * Z) :=
  realattr ← do (Load __attr);
  do (Rwlockattr_getpshared realattr).

Definition _hybris_hook_pthread_rwlockattr_setkind_np (attr pref : Z) : prog Z :=
  realattr ← do (Load attr);
  if pref =? 0 then do (Rwlockattr_setkind realattr PTHREAD_RWLOCK_PREFER_READER_NP)
  else if pref =? 1 then do (Rwlockattr_setkind realattr PTHREAD_RWLOCK_PREFER_WRITER_NONRECURSIVE_NP)
  else mret EINVAL.

(** Returns the code and the value written to [*pref], if any. *)
Definition _hybris_hook_pthread_rwlockattr_getkind_np (attr : Z) : prog (Z * option Z) :=
  realattr ← do (Load attr);
  r ← do (Rwlockattr_getkind realattr);
  let '(error, host_pref) := r in
  mret (if negb (error =? 0) then (error, None)
        else if host_pref =? PTHREAD_RWLOCK_PREFER_READER_NP then (0, Some 0)
        else if host_pref =? PTHREAD_RWLOCK_PREFER_WRITER_NONRECURSIVE_NP then (0, Some 1)
        else (EINVAL, None)).

(** ** Rwlocks *)

Definition _hybris_hook_pthread_rwlock_init (__rwlock __attr : Z) : prog Z :=
  realattr ← (if negb (__attr =? 0) then do (Load __attr) else mret 0);
  pshared ← (if negb (realattr =? 0) then
               r ← do (Rwlockattr_getpshared realattr);
               mret (if r.1 =? 0 then r.2 else 0)
             else mret 0);
  realrwlock ← (if pshared =? 0 then
                  realrwlock ← do (Malloc SRwlock);
                  _ ← do (Store __rwlock realrwlock);
                  mret realrwlock
                else
                  handle ← do (Shm_alloc (sizeof SRwlock));
                  _ ← do (Store __rwlock handle);
                  if negb (handle =? 0) then do (Shm_pointer handle) else mret 0);
  if realrwlock =? 0 then mret ENOMEM
  else do (Rwlock_init realrwlock realattr).

Definition _hybris_hook_pthread_rwlock_destroy (__rwlock : Z) : prog Z :=
  value ← hybris_read_sync_value __rwlock;
  if value <=? ANDROID_TOP_ADDR_VALUE_RWLOCK then
    _ ← do (Store __rwlock 0); mret 0
  else
    let realrwlock := value in
    if negb (Shm.hybris_is_pointer_in_shm realrwlock) then
      ret ← do (Rwlock_destroy realrwlock);
      _ ← do (Free realrwlock);
      mret ret
    else
      realrwlock ← do (Shm_pointer value);
      if realrwlock =? 0 then mret EINVAL else
      do (Rwlock_destroy realrwlock).

Definition hybris_set_realrwlock (rwlock : Z) : prog Z :=
  value ← hybris_get_static_rwlock_value rwlock;
  translate value.

Definition _hybris_hook_pthread_rwlock_rdlock (__rwlock : Z) : prog Z :=
  realrwlock ← hybris_set_realrwlock __rwlock; do (Rwlock_op R_rdlock realrwlock).

Definition _hybris_hook_pthread_rwlock_tryrdlock (__rwlock : Z) : prog Z :=
  realrwlock ← hybris_set_realrwlock __rwlock; do (Rwlock_op R_tryrdlock realrwlock).

Definition _hybris_hook_pthread_rwlock_timedrdlock (__rwlock : Z) (abs_timeout : option timespec) : prog Z :=
  realrwlock ← hybris_set_realrwlock __rwlock; do (Rwlock_op (R_timedrdlock abs_timeout) realrwlock).

Definition _hybris_hook_pthread_rwlock_wrlock (__rwlock : Z) : prog Z :=
  realrwlock ← hybris_set_realrwlock __rwlock; do (Rwlock_op R_wrlock realrwlock).

Definition _hybris_hook_pthread_rwlock_trywrlock (__rwlock : Z) : prog Z :=
  realrwlock ← hybris_set_realrwlock __rwlock; do (Rwlock_op R_trywrlock realrwlock).

Definition _hybris_hook_pthread_rwlock_timedwrlock (__rwlock : Z) (abs_timeout : option timespec) : prog Z :=
  realrwlock ← hybris_set_realrwlock __rwlock; do (Rwlock_op (R_timedwrlock abs_timeout) realrwlock).

Definition _hybris_hook_pthread_rwlock_timedrdlock_monotonic_np (rwlock : Z) (deadline : option timespec) : prog Z :=
  real ← hybris_set_realrwlock rwlock;
  if real =? 0 then mret EINVAL else
  match deadline with
  | Some ts => do (Rwlock_op (R_clockrdlock CLOCK_MONOTONIC ts) real)
  | None => do (Rwlock_op R_rdlock real)
  end.

Definition _hybris_hook_pthread_rwlock_timedwrlock_monotonic_np (rwlock : Z) (deadline : option timespec) : prog Z :=
  real ← hybris_set_realrwlock rwlock;
  if real =? 0 then mret EINVAL else
  match deadline with
  | Some ts => do (Rwlock_op (R_clockwrlock CLOCK_MONOTONIC ts) real)
  | None => do (Rwlock_op R_wrlock real)
  end.

Definition _hybris_hook_pthread_rwlock_unlock (__rwlock : Z) : prog Z :=
  value ← hybris_read_sync_value __rwlock;
  if value <=? ANDROID_TOP_ADDR_VALUE_RWLOCK then mret 0 else
  realrwlock ← translate value;
  do (Rwlock_op R_unlock realrwlock).

(** ** Running a hook alone *)

Lemma exec_read t a e v e' w :
  guard e = None -> mem e !! a = Some w ->
  exec t (hybris_read_sync_value a) e v e' <-> v = w /\ e' = e.
Proof.
  intros Hg Hm. destruct e as [m h o g po pp]. cbn in Hg, Hm. subst g. cbn. split.
  - intros (_ & _ & e1 & [_ ->] & _ & r & e2 & [Hr ->] & _ & _ & e3 & -> & -> & ->). cbn in *.
    rewrite Hm in Hr. split; [congruence|done].
  - intros [-> ->]. split; [done|]. exists tt. eexists. split; [done|]. split; [cbn; eauto|].
    exists w. eexists. split; [done|]. split; [done|]. exists tt. eexists. split; [done|]. done.
Qed.

Lemma host_not_shm v : v < 2 ^ 48 -> Shm.hybris_is_pointer_in_shm v = false.
Proof.
  intros H. unfold Shm.hybris_is_pointer_in_shm, Shm.HYBRIS_SHM_MASK. apply andb_false_intro1, Z.leb_gt. lia.
Qed.

(** The host state after a private mutex is destroyed and its memory freed. *)
Definition destroyed (a v : Z) (e : env) : env :=
  set_mem (<[a := 0]>) (set_objs (delete v) (set_heap (delete v) (set_objs (delete v) e))).

(** Destroying a private mutex.  The host's code [ret] is returned; on success
    the host object is gone, its memory freed and the Android word cleared; on
    failure (a locked mutex) nothing at all changes and the Android object is
    still usable.  The hook always returns. *)
Theorem mutex_destroy_spec t a v e ret e' :
  a <> 0 -> guard e = None -> mem e !! a = Some v -> host_address v ->
  is_obj e v SMutex -> is_Some (heap e !! v) ->
  exec t (_hybris_hook_pthread_mutex_destroy a) e ret e' <->
  e' = if ret =? 0 then destroyed a v e else e.
Proof.
  intros Ha Hg Hm [Hv1 Hv2] Ho Hh. unfold _hybris_hook_pthread_mutex_destroy.
  rewrite (proj2 (Z.eqb_neq a 0) Ha), exec_bind. unfold hybris_check_android_shared_mutex, ANDROID_TOP_ADDR_VALUE_MUTEX.
  pose proof (host_not_shm v Hv2) as Hns.
  split.
  - intros (v' & e1 & H1 & H2). apply (exec_read t a e v' e1 v Hg Hm) in H1 as [-> ->].
    rewrite (proj2 (Z.leb_gt v 0xFFFF)) in H2 by lia. cbn [andb] in H2.
    rewrite (proj2 (Z.eqb_neq v 0)), Hns in H2 by lia. cbn [negb] in H2.
    destruct H2 as (_ & r & e1 & Hst & H2). cbn in r. destruct Hst as [[-> ->]|[Hr ->]].
    + cbn in H2. destruct H2 as (_ & _ & e2 & -> & _ & _ & e3 & -> & -> & ->). reflexivity.
    + cbn in H2. rewrite (proj2 (Z.eqb_neq r 0) Hr) in H2. cbn in H2.
      destruct H2 as [-> ->]. now rewrite (proj2 (Z.eqb_neq r 0) Hr).
  - intros ->. exists v, e. split; [now apply (exec_read t a e v e v)|].
    rewrite (proj2 (Z.leb_gt v 0xFFFF)) by lia. cbn [andb].
    rewrite (proj2 (Z.eqb_neq v 0)), Hns by lia. cbn [negb].
    split; [cbn; split; [done|congruence]|]. exists ret. destruct (Z.eqb_spec ret 0) as [->|Hr].
    + exists (set_objs (delete v) e). split; [now left|]. cbn. split; [done|]. exists tt. eexists. split; [done|].
      split; [cbn; eauto|]. exists tt. eexists. split; [done|]. done.
    + exists e. split; [now right|]. cbn. now rewrite (proj2 (Z.eqb_neq ret 0) Hr).
Qed.

Lemma mutex_destroy_spec_witness :
  let e := Env {[0x1000 := 0x20000]} {[0x20000 := (0%nat, SMutex)]} {[0x20000 := OMutex (AttrPtr 0)]} None
               (Shm.Os [] None) (Shm.Proc 0 (-1) None 0) in
  exec 0 (_hybris_hook_pthread_mutex_destroy 0x1000) e EBUSY e /\
  exec 0 (_hybris_hook_pthread_mutex_destroy 0x1000) e 0 (destroyed 0x1000 0x20000 e).
Proof.
  split.
  - apply (mutex_destroy_spec 0 0x1000 0x20000); try done; eexists; first [reflexivity | split; reflexivity].
  - apply (mutex_destroy_spec 0 0x1000 0x20000); try done; eexists; first [reflexivity | split; reflexivity].
Defined.

(** Destroying a private rwlock frees the host object whatever the host
    answered and leaves its address in the Android word, so the next rdlock on
    the object (even after a failed destroy) has no defined behaviour. *)
Theorem rwlock_destroy_dangles t a v e ret e' :
  guard e = None -> mem e !! a = Some v -> host_address v ->
  exec t (_hybris_hook_pthread_rwlock_destroy a) e ret e' ->
  mem e' !! a = Some v /\ heap e' !! v = None /\
  forall r e'', ~ exec t (_hybris_hook_pthread_rwlock_rdlock a) e' r e''.
Proof.
  intros Hg Hm [Hv1 Hv2] H. unfold _hybris_hook_pthread_rwlock_destroy in H. rewrite exec_bind in H.
  destruct H as (v' & e1 & H1 & H2). apply (exec_read t a e v' e1 v Hg Hm) in H1 as [-> ->].
  unfold ANDROID_TOP_ADDR_VALUE_RWLOCK in H2. rewrite (proj2 (Z.leb_gt v 0xFFFF)) in H2 by lia.
  rewrite host_not_shm in H2 by done. cbn [negb] in H2.
  assert (mem e' = mem e /\ guard e' = None /\ heap e' = delete v (heap e) /\ objs e' = delete v (objs e))
    as (E1 & E2 & E3 & E4).
  { destruct H2 as (_ & r & e1 & Hst & _ & u & e2 & Hf & _ & ->). cbn in Hf. subst e2.
    destruct Hst as [[_ ->]|[_ ->]]; cbn; rewrite ?delete_delete_eq; auto. }
  rewrite E1, E3, lookup_delete_eq. split; [done|]. split; [done|]. intros r e'' H3.
  unfold _hybris_hook_pthread_rwlock_rdlock, hybris_set_realrwlock in H3. rewrite exec_bind in H3.
  destruct H3 as (p & e1 & H3 & H4). rewrite exec_bind in H3. destruct H3 as (p' & e3 & H5 & H6).
  assert (p' = v /\ objs e3 = delete v (objs e)) as [-> E5].
  { cbn in H5. destruct H5 as (_ & u & e4 & [_ ->] & _ & w & e5 & [Hw ->] & H5). cbn in Hw.
    rewrite E1, Hm in Hw. injection Hw as <-. unfold ANDROID_TOP_ADDR_VALUE_RWLOCK in H5.
    rewrite (proj2 (Z.leb_gt v 0xFFFF)) in H5 by lia. cbn in H5.
    destruct H5 as (_ & u2 & e6 & -> & -> & ->). auto. }
  unfold translate in H6. rewrite host_not_shm in H6 by done. destruct H6 as [-> ->].
  destruct H4 as ([(o & Ho & _) _] & _). rewrite E5, lookup_delete_eq in Ho. done.
Qed.

Lemma rwlock_destroy_dangles_witness :
  let e := Env {[0x1000 := 0x20000]} {[0x20000 := (0%nat, SRwlock)]} {[0x20000 := ORwlock 0]} None
               (Shm.Os [] None) (Shm.Proc 0 (-1) None 0) in
  exists e', exec 0 (_hybris_hook_pthread_rwlock_destroy 0x1000) e EBUSY e' /\
    mem e' !! 0x1000 = Some 0x20000 /\ heap e' !! 0x20000 = None.
Proof.
  intros e.
  assert (exec 0 (_hybris_hook_pthread_rwlock_destroy 0x1000) e EBUSY
    (set_objs (delete 0x20000) (set_heap (delete 0x20000) e))) as H.
  { cbn. split; [done|]. exists tt. eexists. split; [done|]. split; [done|]. exists 0x20000. eexists.
    split; [done|]. split; [done|]. exists tt. eexists. split; [reflexivity|]. cbn.
    split; [split; [eexists; done|done]|]. exists EBUSY. eexists. split; [right; done|]. cbn.
    split; [eexists; reflexivity|]. exists tt. eexists. split; [reflexivity|]. done. }
  eexists. split; [exact H|].
  destruct (rwlock_destroy_dangles 0 0x1000 0x20000 e EBUSY _ eq_refl eq_refl (conj eq_refl eq_refl) H)
    as (H1 & H2 & _). exact (conj H1 H2).
Defined.

(** A bionic process-shared static initialiser has no host object, but
    destroying it passes the initialiser itself to the host as a pointer: the
    call has no defined outcome. *)
Theorem mutex_destroy_android_shared_undefined t a v e ret e' :
  a <> 0 -> guard e = None -> mem e !! a = Some v -> 0 <= v ->
  hybris_check_android_shared_mutex v = true -> objs e !! v = None ->
  ~ exec t (_hybris_hook_pthread_mutex_destroy a) e ret e'.
Proof.
  intros Ha Hg Hm H0 Hs Ho H. unfold _hybris_hook_pthread_mutex_destroy in H.
  rewrite (proj2 (Z.eqb_neq a 0) Ha), exec_bind in H. destruct H as (v' & e1 & H1 & H2).
  apply (exec_read t a e v' e1 v Hg Hm) in H1 as [-> ->]. rewrite Hs, andb_false_r in H2.
  unfold hybris_check_android_shared_mutex, ANDROID_TOP_ADDR_VALUE_MUTEX in Hs.
  apply andb_true_iff in Hs as [Hs1 Hs2]. apply Z.leb_le in Hs1.
  destruct (Z.eqb_spec v 0) as [->|]; [done|]. rewrite host_not_shm in H2 by lia. cbn [negb] in H2.
  destruct H2 as ([(o & Hob & _) _] & _). congruence.
Qed.

Lemma mutex_destroy_android_shared_undefined_witness :
  forall ret e', ~ exec 0 (_hybris_hook_pthread_mutex_destroy 0x1000)
    (Env {[0x1000 := 0x2000]} ∅ ∅ None (Shm.Os [] None) (Shm.Proc 0 (-1) None 0)) ret e'.
Proof. intros ret e'. apply (mutex_destroy_android_shared_undefined 0 0x1000 0x2000); done. Defined.

Definition NSEC : Z := 1000000000.
Definition nanoseconds (ts : timespec) : Z := tv_sec ts * NSEC + tv_nsec ts.

(** The deadline of [pthread_mutex_lock_timeout_np] is a normalised timespec
    exactly [msecs] milliseconds after the clock reading. *)
Theorem lock_timeout_deadline tv msecs :
  0 <= tv_nsec tv < NSEC -> in_range 32 msecs ->
  0 <= tv_nsec (add_msecs tv msecs) < NSEC /\
  nanoseconds (add_msecs tv msecs) = nanoseconds tv + msecs * 1000000.
Proof.
  unfold in_range, nanoseconds, NSEC, add_msecs. intros Hn Hm.
  pose proof (Z.div_mod msecs 1000 ltac:(lia)) as Hd. pose proof (Z.mod_pos_bound msecs 1000 ltac:(lia)) as Hb.
  rewrite wrap_small by (unfold in_range; lia).
  destruct (Z.leb_spec 1000000000 (tv_nsec tv + msecs mod 1000 * 1000000)); cbn [tv_sec tv_nsec]; lia.
Qed.

Lemma lock_timeout_deadline_witness :
  nanoseconds (add_msecs (Timespec 5 999999999) 2001) = nanoseconds (Timespec 5 999999999) + 2001 * 1000000.
Proof. apply lock_timeout_deadline; unfold in_range, NSEC; cbn; lia. Defined.

(** The rwlock preference survives the translation between bionic's two values
    and glibc's three: setting preference [pref] succeeds only for 0 and 1, other
    values give EINVAL and change nothing, and what was set is what getkind
    reports. *)
Theorem rwlock_kind_roundtrip t a pref e c e1 :
  exec t (_hybris_hook_pthread_rwlockattr_setkind_np a pref) e c e1 ->
  (pref <> 0 -> pref <> 1 -> c = EINVAL /\ e1 = e) /\
  (pref = 0 \/ pref = 1 -> c = 0 -> forall r e2,
     exec t (_hybris_hook_pthread_rwlockattr_getkind_np a) e1 r e2 -> r = (0, Some pref) /\ e2 = e1).
Proof.
  intros (_ & p & e0 & [Hp ->] & H).
  destruct (Z.eqb_spec pref 0) as [->|N0]; [|destruct (Z.eqb_spec pref 1) as [->|N1]].
  3: { cbn in H. destruct H as [-> ->]. split; [done|]. lia. }
  all: split; [lia|]; intros _ -> r e2 (_ & p2 & e3 & [Hp2 ->] & _ & r2 & e4 & [-> (q & k & Hk & ->)] & -> & ->);
    destruct H as (_ & r1 & e1' & (q1 & k1 & Hk1 & Hst) & <- & <-);
    (destruct Hst as [[_ ->]|[Hr _]]; [|done]); cbn in Hp, Hp2, Hk;
    assert (p2 = p) as -> by (cbn in *; congruence); rewrite lookup_insert_eq in Hk;
    injection Hk as <- <-; done.
Qed.

Lemma rwlock_kind_roundtrip_witness :
  let e := Env {[0x1000 := 0x20000]} {[0x20000 := (0%nat, SRwlockattr)]} {[0x20000 := ORwlockattr 0 0]} None
               (Shm.Os [] None) (Shm.Proc 0 (-1) None 0) in
  forall r e2,
    exec 0 (_hybris_hook_pthread_rwlockattr_getkind_np 0x1000) (set_objs (<[0x20000 := ORwlockattr 0 2]>) e) r e2 ->
    r = (0, Some 1).
Proof.
  intros e r e2 H.
  assert (exec 0 (_hybris_hook_pthread_rwlockattr_setkind_np 0x1000 1) e 0
            (set_objs (<[0x20000 := ORwlockattr 0 2]>) e)) as Hs.
  { cbn. split; [eexists; reflexivity|]. exists 0x20000, e. split; [done|]. split; [eexists; done|].
    exists 0. eexists. split; [|done]. exists 0, 0. split; [reflexivity|]. now left. }
  destruct (rwlock_kind_roundtrip 0 0x1000 1 e 0 _ Hs) as [_ Hk].
  exact (proj1 (Hk (or_intror eq_refl) eq_refl r e2 H)).
Defined.
End BionicSync.
