(* ===== verification/BionicCond.v ===== *)
(** * Condition-variable hooks (common/bionic_cond.c)

    Same representation as [BionicSync].  A condition that Android shares is
    never given a host object: it is pulsed in place with a compare-and-swap
    loop on the 32-bit counter in its low half, and a futex wake. *)

From Stdlib Require Import ZArith Lia Bool.
From stdpp Require Import base gmap list numbers option relations.
From S2P Require Import Prelude Shm Host BionicSync.

Open Scope Z_scope.

Module BionicCond.
Import Host BionicSync.

Definition ANDROID_COND_SHARED_MASK : Z := 0x0001.
Definition ANDROID_COND_COUNTER_INCREMENT : Z := 0x0002.
Definition ANDROID_COND_COUNTER_MASK : Z := Z.lnot ANDROID_COND_SHARED_MASK.
Definition INT_MAX : Z := 2 ^ 31 - 1.

Definition hybris_check_android_shared_cond (cond_addr : Z) : bool :=
  ((cond_addr <=? ANDROID_TOP_ADDR_VALUE_COND) &&
   negb (Z.land cond_addr ANDROID_COND_SHARED_MASK =? 0))
  || (Shm.HYBRIS_SHM_MASK_TOP <? cond_addr).

(** The value one pulse writes over [oldval]. *)
Definition pulse_value (flags oldval : Z) : Z :=
  if oldval <? -12
  then Z.lor (Z.land (oldval + ANDROID_COND_COUNTER_INCREMENT) ANDROID_COND_COUNTER_MASK) flags
  else Z.lor (Z.land (oldval - ANDROID_COND_COUNTER_INCREMENT) ANDROID_COND_COUNTER_MASK) flags.

(** The retry loop; [fuel] bounds the number of failed compare-and-swaps. *)
Fixpoint pulse_loop (fuel : nat) (cond flags : Z) : prog unit :=
  match fuel with
  | O => Spin
  | S fuel =>
      oldval ← do (Load32 cond);
      b ← do (Cas32 cond oldval (pulse_value flags oldval));
      if (b : bool) then mret tt else pulse_loop fuel cond flags
  end.

Definition __android_pthread_cond_pulse (fuel : nat) (cond counter : Z) : prog Z :=
  if cond =? 0 then mret EINVAL else
  v ← do (Load32 cond);
  let flags := Z.land v (Z.lnot ANDROID_COND_COUNTER_MASK) in
  _ ← pulse_loop fuel cond flags;
  v ← do (Load32 cond);
  let pshared := Z.land v ANDROID_COND_SHARED_MASK in
  _ ← do (Futex_wake cond (pshared =? 0) counter);
  mret 0.

Definition android_pthread_cond_broadcast (fuel : nat) (cond : Z) : prog Z :=
  __android_pthread_cond_pulse fuel cond INT_MAX.

Definition android_pthread_cond_signal (fuel : nat) (cond : Z) : prog Z :=
  __android_pthread_cond_pulse fuel cond 1.

Definition _hybris_hook_pthread_cond_init (cond attr : Z) : prog Z :=
  pshared ← (if negb (attr =? 0) then do (Attr_getpshared attr) else mret 0);
  realcond ← (if pshared =? 0 then
                realcond ← do (Malloc SCond);
                _ ← do (Store cond realcond);
                mret realcond
              else
                handle ← do (Shm_alloc (sizeof SCond));
                _ ← do (Store cond handle);
                if negb (handle =? 0) then do (Shm_pointer handle) else mret 0);
  if realcond =? 0 then mret ENOMEM
  else do (Cond_init realcond attr).

Definition _hybris_hook_pthread_cond_destroy (cond : Z) : prog Z :=
  value ← hybris_read_sync_value cond;
  if (value <=? ANDROID_TOP_ADDR_VALUE_COND) && negb (hybris_check_android_shared_cond value) then
    _ ← do (Store cond 0); mret 0
  else
    let realcond := value in
    if realcond =? 0 then mret EINVAL else
    ret ← (if negb (Shm.hybris_is_pointer_in_shm realcond) then
             _ ← do (Cond_reset_wrefs realcond);
             ret ← do (Cond_destroy realcond);
             _ ← do (Free realcond);
             mret ret
           else
             realcond ← do (Shm_pointer realcond);
             do (Cond_destroy realcond));
    _ ← do (Store cond 0);
    mret ret.

Definition _hybris_hook_pthread_cond_broadcast (fuel : nat) (cond : Z) : prog Z :=
  value ← hybris_read_sync_value cond;
  if hybris_check_android_shared_cond value then android_pthread_cond_broadcast fuel cond else
  realcond ← translate value;
  realcond ← (if value <=? ANDROID_TOP_ADDR_VALUE_COND then hybris_get_static_cond cond
              else mret realcond);
  do (Cond_op C_broadcast realcond).

Definition _hybris_hook_pthread_cond_signal (fuel : nat) (cond : Z) : prog Z :=
  value ← hybris_read_sync_value cond;
  if hybris_check_android_shared_cond value then android_pthread_cond_signal fuel cond else
  realcond ← translate value;
  realcond ← (if value <=? ANDROID_TOP_ADDR_VALUE_COND then hybris_get_static_cond cond
              else mret realcond);
  do (Cond_op C_signal realcond).

(** The body the three waiting hooks share, around the host wait [op]. *)
Definition wait_with (op : wait_op) (cond mutex : Z) : prog Z :=
  cvalue ← hybris_read_sync_value cond;
  mvalue ← hybris_read_sync_value mutex;
  if hybris_check_android_shared_cond cvalue || hybris_check_android_shared_mutex mvalue then mret 0 else
  realcond ← translate cvalue;
  realcond ← (if cvalue <=? ANDROID_TOP_ADDR_VALUE_COND then hybris_get_static_cond cond
              else mret realcond);
  realmutex ← translate mvalue;
  realmutex ← (if mvalue <=? ANDROID_TOP_ADDR_VALUE_MUTEX then hybris_get_static_mutex mutex
               else mret realmutex);
  do (Cond_wait op realcond realmutex).

Definition _hybris_hook_pthread_cond_wait (cond mutex : Z) : prog Z := wait_with W_wait cond mutex.

Definition _hybris_hook_pthread_cond_clockwait (cond mutex : Z) (clock_id : clockid)
  (abstime : option timespec) : prog Z := wait_with (W_clockwait clock_id abstime) cond mutex.

Definition _hybris_hook_pthread_cond_timedwait_monotonic (cond mutex : Z) (abstime : option timespec)
  : prog Z := _hybris_hook_pthread_cond_clockwait cond mutex CLOCK_MONOTONIC abstime.

Definition _hybris_hook_pthread_cond_timedwait (cond mutex : Z) (abstime : option timespec) : prog Z :=
  wait_with (W_timedwait abstime) cond mutex.

(** [__builtin_add_overflow] at the 64-bit [time_t]. *)
Definition add_overflow (a b : Z) : option Z :=
  if (- 2 ^ 63 <=? a + b) && (a + b <? 2 ^ 63) then Some (a + b) else None.

(** The absolute deadline of a relative wait, [None] when not representable. *)
Definition relative_deadline (now rel : timespec) : option timespec :=
  match add_overflow (tv_sec now) (tv_sec rel) with
  | None => None
  | Some sec =>
      let nsec := tv_nsec now + tv_nsec rel in
      if 1000000000 <=? nsec then
        match add_overflow sec 1 with
        | None => None
        | Some sec => Some (Timespec sec (nsec - 1000000000))
        end
      else Some (Timespec sec nsec)
  end.

Definition _hybris_hook_pthread_cond_timedwait_relative_np (cond mutex : Z) (reltime : option timespec)
  : prog Z :=
  match reltime with
  | None => mret EINVAL
  | Some rel =>
      if (tv_sec rel <? 0) || (tv_nsec rel <? 0) || (1000000000 <=? tv_nsec rel) then mret EINVAL else
      now ← do (Clock_gettime CLOCK_MONOTONIC);
      match now with
      | inr errno => mret errno
      | inl now =>
          match relative_deadline now rel with
          | None => mret EINVAL
          | Some deadline =>
              _hybris_hook_pthread_cond_clockwait cond mutex CLOCK_MONOTONIC (Some deadline)
          end
      end
  end.

(** ** Pulsing a condition that Android shares *)

(** What one pulse makes of the Android word. *)
Definition pulsed (v : Z) : Z := set_low v (pulse_value (Z.land (low_int v) 1) (low_int v)).

(** Alone, the loop succeeds at its first compare-and-swap. *)
Lemma exec_pulse t fuel a counter e v :
  a <> 0 -> mem e !! a = Some v ->
  exec t (__android_pthread_cond_pulse (S fuel) a counter) e 0 (set_mem (<[a := pulsed v]>) e).
Proof.
  intros Ha Hm. unfold __android_pthread_cond_pulse. rewrite (proj2 (Z.eqb_neq a 0) Ha).
  cbn. split; [eauto|]. exists (low_int v), e. split; [eauto|].
  split; [eauto|]. exists (low_int v), e. split; [eauto|].
  split; [eauto|]. exists true, (set_mem (<[a := pulsed v]>) e). split.
  - exists v. split; [done|]. split; [|reflexivity]. symmetry. apply Z.eqb_eq. symmetry.
    apply to_signed_id; [lia|]. apply to_signed_range. lia.
  - cbn. split; [rewrite lookup_insert_eq; eauto|]. exists (low_int (pulsed v)). eexists.
    split; [exists (pulsed v); rewrite lookup_insert_eq; eauto|]. cbn.
    split; [rewrite lookup_insert_eq; eauto|]. exists 0. eexists. split; [reflexivity|]. done.
Qed.

(** The window of negative counters. *)
Lemma pulse_window o :
  -15 <= o <= -1 -> -15 <= pulse_value (Z.land o 1) o <= -1 /\ pulse_value (Z.land o 1) o <> o.
Proof.
  intros H. assert (o = -15 \/ o = -14 \/ o = -13 \/ o = -12 \/ o = -11 \/ o = -10 \/ o = -9 \/ o = -8 \/ o = -7 \/
    o = -6 \/ o = -5 \/ o = -4 \/ o = -3 \/ o = -2 \/ o = -1) as Hc by lia.
  repeat (destruct Hc as [->|Hc]; [vm_compute; split; [split|]; congruence|]). subst.
  vm_compute. split; [split|]; congruence.
Qed.

Lemma top_word v : 2 ^ 64 - 16 < v < 2 ^ 64 -> low_int v = v - 2 ^ 64 /\ Z.shiftr v 32 = 2 ^ 32 - 1.
Proof.
  intros H. split.
  - unfold low_int, to_signed, wrap. replace (v mod 2 ^ 32) with (v - (2 ^ 32 - 1) * 2 ^ 32)
      by (apply (Z.mod_unique_pos _ _ (2 ^ 32 - 1)); lia).
    destruct (Z.ltb_spec (v - (2 ^ 32 - 1) * 2 ^ 32) (2 ^ (32 - 1))); lia.
  - rewrite Z.shiftr_div_pow2 by lia. symmetry. apply (Z.div_unique _ _ _ (v - (2 ^ 32 - 1) * 2 ^ 32)); lia.
Qed.

(** Signalling a condition that holds one of Android's negative values (the
    top fifteen words) returns after one compare-and-swap when no other thread
    interferes, writes a different value, and leaves a word that is still
    recognised as shared with Android. *)
Theorem cond_signal_shared_window t a v e fuel :
  a <> 0 -> guard e = None -> mem e !! a = Some v -> Shm.HYBRIS_SHM_MASK_TOP < v < 2 ^ 64 ->
  exec t (_hybris_hook_pthread_cond_signal (S fuel) a) e 0 (set_mem (<[a := pulsed v]>) e) /\
  pulsed v <> v /\ Shm.HYBRIS_SHM_MASK_TOP < pulsed v < 2 ^ 64 /\
  hybris_check_android_shared_cond (pulsed v) = true.
Proof.
  intros Ha Hg Hm Hv. unfold Shm.HYBRIS_SHM_MASK_TOP in Hv.
  assert (forall w, 2 ^ 64 - 1 - 15 < w -> hybris_check_android_shared_cond w = true) as Hsh.
  { intros w Hw. unfold hybris_check_android_shared_cond, Shm.HYBRIS_SHM_MASK_TOP.
    rewrite (proj2 (Z.ltb_lt _ w) Hw). apply orb_true_r. }
  destruct (top_word v ltac:(lia)) as [E1 E2]. destruct (pulse_window (low_int v) ltac:(lia)) as [W1 W2].
  assert (pulsed v = pulse_value (Z.land (low_int v) 1) (low_int v) + 2 ^ 64) as E3.
  { unfold pulsed, set_low, wrap. rewrite E2. set (x := pulse_value _ _) in *.
    replace (x mod 2 ^ 32) with (x + 2 ^ 32) by (apply (Z.mod_unique_pos _ _ (-1)); lia). lia. }
  split; [|split; [lia|]; split; [unfold Shm.HYBRIS_SHM_MASK_TOP; lia|apply Hsh; lia]].
  unfold _hybris_hook_pthread_cond_signal. apply exec_bind. exists v, e.
  split; [now apply (exec_read t a e v e v)|]. rewrite Hsh by lia. now apply exec_pulse.
Qed.

Lemma cond_signal_shared_window_witness :
  let e := Env {[0x1000 := 2 ^ 64 - 1]} ∅ ∅ None (Shm.Os [] None) (Shm.Proc 0 (-1) None 0) in
  exec 0 (_hybris_hook_pthread_cond_signal 1 0x1000) e 0 (set_mem (<[0x1000 := pulsed (2 ^ 64 - 1)]>) e).
Proof. intros e. apply (cond_signal_shared_window 0 0x1000 (2 ^ 64 - 1)); done. Defined.

(** On a 64-bit host the same loop takes Android's shared value 1 to the word
    0xFFFFFFFF, which is recognised neither as shared nor as a static
    initialiser: the next signal passes it to the host as a pointer. *)
Theorem cond_signal_escapes_window t a e r e' fuel :
  a <> 0 -> guard e = None -> mem e !! a = Some 1 -> objs e !! 0xFFFFFFFF = None ->
  exec t (_hybris_hook_pthread_cond_signal (S fuel) a) e 0 (set_mem (<[a := 0xFFFFFFFF]>) e) /\
  hybris_check_android_shared_cond 0xFFFFFFFF = false /\
  ~ exec t (_hybris_hook_pthread_cond_signal (S fuel) a) (set_mem (<[a := 0xFFFFFFFF]>) e) r e'.
Proof.
  intros Ha Hg Hm Ho. split; [|split; [reflexivity|]].
  - unfold _hybris_hook_pthread_cond_signal. apply exec_bind. exists 1, e.
    split; [now apply (exec_read t a e 1 e 1)|].
    change (hybris_check_android_shared_cond 1) with true. cbv iota.
    change 0xFFFFFFFF with (pulsed 1). now apply exec_pulse.
  - intros H. unfold _hybris_hook_pthread_cond_signal in H. rewrite exec_bind in H.
    destruct H as (v & e1 & H1 & H2).
    apply (exec_read t a _ v e1 0xFFFFFFFF) in H1 as [-> ->]; [|done|apply lookup_insert_eq].
    change (hybris_check_android_shared_cond 0xFFFFFFFF) with false in H2. cbn in H2.
    destruct H2 as ([(o & Hob & _) _] & _). cbn in Hob. congruence.
Qed.

Lemma cond_signal_escapes_window_witness :
  let e := Env {[0x1000 := 1]} ∅ ∅ None (Shm.Os [] None) (Shm.Proc 0 (-1) None 0) in
  exec 0 (_hybris_hook_pthread_cond_signal 1 0x1000) e 0 (set_mem (<[0x1000 := 0xFFFFFFFF]>) e).
Proof. intros e. apply (cond_signal_escapes_window 0 0x1000 e 0 e 0); done. Defined.

(** ** Relative waits *)

(** The deadline of a relative wait is the exact sum of clock and interval,
    normalised, and the hook refuses exactly the sums whose seconds do not fit a
    64-bit [time_t]. *)
Theorem relative_deadline_exact now rel :
  0 <= tv_nsec now < NSEC -> 0 <= tv_nsec rel < NSEC ->
  0 <= tv_sec now < 2 ^ 63 -> 0 <= tv_sec rel < 2 ^ 63 ->
  match relative_deadline now rel with
  | Some d => 0 <= tv_nsec d < NSEC /\ nanoseconds d = nanoseconds now + nanoseconds rel /\ tv_sec d < 2 ^ 63
  | None => 2 ^ 63 * NSEC <= nanoseconds now + nanoseconds rel
  end.
Proof.
  unfold nanoseconds, NSEC, relative_deadline, add_overflow. intros Hn Hr Hs Ht.
  destruct (Z.leb_spec (- 2 ^ 63) (tv_sec now + tv_sec rel)); [|lia].
  destruct (Z.ltb_spec (tv_sec now + tv_sec rel) (2 ^ 63)); cbn [andb]; [|lia].
  destruct (Z.leb_spec 1000000000 (tv_nsec now + tv_nsec rel)); [|cbn [tv_sec tv_nsec]; lia].
  destruct (Z.leb_spec (- 2 ^ 63) (tv_sec now + tv_sec rel + 1)); [|lia].
  destruct (Z.ltb_spec (tv_sec now + tv_sec rel + 1) (2 ^ 63)); cbn [andb tv_sec tv_nsec]; lia.
Qed.

Lemma relative_deadline_exact_witness :
  match relative_deadline (Timespec 7 600000000) (Timespec 1 500000000) with
  | Some d => nanoseconds d = 9100000000
  | None => False
  end.
Proof.
  pose proof (relative_deadline_exact (Timespec 7 600000000) (Timespec 1 500000000)) as H.
  unfold NSEC in H. cbn [tv_sec tv_nsec] in H.
  exact (proj1 (proj2 (H ltac:(lia) ltac:(lia) ltac:(lia) ltac:(lia)))).
Defined.
End BionicCond.
