(* ===== verification/SyncSafe.v ===== *)
(** * Concurrent safety of the synchronisation hooks

    Any number of threads call the mutex, rwlock and condition hooks on private
    Android objects that nobody destroys meanwhile.  The static initialisers
    among them are replaced by host objects on first use.  The proof is
    rely/guarantee over [Host.ok]: holding [static_sync_guard] freezes the
    Android words, a published word never changes again, and an allocation is
    initialised only by the thread that made it. *)

From Stdlib Require Import ZArith Lia Bool.
From stdpp Require Import base gmap list numbers option relations.
From S2P Require Import Prelude Shm Host BionicSync BionicCond.

Open Scope Z_scope.

Module SyncSafe.
Import Host BionicSync BionicCond.

(** A hook call of a client thread on Android objects. *)
Inductive op :=
| MLock (m : Z) | MTrylock (m : Z) | MUnlock (m : Z) | MTimeout (m msecs : Z)
| MTimed (m : Z) (ts : option timespec) | MTimedMonotonic (m : Z) (ts : option timespec)
| RRdlock (w : Z) | RTryrdlock (w : Z) | RTimedrdlock (w : Z) (ts : option timespec)
| RWrlock (w : Z) | RTrywrlock (w : Z) | RTimedwrlock (w : Z) (ts : option timespec)
| RRdMonotonic (w : Z) (ts : option timespec) | RWrMonotonic (w : Z) (ts : option timespec)
| RUnlock (w : Z)
| CBroadcast (c : Z) | CSignal (c : Z) | CWait (c m : Z)
| CClockwait (c m : Z) (clk : clockid) (ts : option timespec)
| CTimedMonotonic (c m : Z) (ts : option timespec)
| CTimed (c m : Z) (ts : option timespec) | CRelative (c m : Z) (ts : option timespec).

Definition run_op (o : op) : prog Z :=
  match o with
  | MLock m => _hybris_hook_pthread_mutex_lock m
  | MTrylock m => _hybris_hook_pthread_mutex_trylock m
  | MUnlock m => _hybris_hook_pthread_mutex_unlock m
  | MTimeout m ms => _hybris_hook_pthread_mutex_lock_timeout_np m ms
  | MTimed m ts => _hybris_hook_pthread_mutex_timedlock m ts
  | MTimedMonotonic m ts => _hybris_hook_pthread_mutex_timedlock_monotonic_np m ts
  | RRdlock w => _hybris_hook_pthread_rwlock_rdlock w
  | RTryrdlock w => _hybris_hook_pthread_rwlock_tryrdlock w
  | RTimedrdlock w ts => _hybris_hook_pthread_rwlock_timedrdlock w ts
  | RWrlock w => _hybris_hook_pthread_rwlock_wrlock w
  | RTrywrlock w => _hybris_hook_pthread_rwlock_trywrlock w
  | RTimedwrlock w ts => _hybris_hook_pthread_rwlock_timedwrlock w ts
  | RRdMonotonic w ts => _hybris_hook_pthread_rwlock_timedrdlock_monotonic_np w ts
  | RWrMonotonic w ts => _hybris_hook_pthread_rwlock_timedwrlock_monotonic_np w ts
  | RUnlock w => _hybris_hook_pthread_rwlock_unlock w
  | CBroadcast c => _hybris_hook_pthread_cond_broadcast 0 c
  | CSignal c => _hybris_hook_pthread_cond_signal 0 c
  | CWait c m => _hybris_hook_pthread_cond_wait c m
  | CClockwait c m clk ts => _hybris_hook_pthread_cond_clockwait c m clk ts
  | CTimedMonotonic c m ts => _hybris_hook_pthread_cond_timedwait_monotonic c m ts
  | CTimed c m ts => _hybris_hook_pthread_cond_timedwait c m ts
  | CRelative c m ts => _hybris_hook_pthread_cond_timedwait_relative_np c m ts
  end.

(** A thread makes its calls one after the other. *)
Fixpoint client (ops : list op) : prog unit :=
  match ops with
  | [] => mret tt
  | o :: ops => _ ← run_op o; client ops
  end.

Section publication.
(** What each Android object is, and its word at the start. *)
Context (cell : Z -> option sort) (word0 : Z -> Z).

(** Arguments of the right sort. *)
Definition typed (o : op) : Prop :=
  match o with
  | MLock m | MTrylock m | MUnlock m | MTimeout m _ | MTimed m _ | MTimedMonotonic m _ => cell m = Some SMutex
  | RRdlock w | RTryrdlock w | RTimedrdlock w _ | RWrlock w | RTrywrlock w | RTimedwrlock w _
  | RRdMonotonic w _ | RWrMonotonic w _ | RUnlock w => cell w = Some SRwlock
  | CBroadcast c | CSignal c => cell c = Some SCond
  | CWait c m | CClockwait c m _ _ | CTimedMonotonic c m _ | CTimed c m _ | CRelative c m _ =>
      cell c = Some SCond /\ cell m = Some SMutex
  end.

(** A static initialiser; a condition is not one that Android shares. *)
Definition low (s : sort) (v : Z) : Prop := 0 <= v <= 0xFFFF /\ (s = SCond -> Z.land v 1 = 0).

(** Bionic keeps the type of a mutex in bits 14 and 15 of its word; 3 is not a type. *)
Inductive bionic_type (v : Z) : mutex_kind -> Prop :=
| type_normal : v / 0x4000 mod 4 = 0 -> bionic_type v NORMAL
| type_recursive : v / 0x4000 mod 4 = 1 -> bionic_type v RECURSIVE
| type_errorcheck : v / 0x4000 mod 4 = 2 -> bionic_type v ERRORCHECK.

(** The host object behind [a]: of the right sort, and for a static mutex of the
    type its initialiser names. *)
Definition backing_ok (a : Z) (s : sort) (o : obj) : Prop :=
  sort_of o = s /\
  (s = SMutex -> word0 a <= 0xFFFF -> (exists k, o = OMutex (AttrKind k)) /\ forall k, bionic_type (word0 a) k -> o = OMutex (AttrKind k)).

Definition cell_ok (e : env) (a : Z) (s : sort) (v : Z) : Prop :=
  (v = word0 a /\ low s v) \/ (host_address v /\ exists o, objs e !! v = Some o /\ backing_ok a s o).

(** Every Android object holds its initial value or its own live host object. *)
Record Inv (e : env) : Prop := {
  inv_cells : forall a s, cell a = Some s -> a <> 0 /\ exists v, mem e !! a = Some v /\ cell_ok e a s v;
  inv_inj : forall a b s s' v, cell a = Some s -> cell b = Some s' ->
    mem e !! a = Some v -> mem e !! b = Some v -> 0xFFFF < v -> a = b;
}.

Definition ext (e e' : env) : Prop := forall p o, objs e !! p = Some o -> objs e' !! p = Some o.

(** What thread [t] relies on while others run. *)
Record Rely (t : nat) (e e' : env) : Prop := {
  rely_inv : Inv e -> Inv e';
  rely_guard : guard e = Some t <-> guard e' = Some t;
  rely_mem : guard e = Some t -> mem e' = mem e;
  rely_pub : forall a s v, cell a = Some s -> mem e !! a = Some v -> 0xFFFF < v -> mem e' !! a = Some v;
  rely_objs : ext e e';
  rely_heap : forall p s, heap e !! p = Some (t, s) ->
    heap e' !! p = Some (t, s) /\ (objs e !! p = None -> objs e' !! p = None);
}.

#[local] Instance Rely_preorder t : PreOrder (Rely t).
Proof.
  split.
  - intros e. split; auto. intros p o; auto.
  - intros e1 e2 e3 [A1 A2 A3 A4 A5 A6] [B1 B2 B3 B4 B5 B6]. split; auto.
    + now rewrite A2.
    + intros Hg. rewrite B3 by now apply A2. auto.
    + eauto.
    + intros p o H. auto.
    + intros p s H. destruct (A6 p s H) as [H1 H2]. destruct (B6 p s H1) as [H3 H4]. auto.
Qed.

Abbreviation okt := (ok Rely).

Lemma ok_seq {A B} t (p : prog A) (f : A -> prog B) Q e :
  okt t p (fun a e' => okt t (f a) Q e') e -> okt t (p ≫= f) Q e.
Proof. apply (ok_bind Rely). Qed.

(** The two stable conditions of a thread: outside and inside the guard. *)
Definition idle (t : nat) (e : env) : Prop := Inv e /\ guard e <> Some t.
Definition held (t : nat) (m : gmap Z Z) (e : env) : Prop := Inv e /\ guard e = Some t /\ mem e = m.

Lemma idle_rely t e e' : idle t e -> Rely t e e' -> idle t e'.
Proof. intros [H1 H2] R. split; [now apply R|]. now rewrite <- (rely_guard _ _ _ R). Qed.

Lemma held_rely t m e e' : held t m e -> Rely t e e' -> held t m e'.
Proof.
  intros (H1 & H2 & H3) R. split; [now apply R|]. split; [now apply R|].
  rewrite (rely_mem _ _ _ R) by done. done.
Qed.

Lemma cell_ok_ext e e' a s v : ext e e' -> cell_ok e a s v -> cell_ok e' a s v.
Proof. intros He [H|(H & o & Ho & Hb)]; [now left|]. right. split; [done|]. exists o. auto. Qed.

Lemma is_obj_ext e e' p s : ext e e' -> is_obj e p s -> is_obj e' p s.
Proof. intros He (o & H & Hs). exists o. auto. Qed.

Lemma ext_trans e1 e2 e3 : ext e1 e2 -> ext e2 e3 -> ext e1 e3.
Proof. intros H1 H2 p o H. auto. Qed.

Hint Resolve idle_rely held_rely cell_ok_ext is_obj_ext rely_objs ext_trans : hybris.

(** Objects known earlier are known later. *)
Ltac later :=
  repeat first
    [ assumption
    | match goal with
      | X : ext ?a ?b |- objs ?b !! _ = _ => apply X; clear X
      | R : Rely _ ?a ?b |- objs ?b !! _ = _ => apply (rely_objs _ _ _ R); clear R
      end ].
Ltac ext_tac := intros ?p ?o ?H; later.

(** Changing nothing but the guard keeps the invariant. *)
Lemma Inv_guard e g : Inv e -> Inv (set_guard g e).
Proof. intros [H1 H2]. now split. Qed.

Lemma Rely_guard t e g :
  guard e <> Some t -> g <> Some t -> Rely t e (set_guard g e).
Proof. intros H1 H2. split; cbn; auto using Inv_guard; [tauto|]. intros p o; auto. Qed.

Lemma Guar_refl t e : Guar Rely t e e.
Proof. intros t' _. reflexivity. Qed.

Lemma ok_lock t Q e :
  idle t e -> (forall m e', held t m e' -> ext e e' -> Q tt e') -> okt t (do Guard_lock) Q e.
Proof.
  intros Hi HQ. apply ok_do. intros e1 R. destruct (idle_rely _ _ _ Hi R) as [HI Hg]. split; [done|].
  intros [] e2 [Hn ->]. split.
  - intros t' Ht. apply Rely_guard; congruence.
  - intros e3 R3. apply (HQ (mem e1)).
    + refine (held_rely _ _ _ _ _ R3). split; [now apply Inv_guard|done].
    + intros p o H. apply (rely_objs _ _ _ R3), (rely_objs _ _ _ R). exact H.
Qed.

Lemma ok_unlock t m Q e :
  held t m e -> (forall e', idle t e' -> ext e e' -> Q tt e') -> okt t (do Guard_unlock) Q e.
Proof.
  intros Hh HQ. apply ok_do. intros e1 R. destruct (held_rely _ _ _ _ Hh R) as (HI & Hg & Hm).
  split; [done|]. intros [] e2 Hst. cbn in Hst. subst e2. split.
  - intros t' Ht. apply Rely_guard; congruence.
  - intros e3 R3. apply HQ.
    + refine (idle_rely _ _ _ _ R3). split; [now apply Inv_guard|done].
    + intros p o H. apply (rely_objs _ _ _ R3), (rely_objs _ _ _ R). exact H.
Qed.

Lemma ok_load t m Q e a s :
  held t m e -> cell a = Some s ->
  (forall v e', held t m e' -> ext e e' -> m !! a = Some v -> cell_ok e' a s v -> Q v e') ->
  okt t (do (Load a)) Q e.
Proof.
  intros Hh Ha HQ. apply ok_do. intros e1 R. pose proof (held_rely _ _ _ _ Hh R) as Hh1.
  destruct Hh1 as (HI & Hg & Hm). destruct (inv_cells _ HI a s Ha) as (_ & v & Hv & Hc).
  split; [cbn; eauto|]. intros r e2 [Hr ->]. 
  assert (Some (A:=Z) v = Some r) as Hrv by (rewrite <- Hv; exact Hr). injection Hrv as <-.
  split; [apply Guar_refl|]. intros e3 R3. apply HQ; [|eauto with hybris|now rewrite <- Hm|eauto with hybris].
  eapply held_rely; [|exact R3]. done.
Qed.

(** Creating the object of an own allocation nobody has published. *)
Lemma creates_guar t m p s o r e e' :
  held t m e -> heap e !! p = Some (t, s) -> objs e !! p = None -> creates p o r e e' ->
  Guar Rely t e e' /\ held t m e' /\ ext e e' /\ (r = 0 -> objs e' !! p = Some o).
Proof.
  intros (HI & Hg & Hm) Hp Ho [[-> ->]|[Hr ->]].
  2: { split; [apply Guar_refl|]. split; [done|]. split; [intros q x; auto|done]. }
  assert (ext e (set_objs (<[p:=o]>) e)) as He.
  { intros q x Hq. cbn. rewrite lookup_insert_ne by congruence. done. }
  assert (Inv (set_objs (<[p:=o]>) e)) as HI'.
  { split; [|apply HI]. intros a s' Ha. destruct (inv_cells _ HI a s' Ha) as (H0 & v & Hv & Hc).
    split; [done|]. exists v. eauto with hybris. }
  split; [|split; [done|split; [done|]]].
  - intros t' Ht. split; cbn; auto.
    intros q s' Hq. split; [done|]. intros Hn. rewrite lookup_insert_ne by congruence. done.
  - intros _. cbn. apply lookup_insert_eq.
Qed.

Lemma ok_malloc t m Q e s :
  held t m e -> (forall e', held t m e' -> ext e e' -> Q 0 e') ->
  (forall p e', held t m e' -> ext e e' -> host_address p -> heap e' !! p = Some (t, s) ->
     objs e' !! p = None -> (forall b s', cell b = Some s' -> m !! b <> Some p) -> Q p e') ->
  okt t (do (Malloc s)) Q e.
Proof.
  intros Hh H0 HQ. apply ok_do. intros e1 R. pose proof (held_rely _ _ _ _ Hh R) as Hh1.
  split; [done|]. intros r e2 Hst. change (ans (Malloc s)) with Z in *. cbn in Hst.
  destruct Hst as [[-> ->]|(Hr & Hf & Ho & ->)].
  - split; [apply Guar_refl|]. intros e3 R3. apply H0; eauto with hybris.
  - assert (Guar Rely t e1 (set_heap (<[r:=(t, s)]>) e1)) as HG.
    { intros t' Ht. split; cbn; auto.
      - intros HI. destruct HI. now split.
      - intros p o; auto.
      - intros p s' Hp. split; [|auto]. rewrite lookup_insert_ne by congruence. done. }
    split; [done|]. intros e3 R3. destruct Hh1 as (HI & Hg & Hm).
    assert (held t m (set_heap (<[r:=(t, s)]>) e1)) as Hh2 by (split; [destruct HI; now split|done]).
    apply HQ; eauto with hybris.
    + intros p o Hp. apply (rely_objs _ _ _ R3), (rely_objs _ _ _ R). exact Hp.
    + apply (rely_heap _ _ _ R3). cbn. apply lookup_insert_eq.
    + apply (rely_heap _ _ _ R3 r s); [|done]. cbn. apply lookup_insert_eq.
    + intros b s' Hb Hmb. destruct (inv_cells _ HI b s' Hb) as (_ & v & Hv & Hc). rewrite Hm in Hv. simplify_eq.
      unfold host_address in Hr. destruct Hc as [[_ [Hc _]]|(_ & o & Hoo & _)]; [lia|congruence].
Qed.

(** Publishing the host object of a cell that still holds its initialiser. *)
Lemma ok_store t m Q e a s v p o :
  held t m e -> cell a = Some s -> m !! a = Some v -> v <= 0xFFFF -> host_address p ->
  objs e !! p = Some o -> backing_ok a s o -> (forall b s', cell b = Some s' -> m !! b <> Some p) ->
  (forall e', held t (<[a := p]> m) e' -> ext e e' -> Q tt e') ->
  okt t (do (Store a p)) Q e.
Proof.
  intros Hh Ha Hv Hlow Hp Ho Hb Hn HQ. apply ok_do. intros e1 R.
  pose proof (held_rely _ _ _ _ Hh R) as (HI & Hg & Hm). rewrite <- Hm in Hv.
  split; [cbn; eauto|]. intros [] e2 Hst. cbn in Hst. subst e2.
  assert (Inv (set_mem (<[a:=p]>) e1)) as HI'.
  { split.
    - intros b s' Hb'. destruct (inv_cells _ HI b s' Hb') as (H0 & w & Hw & Hc). split; [done|]. cbn.
      destruct (decide (a = b)) as [->|Hne].
      + exists p. rewrite lookup_insert_eq. split; [done|]. simplify_eq. right. split; [done|]. exists o.
        split; [|done]. now apply (rely_objs _ _ _ R).
      + exists w. rewrite lookup_insert_ne by done. auto.
    - cbn. intros b c s1 s2 w Hb1 Hc1. destruct (decide (a = b)) as [<-|], (decide (a = c)) as [<-|]; [done| | |].
      + rewrite lookup_insert_eq, lookup_insert_ne by done. intros [= <-] Hw.
        destruct (Hn c s2 Hc1). now rewrite <- Hm.
      + rewrite lookup_insert_eq, lookup_insert_ne by done. intros Hw [= <-].
        destruct (Hn b s1 Hb1). now rewrite <- Hm.
      + rewrite !lookup_insert_ne by done. intros. eapply (inv_inj _ HI); eauto. }
  split.
  - intros t' Ht. split; cbn; auto; try congruence.
    + intros b s' w Hb' Hw Hbig. destruct (decide (a = b)) as [->|]; [|now rewrite lookup_insert_ne].
      simplify_eq. lia.
    + intros q x; auto.
  - intros e3 R3. apply HQ.
    + eapply held_rely; [|exact R3]. split; [done|]. split; [done|]. cbn. now rewrite Hm.
    + intros q x Hq. apply (rely_objs _ _ _ R3), (rely_objs _ _ _ R). exact Hq.
Qed.

(** A call that leaves the state alone. *)
Lemma ok_pure t c (Q : ans c -> env -> Prop) e :
  idle t e -> (forall e1 r e2, step_call t c e1 r e2 -> e2 = e1) ->
  (forall e1, idle t e1 -> ext e e1 -> safe_call t c e1) ->
  (forall r e', idle t e' -> ext e e' -> Q r e') -> okt t (do c) Q e.
Proof.
  intros Hi Hp Hs HQ. apply ok_do. intros e1 R. pose proof (idle_rely _ _ _ Hi R) as Hi1.
  split; [apply Hs; eauto with hybris|]. intros r e2 Hst. rewrite (Hp _ _ _ Hst).
  split; [apply Guar_refl|]. intros e3 R3. apply HQ; eauto with hybris.
Qed.

Lemma ok_ret_idle {A} t (a : A) (Q : A -> env -> Prop) e :
  idle t e -> (forall e', idle t e' -> ext e e' -> Q a e') -> okt t (mret a) Q e.
Proof. intros Hi HQ. apply ok_ret. intros e' R. apply HQ; eauto with hybris. Qed.

Lemma ok_read t Q e a s :
  idle t e -> cell a = Some s ->
  (forall v e', idle t e' -> ext e e' -> cell_ok e' a s v -> Q v e') ->
  okt t (hybris_read_sync_value a) Q e.
Proof.
  intros Hi Ha HQ. unfold hybris_read_sync_value.
  apply ok_seq, ok_lock; [done|]. intros m e1 H1 X1.
  apply ok_seq, (ok_load _ m _ _ _ s); [done..|]. intros v e2 H2 X2 Hm Hc.
  apply ok_seq, (ok_unlock _ m); [done|]. intros e3 H3 X3.
  apply ok_ret_idle; [done|]. intros e4 H4 X4. apply HQ; eauto with hybris.
Qed.

Lemma cell_ok_big e a s v : cell_ok e a s v -> 0xFFFF < v -> is_obj e v s.
Proof. intros [[_ [H _]]|(_ & o & Ho & Hb & _)] Hv; [lia|]. exists o. auto. Qed.

Lemma cell_not_shm e a s v : cell_ok e a s v -> Shm.hybris_is_pointer_in_shm v = false.
Proof. intros [[_ [H _]]|[[_ H] _]]; apply host_not_shm; lia. Qed.

Lemma kind_u32 v : 0 <= v <= 0xFFFF -> u32 v = v.
Proof. intros H. apply wrap_small. unfold in_range. lia. Qed.

(** Allocating and initialising a candidate under the guard; failures abort. *)
Lemma ok_alloc_init t m e s o (init : Z -> prog Z) (K : Z -> prog Z) Q :
  held t m e ->
  (forall p e Q, (forall e1, Rely t e e1 -> room t e1 p s /\ forall r e2, creates p o r e1 e2 ->
       Guar Rely t e1 e2 /\ forall e3, Rely t e2 e3 -> Q r e3) -> okt t (init p) Q e) ->
  (forall p e', held t m e' -> ext e e' -> host_address p -> objs e' !! p = Some o ->
     (forall b s', cell b = Some s' -> m !! b <> Some p) -> okt t (K p) Q e') ->
  okt t (candidate ← do (Malloc s);
         if candidate =? 0 then Die else
         error ← init candidate;
         if negb (error =? 0) then Die else K candidate) Q e.
Proof.
  intros H0 Hinit HK. apply ok_seq, (ok_malloc _ m); [done|intros; intros ? ?; exact I|].
  intros p e1 H1 X1 Hp Hh Ho Hn. assert (host_address p) as [Hp1 _] by done. destruct (Z.eqb_spec p 0); [lia|].
  apply ok_seq, Hinit. intros e2 R2. pose proof (held_rely _ _ _ _ H1 R2) as H2.
  destruct (rely_heap _ _ _ R2 p s Hh) as [Hh2 Ho2]. split; [split; [auto|now left]|]. intros r e3 Hst.
  destruct (creates_guar _ _ _ _ _ _ _ _ H2 Hh2 (Ho2 Ho) Hst) as (G & H3 & X3 & Hr). split; [done|].
  intros e4 R4. destruct (Z.eqb_spec r 0) as [->|]; [|intros ? ?; exact I]. specialize (Hr eq_refl).
  apply HK; eauto with hybris; [ext_tac | later].
Qed.

(** Leaving the guard with a value. *)
Lemma ok_leave t m e (v : Z) Q :
  held t m e -> (forall e', idle t e' -> ext e e' -> Q v e') ->
  okt t (mret v) (fun value e' => okt t (_ ← do Guard_unlock; mret value) Q e') e.
Proof.
  intros H0 HQ. apply ok_ret. intros e1 R1. apply ok_seq. eapply ok_unlock; [eauto with hybris|].
  intros e2 H2 X2. apply ok_ret_idle; [done|]. intros e3 H3 X3. apply HQ; [done|ext_tac].
Qed.

(** Publishing an initialised candidate and leaving the guard. *)
Lemma ok_publish t m e a s v p o Q :
  held t m e -> cell a = Some s -> m !! a = Some v -> v <= 0xFFFF -> host_address p ->
  objs e !! p = Some o -> backing_ok a s o -> (forall b s', cell b = Some s' -> m !! b <> Some p) ->
  (forall e', idle t e' -> ext e e' -> host_address p -> is_obj e' p s -> Q p e') ->
  okt t (_ ← do (Store a p); mret p) (fun value e' => okt t (_ ← do Guard_unlock; mret value) Q e') e.
Proof.
  intros H0 Ha Hm Hv Hp Ho Hb Hn HQ. apply ok_seq, (ok_store _ m _ _ _ s v p o); auto.
  intros e1 H1 X1. eapply ok_leave; [exact H1|]. intros e2 H2 X2. apply HQ; [done|ext_tac|done|].
  exists o. split; [later|apply Hb].
Qed.

(** The stored value is kept when it is a host object already. *)
Lemma ok_keep t m e a s v Q :
  held t m e -> cell_ok e a s v -> 0xFFFF < v ->
  (forall p e', idle t e' -> ext e e' -> host_address p -> is_obj e' p s -> Q p e') ->
  okt t (mret v) (fun value e' => okt t (_ ← do Guard_unlock; mret value) Q e') e.
Proof.
  intros H0 Hc Hv HQ. eapply ok_leave; [exact H0|]. intros e1 H1 X1. apply HQ; auto.
  { destruct Hc as [[_ [Hc _]]|[Hc _]]; [lia|done]. }
  apply cell_ok_big with a; [|done]. eauto with hybris.
Qed.

(** The bits that the code tests are the type field. *)
Lemma attr_names_type v k : bionic_type v k -> hybris_set_mutex_attr v = k.
Proof.
  assert (forall b, 0 <= b -> negb (Z.land v (2 ^ b) =? 0) = Z.testbit v b) as Hbit.
  { intros b Hb. destruct (Z.testbit v b) eqn:E.
    - apply negb_true_iff, Z.eqb_neq. intros H. apply (f_equal (fun x => Z.testbit x b)) in H.
      rewrite Z.land_spec, Z.pow2_bits_true, E, Z.bits_0 in H by done. discriminate.
    - apply negb_false_iff, Z.eqb_eq, Z.bits_inj'. intros i Hi. rewrite Z.land_spec, Z.bits_0, Z.pow2_bits_eqb by done.
      destruct (Z.eqb_spec b i) as [<-|]; [now rewrite E|apply andb_false_r]. }
  assert (v / 0x4000 mod 4 = Z.b2z (Z.testbit v 14) + 2 * Z.b2z (Z.testbit v 15)) as Hf.
  { rewrite !Z.testbit_spec' by done. change (2 ^ 14) with 0x4000. change (2 ^ 15) with (0x4000 * 2). rewrite <- Z.div_div by done.
    change 4 with (2 * 2). rewrite (Z.rem_mul_r (v / 0x4000) 2 2) by done. lia. }
  intros Hk. unfold hybris_set_mutex_attr, ANDROID_PTHREAD_RECURSIVE_MUTEX_INITIALIZER, ANDROID_PTHREAD_ERRORCHECK_MUTEX_INITIALIZER.
  change 0x4000 with (2 ^ 14). change 0x8000 with (2 ^ 15). rewrite !Hbit by done.
  destruct Hk as [H|H|H]; rewrite Hf in H; destruct (Z.testbit v 14), (Z.testbit v 15); first [reflexivity|discriminate].
Qed.

Lemma backing_static a s v o e :
  cell_ok e a s v -> v <= 0xFFFF -> sort_of o = s ->
  (s = SMutex -> o = OMutex (AttrKind (hybris_set_mutex_attr (u32 v)))) -> backing_ok a s o.
Proof.
  intros Hc Hv Hs Ho. split; [done|]. intros E _. rewrite (Ho E). split; [eauto|]. intros k Hk.
  destruct Hc as [[-> [Hc _]]|[[Hc _] _]]; [|lia]. rewrite kind_u32 by done. now rewrite (attr_names_type _ k).
Qed.

(** The three publication functions return the cell's host object, whoever made it. *)
Lemma ok_static_mutex t Q e a :
  idle t e -> cell a = Some SMutex ->
  (forall p e', idle t e' -> ext e e' -> is_obj e' p SMutex -> Q p e') ->
  okt t (hybris_get_static_mutex a) Q e.
Proof.
  intros Hi Ha HQ. unfold hybris_get_static_mutex, ANDROID_TOP_ADDR_VALUE_MUTEX.
  apply ok_seq, ok_lock; [done|]. intros m e1 H1 X1.
  apply ok_seq, (ok_load _ m _ _ _ SMutex); [done..|]. intros v e2 H2 X2 Hm Hc.
  apply ok_seq. destruct (Z.leb_spec v 0xFFFF) as [Hv|Hv].
  - apply (ok_alloc_init t m e2 SMutex (OMutex (AttrKind (hybris_set_mutex_attr (u32 v))))
      (fun p => do (Mutex_init p _))); [done|intros; now apply ok_do|].
    intros p e3 H3 X3 Hp Ho Hn. eapply (ok_publish t m _ _ SMutex v); eauto using backing_static.
    intros. apply HQ; [done|ext_tac|done].
  - eapply ok_keep; eauto. intros. apply HQ; [done|ext_tac|done].
Qed.

Lemma ok_static_cond t Q e a :
  idle t e -> cell a = Some SCond ->
  (forall p e', idle t e' -> ext e e' -> is_obj e' p SCond -> Q p e') ->
  okt t (hybris_get_static_cond a) Q e.
Proof.
  intros Hi Ha HQ. unfold hybris_get_static_cond, ANDROID_TOP_ADDR_VALUE_COND.
  apply ok_seq, ok_lock; [done|]. intros m e1 H1 X1.
  apply ok_seq, (ok_load _ m _ _ _ SCond); [done..|]. intros v e2 H2 X2 Hm Hc.
  apply ok_seq. destruct (Z.leb_spec v 0xFFFF) as [Hv|Hv].
  - apply (ok_alloc_init t m e2 SCond (OCond 0) (fun p => do (Cond_init p 0))); [done|intros; now apply ok_do|].
    intros p e3 H3 X3 Hp Ho Hn. eapply (ok_publish t m _ _ SCond v); eauto using backing_static.
    + eapply backing_static; eauto; done.
    + intros. apply HQ; [done|ext_tac|done].
  - eapply ok_keep; eauto. intros. apply HQ; [done|ext_tac|done].
Qed.

Lemma ok_static_rwlock t Q e a :
  idle t e -> cell a = Some SRwlock ->
  (forall p e', idle t e' -> ext e e' -> host_address p -> is_obj e' p SRwlock -> Q p e') ->
  okt t (hybris_get_static_rwlock_value a) Q e.
Proof.
  intros Hi Ha HQ. unfold hybris_get_static_rwlock_value, ANDROID_TOP_ADDR_VALUE_RWLOCK.
  apply ok_seq, ok_lock; [done|]. intros m e1 H1 X1.
  apply ok_seq, (ok_load _ m _ _ _ SRwlock); [done..|]. intros v e2 H2 X2 Hm Hc.
  apply ok_seq. destruct (Z.leb_spec v 0xFFFF) as [Hv|Hv].
  - apply ok_seq. unfold hybris_alloc_init_rwlock.
    apply (ok_alloc_init t m e2 SRwlock (ORwlock 0) (fun p => do (Rwlock_init p 0))); [done|intros; now apply ok_do|].
    intros p e3 H3 X3 Hp Ho Hn. apply ok_ret. intros e4 R4.
    eapply (ok_publish t m _ _ SRwlock v p (ORwlock 0)); eauto with hybris.
    + later.
    + eapply backing_static; eauto; done.
    + intros. apply HQ; [done|ext_tac|done|done].
  - eapply ok_keep; eauto. intros. apply HQ; [done|ext_tac|done|done].
Qed.

(** ** The hooks *)

Abbreviation fin := (fun t (_ : Z) e' => idle t e').

Lemma ok_mutex_op t o p e : idle t e -> is_obj e p SMutex -> okt t (do (Mutex_op o p)) (fin t) e.
Proof.
  intros Hi Hp. apply ok_pure; auto.
  intros e1 [_ H1] X. split; [eauto with hybris|done].
Qed.

Lemma ok_cond_op t o p e : idle t e -> is_obj e p SCond -> okt t (do (Cond_op o p)) (fin t) e.
Proof.
  intros Hi Hp. apply ok_pure; auto.
  intros e1 [_ H1] X. split; [eauto with hybris|done].
Qed.

Lemma ok_rwlock_op t o p e : idle t e -> is_obj e p SRwlock -> okt t (do (Rwlock_op o p)) (fin t) e.
Proof.
  intros Hi Hp. apply ok_pure; auto.
  intros e1 [_ H1] X. split; [eauto with hybris|done].
Qed.

Lemma ok_cond_wait t o p m e :
  idle t e -> is_obj e p SCond -> is_obj e m SMutex -> okt t (do (Cond_wait o p m)) (fin t) e.
Proof.
  intros Hi Hp Hm. apply ok_pure; auto.
  intros e1 [_ H1] X. split; [eauto with hybris|]. split; [eauto with hybris|done].
Qed.

Lemma ok_idle {A} t (a : A) e : idle t e -> okt t (mret a) (fun _ e' => idle t e') e.
Proof. intros H. apply ok_ret_idle; auto. Qed.

(** The value read from a cell, resolved to the host object. *)
Lemma ok_pick_mutex t e a v (K : Z -> prog Z) Q :
  idle t e -> cell a = Some SMutex -> cell_ok e a SMutex v ->
  (forall p e', idle t e' -> ext e e' -> is_obj e' p SMutex -> okt t (K p) Q e') ->
  okt t (r ← (if v <=? ANDROID_TOP_ADDR_VALUE_MUTEX then hybris_get_static_mutex a else mret v); K r) Q e.
Proof.
  intros Hi Ha Hc HK. apply ok_seq. unfold ANDROID_TOP_ADDR_VALUE_MUTEX. destruct (Z.leb_spec v 0xFFFF).
  - apply ok_static_mutex; auto.
  - apply ok_ret_idle; [done|]. intros e' H1 X. apply HK; auto. apply cell_ok_big with a; [|done].
    eauto with hybris.
Qed.

Lemma ok_pick_cond t e a v (K : Z -> prog Z) Q :
  idle t e -> cell a = Some SCond -> cell_ok e a SCond v ->
  (forall p e', idle t e' -> ext e e' -> is_obj e' p SCond -> okt t (K p) Q e') ->
  okt t (r ← (if v <=? ANDROID_TOP_ADDR_VALUE_COND then hybris_get_static_cond a else mret v); K r) Q e.
Proof.
  intros Hi Ha Hc HK. apply ok_seq. unfold ANDROID_TOP_ADDR_VALUE_COND. destruct (Z.leb_spec v 0xFFFF).
  - apply ok_static_cond; auto.
  - apply ok_ret_idle; [done|]. intros e' H1 X. apply HK; auto. apply cell_ok_big with a; [|done].
    eauto with hybris.
Qed.

Lemma ok_translate t e a s v (K : Z -> prog Z) Q :
  idle t e -> cell_ok e a s v ->
  (forall e', idle t e' -> ext e e' -> cell_ok e' a s v -> okt t (K v) Q e') ->
  okt t (r ← translate v; K r) Q e.
Proof.
  intros Hi Hc HK. apply ok_seq. unfold translate. rewrite (cell_not_shm _ _ _ _ Hc).
  apply ok_ret_idle; [done|]. intros e' H1 X. apply HK; eauto with hybris.
Qed.

(** A condition cell is never taken for one shared with Android. *)
Lemma cell_not_shared e a v : cell_ok e a SCond v -> hybris_check_android_shared_cond v = false.
Proof.
  intros Hc. unfold hybris_check_android_shared_cond, ANDROID_TOP_ADDR_VALUE_COND, ANDROID_COND_SHARED_MASK,
    Shm.HYBRIS_SHM_MASK_TOP. destruct Hc as [[_ [Hv Hl]]|[[H1 H2] _]].
  - rewrite Hl by done. rewrite andb_false_r. apply Z.ltb_ge. lia.
  - destruct (Z.leb_spec v 0xFFFF); [lia|]. apply Z.ltb_ge. lia.
Qed.

Lemma ok_resolve_rwlock t e a (K : Z -> prog Z) Q :
  idle t e -> cell a = Some SRwlock ->
  (forall p e', idle t e' -> ext e e' -> host_address p -> is_obj e' p SRwlock -> okt t (K p) Q e') ->
  okt t (r ← hybris_set_realrwlock a; K r) Q e.
Proof.
  intros Hi Ha HK. apply ok_seq. unfold hybris_set_realrwlock. apply ok_seq, ok_static_rwlock; auto.
  intros p e1 H1 X1 Hp Ho. unfold translate. assert (host_address p) as [_ Hp2] by done.
  rewrite host_not_shm by done. apply ok_ret_idle; [done|]. intros e2 H2 X2.
  apply HK; [done|ext_tac|done|eauto with hybris].
Qed.

Lemma ok_mutex_lock t e a o :
  idle t e -> cell a = Some SMutex -> o = MLock a \/ o = MTrylock a \/ o = MUnlock a ->
  okt t (run_op o) (fin t) e.
Proof.
  intros Hi Ha Ho. assert (a <> 0) as Hnz by (destruct Hi as [HI _]; apply (inv_cells _ HI a SMutex Ha)).
  destruct Ho as [->|[->| ->]]; cbn [run_op];
    unfold _hybris_hook_pthread_mutex_lock, _hybris_hook_pthread_mutex_trylock, _hybris_hook_pthread_mutex_unlock;
    try rewrite (proj2 (Z.eqb_neq a 0) Hnz);
    apply ok_seq; apply (ok_read _ _ _ _ SMutex); auto; intros v e1 H1 X1 Hc;
    (destruct (hybris_check_android_shared_mutex v); [now apply ok_idle|]).
  1,2: eapply ok_translate; eauto; intros e2 H2 X2 Hc2; apply ok_pick_mutex; auto; intros; now apply ok_mutex_op.
  unfold ANDROID_TOP_ADDR_VALUE_MUTEX. destruct (Z.leb_spec v 0xFFFF) as [|Hv]; [now apply ok_idle|].
  eapply ok_translate; eauto. intros e2 H2 X2 Hc2. apply ok_mutex_op; eauto using cell_ok_big.
Qed.

Lemma ok_clock t c (Q : timespec + Z -> env -> Prop) e :
  idle t e -> (forall r e', idle t e' -> ext e e' -> Q r e') -> okt t (do (Clock_gettime c)) Q e.
Proof. intros Hi HQ. apply ok_pure; auto. intros; exact I. Qed.

Lemma ok_mutex_timed t e a ms ts clk :
  idle t e -> cell a = Some SMutex ->
  okt t (_hybris_hook_pthread_mutex_lock_timeout_np a ms) (fin t) e /\
  okt t (mutex_timedlock_clock a ts clk) (fin t) e.
Proof.
  intros Hi Ha. assert (a <> 0) as Hnz by (destruct Hi as [HI _]; apply (inv_cells _ HI a SMutex Ha)).
  unfold _hybris_hook_pthread_mutex_lock_timeout_np, mutex_timedlock_clock.
  rewrite (proj2 (Z.eqb_neq a 0) Hnz).
  split; apply ok_seq; apply (ok_read _ _ _ _ SMutex); auto; intros v e1 H1 X1 Hc;
    (destruct (hybris_check_android_shared_mutex v); [now apply ok_idle|]);
    rewrite (cell_not_shm _ _ _ _ Hc); apply ok_pick_mutex; auto; intros p e2 H2 X2 Hp.
  - apply ok_seq, ok_clock; [done|]. intros [tv|errno] e3 H3 X3; [|now apply ok_idle].
    apply ok_seq. eapply ok_mono; [|apply ok_mutex_op; eauto with hybris]. intros r e4 H4. now apply ok_idle.
  - destruct ts; now apply ok_mutex_op.
Qed.

Lemma ok_wait_with t e op c m :
  idle t e -> cell c = Some SCond -> cell m = Some SMutex -> okt t (wait_with op c m) (fin t) e.
Proof.
  intros Hi Hc Hm. unfold wait_with.
  apply ok_seq, (ok_read _ _ _ _ SCond); auto. intros cv e1 H1 X1 Hcv.
  apply ok_seq, (ok_read _ _ _ _ SMutex); auto. intros mv e2 H2 X2 Hmv.
  assert (cell_ok e2 c SCond cv) as Hcv2 by eauto with hybris.
  rewrite (cell_not_shared _ _ _ Hcv2). cbn [orb].
  destruct (hybris_check_android_shared_mutex mv); [now apply ok_idle|].
  eapply ok_translate; eauto. intros e3 H3 X3 Hcv3. apply ok_pick_cond; auto. intros p e4 H4 X4 Hp.
  assert (cell_ok e4 m SMutex mv) as Hmv4 by eauto with hybris.
  eapply ok_translate; eauto. intros e5 H5 X5 Hmv5. apply ok_pick_mutex; auto. intros q e6 H6 X6 Hq.
  apply ok_cond_wait; eauto with hybris.
Qed.

Lemma ok_signal t e c o :
  idle t e -> cell c = Some SCond -> o = CBroadcast c \/ o = CSignal c -> okt t (run_op o) (fin t) e.
Proof.
  intros Hi Hc Ho. destruct Ho as [->| ->]; cbn [run_op];
    unfold _hybris_hook_pthread_cond_broadcast, _hybris_hook_pthread_cond_signal;
    apply ok_seq; apply (ok_read _ _ _ _ SCond); auto; intros cv e1 H1 X1 Hcv;
    rewrite (cell_not_shared _ _ _ Hcv); eapply ok_translate; eauto; intros e3 H3 X3 Hcv3;
    apply ok_pick_cond; auto; intros; now apply ok_cond_op.
Qed.

Lemma ok_relative t e c m ts :
  idle t e -> cell c = Some SCond -> cell m = Some SMutex ->
  okt t (_hybris_hook_pthread_cond_timedwait_relative_np c m ts) (fin t) e.
Proof.
  intros Hi Hc Hm. unfold _hybris_hook_pthread_cond_timedwait_relative_np.
  destruct ts as [rel|]; [|now apply ok_idle].
  destruct (_ || _ || _); [now apply ok_idle|]. apply ok_seq, ok_clock; [done|].
  intros [now|errno] e1 H1 X1; [|now apply ok_idle].
  destruct (relative_deadline now rel); [|now apply ok_idle]. now apply ok_wait_with.
Qed.

Lemma ok_rwlock_unlock t e a :
  idle t e -> cell a = Some SRwlock -> okt t (_hybris_hook_pthread_rwlock_unlock a) (fin t) e.
Proof.
  intros Hi Ha. unfold _hybris_hook_pthread_rwlock_unlock. apply ok_seq, (ok_read _ _ _ _ SRwlock); auto.
  intros v e1 H1 X1 Hc. unfold ANDROID_TOP_ADDR_VALUE_RWLOCK.
  destruct (Z.leb_spec v 0xFFFF); [now apply ok_idle|]. eapply ok_translate; eauto.
  intros e2 H2 X2 Hc2. apply ok_rwlock_op; eauto using cell_ok_big.
Qed.

(** The hooks that resolve their rwlock and make one host call. *)
Ltac rwlock_hook ts :=
  apply ok_resolve_rwlock; [assumption..|]; intros ?p ?e ?H ?X [? ?] ?Ho;
  try (match goal with |- context [?q =? 0] => destruct (Z.eqb_spec q 0); [lia|] end);
  try destruct ts; apply ok_rwlock_op; assumption.

Lemma ok_run_op t e o : idle t e -> typed o -> okt t (run_op o) (fin t) e.
Proof.
  intros Hi Ht. destruct o; cbn [typed] in Ht.
  1-3: eapply ok_mutex_lock; eauto.
  - exact (proj1 (ok_mutex_timed t e m msecs None CLOCK_REALTIME Hi Ht)).
  - exact (proj2 (ok_mutex_timed t e m 0 ts CLOCK_REALTIME Hi Ht)).
  - exact (proj2 (ok_mutex_timed t e m 0 ts CLOCK_MONOTONIC Hi Ht)).
  - rwlock_hook tt.
  - rwlock_hook tt.
  - rwlock_hook tt.
  - rwlock_hook tt.
  - rwlock_hook tt.
  - rwlock_hook tt.
  - rwlock_hook ts.
  - rwlock_hook ts.
  - now apply ok_rwlock_unlock.
  - eapply ok_signal; eauto.
  - eapply ok_signal; eauto.
  - now apply ok_wait_with.
  - now apply ok_wait_with.
  - now apply ok_wait_with.
  - now apply ok_wait_with.
  - now apply ok_relative.
Qed.

Lemma ok_client t e ops : idle t e -> Forall typed ops -> okt t (client ops) (fun _ _ => True) e.
Proof.
  intros Hi Ht. revert e Hi. induction Ht as [|o ops Ho Ht IH]; intros e Hi; [now apply ok_ret|].
  cbn [client]. apply ok_seq. eapply ok_mono; [|now apply ok_run_op]. intros r e' H. now apply IH.
Qed.

Lemma clients_ok opss e :
  Inv e -> guard e = None -> Forall (Forall typed) opss ->
  forall i p, (client <$> opss) !! i = Some p -> okt i p (fun _ _ => True) e.
Proof.
  intros HI Hg Ht i p Hi. rewrite list_lookup_fmap in Hi. destruct (opss !! i) as [ops|] eqn:E; [|done].
  cbn in Hi. simplify_eq. apply ok_client; [split; [done|congruence]|]. exact (Forall_lookup_1 _ _ _ _ Ht E).
Qed.

(** Everything an interleaving of clients preserves. *)
Lemma clients_reach opss e s :
  Inv e -> guard e = None -> Forall (Forall typed) opss -> rtc pstep (client <$> opss, e) s ->
  all_safe s /\ Inv (snd s) /\
  forall s', rtc pstep s s' -> Rely (length opss) (snd s) (snd s').
Proof.
  intros HI Hg Ht Hs.
  destruct (pool_safe Rely _ _ _ (clients_ok opss e HI Hg Ht) Hs) as (Hsafe & Hok & Hl & HR).
  split; [done|]. split; [now apply HR|]. intros s' Hs'. destruct s as [ts1 e1]. cbn [fst snd] in *.
  destruct (pool_safe Rely ts1 e1 s' Hok Hs') as (_ & _ & _ & HR'). rewrite Hl, length_fmap in HR'. done.
Qed.
End publication.

(** C2: the lock, unlock, wait, signal and timed hooks on private objects that no
    thread initialises or destroys meanwhile: each object starts as a static
    initialiser or as a live host object, none is a handle of the shared-memory
    pool, and no condition has Android's process-shared bit (init, destroy,
    pool handles and shared conditions are outside this statement).  Threads
    calling them concurrently never hand libc anything but a live host object of the right kind: whatever the
    interleaving and whatever the host's answers, the next call of every thread
    is defined, so no object is used before it is initialised, none is
    initialised twice, the publication guard is never retaken by its holder, and
    no host lock or wait runs while it is held. *)
Theorem sync_hooks_safe cell word0 opss e s :
  Inv cell word0 e -> guard e = None -> Forall (Forall (typed cell)) opss ->
  rtc pstep (client <$> opss, e) s -> all_safe s.
Proof. intros HI Hg Ht Hs. apply (clients_reach cell word0 opss e s HI Hg Ht Hs). Qed.

(** Two threads locking one recursive static mutex. *)
Definition demo_cell (a : Z) : option sort := if a =? 0x1000 then Some SMutex else None.
Definition demo_word (a : Z) : Z := 0x4000.
Definition demo_env (w : Z) (h : gmap Z (nat * sort)) (o : gmap Z obj) : env :=
  Env {[0x1000 := w]} h o None (Shm.Os [] None) (Shm.Proc 0 (-1) None 0).
Definition demo : list (list op) := [[MLock 0x1000]; [MLock 0x1000; MUnlock 0x1000]].

Lemma demo_inv : Inv demo_cell demo_word (demo_env 0x4000 ∅ ∅).
Proof.
  split.
  - intros a s. unfold demo_cell. destruct (Z.eqb_spec a 0x1000) as [->|]; intros; simplify_eq.
    split; [done|]. exists 0x4000. split; [reflexivity|]. left. split; [done|]. split; [lia|done].
  - intros a b s s' v. unfold demo_cell.
    destruct (Z.eqb_spec a 0x1000) as [->|], (Z.eqb_spec b 0x1000) as [->|]; intros; simplify_eq. done.
Qed.

Lemma demo_typed : Forall (Forall (typed demo_cell)) demo.
Proof. repeat constructor. Qed.

(** One step of thread [i] by call [c], answered [r]. *)
Ltac go i c r := eapply rtc_l; [eapply (pstep_call _ _ i c _ r); [reflexivity|] | cbn].

(** Thread 1 publishes the mutex and comes to the host's lock. *)
Lemma demo_run :
  exists ts e, rtc pstep (client <$> demo, demo_env 0x4000 ∅ ∅) (ts, e) /\
    mem e = {[0x1000 := 0x20000]} /\ guard e = None /\
    objs e = {[0x20000 := OMutex (AttrKind RECURSIVE)]}.
Proof.
  eexists _, _. split.
  - go 1%nat Guard_lock tt; [split; reflexivity|]. go 1%nat (Load 0x1000) 0x4000; [split; reflexivity|].
    go 1%nat Guard_unlock tt; [reflexivity|].
    go 1%nat Guard_lock tt; [split; reflexivity|]. go 1%nat (Load 0x1000) 0x4000; [split; reflexivity|].
    go 1%nat (Malloc SMutex) 0x20000;
      [right; split; [split; reflexivity|]; split; [reflexivity|]; split; reflexivity|].
    go 1%nat (Mutex_init 0x20000 (AttrKind RECURSIVE)) 0; [left; split; reflexivity|].
    go 1%nat (Store 0x1000 0x20000) tt; [reflexivity|]. go 1%nat Guard_unlock tt; [reflexivity|].
    apply rtc_refl.
  - cbn. split; [reflexivity|]. split; reflexivity.
Qed.

Lemma sync_hooks_safe_witness :
  exists s, rtc pstep (client <$> demo, demo_env 0x4000 ∅ ∅) s /\ all_safe s.
Proof.
  destruct demo_run as (ts & e & H & _). exists (ts, e). split; [exact H|].
  exact (sync_hooks_safe demo_cell demo_word demo (demo_env 0x4000 ∅ ∅) (ts, e) demo_inv eq_refl demo_typed H).
Defined.

(** C3: a static object is published once, under the same conditions (private
    objects, none initialised, destroyed or process-shared meanwhile).  In every reachable state each Android
    word is still its initialiser or the address of its own host object - for a
    mutex one of the type that bits 14 and 15 of the initialiser name - no two Android objects share a
    host object, and a published word is the same in every later state, so all
    threads that ever lock the object lock the same host object. *)
Theorem static_publication_unique cell word0 opss e s s' :
  Inv cell word0 e -> guard e = None -> Forall (Forall (typed cell)) opss ->
  rtc pstep (client <$> opss, e) s -> rtc pstep s s' ->
  Inv cell word0 (snd s) /\
  forall a k v, cell a = Some k -> mem (snd s) !! a = Some v -> 0xFFFF < v -> mem (snd s') !! a = Some v.
Proof.
  intros HI Hg Ht Hs Hs'. destruct (clients_reach cell word0 opss e s HI Hg Ht Hs) as (_ & H1 & H2).
  split; [done|]. intros a k v Ha Hv Hbig. exact (rely_pub _ _ _ _ _ (H2 s' Hs') a k v Ha Hv Hbig).
Qed.

Lemma static_publication_unique_witness :
  exists s, rtc pstep (client <$> demo, demo_env 0x4000 ∅ ∅) s /\ mem (snd s) !! 0x1000 = Some 0x20000 /\
    forall s', rtc pstep s s' -> mem (snd s') !! 0x1000 = Some 0x20000.
Proof.
  destruct demo_run as (ts & e & H & Hm & _). exists (ts, e). split; [exact H|]. cbn [snd].
  assert (mem e !! 0x1000 = Some 0x20000) as Hl by (rewrite Hm; reflexivity). split; [exact Hl|].
  intros s' Hs'.
  destruct (static_publication_unique demo_cell demo_word demo (demo_env 0x4000 ∅ ∅) (ts, e) s'
    demo_inv eq_refl demo_typed H Hs') as [_ Hst].
  exact (Hst 0x1000 SMutex 0x20000 eq_refl Hl eq_refl).
Defined.
End SyncSafe.
