(* ===== verification/CStr.v ===== *)
(** * C strings and the C library's searching functions

    A C string is the list of its bytes before the terminating NUL.  This file
    holds what the property code uses of the C library: [strcmp], [strchr],
    [strtok], [fgets], [strncpy], and [bsearch] as glibc implements it, with the
    facts that [bsearch] is sound on any array and complete on a sorted one. *)

From Stdlib Require Import ZArith Lia Bool.
From stdpp Require Import base list numbers option sorting.
From S2P Require Import Prelude.

Open Scope Z_scope.

Module CStr.

Abbreviation str := (list Z).

Fixpoint strcmp (a b : str) : comparison :=
  match a, b with
  | [], [] => Eq
  | [], _ :: _ => Lt
  | _ :: _, [] => Gt
  | x :: a, y :: b => match x ?= y with Eq => strcmp a b | c => c end
  end.

(** The part before the first [c], and the part after it if there is one
    ([strchr] followed by writing a NUL over the hit). *)
Fixpoint split_at (c : Z) (s : str) : str * option str :=
  match s with
  | [] => ([], None)
  | x :: s => if x =? c then ([], Some s) else let '(a, b) := split_at c s in (x :: a, b)
  end.

Definition cut (c : Z) (s : str) : str := fst (split_at c s).

(** The string in a buffer; reading past a buffer without NUL is undefined. *)
Definition cstr (buf : list Z) : outcome str :=
  match split_at 0 buf with (s, Some _) => Ok s | (_, None) => Undef end.

(** Byte [i] of a NUL-terminated string. *)
Definition chr (format : str) (i : Z) : outcome Z :=
  if i =? Z.of_nat (length format) then Ok 0 else rd format i.

(** [strncpy(dst, s, n)]: exactly [n] bytes, NUL padded. *)
Definition strncpy (s : str) (n : nat) : list Z := take n (s ++ replicate n 0).

(** One [strtok] step with a single delimiter: the token and what is left. *)
Fixpoint skip (c : Z) (s : str) : str :=
  match s with
  | [] => []
  | x :: s' => if x =? c then skip c s' else s
  end.

Definition strtok (c : Z) (s : str) : option (str * str) :=
  match skip c s with
  | [] => None
  | s => let '(tok, rest) := split_at c s in Some (tok, default [] rest)
  end.

(** [fgets(buf, n + 1, f)]: at most [n] bytes, ending after a newline. *)
Fixpoint fgets (n : nat) (f : list Z) : list Z * list Z :=
  match n, f with
  | O, _ => ([], f)
  | _, [] => ([], [])
  | S n, x :: f => if x =? 10 then ([x], f) else let '(a, b) := fgets n f in (x :: a, b)
  end.

(** glibc's [bsearch] over the keys of an array; [fuel] bounds the halvings. *)
Fixpoint bsearch_loop (fuel : nat) (key : str) (keys : list str) (l u : nat) : option nat :=
  match fuel with
  | O => None
  | S fuel =>
      if (l <? u)%nat then
        let idx := ((l + u) / 2)%nat in
        match keys !! idx with
        | None => None
        | Some k =>
            match strcmp key k with
            | Lt => bsearch_loop fuel key keys l idx
            | Gt => bsearch_loop fuel key keys (S idx) u
            | Eq => Some idx
            end
        end
      else None
  end.

Definition bsearch (key : str) (keys : list str) : option nat :=
  bsearch_loop (S (length keys)) key keys 0 (length keys).

(** ** [strcmp] is a total order *)

Lemma strcmp_eq a b : strcmp a b = Eq <-> a = b.
Proof.
  revert b. induction a as [|x a IH]; intros [|y b]; simpl; try done.
  destruct (Z.compare_spec x y) as [->|H|H].
  - rewrite IH. split; [intros ->|intros [= ->]]; done.
  - split; [done|]. intros [= -> ->]. lia.
  - split; [done|]. intros [= -> ->]. lia.
Qed.

Lemma strcmp_refl a : strcmp a a = Eq.
Proof. now apply strcmp_eq. Qed.

Lemma strcmp_sym a b : strcmp b a = CompOpp (strcmp a b).
Proof.
  revert b. induction a as [|x a IH]; intros [|y b]; simpl; try done.
  rewrite (Z.compare_antisym x y). destruct (x ?= y); simpl; auto.
Qed.

Lemma strcmp_trans a b c : strcmp a b = Lt -> strcmp b c = Lt -> strcmp a c = Lt.
Proof.
  revert b c. induction a as [|x a IH]; intros [|y b] [|z c]; simpl; try done.
  destruct (Z.compare_spec x y), (Z.compare_spec y z), (Z.compare_spec x z); subst; try done; try lia; eauto.
Qed.

Definition str_lt (a b : str) : Prop := strcmp a b = Lt.
Definition str_le (a b : str) : Prop := strcmp a b <> Gt.

#[export] Instance str_le_dec a b : Decision (str_le a b).
Proof. unfold str_le. destruct (strcmp a b); [left|left|right]; auto; discriminate. Defined.

Lemma str_le_lt a b : str_le a b <-> str_lt a b \/ a = b.
Proof.
  unfold str_le, str_lt. rewrite <- (strcmp_eq a b). destruct (strcmp a b); intuition discriminate.
Qed.

#[export] Instance str_le_trans : Transitive str_le.
Proof.
  intros a b c. rewrite !str_le_lt. intros [H1| ->] [H2| ->]; auto.
  left. exact (strcmp_trans _ _ _ H1 H2).
Qed.

#[export] Instance str_le_total : Total str_le.
Proof.
  intros a b. unfold str_le. rewrite (strcmp_sym a b). destruct (strcmp a b); simpl; intuition discriminate.
Qed.

(** ** [bsearch] *)

(** What is found is the key, whatever the array. *)
Lemma bsearch_loop_sound fuel key keys l u i :
  bsearch_loop fuel key keys l u = Some i -> keys !! i = Some key.
Proof.
  revert l u. induction fuel as [|fuel IH]; intros l u; [done|]. cbn [bsearch_loop].
  destruct (l <? u)%nat; [|done]. cbv zeta. destruct (keys !! ((l + u) / 2)%nat) as [k|] eqn:E; [|done].
  destruct (strcmp key k) eqn:Ec; [|apply IH..]. intros [= <-]. apply strcmp_eq in Ec as ->. exact E.
Qed.

Lemma bsearch_sound key keys i : bsearch key keys = Some i -> keys !! i = Some key.
Proof. apply bsearch_loop_sound. Qed.

Lemma bsearch_none_not_all key keys : bsearch key keys = None \/ key ∈ keys.
Proof.
  destruct (bsearch key keys) eqn:E; [right|now left]. apply bsearch_sound in E.
  eauto using list_elem_of_lookup_2.
Qed.

Definition sorted_keys (keys : list str) : Prop :=
  forall i j a b, (i < j)%nat -> keys !! i = Some a -> keys !! j = Some b -> str_le a b.

Lemma bsearch_loop_complete fuel key keys l u i :
  sorted_keys keys -> (u <= length keys)%nat -> (u - l < fuel)%nat ->
  (l <= i < u)%nat -> keys !! i = Some key ->
  exists j, bsearch_loop fuel key keys l u = Some j.
Proof.
  intros Hs. revert l u. induction fuel as [|fuel IH]; intros l u Hu Hf Hi Hk; [lia|].
  cbn [bsearch_loop]. destruct (Nat.ltb_spec l u) as [Hl|]; [|lia]. cbv zeta.
  assert (l <= (l + u) / 2 < u)%nat as Hm.
  { split; [apply Nat.div_le_lower_bound; lia|apply Nat.Div0.div_lt_upper_bound; lia]. }
  set (idx := ((l + u) / 2)%nat) in *. destruct (lookup_lt_is_Some_2 keys idx ltac:(lia)) as [k Ek]. rewrite Ek.
  destruct (strcmp key k) eqn:Ec; [eauto| |].
  - apply IH; try lia; [|done]. split; [lia|]. destruct (Nat.lt_total i idx) as [|[->|Hgt]]; [done| |].
    + rewrite Hk in Ek. injection Ek as ->. rewrite strcmp_refl in Ec. done.
    + exfalso. apply (Hs idx i k key Hgt Ek Hk). rewrite strcmp_sym, Ec. done.
  - apply IH; try lia; [|done]. split; [|lia]. destruct (Nat.lt_total i idx) as [Hlt|[->|]]; [| |lia].
    + exfalso. exact (Hs i idx key k Hlt Hk Ek Ec).
    + rewrite Hk in Ek. injection Ek as ->. rewrite strcmp_refl in Ec. done.
Qed.

(** On a sorted array [bsearch] decides membership. *)
Lemma bsearch_complete key keys :
  sorted_keys keys -> key ∈ keys -> exists i, bsearch key keys = Some i.
Proof.
  intros Hs Hin. apply list_elem_of_lookup_1 in Hin as [i Hi]. pose proof (lookup_lt_Some _ _ _ Hi).
  apply (bsearch_loop_complete _ _ _ _ _ i); auto; lia.
Qed.

Lemma Sorted_keys keys : StronglySorted str_le keys -> sorted_keys keys.
Proof.
  intros H i j a b Hij Ha Hb. revert i j Hij Ha Hb. induction H as [|x l Hl IH Hx]; intros i j Hij Ha Hb; [done|].
  destruct j as [|j]; [lia|]. destruct i as [|i].
  - cbn in *. simplify_eq. rewrite Forall_forall in Hx. apply Hx. eauto using list_elem_of_lookup_2.
  - cbn in *. apply (IH i j); auto; lia.
Qed.

(** [qsort] by key: what the C standard promises, the order of equal keys being
    unspecified. *)
Class Qsort {A : Type} (key : A -> str) := {
  qsort : list A -> list A;
  qsort_perm : forall l, qsort l ≡ₚ l;
  qsort_sorted : forall l, StronglySorted str_le (key <$> qsort l);
}.

(** Ordering of records by key. *)
Definition key_le {A} (key : A -> str) (a b : A) : Prop := str_le (key a) (key b).

#[export] Instance key_le_dec {A} (key : A -> str) : RelDecision (key_le key).
Proof. intros a b. unfold key_le. apply _. Defined.
#[export] Instance key_le_trans {A} (key : A -> str) : Transitive (key_le key).
Proof. intros a b c. unfold key_le. apply transitivity. Qed.
#[export] Instance key_le_total {A} (key : A -> str) : Total (key_le key).
Proof. intros a b. apply (total str_le). Qed.

(** A merge sort meets the promise. *)
Definition merge_qsort {A} (key : A -> str) : Qsort key.
Proof.
  refine {| qsort := merge_sort (key_le key) |}.
  - intros l. apply merge_sort_Permutation.
  - intros l. apply (StronglySorted_fmap key (key_le key)); [auto|]. apply (StronglySorted_merge_sort (key_le key)).
Defined.

(** ** The splitting functions *)

Lemma split_at_app c s a b : split_at c s = (a, b) ->
  (c ∉ a) /\ s = a ++ match b with Some r => c :: r | None => [] end.
Proof.
  revert a b. induction s as [|x s IH]; intros a b; simpl.
  - intros [= <- <-]. split; [apply not_elem_of_nil|done].
  - destruct (Z.eqb_spec x c) as [->|Hx].
    + intros [= <- <-]. split; [apply not_elem_of_nil|done].
    + destruct (split_at c s) as [a' b'] eqn:E. intros [= <- <-]. destruct (IH a' b' eq_refl) as [H1 ->].
      split; [|done]. rewrite elem_of_cons. intros [->|]; done.
Qed.

Lemma cstr_ok buf : 0 ∈ buf -> exists s, cstr buf = Ok s /\ (length s < length buf)%nat.
Proof.
  intros H. unfold cstr. destruct (split_at 0 buf) as [s [r|]] eqn:E; apply split_at_app in E as [H1 ->].
  - exists s. split; [done|]. rewrite length_app. simpl. lia.
  - rewrite app_nil_r in H. done.
Qed.

Lemma split_at_none c s : c ∉ s -> split_at c s = (s, None).
Proof.
  induction s as [|x s IH]; simpl; intros H; [done|]. rewrite not_elem_of_cons in H.
  destruct (Z.eqb_spec x c) as [->|]; [tauto|]. rewrite IH by tauto. done.
Qed.

Lemma split_at_mid c a b : c ∉ a -> split_at c (a ++ c :: b) = (a, Some b).
Proof.
  induction a as [|x a IH]; simpl; intros H; [now rewrite Z.eqb_refl|]. rewrite not_elem_of_cons in H.
  destruct (Z.eqb_spec x c) as [->|]; [tauto|]. now rewrite IH.
Qed.

Lemma chr_mid a c b : chr (a ++ c :: b) (Z.of_nat (length a)) = Ok c.
Proof.
  unfold chr. rewrite length_app. cbn [length]. destruct (Z.eqb_spec (Z.of_nat (length a)) (Z.of_nat (length a + S (length b)))); [lia|].
  unfold rd. rewrite (proj2 (Z.ltb_ge _ _)) by lia. rewrite Nat2Z.id, lookup_app_r, Nat.sub_diag by lia. done.
Qed.

Lemma chr_end a : chr a (Z.of_nat (length a)) = Ok 0.
Proof. unfold chr. now rewrite Z.eqb_refl. Qed.

(** A string shorter than the field survives the copy. *)
Lemma cstr_strncpy s n : 0 ∉ s -> (length s < n)%nat -> cstr (strncpy s n) = Ok s.
Proof.
  intros H Hn. unfold strncpy, cstr. rewrite take_app_ge by lia.
  rewrite take_replicate, Nat.min_l by lia. destruct (n - length s)%nat as [|m] eqn:E; [lia|].
  cbn [replicate]. now rewrite split_at_mid.
Qed.
End CStr.
