(* ===== verification/PropCache.v ===== *)
(** * The property file cache (common/legacy_properties/cache.c)

    The array of properties read from /system/build.prop and the kernel command
    line, refreshed when the file's inode or mtime changes, and searched with
    [bsearch].  The file system is an argument ([disk]); [qsort] is any
    implementation of [CStr.Qsort]. *)

From Stdlib Require Import ZArith Lia Bool.
From stdpp Require Import base list numbers option sorting.
From S2P Require Import Prelude CStr.

Open Scope Z_scope.
Open Scope outcome_scope.

Module PropCache.
Import CStr.

Definition PROP_NAME_MAX : nat := 32.
Definition PROP_VALUE_MAX : nat := 92.
Definition MAX_PROPS : nat := 1000.

Record hybris_prop_value := Prop_ { key : str; value : str }.

(** The file's statics; [max_prop] is the length of the array. *)
Record state := State {
  prop_array : list hybris_prop_value;
  static_prop_inode : Z;
  static_prop_mtime : Z;
}.

(** What the file system holds: build.prop as inode, mtime and contents, if it
    opens and if it can be stat'ed, and /proc/cmdline, if it opens. *)
Record disk := Disk { build_prop : option (option (Z * Z) * list Z); cmdline : option (list Z) }.

(** A null key reaches [strcmp] unless the array is empty. *)
Definition cache_find_internal (k : option str) (arr : list hybris_prop_value) : outcome (option nat) :=
  match k, arr with
  | Some k, _ => Ok (bsearch k (key <$> arr))
  | None, [] => Ok None
  | None, _ :: _ => Undef
  end.

Definition cache_add_internal (k v : str) (arr : list hybris_prop_value) : outcome (list hybris_prop_value) :=
  if (PROP_VALUE_MAX - 1 <=? length v)%nat then Ok arr else
  let! found := cache_find_internal (Some k) arr in
  match found with
  | Some _ => Ok arr
  | None =>
      let arr := arr ++ [Prop_ k v] in
      if (MAX_PROPS <=? length arr)%nat then Abort else Ok arr
  end.

(** The key and value of one line read by [fgets]. *)
Definition parse_line (buf : list Z) : option (str * str) :=
  let buf := cut 0 buf in
  let buf := cut 13 buf in
  let buf := cut 10 buf in
  match strtok 61 buf with
  | None => None
  | Some (mkey, rest) =>
      match strtok 61 rest with
      | None => None
      | Some (v, _) => Some (mkey, v)
      end
  end.

Fixpoint cache_repopulate_loop (fuel : nat) (f : list Z) (arr : list hybris_prop_value)
  : outcome (list hybris_prop_value) :=
  match fuel with
  | O => Undef
  | S fuel =>
      match fgets 1023 f with
      | ([], _) => Ok arr
      | (buf, f) =>
          match parse_line buf with
          | None => cache_repopulate_loop fuel f arr
          | Some (mkey, v) =>
              let! arr := cache_add_internal mkey v arr in
              cache_repopulate_loop fuel f arr
          end
      end
  end.

(** Every [fgets] takes at least one byte. *)
Definition cache_repopulate_internal (f : list Z) (arr : list hybris_prop_value) :=
  cache_repopulate_loop (S (length f)) f arr.

(** "androidboot." and "ro." *)
Definition androidboot : str := [97; 110; 100; 114; 111; 105; 100; 98; 111; 111; 116; 46].
Definition ro : str := [114; 111; 46].

(** One space-separated word of the command line. *)
Definition parse_word (name : str) : option (str * str) :=
  let name_len := length name in
  match split_at 61 name with
  | (_, None) => None
  | (name, Some v) =>
      if (name_len =? 0)%nat then None
      else if bool_decide (take 12 name = androidboot) && (12 <? name_len)%nat
      then Some (take (PROP_NAME_MAX - 2) (ro ++ drop 12 name), v)
      else None
  end.

Fixpoint cmdline_loop (fuel : nat) (ptr : option str) (arr : list hybris_prop_value)
  : outcome (list hybris_prop_value) :=
  match ptr with
  | None | Some [] => Ok arr
  | Some s =>
      match fuel with
      | O => Undef
      | S fuel =>
          let '(name, x) := split_at 32 s in
          match parse_word name with
          | None => cmdline_loop fuel x arr
          | Some (prop, v) =>
              let! arr := cache_add_internal prop v arr in
              cmdline_loop fuel x arr
          end
      end
  end.

(** The buffer filled by [read], less a trailing newline. *)
Definition read_cmdline (fd : option (list Z)) : str :=
  match fd with
  | None => []
  | Some bytes =>
      let buf := take 1023 bytes in
      let buf := if bool_decide (last buf = Some 10) then take (length buf - 1) buf else buf in
      cut 0 buf
  end.

Definition cache_repopulate_cmdline_internal (fd : option (list Z)) (arr : list hybris_prop_value) :=
  let s := read_cmdline fd in cmdline_loop (S (length s)) (Some s) arr.

Section cache.
Context {Q : Qsort key}.

Definition cache_update (d : disk) (st : state) : outcome state :=
  match build_prop d with
  | None => Ok st
  | Some (None, _) => Ok st
  | Some (Some (ino, mtime), f) =>
      if negb (static_prop_inode st =? ino) || negb (static_prop_mtime st =? mtime) then
        let! arr := cache_repopulate_internal f [] in
        let! arr := cache_repopulate_cmdline_internal (cmdline d) arr in
        Ok (State (qsort arr) ino mtime)
      else Ok st
  end.

Definition hybris_propcache_find (d : disk) (k : option str) (st : state) : outcome (option str * state) :=
  let! st := cache_update d st in
  let! i := cache_find_internal k (prop_array st) in
  Ok (value <$> (i ≫= fun i => prop_array st !! i), st).

(** The calls of the callback, in order. *)
Definition hybris_propcache_list (d : disk) (cb : bool) (st : state) : outcome (list (str * str) * state) :=
  if negb cb then Ok ([], st) else
  let! st := cache_update d st in
  Ok ((fun p => (key p, value p)) <$> prop_array st, st).
End cache.

(** ** What the two inputs contain *)

Fixpoint lines (fuel : nat) (f : list Z) : list (str * str) :=
  match fuel with
  | O => []
  | S fuel =>
      match fgets 1023 f with
      | ([], _) => []
      | (buf, f) => match parse_line buf with Some p => [p] | None => [] end ++ lines fuel f
      end
  end.

Fixpoint words (fuel : nat) (ptr : option str) : list (str * str) :=
  match ptr with
  | None | Some [] => []
  | Some s =>
      match fuel with
      | O => []
      | S fuel => let '(name, x) := split_at 32 s in match parse_word name with Some p => [p] | None => [] end ++ words fuel x
      end
  end.

Definition inputs (f : list Z) (cmd : option (list Z)) : list (str * str) :=
  lines (S (length f)) f ++ words (S (length (read_cmdline cmd))) (Some (read_cmdline cmd)).

(** The properties offered to the cache, one after the other. *)
Fixpoint add_all (ps : list (str * str)) (arr : list hybris_prop_value) : outcome (list hybris_prop_value) :=
  match ps with
  | [] => Ok arr
  | (k, v) :: ps => let! arr := cache_add_internal k v arr in add_all ps arr
  end.

Lemma fgets_shrinks n f a l r : fgets n f = (a :: l, r) -> (length r < length f)%nat.
Proof.
  revert f a l r. induction n as [|n IH]; intros [|x f] a l r; cbn [fgets]; try done.
  destruct (x =? 10); [intros [= <- <- <-]; simpl; lia|].
  destruct (fgets n f) as [b r'] eqn:E. intros [= <- <- <-]. destruct b as [|y b].
  - destruct n, f; cbn in E; try (injection E as <-; simpl; lia).
    destruct (_ =? 10); [done|]. destruct (fgets n f); done.
  - specialize (IH _ _ _ _ E). simpl. lia.
Qed.

Lemma repopulate_adds fuel f arr :
  (length f < fuel)%nat -> cache_repopulate_loop fuel f arr = add_all (lines fuel f) arr.
Proof.
  revert f arr. induction fuel as [|fuel IH]; intros f arr Hf; [lia|].
  cbn [cache_repopulate_loop lines]. destruct (fgets 1023 f) as [[|a l] r] eqn:E; [done|].
  apply fgets_shrinks in E. destruct (parse_line (a :: l)) as [[k v]|]; cbn [app add_all].
  - destruct (cache_add_internal k v arr); cbn [obind]; [apply IH; lia|done|done].
  - apply IH. lia.
Qed.

Lemma cmdline_adds fuel s arr :
  (length (default [] s) < fuel)%nat -> cmdline_loop fuel s arr = add_all (words fuel s) arr.
Proof.
  revert s arr. induction fuel as [|fuel IH]; intros s arr Hf; [lia|].
  destruct s as [[|c s]|]; cbn [cmdline_loop words]; [done| |done].
  destruct (split_at 32 (c :: s)) as [name x] eqn:E. apply split_at_app in E as [_ E].
  assert (length (default [] x) < fuel)%nat as Hx.
  { apply (f_equal length) in E. rewrite length_app in E. simpl in Hf, E. destruct x; simpl in *; lia. }
  destruct (parse_word name) as [[k v]|]; cbn [app add_all].
  - destruct (cache_add_internal k v arr); cbn [obind]; [now apply IH|done|done].
  - now apply IH.
Qed.

Lemma add_all_app ps qs arr :
  add_all (ps ++ qs) arr = let! arr := add_all ps arr in add_all qs arr.
Proof.
  revert arr. induction ps as [|[k v] ps IH]; intros arr; [done|]. cbn [app add_all].
  destruct (cache_add_internal k v arr); cbn [obind]; auto.
Qed.

Lemma repopulate_all f cmd :
  (let! arr := cache_repopulate_internal f [] in cache_repopulate_cmdline_internal cmd arr)
  = add_all (inputs f cmd) [].
Proof.
  unfold inputs, cache_repopulate_internal. rewrite add_all_app, repopulate_adds by lia.
  destruct (add_all _ []) as [arr| |]; cbn [obind]; [|done|done].
  unfold cache_repopulate_cmdline_internal. apply cmdline_adds. cbn. lia.
Qed.

(** A property the cache accepts: short enough for a property value. *)
Definition fits (v : str) : Prop := (length v < PROP_VALUE_MAX - 1)%nat.

Lemma add_spec k v arr arr' :
  cache_add_internal k v arr = Ok arr' ->
  (arr' = arr /\ (fits v -> k ∈ key <$> arr)) \/
  (arr' = arr ++ [Prop_ k v] /\ fits v /\ (length arr' < MAX_PROPS)%nat).
Proof.
  unfold cache_add_internal, fits. destruct (Nat.leb_spec (PROP_VALUE_MAX - 1) (length v)).
  { intros [= <-]. left. split; [done|]. lia. }
  cbn [cache_find_internal obind]. destruct (bsearch k (key <$> arr)) as [i|] eqn:E.
  - intros [= <-]. left. split; [done|]. intros _. apply bsearch_sound in E. eauto using list_elem_of_lookup_2.
  - destruct (Nat.leb_spec MAX_PROPS (length (arr ++ [Prop_ k v]))); [done|]. intros [= <-]. right. auto.
Qed.

(** Everything stored was offered and fits; every fitting key offered is stored. *)
Lemma add_all_spec ps arr arr' :
  add_all ps arr = Ok arr' ->
  (forall p, p ∈ arr' -> p ∈ arr \/ ((key p, value p) ∈ ps /\ fits (value p))) /\
  (forall p, p ∈ arr -> p ∈ arr') /\
  (forall k v, (k, v) ∈ ps -> fits v -> k ∈ key <$> arr') /\
  (length arr < MAX_PROPS -> length arr' < MAX_PROPS)%nat.
Proof.
  revert arr. induction ps as [|[k v] ps IH]; intros arr H; cbn [add_all] in H.
  - injection H as <-. split; [auto|]. split; [auto|]. split; [|auto]. intros k v Hk.
    now apply not_elem_of_nil in Hk.
  - apply obind_ok in H as (arr1 & H1 & H). destruct (IH _ H) as (I1 & I2 & I3 & I4).
    apply add_spec in H1 as [[-> Hk]|(-> & Hv & Hl)].
    + split; [|split; [done|split; [|done]]].
      * intros p Hp. destruct (I1 p Hp) as [|[]]; [auto|]. right. rewrite elem_of_cons. auto.
      * intros k' v' Hin Hf. rewrite elem_of_cons in Hin. destruct Hin as [[= -> ->]|Hin]; [|eauto].
        specialize (Hk Hf). apply list_elem_of_fmap in Hk as (p & -> & Hp). apply list_elem_of_fmap_2. auto.
    + split; [|split; [|split; [|auto]]].
      * intros p Hp. destruct (I1 p Hp) as [Hp'|[]]; [|right; rewrite elem_of_cons; auto].
        rewrite elem_of_app, list_elem_of_singleton in Hp'. destruct Hp' as [| ->]; [auto|]. right.
        rewrite elem_of_cons. auto.
      * intros p Hp. apply I2. rewrite elem_of_app. auto.
      * intros k' v' Hin Hf. rewrite elem_of_cons in Hin. destruct Hin as [[= -> ->]|Hin]; [|eauto].
        apply list_elem_of_fmap. exists (Prop_ k v). split; [done|]. apply I2.
        rewrite elem_of_app, list_elem_of_singleton. auto.
Qed.

Section lookup.
Context {Q : Qsort key}.

(** The invariant of the statics: sorted, and below the array bound. *)
Definition cache_ok (st : state) : Prop :=
  sorted_keys (key <$> prop_array st) /\ (length (prop_array st) < MAX_PROPS)%nat.

Lemma cache_refresh d st st' ino mtime f :
  build_prop d = Some (Some (ino, mtime), f) ->
  static_prop_inode st <> ino \/ static_prop_mtime st <> mtime ->
  cache_update d st = Ok st' ->
  exists arr, add_all (inputs f (cmdline d)) [] = Ok arr /\ prop_array st' ≡ₚ arr /\ cache_ok st' /\
    static_prop_inode st' = ino /\ static_prop_mtime st' = mtime.
Proof.
  intros Hd Hs H. unfold cache_update in H. rewrite Hd in H.
  assert (negb (static_prop_inode st =? ino) || negb (static_prop_mtime st =? mtime) = true) as Hb.
  { destruct (Z.eqb_spec (static_prop_inode st) ino), (Z.eqb_spec (static_prop_mtime st) mtime); simpl; tauto. }
  rewrite Hb in H. apply obind_ok in H as (a1 & H1 & H). apply obind_ok in H as (arr & H2 & H).
  injection H as <-. assert (add_all (inputs f (cmdline d)) [] = Ok arr) as Ha.
  { rewrite <- repopulate_all, H1. exact H2. }
  exists arr. split; [done|]. split; [apply qsort_perm|]. split; [|done]. split; cbn [prop_array].
  - apply Sorted_keys, qsort_sorted.
  - rewrite (Permutation_length (qsort_perm arr)). apply add_all_spec in Ha as (_ & _ & _ & Ha).
    apply Ha. cbn. unfold MAX_PROPS. lia.
Qed.

Lemma cache_update_ok d st st' : cache_ok st -> cache_update d st = Ok st' -> cache_ok st'.
Proof.
  intros Hok H. pose proof H as H'. unfold cache_update in H.
  destruct (build_prop d) as [[[[ino mtime]|] f]|] eqn:Ed; [|congruence|congruence].
  destruct (Z.eq_dec (static_prop_inode st) ino), (Z.eq_dec (static_prop_mtime st) mtime);
    try (destruct (cache_refresh d st st' ino mtime f Ed ltac:(auto) H') as (? & _ & _ & ? & _); done).
  subst. rewrite !Z.eqb_refl in H. cbn in H. congruence.
Qed.

Lemma find_spec d k st st' r :
  cache_ok st -> hybris_propcache_find d (Some k) st = Ok (r, st') ->
  cache_update d st = Ok st' /\ cache_ok st' /\
  (forall v, r = Some v -> Prop_ k v ∈ prop_array st') /\ (r = None -> k ∉ key <$> prop_array st').
Proof.
  intros Hok H. unfold hybris_propcache_find in H. apply obind_ok in H as (st1 & H1 & H).
  cbn [cache_find_internal obind] in H. injection H as <- ->. pose proof (cache_update_ok d st st' Hok H1) as Hok'. split; [done|]. split; [done|].
  destruct (bsearch k (key <$> prop_array st')) as [i|] eqn:E; cbn [mbind option_bind].
  - apply bsearch_sound in E. rewrite list_lookup_fmap in E.
    destruct (prop_array st' !! i) as [[k' v']|] eqn:Ei; cbn in *; [|done]. injection E as ->.
    split; [|intros Hr; discriminate Hr]. intros v Hv. injection Hv as <-. eauto using list_elem_of_lookup_2.
  - split; [intros v Hv; discriminate Hv|]. intros _ Hin. destruct (bsearch_complete k _ (proj1 Hok') Hin) as [i Hi]. congruence.
Qed.
End lookup.

(** After a refresh the cache answers from the new build.prop and command
    line only: a value found for [k] is one they give [k], and every key they
    give a value of legal length is found.  The array stays sorted and below
    MAX_PROPS, for any [qsort] that meets its specification. *)
Theorem propcache_find_fresh {Q : Qsort key} d st st' ino mtime f k r :
  build_prop d = Some (Some (ino, mtime), f) ->
  static_prop_inode st <> ino \/ static_prop_mtime st <> mtime ->
  cache_ok st -> hybris_propcache_find d (Some k) st = Ok (r, st') ->
  cache_ok st' /\
  (forall v, r = Some v -> (k, v) ∈ inputs f (cmdline d) /\ fits v) /\
  (r = None -> forall v, (k, v) ∈ inputs f (cmdline d) -> ~ fits v).
Proof.
  intros Hd Hs Hok H. destruct (find_spec d k st st' r Hok H) as (H1 & H2 & H3 & H4).
  destruct (cache_refresh d st st' ino mtime f Hd Hs H1) as (arr & Ha & Hp & _).
  apply add_all_spec in Ha as (A1 & _ & A3 & _). split; [done|]. split.
  - intros v Hv. specialize (H3 v Hv). rewrite Hp in H3.
    destruct (A1 _ H3) as [Hn|?]; [now apply not_elem_of_nil in Hn|done].
  - intros Hr v Hv Hf. apply (H4 Hr). rewrite Hp. eauto.
Qed.

(** "ro.a=1" and "ro.b=22" with a command line "x androidboot.c=3". *)
Definition demo_disk : disk :=
  Disk (Some (Some (7, 9), [114; 111; 46; 97; 61; 49; 10; 114; 111; 46; 98; 61; 50; 50; 10]))
       (Some ([120; 32] ++ androidboot ++ [99; 61; 51; 10])).

Lemma propcache_find_fresh_witness :
  exists st', hybris_propcache_find (Q:=merge_qsort key) demo_disk (Some [114; 111; 46; 99]) (State [] 0 0)
    = Ok (Some [51], st') /\
  ([114; 111; 46; 99], [51]) ∈ inputs [114; 111; 46; 97; 61; 49; 10; 114; 111; 46; 98; 61; 50; 50; 10] (cmdline demo_disk).
Proof.
  eexists. split; [vm_compute; reflexivity|].
  refine (proj1 (proj1 (proj2 (propcache_find_fresh (Q:=merge_qsort key) demo_disk (State [] 0 0) _ 7 9 _
    [114; 111; 46; 99] (Some [51]) eq_refl (or_introl _) _ _)) [51] eq_refl)).
  - discriminate.
  - split; [|cbn; unfold MAX_PROPS; lia]. intros i j a b _ Ha. cbn in Ha. discriminate Ha.
  - vm_compute. reflexivity.
Defined.

(** While the file keeps its inode and mtime, or cannot be opened or
    stat'ed, a lookup does not touch the cache. *)
Theorem propcache_unchanged {Q : Qsort key} d k st :
  match build_prop d with
  | Some (Some (ino, mtime), _) => static_prop_inode st = ino /\ static_prop_mtime st = mtime
  | _ => True
  end ->
  hybris_propcache_find d (Some k) st =
    Ok (value <$> (bsearch k (key <$> prop_array st) ≫= fun i => prop_array st !! i), st).
Proof.
  intros H. unfold hybris_propcache_find, cache_update.
  destruct (build_prop d) as [[[[ino mtime]|] f]|]; cbn; try done.
  destruct H as [<- <-]. now rewrite !Z.eqb_refl.
Qed.

Lemma propcache_unchanged_witness :
  hybris_propcache_find (Q:=merge_qsort key) (Disk (Some (Some (7, 9), [])) None) (Some [98]) (State [Prop_ [98] [49]] 7 9)
    = Ok (Some [49], State [Prop_ [98] [49]] 7 9).
Proof. rewrite propcache_unchanged; [reflexivity|]. cbn. auto. Defined.

(** The first line for a key need not win.  The duplicate check searches the
    array before it is sorted, so with a stable [qsort] the file "b=1, a=2, b=3,
    c=4" answers 3 for b, although [cache_add_internal] means to keep the first. *)
Theorem propcache_duplicate_key_wins :
  exists st', hybris_propcache_find (Q:=merge_qsort key)
    (Disk (Some (Some (7, 9), [98; 61; 49; 10; 97; 61; 50; 10; 98; 61; 51; 10; 99; 61; 52; 10])) None)
    (Some [98]) (State [] 0 0) = Ok (Some [51], st') /\
  prop_array st' = [Prop_ [97] [50]; Prop_ [98] [49]; Prop_ [98] [51]; Prop_ [99] [52]].
Proof. eexists. split; vm_compute; reflexivity. Qed.
End PropCache.
