(* ===== verification/RuntimeCache.v ===== *)
(** * The runtime property cache (common/legacy_properties/runtime_cache.c)

    A growing array of key, value, time-of-update entries kept sorted by
    [qsort].  It is proved to implement a finite map from keys to an optional
    value and its update time ([view]): an invalidated entry keeps its key with
    no value.  The clock reading and the [HYBRIS_PROPERTY_CACHE_TIMEOUT_SECS]
    setting are arguments.  Times and the counters are [Z]: an array of 2^31 entries does not fit memory. *)

From Stdlib Require Import ZArith Lia Bool.
From stdpp Require Import base gmap list numbers option sorting.
From S2P Require Import Prelude CStr.

Open Scope Z_scope.
Open Scope outcome_scope.

Module RuntimeCache.
Import CStr.

Definition HYBRIS_PROPERTY_CACHE_DEFAULT_TIMEOUT_SECS : Z := 10.

Record hybris_prop_value := Entry { key : str; value : option str; last_update : Z }.

(** The statics; [prop_array] is [None] before initialisation, [num_prop] is the
    length of the array. *)
Record state := State {
  prop_array : option (list hybris_prop_value);
  num_alloc : Z;
  runtime_cache_timeout_secs : Z;
}.

Definition initial : state := State None 0 HYBRIS_PROPERTY_CACHE_DEFAULT_TIMEOUT_SECS.

(** [timeout_str]: the environment variable, as [atoi] reads it. *)
Definition runtime_cache_init (timeout_str : option Z) (st : state) : state :=
  State (Some []) 8 (default (runtime_cache_timeout_secs st) timeout_str).

Definition runtime_cache_ensure_initialized (timeout_str : option Z) (st : state) : state :=
  match prop_array st with None => runtime_cache_init timeout_str st | Some _ => st end.

Definition entries (st : state) : list hybris_prop_value := default [] (prop_array st).
Definition set_entries (l : list hybris_prop_value) (st : state) : state :=
  State (Some l) (num_alloc st) (runtime_cache_timeout_secs st).

(** A null key reaches [strcmp] unless the array is empty. *)
Definition cache_find_internal (k : option str) (st : state) : outcome (option nat) :=
  match k, entries st with
  | Some k, l => Ok (bsearch k (key <$> l))
  | None, [] => Ok None
  | None, _ :: _ => Undef
  end.

Definition runtime_cache_invalidate_entry (i : nat) (st : state) : state :=
  set_entries (alter (fun e => Entry (key e) None (last_update e)) i (entries st)) st.

(** Returns the value copied out, if the code returns 0. *)
Definition runtime_cache_get_impl (now : Z) (k : option str) (st : state) : outcome (option str * state) :=
  let! found := cache_find_internal k st in
  match found ≫= fun i => pair i <$> entries st !! i with
  | Some (i, Entry _ (Some v) t) =>
      if runtime_cache_timeout_secs st <? now - t
      then Ok (None, runtime_cache_invalidate_entry i st)
      else Ok (Some v, st)
  | _ => Ok (None, st)
  end.

Section cache.
Context {Q : Qsort key}.

(** Reusing an entry asserts that it was invalidated; a null key has nothing to
    duplicate. *)
Definition runtime_cache_insert_impl (now : Z) (k : option str) (v : str) (st : state) : outcome state :=
  let! found := cache_find_internal k st in
  match found with
  | Some i =>
      match entries st !! i with
      | Some (Entry k' None _) => Ok (set_entries (<[i := Entry k' (Some v) now]> (entries st)) st)
      | Some (Entry _ (Some _) _) => Abort
      | None => Undef
      end
  | None =>
      let num_prop := Z.of_nat (length (entries st)) in
      let st := if num_alloc st =? num_prop
                then State (prop_array st) (3 * num_alloc st / 2) (runtime_cache_timeout_secs st) else st in
      match k with
      | None => Undef
      | Some k =>
          if num_prop <? num_alloc st
          then Ok (set_entries (qsort (entries st ++ [Entry k (Some v) now])) st)
          else Undef
      end
  end.

Definition runtime_cache_remove (timeout_str : option Z) (k : option str) (st : state) : outcome state :=
  let st := runtime_cache_ensure_initialized timeout_str st in
  let! found := cache_find_internal k st in
  match found with
  | Some i => Ok (runtime_cache_invalidate_entry i st)
  | None => Ok st
  end.

Definition runtime_cache_get (timeout_str : option Z) (now : Z) (k : option str) (st : state) :=
  runtime_cache_get_impl now k (runtime_cache_ensure_initialized timeout_str st).

Definition runtime_cache_insert (timeout_str : option Z) (now : Z) (k : option str) (v : str) (st : state) :=
  runtime_cache_insert_impl now k v (runtime_cache_ensure_initialized timeout_str st).
End cache.

(** ** The map the array implements *)

Definition pairs (l : list hybris_prop_value) : list (str * (option str * Z)) :=
  (fun e => (key e, (value e, last_update e))) <$> l.
Definition view (st : state) : gmap str (option str * Z) := list_to_map (pairs (entries st)).

(** Sorted, without duplicate keys, inside the allocation. *)
Record cache_ok (st : state) : Prop := {
  ok_sorted : sorted_keys (key <$> entries st);
  ok_nodup : NoDup (key <$> entries st);
  ok_room : match prop_array st with
            | None => True
            | Some l => Z.of_nat (length l) <= num_alloc st /\ 2 <= num_alloc st
            end;
}.

Lemma fst_pairs l : (pairs l).*1 = key <$> l.
Proof. unfold pairs. rewrite <- list_fmap_compose. done. Qed.

Lemma view_lookup st i e :
  cache_ok st -> entries st !! i = Some e -> view st !! key e = Some (value e, last_update e).
Proof.
  intros Hok Hi. apply elem_of_list_to_map_1; [rewrite fst_pairs; apply Hok|].
  apply list_elem_of_fmap. exists e. split; [done|]. eauto using list_elem_of_lookup_2.
Qed.

(** The search finds the entry of a key, exactly when the map has one. *)
Lemma find_view st k :
  cache_ok st ->
  match bsearch k (key <$> entries st) with
  | Some i => exists v t, entries st !! i = Some (Entry k v t) /\ view st !! k = Some (v, t)
  | None => view st !! k = None
  end.
Proof.
  intros Hok. destruct (bsearch k (key <$> entries st)) as [i|] eqn:E.
  - apply bsearch_sound in E. rewrite list_lookup_fmap in E.
    destruct (entries st !! i) as [[k' v t]|] eqn:Ei; [|done]. cbn in E. injection E as ->.
    exists v, t. split; [done|]. exact (view_lookup st i _ Hok Ei).
  - apply not_elem_of_list_to_map_1. rewrite fst_pairs. intros Hin.
    destruct (bsearch_complete k _ (ok_sorted _ Hok) Hin) as [i Hi]. congruence.
Qed.

(** Changing value and time of an entry keeps the keys, and changes the map at
    that key only. *)
Lemma set_view st i k v t v' t' :
  cache_ok st -> entries st !! i = Some (Entry k v t) ->
  let st' := set_entries (<[i := Entry k v' t']> (entries st)) st in
  cache_ok st' /\ view st' = <[k := (v', t')]> (view st).
Proof.
  intros Hok Hi st'.
  assert (key <$> entries st' = key <$> entries st) as Hk.
  { cbn. rewrite list_fmap_insert. cbn. apply list_insert_id. now rewrite list_lookup_fmap, Hi. }
  assert (cache_ok st') as Hok'.
  { split; [rewrite Hk; apply Hok..|]. cbn. rewrite length_insert. unfold entries in *.
    pose proof (ok_room _ Hok) as Hr. destruct (prop_array st); [done|]. cbn in Hi. discriminate Hi. }
  split; [done|]. apply map_eq. intros k2. destruct (decide (k = k2)) as [<-|Hne].
  - rewrite lookup_insert_eq. apply (view_lookup st' i (Entry k v' t') Hok'). cbn.
    apply list_lookup_insert_eq. eauto using lookup_lt_Some.
  - rewrite lookup_insert_ne by done. pose proof (find_view st k2 Hok) as H1.
    pose proof (find_view st' k2 Hok') as H2. rewrite Hk in H2.
    destruct (bsearch k2 (key <$> entries st)) as [j|]; [|congruence].
    destruct H1 as (v1 & t1 & E1 & ->), H2 as (v2 & t2 & E2 & ->). cbn in E2.
    rewrite list_lookup_insert_ne in E2; [congruence|]. intros <-. congruence.
Qed.

Lemma invalidate_view st i k v t :
  cache_ok st -> entries st !! i = Some (Entry k v t) ->
  cache_ok (runtime_cache_invalidate_entry i st) /\
  view (runtime_cache_invalidate_entry i st) = <[k := (None, t)]> (view st).
Proof.
  intros Hok Hi. destruct (set_view st i k v t None t Hok Hi) as [H1 H2].
  unfold runtime_cache_invalidate_entry.
  assert (alter (fun e => Entry (key e) None (last_update e)) i (entries st)
          = <[i := Entry k None t]> (entries st)) as ->; [|done].
  apply list_eq. intros j. destruct (decide (i = j)) as [<-|].
  - rewrite list_lookup_alter_eq, Hi, list_lookup_insert_eq; eauto using lookup_lt_Some.
  - now rewrite list_lookup_alter_ne, list_lookup_insert_ne by done.
Qed.

Lemma ensure_ok ts st :
  cache_ok st -> cache_ok (runtime_cache_ensure_initialized ts st) /\
  view (runtime_cache_ensure_initialized ts st) = view st /\
  prop_array (runtime_cache_ensure_initialized ts st) <> None.
Proof.
  intros Hok. unfold runtime_cache_ensure_initialized. destruct (prop_array st) eqn:E.
  - split; [done|]. split; [done|]. congruence.
  - split.
    + split; cbn; [intros ? ? ? ? _ H; cbn in H; discriminate H|constructor|lia].
    + split; [|done]. unfold view, entries. now rewrite E.
Qed.

(** The value a lookup at time [now] may return. *)
Definition fresh (timeout now : Z) (m : gmap str (option str * Z)) (k : str) : option str :=
  match m !! k with
  | Some (Some v, t) => if timeout <? now - t then None else Some v
  | _ => None
  end.

Lemma get_view ts now k st :
  cache_ok st ->
  let st1 := runtime_cache_ensure_initialized ts st in
  exists st', runtime_cache_get ts now (Some k) st = Ok (fresh (runtime_cache_timeout_secs st1) now (view st) k, st') /\
    cache_ok st' /\ prop_array st' <> None /\
    runtime_cache_timeout_secs st' = runtime_cache_timeout_secs st1 /\
    view st' = match view st !! k, fresh (runtime_cache_timeout_secs st1) now (view st) k with
               | Some (Some _, t), None => <[k := (None, t)]> (view st)
               | _, _ => view st
               end.
Proof.
  intros Hok st1. destruct (ensure_ok ts st Hok) as (Hok1 & Hv1 & Hn). fold st1 in Hok1, Hv1, Hn.
  unfold runtime_cache_get. fold st1. unfold runtime_cache_get_impl. cbn [cache_find_internal obind].
  pose proof (find_view st1 k Hok1) as Hf. unfold fresh. rewrite <- Hv1.
  destruct (bsearch k (key <$> entries st1)) as [i|]; cbn [mbind option_bind].
  - destruct Hf as (v & t & Hi & Hk). rewrite Hi, Hk. cbn [fmap option_fmap option_map].
    destruct v as [v|]; [|eauto 10].
    destruct (runtime_cache_timeout_secs st1 <? now - t); [|eauto 10].
    destruct (invalidate_view st1 i k _ t Hok1 Hi) as [H1 H2]. eexists. split; [reflexivity|]. auto.
  - rewrite Hf. eauto 10.
Qed.

(** The timeout in force from the next call on. *)
Definition timeout_of (ts : option Z) (st : state) : Z :=
  runtime_cache_timeout_secs (runtime_cache_ensure_initialized ts st).

Lemma timeout_of_some ts st st' :
  prop_array st' <> None -> runtime_cache_timeout_secs st' = timeout_of ts st ->
  timeout_of ts st' = timeout_of ts st.
Proof.
  intros Hn <-. unfold timeout_of, runtime_cache_ensure_initialized. now destruct (prop_array st').
Qed.

Section refinement.
Context {Q : Qsort key}.

Lemma insert_view ts now k v st :
  cache_ok st -> (forall v' t, view st !! k <> Some (Some v', t)) ->
  exists st', runtime_cache_insert ts now (Some k) v st = Ok st' /\ cache_ok st' /\
    prop_array st' <> None /\ runtime_cache_timeout_secs st' = timeout_of ts st /\
    view st' = <[k := (Some v, now)]> (view st).
Proof.
  intros Hok Hfree. destruct (ensure_ok ts st Hok) as (Hok1 & Hv1 & Hn).
  unfold runtime_cache_insert. set (st1 := runtime_cache_ensure_initialized ts st) in *.
  unfold runtime_cache_insert_impl. cbn [cache_find_internal obind].
  pose proof (find_view st1 k Hok1) as Hf. rewrite Hv1 in Hf.
  destruct (bsearch k (key <$> entries st1)) as [i|] eqn:Eb.
  - destruct Hf as (v0 & t & Hi & Hk). rewrite Hi. destruct v0 as [v0|]; [now destruct (Hfree v0 t)|].
    destruct (set_view st1 i k None t (Some v) now Hok1 Hi) as [H1 H2]. eexists. split; [reflexivity|].
    rewrite H2, Hv1. auto 10.
  - set (st2 := if _ =? _ then _ else _).
    assert (entries st2 = entries st1 /\ runtime_cache_timeout_secs st2 = runtime_cache_timeout_secs st1 /\
            Z.of_nat (length (entries st1)) < num_alloc st2 /\ 2 <= num_alloc st2) as (E1 & E2 & E3 & E4).
    { pose proof (ok_room _ Hok1) as Hr. unfold st2, entries.
      destruct (prop_array st1) as [l|] eqn:El; [|done]. cbn [default]. unfold id. destruct Hr as [Hr1 Hr2].
      destruct (Z.eqb_spec (num_alloc st1) (Z.of_nat (length l))); cbn; try rewrite El; cbn; unfold id;
        (split; [done|]); (split; [done|]); [|lia].
      assert (num_alloc st1 + 1 <= 3 * num_alloc st1 / 2) by (apply Z.div_le_lower_bound; lia). lia. }
    rewrite (proj2 (Z.ltb_lt _ _) E3). eexists. split; [reflexivity|].
    set (l := qsort _).
    assert (l ≡ₚ entries st1 ++ [Entry k (Some v) now]) as Hp by (unfold l; rewrite E1; apply qsort_perm).
    assert (k ∉ key <$> entries st1) as Hnew.
    { intros Hin. destruct (bsearch_complete k _ (ok_sorted _ Hok1) Hin) as [j Hj]. congruence. }
    assert (NoDup (key <$> l)) as Hnd.
    { rewrite Hp, fmap_app. cbn. rewrite NoDup_app. split; [apply Hok1|]. split; [|apply NoDup_singleton].
      intros x Hx. rewrite list_elem_of_singleton. congruence. }
    split; [|split; [done|split; [done|]]].
    + split; cbn; [apply Sorted_keys, qsort_sorted|done|].
      rewrite Hp, length_app. cbn. lia.
    + rewrite <- Hv1. unfold view. cbn [entries set_entries prop_array default]. unfold id.
      rewrite (list_to_map_proper (pairs l) (pairs (Entry k (Some v) now :: entries st1))).
      * reflexivity.
      * now rewrite fst_pairs.
      * unfold pairs. apply fmap_Permutation. rewrite Hp. symmetry. apply Permutation_cons_append.
Qed.

Lemma remove_view ts k st :
  cache_ok st ->
  exists st', runtime_cache_remove ts (Some k) st = Ok st' /\ cache_ok st' /\
    prop_array st' <> None /\ runtime_cache_timeout_secs st' = timeout_of ts st /\
    view st' = alter (fun p => (None, snd p)) k (view st).
Proof.
  intros Hok. destruct (ensure_ok ts st Hok) as (Hok1 & Hv1 & Hn).
  unfold runtime_cache_remove. set (st1 := runtime_cache_ensure_initialized ts st) in *.
  cbn [cache_find_internal obind]. pose proof (find_view st1 k Hok1) as Hf. rewrite <- Hv1.
  destruct (bsearch k (key <$> entries st1)) as [i|].
  - destruct Hf as (v & t & Hi & Hk). destruct (invalidate_view st1 i k v t Hok1 Hi) as [H1 H2].
    eexists. split; [reflexivity|]. split; [done|]. split; [done|]. split; [done|]. rewrite H2. apply map_eq. intros k2.
    destruct (decide (k = k2)) as [<-|].
    + now rewrite lookup_insert_eq, lookup_alter_eq, Hk.
    + now rewrite lookup_insert_ne, lookup_alter_ne by done.
  - eexists. split; [reflexivity|]. split; [done|]. split; [done|]. split; [done|]. apply map_eq. intros k2.
    destruct (decide (k = k2)) as [<-|]; [now rewrite lookup_alter_eq, Hf|now rewrite lookup_alter_ne].
Qed.

Lemma insert_live_aborts ts now k v st v' t :
  cache_ok st -> view st !! k = Some (Some v', t) -> runtime_cache_insert ts now (Some k) v st = Abort.
Proof.
  intros Hok Hk. destruct (ensure_ok ts st Hok) as (Hok1 & Hv1 & Hn).
  unfold runtime_cache_insert. set (st1 := runtime_cache_ensure_initialized ts st) in *.
  unfold runtime_cache_insert_impl. cbn [cache_find_internal obind].
  pose proof (find_view st1 k Hok1) as Hf. rewrite Hv1 in Hf.
  destruct (bsearch k (key <$> entries st1)) as [i|]; [|congruence].
  destruct Hf as (v0 & t0 & Hi & Hk0). rewrite Hi. now simplify_eq.
Qed.
End refinement.

(** ** The abstract cache *)

Inductive cop := Get (k : str) | Insert (k v : str) | Remove (k : str).

(** One call at time [now]: the output of a get, the new contents; [None] when an
    insertion finds a live value. *)
Definition spec_step (timeout now : Z) (o : cop) (m : gmap str (option str * Z))
  : option (option str * gmap str (option str * Z)) :=
  match o with
  | Get k =>
      let r := fresh timeout now m k in
      Some (r, match m !! k, r with Some (Some _, t), None => <[k := (None, t)]> m | _, _ => m end)
  | Insert k v =>
      match m !! k with
      | Some (Some _, _) => None
      | _ => Some (None, <[k := (Some v, now)]> m)
      end
  | Remove k => Some (None, alter (fun p => (None, snd p)) k m)
  end.

Fixpoint spec_run (timeout : Z) (os : list (Z * cop)) (m : gmap str (option str * Z))
  : option (list (option str) * gmap str (option str * Z)) :=
  match os with
  | [] => Some ([], m)
  | (now, o) :: os =>
      match spec_step timeout now o m with
      | None => None
      | Some (r, m) =>
          match spec_run timeout os m with None => None | Some (rs, m) => Some (r :: rs, m) end
      end
  end.

Section simulation.
Context {Q : Qsort key}.

Definition call (ts : option Z) (now : Z) (o : cop) (st : state) : outcome (option str * state) :=
  match o with
  | Get k => runtime_cache_get ts now (Some k) st
  | Insert k v => let! st := runtime_cache_insert ts now (Some k) v st in Ok (None, st)
  | Remove k => let! st := runtime_cache_remove ts (Some k) st in Ok (None, st)
  end.

Fixpoint run (ts : option Z) (os : list (Z * cop)) (st : state) : outcome (list (option str) * state) :=
  match os with
  | [] => Ok ([], st)
  | (now, o) :: os =>
      let! (r, st) := call ts now o st in
      let! (rs, st) := run ts os st in
      Ok (r :: rs, st)
  end.

(** One call simulates one abstract step, and fixes the timeout. *)
Lemma call_simulates ts now o st :
  cache_ok st ->
  match spec_step (timeout_of ts st) now o (view st) with
  | Some (r, m) => exists st', call ts now o st = Ok (r, st') /\ cache_ok st' /\ view st' = m /\
                     timeout_of ts st' = timeout_of ts st
  | None => call ts now o st = Abort
  end.
Proof.
  intros Hok. destruct o as [k|k v|k]; cbn [spec_step call].
  - destruct (get_view ts now k st Hok) as (st' & -> & H1 & H2 & H3 & H4). exists st'.
    split; [done|]. split; [done|]. split; [done|]. now apply timeout_of_some.
  - destruct (view st !! k) as [[[v'|] t]|] eqn:E.
    + now rewrite (insert_live_aborts ts now k v st v' t).
    + destruct (insert_view ts now k v st Hok) as (st' & -> & H1 & H2 & H3 & H4); [congruence|].
      exists st'. split; [done|]. split; [done|]. split; [done|]. now apply timeout_of_some.
    + destruct (insert_view ts now k v st Hok) as (st' & -> & H1 & H2 & H3 & H4); [congruence|].
      exists st'. split; [done|]. split; [done|]. split; [done|]. now apply timeout_of_some.
  - destruct (remove_view ts k st Hok) as (st' & -> & H1 & H2 & H3 & H4).
    exists st'. split; [done|]. split; [done|]. split; [done|]. now apply timeout_of_some.
Qed.
End simulation.

(** C7: the sorted array is a refinement of a finite map.  For every sequence of
    gets, inserts and removes at any times, from an empty cache and for any
    conforming [qsort], the code returns what the map returns - stale values are
    dropped, later inserts win, other keys are untouched - and it fails its
    assertion exactly when an insertion meets a live value. *)
Theorem runtime_cache_refines_map {Q : Qsort key} ts os :
  match spec_run (default HYBRIS_PROPERTY_CACHE_DEFAULT_TIMEOUT_SECS ts) os ∅ with
  | Some (rs, m) => exists st', run ts os initial = Ok (rs, st') /\ cache_ok st' /\ view st' = m
  | None => run ts os initial = Abort
  end.
Proof.
  assert (cache_ok initial) as Hok.
  { split; [intros i j a b _ H; discriminate H|constructor|exact I]. }
  change (default HYBRIS_PROPERTY_CACHE_DEFAULT_TIMEOUT_SECS ts) with (timeout_of ts initial).
  change (∅ : gmap str (option str * Z)) with (view initial).
  generalize dependent initial. induction os as [|[now o] os IH]; intros st Hok; cbn [spec_run run].
  - eauto.
  - pose proof (call_simulates ts now o st Hok) as Hc.
    destruct (spec_step (timeout_of ts st) now o (view st)) as [[r m]|]; [|now rewrite Hc].
    destruct Hc as (st1 & -> & Hok1 & <- & Ht). cbn [obind]. specialize (IH st1 Hok1). rewrite Ht in IH.
    destruct (spec_run (timeout_of ts st) os (view st1)) as [[rs m]|]; [|now rewrite IH].
    destruct IH as (st' & -> & H1 & H2). cbn [obind]. eauto.
Qed.

Lemma runtime_cache_refines_map_witness :
  exists st', run (Q:=merge_qsort key) None [(0, Insert [98] [49]); (1, Insert [97] [50]); (5, Get [98]); (12, Get [98]); (13, Get [97])]
    initial = Ok ([None; None; Some [49]; None; None], st') /\ cache_ok st'.
Proof.
  pose proof (runtime_cache_refines_map (Q:=merge_qsort key) None
    [(0, Insert [98] [49]); (1, Insert [97] [50]); (5, Get [98]); (12, Get [98]); (13, Get [97])]) as H.
  vm_compute (spec_run _ _ _) in H. destruct H as (st' & H1 & H2 & _). exists st'. exact (conj H1 H2).
Defined.
End RuntimeCache.
