(* ===== verification/Properties.v ===== *)
(** * Property get, set and list (common/legacy_properties/properties.c)

    The three entry points over the runtime cache, the property-service socket
    and the file cache.  The socket's answers, the clock, the environment and
    the file system are arguments of each call; [array_mutex] makes the
    runtime-cache part of a call one step. *)

From Stdlib Require Import ZArith Lia Bool.
From stdpp Require Import base gmap list numbers option sorting.
From S2P Require Import Prelude CStr PropCache RuntimeCache.

Open Scope Z_scope.
Open Scope outcome_scope.

Module Properties.
Import CStr.

Definition PROP_NAME_MAX : nat := 32.
Definition PROP_VALUE_MAX : nat := 92.
Definition PROP_MSG_SETPROP : Z := 1.
Definition PROP_MSG_GETPROP : Z := 2.
Definition PROP_MSG_LISTPROP : Z := 3.
Definition EIO : Z := 5.

(** The wire message: a command and two fixed-size fields. *)
Record prop_msg := Msg { cmd : Z; name : list Z; value : list Z }.
Definition sizeof_prop_msg : Z := 128.

Definition zero_msg (c : Z) : prop_msg := Msg c (replicate PROP_NAME_MAX 0) (replicate PROP_VALUE_MAX 0).

(** One [recv]: a whole message, a short read, or an error; the end of the list
    is the peer closing the connection. *)
Inductive recv_result := RMsg (m : prop_msg) | RShort | RErr.

(** The system's answers to [socket], [connect], [send] and the [recv]s. *)
Record sock := Sock { s_socket : Z; s_connect : Z; s_send : Z; s_recv : list recv_result }.

(** The [recv] loop: [None] for the early return on a short read, otherwise the
    last [recv] result, the buffer, whether a reply came, and the callback's
    arguments. *)
Fixpoint recv_loop (rs : list recv_result) (msg : prop_msg) (patched_init propfn : bool) (calls : list (str * str))
  : outcome (option (Z * prop_msg * bool) * list (str * str)) :=
  match rs with
  | [] => Ok (Some (0, msg, patched_init), calls)
  | RErr :: _ => Ok (Some (-1, msg, patched_init), calls)
  | RShort :: _ => Ok (None, calls)
  | RMsg msg :: rs =>
      if propfn then
        let! n := cstr (name msg) in
        let! v := cstr (value msg) in
        recv_loop rs msg true propfn (calls ++ [(n, v)])
      else recv_loop rs msg true propfn calls
  end.

(** Result, message buffer, callback arguments, and [send_prop_msg_no_reply]. *)
Definition send_prop_msg (s : sock) (msg : prop_msg) (propfn : bool) (send_prop_msg_no_reply : bool)
  : outcome (Z * prop_msg * list (str * str) * bool) :=
  if send_prop_msg_no_reply then Ok (- EIO, msg, [], true)
  else if s_socket s <? 0 then Ok (-1, msg, [], false)
  else if s_connect s <? 0 then Ok (-1, msg, [], false)
  else if s_send s =? sizeof_prop_msg then
    let! (r, calls) := recv_loop (s_recv s) msg false propfn [] in
    match r with
    | None => Ok (-1, msg, calls, false)
    | Some (r, msg, patched_init) =>
        if (0 <=? r) && (patched_init || (cmd msg =? PROP_MSG_SETPROP))
        then Ok (0, msg, calls, false) else Ok (-1, msg, calls, true)
    end
  else Ok (-1, msg, [], false).

(** Talking to the service never ends the process. *)
Lemma cstr_no_abort buf : cstr buf <> Abort.
Proof. unfold cstr. destruct (split_at 0 buf) as [s [r|]]; done. Qed.

Lemma recv_no_abort rs msg p f calls : recv_loop rs msg p f calls <> Abort.
Proof.
  revert msg p calls. induction rs as [|[m| |] rs IH]; intros msg p calls; cbn [recv_loop]; try done.
  destruct f; [|apply IH]. pose proof (cstr_no_abort (name m)). pose proof (cstr_no_abort (value m)).
  destruct (cstr (name m)); cbn [obind]; [|done..]. destruct (cstr (value m)); cbn [obind]; [apply IH|done..].
Qed.

Lemma send_no_abort s msg f nr : send_prop_msg s msg f nr <> Abort.
Proof.
  unfold send_prop_msg. repeat case_match; try done. pose proof (recv_no_abort (s_recv s) msg false f []).
  destruct (recv_loop _ _ _ _ _) as [[[[[r m] p]|] calls]| |]; cbn [obind]; try done. by case_match.
Qed.

(** The process' property state. *)
Record state := State {
  runtime : RuntimeCache.state;
  file : PropCache.state;
  no_reply : bool;
}.

(** The world during one call: environment setting, clock at the lookup and at
    the insertion, socket answers, file system. *)
Record world := World {
  timeout_str : option Z; t_get : Z; t_insert : Z; socket : sock; fs : PropCache.disk;
}.

Section properties.
Context {QF : Qsort PropCache.key} {QR : Qsort RuntimeCache.key}.

Definition my_property_list (w : world) (propfn : bool) (st : state) : outcome (Z * list (str * str) * state) :=
  let! (err, _, calls, nr) := send_prop_msg (socket w) (zero_msg PROP_MSG_LISTPROP) propfn (no_reply st) in
  if err <? 0 then
    let! (more, f) := PropCache.hybris_propcache_list (fs w) propfn (file st) in
    Ok (0, calls ++ more, State (runtime st) f nr)
  else Ok (0, calls, State (runtime st) (file st) nr).

(** The value copied to the caller, when the code returns 0. *)
Definition property_get_socket (s : sock) (key default_value : option str) (nr : bool)
  : outcome (Z * option str * bool) :=
  let msg := zero_msg PROP_MSG_GETPROP in
  let! (err, msg, nr) :=
    (match key with
     | None => Ok (0, msg, nr)
     | Some key =>
         let msg := Msg (cmd msg) (strncpy key PROP_NAME_MAX) (value msg) in
         let! (err, msg, _, nr) := send_prop_msg s msg false nr in
         Ok (err, msg, nr)
     end) in
  if err <? 0 then Ok (err, None, nr) else
  let! v := cstr (value msg) in
  match v, default_value with
  | [], Some d =>
      if (PROP_VALUE_MAX - 1 <? length d)%nat then Ok (-1, None, nr) else Ok (0, Some d, nr)
  | v, _ => Ok (0, Some v, nr)
  end.

Lemma socket_no_abort s key d nr : property_get_socket s key d nr <> Abort.
Proof.
  unfold property_get_socket.
  assert (forall (c : outcome (Z * prop_msg * bool)), c <> Abort ->
    (let! (err, msg, nr) := c in
     if err <? 0 then Ok (err, None, nr) else
     let! v := cstr (value msg) in
     match v, d with
     | [], Some d => if (PROP_VALUE_MAX - 1 <? length d)%nat then Ok (-1, None, nr) else Ok (0, Some d, nr)
     | v, _ => Ok (0, Some v, nr)
     end) <> Abort) as H.
  { intros [[[err m] n]| |] Hc; cbn [obind]; try done. case_match; [done|].
    pose proof (cstr_no_abort (value m)). destruct (cstr (value m)) as [[|x v]| |]; cbn [obind]; try done;
      destruct d; try done; by case_match. }
  apply H. destruct key as [k|]; [|done]. cbv zeta.
  pose proof (send_no_abort s (Msg (cmd (zero_msg PROP_MSG_GETPROP)) (strncpy k PROP_NAME_MAX) (value (zero_msg PROP_MSG_GETPROP))) false nr).
  destruct (send_prop_msg _ _ _ _) as [[[[? ?] ?] ?]| |]; done.
Qed.

(** Returns the code and what was written to [value], if anything. *)
Definition my_property_get (w : world) (key : option str) (value_ok : bool) (default_value : option str) (st : state)
  : outcome (Z * option str * state) :=
  if match key with Some k => (PROP_NAME_MAX - 1 <? length k)%nat | None => false end then Ok (-1, None, st)
  else if negb value_ok then Ok (-1, None, st)
  else
    let! (hit, rc) := RuntimeCache.runtime_cache_get (timeout_str w) (t_get w) key (runtime st) in
    match hit with
    | Some v => Ok (Z.of_nat (length v), Some v, State rc (file st) (no_reply st))
    | None =>
        let! (err, v, nr) := property_get_socket (socket w) key default_value (no_reply st) in
        match err, v with
        | 0, Some v =>
            let! rc := RuntimeCache.runtime_cache_insert (timeout_str w) (t_insert w) key v rc in
            Ok (Z.of_nat (length v), Some v, State rc (file st) nr)
        | _, _ =>
            let! (ret, f) := PropCache.hybris_propcache_find (fs w) key (file st) in
            let st := State rc f nr in
            match ret, default_value with
            | Some v, _ => Ok (Z.of_nat (length v), Some v, st)
            | None, Some d => Ok (Z.of_nat (length d), Some d, st)
            | None, None => Ok (0, None, st)
            end
        end
    end.

Definition my_property_set (w : world) (key value_ : option str) (st : state) : outcome (Z * state) :=
  match key with
  | None => Ok (-1, st)
  | Some k =>
      let v := default [] value_ in
      if (PROP_NAME_MAX - 1 <? length k)%nat then Ok (-1, st)
      else if (PROP_VALUE_MAX - 1 <? length v)%nat then Ok (-1, st)
      else
        let! rc := RuntimeCache.runtime_cache_remove (timeout_str w) (Some k) (runtime st) in
        let msg := Msg PROP_MSG_SETPROP (strncpy k PROP_NAME_MAX) (strncpy v PROP_VALUE_MAX) in
        let! (err, _, _, nr) := send_prop_msg (socket w) msg false (no_reply st) in
        let st := State rc (file st) nr in
        if err <? 0 then Ok (err, st) else Ok (0, st)
  end.

(** ** Lookups *)

Abbreviation rview := (fun st => RuntimeCache.view (runtime st)).
Abbreviation rok := (fun st => RuntimeCache.cache_ok (runtime st)).
Abbreviation cached := (fun ts now st k =>
  RuntimeCache.fresh (RuntimeCache.timeout_of ts (runtime st)) now (RuntimeCache.view (runtime st)) k).

Definition legal_key (k : str) : Prop := (length k < PROP_NAME_MAX)%nat.

Lemma legal_test k : legal_key k -> (PROP_NAME_MAX - 1 <? length k)%nat = false.
Proof. unfold legal_key, PROP_NAME_MAX. intros. apply Nat.ltb_ge. lia. Qed.

(** The call after its guards, by what the runtime cache holds. *)
Lemma get_hit w k d st v :
  legal_key k -> rok st -> cached (timeout_str w) (t_get w) st k = Some v ->
  exists st', my_property_get w (Some k) true d st = Ok (Z.of_nat (length v), Some v, st') /\
    rok st' /\ file st' = file st /\ no_reply st' = no_reply st.
Proof.
  intros Hk Hok Hc. unfold my_property_get. rewrite legal_test by done. cbn [negb].
  destruct (RuntimeCache.get_view (timeout_str w) (t_get w) k (runtime st) Hok) as (rc & E & H1 & _).
  unfold RuntimeCache.timeout_of in Hc. rewrite Hc in E. rewrite E. cbn [obind]. eauto.
Qed.

Lemma get_miss w k d st :
  legal_key k -> rok st -> cached (timeout_str w) (t_get w) st k = None ->
  exists rc, RuntimeCache.cache_ok rc /\
    RuntimeCache.timeout_of (timeout_str w) rc = RuntimeCache.timeout_of (timeout_str w) (runtime st) /\
    (forall v t, RuntimeCache.view rc !! k <> Some (Some v, t)) /\
    my_property_get w (Some k) true d st =
      (let! (err, v, nr) := property_get_socket (socket w) (Some k) d (no_reply st) in
       match err, v with
       | 0, Some v =>
           let! rc := RuntimeCache.runtime_cache_insert (timeout_str w) (t_insert w) (Some k) v rc in
           Ok (Z.of_nat (length v), Some v, State rc (file st) nr)
       | _, _ =>
           let! (ret, f) := PropCache.hybris_propcache_find (fs w) (Some k) (file st) in
           let st := State rc f nr in
           match ret, d with
           | Some v, _ => Ok (Z.of_nat (length v), Some v, st)
           | None, Some d => Ok (Z.of_nat (length d), Some d, st)
           | None, None => Ok (0, None, st)
           end
       end).
Proof.
  intros Hk Hok Hc.
  destruct (RuntimeCache.get_view (timeout_str w) (t_get w) k (runtime st) Hok) as (rc & E & H1 & H2 & H3 & H4).
  unfold RuntimeCache.timeout_of in Hc. rewrite Hc in E, H4. exists rc. split; [done|].
  split; [now apply RuntimeCache.timeout_of_some|]. split.
  - intros v t. rewrite H4. destruct (RuntimeCache.view (runtime st) !! k) as [[[v'|] t']|] eqn:Ek; [|congruence..].
    rewrite lookup_insert_eq. congruence.
  - unfold my_property_get. rewrite legal_test by done. cbn [negb]. now rewrite E.
Qed.

(** The socket supplies the value: it is returned and cached. *)
Lemma get_from_socket w k d st v nr :
  legal_key k -> rok st -> cached (timeout_str w) (t_get w) st k = None ->
  property_get_socket (socket w) (Some k) d (no_reply st) = Ok (0, Some v, nr) ->
  exists st', my_property_get w (Some k) true d st = Ok (Z.of_nat (length v), Some v, st') /\ rok st' /\
    RuntimeCache.view (runtime st') !! k = Some (Some v, t_insert w) /\
    RuntimeCache.prop_array (runtime st') <> None /\
    RuntimeCache.timeout_of (timeout_str w) (runtime st') = RuntimeCache.timeout_of (timeout_str w) (runtime st).
Proof.
  intros Hk Hok Hc Hs. destruct (get_miss w k d st Hk Hok Hc) as (rc & R1 & R2 & R3 & ->).
  rewrite Hs. cbn [obind].
  destruct (RuntimeCache.insert_view (timeout_str w) (t_insert w) k v rc R1 R3) as (rc' & -> & I1 & I2 & I3 & I4).
  cbn [obind]. eexists. split; [reflexivity|]. cbn [runtime]. split; [done|].
  rewrite I4, lookup_insert_eq. split; [done|]. split; [done|].
  rewrite <- R2. now apply RuntimeCache.timeout_of_some.
Qed.

Lemma timeout_started ts ts' rc :
  RuntimeCache.prop_array rc <> None -> RuntimeCache.timeout_of ts rc = RuntimeCache.timeout_of ts' rc.
Proof.
  intros H. unfold RuntimeCache.timeout_of, RuntimeCache.runtime_cache_ensure_initialized.
  now destruct (RuntimeCache.prop_array rc).
Qed.
End properties.

(** A value the property service supplied is answered from the runtime cache
    for the whole timeout: any later get of the same key within it returns the
    same value and length, whatever the socket, the file system or the new
    default say, and asks neither. *)
Theorem property_get_cached {QF : Qsort PropCache.key} {QR : Qsort RuntimeCache.key} w1 w2 k d1 d2 st v nr :
  legal_key k -> RuntimeCache.cache_ok (runtime st) ->
  RuntimeCache.fresh (RuntimeCache.timeout_of (timeout_str w1) (runtime st)) (t_get w1)
    (RuntimeCache.view (runtime st)) k = None ->
  property_get_socket (socket w1) (Some k) d1 (no_reply st) = Ok (0, Some v, nr) ->
  t_get w2 - t_insert w1 <= RuntimeCache.timeout_of (timeout_str w1) (runtime st) ->
  exists st1 st2,
    my_property_get w1 (Some k) true d1 st = Ok (Z.of_nat (length v), Some v, st1) /\
    my_property_get w2 (Some k) true d2 st1 = Ok (Z.of_nat (length v), Some v, st2) /\
    file st2 = file st1 /\ no_reply st2 = no_reply st1.
Proof.
  intros Hk Hok Hc Hs Ht. destruct (get_from_socket w1 k d1 st v nr Hk Hok Hc Hs) as (st1 & E1 & Hok1 & Hv & Hn & Hto).
  destruct (get_hit w2 k d2 st1 v Hk Hok1) as (st2 & E2 & _ & F1 & F2); [|exists st1, st2; auto].
  unfold RuntimeCache.fresh. rewrite Hv, (timeout_started _ (timeout_str w1)), Hto by done.
  now rewrite (proj2 (Z.ltb_ge _ _) Ht).
Qed.

(** A property service that answers every get with the value "7". *)
Definition demo_reply : prop_msg := Msg 2 (replicate 32 0) (strncpy [55] 92).
Definition demo_state : state := State RuntimeCache.initial (PropCache.State [] 0 0) false.

Lemma initial_cache_ok : RuntimeCache.cache_ok RuntimeCache.initial.
Proof. split; [intros i j a b _ H; discriminate H|constructor|exact I]. Qed.

Lemma property_get_cached_witness :
  exists st1 st2,
    my_property_get (QF:=merge_qsort _) (QR:=merge_qsort _)
      (World None 100 100 (Sock 3 0 128 [RMsg demo_reply]) (PropCache.Disk None None)) (Some [97]) true None demo_state
      = Ok (1, Some [55], st1) /\
    my_property_get (QF:=merge_qsort _) (QR:=merge_qsort _)
      (World None 105 105 (Sock (-1) 0 0 []) (PropCache.Disk None None)) (Some [97]) true (Some [56]) st1
      = Ok (1, Some [55], st2).
Proof.
  destruct (property_get_cached (QF:=merge_qsort _) (QR:=merge_qsort _)
    (World None 100 100 (Sock 3 0 128 [RMsg demo_reply]) (PropCache.Disk None None))
    (World None 105 105 (Sock (-1) 0 0 []) (PropCache.Disk None None)) [97] None (Some [56]) demo_state [55] false)
    as (st1 & st2 & H1 & H2 & _).
  - unfold legal_key, PROP_NAME_MAX. cbn. lia.
  - exact initial_cache_ok.
  - reflexivity.
  - vm_compute. reflexivity.
  - vm_compute. congruence.
  - exists st1, st2. exact (conj H1 H2).
Defined.

(** The default a caller passes for an unset property is stored as the
    property's value, so another caller's default is ignored until the entry
    expires. *)
Theorem property_get_default_sticks {QF : Qsort PropCache.key} {QR : Qsort RuntimeCache.key} w1 w2 k d1 d2 st nr msg calls :
  legal_key k -> RuntimeCache.cache_ok (runtime st) ->
  RuntimeCache.fresh (RuntimeCache.timeout_of (timeout_str w1) (runtime st)) (t_get w1)
    (RuntimeCache.view (runtime st)) k = None ->
  send_prop_msg (socket w1) (Msg PROP_MSG_GETPROP (strncpy k PROP_NAME_MAX) (replicate PROP_VALUE_MAX 0)) false (no_reply st)
    = Ok (0, msg, calls, nr) ->
  cstr (value msg) = Ok [] -> (length d1 < PROP_VALUE_MAX)%nat ->
  t_get w2 - t_insert w1 <= RuntimeCache.timeout_of (timeout_str w1) (runtime st) ->
  exists st1 st2,
    my_property_get w1 (Some k) true (Some d1) st = Ok (Z.of_nat (length d1), Some d1, st1) /\
    my_property_get w2 (Some k) true (Some d2) st1 = Ok (Z.of_nat (length d1), Some d1, st2).
Proof.
  intros Hk Hok Hc Hs Hv Hd Ht.
  assert (property_get_socket (socket w1) (Some k) (Some d1) (no_reply st) = Ok (0, Some d1, nr)) as Hsock.
  { unfold property_get_socket, zero_msg. cbn [cmd value]. rewrite Hs. cbn [obind Z.ltb Z.compare]. rewrite Hv. cbn [obind].
    rewrite (proj2 (Nat.ltb_ge (PROP_VALUE_MAX - 1) (length d1))); [done|]. unfold PROP_VALUE_MAX in *. lia. }
  destruct (get_from_socket w1 k (Some d1) st d1 nr Hk Hok Hc Hsock) as (st1 & E1 & Hok1 & Hv1 & Hn & Hto).
  destruct (get_hit w2 k (Some d2) st1 d1 Hk Hok1) as (st2 & E2 & _); [|exists st1, st2; auto].
  unfold RuntimeCache.fresh. rewrite Hv1, (timeout_started _ (timeout_str w1)), Hto by done.
  now rewrite (proj2 (Z.ltb_ge _ _) Ht).
Qed.

Lemma property_get_default_sticks_witness :
  exists st1 st2,
    my_property_get (QF:=merge_qsort _) (QR:=merge_qsort _)
      (World None 100 100 (Sock 3 0 128 [RMsg (zero_msg 2)]) (PropCache.Disk None None)) (Some [97]) true (Some [49]) demo_state
      = Ok (1, Some [49], st1) /\
    my_property_get (QF:=merge_qsort _) (QR:=merge_qsort _)
      (World None 105 105 (Sock (-1) 0 0 []) (PropCache.Disk None None)) (Some [97]) true (Some [50]) st1
      = Ok (1, Some [49], st2).
Proof.
  apply (property_get_default_sticks (QF:=merge_qsort _) (QR:=merge_qsort _)
    (World None 100 100 (Sock 3 0 128 [RMsg (zero_msg 2)]) (PropCache.Disk None None))
    (World None 105 105 (Sock (-1) 0 0 []) (PropCache.Disk None None)) [97] [49] [50] demo_state false (zero_msg 2) []).
  - unfold legal_key, PROP_NAME_MAX. cbn. lia.
  - exact initial_cache_ok.
  - reflexivity.
  - vm_compute. reflexivity.
  - vm_compute. reflexivity.
  - unfold PROP_VALUE_MAX. cbn. lia.
  - vm_compute. congruence.
Defined.

(** Setting a property drops its cached value and nothing else: afterwards no
    get of that key is answered from the runtime cache at any time, and every
    other key keeps its entry. *)
Theorem property_set_invalidates w k v st r st' :
  legal_key k -> (length v < PROP_VALUE_MAX)%nat -> RuntimeCache.cache_ok (runtime st) ->
  my_property_set w (Some k) (Some v) st = Ok (r, st') ->
  RuntimeCache.cache_ok (runtime st') /\
  (forall timeout now, RuntimeCache.fresh timeout now (RuntimeCache.view (runtime st')) k = None) /\
  (forall k', k' <> k -> RuntimeCache.view (runtime st') !! k' = RuntimeCache.view (runtime st) !! k').
Proof.
  intros Hk Hv Hok H. unfold my_property_set in H. rewrite legal_test in H by done. cbn [default] in H.
  change (id v) with v in H.
  rewrite (proj2 (Nat.ltb_ge (PROP_VALUE_MAX - 1) (length v))) in H by (unfold PROP_VALUE_MAX in *; lia).
  destruct (RuntimeCache.remove_view (timeout_str w) k (runtime st) Hok) as (rc & E & H1 & H2 & H3 & H4).
  rewrite E in H. cbn [obind] in H. apply obind_ok in H as ([[[err m] calls] nr] & _ & H).
  assert (runtime st' = rc) as ->.
  { destruct (err <? 0); injection H as <- <-; done. }
  split; [done|]. rewrite H4. split.
  - intros timeout now. unfold RuntimeCache.fresh. rewrite lookup_alter_eq.
    now destruct (RuntimeCache.view (runtime st) !! k) as [[? ?]|].
  - intros k' Hne. now rewrite lookup_alter_ne.
Qed.

Lemma property_set_invalidates_witness :
  exists r st', my_property_set
      (World None 0 0 (Sock 3 0 128 []) (PropCache.Disk None None)) (Some [97]) (Some [49]) demo_state = Ok (r, st') /\
    r = 0 /\ RuntimeCache.fresh 10 0 (RuntimeCache.view (runtime st')) [97] = None.
Proof.
  eexists _, _. split; [vm_compute; reflexivity|]. split; [reflexivity|].
  refine (proj1 (proj2 (property_set_invalidates
    (World None 0 0 (Sock 3 0 128 []) (PropCache.Disk None None)) [97] [49] demo_state 0 _ _ _ initial_cache_ok _)) 10 0).
  - unfold legal_key, PROP_NAME_MAX. cbn. lia.
  - unfold PROP_VALUE_MAX. cbn. lia.
  - vm_compute. reflexivity.
Defined.

(** The runtime cache's assertion never fails: from a well-formed cache, a get
    with a key leaves a well-formed cache, and the only way it ends the process
    is the file cache running out of slots. *)
Theorem property_get_never_asserts {QF : Qsort PropCache.key} {QR : Qsort RuntimeCache.key} w k value_ok d st :
  RuntimeCache.cache_ok (runtime st) ->
  match my_property_get w (Some k) value_ok d st with
  | Ok (_, _, st') => RuntimeCache.cache_ok (runtime st')
  | Abort => PropCache.cache_update (fs w) (file st) = Abort
  | Undef => True
  end.
Proof.
  intros Hok. destruct (Nat.ltb_spec (PROP_NAME_MAX - 1) (length k)) as [Hl|Hl].
  { unfold my_property_get. rewrite (proj2 (Nat.ltb_lt _ _) Hl). done. }
  assert (legal_key k) as Hk by (unfold legal_key, PROP_NAME_MAX in *; lia).
  destruct value_ok; [|unfold my_property_get; rewrite legal_test by done; done].
  destruct (RuntimeCache.fresh (RuntimeCache.timeout_of (timeout_str w) (runtime st)) (t_get w)
    (RuntimeCache.view (runtime st)) k) as [v|] eqn:Hc.
  { destruct (get_hit w k d st v Hk Hok Hc) as (st' & -> & H & _). exact H. }
  destruct (get_miss w k d st Hk Hok Hc) as (rc & R1 & _ & R3 & ->).
  assert (property_get_socket (socket w) (Some k) d (no_reply st) <> Abort) as Hna.
  { apply socket_no_abort. }
  destruct (property_get_socket (socket w) (Some k) d (no_reply st)) as [[[err v] nr]| |]; cbn [obind]; [|done..].
  assert (match (let! (ret, f) := PropCache.hybris_propcache_find (fs w) (Some k) (file st) in
                 match ret, d with
                 | Some v, _ => Ok (Z.of_nat (length v), Some v, State rc f nr)
                 | None, Some d => Ok (Z.of_nat (length d), Some d, State rc f nr)
                 | None, None => Ok (0, None, State rc f nr)
                 end) with
          | Ok (_, _, st') => RuntimeCache.cache_ok (runtime st')
          | Abort => PropCache.cache_update (fs w) (file st) = Abort
          | Undef => True
          end) as Hfile.
  { unfold PropCache.hybris_propcache_find.
    destruct (PropCache.cache_update (fs w) (file st)) as [f| |]; cbn [obind PropCache.cache_find_internal]; [|done..].
    destruct (_ <$> _); [done|]. now destruct d. }
  destruct err as [|e|e]; [|exact Hfile..]. destruct v as [v|]; [|exact Hfile].
  destruct (RuntimeCache.insert_view (timeout_str w) (t_insert w) k v rc R1 R3) as (rc' & -> & I1 & _). exact I1.
Qed.

Lemma property_get_never_asserts_witness :
  match my_property_get (QF:=merge_qsort _) (QR:=merge_qsort _)
      (World None 100 100 (Sock 3 0 128 [RMsg demo_reply]) (PropCache.Disk None None)) (Some [97]) true None demo_state with
  | Ok (_, _, st') => RuntimeCache.cache_ok (runtime st')
  | Abort => PropCache.cache_update (Q:=merge_qsort _) (PropCache.Disk None None) (PropCache.State [] 0 0) = Abort
  | Undef => True
  end.
Proof.
  exact (property_get_never_asserts (QF:=merge_qsort _) (QR:=merge_qsort _)
    (World None 100 100 (Sock 3 0 128 [RMsg demo_reply]) (PropCache.Disk None None)) [97] true None demo_state initial_cache_ok).
Defined.

(** A null key, which the code tests for twice, always ends in undefined
    behaviour (a null pointer in [strcmp] or [strdup]) when the default fits. *)
Theorem property_get_null_key_undefined {QF : Qsort PropCache.key} {QR : Qsort RuntimeCache.key} w d st :
  match d with Some d => (length d < PROP_VALUE_MAX)%nat | None => True end ->
  my_property_get w None true d st = Undef.
Proof.
  intros Hd. unfold my_property_get. cbn [negb]. unfold RuntimeCache.runtime_cache_get, RuntimeCache.runtime_cache_get_impl,
    RuntimeCache.cache_find_internal.
  destruct (RuntimeCache.entries (RuntimeCache.runtime_cache_ensure_initialized (timeout_str w) (runtime st))) eqn:E; [|done].
  cbn [obind mbind option_bind].
  set (rc := RuntimeCache.runtime_cache_ensure_initialized (timeout_str w) (runtime st)) in *.
  assert (forall v, RuntimeCache.runtime_cache_insert (timeout_str w) (t_insert w) None v rc = Undef) as Hi.
  { intros v. unfold RuntimeCache.runtime_cache_insert, RuntimeCache.runtime_cache_insert_impl, RuntimeCache.cache_find_internal.
    assert (RuntimeCache.entries (RuntimeCache.runtime_cache_ensure_initialized (timeout_str w) rc) = []) as ->; [|done].
    unfold rc, RuntimeCache.runtime_cache_ensure_initialized in *.
    destruct (RuntimeCache.prop_array (runtime st)) as [l|] eqn:El; cbn; [rewrite El; exact E|done]. }
  unfold property_get_socket, zero_msg. cbn [obind value Z.ltb Z.compare].
  change (cstr (replicate PROP_VALUE_MAX 0)) with (Ok ([] : str)). cbn [obind].
  destruct d as [d|]; [|cbn [obind]; now rewrite Hi].
  rewrite (proj2 (Nat.ltb_ge (PROP_VALUE_MAX - 1) (length d))) by (unfold PROP_VALUE_MAX in *; lia).
  cbn [obind]. now rewrite Hi.
Qed.

Lemma property_get_null_key_undefined_witness :
  my_property_get (QF:=merge_qsort _) (QR:=merge_qsort _)
    (World None 0 0 (Sock 3 0 128 []) (PropCache.Disk None None)) None true (Some [49]) demo_state = Undef.
Proof. apply property_get_null_key_undefined. unfold PROP_VALUE_MAX. cbn. lia. Defined.

(** When neither cache nor service nor file knows the key and there is no
    default, the call returns 0 and writes nothing: the caller's buffer is left
    as it was, although the code means to make it the empty string. *)
Theorem property_get_leaves_buffer {QF : Qsort PropCache.key} {QR : Qsort RuntimeCache.key} w k st err nr f :
  legal_key k -> RuntimeCache.cache_ok (runtime st) ->
  RuntimeCache.fresh (RuntimeCache.timeout_of (timeout_str w) (runtime st)) (t_get w)
    (RuntimeCache.view (runtime st)) k = None ->
  property_get_socket (socket w) (Some k) None (no_reply st) = Ok (err, None, nr) ->
  PropCache.hybris_propcache_find (fs w) (Some k) (file st) = Ok (None, f) ->
  exists st', my_property_get w (Some k) true None st = Ok (0, None, st').
Proof.
  intros Hk Hok Hc Hs Hf. destruct (get_miss w k None st Hk Hok Hc) as (rc & _ & _ & _ & ->).
  rewrite Hs. cbn [obind]. rewrite Hf. cbn [obind]. destruct err; eauto.
Qed.

Lemma property_get_leaves_buffer_witness :
  exists st', my_property_get (QF:=merge_qsort _) (QR:=merge_qsort _)
    (World None 0 0 (Sock (-1) 0 0 []) (PropCache.Disk None None)) (Some [97]) true None demo_state = Ok (0, None, st').
Proof.
  apply (property_get_leaves_buffer (QF:=merge_qsort _) (QR:=merge_qsort _) _ _ _ (-1) false (PropCache.State [] 0 0)).
  - unfold legal_key, PROP_NAME_MAX. cbn. lia.
  - exact initial_cache_ok.
  - reflexivity.
  - vm_compute. reflexivity.
  - vm_compute. reflexivity.
Defined.
End Properties.
