(* ===== verification/TlsArena.v ===== *)
(** * Per-thread bionic TLS arenas (common/bionic_tls.c)

    Each thread lazily maps a 16 MiB arena holding the simulated bionic thread
    control block and the static TLS of every promoted module.  A process-wide
    append-only registry records the promotions; a thread replays the entries it
    has not seen, from its own cursor.  Threads take these calls as atomic steps
    ([g_promoted_tls.mutex]); the published counter is read without the mutex,
    so a thread may see an older value of it. *)

From Stdlib Require Import ZArith Lia Bool.
From stdpp Require Import base gmap list numbers option relations.
From S2P Require Import Prelude.

Open Scope Z_scope.
Open Scope outcome_scope.

Module TlsArena.

Definition BIONIC_TLS_RESERVE_SIZE : Z := 16 * 1024 * 1024.
Definition BIONIC_TPIDR_OFFSET : Z := 8.
Definition BIONIC_TLS_PTR_OFFSET : Z := 0.
Definition BIONIC_THREAD_ID_PTR_OFFSET : Z := BIONIC_TPIDR_OFFSET + 8.

(** Arena bytes by offset; an absent byte is a zero of an untouched page. *)
Abbreviation bytes := (gmap Z Z).

Fixpoint write_bytes (off : Z) (data : list Z) (m : bytes) : bytes :=
  match data with
  | [] => m
  | b :: data => <[off := b]> (write_bytes (off + 1) data m)
  end.

Definition byte_at (m : bytes) (off : Z) : Z := default 0 (m !! off).

(** A pointer as its eight little-endian bytes. *)
Definition le64 (p : Z) : list Z := (fun i => Z.land (Z.shiftr p (8 * Z.of_nat i)) 255) <$> seq 0 8.

(** The thread-local variables; [thread_pointer] is [None] for NULL, otherwise
    the arena's address and contents. *)
Record thread := Thread {
  arena : option (Z * bytes);
  tls_inited : bool;
  tls_module_init_count : nat;
  errno : Z;
}.

Definition new_thread (errno : Z) : thread := Thread None false 0 errno.

Record hybris_promoted_tls := Promoted {
  static_offset : Z; init_data : list Z; init_size : Z; segment_size : Z;
}.

(** [g_promoted_tls] and the published count; [count] is the list's length. *)
Record registry := Registry {
  entries : list hybris_promoted_tls; capacity : Z; published : nat;
}.

(** Answers of the system during one call: [mmap], [pthread_key_create],
    [pthread_setspecific], the two [calloc]s, [malloc], [realloc], and the [errno]
    the calls leave behind.  What the two calloc'ed blocks hold is not
    represented, only their addresses in the control block. *)
Record sysres := Sys {
  s_mmap : option Z; s_key : Z; s_setspecific : Z; s_btls : Z; s_shadow : Z;
  s_malloc : bool; s_realloc : bool; s_errno : Z;
}.

Definition _bionic_tls_cleanup (t : thread) : thread := Thread None false 0 (errno t).

Definition hybris_ensure_static_tls (s : sysres) (t : thread) : outcome thread :=
  match arena t with
  | Some _ => Ok t
  | None =>
      match s_mmap s with
      | None => Abort
      | Some area =>
          if negb (s_key s =? 0) then Abort
          else if negb (s_setspecific s =? 0) then Abort
          else Ok (Thread (Some (area, ∅)) (tls_inited t) (tls_module_init_count t) (s_errno s))
      end
  end.

(** The range check both functions make; the subtraction is on [size_t]. *)
Definition bad_range (static_offset segment_size init_size : Z) : bool :=
  (BIONIC_TLS_RESERVE_SIZE <? static_offset) ||
  (u64 (BIONIC_TLS_RESERVE_SIZE - static_offset) <? segment_size) ||
  (segment_size <? init_size).

Definition map_arena (f : bytes -> bytes) (t : thread) : outcome thread :=
  match arena t with
  | Some (a, m) => Ok (Thread (Some (a, f m)) (tls_inited t) (tls_module_init_count t) (errno t))
  | None => Undef
  end.

Definition hybris_apply_static_tls_locked (s : sysres) (e : hybris_promoted_tls) (t : thread) : outcome thread :=
  if bad_range (static_offset e) (segment_size e) (init_size e) then Abort else
  let! t := hybris_ensure_static_tls s t in
  if 0 <? init_size e
  then map_arena (write_bytes (static_offset e) (take (Z.to_nat (init_size e)) (init_data e))) t
  else Ok t.

(** [for (i = tls_module_init_count; i < count; i++)] over the missing suffix. *)
Fixpoint apply_all (s : sysres) (es : list hybris_promoted_tls) (t : thread) : outcome thread :=
  match es with
  | [] => Ok t
  | e :: es => let! t := hybris_apply_static_tls_locked s e t in apply_all s es t
  end.

Definition catch_up (s : sysres) (g : registry) (t : thread) : outcome thread :=
  let! t := apply_all s (drop (tls_module_init_count t) (entries g)) t in
  Ok (Thread (arena t) (tls_inited t) (length (entries g)) (errno t)).

(** [init_ptr] is the module's initialisation image, [None] for NULL. *)
Definition _hybris_init_static_tls_for_thread (s : sysres) (static_offset : Z) (init_ptr : option (list Z))
  (init_size segment_size : Z) (g : registry) (t : thread) : outcome (registry * thread) :=
  if bad_range static_offset segment_size init_size ||
     (negb (init_size =? 0) && match init_ptr with None => true | Some _ => false end) then Abort else
  let! owned_init :=
    (if 0 <? init_size then
       if s_malloc s then
         match init_ptr with
         | Some p => if Z.of_nat (length p) <? init_size then Undef else Ok (take (Z.to_nat init_size) p)
         | None => Undef
         end
       else Abort
     else Ok []) in
  let! capacity :=
    (if Z.of_nat (length (entries g)) =? capacity g then
       if s_realloc s then Ok (if capacity g =? 0 then 16 else capacity g * 2) else Abort
     else Ok (capacity g)) in
  if capacity <=? Z.of_nat (length (entries g)) then Undef else
  let g := Registry (entries g ++ [Promoted static_offset owned_init init_size segment_size]) capacity (published g) in
  let! t := catch_up s g t in
  Ok (Registry (entries g) capacity (length (entries g)), t).

(** [seen]: the value the acquire load of the published count returns. *)
Definition _hybris_hook___get_tls_hooks (s : sysres) (seen : nat) (g : registry) (t : thread) : outcome (Z * thread) :=
  let! t :=
    (if negb (tls_inited t) then
       let! t := hybris_ensure_static_tls s t in
       if s_btls s =? 0 then Abort else
       let! t := map_arena (write_bytes BIONIC_TLS_PTR_OFFSET (le64 (s_btls s))) t in
       if s_shadow s =? 0 then Abort else
       let! t := map_arena (write_bytes BIONIC_THREAD_ID_PTR_OFFSET (le64 (s_shadow s))) t in
       Ok (Thread (arena t) true (tls_module_init_count t) (s_errno s))
     else Ok t) in
  let! t := (if negb (tls_module_init_count t =? seen)%nat then catch_up s g t else Ok t) in
  match arena t with
  | Some (a, _) => Ok (a + BIONIC_TPIDR_OFFSET, t)
  | None => Undef
  end.

Definition hybris_tls_first_touch_c (s : sysres) (seen : nat) (g : registry) (t : thread) : outcome thread :=
  let saved_errno := errno t in
  let! (_, t) := _hybris_hook___get_tls_hooks s seen g t in
  Ok (Thread (arena t) (tls_inited t) (tls_module_init_count t) saved_errno).

(** ** Byte ranges *)

Lemma write_bytes_lookup off data m k :
  write_bytes off data m !! k =
  if decide (off <= k < off + Z.of_nat (length data)) then data !! Z.to_nat (k - off) else m !! k.
Proof.
  revert off. induction data as [|b data IH]; intros off; cbn [write_bytes length].
  - case_decide; [lia|done].
  - destruct (decide (off = k)) as [->|Hne].
    + rewrite lookup_insert_eq, decide_True by lia. now rewrite Z.sub_diag.
    + rewrite lookup_insert_ne, IH by done. case_decide; case_decide; try lia; [|done].
      replace (Z.to_nat (k - off)) with (S (Z.to_nat (k - (off + 1)))) by lia. done.
Qed.

Lemma bad_range_spec off seg ini :
  in_range 64 off -> in_range 64 seg -> in_range 64 ini ->
  bad_range off seg ini = false <-> off + seg <= BIONIC_TLS_RESERVE_SIZE /\ ini <= seg.
Proof.
  unfold in_range, bad_range, BIONIC_TLS_RESERVE_SIZE. intros H1 H2 H3. rewrite !orb_false_iff, !Z.ltb_ge.
  split; [intros [[A B] C]|intros [A B]].
  - rewrite wrap_small in B by (unfold in_range; lia). lia.
  - rewrite wrap_small by (unfold in_range; lia). lia.
Qed.

(** ** Registered modules *)

Definition TCB_SIZE : Z := 72.

(** A registered module: after the control block, inside the arena, with its image. *)
Definition entry_ok (e : hybris_promoted_tls) : Prop :=
  TCB_SIZE <= static_offset e /\ 0 <= init_size e <= segment_size e /\
  static_offset e + segment_size e <= BIONIC_TLS_RESERVE_SIZE /\
  Z.of_nat (length (init_data e)) = init_size e.

Definition in_segment (e : hybris_promoted_tls) (off : Z) : Prop :=
  static_offset e <= off < static_offset e + segment_size e.

Definition apart (e e' : hybris_promoted_tls) : Prop := forall off, in_segment e off -> ~ in_segment e' off.

Definition registry_ok (g : registry) : Prop :=
  Forall entry_ok (entries g) /\
  (forall i j e e', entries g !! i = Some e -> entries g !! j = Some e' -> i <> j -> apart e e') /\
  published g = length (entries g) /\ Z.of_nat (length (entries g)) <= capacity g.

(** The byte a module's image puts at [off]: zero in its .tbss. *)
Definition image_byte (e : hybris_promoted_tls) (off : Z) : Z :=
  default 0 (init_data e !! Z.to_nat (off - static_offset e)).

(** What a thread must see at [off]: the last store there, unless the image of a
    module applied since covers it; without a store the image of the
    module that owns the byte, else zero. *)
Fixpoint image (es : list hybris_promoted_tls) (off : Z) : Z :=
  match es with
  | [] => 0
  | e :: es => if decide (static_offset e <= off < static_offset e + init_size e) then image_byte e off else image es off
  end.
(** The last store to a byte: how many modules the thread had applied then, and the value. *)
Abbreviation stores := (gmap Z (nat * Z)).
Definition covers (off : Z) (e : hybris_promoted_tls) : bool := bool_decide (static_offset e <= off < static_offset e + init_size e).
Definition expect (es : list hybris_promoted_tls) (own : stores) (off : Z) : Z :=
  match own !! off with
  | Some (k, b) => if existsb (covers off) (drop k es) then image es off else b
  | None => image es off
  end.

Lemma image_snoc es e off :
  entry_ok e -> (forall e', e' ∈ es -> entry_ok e' /\ apart e' e) ->
  image (es ++ [e]) off =
  if decide (static_offset e <= off < static_offset e + init_size e) then image_byte e off else image es off.
Proof.
  intros (He1 & He2 & He3 & He4) Hd. induction es as [|x es IH]; cbn [app image]; [done|].
  destruct (Hd x) as [(Hx1 & Hx2 & _) Hx]; [rewrite elem_of_cons; auto|].
  rewrite IH by (intros; apply Hd; rewrite elem_of_cons; auto).
  case_decide; [|done]. case_decide; [|done]. destruct (Hx off); unfold in_segment; lia.
Qed.

(** ** One thread *)

Record thread_ok (g : registry) (t : thread) (own : stores) : Prop := {
  th_cursor : (tls_module_init_count t <= length (entries g))%nat;
  th_none : arena t = None -> tls_module_init_count t = O /\ tls_inited t = false /\ own = ∅;
  th_own : forall off k b, own !! off = Some (k, b) -> (k <= tls_module_init_count t)%nat;
  th_bytes : forall a m off, arena t = Some (a, m) -> TCB_SIZE <= off ->
    byte_at m off = expect (take (tls_module_init_count t) (entries g)) own off;
}.

(** A thread whose arena exists, having applied the first [n] entries. *)
Definition applied (es : list hybris_promoted_tls) (n : nat) (own : stores) (t : thread) : Prop :=
  exists a m, arena t = Some (a, m) /\
    forall off, TCB_SIZE <= off -> byte_at m off = expect (take n es) own off.

Lemma ensure_applied s es own t t' :
  (arena t = None -> own = ∅) ->
  (forall a m off, arena t = Some (a, m) -> TCB_SIZE <= off ->
     byte_at m off = expect (take (tls_module_init_count t) es) own off) ->
  (arena t = None -> tls_module_init_count t = O) ->
  hybris_ensure_static_tls s t = Ok t' ->
  applied es (tls_module_init_count t) own t' /\ tls_inited t' = tls_inited t /\
  tls_module_init_count t' = tls_module_init_count t.
Proof.
  intros Ho Hb Hc H. unfold hybris_ensure_static_tls in H. destruct (arena t) as [[a m]|] eqn:Ea.
  - injection H as <-. split; [|done]. exists a, m. split; [done|]. intros off Hoff. now apply (Hb a m).
  - destruct (s_mmap s) as [a|]; [|done]. destruct (s_key s =? 0); [|done]. cbn in H.
    destruct (s_setspecific s =? 0); [|done]. cbn in H. injection H as <-. split; [|done].
    exists a, ∅. split; [done|]. intros off _. rewrite Hc, Ho by done. unfold expect, byte_at. cbn.
    now rewrite !lookup_empty.
Qed.

(** Writing inside the control block does not show. *)
Lemma tcb_write es n own t t' off data :
  applied es n own t -> off + Z.of_nat (length data) <= TCB_SIZE ->
  map_arena (write_bytes off data) t = Ok t' ->
  applied es n own t' /\ tls_inited t' = tls_inited t /\ tls_module_init_count t' = tls_module_init_count t.
Proof.
  intros (a & m & Ea & Hb) Hoff H. unfold map_arena in H. rewrite Ea in H. injection H as <-. split; [|done].
  eexists _, _. split; [done|]. intros k Hk. rewrite <- Hb by done. unfold byte_at.
  rewrite write_bytes_lookup, decide_False by lia. done.
Qed.

(** Applying the next entry extends what has been applied by one. *)
Lemma apply_next s g own t t' n e :
  registry_ok g -> entries g !! n = Some e ->
  (forall off k b, own !! off = Some (k, b) -> (k <= n)%nat) ->
  (forall a m off, arena t = Some (a, m) -> TCB_SIZE <= off -> byte_at m off = expect (take n (entries g)) own off) ->
  (arena t = None -> n = O /\ own = ∅) ->
  hybris_apply_static_tls_locked s e t = Ok t' ->
  applied (entries g) (S n) own t' /\ tls_inited t' = tls_inited t /\
  tls_module_init_count t' = tls_module_init_count t.
Proof.
  intros (Hf & Hd & _) He Hown Hb Hnone H. pose proof (Forall_lookup_1 _ _ _ _ Hf He) as Hok.
  pose proof Hok as (E1 & E2 & E3 & E4). unfold hybris_apply_static_tls_locked in H.
  destruct (bad_range _ _ _); [done|]. apply obind_ok in H as (t1 & H1 & H).
  assert (exists a m, arena t1 = Some (a, m) /\ tls_inited t1 = tls_inited t /\
            tls_module_init_count t1 = tls_module_init_count t /\
            forall off, TCB_SIZE <= off -> byte_at m off = expect (take n (entries g)) own off)
    as (a & m & Ea & I1 & I2 & Hm).
  { unfold hybris_ensure_static_tls in H1. destruct (arena t) as [[a m]|] eqn:Ea.
    - injection H1 as <-. exists a, m. eauto.
    - destruct (s_mmap s) as [a|]; [|done]. destruct (s_key s =? 0); [|done]. cbn in H1.
      destruct (s_setspecific s =? 0); [|done]. cbn in H1. injection H1 as <-. exists a, ∅. split; [done|].
      split; [done|]. split; [done|]. intros off _. destruct (Hnone eq_refl) as [-> ->].
      unfold expect, byte_at. cbn. now rewrite !lookup_empty. }
  assert (forall off, TCB_SIZE <= off -> expect (take (S n) (entries g)) own off =
            if decide (static_offset e <= off < static_offset e + init_size e) then image_byte e off
            else expect (take n (entries g)) own off) as Hx.
  { intros off Hoff. pose proof (lookup_lt_Some _ _ _ He) as Hlen. unfold expect. rewrite (take_S_r _ _ _ He), image_snoc; [|done|].
    - destruct (own !! off) as [[k b]|] eqn:Eo; [|done]. pose proof (Hown off k b Eo) as Hk.
      rewrite drop_app_le, existsb_app by (rewrite length_take; lia). cbn [existsb]. unfold covers at 2.
      case_decide; [rewrite bool_decide_true by done; now rewrite orb_true_r|].
      rewrite bool_decide_false by done. now rewrite !orb_false_r.
    - intros e' He'. apply list_elem_of_lookup in He' as [i Hi].
      destruct (decide (i < n)%nat) as [Hlt|Hge]; [|rewrite lookup_take_ge in Hi by lia; done].
      rewrite lookup_take_lt in Hi by lia. split; [exact (Forall_lookup_1 _ _ _ _ Hf Hi)|].
      apply (Hd i n); auto; lia. }
  destruct (Z.ltb_spec 0 (init_size e)) as [Hpos|Hz].
  - unfold map_arena in H. rewrite Ea in H. injection H as <-. split; [|done]. eexists _, _. split; [done|].
    intros off Hoff. rewrite Hx by done. unfold byte_at. rewrite write_bytes_lookup, take_ge by lia. rewrite E4.
    case_decide; [done|]. now apply Hm.
  - injection H as <-. split; [|done]. exists a, m. split; [done|]. intros off Hoff. rewrite Hx by done.
    rewrite decide_False by lia. now apply Hm.
Qed.

(** The state of a thread that has applied the first [n] entries. *)
Record upto (g : registry) (n : nat) (own : stores) (t : thread) : Prop := {
  up_none : arena t = None -> n = O /\ tls_inited t = false /\ own = ∅;
  up_own : forall off k b, own !! off = Some (k, b) -> (k <= n)%nat;
  up_bytes : forall a m off, arena t = Some (a, m) -> TCB_SIZE <= off ->
    byte_at m off = expect (take n (entries g)) own off;
}.

Lemma upto_applied g n own t :
  applied (entries g) n own t ->
  (forall off k b, own !! off = Some (k, b) -> (k <= n)%nat) ->
  upto g n own t.
Proof.
  intros (a & m & Ea & Hb) Ho. split; [congruence|done|]. intros a' m' off Ea'. rewrite Ea in Ea'. injection Ea' as -> ->. auto.
Qed.

Lemma apply_all_upto s g own n t t' :
  registry_ok g -> (n <= length (entries g))%nat -> upto g n own t ->
  apply_all s (drop n (entries g)) t = Ok t' ->
  upto g (length (entries g)) own t' /\ tls_inited t' = tls_inited t /\
  tls_module_init_count t' = tls_module_init_count t.
Proof.
  intros Hg. remember (length (entries g) - n)%nat as d eqn:Ed. revert n t Ed.
  induction d as [|d IH]; intros n t Ed Hn [U1 U2 U3] H.
  - rewrite drop_ge in H by lia. injection H as <-. replace (length (entries g)) with n by lia. done.
  - destruct (lookup_lt_is_Some_2 (entries g) n ltac:(lia)) as [e He]. rewrite (drop_S _ _ _ He) in H.
    cbn [apply_all] in H. apply obind_ok in H as (t1 & H1 & H).
    destruct (apply_next s g own t t1 n e Hg He U2 U3) as (A & B & C); [|done|].
    { intros Ha. destruct (U1 Ha) as (? & _ & ?). auto. }
    destruct (IH (S n) t1) as (I1 & I2 & I3); [lia|lia| |done|].
    + apply upto_applied; [done|]. intros off k b Hb. specialize (U2 off k b Hb). lia.
    + split; [done|]. split; congruence.
Qed.

Lemma thread_upto g t own : thread_ok g t own -> upto g (tls_module_init_count t) own t.
Proof. intros [H1 H2 H3 H4]. now split. Qed.

Lemma catch_up_spec s g t t' own :
  registry_ok g -> thread_ok g t own -> catch_up s g t = Ok t' ->
  thread_ok g t' own /\ tls_module_init_count t' = length (entries g) /\ tls_inited t' = tls_inited t.
Proof.
  intros Hg Ht H. unfold catch_up in H. apply obind_ok in H as (t1 & H1 & H). injection H as <-.
  destruct (apply_all_upto s g own _ t t1 Hg (th_cursor _ _ _ Ht) (thread_upto _ _ _ Ht) H1) as ([U1 U2 U3] & B & C).
  split; [|done]. split; cbn; auto.
Qed.

(** Appending a module does not disturb a thread that has not applied it. *)
Lemma thread_ok_append g g' e t own :
  entries g' = entries g ++ [e] -> thread_ok g t own -> thread_ok g' t own.
Proof.
  intros E [H1 H2 H3 H4]. split; rewrite ?E.
  - rewrite length_app. cbn. lia.
  - done.
  - done.
  - intros a m off Ha Hoff. rewrite take_app_le by done. eauto.
Qed.

(** What the linker promises about a promotion: word-sized arguments, a segment
    after the control block that overlaps no earlier one. *)
Definition promotion_ok (g : registry) (off ini seg : Z) : Prop :=
  in_range 64 off /\ in_range 64 ini /\ in_range 64 seg /\ TCB_SIZE <= off /\
  forall e, e ∈ entries g -> apart e (Promoted off [] ini seg).

Lemma promote_spec s off p ini seg g t g' t' own :
  registry_ok g -> thread_ok g t own -> promotion_ok g off ini seg ->
  _hybris_init_static_tls_for_thread s off p ini seg g t = Ok (g', t') ->
  registry_ok g' /\ thread_ok g' t' own /\ tls_module_init_count t' = length (entries g') /\
  exists data, entries g' = entries g ++ [Promoted off data ini seg] /\
    (ini = 0 \/ take (Z.to_nat ini) <$> p = Some data).
Proof.
  intros Hg Ht (P1 & P2 & P3 & P4 & P5) H. unfold _hybris_init_static_tls_for_thread in H.
  destruct (bad_range off seg ini) eqn:Eb; [done|]. cbn [orb] in H.
  apply bad_range_spec in Eb as [Eb1 Eb2]; [|done..].
  destruct (negb (ini =? 0) && _) eqn:En; [done|]. apply obind_ok in H as (data & H1 & H).
  apply obind_ok in H as (cap & H2 & H). destruct (Z.leb_spec cap (Z.of_nat (length (entries g)))) as [|Hcap]; [done|].
  apply obind_ok in H as (t1 & H3 & H). injection H as <- <-. cbn [entries] in *.
  unfold in_range in *.
  assert (Z.of_nat (length data) = ini /\ (ini = 0 \/ take (Z.to_nat ini) <$> p = Some data)) as [Hlen Hdata].
  { destruct (Z.ltb_spec 0 ini).
    - destruct (s_malloc s); [|done]. destruct p as [p|]; [|done].
      destruct (Z.ltb_spec (Z.of_nat (length p)) ini); [done|]. injection H1 as <-. rewrite length_take.
      split; [lia|]. now right.
    - injection H1 as <-. cbn. split; [lia|left; lia]. }
  set (e := Promoted off data ini seg) in *.
  assert (entry_ok e) as He by (unfold entry_ok, e; cbn; lia).
  assert (registry_ok (Registry (entries g ++ [e]) cap (length (entries g ++ [e])))) as Hg'.
  { destruct Hg as (G1 & G2 & G3 & G4). split; [|split; [|split; [done|]]]; cbn [entries capacity].
    - apply Forall_app. split; [done|]. now apply Forall_singleton.
    - assert (forall x, x ∈ entries g -> apart x e /\ apart e x) as Hap.
      { intros x Hx. pose proof (P5 x Hx) as Hp. unfold apart, in_segment, e in *. cbn in *.
        split; [exact Hp|]. intros k Hk Hk'. exact (Hp k Hk' Hk). }
      intros i j x y Hi Hj Hij.
      apply lookup_app_Some in Hi as [Hi|[Li Hi]]; apply lookup_app_Some in Hj as [Hj|[Lj Hj]].
      + eauto.
      + apply list_lookup_singleton_Some in Hj as [_ <-]. apply Hap. eauto using list_elem_of_lookup_2.
      + apply list_lookup_singleton_Some in Hi as [_ <-]. apply Hap. eauto using list_elem_of_lookup_2.
      + apply list_lookup_singleton_Some in Hi as [Hi _]. apply list_lookup_singleton_Some in Hj as [Hj _]. lia.
    - rewrite length_app. cbn. lia. }
  split; [exact Hg'|].
  set (g1 := Registry (entries g ++ [e]) cap (published g)) in *.
  destruct (catch_up_spec s (Registry (entries g ++ [e]) cap (length (entries g ++ [e]))) t t1 own Hg') as (A & B & C).
  - now apply (thread_ok_append g _ e).
  - exact H3.
  - split; [exact A|]. split; [exact B|]. exists data. auto.
Qed.

Lemma le64_length p : length (le64 p) = 8%nat.
Proof. unfold le64. now rewrite length_fmap, length_seq. Qed.

(** Initialising the control block keeps the module bytes and the cursor. *)
Lemma tcb_init_spec s g t t' own :
  thread_ok g t own ->
  (let! t := hybris_ensure_static_tls s t in
   if s_btls s =? 0 then Abort else
   let! t := map_arena (write_bytes BIONIC_TLS_PTR_OFFSET (le64 (s_btls s))) t in
   if s_shadow s =? 0 then Abort else
   let! t := map_arena (write_bytes BIONIC_THREAD_ID_PTR_OFFSET (le64 (s_shadow s))) t in
   Ok (Thread (arena t) true (tls_module_init_count t) (s_errno s))) = Ok t' ->
  thread_ok g t' own /\ tls_inited t' = true /\ tls_module_init_count t' = tls_module_init_count t.
Proof.
  intros [H1 H2 H3 H4] H. apply obind_ok in H as (t1 & E1 & H).
  destruct (ensure_applied s (entries g) own t t1) as (A1 & B1 & C1); [|done| |done|].
  { intros Ha. now destruct (H2 Ha) as (_ & _ & ?). }
  { intros Ha. now destruct (H2 Ha) as (? & _ & _). }
  destruct (s_btls s =? 0); [done|]. apply obind_ok in H as (t2 & E2 & H).
  assert (forall p off, off <= 64 -> off + Z.of_nat (length (le64 p)) <= TCB_SIZE) as HL.
  { intros p off Hoff. rewrite le64_length. unfold TCB_SIZE. lia. }
  destruct (tcb_write _ _ _ t1 t2 _ _ A1 (HL _ BIONIC_TLS_PTR_OFFSET ltac:(done)) E2) as (A2 & B2 & C2).
  destruct (s_shadow s =? 0); [done|]. apply obind_ok in H as (t3 & E3 & H).
  destruct (tcb_write _ _ _ t2 t3 _ _ A2 (HL _ BIONIC_THREAD_ID_PTR_OFFSET ltac:(done)) E3) as (A3 & B3 & C3).
  injection H as <-. cbn. split; [|split; [done|congruence]].
  assert (tls_module_init_count t3 = tls_module_init_count t) as Ec by congruence.
  destruct A3 as (a & m & Ea & Hb). split; cbn; rewrite Ec; auto; [congruence|].
  intros a' m' off Ea' Hoff. rewrite Ea in Ea'. injection Ea' as <- <-. auto.
Qed.

Lemma hooks_spec s seen g t p t' own :
  registry_ok g -> thread_ok g t own ->
  _hybris_hook___get_tls_hooks s seen g t = Ok (p, t') ->
  thread_ok g t' own /\ tls_inited t' = true /\
  (exists a m, arena t' = Some (a, m) /\ p = a + BIONIC_TPIDR_OFFSET) /\
  (tls_module_init_count t' = length (entries g) \/
   (tls_module_init_count t' = tls_module_init_count t /\ tls_module_init_count t = seen)).
Proof.
  intros Hg Ht H. unfold _hybris_hook___get_tls_hooks in H. apply obind_ok in H as (t1 & H1 & H).
  assert (thread_ok g t1 own /\ tls_inited t1 = true /\ tls_module_init_count t1 = tls_module_init_count t)
    as (Ht1 & Hi1 & Hc1).
  { destruct (tls_inited t) eqn:Ei; cbn [negb] in H1; [injection H1 as <-; auto|]. exact (tcb_init_spec s g t t1 own Ht H1). }
  apply obind_ok in H as (t2 & H2 & H).
  assert (thread_ok g t2 own /\ tls_inited t2 = true /\
    (tls_module_init_count t2 = length (entries g) \/
     (tls_module_init_count t2 = tls_module_init_count t /\ tls_module_init_count t = seen))) as (Ht2 & Hi2 & Hc2).
  { destruct (Nat.eqb_spec (tls_module_init_count t1) seen) as [E|E]; cbn [negb] in H2.
    - injection H2 as <-. split; [done|]. split; [done|]. right. split; congruence.
    - destruct (catch_up_spec s g t1 t2 own Hg Ht1 H2) as (A & B & C). split; [done|]. split; [congruence|]. now left. }
  destruct (arena t2) as [[a m]|] eqn:Ea; [|done]. injection H as <- <-. eauto 10.
Qed.

(** ** Threads interleaved *)

(** The registry and the threads, each with the last store to each byte of its arena.
    A store may hit any byte of a mapped arena at any time, also a byte of a module the thread has
    not applied yet. *)
Record sys := System { reg : registry; threads : list (thread * stores) }.

Inductive step : sys -> sys -> Prop :=
| step_promote st i t own s off p ini seg g' t' :
    threads st !! i = Some (t, own) -> promotion_ok (reg st) off ini seg ->
    _hybris_init_static_tls_for_thread s off p ini seg (reg st) t = Ok (g', t') ->
    step st (System g' (<[i := (t', own)]> (threads st)))
| step_hooks st i t own s seen p t' :
    threads st !! i = Some (t, own) ->
    (tls_module_init_count t <= seen <= published (reg st))%nat ->
    _hybris_hook___get_tls_hooks s seen (reg st) t = Ok (p, t') ->
    step st (System (reg st) (<[i := (t', own)]> (threads st)))
| step_touch st i t own s seen t' :
    threads st !! i = Some (t, own) ->
    (tls_module_init_count t <= seen <= published (reg st))%nat ->
    hybris_tls_first_touch_c s seen (reg st) t = Ok t' ->
    step st (System (reg st) (<[i := (t', own)]> (threads st)))
| step_store st i t own off b a m :
    threads st !! i = Some (t, own) -> 0 <= off < BIONIC_TLS_RESERVE_SIZE -> arena t = Some (a, m) ->
    step st (System (reg st) (<[i := (Thread (Some (a, <[off := b]> m)) (tls_inited t)
                                         (tls_module_init_count t) (errno t), <[off := (tls_module_init_count t, b)]> own)]> (threads st)))
| step_exit st i t own :
    threads st !! i = Some (t, own) ->
    step st (System (reg st) (<[i := (_bionic_tls_cleanup t, ∅)]> (threads st))).

Definition start (n : nat) : sys := System (Registry [] 0 0) (replicate n (new_thread 0, ∅)).

Record sys_inv (st : sys) : Prop := {
  inv_reg : registry_ok (reg st);
  inv_threads : Forall (fun p => thread_ok (reg st) (fst p) (snd p)) (threads st);
}.

Lemma fresh_thread_ok g e : thread_ok g (new_thread e) ∅.
Proof. split; cbn; auto with lia; done. Qed.

Lemma inv_update st i t own :
  sys_inv st -> thread_ok (reg st) t own -> sys_inv (System (reg st) (<[i := (t, own)]> (threads st))).
Proof. intros [I1 I2] H. split; cbn; [done|]. now apply Forall_insert. Qed.

Lemma tls_step_inv st st' : sys_inv st -> step st st' -> sys_inv st'.
Proof.
  intros I H. destruct H as [st i t own s off p ini seg g' t' Hi Hp H|st i t own s seen p t' Hi _ H
    |st i t own s seen t' Hi _ H|st i t own off b a m Hi Ho Ha|st i t own Hi];
    pose proof (Forall_lookup_1 _ _ _ _ (inv_threads _ I) Hi) as Ht; cbn in Ht.
  - destruct (promote_spec s off p ini seg _ t g' t' own (inv_reg _ I) Ht Hp H) as (A & B & _ & data & E & _).
    split; cbn; [done|]. apply Forall_insert; [|exact B]. eapply Forall_impl; [apply I|].
    intros [u w] Hu. eapply thread_ok_append; [exact E|exact Hu].
  - apply inv_update; [done|]. now apply (hooks_spec s seen (reg st) t p t' own (inv_reg _ I) Ht).
  - unfold hybris_tls_first_touch_c in H. apply obind_ok in H as ([p t1] & H & E). injection E as <-.
    destruct (hooks_spec s seen (reg st) t p t1 own (inv_reg _ I) Ht H) as ([A1 A2 A3 A4] & _).
    apply inv_update; [done|]. now split.
  - apply inv_update; [done|]. destruct Ht as [H1 H2 H3 H4]. split; cbn; [done|congruence| |].
    + intros k c x. destruct (decide (off = k)) as [<-|Hne]; [rewrite lookup_insert_eq; intros [= <- <-]; done|].
      rewrite lookup_insert_ne by done. apply H3.
    + intros a' m' k [= <- <-] Hk. specialize (H4 a m k Ha Hk). unfold byte_at, expect in *.
      destruct (decide (off = k)) as [<-|Hne]; [|now rewrite !lookup_insert_ne].
      rewrite !lookup_insert_eq. rewrite drop_ge by (rewrite length_take; lia). done.
  - apply inv_update; [done|]. apply fresh_thread_ok.
Qed.

Lemma tls_reach_inv n st : rtc step (start n) st -> sys_inv st.
Proof.
  intros H. assert (sys_inv (start n)) as H0.
  { split; cbn.
    - split; [constructor|]. split; [|split; [done|cbn; lia]]. intros i j e e' Hi. discriminate Hi.
    - apply Forall_replicate. apply fresh_thread_ok. }
  induction H as [|a b c Hs _ IH]; [done|]. apply IH. eapply tls_step_inv; eauto.
Qed.

(** C38: whatever way threads interleave promotions, hook calls, first touches,
    stores to any bytes of mapped arenas and exits, every byte a thread has mapped
    above the control block is the last store there, unless the thread applied since the store a module whose
    initialisation image covers the byte; then, and for a byte without a store, it is the byte of the
    image of the module that owns it (zero in .tbss).  So an image is
    applied once, to its place, and is not missing
    below the thread's cursor; only a store made before the thread applied the module can be lost
    ([early_store_lost]). *)
Theorem tls_arena_contents n st i t own a m off :
  rtc step (start n) st -> threads st !! i = Some (t, own) -> arena t = Some (a, m) -> TCB_SIZE <= off ->
  byte_at m off = expect (take (tls_module_init_count t) (entries (reg st))) own off.
Proof.
  intros H Hi Ha Hoff. destruct (tls_reach_inv n st H) as [_ I].
  exact (th_bytes _ _ _ (Forall_lookup_1 _ _ _ _ I Hi) a m off Ha Hoff).
Qed.

(** A hook call that sees the current count, or any count other than the
    thread's own, leaves no promoted module behind: the thread's cursor is the
    registry's count, so with the contents theorem every registered image is in
    place; the returned pointer is the arena's thread pointer. *)
Theorem tls_hook_catches_up n st i t own s seen p t' :
  rtc step (start n) st -> threads st !! i = Some (t, own) ->
  seen = published (reg st) \/ seen <> tls_module_init_count t ->
  _hybris_hook___get_tls_hooks s seen (reg st) t = Ok (p, t') ->
  tls_module_init_count t' = length (entries (reg st)) /\ tls_inited t' = true /\
  exists a m, arena t' = Some (a, m) /\ p = a + BIONIC_TPIDR_OFFSET.
Proof.
  intros H Hi Hs E. destruct (tls_reach_inv n st H) as [I1 I2]. pose proof (Forall_lookup_1 _ _ _ _ I2 Hi) as Ht.
  destruct (hooks_spec s seen (reg st) t p t' own I1 Ht E) as (_ & A & B & C). split; [|auto].
  destruct C as [C|[C1 C2]]; [done|]. destruct Hs as [->|Hs]; [|congruence].
  destruct I1 as (_ & _ & Ep & _). congruence.
Qed.

(** A promotion is accepted exactly when the module's whole memory range lies
    in the arena and its image in the range, computed without wrap-around; a
    rejected one ends the process before anything is published.  Within an
    accepted registry the replay's own range check never fires. *)
Theorem tls_promotion_bounds s off p ini seg g t :
  in_range 64 off -> in_range 64 seg -> in_range 64 ini ->
  (BIONIC_TLS_RESERVE_SIZE < off + seg \/ seg < ini ->
   _hybris_init_static_tls_for_thread s off p ini seg g t = Abort) /\
  (forall e, registry_ok g -> e ∈ entries g -> bad_range (static_offset e) (segment_size e) (init_size e) = false).
Proof.
  intros H1 H2 H3. split.
  - intros Hb. unfold _hybris_init_static_tls_for_thread.
    destruct (bad_range off seg ini) eqn:E; [done|]. apply bad_range_spec in E; [lia|done..].
  - intros e (G1 & _) He. rewrite Forall_forall in G1. destruct (G1 e He) as (E1 & E2 & E3 & E4).
    unfold TCB_SIZE, BIONIC_TLS_RESERVE_SIZE in *. apply bad_range_spec; unfold in_range, BIONIC_TLS_RESERVE_SIZE; lia.
Qed.

Lemma tls_promotion_bounds_witness :
  _hybris_init_static_tls_for_thread (Sys (Some 0x10000) 0 0 1 2 true true 0) (2 ^ 64 - 16) (Some [1]) 1 32
    (Registry [] 0 0) (new_thread 0) = Abort.
Proof. apply tls_promotion_bounds; unfold in_range, BIONIC_TLS_RESERVE_SIZE; lia. Defined.

(** Thread 0 promotes a module of 8 bytes with a 2-byte image; thread 1 then calls the hook. *)
Definition demo_sys : sysres := Sys (Some 0x10000) 0 0 0x5000 0x6000 true true 11.
Definition demo_registry : registry := Registry [Promoted 80 [7; 9] 2 8] 16 1.

Lemma demo_promoted :
  exists st, rtc step (start 2) st /\ reg st = demo_registry /\ threads st !! 1%nat = Some (new_thread 0, ∅).
Proof.
  eexists. split.
  - eapply rtc_l; [|apply rtc_refl].
    eapply (step_promote (start 2) 0 _ _ demo_sys 80 (Some [7; 9; 3]) 2 8); [reflexivity| |reflexivity].
    unfold promotion_ok, in_range, TCB_SIZE. do 4 (split; [lia|]). intros e He. now apply not_elem_of_nil in He.
  - split; reflexivity.
Qed.

Lemma tls_hook_catches_up_witness :
  exists p t', _hybris_hook___get_tls_hooks demo_sys 1 demo_registry (new_thread 0) = Ok (p, t') /\
    tls_module_init_count t' = length (entries demo_registry).
Proof.
  destruct demo_promoted as (st & H & Hr & Hi).
  destruct (_hybris_hook___get_tls_hooks demo_sys 1 demo_registry (new_thread 0)) as [[p t']| |] eqn:E;
    [|vm_compute in E; discriminate E..].
  exists p, t'. split; [reflexivity|]. rewrite <- Hr in E |- *.
  refine (proj1 (tls_hook_catches_up 2 st 1 _ ∅ demo_sys 1 p t' H Hi (or_introl _) E)). now rewrite Hr.
Defined.

Lemma tls_arena_contents_witness :
  exists st t own a m, rtc step (start 2) st /\ threads st !! 1%nat = Some (t, own) /\ arena t = Some (a, m) /\
    byte_at m 81 = expect (take (tls_module_init_count t) (entries (reg st))) own 81 /\ byte_at m 81 = 9.
Proof.
  destruct demo_promoted as (st & H & Hr & Hi).
  assert (exists st', rtc step (start 2) st' /\ exists t, threads st' !! 1%nat = Some (t, ∅) /\
            exists m, arena t = Some (0x10000, m) /\ byte_at m 81 = 9) as (st' & H' & t & Ht & m & Ha & Hb).
  { eexists. split.
    - eapply rtc_r; [exact H|]. eapply (step_hooks st 1 _ _ demo_sys 1); [exact Hi| |rewrite Hr; reflexivity].
      rewrite Hr. cbn. lia.
    - eexists. split; [cbn; apply list_lookup_insert_eq; eauto using lookup_lt_Some|]. cbn.
      eexists. split; [reflexivity|]. vm_compute. reflexivity. }
  exists st', t, ∅, 0x10000, m. split; [exact H'|]. split; [exact Ht|]. split; [exact Ha|]. split; [|exact Hb].
  exact (tls_arena_contents 2 st' 1 t ∅ 0x10000 m 81 H' Ht Ha ltac:(unfold TCB_SIZE; lia)).
Defined.
(** A store to a byte of a promoted module before the thread's first hook call after the promotion: the replay overwrites it. *)
Example early_store_lost :
  (let! t := hybris_ensure_static_tls demo_sys (new_thread 0) in
   let! t := map_arena <[81 := 5]> t in
   let! t := catch_up demo_sys demo_registry t in
   Ok (match arena t with Some (_, m) => byte_at m 81 | None => -1 end)) = Ok 9.
Proof. vm_compute. reflexivity. Qed.
End TlsArena.
