(* ===== verification/LinkerFormat.v ===== *)
(** * The JB linker's formatter (common/jb/linker_format.c)

    A small [printf] for the dynamic linker, writing to a sink.  The formatter is
    generic in the sink's [send]; the bounded buffer and the file descriptor are
    two sinks, and the log writes a formatted buffer as a record.  A format is its bytes before the NUL and reading past the NUL is
    undefined; the variable arguments are a list of 64-bit words and strings
    (LP64). *)

From Stdlib Require Import ZArith Lia Bool String Ascii.
From stdpp Require Import base list numbers option.
From S2P Require Import Prelude CStr.

Open Scope Z_scope.
Open Scope outcome_scope.

Module LinkerFormat.
Import CStr.

(** One variable argument: an integer or pointer word, or a string. *)
Inductive arg := AInt (v : Z) | AStr (s : str).

Definition va_int (args : list arg) : outcome (Z * list arg) :=
  match args with AInt v :: args => Ok (u64 v, args) | _ => Undef end.
Definition va_str (args : list arg) : outcome (str * list arg) :=
  match args with AStr s :: args => Ok (s, args) | _ => Undef end.

(** ** Numbers *)

Fixpoint parse_decimal_loop (fuel : nat) (format : str) (p result : Z) : outcome (Z * Z) :=
  match fuel with
  | O => Undef
  | S fuel =>
      let! ch := chr format p in
      let d := u32 (ch - 48) in
      if 10 <=? d then Ok (result, p)
      else parse_decimal_loop fuel format (p + 1) (u32 (result * 10 + d))
  end.

(** The value and the new position. *)
Definition parse_decimal (format : str) (pos : Z) : outcome (Z * Z) :=
  parse_decimal_loop (S (length format)) format pos 0.

(** The digits in reverse order, at most [room] of them stored. *)
Fixpoint digit_loop (fuel : nat) (value base : Z) (digits : list Z) (room : nat) : outcome (list Z) :=
  match fuel with
  | O => Undef
  | S fuel =>
      if value =? 0 then Ok []
      else
        let! d := rd digits (value mod base) in
        match room with
        | O => digit_loop fuel (value / base) base digits O
        | S room => let! l := digit_loop fuel (value / base) base digits room in Ok (d :: l)
        end
  end.

(** The in-place reversal: swap the ends and move inwards. *)
Fixpoint reverse_loop (fuel : nat) (l : list Z) (pos end_ : Z) : outcome (list Z) :=
  match fuel with
  | O => Undef
  | S fuel =>
      if pos <? end_ then
        let! a := rd l pos in
        let! b := rd l end_ in
        reverse_loop fuel (<[Z.to_nat end_ := a]> (<[Z.to_nat pos := b]> l)) (pos + 1) (end_ - 1)
      else Ok l
  end.

(** The string left in a buffer of [bufsize] bytes; 64 rounds exhaust a 64-bit value. *)
Definition format_number (bufsize : nat) (value base : Z) (digits : list Z) : outcome str :=
  match bufsize with
  | O => Undef
  | S room =>
      let! l := digit_loop 65 value base digits room in
      let l := match l, room with [], S _ => [48] | l, _ => l end in
      reverse_loop (S (length l)) l 0 (Z.of_nat (length l) - 1)
  end.

Definition decimal_digits : list Z := [48; 49; 50; 51; 52; 53; 54; 55; 56; 57].
Definition hex_digits (isCap : bool) : list Z :=
  decimal_digits ++ (if isCap then [65; 66; 67; 68; 69; 70] else [97; 98; 99; 100; 101; 102]).

(** Negating the least 64-bit integer overflows. *)
Definition format_integer (buffsize : nat) (value base : Z) (isSigned : bool) : outcome str :=
  if isSigned && (to_signed 64 value <? 0) then
    if to_signed 64 value =? - 2 ^ 63 then Undef else
    let! s := format_number (buffsize - 1) (u64 (- to_signed 64 value)) base decimal_digits in
    Ok (45 :: s)
  else format_number buffsize value base decimal_digits.

Definition format_octal (buffsize : nat) (value : Z) (isSigned : bool) := format_integer buffsize value 8 isSigned.
Definition format_decimal (buffsize : nat) (value : Z) (isSigned : bool) := format_integer buffsize value 10 isSigned.

Definition format_hex (buffsize : nat) (value : Z) (isCap : bool) : outcome str :=
  format_number buffsize value 16 (hex_digits isCap).

(** ** The formatter *)

Section formatter.
Context {O : Type} (send : O -> list Z -> outcome O).

Definition out_send (o : O) (data : list Z) : outcome O := send o data.

Fixpoint out_send_repeat (fuel : nat) (o : O) (ch count : Z) : outcome O :=
  match fuel with
  | 0%nat => Undef
  | S fuel =>
      if 0 <? count then
        let avail := if 8 <? count then 8 else count in
        let! o := send o (replicate (Z.to_nat avail) ch) in
        out_send_repeat fuel o ch (count - avail)
      else Ok o
  end.

(** The first position from [mm] on holding NUL or '%', with its character. *)
Fixpoint scan_plain (fuel : nat) (format : str) (mm : Z) : outcome (Z * Z) :=
  match fuel with
  | 0%nat => Undef
  | S fuel =>
      let! c := chr format mm in
      if (c =? 0) || (c =? 37) then Ok (mm, c) else scan_plain fuel format (mm + 1)
  end.

(** The flags: the character after them (0 for a trailing '%'), the position
    past it, [padZero], [padLeft]. *)
Fixpoint parse_flags (fuel : nat) (format : str) (nn : Z) (padZero padLeft : bool) : outcome (Z * Z * bool * bool) :=
  match fuel with
  | 0%nat => Undef
  | S fuel =>
      let! c := chr format nn in
      if c =? 0 then Ok (c, nn + 1, padZero, padLeft)
      else if c =? 48 then parse_flags fuel format (nn + 1) true padLeft
      else if c =? 45 then parse_flags fuel format (nn + 1) padZero true
      else if (c =? 32) || (c =? 43) then parse_flags fuel format (nn + 1) padZero padLeft
      else Ok (c, nn + 1, padZero, padLeft)
  end.

(** Field width ([-1] when absent); the next character and position. *)
Definition parse_width (format : str) (c nn : Z) : outcome (Z * Z * Z) :=
  if (48 <=? c) && (c <=? 57) then
    let! (w, nn) := parse_decimal format (nn - 1) in
    let! c := chr format nn in
    Ok (to_signed 32 w, c, nn + 1)
  else Ok (-1, c, nn).

(** The precision is read and not used. *)
Definition parse_precision (format : str) (c nn : Z) : outcome (Z * Z) :=
  if c =? 46 then
    let! (_, nn) := parse_decimal format nn in
    let! c := chr format nn in
    Ok (c, nn + 1)
  else Ok (c, nn).

(** The byte length of the argument, the conversion character, the position past it. *)
Definition parse_length (format : str) (c nn : Z) : outcome (Z * Z * Z) :=
  if c =? 104 then
    let! c2 := chr format nn in
    let '(bytelen, nn) := if c2 =? 104 then (1, nn + 1) else (2, nn) in
    let! c := chr format nn in Ok (bytelen, c, nn + 1)
  else if c =? 108 then
    let! c2 := chr format nn in
    let '(bytelen, nn) := if c2 =? 108 then (8, nn + 1) else (8, nn) in
    let! c := chr format nn in Ok (bytelen, c, nn + 1)
  else if (c =? 122) || (c =? 116) then
    let! c := chr format nn in Ok (8, c, nn + 1)
  else Ok (4, c, nn).

(** Sign extension from [8 * bytelen] bits by two shifts. *)
Definition sign_extend (bytelen value : Z) : Z :=
  let shift := 64 - 8 * bytelen in
  u64 (Z.shiftr (to_signed 64 (u64 (Z.shiftl value shift))) shift).

(** The text of one conversion, from a 32-byte buffer for numbers. *)
Definition convert (c bytelen : Z) (args : list arg) : outcome (str * list arg) :=
  if c =? 115 then va_str args
  else if c =? 99 then
    let! (v, args) := va_int args in
    let ch := u8 v in
    Ok (if ch =? 0 then [] else [ch], args)
  else if c =? 112 then
    let! (v, args) := va_int args in
    let! s := format_hex 30 v false in
    Ok (48 :: 120 :: s, args)
  else
    let isSigned := (c =? 100) || (c =? 105) || (c =? 111) in
    let! (v, args) := va_int args in
    let value := wrap (8 * bytelen) v in
    let value := if isSigned then sign_extend bytelen value else value in
    let! s :=
      (if (c =? 105) || (c =? 100) then format_integer 32 value 10 isSigned
       else if c =? 111 then format_integer 32 value 8 isSigned
       else if (c =? 120) || (c =? 88) then format_hex 32 value (c =? 88)
       else Ok []) in
    Ok (s, args).

(** [str] with its padding. *)
Definition emit (o : O) (s : str) (width : Z) (padZero padLeft : bool) : outcome O :=
  let slen := Z.of_nat (length s) in
  let padChar := if padZero then 48 else 32 in
  let pad (o : O) := out_send_repeat (S (Z.to_nat (width - slen))) o padChar (width - slen) in
  let! o := (if (slen <? width) && negb padLeft then pad o else Ok o) in
  let! o := out_send o s in
  if (slen <? width) && padLeft then pad o else Ok o.

(** Each round moves past at least one character. *)
Fixpoint out_vformat_loop (fuel : nat) (o : O) (format : str) (nn : Z) (args : list arg) : outcome O :=
  match fuel with
  | 0%nat => Undef
  | S fuel =>
      let! (mm, c) := scan_plain (S (length format)) format nn in
      let! o := (if nn <? mm then out_send o (take (Z.to_nat (mm - nn)) (drop (Z.to_nat nn) format)) else Ok o) in
      if c =? 0 then Ok o
      else
        let! (c, nn, padZero, padLeft) := parse_flags (S (length format)) format (mm + 1) false false in
        if c =? 0 then out_send o [37]
        else
          let! (width, c, nn) := parse_width format c nn in
          let! (c, nn) := parse_precision format c nn in
          let! (bytelen, c, nn) := parse_length format c nn in
          let! (s, args) := convert c bytelen args in
          let! o := emit o s width padZero padLeft in
          out_vformat_loop fuel o format nn args
  end.

Definition out_vformat (o : O) (format : str) (args : list arg) : outcome O :=
  out_vformat_loop (S (length format)) o format 0 args.
End formatter.

(** ** The bounded buffer *)

Record BufOut := Buf { buffer : list Z; pos : Z; end_ : Z; total : Z }.

Fixpoint buf_out_loop (fuel : nat) (data : list Z) (len : Z) (bo : BufOut) : outcome BufOut :=
  match fuel with
  | O => Undef
  | S fuel =>
      if 0 <? len then
        let avail := end_ bo - pos bo in
        if avail =? 0 then Ok bo else
        let avail := if len <? avail then len else avail in
        let! b := put (buffer bo) (pos bo) (take (Z.to_nat avail) data) in
        let! b := put b (pos bo + avail) [0] in
        buf_out_loop fuel data (len - avail) (Buf b (pos bo + avail) (end_ bo) (total bo))
      else Ok bo
  end.

Definition buf_out_send (bo : BufOut) (data : list Z) : outcome BufOut :=
  let len := Z.of_nat (length data) in
  buf_out_loop 3 data len (Buf (buffer bo) (pos bo) (end_ bo) (total bo + len)).

Definition buf_out_init (buff : list Z) (size : nat) : outcome (option BufOut) :=
  match size with
  | O => Ok None
  | S n => let! b := put buff 0 [0] in Ok (Some (Buf b 0 (Z.of_nat n) 0))
  end.

Definition buf_out_length (bo : BufOut) : Z := total bo.

(** The final buffer and the return value. *)
Definition vformat_buffer (buff : list Z) (buffsize : nat) (format : str) (args : list arg) : outcome (list Z * Z) :=
  let! out := buf_out_init buff buffsize in
  match out with
  | None => Ok (buff, 0)
  | Some bo =>
      let! bo := out_vformat buf_out_send bo format args in
      Ok (buffer bo, buf_out_length bo)
  end.

Definition format_buffer := vformat_buffer.

(** ** The file descriptor *)

(** One [write]: bytes taken, interrupted, or failed. *)
Inductive wres := Wrote (n : Z) | Eintr | Efail.
Record FdOut := Fd { written : list Z; fd_total : Z; writes : list wres }.

Fixpoint fd_out_loop (ws : list wres) (data : list Z) (fdo : FdOut) : outcome FdOut :=
  match data, ws with
  | [], _ => Ok (Fd (written fdo) (fd_total fdo) ws)
  | _ :: _, [] => Undef
  | _ :: _, Eintr :: ws => fd_out_loop ws data fdo
  | _ :: _, Efail :: ws => Ok (Fd (written fdo) (fd_total fdo) ws)
  | _ :: _, Wrote n :: ws =>
      if (n <? 0) || (Z.of_nat (length data) <? n) then Undef
      else fd_out_loop ws (drop (Z.to_nat n) data)
             (Fd (written fdo ++ take (Z.to_nat n) data) (fd_total fdo + n) ws)
  end.

Definition fd_out_send (fdo : FdOut) (data : list Z) : outcome FdOut := fd_out_loop (writes fdo) data fdo.
Definition fd_out_init (ws : list wres) : FdOut := Fd [] 0 ws.
Definition fd_out_length (fdo : FdOut) : Z := fd_total fdo.

Definition format_fd (ws : list wres) (format : str) (args : list arg) : outcome (list Z * Z) :=
  let! fdo := out_vformat fd_out_send (fd_out_init ws) format args in
  Ok (written fdo, fd_out_length fdo).

(** ** The log *)

(** [do ret = writev(...) while (ret < 0 && errno == EINTR)]: the bytes taken. *)
Fixpoint writev_loop (ws : list wres) (data : list Z) : outcome (list Z) :=
  match ws with
  | [] => Undef
  | Eintr :: ws => writev_loop ws data
  | Efail :: _ => Ok []
  | Wrote n :: _ => if (n <? 0) || (Z.of_nat (length data) <? n) then Undef else Ok (take (Z.to_nat n) data)
  end.

(** [buf] is the uninitialised local array, [opened] what [open] of the log device returns, [out] the descriptor
    of stdout; the result is the return value, the new [log_fd] and the bytes written to it. *)
Definition log_vprint (buf : list Z) (opened out : Z) (ws : list wres) (log_fd prio : Z) (tag format : str) (args : list arg) : outcome (Z * Z * list Z) :=
  let! (buf, result) := vformat_buffer buf 1024 format args in
  if (log_fd <? 0) && (opened <? 0) then Ok (result, out, [])
  else
    let log_fd := if log_fd <? 0 then opened else log_fd in
    let! text := cstr buf in
    let! data := writev_loop ws ([u8 prio] ++ (tag ++ [0]) ++ (text ++ [0])) in
    Ok (result, log_fd, data).

Definition format_log := log_vprint.

(** ** Sinks simulate each other *)

Section simulation.
Context {O1 O2 : Type} (send1 : O1 -> list Z -> outcome O1) (send2 : O2 -> list Z -> outcome O2).
Context (R : O1 -> O2 -> Prop).
Context (Hsend : forall o1 o2 data o1', R o1 o2 -> send1 o1 data = Ok o1' ->
                  exists o2', send2 o2 data = Ok o2' /\ R o1' o2').

Lemma sim_repeat fuel o1 o2 ch count o1' :
  R o1 o2 -> out_send_repeat send1 fuel o1 ch count = Ok o1' ->
  exists o2', out_send_repeat send2 fuel o2 ch count = Ok o2' /\ R o1' o2'.
Proof.
  revert o1 o2 count. induction fuel as [|fuel IH]; intros o1 o2 count HR H; [done|].
  cbn [out_send_repeat] in *. destruct (0 <? count); [|injection H as <-; eauto].
  cbv zeta in *. apply obind_ok in H as (o1'' & H1 & H). destruct (Hsend _ _ _ _ HR H1) as (o2'' & -> & HR').
  cbn [obind]. eauto.
Qed.

Lemma sim_emit o1 o2 s width pz pl o1' :
  R o1 o2 -> emit send1 o1 s width pz pl = Ok o1' ->
  exists o2', emit send2 o2 s width pz pl = Ok o2' /\ R o1' o2'.
Proof.
  intros HR H. unfold emit, out_send in *. cbv zeta in *.
  apply obind_ok in H as (a & Ha & H). apply obind_ok in H as (b & Hb & H).
  assert (exists a2, (if (Z.of_nat (length s) <? width) && negb pl
    then out_send_repeat send2 (S (Z.to_nat (width - Z.of_nat (length s)))) o2 (if pz then 48 else 32) (width - Z.of_nat (length s))
    else Ok o2) = Ok a2 /\ R a a2) as (a2 & -> & HRa).
  { destruct ((Z.of_nat (length s) <? width) && negb pl); [eapply sim_repeat; eauto|]. injection Ha as <-. eauto. }
  cbn [obind]. destruct (Hsend _ _ _ _ HRa Hb) as (b2 & -> & HRb). cbn [obind].
  destruct ((Z.of_nat (length s) <? width) && pl); [eapply sim_repeat; eauto|]. injection H as <-. eauto.
Qed.

Lemma sim_loop fuel o1 o2 format nn args o1' :
  R o1 o2 -> out_vformat_loop send1 fuel o1 format nn args = Ok o1' ->
  exists o2', out_vformat_loop send2 fuel o2 format nn args = Ok o2' /\ R o1' o2'.
Proof.
  revert o1 o2 nn args. induction fuel as [|fuel IH]; intros o1 o2 nn args HR H; [done|].
  cbn [out_vformat_loop] in *. apply obind_ok in H as ([mm c] & -> & H). cbn [obind] in *.
  apply obind_ok in H as (a & Ha & H).
  assert (exists a2, (if nn <? mm then out_send send2 o2 (take (Z.to_nat (mm - nn)) (drop (Z.to_nat nn) format)) else Ok o2)
                     = Ok a2 /\ R a a2) as (a2 & -> & HRa).
  { destruct (nn <? mm); [eapply Hsend; eauto|]. injection Ha as <-. eauto. }
  cbn [obind]. destruct (c =? 0); [injection H as <-; eauto|].
  apply obind_ok in H as ([[[c1 n1] pz] pl] & -> & H). cbn [obind].
  destruct (c1 =? 0); [eapply Hsend; eauto|].
  apply obind_ok in H as ([[w c2] n2] & -> & H). cbn [obind].
  apply obind_ok in H as ([c3 n3] & -> & H). cbn [obind].
  apply obind_ok in H as ([[bl c4] n4] & -> & H). cbn [obind].
  apply obind_ok in H as ([s args'] & -> & H). cbn [obind].
  apply obind_ok in H as (b & Hb & H). destruct (sim_emit _ _ _ _ _ _ _ HRa Hb) as (b2 & -> & HRb).
  cbn [obind]. eauto.
Qed.
End simulation.

(** The ideal sink keeps everything. *)
Definition list_send (out data : list Z) : outcome (list Z) := Ok (out ++ data).

(** The text a format stands for. *)
Definition formatted (format : str) (args : list arg) : outcome str := out_vformat list_send [] format args.

(** ** The bounded buffer holds a prefix of the ideal output *)

(** [cap] bytes of room before the terminator in a buffer that began as [orig]. *)
Record buf_holds (cap : nat) (orig : list Z) (out : list Z) (bo : BufOut) : Prop := {
  bh_end : end_ bo = Z.of_nat cap;
  bh_pos : pos bo = Z.of_nat (min (length out) cap);
  bh_total : total bo = Z.of_nat (length out);
  bh_room : (cap < length orig)%nat;
  bh_buffer : exists rest, buffer bo = take cap out ++ 0 :: rest /\
    length (buffer bo) = length orig /\ drop (S cap) (buffer bo) = drop (S cap) orig;
}.

Lemma buf_send_holds cap orig out bo data :
  buf_holds cap orig out bo ->
  exists bo', buf_out_send bo data = Ok bo' /\ buf_holds cap orig (out ++ data) bo'.
Proof.
  intros [H1 H2 H3 H4 (rest & H5 & H6 & H7)].
  assert (length rest + S (min (length out) cap) = length orig)%nat as Hlr.
  { rewrite H5 in H6. rewrite length_app, length_take in H6. cbn in H6. lia. }
  unfold buf_out_send. destruct data as [|x data].
  { eexists. split; [reflexivity|]. rewrite app_nil_r. split; cbn; auto; [lia|]. eauto. }
  assert (0 < length (x :: data))%nat as Hd by (cbn; lia). generalize dependent (x :: data). clear x data. intros d Hd.
  cbn [buf_out_loop]. rewrite (proj2 (Z.ltb_lt 0 _)) by lia. cbn [end_ pos buffer]. rewrite H1, H2.
  destruct (Z.eqb_spec (Z.of_nat cap - Z.of_nat (min (length out) cap)) 0) as [Hz|Hz].
  { assert (cap <= length out)%nat as Hfull by lia. eexists. split; [reflexivity|].
    split; cbn; rewrite ?length_app; auto; try lia. exists rest. rewrite take_app_le by done. auto. }
  assert (length out < cap)%nat as Hlt by lia. rewrite Nat.min_l in * by lia. rewrite take_ge in H5 by lia.
  set (n := min (length d) (cap - length out)).
  assert ((if Z.of_nat (length d) <? Z.of_nat cap - Z.of_nat (length out) then Z.of_nat (length d)
           else Z.of_nat cap - Z.of_nat (length out)) = Z.of_nat n) as ->.
  { destruct (Z.ltb_spec (Z.of_nat (length d)) (Z.of_nat cap - Z.of_nat (length out))); lia. }
  rewrite Nat2Z.id. assert (length (take n d) = n) as Hn by (rewrite length_take; lia).
  rewrite put_ok by lia. cbn [obind]. rewrite <- Nat2Z.inj_add, put_ok.
  2: { rewrite length_blit by lia. cbn. lia. }
  assert (blit (blit (buffer bo) (length out) (take n d)) (length out + n) [0] = out ++ take n d ++ 0 :: drop n rest) as ->.
  { pose proof (blit_terminated out (take n d) rest 0 0 (length out) ltac:(lia) eq_refl) as E.
    rewrite Hn in E. rewrite H5. exact E. }
  cbn [obind].
  set (bo' := Buf (out ++ take n d ++ 0 :: drop n rest) (Z.of_nat (length out + n)) (Z.of_nat cap) (total bo + Z.of_nat (length d))).
  assert (buf_holds cap orig (out ++ d) bo') as Hb'.
  { unfold bo'. split; cbn; rewrite ?length_app; try lia. exists (drop n rest).
    assert (take cap (out ++ d) = out ++ take n d) as ->.
    { rewrite take_app_ge by lia. f_equal. unfold n. destruct (Nat.min_spec (length d) (cap - length out)) as [[? ->]|[? ->]]; [|done].
      rewrite !take_ge by lia. done. }
    split; [now rewrite <- app_assoc|]. split.
    - rewrite ?length_app, ?Hn. cbn. rewrite ?length_app, ?Hn. cbn. rewrite ?length_drop. lia.
    - rewrite <- H7, H5. rewrite !drop_app_ge by (rewrite ?Hn; lia). rewrite Hn.
      replace (S cap - length out - n)%nat with (S (cap - length out - n)) by lia.
      replace (S cap - length out)%nat with (S (cap - length out)) by lia. cbn. rewrite drop_drop. f_equal. lia. }
  exists bo'. split; [|done]. destruct (Z.ltb_spec 0 (Z.of_nat (length d) - Z.of_nat n)) as [Hm|Hm]; [|done].
  destruct (Z.eqb_spec (Z.of_nat cap - Z.of_nat (length out + n)) 0) as [|Hne]; [done|lia].
Qed.

Lemma format_buffer_holds format args out buff n :
  formatted format args = Ok out -> (n < length buff)%nat ->
  exists rest, format_buffer buff (S n) format args = Ok (take n out ++ 0 :: rest, Z.of_nat (length out)) /\
    length (take n out ++ 0 :: rest) = length buff /\
    drop (S n) (take n out ++ 0 :: rest) = drop (S n) buff.
Proof.
  intros Hf Hn. unfold format_buffer, vformat_buffer, buf_out_init.
  change 0 with (Z.of_nat 0) at 1. rewrite put_ok by (cbn; lia). cbn [obind].
  destruct buff as [|b0 buff]; [cbn in Hn; lia|].
  assert (buf_holds n (b0 :: buff) [] (Buf (blit (b0 :: buff) 0 [0]) 0 (Z.of_nat n) 0)) as H0.
  { split; cbn; auto. exists buff. rewrite take_nil. done. }
  destruct (sim_loop list_send buf_out_send (fun out bo => buf_holds n (b0 :: buff) out bo)
    ltac:(intros o1 o2 data o1' HR E; injection E as <-; now apply buf_send_holds)
    _ _ _ format 0 args out H0 Hf) as (bo & E & [B1 B2 B3 B4 (rest & B5 & B6 & B7)]).
  unfold out_vformat. rewrite E. cbn [obind]. unfold buf_out_length. rewrite B3, B5 in *.
  exists rest. auto.
Qed.

(** The bounded formatter.  Whenever the format and its arguments have a
    text, [format_buffer] stores that text truncated to the buffer, always
    terminated, never touches a byte past the given size, and returns the full
    length; a zero size stores nothing and returns 0. *)
Theorem format_buffer_truncates format args out buff n :
  formatted format args = Ok out -> (n < length buff)%nat ->
  format_buffer buff 0 format args = Ok (buff, 0) /\
  exists rest, format_buffer buff (S n) format args = Ok (take n out ++ 0 :: rest, Z.of_nat (length out)) /\
    length (take n out ++ 0 :: rest) = length buff /\
    drop (S n) (take n out ++ 0 :: rest) = drop (S n) buff.
Proof. intros Hf Hn. split; [done|]. now apply format_buffer_holds. Qed.

(** ** Numbers read back *)

Definition dval (c : Z) : Z :=
  if (48 <=? c) && (c <=? 57) then c - 48
  else if (97 <=? c) && (c <=? 102) then c - 87
  else if (65 <=? c) && (c <=? 70) then c - 55 else 0.

Definition read_digits (base : Z) (s : str) : Z := foldl (fun acc c => acc * base + dval c) 0 s.
Definition read_lsb (base : Z) (s : str) : Z := foldr (fun c acc => dval c + base * acc) 0 s.

Lemma read_digits_rev base l : read_digits base (rev l) = read_lsb base l.
Proof.
  unfold read_digits, read_lsb. induction l as [|c l IH]; [done|].
  cbn [rev foldr]. rewrite foldl_app, IH. cbn. lia.
Qed.

(** The digit strings the code uses. *)
Definition good_digits (base : Z) (digits : list Z) : Prop :=
  forall d, 0 <= d < base -> exists c, rd digits d = Ok c /\ dval c = d /\ 48 <= c.

Lemma good_decimal base : base <= 10 -> good_digits base decimal_digits.
Proof.
  intros Hb d Hd. assert (d = 0 \/ d = 1 \/ d = 2 \/ d = 3 \/ d = 4 \/ d = 5 \/ d = 6 \/ d = 7 \/ d = 8 \/ d = 9) as H by lia.
  repeat (destruct H as [->|H]; [eexists; split; [reflexivity|split; [reflexivity|lia]]|]). subst. eexists. split; [reflexivity|split; [reflexivity|lia]].
Qed.

Lemma good_hex cap : good_digits 16 (hex_digits cap).
Proof.
  intros d Hd. assert (d = 0 \/ d = 1 \/ d = 2 \/ d = 3 \/ d = 4 \/ d = 5 \/ d = 6 \/ d = 7 \/ d = 8 \/ d = 9 \/ d = 10 \/
    d = 11 \/ d = 12 \/ d = 13 \/ d = 14 \/ d = 15) as H by lia.
  destruct cap; repeat (destruct H as [->|H]; [eexists; split; [reflexivity|split; [reflexivity|lia]]|]); subst; eexists; (split; [reflexivity|split; [reflexivity|lia]]).
Qed.

Lemma digit_loop_spec fuel k v base digits room :
  2 <= base -> good_digits base digits -> 0 <= v < base ^ Z.of_nat k -> (k <= room)%nat -> (k < fuel)%nat ->
  exists l, digit_loop fuel v base digits room = Ok l /\ read_lsb base l = v /\ Forall (fun c => 48 <= c) l.
Proof.
  intros Hb Hg. revert k v room. induction fuel as [|fuel IH]; intros k v room Hv Hk Hf; [lia|].
  cbn [digit_loop]. destruct (Z.eqb_spec v 0) as [->|Hnz]; [exists []; auto|].
  destruct k as [|k]; [cbn in Hv; lia|]. destruct room as [|room]; [lia|].
  destruct (Hg (v mod base)) as (c & -> & Hc & Hc48); [apply Z.mod_pos_bound; lia|]. cbn [obind].
  destruct (IH k (v / base) room) as (l & -> & Hl & Hlen); [|lia|lia|].
  { split; [apply Z.div_pos; lia|]. apply Z.div_lt_upper_bound; [lia|].
    replace (Z.of_nat (S k)) with (Z.of_nat k + 1) in Hv by lia. rewrite Z.pow_add_r, Z.pow_1_r in Hv by lia. lia. }
  cbn [obind]. eexists. split; [reflexivity|]. split; [|now constructor].
  unfold read_lsb in *. cbn [foldr]. rewrite Hl, Hc. pose proof (Z.div_mod v base). lia.
Qed.

Lemma rd_at {A} (l : list A) i x : l !! i = Some x -> rd l (Z.of_nat i) = Ok x.
Proof. intros H. unfold rd. rewrite (proj2 (Z.ltb_ge _ _)) by lia. now rewrite Nat2Z.id, H. Qed.

(** The swap loop reverses the middle part. *)
Lemma reverse_loop_spec fuel a l b :
  (length l < fuel)%nat ->
  reverse_loop fuel (a ++ l ++ b) (Z.of_nat (length a)) (Z.of_nat (length a + length l) - 1) = Ok (a ++ rev l ++ b).
Proof.
  revert a l b. induction fuel as [|fuel IH]; intros a l b Hf; [lia|]. cbn [reverse_loop].
  destruct l as [|x l].
  { rewrite (proj2 (Z.ltb_ge _ _)) by (cbn; lia). done. }
  destruct l as [|y l] using rev_ind; [rewrite (proj2 (Z.ltb_ge _ _)) by (cbn; lia); done|]. clear IHl.
  rewrite (proj2 (Z.ltb_lt _ _)) by (cbn [length]; rewrite length_app; cbn; lia).
  set (e := (length a + S (length l))%nat).
  replace (Z.of_nat (length a + length (x :: l ++ [y])) - 1) with (Z.of_nat e)
    by (cbn [length]; rewrite length_app; unfold e; cbn; lia).
  assert (a ++ (x :: l ++ [y]) ++ b = a ++ x :: (l ++ y :: b)) as -> by (cbn; now rewrite <- app_assoc).
  assert ((a ++ x :: l ++ y :: b) !! length a = Some x) as E1 by now rewrite lookup_app_r, Nat.sub_diag by lia.
  assert ((a ++ x :: l ++ y :: b) !! e = Some y) as E2.
  { unfold e. rewrite lookup_app_r by lia. replace (length a + S (length l) - length a)%nat with (S (length l)) by lia.
    change ((l ++ y :: b) !! length l = Some y). now rewrite lookup_app_r, Nat.sub_diag by lia. }
  rewrite (rd_at _ _ _ E1). cbn [obind]. rewrite (rd_at _ _ _ E2). cbn [obind]. rewrite !Nat2Z.id.
  assert (<[e:=x]> (<[length a:=y]> (a ++ x :: l ++ y :: b)) = (a ++ [y]) ++ l ++ (x :: b)) as ->.
  { rewrite (insert_app_r_alt a _ (length a)), Nat.sub_diag by lia. change (<[0%nat:=y]> (x :: l ++ y :: b)) with (y :: l ++ y :: b).
    rewrite (insert_app_r_alt a _ e) by (unfold e; lia). replace (e - length a)%nat with (S (length l)) by (unfold e; lia).
    change (<[S (length l):=x]> (y :: l ++ y :: b)) with (y :: <[length l:=x]> (l ++ y :: b)).
    rewrite insert_app_r_alt, Nat.sub_diag by lia. change (<[0%nat:=x]> (y :: b)) with (x :: b). now rewrite <- app_assoc. }
  replace (Z.of_nat (length a) + 1) with (Z.of_nat (length (a ++ [y]))) by (rewrite length_app; cbn; lia).
  replace (Z.of_nat e - 1) with (Z.of_nat (length (a ++ [y]) + length l) - 1) by (rewrite length_app; unfold e; cbn; lia).
  rewrite IH by (cbn [length] in Hf; rewrite length_app in Hf; cbn in Hf; lia).
  f_equal. cbn [rev]. rewrite rev_app_distr. cbn. rewrite <- !app_assoc. done.
Qed.

Lemma format_number_spec bufsize v base digits :
  8 <= base -> good_digits base digits -> in_range 64 v -> (24 <= bufsize)%nat ->
  exists s, format_number bufsize v base digits = Ok s /\ read_digits base s = v /\ Forall (fun c => 48 <= c) s.
Proof.
  intros Hb Hg Hv Hs. unfold format_number. destruct bufsize as [|room]; [lia|].
  assert (2 ^ 64 <= base ^ Z.of_nat 22) as Hpow.
  { change (2 ^ 64) with (18446744073709551616). transitivity (8 ^ Z.of_nat 22); [vm_compute; discriminate|].
    apply Z.pow_le_mono_l. lia. }
  destruct (digit_loop_spec 65 22 v base digits room) as (l & -> & Hl & H48); [lia|done|unfold in_range in Hv; lia|lia|lia|].
  cbn [obind]. set (l' := match l with [] => _ | _ => _ end).
  assert (read_lsb base l' = v) as Hl'.
  { unfold l'. destruct l as [|c l]; [|destruct room; exact Hl]. destruct room; [lia|]. cbn in Hl |- *. lia. }
  assert (Forall (fun c => 48 <= c) l') as H48'.
  { unfold l'. destruct l; [|done]. destruct room; [done|]. repeat constructor. lia. }
  clearbody l'. exists (rev l'). split; [|split; [now rewrite read_digits_rev|now apply Forall_rev]].
  pose proof (reverse_loop_spec (S (length l')) [] l' [] ltac:(lia)) as H. cbn [app length Nat.add] in H.
  rewrite !app_nil_r in H. exact H.
Qed.

(** A decimal with an optional minus sign. *)
Definition read_signed (s : str) : Z :=
  match s with
  | [] => 0
  | c :: t => if c =? 45 then - read_digits 10 t else read_digits 10 s
  end.

Lemma read_signed_digits s : Forall (fun c => 48 <= c) s -> read_signed s = read_digits 10 s.
Proof.
  destruct s as [|c s]; [done|]. intros H. inversion H; subst. cbn [read_signed].
  destruct (Z.eqb_spec c 45); [lia|done].
Qed.

(** Printing a signed value given as its 64-bit pattern. *)
Lemma format_integer_spec z :
  - 2 ^ 63 < z < 2 ^ 63 -> exists s, format_integer 32 (u64 z) 10 true = Ok s /\ read_signed s = z.
Proof.
  intros Hz. unfold format_integer.
  assert (to_signed 64 (u64 z) = z) as ->.
  { unfold to_signed. rewrite wrap_idem. unfold wrap. destruct (Z_lt_le_dec z 0).
    - replace (z mod 2 ^ 64) with (z + 2 ^ 64) by (apply (Z.mod_unique_pos _ _ (-1)); lia).
      destruct (Z.ltb_spec (z + 2 ^ 64) (2 ^ (64 - 1))); lia.
    - rewrite Z.mod_small by lia. destruct (Z.ltb_spec z (2 ^ (64 - 1))); lia. }
  destruct (Z.ltb_spec z 0); cbn [andb].
  - rewrite (proj2 (Z.eqb_neq _ _)) by lia. rewrite wrap_small by (unfold in_range; lia).
    destruct (format_number_spec (32 - 1) (- z) 10 decimal_digits) as (s & -> & Hs & _);
      [lia|apply good_decimal; lia|unfold in_range; lia|lia|].
    cbn [obind]. eexists. split; [reflexivity|]. unfold read_signed. rewrite Z.eqb_refl, Hs. lia.
  - rewrite wrap_small by (unfold in_range; lia).
    destruct (format_number_spec 32 z 10 decimal_digits) as (s & -> & Hs & H48);
      [lia|apply good_decimal; lia|unfold in_range; lia|lia|].
    eexists. split; [reflexivity|]. now rewrite read_signed_digits.
Qed.

(** Two shifts extend the sign. *)
Lemma sign_extend_spec bytelen v :
  bytelen = 1 \/ bytelen = 2 \/ bytelen = 4 \/ bytelen = 8 ->
  sign_extend bytelen (wrap (8 * bytelen) v) = u64 (to_signed (8 * bytelen) v).
Proof.
  intros Hb. unfold sign_extend. set (w := 8 * bytelen). assert (8 <= w <= 64) as Hw by (unfold w; lia).
  assert (2 ^ w * 2 ^ (64 - w) = 2 ^ 64) as E1 by (rewrite <- Z.pow_add_r by lia; f_equal; lia).
  assert (2 ^ w = 2 * 2 ^ (w - 1)) as E2 by (rewrite <- Z.pow_succ_r by lia; f_equal; lia).
  assert (2 ^ (64 - 1) = 2 ^ (w - 1) * 2 ^ (64 - w)) as E3 by (rewrite <- Z.pow_add_r by lia; f_equal; lia).
  pose proof (wrap_range w v ltac:(lia)) as [R1 R2]. set (x := wrap w v) in *.
  assert (0 < 2 ^ (64 - w)) as Hp by (apply Z.pow_pos_nonneg; lia).
  rewrite Z.shiftl_mul_pow2 by lia. f_equal.
  unfold to_signed. fold x. rewrite (wrap_small 64 (u64 _)) by (apply wrap_range; lia).
  rewrite (wrap_small 64 (x * _)) by (unfold in_range; nia). rewrite E3.
  destruct (Z.ltb_spec x (2 ^ (w - 1))) as [Hx|Hx].
  - rewrite (proj2 (Z.ltb_lt _ _)) by nia. rewrite Z.shiftr_div_pow2 by lia. apply Z.div_mul. lia.
  - rewrite (proj2 (Z.ltb_ge _ _)) by nia. rewrite Z.shiftr_div_pow2 by lia. rewrite <- E1.
    replace (x * 2 ^ (64 - w) - 2 ^ w * 2 ^ (64 - w)) with ((x - 2 ^ w) * 2 ^ (64 - w)) by ring.
    apply Z.div_mul. lia.
Qed.

Definition argument_size (b : Z) : Prop := b = 1 \/ b = 2 \/ b = 4 \/ b = 8.

(** Integer conversions print a numeral that reads back as the argument:
    %d and %i the signed value of the argument at its length modifier, %x and %X
    its unsigned value, %p the whole word after "0x".  The 32-byte buffer is
    large enough for each. *)
Theorem conversions_read_back c bytelen v args :
  argument_size bytelen ->
  (c = 100 \/ c = 105 -> to_signed (8 * bytelen) v <> - 2 ^ 63 ->
   exists s, convert c bytelen (AInt v :: args) = Ok (s, args) /\ read_signed s = to_signed (8 * bytelen) v) /\
  (c = 120 \/ c = 88 ->
   exists s, convert c bytelen (AInt v :: args) = Ok (s, args) /\ read_digits 16 s = wrap (8 * bytelen) v) /\
  exists s, convert 112 bytelen (AInt v :: args) = Ok (48 :: 120 :: s, args) /\ read_digits 16 s = u64 v.
Proof.
  intros Hb. assert (forall w, in_range 64 (u64 w)) as HR by (intros; apply wrap_range; lia).
  assert (wrap (8 * bytelen) (u64 v) = wrap (8 * bytelen) v) as Ew.
  { unfold wrap. apply Z.mod_mod_divide. exists (2 ^ (64 - 8 * bytelen)).
    rewrite <- Z.pow_add_r by (unfold argument_size in Hb; lia). f_equal. lia. }
  split; [|split].
  - intros Hc Hmin. pose proof (to_signed_range (8 * bytelen) v ltac:(unfold argument_size in Hb; lia)) as Hbd.
    assert (2 ^ (8 * bytelen - 1) <= 2 ^ 63) as Hle by (apply Z.pow_le_mono_r; unfold argument_size in Hb; lia).
    destruct (format_integer_spec (to_signed (8 * bytelen) v)) as (s & Hs & Hr); [lia|]. exists s. split; [|done].
    destruct Hc as [->| ->]; unfold convert; cbn [Z.eqb Pos.eqb orb va_int obind]; rewrite Ew, sign_extend_spec by done;
      rewrite Hs; done.
  - intros Hc.
    assert (in_range 64 (wrap (8 * bytelen) v)) as Hr.
    { pose proof (wrap_range (8 * bytelen) v ltac:(unfold argument_size in Hb; lia)) as [H1 H2].
      assert (2 ^ (8 * bytelen) <= 2 ^ 64) by (apply Z.pow_le_mono_r; unfold argument_size in Hb; lia). split; lia. }
    destruct Hc as [->| ->]; unfold convert; cbn [Z.eqb Pos.eqb orb va_int obind]; rewrite Ew.
    + destruct (format_number_spec 32 (wrap (8 * bytelen) v) 16 (hex_digits false)) as (s & Hs & Hd & _);
        [lia|apply good_hex|done|lia|]. exists s. unfold format_hex. rewrite Hs. done.
    + destruct (format_number_spec 32 (wrap (8 * bytelen) v) 16 (hex_digits true)) as (s & Hs & Hd & _);
        [lia|apply good_hex|done|lia|]. exists s. unfold format_hex. rewrite Hs. done.
  - destruct (format_number_spec 30 (u64 v) 16 (hex_digits false)) as (s & Hs & Hd & _);
      [lia|apply good_hex|apply HR|lia|]. exists s. unfold convert, format_hex. cbn [Z.eqb Pos.eqb orb va_int obind].
    rewrite Hs. done.
Qed.

Lemma conversions_read_back_witness :
  exists s, convert 100 2 [AInt 0x7FFF0010] = Ok (s, []) /\ read_signed s = 16.
Proof.
  destruct (conversions_read_back 100 2 0x7FFF0010 []) as [H _]; [unfold argument_size; lia|].
  exact (H (or_introl eq_refl) ltac:(vm_compute; discriminate)).
Defined.

(** A directive cut off after its width, precision or length modifier is not
    recognised as the end of the format: the formatter steps over the terminator
    and reads on, which is undefined, for every argument list.  Printing the
    least 64-bit integer with %lld is undefined too (the negation overflows). *)
Theorem truncated_directive_undefined args :
  formatted [37; 53] args = Undef /\ formatted [37; 46] args = Undef /\ formatted [37; 108] args = Undef /\
  formatted [37; 108; 108; 100] (AInt (- 2 ^ 63) :: args) = Undef.
Proof. split; [|split; [|split]]; try (destruct args as [|[v|s] args]; reflexivity). Qed.


(** ** The file's own unit tests *)

Definition text (s : string) : str := (fun a => Z.of_N (N_of_ascii a)) <$> list_ascii_of_string s.

Example utest_expect :
  Forall (fun t => formatted (text (fst (fst t))) (snd (fst t)) = Ok (text (snd t)))
    [("", [], ""); ("a", [], "a"); ("01234", [AStr []], "01234"); ("%s", [AStr (text "01234")], "01234");
     ("aa%scc", [AStr (text "bb")], "aabbcc"); ("%c", [AInt 97], "a"); ("%d", [AInt 1234], "1234");
     ("%d", [AInt (-8123)], "-8123"); ("%hd", [AInt 0x7fff0010], "16"); ("%hhd", [AInt 0x7fffff10], "16");
     ("%lld", [AInt 0x1000000000], "68719476736"); ("%ld", [AInt 70000], "70000");
     ("%p", [AInt 0xb0001234], "0xb0001234"); ("%x", [AInt 0x12ab], "12ab"); ("%X", [AInt 0x12ab], "12AB");
     ("%08x", [AInt 0x123456], "00123456"); ("0%d", [AInt 1234], "01234"); ("%5d", [AInt 1234], " 1234");
     ("%05d", [AInt 1234], "01234"); ("%8d", [AInt 1234], "    1234"); ("%-8d", [AInt 1234], "1234    ");
     ("%-11s", [AStr (text "abcdef")], "abcdef     "); ("%s:%d", [AStr (text "something"); AInt 1234], "something:1234");
     ("%03d:%d:%02d", [AInt 5; AInt 5; AInt 5], "005:5:05"); ("%d,%p", [AInt 5; AInt 0], "5,0x0");
     ("%lld,%d,%d,%d", [AInt 0x1000000000; AInt 6; AInt 7; AInt 8], "68719476736,6,7,8")]%string.
Proof. repeat (constructor; [vm_compute; reflexivity|]). constructor. Qed.

Lemma format_buffer_truncates_witness :
  exists rest, format_buffer (replicate 4 120) 4 (text "%s:%d") [AStr (text "ab"); AInt 7] = Ok (text "ab:" ++ 0 :: rest, 4).
Proof.
  destruct (format_buffer_truncates (text "%s:%d") [AStr (text "ab"); AInt 7] (text "ab:7") (replicate 4 120) 3)
    as (_ & rest & H & _); [vm_compute; reflexivity|cbn; lia|]. exists rest. exact H.
Defined.
(** Without a log device the first message goes nowhere; the next one is written to stdout as a log record,
    with its priority byte and its NULs. *)
Example first_message_lost :
  let log fd := format_log (replicate 1024 7) (-1) 1 [Wrote 5] fd 4 [104] [97; 98] [] in
  log (-1) = Ok (2, 1, []) /\ log 1 = Ok (2, 1, [4; 104; 0; 97; 98]).
Proof. split; vm_compute; reflexivity. Qed.
End LinkerFormat.
