(* ===== verification/StrL.v ===== *)
(** * Bounded string copies (common/strlcpy.c, common/strlcat.c)

    The OpenBSD routines, index by index on the destination buffer; a write
    outside it is undefined. *)

From Stdlib Require Import ZArith Lia Bool.
From stdpp Require Import base list numbers option.
From S2P Require Import Prelude CStr.

Open Scope Z_scope.
Open Scope outcome_scope.

Module StrL.
Import CStr.

(** The scan [while ( *s++ );] from index [i]: the index past the NUL. *)
Fixpoint to_end (fuel : nat) (src : str) (i : Z) : outcome Z :=
  match fuel with
  | O => Undef
  | S fuel => let! c := chr src i in if c =? 0 then Ok (i + 1) else to_end fuel src (i + 1)
  end.

(** [while (--n != 0)] copying; returns the buffer, both indices (they are equal)
    and [n]. *)
Fixpoint strlcpy_loop (n : nat) (dst : list Z) (src : str) (i : Z) : outcome (list Z * Z * nat) :=
  match n with
  | O => Undef
  | S O => Ok (dst, i, O)
  | S n =>
      let! c := chr src i in
      let! dst := put dst i [c] in
      if c =? 0 then Ok (dst, i + 1, n) else strlcpy_loop n dst src (i + 1)
  end.

Definition strlcpy (dst : list Z) (src : str) (siz : nat) : outcome (list Z * Z) :=
  let! (dst, s, n) := (match siz with O => Ok (dst, 0, O) | S _ => strlcpy_loop siz dst src 0 end) in
  match n with
  | O =>
      let! dst := (match siz with O => Ok dst | S _ => put dst s [0] end) in
      let! s := to_end (S (length src)) src s in
      Ok (dst, s - 1)
  | S _ => Ok (dst, s - 1)
  end.

(** [while (n-- != 0 && *d != '\0') d++;] *)
Fixpoint find_end (n : nat) (dst : list Z) (d : Z) : outcome Z :=
  match n with
  | O => Ok d
  | S n => let! c := rd dst d in if c =? 0 then Ok d else find_end n dst (d + 1)
  end.

Fixpoint strlcat_loop (fuel : nat) (dst : list Z) (d : Z) (n : Z) (src : str) (s : Z) : outcome (list Z * Z * Z) :=
  match fuel with
  | O => Undef
  | S fuel =>
      let! c := chr src s in
      if c =? 0 then Ok (dst, d, s)
      else if negb (n =? 1) then
        let! dst := put dst d [c] in strlcat_loop fuel dst (d + 1) (n - 1) src (s + 1)
      else strlcat_loop fuel dst d n src (s + 1)
  end.

Definition strlcat (dst : list Z) (src : str) (siz : nat) : outcome (list Z * Z) :=
  let! dlen := find_end siz dst 0 in
  let n := Z.of_nat siz - dlen in
  if n =? 0 then Ok (dst, dlen + Z.of_nat (length src))
  else
    let! (dst, d, s) := strlcat_loop (S (length src)) dst dlen n src 0 in
    let! dst := put dst d [0] in
    Ok (dst, dlen + s).

(** ** Correctness *)

(** Bytes of a string are not NUL. *)
Definition no_nul (s : str) : Prop := Forall (fun c => c <> 0) s.

Lemma to_end_spec fuel a b :
  no_nul b -> (length b < fuel)%nat -> to_end fuel (a ++ b) (Z.of_nat (length a)) = Ok (Z.of_nat (length (a ++ b)) + 1).
Proof.
  intros Hb. revert a fuel. induction Hb as [|c b Hc Hb IH]; intros a fuel Hf; (destruct fuel as [|fuel]; [cbn in Hf; lia|]); cbn [to_end].
  - rewrite app_nil_r, chr_end. done.
  - rewrite chr_mid. cbn [obind]. destruct (Z.eqb_spec c 0); [done|].
    replace (a ++ c :: b) with ((a ++ [c]) ++ b) by now rewrite <- app_assoc.
    replace (Z.of_nat (length a) + 1) with (Z.of_nat (length (a ++ [c]))) by (rewrite length_app; cbn; lia).
    apply IH. cbn in Hf. lia.
Qed.

Lemma put_next a x rest c : put (a ++ x :: rest) (Z.of_nat (length a)) [c] = Ok (a ++ c :: rest).
Proof.
  rewrite put_ok by (rewrite length_app; cbn; lia). f_equal.
  exact (blit_mid a [x] [c] rest eq_refl).
Qed.

(** The loop from the middle, [a] copied and [b] to go, when all of [b] and its
    NUL are copied ... *)
Lemma strlcpy_fits n a b old rest :
  no_nul b -> (length b < n)%nat -> length old = S (length b) ->
  exists k, strlcpy_loop (S n) (a ++ old ++ rest) (a ++ b) (Z.of_nat (length a))
            = Ok (a ++ b ++ 0 :: rest, Z.of_nat (length (a ++ b)) + 1, S k).
Proof.
  intros Hb. revert n a old. induction Hb as [|c b Hc Hb IH]; intros n a old Hn Hold;
    (destruct n as [|n]; [cbn in Hn; lia|]); (destruct old as [|x old]; [done|]); cbn [strlcpy_loop app].
  - destruct old; [|done]. rewrite app_nil_r, chr_end. cbn [obind]. rewrite put_next. cbn [obind]. eauto.
  - rewrite chr_mid. cbn [obind]. rewrite put_next. cbn [obind]. destruct (Z.eqb_spec c 0); [done|].
    cbn in Hn, Hold. destruct (IH n (a ++ [c]) old) as (k & E); [lia|lia|].
    rewrite <- !app_assoc in E. cbn [app] in E.
    replace (Z.of_nat (length (a ++ [c]))) with (Z.of_nat (length a) + 1) in E by (rewrite length_app; cbn; lia).
    destruct n as [|n]; [lia|]. eauto.
Qed.

(** ... and when the room ends first. *)
Lemma strlcpy_cut n a b old rest :
  no_nul b -> (n <= length b)%nat -> length old = n ->
  strlcpy_loop (S n) (a ++ old ++ rest) (a ++ b) (Z.of_nat (length a))
  = Ok (a ++ take n b ++ rest, Z.of_nat (length a + n), O).
Proof.
  intros Hb. revert n a old. induction Hb as [|c b Hc Hb IH]; intros n a old Hn Hold; cbn in Hn.
  - destruct n; [|lia]. destruct old; [|done]. cbn. repeat f_equal. lia.
  - destruct n as [|n]; (destruct old as [|x old]; [try done|try done]).
    + cbn. repeat f_equal. lia.
    + cbn [strlcpy_loop app]. rewrite chr_mid. cbn [obind]. rewrite put_next. cbn [obind].
      destruct (Z.eqb_spec c 0); [done|]. cbn in Hold. specialize (IH n (a ++ [c]) old ltac:(lia) ltac:(lia)).
      rewrite <- !app_assoc in IH. cbn [app] in IH. cbn [take].
      replace (Z.of_nat (length (a ++ [c]))) with (Z.of_nat (length a) + 1) in IH by (rewrite length_app; cbn; lia).
      replace (length (a ++ [c]) + n)%nat with (length a + S n)%nat in IH by (rewrite length_app; cbn; lia). exact IH.
Qed.

Lemma split_length {A} (l : list A) n : (n <= length l)%nat -> exists a b, l = a ++ b /\ length a = n.
Proof. intros H. exists (take n l), (drop n l). rewrite take_drop, length_take. split; [done|lia]. Qed.

(** [strlcpy] stores the source truncated to the size, always terminated when
    the size is not zero, touches no byte it need not, and returns the length of
    the source. *)
Theorem strlcpy_spec dst src siz :
  no_nul src -> (siz <= length dst)%nat ->
  strlcpy dst src siz = Ok (match siz with
                            | O => dst
                            | S n => take n src ++ 0 :: drop (S (min n (length src))) dst
                            end, Z.of_nat (length src)).
Proof.
  intros Hs Hd. unfold strlcpy. destruct siz as [|n].
  { cbn [obind]. change 0 with (Z.of_nat (length ([] : list Z))). rewrite (to_end_spec _ [] src) by (auto; lia).
    cbn [obind app]. repeat f_equal. lia. }
  destruct (decide (length src < n)%nat) as [Hlt|Hge].
  - destruct (split_length dst (S (length src)) ltac:(lia)) as (old & rest & -> & Hold).
    destruct (strlcpy_fits n [] src old rest Hs Hlt Hold) as (k & E). cbn [app length] in E. change (Z.of_nat 0) with 0 in E. rewrite E. cbn [obind].
    rewrite take_ge by lia. rewrite Nat.min_r by lia. rewrite <- Hold, drop_app_length. repeat f_equal. lia.
  - destruct (split_length dst n ltac:(lia)) as (old & rest & -> & Hold).
    pose proof (strlcpy_cut n [] src old rest Hs ltac:(lia) Hold) as E. cbn [app length Nat.add] in E. change (Z.of_nat 0) with 0 in E. rewrite E. cbn [obind].
    rewrite length_app in Hd. destruct rest as [|x rest]; [cbn in Hd; lia|].
    assert (length (take n src) = n) as Hl by (rewrite length_take; lia).
    replace (Z.of_nat n) with (Z.of_nat (length (take n src))) by lia. rewrite put_next. cbn [obind].
    pose proof (to_end_spec (S (length src)) (take n src) (drop n src)) as H. rewrite take_drop in H.
    rewrite H; [|apply Forall_drop; exact Hs|rewrite length_drop; lia]. cbn [obind].
    rewrite Nat.min_l by lia. rewrite drop_app_ge by lia. replace (S n - length old)%nat with 1%nat by lia.
    cbn [drop]. rewrite drop_0. repeat f_equal. lia.
Qed.

Lemma strlcpy_spec_witness :
  strlcpy [120; 120; 120; 120; 120] [97; 98; 99; 100] 3 = Ok ([97; 98; 0; 120; 120], 4).
Proof. apply (strlcpy_spec [120; 120; 120; 120; 120] [97; 98; 99; 100] 3); [repeat constructor; lia|cbn; lia]. Defined.

Lemma rd_mid {A} (a : list A) c b : rd (a ++ c :: b) (Z.of_nat (length a)) = Ok c.
Proof. unfold rd. rewrite (proj2 (Z.ltb_ge _ _)) by lia. rewrite Nat2Z.id, lookup_app_r, Nat.sub_diag by lia. done. Qed.

(** The scan stops at the first NUL within the size, else at the size. *)
Lemma find_end_nul n a t rest :
  no_nul t -> (length t < n)%nat -> find_end n (a ++ t ++ 0 :: rest) (Z.of_nat (length a)) = Ok (Z.of_nat (length (a ++ t))).
Proof.
  intros Ht. revert n a. induction Ht as [|c t Hc Ht IH]; intros n a Hn; (destruct n as [|n]; [cbn in Hn; lia|]); cbn [find_end app].
  - rewrite rd_mid, app_nil_r. done.
  - rewrite rd_mid. cbn [obind]. destruct (Z.eqb_spec c 0); [done|].
    specialize (IH n (a ++ [c]) ltac:(cbn in Hn; lia)). rewrite <- !app_assoc in IH. cbn [app] in IH.
    replace (Z.of_nat (length (a ++ [c]))) with (Z.of_nat (length a) + 1) in IH by (rewrite length_app; cbn; lia). exact IH.
Qed.

Lemma find_end_full n a t rest :
  no_nul t -> length t = n -> find_end n (a ++ t ++ rest) (Z.of_nat (length a)) = Ok (Z.of_nat (length (a ++ t))).
Proof.
  intros Ht. revert n a. induction Ht as [|c t Hc Ht IH]; intros n a <-; cbn [find_end length app].
  - now rewrite app_nil_r.
  - rewrite rd_mid. cbn [obind]. destruct (Z.eqb_spec c 0); [done|].
    specialize (IH (length t) (a ++ [c]) eq_refl). rewrite <- !app_assoc in IH. cbn [app] in IH.
    replace (Z.of_nat (length (a ++ [c]))) with (Z.of_nat (length a) + 1) in IH by (rewrite length_app; cbn; lia). exact IH.
Qed.

(** Appending: [m] bytes still fit before the terminator. *)
Lemma strlcat_loop_spec fuel m p a b old rest :
  no_nul b -> (length b < fuel)%nat -> length old = min m (length b) ->
  strlcat_loop fuel (p ++ old ++ rest) (Z.of_nat (length p)) (Z.of_nat m + 1) (a ++ b) (Z.of_nat (length a))
  = Ok (p ++ take m b ++ rest, Z.of_nat (length p + length old), Z.of_nat (length (a ++ b))).
Proof.
  intros Hb. revert fuel m p a old. induction Hb as [|c b Hc Hb IH]; intros fuel m p a old Hf Hold;
    (destruct fuel as [|fuel]; [cbn in Hf; lia|]); cbn [strlcat_loop].
  - rewrite app_nil_r, chr_end. cbn [obind]. destruct old; [|cbn in Hold; lia]. rewrite take_nil. cbn. repeat f_equal; lia.
  - rewrite chr_mid. cbn [obind]. destruct (Z.eqb_spec c 0); [done|]. cbn [length] in Hf, Hold.
    destruct m as [|m].
    + cbn. destruct old; [|cbn in Hold; lia].
      specialize (IH fuel 0%nat p (a ++ [c]) [] ltac:(lia) eq_refl). rewrite <- !app_assoc in IH. cbn in IH.
      replace (Z.of_nat (length (a ++ [c]))) with (Z.of_nat (length a) + 1) in IH by (rewrite length_app; cbn; lia). exact IH.
    + destruct (Z.eqb_spec (Z.of_nat (S m) + 1) 1); [lia|]. cbn [negb]. destruct old as [|x old]; [cbn in Hold; lia|].
      cbn [app]. rewrite put_next. cbn [obind].
      specialize (IH fuel m (p ++ [c]) (a ++ [c]) old ltac:(lia) ltac:(cbn in Hold; lia)).
      rewrite <- !app_assoc in IH. cbn [app] in IH.
      replace (Z.of_nat (length (a ++ [c]))) with (Z.of_nat (length a) + 1) in IH by (rewrite length_app; cbn; lia).
      replace (Z.of_nat (length (p ++ [c]))) with (Z.of_nat (length p) + 1) in IH by (rewrite length_app; cbn; lia).
      replace (Z.of_nat (S m) + 1 - 1) with (Z.of_nat m + 1) by lia.
      replace (length (p ++ [c]) + length old)%nat with (length p + length (x :: old))%nat in IH by (rewrite length_app; cbn; lia).
      rewrite IH. done.
Qed.

(** [strlcat] appends as much of the source as leaves room for the terminator
    and returns the length it tried to create; when the destination holds no
    terminator within the size it changes nothing and returns the size plus the
    source's length.  No byte past the size is read or written. *)
Theorem strlcat_spec t src siz rest :
  no_nul t -> no_nul src ->
  ((length t < siz)%nat -> (siz <= length t + S (length rest))%nat ->
   strlcat (t ++ 0 :: rest) src siz =
     Ok (t ++ take (siz - length t - 1) src ++ 0 :: drop (min (siz - length t - 1) (length src)) rest,
         Z.of_nat (length t + length src))) /\
  (length t = siz -> strlcat (t ++ rest) src siz = Ok (t ++ rest, Z.of_nat (siz + length src))).
Proof.
  intros Ht Hs. split.
  - intros Hlt Hroom. unfold strlcat.
    pose proof (find_end_nul siz [] t rest Ht Hlt) as Hf. cbn [app length] in Hf. change (Z.of_nat 0) with 0 in Hf. rewrite Hf. cbn [obind].
    destruct (Z.eqb_spec (Z.of_nat siz - Z.of_nat (length t)) 0); [lia|].
    set (m := (siz - length t - 1)%nat).
    destruct (split_length (0 :: rest) (min m (length src))) as (old & rest' & E & Hold); [cbn; unfold m; lia|]. rewrite E.
    replace (Z.of_nat siz - Z.of_nat (length t)) with (Z.of_nat m + 1) by (unfold m; lia).
    pose proof (strlcat_loop_spec (S (length src)) m t [] src old rest' Hs ltac:(lia) Hold) as Hc. cbn [app length] in Hc. change (Z.of_nat 0) with 0 in Hc.
    rewrite Hc. cbn [obind].
    assert (length rest' = S (length rest) - min m (length src))%nat as Hl.
    { apply (f_equal length) in E. rewrite length_app in E. cbn in E. lia. }
    destruct rest' as [|x rest']; [unfold m in Hl; cbn in Hl; lia|].
    assert (length t + length old = length (t ++ take m src))%nat as -> by (rewrite length_app, length_take; lia).
    rewrite app_assoc, put_next. cbn [obind]. rewrite <- app_assoc.
    assert (rest' = drop (min m (length src)) rest) as ->.
    { rewrite <- Hold. apply (f_equal (drop (S (length old)))) in E. cbn [drop] in E. rewrite E.
      rewrite drop_app_ge by lia. replace (S (length old) - length old)%nat with 1%nat by lia. done. }
    repeat f_equal. lia.
  - intros Hl. unfold strlcat. pose proof (find_end_full siz [] t rest Ht Hl) as Hf. cbn [app length] in Hf. change (Z.of_nat 0) with 0 in Hf. rewrite Hf.
    cbn [obind]. rewrite Hl, Z.sub_diag. cbn. repeat f_equal. lia.
Qed.

Lemma strlcat_spec_witness :
  strlcat [97; 98; 0; 120; 120; 120] [99; 100; 101] 5 = Ok ([97; 98; 99; 100; 0; 120], 5).
Proof.
  exact (proj1 (strlcat_spec [97; 98] [99; 100; 101] 5 [120; 120; 120] ltac:(repeat constructor; lia) ltac:(repeat constructor; lia))
    ltac:(cbn; lia) ltac:(cbn; lia)).
Defined.
End StrL.
