(* ===== verification/SpvEdit.v ===== *)
(** * The SPIR-V editor (vulkan/compat/malibridge/spirv_edit.c, spirv_edit.h)

    A module as its five header words and the list of its instructions, with
    the editor's lookups and edits.  Operand reads outside an instruction's words
    are undefined.  Allocation is assumed to succeed, so [err] is set only when a
    module has no memory model. *)

From Stdlib Require Import ZArith Lia Bool.
From stdpp Require Import base list numbers option.
From S2P Require Import Prelude.

Open Scope Z_scope.
Open Scope outcome_scope.

Module SpvEdit.

(** Opcodes and enumerants of spirv_edit.h. *)
Definition SpvOpUndef := 1.
Definition SpvOpSourceContinued := 2.
Definition SpvOpSource := 3.
Definition SpvOpSourceExtension := 4.
Definition SpvOpName := 5.
Definition SpvOpMemberName := 6.
Definition SpvOpString := 7.
Definition SpvOpLine := 8.
Definition SpvOpExtension := 10.
Definition SpvOpExtInstImport := 11.
Definition SpvOpMemoryModel := 14.
Definition SpvOpEntryPoint := 15.
Definition SpvOpExecutionMode := 16.
Definition SpvOpCapability := 17.
Definition SpvOpTypeBool := 20.
Definition SpvOpTypeInt := 21.
Definition SpvOpTypeFloat := 22.
Definition SpvOpTypeVector := 23.
Definition SpvOpTypeArray := 28.
Definition SpvOpTypeStruct := 30.
Definition SpvOpTypePointer := 32.
Definition SpvOpConstant := 43.
Definition SpvOpFunction := 54.
Definition SpvOpFunctionEnd := 56.
Definition SpvOpVariable := 59.
Definition SpvOpStore := 62.
Definition SpvOpDecorate := 71.
Definition SpvOpMemberDecorate := 72.
Definition SpvOpSelectionMerge := 247.
Definition SpvOpLabel := 248.
Definition SpvOpBranch := 249.
Definition SpvOpBranchConditional := 250.
Definition SpvOpKill := 252.
Definition SpvOpReturn := 253.
Definition SpvOpNoLine := 317.
Definition SpvOpModuleProcessed := 330.
Definition SpvOpExecutionModeId := 331.
Definition SpvOpDecorateId := 332.
Definition SpvOpTerminateInvocation := 4416.
Definition SpvOpDecorateString := 5632.
Definition SpvOpMemberDecorateString := 5633.
Definition SpvDecorationLocation := 30.
Definition SpvDecorationArrayStride := 6.
Definition SpvMagic := 0x07230203.

(** [n] is the word count including the first word, [w] the operand words. *)
Record spv_inst := Inst { op : Z; n : Z; w : list Z }.
Record spv_mod := Mod { header : list Z; ins : list spv_inst; err : bool }.

Definition set_ins (l : list spv_inst) (m : spv_mod) : spv_mod := Mod (header m) l (err m).
Definition bound (m : spv_mod) : Z := nth 3 (header m) 0.

(** The old bound, and the module with the bound moved on. *)
Definition spv_new_id (m : spv_mod) : Z * spv_mod :=
  (bound m, Mod (<[3%nat := u32 (bound m + 1)]> (header m)) (ins m) (err m)).

Definition spv_insert (m : spv_mod) (at_ : nat) (o : Z) (ops : list Z) : spv_mod :=
  let at_ := min at_ (length (ins m)) in
  set_ins (take at_ (ins m) ++ Inst o (u16 (Z.of_nat (length ops) + 1)) ops :: drop at_ (ins m)) m.

Definition spv_remove (m : spv_mod) (at_ : nat) : spv_mod :=
  if (length (ins m) <=? at_)%nat then m else set_ins (delete at_ (ins m)) m.

(** ** Parsing and writing *)

Fixpoint parse_loop (fuel : nat) (code : list Z) (words pos : Z) (m : spv_mod) : outcome (option spv_mod) :=
  match fuel with
  | O => Undef
  | S fuel =>
      if pos <? words then
        let! c := rd code pos in
        let cnt := Z.shiftr c 16 in
        let o := Z.land c 0xffff in
        if (cnt =? 0) || (words <? pos + cnt) then Ok None
        else
          let ops := take (Z.to_nat (u16 (cnt - 1))) (drop (Z.to_nat (pos + 1)) code) in
          parse_loop fuel code words (pos + cnt) (spv_insert m (length (ins m)) o ops)
      else Ok (Some m)
  end.

(** [None] is the error return. *)
Definition spv_parse (code : list Z) (bytes : Z) : outcome (option spv_mod) :=
  if (bytes <? 20) || negb (Z.land bytes 3 =? 0) then Ok None else
  let! c0 := rd code 0 in
  if negb (c0 =? SpvMagic) then Ok None else
  let words := bytes / 4 in
  if Z.of_nat (length code) <? words then Undef
  else parse_loop (S (Z.to_nat words)) code words 5 (Mod (take 5 code) [] false).

(** The first word, then [n - 1] operand words. *)
Definition write_inst (i : spv_inst) : list Z :=
  Z.lor (Z.shiftl (n i) 16) (op i) :: take (Z.to_nat (n i - 1)) (w i).

Definition spv_write (m : spv_mod) : list Z := header m ++ concat (write_inst <$> ins m).

(** ** Lookups *)

(** The first instruction from position [i] on that satisfies the test. *)
Fixpoint find_first (test : spv_inst -> outcome bool) (l : list spv_inst) (i : nat) : outcome (option nat) :=
  match l with
  | [] => Ok None
  | x :: l => let! b := test x in if (b : bool) then Ok (Some i) else find_first test l (S i)
  end.

Definition find_inst (test : spv_inst -> outcome bool) (m : spv_mod) : outcome (option (nat * spv_inst)) :=
  let! r := find_first test (ins m) 0 in
  Ok (r ≫= fun i => pair i <$> ins m !! i).

Fixpoint index_of_op (o : Z) (l : list spv_inst) (i : nat) : option nat :=
  match l with
  | [] => None
  | x :: l => if op x =? o then Some i else index_of_op o l (S i)
  end.

Definition spv_find_op (m : spv_mod) (o : Z) (from : nat) : option nat := index_of_op o (drop from (ins m)) from.

Definition is_type (o : Z) : bool := (19 <=? o) && (o <=? 38).
Definition is_const (o : Z) : bool := ((41 <=? o) && (o <=? 46)) || ((48 <=? o) && (o <=? 52)).

(** The opcodes without a result. *)
Definition no_result : list Z :=
  [SpvOpName; SpvOpMemberName; SpvOpDecorate; SpvOpMemberDecorate; SpvOpEntryPoint; SpvOpExecutionMode; SpvOpCapability;
   SpvOpExtension; SpvOpMemoryModel; SpvOpStore; SpvOpBranch; SpvOpBranchConditional; SpvOpSelectionMerge; SpvOpReturn;
   SpvOpKill; SpvOpFunctionEnd; SpvOpLine; SpvOpNoLine; SpvOpSource; SpvOpSourceExtension; SpvOpDecorateId;
   SpvOpDecorateString; SpvOpMemberDecorateString; SpvOpModuleProcessed; SpvOpExecutionModeId; 246; 251; 254; 255; 74; 75;
   224; 225; SpvOpTerminateInvocation].

Definition spv_result_id (i : spv_inst) : outcome Z :=
  if n i <? 2 then Ok 0
  else if is_type (op i) || (op i =? SpvOpLabel) || (op i =? SpvOpString) || (op i =? SpvOpExtInstImport) || (op i =? 73)
  then rd (w i) 0
  else if bool_decide (op i ∈ no_result) then Ok 0
  else if 3 <=? n i then rd (w i) 1 else Ok 0.

Definition spv_find_def (m : spv_mod) (id : Z) : outcome (option (nat * spv_inst)) :=
  find_inst (fun i => let! r := spv_result_id i in Ok (r =? id)) m.

Definition spv_types_end (m : spv_mod) : nat :=
  match spv_find_op m SpvOpFunction 0 with None => length (ins m) | Some f => f end.

Fixpoint annotations_loop (l : list spv_inst) (i : nat) : option nat :=
  match l with
  | [] => None
  | x :: l => if is_type (op x) || is_const (op x) || (op x =? SpvOpVariable) || (op x =? SpvOpUndef)
              then Some i else annotations_loop l (S i)
  end.

Definition spv_annotations_end (m : spv_mod) : nat :=
  let end_ := spv_types_end m in
  default end_ (annotations_loop (take end_ (ins m)) 0).

Definition add_global (m : spv_mod) (o : Z) (ops : list Z) : spv_mod := spv_insert m (spv_types_end m) o ops.

(** Reads of operand words, left to right with C's short circuits. *)
Definition test_op (o : Z) (k : spv_inst -> outcome bool) (i : spv_inst) : outcome bool :=
  if op i =? o then k i else Ok false.
Definition test_word (j : Z) (v : Z) (k : spv_inst -> outcome bool) (i : spv_inst) : outcome bool :=
  let! x := rd (w i) j in if x =? v then k i else Ok false.
Definition yes (i : spv_inst) : outcome bool := Ok true.
Definition test_n (v : Z) (k : spv_inst -> outcome bool) (i : spv_inst) : outcome bool :=
  if n i =? v then k i else Ok false.

(** Word [res] of the first match, or a new instruction built around a fresh id. *)
Definition find_or_add (m : spv_mod) (test : spv_inst -> outcome bool) (res o : Z) (ops : Z -> list Z) : outcome (Z * spv_mod) :=
  let! r := find_inst test m in
  match r with
  | Some (_, i) => let! id := rd (w i) res in Ok (id, m)
  | None => let '(id, m) := spv_new_id m in Ok (id, add_global m o (ops id))
  end.

Definition spv_type_float (m : spv_mod) (width : Z) : outcome (Z * spv_mod) :=
  find_or_add m (test_op SpvOpTypeFloat (test_word 1 width (test_n 3 yes))) 0 SpvOpTypeFloat (fun id => [id; width]).

Definition spv_type_int (m : spv_mod) (width sign : Z) : outcome (Z * spv_mod) :=
  find_or_add m (test_op SpvOpTypeInt (test_word 1 width (test_word 2 sign yes))) 0 SpvOpTypeInt (fun id => [id; width; sign]).

Definition spv_type_bool (m : spv_mod) : outcome (Z * spv_mod) :=
  find_or_add m (test_op SpvOpTypeBool yes) 0 SpvOpTypeBool (fun id => [id]).

Definition spv_type_vector (m : spv_mod) (comp cnt : Z) : outcome (Z * spv_mod) :=
  find_or_add m (test_op SpvOpTypeVector (test_word 1 comp (test_word 2 cnt yes))) 0 SpvOpTypeVector (fun id => [id; comp; cnt]).

Definition spv_type_pointer (m : spv_mod) (storage pointee : Z) : outcome (Z * spv_mod) :=
  find_or_add m (test_op SpvOpTypePointer (test_word 1 storage (test_word 2 pointee yes))) 0 SpvOpTypePointer
    (fun id => [id; storage; pointee]).

(** "GLSL.std.450" and its NUL as words. *)
Definition glsl_words : list Z := [0x4C534C47; 0x6474732E; 0x3035342E; 0].

Definition spv_glsl_std450 (m : spv_mod) : outcome (Z * spv_mod) :=
  let! r := find_inst (test_op SpvOpExtInstImport (fun i =>
      if 6 <=? n i then
        let! a := rd (w i) 1 in let! b := rd (w i) 2 in let! c := rd (w i) 3 in let! d := rd (w i) 4 in
        Ok ((a =? 0x4C534C47) && (b =? 0x6474732E) && (c =? 0x3035342E) && (Z.land d 255 =? 0))
      else Ok false)) m in
  match r with
  | Some (_, i) => let! id := rd (w i) 0 in Ok (id, m)
  | None =>
      match spv_find_op m SpvOpMemoryModel 0 with
      | None => Ok (0, Mod (header m) (ins m) true)
      | Some at_ => let '(id, m) := spv_new_id m in Ok (id, spv_insert m at_ SpvOpExtInstImport (id :: glsl_words))
      end
  end.

(** The operand after the decoration, 0 if there is none, -1 if not decorated. *)
Definition spv_get_decoration (m : spv_mod) (id decoration : Z) : outcome Z :=
  let! r := find_inst (test_op SpvOpDecorate (test_word 0 id (test_word 1 decoration yes))) m in
  match r with
  | Some (_, i) => if 3 <? n i then rd (w i) 2 else Ok 0
  | None => Ok (-1)
  end.

Definition spv_type_array (m : spv_mod) (elem len_const : Z) : outcome (Z * spv_mod) :=
  find_or_add m (test_op SpvOpTypeArray (test_word 1 elem (test_word 2 len_const (fun i =>
      let! id := rd (w i) 0 in
      let! d := spv_get_decoration m id SpvDecorationArrayStride in Ok (d <? 0))))) 0 SpvOpTypeArray
    (fun id => [id; elem; len_const]).

Definition spv_const_u32 (m : spv_mod) (v : Z) : outcome (Z * spv_mod) :=
  let! (t, m) := spv_type_int m 32 0 in
  find_or_add m (test_op SpvOpConstant (test_word 0 t (test_n 4 (test_word 2 v yes)))) 1 SpvOpConstant (fun id => [t; id; v]).

(** [bits]: the float's bit pattern. *)
Definition spv_const_f32 (m : spv_mod) (bits : Z) : outcome (Z * spv_mod) :=
  let! (t, m) := spv_type_float m 32 in
  find_or_add m (test_op SpvOpConstant (test_word 0 t (test_n 4 (test_word 2 bits yes)))) 1 SpvOpConstant (fun id => [t; id; bits]).

(** ** Edits *)

(** The removing loop: stays at [i] after a removal, moves on otherwise. *)
Fixpoint remove_loop (fuel : nat) (test : spv_inst -> outcome bool) (i : nat) (m : spv_mod) : outcome spv_mod :=
  match fuel with
  | O => Undef
  | S fuel =>
      match ins m !! i with
      | None => Ok m
      | Some x => let! b := test x in
                  if (b : bool) then remove_loop fuel test i (spv_remove m i) else remove_loop fuel test (S i) m
      end
  end.

Definition decorated (id decoration : Z) : spv_inst -> outcome bool :=
  test_op SpvOpDecorate (test_word 0 id (test_word 1 decoration yes)).

Definition spv_remove_decoration (m : spv_mod) (id decoration : Z) : outcome spv_mod :=
  remove_loop (S (length (ins m))) (decorated id decoration) 0 m.

Definition capability (cap : Z) : spv_inst -> outcome bool := test_op SpvOpCapability (test_word 0 cap yes).

Definition spv_has_capability (m : spv_mod) (cap : Z) : outcome bool :=
  let! r := find_inst (capability cap) m in Ok (match r with Some _ => true | None => false end).

Definition spv_remove_capability (m : spv_mod) (cap : Z) : outcome spv_mod :=
  remove_loop (S (length (ins m))) (capability cap) 0 m.

Definition spv_add_capability (m : spv_mod) (cap : Z) : outcome spv_mod :=
  let! b := spv_has_capability m cap in
  Ok (if (b : bool) then m else spv_insert m 0 SpvOpCapability [cap]).

Definition spv_execution_model (m : spv_mod) : outcome Z :=
  match spv_find_op m SpvOpEntryPoint 0 with
  | None => Ok (-1)
  | Some e => let! i := of_option (ins m !! e) in let! x := rd (w i) 0 in Ok (to_signed 32 x)
  end.

Definition spv_add_interface (m : spv_mod) (var : Z) : spv_mod :=
  set_ins ((fun i => if op i =? SpvOpEntryPoint
                     then Inst (op i) (u16 (n i + 1)) (take (Z.to_nat (n i - 1)) (w i) ++ [var]) else i) <$> ins m) m.

(** ** Locations *)

Definition spv_array_length (m : spv_mod) (array_type : Z) : outcome Z :=
  let! d := spv_find_def m array_type in
  match d with
  | Some (_, i) =>
      if op i =? SpvOpTypeArray then
        let! len := rd (w i) 2 in
        let! c := spv_find_def m len in
        match c with
        | Some (_, c) => if op c =? SpvOpConstant then rd (w c) 2 else Ok 0
        | None => Ok 0
        end
      else Ok 0
  | None => Ok 0
  end.

(** Depth is 17 less the fuel. *)
Fixpoint loc_count (fuel : nat) (m : spv_mod) (type : Z) : outcome Z :=
  match fuel with
  | O => Ok 1
  | S fuel =>
      let! d := spv_find_def m type in
      match d with
      | None => Ok 1
      | Some (_, i) =>
          if op i =? SpvOpTypeArray then
            let! len := spv_array_length m type in
            let! e := rd (w i) 1 in let! k := loc_count fuel m e in Ok (u32 (len * k))
          else if op i =? 24 then
            let! c := rd (w i) 2 in
            let! e := rd (w i) 1 in let! k := loc_count fuel m e in Ok (u32 (c * k))
          else if op i =? SpvOpTypeStruct then
            (fix sum (l : list Z) (s : Z) : outcome Z :=
               match l with
               | [] => Ok s
               | x :: l => let! k := loc_count fuel m x in sum l (u32 (s + k))
               end) (take (Z.to_nat (n i - 2)) (drop 1 (w i))) 0
          else if op i =? SpvOpTypeVector then
            let! c := rd (w i) 1 in
            let! e := spv_find_def m c in
            let! width := (match e with Some (_, e) => rd (w e) 1 | None => Ok 32 end) in
            if width =? 64 then let! k := rd (w i) 2 in Ok (if 2 <? k then 2 else 1) else Ok 1
          else Ok 1
      end
  end.

(** [(int)loc + (int)count - 1], and the larger of it and [max]. *)
Definition raise_to (max loc count : Z) : outcome Z :=
  let! s := int_add (to_signed 32 loc) (to_signed 32 count) in
  let! top := int_add s (-1) in
  Ok (if max <? top then top else max).

(** The member locations of a block. *)
Fixpoint member_locations (m : spv_mod) (pointee : Z) (l : list spv_inst) (max : Z) : outcome Z :=
  match l with
  | [] => Ok max
  | md :: l =>
      let! hit := test_op SpvOpMemberDecorate (test_word 0 pointee (test_word 2 SpvDecorationLocation yes)) md in
      if (hit : bool) then
        let! k := rd (w md) 1 in
        let! st := spv_find_def m pointee in
        let! mt := (match st with
                    | Some (_, st) => if u32 (k + 1) <? n st then rd (w st) (u32 (1 + k)) else Ok 0
                    | None => Ok 0
                    end) in
        let! loc := rd (w md) 3 in
        let! c := loc_count 17 m mt in
        let! max := raise_to max loc c in
        member_locations m pointee l max
      else member_locations m pointee l max
  end.

Fixpoint location_loop (m : spv_mod) (storage : Z) (arrayed : bool) (l : list spv_inst) (max : Z) : outcome Z :=
  match l with
  | [] => Ok max
  | i :: l =>
      let! s := (if op i =? SpvOpVariable then let! s := rd (w i) 2 in Ok (s =? storage) else Ok false) in
      if negb s then location_loop m storage arrayed l max else
      let! t := rd (w i) 0 in
      let! p := spv_find_def m t in
      match p with
      | None => location_loop m storage arrayed l max
      | Some (_, p) =>
          let! pointee := rd (w p) 2 in
          let! a := (if arrayed then spv_find_def m pointee else Ok None) in
          let! pointee := (match a with
                           | Some (_, a) => if op a =? SpvOpTypeArray then rd (w a) 1 else Ok pointee
                           | None => Ok pointee
                           end) in
          let! id := rd (w i) 1 in
          let! loc := spv_get_decoration m id SpvDecorationLocation in
          let! max := (if 0 <=? loc then let! c := loc_count 17 m pointee in raise_to max loc c
                       else member_locations m pointee (ins m) max) in
          location_loop m storage arrayed l max
      end
  end.

Definition spv_max_location_io (m : spv_mod) (storage : Z) (arrayed : bool) : outcome Z :=
  location_loop m storage arrayed (ins m) (-1).
Definition spv_max_location (m : spv_mod) (storage : Z) : outcome Z := spv_max_location_io m storage false.

(** * Parsing and writing *)

(** Sixteen-bit opcode and count, and as many operand words as the count says. *)
Definition inst_ok (i : spv_inst) : Prop := in_range 16 (op i) /\ 1 <= n i < 2 ^ 16 /\ Z.of_nat (length (w i)) = n i - 1.
Definition mod_ok (m : spv_mod) : Prop :=
  length (header m) = 5%nat /\ header m !! 0%nat = Some SpvMagic /\ err m = false /\ Forall inst_ok (ins m).

Lemma write_inst_ok i : inst_ok i -> write_inst i = (op i + n i * 2 ^ 16) :: w i.
Proof.
  intros (Ho & Hn & Hl). unfold write_inst. rewrite Z.lor_comm, lor_shift by (unfold in_range in *; lia).
  now rewrite take_ge by lia.
Qed.

Lemma split_word o k : in_range 16 o -> Z.shiftr (o + k * 2 ^ 16) 16 = k /\ Z.land (o + k * 2 ^ 16) 0xffff = o.
Proof.
  intros Ho. unfold in_range in Ho. rewrite Z.shiftr_div_pow2 by lia. change 0xffff with (Z.ones 16). rewrite Z.land_ones by lia.
  rewrite Z.div_add, Z.mod_add by lia. now rewrite Z.div_small, Z.mod_small by lia.
Qed.

Lemma inst_of_word c : in_range 32 c -> in_range 16 (Z.land c 0xffff) /\ 0 <= Z.shiftr c 16 < 2 ^ 16 /\
  c = Z.land c 0xffff + Z.shiftr c 16 * 2 ^ 16.
Proof.
  intros Hc. unfold in_range in *. rewrite Z.shiftr_div_pow2 by lia. change 0xffff with (Z.ones 16). rewrite Z.land_ones by lia.
  pose proof (Z.mod_pos_bound c (2 ^ 16)). pose proof (Z.div_mod c (2 ^ 16)).
  assert (c / 2 ^ 16 < 2 ^ 16) by (apply Z.div_lt_upper_bound; lia).
  assert (0 <= c / 2 ^ 16) by (apply Z.div_pos; lia). lia.
Qed.

(** ** The words of a list of instructions *)

Abbreviation image l := (concat (write_inst <$> l)).

(** The first word of an instruction inside the code. *)
Lemma image_cons i l rest : inst_ok i -> image (i :: l) ++ rest = (op i + n i * 2 ^ 16) :: w i ++ image l ++ rest.
Proof. intros H. cbn [fmap list_fmap concat]. rewrite write_inst_ok by assumption. cbn. now rewrite <- app_assoc. Qed.
Lemma image_step pre i l rest : pre ++ image (i :: l) ++ rest = (pre ++ write_inst i) ++ image l ++ rest.
Proof. cbn [fmap list_fmap concat]. now rewrite <- !app_assoc. Qed.

Lemma length_write i : inst_ok i -> Z.of_nat (length (write_inst i)) = n i.
Proof. intros H. rewrite write_inst_ok by assumption. destruct H as (_ & _ & H). cbn. lia. Qed.

Lemma image_length l : Forall inst_ok l -> (length l <= length (image l))%nat.
Proof.
  induction l as [|i l IH]; intros H; [cbn; lia|]. apply Forall_cons_1 in H as [Hi H]. cbn [fmap list_fmap concat length].
  rewrite length_app. specialize (IH H). pose proof (length_write i Hi). destruct Hi as (_ & Hn & _). lia.
Qed.

Lemma insert_end m o ops :
  ins (spv_insert m (length (ins m)) o ops) = ins m ++ [Inst o (u16 (Z.of_nat (length ops) + 1)) ops].
Proof. unfold spv_insert. cbn [set_ins ins]. rewrite Nat.min_id, firstn_all, drop_all. reflexivity. Qed.

(** The loop decodes the words [rest] after [pre] into exactly the instructions that write them. *)
Definition decodes (m : spv_mod) (rest : list Z) (r : option spv_mod) : Prop :=
  forall m', r = Some m' <->
  exists l, Forall inst_ok l /\ concat (write_inst <$> l) = rest /\ m' = set_ins (ins m ++ l) m.

(** An instruction at the head of the words that remain. *)
Lemma decodes_step m c ops tail i r :
  inst_ok i -> write_inst i = c :: ops -> decodes (set_ins (ins m ++ [i]) m) tail r -> decodes m (c :: ops ++ tail) r.
Proof.
  intros Hi Hw Hr m'. rewrite (Hr m'). split; intros (l & Hl & E & ->).
  - exists (i :: l). repeat split; [now constructor| |].
    + cbn [fmap list_fmap concat]. change (concat (write_inst <$> l)) with (concat (write_inst <$> l)) in E.
      rewrite Hw. cbn. f_equal. f_equal. exact E.
    + unfold set_ins. cbn. now rewrite <- app_assoc.
  - destruct l as [|j l]; [cbn in E; discriminate|]. apply Forall_cons_1 in Hl as [Hj Hl].
    rewrite (write_inst_ok i Hi) in Hw. injection Hw as <- <-. cbn [fmap list_fmap concat] in E.
    rewrite (write_inst_ok j Hj) in E. cbn in E. injection E as E1 E2.
    pose proof (split_word (op i) (n i) (proj1 Hi)) as [A1 A2]. pose proof (split_word (op j) (n j) (proj1 Hj)) as [B1 B2].
    rewrite E1 in B1, B2. assert (n i = n j) as En by congruence. assert (op i = op j) as Eo by congruence.
    destruct Hi as (_ & _ & Li), Hj as (_ & _ & Lj).
    apply app_inj_1 in E2 as [Ew E2]; [|lia].
    assert (i = j) as -> by (destruct i, j; cbn in *; congruence).
    exists l. repeat split; [assumption|exact E2|]. unfold set_ins. cbn. now rewrite <- app_assoc.
Qed.

Lemma decodes_none m rest :
  (forall l, Forall inst_ok l -> concat (write_inst <$> l) <> rest) -> decodes m rest None.
Proof. intros H m'. split; [discriminate|]. intros (l & Hl & E & _). now apply H in E. Qed.

(** A first word whose count is zero or runs past the end starts no instruction. *)
Lemma decodes_bad m c rest :
  Z.shiftr c 16 = 0 \/ Z.of_nat (length rest) + 1 < Z.shiftr c 16 -> decodes m (c :: rest) None.
Proof.
  intros Hb. apply decodes_none. intros [|j l] Hl E; [discriminate|]. apply Forall_cons_1 in Hl as [Hj Hl].
  cbn [fmap list_fmap concat] in E. rewrite (write_inst_ok j Hj) in E. cbn in E. injection E as E1 E2.
  pose proof (split_word (op j) (n j) (proj1 Hj)) as [B1 _]. rewrite E1 in B1.
  apply (f_equal length) in E2. rewrite length_app in E2. destruct Hj as (_ & Hn & Lj). lia.
Qed.

Lemma parse_loop_decodes fuel : forall pre rest tail m,
  Forall (in_range 32) rest -> (length rest < fuel)%nat ->
  exists r, parse_loop fuel (pre ++ rest ++ tail) (Z.of_nat (length pre + length rest)) (Z.of_nat (length pre)) m = Ok r /\
            decodes m rest r.
Proof.
  induction fuel as [|fuel IH]; intros pre rest tail m Hr Hf; [lia|]. cbn [parse_loop].
  destruct rest as [|c rest].
  { cbn [length]. rewrite Nat.add_0_r, Z.ltb_irrefl. eexists; split; [reflexivity|].
    intros m'. split.
    - intros [= <-]. exists []. repeat split; [constructor|]. unfold set_ins. rewrite app_nil_r. now destruct m.
    - intros ([|j l] & Hl & E & ->).
      + unfold set_ins. rewrite app_nil_r. now destruct m.
      + apply Forall_cons_1 in Hl as [Hj _]. cbn in E. discriminate. }
  apply Forall_cons_1 in Hr as [Hc Hr]. cbn [length] in *.
  rewrite (proj2 (Z.ltb_lt _ _)) by lia.
  replace (rd (pre ++ (c :: rest) ++ tail) (Z.of_nat (length pre))) with (Ok c)
    by (unfold rd; rewrite (proj2 (Z.ltb_ge _ _)) by lia; cbn [app]; now rewrite Nat2Z.id, list_lookup_middle).
  cbn [obind]. pose proof (inst_of_word c Hc) as (Ho & Hk & Ec).
  set (k := Z.shiftr c 16) in *. set (o := Z.land c 0xffff) in *.
  destruct (Z.eqb_spec k 0) as [E0|E0]; cbn [orb].
  { eexists; split; [reflexivity|]. apply decodes_bad. now left. }
  destruct (Z.ltb_spec (Z.of_nat (length pre + S (length rest))) (Z.of_nat (length pre) + k)) as [Hlt|Hge].
  { eexists; split; [reflexivity|]. apply decodes_bad. right. fold k. lia. }
  rewrite (wrap_small 16 (k - 1)) by (unfold in_range; lia).
  replace (drop (Z.to_nat (Z.of_nat (length pre) + 1)) (pre ++ (c :: rest) ++ tail)) with (rest ++ tail)
    by (replace (Z.to_nat (Z.of_nat (length pre) + 1)) with (length pre + 1)%nat by lia;
        rewrite <- drop_drop, drop_app_length; reflexivity).
  rewrite take_app_le by lia.
  set (ops := take (Z.to_nat (k - 1)) rest). set (rest' := drop (Z.to_nat (k - 1)) rest).
  assert (rest = ops ++ rest') as Er by (symmetry; apply take_drop).
  assert (Z.of_nat (length ops) = k - 1) as Hl by (unfold ops; rewrite length_take; lia).
  clearbody ops rest'.
  assert (inst_ok (Inst o k ops)) as Hi by (repeat split; cbn; unfold in_range in *; lia).
  destruct (IH (pre ++ c :: ops) rest' tail (spv_insert m (length (ins m)) o ops)) as (r & Hp & Hd).
  { rewrite Er in Hr. now apply Forall_app in Hr as [_ Hr]. }
  { apply (f_equal length) in Er. rewrite length_app in Er. lia. }
  exists r. split.
  - rewrite <- Hp. f_equal.
    + rewrite Er. cbn [app]. rewrite <- !app_assoc. reflexivity.
    + apply (f_equal length) in Er. rewrite !length_app in *. cbn. lia.
    + rewrite length_app. cbn. lia.
  - rewrite Er. apply (decodes_step m c ops rest' (Inst o k ops)); [assumption| |].
    + rewrite write_inst_ok by assumption. cbn. now rewrite <- Ec.
    + replace (set_ins (ins m ++ [Inst o k ops]) m) with (spv_insert m (length (ins m)) o ops); [assumption|].
      unfold spv_insert, set_ins. rewrite Nat.min_id, firstn_all, drop_all. do 4 f_equal.
      rewrite wrap_small by (unfold in_range; lia). lia.
Qed.

Lemma write_length m : mod_ok m -> (5 <= length (spv_write m))%nat.
Proof. intros (H & _). unfold spv_write. rewrite length_app. lia. Qed.

(** A rejected input that no module writes. *)
Lemma rejects (P : spv_mod -> Prop) (Q : spv_mod -> Prop) (R : spv_mod -> Prop) :
  (forall m, P m -> Q m -> ~ R m) ->
  exists r : option spv_mod, Ok None = Ok r /\ forall m, r = Some m <-> P m /\ Q m /\ R m.
Proof. intros H. exists None. split; [done|]. intros m. split; [done|]. intros (A & B & C). now destruct (H m A B). Qed.

(** C36: [spv_parse] is the inverse of [spv_write]: it reads nothing outside the given bytes, and it
    returns a module exactly when that module is well formed and writing it gives the bytes back;
    every other input (bad size, bad magic, a zero or overlong instruction) is rejected. *)
Theorem spv_parse_inverse code bytes :
  Forall (in_range 32) code -> 0 <= bytes <= 4 * Z.of_nat (length code) ->
  exists r, spv_parse code bytes = Ok r /\
    forall m, r = Some m <-> mod_ok m /\ bytes = 4 * Z.of_nat (length (spv_write m)) /\ spv_write m `prefix_of` code.
Proof.
  intros Hc Hb. unfold spv_parse.
  destruct (Z.ltb_spec bytes 20) as [H20|H20]; cbn [orb].
  { apply rejects. intros m Hm. pose proof (write_length m Hm). lia. }
  change 3 with (Z.ones 2). rewrite Z.land_ones by lia. change (2 ^ 2) with 4.
  destruct (Z.eqb_spec (bytes mod 4) 0) as [H4|H4]; cbn [negb].
  2:{ apply rejects. intros m Hm E _. rewrite E, Z.mul_comm, Z.mod_mul in H4 by lia. lia. }
  destruct code as [|c0 code']; [cbn in Hb; lia|]. set (code := c0 :: code') in *.
  change (rd code 0) with (Ok c0). cbn [obind].
  destruct (Z.eqb_spec c0 SpvMagic) as [E0|E0]; cbn [negb].
  2:{ apply rejects. intros m (Hl & H0 & _) _ [k Hk]. unfold code, spv_write in Hk.
      destruct (header m); [discriminate|]. cbn in H0, Hk. congruence. }
  assert (bytes = 4 * (bytes / 4)) as Eb by (apply Z.div_exact; lia).
  set (q := bytes / 4) in *. rewrite (proj2 (Z.ltb_ge _ _)) by lia.
  set (pre := take 5 code). set (rest := take (Z.to_nat q - 5) (drop 5 code)). set (tail := drop (Z.to_nat q) code).
  assert (length pre = 5%nat) as Hp by (unfold pre; rewrite length_take; lia).
  assert (length rest = (Z.to_nat q - 5)%nat) as Hr by (unfold rest; rewrite length_take, length_drop; lia).
  assert (code = pre ++ rest ++ tail) as Ec.
  { unfold pre, rest, tail. rewrite <- (take_drop 5 code) at 1. f_equal.
    rewrite <- (take_drop (Z.to_nat q - 5) (drop 5 code)) at 1. f_equal. rewrite drop_drop. f_equal. lia. }
  destruct (parse_loop_decodes (S (Z.to_nat q)) pre rest tail (Mod pre [] false)) as (r & Er & Hd).
  { rewrite Ec in Hc. now apply Forall_app in Hc as [_ [Hc _]%Forall_app]. }
  { lia. }
  rewrite <- Ec, Hp, Hr in Er. replace (Z.of_nat (5 + (Z.to_nat q - 5))) with q in Er by lia.
  exists r. split; [exact Er|]. intros m. rewrite (Hd m). split.
  - intros (l & Hl & El & ->). split; [repeat split; [exact Hp|cbn; now rewrite E0|exact Hl]|].
    unfold spv_write. cbn [set_ins header ins app]. rewrite El. split; [rewrite length_app; lia|].
    exists tail. now rewrite Ec, <- app_assoc.
  - intros ((Hl & _ & He & Hi) & El & [k Hk]). unfold spv_write in El, Hk. rewrite length_app in El.
    rewrite Ec, <- app_assoc in Hk. apply app_inj_1 in Hk as [Eh Hk]; [|lia].
    apply app_inj_1 in Hk as [Ei _]; [|lia].
    exists (ins m). repeat split; [exact Hi|now symmetry|]. unfold set_ins. cbn [header ins err app]. rewrite Eh.
    destruct m; cbn in He. now rewrite He.
Qed.
Definition sample_module : list Z :=
  [SpvMagic; 0x10000; 0; 9; 0; 0x20011; 1; 0x3000e; 0; 1; 0x40015; 2; 32; 0].

Lemma spv_parse_inverse_witness :
  Forall (in_range 32) sample_module /\ 0 <= 56 <= 4 * Z.of_nat (length sample_module) /\
  exists r, spv_parse sample_module 56 = Ok r /\
    forall m, r = Some m <->
      mod_ok m /\ 56 = 4 * Z.of_nat (length (spv_write m)) /\ spv_write m `prefix_of` sample_module.
Proof.
  assert (Forall (in_range 32) sample_module) 
    by (unfold sample_module, SpvMagic; repeat (apply List.Forall_cons; [unfold in_range; lia|]); apply List.Forall_nil).
  split; [assumption|]. split; [cbn; lia|]. apply (spv_parse_inverse sample_module 56); [assumption|cbn; lia].
Defined.
End SpvEdit.
