(* ===== verification/SpvMakers.v ===== *)
(** * Correctness of the SPIR-V editor's lookups, makers and edits

    The functions of spirv_edit.c (SpvEdit) on well-formed modules: lookups never
    read outside an instruction; the type and constant makers return an id whose
    definition is the one asked for, reuse it on the next call and keep every
    existing definition; capability and decoration edits change exactly the
    instructions they name.  The last section shows the reads outside an
    instruction that modules accepted by [spv_parse] can cause. *)

From Stdlib Require Import ZArith Lia Bool.
From stdpp Require Import base list numbers option.
From S2P Require Import Prelude SpvEdit.

Open Scope Z_scope.
Open Scope outcome_scope.

Module SpvMakers.
Import SpvEdit.

(** ** Well-formed modules *)

(** The operand words each opcode has at least, as the editor reads them. *)
Definition min_words (o : Z) : Z :=
  if bool_decide (o ∈ [SpvOpTypeInt; SpvOpTypeVector; SpvOpTypeArray; SpvOpTypePointer; SpvOpConstant]) then 3
  else if bool_decide (o ∈ [SpvOpTypeFloat; SpvOpDecorate]) then 2
  else if bool_decide (o ∈ [SpvOpTypeBool; SpvOpCapability]) then 1 else 0.

Definition rid (i : spv_inst) : Z := match spv_result_id i with Ok r => r | _ => 0 end.

Record inst_wf (b : Z) (i : spv_inst) : Prop := {
  wf_ok : inst_ok i;
  wf_words : Forall (in_range 32) (w i);
  wf_min : min_words (op i) < n i;
  wf_id : 0 <= rid i < b;
  wf_def : is_type (op i) || (op i =? SpvOpConstant) = true -> rid i <> 0;
  wf_target : op i = SpvOpDecorate -> nth 0 (w i) 0 < b }.

(** Ids are below the bound and defined once. *)
Record mod_wf (m : spv_mod) : Prop := {
  wf_header : length (header m) = 5%nat;
  wf_bound : 0 < bound m;
  wf_ins : Forall (inst_wf (bound m)) (ins m);
  wf_unique : NoDup (List.filter (fun r => negb (r =? 0)) (map rid (ins m))) }.

Lemma inst_wf_mono b b' i : b <= b' -> inst_wf b i -> inst_wf b' i.
Proof. intros Hb [H1 H2 H3 H4 H5 H6]. constructor; auto; [lia|]. intros E. specialize (H6 E). lia. Qed.

Lemma mod_wf_in m i : mod_wf m -> i ∈ ins m -> inst_wf (bound m) i.
Proof. intros [_ _ H _] Hi. rewrite Forall_forall in H. now apply H, list_elem_of_In. Qed.

(** ** Tests without undefined reads *)

Lemma rd_nth l j : 0 <= j < Z.of_nat (length l) -> rd l j = Ok (nth (Z.to_nat j) l 0).
Proof.
  intros Hj. destruct (rd_ok l j Hj) as (x & -> & Hx). f_equal. symmetry. now apply nth_lookup_Some.
Qed.

(** The words an opcode is known to have. *)
Lemma wf_length b i o : inst_wf b i -> op i = o -> min_words o <= Z.of_nat (length (w i)).
Proof. intros H <-. pose proof (wf_min _ _ H). pose proof (wf_ok _ _ H) as (_ & _ & ?). lia. Qed.

Lemma test_word_pure j v k i b :
  0 <= j < Z.of_nat (length (w i)) -> k i = Ok b -> test_word j v k i = Ok ((nth (Z.to_nat j) (w i) 0 =? v) && b).
Proof.
  intros Hj Hk. unfold test_word. rewrite rd_nth by assumption. cbn [obind].
  destruct (_ =? v); [now rewrite Hk|reflexivity].
Qed.

Lemma test_op_pure o k i b : (op i = o -> k i = Ok b) -> test_op o k i = Ok ((op i =? o) && b).
Proof. intros Hk. unfold test_op. destruct (Z.eqb_spec (op i) o) as [E|E]; [now apply Hk|reflexivity]. Qed.

Lemma test_n_pure v k i b : k i = Ok b -> test_n v k i = Ok ((n i =? v) && b).
Proof. intros Hk. unfold test_n. destruct (n i =? v); [assumption|reflexivity]. Qed.

Lemma result_id_ok b i : inst_wf b i -> spv_result_id i = Ok (rid i).
Proof.
  intros H. pose proof (wf_ok _ _ H) as (_ & _ & Hl). unfold rid.
  enough (exists r, spv_result_id i = Ok r) as (r & ->) by reflexivity. unfold spv_result_id.
  destruct (Z.ltb_spec (n i) 2); [eauto|]. destruct (_ || _); [rewrite rd_nth by lia; eauto|].
  destruct (bool_decide _); [eauto|]. destruct (Z.leb_spec 3 (n i)); [rewrite rd_nth by lia|]; eauto.
Qed.

(** The first instruction that satisfies a total test. *)
Lemma find_first_pure test tb l k :
  Forall (fun i => test i = Ok (tb i)) l ->
  exists r, find_first test l k = Ok r /\
    match r with
    | None => List.filter tb l = []
    | Some j => exists d x, j = (k + d)%nat /\ l !! d = Some x /\ head (List.filter tb l) = Some x
    end.
Proof.
  revert k. induction l as [|x l IH]; intros k Ht; [exists None; now split|].
  apply Forall_cons_1 in Ht as [Hx Ht]. cbn [find_first List.filter]. rewrite Hx. cbn [obind]. destruct (tb x).
  - exists (Some k). split; [reflexivity|]. exists 0%nat, x. repeat split; lia.
  - destruct (IH (S k) Ht) as (r & -> & Hr). exists r. split; [reflexivity|].
    destruct r as [j|]; [|exact Hr]. destruct Hr as (d & y & -> & Hd & Hy). exists (S d), y. repeat split; auto; lia.
Qed.

Lemma find_inst_pure test tb m :
  Forall (fun i => test i = Ok (tb i)) (ins m) ->
  exists r, find_inst test m = Ok r /\ snd <$> r = head (List.filter tb (ins m)) /\
    (forall k i, r = Some (k, i) -> ins m !! k = Some i).
Proof.
  intros Ht. destruct (find_first_pure test tb (ins m) 0 Ht) as (r & Hr & Hs). unfold find_inst. rewrite Hr. cbn [obind].
  eexists; split; [reflexivity|]. destruct r as [j|].
  - destruct Hs as (d & x & -> & Hd & Hx). cbn [Nat.add mbind option_bind]. rewrite Hd, Hx. cbn. split; [reflexivity|].
    now intros k i [= <- <-].
  - rewrite Hs. now split.
Qed.

(** ** Definitions of ids *)

Definition definition (m : spv_mod) (r : Z) : option spv_inst := head (List.filter (fun i => rid i =? r) (ins m)).

Lemma find_def_pure m r : mod_wf m ->
  exists d, spv_find_def m r = Ok d /\ snd <$> d = definition m r.
Proof.
  intros H. destruct (find_inst_pure (fun i => let! x := spv_result_id i in Ok (x =? r)) (fun i => rid i =? r) m) as (d & ? & ? & _).
  - apply Forall_forall. intros i Hi. now rewrite (result_id_ok (bound m)) by now apply mod_wf_in, list_elem_of_In.
  - exists d. now split.
Qed.

Lemma filter_unique (l : list spv_inst) i :
  NoDup (List.filter (fun r => negb (r =? 0)) (map rid l)) -> i ∈ l -> rid i <> 0 ->
  head (List.filter (fun j => rid j =? rid i) l) = Some i.
Proof.
  induction l as [|x l IH]; intros Hn Hi Hr; [now apply not_elem_of_nil in Hi|].
  cbn [map List.filter] in *. destruct (Z.eqb_spec (rid x) (rid i)) as [E|E].
  - apply elem_of_cons in Hi as [->|Hi]; [reflexivity|]. rewrite (proj2 (Z.eqb_neq _ _)) in Hn by congruence.
    cbn [negb] in Hn. apply NoDup_cons_1_1 in Hn. destruct Hn. rewrite E. apply list_elem_of_In, filter_In.
    split; [now apply in_map, list_elem_of_In|]. now rewrite (proj2 (Z.eqb_neq _ _)).
  - apply elem_of_cons in Hi as [->|Hi]; [done|]. apply IH; auto.
    destruct (negb _); [now apply NoDup_cons_1_2 in Hn|assumption].
Qed.

Lemma definition_of m i : mod_wf m -> i ∈ ins m -> rid i <> 0 -> definition m (rid i) = Some i.
Proof. intros [_ _ _ H] Hi Hr. now apply filter_unique. Qed.

(** ** Modules that grow *)

(** [m'] is [m] with one instruction more and the next id taken. *)
Record grown (m : spv_mod) (j : spv_inst) (m' : spv_mod) : Prop := {
  gr_ins : exists l1 l2, ins m = l1 ++ l2 /\ ins m' = l1 ++ j :: l2;
  gr_bound : bound m' = bound m + 1;
  gr_header : length (header m') = length (header m) }.

Lemma grown_elem m j m' i : grown m j m' -> i ∈ ins m' <-> i = j \/ i ∈ ins m.
Proof. intros [(l1 & l2 & -> & ->) _ _]. rewrite !elem_of_app, elem_of_cons. tauto. Qed.

Lemma grown_filter m j m' tb : grown m j m' -> tb j = false -> List.filter tb (ins m') = List.filter tb (ins m).
Proof. intros [(l1 & l2 & -> & ->) _ _] Hj. rewrite !filter_app. cbn. now rewrite Hj. Qed.

Lemma grown_filter_new m j m' tb :
  grown m j m' -> List.filter tb (ins m) = [] -> tb j = true -> List.filter tb (ins m') = [j].
Proof.
  intros [(l1 & l2 & -> & ->) _ _] H Hj. rewrite filter_app in *. cbn. rewrite Hj.
  apply app_nil in H as [-> ->]. reflexivity.
Qed.

Lemma add_global_grown m o ops :
  length (header m) = 5%nat -> 0 < bound m -> bound m + 1 < 2 ^ 32 -> Z.of_nat (length ops) + 1 < 2 ^ 16 ->
  grown m (Inst o (Z.of_nat (length ops) + 1) ops) (add_global (snd (spv_new_id m)) o ops).
Proof.
  intros Hh Hb0 Hb Hl. unfold add_global, spv_insert, spv_new_id. cbn [snd]. constructor; cbn [ins set_ins].
  - eexists _, _. split; [symmetry; apply take_drop|]. rewrite (wrap_small 16) by (unfold in_range; lia). reflexivity.
  - unfold bound at 1. cbn [set_ins header]. rewrite wrap_small by (unfold in_range; lia).
    rewrite (nth_lookup_Some _ 3 0 (bound m + 1)); [reflexivity|]. apply list_lookup_insert_eq. lia.
  - cbn [set_ins header]. apply length_insert.
Qed.

(** A fresh definition keeps the module well formed and every other definition in place. *)
Lemma grown_wf m j m' : mod_wf m -> grown m j m' -> inst_wf (bound m') j -> rid j = bound m -> mod_wf m'.
Proof.
  intros H G Hj Hr. constructor.
  - rewrite (gr_header _ _ _ G). apply H.
  - rewrite (gr_bound _ _ _ G). pose proof (wf_bound _ H). lia.
  - apply Forall_forall. intros i Hi. apply list_elem_of_In, (grown_elem _ _ _ _ G) in Hi as [->|Hi]; [assumption|].
    apply (inst_wf_mono (bound m)); [rewrite (gr_bound _ _ _ G); lia|now apply mod_wf_in].
  - pose proof (wf_unique _ H) as Hu. pose proof (wf_bound _ H).
    assert (forall i, i ∈ ins m -> rid i <> bound m) as Hf.
    { intros i Hi E. pose proof (wf_id _ _ (mod_wf_in _ _ H Hi)). lia. }
    destruct G as [(l1 & l2 & E1 & ->) _ _]. rewrite E1 in Hu, Hf.
    rewrite map_app, filter_app in *. cbn [map List.filter]. rewrite Hr, (proj2 (Z.eqb_neq _ _)) by lia. cbn [negb].
    rewrite <- Permutation_middle. constructor; [|assumption].
    rewrite <- filter_app, <- map_app. intros Hx. apply list_elem_of_In, filter_In in Hx as [Hx _].
    apply in_map_iff in Hx as (i & Ei & Hi). apply (Hf i); [now apply list_elem_of_In|assumption].
Qed.

(** Ids below the old bound keep their definitions; instructions keep their order. *)
Record extends (m m' : spv_mod) : Prop := {
  ex_ins : ins m `sublist_of` ins m';
  ex_bound : bound m <= bound m';
  ex_def : forall r, r < bound m -> definition m' r = definition m r }.

#[export] Instance extends_refl : Reflexive extends.
Proof. intros m. constructor; [reflexivity|lia|reflexivity]. Qed.

#[export] Instance extends_trans : Transitive extends.
Proof.
  intros a b c [A1 A2 A3] [B1 B2 B3]. constructor; [now trans (ins b)|lia|]. intros r Hr. rewrite B3 by lia. now apply A3.
Qed.

Lemma grown_extends m j m' : grown m j m' -> rid j = bound m -> extends m m'.
Proof.
  intros G Hr. constructor.
  - destruct G as [(l1 & l2 & -> & ->) _ _]. apply sublist_app; [reflexivity|]. now apply sublist_cons.
  - rewrite (gr_bound _ _ _ G). lia.
  - intros r Hlt. unfold definition. rewrite (grown_filter _ _ _ _ G); [reflexivity|]. apply Z.eqb_neq. lia.
Qed.

(** ** The find-or-add interface

    What a maker promises about its test, the word that holds the id and the
    instruction it adds. *)

Class Finder (test : spv_mod -> spv_inst -> outcome bool) (tb : spv_mod -> spv_inst -> bool)
    (res o : Z) (ops : Z -> list Z) : Prop := {
  f_test : forall m i, mod_wf m -> i ∈ ins m -> test m i = Ok (tb m i);
  f_op : forall m i, tb m i = true -> op i = o;
  f_decorate : o <> SpvOpDecorate;
  f_id : forall b i, inst_wf b i -> op i = o -> rd (w i) res = Ok (rid i) /\ rid i <> 0;
  f_new : forall b, 0 < b -> b + 1 < 2 ^ 32 ->
    Z.of_nat (length (ops b)) + 1 < 2 ^ 16 /\ inst_wf (b + 1) (Inst o (Z.of_nat (length (ops b)) + 1) (ops b)) /\
    rid (Inst o (Z.of_nat (length (ops b)) + 1) (ops b)) = b;
  f_stable : forall m j m' i, mod_wf m -> grown m j m' -> op j <> SpvOpDecorate -> tb m' i = tb m i;
  f_hit : forall m, mod_wf m -> let j := Inst o (Z.of_nat (length (ops (bound m))) + 1) (ops (bound m)) in tb m j = true }.

Section Finder.
Context {test tb res o ops} `{F : Finder test tb res o ops}.

Definition hits (m : spv_mod) : list spv_inst := List.filter (tb m) (ins m).

Lemma tests_pure m : mod_wf m -> Forall (fun i => test m i = Ok (tb m i)) (ins m).
Proof using F. intros H. apply Forall_forall. intros i Hi. now apply F, list_elem_of_In. Qed.

Lemma hits_in m i : head (hits m) = Some i -> i ∈ ins m /\ tb m i = true /\ op i = o.
Proof using F.
  intros Hi. assert (In i (hits m)) as Hin. { destruct (hits m); [discriminate|]. injection Hi as ->. now left. }
  apply filter_In in Hin as [Hin Ht]. split; [now apply list_elem_of_In|]. split; [assumption|]. exact (f_op m i Ht).
Qed.

(** An existing instruction is returned unchanged. *)
Lemma find_or_add_hit m i : mod_wf m -> head (hits m) = Some i -> find_or_add m (test m) res o ops = Ok (rid i, m).
Proof using F.
  intros H Hi. destruct (find_inst_pure _ _ m (tests_pure m H)) as (r & Hr & Hs & _).
  unfold find_or_add. rewrite Hr. cbn [obind]. fold (hits m) in Hs. rewrite Hi in Hs.
  destruct r as [[k x]|]; cbn in Hs; [|discriminate]. injection Hs as ->.
  destruct (hits_in m i Hi) as (Hin & _ & Ho).
  now rewrite (proj1 (f_id (bound m) i (mod_wf_in _ _ H Hin) Ho)).
Qed.

Lemma find_or_add_spec m : mod_wf m -> bound m + 1 < 2 ^ 32 ->
  exists m' i, find_or_add m (test m) res o ops = Ok (rid i, m') /\ mod_wf m' /\ extends m m' /\
    bound m' <= bound m + 1 /\ head (hits m') = Some i /\ (m' = m \/ exists j, op j = o /\ grown m j m').
Proof using F.
  intros H Hb. destruct (head (hits m)) as [i|] eqn:Hi.
  { exists m, i. split; [now apply find_or_add_hit|]. split_and!; auto; [reflexivity|lia]. }
  destruct (find_inst_pure _ _ m (tests_pure m H)) as (r & Hr & Hs & _).
  fold (hits m) in Hs. rewrite Hi in Hs. destruct r; [discriminate|].
  pose proof (wf_bound _ H) as Hb0. destruct (f_new (bound m) Hb0 Hb) as (Hl & Hw & Hrid).
  pose proof (add_global_grown m o (ops (bound m)) (wf_header _ H) Hb0 Hb Hl) as G.
  set (j := Inst _ _ _) in *. set (m' := add_global _ _ _) in *.
  assert (mod_wf m') as H'. { apply (grown_wf m j m' H G); [|assumption]. now rewrite (gr_bound _ _ _ G). }
  exists m', j. split; [|split; [assumption|split; [now apply (grown_extends m j)|split; [rewrite (gr_bound _ _ _ G); lia|split]]]].
  - unfold find_or_add. rewrite Hr. cbn [obind]. unfold m'. cbn [spv_new_id snd]. now rewrite Hrid.
  - unfold hits. rewrite (grown_filter_new m j m'); [reflexivity|assumption| |].
    + erewrite filter_ext; [|intros x; apply (f_stable m j m' x H G); apply f_decorate].
      fold (hits m). now destruct (hits m).
    + rewrite (f_stable m j m' j H G f_decorate). exact (f_hit m H).
  - right. now exists j.
Qed.

(** Once an instruction is there, adding unrelated ones does not hide it. *)
Lemma hits_grown m j m' : mod_wf m -> grown m j m' -> op j <> o -> op j <> SpvOpDecorate -> hits m' = hits m.
Proof using F.
  intros H G Hj Hd. unfold hits. erewrite filter_ext; [|intros x; apply (f_stable m j m' x H G Hd)].
  apply (grown_filter m j m' _ G). destruct (tb m j) eqn:E; [|reflexivity]. now apply f_op in E.
Qed.

Lemma hit_defined m i : mod_wf m -> head (hits m) = Some i -> exists k, spv_find_def m (rid i) = Ok (Some (k, i)).
Proof using F.
  intros H Hi. destruct (hits_in m i Hi) as (Hin & _ & Ho).
  destruct (find_def_pure m (rid i) H) as (d & Hd & Hs).
  rewrite definition_of in Hs; [|assumption|assumption|apply (f_id (bound m)); [now apply mod_wf_in|assumption]].
  destruct d as [[k x]|]; [|discriminate]. injection Hs as ->. now exists k.
Qed.
End Finder.

(** ** The makers as finders *)

(** Types: the result is word 0. *)
Lemma type_id b i : inst_wf b i -> is_type (op i) = true -> 2 <= n i -> rd (w i) 0 = Ok (rid i) /\ rid i <> 0.
Proof.
  intros H Ht Hn. split; [|apply (wf_def _ _ H); now rewrite Ht].
  rewrite <- (result_id_ok b i H). unfold spv_result_id. rewrite (proj2 (Z.ltb_ge _ _)) by lia. now rewrite Ht.
Qed.

Lemma new_type_wf o args b :
  is_type o = true -> in_range 16 o -> min_words o <= Z.of_nat (length args) + 1 -> Z.of_nat (length args) < 2 ^ 15 ->
  Forall (in_range 32) args -> 0 < b -> b + 1 < 2 ^ 32 ->
  let j := Inst o (Z.of_nat (length (b :: args)) + 1) (b :: args) in inst_wf (b + 1) j /\ rid j = b.
Proof.
  intros Ht Ho Hm Hl Ha Hb Hb1 j.
  assert (rid j = b) as Hr.
  { unfold rid, spv_result_id, j. cbn [n w op]. rewrite (proj2 (Z.ltb_ge _ _)) by (cbn [length]; lia). now rewrite Ht. }
  split; [|assumption]. constructor; rewrite ?Hr; unfold j; cbn [op n w length]; try lia.
  - split; [assumption|]. cbn [op n w length]. lia.
  - constructor; [unfold in_range; lia|assumption].
  - intros ->. now vm_compute in Ht.
Qed.

Ltac new_type o args :=
  apply (new_type_wf o args);
    [reflexivity|split; [discriminate|reflexivity]|discriminate|reflexivity
    |repeat (apply List.Forall_cons; [assumption|]); apply List.Forall_nil|assumption|assumption].

Lemma wf_n b i o : inst_wf b i -> op i = o -> min_words o < n i.
Proof. intros H <-. apply H. Qed.

(** [OpTypeInt], [OpTypeVector] and [OpTypePointer]: two operands compared. *)
Definition pair_test (o a c : Z) (i : spv_inst) : bool :=
  (op i =? o) && ((nth 1 (w i) 0 =? a) && ((nth 2 (w i) 0 =? c) && true)).

Lemma pair_finder o a c :
  o = SpvOpTypeInt \/ o = SpvOpTypeVector \/ o = SpvOpTypePointer -> in_range 32 a -> in_range 32 c ->
  Finder (fun _ => test_op o (test_word 1 a (test_word 2 c yes))) (fun _ => pair_test o a c) 0 o (fun id => [id; a; c]).
Proof.
  intros Ho Ha Hc.
  assert (is_type o = true /\ in_range 16 o /\ min_words o = 3 /\ o <> SpvOpDecorate) as (Ht & Hr & Hm & Hd).
  { destruct Ho as [->|[->| ->]]; repeat split; vm_compute; congruence. }
  constructor.
  - intros m i H Hi. apply test_op_pure. intros E. pose proof (wf_length _ _ _ (mod_wf_in _ _ H Hi) E).
    do 2 (apply test_word_pure; [lia|]). reflexivity.
  - intros m i. unfold pair_test. destruct (Z.eqb_spec (op i) o); [done|discriminate].
  - assumption.
  - intros b i H E. pose proof (wf_n _ _ _ H E). apply (type_id b); [assumption|congruence|lia].
  - intros b Hb Hb1. split; [cbn; lia|]. destruct Ho as [->|[->| ->]];
    [new_type SpvOpTypeInt [a; c]|new_type SpvOpTypeVector [a; c]|new_type SpvOpTypePointer [a; c]].
  - reflexivity.
  - intros m H. unfold pair_test. cbn. now rewrite !Z.eqb_refl.
Qed.
Definition float_test (width : Z) (i : spv_inst) : bool :=
  (op i =? SpvOpTypeFloat) && ((nth 1 (w i) 0 =? width) && ((n i =? 3) && true)).

Lemma float_finder width : in_range 32 width ->
  Finder (fun _ => test_op SpvOpTypeFloat (test_word 1 width (test_n 3 yes))) (fun _ => float_test width)
    0 SpvOpTypeFloat (fun id => [id; width]).
Proof.
  intros Hw. constructor.
  - intros m i H Hi. apply test_op_pure. intros E. pose proof (wf_length _ _ _ (mod_wf_in _ _ H Hi) E) as L.
    change (min_words SpvOpTypeFloat) with 2 in L. apply test_word_pure; [lia|]. now apply test_n_pure.
  - intros m i. unfold float_test. destruct (Z.eqb_spec (op i) SpvOpTypeFloat); [done|discriminate].
  - discriminate.
  - intros b i H E. pose proof (wf_n _ _ _ H E) as L. change (min_words SpvOpTypeFloat) with 2 in L.
    apply (type_id b); [assumption|now rewrite E|lia].
  - intros b Hb Hb1. split; [cbn; lia|]. new_type SpvOpTypeFloat ([width] : list Z).
  - reflexivity.
  - intros m H. unfold float_test. cbn. now rewrite Z.eqb_refl.
Qed.

Definition bool_test (i : spv_inst) : bool := (op i =? SpvOpTypeBool) && true.

#[export] Instance bool_finder :
  Finder (fun _ => test_op SpvOpTypeBool yes) (fun _ => bool_test) 0 SpvOpTypeBool (fun id => [id]).
Proof.
  constructor.
  - intros m i H Hi. now apply test_op_pure.
  - intros m i. unfold bool_test. destruct (Z.eqb_spec (op i) SpvOpTypeBool); [done|discriminate].
  - discriminate.
  - intros b i H E. pose proof (wf_n _ _ _ H E) as L. change (min_words SpvOpTypeBool) with 1 in L.
    apply (type_id b); [assumption|now rewrite E|lia].
  - intros b Hb Hb1. split; [cbn; lia|]. new_type SpvOpTypeBool ([] : list Z).
  - reflexivity.
  - reflexivity.
Qed.

(** ** Decorations *)

Definition decorates (id d : Z) (i : spv_inst) : bool :=
  (op i =? SpvOpDecorate) && ((nth 0 (w i) 0 =? id) && ((nth 1 (w i) 0 =? d) && true)).

Lemma decorated_pure b i id d : inst_wf b i -> decorated id d i = Ok (decorates id d i).
Proof.
  intros H. apply test_op_pure. intros E. pose proof (wf_length _ _ _ H E) as L. change (min_words SpvOpDecorate) with 2 in L.
  do 2 (apply test_word_pure; [lia|]). reflexivity.
Qed.

(** The operand of a decoration instruction, as [spv_get_decoration] reads it. *)
Definition decoration_value (i : spv_inst) : Z := if 3 <? n i then nth 2 (w i) 0 else 0.

Lemma get_decoration_pure m id d : mod_wf m ->
  spv_get_decoration m id d =
  Ok (match head (List.filter (decorates id d) (ins m)) with Some i => decoration_value i | None => -1 end).
Proof.
  intros H. destruct (find_inst_pure (decorated id d) (decorates id d) m) as (r & Hr & Hs & Hk).
  { apply Forall_forall. intros i Hi. apply (decorated_pure (bound m)), mod_wf_in; [assumption|now apply list_elem_of_In]. }
  unfold spv_get_decoration. fold (decorated id d). rewrite Hr, <- Hs. cbn [obind].
  destruct r as [[k i]|]; [|reflexivity]. cbn [fmap option_fmap option_map snd]. unfold decoration_value.
  destruct (Z.ltb_spec 3 (n i)); [|reflexivity]. apply rd_nth.
  assert (i ∈ ins m) as Hi by now apply (list_elem_of_lookup_2 _ k), Hk.
  pose proof (wf_ok _ _ (mod_wf_in _ _ H Hi)) as (_ & _ & L). lia.
Qed.

Lemma decoration_value_nonneg b i : inst_wf b i -> 0 <= decoration_value i.
Proof.
  intros H. unfold decoration_value. destruct (Z.ltb_spec 3 (n i)); [|lia]. pose proof (wf_ok _ _ H) as (_ & _ & L).
  pose proof (wf_words _ _ H) as Hw. rewrite Forall_forall in Hw.
  refine (proj1 (Hw _ (nth_In _ _ _))). lia.
Qed.

Lemma undecorated_pure m id d : mod_wf m ->
  (let! v := spv_get_decoration m id d in Ok (v <? 0)) = Ok (negb (existsb (decorates id d) (ins m))).
Proof.
  intros H. rewrite get_decoration_pure by assumption. cbn [obind]. f_equal.
  destruct (List.filter (decorates id d) (ins m)) as [|i l] eqn:E.
  - symmetry. apply negb_true_iff, not_true_is_false. intros (x & Hx & Ht)%existsb_exists.
    assert (In x []) as [] by (rewrite <- E; now apply filter_In).
  - assert (In i (ins m) /\ decorates id d i = true) as [Hi Ht] by (apply filter_In; rewrite E; now left).
    cbn [head]. replace (existsb _ _) with true by (symmetry; apply existsb_exists; eauto).
    apply Z.ltb_ge, (decoration_value_nonneg (bound m)), mod_wf_in; [assumption|now apply list_elem_of_In].
Qed.

(** [OpTypeArray]: the array must not have a stride. *)
Definition array_test (elem len : Z) (m : spv_mod) (i : spv_inst) : bool :=
  (op i =? SpvOpTypeArray) && ((nth 1 (w i) 0 =? elem) && ((nth 2 (w i) 0 =? len) &&
    negb (existsb (decorates (nth 0 (w i) 0) SpvDecorationArrayStride) (ins m)))).

Lemma array_finder elem len : in_range 32 elem -> in_range 32 len ->
  Finder (fun m => test_op SpvOpTypeArray (test_word 1 elem (test_word 2 len (fun i =>
      let! id := rd (w i) 0 in
      let! d := spv_get_decoration m id SpvDecorationArrayStride in Ok (d <? 0))))) (array_test elem len)
    0 SpvOpTypeArray (fun id => [id; elem; len]).
Proof.
  intros Ha Hc. constructor.
  - intros m i H Hi. apply test_op_pure. intros E. pose proof (wf_length _ _ _ (mod_wf_in _ _ H Hi) E) as L.
    change (min_words SpvOpTypeArray) with 3 in L. do 2 (apply test_word_pure; [lia|]).
    rewrite rd_nth by lia. cbn [obind]. now apply undecorated_pure.
  - intros m i. unfold array_test. destruct (Z.eqb_spec (op i) SpvOpTypeArray); [done|discriminate].
  - discriminate.
  - intros b i H E. pose proof (wf_n _ _ _ H E) as L. change (min_words SpvOpTypeArray) with 3 in L.
    apply (type_id b); [assumption|now rewrite E|lia].
  - intros b Hb Hb1. split; [cbn; lia|]. new_type SpvOpTypeArray ([elem; len] : list Z).
  - intros m j m' i H [(l1 & l2 & E1 & E2) _ _] Hj. unfold array_test. rewrite E1, E2, !existsb_app. cbn [existsb].
    unfold decorates at 2. now rewrite (proj2 (Z.eqb_neq _ _) Hj).
  - intros m H. unfold array_test. cbn [op w nth]. rewrite !Z.eqb_refl. cbn [andb].
    apply negb_true_iff, not_true_is_false. intros (x & Hx & Ht)%existsb_exists. unfold decorates in Ht.
    repeat (apply andb_prop in Ht as [?E Ht]). apply Z.eqb_eq in E, E0.
    pose proof (wf_target _ _ (mod_wf_in _ x H (proj2 (list_elem_of_In _ _) Hx)) E). lia.
Qed.

(** Constants of type [t]: the result is word 1. *)
Definition const_test (t v : Z) (i : spv_inst) : bool :=
  (op i =? SpvOpConstant) && ((nth 0 (w i) 0 =? t) && ((n i =? 4) && ((nth 2 (w i) 0 =? v) && true))).

Lemma const_id b i : inst_wf b i -> op i = SpvOpConstant -> rd (w i) 1 = Ok (rid i) /\ rid i <> 0.
Proof.
  intros H E. pose proof (wf_n _ _ _ H E) as L. change (min_words SpvOpConstant) with 3 in L.
  split; [|apply (wf_def _ _ H); now rewrite E]. rewrite <- (result_id_ok b i H). unfold spv_result_id.
  rewrite E, (proj2 (Z.ltb_ge _ _)) by lia. change (bool_decide (SpvOpConstant ∈ no_result)) with false. cbn -[rd].
  now rewrite (proj2 (Z.leb_le _ _)) by lia.
Qed.

Lemma const_finder t v : in_range 32 t -> in_range 32 v ->
  Finder (fun _ => test_op SpvOpConstant (test_word 0 t (test_n 4 (test_word 2 v yes)))) (fun _ => const_test t v)
    1 SpvOpConstant (fun id => [t; id; v]).
Proof.
  intros Ht Hv. constructor.
  - intros m i H Hi. apply test_op_pure. intros E. pose proof (wf_length _ _ _ (mod_wf_in _ _ H Hi) E) as L.
    change (min_words SpvOpConstant) with 3 in L. apply test_word_pure; [lia|]. apply test_n_pure.
    apply test_word_pure; [lia|]. reflexivity.
  - intros m i. unfold const_test. destruct (Z.eqb_spec (op i) SpvOpConstant); [done|discriminate].
  - discriminate.
  - intros b i. apply const_id.
  - intros b Hb Hb1. split; [cbn; lia|]. split; [|reflexivity].
    constructor; cbn [op n w].
    + split; [split; [discriminate|reflexivity]|]. cbn [length op n w]. lia.
    + repeat (apply List.Forall_cons; [unfold in_range in *; lia|]). apply List.Forall_nil.
    + reflexivity.
    + change (rid _) with b. lia.
    + intros _. change (rid _) with b. lia.
    + discriminate.
  - reflexivity.
  - intros m H. unfold const_test. cbn. now rewrite !Z.eqb_refl.
Qed.
(** ** The makers *)

Inductive request :=
| RFloat (width : Z) | RInt (width sign : Z) | RBool | RVector (comp cnt : Z) | RPointer (storage pointee : Z)
| RArray (elem len : Z) | RConstU32 (v : Z) | RConstF32 (bits : Z).

Definition make (m : spv_mod) (r : request) : outcome (Z * spv_mod) :=
  match r with
  | RFloat width => spv_type_float m width
  | RInt width sign => spv_type_int m width sign
  | RBool => spv_type_bool m
  | RVector comp cnt => spv_type_vector m comp cnt
  | RPointer storage pointee => spv_type_pointer m storage pointee
  | RArray elem len => spv_type_array m elem len
  | RConstU32 v => spv_const_u32 m v
  | RConstF32 bits => spv_const_f32 m bits
  end.

Definition request_ok (r : request) : Prop :=
  match r with
  | RBool => True
  | RFloat a | RConstU32 a | RConstF32 a => in_range 32 a
  | RInt a b | RVector a b | RPointer a b | RArray a b => in_range 32 a /\ in_range 32 b
  end.

(** The instruction [i] of [m] defines [id] as what was asked for. *)
Definition satisfies (m : spv_mod) (r : request) (id : Z) (i : spv_inst) : Prop :=
  match r with
  | RFloat width => op i = SpvOpTypeFloat /\ w i = [id; width]
  | RInt width sign => op i = SpvOpTypeInt /\ [id; width; sign] `prefix_of` w i
  | RBool => op i = SpvOpTypeBool /\ [id] `prefix_of` w i
  | RVector comp cnt => op i = SpvOpTypeVector /\ [id; comp; cnt] `prefix_of` w i
  | RPointer storage pointee => op i = SpvOpTypePointer /\ [id; storage; pointee] `prefix_of` w i
  | RArray elem len => op i = SpvOpTypeArray /\ [id; elem; len] `prefix_of` w i /\
                       spv_get_decoration m id SpvDecorationArrayStride = Ok (-1)
  | RConstU32 v => op i = SpvOpConstant /\ exists t k ti, w i = [t; id; v] /\ spv_find_def m t = Ok (Some (k, ti)) /\
                   op ti = SpvOpTypeInt /\ [t; 32; 0] `prefix_of` w ti
  | RConstF32 bits => op i = SpvOpConstant /\ exists t k ti, w i = [t; id; bits] /\ spv_find_def m t = Ok (Some (k, ti)) /\
                      op ti = SpvOpTypeFloat /\ w ti = [t; 32]
  end.

(** The words of an instruction from its tests. *)
Lemma type_word0 b i o : inst_wf b i -> op i = o -> is_type o = true -> 1 <= min_words o ->
  exists l, w i = rid i :: l /\ min_words o <= Z.of_nat (length l) + 1.
Proof.
  intros H E Ht Hm. pose proof (wf_length _ _ _ H E) as L. pose proof (wf_ok _ _ H) as (_ & _ & Hl).
  destruct (type_id b i H) as [Hr _]; [congruence|lia|].
  destruct (w i) as [|x l]; [discriminate|]. injection Hr as ->. exists l. split; [reflexivity|]. cbn [length] in L. lia.
Qed.

Lemma pair_words b i o a c : inst_wf b i -> is_type o = true -> min_words o = 3 -> pair_test o a c i = true ->
  op i = o /\ [rid i; a; c] `prefix_of` w i.
Proof.
  intros H Ht Hm Hp. unfold pair_test in Hp. repeat (apply andb_prop in Hp as [?E Hp]). apply Z.eqb_eq in E, E0, E1.
  split; [assumption|]. destruct (type_word0 b i o H E Ht) as (l & Hl & L); [lia|]. rewrite Hl in *.
  destruct l as [|x [|y l]]; cbn [length nth] in *; [lia|lia|]. subst. now exists l.
Qed.

Lemma float_words b i width : inst_wf b i -> float_test width i = true -> op i = SpvOpTypeFloat /\ w i = [rid i; width].
Proof.
  intros H Hp. unfold float_test in Hp. repeat (apply andb_prop in Hp as [?E Hp]). apply Z.eqb_eq in E, E0, E1.
  split; [assumption|]. destruct (type_word0 b i _ H E) as (l & Hl & L); [reflexivity|discriminate|].
  pose proof (wf_ok _ _ H) as (_ & _ & Hn). rewrite Hl in *. destruct l as [|x [|y l]]; cbn [length nth] in *; [lia|now subst|lia].
Qed.

Lemma array_words m i elem len : mod_wf m -> i ∈ ins m -> array_test elem len m i = true ->
  satisfies m (RArray elem len) (rid i) i.
Proof.
  intros H Hi Ht. pose proof (mod_wf_in _ _ H Hi) as Hw. unfold array_test in Ht.
  apply andb_prop in Ht as [E Ht]. apply andb_prop in Ht as [E1 Ht]. apply andb_prop in Ht as [E2 Ht].
  apply Z.eqb_eq in E, E1, E2.
  destruct (type_word0 (bound m) i _ Hw E) as (l & Hl & L); [reflexivity|discriminate|].
  change (min_words SpvOpTypeArray) with 3 in L.
  split; [assumption|]. rewrite Hl in *. cbn [nth] in Ht. split.
  - destruct l as [|x [|y l]]; cbn [length nth] in *; [lia|lia|]. subst. now exists l.
  - rewrite get_decoration_pure by assumption.
    destruct (List.filter _ (ins m)) as [|x f] eqn:Ef; [reflexivity|].
    apply negb_true_iff in Ht. assert (In x (ins m) /\ decorates (rid i) SpvDecorationArrayStride x = true) as [Hx Hd]
      by (apply filter_In; rewrite Ef; now left).
    enough (existsb (decorates (rid i) SpvDecorationArrayStride) (ins m) = true) by congruence.
    apply existsb_exists. eauto.
Qed.

Lemma const_words b i t v : inst_wf b i -> const_test t v i = true -> op i = SpvOpConstant /\ w i = [t; rid i; v].
Proof.
  intros H Hp. unfold const_test in Hp. repeat (apply andb_prop in Hp as [?E Hp]). apply Z.eqb_eq in E, E0, E1, E2.
  split; [assumption|]. destruct (const_id b i H E) as [Hr _]. pose proof (wf_ok _ _ H) as (_ & _ & Hn).
  destruct (w i) as [|x [|y [|z [|? ?]]]]; cbn [length nth] in *; try lia. injection Hr as ->. now subst.
Qed.

(** What each call gives: the id, the module, the defining instruction, and the same answer again. *)
Definition made (m : spv_mod) (r : request) : Prop :=
  exists id m' k i,
    make m r = Ok (id, m') /\ spv_find_def m' id = Ok (Some (k, i)) /\ satisfies m' r id i /\
    mod_wf m' /\ extends m m' /\ make m' r = Ok (id, m').

(** From a finder to its request. *)
Lemma made_by_finder m r test tb res o ops :
  Finder test tb res o ops -> (forall m, make m r = find_or_add m (test m) res o ops) ->
  (forall m i, mod_wf m -> i ∈ ins m -> tb m i = true -> satisfies m r (rid i) i) ->
  mod_wf m -> bound m + 1 < 2 ^ 32 -> made m r.
Proof.
  intros F Hm Hs H Hb. destruct (find_or_add_spec m H Hb) as (m' & i & Hf & H' & Hx & _ & Hi & _).
  destruct (hit_defined m' i H' Hi) as (k & Hk). destruct (hits_in m' i Hi) as (Hin & Ht & _).
  exists (rid i), m', k, i. rewrite !Hm. split_and!; auto. now apply find_or_add_hit.
Qed.

(** A constant of a type another finder makes. *)
Lemma made_constant m r v ttest ttb tres to tops :
  Finder ttest ttb tres to tops -> in_range 32 v -> to <> SpvOpConstant ->
  (forall m, make m r =
    (let! (t, m) := find_or_add m (ttest m) tres to tops in
     find_or_add m (test_op SpvOpConstant (test_word 0 t (test_n 4 (test_word 2 v yes)))) 1 SpvOpConstant (fun id => [t; id; v]))) ->
  (forall m i k ti, mod_wf m -> ti ∈ ins m -> ttb m ti = true -> spv_find_def m (rid ti) = Ok (Some (k, ti)) ->
    op i = SpvOpConstant -> w i = [rid ti; rid i; v] -> satisfies m r (rid i) i) ->
  mod_wf m -> bound m + 2 < 2 ^ 32 -> made m r.
Proof.
  intros F Hv Hto Hm Hs H Hb.
  destruct (find_or_add_spec m H) as (m1 & ti & Hf1 & H1 & Hx1 & Hb1 & Hi1 & _); [lia|].
  destruct (hits_in m1 ti Hi1) as (Hin1 & _ & _). set (t := rid ti) in *.
  assert (in_range 32 t) as Ht. { pose proof (wf_id _ _ (mod_wf_in _ _ H1 Hin1)). unfold in_range. lia. }
  pose proof (const_finder t v Ht Hv) as C.
  destruct (find_or_add_spec m1 H1) as (m2 & i & Hf2 & H2 & Hx2 & _ & Hi2 & Hg); [lia|].
  assert (head (hits (tb := ttb) m2) = Some ti) as Hi1'.
  { destruct Hg as [->|(j & Hj & G)]; [assumption|]. rewrite (hits_grown m1 j m2); auto; [congruence|].
    rewrite Hj. discriminate. }
  destruct (hits_in m2 ti Hi1') as (Hint & Htb & _). destruct (hits_in m2 i Hi2) as (Hin & Hc & _).
  destruct (hit_defined m2 ti H2 Hi1') as (kt & Hkt). destruct (hit_defined m2 i H2 Hi2) as (k & Hk).
  destruct (const_words (bound m2) i t v) as [Ho Hw]; [now apply mod_wf_in|assumption|].
  exists (rid i), m2, k, i. rewrite !Hm, Hf1. cbn [obind]. rewrite Hf2, (find_or_add_hit m2 ti H2 Hi1'). cbn [obind]. fold t.
  split_and!; auto; [now apply (Hs m2 i kt ti)|now trans m1|]. exact (find_or_add_hit m2 i H2 Hi2).
Qed.
(** On a well-formed module with ids to spare, every type and constant maker (float, int, bool,
    vector, pointer, array, u32 and f32 constants) returns an id that the resulting module defines as
    exactly the requested type or value; asking again returns the same id and changes nothing; the
    result is well formed, keeps all instructions in order and every earlier definition. *)
Theorem makers_define_and_reuse m r :
  mod_wf m -> bound m + 2 < 2 ^ 32 -> request_ok r ->
  exists id m' k i,
    make m r = Ok (id, m') /\ spv_find_def m' id = Ok (Some (k, i)) /\ satisfies m' r id i /\
    mod_wf m' /\ extends m m' /\ make m' r = Ok (id, m').
Proof.
  intros H Hb Hr. change (made m r). assert (bound m + 1 < 2 ^ 32) by lia.
  destruct r as [width|width sign| |comp cnt|storage pointee|elem len|v|bits]; cbn [request_ok] in Hr;
    try match type of Hr with in_range 32 _ /\ _ => destruct Hr as [Hr1 Hr2] end.
  - apply (made_by_finder _ _ _ _ _ _ _ (float_finder width Hr)); auto.
    intros m' i H' Hi Ht. apply (float_words (bound m')); [now apply mod_wf_in|assumption].
  - apply (made_by_finder _ _ _ _ _ _ _ (pair_finder SpvOpTypeInt width sign ltac:(auto) Hr1 Hr2)); auto.
    intros m' i H' Hi Ht. apply (pair_words (bound m')); auto; now apply mod_wf_in.
  - apply (made_by_finder _ _ _ _ _ _ _ bool_finder); auto.
    intros m' i H' Hi Ht. pose proof (mod_wf_in _ _ H' Hi) as Hw. apply (f_op (Finder := bool_finder)) in Ht as E; [|exact m'].
    destruct (type_word0 (bound m') i _ Hw E) as (l & Hl & _); [reflexivity|discriminate|].
    split; [assumption|]. rewrite Hl. now exists l.
  - apply (made_by_finder _ _ _ _ _ _ _ (pair_finder SpvOpTypeVector comp cnt ltac:(auto) Hr1 Hr2)); auto.
    intros m' i H' Hi Ht. apply (pair_words (bound m')); auto; now apply mod_wf_in.
  - apply (made_by_finder _ _ _ _ _ _ _ (pair_finder SpvOpTypePointer storage pointee ltac:(auto) Hr1 Hr2)); auto.
    intros m' i H' Hi Ht. apply (pair_words (bound m')); auto; now apply mod_wf_in.
  - apply (made_by_finder _ _ _ _ _ _ _ (array_finder elem len Hr1 Hr2)); auto.
    intros m' i H' Hi Ht. now apply array_words.
  - apply (made_constant _ _ v _ _ _ _ _ (pair_finder SpvOpTypeInt 32 0 ltac:(auto) ltac:(done) ltac:(done))); auto.
    intros m' i k ti H' Hti Ht Hd Ho Hw. split; [assumption|].
    destruct (pair_words (bound m') ti SpvOpTypeInt 32 0) as [? ?];
      [now apply mod_wf_in|reflexivity|reflexivity|assumption|].
    now exists (rid ti), k, ti.
  - apply (made_constant _ _ bits _ _ _ _ _ (float_finder 32 ltac:(done))); auto.
    intros m' i k ti H' Hti Ht Hd Ho Hw. split; [assumption|].
    destruct (float_words (bound m') ti 32) as [? ?]; [now apply mod_wf_in|assumption|].
    now exists (rid ti), k, ti.
Qed.

Definition sample : spv_mod :=
  Mod [SpvMagic; 0x10000; 0; 9; 0]
    [Inst SpvOpCapability 2 [1]; Inst SpvOpMemoryModel 3 [0; 1]; Inst SpvOpDecorate 4 [8; SpvDecorationLocation; 3];
     Inst SpvOpTypeInt 4 [2; 32; 0]; Inst SpvOpTypePointer 4 [3; 3; 2]; Inst SpvOpVariable 4 [3; 8; 3]] false.

Lemma sample_wf : mod_wf sample.
Proof.
  constructor; [reflexivity|reflexivity| |].
  - repeat (apply List.Forall_cons; [constructor; [repeat split; vm_compute; congruence| |reflexivity|split; [discriminate|reflexivity]
      |discriminate|intros E; first [discriminate E|reflexivity]];
      repeat (apply List.Forall_cons; [split; [discriminate|reflexivity]|]); apply List.Forall_nil|]).
    apply List.Forall_nil.
  - apply (bool_decide_unpack _). vm_compute. exact I.
Qed.

Lemma makers_define_and_reuse_witness :
  exists id m' k i,
    make sample (RConstF32 0x3f800000) = Ok (id, m') /\ spv_find_def m' id = Ok (Some (k, i)) /\
    satisfies m' (RConstF32 0x3f800000) id i /\
    mod_wf m' /\ extends sample m' /\ make m' (RConstF32 0x3f800000) = Ok (id, m').
Proof. apply (makers_define_and_reuse sample (RConstF32 0x3f800000)); [apply sample_wf|reflexivity|done]. Defined.
(** ** Capability and decoration edits *)

Lemma filter_negb_nil {A} (f : A -> bool) l : List.filter f (List.filter (fun x => negb (f x)) l) = [].
Proof. induction l as [|x l IH]; [reflexivity|]. cbn. destruct (f x) eqn:E; cbn; [assumption|now rewrite E]. Qed.

Lemma filter_negb_idem {A} (f : A -> bool) l :
  List.filter (fun x => negb (f x)) (List.filter (fun x => negb (f x)) l) = List.filter (fun x => negb (f x)) l.
Proof. induction l as [|x l IH]; [reflexivity|]. cbn. destruct (f x) eqn:E; cbn; [assumption|now rewrite E, IH]. Qed.

Lemma filter_filter_stable {A} (f g : A -> bool) l :
  (forall x, f x = true -> g x = false) -> List.filter f (List.filter (fun x => negb (g x)) l) = List.filter f l.
Proof.
  intros H. induction l as [|x l IH]; [reflexivity|]. cbn. destruct (g x) eqn:E; cbn; [|destruct (f x); now rewrite IH].
  destruct (f x) eqn:Ef; [|assumption]. now rewrite (H x Ef) in E.
Qed.

Lemma delete_middle {A} (l1 l2 : list A) x : delete (length l1) (l1 ++ x :: l2) = l1 ++ l2.
Proof. induction l1 as [|y l1 IH]; [reflexivity|]. cbn. f_equal. exact IH. Qed.

(** The loop removes the matches after position [length l1] and nothing else. *)
Lemma remove_loop_filter test tb : forall fuel l1 l2 h e,
  Forall (fun i => test i = Ok (tb i)) l2 -> (length l2 < fuel)%nat ->
  remove_loop fuel test (length l1) (Mod h (l1 ++ l2) e) = Ok (Mod h (l1 ++ List.filter (fun i => negb (tb i)) l2) e).
Proof.
  induction fuel as [|fuel IH]; intros l1 l2 h e Ht Hf; [lia|]. cbn [remove_loop ins].
  destruct l2 as [|x l2].
  { rewrite app_nil_r, lookup_ge_None_2 by lia. now rewrite app_nil_r. }
  apply Forall_cons_1 in Ht as [Hx Ht]. cbn [length] in Hf. rewrite list_lookup_middle by reflexivity.
  rewrite Hx. cbn [obind List.filter]. destruct (tb x); cbn [negb].
  - unfold spv_remove. cbn [ins set_ins header err]. rewrite (proj2 (Nat.leb_gt _ _)) by (rewrite length_app; cbn; lia).
    rewrite delete_middle. apply IH; [assumption|lia].
  - replace (S (length l1)) with (length (l1 ++ [x])) by (rewrite length_app; cbn; lia).
    change (x :: l2) with ([x] ++ l2). rewrite app_assoc, IH by (assumption || lia). now rewrite <- app_assoc.
Qed.

Lemma remove_all m test tb : Forall (fun i => test i = Ok (tb i)) (ins m) ->
  remove_loop (S (length (ins m))) test 0 m = Ok (set_ins (List.filter (fun i => negb (tb i)) (ins m)) m).
Proof. intros H. destruct m as [h l e]. apply (remove_loop_filter test tb (S (length l)) [] l h e); [assumption|cbn; lia]. Qed.

Lemma sublist_filter_bool {A} (f : A -> bool) l : List.filter f l `sublist_of` l.
Proof. induction l as [|x l IH]; [constructor|]. cbn. destruct (f x); now constructor. Qed.

Lemma filter_wf m tb : mod_wf m -> mod_wf (set_ins (List.filter tb (ins m)) m).
Proof.
  intros [H1 H2 H3 H4]. constructor; cbn [set_ins header ins]; auto.
  - apply Forall_forall. intros i Hi. apply filter_In in Hi as [Hi _]. rewrite Forall_forall in H3. now apply H3.
  - clear H3. induction (ins m) as [|x l IH]; [exact H4|]. cbn [List.filter map] in *.
    destruct (negb (rid x =? 0)) eqn:E.
    + pose proof (NoDup_cons_1_1 _ _ H4) as Hx. apply NoDup_cons_1_2 in H4. destruct (tb x); cbn [map List.filter]; [|auto].
      rewrite E. constructor; [|auto]. intros Hi. apply Hx. clear -Hi. apply list_elem_of_In, filter_In in Hi as [Hi Hn].
      apply list_elem_of_In, filter_In. split; [|assumption]. apply in_map_iff in Hi as (y & <- & Hy).
      apply filter_In in Hy as [Hy _]. now apply in_map.
    + destruct (tb x); cbn [map List.filter]; [rewrite E|]; auto.
Qed.

Definition has_cap (cap : Z) (i : spv_inst) : bool := (op i =? SpvOpCapability) && ((nth 0 (w i) 0 =? cap) && true).

(** Every capability instruction has its operand. *)
Definition caps_ok (m : spv_mod) : Prop := Forall (fun i => op i = SpvOpCapability -> w i <> []) (ins m).

Lemma capability_pure m cap : caps_ok m -> Forall (fun i => capability cap i = Ok (has_cap cap i)) (ins m).
Proof.
  intros H. apply (Forall_impl _ (P := fun i => op i = SpvOpCapability -> w i <> [])); [|exact H].
  intros i Hi. apply test_op_pure. intros E. specialize (Hi E).
  apply test_word_pure; [|reflexivity]. destruct (w i); [done|cbn; lia].
Qed.

Lemma has_capability_pure m cap : caps_ok m -> spv_has_capability m cap = Ok (existsb (has_cap cap) (ins m)).
Proof.
  intros H. destruct (find_inst_pure _ _ m (capability_pure m cap H)) as (r & Hr & Hs & _).
  unfold spv_has_capability. rewrite Hr. cbn [obind]. f_equal. destruct (existsb _ _) eqn:E.
  - apply existsb_exists in E as (x & Hx & Ht). destruct r; [reflexivity|].
    assert (In x []) as []. { replace (@nil spv_inst) with (List.filter (has_cap cap) (ins m)); [now apply filter_In|]. now destruct (List.filter _ _). }
  - destruct r as [[k x]|]; [|reflexivity]. cbn in Hs.
    assert (In x (List.filter (has_cap cap) (ins m))) as Hx by (destruct (List.filter _ _); [done|injection Hs as ->; now left]).
    apply filter_In in Hx. enough (existsb (has_cap cap) (ins m) = true) by congruence. apply existsb_exists. eauto.
Qed.

Lemma caps_ok_filter m tb : caps_ok m -> caps_ok (set_ins (List.filter tb (ins m)) m).
Proof.
  intros H. apply Forall_forall. intros i Hi. apply filter_In in Hi as [Hi _]. unfold caps_ok in H.
  rewrite Forall_forall in H. now apply H.
Qed.

(** [spv_remove_capability] deletes exactly the capability's instructions, after which the
    capability is absent; adding it then puts one instruction at the front, after which it is present,
    adding again changes nothing, and removing again restores the module. *)
Theorem capability_edits m cap :
  caps_ok m ->
  exists m1 m2,
    spv_remove_capability m cap = Ok m1 /\ m1 = set_ins (List.filter (fun i => negb (has_cap cap i)) (ins m)) m /\
    spv_has_capability m1 cap = Ok false /\
    spv_add_capability m1 cap = Ok m2 /\ ins m2 = Inst SpvOpCapability 2 [cap] :: ins m1 /\
    spv_has_capability m2 cap = Ok true /\ spv_add_capability m2 cap = Ok m2 /\ spv_remove_capability m2 cap = Ok m1.
Proof.
  intros H. set (m1 := set_ins (List.filter (fun i => negb (has_cap cap i)) (ins m)) m).
  assert (caps_ok m1) as H1 by now apply caps_ok_filter.
  assert (existsb (has_cap cap) (ins m1) = false) as E1.
  { apply not_true_is_false. intros (x & Hx & Ht)%existsb_exists. cbn in Hx. apply filter_In in Hx as [_ Hx]. now rewrite Ht in Hx. }
  set (m2 := spv_insert m1 0 SpvOpCapability [cap]).
  assert (ins m2 = Inst SpvOpCapability 2 [cap] :: ins m1) as Hm2 by reflexivity.
  assert (caps_ok m2) as H2 by (unfold caps_ok; rewrite Hm2; constructor; [discriminate|exact H1]).
  assert (existsb (has_cap cap) (ins m2) = true) as E2 by (rewrite Hm2; cbn [existsb]; unfold has_cap; cbn; now rewrite Z.eqb_refl).
  exists m1, m2. unfold spv_add_capability.
  rewrite !has_capability_pure, E1, E2 by assumption. cbn [obind]. split_and!; auto.
  - apply remove_all, capability_pure, H.
  - unfold spv_remove_capability. rewrite (remove_all _ _ (has_cap cap)) by now apply capability_pure.
    unfold set_ins. rewrite Hm2. cbn [List.filter]. unfold has_cap at 1. cbn [op w nth]. rewrite !Z.eqb_refl. cbn [andb negb].
    change (header m2) with (header m1). change (err m2) with (err m1).
    change (ins m1) with (List.filter (fun i => negb (has_cap cap i)) (ins m)). now rewrite filter_negb_idem.
Qed.
Lemma capability_edits_witness :
  caps_ok sample /\ exists m1 m2,
    spv_remove_capability sample 1 = Ok m1 /\ m1 = set_ins (List.filter (fun i => negb (has_cap 1 i)) (ins sample)) sample /\
    spv_has_capability m1 1 = Ok false /\
    spv_add_capability m1 1 = Ok m2 /\ ins m2 = Inst SpvOpCapability 2 [1] :: ins m1 /\
    spv_has_capability m2 1 = Ok true /\ spv_add_capability m2 1 = Ok m2 /\ spv_remove_capability m2 1 = Ok m1.
Proof.
  assert (caps_ok sample) as H by (repeat (apply List.Forall_cons; [intros E; discriminate|]); apply List.Forall_nil).
  split; [exact H|]. exact (capability_edits sample 1 H).
Defined.

(** [spv_remove_decoration] leaves the id without that decoration, keeps every other decoration of
    every id with its value, and deletes nothing but the matching [OpDecorate]s. *)
Theorem decoration_removed m id d :
  mod_wf m ->
  exists m', spv_remove_decoration m id d = Ok m' /\ ins m' `sublist_of` ins m /\
    spv_get_decoration m' id d = Ok (-1) /\
    (forall id' d', id' <> id \/ d' <> d -> spv_get_decoration m' id' d' = spv_get_decoration m id' d') /\
    (forall i, i ∈ ins m -> op i <> SpvOpDecorate -> i ∈ ins m') /\ mod_wf m'.
Proof.
  intros H. set (m' := set_ins (List.filter (fun i => negb (decorates id d i)) (ins m)) m).
  assert (mod_wf m') as H' by now apply filter_wf.
  exists m'. split_and!; auto.
  - apply remove_all, Forall_forall. intros i Hi. apply (decorated_pure (bound m)), mod_wf_in; [assumption|now apply list_elem_of_In].
  - apply sublist_filter_bool.
  - rewrite get_decoration_pure by assumption. unfold m'. cbn [ins set_ins]. now rewrite filter_negb_nil.
  - intros id' d' Hne. rewrite !get_decoration_pure by assumption. unfold m'. cbn [ins set_ins].
    rewrite filter_filter_stable; [reflexivity|]. intros x Hx. unfold decorates in *.
    repeat (apply andb_prop in Hx as [?E Hx]). apply Z.eqb_eq in E, E0, E1. rewrite E, E0, E1, Z.eqb_refl. cbn [andb].
    destruct (Z.eqb_spec id' id), (Z.eqb_spec d' d); cbn; try reflexivity. now destruct Hne.
  - intros i Hi Ho. apply list_elem_of_In, filter_In. split; [now apply list_elem_of_In|].
    unfold decorates. now rewrite (proj2 (Z.eqb_neq _ _) Ho).
Qed.

Lemma decoration_removed_witness :
  exists m', spv_remove_decoration sample 8 SpvDecorationLocation = Ok m' /\ ins m' `sublist_of` ins sample /\
    spv_get_decoration m' 8 SpvDecorationLocation = Ok (-1) /\
    (forall id' d', id' <> 8 \/ d' <> SpvDecorationLocation -> spv_get_decoration m' id' d' = spv_get_decoration sample id' d') /\
    (forall i, i ∈ ins sample -> op i <> SpvOpDecorate -> i ∈ ins m') /\ mod_wf m'.
Proof. exact (decoration_removed sample 8 SpvDecorationLocation sample_wf). Defined.

(** ** Reads outside an instruction *)

(** [spv_parse] accepts modules on which the editor reads past an instruction's words: an
    [OpTypeInt] with no width, met by [spv_type_int], and an [OpMemberDecorate] whose member index is
    the member count, met by [spv_max_location_io], whose guard [w[1] + 1 < n] admits one word too many. *)
Theorem accepted_modules_read_outside :
  (exists m, spv_parse [SpvMagic; 0x10000; 0; 9; 0; 0x20015; 2] 28 = Ok (Some m) /\ spv_type_int m 32 0 = Undef) /\
  (exists m, spv_parse [SpvMagic; 0x10000; 0; 9; 0; 0x50048; 4; 1; 30; 0; 0x30016; 2; 32; 0x3001e; 4; 2; 0x40020; 5; 3; 4;
               0x4003b; 5; 6; 3] 96 = Ok (Some m) /\ spv_max_location m 3 = Undef).
Proof.
  split.
  - exists (Mod [SpvMagic; 0x10000; 0; 9; 0] [Inst 21 2 [2]] false). split; vm_compute; reflexivity.
  - exists (Mod [SpvMagic; 0x10000; 0; 9; 0]
      [Inst 72 5 [4; 1; 30; 0]; Inst 22 3 [2; 32]; Inst 30 3 [4; 2]; Inst 32 4 [5; 3; 4]; Inst 59 4 [5; 6; 3]] false).
    split; vm_compute; reflexivity.
Qed.
End SpvMakers.
