(* ===== verification/SpvConstants.v ===== *)
(** * Evaluation of SPIR-V constant expressions (vulkan/compat/spirv_constants.c)

    [hybris_spirv_constants_create] indexes the type and constant instructions of a
    module by their result; [hybris_spirv_constant_u32] evaluates one with a memo
    table, a three-valued state against cycles and a depth limit.  An instruction
    pointer is the suffix of the code it points to, so a read past the module is
    undefined.  The theorems compare the evaluator with a memo-free recursive
    definition and the operations with signed arithmetic. *)

From Stdlib Require Import ZArith Lia Bool.
From stdpp Require Import base list numbers option gmap.
From S2P Require Import Prelude.

Open Scope Z_scope.
Open Scope outcome_scope.

Module SpvConstants.

Definition VK_SUCCESS := 0.
Definition VK_ERROR_OUT_OF_HOST_MEMORY := -1.
Definition VK_ERROR_UNKNOWN := -13.
Definition SIZE_MAX := 2 ^ 64 - 1.

(** ** Data *)

(** [state]: 0 not evaluated, 1 being evaluated or failed, 2 evaluated. *)
Record constant := Constant {
  instruction : option (list Z); spec_id : Z; value : Z; has_spec_id : bool; state : Z }.

(** VkSpecializationMapEntry and VkSpecializationInfo; [None] is a null pointer. *)
Record map_entry := MapEntry { constantID : Z; offset : Z; size : Z }.
Record specialization_info := SpecializationInfo {
  mapEntryCount : Z; pMapEntries : option (list map_entry); dataSize : Z; pData : option (list Z) }.

(** The flexible array [ids] has [bound] zero-initialised elements. *)
Record constants := Constants { bound : Z; specialization : option specialization_info; ids : gmap Z constant }.

Definition zero_constant : constant := Constant None 0 0 false 0.

Definition get_id (c : constants) (id : Z) : outcome constant :=
  if (0 <=? id) && (id <? bound c) then Ok (default zero_constant (ids c !! id)) else Undef.

Definition set_id (c : constants) (id : Z) (k : constant) : outcome constants :=
  if (0 <=? id) && (id <? bound c) then Ok (Constants (bound c) (specialization c) (<[id := k]> (ids c))) else Undef.

Definition set_instruction (p : list Z) (k : constant) : constant :=
  Constant (Some p) (spec_id k) (value k) (has_spec_id k) (state k).
Definition set_spec_id (s : Z) (k : constant) : constant := Constant (instruction k) s (value k) true (state k).
Definition set_state (s : Z) (k : constant) : constant := Constant (instruction k) (spec_id k) (value k) (has_spec_id k) s.
Definition set_value (v : Z) (k : constant) : constant := Constant (instruction k) (spec_id k) v (has_spec_id k) (state k).

(** ** Indexing *)

Definition update (c : constants) (id : Z) (f : constant -> constant) : outcome constants :=
  let! k := get_id c id in set_id c id (f k).

(** One instruction of the loop; [None] is [goto unsupported]. *)
Definition index_instruction (c : constants) (p : list Z) (op count : Z) : outcome (option constants) :=
  if (op =? 20) || (op =? 21) then
    let! p1 := (if negb (count =? (if op =? 20 then 2 else 4)) then Ok None else let! x := rd p 1 in Ok (Some x)) in
    match p1 with
    | None => Ok None
    | Some p1 => if bound c <=? p1 then Ok None else let! c := update c p1 (set_instruction p) in Ok (Some c)
    end
  else if (41 <=? op) && (op <=? 52) then
    if count <? 3 then Ok None else
    let! p1 := rd p 1 in
    if bound c <=? p1 then Ok None else
    let! p2 := rd p 2 in
    if bound c <=? p2 then Ok None else let! c := update c p2 (set_instruction p) in Ok (Some c)
  else
    let! spec := (if (op =? 71) && (3 <=? count) then let! p2 := rd p 2 in Ok (p2 =? 1) else Ok false) in
    if spec : bool then
      if negb (count =? 4) then Ok None else
      let! p1 := rd p 1 in
      if bound c <=? p1 then Ok None else
      let! p3 := rd p 3 in
      let! c := update c p1 (set_spec_id p3) in Ok (Some c)
    else Ok (Some c).

Fixpoint index_loop (fuel : nat) (code : list Z) (words at_ : Z) (c : constants) : outcome (option constants) :=
  match fuel with
  | O => Undef
  | S fuel =>
      if at_ <? words then
        let p := drop (Z.to_nat at_) code in
        let! p0 := rd p 0 in
        let count := Z.shiftr p0 16 in
        let op := Z.land p0 0xffff in
        if (count =? 0) || (words - at_ <? count) then Ok None else
        let! r := index_instruction c p op count in
        match r with
        | None => Ok None
        | Some c => index_loop fuel code words (at_ + count) c
        end
      else Ok (Some c)
  end.

(** sizeof(struct constant) is 24 and sizeof(struct hybris_spirv_constants) is 16; [alloc] says
    whether the allocation callback returns memory. *)
Definition hybris_spirv_constants_create (alloc : bool) (code : list Z) (size : Z) (specialization : option specialization_info)
    : outcome (Z * option constants) :=
  if (size <? 20) || negb (size mod 4 =? 0) then Ok (VK_ERROR_UNKNOWN, None) else
  let! c0 := rd code 0 in
  if negb (c0 =? 0x07230203) then Ok (VK_ERROR_UNKNOWN, None) else
  let! c3 := rd code 3 in
  if c3 =? 0 then Ok (VK_ERROR_UNKNOWN, None) else
  if (SIZE_MAX - 16) / c3 <? 24 then Ok (VK_ERROR_OUT_OF_HOST_MEMORY, None) else
  if negb alloc then Ok (VK_ERROR_OUT_OF_HOST_MEMORY, None) else
  let! r := index_loop (S (Z.to_nat (size / 4))) code (size / 4) 5 (Constants c3 specialization ∅) in
  Ok (match r with Some c => (VK_SUCCESS, Some c) | None => (VK_ERROR_UNKNOWN, None) end).

(** ** Evaluation *)

(** 0: not a supported scalar, 1: bool, 2: unsigned, 3: signed 32-bit integer. *)
Definition scalar_type (c : constants) (id : Z) : outcome Z :=
  if (id =? 0) || (bound c <=? id) then Ok 0 else
  let! k := get_id c id in
  match instruction k with
  | None => Ok 0
  | Some p =>
      let! p0 := rd p 0 in
      if Z.land p0 0xffff =? 20 then Ok 1
      else if Z.land p0 0xffff =? 21 then
        let! p2 := rd p 2 in
        if p2 =? 32 then let! p3 := rd p 3 in Ok (if p3 =? 0 then 2 else 3) else Ok 0
      else Ok 0
  end.

(** The 32-bit word at an offset of the specialization data (little endian). *)
Definition data_word (data : list Z) (off : Z) : outcome Z :=
  let! b0 := rd data off in let! b1 := rd data (off + 1) in let! b2 := rd data (off + 2) in let! b3 := rd data (off + 3) in
  Ok (b0 + 256 * b1 + 65536 * b2 + 16777216 * b3).

(** What the specialization says of a constant: nothing, a failure, or a word. *)
Inductive specialized := NoEntry | BadEntry | Word (v : Z).

Fixpoint find_entry (info : specialization_info) (spec op : Z) (l : list map_entry) (todo : nat) {struct todo} : outcome specialized :=
  match todo with
  | O => Ok NoEntry
  | S todo =>
      match l with
      | [] => Undef
      | map :: l =>
          if negb (constantID map =? spec) then find_entry info spec op l todo
          else match pData info with
               | None => Ok BadEntry
               | Some data =>
                   if negb (size map =? 4) || (dataSize info <? offset map) || (dataSize info - offset map <? size map)
                   then Ok BadEntry
                   else let! v := data_word data (offset map) in
                        Ok (Word (if op =? 50 then v else if v =? 0 then 0 else 1))
               end
      end
  end.

Definition specialize (c : constants) (k : constant) (op : Z) : outcome specialized :=
  match specialization c with
  | Some info =>
      if ((op =? 48) || (op =? 49) || (op =? 50)) && has_spec_id k then
        match pMapEntries info with
        | None => Ok (if mapEntryCount info =? 0 then NoEntry else BadEntry)
        | Some entries => find_entry info (spec_id k) op entries (Z.to_nat (mapEntryCount info))
        end
      else Ok NoEntry
  | None => Ok NoEntry
  end.

Definition b2z (b : bool) : Z := if b then 1 else 0.

Definition unary (operation : Z) : bool :=
  (operation =? 113) || (operation =? 114) || (operation =? 124) || (operation =? 126) || (operation =? 168) || (operation =? 200).

(** The switch over the OpSpecConstantOp opcode; [None] is the failing return. *)
Definition operate (operation a b d : Z) : option Z :=
  let sa := to_signed 32 a in
  let sb := to_signed 32 b in
  match operation with
  | 113 | 114 | 124 => Some a
  | 126 => Some (u32 (0 - a))
  | 128 => Some (u32 (a + b))
  | 130 => Some (u32 (a - b))
  | 132 => Some (u32 (a * b))
  | 134 => if b =? 0 then None else Some (a / b)
  | 135 => if (b =? 0) || ((sa =? - 2 ^ 31) && (sb =? -1)) then None else Some (u32 (Z.quot sa sb))
  | 137 => if b =? 0 then None else Some (a mod b)
  | 138 => if b =? 0 then None else Some (u32 (Z.rem sa sb))
  | 139 => if b =? 0 then None else
           let remainder := Z.rem sa sb in
           let remainder := if negb (remainder =? 0) && negb (Bool.eqb (remainder <? 0) (sb <? 0)) then remainder + sb else remainder in
           Some (u32 remainder)
  | 164 | 170 => Some (b2z (a =? b))
  | 165 | 171 => Some (b2z (negb (a =? b)))
  | 166 => Some (b2z (negb (a =? 0) || negb (b =? 0)))
  | 167 => Some (b2z (negb (a =? 0) && negb (b =? 0)))
  | 168 => Some (b2z (a =? 0))
  | 169 => Some (if a =? 0 then d else b)
  | 172 => Some (b2z (b <? a))
  | 173 => Some (b2z (sb <? sa))
  | 174 => Some (b2z (b <=? a))
  | 175 => Some (b2z (sb <=? sa))
  | 176 => Some (b2z (a <? b))
  | 177 => Some (b2z (sa <? sb))
  | 178 => Some (b2z (a <=? b))
  | 179 => Some (b2z (sa <=? sb))
  | 194 => if 32 <=? b then None else Some (Z.shiftr a b)
  | 195 => if 32 <=? b then None else
           let result := Z.shiftr a b in
           Some (if negb (b =? 0) && negb (Z.land a 0x80000000 =? 0)
                 then Z.lor result (u32 (Z.shiftl (2 ^ 32 - 1) (32 - b))) else result)
  | 196 => if 32 <=? b then None else Some (u32 (Z.shiftl a b))
  | 197 => Some (Z.lor a b)
  | 198 => Some (Z.lxor a b)
  | 199 => Some (Z.land a b)
  | 200 => Some (u32 (Z.lnot a))
  | _ => None
  end.

(** Sequencing of steps that may fail with [return 0] after changing the table. *)
Definition bind_some {A B} (m : outcome (option A * constants)) (k : A -> constants -> outcome (option B * constants))
    : outcome (option B * constants) :=
  let! (a, c) := m in match a with None => Ok (None, c) | Some a => k a c end.

(** Operand [i] of an OpSpecConstantOp, or 0 if the instruction has no such word. *)
Definition operand (eval : constants -> Z -> outcome (option Z * constants)) (p : list Z) (count i : Z) (c : constants)
    : outcome (option Z * constants) :=
  if i <? count then let! x := rd p i in eval c x else Ok (Some 0, c).

(** The OpSpecConstantOp branch. *)
Definition evaluate_op (eval : constants -> Z -> outcome (option Z * constants)) (c : constants) (p : list Z) (count : Z)
    : outcome (option Z * constants) :=
  if count <? 5 then Ok (None, c) else
  bind_some (operand eval p count 4 c) (fun a c =>
  bind_some (operand eval p count 5 c) (fun b c =>
  bind_some (operand eval p count 6 c) (fun d c =>
    let! operation := rd p 3 in
    if negb (count =? (if operation =? 169 then 7 else if unary operation then 5 else 6)) then Ok (None, c)
    else Ok (operate operation a b d, c)))).

(** The value of an instruction, up to the label [resolved]. *)
Definition evaluate_value (eval : constants -> Z -> outcome (option Z * constants)) (c : constants) (k : constant) (p : list Z)
    (op count : Z) : outcome (option Z * constants) :=
  let! s := specialize c k op in
  match s with
  | BadEntry => Ok (None, c)
  | Word v => Ok (Some v, c)
  | NoEntry =>
      if (op =? 41) || (op =? 48) then Ok (Some 1, c)
      else if (op =? 42) || (op =? 49) || (op =? 46) then Ok (Some 0, c)
      else if (op =? 43) || (op =? 50) then
        if negb (count =? 4) then Ok (None, c) else let! p3 := rd p 3 in Ok (Some p3, c)
      else if op =? 52 then evaluate_op eval c p count
      else Ok (None, c)
  end.

(** Depth is 65 less the fuel; the result is [None] for the failing return. *)
Fixpoint evaluate (fuel : nat) (c : constants) (id : Z) : outcome (option Z * constants) :=
  match fuel with
  | O => Ok (None, c)
  | S fuel =>
      if (id =? 0) || (bound c <=? id) then Ok (None, c) else
      let! k := get_id c id in
      match instruction k with
      | None => Ok (None, c)
      | Some p =>
          let! p0 := rd p 0 in
          if Z.shiftr p0 16 <? 3 then Ok (None, c) else
          let! p1 := rd p 1 in
          let! type := scalar_type c p1 in
          if type =? 0 then Ok (None, c)
          else if state k =? 2 then Ok (Some (value k), c)
          else if negb (state k =? 0) then Ok (None, c)
          else
          let! c := update c id (set_state 1) in
          bind_some (evaluate_value (evaluate fuel) c k p (Z.land p0 0xffff) (Z.shiftr p0 16)) (fun result c =>
          let! c := update c id (fun k => set_state 2 (set_value result k)) in Ok (Some result, c))
      end
  end.

(** The value and its signedness, if the id is a 32-bit integer constant that evaluates. *)
Definition hybris_spirv_constant_u32 (c : constants) (id : Z) : outcome (option (Z * bool) * constants) :=
  if (id =? 0) || (bound c <=? id) then Ok (None, c) else
  let! k := get_id c id in
  match instruction k with
  | None => Ok (None, c)
  | Some p =>
      let! p1 := rd p 1 in
      let! type := scalar_type c p1 in
      if type <? 2 then Ok (None, c) else
      let! (v, c) := evaluate 65 c id in
      Ok ((fun v => (v, type =? 3)) <$> v, c)
  end.

(** * The memo-free definition *)

Definition look (c : constants) (id : Z) : constant := default zero_constant (ids c !! id).
Definition word (p : list Z) (i : nat) : Z := nth i p 0.
Definition op_of (p : list Z) : Z := Z.land (word p 0) 0xffff.
Definition count_of (p : list Z) : Z := Z.shiftr (word p 0) 16.

(** The value an instruction has, given the values of the ids it uses. *)
Definition ref_operand (rec : Z -> option Z) (p : list Z) (i : nat) : option Z :=
  if Z.of_nat i <? count_of p then rec (word p i) else Some 0.

Definition ref_op (rec : Z -> option Z) (p : list Z) : option Z :=
  if count_of p <? 5 then None else
  a ← ref_operand rec p 4; b ← ref_operand rec p 5; d ← ref_operand rec p 6;
  if count_of p =? (if word p 3 =? 169 then 7 else if unary (word p 3) then 5 else 6)
  then operate (word p 3) a b d else None.

Definition ref_value (c : constants) (rec : Z -> option Z) (k : constant) (p : list Z) : option Z :=
  match specialize c k (op_of p) with
  | Ok (Word v) => Some v
  | Ok NoEntry =>
      if (op_of p =? 41) || (op_of p =? 48) then Some 1
      else if (op_of p =? 42) || (op_of p =? 49) || (op_of p =? 46) then Some 0
      else if (op_of p =? 43) || (op_of p =? 50) then if count_of p =? 4 then Some (word p 3) else None
      else if op_of p =? 52 then ref_op rec p else None
  | _ => None
  end.

Definition type_of (c : constants) (id : Z) : Z := match scalar_type c id with Ok t => t | _ => 0 end.

(** The value of a constant whose operands nest at most [h] deep; 0 is not an id. *)
Fixpoint meaning (h : nat) (c : constants) (id : Z) : option Z :=
  match h with
  | O => None
  | S h =>
      if id =? 0 then None else
      match instruction (look c id) with
      | Some p => if (count_of p <? 3) || (type_of c (word p 1) =? 0) then None
                  else ref_value c (meaning h c) (look c id) p
      | None => None
      end
  end.

(** ** Tables *)

(** The data a specialization describes is there. *)
Definition info_ok (s : option specialization_info) : Prop :=
  match s with
  | None => True
  | Some info =>
      (forall l, pMapEntries info = Some l -> mapEntryCount info <= Z.of_nat (length l) /\ Forall (fun e => 0 <= offset e) l) /\
      (forall d, pData info = Some d -> dataSize info <= Z.of_nat (length d))
  end.

(** An indexed instruction is complete. *)
Record indexed_ok (p : list Z) : Prop := {
  ix_words : Forall (in_range 32) p;
  ix_count : 2 <= count_of p <= Z.of_nat (length p);
  ix_int : op_of p = 21 -> 4 <= count_of p }.

Record table_ok (c : constants) : Prop := {
  tb_info : info_ok (specialization c);
  tb_ids : forall id p, instruction (look c id) = Some p -> 0 <= id < bound c /\ indexed_ok p }.

(** An indexed instruction defines its id and lies in the code. *)
Definition names (code : list Z) (id : Z) (p : list Z) : Prop :=
  p `suffix_of` code /\
  ((op_of p = 20 \/ op_of p = 21) /\ word p 1 = id \/ 41 <= op_of p <= 52 /\ word p 2 = id).

Lemma word_rd p i : indexed_ok p -> 0 <= i < count_of p -> rd p i = Ok (word p (Z.to_nat i)) /\ 0 <= word p (Z.to_nat i).
Proof.
  intros [Hw Hc _] Hi. destruct (rd_ok p i) as (x & -> & Hx); [lia|]. unfold word.
  rewrite (nth_lookup_Some _ _ 0 x Hx). split; [reflexivity|].
  rewrite Forall_lookup in Hw. now destruct (Hw _ _ Hx).
Qed.

Lemma data_word_ok d off : 0 <= off -> off + 4 <= Z.of_nat (length d) -> exists v, data_word d off = Ok v.
Proof.
  intros H0 H. unfold data_word.
  destruct (rd_ok d off) as (? & -> & _); [lia|]. destruct (rd_ok d (off + 1)) as (? & -> & _); [lia|].
  destruct (rd_ok d (off + 2)) as (? & -> & _); [lia|]. destruct (rd_ok d (off + 3)) as (? & -> & _); [lia|].
  cbn [obind]. eauto.
Qed.

Lemma find_entry_ok info spec op l todo :
  (todo <= length l)%nat -> Forall (fun e => 0 <= offset e) l ->
  (forall d, pData info = Some d -> dataSize info <= Z.of_nat (length d)) ->
  exists s, find_entry info spec op l todo = Ok s.
Proof.
  intros Hl He Hd. revert l Hl He. induction todo as [|todo IH]; intros l Hl He; [cbn; eauto|].
  destruct l as [|e l]; [cbn in Hl; lia|]. apply Forall_cons_1 in He as [H0 He]. cbn [find_entry length] in *.
  destruct (negb _); [apply IH; [lia|assumption]|]. destruct (pData info) as [d|]; [|eauto].
  destruct (Z.eqb_spec (size e) 4) as [E|E]; cbn [negb orb]; [|eauto].
  destruct (Z.ltb_spec (dataSize info) (offset e)); cbn [orb]; [eauto|].
  destruct (Z.ltb_spec (dataSize info - offset e) (size e)); [eauto|].
  destruct (data_word_ok d (offset e)) as (v & ->); [assumption|specialize (Hd d eq_refl); lia|]. cbn [obind]. eauto.
Qed.

Lemma specialize_ok c k op : info_ok (specialization c) -> exists s, specialize c k op = Ok s.
Proof.
  intros H. unfold specialize. destruct (specialization c) as [info|]; [|eauto]. destruct H as [H1 H2].
  destruct (_ && _); [|eauto]. destruct (pMapEntries info) as [l|]; [|eauto].
  destruct (H1 l eq_refl). apply find_entry_ok; auto; lia.
Qed.

Lemma get_id_look c id : 0 <= id < bound c -> get_id c id = Ok (look c id).
Proof. intros H. unfold get_id. now rewrite (proj2 (Z.leb_le _ _)), (proj2 (Z.ltb_lt _ _)) by lia. Qed.

Lemma type_of_range c id : 0 <= type_of c id <= 3.
Proof.
  unfold type_of, scalar_type. destruct (_ || _); [lia|]. destruct (get_id c id) as [k| |]; cbn [obind]; try lia.
  destruct (instruction k) as [p|]; [|lia]. destruct (rd p 0); cbn [obind]; try lia. destruct (_ =? 20); [lia|].
  destruct (_ =? 21); [|lia]. destruct (rd p 2); cbn [obind]; try lia. destruct (_ =? 32); [|lia].
  destruct (rd p 3) as [x| |]; cbn [obind]; try lia. destruct (x =? 0); lia.
Qed.

Lemma scalar_type_ok c id : table_ok c -> 0 <= id -> scalar_type c id = Ok (type_of c id).
Proof.
  intros H Hid. unfold type_of. enough (exists t, scalar_type c id = Ok t) as (t & ->) by reflexivity.
  unfold scalar_type. destruct (Z.eqb_spec id 0); cbn [orb]; [eauto|].
  destruct (Z.leb_spec (bound c) id); [eauto|]. rewrite get_id_look by lia. cbn [obind].
  destruct (instruction (look c id)) as [p|] eqn:E; [|eauto]. destruct (tb_ids c H id p E) as [_ Hp].
  pose proof (ix_count _ Hp). destruct (word_rd p 0 Hp) as [-> _]; [lia|]. cbn [obind]. change (Z.to_nat 0) with 0%nat.
  destruct (_ =? 20); [eauto|]. destruct (Z.eqb_spec (Z.land (word p 0) 65535) 21) as [E21|]; [|eauto].
  pose proof (ix_int _ Hp E21).
  destruct (word_rd p 2 Hp) as [-> _]; [lia|]. cbn [obind]. destruct (_ =? 32); [|eauto].
  destruct (word_rd p 3 Hp) as [-> _]; [lia|]. cbn [obind]. eauto.
Qed.
(** ** Meanings are stable *)

Definition mono {A} (t : nat -> option A) : Prop := forall h h' v, (h <= h')%nat -> t h = Some v -> t h' = Some v.

Lemma mono_const {A} (x : option A) : mono (fun _ => x).
Proof. now intros h h' v. Qed.

Lemma mono_bind {A B} (t : nat -> option A) (k : A -> nat -> option B) :
  mono t -> (forall a, mono (k a)) -> mono (fun h => t h ≫= fun a => k a h).
Proof.
  intros Ht Hk h h' v Hh E. destruct (t h) as [a|] eqn:Ea; [|discriminate]. rewrite (Ht h h' a Hh Ea). cbn in *.
  now apply (Hk a h).
Qed.

Lemma mono_if {A} (b : bool) (t u : nat -> option A) : mono t -> mono u -> mono (fun h => if b then t h else u h).
Proof. now destruct b. Qed.

Lemma mono_operand t p i : (forall x, mono (t x)) -> mono (fun h => ref_operand (fun x => t x h) p i).
Proof. intros H. apply (mono_if _ (t (word p i)) (fun _ => Some 0)); [apply H|apply mono_const]. Qed.

Lemma mono_value c k p t : (forall x, mono (t x)) -> mono (fun h => ref_value c (fun x => t x h) k p).
Proof.
  intros H. unfold ref_value. destruct (specialize c k (op_of p)) as [[]| |]; try apply mono_const.
  repeat (apply (mono_if _ (fun _ => _)); [apply mono_const|]). apply (mono_if _ _ (fun _ => None)); [|apply mono_const].
  unfold ref_op. apply (mono_if _ (fun _ => None)); [apply mono_const|].
  apply (mono_bind (fun h => ref_operand (fun x => t x h) p 4) (fun a h => _)); [now apply mono_operand|]. intros a.
  apply (mono_bind (fun h => ref_operand (fun x => t x h) p 5) (fun a h => _)); [now apply mono_operand|]. intros b.
  apply (mono_bind (fun h => ref_operand (fun x => t x h) p 6) (fun a h => _)); [now apply mono_operand|]. intros d.
  apply mono_const.
Qed.

Lemma meaning_step c id h v : meaning h c id = Some v -> meaning (S h) c id = Some v.
Proof.
  revert id v. induction h as [|h IH]; intros id v H; [discriminate|]. cbn [meaning] in H |- *.
  destruct (id =? 0); [discriminate|].
  destruct (instruction (look c id)) as [p|]; [|discriminate]. destruct (_ || _); [discriminate|].
  apply (mono_value c (look c id) p (fun x n => if n =? 0 then meaning h c x else meaning (S h) c x)%nat) with (h := 0%nat) (h' := 1%nat); auto.
  intros x [|n] [|n'] u Hn; cbn [Nat.eqb]; auto; lia.
Qed.

Lemma meaning_mono c id : mono (fun h => meaning h c id).
Proof. intros h h' v Hh H. induction Hh as [|h' Hh IH]; [assumption|now apply meaning_step]. Qed.

(** A meaning is found first at some depth. *)
Lemma meaning_least c id h v : meaning h c id = Some v ->
  exists d, (S d <= h)%nat /\ meaning (S d) c id = Some v /\ meaning d c id = None.
Proof.
  induction h as [|h IH]; intros H; [discriminate|]. destruct (meaning h c id) as [u|] eqn:E.
  - assert (u = v) as -> by (apply meaning_step in E; congruence). destruct (IH eq_refl) as (d & ? & ? & ?). exists d. auto.
  - exists h. auto.
Qed.

Lemma meaning_unique c id h h' v v' : meaning h c id = Some v -> meaning h' c id = Some v' -> v = v'.
Proof.
  intros H H'. apply (meaning_mono c id h (h + h')%nat) in H; [|lia]. apply (meaning_mono c id h' (h + h')%nat) in H'; [|lia]. congruence.
Qed.

(** ** Running the evaluator

    Tables that differ from [c0] only in their memo, whose entries are right. *)

Definition busy (k : constant) : Prop := state k <> 0 /\ state k <> 2.

Record good (c0 c : constants) : Prop := {
  g_bound : bound c = bound c0;
  g_spec : specialization c = specialization c0;
  g_static : forall id, instruction (look c id) = instruction (look c0 id) /\ spec_id (look c id) = spec_id (look c0 id) /\
    has_spec_id (look c id) = has_spec_id (look c0 id);
  g_memo : forall id, state (look c id) = 2 -> exists h, meaning h c0 id = Some (value (look c id)) }.

Definition same_busy (c c' : constants) : Prop := forall j, busy (look c' j) <-> busy (look c j).

(** No id under evaluation is needed within depth [h]. *)
Definition unblocked (c0 : constants) (h : nat) (c : constants) : Prop := forall j, busy (look c j) -> meaning h c0 j = None.

(** The step returns; what it returns has the meaning [t]; and it finds every meaning of depth at
    most [fuel] that no id under evaluation blocks. *)
Definition runs {A} (c0 : constants) (fuel : nat) (c : constants) (m : outcome (option A * constants)) (t : nat -> option A) : Prop :=
  exists r c', m = Ok (r, c') /\ good c0 c' /\
    (forall v, r = Some v -> (exists h, t h = Some v) /\ same_busy c c') /\
    (forall h v, t h = Some v -> (h <= fuel)%nat -> unblocked c0 h c -> r = Some v).

Lemma same_busy_trans c1 c2 c3 : same_busy c1 c2 -> same_busy c2 c3 -> same_busy c1 c3.
Proof. intros H1 H2 j. now rewrite (H2 j), (H1 j). Qed.

Lemma runs_ret {A} c0 fuel c (x : option A) : good c0 c -> runs c0 fuel c (Ok (x, c)) (fun _ => x).
Proof. intros H. exists x, c. split_and!; auto. intros v ->. split; [now exists 0%nat|now intros j]. Qed.

Lemma runs_bind {A B} c0 fuel c m (t : nat -> option A) (k : A -> constants -> outcome (option B * constants)) u :
  mono t -> (forall a, mono (u a)) -> runs c0 fuel c m t ->
  (forall a c', good c0 c' -> runs c0 fuel c' (k a c') (u a)) ->
  runs c0 fuel c (bind_some m k) (fun h => t h ≫= fun a => u a h).
Proof.
  intros Ht Hu (r & c1 & -> & G1 & S1 & C1) Hk. unfold bind_some. cbn [obind]. destruct r as [a|].
  - destruct (Hk a c1 G1) as (r & c2 & Hr & G2 & S2 & C2). destruct (S1 a eq_refl) as [(h1 & E1) B1].
    exists r, c2. split; [exact Hr|]. split; [exact G2|]. split.
    + intros v Hv. destruct (S2 v Hv) as [(h2 & E2) B2]. split; [|now apply (same_busy_trans c c1)].
      exists (h1 + h2)%nat. rewrite (Ht h1 _ a) by (lia || assumption). cbn. apply (Hu a h2); [lia|assumption].
    + intros h v Hv Hh Hub. destruct (t h) as [a'|] eqn:Ea; [|discriminate]. cbn in Hv.
      pose proof (C1 h a' Ea Hh Hub) as [= ->]. apply (C2 h v Hv Hh). intros j Hj. now apply Hub, B1.
  - exists None, c1. split_and!; auto; [discriminate|]. intros h v Hv Hh Hub.
    destruct (t h) as [a|] eqn:Ea; [|discriminate]. now specialize (C1 h a Ea Hh Hub).
Qed.

Lemma runs_ext {A} c0 fuel c m (t u : nat -> option A) : (forall h, u h = t h) -> runs c0 fuel c m t -> runs c0 fuel c m u.
Proof.
  intros E (r & c' & Hm & G & S & C). exists r, c'. split_and!; auto.
  - intros v Hv. destruct (S v Hv) as [(h & Hh) B]. split; [exists h; now rewrite E|assumption].
  - intros h v Hv. rewrite E in Hv. now apply C.
Qed.
Lemma update_look c id f : 0 <= id < bound c ->
  exists c', update c id f = Ok c' /\ bound c' = bound c /\ specialization c' = specialization c /\
    look c' id = f (look c id) /\ (forall j, j <> id -> look c' j = look c j).
Proof.
  intros H. unfold update. rewrite get_id_look by assumption. cbn [obind]. unfold set_id.
  rewrite (proj2 (Z.leb_le _ _)), (proj2 (Z.ltb_lt _ _)) by lia. cbn [andb]. eexists. split; [reflexivity|].
  split_and!; [reflexivity..| |]; unfold look; cbn [ids].
  - now rewrite lookup_insert_eq.
  - intros j Hj. now rewrite lookup_insert_ne by congruence.
Qed.

(** Changing state and value keeps a good table good, if a finished entry has its meaning. *)
Lemma good_update c0 c id f c' : good c0 c ->
  bound c' = bound c -> specialization c' = specialization c -> look c' id = f (look c id) ->
  (forall j, j <> id -> look c' j = look c j) ->
  (forall k, instruction (f k) = instruction k /\ spec_id (f k) = spec_id k /\ has_spec_id (f k) = has_spec_id k) ->
  (state (f (look c id)) = 2 -> exists h, meaning h c0 id = Some (value (f (look c id)))) -> good c0 c'.
Proof.
  intros [G1 G2 G3 G4] E1 E2 E3 E4 Hf Hv. constructor; [congruence|congruence| |].
  - intros j. destruct (Z.eq_dec j id) as [->|Hj]; [rewrite E3|rewrite (E4 j Hj); apply G3].
    destruct (Hf (look c id)) as (-> & -> & ->). apply G3.
  - intros j. destruct (Z.eq_dec j id) as [->|Hj]; [now rewrite E3|rewrite (E4 j Hj); apply G4].
Qed.

Section Evaluate.
Variable c0 : constants.
Hypothesis Hc0 : table_ok c0.

Lemma good_specialize c id op : good c0 c -> specialize c (look c id) op = specialize c0 (look c0 id) op.
Proof using. intros [_ G2 G3 _]. unfold specialize. destruct (G3 id) as (_ & -> & ->). now rewrite G2. Qed.

Lemma good_type c id : good c0 c -> scalar_type c id = scalar_type c0 id.
Proof using.
  intros [G1 _ G3 _]. unfold scalar_type, get_id. rewrite G1. fold (look c id) (look c0 id).
  destruct (_ || _); [reflexivity|]. destruct (_ && _); [|reflexivity]. cbn [obind]. now destruct (G3 id) as (-> & _).
Qed.

Lemma runs_operand fuel eval p i c :
  indexed_ok p -> 0 <= i -> good c0 c ->
  (forall c x, good c0 c -> 0 <= x -> runs c0 fuel c (eval c x) (fun h => meaning h c0 x)) ->
  runs c0 fuel c (operand eval p (count_of p) i c) (fun h => ref_operand (meaning h c0) p (Z.to_nat i)).
Proof using.
  intros Hp Hi G He. unfold operand, ref_operand. rewrite Z2Nat.id by assumption.
  destruct (Z.ltb_spec i (count_of p)); [|now apply runs_ret].
  destruct (word_rd p i Hp) as [-> Hw]; [lia|]. cbn [obind]. now apply He.
Qed.

Lemma mono_ref_operand p i : mono (fun h => ref_operand (meaning h c0) p i).
Proof using. apply (mono_operand (fun x h => meaning h c0 x)). intros x. apply meaning_mono. Qed.

Lemma runs_value fuel eval id p c c' :
  indexed_ok p -> good c0 c -> good c0 c' ->
  (forall c x, good c0 c -> 0 <= x -> runs c0 fuel c (eval c x) (fun h => meaning h c0 x)) ->
  runs c0 fuel c' (evaluate_value eval c' (look c id) p (op_of p) (count_of p))
    (fun h => ref_value c0 (meaning h c0) (look c0 id) p).
Proof using Hc0.
  intros Hp G G' He. unfold evaluate_value, ref_value.
  replace (specialize c' (look c id) (op_of p)) with (specialize c0 (look c0 id) (op_of p))
    by (rewrite <- (good_specialize c id _ G); unfold specialize; now rewrite (g_spec _ _ G), (g_spec _ _ G')).
  destruct (specialize_ok c0 (look c0 id) (op_of p) (tb_info _ Hc0)) as ([| |v] & ->); cbn [obind]; try now apply runs_ret.
  destruct (_ || _); [now apply runs_ret|]. destruct (_ || _ || _); [now apply runs_ret|].
  destruct (_ || _).
  { destruct (Z.eqb_spec (count_of p) 4) as [E|]; cbn [negb]; [|now apply runs_ret].
    destruct (word_rd p 3 Hp) as [-> _]; [lia|]. cbn [obind]. now apply runs_ret. }
  destruct (op_of p =? 52); [|now apply runs_ret].
  unfold evaluate_op, ref_op. destruct (Z.ltb_spec (count_of p) 5); [now apply runs_ret|].
  destruct (word_rd p 3 Hp) as [H3 _]; [lia|].
  apply runs_bind with (u := fun a h => _); [apply mono_ref_operand| |now apply (runs_operand fuel eval p 4)|].
  { intros a. apply (mono_bind _ (fun b h => _)); [apply mono_ref_operand|]. intros b.
    apply (mono_bind _ (fun d h => _)); [apply mono_ref_operand|]. intros d. apply mono_const. }
  intros a c1 G1. apply runs_bind with (u := fun a h => _); [apply mono_ref_operand| |now apply (runs_operand fuel eval p 5)|].
  { intros b. apply (mono_bind _ (fun d h => _)); [apply mono_ref_operand|]. intros d. apply mono_const. }
  intros b c2 G2. apply runs_bind with (u := fun a h => _); [apply mono_ref_operand|intros d; apply mono_const|now apply (runs_operand fuel eval p 6)|].
  intros d c3 G3. rewrite H3. cbn [obind]. change (Z.to_nat 3) with 3%nat. destruct (count_of p =? _); now apply runs_ret.
Qed.

(** The frame of [evaluate]: an id not yet evaluated is marked, its value computed, and the memo filled. *)
Lemma runs_marked fuel id p c :
  good c0 c -> 0 <= id < bound c -> id <> 0 -> instruction (look c0 id) = Some p -> state (look c id) = 0 ->
  ((count_of p <? 3) || (type_of c0 (word p 1) =? 0)) = false ->
  (forall c x, good c0 c -> 0 <= x -> runs c0 fuel c (evaluate fuel c x) (fun h => meaning h c0 x)) ->
  runs c0 (S fuel) c
    (let! c' := update c id (set_state 1) in
     bind_some (evaluate_value (evaluate fuel) c' (look c id) p (op_of p) (count_of p)) (fun result c =>
     let! c := update c id (fun k => set_state 2 (set_value result k)) in Ok (Some result, c)))
    (fun h => meaning h c0 id).
Proof using Hc0.
  intros G Hid Hn0 Ei Est Ew IH. destruct (tb_ids _ Hc0 id p Ei) as [_ Hp].
  assert (forall h, meaning (S h) c0 id = ref_value c0 (meaning h c0) (look c0 id) p) as Em
    by (intros h; cbn [meaning]; now rewrite (proj2 (Z.eqb_neq _ _) Hn0), Ei, Ew).
  destruct (update_look c id (set_state 1) Hid) as (c1 & -> & B1 & S1 & L1 & O1). cbn [obind].
  assert (good c0 c1) as G1.
  { apply (good_update c0 c id (set_state 1) c1); auto. cbn. discriminate. }
  destruct (runs_value fuel (evaluate fuel) id p c c1 Hp G G1 IH) as (r & c2 & -> & G2 & Snd & Cpl).
  unfold bind_some. cbn [obind].
  assert (forall h v, meaning h c0 id = Some v -> (h <= S fuel)%nat -> unblocked c0 h c -> r = Some v) as C.
  { intros h v Hv Hh Hub. destruct (meaning_least c0 id h v Hv) as (d & Hd & Hs & Hn).
    apply (Cpl d v); [now rewrite <- Em|lia|]. intros j Hj. destruct (Z.eq_dec j id) as [->|Hne]; [assumption|].
    rewrite (O1 j Hne) in Hj. specialize (Hub j Hj). destruct (meaning d c0 j) as [u|] eqn:E; [|reflexivity].
    rewrite (meaning_mono c0 j d h u) in Hub by (lia || assumption). discriminate. }
  destruct r as [v|].
  - destruct (Snd v eq_refl) as [(h & Ev) B2].
    destruct (update_look c2 id (fun k => set_state 2 (set_value v k))) as (c3 & -> & B3 & S3 & L3 & O3).
    { rewrite (g_bound _ _ G2), <- (g_bound _ _ G). exact Hid. }
    cbn [obind]. exists (Some v), c3. split; [reflexivity|]. split; [|split; [|exact C]].
    + apply (good_update c0 c2 id (fun k => set_state 2 (set_value v k)) c3 G2 B3 S3 L3 O3); [done|]. intros _. cbn [set_state set_value value].
      exists (S h). now rewrite Em.
    + intros u [= <-]. split; [exists (S h); now rewrite Em|]. intros j. destruct (Z.eq_dec j id) as [->|Hne].
      * rewrite L3. unfold busy. rewrite Est. cbn. tauto.
      * rewrite (O3 j Hne), (B2 j), (O1 j Hne). reflexivity.
  - exists None, c2. split; [reflexivity|]. split; [exact G2|]. split; [discriminate|exact C].
Qed.

(** An id that has no meaning at any depth. *)
Lemma runs_none fuel c id : good c0 c -> (forall h, meaning h c0 id = None) ->
  runs c0 fuel c (Ok (None, c)) (fun h => meaning h c0 id).
Proof using. intros G H. apply (runs_ext _ _ _ _ (fun _ => None)); [exact H|now apply runs_ret]. Qed.

Lemma meaning_dead id :
  match instruction (look c0 id) with
  | Some p => ((count_of p <? 3) || (type_of c0 (word p 1) =? 0)) = true
  | None => True
  end -> forall h, meaning h c0 id = None.
Proof using. intros H [|h]; [reflexivity|]. cbn [meaning]. destruct (id =? 0); [reflexivity|]. destruct (instruction (look c0 id)); [now rewrite H|reflexivity]. Qed.

Lemma runs_evaluate fuel : forall c id, good c0 c -> 0 <= id ->
  runs c0 fuel c (evaluate fuel c id) (fun h => meaning h c0 id).
Proof using Hc0.
  induction fuel as [|fuel IH]; intros c id G Hid.
  { exists None, c. split_and!; auto; [discriminate|]. intros [|h] v Hv Hh; [discriminate|lia]. }
  cbn [evaluate]. rewrite (g_bound _ _ G).
  destruct (Z.eqb_spec id 0) as [->|Hn0]; cbn [orb].
  { apply runs_none; [assumption|]. now intros []. }
  destruct (Z.leb_spec (bound c0) id) as [Hb|Hb].
  { apply runs_none; [assumption|]. apply meaning_dead. destruct (instruction (look c0 id)) as [p|] eqn:E; [|exact I].
    destruct (tb_ids _ Hc0 id p E). lia. }
  pose proof (g_bound _ _ G) as Eb. rewrite get_id_look by lia. cbn [obind]. destruct (g_static _ _ G id) as (Ei & _ & _). rewrite Ei.
  destruct (instruction (look c0 id)) as [p|] eqn:E; [|apply runs_none; [assumption|apply meaning_dead; now rewrite E]].
  destruct (tb_ids _ Hc0 id p E) as [_ Hp]. pose proof (ix_count _ Hp).
  destruct (word_rd p 0 Hp) as [-> _]; [lia|]. cbn [obind]. change (Z.to_nat 0) with 0%nat. fold (count_of p) (op_of p).
  destruct (count_of p <? 3) eqn:E3; [apply runs_none; [assumption|apply meaning_dead; now rewrite E, E3]|].
  destruct (word_rd p 1 Hp) as [-> Hw1]; [lia|]. cbn [obind]. change (Z.to_nat 1) with 1%nat.
  rewrite (good_type _ _ G), scalar_type_ok by assumption. cbn [obind].
  destruct (type_of c0 (word p 1) =? 0) eqn:Et; [apply runs_none; [assumption|apply meaning_dead; now rewrite E, E3, Et]|].
  destruct (Z.eqb_spec (state (look c id)) 2) as [E2|E2].
  { destruct (g_memo _ _ G id E2) as (h & Hh). exists (Some (value (look c id))), c. split; [reflexivity|]. split; [assumption|]. split.
    - intros v [= <-]. split; [eauto|now intros j].
    - intros h' v Hv _ _. f_equal. now apply (meaning_unique c0 id h h'). }
  destruct (Z.eqb_spec (state (look c id)) 0) as [E0|E0]; cbn [negb].
  2:{ exists None, c. split; [reflexivity|]. split; [assumption|]. split; [discriminate|].
      intros h v Hv _ Hub. now rewrite (Hub id) in Hv. }
  apply runs_marked; auto; [lia|now rewrite E3, Et].
Qed.
End Evaluate.

(** ** Indexing *)

(** What [hybris_spirv_constants_create] builds: complete entries that define their ids, nothing evaluated. *)
Record fresh_table (code : list Z) (c : constants) : Prop := {
  ft_ok : table_ok c;
  ft_state : forall id, state (look c id) = 0;
  ft_names : forall id p, instruction (look c id) = Some p -> names code id p }.

Definition indexes (code : list Z) (c : constants) (m : outcome (option constants)) : Prop :=
  exists r, m = Ok r /\ forall c', r = Some c' -> fresh_table code c' /\ bound c' = bound c /\ specialization c' = specialization c.

Lemma indexes_fail code c : indexes code c (Ok None).
Proof. now exists None. Qed.

Lemma update_fresh code c id f : fresh_table code c -> 0 <= id < bound c ->
  (forall k, state (f k) = state k /\
    forall p, instruction (f k) = Some p -> instruction k = Some p \/ indexed_ok p /\ names code id p) ->
  indexes code c (let! c := update c id f in Ok (Some c)).
Proof.
  intros [[T1 T2] Hs Hn] Hid Hf. destruct (update_look c id f Hid) as (c' & -> & B & S & L & O). cbn [obind].
  exists (Some c'). split; [reflexivity|]. intros ? [= <-]. split; [|now split].
  assert (forall j p, instruction (look c' j) = Some p -> instruction (look c j) = Some p \/ j = id /\ indexed_ok p /\ names code id p) as Hi.
  { intros j p. destruct (Z.eq_dec j id) as [->|Hj]; [|rewrite (O j Hj); auto]. rewrite L. intros E.
    destruct (proj2 (Hf (look c id)) p E); auto. }
  constructor; [constructor| |].
  - congruence.
  - rewrite B. intros j p E. destruct (Hi j p E) as [E'|(-> & ? & _)]; [now apply T2|auto].
  - intros j. destruct (Z.eq_dec j id) as [->|Hj]; [rewrite L|now rewrite (O j Hj)]. rewrite (proj1 (Hf _)). apply Hs.
  - intros j p E. destruct (Hi j p E) as [E'|(-> & _ & ?)]; [now apply Hn|assumption].
Qed.

Lemma suffix_rd p i : Forall (in_range 32) p -> 0 <= i < Z.of_nat (length p) ->
  rd p i = Ok (word p (Z.to_nat i)) /\ 0 <= word p (Z.to_nat i).
Proof.
  intros Hw Hi. destruct (rd_ok p i Hi) as (x & -> & Hx). unfold word. rewrite (nth_lookup_Some _ _ 0 x Hx).
  split; [reflexivity|]. rewrite Forall_lookup in Hw. now destruct (Hw _ _ Hx).
Qed.

Lemma index_instruction_ok code c p :
  fresh_table code c -> p `suffix_of` code -> Forall (in_range 32) p -> 1 <= count_of p <= Z.of_nat (length p) ->
  indexes code c (index_instruction c p (op_of p) (count_of p)).
Proof.
  intros F Hs Hw Hc. unfold index_instruction.
  destruct ((op_of p =? 20) || (op_of p =? 21)) eqn:E.
  { destruct (Z.eqb_spec (count_of p) (if op_of p =? 20 then 2 else 4)) as [Ec|]; cbn [negb]; [|apply indexes_fail].
    destruct (suffix_rd p 1 Hw) as [-> H1]; [destruct (op_of p =? 20); lia|]. cbn [obind].
    destruct (Z.leb_spec (bound c) (word p (Z.to_nat 1))); [apply indexes_fail|].
    apply update_fresh; [assumption|lia|]. intros k. split; [reflexivity|]. intros q [= <-]. right.
    apply orb_prop in E. split; [constructor; [assumption|destruct (op_of p =? 20); lia|]|].
    - intros E21. rewrite E21 in Ec. cbn in Ec. lia.
    - split; [assumption|]. left. split; [|reflexivity]. destruct E as [E|E]; apply Z.eqb_eq in E; auto. }
  apply orb_false_elim in E as [_ E21]. apply Z.eqb_neq in E21.
  destruct ((41 <=? op_of p) && (op_of p <=? 52)) eqn:E.
  { apply andb_prop in E as [E1 E2]. apply Z.leb_le in E1, E2.
    destruct (Z.ltb_spec (count_of p) 3); [apply indexes_fail|].
    destruct (suffix_rd p 1 Hw) as [-> H1]; [lia|]. cbn [obind].
    destruct (Z.leb_spec (bound c) (word p (Z.to_nat 1))); [apply indexes_fail|].
    destruct (suffix_rd p 2 Hw) as [-> H2]; [lia|]. cbn [obind].
    destruct (Z.leb_spec (bound c) (word p (Z.to_nat 2))); [apply indexes_fail|].
    apply update_fresh; [assumption|lia|]. intros k. split; [reflexivity|]. intros q [= <-]. right.
    split; [constructor; [assumption|lia|lia]|]. split; [assumption|]. right. split; [lia|reflexivity]. }
  assert (indexes code c (Ok (Some c))) as Hid by (exists (Some c); split; [reflexivity|]; now intros ? [= <-]).
  destruct (Z.eqb_spec (op_of p) 71); [|exact Hid]. destruct (Z.leb_spec 3 (count_of p)); [|exact Hid]. cbn [andb].
  destruct (suffix_rd p 2 Hw) as [-> _]; [lia|]. cbn [obind]. destruct (_ =? 1); [|exact Hid].
  destruct (Z.eqb_spec (count_of p) 4); cbn [negb]; [|apply indexes_fail].
  destruct (suffix_rd p 1 Hw) as [-> H1]; [lia|]. cbn [obind].
  destruct (Z.leb_spec (bound c) (word p (Z.to_nat 1))); [apply indexes_fail|].
  destruct (suffix_rd p 3 Hw) as [-> _]; [lia|]. cbn [obind].
  apply update_fresh; [assumption|lia|]. intros k. split; [reflexivity|]. now left.
Qed.

Lemma index_loop_ok fuel : forall code words at_ c,
  Forall (in_range 32) code -> 0 <= at_ <= words -> words <= Z.of_nat (length code) -> words - at_ < Z.of_nat fuel ->
  fresh_table code c -> indexes code c (index_loop fuel code words at_ c).
Proof.
  induction fuel as [|fuel IH]; intros code words at_ c Hw H0 Hl Hf F; [lia|]. cbn [index_loop].
  destruct (Z.ltb_spec at_ words).
  2:{ exists (Some c). split; [reflexivity|]. now intros ? [= <-]. }
  set (p := drop (Z.to_nat at_) code).
  assert (p `suffix_of` code) as Hs by (exists (take (Z.to_nat at_) code); symmetry; apply take_drop).
  assert (Forall (in_range 32) p) as Hp by now apply Forall_drop.
  assert (Z.of_nat (length p) = Z.of_nat (length code) - at_) as Lp by (unfold p; rewrite length_drop; lia).
  destruct (suffix_rd p 0 Hp) as [-> Hp0]; [lia|]. cbn [obind]. change (Z.to_nat 0) with 0%nat. fold (count_of p) (op_of p).
  destruct (Z.eqb_spec (count_of p) 0); cbn [orb]; [apply indexes_fail|].
  assert (0 <= count_of p) by now apply Z.shiftr_nonneg.
  destruct (Z.ltb_spec (words - at_) (count_of p)); [apply indexes_fail|].
  destruct (index_instruction_ok code c p F Hs Hp) as (r & -> & Hr); [lia|]. cbn [obind].
  destruct r as [c1|]; [|apply indexes_fail]. destruct (Hr c1 eq_refl) as (F1 & B1 & S1).
  destruct (IH code words (at_ + count_of p) c1) as (r & -> & Hr1); [assumption|lia|lia|lia|assumption|].
  exists r. split; [reflexivity|]. intros c2 E. destruct (Hr1 c2 E) as (F2 & B2 & S2). split; [assumption|]. split; congruence.
Qed.

Lemma create_ok alloc code size spec :
  Forall (in_range 32) code -> size <= 4 * Z.of_nat (length code) -> info_ok spec ->
  exists res oc, hybris_spirv_constants_create alloc code size spec = Ok (res, oc) /\
    (oc = None <-> res <> VK_SUCCESS) /\ forall c, oc = Some c -> fresh_table code c /\ specialization c = spec.
Proof.
  intros Hw Hl Hi. unfold hybris_spirv_constants_create.
  destruct (Z.ltb_spec size 20); cbn [orb]; [do 2 eexists; split; [reflexivity|]; now split|].
  destruct (Z.eqb_spec (size mod 4) 0) as [E4|]; cbn [negb]; [|do 2 eexists; split; [reflexivity|]; now split].
  pose proof (Z.div_mod size 4 ltac:(lia)) as Eq.
  destruct (rd_ok code 0) as (x & -> & _); [lia|]. cbn [obind].
  destruct (negb _); [do 2 eexists; split; [reflexivity|]; now split|].
  destruct (rd_ok code 3) as (b & -> & Hb); [lia|]. cbn [obind].
  destruct (b =? 0); [do 2 eexists; split; [reflexivity|]; now split|].
  destruct (_ <? 24); [do 2 eexists; split; [reflexivity|]; now split|].
  destruct alloc; cbn [negb]; [|do 2 eexists; split; [reflexivity|]; now split].
  destruct (index_loop_ok (S (Z.to_nat (size / 4))) code (size / 4) 5 (Constants b spec ∅)) as (r & -> & Hr); try lia; auto.
  { constructor; [constructor; [exact Hi|]|reflexivity|]; intros id p; unfold look; cbn [ids]; now rewrite lookup_empty. }
  cbn [obind]. destruct r as [c|]; do 2 eexists; (split; [reflexivity|]); split; try done.
  intros ? [= <-]. destruct (Hr c eq_refl) as (F & _ & E). auto.
Qed.

(** ** Queries *)

(** Tables reached from [c0] by queries; the flag says that every query so far succeeded. *)
Inductive queried (c0 : constants) : bool -> constants -> Prop :=
| queried_none : queried c0 true c0
| queried_next b c id r c' : queried c0 b c -> 0 <= id -> hybris_spirv_constant_u32 c id = Ok (r, c') ->
    queried c0 (b && bool_decide (is_Some r)) c'.

Lemma query_runs c0 c id : table_ok c0 -> good c0 c -> 0 <= id ->
  runs c0 65 c (hybris_spirv_constant_u32 c id)
    (fun h => v ← meaning h c0 id; p ← instruction (look c0 id);
              if type_of c0 (word p 1) <? 2 then None else Some (v, type_of c0 (word p 1) =? 3)).
Proof.
  intros Hc G Hid. unfold hybris_spirv_constant_u32. rewrite (g_bound _ _ G).
  destruct (Z.eqb_spec id 0) as [->|Hn0]; cbn [orb].
  { apply (runs_ext _ _ _ _ (fun _ => None)); [now intros []|now apply runs_ret]. }
  destruct (Z.leb_spec (bound c0) id).
  { apply (runs_ext _ _ _ _ (fun _ => None)); [|now apply runs_ret]. intros h. destruct (meaning h c0 id); [|reflexivity].
    cbn [mbind option_bind]. destruct (instruction (look c0 id)) as [p|] eqn:E; [|reflexivity]. destruct (tb_ids _ Hc id p E). lia. }
  pose proof (g_bound _ _ G). rewrite get_id_look by lia. cbn [obind]. destruct (g_static _ _ G id) as (-> & _ & _).
  destruct (instruction (look c0 id)) as [p|] eqn:E.
  2:{ apply (runs_ext _ _ _ _ (fun _ => None)); [|now apply runs_ret]. intros h. now destruct (meaning h c0 id). }
  destruct (tb_ids _ Hc id p E) as [_ Hp]. pose proof (ix_count _ Hp). destruct (word_rd p 1 Hp) as [-> Hw]; [lia|]. cbn [obind].
  rewrite (good_type _ _ _ G), scalar_type_ok by assumption. cbn [obind]. change (Z.to_nat 1) with 1%nat.
  destruct (type_of c0 (word p 1) <? 2) eqn:Et.
  { apply (runs_ext _ _ _ _ (fun _ => None)); [|now apply runs_ret]. intros h. destruct (meaning h c0 id); [cbn [mbind option_bind]; now rewrite Et|reflexivity]. }
  destruct (runs_evaluate c0 Hc 65 c id G Hid) as (r & c' & -> & G' & S & C). cbn [obind].
  eexists _, c'. split; [reflexivity|]. split; [assumption|]. split.
  - intros v Hv. destruct r as [x|]; [|discriminate]. injection Hv as <-. destruct (S x eq_refl) as [(h & Hh) B].
    split; [|assumption]. exists h. rewrite Hh. cbn [mbind option_bind]. now rewrite Et.
  - intros h v Hv Hh Hub. destruct (meaning h c0 id) as [x|] eqn:Ex; [|discriminate]. cbn [mbind option_bind] in Hv.
    rewrite Et in Hv. rewrite (C h x Ex Hh Hub). exact Hv.
Qed.

Lemma queried_good c0 b c : table_ok c0 -> (forall id, state (look c0 id) = 0) -> queried c0 b c ->
  good c0 c /\ (b = true -> forall j, ~ busy (look c j)).
Proof.
  intros Hc Hs H. induction H as [|b c id r c' H [G IH] Hid E].
  - split; [|intros _ j [Hj _]; now apply Hj]. constructor; auto. intros j E. now rewrite Hs in E.
  - destruct (query_runs c0 c id Hc G Hid) as (r' & c'' & E' & G' & S & _). rewrite E in E'. injection E' as <- <-.
    split; [assumption|]. intros [-> Hr]%andb_prop j. apply bool_decide_eq_true in Hr as (v & Hv).
    destruct (S v Hv) as [_ B]. rewrite (B j). now apply IH.
Qed.

(** C35: constant evaluation.  [hybris_spirv_constants_create] reads only the module's bytes and, on
    success, every sequence of [hybris_spirv_constant_u32] queries on its table returns without an
    invalid access; an answer is the constant's value by the memo-free definition with the signedness
    of its type, whatever was asked before; and as long as every query has succeeded, every 32-bit
    integer constant whose operands nest at most 64 deep is answered. *)
Theorem constants_evaluate alloc code size spec :
  Forall (in_range 32) code -> size <= 4 * Z.of_nat (length code) -> info_ok spec ->
  exists res oc, hybris_spirv_constants_create alloc code size spec = Ok (res, oc) /\ (oc = None <-> res <> VK_SUCCESS) /\
    forall c0 b c id, oc = Some c0 -> queried c0 b c -> 0 <= id ->
    exists r c', hybris_spirv_constant_u32 c id = Ok (r, c') /\
      (forall v s, r = Some (v, s) -> exists h p, meaning h c0 id = Some v /\
         instruction (look c0 id) = Some p /\ names code id p /\ type_of c0 (word p 1) = if s then 3 else 2) /\
      (forall v p, b = true -> meaning 65 c0 id = Some v -> instruction (look c0 id) = Some p ->
         2 <= type_of c0 (word p 1) -> r = Some (v, type_of c0 (word p 1) =? 3)).
Proof.
  intros Hw Hl Hi. destruct (create_ok alloc code size spec Hw Hl Hi) as (res & oc & E & Hres & Hoc).
  exists res, oc. split; [assumption|]. split; [assumption|]. intros c0 b c id -> Hq Hid.
  destruct (Hoc c0 eq_refl) as [[Hc Hs Hn] _]. destruct (queried_good c0 b c Hc Hs Hq) as [G Hb].
  destruct (query_runs c0 c id Hc G Hid) as (r & c' & Er & _ & S & C). exists r, c'. split; [assumption|]. split.
  - intros v s ->. destruct (S (v, s) eq_refl) as [(h & Hh) _].
    destruct (meaning h c0 id) as [x|] eqn:Ex; [|discriminate].
    destruct (instruction (look c0 id)) as [p|] eqn:Ep; [|discriminate]. cbn [mbind option_bind] in Hh.
    pose proof (type_of_range c0 (word p 1)). destruct (Z.ltb_spec (type_of c0 (word p 1)) 2); [discriminate|].
    injection Hh as -> <-. exists h, p. split_and!; auto. destruct (Z.eqb_spec (type_of c0 (word p 1)) 3); lia.
  - intros v p Eb Hm Hp Ht. apply (C 65%nat); [|lia|intros j Hj; now destruct (Hb Eb j)].
    rewrite Hm, Hp. cbn [mbind option_bind]. now rewrite (proj2 (Z.ltb_ge _ _)).
Qed.
Definition sample_code : list Z :=
  [0x07230203; 0x10000; 0; 9; 0; 0x40047; 3; 1; 7; 0x40015; 1; 32; 1; 0x40032; 1; 3; 10; 0x4002b; 1; 4; 0xfffffffd;
   0x60034; 1; 5; 139; 3; 4; 0x60034; 1; 6; 132; 5; 5].
Definition sample_info : specialization_info := SpecializationInfo 1 (Some [MapEntry 7 2 4]) 6 (Some [9; 9; 20; 0; 0; 0]).

Lemma constants_evaluate_witness :
  Forall (in_range 32) sample_code /\
  exists res oc, hybris_spirv_constants_create true sample_code 132 (Some sample_info) = Ok (res, oc) /\ (oc = None <-> res <> VK_SUCCESS) /\
    forall c0 b c id, oc = Some c0 -> queried c0 b c -> 0 <= id ->
    exists r c', hybris_spirv_constant_u32 c id = Ok (r, c') /\
      (forall v s, r = Some (v, s) -> exists h p, meaning h c0 id = Some v /\
         instruction (look c0 id) = Some p /\ names sample_code id p /\ type_of c0 (word p 1) = if s then 3 else 2) /\
      (forall v p, b = true -> meaning 65 c0 id = Some v -> instruction (look c0 id) = Some p ->
         2 <= type_of c0 (word p 1) -> r = Some (v, type_of c0 (word p 1) =? 3)).
Proof.
  assert (Forall (in_range 32) sample_code) as H
    by (unfold sample_code; repeat (apply List.Forall_cons; [unfold in_range; lia|]); apply List.Forall_nil).
  split; [exact H|]. apply (constants_evaluate true sample_code 132 (Some sample_info)); [exact H|cbn; lia|].
  split; [intros l [= <-]|intros d [= <-]]; cbn; [|lia]. split; [lia|]. repeat constructor; cbn; lia.
Defined.

(** The specialized 20 SMod -3 squared. *)
Example sample_value :
  match hybris_spirv_constants_create true sample_code 132 (Some sample_info) with
  | Ok (_, Some c) => obind (hybris_spirv_constant_u32 c 6) (fun r => Ok (fst r))
  | _ => Undef
  end = Ok (Some (1, true)).
Proof. vm_compute. reflexivity. Qed.

(** ** The operations *)

Lemma bit_range b : in_range 32 (b2z b).
Proof. destruct b; unfold in_range, b2z; lia. Qed.

Lemma operate_range o a b d v :
  in_range 32 a -> in_range 32 b -> in_range 32 d -> operate o a b d = Some v -> in_range 32 v.
Proof.
  intros Ha Hb Hd. unfold operate. destruct o as [|p|p]; try discriminate.
  do 8 (try (destruct p as [p|p|]; try discriminate));
    repeat match goal with |- context [if ?x then _ else _] => destruct x eqn:? end; intros E; try discriminate E; injection E as <-;
    auto using bit_range with hybris; unfold in_range in *; try lia.
  all: try (split; [apply Z.div_pos; lia|apply Z.div_lt_upper_bound; nia]).
  all: try (pose proof (Z.mod_pos_bound a b); lia).
  all: try (apply (wrap_range 32); lia).
  all: try (apply (shiftr_range 32); unfold in_range; lia).
  all: try (apply (lor_range 32); unfold in_range; try lia; [apply (shiftr_range 32); unfold in_range; lia|apply (wrap_range 32); lia]).
  all: first [apply (land_range 32)|apply (lor_range 32)|apply (lxor_range 32)]; unfold in_range; lia.
Qed.

Lemma signed_cases a : in_range 32 a ->
  a < 2 ^ 31 /\ to_signed 32 a = a \/ 2 ^ 31 <= a /\ to_signed 32 a = a - 2 ^ 32.
Proof.
  intros Ha. unfold to_signed. rewrite wrap_small by assumption. change (2 ^ (32 - 1)) with (2 ^ 31).
  destruct (Z.ltb_spec a (2 ^ 31)); [left|right]; lia.
Qed.

(** A word read back as signed. *)
Lemma signed_word x : - 2 ^ 31 <= x < 2 ^ 31 -> to_signed 32 (u32 x) = x.
Proof. intros H. unfold to_signed. rewrite wrap_idem. change (to_signed 32 x = x). now apply to_signed_id. Qed.

Lemma sign_bit a : in_range 32 a -> (Z.land a 0x80000000 =? 0) = (a <? 2 ^ 31).
Proof.
  intros Ha. change 0x80000000 with (2 ^ 31). destruct (Z.ltb_spec a (2 ^ 31)) as [H|H].
  - apply Z.eqb_eq, Z.bits_inj'. intros i Hi. rewrite Z.land_spec, Z.bits_0, Z.pow2_bits_eqb by lia.
    destruct (Z.eqb_spec 31 i) as [<-|]; [|now rewrite andb_false_r]. rewrite (testbit_high 31); [reflexivity|lia| |lia].
    unfold in_range in *. lia.
  - apply Z.eqb_neq. intros E. apply (f_equal (fun z => Z.testbit z 31)) in E.
    rewrite Z.land_spec, Z.bits_0, Z.pow2_bits_true, andb_true_r in E by lia. apply Z.testbit_false in E; [|lia].
    assert (a / 2 ^ 31 = 1) as E1 by (symmetry; apply (Z.div_unique_pos a (2 ^ 31) 1 (a - 2 ^ 31)); unfold in_range in *; lia).
    rewrite E1 in E. discriminate.
Qed.

(** The emulated arithmetic right shift. *)
Lemma arithmetic_shift a b d : in_range 32 a -> 0 <= b < 32 -> operate 195 a b d = Some (u32 (Z.shiftr (to_signed 32 a) b)).
Proof.
  intros Ha Hb. cbn [operate]. rewrite (proj2 (Z.leb_gt _ _)) by lia. f_equal. rewrite sign_bit by assumption.
  pose proof (shiftr_range 32 a b ltac:(lia) ltac:(lia) Ha) as Hs.
  destruct (signed_cases a Ha) as [[H ->]|[H ->]].
  { rewrite (proj2 (Z.ltb_lt _ _)) by assumption. cbn [negb]. rewrite andb_false_r. now rewrite wrap_small. }
  rewrite (proj2 (Z.ltb_ge _ _)) by assumption. cbn [negb]. rewrite andb_true_r.
  assert (2 ^ 32 = 2 ^ b * 2 ^ (32 - b)) as Ep by (rewrite <- Z.pow_add_r by lia; f_equal; lia).
  assert (0 < 2 ^ (32 - b)) by (apply Z.pow_pos_nonneg; lia). assert (0 < 2 ^ b) by (apply Z.pow_pos_nonneg; lia).
  assert (Z.shiftr a b < 2 ^ (32 - b)) as Hlt
    by (rewrite Z.shiftr_div_pow2 by lia; apply Z.div_lt_upper_bound; unfold in_range in Ha; lia).
  assert (Z.shiftr (a - 2 ^ 32) b = Z.shiftr a b - 2 ^ (32 - b)) as Es.
  { rewrite !Z.shiftr_div_pow2 by lia. rewrite Ep at 1.
    replace (a - 2 ^ b * 2 ^ (32 - b)) with (a + - 2 ^ (32 - b) * 2 ^ b) by lia. rewrite Z.div_add by lia. lia. }
  rewrite Es. destruct (Z.eqb_spec b 0) as [->|Hn0]; cbn [negb].
  { rewrite Z.shiftr_0_r in *. unfold wrap. apply (Z.mod_unique_pos _ _ (-1)); unfold in_range in Ha; lia. }
  replace (u32 (Z.shiftl (2 ^ 32 - 1) (32 - b))) with (Z.shiftl (2 ^ b - 1) (32 - b)).
  - rewrite lor_shift by (unfold in_range in *; lia). unfold wrap. apply (Z.mod_unique_pos _ _ (-1)); unfold in_range in *; nia.
  - rewrite !Z.shiftl_mul_pow2 by lia. unfold wrap. apply (Z.mod_unique_pos _ _ (2 ^ (32 - b) - 1)); nia.
Qed.

(** Truncated division and remainder stay in range. *)
Lemma quot_range a b : - 2 ^ 31 <= a < 2 ^ 31 -> - 2 ^ 31 <= b < 2 ^ 31 -> b <> 0 -> ~ (a = - 2 ^ 31 /\ b = -1) ->
  - 2 ^ 31 <= Z.quot a b < 2 ^ 31.
Proof.
  intros Ha Hb Hn Ho. pose proof (Z.quot_rem' a b) as E. pose proof (Z.rem_bound_abs a b Hn) as Hr.
  pose proof (Z.quot_abs a b Hn) as Hq. destruct (Z.eq_dec (Z.abs b) 1) as [E1|E1].
  - assert (b = 1 \/ b = -1) as [->| ->] by lia; [rewrite Z.quot_1_r; lia|]. rewrite <- (Z.opp_involutive (Z.quot a (-1))).
    rewrite <- Z.quot_opp_r by lia. rewrite Z.quot_1_r. lia.
  - assert (Z.abs (Z.quot a b) <= 2 ^ 30); [|lia]. rewrite <- Hq.
    assert (Z.quot (Z.abs a) (Z.abs b) <= Z.quot (Z.abs a) 2) by (apply Z.quot_le_compat_l; lia).
    assert (Z.quot (Z.abs a) 2 <= Z.quot (2 ^ 31) 2) by (apply Z.quot_le_mono; lia). change (Z.quot (2 ^ 31) 2) with (2 ^ 30) in *. lia.
Qed.

(** The corrected remainder is the remainder of the floored division. *)
Lemma floored_remainder a b : b <> 0 ->
  let r := Z.rem a b in
  (if negb (r =? 0) && negb (Bool.eqb (r <? 0) (b <? 0)) then r + b else r) = a mod b.
Proof.
  intros Hn r. pose proof (Z.quot_rem' a b) as E. pose proof (Z.rem_bound_abs a b Hn) as Hr. fold r in E, Hr.
  destruct (Z.eqb_spec r 0) as [E0|E0]; cbn [negb andb].
  { apply (Z.mod_unique a b (Z.quot a b) r); [|lia]. destruct (Z.lt_ge_cases b 0); [right|left]; lia. }
  destruct (Z.ltb_spec r 0), (Z.ltb_spec b 0); cbn [Bool.eqb negb].
  - apply (Z.mod_unique a b (Z.quot a b) r); [right; lia|lia].
  - apply (Z.mod_unique a b (Z.quot a b - 1) (r + b)); [left; lia|lia].
  - apply (Z.mod_unique a b (Z.quot a b - 1) (r + b)); [right; lia|lia].
  - apply (Z.mod_unique a b (Z.quot a b) r); [left; lia|lia].
Qed.

Lemma wrap_congr x y k : x = y + k * 2 ^ 32 -> u32 x = u32 y.
Proof. intros ->. unfold wrap. apply Z.mod_add. lia. Qed.

(** The specialization operations are 32-bit two's complement arithmetic: every result is a
    32-bit word; negation, addition, subtraction and multiplication agree with the signed reading
    modulo 2^32; SDiv, SRem and SMod read back as the truncated quotient, its remainder and the
    remainder of the floored division, and fail exactly on a zero divisor (SDiv also on
    INT32_MIN / -1); the emulated arithmetic shift reads back as the signed shift. *)
Theorem operations_signed a b d :
  in_range 32 a -> in_range 32 b -> in_range 32 d ->
  let sa := to_signed 32 a in
  let sb := to_signed 32 b in
  (forall o v, operate o a b d = Some v -> in_range 32 v) /\
  operate 126 a b d = Some (u32 (- sa)) /\ operate 128 a b d = Some (u32 (sa + sb)) /\
  operate 130 a b d = Some (u32 (sa - sb)) /\ operate 132 a b d = Some (u32 (sa * sb)) /\
  to_signed 32 <$> operate 200 a b d = Some (Z.lnot sa) /\
  (sb = 0 \/ sa = - 2 ^ 31 /\ sb = -1 -> operate 135 a b d = None) /\
  (sb <> 0 -> ~ (sa = - 2 ^ 31 /\ sb = -1) -> to_signed 32 <$> operate 135 a b d = Some (Z.quot sa sb)) /\
  (sb <> 0 -> to_signed 32 <$> operate 138 a b d = Some (Z.rem sa sb)) /\
  (sb <> 0 -> to_signed 32 <$> operate 139 a b d = Some (sa mod sb)) /\
  (b < 32 -> to_signed 32 <$> operate 195 a b d = Some (Z.shiftr sa b)).
Proof.
  intros Ha Hb Hd sa sb.
  assert (- 2 ^ 31 <= sa < 2 ^ 31) as Ra by exact (to_signed_range 32 a ltac:(lia)).
  assert (- 2 ^ 31 <= sb < 2 ^ 31) as Rb by exact (to_signed_range 32 b ltac:(lia)).
  assert (exists k, a = sa + k * 2 ^ 32) as (ka & Ea) by (destruct (signed_cases a Ha) as [[_ E]|[_ E]]; [exists 0|exists 1]; fold sa in E; lia).
  assert (exists k, b = sb + k * 2 ^ 32) as (kb & Eb) by (destruct (signed_cases b Hb) as [[_ E]|[_ E]]; [exists 0|exists 1]; fold sb in E; lia).
  assert (b = 0 <-> sb = 0) as Hz by (destruct (signed_cases b Hb) as [[? E]|[? E]]; fold sb in E; unfold in_range in Hb; lia).
  split; [intros o v; now apply operate_range|]. cbn [operate]. fold sa sb.
  split_and!.
  - f_equal. apply (wrap_congr _ _ (- ka)). lia.
  - f_equal. apply (wrap_congr _ _ (ka + kb)). lia.
  - f_equal. apply (wrap_congr _ _ (ka - kb)). lia.
  - f_equal. apply (wrap_congr _ _ (ka * sb + sa * kb + ka * kb * 2 ^ 32)). 
    transitivity ((sa + ka * 2 ^ 32) * (sb + kb * 2 ^ 32)); [f_equal; assumption|ring].
  - cbn. f_equal. unfold Z.lnot. rewrite (wrap_congr _ (Z.pred (- sa)) (- ka)) by lia. apply signed_word. lia.
  - intros [H|[H1 H2]]; [now rewrite (proj2 (Z.eqb_eq _ _) (proj2 Hz H))|]. rewrite H1, H2. cbn. now rewrite orb_true_r.
  - intros Hn Ho. rewrite (proj2 (Z.eqb_neq b 0)) by tauto. cbn [orb].
    destruct (Z.eqb_spec sa (- 2 ^ 31)), (Z.eqb_spec sb (-1)); cbn [andb]; try tauto; cbn [fmap option_fmap option_map];
      rewrite signed_word by (apply quot_range; assumption); reflexivity.
  - intros Hn. rewrite (proj2 (Z.eqb_neq b 0)) by tauto. cbn [fmap option_fmap option_map]. f_equal. apply signed_word.
    pose proof (Z.rem_bound_abs sa sb Hn). lia.
  - intros Hn. rewrite (proj2 (Z.eqb_neq b 0)) by tauto. cbn [fmap option_fmap option_map]. f_equal.
    rewrite (floored_remainder sa sb Hn). apply signed_word.
    destruct (Z.lt_ge_cases sb 0); [pose proof (Z.mod_neg_bound sa sb)|pose proof (Z.mod_pos_bound sa sb)]; lia.
  - intros Hlt. unfold in_range in Hb. pose proof (arithmetic_shift a b d Ha ltac:(lia)) as E. cbn [operate] in E. rewrite E.
    cbn [fmap option_fmap option_map]. f_equal. fold sa. apply signed_word. rewrite Z.shiftr_div_pow2 by lia.
    assert (0 < 2 ^ b) by (apply Z.pow_pos_nonneg; lia).
    split; [apply Z.div_le_lower_bound; nia|apply Z.div_lt_upper_bound; nia].
Qed.

Lemma operations_signed_witness :
  let sa := to_signed 32 0xfffffff9 in
  let sb := to_signed 32 3 in
  (forall o v, operate o 0xfffffff9 3 0 = Some v -> in_range 32 v) /\
  operate 126 0xfffffff9 3 0 = Some (u32 (- sa)) /\ operate 128 0xfffffff9 3 0 = Some (u32 (sa + sb)) /\
  operate 130 0xfffffff9 3 0 = Some (u32 (sa - sb)) /\ operate 132 0xfffffff9 3 0 = Some (u32 (sa * sb)) /\
  to_signed 32 <$> operate 200 0xfffffff9 3 0 = Some (Z.lnot sa) /\
  (sb = 0 \/ sa = - 2 ^ 31 /\ sb = -1 -> operate 135 0xfffffff9 3 0 = None) /\
  (sb <> 0 -> ~ (sa = - 2 ^ 31 /\ sb = -1) -> to_signed 32 <$> operate 135 0xfffffff9 3 0 = Some (Z.quot sa sb)) /\
  (sb <> 0 -> to_signed 32 <$> operate 138 0xfffffff9 3 0 = Some (Z.rem sa sb)) /\
  (sb <> 0 -> to_signed 32 <$> operate 139 0xfffffff9 3 0 = Some (sa mod sb)) /\
  (3 < 32 -> to_signed 32 <$> operate 195 0xfffffff9 3 0 = Some (Z.shiftr sa 3)).
Proof. apply (operations_signed 0xfffffff9 3 0); unfold in_range; lia. Defined.
End SpvConstants.
