(* ===== verification/SpvMali.v ===== *)
(** * Specialization-dependent composites for Mali (vulkan/compat/spirv_mali.c)

    [hybris_spirv_mali_spec_constants] rewrites, in place, every OpConstantComposite
    before the first function that depends on a specialization constant into an
    OpSpecConstantComposite.  The code is a list of words; the table [specialized] is
    the set of ids marked in it.  The theorems compare the loops over words with a
    definition on decoded instructions (those of SpvEdit). *)

From Stdlib Require Import ZArith Lia Bool String.
From stdpp Require Import base list numbers option gmap.
From S2P Require Import Prelude SpvEdit SpvConstants.

Open Scope Z_scope.
Open Scope outcome_scope.

Module SpvMali.
Import SpvEdit.

(** ** Configuration *)

(** The static [mode] after [configure]: [secure] is getauxval(AT_SECURE), [value] the environment
    variable. *)
Definition configure (secure : bool) (value : option string) : Z :=
  if secure then 0
  else match value with
       | Some v => if (v =? "0")%string then 0 else if (v =? "force")%string then 2 else 1
       | None => 1
       end.

Definition hybris_mali_spec_enabled (mode : Z) : bool := negb (mode =? 0).

(** [vendor]: the vendor id of the physical device, if the layer knows the device. *)
Definition hybris_mali_spec_active (mode : Z) (vendor : option Z) : bool :=
  if negb (hybris_mali_spec_enabled mode) then false
  else if mode =? 2 then true
  else match vendor with Some v => v =? 0x13b5 | None => false end.

(** ** The pass *)

(** The framing check: whether a composite and a specialization constant occur before the first
    function; [None] is the error return. *)
Fixpoint scan_loop (fuel : nat) (code : list Z) (words at_ : Z) (candidate has_specialization : bool) : outcome (option (bool * bool)) :=
  match fuel with
  | O => Undef
  | S fuel =>
      if at_ <? words then
        let! c := rd code at_ in
        let op := Z.land c 0xffff in
        let len := Z.shiftr c 16 in
        if (len =? 0) || (words - at_ <? len) then Ok None
        else if op =? 54 then Ok (Some (candidate, has_specialization))
        else scan_loop fuel code words (at_ + len) (candidate || (op =? 44)) (has_specialization || ((48 <=? op) && (op <=? 52)))
      else Ok (Some (candidate, has_specialization))
  end.

(** Whether one of [todo] operands from [pos] on is marked; [None] if one is not below the bound. *)
Fixpoint depends_loop (todo : nat) (code : list Z) (pos bound : Z) (specialized : gset Z) (depends : bool) : outcome (option bool) :=
  match todo with
  | O => Ok (Some depends)
  | S todo =>
      let! x := rd code pos in
      if bound <=? x then Ok None
      else depends_loop todo code (pos + 1) bound specialized (depends || bool_decide (x ∈ specialized))
  end.

(** The result, [*changed] and the code; the code changes before a later error is found. *)
Fixpoint rewrite_loop (fuel : nat) (code : list Z) (words bound at_ : Z) (specialized : gset Z) (changed : Z) : outcome (Z * Z * list Z) :=
  match fuel with
  | O => Undef
  | S fuel =>
      if at_ <? words then
        let! c := rd code at_ in
        let op := Z.land c 0xffff in
        let len := Z.shiftr c 16 in
        if op =? 54 then Ok (SpvConstants.VK_SUCCESS, changed, code)
        else if ((48 <=? op) && (op <=? 52)) || (op =? 44) then
          if len <? 3 then Ok (SpvConstants.VK_ERROR_UNKNOWN, changed, code) else
          let! id := rd code (at_ + 2) in
          if bound <=? id then Ok (SpvConstants.VK_ERROR_UNKNOWN, changed, code)
          else if negb (op =? 44) then rewrite_loop fuel code words bound (at_ + len) ({[id]} ∪ specialized) changed
          else
            let! depends := depends_loop (Z.to_nat (len - 3)) code (at_ + 3) bound specialized false in
            match depends with
            | None => Ok (SpvConstants.VK_ERROR_UNKNOWN, changed, code)
            | Some true =>
                let! code := put code at_ [Z.lor (u32 (Z.shiftl len 16)) 51] in
                rewrite_loop fuel code words bound (at_ + len) ({[id]} ∪ specialized) (u32 (changed + 1))
            | Some false => rewrite_loop fuel code words bound (at_ + len) specialized changed
            end
        else rewrite_loop fuel code words bound (at_ + len) specialized changed
      else Ok (SpvConstants.VK_SUCCESS, changed, code)
  end.

Definition hybris_spirv_mali_spec_constants (alloc : bool) (code : list Z) (bytes : Z) : outcome (Z * Z * list Z) :=
  let words := bytes / 4 in
  if negb (bytes mod 4 =? 0) || (words <? 5) then Ok (SpvConstants.VK_ERROR_UNKNOWN, 0, code) else
  let! c0 := rd code 0 in
  if negb (c0 =? 0x07230203) then Ok (SpvConstants.VK_ERROR_UNKNOWN, 0, code) else
  let! c3 := rd code 3 in
  if (c3 =? 0) || (2 ^ 24 <? c3) then Ok (SpvConstants.VK_ERROR_UNKNOWN, 0, code) else
  let! s := scan_loop (S (Z.to_nat words)) code words 5 false false in
  match s with
  | None => Ok (SpvConstants.VK_ERROR_UNKNOWN, 0, code)
  | Some (candidate, has_specialization) =>
      if negb candidate || negb has_specialization then Ok (SpvConstants.VK_SUCCESS, 0, code)
      else if negb alloc then Ok (SpvConstants.VK_ERROR_OUT_OF_HOST_MEMORY, 0, code)
      else rewrite_loop (S (Z.to_nat words)) code words c3 5 ∅ 0
  end.

(** ** The pass on instructions *)

Definition spec_op (i : spv_inst) : bool := (48 <=? op i) && (op i <=? 52).
Definition composite (i : spv_inst) : bool := op i =? 44.
Definition result (i : spv_inst) : Z := nth 1 (w i) 0.
Definition constituents (i : spv_inst) : list Z := drop 2 (w i).
Definition as_spec (i : spv_inst) : spv_inst := Inst 51 (n i) (w i).
Definition uses (s : gset Z) (i : spv_inst) : bool := existsb (fun x => bool_decide (x ∈ s)) (constituents i).

(** An instruction the pass refuses: too short, or an id not below the bound. *)
Definition bad (bound : Z) (i : spv_inst) : bool :=
  (n i <? 3) || (bound <=? result i) || (composite i && existsb (fun x => bound <=? x) (constituents i)).

(** Whether the pass succeeds, and the instructions it leaves. *)
Fixpoint respecialize (bound : Z) (s : gset Z) (l : list spv_inst) : bool * list spv_inst :=
  match l with
  | [] => (true, [])
  | i :: l =>
      if (spec_op i || composite i) && bad bound i then (false, i :: l)
      else
        let mark := spec_op i || (composite i && uses s i) in
        let (ok, l) := respecialize bound (if mark then {[result i]} ∪ s else s) l in
        (ok, (if composite i && uses s i then as_spec i else i) :: l)
  end.

(** An id that depends on a specialization constant. *)
Inductive specialized_id (l : list spv_inst) : Z -> Prop :=
| specialized_here i : i ∈ l -> spec_op i = true -> specialized_id l (result i)
| specialized_part i x : i ∈ l -> composite i = true -> x ∈ constituents i -> specialized_id l x -> specialized_id l (result i).

(** Constants are declared before the composites that use them. *)
Definition declared_first (l : list spv_inst) : Prop :=
  forall l1 i l2 j, l = l1 ++ i :: l2 -> composite i = true -> j ∈ i :: l2 -> spec_op j || composite j = true ->
  result j ∉ constituents i.
(** ** What the pass computes *)

(** Composites with a specialized constituent become specialization composites; nothing else changes. *)
Definition part_specialized (l : list spv_inst) (i : spv_inst) : Prop := exists x, x ∈ constituents i /\ specialized_id l x.
Definition rewritten (l : list spv_inst) (i i' : spv_inst) : Prop :=
  composite i = true /\ part_specialized l i /\ i' = as_spec i \/
  ~ (composite i = true /\ part_specialized l i) /\ i' = i.

Definition marked (l : list spv_inst) (i : spv_inst) : Prop :=
  spec_op i = true \/ composite i = true /\ part_specialized l i.

Lemma specialized_id_marked l x : specialized_id l x <-> exists j, j ∈ l /\ result j = x /\ marked l j.
Proof.
  split.
  - intros [i Hi Hs|i y Hi Hc Hy Hs]; exists i; (split; [assumption|split; [reflexivity|]]); [now left|].
    right. split; [assumption|]. now exists y.
  - intros (j & Hj & <- & [Hs|(Hc & y & Hy & Hs)]); [now apply specialized_here|now apply (specialized_part l j y)].
Qed.

Lemma not_both i : spec_op i = true -> composite i = false.
Proof. unfold spec_op, composite. intros [H1 H2]%andb_prop. apply Z.leb_le in H1, H2. apply Z.eqb_neq. lia. Qed.

Lemma uses_spec s i : uses s i = true <-> exists x, x ∈ constituents i /\ x ∈ s.
Proof.
  unfold uses. rewrite existsb_exists. split; intros (x & H1 & H2); exists x.
  - apply bool_decide_eq_true in H2. split; [now apply list_elem_of_In|assumption].
  - split; [now apply list_elem_of_In|now apply bool_decide_eq_true].
Qed.

(** The set at a composite holds exactly its specialized constituents. *)
Lemma uses_part all done i l s :
  all = done ++ i :: l -> declared_first all -> composite i = true ->
  (forall x, x ∈ s <-> exists j, j ∈ done /\ result j = x /\ marked all j) ->
  uses s i = true <-> part_specialized all i.
Proof.
  intros Ea Hd Hc Hs. rewrite uses_spec. unfold part_specialized. split; intros (x & Hx & H); exists x; (split; [assumption|]).
  - apply specialized_id_marked. apply Hs in H as (j & Hj & E & Hm). exists j. split_and!; auto. rewrite Ea, elem_of_app. auto.
  - apply Hs. apply specialized_id_marked in H as (j & Hj & E & Hm). exists j. split_and!; auto.
    rewrite Ea, elem_of_app in Hj. destruct Hj as [Hj|Hj]; [assumption|]. destruct (Hd done i l j Ea Hc Hj); [|now rewrite E].
    destruct Hm as [->|[-> _]]; [reflexivity|apply orb_true_r].
Qed.

Lemma respecialize_rewritten all bound : declared_first all ->
  forall l done s l', all = done ++ l ->
  (forall x, x ∈ s <-> exists j, j ∈ done /\ result j = x /\ marked all j) ->
  respecialize bound s l = (true, l') -> Forall2 (rewritten all) l l'.
Proof.
  intros Hd. induction l as [|i l IH]; intros done s l' Ea Hs E; cbn [respecialize] in E; [injection E as <-; constructor|].
  destruct (_ && bad bound i); [discriminate|].
  set (mark := spec_op i || composite i && uses s i) in *.
  destruct (respecialize bound _ l) as [ok l1] eqn:E1. injection E as -> <-.
  assert (composite i && uses s i = true <-> composite i = true /\ part_specialized all i) as Hu.
  { rewrite andb_true_iff. split; intros [Hc H]; (split; [assumption|]); now apply (uses_part all done i l s Ea Hd Hc Hs). }
  assert (mark = true <-> marked all i) as Hm by (unfold mark, marked; rewrite orb_true_iff, Hu; tauto).
  constructor.
  - unfold rewritten. destruct (composite i && uses s i); [left; destruct (proj1 Hu eq_refl); auto|right].
    split; [|reflexivity]. intros H. now apply Hu in H.
  - apply (IH (done ++ [i]) (if mark then {[result i]} ∪ s else s)); [now rewrite <- app_assoc| |exact E1].
    intros x. destruct mark.
    + rewrite elem_of_union, elem_of_singleton, Hs. setoid_rewrite elem_of_app. setoid_rewrite list_elem_of_singleton.
      split; [intros [->|(j & Hj & E & H)]; [exists i; split_and!; auto; now apply Hm|exists j; auto]|].
      intros (j & [Hj| ->] & E & H); [right; now exists j|now left].
    + rewrite Hs. setoid_rewrite elem_of_app. setoid_rewrite list_elem_of_singleton.
      split; [intros (j & Hj & E & H); exists j; auto|]. intros (j & [Hj| ->] & E & H); [now exists j|]. now apply Hm in H.
Qed.
(** ** The loops over words *)

(** The instructions before the first function end at [at_]. *)
Definition stops (words at_ : Z) (rest : list Z) : Prop :=
  words = at_ \/
  at_ < words /\ exists c tail, rest = c :: tail /\ Z.land c 0xffff = 54 /\ 1 <= Z.shiftr c 16 <= words - at_.

Lemma depends_loop_ok bound s : forall xs pre post pos d,
  pos = Z.of_nat (length pre) ->
  depends_loop (length xs) (pre ++ xs ++ post) pos bound s d =
  Ok (if existsb (fun x => bound <=? x) xs then None else Some (d || existsb (fun x => bool_decide (x ∈ s)) xs)).
Proof.
  induction xs as [|x xs IH]; intros pre post pos d ->; cbn [depends_loop length existsb app]; [now rewrite orb_false_r|].
  rewrite rd_middle by reflexivity. cbn [obind]. destruct (bound <=? x); [reflexivity|]. cbn [orb].
  rewrite (cons_middle x pre), app_assoc, IH by (rewrite length_app; cbn; lia). now rewrite orb_assoc.
Qed.

Definition count51 (l : list spv_inst) : Z := Z.of_nat (length (List.filter (fun i => op i =? 51) l)).

(** One loop step over an instruction: the words before it, its first word and its operands. *)
Lemma result_rd pre i l rest pos :
  inst_ok i -> 3 <= n i -> pos = Z.of_nat (length pre) -> rd (pre ++ image (i :: l) ++ rest) (pos + 2) = Ok (result i).
Proof.
  intros Hi Hn ->. rewrite image_cons by assumption. destruct Hi as (_ & _ & Hl). unfold result.
  destruct (w i) as [|x [|y t]]; cbn [length nth] in *; [lia|lia|]. cbn [app].
  replace (pre ++ (op i + n i * 2 ^ 16) :: x :: y :: t ++ image l ++ rest)
    with ((pre ++ [op i + n i * 2 ^ 16; x]) ++ y :: t ++ image l ++ rest) by now rewrite <- app_assoc.
  apply rd_middle. rewrite length_app. cbn. lia.
Qed.

Lemma constituents_loop pre i l rest pos bound s :
  inst_ok i -> 3 <= n i -> pos = Z.of_nat (length pre) ->
  depends_loop (Z.to_nat (n i - 3)) (pre ++ image (i :: l) ++ rest) (pos + 3) bound s false =
  Ok (if existsb (fun x => bound <=? x) (constituents i) then None else Some (uses s i)).
Proof.
  intros Hi Hn ->. rewrite image_cons by assumption. destruct Hi as (_ & _ & Hl). unfold uses, constituents.
  destruct (w i) as [|x [|y t]]; cbn [length] in *; [lia|lia|]. cbn [app drop].
  replace (pre ++ (op i + n i * 2 ^ 16) :: x :: y :: t ++ image l ++ rest)
    with ((pre ++ [op i + n i * 2 ^ 16; x; y]) ++ t ++ image l ++ rest) by now rewrite <- app_assoc.
  replace (Z.to_nat (n i - 3)) with (length t) by lia. apply depends_loop_ok. rewrite length_app. cbn. lia.
Qed.

Lemma rewrite_word pre i l rest pos :
  inst_ok i -> pos = Z.of_nat (length pre) ->
  put (pre ++ image (i :: l) ++ rest) pos [Z.lor (u32 (Z.shiftl (n i) 16)) 51] =
  Ok (pre ++ image (as_spec i :: l) ++ rest).
Proof.
  intros Hi ->. assert (inst_ok (as_spec i)) as Hi' by (destruct Hi as (? & ? & ?); repeat split; cbn; lia).
  rewrite !image_cons by assumption. rewrite put_ok by (rewrite length_app; cbn; lia). f_equal.
  destruct Hi as (_ & Hn & _). rewrite wrap_small by (unfold in_range; rewrite Z.shiftl_mul_pow2 by lia; lia).
  rewrite Z.lor_comm, lor_shift by lia. cbn [as_spec op n w].
  apply (blit_mid pre [op i + n i * 2 ^ 16] [51 + n i * 2 ^ 16]). reflexivity.
Qed.

Lemma as_spec_ok i : inst_ok i -> inst_ok (as_spec i).
Proof. intros (? & ? & ?); repeat split; cbn; lia. Qed.

Lemma count51_same i l l' : count51 (i :: l') - count51 (i :: l) = count51 l' - count51 l.
Proof. unfold count51. cbn [List.filter]. destruct (op i =? 51); cbn [length]; lia. Qed.

Lemma count51_changed i l l' : composite i = true -> count51 (as_spec i :: l') - count51 (i :: l) = 1 + (count51 l' - count51 l).
Proof.
  unfold composite, count51. intros H%Z.eqb_eq. cbn [List.filter as_spec op]. rewrite H. cbn [Z.eqb Pos.eqb length]. lia.
Qed.

Lemma rewrite_loop_ok words bound rest : forall l fuel pre s ch ok l',
  Forall inst_ok l -> Forall (fun i => op i <> 54) l -> (length l < fuel)%nat -> in_range 32 ch ->
  stops words (Z.of_nat (length pre + length (image l))) rest ->
  respecialize bound s l = (ok, l') ->
  rewrite_loop fuel (pre ++ image l ++ rest) words bound (Z.of_nat (length pre)) s ch =
  Ok (if ok then SpvConstants.VK_SUCCESS else SpvConstants.VK_ERROR_UNKNOWN, u32 (ch + (count51 l' - count51 l)), pre ++ image l' ++ rest).
Proof.
  induction l as [|i l IH]; intros [|fuel] pre s ch ok l' Hi Hf Hl Hch Hst E; try (cbn in Hl; lia); cbn [rewrite_loop].
  { cbn in E. injection E as <- <-. cbn [fmap list_fmap concat app length] in *. rewrite Nat.add_0_r in Hst.
    rewrite Z.sub_diag, Z.add_0_r, (wrap_small 32 ch Hch).
    destruct Hst as [->|(Hlt & c & tail & -> & Ho & _)]; [now rewrite Z.ltb_irrefl|].
    rewrite (proj2 (Z.ltb_lt _ _)) by assumption. rewrite rd_middle by reflexivity. cbn [obind]. now rewrite Ho. }
  apply Forall_cons_1 in Hi as [Hi Hil]. apply Forall_cons_1 in Hf as [Hf Hfl].
  assert (Z.of_nat (length (image (i :: l))) = n i + Z.of_nat (length (image l))) as Eim
    by (cbn [fmap list_fmap concat]; rewrite length_app; pose proof (length_write i Hi); lia).
  assert (1 <= n i) as Hn1 by apply Hi.
  assert (Z.of_nat (length pre) < words) as Hlt by (destruct Hst as [->|(? & _)]; lia).
  rewrite (proj2 (Z.ltb_lt _ _) Hlt).
  pose proof (split_word (op i) (n i) (proj1 Hi)) as [Sn So].
  replace (rd (pre ++ image (i :: l) ++ rest) (Z.of_nat (length pre))) with (Ok (op i + n i * 2 ^ 16))
    by (rewrite image_cons by assumption; symmetry; now apply rd_middle).
  cbn [obind]. rewrite Sn, So, (proj2 (Z.eqb_neq _ _) Hf).
  assert (forall i' s' ch' ok l1, inst_ok i' -> n i' = n i -> in_range 32 ch' -> respecialize bound s' l = (ok, l1) ->
    rewrite_loop fuel (pre ++ image (i' :: l) ++ rest) words bound (Z.of_nat (length pre) + n i) s' ch' =
    Ok (if ok : bool then SpvConstants.VK_SUCCESS else SpvConstants.VK_ERROR_UNKNOWN, u32 (ch' + (count51 l1 - count51 l)),
        pre ++ image (i' :: l1) ++ rest)) as Step.
  { intros i' s' ch' ok' l1 Hi' En Hch' E'. rewrite !image_step.
    replace (Z.of_nat (length pre) + n i) with (Z.of_nat (length (pre ++ write_inst i')))
      by (rewrite length_app; pose proof (length_write i' Hi'); lia).
    apply IH; auto; [cbn in Hl; lia|]. rewrite length_app. pose proof (length_write i' Hi').
    replace (Z.of_nat (length pre + length (write_inst i') + length (image l))) with (Z.of_nat (length pre + length (image (i :: l)))) by lia.
    exact Hst. }
  cbn [respecialize] in E. change ((48 <=? op i) && (op i <=? 52)) with (spec_op i). change (op i =? 44) with (composite i).
  destruct (spec_op i || composite i) eqn:Esc; cbn [andb] in E.
  2:{ apply orb_false_elim in Esc as [E1 E2]. rewrite E1, E2 in E. cbn [andb orb] in E.
      destruct (respecialize bound s l) as [ok' l1] eqn:El. injection E as <- <-.
      rewrite (Step i s ch ok' l1) by auto. rewrite count51_same. reflexivity. }
  unfold bad in E. destruct (Z.ltb_spec (n i) 3) as [H3|H3]; cbn [orb] in E.
  { injection E as <- <-. now rewrite Z.sub_diag, Z.add_0_r, (wrap_small 32 ch Hch). }
  rewrite result_rd by auto. cbn [obind]. destruct (bound <=? result i); cbn [orb] in E.
  { injection E as <- <-. now rewrite Z.sub_diag, Z.add_0_r, (wrap_small 32 ch Hch). }
  destruct (composite i) eqn:Ec; cbn [negb andb orb] in E |- *.
  - rewrite constituents_loop by auto. cbn [obind]. destruct (existsb _ (constituents i)).
    { injection E as <- <-. now rewrite Z.sub_diag, Z.add_0_r, (wrap_small 32 ch Hch). }
    assert (spec_op i = false) as Es by (destruct (spec_op i) eqn:Es; [now rewrite (not_both i Es) in Ec|reflexivity]).
    rewrite Es in E. cbn [orb] in E. destruct (uses s i).
    + rewrite rewrite_word by auto. cbn [obind]. destruct (respecialize bound _ l) as [ok' l1] eqn:El. injection E as <- <-.
      rewrite (Step (as_spec i) ({[result i]} ∪ s) (u32 (ch + 1)) ok' l1) by (auto using as_spec_ok; apply wrap_range; lia).
      rewrite count51_changed by assumption. do 3 f_equal. unfold wrap. rewrite Zplus_mod_idemp_l. f_equal. lia.
    + destruct (respecialize bound s l) as [ok' l1] eqn:El. injection E as <- <-.
      rewrite (Step i s ch ok' l1) by auto. now rewrite count51_same.
  - rewrite orb_false_r in Esc. rewrite Esc in E. cbn [orb] in E.
    destruct (respecialize bound _ l) as [ok' l1] eqn:El. injection E as <- <-.
    rewrite (Step i ({[result i]} ∪ s) ch ok' l1) by auto. now rewrite count51_same.
Qed.
Lemma scan_loop_ok words rest : forall l fuel pre c h,
  Forall inst_ok l -> Forall (fun i => op i <> 54) l -> (length l < fuel)%nat ->
  stops words (Z.of_nat (length pre + length (image l))) rest ->
  scan_loop fuel (pre ++ image l ++ rest) words (Z.of_nat (length pre)) c h =
  Ok (Some (c || existsb composite l, h || existsb spec_op l)).
Proof.
  induction l as [|i l IH]; intros [|fuel] pre c h Hi Hf Hl Hst; try (cbn in Hl; lia); cbn [scan_loop existsb].
  { cbn [fmap list_fmap concat app length] in *. rewrite Nat.add_0_r in Hst. rewrite !orb_false_r.
    destruct Hst as [->|(Hlt & x & tail & -> & Ho & Hx)]; [now rewrite Z.ltb_irrefl|].
    rewrite (proj2 (Z.ltb_lt _ _)) by assumption. rewrite rd_middle by reflexivity. cbn [obind]. rewrite Ho.
    rewrite (proj2 (Z.eqb_neq _ _)) by lia. rewrite (proj2 (Z.ltb_ge _ _)) by lia. reflexivity. }
  apply Forall_cons_1 in Hi as [Hi Hil]. apply Forall_cons_1 in Hf as [Hf Hfl]. cbn [length] in Hl.
  pose proof (length_write i Hi) as Lw. assert (1 <= n i) as Hn1 by apply Hi.
  assert (Z.of_nat (length pre) + n i <= words) as Hle.
  { cbn [fmap list_fmap concat] in Hst. rewrite length_app in Hst. destruct Hst as [->|(? & _)]; lia. }
  rewrite (proj2 (Z.ltb_lt _ _)) by lia.
  pose proof (split_word (op i) (n i) (proj1 Hi)) as [Sn So].
  replace (rd (pre ++ image (i :: l) ++ rest) (Z.of_nat (length pre))) with (Ok (op i + n i * 2 ^ 16))
    by (rewrite image_cons by assumption; symmetry; now apply rd_middle).
  cbn [obind]. rewrite Sn, So, (proj2 (Z.eqb_neq _ _) Hf), (proj2 (Z.eqb_neq (n i) 0)) by lia.
  rewrite (proj2 (Z.ltb_ge _ _)) by lia. cbn [orb]. rewrite image_step.
  replace (Z.of_nat (length pre) + n i) with (Z.of_nat (length (pre ++ write_inst i))) by (rewrite length_app; lia).
  rewrite IH; auto; [now rewrite !orb_assoc|lia|].
  cbn [fmap list_fmap concat] in Hst. rewrite length_app in *. now rewrite Nat.add_assoc in Hst.
Qed.

(** An accepted framing is a list of instructions before the first function. *)
Lemma scan_decodes : forall fuel pre rest words c h,
  Forall (in_range 32) rest -> Z.of_nat (length pre) <= words <= Z.of_nat (length pre + length rest) -> words - Z.of_nat (length pre) < Z.of_nat fuel ->
  exists r, scan_loop fuel (pre ++ rest) words (Z.of_nat (length pre)) c h = Ok r /\
    (is_Some r -> exists l rest', rest = image l ++ rest' /\ Forall inst_ok l /\ Forall (fun i => op i <> 54) l /\
       stops words (Z.of_nat (length pre + length (image l))) rest').
Proof.
  induction fuel as [|fuel IH]; intros pre rest words c h Hr Hw Hf; [lia|]. cbn [scan_loop].
  destruct (Z.ltb_spec (Z.of_nat (length pre)) words) as [Hlt|Hge].
  2:{ eexists; split; [reflexivity|]. intros _. exists [], rest. split; [reflexivity|]. split; [constructor|]. split; [constructor|]. left. cbn. lia. }
  destruct rest as [|x rest]; [cbn in Hw; lia|]. apply Forall_cons_1 in Hr as [Hx Hr]. cbn [length] in Hw.
  rewrite rd_middle by reflexivity. cbn [obind]. pose proof (inst_of_word x Hx) as (Ho & Hk & Ex).
  set (k := Z.shiftr x 16) in *. set (o := Z.land x 0xffff) in *.
  destruct (Z.eqb_spec k 0); cbn [orb]; [exists None; split; [reflexivity|]; intros [? Hn]; discriminate Hn|].
  destruct (Z.ltb_spec (words - Z.of_nat (length pre)) k); [exists None; split; [reflexivity|]; intros [? Hn]; discriminate Hn|].
  destruct (Z.eqb_spec o 54) as [E54|E54].
  { eexists; split; [reflexivity|]. intros _. exists [], (x :: rest). split; [reflexivity|]. split; [constructor|]. split; [constructor|]. right. cbn.
    rewrite Nat.add_0_r. split; [lia|]. exists x, rest. fold k o. split_and!; auto; lia. }
  set (ops := take (Z.to_nat (k - 1)) rest). set (rest' := drop (Z.to_nat (k - 1)) rest).
  assert (rest = ops ++ rest') as Er by (symmetry; apply take_drop).
  assert (Z.of_nat (length ops) = k - 1) as Hl by (unfold ops; rewrite length_take; lia). clearbody ops rest'. subst rest.
  rewrite length_app in Hw. apply Forall_app in Hr as [_ Hr].
  set (i := Inst o k ops). assert (inst_ok i) as Hi by (repeat split; cbn; unfold in_range in *; lia).
  assert (write_inst i = x :: ops) as Ew by (rewrite write_inst_ok by assumption; cbn; now rewrite <- Ex).
  destruct (IH (pre ++ write_inst i) rest' words (c || (o =? 44)) (h || ((48 <=? o) && (o <=? 52)))) as (r & Er & Hd).
  { assumption. } { rewrite Ew, length_app. cbn. lia. } { rewrite Ew, length_app. cbn. lia. }
  exists r. split.
  - rewrite <- Er. f_equal.
    + rewrite Ew, <- app_assoc. reflexivity.
    + rewrite Ew, length_app. cbn. lia.
  - intros Hs. destruct (Hd Hs) as (l & rest2 & -> & Hl2 & Hf2 & Hst). exists (i :: l), rest2. split_and!.
    + cbn [fmap list_fmap concat]. rewrite Ew. cbn. now rewrite <- app_assoc.
    + now constructor.
    + now constructor.
    + cbn [fmap list_fmap concat]. rewrite length_app in *. now rewrite Nat.add_assoc.
Qed.

(** ** Properties *)

Lemma respecialize_good bound : forall l s,
  Forall (fun i => spec_op i || composite i = true -> bad bound i = false) l -> exists l', respecialize bound s l = (true, l').
Proof.
  induction l as [|i l IH]; intros s H; [now exists []|]. apply Forall_cons_1 in H as [Hi H]. cbn [respecialize].
  replace ((spec_op i || composite i) && bad bound i) with false
    by (destruct (spec_op i || composite i); [now rewrite Hi|reflexivity]).
  destruct (IH (if spec_op i || composite i && uses s i then {[result i]} ∪ s else s) H) as (l1 & ->). eauto.
Qed.

Lemma nothing_to_rewrite l : existsb composite l = false \/ existsb spec_op l = false -> Forall2 (rewritten l) l l.
Proof.
  intros H. assert (forall x, existsb spec_op l = false -> ~ specialized_id l x) as Hns.
  { intros x Hs Hx. induction Hx as [i Hi Ho|]; [|assumption].
    enough (existsb spec_op l = true) by congruence. apply existsb_exists. exists i. split; [now apply list_elem_of_In|assumption]. }
  apply Forall_Forall2_diag, Forall_forall. intros i Hi. right. split; [|reflexivity]. intros (Hc & x & _ & Hx).
  destruct H as [H|H]; [|now apply (Hns x H)].
  enough (existsb composite l = true) by congruence. apply existsb_exists. exists i.
  split; [now apply list_elem_of_In|assumption].
Qed.

Lemma rewritten_steps bound : forall l s ok l', respecialize bound s l = (ok, l') ->
  Forall2 (fun i i' => i' = i \/ composite i = true /\ i' = as_spec i) l l'.
Proof.
  induction l as [|i l IH]; intros s ok l' E; cbn [respecialize] in E; [injection E as _ <-; constructor|].
  destruct (_ && bad bound i).
  { injection E as _ <-. apply (Forall_Forall2_diag _ (i :: l)), Forall_forall. now left. }
  destruct (respecialize bound _ l) as [ok1 l1] eqn:E1. injection E as _ <-. constructor; [|exact (IH _ _ _ E1)].
  destruct (composite i); cbn [andb]; [destruct (uses s i)|]; auto.
Qed.

(** C37: the Mali pass on a module of instructions [l] before the first function, with valid ids and
    constants declared before use: it succeeds, turns exactly the OpConstantComposite instructions
    that depend on a specialization constant, directly or through other composites, into
    OpSpecConstantComposite, counts them, and changes no other word. *)
Theorem mali_rewrites_dependents hd l rest bound :
  length hd = 5%nat -> hd !! 0%nat = Some 0x07230203 -> hd !! 3%nat = Some bound -> 0 < bound <= 2 ^ 24 ->
  Forall inst_ok l -> Forall (fun i => op i <> 54) l ->
  Forall (fun i => spec_op i || composite i = true -> bad bound i = false) l -> declared_first l ->
  (rest = [] \/ exists c tail, rest = c :: tail /\ Z.land c 0xffff = 54 /\ 1 <= Z.shiftr c 16 <= Z.of_nat (length rest)) ->
  exists l', Forall2 (rewritten l) l l' /\
    hybris_spirv_mali_spec_constants true (hd ++ image l ++ rest) (4 * Z.of_nat (length (hd ++ image l ++ rest))) =
    Ok (SpvConstants.VK_SUCCESS, u32 (count51 l' - count51 l), hd ++ image l' ++ rest).
Proof.
  intros Hh H0 H3 Hb Hi Hf Hg Hd Hr. set (code := hd ++ image l ++ rest). set (words := Z.of_nat (length code)).
  assert (5 <= words) as Hw by (unfold words, code; rewrite length_app; lia).
  assert (stops words (Z.of_nat (length hd + length (image l))) rest) as Hst.
  { unfold words, code. rewrite !length_app. destruct Hr as [->|(c & tail & -> & Ho & Hc)]; [left; cbn; lia|right].
    cbn [length] in *. split; [lia|]. exists c, tail. split_and!; auto; lia. }
  assert (length l < S (Z.to_nat words))%nat as Hl.
  { pose proof (image_length l Hi). unfold words, code. rewrite !length_app. lia. }
  unfold hybris_spirv_mali_spec_constants. rewrite (Z.mul_comm 4), Z.mod_mul, Z.div_mul by lia. cbn [Z.eqb negb orb].
  rewrite (proj2 (Z.ltb_ge _ _)) by assumption.
  destruct hd as [|h0 [|h1 [|h2 [|h3 [|h4 [|? ?]]]]]]; try discriminate Hh. cbn in H0, H3. injection H0 as ->. injection H3 as ->.
  change (rd code 0) with (@Ok Z 0x07230203). change (rd code 3) with (@Ok Z bound). cbn [obind Z.eqb Pos.eqb negb].
  rewrite (proj2 (Z.eqb_neq _ _)), (proj2 (Z.ltb_ge _ _)) by lia. cbn [orb].
  pose proof (scan_loop_ok words rest l _ [0x07230203; h1; h2; bound; h4] false false Hi Hf Hl Hst) as Hs.
  change (Z.of_nat (length [0x07230203; h1; h2; bound; h4])) with 5 in Hs. fold code words in Hs |- *. rewrite Hs. cbn [obind orb].
  destruct (negb (existsb composite l) || negb (existsb spec_op l)) eqn:E.
  { exists l. rewrite Z.sub_diag. split; [|reflexivity]. apply nothing_to_rewrite.
    apply orb_prop in E as [E|E]; apply negb_true_iff in E; auto. }
  cbn [negb]. destruct (respecialize_good bound l ∅ Hg) as (l' & El). exists l'. split.
  - apply (respecialize_rewritten l bound Hd l [] ∅); auto. intros x. split; [now intros ?%not_elem_of_empty|]. intros (j & Hj & _). now apply not_elem_of_nil in Hj.
  - apply (rewrite_loop_ok words bound rest l _ [0x07230203; h1; h2; bound; h4] ∅ 0 true l'); auto. unfold in_range. lia.
Qed.
(** Executable form of [declared_first]. *)
Fixpoint declared_first_b (l : list spv_inst) : bool :=
  match l with
  | [] => true
  | i :: l' =>
      (negb (composite i) || forallb (fun j => negb (spec_op j || composite j) || bool_decide (result j ∉ constituents i)) (i :: l'))
      && declared_first_b l'
  end.

Lemma declared_first_check l : declared_first_b l = true -> declared_first l.
Proof.
  intros H l1. revert l H. induction l1 as [|x l1 IH]; intros l H i l2 j -> Hc Hj Hs; cbn [declared_first_b app] in H;
    apply andb_prop in H as [H1 H2]; [|now apply (IH (l1 ++ i :: l2) H2 i l2 j)].
  rewrite Hc in H1. cbn [negb orb] in H1. rewrite forallb_forall in H1. apply list_elem_of_In in Hj. specialize (H1 j Hj).
  rewrite Hs in H1. now apply bool_decide_eq_true in H1.
Qed.

(** Two scalars, one specialized; a vector of the specialized one, a matrix of that vector, and a
    vector without it. *)
Definition sample_body : list spv_inst :=
  [Inst 22 3 [1; 32]; Inst 50 4 [1; 2; 0]; Inst 43 4 [1; 3; 7]; Inst 44 5 [4; 5; 2; 3]; Inst 44 4 [6; 7; 5]; Inst 44 4 [6; 8; 3]].

Lemma mali_rewrites_dependents_witness :
  exists l', Forall2 (rewritten sample_body) sample_body l' /\
    hybris_spirv_mali_spec_constants true ([0x07230203; 0x10000; 0; 9; 0] ++ image sample_body ++ [0x10036])
      (4 * Z.of_nat (length ([0x07230203; 0x10000; 0; 9; 0] ++ image sample_body ++ [0x10036]))) =
    Ok (SpvConstants.VK_SUCCESS, u32 (count51 l' - count51 sample_body), [0x07230203; 0x10000; 0; 9; 0] ++ image l' ++ [0x10036]).
Proof.
  apply (mali_rewrites_dependents [0x07230203; 0x10000; 0; 9; 0] sample_body [0x10036] 9).
  - reflexivity.
  - reflexivity.
  - reflexivity.
  - lia.
  - repeat (apply List.Forall_cons; [repeat split; vm_compute; congruence|]). apply List.Forall_nil.
  - repeat (apply List.Forall_cons; [discriminate|]). apply List.Forall_nil.
  - repeat (apply List.Forall_cons; [first [discriminate|intros _; reflexivity]|]). apply List.Forall_nil.
  - apply declared_first_check. vm_compute. reflexivity.
  - right. exists 0x10036, []. split_and!; try reflexivity; vm_compute; congruence.
Defined.

Example sample_rewritten :
  hybris_spirv_mali_spec_constants true ([0x07230203; 0x10000; 0; 9; 0] ++ image sample_body ++ [0x10036]) 120 =
  Ok (0, 2, [0x07230203; 0x10000; 0; 9; 0; 0x30016; 1; 32; 0x40032; 1; 2; 0; 0x4002b; 1; 3; 7; 0x50033; 4; 5; 2; 3; 0x40033; 6; 7; 5;
             0x4002c; 6; 8; 3; 0x10036]).
Proof. vm_compute. reflexivity. Qed.

(** On any words, the Mali pass reads nothing outside the module, and whatever it returns, also
    after an error, the code differs from the input at most by OpConstantComposite instructions
    before the first function that have become OpSpecConstantComposite of the same length and
    operands. *)
Theorem mali_pass_safe alloc code bytes :
  Forall (in_range 32) code -> 0 <= bytes <= 4 * Z.of_nat (length code) ->
  exists res ch code', hybris_spirv_mali_spec_constants alloc code bytes = Ok (res, ch, code') /\
    (code' = code \/ exists l l' rest,
       code = take 5 code ++ image l ++ rest /\ code' = take 5 code ++ image l' ++ rest /\ Forall inst_ok l /\
       Forall (fun i => op i <> 54) l /\ Forall2 (fun i i' => i' = i \/ composite i = true /\ i' = as_spec i) l l').
Proof.
  intros Hw Hb. unfold hybris_spirv_mali_spec_constants.
  destruct (negb (bytes mod 4 =? 0)); cbn [orb]; [do 3 eexists; split; [reflexivity|]; now left|].
  destruct (Z.ltb_spec (bytes / 4) 5) as [H5|H5]; [do 3 eexists; split; [reflexivity|]; now left|].
  pose proof (Z.div_mod bytes 4 ltac:(lia)). pose proof (Z.mod_pos_bound bytes 4 ltac:(lia)).
  destruct (rd_ok code 0) as (x & -> & _); [lia|]. cbn [obind].
  destruct (negb _); [do 3 eexists; split; [reflexivity|]; now left|].
  destruct (rd_ok code 3) as (b & -> & _); [lia|]. cbn [obind].
  destruct (_ || _); [do 3 eexists; split; [reflexivity|]; now left|].
  set (words := bytes / 4) in *. set (hd := take 5 code). set (tl := drop 5 code).
  assert (length hd = 5%nat) as Hh by (unfold hd; rewrite length_take; lia).
  assert (code = hd ++ tl) as Ec by (symmetry; apply take_drop).
  assert (length code = length hd + length tl)%nat as El by (rewrite Ec at 1; apply length_app).
  destruct (scan_decodes (S (Z.to_nat words)) hd tl words false false) as (r & Hr & Hd); [now apply Forall_drop|lia|lia|].
  rewrite <- Ec, Hh in Hr. change (Z.of_nat 5) with 5 in Hr. rewrite Hr. cbn [obind].
  destruct r as [[c h]|]; [|do 3 eexists; split; [reflexivity|]; now left].
  destruct (negb c || negb h); [do 3 eexists; split; [reflexivity|]; now left|].
  destruct (negb alloc); [do 3 eexists; split; [reflexivity|]; now left|].
  destruct (Hd ltac:(eauto)) as (l & rest & Et & Hi & Hf & Hst). destruct (respecialize b ∅ l) as [ok l'] eqn:E.
  pose proof (rewrite_loop_ok words b rest l (S (Z.to_nat words)) hd ∅ 0 ok l' Hi Hf) as R.
  rewrite <- Et, <- Ec, Hh in R. change (Z.of_nat 5) with 5 in R. rewrite Hh in Hst. rewrite R; [|..|assumption|assumption].
  - do 3 eexists. split; [reflexivity|]. right. exists l, l', rest. split_and!; auto; [now rewrite <- Et|now apply (rewritten_steps b l ∅ ok)].
  - pose proof (image_length l Hi). assert (length tl = length (image l) + length rest)%nat by (rewrite Et; apply length_app).
    destruct Hst as [->|(? & _)]; lia.
  - unfold in_range. lia.
Qed.

Lemma mali_pass_safe_witness :
  exists res ch code', hybris_spirv_mali_spec_constants true [0x07230203; 0; 0; 9; 0; 0x40032; 1; 2; 0; 0x4002c; 1; 3; 2; 0x2002c; 1] 60 = Ok (res, ch, code') /\
    (code' = [0x07230203; 0; 0; 9; 0; 0x40032; 1; 2; 0; 0x4002c; 1; 3; 2; 0x2002c; 1] \/ exists l l' rest,
       [0x07230203; 0; 0; 9; 0; 0x40032; 1; 2; 0; 0x4002c; 1; 3; 2; 0x2002c; 1] = take 5 [0x07230203; 0; 0; 9; 0; 0x40032; 1; 2; 0; 0x4002c; 1; 3; 2; 0x2002c; 1] ++ image l ++ rest /\
       code' = take 5 [0x07230203; 0; 0; 9; 0; 0x40032; 1; 2; 0; 0x4002c; 1; 3; 2; 0x2002c; 1] ++ image l' ++ rest /\ Forall inst_ok l /\
       Forall (fun i => op i <> 54) l /\ Forall2 (fun i i' => i' = i \/ composite i = true /\ i' = as_spec i) l l').
Proof.
  apply (mali_pass_safe true [0x07230203; 0; 0; 9; 0; 0x40032; 1; 2; 0; 0x4002c; 1; 3; 2; 0x2002c; 1] 60); [|cbn; lia].
  repeat (apply List.Forall_cons; [unfold in_range; lia|]). apply List.Forall_nil.
Defined.
End SpvMali.
