(* ===== verification/SpvDecorations.v ===== *)
(** * Expansion of decoration groups (vulkan/compat/spirv_decorations.c)

    [hybris_spirv_decorations] replaces every OpGroupDecorate and OpGroupMemberDecorate
    by the decorations of its group applied to each target.  The model keeps the
    code's linked list of a group's decorations ([first], [last] and the table [next])
    and the capacity computed before writing; a write past it is undefined.  The
    theorem compares the five loops over words with a definition on instructions
    (those of SpvEdit). *)

From Stdlib Require Import ZArith Lia Bool.
From stdpp Require Import base list numbers option gmap.
From S2P Require Import Prelude SpvEdit SpvConstants.

Open Scope Z_scope.
Open Scope outcome_scope.

Module SpvDecorations.
Import SpvEdit.

Abbreviation VK_SUCCESS := SpvConstants.VK_SUCCESS.
Abbreviation VK_ERROR_UNKNOWN := SpvConstants.VK_ERROR_UNKNOWN.
Abbreviation VK_ERROR_OUT_OF_HOST_MEMORY := SpvConstants.VK_ERROR_OUT_OF_HOST_MEMORY.
Abbreviation SIZE_MAX := SpvConstants.SIZE_MAX.

(** ** Data *)

Record group := Group { first : Z; last : Z; words : Z; decorations : Z; defined : bool }.
Definition zero_group : group := Group 0 0 0 0 false.

(** The zero-initialised arrays [groups] (of [bound] elements) and [next] (of [size] elements). *)
Definition get_group (groups : gmap Z group) (bound id : Z) : outcome group :=
  if (0 <=? id) && (id <? bound) then Ok (default zero_group (groups !! id)) else Undef.
Definition get_next (next : gmap Z Z) (size d : Z) : outcome Z :=
  if (0 <=? d) && (d <? size) then Ok (default 0 (next !! d)) else Undef.

(** ** Loops *)

(** The framing check, counting the group applications; [None] is the error return. *)
Fixpoint frame_loop (fuel : nat) (code : list Z) (size at_ applications : Z) : outcome (option Z) :=
  match fuel with
  | O => Undef
  | S fuel =>
      if at_ <? size then
        let! c := rd code at_ in
        let count := Z.shiftr c 16 in
        let op := Z.land c 0xffff in
        if (count =? 0) || (size - at_ <? count) then Ok None
        else frame_loop fuel code size (at_ + count) (applications + (if (op =? 74) || (op =? 75) then 1 else 0))
      else Ok (Some applications)
  end.

(** [for (at = 5; at < words; at += code[at] >> 16)]: the body gets the position, the instruction
    pointer, its opcode and count; [inr] is [goto done] with a status. *)
Fixpoint walk {St} (fuel : nat) (code : list Z) (size at_ : Z) (body : Z -> list Z -> Z -> Z -> St -> outcome (St + Z)) (s : St)
    : outcome (St + Z) :=
  match fuel with
  | O => Undef
  | S fuel =>
      if at_ <? size then
        let p := drop (Z.to_nat at_) code in
        let! p0 := rd p 0 in
        let! r := body at_ p (Z.land p0 0xffff) (Z.shiftr p0 16) s in
        match r with inr e => Ok (inr e) | inl s => walk fuel code size (at_ + Z.shiftr p0 16) body s end
      else Ok (inl s)
  end.

(** [for (d = first; d; d = next[d])]. *)
Fixpoint chain {St} (fuel : nat) (next : gmap Z Z) (size d : Z) (body : Z -> St -> outcome (St + Z)) (s : St) : outcome (St + Z) :=
  match fuel with
  | O => Undef
  | S fuel =>
      if d =? 0 then Ok (inl s) else
      let! r := body d s in
      match r with
      | inr e => Ok (inr e)
      | inl s => let! d := get_next next size d in chain fuel next size d body s
      end
  end.

(** [for (i = 2; i < count; i += stride)]. *)
Fixpoint targets {St} (fuel : nat) (i count stride : Z) (body : Z -> St -> outcome (St + Z)) (s : St) : outcome (St + Z) :=
  match fuel with
  | O => Undef
  | S fuel =>
      if i <? count then
        let! r := body i s in
        match r with inr e => Ok (inr e) | inl s => targets fuel (i + stride) count stride body s end
      else Ok (inl s)
  end.

Definition define_body (bound : Z) (at_ : Z) (p : list Z) (op count : Z) (groups : gmap Z group) : outcome (gmap Z group + Z) :=
  if negb (op =? 73) then Ok (inl groups)
  else if negb (count =? 2) then Ok (inr VK_ERROR_UNKNOWN)
  else
    let! p1 := rd p 1 in
    if (p1 =? 0) || (bound <=? p1) then Ok (inr VK_ERROR_UNKNOWN) else
    let! g := get_group groups bound p1 in
    if defined g then Ok (inr VK_ERROR_UNKNOWN)
    else Ok (inl (<[p1 := Group (first g) (last g) (words g) (decorations g) true]> groups)).

Definition collect_body (bound : Z) (at_ : Z) (p : list Z) (op count : Z) (s : gmap Z group * gmap Z Z)
    : outcome (gmap Z group * gmap Z Z + Z) :=
  let '(groups, next) := s in
  if negb ((op =? 71) || (op =? 332) || (op =? 5632)) then Ok (inl s)
  else if count <? 3 then Ok (inr VK_ERROR_UNKNOWN)
  else
    let! p1 := rd p 1 in
    if bound <=? p1 then Ok (inr VK_ERROR_UNKNOWN) else
    let! g := get_group groups bound p1 in
    if negb (defined g) then Ok (inl s)
    else if op =? 5632 then Ok (inr VK_ERROR_UNKNOWN)
    else
      let linked := negb (last g =? 0) in
      let next := if linked then <[last g := at_]> next else next in
      let first := if linked then first g else at_ in
      if SIZE_MAX - words g <? count then Ok (inr VK_ERROR_OUT_OF_HOST_MEMORY)
      else Ok (inl (<[p1 := Group first at_ (words g + count) (decorations g + 1) true]> groups, next)).

Definition capacity_body (code : list Z) (size bound : Z) (groups : gmap Z group) (next : gmap Z Z)
    (at_ : Z) (p : list Z) (op count capacity : Z) : outcome (Z + Z) :=
  if negb ((op =? 74) || (op =? 75)) then Ok (inl capacity)
  else if count <? 2 then Ok (inr VK_ERROR_UNKNOWN)
  else
    let! p1 := rd p 1 in
    if bound <=? p1 then Ok (inr VK_ERROR_UNKNOWN) else
    let! g := get_group groups bound p1 in
    if negb (defined g) || ((op =? 75) && negb (count mod 2 =? 0)) then Ok (inr VK_ERROR_UNKNOWN) else
    let stride := if op =? 75 then 2 else 1 in
    let! ok := targets (S (Z.to_nat count)) 2 count stride (fun i _ =>
      let! x := rd p i in
      if (x =? 0) || (bound <=? x) then Ok (inr VK_ERROR_UNKNOWN) else
      let! t := get_group groups bound x in
      Ok (if defined t then inr VK_ERROR_UNKNOWN else inl tt)) tt in
    match ok with
    | inr e => Ok (inr e)
    | inl _ =>
        let! expanded := (if op =? 75 then
          let! ok := chain (S (Z.to_nat size)) next size (first g) (fun d _ =>
            let! c := rd code d in
            Ok (if negb (Z.land c 0xffff =? 71) || (Z.shiftr c 16 =? 0xffff) then inr VK_ERROR_UNKNOWN else inl tt)) tt in
          match ok with
          | inr e => Ok (inr e)
          | inl _ => Ok (if SIZE_MAX - words g <? decorations g then inr VK_ERROR_OUT_OF_HOST_MEMORY
                         else inl (words g + decorations g))
          end
          else Ok (inl (words g))) in
        match expanded with
        | inr e => Ok (inr e)
        | inl expanded =>
            let n := (count - 2) / stride in
            if negb (n =? 0) && ((SIZE_MAX - capacity) / n <? expanded) then Ok (inr VK_ERROR_OUT_OF_HOST_MEMORY)
            else Ok (inl (capacity + expanded * n))
        end
    end.

(** Writing at [out] of an array of [capacity] words; the words written so far are the list. *)
Definition write_words (capacity : Z) (result data : list Z) : outcome (list Z) :=
  if capacity <? Z.of_nat (length result + length data) then Undef else Ok (result ++ data).

(** [count] words from a pointer. *)
Definition copy (p : list Z) (count : Z) : outcome (list Z) :=
  if Z.of_nat (length p) <? count then Undef else Ok (take (Z.to_nat count) p).

Definition output_body (code : list Z) (size bound capacity : Z) (groups : gmap Z group) (next : gmap Z Z)
    (at_ : Z) (p : list Z) (op count : Z) (result : list Z) : outcome (list Z + Z) :=
  if negb ((op =? 74) || (op =? 75)) then
    let! data := copy p count in
    let! result := write_words capacity result data in Ok (inl result)
  else
    targets (S (Z.to_nat count)) 2 count (if op =? 75 then 2 else 1) (fun i result =>
      let! p1 := rd p 1 in
      let! g := get_group groups bound p1 in
      chain (S (Z.to_nat size)) next size (first g) (fun d result =>
        let decoration := drop (Z.to_nat d) code in
        let! d0 := rd decoration 0 in
        let n := Z.shiftr d0 16 in
        let! result := write_words capacity result [if op =? 75 then Z.lor (u32 (Z.shiftl (n + 1) 16)) 72 else d0] in
        let! x := rd p i in
        let! result := write_words capacity result [x] in
        let! result := (if op =? 75 then let! y := rd p (i + 1) in write_words capacity result [y] else Ok result) in
        let! data := copy (drop 2 decoration) (n - 2) in
        let! result := write_words capacity result data in
        Ok (inl result)) result) result.

(** The status and the new code, [None] for a null output; [alloc] and [alloc_result] say whether
    the allocations succeed (sizeof(struct group) is 40). *)
Definition hybris_spirv_decorations (alloc alloc_result : bool) (code : list Z) (bytes : Z) : outcome (Z * option (list Z)) :=
  if (bytes <? 20) || negb (bytes mod 4 =? 0) then Ok (VK_ERROR_UNKNOWN, None) else
  let! c0 := rd code 0 in
  if negb (c0 =? 0x07230203) then Ok (VK_ERROR_UNKNOWN, None) else
  let! bound := rd code 3 in
  if bound =? 0 then Ok (VK_ERROR_UNKNOWN, None) else
  let size := bytes / 4 in
  let fuel := S (Z.to_nat size) in
  let! applications := frame_loop fuel code size 5 0 in
  match applications with
  | None => Ok (VK_ERROR_UNKNOWN, None)
  | Some applications =>
      if applications =? 0 then Ok (VK_SUCCESS, None)
      else if (SIZE_MAX / bound <? 40) || (SIZE_MAX / size <? 8) || negb alloc then Ok (VK_ERROR_OUT_OF_HOST_MEMORY, None)
      else
      let! r := walk fuel code size 5 (define_body bound) ∅ in
      match r with inr e => Ok (e, None) | inl groups =>
      let! r := walk fuel code size 5 (collect_body bound) (groups, ∅) in
      match r with inr e => Ok (e, None) | inl (groups, next) =>
      let! r := walk fuel code size 5 (capacity_body code size bound groups next) size in
      match r with inr e => Ok (e, None) | inl capacity =>
      if (SIZE_MAX / 4 <? capacity) || negb alloc_result then Ok (VK_ERROR_OUT_OF_HOST_MEMORY, None) else
      let! header := copy code 5 in
      let! result := write_words capacity [] header in
      let! r := walk fuel code size 5 (output_body code size bound capacity groups next) result in
      match r with inr e => Ok (e, None) | inl result => Ok (VK_SUCCESS, Some result) end
      end end end
  end.
(** * Expansion on instructions *)

Definition target (i : spv_inst) : Z := nth 0 (w i) 0.
Definition is_dec (i : spv_inst) : bool := (op i =? 71) || (op i =? 332).
Definition is_app (i : spv_inst) : bool := (op i =? 74) || (op i =? 75).

(** The group ids and the decorations of a group. *)
Definition defs (l : list spv_inst) : list Z := target <$> List.filter (fun i => op i =? 73) l.
Definition decorates (g : Z) (i : spv_inst) : bool := is_dec i && (target i =? g).
Definition decs (l : list spv_inst) (g : Z) : list spv_inst := List.filter (decorates g) l.

(** A decoration of the group given to a target, or to a member of one. *)
Definition apply_to (t : Z) (d : spv_inst) : spv_inst := Inst (op d) (n d) (t :: drop 1 (w d)).
Definition apply_member (t m : Z) (d : spv_inst) : spv_inst := Inst 72 (n d + 1) (t :: m :: drop 1 (w d)).

Fixpoint pairs (l : list Z) : list (Z * Z) :=
  match l with t :: m :: l => (t, m) :: pairs l | _ => [] end.

Definition expand (l : list spv_inst) (i : spv_inst) : list spv_inst :=
  if op i =? 74 then t ← drop 1 (w i); apply_to t <$> decs l (target i)
  else if op i =? 75 then tm ← pairs (drop 1 (w i)); apply_member tm.1 tm.2 <$> decs l (target i)
  else [i].

(** ** Walking the code *)

Definition pos (done : list spv_inst) : Z := 5 + Z.of_nat (length (image done)).

Lemma image_app l1 l2 : image (l1 ++ l2) = image l1 ++ image l2.
Proof. now rewrite fmap_app, concat_app. Qed.

Lemma pos_snoc done i : inst_ok i -> pos (done ++ [i]) = pos done + n i.
Proof.
  intros Hi. unfold pos. rewrite image_app, length_app. cbn [fmap list_fmap concat]. rewrite app_nil_r.
  pose proof (length_write i Hi). lia.
Qed.

Lemma head_word i todo : inst_ok i -> rd (image (i :: todo)) 0 = Ok (op i + n i * 2 ^ 16).
Proof. intros Hi. rewrite <- (app_nil_r (image (i :: todo))), image_cons by assumption. reflexivity. Qed.

(** Operand [k] of an instruction through its pointer. *)
Lemma rd_operand i todo k : inst_ok i -> 1 <= k < n i -> rd (image (i :: todo)) k = Ok (nth (Z.to_nat (k - 1)) (w i) 0).
Proof.
  intros Hi Hk. rewrite <- (app_nil_r (image (i :: todo))), image_cons by assumption. destruct Hi as (_ & _ & Hw).
  unfold rd. rewrite (proj2 (Z.ltb_ge _ _)) by lia. rewrite lookup_cons_ne_0 by lia.
  replace (Nat.pred (Z.to_nat k)) with (Z.to_nat (k - 1)) by lia. rewrite lookup_app_l by lia.
  destruct (lookup_lt_is_Some_2 (w i) (Z.to_nat (k - 1))) as [x Hx]; [lia|]. now rewrite Hx, (nth_lookup_Some _ _ 0 x Hx).
Qed.

Section Walk.
Variables (hd : list Z) (l : list spv_inst).
Hypothesis Hhd : length hd = 5%nat.
Hypothesis Hl : Forall inst_ok l.

Definition code : list Z := hd ++ image l.
Definition size : Z := Z.of_nat (length code).
Lemma drop_pos done todo : l = done ++ todo -> drop (Z.to_nat (pos done)) code = image todo.
Proof.
  intros E. unfold code, pos. rewrite E, image_app.
  replace (Z.to_nat (5 + Z.of_nat (length (image done)))) with (length (hd ++ image done)) by (rewrite length_app; lia).
  now rewrite app_assoc, drop_app_length.
Qed.

Lemma size_pos done todo : l = done ++ todo -> size = pos done + Z.of_nat (length (image todo)).
Proof. intros E. unfold size, code, pos. rewrite E, image_app, !length_app. lia. Qed.

Lemma rd_pos done i todo : l = done ++ i :: todo -> inst_ok i -> rd code (pos done) = Ok (op i + n i * 2 ^ 16).
Proof.
  intros E Hi. unfold code, pos. rewrite E, image_app, app_assoc. cbn [fmap list_fmap concat].
  rewrite write_inst_ok by assumption. cbn [app]. apply rd_middle. rewrite length_app. lia.
Qed.

Lemma frame_loop_ok : forall todo done fuel a, l = done ++ todo -> (length todo < fuel)%nat ->
  frame_loop fuel code size (pos done) a = Ok (Some (a + Z.of_nat (length (List.filter is_app todo)))).
Proof.
  induction todo as [|i todo IH]; intros done [|fuel] a E Hf; try (cbn in Hf; lia); cbn [frame_loop].
  { rewrite (size_pos done [] E). cbn. now rewrite Z.add_0_r, Z.ltb_irrefl, Z.add_0_r. }
  assert (inst_ok i) as Hi by (rewrite E in Hl; now apply Forall_app in Hl as [_ [Hl _]%Forall_cons_1]).
  pose proof (length_write i Hi) as Lw. pose proof (proj1 (proj2 Hi)).
  assert (size - pos done = n i + Z.of_nat (length (image todo))) as Es
    by (rewrite (size_pos done _ E); cbn [fmap list_fmap concat]; rewrite length_app; lia).
  rewrite (proj2 (Z.ltb_lt _ _)) by lia.
  rewrite (rd_pos done i todo E Hi). cbn [obind]. pose proof (split_word (op i) (n i) (proj1 Hi)) as [-> ->].
  rewrite (proj2 (Z.eqb_neq _ _)), (proj2 (Z.ltb_ge _ _)) by lia. cbn [orb].
  rewrite <- pos_snoc by assumption. rewrite IH; [|now rewrite <- app_assoc|cbn in Hf; lia].
  cbn [List.filter]. unfold is_app at 2. do 2 f_equal. destruct (_ || _); cbn [length]; lia.
Qed.

(** An invariant over the instructions passed. *)
Lemma walk_inv {St} (P : list spv_inst -> St -> Prop) body :
  (forall done i todo s, l = done ++ i :: todo -> inst_ok i -> P done s ->
     exists s', body (pos done) (image (i :: todo)) (op i) (n i) s = Ok (inl s') /\ P (done ++ [i]) s') ->
  forall todo done fuel s, l = done ++ todo -> (length todo < fuel)%nat -> P done s ->
  exists s', walk fuel code size (pos done) body s = Ok (inl s') /\ P l s'.
Proof.
  intros Hb. induction todo as [|i todo IH]; intros done [|fuel] s E Hf Hp; try (cbn in Hf; lia); cbn [walk].
  { rewrite (size_pos done [] E). cbn. rewrite Z.add_0_r, Z.ltb_irrefl. exists s. rewrite app_nil_r in E. now subst. }
  assert (inst_ok i) as Hi by (rewrite E in Hl; now apply Forall_app in Hl as [_ [Hl _]%Forall_cons_1]).
  pose proof (length_write i Hi) as Lw. pose proof (proj1 (proj2 Hi)).
  rewrite (size_pos done _ E), (proj2 (Z.ltb_lt _ _)) by (cbn [fmap list_fmap concat]; rewrite length_app; lia).
  rewrite <- (size_pos done _ E), (drop_pos done _ E), head_word by assumption. cbn [obind].
  pose proof (split_word (op i) (n i) (proj1 Hi)) as [-> ->].
  destruct (Hb done i todo s E Hi Hp) as (s' & -> & Hp'). cbn [obind].
  rewrite <- pos_snoc by assumption. apply IH; [now rewrite <- app_assoc|cbn in Hf; lia|assumption].
Qed.

Lemma walk_all {St} (P : list spv_inst -> St -> Prop) body fuel s :
  (forall done i todo s, l = done ++ i :: todo -> inst_ok i -> P done s ->
     exists s', body (pos done) (image (i :: todo)) (op i) (n i) s = Ok (inl s') /\ P (done ++ [i]) s') ->
  (length l < fuel)%nat -> P [] s -> exists s', walk fuel code size 5 body s = Ok (inl s') /\ P l s'.
Proof. intros Hb Hf Hp. exact (walk_inv P body Hb l [] fuel s eq_refl Hf Hp). Qed.
End Walk.

(** ** The inner loops *)

(** A list threaded through [next]. *)
Definition linked (next : gmap Z Z) (ps : list Z) : Prop :=
  forall k p, ps !! k = Some p -> default 0 (next !! p) = default 0 (ps !! S k).

Lemma chain_inv {St} (P : nat -> St -> Prop) next size ps body :
  linked next ps -> Forall (fun p => 0 < p < size) ps ->
  (forall k p s, ps !! k = Some p -> P k s -> exists s', body p s = Ok (inl s') /\ P (S k) s') ->
  forall m k fuel s, (k + m = length ps)%nat -> (m < fuel)%nat -> P k s ->
  exists s', chain fuel next size (default 0 (ps !! k)) body s = Ok (inl s') /\ P (length ps) s'.
Proof.
  intros Hn Hp Hb. induction m as [|m IH]; intros k [|fuel] s E Hf Hk; try lia; cbn [chain].
  { rewrite lookup_ge_None_2 by lia. cbn. exists s. replace (length ps) with k by lia. auto. }
  destruct (lookup_lt_is_Some_2 ps k) as [p Hpk]; [lia|]. rewrite Hpk. change (default 0 (Some p)) with p.
  pose proof (Forall_lookup_1 _ _ _ _ Hp Hpk) as Hr. cbn in Hr. rewrite (proj2 (Z.eqb_neq _ _)) by lia.
  destruct (Hb k p s Hpk Hk) as (s' & -> & Hk'). cbn [obind]. unfold get_next.
  rewrite (proj2 (Z.leb_le _ _)), (proj2 (Z.ltb_lt _ _)) by lia. cbn [andb obind].
  rewrite (Hn k p Hpk). apply IH; [lia|lia|assumption].
Qed.

Lemma targets_inv {St} (P : nat -> St -> Prop) (total : nat) count stride body :
  0 < stride -> count = 2 + Z.of_nat total * stride ->
  (forall k s, (k < total)%nat -> P k s -> exists s', body (2 + Z.of_nat k * stride) s = Ok (inl s') /\ P (S k) s') ->
  forall m k fuel s, (k + m = total)%nat -> (m < fuel)%nat -> P k s ->
  exists s', targets fuel (2 + Z.of_nat k * stride) count stride body s = Ok (inl s') /\ P total s'.
Proof.
  intros Hs Hc Hb. induction m as [|m IH]; intros k [|fuel] s E Hf Hk; try lia; cbn [targets].
  { rewrite (proj2 (Z.ltb_ge _ _)) by nia. exists s. replace total with k by lia. auto. }
  rewrite (proj2 (Z.ltb_lt _ _)) by nia. destruct (Hb k s) as (s' & -> & Hk'); [lia|assumption|]. cbn [obind].
  replace (2 + Z.of_nat k * stride + stride) with (2 + Z.of_nat (S k) * stride) by lia. apply IH; [lia|lia|assumption].
Qed.
(** ** Positions of decorations *)

Fixpoint dpos (at_ : Z) (l : list spv_inst) (g : Z) : list Z :=
  match l with
  | [] => []
  | i :: l => if decorates g i then at_ :: dpos (at_ + n i) l g else dpos (at_ + n i) l g
  end.

Lemma dpos_snoc g : forall l a i, Forall inst_ok l ->
  dpos a (l ++ [i]) g = dpos a l g ++ (if decorates g i then [a + Z.of_nat (length (image l))] else []).
Proof.
  induction l as [|j l IH]; intros a i H; cbn [dpos app].
  - cbn. rewrite Z.add_0_r. now destruct (decorates g i).
  - apply Forall_cons_1 in H as [Hj H]. rewrite (IH _ _ H). cbn [fmap list_fmap concat]. rewrite length_app.
    pose proof (length_write j Hj). replace (a + n j + Z.of_nat (length (image l)))
      with (a + Z.of_nat (length (write_inst j) + length (image l))) by lia. now destruct (decorates g j).
Qed.

Lemma dpos_range g : forall l a p, Forall inst_ok l -> p ∈ dpos a l g -> a <= p < a + Z.of_nat (length (image l)).
Proof.
  induction l as [|j l IH]; intros a p H Hp; cbn [dpos] in Hp; [now apply not_elem_of_nil in Hp|].
  apply Forall_cons_1 in H as [Hj H]. cbn [fmap list_fmap concat]. rewrite length_app. pose proof (length_write j Hj).
  assert (p = a \/ p ∈ dpos (a + n j) l g) as [->|Hq] by (destruct (decorates g j); [now apply elem_of_cons in Hp|auto]).
  - destruct Hj as (_ & ? & _). lia.
  - pose proof (IH _ _ H Hq). destruct Hj as (_ & ? & _). lia.
Qed.

Lemma dpos_nodup g : forall l a, Forall inst_ok l -> NoDup (dpos a l g).
Proof.
  induction l as [|j l IH]; intros a H; cbn [dpos]; [constructor|]. apply Forall_cons_1 in H as [Hj H].
  destruct (decorates g j); [|now apply IH]. constructor; [|now apply IH].
  intros Hp. pose proof (dpos_range _ _ _ _ H Hp). destruct Hj as (_ & ? & _). lia.
Qed.

Lemma decorates_target g i : decorates g i = true -> g = target i.
Proof. unfold decorates. intros [_ H]%andb_prop. now apply Z.eqb_eq in H. Qed.

Lemma dpos_disjoint g g' : forall l a p, Forall inst_ok l -> p ∈ dpos a l g -> p ∈ dpos a l g' -> g = g'.
Proof.
  induction l as [|j l IH]; intros a p H Hp Hp'; cbn [dpos] in Hp, Hp'; [now apply not_elem_of_nil in Hp|].
  apply Forall_cons_1 in H as [Hj H].
  assert (forall h, a ∉ dpos (a + n j) l h) as Ha.
  { intros h Hh. pose proof (dpos_range _ _ _ _ H Hh). destruct Hj as (_ & ? & _). lia. }
  destruct (decorates g j) eqn:E, (decorates g' j) eqn:E'.
  - apply decorates_target in E, E'. congruence.
  - apply elem_of_cons in Hp as [->|Hp]; [now apply Ha in Hp'|now apply (IH (a + n j) p)].
  - apply elem_of_cons in Hp' as [->|Hp']; [now apply Ha in Hp|now apply (IH (a + n j) p)].
  - now apply (IH (a + n j) p).
Qed.

(** The [k]-th position holds the [k]-th decoration. *)
Lemma dpos_lookup g all : forall l done k p, all = done ++ l -> Forall inst_ok all -> dpos (pos done) l g !! k = Some p ->
  exists d done' todo, decs l g !! k = Some d /\ all = done' ++ d :: todo /\ p = pos done'.
Proof.
  induction l as [|j l IH]; intros done k p E H Hk; cbn [dpos] in Hk; [now rewrite lookup_nil in Hk|].
  assert (inst_ok j) as Hj by (rewrite E in H; now apply Forall_app in H as [_ [H _]%Forall_cons_1]).
  assert (all = (done ++ [j]) ++ l) as E' by now rewrite <- app_assoc.
  rewrite <- (pos_snoc done j Hj) in Hk. unfold decs. cbn [List.filter].
  destruct (decorates g j); [|exact (IH _ k p E' H Hk)]. destruct k as [|k].
  - injection Hk as <-. exists j, done, l. auto.
  - exact (IH _ k p E' H Hk).
Qed.

Lemma dpos_length g : forall l a, length (dpos a l g) = length (decs l g).
Proof. induction l as [|j l IH]; intros a; [reflexivity|]. cbn [dpos decs List.filter]. unfold decs in IH. destruct (decorates g j); cbn; now rewrite IH. Qed.

(** ** Linking *)

Lemma linked_snoc next ps a :
  linked next ps -> NoDup ps -> a ∉ ps -> next !! a = None -> Forall (fun p => 0 < p) ps ->
  linked (if negb (default 0 (list.last ps) =? 0) then <[default 0 (list.last ps) := a]> next else next) (ps ++ [a]).
Proof.
  intros Hl Hn Ha Hna Hp. destruct ps as [|p0 ps0] eqn:Eps.
  { cbn. intros [|k] p Hk; [|destruct k; discriminate Hk]. injection Hk as <-. now rewrite Hna. }
  rewrite <- Eps in *. assert (exists z, list.last ps = Some z) as (z & Hz) by (apply last_is_Some; now subst).
  rewrite Hz. change (default 0 (Some z)) with z. rewrite last_lookup in Hz.
  pose proof (Forall_lookup_1 _ _ _ _ Hp Hz) as Hz0. cbn in Hz0. rewrite (proj2 (Z.eqb_neq z 0)) by lia. cbn [negb].
  assert (a <> z) as Haz by (intros ->; apply Ha; now apply (list_elem_of_lookup_2 _ _ _ Hz)).
  intros k p Hk. destruct (Nat.lt_ge_cases k (length ps)) as [Hlt|Hge].
  - rewrite lookup_app_l in Hk by assumption. destruct (Nat.eq_dec k (Nat.pred (length ps))) as [->|Hne].
    + rewrite Hz in Hk. injection Hk as <-. rewrite lookup_insert_eq. rewrite lookup_app_r by lia.
      now replace (S (Nat.pred (length ps)) - length ps)%nat with 0%nat by lia.
    + rewrite lookup_insert_ne. { rewrite (Hl k p Hk), lookup_app_l by lia. reflexivity. }
      intros ->. apply Hne. exact (NoDup_lookup _ _ _ _ Hn Hk Hz).
  - rewrite lookup_app_r in Hk by assumption. destruct (k - length ps)%nat as [|m] eqn:Em; [|destruct m; discriminate Hk].
    injection Hk as <-. rewrite lookup_insert_ne by congruence. rewrite Hna, lookup_ge_None_2; [reflexivity|].
    rewrite length_app. cbn. lia.
Qed.

Lemma linked_other next ps z a : linked next ps -> z ∉ ps -> linked (<[z := a]> next) ps.
Proof.
  intros Hl Hz k p Hk. rewrite lookup_insert_ne; [now apply Hl|]. intros ->. apply Hz. now apply (list_elem_of_lookup_2 _ _ _ Hk).
Qed.

(** ** Valid modules *)

Definition targets_of (i : spv_inst) : list Z := if op i =? 75 then (pairs (drop 1 (w i))).*1 else drop 1 (w i).

Record valid (bound : Z) (l : list spv_inst) : Prop := {
  v_words : forall i, i ∈ l -> Forall (in_range 32) (w i);
  v_def : forall i, i ∈ l -> op i = 73 -> n i = 2 /\ 0 < target i < bound;
  v_unique : NoDup (defs l);
  v_dec : forall i, i ∈ l -> op i = 71 \/ op i = 332 \/ op i = 5632 ->
    3 <= n i /\ target i < bound /\ (op i = 5632 -> target i ∉ defs l);
  v_app : forall i, i ∈ l -> is_app i = true ->
    2 <= n i /\ target i ∈ defs l /\ Forall (fun t => 0 < t < bound /\ t ∉ defs l) (targets_of i);
  v_member : forall i, i ∈ l -> op i = 75 ->
    n i mod 2 = 0 /\ Forall (fun d => op d = 71 /\ n d <> 0xffff) (decs l (target i)) }.
Lemma defs_snoc done i : defs (done ++ [i]) = defs done ++ (if op i =? 73 then [target i] else []).
Proof. unfold defs. rewrite List.filter_app, fmap_app. cbn. now destruct (op i =? 73). Qed.

Lemma decs_snoc done i g : decs (done ++ [i]) g = decs done g ++ (if decorates g i then [i] else []).
Proof. unfold decs. rewrite List.filter_app. cbn. now destruct (decorates g i). Qed.

Lemma filter_image f l : (length (image (List.filter f l)) <= length (image l))%nat.
Proof.
  induction l as [|i l IH]; [cbn; lia|]. change (image (i :: l)) with (write_inst i ++ image l). cbn [List.filter].
  destruct (f i); [change (image (i :: List.filter f l)) with (write_inst i ++ image (List.filter f l))|]; rewrite !length_app; lia.
Qed.

Lemma get_group_ok groups bound id : 0 <= id < bound -> get_group groups bound id = Ok (default zero_group (groups !! id)).
Proof. intros H. unfold get_group. now rewrite (proj2 (Z.leb_le _ _)), (proj2 (Z.ltb_lt _ _)) by lia. Qed.

(** ** The targets of an application *)

Definition stride (i : spv_inst) : Z := if op i =? 75 then 2 else 1.

(** What an application does to each decoration of its group, target by target. *)
Definition apps (i : spv_inst) : list (spv_inst -> spv_inst) :=
  if op i =? 75 then (fun tm => apply_member tm.1 tm.2) <$> pairs (drop 1 (w i)) else apply_to <$> drop 1 (w i).

Lemma expand_apps l i : is_app i = true -> expand l i = apps i ≫= fun f => f <$> decs l (target i).
Proof.
  unfold is_app, expand, apps. intros [E|E]%orb_prop; apply Z.eqb_eq in E; rewrite E; cbn [Z.eqb Pos.eqb].
  - induction (drop 1 (w i)) as [|x xs IH]; [reflexivity|]. cbn. f_equal. exact IH.
  - induction (pairs (drop 1 (w i))) as [|x xs IH]; [reflexivity|]. cbn. f_equal. exact IH.
Qed.

Lemma pairs_lookup : forall k xs, (2 * k + 1 < length xs)%nat -> pairs xs !! k = Some (nth (2 * k) xs 0, nth (2 * k + 1) xs 0).
Proof.
  induction k as [|k IH]; intros [|t [|m xs]] H; cbn [length] in H; try lia; [reflexivity|]. cbn [pairs].
  replace (2 * S k)%nat with (S (S (2 * k))) by lia. cbn [nth Nat.add]. apply IH. lia.
Qed.

Lemma pairs_length : forall m xs, length xs = (2 * m)%nat -> length (pairs xs) = m.
Proof.
  induction m as [|m IH]; intros [|t [|x xs]] H; cbn [length] in H; try lia; [reflexivity|]. cbn. f_equal. apply IH. lia.
Qed.

Lemma nth_tail (xs : list Z) k : nth k (drop 1 xs) 0 = nth (S k) xs 0.
Proof. destruct xs; [now destruct k|]. reflexivity. Qed.

(** The number of targets, and the [k]-th one in the words. *)
Lemma targets_count i : inst_ok i -> is_app i = true -> 2 <= n i -> (op i = 75 -> n i mod 2 = 0) ->
  n i = 2 + Z.of_nat (length (apps i)) * stride i /\ (n i - 2) / stride i = Z.of_nat (length (apps i)).
Proof.
  intros (_ & _ & Hw) _ Hn He. unfold apps, stride. destruct (Z.eqb_spec (op i) 75) as [E|E].
  - specialize (He E). pose proof (Z.div_mod (n i) 2 ltac:(lia)) as Hd. set (q := n i / 2) in *.
    rewrite length_fmap, (pairs_length (Z.to_nat (q - 1))) by (rewrite length_drop; lia).
    split; [lia|]. replace (n i - 2) with ((q - 1) * 2) by lia. rewrite Z.div_mul by lia. lia.
  - rewrite length_fmap, length_drop, Z.div_1_r. lia.
Qed.

Lemma targets_nth i k : inst_ok i -> is_app i = true -> 2 <= n i -> (op i = 75 -> n i mod 2 = 0) -> (k < length (apps i))%nat ->
  let x := nth (Z.to_nat (1 + Z.of_nat k * stride i)) (w i) 0 in
  let y := nth (Z.to_nat (2 + Z.of_nat k * stride i)) (w i) 0 in
  1 + Z.of_nat k * stride i < n i - stride i /\ x ∈ targets_of i /\
  apps i !! k = Some (if op i =? 75 then apply_member x y else apply_to x).
Proof.
  intros Hi Ha Hn He Hk x y. destruct (targets_count i Hi Ha Hn He) as [Hc _]. destruct Hi as (_ & _ & Hw).
  split; [unfold stride in *; destruct (op i =? 75); nia|]. unfold apps, targets_of, stride in *.
  destruct (Z.eqb_spec (op i) 75) as [E|E].
  - rewrite length_fmap in *. assert (2 * k + 1 < length (drop 1 (w i)))%nat as H2 by (rewrite length_drop; lia).
    pose proof (pairs_lookup k _ H2) as Hp. rewrite !nth_tail in Hp.
    replace (S (2 * k)) with (Z.to_nat (1 + Z.of_nat k * 2)) in Hp by lia.
    replace (S (2 * k + 1)) with (Z.to_nat (2 + Z.of_nat k * 2)) in Hp by lia. fold x y in Hp. split.
    + apply (list_elem_of_lookup_2 _ k). rewrite list_lookup_fmap, Hp. reflexivity.
    + rewrite list_lookup_fmap, Hp. reflexivity.
  - rewrite length_fmap in *. assert (drop 1 (w i) !! k = Some x) as Hx.
    { destruct (lookup_lt_is_Some_2 (drop 1 (w i)) k) as [z Hz]; [assumption|]. rewrite Hz. f_equal.
      apply (nth_lookup_Some _ _ 0) in Hz. rewrite nth_tail in Hz. unfold x.
      replace (Z.to_nat (1 + Z.of_nat k * 1)) with (S k) by lia. now symmetry. }
    split; [now apply (list_elem_of_lookup_2 _ k)|]. now rewrite list_lookup_fmap, Hx.
Qed.

Lemma image_bind_length (fs : list (spv_inst -> spv_inst)) ds c :
  (forall f d, f ∈ fs -> d ∈ ds -> inst_ok (f d) /\ inst_ok d /\ n (f d) = n d + c) ->
  Z.of_nat (length (image (fs ≫= fun f => f <$> ds))) = (Z.of_nat (length (image ds)) + c * Z.of_nat (length ds)) * Z.of_nat (length fs).
Proof.
  intros H. assert (forall f ds', f ∈ fs -> (forall d, d ∈ ds' -> d ∈ ds) ->
    Z.of_nat (length (image (f <$> ds'))) = Z.of_nat (length (image ds')) + c * Z.of_nat (length ds')) as Hf.
  { intros f ds' Hin. induction ds' as [|d ds' IH]; intros Hs; [cbn; lia|].
    change (image (f <$> d :: ds')) with (write_inst (f d) ++ image (f <$> ds')). change (image (d :: ds')) with (write_inst d ++ image ds').
    rewrite !length_app. cbn [length]. destruct (H f d Hin) as (H1 & H2 & H3); [apply Hs, elem_of_cons; now left|].
    pose proof (length_write _ H1). pose proof (length_write _ H2).
    assert (forall d0, d0 ∈ ds' -> d0 ∈ ds) as Hs' by (intros d0 Hd0; apply Hs, elem_of_cons; now right).
    specialize (IH Hs'). lia. }
  clear H. induction fs as [|f fs IH]; [cbn; lia|].
  change ((f :: fs) ≫= fun f => f <$> ds) with ((f <$> ds) ++ (fs ≫= fun f => f <$> ds)). rewrite image_app, length_app.
  rewrite Nat2Z.inj_add, (Hf f ds) by (auto; apply elem_of_cons; now left). cbn [length]. rewrite IH; [lia|].
  intros f' ds' Hin. apply Hf. apply elem_of_cons. now right.
Qed.

Lemma copy_all p rest k : Z.of_nat (length p) = k -> copy (p ++ rest) k = Ok p.
Proof.
  intros <-. unfold copy. rewrite length_app, (proj2 (Z.ltb_ge _ _)) by lia. now rewrite Nat2Z.id, take_app_length.
Qed.

Lemma filter_none l : existsb is_app l = false -> List.filter is_app l = [].
Proof.
  induction l as [|i l IH]; [done|]. cbn. intros [E1 E2]%orb_false_elim. rewrite E1. now apply IH.
Qed.

Lemma filter_some l : existsb is_app l = true -> (0 < length (List.filter is_app l))%nat.
Proof. induction l as [|i l IH]; [done|]. cbn. destruct (is_app i); cbn; [lia|exact IH]. Qed.

Section Valid.
Variables (hd : list Z) (l : list spv_inst) (bound : Z).
Hypothesis Hhd : length hd = 5%nat.
Hypothesis Hl : Forall inst_ok l.
Hypothesis Hv : valid bound l.
Abbreviation code := (code hd l).
Abbreviation size := (size hd l).
Hypothesis Hsize : size < 2 ^ 62.

Lemma split_in done i todo : l = done ++ i :: todo -> i ∈ l.
Proof. intros ->. rewrite elem_of_app, elem_of_cons. auto. Qed.

Lemma split_ok done i todo : l = done ++ i :: todo -> Forall inst_ok done.
Proof. intros E. rewrite E in Hl. now apply Forall_app in Hl as [? _]. Qed.

Lemma target_rd i todo : i ∈ l -> inst_ok i -> 2 <= n i -> rd (image (i :: todo)) 1 = Ok (target i) /\ 0 <= target i.
Proof.
  intros Hin Hi Hn. rewrite rd_operand by (assumption || lia). split; [reflexivity|].
  pose proof (v_words _ _ Hv i Hin) as Hw. destruct Hi as (_ & _ & Hlen). unfold target.
  destruct (w i) as [|x t]; cbn [length nth] in *; [lia|]. now apply Forall_cons_1 in Hw as [[? _] _].
Qed.

(** The first pass marks the defined groups. *)
Definition after_define (done : list spv_inst) (groups : gmap Z group) : Prop :=
  forall g, default zero_group (groups !! g) = if bool_decide (g ∈ defs done) then Group 0 0 0 0 true else zero_group.

Lemma define_step done i todo groups :
  l = done ++ i :: todo -> inst_ok i -> after_define done groups ->
  exists groups', define_body bound (pos done) (image (i :: todo)) (op i) (n i) groups = Ok (inl groups') /\
    after_define (done ++ [i]) groups'.
Proof.
  intros E Hi Hp. pose proof (split_in _ _ _ E) as Hin. unfold define_body.
  destruct (Z.eqb_spec (op i) 73) as [E73|E73]; cbn [negb].
  2:{ exists groups. split; [reflexivity|]. intros g. rewrite (Hp g), defs_snoc, (proj2 (Z.eqb_neq _ _) E73). now rewrite app_nil_r. }
  destruct (v_def _ _ Hv i Hin E73) as [En Hb]. rewrite (proj2 (Z.eqb_eq _ _) En). cbn [negb].
  destruct (target_rd i todo Hin Hi) as [-> Ht]; [lia|]. cbn [obind].
  rewrite (proj2 (Z.eqb_neq _ _)), (proj2 (Z.leb_gt _ _)) by lia. cbn [orb]. rewrite get_group_ok by lia. cbn [obind].
  assert (target i ∉ defs done) as Hnd.
  { intros Hd. pose proof (v_unique _ _ Hv) as Hu. rewrite E in Hu. unfold defs in Hu, Hd. rewrite List.filter_app, fmap_app in Hu.
    apply NoDup_app in Hu as (_ & Hu & _). apply (Hu _ Hd). cbn. rewrite E73. cbn. apply elem_of_cons. now left. }
  pose proof (Hp (target i)) as Hg. rewrite bool_decide_eq_false_2 in Hg by assumption. rewrite Hg. cbn [zero_group defined].
  eexists. split; [reflexivity|]. intros g. rewrite defs_snoc, E73. change (73 =? 73) with true. cbn [app].
  destruct (Z.eq_dec g (target i)) as [->|Hne].
  - rewrite lookup_insert_eq, bool_decide_eq_true_2; [reflexivity|]. apply elem_of_app. right. apply elem_of_cons. now left.
  - rewrite lookup_insert_ne, (Hp g) by congruence. erewrite bool_decide_ext; [reflexivity|].
    rewrite elem_of_app, elem_of_cons. split; [now left|]. intros [?|[?|Hn]]; [assumption|congruence|now apply not_elem_of_nil in Hn].
Qed.

(** The second pass collects and links the decorations of each group. *)
Definition group_of (done : list spv_inst) (g : Z) : group :=
  if bool_decide (g ∈ defs l)
  then Group (default 0 (head (dpos 5 done g))) (default 0 (list.last (dpos 5 done g)))
         (Z.of_nat (length (image (decs done g)))) (Z.of_nat (length (decs done g))) true
  else zero_group.

Definition after_collect (done : list spv_inst) (s : gmap Z group * gmap Z Z) : Prop :=
  (forall g, default zero_group (s.1 !! g) = group_of done g) /\
  (forall g, g ∈ defs l -> linked s.2 (dpos 5 done g)) /\ (forall p, pos done <= p -> s.2 !! p = None).

(** An instruction that decorates no group changes nothing. *)
Lemma collect_skip done i s : Forall inst_ok done -> inst_ok i -> (forall g, g ∈ defs l -> decorates g i = false) ->
  after_collect done s -> after_collect (done ++ [i]) s.
Proof.
  intros Hd Hi Hg (H1 & H2 & H3). split; [|split].
  - intros g. rewrite H1. unfold group_of. destruct (bool_decide_reflect (g ∈ defs l)) as [Hin|]; [|reflexivity].
    now rewrite dpos_snoc, decs_snoc, (Hg g Hin), !app_nil_r by assumption.
  - intros g Hin. rewrite dpos_snoc, (Hg g Hin), app_nil_r by assumption. now apply H2.
  - intros p Hp. apply H3. rewrite pos_snoc in Hp by assumption. destruct Hi as (_ & ? & _). lia.
Qed.

(** A decoration of a defined group is linked after the group's last one. *)
Lemma collect_link done i todo groups next :
  l = done ++ i :: todo -> inst_ok i -> target i ∈ defs l -> is_dec i = true -> after_collect done (groups, next) ->
  let g := group_of done (target i) in
  let linked := negb (last g =? 0) in
  after_collect (done ++ [i])
    (<[target i := Group (if linked then first g else pos done) (pos done) (words g + n i) (decorations g + 1) true]> groups,
     if linked then <[last g := pos done]> next else next).
Proof.
  intros E Hi Hin Hd (H1 & H2 & H3) g lk. cbn [fst snd] in *. pose proof (split_ok _ _ _ E) as Hok.
  assert (g = Group (default 0 (head (dpos 5 done (target i)))) (default 0 (list.last (dpos 5 done (target i))))
    (Z.of_nat (length (image (decs done (target i))))) (Z.of_nat (length (decs done (target i)))) true) as Eg
    by (unfold g, group_of; now rewrite bool_decide_eq_true_2).
  assert (decorates (target i) i = true) as Hdi by (unfold decorates; rewrite Hd, Z.eqb_refl; reflexivity).
  assert (forall g' p, p ∈ dpos 5 done g' -> 5 <= p < pos done) as Hr by (intros g' p Hp; exact (dpos_range g' done 5 p Hok Hp)).
  unfold lk. clear lk. clearbody g. rewrite Eg. cbn [last first words decorations]. set (ps := dpos 5 done (target i)) in *.
  set (lk := negb (default 0 (list.last ps) =? 0)). split; [|split]; cbn [fst snd].
  - intros g'. unfold group_of. destruct (Z.eq_dec g' (target i)) as [->|Hne].
    + rewrite lookup_insert_eq, bool_decide_eq_true_2 by assumption. cbn [default].
      rewrite dpos_snoc, decs_snoc, Hdi, image_app, !length_app by assumption. fold ps. change (5 + Z.of_nat (length (image done))) with (pos done).
      rewrite last_snoc. change (image [i]) with (write_inst i ++ []). rewrite app_nil_r. pose proof (length_write i Hi).
      unfold id. cbn [from_option]. f_equal; [|lia|cbn [length]; lia].
      unfold lk. assert (forall z, z ∈ ps -> z <> 0) as Hps by (intros z Hz; pose proof (Hr _ _ Hz); lia).
      clear -Hps. destruct ps as [|q ps0]; [reflexivity|]. cbn [app head].
      destruct (list.last (q :: ps0)) as [z|] eqn:Ez; [|now apply last_None in Ez]. change (default 0 (Some z)) with z.
      rewrite last_lookup in Ez. now rewrite (proj2 (Z.eqb_neq z 0)) by now apply Hps, (list_elem_of_lookup_2 _ _ _ Ez).
    + rewrite lookup_insert_ne by congruence. rewrite H1. unfold group_of. destruct (bool_decide _); [|reflexivity].
      rewrite dpos_snoc, decs_snoc by assumption. destruct (decorates g' i) eqn:E'; [now apply decorates_target in E'|].
      now rewrite !app_nil_r.
  - intros g' Hg'. rewrite dpos_snoc by assumption. change (5 + Z.of_nat (length (image done))) with (pos done).
    destruct (decorates g' i) eqn:E'.
    + apply decorates_target in E' as ->. apply linked_snoc; [now apply H2|now apply dpos_nodup| |apply H3; lia|].
      * intros Hp. pose proof (Hr _ _ Hp). lia.
      * apply Forall_forall. intros p Hp. assert (p ∈ ps) as Hp' by (first [exact Hp|now apply list_elem_of_In]). pose proof (Hr _ _ Hp'). lia.
    + rewrite app_nil_r. unfold lk. destruct (list.last ps) as [z|] eqn:Ez; [|now apply H2].
      change (default 0 (Some z)) with z. destruct (negb (z =? 0)); [|now apply H2]. apply linked_other; [now apply H2|].
      intros Hz. assert (g' = target i) as ->.
      { apply (dpos_disjoint g' (target i) done 5 z Hok Hz). rewrite last_lookup in Ez. now apply (list_elem_of_lookup_2 _ _ _ Ez). }
      congruence.
  - intros p Hp. rewrite pos_snoc in Hp by assumption. destruct Hi as (_ & Hn & _).
    unfold lk. destruct (list.last ps) as [z|] eqn:Ez; [|cbn; apply H3; lia].
    change (default 0 (Some z)) with z. destruct (negb (z =? 0)); [|apply H3; lia].
    assert (z ∈ ps) as Hz by (rewrite last_lookup in Ez; now apply (list_elem_of_lookup_2 _ _ _ Ez)). pose proof (Hr _ _ Hz).
    rewrite lookup_insert_ne by lia. apply H3. lia.
Qed.

Lemma collect_step done i todo s :
  l = done ++ i :: todo -> inst_ok i -> after_collect done s ->
  exists s', collect_body bound (pos done) (image (i :: todo)) (op i) (n i) s = Ok (inl s') /\ after_collect (done ++ [i]) s'.
Proof.
  intros E Hi Hp. pose proof (split_in _ _ _ E) as Hin. pose proof (split_ok _ _ _ E) as Hok. destruct s as [groups next].
  unfold collect_body.
  destruct ((op i =? 71) || (op i =? 332) || (op i =? 5632)) eqn:Eo; cbn [negb].
  2:{ eexists. split; [reflexivity|]. apply collect_skip; auto. intros g _. unfold decorates, is_dec.
      apply orb_false_elim in Eo as [-> _]. reflexivity. }
  assert (op i = 71 \/ op i = 332 \/ op i = 5632) as Ho.
  { apply orb_prop in Eo as [Eo|Eo]; [apply orb_prop in Eo as [Eo|Eo]|]; apply Z.eqb_eq in Eo; auto. }
  destruct (v_dec _ _ Hv i Hin Ho) as (Hn & Ht & Hs). rewrite (proj2 (Z.ltb_ge _ _)) by lia.
  destruct (target_rd i todo Hin Hi) as [-> Ht0]; [lia|]. cbn [obind]. rewrite (proj2 (Z.leb_gt _ _)) by lia.
  rewrite get_group_ok by lia. cbn [obind]. pose proof (proj1 Hp (target i)) as Hg. cbn [fst] in Hg. rewrite Hg.
  destruct (bool_decide_reflect (target i ∈ defs l)) as [Hdef|Hdef].
  2:{ unfold group_of at 1. rewrite bool_decide_eq_false_2 by assumption. cbn [zero_group defined negb].
      eexists. split; [reflexivity|]. apply collect_skip; auto. intros g Hgd. destruct (decorates g i) eqn:Eg; [|reflexivity].
      apply decorates_target in Eg. congruence. }
  assert (defined (group_of done (target i)) = true) as -> by (unfold group_of; now rewrite bool_decide_eq_true_2).
  assert (words (group_of done (target i)) + n i <= SIZE_MAX) as Hmax.
  { unfold group_of. rewrite bool_decide_eq_true_2 by assumption. cbn [words].
    pose proof (filter_image (decorates (target i)) done). fold (decs done (target i)) in H.
    pose proof (size_pos hd l Hhd done _ E) as Es. change (image (i :: todo)) with (write_inst i ++ image todo) in Es.
    rewrite length_app in Es. pose proof (length_write i Hi). unfold pos in Es. unfold SIZE_MAX. lia. }
  destruct (Z.eqb_spec (op i) 5632) as [E5|E5]; [now apply Hs in E5|]. cbn [negb].
  rewrite (proj2 (Z.ltb_ge _ _)) by lia. eexists. split; [reflexivity|].
  apply (collect_link done i todo groups next); auto. unfold is_dec. destruct Ho as [->|[->|?]]; [reflexivity|reflexivity|done].
Qed.

Lemma after_collect_start groups : after_define l groups -> after_collect [] (groups, ∅).
Proof.
  intros H. split; [|split]; cbn [fst snd].
  - intros g. rewrite (H g). reflexivity.
  - intros g _ k p Hk. destruct k; discriminate Hk.
  - intros p _. apply lookup_empty.
Qed.

Lemma decs_in g d : d ∈ decs l g -> d ∈ l /\ inst_ok d /\ 3 <= n d.
Proof.
  intros H. apply list_elem_of_In, filter_In in H as [H Hd]. apply list_elem_of_In in H. split; [assumption|].
  split; [rewrite Forall_forall in Hl; first [now apply Hl|now apply Hl, list_elem_of_In]|].
  apply (v_dec _ _ Hv d H). unfold decorates, is_dec in Hd. apply andb_prop in Hd as [Hd _].
  apply orb_prop in Hd as [Hd|Hd]; apply Z.eqb_eq in Hd; auto.
Qed.

Lemma app_even i : i ∈ l -> op i = 75 -> n i mod 2 = 0.
Proof. intros H E. apply (v_member _ _ Hv i H E). Qed.

Lemma app_ok i f d : i ∈ l -> inst_ok i -> is_app i = true -> f ∈ apps i -> d ∈ decs l (target i) ->
  inst_ok (f d) /\ inst_ok d /\ n (f d) = n d + (if op i =? 75 then 1 else 0).
Proof.
  intros Hin Hi Ha Hf Hd. destruct (decs_in _ _ Hd) as (_ & Hok & Hn). split; [|split; [assumption|]].
  - destruct Hok as (Ho & Hn2 & Hw). unfold apps in Hf. destruct (Z.eqb_spec (op i) 75) as [E|E].
    + destruct (v_member _ _ Hv i Hin E) as [_ Hm]. rewrite Forall_forall in Hm.
      assert (op d = 71 /\ n d <> 0xffff) as [_ Hmax] by (first [now apply Hm|now apply Hm, list_elem_of_In]).
      apply list_elem_of_fmap in Hf as (tm & -> & _). repeat split; cbn [op n w apply_member length]; rewrite ?length_drop; lia.
    + apply list_elem_of_fmap in Hf as (t & -> & _). repeat split; cbn [op n w apply_to length]; rewrite ?length_drop; unfold in_range in *; lia.
  - unfold apps in Hf. destruct (op i =? 75); apply list_elem_of_fmap in Hf as (t & -> & _); cbn; lia.
Qed.

(** ** Capacity *)

Definition extra (done : list spv_inst) : list spv_inst := List.filter is_app done ≫= expand l.
Definition room (done : list spv_inst) : Z := Z.of_nat (length (image (extra done))).
Hypothesis Hroom : size + room l <= SIZE_MAX / 4.

Lemma room_snoc done i : room (done ++ [i]) = room done + (if is_app i then Z.of_nat (length (image (expand l i))) else 0).
Proof.
  unfold room, extra. rewrite List.filter_app, bind_app. cbn [List.filter]. destruct (is_app i); cbn [mbind list_bind].
  - rewrite app_nil_r, image_app, length_app. lia.
  - rewrite app_nil_r. lia.
Qed.

Lemma room_mono done todo : l = done ++ todo -> room done <= room l.
Proof.
  intros ->. unfold room, extra. rewrite List.filter_app, bind_app, image_app, length_app. lia.
Qed.

Section Groups.
Variables (groups : gmap Z group) (next : gmap Z Z).
Hypothesis Hgroups : after_collect l (groups, next).

Lemma group_lookup g : default zero_group (groups !! g) = group_of l g.
Proof. apply Hgroups. Qed.

Lemma group_at g : g ∈ defs l -> default zero_group (groups !! g) = group_of l g /\ linked next (dpos 5 l g).
Proof. intros H. split; [apply Hgroups|now apply Hgroups]. Qed.

Lemma defs_bound g : g ∈ defs l -> 0 < g < bound.
Proof.
  intros H. unfold defs in H. apply list_elem_of_fmap in H as (i & -> & H). apply list_elem_of_In, filter_In in H as [H E].
  apply Z.eqb_eq in E. apply (v_def _ _ Hv i); [now apply list_elem_of_In|assumption].
Qed.

Lemma positions_range g : Forall (fun p => 0 < p < size) (dpos 5 l g).
Proof.
  apply Forall_forall. intros p Hp. assert (p ∈ dpos 5 l g) as Hp' by (first [exact Hp|now apply list_elem_of_In]).
  pose proof (dpos_range g l 5 p Hl Hp'). pose proof (size_pos hd l Hhd l [] ltac:(now rewrite app_nil_r)) as Es.
  unfold pos in Es. cbn in Es. lia.
Qed.

Lemma decs_small g : Z.of_nat (length (decs l g)) <= Z.of_nat (length (image (decs l g))) <= size.
Proof.
  pose proof (filter_image (decorates g) l) as H. fold (decs l g) in H.
  assert (Forall inst_ok (decs l g)) as Hdok.
  { apply Forall_forall. intros d Hd. apply (decs_in g). first [exact Hd|now apply list_elem_of_In]. }
  pose proof (image_length _ Hdok). pose proof (size_pos hd l Hhd l [] ltac:(now rewrite app_nil_r)) as Es.
  unfold pos in Es. cbn in Es. lia.
Qed.

(** The loop over a group's decorations, as an invariant over their list. *)
Lemma group_chain {St} (P : nat -> St -> Prop) g body s :
  g ∈ defs l ->
  (forall k d done todo s, decs l g !! k = Some d -> l = done ++ d :: todo -> inst_ok d -> P k s ->
     exists s', body (pos done) s = Ok (inl s') /\ P (S k) s') ->
  P 0%nat s ->
  exists s', chain (S (Z.to_nat size)) next size (first (group_of l g)) body s = Ok (inl s') /\ P (length (decs l g)) s'.
Proof.
  intros Hg Hb H0. rewrite <- (dpos_length g l 5).
  replace (first (group_of l g)) with (default 0 (dpos 5 l g !! 0%nat)).
  2:{ unfold group_of. rewrite bool_decide_eq_true_2 by assumption. cbn [first]. now destruct (dpos 5 l g). }
  apply (chain_inv P next size (dpos 5 l g) body) with (m := length (dpos 5 l g)); auto.
  - now apply group_at.
  - apply positions_range.
  - intros k p s0 Hk Hp. destruct (dpos_lookup g l l [] k p eq_refl Hl Hk) as (d & done & todo & Hd & E & ->).
    apply (Hb k d done todo); auto. apply (decs_in g). now apply (list_elem_of_lookup_2 _ k).
  - rewrite dpos_length. pose proof (decs_small g). lia.
Qed.

Lemma capacity_step done i todo cap :
  l = done ++ i :: todo -> inst_ok i -> cap = size + room done ->
  exists cap', capacity_body code size bound groups next (pos done) (image (i :: todo)) (op i) (n i) cap = Ok (inl cap') /\
    cap' = size + room (done ++ [i]).
Proof.
  intros E Hi ->. pose proof (split_in _ _ _ E) as Hin. unfold capacity_body. rewrite room_snoc. fold (is_app i).
  destruct (is_app i) eqn:Ea; cbn [negb]; [|eexists; split; [reflexivity|lia]].
  destruct (v_app _ _ Hv i Hin Ea) as (Hn & Hg & Ht). rewrite (proj2 (Z.ltb_ge _ _)) by lia.
  destruct (target_rd i todo Hin Hi) as [-> Ht0]; [lia|]. cbn [obind]. pose proof (defs_bound _ Hg) as Hgb.
  rewrite (proj2 (Z.leb_gt _ _)), get_group_ok by lia. cbn [obind]. destruct (group_at _ Hg) as [-> _].
  assert (defined (group_of l (target i)) = true) as -> by (unfold group_of; now rewrite bool_decide_eq_true_2). cbn [negb orb].
  replace ((op i =? 75) && negb (n i mod 2 =? 0)) with false
    by (symmetry; destruct (Z.eqb_spec (op i) 75) as [E7|E7]; [now rewrite (app_even i Hin E7)|reflexivity]).
  fold (stride i). destruct (targets_count i Hi Ea Hn (app_even i Hin)) as [Hc Hq].
  match goal with |- context [targets ?f ?a ?c ?s ?b tt] => set (check := b) end.
  destruct (targets_inv (fun _ _ => True) (length (apps i)) (n i) (stride i) check) with
    (m := length (apps i)) (k := 0%nat) (fuel := S (Z.to_nat (n i))) (s := tt) as ([] & Htg & _); auto.
  { unfold stride. destruct (op i =? 75); lia. }
  { intros k [] Hk _. destruct (targets_nth i k Hi Ea Hn (app_even i Hin) Hk) as (Hlt & Hx & _). unfold check.
    exists tt. split; [|exact I]. rewrite rd_operand; [|assumption|unfold stride in *; destruct (op i =? 75); lia]. cbn [obind].
    replace (2 + Z.of_nat k * stride i - 1) with (1 + Z.of_nat k * stride i) by lia.
    set (x := nth _ (w i) 0) in *. assert (0 < x < bound /\ x ∉ defs l) as [Hxb Hxd]
      by (rewrite Forall_forall in Ht; first [now apply Ht|now apply Ht, list_elem_of_In]).
    rewrite (proj2 (Z.eqb_neq _ _)), (proj2 (Z.leb_gt _ _)), get_group_ok by lia. cbn [orb obind].
    rewrite group_lookup. unfold group_of. now rewrite bool_decide_eq_false_2. }
  { unfold stride in Hc. destruct (op i =? 75); lia. }
  replace (2 + Z.of_nat 0 * stride i) with 2 in Htg by lia. rewrite Htg. cbn [obind].
  set (c := if op i =? 75 then 1 else 0).
  assert (Z.of_nat (length (image (expand l i))) =
    (Z.of_nat (length (image (decs l (target i)))) + c * Z.of_nat (length (decs l (target i)))) * Z.of_nat (length (apps i))) as El.
  { rewrite expand_apps by assumption. apply image_bind_length. intros f d Hf Hd. now apply app_ok. }
  pose proof (room_mono (done ++ [i]) todo ltac:(now rewrite <- app_assoc)) as Hm. rewrite room_snoc, Ea in Hm.
  assert (words (group_of l (target i)) = Z.of_nat (length (image (decs l (target i)))) /\
    decorations (group_of l (target i)) = Z.of_nat (length (decs l (target i)))) as [Ew Ed]
    by (unfold group_of; now rewrite bool_decide_eq_true_2).
  match goal with |- context [obind ?m _] => assert (m = Ok (inl (Z.of_nat (length (image (decs l (target i)))) + c * Z.of_nat (length (decs l (target i)))))) as -> end.
  { unfold c. destruct (Z.eqb_spec (op i) 75) as [E7|E7]; [|rewrite Ew; do 2 f_equal; lia].
    destruct (v_member _ _ Hv i Hin E7) as [_ Hmem].
    match goal with |- context [chain _ _ _ _ ?b tt] => set (look := b) end.
    destruct (group_chain (fun _ _ => True) (target i) look tt Hg) as ([] & -> & _); auto.
    - intros k d done' todo' [] Hd Ed' Hdi _. exists tt. split; [|exact I]. unfold look. rewrite (rd_pos hd l Hhd done' d todo' Ed' Hdi). cbn [obind].
      pose proof (split_word (op d) (n d) (proj1 Hdi)) as [-> ->].
      pose proof (Forall_lookup_1 _ _ _ _ Hmem Hd) as [-> Hmax]. cbn in Hmax. now rewrite (proj2 (Z.eqb_neq _ _) Hmax).
    - cbn [obind]. rewrite Ew, Ed. pose proof (decs_small (target i)). rewrite (proj2 (Z.ltb_ge _ _)) by (unfold SIZE_MAX; lia).
      do 2 f_equal. lia. }
  cbn [obind]. rewrite Hq, <- El. eexists. split; [|reflexivity].
  rewrite El in Hm. set (e := Z.of_nat _ + c * _) in *. assert (0 <= e) as He by (unfold e, c; destruct (op i =? 75); lia).
  assert (4 * (SIZE_MAX / 4) <= SIZE_MAX) by (apply Z.mul_div_le; lia).
  destruct (Z.eqb_spec (Z.of_nat (length (apps i))) 0) as [E0|E0]; cbn [negb andb].
  - f_equal. f_equal. rewrite El. lia.
  - rewrite (proj2 (Z.ltb_ge _ _)); [do 2 f_equal; rewrite El; lia|]. apply Z.div_le_lower_bound; [lia|].
    assert (0 <= size) by (unfold SpvDecorations.size; lia). assert (0 <= room done) by (unfold room; lia). nia.
Qed.

(** ** Output *)

Definition output : list Z := hd ++ image (l ≫= expand l).
Abbreviation capacity := (size + room l).

Lemma output_fits : Z.of_nat (length output) <= capacity.
Proof.
  assert (forall xs, (length (image (xs ≫= expand l)) <= length (image xs) + length (image (List.filter is_app xs ≫= expand l)))%nat) as H.
  { induction xs as [|i xs IH]; [cbn; lia|]. change ((i :: xs) ≫= expand l) with (expand l i ++ (xs ≫= expand l)).
    change (image (i :: xs)) with (write_inst i ++ image xs). cbn [List.filter]. rewrite image_app, !length_app. destruct (is_app i) eqn:E.
    - change ((i :: List.filter is_app xs) ≫= expand l) with (expand l i ++ (List.filter is_app xs ≫= expand l)).
      rewrite image_app, length_app. lia.
    - unfold is_app in E. apply orb_false_elim in E as [E1 E2]. unfold expand at 1. rewrite E1, E2. cbn [fmap list_fmap concat].
      rewrite app_nil_r. lia. }
  unfold output, room, extra, SpvDecorations.size, SpvDecorations.code. rewrite !length_app. specialize (H l). lia.
Qed.

Lemma write_fits R data : (R ++ data) `prefix_of` output -> write_words capacity R data = Ok (R ++ data).
Proof.
  intros H%prefix_length. unfold write_words. rewrite length_app in H. pose proof output_fits.
  now rewrite (proj2 (Z.ltb_ge _ _)) by lia.
Qed.

Lemma write_prefix R a b : (R ++ a ++ b) `prefix_of` output -> write_words capacity R a = Ok (R ++ a).
Proof. intros H. apply write_fits. etrans; [|exact H]. rewrite app_assoc. now exists b. Qed.

(** The body of the innermost loop writes one decoration of the group, rewritten. *)
Lemma emit_one i todo k d done' todo' R f :
  i ∈ l -> inst_ok i -> is_app i = true -> apps i !! k = Some f -> d ∈ decs l (target i) ->
  l = done' ++ d :: todo' -> (R ++ write_inst (f d)) `prefix_of` output ->
  (let decoration := drop (Z.to_nat (pos done')) code in
   let! d0 := rd decoration 0 in
   let n := Z.shiftr d0 16 in
   let! result := write_words capacity R [if op i =? 75 then Z.lor (u32 (Z.shiftl (n + 1) 16)) 72 else d0] in
   let! x := rd (image (i :: todo)) (2 + Z.of_nat k * stride i) in
   let! result := write_words capacity result [x] in
   let! result := (if op i =? 75 then let! y := rd (image (i :: todo)) (2 + Z.of_nat k * stride i + 1) in write_words capacity result [y]
                   else Ok result) in
   let! data := copy (drop 2 decoration) (n - 2) in
   let! result := write_words capacity result data in
   Ok (inl result : list Z + Z)) = Ok (inl (R ++ write_inst (f d))).
Proof.
  intros Hin Hi Ha Hf Hd Ed Hpre. destruct (v_app _ _ Hv i Hin Ha) as (Hn & _).
  destruct (targets_nth i k Hi Ha Hn (app_even i Hin)) as (Hlt & _ & Hfk); [now apply (lookup_lt_Some _ _ f)|].
  rewrite Hfk in Hf. destruct (decs_in _ _ Hd) as (_ & Hdi & Hdn).
  destruct (app_ok i f d Hin Hi Ha) as (Hfd & _); [apply (list_elem_of_lookup_2 _ k); congruence|assumption|].
  injection Hf as Hf. rewrite (write_inst_ok _ Hfd) in *. cbn zeta.
  rewrite (drop_pos hd l Hhd done' _ Ed), head_word by assumption. cbn [obind].
  pose proof (split_word (op d) (n d) (proj1 Hdi)) as [-> _].
  rewrite rd_operand by (assumption || (unfold stride in *; destruct (op i =? 75); lia)).
  replace (2 + Z.of_nat k * stride i - 1) with (1 + Z.of_nat k * stride i) by lia.
  replace (drop 2 (image (d :: todo'))) with (drop 1 (w d) ++ image todo').
  2:{ rewrite <- (app_nil_r (image (d :: todo'))), image_cons, app_nil_r by assumption. destruct Hdi as (_ & _ & Hw).
      destruct (w d) as [|z t]; [cbn in Hw; lia|reflexivity]. }
  rewrite copy_all by (rewrite length_drop; destruct Hdi as (_ & _ & Hw); lia).
  destruct (Z.eqb_spec (op i) 75) as [E7|E7]; subst f; cbn [op n w apply_member apply_to] in *.
  - rewrite rd_operand by (assumption || (unfold stride in *; rewrite E7 in *; cbn [Z.eqb Pos.eqb] in *; lia)).
    replace (2 + Z.of_nat k * stride i + 1 - 1) with (2 + Z.of_nat k * stride i) by lia. cbn [obind].
    set (x := nth _ (w i) 0) in *. set (y := nth (Z.to_nat (2 + _)) (w i) 0) in *.
    replace (Z.lor (u32 (Z.shiftl (n d + 1) 16)) 72) with (72 + (n d + 1) * 2 ^ 16).
    2:{ destruct Hfd as (_ & Hmax & _). cbn [n apply_member] in Hmax. symmetry.
        rewrite wrap_small by (unfold in_range; rewrite Z.shiftl_mul_pow2 by lia; lia).
        rewrite Z.lor_comm, lor_shift by lia. reflexivity. }
    set (a := 72 + (n d + 1) * 2 ^ 16) in *.
    rewrite (write_prefix R [a] (x :: y :: drop 1 (w d))) by assumption. cbn [obind].
    rewrite (write_prefix (R ++ [a]) [x] (y :: drop 1 (w d))) by (now rewrite <- app_assoc). cbn [obind].
    rewrite (write_prefix ((R ++ [a]) ++ [x]) [y] (drop 1 (w d))) by (now rewrite <- !app_assoc). cbn [obind].
    rewrite write_fits by (now rewrite <- !app_assoc). cbn [obind]. now rewrite <- !app_assoc.
  - set (x := nth _ (w i) 0) in *. set (a := op d + n d * 2 ^ 16) in *.
    rewrite (write_prefix R [a] (x :: drop 1 (w d))) by assumption. cbn [obind].
    rewrite (write_prefix (R ++ [a]) [x] (drop 1 (w d))) by (now rewrite <- app_assoc). cbn [obind].
    rewrite write_fits by (now rewrite <- !app_assoc). cbn [obind]. now rewrite <- !app_assoc.
Qed.

Lemma image_take_S (f : spv_inst -> spv_inst) (xs : list spv_inst) k x :
  xs !! k = Some x -> image (f <$> take (S k) xs) = image (f <$> take k xs) ++ write_inst (f x).
Proof. intros H. rewrite (take_S_r _ _ _ H), fmap_app, image_app. cbn [fmap list_fmap concat]. now rewrite app_nil_r. Qed.

(** The prefix of the output up to the instructions of [xs] inside an expansion. *)
Lemma output_split done i todo xs ys :
  l = done ++ i :: todo -> expand l i = xs ++ ys -> (hd ++ image (done ≫= expand l) ++ image xs) `prefix_of` output.
Proof.
  intros E Ex. exists (image ys ++ image (todo ≫= expand l)). unfold output.
  replace (l ≫= expand l) with ((done ≫= expand l) ++ (xs ++ ys) ++ (todo ≫= expand l))
    by (rewrite <- Ex; transitivity ((done ++ i :: todo) ≫= expand l); [now rewrite bind_app|now rewrite <- E]).
  rewrite !image_app, <- !app_assoc. reflexivity.
Qed.

Lemma output_step done i todo R :
  l = done ++ i :: todo -> inst_ok i -> R = hd ++ image (done ≫= expand l) ->
  exists R', output_body code size bound capacity groups next (pos done) (image (i :: todo)) (op i) (n i) R = Ok (inl R') /\
    R' = hd ++ image ((done ++ [i]) ≫= expand l).
Proof.
  intros E Hi ER. pose proof (split_in _ _ _ E) as Hin. unfold output_body. fold (is_app i).
  assert (hd ++ image ((done ++ [i]) ≫= expand l) = R ++ image (expand l i)) as EF
    by (rewrite ER, bind_app; cbn [mbind list_bind]; now rewrite app_nil_r, image_app, app_assoc).
  rewrite EF. clear EF. destruct (is_app i) eqn:Ea; cbn [negb].
  2:{ assert (expand l i = [i]) as Ex by (unfold is_app in Ea; apply orb_false_elim in Ea as [E1 E2]; unfold expand; now rewrite E1, E2).
      change (image (i :: todo)) with (write_inst i ++ image todo). rewrite copy_all by now apply length_write. cbn [obind].
      rewrite write_fits. { eexists. split; [reflexivity|]. rewrite Ex. cbn [fmap list_fmap concat]. now rewrite app_nil_r. }
      pose proof (output_split done i todo [i] [] E Ex) as Hpre. rewrite app_assoc, <- ER in Hpre. cbn [fmap list_fmap concat] in Hpre.
      now rewrite app_nil_r in Hpre. }
  destruct (v_app _ _ Hv i Hin Ea) as (Hn & Hg & _). destruct (targets_count i Hi Ea Hn (app_even i Hin)) as [Hc _].
  fold (stride i). set (ds := decs l (target i)).
  set (P := fun (k : nat) R' => R' = R ++ image (take k (apps i) ≫= fun f => f <$> ds)).
  match goal with |- context [targets _ _ _ _ ?b R] => set (body := b) end.
  destruct (targets_inv P (length (apps i)) (n i) (stride i) body) with (m := length (apps i)) (k := 0%nat)
    (fuel := S (Z.to_nat (n i))) (s := R) as (R' & HR & HP); auto.
  - unfold stride. destruct (op i =? 75); lia.
  - intros k R1 Hk HP. destruct (lookup_lt_is_Some_2 (apps i) k Hk) as [f Hf]. unfold body.
    destruct (target_rd i todo Hin Hi) as [-> Ht0]; [lia|]. cbn [obind]. rewrite get_group_ok by (pose proof (defs_bound _ Hg); lia).
    cbn [obind]. destruct (group_at _ Hg) as [-> _].
    match goal with |- context [chain _ _ _ _ ?b R1] => set (inner := b) end.
    destruct (group_chain (fun j R2 => R2 = R1 ++ image (f <$> take j ds)) (target i) inner R1 Hg) as (R2 & H2 & HP2).
    + intros j d done' todo' R2 Hd Ed Hdi ->. eexists. split.
      * unfold inner. apply (emit_one i todo k d done' todo' _ f); auto; [now apply (list_elem_of_lookup_2 _ j)|].
        rewrite HP, <- !app_assoc. rewrite ER, <- !app_assoc.
        replace (image (f <$> take j ds) ++ write_inst (f d)) with (image (f <$> take (S j) ds))
          by now apply image_take_S.
        rewrite <- image_app.
        apply (output_split done i todo _ ((f <$> drop (S j) ds) ++ (drop (S k) (apps i) ≫= fun f => f <$> ds)) E).
        rewrite expand_apps by assumption. fold ds. rewrite <- (take_drop_middle _ _ _ Hf) at 1. rewrite bind_app. cbn [mbind list_bind].
        rewrite <- app_assoc. f_equal. rewrite app_assoc, <- fmap_app, take_drop. reflexivity.
      * now rewrite <- app_assoc, (image_take_S f ds j d Hd).
    + cbn. now rewrite app_nil_r.
    + exists R2. split; [exact H2|]. unfold P. rewrite HP2, HP, (take_S_r _ _ _ Hf), bind_app, image_app. fold ds.
      rewrite (take_ge ds) by reflexivity. cbn [mbind list_bind]. now rewrite app_nil_r, app_assoc.
  - unfold stride in Hc. destruct (op i =? 75); lia.
  - unfold P. cbn. now rewrite app_nil_r.
  - replace (2 + Z.of_nat 0 * stride i) with 2 in HR by lia. exists R'. split; [exact HR|].
    rewrite HP, (take_ge (apps i)) by reflexivity. now rewrite expand_apps.
Qed.
End Groups.
End Valid.

(** ** The pass *)

(** Decoration groups.  On a well-formed module whose groups and applications are valid, the pass
    succeeds, reads and writes only inside its arrays, and its output is the input with every group
    application replaced, in place and in order, by the group's decorations for each target; without
    applications there is no output. *)
Theorem decorations_expand hd l bound :
  length hd = 5%nat -> hd !! 0%nat = Some 0x07230203 -> hd !! 3%nat = Some bound -> 0 < bound < 2 ^ 32 ->
  Forall inst_ok l -> valid bound l ->
  Z.of_nat (length (hd ++ image l)) + Z.of_nat (length (image (List.filter is_app l ≫= expand l))) < 2 ^ 61 ->
  hybris_spirv_decorations true true (hd ++ image l) (4 * Z.of_nat (length (hd ++ image l))) =
  Ok (VK_SUCCESS, if existsb is_app l then Some (hd ++ image (l ≫= expand l)) else None).
Proof.
  intros Hhd H0 H3 Hb Hl Hv Hbig.
  change (hd ++ image l) with (code hd l) in Hbig |- *. change (Z.of_nat (length (code hd l))) with (size hd l) in Hbig |- *.
  change (Z.of_nat (length (image (List.filter is_app l ≫= expand l)))) with (room l l) in Hbig.
  assert (0 <= room l l) as Hr0 by (unfold room; lia).
  pose proof (size_pos hd l Hhd [] l eq_refl) as Es. change (pos []) with 5 in Es.
  assert (Hfuel : (length l < S (Z.to_nat (size hd l)))%nat) by (pose proof (image_length l Hl); lia).
  unfold hybris_spirv_decorations. rewrite (proj2 (Z.ltb_ge _ _)) by lia.
  rewrite (Z.mul_comm 4), Z.mod_mul, Z.div_mul by lia. cbn [Z.eqb negb orb].
  assert (forall k x, (k < 5)%nat -> hd !! k = Some x -> rd (code hd l) (Z.of_nat k) = Ok x) as Hrd.
  { intros k x Hk Hx. unfold code, rd. rewrite (proj2 (Z.ltb_ge _ _)), Nat2Z.id, lookup_app_l by lia. now rewrite Hx. }
  pose proof (Hrd 0%nat _ ltac:(lia) H0) as Hrd0. pose proof (Hrd 3%nat _ ltac:(lia) H3) as Hrd3. change (Z.of_nat 0) with 0 in Hrd0. change (Z.of_nat 3) with 3 in Hrd3.
  rewrite Hrd0, Hrd3.
  cbn [obind Z.eqb Pos.eqb negb]. rewrite (proj2 (Z.eqb_neq _ _)) by lia.
  pose proof (frame_loop_ok hd l Hhd Hl l [] _ 0 eq_refl Hfuel) as Hfr. change (pos []) with 5 in Hfr. rewrite Hfr. cbn [obind]. rewrite Z.add_0_l.
  destruct (existsb is_app l) eqn:Ex.
  2:{ replace (List.filter is_app l) with (@nil spv_inst); [reflexivity|]. symmetry. apply filter_none. exact Ex. }
  rewrite (proj2 (Z.eqb_neq _ _)) by (pose proof (filter_some l Ex); lia).
  assert (size hd l < 2 ^ 62) as Hs62 by lia.
  assert (40 <= SIZE_MAX / bound) by (apply Z.div_le_lower_bound; unfold SpvConstants.SIZE_MAX; lia).
  assert (8 <= SIZE_MAX / size hd l) by (apply Z.div_le_lower_bound; unfold SpvConstants.SIZE_MAX; lia).
  rewrite !(proj2 (Z.ltb_ge _ _)) by assumption. cbn [orb negb].
  destruct (walk_all hd l Hhd Hl after_define (define_body bound) _ ∅ (define_step hd l bound Hhd Hl Hv Hs62) Hfuel) as (groups & -> & Hgr).
  { intros g. rewrite lookup_empty. reflexivity. }
  cbn [obind].
  destruct (walk_all hd l Hhd Hl (after_collect l) (collect_body bound) _ (groups, ∅) (collect_step hd l bound Hhd Hl Hv Hs62) Hfuel)
    as ([groups' next] & -> & Hcol); [now apply after_collect_start|]. cbn [obind].
  assert (size hd l + room l l <= SIZE_MAX / 4) as Hroom by (change (SIZE_MAX / 4) with (2 ^ 62 - 1); lia).
  destruct (walk_all hd l Hhd Hl (fun done cap => cap = size hd l + room l done) (capacity_body (code hd l) (size hd l) bound groups' next)
    _ (size hd l) (capacity_step hd l bound Hhd Hl Hv Hs62 Hroom groups' next Hcol) Hfuel) as (cap & -> & ->).
  { unfold room. cbn. lia. }
  cbn [obind]. rewrite (proj2 (Z.ltb_ge _ _)) by assumption. cbn [orb negb].
  unfold code at 1. rewrite copy_all by lia. cbn [obind].
  rewrite (write_prefix hd l Hhd [] hd (image (l ≫= expand l))) by reflexivity. cbn [obind app].
  destruct (walk_all hd l Hhd Hl (fun done R => R = hd ++ image (done ≫= expand l))
    (output_body (code hd l) (size hd l) bound (size hd l + room l l) groups' next)
    _ hd (output_step hd l bound Hhd Hl Hv Hs62 groups' next Hcol) Hfuel) as (R & -> & ->); [cbn; now rewrite app_nil_r|reflexivity].
Qed.
(** Group 2 with two decorations, applied to the ids 5 and 6 and to members 0 of 7 and 1 of 8. *)
Definition sample : list spv_inst :=
  [Inst 71 4 [2; 11; 0]; Inst 71 3 [5; 4]; Inst 71 3 [2; 14]; Inst 73 2 [2]; Inst 74 4 [2; 5; 6]; Inst 75 6 [2; 7; 0; 8; 1];
   Inst 22 3 [3; 32]].

Ltac each_instruction tac :=
  intros i Hi; repeat (apply elem_of_cons in Hi as [->|Hi]; [tac|]); now apply not_elem_of_nil in Hi.

Lemma sample_valid : valid 10 sample.
Proof.
  constructor.
  - each_instruction ltac:(repeat (apply List.Forall_cons; [unfold in_range; cbn; lia|]); apply List.Forall_nil).
  - each_instruction ltac:(intros E; first [discriminate E|cbn; lia]).
  - apply (bool_decide_unpack _). vm_compute. exact I.
  - each_instruction ltac:(intros E; first [(exfalso; destruct E as [E|[E|E]]; discriminate E)|
      (split; [cbn; lia|split; [cbn; lia|discriminate]])]).
  - each_instruction ltac:(intros E; first [discriminate E|
      (split; [cbn; lia|split; apply (bool_decide_unpack _); vm_compute; exact I])]).
  - each_instruction ltac:(intros E; first [discriminate E|split; [reflexivity|apply (bool_decide_unpack _); vm_compute; exact I]]).
Qed.

Lemma decorations_expand_witness :
  hybris_spirv_decorations true true ([0x07230203; 0; 0; 10; 0] ++ image sample)
    (4 * Z.of_nat (length ([0x07230203; 0; 0; 10; 0] ++ image sample))) =
  Ok (VK_SUCCESS, if existsb is_app sample then Some ([0x07230203; 0; 0; 10; 0] ++ image (sample ≫= expand sample)) else None).
Proof.
  apply (decorations_expand [0x07230203; 0; 0; 10; 0] sample 10).
  - reflexivity.
  - reflexivity.
  - reflexivity.
  - lia.
  - repeat (apply List.Forall_cons; [repeat split; vm_compute; congruence|]). apply List.Forall_nil.
  - exact sample_valid.
  - vm_compute. reflexivity.
Defined.

Example sample_expanded :
  hybris_spirv_decorations true true ([0x07230203; 0; 0; 10; 0] ++ image sample) 120 =
  Ok (0, Some ([0x07230203; 0; 0; 10; 0] ++ image
    [Inst 71 4 [2; 11; 0]; Inst 71 3 [5; 4]; Inst 71 3 [2; 14]; Inst 73 2 [2];
     Inst 71 4 [5; 11; 0]; Inst 71 3 [5; 14]; Inst 71 4 [6; 11; 0]; Inst 71 3 [6; 14];
     Inst 72 5 [7; 0; 11; 0]; Inst 72 4 [7; 0; 14]; Inst 72 5 [8; 1; 11; 0]; Inst 72 4 [8; 1; 14]; Inst 22 3 [3; 32]])).
Proof. vm_compute. reflexivity. Qed.
End SpvDecorations.
