(* ===== verification/NullMap.v ===== *)
(** * The handle map (vulkan/compat/null_map.h)

    A chained hash table from 64-bit handles to 64-bit values that grows fourfold.
    A bucket is the list of its entries; the pointer [map_get] returns is the entry
    of the key, through which the caller reads or stores the value ([ent_val],
    [ent_store]).  Allocation results are arguments.  Every sequence of operations
    behaves as one on a finite map. *)

From Stdlib Require Import ZArith Lia Bool.
From stdpp Require Import base list numbers option gmap fin_maps.
From S2P Require Import Prelude.

Open Scope Z_scope.
Open Scope outcome_scope.

Module NullMap.

(** Key and value of an entry; [b] is null before the first use. *)
Abbreviation nd_ent := (Z * Z)%type.
Record nd_map := Map { b : option (list (list nd_ent)); mask : Z; count : Z }.
Definition empty_map : nd_map := Map None 0 0.
Definition MAP_MAX_BUCKETS : Z := 2 ^ 20.

Definition slot (mask key : Z) : Z := Z.land (u32 (Z.shiftr (u64 (key * 0x9e3779b97f4a7c15)) 40)) mask.

Fixpoint chain_find (key : Z) (l : list nd_ent) : option Z :=
  match l with [] => None | e :: l => if e.1 =? key then Some e.2 else chain_find key l end.

(** The value of the entry found, [None] for a null pointer. *)
Definition map_find (m : nd_map) (key : Z) : outcome (option Z) :=
  match b m with
  | None => Ok None
  | Some bs => let! l := rd bs (slot (mask m) key) in Ok (chain_find key l)
  end.

(** Moving the entries of one bucket, first to last, to the front of their new buckets. *)
Fixpoint move_bucket (nmask : Z) (l : list nd_ent) (nb : list (list nd_ent)) : outcome (list (list nd_ent)) :=
  match l with
  | [] => Ok nb
  | e :: l => let s := slot nmask e.1 in
              let! old := rd nb s in move_bucket nmask l (<[Z.to_nat s := e :: old]> nb)
  end.

Fixpoint move_loop (todo : nat) (nmask i : Z) (bs nb : list (list nd_ent)) : outcome (list (list nd_ent)) :=
  match todo with
  | O => Ok nb
  | S todo => let! l := rd bs i in
              let! nb := move_bucket nmask l nb in move_loop todo nmask (i + 1) bs nb
  end.

Definition map_grow (alloc : bool) (m : nd_map) : outcome nd_map :=
  let nb := u32 (u32 (mask m + 1) * 4) in
  if (MAP_MAX_BUCKETS <? nb) || (nb <=? u32 (mask m + 1)) || negb alloc then Ok m
  else
    let! bs := of_option (b m) in
    let! nbs := move_loop (Z.to_nat (mask m + 1)) (nb - 1) 0 bs (replicate (Z.to_nat nb) []) in
    Ok (Map (Some nbs) (nb - 1) (count m)).

(** Whether the returned pointer is not null, and the map. *)
Definition map_get (alloc_table alloc_grow alloc_entry : bool) (m : nd_map) (key buckets : Z) : outcome (bool * nd_map) :=
  match (match b m with
         | None => if alloc_table then Some (Map (Some (replicate (Z.to_nat buckets) [])) (u32 (buckets - 1)) (count m)) else None
         | Some _ => Some m
         end) with
  | None => Ok (false, m)
  | Some m =>
      let! e := map_find m key in
      match e with
      | Some _ => Ok (true, m)
      | None =>
          let! m := (if u32 (2 * u32 (mask m + 1)) <=? count m then map_grow alloc_grow m else Ok m) in
          if negb alloc_entry then Ok (false, m) else
          let! bs := of_option (b m) in
          let s := slot (mask m) key in
          let! old := rd bs s in
          Ok (true, Map (Some (<[Z.to_nat s := (key, 0) :: old]> bs)) (mask m) (u32 (count m + 1)))
      end
  end.

(** [e->val = v] through the pointer to the key's entry. *)
Fixpoint chain_store (key v : Z) (l : list nd_ent) : list nd_ent :=
  match l with [] => [] | e :: l => if e.1 =? key then (key, v) :: l else e :: chain_store key v l end.

Definition ent_store (m : nd_map) (key v : Z) : outcome nd_map :=
  let! bs := of_option (b m) in
  let s := slot (mask m) key in
  let! l := rd bs s in
  Ok (Map (Some (<[Z.to_nat s := chain_store key v l]> bs)) (mask m) (count m)).

(** The value of the first entry of the key and the chain without it. *)
Fixpoint chain_take (key : Z) (l : list nd_ent) : option (Z * list nd_ent) :=
  match l with
  | [] => None
  | e :: l => if e.1 =? key then Some (e.2, l) else p ← chain_take key l; Some (p.1, e :: p.2)
  end.

Definition map_take (m : nd_map) (key : Z) : outcome (Z * nd_map) :=
  match b m with
  | None => Ok (0, m)
  | Some bs =>
      let s := slot (mask m) key in
      let! l := rd bs s in
      match chain_take key l with
      | None => Ok (0, m)
      | Some (v, l) => Ok (v, Map (Some (<[Z.to_nat s := l]> bs)) (mask m) (u32 (count m - 1)))
      end
  end.

(** The values of the entries released, in order, and the emptied buckets. *)
Fixpoint clear_loop (todo : nat) (i : Z) (bs : list (list nd_ent)) : outcome (list Z * list (list nd_ent)) :=
  match todo with
  | O => Ok ([], bs)
  | S todo => let! l := rd bs i in
              let! r := clear_loop todo (i + 1) (<[Z.to_nat i := []]> bs) in
              Ok (l.*2 ++ r.1, r.2)
  end.

(** The pointers passed to [free] for the values, and the map. *)
Definition map_clear (m : nd_map) (vals : bool) : outcome (list Z * nd_map) :=
  match b m with
  | None => Ok ([], Map None (mask m) 0)
  | Some bs => let! r := clear_loop (Z.to_nat (mask m + 1)) 0 bs in
               Ok (if vals then r.1 else [], Map (Some r.2) (mask m) 0)
  end.

Definition map_free (m : nd_map) (vals : bool) : outcome (list Z * nd_map) :=
  let! r := map_clear m vals in Ok (r.1, Map None (mask r.2) (count r.2)).

(** ** Invariant *)

Definition key_ok (k : Z) : Prop := in_range 64 k.
Definition entries (m : nd_map) : list nd_ent := match b m with Some bs => concat bs | None => [] end.

(** Every entry sits in the bucket of its key. *)
Definition placed (mask : Z) (bs : list (list nd_ent)) : Prop :=
  forall i l e, bs !! i = Some l -> e ∈ l -> slot mask e.1 = Z.of_nat i.

Record map_wf (m : nd_map) : Prop := {
  w_table : forall bs, b m = Some bs -> 0 <= mask m < 2 ^ 31 /\ Z.of_nat (length bs) = mask m + 1 /\ placed (mask m) bs;
  w_unique : NoDup (entries m).*1;
  w_count : count m = Z.of_nat (length (entries m)) }.

(** The map a table stands for. *)
Definition contents (m : nd_map) : gmap Z Z := list_to_map (entries m).
(** ** Buckets *)

Lemma slot_range mask key : 0 <= mask -> 0 <= slot mask key <= mask.
Proof.
  intros H. unfold slot. set (x := u32 _). assert (0 <= x) by (apply (wrap_range 32); lia).
  assert (0 <= Z.land x mask) by (apply Z.land_nonneg; lia). split; [assumption|].
  rewrite Z.land_comm. assert (Z.ldiff mask (Z.land mask x) = mask - Z.land mask x) as E.
  { symmetry. apply Z.sub_nocarry_ldiff. apply Z.bits_inj'. intros i Hi. rewrite Z.ldiff_spec, Z.land_spec, Z.bits_0.
    now destruct (Z.testbit mask i), (Z.testbit x i). }
  assert (0 <= Z.ldiff mask (Z.land mask x)) by (apply Z.ldiff_nonneg; lia). lia.
Qed.

Lemma chain_find_map key l : chain_find key l = (list_to_map l : gmap Z Z) !! key.
Proof.
  induction l as [|[k v] l IH]; [symmetry; apply lookup_empty|]. cbn [chain_find list_to_map fst snd].
  destruct (Z.eqb_spec k key) as [->|Hn]; cbn; [now rewrite lookup_insert_eq|now rewrite lookup_insert_ne].
Qed.

Lemma chain_find_None key l : chain_find key l = None <-> key ∉ l.*1.
Proof. rewrite chain_find_map. symmetry. apply not_elem_of_list_to_map. Qed.

(** The bucket of a key, and the other entries, none of which has the key. *)
Lemma bucket_split mask bs key :
  0 <= mask -> Z.of_nat (length bs) = mask + 1 -> placed mask bs ->
  exists l p q, rd bs (slot mask key) = Ok l /\ bs !! Z.to_nat (slot mask key) = Some l /\
    concat bs = p ++ l ++ q /\ (key ∉ p.*1) /\ (key ∉ q.*1) /\
    forall l', concat (<[Z.to_nat (slot mask key) := l']> bs) = p ++ l' ++ q.
Proof.
  intros Hm Hlen Hp. pose proof (slot_range mask key Hm). destruct (rd_ok bs (slot mask key)) as (l & Hr & Hl); [lia|].
  set (s := Z.to_nat (slot mask key)) in *.
  assert (forall j l' e, j <> s -> bs !! j = Some l' -> e ∈ l' -> e.1 <> key) as Hne.
  { intros j l' e Hj Hl' He E. pose proof (Hp j l' e Hl' He) as Hs. rewrite E in Hs. apply Hj. unfold s. rewrite Hs. lia. }
  assert (forall xs, (forall l', l' ∈ xs -> exists j, j <> s /\ bs !! j = Some l') -> key ∉ (concat xs).*1) as Hout.
  { intros xs Hxs Hin. apply list_elem_of_fmap in Hin as (e & E & He). apply list_elem_of_In, in_concat in He as (l' & Hl' & He).
    destruct (Hxs l') as (j & Hj & Hjl); [now apply list_elem_of_In|]. apply (Hne j l' e Hj Hjl); [now apply list_elem_of_In|congruence]. }
  exists l, (concat (take s bs)), (concat (drop (S s) bs)). split_and!; auto.
  - rewrite <- (take_drop_middle bs s l Hl) at 1. now rewrite concat_app.
  - apply Hout. intros l' Hin. apply list_elem_of_lookup in Hin as (j & Hj). apply lookup_take_Some in Hj as [Hj Hlt].
    exists j. split; [lia|assumption].
  - apply Hout. intros l' Hin. apply list_elem_of_lookup in Hin as (j & Hj). rewrite lookup_drop in Hj. exists (S s + j)%nat. split; [lia|assumption].
  - intros l'. rewrite insert_take_drop by (apply lookup_lt_Some in Hl; lia). now rewrite concat_app.
Qed.

Lemma lookup_parts (p l q : list nd_ent) key :
  (list_to_map (p ++ l ++ q) : gmap Z Z) !! key =
  match (list_to_map p : gmap Z Z) !! key with
  | Some v => Some v
  | None => match (list_to_map l : gmap Z Z) !! key with Some v => Some v | None => (list_to_map q : gmap Z Z) !! key end
  end.
Proof.
  rewrite !list_to_map_app, !lookup_union. destruct ((list_to_map p : gmap Z Z) !! key), ((list_to_map l : gmap Z Z) !! key), ((list_to_map q : gmap Z Z) !! key); reflexivity.
Qed.

(** Replacing a bucket changes the contents at its key only. *)
Lemma contents_update (p l l' q : list nd_ent) key :
  key ∉ p.*1 -> key ∉ q.*1 -> (forall j, j <> key -> chain_find j l' = chain_find j l) ->
  (list_to_map (p ++ l' ++ q) : gmap Z Z) = partial_alter (fun _ => chain_find key l') key (list_to_map (p ++ l ++ q)).
Proof.
  intros Hp Hq Hj. apply map_eq. intros j. destruct (Z.eq_dec j key) as [->|Hne].
  - rewrite lookup_partial_alter_eq, lookup_parts, chain_find_map.
    rewrite (not_elem_of_list_to_map_1 _ _ Hp), (not_elem_of_list_to_map_1 _ _ Hq). now destruct ((list_to_map l' : gmap Z Z) !! key).
  - rewrite lookup_partial_alter_ne by congruence. rewrite !lookup_parts. specialize (Hj j Hne). rewrite !chain_find_map in Hj. now rewrite Hj.
Qed.

Lemma contents_lookup (p l q : list nd_ent) key :
  key ∉ p.*1 -> key ∉ q.*1 -> (list_to_map (p ++ l ++ q) : gmap Z Z) !! key = chain_find key l.
Proof.
  intros Hp Hq. rewrite lookup_parts, chain_find_map.
  rewrite (not_elem_of_list_to_map_1 _ _ Hp), (not_elem_of_list_to_map_1 _ _ Hq). now destruct ((list_to_map l : gmap Z Z) !! key).
Qed.
(** ** Operations on one bucket *)

Lemma placed_update mask bs key l l' :
  placed mask bs -> 0 <= mask -> bs !! Z.to_nat (slot mask key) = Some l ->
  (forall e, e ∈ l' -> e.1 = key \/ e.1 ∈ l.*1) -> placed mask (<[Z.to_nat (slot mask key) := l']> bs).
Proof.
  intros Hp Hm Hl Hk i x e Hi He. pose proof (slot_range mask key Hm).
  destruct (Nat.eq_dec (Z.to_nat (slot mask key)) i) as [<-|Hne].
  - rewrite list_lookup_insert_eq in Hi by now apply lookup_lt_Some in Hl. injection Hi as <-.
    destruct (Hk e He) as [->|Hin]; [lia|]. apply list_elem_of_fmap in Hin as (e' & -> & He'). exact (Hp _ _ _ Hl He').
  - rewrite list_lookup_insert_ne in Hi by assumption. exact (Hp i x e Hi He).
Qed.

Lemma wf_update m bs key l l' p q c :
  map_wf m -> b m = Some bs -> bs !! Z.to_nat (slot (mask m) key) = Some l ->
  (forall x, concat (<[Z.to_nat (slot (mask m) key) := x]> bs) = p ++ x ++ q) ->
  (forall e, e ∈ l' -> e.1 = key \/ (e.1 ∈ l.*1)) -> NoDup (p ++ l' ++ q).*1 -> c = Z.of_nat (length (p ++ l' ++ q)) ->
  map_wf (Map (Some (<[Z.to_nat (slot (mask m) key) := l']> bs)) (mask m) c).
Proof.
  intros [W _ _] Hb Hl Hc Hk Hu Hn. destruct (W bs Hb) as (Hm & Hlen & Hp).
  pose proof (Hc l' : entries (Map (Some (<[Z.to_nat (slot (mask m) key) := l']> bs)) (mask m) c) = p ++ l' ++ q) as He.
  constructor; [|now rewrite He|now rewrite He].
  intros bs' E. cbn [b mask] in E |- *. apply (inj Some) in E as <-. rewrite length_insert. split; [assumption|]. split; [assumption|]. apply (placed_update _ _ _ l); auto; lia.
Qed.

Lemma chain_store_spec key v l :
  key ∈ l.*1 -> (chain_store key v l).*1 = l.*1 /\ chain_find key (chain_store key v l) = Some v /\
  forall j, j <> key -> chain_find j (chain_store key v l) = chain_find j l.
Proof.
  induction l as [|[k x] l IH]; intros Hin; [now apply not_elem_of_nil in Hin|]. cbn [chain_store chain_find fst snd].
  destruct (Z.eqb_spec k key) as [->|Hn].
  - cbn [fmap list_fmap chain_find fst snd]. rewrite Z.eqb_refl. split_and!; auto. intros j Hj.
    now rewrite (proj2 (Z.eqb_neq key j)) by congruence.
  - cbn [fmap list_fmap fst] in Hin |- *. apply elem_of_cons in Hin as [->|Hin]; [done|]. destruct (IH Hin) as (H1 & H2 & H3).
    cbn [chain_find fst snd]. rewrite (proj2 (Z.eqb_neq _ _) Hn). split_and!; [now f_equal|assumption|].
    intros j Hj. now rewrite H3.
Qed.

Lemma chain_take_spec key l :
  NoDup l.*1 ->
  match chain_take key l with
  | None => chain_find key l = None
  | Some (v, l') => chain_find key l = Some v /\ chain_find key l' = None /\ (exists a c, l = a ++ (key, v) :: c /\ l' = a ++ c) /\
                    forall j, j <> key -> chain_find j l' = chain_find j l
  end.
Proof.
  induction l as [|[k x] l IH]; intros Hn; [reflexivity|]. cbn [chain_take chain_find fst snd fmap list_fmap] in *.
  apply NoDup_cons in Hn as [Hx Hn]. destruct (Z.eqb_spec k key) as [->|Hne].
  - split_and!; [reflexivity|now apply chain_find_None|now exists [], l|]. intros j Hj. now rewrite (proj2 (Z.eqb_neq key j)) by congruence.
  - specialize (IH Hn). destruct (chain_take key l) as [[v l']|]; cbn [mbind option_bind fst snd]; [|assumption].
    destruct IH as (H1 & H2 & (a & c & -> & ->) & H4). split_and!; [assumption| |now exists ((k, x) :: a), c|].
    + cbn [chain_find fst]. now rewrite (proj2 (Z.eqb_neq _ _) Hne).
    + intros j Hj. cbn [chain_find fst snd]. now rewrite H4.
Qed.

(** ** Growing and clearing *)

Lemma move_bucket_ok nmask : forall l nb,
  0 <= nmask -> Z.of_nat (length nb) = nmask + 1 -> placed nmask nb ->
  exists nb', move_bucket nmask l nb = Ok nb' /\ length nb' = length nb /\ placed nmask nb' /\ concat nb' ≡ₚ l ++ concat nb.
Proof.
  induction l as [|e l IH]; intros nb Hm Hlen Hp; cbn [move_bucket]; [exists nb; auto|].
  destruct (bucket_split nmask nb e.1 Hm Hlen Hp) as (old & p & q & -> & Hold & Hc & _ & _ & Hins). cbn [obind].
  destruct (IH (<[Z.to_nat (slot nmask e.1) := e :: old]> nb)) as (nb' & -> & Hl' & Hp' & Hperm).
  { assumption. } { now rewrite length_insert. }
  { apply (placed_update _ _ _ old); auto. intros x [->|Hx]%elem_of_cons; [now left|right; apply list_elem_of_fmap; eauto]. }
  exists nb'. rewrite length_insert in Hl'. split_and!; auto. rewrite Hperm, Hins, Hc. solve_Permutation.
Qed.

Lemma move_loop_ok nmask bs : forall todo i nb,
  0 <= nmask -> Z.of_nat (length nb) = nmask + 1 -> placed nmask nb -> (i + todo = length bs)%nat ->
  exists nb', move_loop todo nmask (Z.of_nat i) bs nb = Ok nb' /\ length nb' = length nb /\ placed nmask nb' /\
    concat nb' ≡ₚ concat (drop i bs) ++ concat nb.
Proof.
  induction todo as [|todo IH]; intros i nb Hm Hlen Hp Hi; cbn [move_loop].
  { exists nb. rewrite drop_ge by lia. auto. }
  destruct (rd_ok bs (Z.of_nat i)) as (l & -> & Hl); [lia|]. rewrite Nat2Z.id in Hl. cbn [obind].
  destruct (move_bucket_ok nmask l nb Hm Hlen Hp) as (nb1 & -> & L1 & P1 & C1). cbn [obind].
  replace (Z.of_nat i + 1) with (Z.of_nat (S i)) by lia.
  destruct (IH (S i) nb1) as (nb' & -> & L2 & P2 & C2); [assumption|lia|assumption|lia|].
  exists nb'. split_and!; auto; [lia|]. rewrite C2, C1, (drop_S _ _ _ Hl). cbn [concat]. solve_Permutation.
Qed.

Lemma concat_empty k : concat (replicate k (@nil nd_ent)) = [].
Proof. induction k as [|k IH]; [reflexivity|exact IH]. Qed.

Lemma placed_empty mask k : placed mask (replicate k []).
Proof. intros i l e Hl He. apply lookup_replicate in Hl as [-> _]. now apply not_elem_of_nil in He. Qed.

Lemma wf_perm m m' : map_wf m -> (forall bs, b m' = Some bs -> 0 <= mask m' < 2 ^ 31 /\ Z.of_nat (length bs) = mask m' + 1 /\ placed (mask m') bs) ->
  entries m' ≡ₚ entries m -> count m' = count m -> map_wf m' /\ contents m' = contents m.
Proof.
  intros [_ Hu Hc] Ht Hp Hcnt. split.
  - constructor; [assumption|now rewrite Hp|]. now rewrite Hcnt, Hc, Hp.
  - unfold contents. symmetry. apply list_to_map_proper; [assumption|now symmetry].
Qed.

Lemma map_grow_ok alloc m bs : map_wf m -> b m = Some bs ->
  exists m', map_grow alloc m = Ok m' /\ map_wf m' /\ contents m' = contents m /\ is_Some (b m') /\ count m' = count m.
Proof.
  intros W Hb. destruct (w_table m W bs Hb) as (Hm & Hlen & _). unfold map_grow.
  destruct (_ || _ || negb alloc) eqn:E; [exists m; split_and!; eauto|].
  apply orb_false_elim in E as [[E1 E2]%orb_false_elim _]. apply Z.ltb_ge in E1. apply Z.leb_gt in E2.
  rewrite Hb. cbn [of_option obind]. set (nb := u32 (u32 (mask m + 1) * 4)) in *.
  assert (0 < nb <= 2 ^ 20) as Hnb by (unfold MAP_MAX_BUCKETS in E1; pose proof (wrap_range 32 (mask m + 1) ltac:(lia)) as [? _]; lia).
  destruct (move_loop_ok (nb - 1) bs (Z.to_nat (mask m + 1)) 0 (replicate (Z.to_nat nb) [])) as (nbs & Hl & L & P & C).
  { lia. } { rewrite length_replicate. lia. } { apply placed_empty. } { lia. }
  change (Z.of_nat 0) with 0 in Hl. rewrite Hl. cbn [obind]. rewrite length_replicate in L. rewrite concat_empty, app_nil_r in C.
  eexists. split; [reflexivity|]. destruct (wf_perm m (Map (Some nbs) (nb - 1) (count m)) W) as [W' C'].
  - intros ? [= <-]. cbn [mask]. split_and!; [lia|lia|lia|assumption].
  - unfold entries. rewrite Hb. exact C.
  - reflexivity.
  - split_and!; auto.
Qed.

Lemma clear_loop_ok : forall todo i bs, (i + todo = length bs)%nat ->
  clear_loop todo (Z.of_nat i) bs = Ok ((concat (drop i bs)).*2, take i bs ++ replicate todo []).
Proof.
  induction todo as [|todo IH]; intros i bs Hi; cbn [clear_loop]; [rewrite take_ge, drop_ge by lia; now rewrite app_nil_r|].
  destruct (rd_ok bs (Z.of_nat i)) as (l & -> & Hl); [lia|]. cbn [obind]. rewrite Nat2Z.id in *.
  replace (Z.of_nat i + 1) with (Z.of_nat (S i)) by lia. rewrite IH by (rewrite length_insert; lia). cbn [obind fst snd].
  rewrite drop_insert_lt by lia. rewrite (drop_S _ _ _ Hl). cbn [concat]. rewrite fmap_app. f_equal. f_equal.
  rewrite (take_S_r _ i []) by (apply list_lookup_insert_eq; lia). rewrite take_insert_ge by lia. now rewrite <- app_assoc.
Qed.

(** ** The operations against the finite map *)

Lemma map_find_ok m key : map_wf m -> map_find m key = Ok (contents m !! key).
Proof.
  intros W. unfold map_find, contents, entries. destruct (b m) as [bs|] eqn:Hb; [|reflexivity].
  destruct (w_table m W bs Hb) as (Hm & Hlen & Hp).
  destruct (bucket_split (mask m) bs key) as (l & p & q & -> & _ & -> & Hkp & Hkq & _); [lia|assumption|assumption|].
  cbn [obind]. now rewrite contents_lookup.
Qed.

(** A new entry at the front of its bucket. *)
Lemma insert_ok m bs key : map_wf m -> b m = Some bs -> contents m !! key = None -> count m + 1 < 2 ^ 32 ->
  exists l, rd bs (slot (mask m) key) = Ok l /\
    let m' := Map (Some (<[Z.to_nat (slot (mask m) key) := (key, 0) :: l]> bs)) (mask m) (u32 (count m + 1)) in
    map_wf m' /\ contents m' = <[key := 0]> (contents m) /\ count m' = count m + 1.
Proof.
  intros W Hb Hnone Hc. destruct (w_table m W bs Hb) as (Hm & Hlen & Hp).
  destruct (bucket_split (mask m) bs key) as (l & p & q & Hr & Hl & Hcat & Hkp & Hkq & Hins); [lia|assumption|assumption|].
  exists l. split; [assumption|]. intros m'. pose proof (Hins ((key, 0) :: l) : entries m' = p ++ ((key, 0) :: l) ++ q) as He.
  assert (entries m = p ++ l ++ q) as He0 by (unfold entries; now rewrite Hb).
  assert (Hcm := w_count m W). assert (u32 (count m + 1) = count m + 1) as Hu by (apply wrap_small; unfold in_range; lia).
  split; [|split; [|exact Hu]].
  - apply (wf_update m bs key l _ p q); auto.
    + intros e [->|Hin]%elem_of_cons; [now left|right; apply list_elem_of_fmap; eauto].
    + pose proof (w_unique m W) as Hn. rewrite He0 in Hn.
      assert (key ∉ (p ++ l ++ q).*1) as Hk by (rewrite <- He0; now apply not_elem_of_list_to_map).
      assert ((p ++ ((key, 0) :: l) ++ q).*1 ≡ₚ key :: (p ++ l ++ q).*1) as -> by (rewrite !fmap_app; cbn; solve_Permutation).
      now constructor.
    + rewrite Hu, Hcm, He0, !length_app. cbn [length]. lia.
  - unfold contents. rewrite He, He0. rewrite (contents_update p l ((key, 0) :: l) q key Hkp Hkq).
    + cbn [chain_find fst snd]. now rewrite Z.eqb_refl.
    + intros j Hj. cbn [chain_find fst]. now rewrite (proj2 (Z.eqb_neq key j)) by congruence.
Qed.

Lemma map_get_ok at_ ag ae m key buckets :
  map_wf m -> 0 < buckets <= 2 ^ 31 -> count m + 1 < 2 ^ 32 ->
  exists got m', map_get at_ ag ae m key buckets = Ok (got, m') /\ map_wf m' /\ count m' <= count m + 1 /\
    (at_ && ae = true -> got = true) /\
    contents m' = if got then match contents m !! key with Some _ => contents m | None => <[key := 0]> (contents m) end
                  else contents m.
Proof.
  intros W Hbk Hc. unfold map_get.
  set (m0 := match b m with None => if at_ then Some _ else None | Some _ => Some m end).
  assert (match m0 with None => at_ = false | Some m1 => map_wf m1 /\ contents m1 = contents m /\ count m1 = count m /\ is_Some (b m1) end) as H0.
  { unfold m0. destruct (b m) as [bs|] eqn:Hb; [rewrite Hb; eauto|]. destruct at_; [|reflexivity].
    assert (u32 (buckets - 1) = buckets - 1) as -> by (apply wrap_small; unfold in_range; lia).
    destruct (wf_perm m (Map (Some (replicate (Z.to_nat buckets) [])) (buckets - 1) (count m)) W) as [W1 C1].
    - intros bs' E. cbn [b mask] in *. apply (inj Some) in E as <-.
      rewrite length_replicate. split_and!; [lia|lia|lia|apply placed_empty].
    - unfold entries. rewrite Hb. cbn [b]. now rewrite concat_empty.
    - reflexivity.
    - split_and!; auto. }
  clearbody m0. destruct m0 as [m1|].
  2: { exists false, m. split_and!; auto; [lia|]. intros H. apply andb_true_iff in H as [H _]. congruence. }
  destruct H0 as (W1 & C1 & N1 & B1). rewrite (map_find_ok m1 key W1), C1. cbn [obind].
  destruct (contents m !! key) as [v|] eqn:Hk.
  { exists true, m1. split_and!; auto. lia. }
  assert (exists m2, (if u32 (2 * u32 (mask m1 + 1)) <=? count m1 then map_grow ag m1 else Ok m1) = Ok m2 /\
    map_wf m2 /\ contents m2 = contents m1 /\ is_Some (b m2) /\ count m2 = count m1) as (m2 & -> & W2 & C2 & B2 & N2).
  { destruct B1 as [bs B1]. destruct (_ <=? _); [now apply (map_grow_ok ag m1 bs)|]. exists m1. split_and!; eauto. }
  cbn [obind]. destruct ae; cbn [negb].
  2: { exists false, m2. split_and!; [reflexivity|assumption|lia| |congruence]. intros H. now rewrite andb_false_r in H. }
  destruct B2 as [bs B2]. rewrite B2. cbn [of_option obind].
  destruct (insert_ok m2 bs key W2 B2) as (l & -> & W3 & C3 & N3); [congruence|lia|]. cbn [obind].
  eexists true, _. split; [reflexivity|]. split; [exact W3|]. split; [rewrite N3; lia|]. split; [auto|]. rewrite C3. congruence.
Qed.

Lemma ent_store_ok m key v : map_wf m -> is_Some (contents m !! key) ->
  exists m', ent_store m key v = Ok m' /\ map_wf m' /\ count m' = count m /\ contents m' = <[key := v]> (contents m).
Proof.
  intros W Hk. destruct (b m) as [bs|] eqn:Hb.
  2: { unfold contents, entries in Hk. rewrite Hb in Hk. now destruct Hk. }
  destruct (w_table m W bs Hb) as (Hm & Hlen & Hp). unfold ent_store. rewrite Hb. cbn [of_option obind].
  destruct (bucket_split (mask m) bs key) as (l & p & q & -> & Hl & Hcat & Hkp & Hkq & Hins); [lia|assumption|assumption|].
  cbn [obind]. eexists. split; [reflexivity|].
  assert (entries m = p ++ l ++ q) as He0 by (unfold entries; now rewrite Hb).
  assert (key ∈ l.*1) as Hin.
  { destruct (decide (key ∈ l.*1)) as [|Hn%chain_find_None]; [assumption|]. unfold contents in Hk.
    rewrite He0, (contents_lookup _ _ _ _ Hkp Hkq), Hn in Hk. exfalso. exact (is_Some_None Hk). }
  destruct (chain_store_spec key v l Hin) as (S1 & S2 & S3).
  assert (length (chain_store key v l) = length l) as SL by (rewrite <- !(length_fmap fst); now f_equal).
  split_and!; [|reflexivity|].
  - apply (wf_update m bs key l _ p q); auto.
    + intros e He. right. rewrite <- S1. apply list_elem_of_fmap. eauto.
    + rewrite !fmap_app, S1, <- !fmap_app, <- He0. apply (w_unique m W).
    + rewrite (w_count m W), He0, !length_app. lia.
  - unfold contents. rewrite He0. transitivity (list_to_map (p ++ chain_store key v l ++ q) : gmap Z Z).
    + unfold entries. cbn [b]. now f_equal.
    + rewrite (contents_update p l _ q key Hkp Hkq S3), S2. reflexivity.
Qed.

Lemma map_take_ok m key : map_wf m -> count m < 2 ^ 32 ->
  exists m', map_take m key = Ok (default 0 (contents m !! key), m') /\ map_wf m' /\ count m' <= count m /\
    contents m' = delete key (contents m).
Proof.
  intros W Hc. unfold map_take. destruct (b m) as [bs|] eqn:Hb.
  2: { exists m. assert (contents m = ∅) as C by (unfold contents, entries; now rewrite Hb). rewrite C, delete_empty.
       split_and!; auto. lia. }
  destruct (w_table m W bs Hb) as (Hm & Hlen & Hp).
  destruct (bucket_split (mask m) bs key) as (l & p & q & -> & Hl & Hcat & Hkp & Hkq & Hins); [lia|assumption|assumption|].
  cbn [obind]. assert (entries m = p ++ l ++ q) as He0 by (unfold entries; now rewrite Hb).
  pose proof (w_unique m W) as Hu. rewrite He0 in Hu.
  assert (contents m !! key = chain_find key l) as Hlk by (unfold contents; now rewrite He0, contents_lookup).
  assert (NoDup l.*1) as Hul by (rewrite !fmap_app in Hu; now apply NoDup_app in Hu as (_ & _ & (? & _)%NoDup_app)).
  pose proof (chain_take_spec key l Hul) as Ht. destruct (chain_take key l) as [[v l']|].
  2: { exists m. rewrite Hlk, Ht. cbn [default]. split_and!; [reflexivity|assumption|lia|]. symmetry. apply delete_id. congruence. }
  destruct Ht as (T1 & T2 & (a & c & -> & ->) & T3). rewrite Hlk, T1.
  assert (Hcm := w_count m W). rewrite He0, !length_app in Hcm. cbn [length] in Hcm.
  assert (u32 (count m - 1) = count m - 1) as -> by (apply wrap_small; unfold in_range; lia).
  eexists. split; [reflexivity|]. split_and!; [|cbn [count]; lia|].
  - apply (wf_update m bs key (a ++ (key, v) :: c) _ p q); auto.
    + intros e He. right. apply list_elem_of_fmap. exists e. split; [reflexivity|]. rewrite elem_of_app in He |- *. rewrite elem_of_cons. tauto.
    + assert ((p ++ (a ++ (key, v) :: c) ++ q).*1 ≡ₚ key :: (p ++ (a ++ c) ++ q).*1) as E by (rewrite !fmap_app, fmap_cons; cbn [fst]; solve_Permutation).
      rewrite E in Hu. now apply NoDup_cons in Hu as [_ ?].
    + rewrite Hcm, !length_app. lia.
  - unfold contents. rewrite He0. transitivity (list_to_map (p ++ (a ++ c) ++ q) : gmap Z Z).
    + unfold entries. cbn [b]. now f_equal.
    + rewrite (contents_update p (a ++ (key, v) :: c) _ q key Hkp Hkq T3), T2. reflexivity.
Qed.

Lemma empty_entries_ok mb msk : (forall bs, mb = Some bs -> 0 <= msk < 2 ^ 31 /\ Z.of_nat (length bs) = msk + 1) ->
  (forall bs, mb = Some bs -> exists k, bs = replicate k []) ->
  map_wf (Map mb msk 0) /\ contents (Map mb msk 0) = ∅.
Proof.
  intros Ht He. assert (entries (Map mb msk 0) = []) as E.
  { unfold entries. cbn [b]. destruct mb as [bs|]; [|reflexivity]. destruct (He bs eq_refl) as [k ->]. apply concat_empty. }
  split; [|unfold contents; now rewrite E]. constructor; [|rewrite E; constructor|now rewrite E].
  cbn [b mask]. intros bs Hbs. destruct (Ht bs Hbs) as [? ?], (He bs Hbs) as [k Hk]. split_and!; try lia. rewrite Hk. apply placed_empty.
Qed.

Lemma map_clear_ok m vals : map_wf m ->
  exists freed m', map_clear m vals = Ok (freed, m') /\ map_wf m' /\ contents m' = ∅ /\ count m' = 0 /\
    freed ≡ₚ if vals then (map_to_list (contents m)).*2 else [].
Proof.
  intros W. assert (map_to_list (contents m) ≡ₚ entries m) as HP by (apply map_to_list_to_map, W).
  unfold map_clear. destruct (b m) as [bs|] eqn:Hb.
  - destruct (w_table m W bs Hb) as (Hm & Hlen & Hp). change 0 with (Z.of_nat 0) at 1. rewrite clear_loop_ok by lia.
    cbn [obind fst snd]. eexists _, _. split; [reflexivity|].
    destruct (empty_entries_ok (Some (take 0 bs ++ replicate (Z.to_nat (mask m + 1)) [])) (mask m)) as [W' C'].
    { intros bs' E. apply (inj Some) in E as <-. rewrite length_app, length_replicate. rewrite take_0. cbn [length]. lia. }
    { intros bs' E. apply (inj Some) in E as <-. eexists. reflexivity. }
    split_and!; auto. unfold entries in HP. rewrite Hb in HP. destruct vals; [now rewrite HP|reflexivity].
  - destruct (empty_entries_ok None (mask m)) as [W' C']; [discriminate|discriminate|].
    eexists _, _. split; [reflexivity|]. split_and!; auto. unfold entries in HP. rewrite Hb in HP. destruct vals; [now rewrite HP|reflexivity].
Qed.

Lemma map_free_ok m vals : map_wf m ->
  exists freed m', map_free m vals = Ok (freed, m') /\ map_wf m' /\ contents m' = ∅ /\ count m' = 0 /\
    freed ≡ₚ if vals then (map_to_list (contents m)).*2 else [].
Proof.
  intros W. destruct (map_clear_ok m vals W) as (fr & m' & H & _ & _ & Hz & Hp). unfold map_free. rewrite H. cbn [obind fst snd].
  destruct (empty_entries_ok None (mask m')) as [W' C']; [discriminate|discriminate|].
  eexists _, _. split; [reflexivity|]. rewrite Hz. split_and!; auto.
Qed.

(** ** Sequences of operations *)

(** The calls the passes make; [OPut] stores through the entry of [map_get]. *)
Inductive op :=
| OFind (key : Z)
| OGet (alloc_table alloc_grow alloc_entry : bool) (key buckets : Z)
| OPut (alloc_table alloc_grow alloc_entry : bool) (key buckets v : Z)
| OTake (key : Z)
| OClear (vals : bool)
| OFree (vals : bool).

Inductive answer := AFound (v : option Z) | AGot (ok : bool) | ATook (v : Z) | AFreed (ps : list Z).

Definition step (m : nd_map) (o : op) : outcome (answer * nd_map) :=
  match o with
  | OFind k => let! r := map_find m k in Ok (AFound r, m)
  | OGet t g e k n => let! r := map_get t g e m k n in Ok (AGot r.1, r.2)
  | OPut t g e k n v =>
      let! r := map_get t g e m k n in
      if r.1 then let! m := ent_store r.2 k v in Ok (AGot true, m) else Ok (AGot false, r.2)
  | OTake k => let! r := map_take m k in Ok (ATook r.1, r.2)
  | OClear vals => let! r := map_clear m vals in Ok (AFreed r.1, r.2)
  | OFree vals => let! r := map_free m vals in Ok (AFreed r.1, r.2)
  end.

Fixpoint run (m : nd_map) (os : list op) : outcome (list answer * nd_map) :=
  match os with
  | [] => Ok ([], m)
  | o :: os => let! r := step m o in let! q := run r.2 os in Ok (r.1 :: q.1, q.2)
  end.

(** The finite map: an entry made by [map_get] holds 0; failing needs a failed allocation. *)
Inductive spec_step (c : gmap Z Z) : op -> answer -> gmap Z Z -> Prop :=
| SFind (k : Z) : spec_step c (OFind k) (AFound (c !! k)) c
| SGet (t g e : bool) (k n : Z) : spec_step c (OGet t g e k n) (AGot true) (<[k := default 0 (c !! k)]> c)
| SPut (t g e : bool) (k n v : Z) : spec_step c (OPut t g e k n v) (AGot true) (<[k := v]> c)
| SNoGet (t g e : bool) k n : t && e = false -> spec_step c (OGet t g e k n) (AGot false) c
| SNoPut (t g e : bool) k n v : t && e = false -> spec_step c (OPut t g e k n v) (AGot false) c
| STake (k : Z) : spec_step c (OTake k) (ATook (default 0 (c !! k))) (delete k c)
| SClear (vals : bool) (ps : list Z) : ps ≡ₚ (if vals then (map_to_list c).*2 else []) -> spec_step c (OClear vals) (AFreed ps) ∅
| SFree (vals : bool) (ps : list Z) : ps ≡ₚ (if vals then (map_to_list c).*2 else []) -> spec_step c (OFree vals) (AFreed ps) ∅.

Inductive spec_run : gmap Z Z -> list op -> list answer -> gmap Z Z -> Prop :=
| RNil c : spec_run c [] [] c
| RCons c o a c1 os xs c2 : spec_step c o a c1 -> spec_run c1 os xs c2 -> spec_run c (o :: os) (a :: xs) c2.

Definition op_ok (o : op) : Prop :=
  match o with OGet _ _ _ _ n | OPut _ _ _ _ n _ => 0 < n <= 2 ^ 31 | _ => True end.

Lemma get_contents (c : gmap Z Z) k : match c !! k with Some _ => c | None => <[k := 0]> c end = <[k := default 0 (c !! k)]> c.
Proof. destruct (c !! k) eqn:E; [symmetry; now apply insert_id|reflexivity]. Qed.

Lemma step_ok m o : map_wf m -> op_ok o -> count m + 1 < 2 ^ 32 ->
  exists a m', step m o = Ok (a, m') /\ map_wf m' /\ count m' <= count m + 1 /\ spec_step (contents m) o a (contents m').
Proof.
  intros W Ho Hc. assert (0 <= count m) by (rewrite (w_count m W); lia).
  destruct o as [k|t g e k n|t g e k n v|k|vals|vals]; cbn [step op_ok] in *.
  - rewrite (map_find_ok m k W). cbn [obind]. eexists _, _. split; [reflexivity|]. split_and!; [assumption|lia|constructor].
  - destruct (map_get_ok t g e m k n W Ho Hc) as (got & m' & -> & W' & N & Hg & C). cbn [obind fst snd].
    eexists _, _. split; [reflexivity|]. split_and!; [assumption|assumption|]. destruct got; rewrite C; [rewrite get_contents; constructor|].
    constructor. destruct (t && e); [now specialize (Hg eq_refl)|reflexivity].
  - destruct (map_get_ok t g e m k n W Ho Hc) as (got & m' & -> & W' & N & Hg & C). cbn [obind fst snd]. destruct got.
    + rewrite get_contents in C. destruct (ent_store_ok m' k v W') as (m2 & -> & W2 & N2 & C2).
      { rewrite C, lookup_insert_eq. eauto. }
      cbn [obind]. eexists _, _. split; [reflexivity|]. split_and!; [assumption|lia|]. rewrite C2, C, insert_insert_eq. constructor.
    + eexists _, _. split; [reflexivity|]. split_and!; [assumption|assumption|]. rewrite C.
      constructor. destruct (t && e); [now specialize (Hg eq_refl)|reflexivity].
  - destruct (map_take_ok m k W) as (m' & -> & W' & N & C); [lia|]. cbn [obind fst snd].
    eexists _, _. split; [reflexivity|]. split_and!; [assumption|lia|]. rewrite C. constructor.
  - destruct (map_clear_ok m vals W) as (ps & m' & -> & W' & C & N & P). cbn [obind fst snd].
    eexists _, _. split; [reflexivity|]. split_and!; [assumption|lia|]. rewrite C. now constructor.
  - destruct (map_free_ok m vals W) as (ps & m' & -> & W' & C & N & P). cbn [obind fst snd].
    eexists _, _. split; [reflexivity|]. split_and!; [assumption|lia|]. rewrite C. now constructor.
Qed.

Lemma run_ok : forall os m, map_wf m -> Forall op_ok os -> count m + Z.of_nat (length os) < 2 ^ 32 ->
  exists xs m', run m os = Ok (xs, m') /\ map_wf m' /\ spec_run (contents m) os xs (contents m').
Proof.
  induction os as [|o os IH]; intros m W Ho Hc; cbn [run]; [exists [], m; split_and!; [reflexivity|assumption|constructor]|].
  apply Forall_cons in Ho as [Ho Hos]. cbn [length] in Hc.
  destruct (step_ok m o W Ho) as (a & m1 & -> & W1 & N1 & S1); [lia|]. cbn [obind fst snd].
  destruct (IH m1 W1 Hos) as (xs & m2 & -> & W2 & S2); [lia|]. cbn [obind fst snd].
  exists (a :: xs), m2. split_and!; [reflexivity|assumption|now apply (RCons _ _ _ (contents m1))].
Qed.

Lemma empty_wf : map_wf empty_map /\ contents empty_map = ∅.
Proof. apply (empty_entries_ok None 0); discriminate. Qed.

(** C30: Every sequence of map operations from the zero-initialised map, whatever its
    allocations answer, returns without undefined behaviour, keeps every entry in the
    bucket of its key with [count] exact (so growing never loses or duplicates one), and
    answers as the finite map does: [map_get] fails only where an allocation failed, and
    clearing frees each stored value once. *)
Theorem null_map_refines_map (os : list op) :
  Forall op_ok os -> Z.of_nat (length os) < 2 ^ 32 ->
  exists xs m, run empty_map os = Ok (xs, m) /\ map_wf m /\ spec_run ∅ os xs (contents m).
Proof. intros Ho Hn. rewrite <- (proj2 empty_wf). apply run_ok; [apply empty_wf|assumption|exact Hn]. Qed.

Definition sample_ops : list op :=
  [OPut true true true 0x7000 1 5; OPut true true true 0x7010 1 6; OPut true false true 0x7020 1 7; OPut true true true 0x7030 1 8;
   OFind 0x7010; OTake 0x7020; OPut true true false 0x9 1 1; OGet true true true 0x7030 1; OFind 0x7020; OClear true; OFind 0x7030; OFree false].

Lemma null_map_refines_map_witness :
  exists xs m, run empty_map sample_ops = Ok (xs, m) /\ map_wf m /\ spec_run ∅ sample_ops xs (contents m).
Proof.
  apply (null_map_refines_map sample_ops).
  - repeat (apply List.Forall_cons; [cbn; lia|]). constructor.
  - vm_compute. reflexivity.
Defined.

Example sample_answers : exists m, run empty_map sample_ops =
  Ok ([AGot true; AGot true; AGot true; AGot true; AFound (Some 6); ATook 7; AGot false; AGot true; AFound None; AFreed [8; 5; 6]; AFound None; AFreed []], m).
Proof. eexists. vm_compute. reflexivity. Qed.

End NullMap.
