(* ===== verification/LinkerEnviron.v ===== *)
(** * The linker's environment (common/jb/linker_environ.c)

    The environment block is the array of pointers the kernel leaves on the stack:
    definitions, a null pointer, and the auxiliary vector behind it.  A pointer is
    null ([None]) or a NUL-terminated string; the arrays are compacted in place as
    the code does, through a reading and a writing index.  Every sequence of calls
    behaves as one on the list of (name, value) pairs. *)

From Stdlib Require Import ZArith Lia Bool String Ascii.
From stdpp Require Import base list numbers option.
From S2P Require Import Prelude CStr.

Open Scope Z_scope.
Open Scope outcome_scope.

Module LinkerEnviron.
Import CStr.

Definition bytes (s : string) : str := (fun c => Z.of_nat (nat_of_ascii c)) <$> list_ascii_of_string s.

Definition MAX_ENV_LEN : Z := 32 * 4096.
Abbreviation eq_sign := 61.

(** [_envp]: null before the initialisation, else the block. *)
Abbreviation block := (list (option str)).

(** The scan for the first equal sign and the length: final [pos] and [first_equal_pos]. *)
Fixpoint valid_loop (fuel : nat) (s : str) (pos first_equal_pos : Z) : outcome (Z * Z) :=
  match fuel with
  | O => Undef
  | S fuel =>
      let! c := chr s pos in
      if c =? 0 then Ok (pos, first_equal_pos) else
      let first_equal_pos := if (c =? eq_sign) && (first_equal_pos <? 0) then pos else first_equal_pos in
      if pos + 1 <? MAX_ENV_LEN then valid_loop fuel s (pos + 1) first_equal_pos else Ok (pos + 1, first_equal_pos)
  end.

Definition _is_valid_definition (s : option str) : outcome bool :=
  match s with
  | None => Ok false
  | Some s =>
      let! (pos, first_equal_pos) := valid_loop (S (length s)) s 0 (-1) in
      Ok (negb (MAX_ENV_LEN <=? pos) && negb (first_equal_pos <? 1))
  end.

(** [while (vecs[0] != 0) vecs++;] *)
Fixpoint skip_loop (fuel : nat) (vecs : block) (i : Z) : outcome Z :=
  match fuel with
  | O => Undef
  | S fuel => let! p := rd vecs i in match p with None => Ok i | Some _ => skip_loop fuel vecs (i + 1) end
  end.

(** The two compacting loops: entries failing [drops] are moved down; the list is closed with a null. *)
Fixpoint compact_loop (fuel : nat) (drops : str -> outcome bool) (envp : block) (readp writep : Z) : outcome block :=
  match fuel with
  | O => Undef
  | S fuel =>
      let! p := rd envp readp in
      match p with
      | None => let! _ := rd envp writep in Ok (<[Z.to_nat writep := None]> envp)
      | Some s =>
          let! d := drops s in
          if d then compact_loop fuel drops envp (readp + 1) writep
          else let! _ := rd envp writep in
               compact_loop fuel drops (<[Z.to_nat writep := Some s]> envp) (readp + 1) (writep + 1)
      end
  end.

(** The index of the auxiliary vector and the cleaned block. *)
Definition linker_env_init (vecs : block) : outcome (Z * block) :=
  let! v := skip_loop (length vecs) vecs 0 in
  let! envp := compact_loop (length vecs) (fun s => let! v := _is_valid_definition (Some s) in Ok (negb v)) vecs 0 0 in
  Ok (v + 1, envp).

(** [while (envstr[cnt] == name[cnt] && name[cnt] != '\0') cnt++;] *)
Fixpoint match_loop (fuel : nat) (envstr name : str) (cnt : Z) : outcome Z :=
  match fuel with
  | O => Undef
  | S fuel =>
      let! n := chr name cnt in
      let! e := chr envstr cnt in
      if (e =? n) && negb (n =? 0) then match_loop fuel envstr name (cnt + 1) else Ok cnt
  end.

(** The value after [name=], [None] for a null pointer. *)
Definition env_match (envstr name : str) : outcome (option str) :=
  let! cnt := match_loop (S (length name)) envstr name 0 in
  let! n := chr name cnt in
  if negb (n =? 0) then Ok None else
  let! e := chr envstr cnt in
  Ok (if e =? eq_sign then Some (drop (Z.to_nat (cnt + 1)) envstr) else None).

Fixpoint get_loop (fuel : nat) (envp : block) (name : str) (readp : Z) : outcome (option str) :=
  match fuel with
  | O => Undef
  | S fuel =>
      let! p := rd envp readp in
      match p with
      | None => Ok None
      | Some s =>
          let! v := env_match s name in
          match v with
          | None => get_loop fuel envp name (readp + 1)
          | Some val => let! c := chr val 0 in Ok (if c =? 0 then None else Some val)
          end
      end
  end.

Definition linker_env_get (envp : block) (name : option str) : outcome (option str) :=
  match name with
  | None => Ok None
  | Some name => let! c := chr name 0 in if c =? 0 then Ok None else get_loop (length envp) envp name 0
  end.

Definition linker_env_unset (envp : block) (name : option str) : outcome block :=
  match name with
  | None => Ok envp
  | Some name =>
      let! c := chr name 0 in
      if c =? 0 then Ok envp else
      compact_loop (length envp) (fun s => let! v := env_match s name in Ok (match v with Some _ => true | None => false end)) envp 0 0
  end.

Definition unsec_vars : list str :=
  [bytes "GCONV_PATH";
   bytes "GETCONF_DIR";
   bytes "HOSTALIASES";
   bytes "LD_AUDIT";
   bytes "LD_DEBUG";
   bytes "LD_DEBUG_OUTPUT";
   bytes "LD_DYNAMIC_WEAK";
   bytes "LD_LIBRARY_PATH";
   bytes "LD_ORIGIN_PATH";
   bytes "LD_PRELOAD";
   bytes "LD_PROFILE";
   bytes "LD_SHOW_AUXV";
   bytes "LD_USE_LOAD_BIAS";
   bytes "LOCALDOMAIN";
   bytes "LOCPATH";
   bytes "MALLOC_TRACE";
   bytes "MALLOC_CHECK_";
   bytes "NIS_PATH";
   bytes "NLSPATH";
   bytes "RESOLV_HOST_CONF";
   bytes "RES_OPTIONS";
   bytes "TMPDIR";
   bytes "TZDIR";
   bytes "LD_AOUT_LIBRARY_PATH";
   bytes "LD_AOUT_PRELOAD"].

Fixpoint unset_all (cp : list str) (envp : block) : outcome block :=
  match cp with
  | [] => Ok envp
  | n :: cp => let! envp := linker_env_unset envp (Some n) in unset_all cp envp
  end.

Definition linker_env_secure (envp : block) : outcome block := unset_all unsec_vars envp.

(** ** Specification: the environment as a list of pairs *)

(** A definition split at its first equal sign. *)
Definition pair_of (s : str) : option (str * str) :=
  match split_at eq_sign s with (n, Some v) => Some (n, v) | _ => None end.

Definition valid (s : str) : bool :=
  (Z.of_nat (length s) <? 128 * 1024) && match pair_of s with Some (_ :: _, _) => true | _ => false end.

(** The definitions of a block, up to its null pointer. *)
Fixpoint defs (b : block) : list str := match b with Some s :: b => s :: defs b | _ => [] end.
Definition env_of (b : block) : list (str * str) := omap pair_of (defs b).

Definition named (n : str) (p : str * str) : bool := bool_decide (p.1 = n).
Definition env_get (e : list (str * str)) (n : str) : option str :=
  match List.find (named n) e with Some (_, c :: v) => Some (c :: v) | _ => None end.

Inductive op := OGet (name : option str) | OUnset (name : option str) | OSecure.

Definition step (b : block) (o : op) : outcome (option str * block) :=
  match o with
  | OGet n => let! v := linker_env_get b n in Ok (v, b)
  | OUnset n => let! b := linker_env_unset b n in Ok (None, b)
  | OSecure => let! b := linker_env_secure b in Ok (None, b)
  end.

Fixpoint run (b : block) (os : list op) : outcome (list (option str) * block) :=
  match os with
  | [] => Ok ([], b)
  | o :: os => let! (v, b) := step b o in let! (vs, b) := run b os in Ok (v :: vs, b)
  end.

Definition spec_step (e : list (str * str)) (o : op) : option str * list (str * str) :=
  match o with
  | OGet (Some (c :: n)) => (env_get e (c :: n), e)
  | OUnset (Some (c :: n)) => (None, List.filter (fun p => negb (named (c :: n) p)) e)
  | OSecure => (None, List.filter (fun p => negb (bool_decide (p.1 ∈ unsec_vars))) e)
  | _ => (None, e)
  end.

Fixpoint spec_run (e : list (str * str)) (os : list op) : list (option str) * list (str * str) :=
  match os with
  | [] => ([], e)
  | o :: os => let '(v, e) := spec_step e o in let '(vs, e) := spec_run e os in (v :: vs, e)
  end.

(** C strings hold no NUL; a variable name holds no equal sign. *)
Definition cstring (s : str) : Prop := 0 ∉ s.
Definition name_ok (n : str) : Prop := cstring n /\ eq_sign ∉ n.
Definition op_ok (o : op) : Prop :=
  match o with OGet (Some n) | OUnset (Some n) => name_ok n | _ => True end.

(** ** The compacting loop *)

Lemma insert_part {A} (a b : list A) x y : <[length a := x]> (a ++ y :: b) = a ++ x :: b.
Proof. rewrite insert_app_r_alt by lia. now rewrite Nat.sub_diag. Qed.

Lemma compact_ok (drops : str -> outcome bool) (d : str -> bool) aux : forall todo fuel done gap,
  (length todo < fuel)%nat -> (forall s, s ∈ todo -> drops s = Ok (d s)) ->
  exists junk, compact_loop fuel drops (done ++ gap ++ (Some <$> todo) ++ None :: aux) (Z.of_nat (length done + length gap)) (Z.of_nat (length done))
    = Ok (done ++ (Some <$> List.filter (fun s => negb (d s)) todo) ++ None :: junk ++ aux) /\
    (length junk + length (List.filter (fun s => negb (d s)) todo) = length gap + length todo)%nat.
Proof.
  induction todo as [|s todo IH]; intros fuel done gap Hf Hd; (destruct fuel as [|fuel]; [cbn in Hf; lia|]); cbn [compact_loop].
  - cbn [fmap list_fmap app List.filter]. rewrite app_assoc, rd_middle by (rewrite length_app; lia). cbn [obind].
    destruct gap as [|g gap].
    + rewrite app_nil_r, rd_middle by reflexivity. cbn [obind]. rewrite Nat2Z.id, insert_part. exists []. split; [reflexivity|cbn; lia].
    + rewrite <- app_assoc. cbn [app]. rewrite rd_middle by reflexivity. cbn [obind]. rewrite Nat2Z.id, insert_part.
      exists (gap ++ [None]). split; [now rewrite <- app_assoc|rewrite length_app; cbn; lia].
  - rewrite fmap_cons. cbn [app]. rewrite app_assoc, rd_middle by (rewrite length_app; lia). cbn [obind].
    rewrite Hd by apply elem_of_cons, or_introl, eq_refl. cbn [obind List.filter]. cbn [length] in Hf.
    assert (forall s0, s0 ∈ todo -> drops s0 = Ok (d s0)) as Hd' by (intros; apply Hd; now right).
    destruct (d s); cbn [negb].
    + destruct (IH fuel done (gap ++ [Some s])) as (junk & Hr & Hl); [lia|assumption|].
      exists junk. rewrite <- Hr. split; [|rewrite length_app in Hl; cbn [length] in *; lia].
      f_equal; [now rewrite <- !app_assoc|rewrite length_app; cbn [length]; lia].
    + destruct gap as [|g gap].
      * rewrite app_nil_r, rd_middle by reflexivity. cbn [obind]. rewrite Nat2Z.id, insert_part.
        destruct (IH fuel (done ++ [Some s]) []) as (junk & Hr & Hl); [lia|assumption|].
        exists junk. cbn [app length] in Hr, Hl |- *. rewrite fmap_cons, <- !app_assoc in *. cbn [app] in *. split; [|lia].
        rewrite <- Hr. f_equal; rewrite length_app; cbn [length]; lia.
      * rewrite <- app_assoc. cbn [app]. rewrite rd_middle by reflexivity. cbn [obind]. rewrite Nat2Z.id, insert_part.
        destruct (IH fuel (done ++ [Some s]) (gap ++ [Some s])) as (junk & Hr & Hl); [lia|assumption|].
        exists junk. rewrite length_app in Hl. rewrite fmap_cons, <- !app_assoc in *. cbn [app length] in *. split; [|lia].
        rewrite <- Hr. f_equal; rewrite !length_app; cbn [length]; lia.
Qed.

(** ** One definition *)

Lemma next_pos (a : str) c : Z.of_nat (length a) + 1 = Z.of_nat (length (a ++ [c])).
Proof. rewrite length_app. cbn. lia. Qed.

Lemma valid_loop_ok : forall r a fuel f, (length r < fuel)%nat -> cstring r -> Z.of_nat (length a) < MAX_ENV_LEN ->
  exists pos, valid_loop fuel (a ++ r) (Z.of_nat (length a)) f =
    Ok (pos, if 0 <=? f then f else match split_at eq_sign (take (Z.to_nat (pos - Z.of_nat (length a))) r) with (n, Some _) => Z.of_nat (length a + length n) | _ => f end) /\
    pos = Z.min MAX_ENV_LEN (Z.of_nat (length (a ++ r))).
Proof.
  induction r as [|c r IH]; intros a fuel f Hf Hc Ha; (destruct fuel as [|fuel]; [cbn in Hf; lia|]); cbn [valid_loop].
  - rewrite app_nil_r, chr_end. cbn [obind]. change (0 =? 0) with true. exists (Z.of_nat (length a)). split; [|lia].
    rewrite take_nil. cbn [split_at]. now destruct (0 <=? f).
  - rewrite chr_mid. cbn [obind]. unfold cstring in Hc. rewrite not_elem_of_cons in Hc. destruct Hc as [Hc0 Hc].
    destruct (Z.eqb_spec c 0); [congruence|]. rewrite (next_pos a c). cbn [length] in Hf.
    set (f' := if (c =? eq_sign) && (f <? 0) then Z.of_nat (length a) else f).
    destruct (Z.ltb_spec (Z.of_nat (length (a ++ [c]))) MAX_ENV_LEN) as [Hlt|Hge].
    + destruct (IH (a ++ [c]) fuel f') as (pos & Hr & Hp); [lia|assumption|assumption|].
      rewrite <- app_assoc in Hr, Hp. cbn [app] in Hr, Hp. exists pos. split; [|assumption]. rewrite Hr. f_equal. f_equal.
      rewrite !length_app in *. cbn [length] in *.
      replace (Z.to_nat (pos - Z.of_nat (length a))) with (S (Z.to_nat (pos - Z.of_nat (length a + 1)))) by lia.
      cbn [take firstn split_at]. subst f'. destruct (Z.leb_spec 0 f).
      * rewrite (proj2 (Z.ltb_ge f 0)), andb_false_r by lia. now rewrite (proj2 (Z.leb_le 0 f)).
      * rewrite (proj2 (Z.ltb_lt f 0)), andb_true_r by lia. destruct (Z.eqb_spec c eq_sign).
        -- rewrite (proj2 (Z.leb_le 0 _)) by lia. cbn [length]. lia.
        -- rewrite (proj2 (Z.leb_gt 0 f)) by lia. destruct (split_at eq_sign _) as [nm [v|]]; [cbn [length]; lia|reflexivity].
    + exists (Z.of_nat (length (a ++ [c]))). rewrite !length_app in *. cbn [length] in *. split; [|lia]. f_equal. f_equal.
      replace (Z.to_nat (Z.of_nat (length a + 1) - Z.of_nat (length a))) with 1%nat by lia. cbn [take firstn split_at]. subst f'.
      destruct (Z.leb_spec 0 f).
      * now rewrite (proj2 (Z.ltb_ge f 0)), andb_false_r by lia.
      * rewrite (proj2 (Z.ltb_lt f 0)), andb_true_r by lia. destruct (Z.eqb_spec c eq_sign); [cbn [length]; lia|reflexivity].
Qed.

Lemma valid_ok s : cstring s -> _is_valid_definition (Some s) = Ok (valid s).
Proof.
  intros Hs. unfold _is_valid_definition, valid, pair_of. change (128 * 1024) with MAX_ENV_LEN.
  destruct (valid_loop_ok s [] (S (length s)) (-1)) as (pos & Hr & Hp); [lia|assumption|reflexivity|].
  cbn [app length] in Hr, Hp. change (Z.of_nat 0) with 0 in Hr. rewrite Hr. cbn [obind]. change (0 <=? -1) with false. cbn match.
  destruct (Z.ltb_spec (Z.of_nat (length s)) MAX_ENV_LEN).
  - rewrite (proj2 (Z.leb_gt MAX_ENV_LEN pos)) by lia. rewrite take_ge by lia. cbn [negb andb]. f_equal.
    destruct (split_at eq_sign s) as [n [v|]]; [|reflexivity]. destruct n as [|c n]; cbn [length]; [reflexivity|].
    rewrite (proj2 (Z.ltb_ge _ _)) by lia. reflexivity.
  - rewrite (proj2 (Z.leb_le MAX_ENV_LEN pos)) by lia. reflexivity.
Qed.

Fixpoint prefix_match (n e : str) : option str :=
  match n, e with
  | [], c :: e => if c =? eq_sign then Some e else None
  | x :: n, y :: e => if y =? x then prefix_match n e else None
  | _, [] => None
  end.

Lemma match_loop_ok : forall n e a fuel, (length n < fuel)%nat -> cstring n ->
  (let! cnt := match_loop fuel (a ++ e) (a ++ n) (Z.of_nat (length a)) in
   let! c := chr (a ++ n) cnt in
   if negb (c =? 0) then Ok None else
   let! x := chr (a ++ e) cnt in
   Ok (if x =? eq_sign then Some (drop (Z.to_nat (cnt + 1)) (a ++ e)) else None)) = Ok (prefix_match n e).
Proof.
  induction n as [|c n IH]; intros e a fuel Hf Hc; (destruct fuel as [|fuel]; [cbn in Hf; lia|]); cbn [match_loop].
  - assert (exists x, chr (a ++ e) (Z.of_nat (length a)) = Ok x /\ x = match e with c :: _ => c | [] => 0 end) as (x & Hx & Ex).
    { destruct e; [rewrite app_nil_r, chr_end|rewrite chr_mid]; eauto. }
    rewrite app_nil_r, chr_end, Hx. cbn [obind]. change (0 =? 0) with true. rewrite andb_false_r. cbn [obind]. rewrite chr_end. cbn [obind negb Z.eqb].
    rewrite Hx. cbn [obind]. subst x. destruct e as [|y e]; [reflexivity|]. cbn [prefix_match]. destruct (y =? eq_sign); [|reflexivity].
    rewrite (next_pos a y), Nat2Z.id. change (y :: e) with ([y] ++ e). now rewrite app_assoc, drop_app_length.
  - unfold cstring in Hc. rewrite not_elem_of_cons in Hc. destruct Hc as [Hc0 Hc]. cbn [length] in Hf. rewrite chr_mid. cbn [obind].
    destruct (Z.eqb_spec c 0); [congruence|]. cbn [negb].
    destruct e as [|y e]; cbn [prefix_match].
    + rewrite app_nil_r, chr_end. cbn [obind]. destruct (Z.eqb_spec 0 c); [congruence|]. cbn [andb obind]. rewrite chr_mid. cbn [obind].
      now destruct (Z.eqb_spec c 0).
    + rewrite chr_mid. cbn [obind]. destruct (Z.eqb_spec y c) as [->|]; cbn [andb].
      * rewrite (next_pos a c). specialize (IH e (a ++ [c]) fuel ltac:(lia) Hc). rewrite <- !app_assoc in IH. exact IH.
      * cbn [obind]. rewrite chr_mid. cbn [obind]. now destruct (Z.eqb_spec c 0).
Qed.

Lemma prefix_pair : forall n e, eq_sign ∉ n ->
  prefix_match n e = match pair_of e with Some (m, v) => if bool_decide (m = n) then Some v else None | None => None end.
Proof.
  unfold pair_of. induction n as [|x n IH]; intros [|y e] Hn; cbn [prefix_match split_at]; try reflexivity.
  - destruct (y =? eq_sign); [reflexivity|]. now destruct (split_at eq_sign e) as [? [?|]].
  - rewrite not_elem_of_cons in Hn. destruct Hn as [Hx Hn]. specialize (IH e Hn).
    destruct (Z.eqb_spec y eq_sign) as [->|]; [destruct (Z.eqb_spec eq_sign x); [congruence|reflexivity]|].
    destruct (Z.eqb_spec y x) as [->|]; destruct (split_at eq_sign e) as [m [v|]]; try assumption; try reflexivity.
    + rewrite IH. repeat case_bool_decide; congruence.
    + clear IH. case_bool_decide; congruence.
Qed.

Lemma env_match_ok s n : name_ok n -> env_match s n =
  Ok (match pair_of s with Some (m, v) => if bool_decide (m = n) then Some v else None | None => None end).
Proof.
  intros [Hn He]. rewrite <- (prefix_pair n s He). exact (match_loop_ok n s [] (S (length n)) (Nat.lt_succ_diag_r _) Hn).
Qed.

(** ** Blocks *)

Definition closed (b : block) : Prop := exists rest, b = (Some <$> defs b) ++ None :: rest.
Definition block_ok (b : block) : Prop := closed b /\ Forall (fun s => cstring s /\ is_Some (pair_of s)) (defs b).

Lemma defs_app l rest : defs ((Some <$> l) ++ None :: rest) = l.
Proof. induction l as [|s l IH]; [reflexivity|]. cbn. now f_equal. Qed.

Lemma closed_app l rest : closed ((Some <$> l) ++ None :: rest).
Proof. exists rest. now rewrite defs_app. Qed.

(** Compacting a closed block filters its definitions and moves nothing behind the null pointer. *)
Lemma compact_block drops d l rest : (forall s, s ∈ l -> drops s = Ok (d s)) ->
  exists junk, compact_loop (length ((Some <$> l) ++ None :: rest)) drops ((Some <$> l) ++ None :: rest) 0 0 =
    Ok ((Some <$> List.filter (fun s => negb (d s)) l) ++ None :: junk ++ rest) /\
    (length junk + length (List.filter (fun s => negb (d s)) l) = length l)%nat.
Proof.
  intros Hd. destruct (compact_ok drops d rest l (length ((Some <$> l) ++ None :: rest)) [] []) as (junk & Hr & Hl).
  - rewrite length_app, length_fmap. cbn. lia.
  - assumption.
  - exists junk. split; [exact Hr|exact Hl].
Qed.

Lemma get_loop_ok n rest : name_ok n -> forall l pre fuel, (length l < fuel)%nat -> Forall cstring l ->
  get_loop fuel (pre ++ (Some <$> l) ++ None :: rest) n (Z.of_nat (length pre)) = Ok (env_get (omap pair_of l) n).
Proof.
  intros Hn. induction l as [|s l IH]; intros pre fuel Hf Hl; (destruct fuel as [|fuel]; [cbn in Hf; lia|]); cbn [get_loop].
  - cbn [fmap list_fmap app]. rewrite rd_middle by reflexivity. reflexivity.
  - rewrite fmap_cons. cbn [app]. rewrite rd_middle by reflexivity. cbn [obind]. rewrite (env_match_ok s n Hn). cbn [obind].
    apply Forall_cons_1 in Hl as [Hs Hl]. cbn [length] in Hf.
    assert (get_loop fuel (pre ++ Some s :: (Some <$> l) ++ None :: rest) n (Z.of_nat (length pre) + 1) = Ok (env_get (omap pair_of l) n)) as Hk.
    { specialize (IH (pre ++ [Some s]) fuel ltac:(lia) Hl). rewrite <- app_assoc, length_app in IH. cbn [app length] in IH.
      rewrite <- IH. f_equal. lia. }
    cbn [omap list_omap]. unfold env_get in *. destruct (pair_of s) as [[m v]|] eqn:Hp; [|exact Hk]. cbn [List.find].
    change (named n (m, v)) with (bool_decide (m = n)). destruct (bool_decide (m = n)); [|exact Hk].
    destruct v as [|c v]; [reflexivity|]. unfold chr. cbn [length]. rewrite (proj2 (Z.eqb_neq 0 _)) by lia.
    change (rd (c :: v) 0) with (Ok c). cbn [obind].
    destruct (Z.eqb_spec c 0) as [->|]; [|reflexivity]. exfalso. unfold pair_of in Hp. destruct (split_at eq_sign s) as [m' v'] eqn:E.
    apply split_at_app in E as [_ ->]. destruct v' as [v'|]; [|discriminate]. injection Hp as <- ->.
    apply Hs. rewrite elem_of_app. right. right. left.
Qed.

(** Removing the definitions that [drops] selects removes those pairs. *)
Lemma compact_env drops (keep : str * str -> bool) b :
  block_ok b -> (forall s p, cstring s -> pair_of s = Some p -> drops s = Ok (negb (keep p))) ->
  exists b', compact_loop (length b) drops b 0 0 = Ok b' /\ block_ok b' /\ env_of b' = List.filter keep (env_of b).
Proof.
  intros [[rest E] Hd] Hk. set (d := fun s => match pair_of s with Some p => negb (keep p) | None => true end).
  destruct (compact_block drops d (defs b) rest) as (junk & Hr & Hl).
  { intros s Hs. apply list_elem_of_In in Hs. destruct (proj1 (List.Forall_forall _ _) Hd s Hs) as [Hc [p Hp]].
    rewrite (Hk s p Hc Hp). unfold d. now rewrite Hp. }
  rewrite <- E in Hr. eexists. split; [exact Hr|]. unfold block_ok, env_of. rewrite defs_app. clear Hr E Hl. split.
  - split; [apply closed_app|]. apply List.Forall_forall. intros s [Hs _]%List.filter_In. exact (proj1 (List.Forall_forall _ _) Hd s Hs).
  - induction (defs b) as [|s l IH]; [reflexivity|]. apply Forall_cons_1 in Hd as [[_ [p Hp]] Hd]. cbn [List.filter omap list_omap].
    unfold d at 1. rewrite Hp. rewrite negb_involutive. cbn [List.filter]. destruct (keep p); [|now apply IH].
    cbn [omap list_omap]. rewrite Hp. f_equal. now apply IH.
Qed.

Lemma unset_ok b n : block_ok b -> name_ok n -> n <> [] ->
  exists b', linker_env_unset b (Some n) = Ok b' /\ block_ok b' /\ env_of b' = List.filter (fun p => negb (named n p)) (env_of b).
Proof.
  intros Hb Hn Hne. unfold linker_env_unset. destruct n as [|c n]; [done|].
  assert (chr (c :: n) 0 = Ok c) as -> by exact (chr_mid [] c n). cbn [obind].
  destruct (Z.eqb_spec c 0) as [->|_]; [destruct Hn as [Hn _]; exfalso; apply Hn; left|].
  apply compact_env; [assumption|]. intros s [m v] _ Hp. rewrite (env_match_ok s _ Hn), Hp. cbn [obind]. unfold named. cbn [fst].
  now destruct (bool_decide _).
Qed.

Lemma filter_twice {A} (f g : A -> bool) l : List.filter f (List.filter g l) = List.filter (fun x => g x && f x) l.
Proof. induction l as [|x l IH]; [reflexivity|]. cbn [List.filter]. destruct (g x); cbn [List.filter andb]; now rewrite IH. Qed.

Lemma unset_all_ok : forall ns b, block_ok b -> Forall (fun n => name_ok n /\ n <> []) ns ->
  exists b', unset_all ns b = Ok b' /\ block_ok b' /\ env_of b' = List.filter (fun p => negb (bool_decide (p.1 ∈ ns))) (env_of b).
Proof.
  induction ns as [|n ns IH]; intros b Hb Hns; cbn [unset_all].
  - exists b. split_and!; [reflexivity|assumption|]. symmetry. induction (env_of b) as [|p l IHl]; [reflexivity|]. cbn [List.filter].
    rewrite bool_decide_eq_false_2 by apply not_elem_of_nil. cbn [negb]. now f_equal.
  - apply Forall_cons_1 in Hns as [[Hn Hne] Hns]. destruct (unset_ok b n Hb Hn Hne) as (b1 & -> & Hb1 & E1). cbn [obind].
    destruct (IH b1 Hb1 Hns) as (b2 & -> & Hb2 & E2). exists b2. split_and!; [reflexivity|assumption|].
    rewrite E2, E1, filter_twice. apply List.filter_ext. intros [m v]. unfold named. cbn [fst].
    destruct (decide (m = n)) as [->|Hmn].
    + rewrite bool_decide_eq_true_2 by reflexivity. rewrite (bool_decide_eq_true_2 (n ∈ n :: ns)) by left. reflexivity.
    + rewrite bool_decide_eq_false_2 by assumption. cbn [negb andb]. f_equal. apply bool_decide_ext. rewrite elem_of_cons. tauto.
Qed.

Lemma unsec_ok : Forall (fun n => name_ok n /\ n <> []) unsec_vars.
Proof. unfold name_ok, cstring. apply (bool_decide_unpack _). vm_compute. exact I. Qed.

Lemma env_step_ok b o : block_ok b -> op_ok o ->
  exists v b', step b o = Ok (v, b') /\ block_ok b' /\ spec_step (env_of b) o = (v, env_of b').
Proof.
  intros Hb Ho. destruct o as [[[|c n]|]|[[|c n]|]|]; cbn [step spec_step op_ok] in *.
  all: try (exists None, b; split_and!; [reflexivity|assumption|reflexivity]).
  - pose proof Hb as [[rest E] Hd]. exists (env_get (env_of b) (c :: n)), b. split_and!; [|assumption|reflexivity].
    unfold linker_env_get. assert (chr (c :: n) 0 = Ok c) as -> by exact (chr_mid [] c n). cbn [obind].
    destruct (Z.eqb_spec c 0) as [->|_]; [destruct Ho as [Hn _]; exfalso; apply Hn; left|].
    pose proof (get_loop_ok (c :: n) rest Ho (defs b) [] (length b)) as G. cbn [app length] in G.
    rewrite <- E in G. change (Z.of_nat 0) with 0 in G. rewrite G; [reflexivity| |].
    + apply (f_equal length) in E. rewrite length_app, length_fmap in E. cbn [length] in E. lia.
    + eapply List.Forall_impl; [|exact Hd]. now intros s [? _].
  - destruct (unset_ok b (c :: n) Hb Ho) as (b' & -> & Hb' & E); [discriminate|]. cbn [obind].
    exists None, b'. split_and!; [reflexivity|assumption|now rewrite E].
  - destruct (unset_all_ok unsec_vars b Hb unsec_ok) as (b' & H & Hb' & E). unfold linker_env_secure. rewrite H. cbn [obind].
    exists None, b'. split_and!; [reflexivity|assumption|now rewrite E].
Qed.

Lemma env_run_ok : forall os b, block_ok b -> Forall op_ok os ->
  exists vs b', run b os = Ok (vs, b') /\ spec_run (env_of b) os = (vs, env_of b').
Proof.
  induction os as [|o os IH]; intros b Hb Hos; cbn [run spec_run]; [exists [], b; split; reflexivity|].
  apply Forall_cons_1 in Hos as [Ho Hos]. destruct (env_step_ok b o Hb Ho) as (v & b1 & -> & Hb1 & ->). cbn [obind].
  destruct (IH b1 Hb1 Hos) as (vs & b2 & -> & ->). exists (v :: vs), b2. split; reflexivity.
Qed.

Lemma init_ok l aux : Forall cstring l -> exists junk,
  linker_env_init ((Some <$> l) ++ None :: aux) = Ok (Z.of_nat (length l) + 1, (Some <$> List.filter valid l) ++ None :: junk ++ aux) /\
  (length junk + length (List.filter valid l) = length l)%nat.
Proof.
  intros Hl. unfold linker_env_init. set (b := (Some <$> l) ++ None :: aux).
  assert (forall l' pre fuel, (length l' < fuel)%nat -> skip_loop fuel (pre ++ (Some <$> l') ++ None :: aux) (Z.of_nat (length pre)) = Ok (Z.of_nat (length pre + length l'))) as Hskip.
  { induction l' as [|s l' IH]; intros pre fuel Hf; (destruct fuel as [|fuel]; [cbn in Hf; lia|]); cbn [skip_loop].
    - cbn [fmap list_fmap app]. rewrite rd_middle by reflexivity. cbn [obind length]. do 2 f_equal. lia.
    - rewrite fmap_cons. cbn [app]. rewrite rd_middle by reflexivity. cbn [obind length] in *. specialize (IH (pre ++ [Some s]) fuel ltac:(lia)).
      rewrite <- app_assoc, length_app in IH. cbn [app length] in IH. replace (Z.of_nat (length pre) + 1) with (Z.of_nat (length pre + 1)) by lia.
      rewrite IH. do 2 f_equal. lia. }
  pose proof (Hskip l [] (length b)) as Hs. cbn [app length Z.of_nat Nat.add] in Hs. fold b in Hs. change (Z.of_nat 0) with 0 in Hs. rewrite Hs by (unfold b; rewrite length_app, length_fmap; cbn; lia).
  cbn [obind]. destruct (compact_block (fun s => let! v := _is_valid_definition (Some s) in Ok (negb v)) (fun s => negb (valid s)) l aux) as (junk & Hr & Hn).
  { intros s Hin. rewrite valid_ok; [reflexivity|]. apply list_elem_of_In in Hin. exact (proj1 (List.Forall_forall _ _) Hl s Hin). }
  rewrite (List.filter_ext _ valid) in Hr, Hn by (intros; apply negb_involutive). fold b in Hr. rewrite Hr. cbn [obind]. eauto.
Qed.


(** A value longer than the unused limit of 64 KiB above [linker_env_get] is returned. *)
Lemma long_value_returned (n v : str) (rest : block) : name_ok n -> n <> [] -> cstring v -> 16 * 4096 < Z.of_nat (length v) ->
  linker_env_get (Some (n ++ eq_sign :: v) :: None :: rest) (Some n) = Ok (Some v).
Proof.
  intros Hn Hne Hv Hlen. assert (pair_of (n ++ eq_sign :: v) = Some (n, v)) as Ep.
  { destruct Hn as [_ Hn]. clear Hne Hlen. unfold pair_of. enough (split_at eq_sign (n ++ eq_sign :: v) = (n, Some v)) as -> by reflexivity.
    induction n as [|x n IH]; cbn [app split_at]; [now rewrite Z.eqb_refl|]. rewrite not_elem_of_cons in Hn. destruct Hn as [Hx Hn].
    destruct (Z.eqb_spec x eq_sign); [congruence|]. now rewrite (IH Hn). }
  set (b := Some (n ++ eq_sign :: v) :: None :: rest). assert (block_ok b) as Hb.
  { split; [exact (closed_app [n ++ eq_sign :: v] rest)|]. cbn [b defs]. constructor; [|constructor]. split; [|eauto].
    unfold cstring. rewrite elem_of_app, elem_of_cons. intros [H|[H|H]]; [exact (proj1 Hn H)|discriminate|exact (Hv H)]. }
  destruct (env_step_ok b (OGet (Some n)) Hb Hn) as (w & b' & E & _ & Es). cbn [step] in E. destruct (linker_env_get b (Some n)) as [x| |]; try discriminate. cbn [obind] in E. injection E as -> <-.
  destruct n as [|c n]; [congruence|]. cbn [spec_step] in Es. injection Es as <-. unfold env_of. cbn [b defs omap list_omap]. rewrite Ep. unfold env_get. cbn [List.find named fst].
  unfold named. rewrite bool_decide_true by reflexivity. destruct v; [cbn in Hlen; lia|reflexivity].
Qed.

(** One null pointer ends the block: the second one is given as the auxiliary vector. *)
Example first_null_ends_block : linker_env_init [Some (bytes "A=b"); None; None; Some [6]] = Ok (2, [Some (bytes "A=b"); None; None; Some [6]]).
Proof. vm_compute. reflexivity. Qed.

Definition sample_env : list str := [bytes "HOME=/root"; bytes "LD_PRELOAD=a.so"; bytes "=x"; bytes "junk"; bytes "LD_PRELOAD=b.so"; bytes "EMPTY="].
Definition sample_ops : list op :=
  [OGet (Some (bytes "LD_PRELOAD")); OGet (Some (bytes "EMPTY")); OUnset (Some (bytes "EMPTY")); OSecure;
   OGet (Some (bytes "LD_PRELOAD")); OGet (Some (bytes "HOME")); OGet None].


Example env_sample_answers :
  spec_run (omap pair_of (List.filter valid sample_env)) sample_ops =
  ([Some (bytes "a.so"); None; None; None; None; Some (bytes "/root"); None], [(bytes "HOME", bytes "/root")]).
Proof. vm_compute. reflexivity. Qed.
End LinkerEnviron.
