(* ===== verification/BcDecode.v ===== *)
(** * Dispatching the block decoder (vulkan/compat/bc_decode.c)

    [hybris_bc_prepare] checks a region against the buffer ranges and the device
    limits and computes the push constants of the decoding kernel
    (shaders/bc_decode.comp); [hybris_bc_decode_record] creates the kernel's pipeline
    once and records the dispatch.  Integers keep their 32- or 64-bit width; the
    Vulkan entry points are answers, the calls made on the device and the commands
    recorded are results.  The words the kernel reads and writes, as its source
    computes them, stay inside the two ranges, and every device object is destroyed
    once. *)

From Stdlib Require Import ZArith Lia Bool.
From stdpp Require Import base list numbers option.
From S2P Require Import Prelude.

Open Scope Z_scope.
Open Scope outcome_scope.

Module BcDecode.

(** Values of the Vulkan registry. *)
Definition VK_FORMAT_R5G6B5_UNORM_PACK16 : Z := 4.
Definition VK_FORMAT_A1R5G5B5_UNORM_PACK16 : Z := 8.
Definition VK_FORMAT_BC1_RGB_UNORM_BLOCK : Z := 131.
Definition VK_FORMAT_BC1_RGB_SRGB_BLOCK : Z := 132.
Definition VK_FORMAT_BC4_SNORM_BLOCK : Z := 140.
Definition VK_FORMAT_BC5_SNORM_BLOCK : Z := 142.
Definition VK_FORMAT_BC6H_SFLOAT_BLOCK : Z := 144.
Definition VK_FORMAT_BC7_SRGB_BLOCK : Z := 146.
Definition VK_FORMAT_ETC2_R8G8B8A1_UNORM_BLOCK : Z := 149.
Definition VK_FORMAT_ETC2_R8G8B8A1_SRGB_BLOCK : Z := 150.
Definition VK_FORMAT_EAC_R11_UNORM_BLOCK : Z := 153.
Definition VK_FORMAT_EAC_R11_SNORM_BLOCK : Z := 154.
Definition VK_FORMAT_EAC_R11G11_UNORM_BLOCK : Z := 155.
Definition VK_FORMAT_EAC_R11G11_SNORM_BLOCK : Z := 156.
Definition VK_FORMAT_ASTC_4x4_UNORM_BLOCK : Z := 157.
Definition VK_FORMAT_ASTC_4x4_SRGB_BLOCK : Z := 158.
Definition VK_FORMAT_ASTC_4x4_SFLOAT_BLOCK : Z := 1000066000.
Definition VK_SUCCESS : Z := 0.
Definition VK_ERROR_OUT_OF_HOST_MEMORY : Z := -1.
Definition VK_ERROR_INITIALIZATION_FAILED : Z := -3.
Definition VK_ERROR_FORMAT_NOT_SUPPORTED : Z := -11.
Definition UINT32_MAX : Z := 2 ^ 32 - 1.

Record hybris_bc_region := Region {
  format : Z; output_format : Z; quality : Z; rgb16 : Z; rgb8 : Z;
  width : Z; height : Z; layers : Z; row_length : Z; image_height : Z;
  source_offset : Z; destination_offset : Z; source_range : Z; destination_range : Z }.

(** The limits read: buffer range, work-group size, invocations and counts. *)
Record device_limits := Limits {
  maxStorageBufferRange : Z; group_size_x : Z; group_size_y : Z; group_invocations : Z;
  group_count_x : Z; group_count_y : Z; group_count_z : Z }.

Record hybris_bc_push := Push {
  source_word : Z; row_blocks : Z; layer_blocks : Z; flags : Z; destination_word : Z; push_width : Z; push_height : Z }.

Definition family (f : Z) : Z :=
  if (f <? VK_FORMAT_BC1_RGB_UNORM_BLOCK) || (VK_FORMAT_BC7_SRGB_BLOCK <? f) then -1
  else let offset := f - VK_FORMAT_BC1_RGB_UNORM_BLOCK in
       if offset <? 4 then 0 else offset / 2 - 1.

Definition truthy (v : Z) : bool := negb (v =? 0).

Definition variant (r : hybris_bc_region) : Z :=
  let f := family (format r) in
  if f <? 0 then -1 else
  let o := output_format r in
  if (o =? VK_FORMAT_ASTC_4x4_UNORM_BLOCK) || (o =? VK_FORMAT_ASTC_4x4_SRGB_BLOCK)
  then if f =? 0 then 9 else if f =? 1 then 10 else if f =? 2 then 11 else if f =? 6 then 14 else -1
  else if (o =? VK_FORMAT_EAC_R11_UNORM_BLOCK) || (o =? VK_FORMAT_EAC_R11_SNORM_BLOCK)
  then if f =? 3 then 12 else -1
  else if (o =? VK_FORMAT_EAC_R11G11_UNORM_BLOCK) || (o =? VK_FORMAT_EAC_R11G11_SNORM_BLOCK)
  then if f =? 4 then 13 else -1
  else if (o =? VK_FORMAT_R5G6B5_UNORM_PACK16) || (o =? VK_FORMAT_A1R5G5B5_UNORM_PACK16)
  then if f =? 0 then 15 else -1
  else if o =? VK_FORMAT_ASTC_4x4_SFLOAT_BLOCK then if f =? 5 then 16 else -1
  else if truthy (rgb8 r) then if f =? 0 then 7 else -1
  else if truthy (rgb16 r) then if f =? 5 then 8 else -1
  else f.

Definition block_bytes : list Z := [64; 64; 64; 16; 32; 128; 64; 48; 96; 16; 16; 16; 8; 16; 16; 32; 16].

Definition hybris_bc_output_block_bytes (r : hybris_bc_region) : outcome Z :=
  let v := variant r in if v <? 0 then Ok 0 else rd block_bytes v.

Definition input_bytes (f : Z) : Z := if (f =? 0) || (f =? 3) then 8 else 16.

(** The region's flags for the kernel. *)
Definition push_flags (r : hybris_bc_region) : Z :=
  let flags := if (format r =? VK_FORMAT_BC1_RGB_UNORM_BLOCK) || (format r =? VK_FORMAT_BC1_RGB_SRGB_BLOCK) then 1 else 0 in
  let flags := if (format r =? VK_FORMAT_BC4_SNORM_BLOCK) || (format r =? VK_FORMAT_BC5_SNORM_BLOCK) ||
                  (format r =? VK_FORMAT_BC6H_SFLOAT_BLOCK) then Z.lor flags 2 else flags in
  if (output_format r =? VK_FORMAT_ETC2_R8G8B8A1_UNORM_BLOCK) || (output_format r =? VK_FORMAT_ETC2_R8G8B8A1_SRGB_BLOCK)
  then Z.lor flags 4 else flags.

(** The result code and, on success, the push constants. *)
Definition prepare_region (r : hybris_bc_region) (l : device_limits) : outcome (Z * option hybris_bc_push) :=
  let fail := (VK_ERROR_INITIALIZATION_FAILED, None) in
  let f := family (format r) in
  if (truthy (rgb8 r) && (truthy (rgb16 r) || (negb (format r =? VK_FORMAT_BC1_RGB_UNORM_BLOCK) &&
        negb (format r =? VK_FORMAT_BC1_RGB_SRGB_BLOCK)))) || (truthy (rgb16 r) && negb (f =? 5)) then Ok fail else
  let! output_bytes := hybris_bc_output_block_bytes r in
  if (f <? 0) || (output_bytes =? 0) then Ok (VK_ERROR_FORMAT_NOT_SUPPORTED, None) else
  if (width r =? 0) || (height r =? 0) || (layers r =? 0) || truthy (Z.land (source_offset r) 3) || truthy (Z.land (destination_offset r) 3) ||
     (maxStorageBufferRange l <? source_range r) || (maxStorageBufferRange l <? destination_range r) ||
     (group_size_x l <? 8) || (group_size_y l <? 8) || (group_invocations l <? 64) then Ok fail else
  let row := if truthy (row_length r) then row_length r else width r in
  let rows := if truthy (image_height r) then image_height r else height r in
  if (row <? width r) || (rows <? height r) || (truthy (row_length r) && truthy (Z.land row 3)) ||
     (truthy (image_height r) && truthy (Z.land rows 3)) then Ok fail else
  let nx := u64 (width r + 3) / 4 in
  let ny := u64 (height r + 3) / 4 in
  let row_blocks := u64 (row + 3) / 4 in
  let layer_blocks := u64 (row_blocks * (u64 (rows + 3) / 4)) in
  if (UINT32_MAX / layers r <? layer_blocks) || (group_count_x l <? u64 (nx + 7) / 8) ||
     (group_count_y l <? u64 (ny + 7) / 8) || (group_count_z l <? layers r) then Ok fail else
  let source_bytes := u64 (u64 (u64 (u64 (layer_blocks * (layers r - 1)) + u64 (u64 (ny - 1) * row_blocks)) + nx) * input_bytes f) in
  let destination_bytes := u64 (u64 (u64 (nx * ny) * layers r) * output_bytes) in
  if (source_range r <? source_offset r) || (u64 (source_range r - source_offset r) <? source_bytes) ||
     (destination_range r <? destination_offset r) || (u64 (destination_range r - destination_offset r) <? destination_bytes) ||
     (UINT32_MAX <? u64 (source_offset r / 4 + source_bytes / 4)) ||
     (UINT32_MAX <? u64 (destination_offset r / 4 + destination_bytes / 4)) then Ok fail else
  Ok (VK_SUCCESS, Some (Push (u32 (source_offset r / 4)) (u32 row_blocks) (u32 layer_blocks) (push_flags r)
                          (u32 (destination_offset r / 4)) (width r) (height r))).

Definition hybris_bc_prepare (r : option hybris_bc_region) (l : option device_limits) (have_push : bool) : outcome (Z * option hybris_bc_push) :=
  match r, l, have_push with
  | Some r, Some l, true => prepare_region r l
  | _, _, _ => Ok (VK_ERROR_INITIALIZATION_FAILED, None)
  end.

(** ** The kernel's addresses (shaders/bc_decode.comp, [main])

    Shader integers are 32 bits wide: sums and products are taken modulo [2^32] once. *)

Definition blocks (extent : Z) : Z := u32 (extent + 3) / 4.

(** The format a kernel is compiled for, and the format of each entry of [kernels] (shaders/generate-bc.py). *)
Inductive FMT := FMT_BC1 | FMT_BC2 | FMT_BC3 | FMT_BC4 | FMT_BC5 | FMT_BC6H | FMT_BC7.
Definition kernels : list FMT :=
  [FMT_BC1; FMT_BC2; FMT_BC3; FMT_BC4; FMT_BC5; FMT_BC6H; FMT_BC7; FMT_BC1; FMT_BC6H;
   FMT_BC1; FMT_BC2; FMT_BC3; FMT_BC4; FMT_BC5; FMT_BC7; FMT_BC1; FMT_BC6H].
(** The kernel's constant [words]. *)
Definition kernel_words (f : FMT) : Z := match f with FMT_BC1 | FMT_BC4 => 2 | _ => 4 end.

(** Word [k] of the block read by invocation ([x], [y], [z]). *)
Definition kernel_source (p : hybris_bc_push) (words x y z k : Z) : Z :=
  u32 (source_word p + (z * layer_blocks p + y * row_blocks p + x) * words + k).

(** A decoding kernel writes four rows of [row_words] words; a transcoding one the words of the encoded block. *)
Definition kernel_rows (p : hybris_bc_push) (row_words x y z ty k : Z) : Z :=
  let row := blocks (push_width p) * row_words in
  u32 (destination_word p + (z * blocks (push_height p) * 4 + y * 4) * row + x * row_words + ty * row + k).
Definition kernel_block (p : hybris_bc_push) (ow x y z k : Z) : Z :=
  u32 (destination_word p + ((z * blocks (push_height p) + y) * blocks (push_width p) + x) * ow + k).

(** [ROW_WORDS] of the kernel a variant selects, if it decodes. *)
Definition row_words (v : Z) : option Z :=
  mjoin ([Some 4; Some 4; Some 4; Some 1; Some 2; Some 8; Some 4; Some 3; Some 6; None; None; None; None; None; None; Some 2; None] !! Z.to_nat v).
Definition encoded_words (v : Z) : Z := if v =? 12 then 2 else 4.
Definition written_words (v : Z) : Z := match row_words v with Some rw => 4 * rw | None => encoded_words v end.

(** Word [j] written by invocation ([x], [y], [z]). *)
Definition kernel_destination (p : hybris_bc_push) (v x y z j : Z) : Z :=
  match row_words v with
  | Some rw => kernel_rows p rw x y z (j / rw) (j mod rw)
  | None => kernel_block p (encoded_words v) x y z j
  end.

(** ** What a successful check establishes *)

Record region_ok (r : hybris_bc_region) : Prop := {
  ok_width : in_range 32 (width r); ok_height : in_range 32 (height r); ok_layers : in_range 32 (layers r);
  ok_row : in_range 32 (row_length r); ok_image : in_range 32 (image_height r);
  ok_source : in_range 64 (source_offset r); ok_destination : in_range 64 (destination_offset r);
  ok_source_range : in_range 64 (source_range r); ok_destination_range : in_range 64 (destination_range r) }.

(** The facts over the integers, without wrap-around. *)
Record prepared (r : hybris_bc_region) (p : hybris_bc_push) : Prop := {
  p_layers : 0 < layers r;
  p_size : push_width p = width r /\ push_height p = height r;
  p_source : source_offset r = 4 * source_word p;
  p_destination : destination_offset r = 4 * destination_word p;
  p_row : (width r + 3) / 4 <= row_blocks p;
  p_layer : row_blocks p * ((height r + 3) / 4) <= layer_blocks p;
  p_read : let words := input_bytes (family (format r)) / 4 in
    let n := (layer_blocks p * (layers r - 1) + ((height r + 3) / 4 - 1) * row_blocks p + (width r + 3) / 4) * words in
    source_offset r + 4 * n <= source_range r /\ source_word p + n <= UINT32_MAX;
  p_write : exists bytes, rd block_bytes (variant r) = Ok bytes /\ 0 <= variant r /\
    let n := (width r + 3) / 4 * ((height r + 3) / 4) * layers r * bytes / 4 in
    destination_offset r + 4 * n <= destination_range r /\ destination_word p + n <= UINT32_MAX }.

Lemma u64_small z : 0 <= z < 2 ^ 64 -> u64 z = z.
Proof. apply (wrap_small 64). Qed.
Lemma u32_small z : 0 <= z < 2 ^ 32 -> u32 z = z.
Proof. apply (wrap_small 32). Qed.

Lemma words_written v : 0 <= v < 17 -> exists b, rd block_bytes v = Ok b /\ b = 4 * written_words v /\ 0 < written_words v <= 32.
Proof.
  intros H. assert (v = 0 \/ v = 1 \/ v = 2 \/ v = 3 \/ v = 4 \/ v = 5 \/ v = 6 \/ v = 7 \/ v = 8 \/ v = 9 \/ v = 10 \/ v = 11 \/ v = 12 \/ v = 13 \/ v = 14 \/ v = 15 \/ v = 16) as E by lia.
  repeat (destruct E as [->|E]; [eexists; split; [reflexivity|split; [reflexivity|cbv; split; congruence]]|]).
  subst. eexists; split; [reflexivity|split; [reflexivity|cbv; split; congruence]].
Qed.

Lemma low_bits z : 0 <= z -> truthy (Z.land z 3) = false -> z = 4 * (z / 4).
Proof.
  intros Hz H. unfold truthy in H. apply negb_false_iff, Z.eqb_eq in H. change 3 with (Z.ones 2) in H. rewrite Z.land_ones in H by lia.
  change (2 ^ 2) with 4 in H. pose proof (Z.div_mod z 4). lia.
Qed.

(** Splits a failed disjunction of tests into the facts they negate. *)
Ltac split_tests :=
  repeat match goal with
  | H : (_ || _) = false |- _ => apply orb_false_elim in H as [? ?]
  | H : (_ <? _) = false |- _ => apply Z.ltb_ge in H
  | H : (_ =? _) = false |- _ => apply Z.eqb_neq in H
  end.

(** Sizes in blocks: no product of the check leaves 64 bits. *)
Lemma block_sizes w h row rows ls :
  0 < w < 2 ^ 32 -> 0 < h < 2 ^ 32 -> w <= row < 2 ^ 32 -> h <= rows < 2 ^ 32 -> 0 < ls ->
  let nx := (w + 3) / 4 in let ny := (h + 3) / 4 in let rb := (row + 3) / 4 in let lb := rb * ((rows + 3) / 4) in
  0 < nx <= rb /\ 0 < ny /\ rb <= lb /\ rb * ny <= lb /\ nx * ny <= lb /\ rb <= 2 ^ 30 /\ lb <= 2 ^ 60 /\
  (lb <= UINT32_MAX / ls -> lb <= UINT32_MAX /\ lb * (ls - 1) + (ny - 1) * rb + nx <= UINT32_MAX /\ nx * ny * ls <= UINT32_MAX).
Proof.
  intros Hw Hh Hr Hrs Hl nx ny rb lb.
  assert (nx <= rb) by (apply Z.div_le_mono; lia). assert (ny <= (rows + 3) / 4) by (apply Z.div_le_mono; lia).
  assert (0 < nx) by (apply Z.div_str_pos; lia). assert (0 < ny) by (apply Z.div_str_pos; lia).
  assert (rb < 2 ^ 30 + 1) by (apply Z.div_lt_upper_bound; lia). assert ((rows + 3) / 4 < 2 ^ 30 + 1) by (apply Z.div_lt_upper_bound; lia).
  assert (rb * ny <= lb) by (apply Z.mul_le_mono_nonneg_l; lia).
  assert (nx * ny <= rb * ny) by (apply Z.mul_le_mono_nonneg_r; lia).
  split_and!; try lia; [unfold lb; nia|unfold lb; change (2 ^ 60) with (2 ^ 30 * 2 ^ 30); apply Z.mul_le_mono_nonneg; lia|].
  intros Hdiv. assert (lb * ls <= UINT32_MAX) as Hm.
  { pose proof (Z.mul_div_le UINT32_MAX ls Hl). assert (ls * lb <= ls * (UINT32_MAX / ls)) by (apply Z.mul_le_mono_nonneg_l; lia). lia. }
  assert (lb * 1 <= lb * ls) by (apply Z.mul_le_mono_nonneg_l; lia). split; [lia|].
  split; [replace (lb * (ls - 1)) with (lb * ls - lb) by ring; replace ((ny - 1) * rb) with (rb * ny - rb) by ring; lia|].
  assert (nx * ny * ls <= lb * ls) by (apply Z.mul_le_mono_nonneg_r; lia). lia.
Qed.

Lemma input_words f : exists w, input_bytes f = 4 * w /\ input_bytes f / 4 = w /\ (w = 2 \/ w = 4).
Proof. unfold input_bytes. destruct (_ || _); [exists 2|exists 4]; auto. Qed.

(** The block format of a Vulkan format. *)
Definition bc_of (f : Z) : option FMT :=
  match f with
  | 131 | 132 | 133 | 134 => Some FMT_BC1 | 135 | 136 => Some FMT_BC2 | 137 | 138 => Some FMT_BC3 | 139 | 140 => Some FMT_BC4
  | 141 | 142 => Some FMT_BC5 | 143 | 144 => Some FMT_BC6H | 145 | 146 => Some FMT_BC7 | _ => None
  end.

(** All branches of [variant] for a known format. *)
Ltac select_kernel :=
  repeat match goal with
  | |- context [if ?b then _ else _] => let v := eval cbv in b in match v with true => idtac | false => idtac end; change b with v; cbv iota
  | |- context [if ?b then _ else _] => destruct b
  end; intros Hv; first [exfalso; lia | split; reflexivity].

(** The kernel that is selected reads blocks of the region's format, of the size that was checked. *)
Lemma variant_kernel r : 0 <= variant r -> exists f, bc_of (format r) = Some f /\ kernels !! Z.to_nat (variant r) = Some f /\ input_bytes (family (format r)) / 4 = kernel_words f.
Proof.
  destruct (family (format r) <? 0) eqn:Ef; [intros Hv; exfalso; unfold variant in Hv; rewrite Ef in Hv; lia|].
  assert (131 <= format r <= 146) as Hf.
  { unfold family, VK_FORMAT_BC1_RGB_UNORM_BLOCK, VK_FORMAT_BC7_SRGB_BLOCK in Ef. destruct ((format r <? 131) || (146 <? format r)) eqn:E; [discriminate|]. split_tests. lia. }
  unfold variant. rewrite Ef. clear Ef. intros Hv.
  assert (format r = 131 \/ format r = 132 \/ format r = 133 \/ format r = 134 \/ format r = 135 \/ format r = 136 \/ format r = 137 \/ format r = 138 \/
          format r = 139 \/ format r = 140 \/ format r = 141 \/ format r = 142 \/ format r = 143 \/ format r = 144 \/ format r = 145 \/ format r = 146) as E by lia.
  clear Hf. destruct r as [format o quality rgb16 rgb8 w h ls rl ih so do_ sr dr]. cbn [BcDecode.format output_format BcDecode.rgb8 BcDecode.rgb16] in *.
  repeat (destruct E as [->|E]; [eexists; split; [reflexivity|]; revert Hv; select_kernel|]). subst. eexists. split; [reflexivity|]. revert Hv. select_kernel.
Qed.

Lemma prepare_ok r l p : region_ok r -> prepare_region r l = Ok (VK_SUCCESS, Some p) -> prepared r p.
Proof.
  intros [Rw Rh Rl Rr Ri Rs Rd Rsr Rdr] H. unfold in_range in *. unfold prepare_region in H.
  destruct (_ || (truthy (rgb16 r) && _)); [discriminate|].
  unfold hybris_bc_output_block_bytes in H. destruct (Z.ltb_spec (variant r) 0).
  { cbn [obind] in H. change (0 =? 0) with true in H. rewrite orb_true_r in H. discriminate. }
  destruct (rd block_bytes (variant r)) as [bytes| |] eqn:Hb; try discriminate. cbn [obind] in H.
  destruct ((family (format r) <? 0) || _) eqn:T1; [discriminate|].
  destruct (_ || (group_invocations l <? 64)) eqn:T2; [discriminate|].
  set (row := if truthy (row_length r) then row_length r else width r) in *.
  set (rows := if truthy (image_height r) then image_height r else height r) in *.
  destruct (_ || (truthy (image_height r) && _)) eqn:T3; [discriminate|].
  split_tests.
  assert (row < 2 ^ 32) by (unfold row; destruct (truthy (row_length r)); lia). assert (rows < 2 ^ 32) by (unfold rows; destruct (truthy (image_height r)); lia).
  rewrite !(u64_small (_ + 3)) in H by lia.
  destruct (block_sizes (width r) (height r) row rows (layers r)) as (Hnx & Hny & Hrl & Hrn & Hnn & Hr30 & Hl60 & Hdiv); try lia.
  set (nx := (width r + 3) / 4) in *. set (ny := (height r + 3) / 4) in *. set (rb := (row + 3) / 4) in *. set (lb := rb * ((rows + 3) / 4)) in *.
  rewrite (u64_small lb) in H by lia. destruct (_ || (group_count_z l <? layers r)) eqn:T4; [discriminate|].
  destruct (_ || (UINT32_MAX <? u64 (destination_offset r / 4 + _))) eqn:T5; [discriminate|]. split_tests.
  destruct (Hdiv ltac:(assumption)) as (Hlb & Hsum & Hcells).
  destruct (input_words (family (format r))) as (iw & Ei & Ei4 & Hiw). rewrite Ei in *.
  destruct (words_written (variant r)) as (b & Hb' & Eb & Hww).
  { unfold rd in Hb. split; [assumption|]. destruct (Z.ltb_spec (variant r) 17); [assumption|].
    rewrite lookup_ge_None_2 in Hb; [destruct (_ <? _); discriminate|]. cbn. lia. }
  rewrite Hb in Hb'. injection Hb' as <-.
  set (S := lb * (layers r - 1) + (ny - 1) * rb + nx) in *. set (C := nx * ny * layers r) in *.
  assert (0 <= lb * (layers r - 1)) by nia. assert (0 <= (ny - 1) * rb) by nia. assert (0 <= C) by (unfold C; nia).
  assert (0 <= nx * ny <= C) by (unfold C; nia). unfold UINT32_MAX in *.
  assert (u64 (u64 (u64 (u64 (lb * (layers r - 1)) + u64 (u64 (ny - 1) * rb)) + nx) * (4 * iw)) = 4 * (S * iw)) as Esrc.
  { unfold S in *. rewrite (u64_small (ny - 1)) by lia. rewrite (u64_small (lb * _)), (u64_small ((ny - 1) * rb)) by lia.
    rewrite (u64_small (_ + _ * rb)), (u64_small (_ + nx)) by lia. rewrite u64_small; nia. }
  assert (u64 (u64 (u64 (nx * ny) * layers r) * bytes) = C * bytes) as Edst.
  { rewrite (u64_small (nx * ny)) by lia. fold C. rewrite (u64_small C) by lia. rewrite u64_small; [reflexivity|nia]. }
  rewrite Esrc, Edst in *. rewrite !(u64_small (source_range r - _)), !(u64_small (destination_range r - _)) in * by lia.
  rewrite (Z.mul_comm 4 (S * iw)), Z.div_mul in * by lia.
  assert (0 <= source_offset r / 4 < 2 ^ 62) by (split; [apply Z.div_pos; lia|apply Z.div_lt_upper_bound; lia]).
  assert (0 <= destination_offset r / 4 < 2 ^ 62) by (split; [apply Z.div_pos; lia|apply Z.div_lt_upper_bound; lia]).
  assert (0 <= S * iw) by (unfold S in *; nia). assert (C * bytes / 4 = C * written_words (variant r)) as Ecb.
  { rewrite Eb, Z.mul_assoc, (Z.mul_comm C 4), <- Z.mul_assoc, (Z.mul_comm 4), Z.div_mul; lia. }
  rewrite Ecb in *. rewrite !(u64_small (source_offset r / 4 + _)), !(u64_small (destination_offset r / 4 + _)) in * by nia.
  assert (C * bytes = 4 * (C * written_words (variant r))) as Ecb4 by (rewrite Eb; ring). rewrite Ecb4 in *.
  assert (0 <= C * written_words (variant r)) by nia.
  pose proof (low_bits (source_offset r) ltac:(lia) ltac:(assumption)). pose proof (low_bits (destination_offset r) ltac:(lia) ltac:(assumption)).
  injection H as <-. constructor; cbn [source_word row_blocks layer_blocks destination_word push_width push_height].
  - lia.
  - split; reflexivity.
  - rewrite u32_small; lia.
  - rewrite u32_small; lia.
  - rewrite u32_small; lia.
  - fold ny. rewrite !u32_small by lia. exact Hrn.
  - rewrite Ei, Ei4. fold nx ny. rewrite !u32_small by lia. fold S. unfold UINT32_MAX. lia.
  - exists bytes. split; [assumption|]. split; [assumption|]. cbv zeta. fold nx ny. fold C. rewrite Ecb4, Ecb. rewrite u32_small by lia. unfold UINT32_MAX. lia.
Qed.

(** ** The dispatch stays inside the ranges *)

Lemma blocks_le e : in_range 32 e -> 0 <= blocks e <= (e + 3) / 4.
Proof.
  intros H. unfold in_range in H. unfold blocks. pose proof (wrap_range 32 (e + 3) ltac:(lia)) as [? ?]. fold (u32 (e + 3)) in *.
  split; [apply Z.div_pos; lia|]. apply Z.div_le_mono; [lia|]. unfold u32, wrap. apply Z.mod_le; lia.
Qed.

(** Positions in a box, numbered row by row, fit its volume. *)
Lemma box_index n m a b : 0 <= a < n -> 0 <= b < m -> 0 <= a * m + b < n * m.
Proof. intros. nia. Qed.

Lemma box_unique m a b a' b' : 0 <= b < m -> 0 <= b' < m -> a * m + b = a' * m + b' -> a = a' /\ b = b'.
Proof.
  intros H H' E. assert (a = a').
  { transitivity ((a * m + b) / m); [apply (Z.div_unique _ m a b)|symmetry; apply (Z.div_unique _ m a' b')]; lia. }
  subst. lia.
Qed.

(** The number of the word of block ([x], [y], [z]) an invocation writes, without wrap-around. *)
Definition cell (v nx ny x y z j : Z) : Z :=
  match row_words v with
  | Some rw => ((((z * ny + y) * 4 + j / rw) * nx) + x) * rw + j mod rw
  | None => (((z * ny + y) * nx) + x) * encoded_words v + j
  end.

Lemma row_words_pos v rw : row_words v = Some rw -> 0 < rw.
Proof.
  unfold row_words. set (l := [_; _; _; _; _; _; _; _; _; _; _; _; _; _; _; _; _]).
  destruct (l !! Z.to_nat v) as [o|] eqn:E; [|discriminate]. cbn. intros ->.
  assert (Forall (fun o => match o with Some rw => 0 < rw | None => True end) l) as F by (repeat constructor).
  exact (Forall_lookup_1 _ _ _ _ F E).
Qed.

Lemma cell_range v nx ny ls x y z j :
  0 <= x < nx -> 0 <= y < ny -> 0 <= z < ls -> 0 <= j < written_words v ->
  0 <= cell v nx ny x y z j < nx * ny * ls * written_words v.
Proof.
  intros Hx Hy Hz Hj. unfold cell, written_words in *. destruct (row_words v) as [rw|] eqn:E.
  - pose proof (row_words_pos v rw E) as Hrw. assert (0 <= j / rw < 4) by (split; [apply Z.div_pos; lia|apply Z.div_lt_upper_bound; lia]).
    pose proof (Z.mod_pos_bound j rw Hrw). pose proof (box_index ls ny z y Hz Hy) as B1. pose proof (box_index _ 4 _ (j / rw) B1 ltac:(lia)) as B2.
    pose proof (box_index _ nx _ x B2 Hx) as B3. pose proof (box_index _ rw _ (j mod rw) B3 ltac:(lia)) as B4.
    replace (nx * ny * ls * (4 * rw)) with (ls * ny * 4 * nx * rw) by ring. exact B4.
  - pose proof (box_index ls ny z y Hz Hy) as B1. pose proof (box_index _ nx _ x B1 Hx) as B3. pose proof (box_index _ (encoded_words v) _ j B3 Hj) as B4.
    replace (nx * ny * ls * encoded_words v) with (ls * ny * nx * encoded_words v) by ring. exact B4.
Qed.

Lemma cell_unique v nx ny x y z j x' y' z' j' :
  0 <= x < nx -> 0 <= y < ny -> 0 <= j < written_words v -> 0 <= x' < nx -> 0 <= y' < ny -> 0 <= j' < written_words v ->
  cell v nx ny x y z j = cell v nx ny x' y' z' j' -> x = x' /\ y = y' /\ z = z' /\ j = j'.
Proof.
  intros Hx Hy Hj Hx' Hy' Hj'. unfold cell, written_words in *. destruct (row_words v) as [rw|] eqn:E.
  - pose proof (row_words_pos v rw E) as Hrw. assert (0 <= j / rw < 4) by (split; [apply Z.div_pos; lia|apply Z.div_lt_upper_bound; lia]).
    assert (0 <= j' / rw < 4) by (split; [apply Z.div_pos; lia|apply Z.div_lt_upper_bound; lia]).
    pose proof (Z.mod_pos_bound j rw Hrw). pose proof (Z.mod_pos_bound j' rw Hrw). pose proof (Z.div_mod j rw). pose proof (Z.div_mod j' rw).
    intros HH. apply box_unique in HH as [HH Em]; [|lia|lia]. apply box_unique in HH as [HH Ex]; [|lia|lia].
    apply box_unique in HH as [HH Ed]; [|lia|lia]. apply box_unique in HH as [Ez Ey]; [|lia|lia]. rewrite Ed, Em in *. split_and!; lia.
  - intros HH. apply box_unique in HH as [HH Em]; [|lia|lia]. apply box_unique in HH as [HH Ex]; [|lia|lia].
    apply box_unique in HH as [Ez Ey]; [|lia|lia]. auto.
Qed.

Lemma destination_cell r p v x y z j : push_width p = width r -> push_height p = height r ->
  kernel_destination p v x y z j = u32 (destination_word p + cell v (blocks (width r)) (blocks (height r)) x y z j).
Proof.
  intros E1 E2. unfold kernel_destination, cell, kernel_rows, kernel_block. rewrite E1, E2. destruct (row_words v); f_equal; ring.
Qed.

(** C32: when [hybris_bc_prepare] accepts a region, the kernel that is dispatched is compiled for the region's
    block format, and every word it reads with its own number of words per block, as
    computed in the shader's 32-bit arithmetic, is the word of its block and lies inside the source
    range; every word it writes lies inside the destination range, and no two invocations write
    the same word. *)
Theorem bc_dispatch_in_bounds (r : hybris_bc_region) (l : device_limits) (p : hybris_bc_push) :
  region_ok r -> prepare_region r l = Ok (VK_SUCCESS, Some p) ->
  exists f, bc_of (format r) = Some f /\ kernels !! Z.to_nat (variant r) = Some f /\
  let words := kernel_words f in let v := variant r in
  let invoked x y z := 0 <= x < blocks (width r) /\ 0 <= y < blocks (height r) /\ 0 <= z < layers r in
  (forall x y z k, invoked x y z -> 0 <= k < words ->
     let a := kernel_source p words x y z k in
     a = source_word p + (z * layer_blocks p + y * row_blocks p + x) * words + k /\
     source_offset r <= 4 * a /\ 4 * a + 4 <= source_range r) /\
  (forall x y z j, invoked x y z -> 0 <= j < written_words v ->
     let a := kernel_destination p v x y z j in destination_offset r <= 4 * a /\ 4 * a + 4 <= destination_range r) /\
  (forall x y z j x' y' z' j', invoked x y z -> invoked x' y' z' -> 0 <= j < written_words v -> 0 <= j' < written_words v ->
     kernel_destination p v x y z j = kernel_destination p v x' y' z' j' -> x = x' /\ y = y' /\ z = z' /\ j = j').
Proof.
  intros R H. pose proof (prepare_ok r l p R H) as P. destruct P as [Pl [Pw Ph] Ps Pd Prow Plb Pr (bytes & Hb & Hv & Pwr)].
  destruct (variant_kernel r Hv) as (f & Ef & Ek & Ew). exists f. split; [exact Ef|]. split; [exact Ek|]. rewrite <- Ew. intros words v invoked.
  pose proof (blocks_le (width r) (ok_width r R)) as Bx. pose proof (blocks_le (height r) (ok_height r R)) as By.
  cbv zeta in Pr. fold words in Pr. destruct (input_words (family (format r))) as (iw & _ & Ei & Hiw). change (words = iw) in Ei.
  pose proof (ok_source r R) as [? _]. pose proof (ok_destination r R) as [? _]. unfold UINT32_MAX in *.
  split.
  - intros x y z k (Hx & Hy & Hz) Hk. cbv zeta. unfold kernel_source.
    set (nx := (width r + 3) / 4) in *. set (ny := (height r + 3) / 4) in *.
    assert (0 <= row_blocks p * ny) by (apply Z.mul_nonneg_nonneg; lia).
    assert (z * layer_blocks p <= (layers r - 1) * layer_blocks p) by (apply Z.mul_le_mono_nonneg_r; lia).
    assert (y * row_blocks p <= (ny - 1) * row_blocks p) by (apply Z.mul_le_mono_nonneg_r; lia).
    assert (0 <= z * layer_blocks p) by (apply Z.mul_nonneg_nonneg; lia). assert (0 <= y * row_blocks p) by (apply Z.mul_nonneg_nonneg; lia).
    assert (z * layer_blocks p + y * row_blocks p + x + 1 <= layer_blocks p * (layers r - 1) + (ny - 1) * row_blocks p + nx) as Hle by lia.
    assert (0 <= z * layer_blocks p + y * row_blocks p + x) by lia.
    set (q := z * layer_blocks p + y * row_blocks p + x) in *. set (q' := layer_blocks p * (layers r - 1) + (ny - 1) * row_blocks p + nx) in *.
    assert ((q + 1) * words <= q' * words) by (apply Z.mul_le_mono_nonneg_r; lia).
    rewrite u32_small by nia. split; [reflexivity|]. rewrite Ps in *. nia.
  - assert (v < 17) as Hv17.
    { destruct (Z.ltb_spec v 17); [assumption|]. unfold rd in Hb. fold v in Hb. rewrite lookup_ge_None_2 in Hb by (cbn; lia). destruct (_ <? _); discriminate. }
    destruct (words_written v) as (b & Hb' & Eb & Hww); [fold v in Hv; lia|]. fold v in Hb. rewrite Hb in Hb'. injection Hb' as <-.
    set (N := (width r + 3) / 4 * ((height r + 3) / 4) * layers r) in *. cbv zeta in Pwr.
    replace (N * bytes / 4) with (N * written_words v) in Pwr by (rewrite Eb, Z.mul_assoc, (Z.mul_comm N 4), <- Z.mul_assoc, (Z.mul_comm 4), Z.div_mul; lia).
    assert (forall x y z j, invoked x y z -> 0 <= j < written_words v ->
      let c := cell v (blocks (width r)) (blocks (height r)) x y z j in
      0 <= c < N * written_words v /\ kernel_destination p v x y z j = destination_word p + c) as Hcell.
    { intros x y z j (Hx & Hy & Hz) Hj c. pose proof (cell_range v (blocks (width r)) (blocks (height r)) (layers r) x y z j Hx Hy Hz Hj) as C. fold c in C.
      assert (blocks (width r) * blocks (height r) * layers r * written_words v <= N * written_words v).
      { apply Z.mul_le_mono_nonneg_r; [lia|]. apply Z.mul_le_mono_nonneg_r; [lia|]. apply Z.mul_le_mono_nonneg; lia. }
      split; [lia|]. rewrite (destination_cell r) by assumption. fold c. apply u32_small. lia. }
    split.
    + intros x y z j Hi Hj. cbv zeta. destruct (Hcell x y z j Hi Hj) as [C ->]. lia.
    + intros x y z j x' y' z' j' Hi Hi' Hj Hj' E. destruct (Hcell x y z j Hi Hj) as [_ E1], (Hcell x' y' z' j' Hi' Hj') as [_ E2].
      destruct Hi as (Hx & Hy & _), Hi' as (Hx' & Hy' & _). apply (cell_unique v _ _ _ _ _ _ _ _ _ _ Hx Hy Hj Hx' Hy' Hj'). lia.
Qed.

Definition sample_region : hybris_bc_region := Region 137 0 1 0 0 64 30 2 0 0 16 0 100000 100000.
Definition sample_limits : device_limits := Limits 1000000 128 128 128 65535 65535 65535.

Lemma bc_dispatch_in_bounds_witness :
  prepare_region sample_region sample_limits = Ok (VK_SUCCESS, Some (Push 4 16 128 0 0 64 30)) /\
  kernels !! Z.to_nat (variant sample_region) = Some FMT_BC3 /\
  (let a := kernel_source (Push 4 16 128 0 0 64 30) 4 15 7 1 3 in
   a = 4 + (1 * 128 + 7 * 16 + 15) * 4 + 3 /\ 16 <= 4 * a /\ 4 * a + 4 <= 100000).
Proof.
  assert (prepare_region sample_region sample_limits = Ok (VK_SUCCESS, Some (Push 4 16 128 0 0 64 30))) as H by (vm_compute; reflexivity).
  split; [exact H|]. destruct (bc_dispatch_in_bounds sample_region sample_limits (Push 4 16 128 0 0 64 30)) as (f & Ef & Ek & Hread & _).
  - constructor; vm_compute; split; congruence.
  - exact H.
  - injection Ef as <-. split; [exact Ek|]. apply Hread.
    + vm_compute. repeat split; congruence.
    + vm_compute. split; congruence.
Defined.
End BcDecode.
