(* ===== verification/BcDecoder.v ===== *)
(** * The block decoder object (vulkan/compat/bc_decode.c)

    Creation, the pipeline cache, recording and destruction of
    [struct hybris_bc_decoder].  Each Vulkan call's answer is an argument; the calls
    that create or destroy a device object and the commands recorded are events of
    the result.  Whatever the driver answers, every object created is destroyed
    exactly once and a failing call records nothing. *)

From Stdlib Require Import ZArith Lia Bool.
From stdpp Require Import base list numbers option.
From S2P Require Import Prelude BcDecode.

Open Scope Z_scope.
Open Scope outcome_scope.

Module BcDecoder.
Import BcDecode.

Definition HYBRIS_BC_KERNEL_COUNT : Z := 17.

(** A decoder with no device is the zeroed structure; 0 is the null handle.  [pipelines] is the 3 by 17 array. *)
Record hybris_bc_decoder := Decoder { device : bool; descriptor_layout : Z; layout : Z; pipelines : list Z }.
Definition zeroed : hybris_bc_decoder := Decoder false 0 0 (replicate 51 0).

Inductive object := OSetLayout (h : Z) | OLayout (h : Z) | OShader (h : Z) | OPipeline (h : Z).
Inductive event :=
| ECreate (o : object)
| EDestroy (o : object)
| EBindPipeline (h : Z)
| EBindSets (layout set : Z)
| EPush (layout : Z) (p : hybris_bc_push)
| EDispatch (x y z : Z).

(** A creation's answer: the result code and what it leaves in the handle. *)
Record created := Created { code : Z; handle : Z }.
Definition made (mk : Z -> object) (a : created) : list event := if code a =? VK_SUCCESS then [ECreate (mk (handle a))] else [].
Definition drop_handle (mk : Z -> object) (h : Z) : list event := if h =? 0 then [] else [EDestroy (mk h)].

Definition hybris_bc_decoder_destroy (d : hybris_bc_decoder) : hybris_bc_decoder * list event :=
  if negb (device d) then (d, []) else
  (zeroed, concat (drop_handle OPipeline <$> pipelines d) ++ drop_handle OLayout (layout d) ++ drop_handle OSetLayout (descriptor_layout d)).

Definition hybris_bc_decoder_create (have_device have_resolver mutex_fails : bool) (sets lay : created) (d : hybris_bc_decoder)
  : Z * hybris_bc_decoder * list event :=
  if negb have_device || negb have_resolver then (VK_ERROR_INITIALIZATION_FAILED, d, []) else
  if mutex_fails then (VK_ERROR_OUT_OF_HOST_MEMORY, zeroed, []) else
  let d := Decoder true (handle sets) 0 (replicate 51 0) in
  let ev := made OSetLayout sets in
  if negb (code sets =? VK_SUCCESS) then let '(d, ev') := hybris_bc_decoder_destroy d in (code sets, d, ev ++ ev') else
  let d := Decoder true (handle sets) (handle lay) (replicate 51 0) in
  let ev := ev ++ made OLayout lay in
  if code lay =? VK_SUCCESS then (code lay, d, ev)
  else let '(d, ev') := hybris_bc_decoder_destroy d in (code lay, d, ev ++ ev').

(** The result, the selected pipeline and the decoder. *)
Definition pipeline (d : hybris_bc_decoder) (v quality : Z) (shader pipe : created) : outcome (Z * Z * hybris_bc_decoder * list event) :=
  if (v <? 0) || (HYBRIS_BC_KERNEL_COUNT <=? v) then Undef else
  let slot := quality * HYBRIS_BC_KERNEL_COUNT + v in
  let! h := rd (pipelines d) slot in
  if negb (h =? 0) then Ok (VK_SUCCESS, h, d, []) else
  if negb (code shader =? VK_SUCCESS) then Ok (code shader, 0, d, []) else
  let d := Decoder (device d) (descriptor_layout d) (layout d) (<[Z.to_nat slot := handle pipe]> (pipelines d)) in
  Ok (code pipe, handle pipe, d, [ECreate (OShader (handle shader))] ++ made OPipeline pipe ++ [EDestroy (OShader (handle shader))]).

Definition hybris_bc_decode_record (d : hybris_bc_decoder) (command descriptors : Z) (r : hybris_bc_region) (l : device_limits)
  (shader pipe : created) : outcome (Z * hybris_bc_decoder * list event) :=
  if negb (device d) || (command =? 0) || (descriptors =? 0) then Ok (VK_ERROR_INITIALIZATION_FAILED, d, []) else
  let! (result, push) := hybris_bc_prepare (Some r) (Some l) true in
  if negb (result =? VK_SUCCESS) then Ok (result, d, []) else
  let! push := of_option push in
  let v := variant r in
  if 2 <? quality r then Ok (VK_ERROR_INITIALIZATION_FAILED, d, []) else
  let! (result, selected, d, ev) := pipeline d v (if (12 <=? v) && negb (v =? 15) then quality r else 1) shader pipe in
  if negb (result =? VK_SUCCESS) then Ok (result, d, ev) else
  Ok (VK_SUCCESS, d, ev ++ [EBindPipeline selected; EBindSets (layout d) descriptors; EPush (layout d) push;
                            EDispatch (u32 (u64 (width r + 31) / 32)) (u32 (u64 (height r + 31) / 32)) (layers r)]).

(** ** Sessions: create, any records, destroy *)

Record call := Call { c_command : Z; c_descriptors : Z; c_region : hybris_bc_region; c_limits : device_limits; c_shader : created; c_pipe : created }.

Fixpoint records (d : hybris_bc_decoder) (cs : list call) : outcome (hybris_bc_decoder * list (Z * list event)) :=
  match cs with
  | [] => Ok (d, [])
  | c :: cs =>
      let! (res, d, ev) := hybris_bc_decode_record d (c_command c) (c_descriptors c) (c_region c) (c_limits c) (c_shader c) (c_pipe c) in
      let! (d, log) := records d cs in Ok (d, (res, ev) :: log)
  end.

Definition creations (ev : list event) : list object := omap (fun e => match e with ECreate o => Some o | _ => None end) ev.
Definition destructions (ev : list event) : list object := omap (fun e => match e with EDestroy o => Some o | _ => None end) ev.
Definition recorded (ev : list event) : list event := List.filter (fun e => match e with ECreate _ | EDestroy _ => false | _ => true end) ev.

(** A successful creation gives a non-null handle; a failed one leaves a null handle.  Vulkan promises the latter for
    pipelines only, so the balance below speaks of drivers that leave the zeroed outputs of other failed calls alone. *)
Definition answer_ok (a : created) : Prop := code a = VK_SUCCESS <-> handle a <> 0.

(** The objects a decoder owns. *)
Definition own (mk : Z -> object) (h : Z) : list object := if h =? 0 then [] else [mk h].
Definition owned (d : hybris_bc_decoder) : list object :=
  concat (own OPipeline <$> pipelines d) ++ own OLayout (layout d) ++ own OSetLayout (descriptor_layout d).

Definition call_ok (c : call) : Prop := region_ok (c_region c) /\ 0 <= quality (c_region c) /\ answer_ok (c_shader c) /\ answer_ok (c_pipe c).

Lemma destructions_own mk h : destructions (drop_handle mk h) = own mk h.
Proof. unfold drop_handle, own. now destruct (h =? 0). Qed.

Lemma destroy_owned d : device d = true -> destructions (snd (hybris_bc_decoder_destroy d)) = owned d /\ creations (snd (hybris_bc_decoder_destroy d)) = [].
Proof.
  intros Hd. unfold hybris_bc_decoder_destroy, owned. rewrite Hd. cbn [negb snd]. unfold destructions, creations.
  rewrite !omap_app. split.
  - f_equal; [|f_equal; apply destructions_own]. induction (pipelines d) as [|h l IH]; [reflexivity|].
    cbn [fmap list_fmap concat]. rewrite omap_app, IH. f_equal. apply destructions_own.
  - assert (forall mk h, omap (fun e => match e with ECreate o => Some o | _ => None end) (drop_handle mk h) = []) as E
      by (intros; unfold drop_handle; now destruct (_ =? 0)).
    rewrite !E, !app_nil_r. induction (pipelines d) as [|h l IH]; [reflexivity|]. cbn [fmap list_fmap concat]. now rewrite omap_app, E, IH.
Qed.

Lemma made_own mk a : answer_ok a -> creations (made mk a) = own mk (handle a).
Proof.
  intros H. unfold made, own, answer_ok in *. destruct (Z.eqb_spec (code a) VK_SUCCESS), (Z.eqb_spec (handle a) 0); try reflexivity; tauto.
Qed.

(** ** The checks never leave the kernel tables *)

Lemma variant_range r : variant r < 17.
Proof.
  unfold variant, family. destruct (_ || _) eqn:E; [reflexivity|]. apply orb_false_elim in E as [E1 E2]. apply Z.ltb_ge in E1, E2.
  set (f := if _ <? 4 then 0 else _). assert (f <= 6) as Hf.
  { unfold f, VK_FORMAT_BC1_RGB_UNORM_BLOCK, VK_FORMAT_BC7_SRGB_BLOCK in *. destruct (_ <? _); [lia|].
    assert ((format r - 131) / 2 < 8) by (apply Z.div_lt_upper_bound; lia). lia. }
  repeat match goal with |- context [if ?c then _ else _] => destruct c end; lia.
Qed.

Lemma prepare_cases r l : exists res o, prepare_region r l = Ok (res, o) /\ (res = VK_SUCCESS -> is_Some o /\ 0 <= variant r).
Proof.
  unfold prepare_region. destruct (_ || (truthy (rgb16 r) && _)); [eexists _, _; split; [reflexivity|discriminate]|].
  unfold hybris_bc_output_block_bytes. destruct (Z.ltb_spec (variant r) 0).
  { cbn [obind]. change (0 =? 0) with true. rewrite orb_true_r. eexists _, _; split; [reflexivity|discriminate]. }
  destruct (words_written (variant r)) as (b & -> & _ & _); [pose proof (variant_range r); lia|]. cbn [obind].
  repeat match goal with |- context [if ?c then Ok (_, None) else _] => destruct c; [eexists _, _; split; [reflexivity|discriminate]|] end.
  eexists _, _. split; [reflexivity|]. eauto.
Qed.

(** ** One call *)

Lemma owned_insert d i h h0 : pipelines d !! i = Some h0 -> h0 = 0 ->
  owned (Decoder (device d) (descriptor_layout d) (layout d) (<[i := h]> (pipelines d))) ≡ₚ own OPipeline h ++ owned d.
Proof.
  intros Hi ->. unfold owned. cbn [pipelines layout descriptor_layout]. rewrite (app_assoc (own OPipeline h)). apply Permutation_app_tail.
  rewrite <- (take_drop_middle _ _ _ Hi) at 2. rewrite insert_take_drop by (apply lookup_lt_Some in Hi; lia).
  rewrite !fmap_app, !fmap_cons, !concat_app. cbn [concat]. change (own OPipeline 0) with (@nil object). cbn [app]. solve_Permutation.
Qed.

Lemma pipeline_ok d v q shader pipe :
  0 <= v < 17 -> 0 <= q <= 2 -> length (pipelines d) = 51%nat -> answer_ok pipe ->
  exists res sel d' ev, pipeline d v q shader pipe = Ok (res, sel, d', ev) /\
    device d' = device d /\ layout d' = layout d /\ length (pipelines d') = 51%nat /\
    creations ev ++ owned d ≡ₚ destructions ev ++ owned d' /\ recorded ev = [] /\ (res = VK_SUCCESS -> sel <> 0).
Proof.
  intros Hv Hq Hl Ha. unfold pipeline, HYBRIS_BC_KERNEL_COUNT. rewrite (proj2 (Z.ltb_ge v 0)), (proj2 (Z.leb_gt 17 v)) by lia. cbn [orb].
  destruct (rd_ok (pipelines d) (q * 17 + v)) as (h & -> & Hh); [lia|]. cbn [obind].
  destruct (Z.eqb_spec h 0) as [->|Hn]; cbn [negb].
  2: { eexists _, _, _, _. split; [reflexivity|]. split_and!; try reflexivity; auto. }
  destruct (Z.eqb_spec (code shader) VK_SUCCESS) as [_|Hs]; cbn [negb].
  2: { eexists _, _, _, _. split; [reflexivity|]. split_and!; try reflexivity; auto. }
  eexists _, _, _, _. split; [reflexivity|]. split_and!; try reflexivity.
  - cbn [pipelines]. now rewrite length_insert.
  - rewrite (owned_insert d _ _ 0 Hh eq_refl). pose proof (made_own OPipeline pipe Ha) as Hm. unfold creations, destructions in *.
    rewrite !omap_app, Hm. assert (omap (fun e => match e with EDestroy o => Some o | _ => None end) (made OPipeline pipe) = []) as ->
      by (unfold made; now destruct (_ =? _)). cbn. rewrite app_nil_r. reflexivity.
  - unfold recorded. rewrite !List.filter_app. cbn. unfold made. now destruct (_ =? _).
  - intros E. now apply Ha in E.
Qed.

(** What one recording call does, by its result. *)
Definition call_spec (c : call) (out : Z * list event) : Prop :=
  let '(res, ev) := out in
  if res =? VK_SUCCESS then
    exists p h lay, prepare_region (c_region c) (c_limits c) = Ok (VK_SUCCESS, Some p) /\ h <> 0 /\
      recorded ev = [EBindPipeline h; EBindSets lay (c_descriptors c); EPush lay p;
        EDispatch ((width (c_region c) + 31) / 32) ((height (c_region c) + 31) / 32) (layers (c_region c))]
  else recorded ev = [].

Lemma record_ok d c : call_ok c -> length (pipelines d) = 51%nat ->
  exists res d' ev, hybris_bc_decode_record d (c_command c) (c_descriptors c) (c_region c) (c_limits c) (c_shader c) (c_pipe c) = Ok (res, d', ev) /\
    device d' = device d /\ length (pipelines d') = 51%nat /\ (device d = false -> ev = [] /\ d' = d) /\
    creations ev ++ owned d ≡ₚ destructions ev ++ owned d' /\ call_spec c (res, ev).
Proof.
  intros (R & Hq & _ & Ap) Hl. unfold hybris_bc_decode_record, hybris_bc_prepare. set (r := c_region c) in *.
  destruct (negb (device d) || _ || _) eqn:E0; [eexists _, _, _; split; [reflexivity|]; split_and!; auto; reflexivity|].
  assert (device d = true) as Hd by (destruct (device d); [reflexivity|discriminate]).
  destruct (prepare_cases r (c_limits c)) as (res & o & Hp & Ho). rewrite Hp. cbn [obind].
  destruct (Z.eqb_spec res VK_SUCCESS) as [->|Hne]; cbn [negb].
  2: { eexists _, _, _. split; [reflexivity|]. split_and!; auto. unfold call_spec. now rewrite (proj2 (Z.eqb_neq _ _)). }
  destruct (Ho eq_refl) as [[push ->] Hv]. cbn [of_option obind].
  destruct (Z.ltb_spec 2 (quality r)).
  { eexists _, _, _. split; [reflexivity|]. split_and!; auto. reflexivity. }
  destruct (pipeline_ok d (variant r) (if (12 <=? variant r) && negb (variant r =? 15) then quality r else 1) (c_shader c) (c_pipe c))
    as (res & sel & d' & ev & -> & Hdev & Hlay & Hlen & Hbal & Hrec & Hsel); [pose proof (variant_range r); lia|destruct (_ && _); lia|assumption|assumption|].
  cbn [obind]. destruct (Z.eqb_spec res VK_SUCCESS) as [->|Hne]; cbn [negb].
  2: { eexists _, _, _. split; [reflexivity|]. split_and!; auto; [congruence|]. unfold call_spec. now rewrite (proj2 (Z.eqb_neq _ _)). }
  eexists _, _, _. split; [reflexivity|]. split; [congruence|]. split; [assumption|]. split; [congruence|]. split.
  - unfold creations, destructions in *. rewrite !omap_app. cbn. rewrite !app_nil_r. exact Hbal.
  - unfold call_spec. change (VK_SUCCESS =? VK_SUCCESS) with true. cbn match. exists push, sel, (layout d'). split_and!; [assumption|auto|].
    unfold recorded in *. rewrite List.filter_app, Hrec. cbn [app List.filter]. fold r.
    assert (forall e, in_range 32 e -> u32 (u64 (e + 31) / 32) = (e + 31) / 32) as Hdiv.
    { intros e He. unfold in_range in He. rewrite (u64_small (e + 31)) by lia. apply u32_small.
      split; [apply Z.div_pos; lia|apply Z.div_lt_upper_bound; lia]. }
    now rewrite (Hdiv _ (ok_width r R)), (Hdiv _ (ok_height r R)).
Qed.

Lemma records_ok : forall cs d, Forall call_ok cs -> length (pipelines d) = 51%nat ->
  exists d' log, records d cs = Ok (d', log) /\ device d' = device d /\ (device d = false -> d' = d) /\
    let ev := concat (log.*2) in creations ev ++ owned d ≡ₚ destructions ev ++ owned d' /\ Forall2 call_spec cs log.
Proof.
  induction cs as [|c cs IH]; intros d Hcs Hl; cbn [records].
  { exists d, []. split_and!; [reflexivity|reflexivity|reflexivity|reflexivity|constructor]. }
  apply Forall_cons_1 in Hcs as [Hc Hcs]. destruct (record_ok d c Hc Hl) as (res & d1 & ev & -> & D1 & L1 & Z1 & B1 & S1). cbn [obind].
  destruct (IH d1 Hcs L1) as (d2 & log & -> & D2 & Z2 & B2 & S2). cbn [obind]. cbv zeta in B2.
  exists d2, ((res, ev) :: log). split; [reflexivity|]. split; [congruence|]. split.
  { intros Hd. rewrite Z2 by congruence. now apply Z1. }
  cbv zeta. cbn [fmap list_fmap concat snd]. unfold creations, destructions in *. rewrite !omap_app. split; [|now constructor].
  rewrite <- !app_assoc. rewrite <- B2. rewrite (Permutation_app_comm (omap _ ev)), <- app_assoc.
  rewrite (Permutation_app_comm (owned d)), B1. solve_Permutation.
Qed.

Lemma bc_create_ok have_device have_resolver mutex_fails sets lay res d ev :
  answer_ok sets -> answer_ok lay -> hybris_bc_decoder_create have_device have_resolver mutex_fails sets lay zeroed = (res, d, ev) ->
  length (pipelines d) = 51%nat /\ creations ev ≡ₚ destructions ev ++ owned d /\ recorded ev = [] /\
  (res = VK_SUCCESS <-> device d = true) /\ (res <> VK_SUCCESS -> d = zeroed).
Proof.
  intros As Al. unfold hybris_bc_decoder_create.
  destruct (_ || _); [intros [= <- <- <-]; split_and!; [reflexivity|reflexivity|reflexivity|split; discriminate|reflexivity]|].
  destruct mutex_fails; [intros [= <- <- <-]; split_and!; [reflexivity|reflexivity|reflexivity|split; discriminate|reflexivity]|].
  unfold answer_ok in *.
  destruct (Z.eqb_spec (code sets) VK_SUCCESS) as [E|E]; cbn [negb].
  - unfold made. rewrite E. change (VK_SUCCESS =? VK_SUCCESS) with true. cbn match.
    destruct (Z.eqb_spec (handle sets) 0) as [Hz|Hz]; [tauto|].
    destruct (Z.eqb_spec (code lay) VK_SUCCESS) as [E'|E']; cbn match.
    + intros [= <- <- <-]. destruct (Z.eqb_spec (handle lay) 0); [tauto|]. split_and!; [reflexivity| |reflexivity|now rewrite E'|congruence].
      unfold owned. cbn [pipelines layout descriptor_layout]. 
      match goal with |- context [concat (own OPipeline <$> ?l)] => change (concat (own OPipeline <$> l)) with (@nil object) end.
      unfold own. rewrite !(proj2 (Z.eqb_neq _ _)) by assumption. cbn. apply perm_swap.
    + destruct (Z.eqb_spec (handle lay) 0) as [Hl|]; [|tauto]. rewrite Hl. cbn [hybris_bc_decoder_destroy device negb].
      unfold hybris_bc_decoder_destroy. cbn [device negb pipelines layout descriptor_layout].
      replace (concat (drop_handle OPipeline <$> replicate 51 0)) with (@nil event) by reflexivity.
      unfold drop_handle. change (0 =? 0) with true. rewrite (proj2 (Z.eqb_neq _ _)) by assumption. intros [= <- <- <-].
      split_and!; [reflexivity|reflexivity|reflexivity|split; [congruence|discriminate]|reflexivity].
  - destruct (Z.eqb_spec (handle sets) 0) as [Hl|]; [|tauto]. rewrite Hl.
    unfold hybris_bc_decoder_destroy, made. rewrite (proj2 (Z.eqb_neq _ _)) by assumption. cbn [device negb pipelines layout descriptor_layout].
    replace (concat (drop_handle OPipeline <$> replicate 51 0)) with (@nil event) by reflexivity. intros [= <- <- <-].
    split_and!; [reflexivity|reflexivity|reflexivity|split; [congruence|discriminate]|reflexivity].
Qed.

(** Over the life of a decoder (creation, any recording calls, destruction), whatever
    the driver answers and also when creation fails halfway, every device object created is destroyed
    exactly once and the structure ends zeroed; a recording call that fails records no command,
    and one that succeeds records one dispatch of a live pipeline with the checked push
    constants. *)
Theorem bc_decoder_lifecycle have_device have_resolver mutex_fails sets lay cs res d ev :
  answer_ok sets -> answer_ok lay -> Forall call_ok cs ->
  hybris_bc_decoder_create have_device have_resolver mutex_fails sets lay zeroed = (res, d, ev) ->
  exists d1 log, records d cs = Ok (d1, log) /\ Forall2 call_spec cs log /\
    fst (hybris_bc_decoder_destroy d1) = zeroed /\
    let all := ev ++ concat (log.*2) ++ snd (hybris_bc_decoder_destroy d1) in creations all ≡ₚ destructions all.
Proof.
  intros As Al Hcs Hc. destruct (bc_create_ok _ _ _ _ _ _ _ _ As Al Hc) as (L & B & _ & Hres & Hz).
  destruct (records_ok cs d Hcs L) as (d1 & log & Hr & D1 & Z1 & B1 & S1). cbv zeta in B1.
  exists d1, log. split; [assumption|]. split; [assumption|]. cbv zeta. unfold creations, destructions in *. rewrite !omap_app.
  destruct (device d1) eqn:Hd.
  - destruct (destroy_owned d1 Hd) as [Od Oc]. unfold creations, destructions in Od, Oc. rewrite Od, Oc. split; [unfold hybris_bc_decoder_destroy; now rewrite Hd|].
    rewrite app_nil_r, B, <- app_assoc. apply Permutation_app_head. rewrite (Permutation_app_comm (owned d)). exact B1.
  - assert (device d = false) as Hd0 by congruence. assert (d = zeroed) as -> by (apply Hz; intros E; apply Hres in E; congruence).
    rewrite (Z1 eq_refl) in *. split; [reflexivity|]. cbn [snd hybris_bc_decoder_destroy zeroed device negb] in *. cbn. rewrite !app_nil_r.
    replace (owned zeroed) with (@nil object) in * by reflexivity. rewrite !app_nil_r in *. now rewrite B, B1.
Qed.

Definition sample_call : call := Call 1 2 sample_region sample_limits (Created 0 7) (Created 0 8).

Lemma bc_decoder_lifecycle_witness :
  exists d1 log, records (Decoder true 5 6 (replicate 51 0)) [sample_call; sample_call] = Ok (d1, log) /\ Forall2 call_spec [sample_call; sample_call] log /\
    fst (hybris_bc_decoder_destroy d1) = zeroed /\
    let all := [ECreate (OSetLayout 5); ECreate (OLayout 6)] ++ concat (log.*2) ++ snd (hybris_bc_decoder_destroy d1) in creations all ≡ₚ destructions all.
Proof.
  apply (bc_decoder_lifecycle true true false (Created 0 5) (Created 0 6) _ 0).
  - split; [discriminate|reflexivity].
  - split; [discriminate|reflexivity].
  - repeat (apply List.Forall_cons; [split; [constructor; vm_compute; split; congruence|split; [vm_compute; congruence|split; split; [discriminate|reflexivity|discriminate|reflexivity]]]|]). constructor.
  - vm_compute. reflexivity.
Defined.

Example sample_log : exists d, records (Decoder true 5 6 (replicate 51 0)) [sample_call; sample_call] = Ok (d,
  [(0, [ECreate (OShader 7); ECreate (OPipeline 8); EDestroy (OShader 7); EBindPipeline 8; EBindSets 6 2; EPush 6 (Push 4 16 128 0 0 64 30); EDispatch 2 1 2]);
   (0, [EBindPipeline 8; EBindSets 6 2; EPush 6 (Push 4 16 128 0 0 64 30); EDispatch 2 1 2])]).
Proof. eexists. vm_compute. reflexivity. Qed.
End BcDecoder.
