(* ===== verification/Registry.v ===== *)
(** * Ownership lists with a hashed lookup index

    Two parts of vulkan/compat keep their objects in a list and in an array of hash chains through the
    same objects: the pipeline layouts of bc_command_state.c and the memory and buffer records of
    memory_visibility.c.  Unlinking is shared by both; the registry of this file is the one of
    memory_visibility.c, for any kind of record that has a device, a device generation and a handle.  Objects are addresses
    in a heap, lists and chains are lists of addresses, first element first. *)

From Stdlib Require Import ZArith Lia Bool.
From stdpp Require Import base numbers option gmap list.
From S2P Require Import Prelude.

Open Scope Z_scope.
Open Scope outcome_scope.

Module Registry.

(** [*link = object->next]: the first occurrence is unlinked. *)
Fixpoint unlink (a : nat) (l : list nat) : list nat := match l with [] => [] | x :: l => if (x =? a)%nat then l else x :: unlink a l end.

Lemma unlink_filter a q l : q a = true -> unlink a (List.filter q l) = List.filter q (unlink a l).
Proof.
  intros Hq. induction l as [|x l IH]; [reflexivity|]. cbn [unlink List.filter]. destruct (Nat.eqb_spec x a) as [->|Hne]; [rewrite Hq; cbn [unlink]; now rewrite Nat.eqb_refl|].
  cbn [List.filter]. destruct (q x); [|assumption]. cbn [unlink]. rewrite (proj2 (Nat.eqb_neq _ _) Hne). now rewrite IH.
Qed.

Lemma unlink_other a q l : q a = false -> List.filter q (unlink a l) = List.filter q l.
Proof.
  intros Hq. induction l as [|x l IH]; [reflexivity|]. cbn [unlink List.filter]. destruct (Nat.eqb_spec x a) as [->|Hne]; [now rewrite Hq|]. cbn [List.filter]. now rewrite IH.
Qed.

Lemma unlink_perm a l : a ∈ l -> l ≡ₚ a :: unlink a l.
Proof.
  induction l as [|x l IH]; intros H; [now apply not_elem_of_nil in H|]. cbn [unlink]. destruct (Nat.eqb_spec x a) as [->|Hne]; [reflexivity|].
  apply elem_of_cons in H as [->|H]; [contradiction|]. rewrite (IH H) at 1. apply Permutation_swap.
Qed.

Lemma find_filter {A} (p q : A -> bool) l : (forall x, p x = true -> q x = true) -> List.find p (List.filter q l) = List.find p l.
Proof. intros H. induction l as [|x l IH]; [reflexivity|]. cbn. destruct (q x) eqn:Q; cbn; [now rewrite IH|]. destruct (p x) eqn:E; [|assumption]. apply H in E. congruence. Qed.

Lemma filter_same {A} (p q : A -> bool) l : (forall a, a ∈ l -> p a = q a) -> List.filter p l = List.filter q l.
Proof. induction l as [|a l IH]; intros H; [reflexivity|]. cbn. rewrite (H a) by left. rewrite IH; [reflexivity|]. intros x Hx. apply H. now right. Qed.

Lemma insert_chain (l : list (list nat)) b x c : l !! b = Some c -> forall k d, <[b := x]> l !! k = Some d -> k = b /\ d = x \/ k <> b /\ l !! k = Some d.
Proof.
  intros Hb k d. destruct (decide (k = b)) as [->|Hne]; [rewrite list_lookup_insert_eq by (eapply lookup_lt_Some; eassumption); intros [= <-]; auto|].
  rewrite list_lookup_insert_ne by congruence. auto.
Qed.

(** ** Counting holders *)

Definition count (a : nat) (l : list nat) : nat := count_occ Nat.eq_dec l a.

Lemma holders_app a l k : count a (l ++ k) = (count a l + count a k)%nat.
Proof. apply count_occ_app. Qed.

Lemma count_cons a b l : count a (b :: l) = ((if decide (b = a) then 1 else 0) + count a l)%nat.
Proof. unfold count. cbn [count_occ]. destruct (Nat.eq_dec b a), (decide (b = a)); auto; contradiction. Qed.

Lemma count_in a l : a ∈ l <-> (0 < count a l)%nat.
Proof. rewrite list_elem_of_In. apply (count_occ_In Nat.eq_dec). Qed.

Lemma holders_perm a l k : l ≡ₚ k -> count a l = count a k.
Proof. intros H. unfold count. now apply Permutation_count_occ. Qed.

Lemma count_unlink a l b : a ∈ l -> count b l = ((if decide (a = b) then 1 else 0) + count b (unlink a l))%nat.
Proof. intros H. rewrite (holders_perm b _ _ (unlink_perm a l H)). apply count_cons. Qed.

Lemma count_delete k a l b : l !! k = Some a -> count b l = ((if decide (a = b) then 1 else 0) + count b (delete k l))%nat.
Proof. intros H. rewrite (holders_perm b _ _ (delete_Permutation l k a H)). apply count_cons. Qed.

(** ** Records with a key *)

Class Keyed (R : Type) := { k_device : R -> Z; k_generation : R -> Z; k_handle : R -> Z }.

Definition VISIBILITY_BUCKETS : Z := 4096.
Definition visibility_bucket (device handle : Z) : Z :=
  let key := Z.lxor handle device in
  let key := Z.lxor key (Z.shiftr key 33) in
  let key := u64 (key * 0xff51afd7ed558ccd) in
  let key := Z.lxor key (Z.shiftr key 33) in
  Z.land key (VISIBILITY_BUCKETS - 1).

Section Operations.
Context {R : Type} `{Keyed R}.

Record registry := Reg { objects : gmap nat R; owned : list nat; buckets : list (list nat); fresh : nat }.
Definition empty_registry : registry := Reg ∅ [] (replicate (Z.to_nat VISIBILITY_BUCKETS) []) 0.

Definition deref (r : registry) (a : nat) : outcome R := of_option (objects r !! a).
Definition bucket_of (o : R) : Z := visibility_bucket (k_device o) (k_handle o).

(** The walk of a list to the first object that meets a test. *)
Fixpoint first_such (r : registry) (p : R -> bool) (l : list nat) : outcome (option nat) :=
  match l with
  | [] => Ok None
  | a :: l => let! o := deref r a in if p o then Ok (Some a) else first_such r p l
  end.

Definition same_key (device generation h : Z) (o : R) : bool := (k_device o =? device) && (k_generation o =? generation) && (k_handle o =? h).
Definition find (r : registry) (device generation h : Z) : outcome (option nat) :=
  let! chain := rd (buckets r) (visibility_bucket device h) in first_such r (same_key device generation h) chain.

(** Linked in front of the list and of its chain. *)
Definition link (r : registry) (o : R) : outcome registry :=
  let a := fresh r in
  let b := bucket_of o in
  let! chain := rd (buckets r) b in
  Ok (Reg (<[a := o]> (objects r)) (a :: owned r) (<[Z.to_nat b := a :: chain]> (buckets r)) (S a)).

Definition unindex (r : registry) (a : nat) (o : R) : outcome (list (list nat)) :=
  let b := bucket_of o in
  let! chain := rd (buckets r) b in Ok (<[Z.to_nat b := unlink a chain]> (buckets r)).

(** An object that is unlinked and freed. *)
Definition drop_object (r : registry) (a : nat) : outcome (registry * R) :=
  let! o := deref r a in
  let! bs := unindex r a o in
  Ok (Reg (delete a (objects r)) (unlink a (owned r)) bs (fresh r), o).

Definition remove (r : registry) (device h : Z) : outcome (registry * option R) :=
  let! found := first_such r (fun o => (k_device o =? device) && (k_handle o =? h)) (owned r) in
  match found with
  | None => Ok (r, None)
  | Some a => let! (r, o) := drop_object r a in Ok (r, Some o)
  end.

(** The loop over the list that takes out everything of a device; [l] is what is left of the list. *)
Fixpoint release (r : registry) (device : Z) (l : list nat) : outcome (registry * list R) :=
  match l with
  | [] => Ok (r, [])
  | a :: l =>
      let! o := deref r a in
      if k_device o =? device then let! (r, o) := drop_object r a in let! (r, d) := release r device l in Ok (r, o :: d)
      else release r device l
  end.

(** A field of an object changes in place. *)
Definition update (r : registry) (a : nat) (o : R) : registry := Reg (<[a := o]> (objects r)) (owned r) (buckets r) (fresh r).

(** ** The index agrees with the list *)

Definition in_bucket (os : gmap nat R) (b : nat) (a : nat) : bool := match os !! a with Some o => (Z.to_nat (bucket_of o) =? b)%nat | None => false end.

Record rinv (r : registry) : Prop := {
  r_live : forall a, a ∈ owned r <-> is_Some (objects r !! a);
  r_nodup : NoDup (owned r);
  r_count : length (buckets r) = 4096%nat;
  r_chain : forall b c, buckets r !! b = Some c -> c = List.filter (in_bucket (objects r) b) (owned r);
  r_fresh : forall a, is_Some (objects r !! a) -> (a < fresh r)%nat }.

Lemma reg_bucket_range d h : 0 <= visibility_bucket d h < 4096.
Proof. unfold visibility_bucket, VISIBILITY_BUCKETS. change (4096 - 1) with (Z.ones 12). rewrite Z.land_ones by lia. apply Z.mod_pos_bound. lia. Qed.

Lemma reg_bucket_rd r d h : rinv r -> exists c, rd (buckets r) (visibility_bucket d h) = Ok c /\ buckets r !! Z.to_nat (visibility_bucket d h) = Some c.
Proof. intros I. pose proof (reg_bucket_range d h). destruct (rd_ok (buckets r) (visibility_bucket d h)) as (c & E & Hc); [rewrite (r_count _ I); lia|]. eauto. Qed.

Lemma empty_rinv : rinv empty_registry.
Proof.
  constructor; cbn [empty_registry objects owned buckets fresh].
  - intros a. rewrite lookup_empty. split; [intros H0; now apply not_elem_of_nil in H0|intros [o H0]; discriminate].
  - constructor.
  - apply length_replicate.
  - intros b c H0. now apply lookup_replicate_1 in H0 as [-> _].
  - intros a [o H0]. now rewrite lookup_empty in H0.
Qed.

Definition meets (r : registry) (p : R -> bool) (a : nat) : bool := match objects r !! a with Some o => p o | None => false end.

Lemma first_such_ok r p l : (forall a, a ∈ l -> is_Some (objects r !! a)) -> first_such r p l = Ok (List.find (meets r p) l).
Proof.
  induction l as [|a l IH]; intros Hl; [reflexivity|]. cbn [first_such List.find]. destruct (Hl a) as [o Ho]; [left|]. unfold deref, meets. rewrite Ho. cbn [of_option obind].
  destruct (p o); [reflexivity|]. apply IH. intros x Hx. apply Hl. now right.
Qed.

Lemma find_meets r p l a : List.find (meets r p) l = Some a -> a ∈ l /\ exists o, objects r !! a = Some o /\ p o = true.
Proof. intros [H1 H2]%List.find_some. split; [now apply list_elem_of_In|]. unfold meets in H2. destruct (objects r !! a) as [o|]; [|discriminate]. eauto. Qed.

(** Looking up a key gives the most recent object that has it. *)
Lemma reg_find_ok r d g h : rinv r -> find r d g h = Ok (List.find (meets r (same_key d g h)) (owned r)).
Proof.
  intros I. unfold find. destruct (reg_bucket_rd r d h I) as (c & -> & Hc). cbn [obind]. rewrite (r_chain _ I _ _ Hc). rewrite first_such_ok.
  - rewrite find_filter; [reflexivity|]. intros a. unfold meets, in_bucket. destruct (objects r !! a) as [o|]; [|discriminate]. unfold same_key, bucket_of.
    intros [[->%Z.eqb_eq _]%andb_true_iff ->%Z.eqb_eq]%andb_true_iff. apply Nat.eqb_refl.
  - intros a Ha. apply (r_live _ I). apply list_elem_of_In in Ha. apply List.filter_In in Ha as [Ha _]. now apply list_elem_of_In.
Qed.

Lemma found_object r d g h a : rinv r -> find r d g h = Ok (Some a) -> exists o, objects r !! a = Some o /\ same_key d g h o = true.
Proof. intros I. rewrite reg_find_ok by assumption. intros [= E]. now destruct (find_meets _ _ _ _ E) as [_ Ho]. Qed.

Lemma reg_link_ok r o : rinv r -> exists r', link r o = Ok r' /\ rinv r' /\ objects r !! fresh r = None /\ objects r' = <[fresh r := o]> (objects r).
Proof.
  intros I. unfold link, bucket_of. destruct (reg_bucket_rd r (k_device o) (k_handle o) I) as (c & -> & Hc). cbn [obind]. eexists. split; [reflexivity|].
  assert (objects r !! fresh r = None) as Hn. { destruct (objects r !! fresh r) eqn:E; [|reflexivity]. assert (fresh r < fresh r)%nat by (apply (r_fresh _ I); eauto). lia. }
  assert (fresh r ∉ owned r) as Hout by (rewrite (r_live _ I), Hn; intros [x Hx]; discriminate).
  split; [|split; [assumption|reflexivity]]. constructor; cbn [objects owned buckets fresh].
  - intros a. rewrite elem_of_cons, (r_live _ I). destruct (decide (a = fresh r)) as [->|Hne]; [rewrite lookup_insert_eq; split; eauto|]. rewrite lookup_insert_ne by congruence. split; [intros [->|]; [contradiction|assumption]|auto].
  - constructor; [assumption|apply I].
  - rewrite length_insert. apply I.
  - assert (forall b, List.filter (in_bucket (<[fresh r := o]> (objects r)) b) (owned r) = List.filter (in_bucket (objects r) b) (owned r)) as Ef.
    { intros b. apply filter_same. intros x Hx. unfold in_bucket. rewrite lookup_insert_ne; [reflexivity|]. intros <-. contradiction. }
    intros b d Hd. cbn [List.filter]. unfold in_bucket at 1. rewrite lookup_insert_eq, Ef. unfold bucket_of at 1.
    destruct (insert_chain _ _ _ _ Hc b d Hd) as [[-> ->]|[Hne Hb]]; [rewrite Nat.eqb_refl; f_equal; apply (r_chain _ I _ _ Hc)|]. rewrite (proj2 (Nat.eqb_neq _ _)) by congruence. now apply (r_chain _ I).
  - intros a [x Ha]. destruct (decide (a = fresh r)) as [->|Hne]; [lia|]. rewrite lookup_insert_ne in Ha by congruence. assert (a < fresh r)%nat by (apply (r_fresh _ I); eauto). lia.
Qed.

Lemma reg_drop_ok r a o : rinv r -> objects r !! a = Some o -> exists r', drop_object r a = Ok (r', o) /\ rinv r' /\ objects r' = delete a (objects r) /\ owned r' = unlink a (owned r).
Proof.
  intros I Ho. assert (a ∈ owned r) as Ha by (apply (r_live _ I); eauto). pose proof (unlink_perm a _ Ha) as Hp. pose proof (r_nodup _ I) as Hn. rewrite Hp in Hn. apply NoDup_cons in Hn as [Hout Hn].
  unfold drop_object, deref, unindex, bucket_of. rewrite Ho. cbn [of_option obind]. destruct (reg_bucket_rd r (k_device o) (k_handle o) I) as (c & -> & Hc). cbn [obind]. eexists. split; [reflexivity|]. split; [|split; reflexivity].
  assert (forall b, List.filter (in_bucket (delete a (objects r)) b) (unlink a (owned r)) = List.filter (in_bucket (objects r) b) (unlink a (owned r))) as Ef.
  { intros b. apply filter_same. intros x Hx. unfold in_bucket. rewrite lookup_delete_ne; [reflexivity|]. intros <-. contradiction. }
  constructor; cbn [objects owned buckets fresh].
  - intros x. destruct (decide (x = a)) as [->|Hne]; [rewrite lookup_delete_eq; split; [contradiction|intros [y Hy]; discriminate]|]. rewrite lookup_delete_ne by congruence.
    assert (x ∈ owned r <-> x = a \/ x ∈ unlink a (owned r)) as Hq by (rewrite Hp at 1; apply elem_of_cons).
    rewrite <- (r_live _ I), Hq. split; [auto|intros [->|]; [contradiction|assumption]].
  - assumption.
  - rewrite length_insert. apply I.
  - intros b d Hd. rewrite Ef. destruct (insert_chain _ _ _ _ Hc b d Hd) as [[-> ->]|[Hne Hb]].
    + rewrite (r_chain _ I _ _ Hc). apply unlink_filter. unfold in_bucket. rewrite Ho. apply Nat.eqb_refl.
    + rewrite unlink_other; [now apply (r_chain _ I)|]. unfold in_bucket. rewrite Ho. apply Nat.eqb_neq. unfold bucket_of. congruence.
  - intros x [y Hx]. apply lookup_delete_Some in Hx as [_ Hx]. apply (r_fresh _ I). eauto.
Qed.

(** Whatever is taken out, the objects that stay are those that were there. *)
Lemma reg_remove_ok r d h : rinv r -> exists r' o, remove r d h = Ok (r', o) /\ rinv r' /\ objects r' ⊆ objects r.
Proof.
  intros I. unfold remove. rewrite first_such_ok by (intros a Ha; now apply (r_live _ I)). cbn [obind]. destruct (List.find _ _) as [a|] eqn:Ef; [|exists r, None; auto].
  destruct (find_meets _ _ _ _ Ef) as (_ & o & Ho & _). destruct (reg_drop_ok r a o I Ho) as (r' & -> & I' & Eo & _). cbn [obind]. exists r', (Some o). split; [reflexivity|]. split; [assumption|]. rewrite Eo. apply delete_subseteq.
Qed.

(** Releasing a device takes out its objects and no others. *)
Lemma reg_release_ok d : forall l r, rinv r -> NoDup l -> (forall a, a ∈ l -> a ∈ owned r) -> exists r' os, release r d l = Ok (r', os) /\ rinv r' /\ objects r' ⊆ objects r /\
  forall a o, objects r !! a = Some o -> objects r' !! a = if bool_decide (a ∈ l) && (k_device o =? d) then None else Some o.
Proof.
  induction l as [|x l IH]; intros r I Hn Hl; [exists r, []; split; [reflexivity|]; split_and!; auto; intros a o Ho; rewrite bool_decide_eq_false_2 by apply not_elem_of_nil; assumption|].
  apply NoDup_cons in Hn as [Hx Hn]. destruct (proj1 (r_live _ I x)) as [ox Hox]; [apply Hl; left|]. cbn [release]. unfold deref at 1. rewrite Hox. cbn [of_option obind]. destruct (k_device ox =? d) eqn:Ed.
  - destruct (reg_drop_ok r x ox I Hox) as (r1 & -> & I1 & E1 & O1). cbn [obind]. destruct (IH r1 I1 Hn) as (r2 & os & -> & I2 & S2 & H2).
    { intros a Ha. assert (a ∈ owned r) as Hin by (apply Hl; now right). rewrite (unlink_perm x) in Hin by (apply Hl; left). rewrite O1. apply elem_of_cons in Hin as [->|Hin]; [contradiction|assumption]. }
    cbn [obind]. exists r2, (ox :: os). split; [reflexivity|]. split; [assumption|]. split; [etransitivity; [exact S2|]; rewrite E1; apply delete_subseteq|].
    intros a o Ho. destruct (decide (a = x)) as [->|Hne].
    + rewrite bool_decide_eq_true_2 by left. rewrite Hox in Ho. injection Ho as <-. rewrite Ed. cbn. destruct (objects r2 !! x) eqn:E; [|reflexivity]. apply (lookup_weaken _ (objects r1)) in E; [|assumption]. rewrite E1, lookup_delete_eq in E. discriminate.
    + rewrite (H2 a o) by (rewrite E1, lookup_delete_ne by congruence; assumption). destruct (decide (a ∈ l)); [rewrite !bool_decide_eq_true_2 by (try right; assumption)|rewrite !bool_decide_eq_false_2 by (rewrite ?elem_of_cons; tauto)]; reflexivity.
  - destruct (IH r I Hn) as (r2 & os & -> & I2 & S2 & H2); [intros a Ha; apply Hl; now right|]. exists r2, os. split; [reflexivity|]. split; [assumption|]. split; [assumption|].
    intros a o Ho. rewrite (H2 a o Ho). destruct (decide (a = x)) as [->|Hne].
    + rewrite Hox in Ho. injection Ho as <-. rewrite Ed, !andb_false_r. reflexivity.
    + destruct (decide (a ∈ l)); [rewrite !bool_decide_eq_true_2 by (try right; assumption)|rewrite !bool_decide_eq_false_2 by (rewrite ?elem_of_cons; tauto)]; reflexivity.
Qed.

Lemma reg_update_ok r a o o' : rinv r -> objects r !! a = Some o -> bucket_of o' = bucket_of o -> rinv (update r a o').
Proof.
  intros I Ho Hb. constructor; cbn [update objects owned buckets fresh]; [|apply I|apply I| |].
  - intros x. rewrite (r_live _ I). destruct (decide (x = a)) as [->|Hne]; [rewrite lookup_insert_eq, Ho; split; eauto|]. now rewrite lookup_insert_ne by congruence.
  - intros b c Hc. rewrite (r_chain _ I b c Hc). apply filter_same. intros x _. unfold in_bucket. destruct (decide (x = a)) as [->|Hne]; [rewrite lookup_insert_eq, Ho, Hb|rewrite lookup_insert_ne by congruence]; reflexivity.
  - intros x [y Hx]. apply (r_fresh _ I). destruct (decide (x = a)) as [->|Hne]; [eauto|]. rewrite lookup_insert_ne in Hx by congruence. eauto.
Qed.

End Operations.
Arguments registry : clear implicits.
End Registry.
