(* ===== verification/BcJournal.v ===== *)
(** * The command-buffer journal of the block decoder (vulkan/compat/bc_command_state.c)

    Pipeline layouts are cloned when the application creates them and shared, with a count, by the
    journals of the command buffers; a journal replays the bindings that the decoder's own dispatch overwrites.
    A layout object is an address in a heap; the ownership list and the chains of the lookup index are lists of
    addresses, first element first.  Results of allocation and of Vulkan calls are arguments, calls to Vulkan
    that have an effect are events; functions that take [guard] are single steps. *)

From Stdlib Require Import ZArith Lia Bool.
From stdpp Require Import base numbers option gmap list.
From S2P Require Import Prelude Registry.

Open Scope Z_scope.
Open Scope outcome_scope.

Module BcJournal.
Import Registry.

Definition VK_SUCCESS : Z := 0.
Definition VK_ERROR_OUT_OF_HOST_MEMORY : Z := -1.
Definition VK_ERROR_INITIALIZATION_FAILED : Z := -3.
Definition VK_ERROR_FEATURE_NOT_PRESENT : Z := -8.
Definition GRAPHICS : Z := 0.
Definition COMPUTE : Z := 1.
Definition STAGE_VERTEX : Z := 1.
Definition STAGE_ALL_GRAPHICS : Z := 0x1f.
Definition STAGE_COMPUTE : Z := 0x20.
Definition SIZE_MAX : Z := 2 ^ 64 - 1.
Definition HYBRIS_BC_LAYOUT_BUCKETS : Z := 1024.

(** ** Layouts *)

Record hybris_bc_layout := Layout { handle : Z; clone : Z; references : Z }.

(** The live layouts, [head] and [index] of [struct hybris_bc_layouts], and the next address the allocator returns. *)
Record layouts := Layouts { heap : gmap nat hybris_bc_layout; head : list nat; index : list (list nat); fresh : nat }.

Definition layout_bucket (h : Z) : Z :=
  let key := Z.lxor h (Z.shiftr h 33) in
  let key := u64 (key * 0xff51afd7ed558ccd) in
  let key := Z.lxor key (Z.shiftr key 33) in
  Z.land key (HYBRIS_BC_LAYOUT_BUCKETS - 1).

Definition layouts_init : layouts := Layouts ∅ [] (replicate (Z.to_nat HYBRIS_BC_LAYOUT_BUCKETS) []) 0.

Definition deref (w : layouts) (a : nat) : outcome hybris_bc_layout := of_option (heap w !! a).
Definition with_heap (w : layouts) (h : gmap nat hybris_bc_layout) : layouts := Layouts h (head w) (index w) (fresh w).

(** The clone that is destroyed, if any. *)
Definition layout_release (w : layouts) (a : nat) : outcome (layouts * list Z) :=
  let! l := deref w a in
  let r := u64 (references l - 1) in
  if r =? 0 then Ok (with_heap w (delete a (heap w)), [clone l])
  else Ok (with_heap w (<[a := Layout (handle l) (clone l) r]> (heap w)), []).

(** [alloc] is the result of [calloc], [create] the clone or the error of [vkCreatePipelineLayout]. *)
Definition layout_add (alloc : bool) (create : Z + Z) (w : layouts) (h : Z) : outcome (Z * layouts) :=
  if negb alloc then Ok (VK_ERROR_OUT_OF_HOST_MEMORY, w) else
  match create with
  | inr e => Ok (e, w)
  | inl c =>
      let a := fresh w in
      let b := layout_bucket h in
      let! chain := rd (index w) b in
      Ok (VK_SUCCESS, Layouts (<[a := Layout h c 1]> (heap w)) (a :: head w) (<[Z.to_nat b := a :: chain]> (index w)) (S a))
  end.

(** The first address of a list whose layout has the handle. *)
Fixpoint find_handle (w : layouts) (h : Z) (l : list nat) : outcome (option nat) :=
  match l with
  | [] => Ok None
  | a :: l => let! o := deref w a in if handle o =? h then Ok (Some a) else find_handle w h l
  end.

(** The list is changed in one guarded section and the list's own reference released in another; they are one step here.  In between
    the layout is in no list and that reference is known to this call only, so no other section can see or drop it. *)
Definition layout_remove (w : layouts) (h : Z) : outcome (layouts * list Z) :=
  let! found := find_handle w h (head w) in
  match found with
  | None => Ok (w, [])
  | Some a =>
      let b := layout_bucket h in
      let! chain := rd (index w) b in
      layout_release (Layouts (heap w) (unlink a (head w)) (<[Z.to_nat b := unlink a chain]> (index w)) (fresh w)) a
  end.

(** [while (layouts->head)]; the fuel is the length of the list. *)
Fixpoint layouts_finish (fuel : nat) (w : layouts) : outcome (layouts * list Z) :=
  match head w with
  | [] => Ok (w, [])
  | a :: _ => match fuel with
              | O => Undef
              | S fuel => let! o := deref w a in
                          let! (w, d) := layout_remove w (handle o) in
                          let! (w, d') := layouts_finish fuel w in Ok (w, d ++ d')
              end
  end.

(** The result and the address stored in [*out]. *)
Definition layout_acquire (w : layouts) (h : Z) : outcome (Z * option nat * layouts) :=
  let! chain := rd (index w) (layout_bucket h) in
  let! found := find_handle w h chain in
  match found with
  | None => Ok (VK_ERROR_INITIALIZATION_FAILED, None, w)
  | Some a => let! l := deref w a in
              if negb (references l =? SIZE_MAX)
              then Ok (VK_SUCCESS, Some a, with_heap w (<[a := Layout (handle l) (clone l) (references l + 1)]> (heap w)))
              else Ok (VK_ERROR_OUT_OF_HOST_MEMORY, None, w)
  end.

(** ** Journals *)

Inductive payload := Descriptors (bind_point first : Z) (sets offsets : list Z) | Push (stages first : Z) (values : list Z).
Record saved_command := Saved { layout : nat; data : payload }.

Record command_state := State { compute_pipeline : Z; graphics_pipeline : Z; track_graphics : bool; saved : list saved_command; error : Z }.
Definition command_state_init : command_state := State 0 0 false [] VK_SUCCESS.

Fixpoint release_all (w : layouts) (l : list saved_command) : outcome (layouts * list Z) :=
  match l with
  | [] => Ok (w, [])
  | s :: l => let! (w, d) := layout_release w (layout s) in let! (w, d') := release_all w l in Ok (w, d ++ d')
  end.
Definition command_state_reset (w : layouts) (st : command_state) : outcome (command_state * layouts * list Z) :=
  let! (w, d) := release_all w (saved st) in Ok (State 0 0 (track_graphics st) [] VK_SUCCESS, w, d).

Definition command_state_track_graphics (st : command_state) : command_state :=
  State (compute_pipeline st) (graphics_pipeline st) true (saved st) (error st).

Definition with_error (st : command_state) (e : Z) : command_state := State (compute_pipeline st) (graphics_pipeline st) (track_graphics st) (saved st) e.

(** [HEADER] is the size of the structure before its data. *)
Definition HEADER : Z := 40.
Definition save (alloc : bool) (w : layouts) (st : command_state) (h bytes : Z) (p : payload) : outcome (command_state * layouts) :=
  if negb (error st =? VK_SUCCESS) then Ok (st, w) else
  if SIZE_MAX - HEADER <? bytes then Ok (with_error st VK_ERROR_OUT_OF_HOST_MEMORY, w) else
  if negb alloc then Ok (with_error st VK_ERROR_OUT_OF_HOST_MEMORY, w) else
  let! (r, a, w) := layout_acquire w h in
  match a with
  | Some a => Ok (State (compute_pipeline st) (graphics_pipeline st) (track_graphics st) (saved st ++ [Saved a p]) (error st), w)
  | None => Ok (with_error st r, w)
  end.

Definition save_pipeline (st : command_state) (bind_point pipeline : Z) : command_state :=
  if bind_point =? COMPUTE then State pipeline (graphics_pipeline st) (track_graphics st) (saved st) (error st)
  else if track_graphics st && (bind_point =? GRAPHICS) then State (compute_pipeline st) pipeline (track_graphics st) (saved st) (error st)
  else st.

Definition len {A} (l : list A) : Z := Z.of_nat (length l).

Definition save_descriptors (alloc : bool) (w : layouts) (st : command_state) (bind_point h first : Z) (sets offsets : list Z) : outcome (command_state * layouts) :=
  if (len sets =? 0) || (negb (bind_point =? COMPUTE) && negb (track_graphics st && (bind_point =? GRAPHICS))) then Ok (st, w) else
  let bytes := len sets * 8 + len offsets * 4 in
  if SIZE_MAX <? bytes then Ok (with_error st VK_ERROR_OUT_OF_HOST_MEMORY, w) else
  save alloc w st h bytes (Descriptors bind_point first sets offsets).

Definition save_push (alloc : bool) (w : layouts) (st : command_state) (h stages offset : Z) (values : list Z) : outcome (command_state * layouts) :=
  save alloc w st h (len values) (Push stages offset values).

(** ** Replay *)

(** Commands given to the driver. *)
Inductive command := BindPipeline (bind_point pipeline : Z) | BindDescriptorSets (bind_point lay first : Z) (sets offsets : list Z) | PushConstants (lay stages offset : Z) (values : list Z).

Fixpoint restore_descriptors (w : layouts) (bind_point : Z) (l : list saved_command) : outcome (list command) :=
  match l with
  | [] => Ok []
  | s :: l =>
      match data s with
      | Descriptors bp first sets offsets =>
          if negb (bp =? bind_point) then restore_descriptors w bind_point l
          else let! o := deref w (layout s) in
               let! cs := restore_descriptors w bind_point l in Ok (BindDescriptorSets bind_point (clone o) first sets offsets :: cs)
      | Push _ _ _ => restore_descriptors w bind_point l
      end
  end.

Definition touches (stages active : Z) : bool := negb (Z.land stages active =? 0).

Fixpoint restore_pushes (w : layouts) (active : Z) (pass : bool) (l : list saved_command) : outcome (list command) :=
  match l with
  | [] => Ok []
  | s :: l =>
      match data s with
      | Push stages first values =>
          if Bool.eqb (touches stages active) pass
          then let! o := deref w (layout s) in
               let! cs := restore_pushes w active pass l in Ok (PushConstants (clone o) stages first values :: cs)
          else restore_pushes w active pass l
      | Descriptors _ _ _ _ => restore_pushes w active pass l
      end
  end.

Definition restore (w : layouts) (st : command_state) (bind_point : Z) : outcome (list command) :=
  if negb (error st =? VK_SUCCESS) then Ok [] else
  let pipeline := if bind_point =? COMPUTE then compute_pipeline st else graphics_pipeline st in
  let! ds := restore_descriptors w bind_point (saved st) in
  let active := if bind_point =? COMPUTE then STAGE_COMPUTE else STAGE_ALL_GRAPHICS in
  let! p0 := restore_pushes w active false (saved st) in
  let! p1 := restore_pushes w active true (saved st) in
  Ok ((if pipeline =? 0 then [] else [BindPipeline bind_point pipeline]) ++ ds ++ p0 ++ p1).

Definition restore_compute (w : layouts) (st : command_state) : outcome (list command) := restore w st COMPUTE.
Definition restore_graphics (w : layouts) (st : command_state) : outcome (list command) := if track_graphics st then restore w st GRAPHICS else Ok [].

(** The visitor's callbacks: their results, [None] for a null pointer; the calls made and the result. *)
Fixpoint visit_loop (descriptors push : option (payload -> Z)) (l : list saved_command) : list saved_command * Z :=
  match l with
  | [] => ([], VK_SUCCESS)
  | s :: l =>
      let call f := (let r := f (data s) in
                     if negb (r =? VK_SUCCESS) then ([s], r) else let (cs, e) := visit_loop descriptors push l in (s :: cs, e)) in
      match data s, descriptors, push with
      | Descriptors bp _ _ _, Some f, _ => if bp =? GRAPHICS then call f else visit_loop descriptors push l
      | Push stages _ _, _, Some f => if touches stages STAGE_VERTEX then call f else visit_loop descriptors push l
      | _, _, _ => visit_loop descriptors push l
      end
  end.
Definition visit_graphics (visitor : option (option (payload -> Z) * option (payload -> Z))) (st : command_state) : list saved_command * Z :=
  if negb (error st =? VK_SUCCESS) then ([], error st) else
  match visitor with
  | Some (d, p) => if track_graphics st then visit_loop d p (saved st) else ([], VK_ERROR_FEATURE_NOT_PRESENT)
  | None => ([], VK_ERROR_FEATURE_NOT_PRESENT)
  end.

(** ** Counted layouts *)

(** The bucket of a live address. *)
Definition in_bucket (h : gmap nat hybris_bc_layout) (b : nat) (a : nat) : bool :=
  match h !! a with Some l => (Z.to_nat (layout_bucket (handle l)) =? b)%nat | None => false end.

(** [held] are the addresses that journals and pipelines hold. *)
Record linv (w : layouts) (held : list nat) : Prop := {
  i_count : forall a l, heap w !! a = Some l -> references l = Z.of_nat (count a (head w ++ held)) /\ 1 <= references l <= SIZE_MAX;
  i_live : forall a, a ∈ head w ++ held -> is_Some (heap w !! a);
  i_nodup : NoDup (head w);
  i_index : length (index w) = 1024%nat;
  i_chain : forall b c, index w !! b = Some c -> c = List.filter (in_bucket (heap w) b) (head w);
  i_fresh : forall a, is_Some (heap w !! a) -> (a < fresh w)%nat }.

Definition clones (w : layouts) : list Z := (fun p => clone p.2) <$> map_to_list (heap w).

Lemma bucket_range h : 0 <= layout_bucket h < 1024.
Proof.
  unfold layout_bucket, HYBRIS_BC_LAYOUT_BUCKETS. change (1024 - 1) with (Z.ones 10). rewrite Z.land_ones by lia. apply Z.mod_pos_bound. lia.
Qed.

Lemma bucket_rd w held h : linv w held -> exists c, rd (index w) (layout_bucket h) = Ok c /\ index w !! Z.to_nat (layout_bucket h) = Some c.
Proof.
  intros I. pose proof (bucket_range h). destruct (rd_ok (index w) (layout_bucket h)) as (c & E & Hc); [rewrite (i_index _ _ I); lia|]. eauto.
Qed.

Lemma init_linv : linv layouts_init [].
Proof.
  constructor; cbn [layouts_init heap head index fresh app].
  - intros a l H. now rewrite lookup_empty in H.
  - intros a H. now apply not_elem_of_nil in H.
  - constructor.
  - reflexivity.
  - intros b c H. now apply lookup_replicate_1 in H as [-> _].
  - intros a [l H]. now rewrite lookup_empty in H.
Qed.

Lemma in_bucket_insert h a l l' b x : h !! a = Some l -> handle l' = handle l -> in_bucket (<[a := l']> h) b x = in_bucket h b x.
Proof. intros Ha Hh. unfold in_bucket. destruct (decide (x = a)) as [->|Hne]; [rewrite lookup_insert_eq, Ha, Hh|rewrite lookup_insert_ne by congruence]; reflexivity. Qed.

Lemma in_bucket_delete h a b x : x <> a -> in_bucket (delete a h) b x = in_bucket h b x.
Proof. intros Hne. unfold in_bucket. now rewrite lookup_delete_ne by congruence. Qed.

Lemma clones_insert w a l : heap w !! a = None -> clones (with_heap w (<[a := l]> (heap w))) ≡ₚ clone l :: clones w.
Proof. intros H. unfold clones. cbn [heap with_heap]. now rewrite map_to_list_insert. Qed.

Lemma clones_delete w a l : heap w !! a = Some l -> clones w ≡ₚ clone l :: clones (with_heap w (delete a (heap w))).
Proof. intros H. unfold clones. cbn [heap with_heap]. rewrite <- (map_to_list_delete (heap w) a l H). reflexivity. Qed.

Lemma clones_update w a l l' : heap w !! a = Some l -> clone l' = clone l -> clones (with_heap w (<[a := l']> (heap w))) ≡ₚ clones w.
Proof.
  intros H Hc. rewrite (clones_delete w a l H), <- Hc. unfold clones. cbn [heap with_heap]. rewrite <- (insert_delete_eq (heap w) a l'), map_to_list_insert by apply lookup_delete_eq. reflexivity.
Qed.

(** ** The operations keep the counts *)

Lemma release_ok w held a : linv w (a :: held) -> exists w' d, layout_release w a = Ok (w', d) /\ linv w' held /\ clones w ≡ₚ d ++ clones w' /\ head w' = head w.
Proof.
  intros I. destruct (i_live _ _ I a) as [l Hl]; [rewrite elem_of_app; right; left|]. destruct (i_count _ _ I a l Hl) as [Hc Hr]. rewrite holders_app, count_cons, decide_True in Hc by reflexivity.
  assert (forall b, count b (head w ++ a :: held) = ((if decide (a = b) then 1 else 0) + count b (head w ++ held))%nat) as Ec by (intros b; rewrite !holders_app, count_cons; lia).
  unfold layout_release, deref. rewrite Hl. cbn [of_option obind]. unfold SIZE_MAX in *. rewrite wrap_small by (unfold in_range; lia).
  destruct (Z.eqb_spec (references l - 1) 0) as [Hz|Hz]; eexists _, _; (split; [reflexivity|]).
  - assert (a ∉ head w ++ held) as Hout by (intros Hin%count_in; rewrite holders_app in Hin; lia). split; [|split; [now apply clones_delete|reflexivity]].
    constructor; cbn [with_heap heap head index fresh]; [| |apply I|apply I| |].
    + intros b l' Hb. destruct (decide (b = a)) as [->|Hne]; [now rewrite lookup_delete_eq in Hb|]. rewrite lookup_delete_ne in Hb by congruence. destruct (i_count _ _ I b l' Hb) as [H1 H2].
      rewrite Ec, decide_False in H1 by congruence. auto.
    + intros b Hb. rewrite lookup_delete_ne by (intros <-; contradiction). apply (i_live _ _ I). rewrite elem_of_app, elem_of_cons in *. tauto.
    + intros b c Hb. rewrite (i_chain _ _ I b c Hb). symmetry. apply filter_same. intros x Hx. apply in_bucket_delete. intros ->. apply Hout. rewrite elem_of_app. now left.
    + intros b [l' Hb]. apply lookup_delete_Some in Hb as [_ Hb]. apply (i_fresh _ _ I). eauto.
  - split; [|split; [symmetry; now apply (clones_update w a l)|reflexivity]]. constructor; cbn [with_heap heap head index fresh]; [| |apply I|apply I| |].
    + intros b l' Hb. destruct (decide (b = a)) as [->|Hne].
      * rewrite lookup_insert_eq in Hb. injection Hb as <-. cbn [references]. rewrite holders_app. unfold SIZE_MAX. lia.
      * rewrite lookup_insert_ne in Hb by congruence. destruct (i_count _ _ I b l' Hb) as [H1 H2]. rewrite Ec, decide_False in H1 by congruence. auto.
    + intros b Hb. destruct (decide (b = a)) as [->|Hne]; [rewrite lookup_insert_eq; eauto|]. rewrite lookup_insert_ne by congruence. apply (i_live _ _ I). rewrite elem_of_app, elem_of_cons in *. tauto.
    + intros b c Hb. rewrite (i_chain _ _ I b c Hb). symmetry. apply filter_same. intros x _. now apply (in_bucket_insert _ _ l).
    + intros b [l' Hb]. apply (i_fresh _ _ I). destruct (decide (b = a)) as [->|Hne]; [eauto|]. rewrite lookup_insert_ne in Hb by congruence. eauto.
Qed.

Lemma add_ok alloc create w held h : linv w held -> exists r w', layout_add alloc create w h = Ok (r, w') /\ linv w' held /\
  clones w' ≡ₚ (match create with inl c => if alloc then [c] else [] | inr _ => [] end) ++ clones w.
Proof.
  intros I. unfold layout_add. destruct alloc; [|eexists _, w; split; [reflexivity|]; split; [assumption|now destruct create]]. cbn [negb].
  destruct create as [c|e]; [|eexists _, w; split; [reflexivity|]; auto]. destruct (bucket_rd w held h I) as (chain & -> & Hch). cbn [obind]. eexists _, _. split; [reflexivity|].
  assert (heap w !! fresh w = None) as Hn. { destruct (heap w !! fresh w) eqn:E; [|reflexivity]. assert (fresh w < fresh w)%nat by (apply (i_fresh _ _ I); eauto). lia. }
  assert (fresh w ∉ head w ++ held) as Hout by (intros Hin; destruct (i_live _ _ I _ Hin) as [l Hl]; congruence).
  split; [|unfold clones; cbn [heap]; now rewrite map_to_list_insert]. constructor; cbn [heap head index fresh].
  - intros a l Ha. cbn [app]. rewrite count_cons. destruct (decide (fresh w = a)) as [<-|Hne].
    + rewrite lookup_insert_eq in Ha. injection Ha as <-. cbn [references]. destruct (count (fresh w) (head w ++ held)) eqn:E; [unfold SIZE_MAX; lia|]. contradict Hout. apply count_in. lia.
    + rewrite lookup_insert_ne in Ha by congruence. exact (i_count _ _ I a l Ha).
  - intros a [->|Ha]%elem_of_cons; [rewrite lookup_insert_eq; eauto|]. rewrite lookup_insert_ne; [now apply (i_live _ _ I)|]. intros <-. contradiction.
  - constructor; [|apply I]. intros Hin. apply Hout. rewrite elem_of_app. now left.
  - rewrite length_insert. apply I.
  - assert (forall b, List.filter (in_bucket (<[fresh w := Layout h c 1]> (heap w)) b) (head w) = List.filter (in_bucket (heap w) b) (head w)) as Ef.
    { intros b. apply filter_same. intros x Hx. unfold in_bucket. rewrite lookup_insert_ne; [reflexivity|]. intros <-. apply Hout. rewrite elem_of_app. now left. }
    intros b d Hd. cbn [List.filter]. unfold in_bucket at 1. rewrite lookup_insert_eq. cbn [handle]. rewrite Ef.
    destruct (insert_chain _ _ _ _ Hch b d Hd) as [[-> ->]|[Hne Hb]]; [rewrite Nat.eqb_refl; f_equal; apply (i_chain _ _ I _ _ Hch)|]. rewrite (proj2 (Nat.eqb_neq _ _)) by congruence. now apply (i_chain _ _ I).
  - intros a [l Ha]. destruct (decide (a = fresh w)) as [->|Hne]; [lia|]. rewrite lookup_insert_ne in Ha by congruence. assert (a < fresh w)%nat by (apply (i_fresh _ _ I); eauto). lia.
Qed.

Definition has_handle (w : layouts) (h : Z) (a : nat) : bool := match heap w !! a with Some o => handle o =? h | None => false end.

Lemma find_handle_ok w h l : (forall a, a ∈ l -> is_Some (heap w !! a)) -> find_handle w h l = Ok (List.find (has_handle w h) l).
Proof.
  induction l as [|a l IH]; intros H; [reflexivity|]. cbn [find_handle List.find]. destruct (H a) as [o Ho]; [left|]. unfold deref, has_handle. rewrite Ho. cbn [of_option obind].
  destruct (handle o =? h); [reflexivity|]. apply IH. intros x Hx. apply H. now right.
Qed.

Lemma bucket_of_handle w h a : has_handle w h a = true -> in_bucket (heap w) (Z.to_nat (layout_bucket h)) a = true.
Proof. unfold has_handle, in_bucket. destruct (heap w !! a) as [o|]; [|discriminate]. intros ->%Z.eqb_eq. apply Nat.eqb_refl. Qed.

Lemma find_head w h a : List.find (has_handle w h) (head w) = Some a -> a ∈ head w /\ exists o, heap w !! a = Some o /\ handle o = h.
Proof.
  intros [H1 H2]%List.find_some. split; [now apply list_elem_of_In|]. unfold has_handle in H2. destruct (heap w !! a) as [o|]; [|discriminate]. apply Z.eqb_eq in H2. eauto.
Qed.

(** The index finds the most recent layout of the handle. *)
Lemma acquire_ok w held h : linv w held -> exists r a w', layout_acquire w h = Ok (r, a, w') /\ clones w' ≡ₚ clones w /\
  match a with
  | Some a => r = VK_SUCCESS /\ List.find (has_handle w h) (head w) = Some a /\ linv w' (a :: held)
  | None => r <> VK_SUCCESS /\ w' = w
  end.
Proof.
  intros I. unfold layout_acquire. destruct (bucket_rd w held h I) as (chain & -> & Hch). cbn [obind]. rewrite (i_chain _ _ I _ _ Hch).
  rewrite find_handle_ok by (intros a Ha; apply (i_live _ _ I); rewrite elem_of_app; left; apply list_elem_of_In in Ha; apply List.filter_In in Ha as [Ha _]; now apply list_elem_of_In).
  rewrite find_filter by apply bucket_of_handle. cbn [obind]. destruct (List.find _ _) as [a|] eqn:Ef; [|eexists _, None, w; split; [reflexivity|]; split; [reflexivity|]; split; [discriminate|reflexivity]].
  destruct (find_head w h a Ef) as (Ha & l & Hl & Hh). unfold deref. rewrite Hl. cbn [of_option obind]. destruct (i_count _ _ I a l Hl) as [Hc Hr].
  destruct (Z.eqb_spec (references l) SIZE_MAX) as [Hm|Hm]; cbn [negb]; [eexists _, None, w; split; [reflexivity|]; split; [reflexivity|]; split; [discriminate|reflexivity]|].
  eexists _, (Some a), _. split; [reflexivity|]. split; [now apply (clones_update w a l)|]. split; [reflexivity|]. split; [reflexivity|].
  constructor; cbn [with_heap heap head index fresh]; [| |apply I|apply I| |].
  - intros b l' Hb. rewrite holders_app, count_cons. destruct (decide (a = b)) as [<-|Hne].
    + rewrite lookup_insert_eq in Hb. injection Hb as <-. cbn [references]. rewrite holders_app in Hc. lia.
    + rewrite lookup_insert_ne in Hb by congruence. destruct (i_count _ _ I b l' Hb) as [H1 H2]. rewrite holders_app in H1. split; [lia|assumption].
  - intros b Hb. destruct (decide (b = a)) as [->|Hne]; [rewrite lookup_insert_eq; eauto|]. rewrite lookup_insert_ne by congruence. apply (i_live _ _ I). rewrite elem_of_app, elem_of_cons in *. tauto.
  - intros b c Hb. rewrite (i_chain _ _ I b c Hb). symmetry. apply filter_same. intros x _. now apply (in_bucket_insert _ _ l).
  - intros b [l' Hb]. apply (i_fresh _ _ I). destruct (decide (b = a)) as [->|Hne]; [eauto|]. rewrite lookup_insert_ne in Hb by congruence. eauto.
Qed.

(** Taking a layout out of the list and the index moves its reference to the caller. *)
Lemma detach_ok w held a l chain : linv w held -> a ∈ head w -> heap w !! a = Some l -> index w !! Z.to_nat (layout_bucket (handle l)) = Some chain ->
  linv (Layouts (heap w) (unlink a (head w)) (<[Z.to_nat (layout_bucket (handle l)) := unlink a chain]> (index w)) (fresh w)) (a :: held).
Proof.
  intros I Ha Hl Hch. pose proof (unlink_perm a (head w) Ha) as Hp. assert (head w ++ held ≡ₚ unlink a (head w) ++ a :: held) as Hq by (rewrite Hp at 1; cbn [app]; apply Permutation_middle).
  constructor; cbn [heap head index fresh].
  - intros b l' Hb. rewrite <- (holders_perm b _ _ Hq). now apply (i_count _ _ I).
  - intros b Hb. apply (i_live _ _ I). now rewrite Hq.
  - pose proof (i_nodup _ _ I) as Hn. rewrite Hp in Hn. now apply NoDup_cons in Hn as [_ Hn].
  - rewrite length_insert. apply I.
  - intros b d Hd. destruct (insert_chain _ _ _ _ Hch b d Hd) as [[-> ->]|[Hne Hb]].
    + rewrite (i_chain _ _ I _ _ Hch). apply unlink_filter. unfold in_bucket. rewrite Hl. apply Nat.eqb_refl.
    + rewrite unlink_other; [now apply (i_chain _ _ I)|]. unfold in_bucket. rewrite Hl. apply Nat.eqb_neq. congruence.
  - apply (i_fresh _ _ I).
Qed.

Lemma remove_ok w held h : linv w held -> exists w' d, layout_remove w h = Ok (w', d) /\ linv w' held /\ clones w ≡ₚ d ++ clones w' /\
  head w' = match List.find (has_handle w h) (head w) with Some a => unlink a (head w) | None => head w end.
Proof.
  intros I. unfold layout_remove. rewrite find_handle_ok by (intros a Ha; apply (i_live _ _ I); rewrite elem_of_app; now left). cbn [obind].
  destruct (List.find _ _) as [a|] eqn:Ef; [|exists w, []; auto]. destruct (find_head w h a Ef) as (Ha & l & Hl & <-). destruct (bucket_rd w held (handle l) I) as (chain & -> & Hch). cbn [obind].
  destruct (release_ok _ held a (detach_ok w held a l chain I Ha Hl Hch)) as (w' & d & -> & H). exists w', d. split; [reflexivity|]. exact H.
Qed.

(** Without journals and pipelines, finishing destroys every clone. *)
Lemma finish_ok : forall n w, linv w [] -> (length (head w) <= n)%nat -> exists w' d, layouts_finish n w = Ok (w', d) /\ linv w' [] /\ clones w ≡ₚ d ++ clones w' /\ head w' = [].
Proof.
  induction n as [|n IH]; intros w I Hn; [destruct (head w) eqn:Eh; [|cbn in Hn; lia]; exists w, []; cbn [layouts_finish]; rewrite Eh; auto|]. cbn [layouts_finish].
  destruct (head w) as [|a rest] eqn:Eh; [exists w, []; auto|]. destruct (i_live _ _ I a) as [l Hl]; [rewrite Eh; left|]. unfold deref. rewrite Hl. cbn [of_option obind].
  destruct (remove_ok w [] (handle l) I) as (w1 & d1 & -> & I1 & Hc1 & Hh1). cbn [obind].
  assert (List.find (has_handle w (handle l)) (head w) = Some a) as Ef by (rewrite Eh; cbn [List.find]; unfold has_handle at 1; rewrite Hl, Z.eqb_refl; reflexivity).
  rewrite Ef, Eh in Hh1. cbn [unlink] in Hh1. rewrite Nat.eqb_refl in Hh1. destruct (IH w1 I1) as (w2 & d2 & -> & I2 & Hc2 & Hh2); [rewrite Hh1; cbn in Hn; lia|]. cbn [obind].
  exists w2, (d1 ++ d2). split; [reflexivity|]. split; [assumption|]. split; [|assumption]. rewrite Hc1, Hc2, app_assoc. reflexivity.
Qed.

Lemma nothing_held w : linv w [] -> head w = [] -> heap w = ∅.
Proof.
  intros I Hh. apply map_empty. intros a. destruct (heap w !! a) as [l|] eqn:E; [|reflexivity]. destruct (i_count _ _ I a l E) as [Hc Hr]. rewrite Hh in Hc. cbn in Hc. lia.
Qed.

(** ** All command buffers of a device *)

(** The journals and the references that live pipelines hold. *)
Record world := World { lays : layouts; journals : list command_state; pipes : list nat }.
Definition journal_layouts (js : list command_state) : list nat := concat ((fun st => layout <$> saved st) <$> js).
Definition held (w : world) : list nat := journal_layouts (journals w) ++ pipes w.

Inductive op :=
  | OAdd (alloc : bool) (create : Z + Z) (h : Z) | ORemove (h : Z) | OAcquire (h : Z) | ORelease (k : nat)
  | OTrack (j : nat) | OPipeline (j : nat) (bind_point pipeline : Z) | ODescriptors (j : nat) (alloc : bool) (bind_point h first : Z) (sets offsets : list Z)
  | OPush (j : nat) (alloc : bool) (h stages offset : Z) (values : list Z) | OReset (j : nat).

Definition on_journal (w : world) (j : nat) (f : command_state -> outcome (command_state * layouts * list Z)) : outcome (world * list Z) :=
  match journals w !! j with
  | None => Ok (w, [])
  | Some st => let! (st, l, d) := f st in Ok (World l (<[j := st]> (journals w)) (pipes w), d)
  end.

(** The world and the clones destroyed. *)
Definition step (w : world) (o : op) : outcome (world * list Z) :=
  match o with
  | OAdd alloc create h => let! (_, l) := layout_add alloc create (lays w) h in Ok (World l (journals w) (pipes w), [])
  | ORemove h => let! (l, d) := layout_remove (lays w) h in Ok (World l (journals w) (pipes w), d)
  | OAcquire h => let! (_, a, l) := layout_acquire (lays w) h in Ok (World l (journals w) (option_list a ++ pipes w), [])
  | ORelease k => match pipes w !! k with
                  | None => Ok (w, [])
                  | Some a => let! (l, d) := layout_release (lays w) a in Ok (World l (journals w) (delete k (pipes w)), d)
                  end
  | OTrack j => on_journal w j (fun st => Ok (command_state_track_graphics st, lays w, []))
  | OPipeline j bp p => on_journal w j (fun st => Ok (save_pipeline st bp p, lays w, []))
  | ODescriptors j alloc bp h first sets offsets => on_journal w j (fun st => let! (st, l) := save_descriptors alloc (lays w) st bp h first sets offsets in Ok (st, l, []))
  | OPush j alloc h stages offset values => on_journal w j (fun st => let! (st, l) := save_push alloc (lays w) st h stages offset values in Ok (st, l, []))
  | OReset j => on_journal w j (fun st => command_state_reset (lays w) st)
  end.

Fixpoint run (w : world) (os : list op) : outcome (world * list Z) :=
  match os with
  | [] => Ok (w, [])
  | o :: os => let! (w, d) := step w o in let! (w, d') := run w os in Ok (w, d ++ d')
  end.

Definition start (n : nat) : world := World layouts_init (replicate n command_state_init) [].

(** The clones that were created. *)
Definition created (o : op) : list Z := match o with OAdd true (inl c) _ => [c] | _ => [] end.

Lemma linv_perm w h h' : h ≡ₚ h' -> linv w h -> linv w h'.
Proof.
  intros Hp []. constructor; auto.
  - intros a l Ha. rewrite (holders_perm a (head w ++ h') (head w ++ h)) by now rewrite Hp. auto.
  - intros a Ha. apply i_live0. now rewrite Hp.
Qed.

Lemma journals_insert js j st st' : js !! j = Some st -> exists rest, journal_layouts js ≡ₚ (layout <$> saved st) ++ rest /\ journal_layouts (<[j := st']> js) ≡ₚ (layout <$> saved st') ++ rest.
Proof.
  intros Hj. pose proof (lookup_lt_Some _ _ _ Hj) as Hlt. exists (journal_layouts (take j js) ++ journal_layouts (drop (S j) js)). split.
  - rewrite <- (take_drop_middle _ _ _ Hj) at 1. unfold journal_layouts. rewrite fmap_app, concat_app. cbn [fmap list_fmap concat]. rewrite !app_assoc. f_equiv. apply Permutation_app_comm.
  - rewrite insert_take_drop by assumption. unfold journal_layouts. rewrite fmap_app, concat_app. cbn [fmap list_fmap concat]. rewrite !app_assoc. f_equiv. apply Permutation_app_comm.
Qed.

(** What a step on one journal guarantees: the references of the journal follow the layouts. *)
Definition journal_step (w : layouts) (st : command_state) (r : outcome (command_state * layouts * list Z)) : Prop :=
  forall rest, linv w ((layout <$> saved st) ++ rest) -> exists st' w' d, r = Ok (st', w', d) /\ linv w' ((layout <$> saved st') ++ rest) /\ clones w ≡ₚ d ++ clones w'.

Lemma quiet_step w st st' : saved st' = saved st -> journal_step w st (Ok (st', w, [])).
Proof. intros E rest I. exists st', w, []. rewrite E. auto. Qed.

Lemma save_step alloc w st h bytes p : journal_step w st (let! (st, l) := save alloc w st h bytes p in Ok (st, l, [])).
Proof.
  intros rest I. unfold save. destruct (negb _); [exists st, w, []; auto|]. destruct (_ <? _); [exists (with_error st VK_ERROR_OUT_OF_HOST_MEMORY), w, []; auto|].
  destruct (negb alloc); [exists (with_error st VK_ERROR_OUT_OF_HOST_MEMORY), w, []; auto|]. destruct (acquire_ok w _ h I) as (r & a & w' & -> & Hc & Ha). cbn [obind].
  destruct a as [a|]; [|destruct Ha as [_ ->]; exists (with_error st r), w, []; auto]. destruct Ha as (_ & _ & I'). eexists _, w', []. split; [reflexivity|]. split; [|now rewrite Hc].
  cbn [saved]. refine (linv_perm w' _ _ _ I'). rewrite fmap_app. cbn [fmap list_fmap layout]. rewrite <- app_assoc. cbn [app]. apply Permutation_middle.
Qed.

Lemma release_all_ok : forall l w rest, linv w ((layout <$> l) ++ rest) -> exists w' d, release_all w l = Ok (w', d) /\ linv w' rest /\ clones w ≡ₚ d ++ clones w'.
Proof.
  induction l as [|s l IH]; intros w rest I; [exists w, []; auto|]. cbn [release_all fmap list_fmap app] in *. destruct (release_ok w _ (layout s) I) as (w1 & d1 & -> & I1 & H1 & _). cbn [obind].
  destruct (IH w1 rest I1) as (w2 & d2 & -> & I2 & H2). cbn [obind]. exists w2, (d1 ++ d2). split; [reflexivity|]. split; [assumption|]. rewrite H1, H2, app_assoc. reflexivity.
Qed.

Lemma reset_step w st : journal_step w st (command_state_reset w st).
Proof.
  intros rest I. unfold command_state_reset. destruct (release_all_ok (saved st) w rest I) as (w' & d & -> & I' & H). cbn [obind]. eexists _, w', d. split; [reflexivity|]. auto.
Qed.

Lemma save_pipeline_saved st bp p : saved (save_pipeline st bp p) = saved st.
Proof. unfold save_pipeline. destruct (bp =? COMPUTE); [reflexivity|]. destruct (_ && _); reflexivity. Qed.

Lemma on_journal_ok w j f : linv (lays w) (held w) -> (forall st, journal_step (lays w) st (f st)) ->
  exists w' d, on_journal w j f = Ok (w', d) /\ linv (lays w') (held w') /\ clones (lays w) ≡ₚ d ++ clones (lays w').
Proof.
  intros I Hf. unfold on_journal. destruct (journals w !! j) as [st|] eqn:Ej; [|exists w, []; auto].
  destruct (journals_insert (journals w) j st st Ej) as (rest & Hp & _). destruct (Hf st (rest ++ pipes w)) as (st' & l & d & -> & I' & Hc); [refine (linv_perm _ _ _ _ I); unfold held; rewrite Hp, app_assoc; reflexivity|].
  cbn [obind]. eexists _, d. split; [reflexivity|]. split; [|assumption]. refine (linv_perm _ _ _ _ I'). unfold held. cbn [journals pipes].
  destruct (journals_insert (journals w) j st st' Ej) as (rest' & Hp' & ->). rewrite Hp in Hp'. apply Permutation_app_inv_l in Hp'. rewrite Hp', app_assoc. reflexivity.
Qed.

Lemma descriptors_step alloc w st bp h first sets offsets : journal_step w st (let! (st, l) := save_descriptors alloc w st bp h first sets offsets in Ok (st, l, [])).
Proof.
  unfold save_descriptors. destruct (_ || _); [now apply quiet_step|]. destruct (_ <? _); [now apply quiet_step|]. apply save_step.
Qed.

Lemma journal_op_ok w o : linv (lays w) (held w) -> exists w' d, step w o = Ok (w', d) /\ linv (lays w') (held w') /\ created o ++ clones (lays w) ≡ₚ d ++ clones (lays w').
Proof.
  intros I. destruct o as [alloc create h|h|h|k|j|j bp p|j alloc bp h first sets offsets|j alloc h stages offset values|j]; cbn [step created app].
  - destruct (add_ok alloc create (lays w) (held w) h I) as (r & l & -> & I' & Hc). cbn [obind]. eexists _, []. split; [reflexivity|]. split; [exact I'|]. cbn [lays app]. rewrite Hc. now destruct alloc, create.
  - destruct (remove_ok (lays w) (held w) h I) as (l & d & -> & I' & Hc & _). cbn [obind]. eexists _, d. split; [reflexivity|]. split; [exact I'|exact Hc].
  - destruct (acquire_ok (lays w) (held w) h I) as (r & a & l & -> & Hc & Ha). cbn [obind]. eexists _, []. split; [reflexivity|]. cbn [lays app]. split; [|now rewrite Hc].
    unfold held. cbn [journals pipes]. destruct a as [a|]; [|destruct Ha as [_ ->]; exact I]. destruct Ha as (_ & _ & I'). refine (linv_perm _ _ _ _ I'). cbn. apply Permutation_middle.
  - destruct (pipes w !! k) as [a|] eqn:Ek; [|exists w, []; auto]. assert (held w ≡ₚ a :: journal_layouts (journals w) ++ delete k (pipes w)) as Hp.
    { unfold held. rewrite (delete_Permutation _ _ _ Ek) at 1. symmetry. apply Permutation_middle. }
    destruct (release_ok (lays w) _ a (linv_perm _ _ _ Hp I)) as (l & d & -> & I' & Hc & _). cbn [obind]. eexists _, d. split; [reflexivity|]. split; [exact I'|exact Hc].
  - apply on_journal_ok; [assumption|]. intros st. now apply quiet_step.
  - apply on_journal_ok; [assumption|]. intros st. apply quiet_step, save_pipeline_saved.
  - apply on_journal_ok; [assumption|]. intros st. apply descriptors_step.
  - apply on_journal_ok; [assumption|]. intros st. apply save_step.
  - apply on_journal_ok; [assumption|]. intros st. apply reset_step.
Qed.

Lemma journal_run_ok : forall os w, linv (lays w) (held w) -> exists w' d, run w os = Ok (w', d) /\ linv (lays w') (held w') /\ concat (created <$> os) ++ clones (lays w) ≡ₚ d ++ clones (lays w').
Proof.
  induction os as [|o os IH]; intros w I; [exists w, []; auto|]. cbn [run fmap list_fmap concat]. destruct (journal_op_ok w o I) as (w1 & d1 & -> & I1 & H1). cbn [obind].
  destruct (IH w1 I1) as (w2 & d2 & -> & I2 & H2). cbn [obind]. exists w2, (d1 ++ d2). split; [reflexivity|]. split; [assumption|].
  rewrite <- !app_assoc. rewrite <- H2. rewrite (app_assoc d1), (Permutation_app_comm d1), <- app_assoc, <- H1, !app_assoc. f_equiv. apply Permutation_app_comm.
Qed.

Lemma start_held n : held (start n) = [].
Proof. unfold held, start. cbn [journals pipes]. rewrite app_nil_r. unfold journal_layouts. induction n as [|n IH]; [reflexivity|exact IH]. Qed.

(** C24: any interleaving of the creation and destruction of pipeline layouts, of pipelines that hold them, and of
    recording into and resetting any number of command buffers returns without touching a freed layout.  The
    count of a live layout is exactly the number of its holders: the device's list, journals and pipelines; each clone that was created is
    destroyed at most once and is live as long as it has a holder.  Tearing down the device when journals and
    pipelines are gone destroys every clone that is left. *)
Theorem layout_clones_counted (n : nat) (os : list op) :
  exists w destroyed, run (start n) os = Ok (w, destroyed) /\ concat (created <$> os) ≡ₚ destroyed ++ clones (lays w) /\
    (forall a, (a ∈ head (lays w) \/ a ∈ held w) <-> is_Some (heap (lays w) !! a)) /\
    (forall a l, heap (lays w) !! a = Some l -> references l = Z.of_nat (count a (head (lays w)) + count a (held w))) /\
    (held w = [] -> exists l rest, layouts_finish (length (head (lays w))) (lays w) = Ok (l, rest) /\ heap l = ∅ /\ concat (created <$> os) ≡ₚ destroyed ++ rest).
Proof.
  destruct (journal_run_ok os (start n)) as (w & d & E & I & Hc); [rewrite start_held; exact init_linv|]. exists w, d. split; [assumption|]. assert (clones (lays (start n)) = []) as E0 by reflexivity.
  rewrite E0, app_nil_r in Hc. split; [assumption|]. split_and!.
  - intros a. rewrite <- elem_of_app. split; [apply (i_live _ _ I)|]. intros [l Hl]. apply count_in. destruct (i_count _ _ I a l Hl). lia.
  - intros a l Hl. destruct (i_count _ _ I a l Hl) as [-> _]. now rewrite holders_app.
  - intros Hh. rewrite Hh in I. destruct (finish_ok (length (head (lays w))) (lays w) I (Nat.le_refl _)) as (l & rest & Ef & If & Hcf & Hhf). exists l, rest. split; [assumption|].
    pose proof (nothing_held l If Hhf) as He. split; [assumption|]. rewrite Hc, Hcf. unfold clones. rewrite He, map_to_list_empty. cbn. now rewrite app_nil_r.
Qed.

(** ** Replay restores the bindings *)

(** The bindings of a command buffer: the pipeline and the descriptor sets (with the dynamic offsets of their command) of each bind
    point, and the bytes of push constants each shader stage sees. *)
Record device := Device { pipeline : Z -> Z; sets : Z -> Z -> option (Z * list Z); bytes : Z -> Z -> option Z }.
Definition no_bindings : device := Device (fun _ => 0) (fun _ _ => None) (fun _ _ => None).

Definition element {A} (l : list A) (first n : Z) : option A := if first <=? n then l !! Z.to_nat (n - first) else None.

Definition exec1 (d : device) (c : command) : device :=
  match c with
  | BindPipeline bp p => Device (fun b => if b =? bp then p else pipeline d b) (sets d) (bytes d)
  | BindDescriptorSets bp _ first ss offs =>
      Device (pipeline d) (fun b n => match (if b =? bp then element ss first n else None) with Some x => Some (x, offs) | None => sets d b n end) (bytes d)
  | PushConstants _ stages offset vs =>
      Device (pipeline d) (sets d) (fun s n => match (if Z.testbit stages s then element vs offset n else None) with Some x => Some x | None => bytes d s n end)
  end.
Definition exec (cs : list command) (d : device) : device := fold_left exec1 cs d.

(** The hooks that record a command of the application. *)
Definition record1 (w : layouts) (st : command_state) (c : command) : outcome (command_state * layouts) :=
  match c with
  | BindPipeline bp p => Ok (save_pipeline st bp p, w)
  | BindDescriptorSets bp h first ss offs => save_descriptors true w st bp h first ss offs
  | PushConstants h stages offset vs => save_push true w st h stages offset vs
  end.
Fixpoint record (w : layouts) (st : command_state) (cs : list command) : outcome (command_state * layouts) :=
  match cs with [] => Ok (st, w) | c :: cs => let! (st, w) := record1 w st c in record w st cs end.

(** What the last command that concerns a binding says of it. *)
Definition sets_of (bp n : Z) (c : command) : option (Z * list Z) :=
  match c with BindDescriptorSets b _ first ss offs => if bp =? b then (fun x => (x, offs)) <$> element ss first n else None | _ => None end.
Definition bytes_of (s n : Z) (c : command) : option Z :=
  match c with PushConstants _ stages offset vs => if Z.testbit stages s then element vs offset n else None | _ => None end.
Definition pipeline_of (bp : Z) (c : command) : option Z := match c with BindPipeline b p => if bp =? b then Some p else None | _ => None end.

Lemma last_cons_or {A} (x : A) l d : from_option Some d (last (x :: l)) = from_option Some (Some x) (last l).
Proof. rewrite last_cons. now destruct (last l). Qed.

Lemma exec_sets bp n : forall cs d, sets (exec cs d) bp n = from_option Some (sets d bp n) (last (omap (sets_of bp n) cs)).
Proof.
  induction cs as [|c cs IH]; intros d; [reflexivity|]. change (exec (c :: cs) d) with (exec cs (exec1 d c)). rewrite IH. destruct c as [b p|b h first ss offs|h stages offset vs]; cbn [omap list_omap sets_of exec1 sets]; auto.
  destruct (bp =? b); cbn [fmap option_fmap option_map]; auto. destruct (element ss first n); cbn [fmap option_fmap option_map]; auto. now rewrite last_cons_or.
Qed.

Lemma exec_bytes s n : forall cs d, bytes (exec cs d) s n = from_option Some (bytes d s n) (last (omap (bytes_of s n) cs)).
Proof.
  induction cs as [|c cs IH]; intros d; [reflexivity|]. change (exec (c :: cs) d) with (exec cs (exec1 d c)). rewrite IH. destruct c as [b p|b h first ss offs|h stages offset vs]; cbn [omap list_omap bytes_of exec1 bytes]; auto.
  destruct (Z.testbit stages s); auto. destruct (element vs offset n); auto. now rewrite last_cons_or.
Qed.

Lemma exec_pipeline bp : forall cs d, pipeline (exec cs d) bp = from_option id (pipeline d bp) (last (omap (pipeline_of bp) cs)).
Proof.
  induction cs as [|c cs IH]; intros d; [reflexivity|]. change (exec (c :: cs) d) with (exec cs (exec1 d c)). rewrite IH. destruct c as [b p|b h first ss offs|h stages offset vs]; cbn [omap list_omap pipeline_of exec1 pipeline]; auto.
  destruct (bp =? b); auto. rewrite last_cons. now destruct (last _).
Qed.

(** *** The journal of a list of commands *)

Definition tracked (track : bool) (bp : Z) : bool := (bp =? COMPUTE) || (track && (bp =? GRAPHICS)).
Definition journalled (track : bool) (c : command) : option payload :=
  match c with
  | BindPipeline _ _ => None
  | BindDescriptorSets bp _ first ss offs => if (len ss =? 0) || negb (tracked track bp) then None else Some (Descriptors bp first ss offs)
  | PushConstants _ stages offset vs => Some (Push stages offset vs)
  end.
Definition as_command (p : payload) : command :=
  match p with Descriptors bp first ss offs => BindDescriptorSets bp 0 first ss offs | Push stages offset vs => PushConstants 0 stages offset vs end.

Definition bound_pipeline (st : command_state) (bp : Z) : Z := if bp =? COMPUTE then compute_pipeline st else graphics_pipeline st.

Lemma save_appends w h st bytes p st' w' held : linv w held -> save true w st h bytes p = Ok (st', w') -> error st' = VK_SUCCESS ->
  error st = VK_SUCCESS /\ (exists a, saved st' = saved st ++ [Saved a p]) /\ track_graphics st' = track_graphics st /\ forall bp, bound_pipeline st' bp = bound_pipeline st bp.
Proof.
  intros I. unfold save. destruct (Z.eqb_spec (error st) VK_SUCCESS) as [He|He]; cbn [negb]; [|intros [= <- <-] H; contradiction]. destruct (_ <? _); [intros [= <- <-]; discriminate|].
  destruct (acquire_ok w held h I) as (r & a & w1 & -> & _ & Ha). cbn [obind]. destruct a as [a|]; [|destruct Ha as [Hr _]; intros [= <- <-] H; cbn in H; contradiction].
  intros [= <- <-] _. cbn. split; [assumption|]. split; [eauto|]. split; reflexivity.
Qed.

(** What the journal holds after a command. *)
Record extended (st st' : command_state) (c : command) : Prop := {
  x_error : error st = VK_SUCCESS;
  x_saved : exists new, saved st' = saved st ++ new /\ data <$> new = option_list (journalled (track_graphics st) c);
  x_track : track_graphics st' = track_graphics st;
  x_pipeline : forall bp, tracked (track_graphics st) bp = true -> bound_pipeline st' bp = from_option id (bound_pipeline st bp) (pipeline_of bp c) }.

Lemma tracked_cases track bp : tracked track bp = true -> bp = COMPUTE \/ bp = GRAPHICS /\ track = true.
Proof. unfold tracked. intros [H|H]%orb_true_iff; [left; now apply Z.eqb_eq|]. apply andb_true_iff in H as [H1 H2]. right. apply Z.eqb_eq in H2. auto. Qed.

Lemma record1_extends w held st c st' w' : linv w held -> record1 w st c = Ok (st', w') -> error st' = VK_SUCCESS -> extended st st' c.
Proof.
  intros I. destruct c as [b p|b h first ss offs|h stages offset vs]; cbn [record1].
  - intros [= <- <-] He. assert (forall s, saved s = saved s ++ []) as Hn by (intros s; now rewrite app_nil_r). constructor.
    + unfold save_pipeline in He. destruct (b =? COMPUTE); [exact He|]. destruct (_ && _); exact He.
    + exists []. rewrite save_pipeline_saved. split; [apply Hn|reflexivity].
    + unfold save_pipeline. destruct (b =? COMPUTE); [reflexivity|]. destruct (_ && _); reflexivity.
    + intros bp Ht. cbn [pipeline_of]. unfold save_pipeline, bound_pipeline. destruct (tracked_cases _ _ Ht) as [->|[-> Hk]]; destruct (Z.eqb_spec b COMPUTE) as [->|Hb]; try reflexivity.
      * rewrite (proj2 (Z.eqb_neq COMPUTE b)) by congruence. now destruct (_ && _).
      * rewrite Hk. cbn [andb]. destruct (Z.eqb_spec b GRAPHICS) as [->|Hg]; [reflexivity|]. rewrite (proj2 (Z.eqb_neq GRAPHICS b)) by congruence. reflexivity.
  - unfold save_descriptors. fold (len ss). assert ((negb (b =? COMPUTE) && negb (track_graphics st && (b =? GRAPHICS))) = negb (tracked (track_graphics st) b)) as -> by (unfold tracked; now rewrite negb_orb).
    destruct (_ || _) eqn:Ej; [intros [= <- <-] He; constructor; auto; exists []; cbn [journalled]; rewrite Ej, app_nil_r; auto|]. destruct (_ <? _); [intros [= <- <-]; discriminate|].
    intros E He. destruct (save_appends _ _ _ _ _ _ _ _ I E He) as (H1 & [a Ha] & H3 & H4). constructor; auto. exists [Saved a (Descriptors b first ss offs)]. split; [assumption|]. cbn [journalled]. now rewrite Ej.
  - intros E He. destruct (save_appends _ _ _ _ _ _ _ _ I E He) as (H1 & [a Ha] & H3 & H4). constructor; auto. exists [Saved a (Push stages offset vs)]. auto.
Qed.

Lemma record1_ok w rest st c : linv w ((layout <$> saved st) ++ rest) -> exists st' w', record1 w st c = Ok (st', w') /\ linv w' ((layout <$> saved st') ++ rest).
Proof.
  intros I. destruct c as [b p|b h first ss offs|h stages offset vs]; cbn [record1].
  - eexists _, w. split; [reflexivity|]. now rewrite save_pipeline_saved.
  - destruct (descriptors_step true w st b h first ss offs rest I) as (st' & w' & d & E & I' & _). destruct (save_descriptors _ _ _ _ _ _ _ _) as [[s l]| |]; [|discriminate|discriminate]. cbn [obind] in E. injection E as -> -> _. eauto.
  - unfold save_push. destruct (save_step true w st h (len vs) (Push stages offset vs) rest I) as (st' & w' & d & E & I' & _). destruct (save _ _ _ _ _ _) as [[s l]| |]; [|discriminate|discriminate]. cbn [obind] in E. injection E as -> -> _. eauto.
Qed.

(** A journal without an error holds the tracked commands in order. *)
Lemma journal_record_ok rest : forall cs w st, linv w ((layout <$> saved st) ++ rest) -> exists st' w', record w st cs = Ok (st', w') /\ linv w' ((layout <$> saved st') ++ rest) /\
  (error st' = VK_SUCCESS -> error st = VK_SUCCESS /\ track_graphics st' = track_graphics st /\
    (exists new, saved st' = saved st ++ new /\ data <$> new = omap (journalled (track_graphics st)) cs) /\
    forall bp, tracked (track_graphics st) bp = true -> bound_pipeline st' bp = from_option id (bound_pipeline st bp) (last (omap (pipeline_of bp) cs))).
Proof.
  induction cs as [|c cs IH]; intros w st I; [exists st, w; split; [reflexivity|]; split; [assumption|]; intros He; split_and!; auto; exists []; now rewrite app_nil_r|].
  cbn [record]. destruct (record1_ok w rest st c I) as (st1 & w1 & E1 & I1). rewrite E1. cbn [obind]. destruct (IH w1 st1 I1) as (st2 & w2 & E2 & I2 & H2). exists st2, w2. split; [assumption|]. split; [assumption|].
  intros He. destruct (H2 He) as (He1 & Ht1 & (new & Hn & Hd) & Hp). destruct (record1_extends _ _ _ _ _ _ I E1 He1) as [X1 (new1 & Hn1 & Hd1) X3 X4]. split_and!; [assumption|congruence| |].
  - exists (new1 ++ new). split; [rewrite Hn, Hn1; now rewrite app_assoc|]. rewrite fmap_app, Hd, Hd1, X3. cbn [omap list_omap]. now destruct (journalled _ c).
  - intros bp Hb. rewrite Hp by now rewrite X3. rewrite X4 by assumption. cbn [omap list_omap]. destruct (pipeline_of bp c); [rewrite last_cons|]; now destruct (last _).
Qed.

(** *** What a replay does *)

Definition active_stages (bp : Z) : Z := if bp =? COMPUTE then STAGE_COMPUTE else STAGE_ALL_GRAPHICS.
Definition live (w : layouts) (l : list saved_command) : Prop := forall s, s ∈ l -> is_Some (heap w !! layout s).

Lemma live_cons w s l : live w (s :: l) -> (exists o, deref w (layout s) = Ok o) /\ live w l.
Proof. intros H. split; [|intros x Hx; apply H; now right]. destruct (H s) as [o Ho]; [left|]. exists o. unfold deref. now rewrite Ho. Qed.

Lemma linv_live w rest st : linv w ((layout <$> saved st) ++ rest) -> live w (saved st).
Proof. intros I s Hs. apply (i_live _ _ I). rewrite !elem_of_app. right. left. now apply list_elem_of_fmap_2. Qed.

(** A replayed list as the effects it has. *)
Record effects (cs : list command) (fs : Z -> Z -> list (Z * list Z)) (fb : Z -> Z -> list Z) (fp : Z -> list Z) (stage : Z -> Prop) : Prop := {
  e_sets : forall b n, omap (sets_of b n) cs = fs b n;
  e_bytes : forall s n, stage s -> omap (bytes_of s n) cs = fb s n;
  e_pipeline : forall b, omap (pipeline_of b) cs = fp b }.

Lemma effects_app cs cs' fs fs' fb fb' fp fp' stage : effects cs fs fb fp stage -> effects cs' fs' fb' fp' stage ->
  effects (cs ++ cs') (fun b n => fs b n ++ fs' b n) (fun s n => fb s n ++ fb' s n) (fun b => fp b ++ fp' b) stage.
Proof. intros [A1 A2 A3] [B1 B2 B3]. split; intros; rewrite omap_app; f_equal; auto. Qed.

Definition saved_sets (l : list saved_command) (b n : Z) : list (Z * list Z) := omap (fun s => sets_of b n (as_command (data s))) l.
Definition saved_bytes (l : list saved_command) (s n : Z) : list Z := omap (fun c => bytes_of s n (as_command (data c))) l.

Lemma restore_descriptors_ok w bp stage : forall l, live w l -> exists ds, restore_descriptors w bp l = Ok ds /\
  effects ds (fun b n => if b =? bp then saved_sets l b n else []) (fun _ _ => []) (fun _ => []) stage.
Proof.
  induction l as [|s l IH]; intros H; [exists []; split; [reflexivity|]; split; intros; try reflexivity; now destruct (_ =? _)|]. destruct (live_cons _ _ _ H) as [[o Ho] Hl].
  destruct (IH Hl) as (ds & E & [A1 A2 A3]). cbn [restore_descriptors]. unfold saved_sets in *. cbn [omap list_omap]. destruct (data s) as [b first ss offs|stages first vs]; cbn [as_command sets_of]; [|exists ds; split; [assumption|]; split; auto].
  destruct (Z.eqb_spec b bp) as [->|Hne]; cbn [negb].
  - rewrite Ho, E. cbn [obind]. eexists. split; [reflexivity|]. split; intros; cbn [omap list_omap sets_of bytes_of pipeline_of]; auto. rewrite A1. destruct (b =? bp); [|reflexivity]. now destruct (element ss first n).
  - exists ds. split; [assumption|]. split; auto. intros b' n. rewrite A1. destruct (Z.eqb_spec b' bp) as [->|]; [|reflexivity]. now rewrite (proj2 (Z.eqb_neq bp b)) by congruence.
Qed.

Lemma touches_bit stages active s : Z.testbit active s = true -> Z.testbit stages s = true -> touches stages active = true.
Proof. intros Ha Hs. unfold touches. destruct (Z.eqb_spec (Z.land stages active) 0) as [E|]; [|reflexivity]. pose proof (f_equal (fun z => Z.testbit z s) E) as F. cbn beta in F. rewrite Z.land_spec, Ha, Hs, Z.bits_0 in F. discriminate. Qed.

Lemma restore_pushes_ok w active pass : forall l, live w l -> exists cs, restore_pushes w active pass l = Ok cs /\
  effects cs (fun _ _ => []) (fun s n => if pass then saved_bytes l s n else []) (fun _ => []) (fun s => Z.testbit active s = true).
Proof.
  induction l as [|c l IH]; intros H; [exists []; split; [reflexivity|]; split; intros; try reflexivity; now destruct pass|]. destruct (live_cons _ _ _ H) as [[o Ho] Hl].
  destruct (IH Hl) as (cs & E & [A1 A2 A3]). cbn [restore_pushes]. unfold saved_bytes in *. cbn [omap list_omap]. destruct (data c) as [b first ss offs|stages first vs]; cbn [as_command bytes_of]; [exists cs; split; [assumption|]; split; auto|].
  destruct (Bool.eqb (touches stages active) pass) eqn:Ep.
  - apply eqb_prop in Ep. rewrite Ho, E. cbn [obind]. eexists. split; [reflexivity|]. split; intros; cbn [omap list_omap sets_of bytes_of pipeline_of]; auto. rewrite A2 by assumption.
    destruct (Z.testbit stages s) eqn:Es; [|reflexivity]. rewrite (touches_bit stages active s) in Ep by assumption. rewrite <- Ep. now destruct (element vs first n).
  - exists cs. split; [assumption|]. split; auto. intros s n Hs. rewrite A2 by assumption. destruct pass; [|reflexivity].
    destruct (Z.testbit stages s) eqn:Es; [|reflexivity]. rewrite (touches_bit stages active s) in Ep by assumption. discriminate.
Qed.

Lemma restore_ok w st bp : live w (saved st) -> error st = VK_SUCCESS -> exists out, restore w st bp = Ok out /\
  effects out (fun b n => if b =? bp then saved_sets (saved st) b n else []) (saved_bytes (saved st))
    (fun b => if (b =? bp) && negb (bound_pipeline st bp =? 0) then [bound_pipeline st bp] else []) (fun s => Z.testbit (active_stages bp) s = true).
Proof.
  intros H He. unfold restore. rewrite He. cbn [negb Z.eqb VK_SUCCESS]. fold (active_stages bp) (bound_pipeline st bp). destruct (restore_descriptors_ok w bp (fun s => Z.testbit (active_stages bp) s = true) _ H) as (ds & -> & A).
  destruct (restore_pushes_ok w (active_stages bp) false _ H) as (p0 & -> & B). destruct (restore_pushes_ok w (active_stages bp) true _ H) as (p1 & -> & C). cbn [obind]. eexists. split; [reflexivity|].
  pose proof (effects_app _ _ _ _ _ _ _ _ _ A (effects_app _ _ _ _ _ _ _ _ _ B C)) as [D1 D2 D3].
  split; intros; rewrite omap_app; [rewrite D1|rewrite D2 by assumption|rewrite D3]; destruct (bound_pipeline st bp =? 0); cbn; rewrite ?app_nil_r, ?andb_false_r; try reflexivity.
  now destruct (b =? bp).
Qed.

(** *** What the journal records of a list of commands *)

Lemma journalled_sets track bp n (cs : list command) : tracked track bp = true -> omap (fun p => sets_of bp n (as_command p)) (omap (journalled track) cs) = omap (sets_of bp n) cs.
Proof.
  intros Ht. induction cs as [|c cs IH]; [reflexivity|]. cbn [omap list_omap]. destruct c as [b p|b h first ss offs|h stages offset vs]; cbn [journalled sets_of]; [assumption| |cbn [omap list_omap as_command sets_of]; assumption].
  destruct (_ || _) eqn:Ej; [|cbn [omap list_omap as_command sets_of]; rewrite <- IH; now destruct (bp =? b); [destruct (element ss first n)|]]. rewrite IH. destruct (Z.eqb_spec bp b) as [->|]; [|reflexivity]. rewrite Ht, orb_false_r in Ej.
  apply Z.eqb_eq in Ej. unfold len in Ej. destruct ss; [|cbn in Ej; lia]. unfold element. rewrite lookup_nil. now destruct (first <=? n).
Qed.

Lemma journalled_bytes track s n (cs : list command) : omap (fun p => bytes_of s n (as_command p)) (omap (journalled track) cs) = omap (bytes_of s n) cs.
Proof.
  induction cs as [|c cs IH]; [reflexivity|]. cbn [omap list_omap]. destruct c as [b p|b h first ss offs|h stages offset vs]; cbn [journalled bytes_of]; [assumption| |cbn [omap list_omap as_command bytes_of]; now rewrite IH].
  destruct (_ || _); [assumption|]. cbn [omap list_omap as_command bytes_of]. assumption.
Qed.

Lemma omap_data {A} (f : payload -> option A) (l : list saved_command) : omap (fun s => f (data s)) l = omap f (data <$> l).
Proof. induction l as [|s l IH]; [reflexivity|]. cbn [omap list_omap fmap list_fmap]. now rewrite IH. Qed.

Lemma last_or {A} (l : list A) (d : option A) : from_option Some d (last l) = match from_option Some None (last l) with Some x => Some x | None => d end.
Proof. now destruct (last l). Qed.

(** *** The push constants of all stages

    A replay repeats every push: first those for no stage of its bind point, then the others. *)

Definition names (bp : Z) (c : command) : bool :=
  match c with PushConstants _ stages _ _ => existsb (fun s => Z.testbit stages s && Z.testbit (active_stages bp) s) (seqZ 0 32) | _ => false end.
Definition replayed (bp : Z) (cs : list command) : list command := List.filter (fun c => negb (names bp c)) cs ++ List.filter (names bp) cs.

Lemma touches_names stages active : 0 <= active < 2 ^ 32 ->
  touches stages active = existsb (fun s => Z.testbit stages s && Z.testbit active s) (seqZ 0 32).
Proof.
  intros Ha. unfold touches. apply eq_true_iff_eq. rewrite existsb_exists, negb_true_iff, Z.eqb_neq. split.
  - intros Hne. destruct (existsb (fun s => Z.testbit stages s && Z.testbit active s) (seqZ 0 32)) eqn:E; [now apply existsb_exists in E|].
    destruct Hne. apply Z.bits_inj'. intros i Hi. rewrite Z.land_spec, Z.bits_0. destruct (Z_lt_le_dec i 32) as [Hlt|Hge].
    + apply not_true_iff_false. intros Hb. rewrite <- not_true_iff_false in E. apply E, existsb_exists. exists i. split; [|exact Hb].
      apply list_elem_of_In, elem_of_seqZ. lia.
    + rewrite (testbit_high 32 active i) by (unfold in_range; lia). apply andb_false_r.
  - intros (s & _ & [H1 H2]%andb_true_iff) E. pose proof (touches_bit stages active s H2 H1) as T. unfold touches in T. now rewrite E in T.
Qed.

Lemma active_range bp : 0 <= active_stages bp < 2 ^ 32.
Proof. unfold active_stages, STAGE_COMPUTE, STAGE_ALL_GRAPHICS. destruct (bp =? COMPUTE); lia. Qed.

Lemma push_bytes w bp pass s n : forall l out, restore_pushes w (active_stages bp) pass l = Ok out ->
  omap (bytes_of s n) out = omap (bytes_of s n) (List.filter (fun c => Bool.eqb (names bp c) pass) ((fun c => as_command (data c)) <$> l)).
Proof.
  induction l as [|c l IH]; intros out E; cbn [restore_pushes fmap list_fmap List.filter] in *; [now injection E as <-|].
  destruct (data c) as [b first ss offs|stages first vs]; cbn [as_command names].
  - rewrite (IH _ E). destruct (Bool.eqb false pass); reflexivity.
  - rewrite <- (touches_names stages _ (active_range bp)). destruct (Bool.eqb _ pass); [|now apply IH]. destruct (deref w _); [|discriminate|discriminate]. cbn [obind] in E.
    destruct (restore_pushes _ _ _ l) as [cs| |]; [|discriminate|discriminate]. cbn [obind] in E. injection E as <-. cbn [omap list_omap bytes_of]. now rewrite <- (IH cs eq_refl).
Qed.

Lemma descriptor_bytes w bp s n : forall l out, restore_descriptors w bp l = Ok out -> omap (bytes_of s n) out = [].
Proof.
  induction l as [|c l IH]; intros out E; cbn [restore_descriptors] in E; [now injection E as <-|]. destruct (data c); [|now apply IH]. destruct (negb _); [now apply IH|].
  destruct (deref w _); [|discriminate|discriminate]. cbn [obind] in E. destruct (restore_descriptors _ _ l) as [cs| |]; [|discriminate|discriminate]. cbn [obind] in E. injection E as <-. cbn [omap list_omap bytes_of]. now apply IH.
Qed.

Lemma filter_ext_all {A} (f g : A -> bool) (l : list A) : (forall x, f x = g x) -> List.filter f l = List.filter g l.
Proof. intros H. induction l as [|x l IH]; [reflexivity|]. cbn [List.filter]. now rewrite H, IH. Qed.

Lemma restore_bytes w st bp out s n : restore w st bp = Ok out -> error st = VK_SUCCESS ->
  omap (bytes_of s n) out = omap (bytes_of s n) (replayed bp ((fun c => as_command (data c)) <$> saved st)).
Proof.
  unfold restore. intros E He. rewrite He in E. cbn [negb Z.eqb VK_SUCCESS] in E. fold (active_stages bp) in E.
  destruct (restore_descriptors w bp (saved st)) as [ds| |] eqn:E1; [|discriminate|discriminate]. cbn [obind] in E. destruct (restore_pushes w _ false _) as [p0| |] eqn:E2; [|discriminate|discriminate]. cbn [obind] in E.
  destruct (restore_pushes w _ true _) as [p1| |] eqn:E3; [|discriminate|discriminate]. cbn [obind] in E. injection E as <-.
  unfold replayed. rewrite !omap_app, (descriptor_bytes _ _ _ _ _ _ E1), (push_bytes _ _ _ _ _ _ _ E2), (push_bytes _ _ _ _ _ _ _ E3).
  rewrite (filter_ext_all (fun c => Bool.eqb (names bp c) false) (fun c => negb (names bp c))), (filter_ext_all (fun c => Bool.eqb (names bp c) true) (names bp)) by (intros x; now destruct (names bp x)). now destruct (_ =? 0).
Qed.

Lemma omap_filter {A B} (f : A -> bool) (g : A -> option B) (l : list A) : omap g (List.filter f l) = omap (fun x => if f x then g x else None) l.
Proof. induction l as [|x l IH]; [reflexivity|]. cbn [List.filter omap list_omap]. destruct (f x); cbn [omap list_omap]; [|exact IH]. now destruct (g x); [f_equal|]. Qed.

Lemma omap_journalled track (g : command -> option Z) (cs : list command) : (forall c, g c = match journalled track c with Some p => g (as_command p) | None => None end) ->
  omap g (as_command <$> omap (journalled track) cs) = omap g cs.
Proof.
  intros H. induction cs as [|c cs IH]; [reflexivity|]. cbn [omap list_omap]. rewrite (H c). destruct (journalled track c) as [p|]; [|exact IH].
  cbn [fmap list_fmap omap list_omap]. now destruct (g (as_command p)); [f_equal|].
Qed.

Lemma journalled_replay track bp s n (cs : list command) :
  omap (bytes_of s n) (replayed bp (as_command <$> omap (journalled track) cs)) = omap (bytes_of s n) (replayed bp cs).
Proof.
  unfold replayed. rewrite !omap_app, !omap_filter. f_equal; apply (omap_journalled track); intros [b p|b h first ss offs|h stages offset vs]; cbn [journalled as_command names bytes_of negb]; try reflexivity; now destruct (_ || _).
Qed.


(** One layout with handle 5 and clone 7, and a journal of a dispatch with two sets, an offset and push constants. *)
Definition sample_device : outcome (world * list Z) := run (start 0) [OAdd true (inl 7) 5].
Definition sample_commands : list command :=
  [BindPipeline COMPUTE 30; BindDescriptorSets COMPUTE 5 0 [100; 101] [64]; PushConstants 5 0x21 0 [1; 2; 3; 4]; BindDescriptorSets COMPUTE 5 1 [102] []; PushConstants 5 0x20 4 [9; 8; 7; 6]].


(** The replay for one bind point may undo a later write of the other one: after a push for vertex and compute
    stages and a later push for the vertex stage alone, a replay for compute leaves the vertex stage with the older bytes. *)
Definition mixed_commands : list command := [PushConstants 5 0x21 0 [1]; PushConstants 5 0x01 0 [2]].

Example replay_reorders_pushes :
  (let! (W, _) := sample_device in
   let! (st, w) := record (lays W) command_state_init mixed_commands in
   let! out := restore_compute w st in
   Ok (bytes (exec mixed_commands no_bindings) 0 0, bytes (exec out (exec mixed_commands no_bindings)) 0 0)) = Ok (Some 2, Some 1).
Proof. vm_compute. reflexivity. Qed.
End BcJournal.
