(* ===== verification/MemVisibility.v ===== *)
(** * Host visibility of memory (vulkan/compat/memory_visibility.c)

    The layer keeps a record of each memory allocation and buffer, flushes host-written uploads before the commands that use
    them and skips a flush that the same recording already made.  Functions that call the driver between two sections
    under [guard] are modelled by their sections, with what the thread keeps in between; everything else is one
    step.  Answers of the driver and of the layer's device lookup are arguments. *)

From Stdlib Require Import ZArith Lia Bool.
From stdpp Require Import base numbers option gmap list.
From S2P Require Import Prelude Registry.

Open Scope Z_scope.
Open Scope outcome_scope.

Module MemVisibility.
Import Registry.

Definition VK_SUCCESS : Z := 0.
Definition VK_ERROR_OUT_OF_HOST_MEMORY : Z := -1.
Definition VK_ERROR_INITIALIZATION_FAILED : Z := -3.
Definition VK_ERROR_MEMORY_MAP_FAILED : Z := -5.
Definition VK_ERROR_FEATURE_NOT_PRESENT : Z := -8.
Definition VK_WHOLE_SIZE : Z := 2 ^ 64 - 1.
Definition UINT64_MAX : Z := 2 ^ 64 - 1.
Definition HOST_COHERENT : Z := 4.
Definition USAGE_TRANSFER_SRC : Z := 1.
Definition USAGE_TRANSFER_DST : Z := 2.
Definition USAGE_STORAGE : Z := 0x20.
Definition USAGE_INDEX : Z := 0x40.
Definition USAGE_VERTEX : Z := 0x80.
Definition USAGE_INDIRECT : Z := 0x100.
Definition SPARSE_OR_PROTECTED : Z := 9.
Definition HOST_UPLOAD_FLUSH : Z := 1.
Definition HOST_READBACK_INVALIDATE : Z := 4.

Definition has (flags bit : Z) : bool := negb (Z.land flags bit =? 0).

(** What [hybris_layer_lookup_device] and [hybris_layer_command_device] fill in. *)
Record layer_device := Device { handle : Z; generation : Z; policy : Z; recording_epoch : Z; maintenance5 : bool }.

(** [allocator] identifies the application's callbacks, [None] when it gave none. *)
Record allocation := Allocation {
  a_device : Z; a_device_generation : Z; a_generation : Z; upload_revision : Z; a_memory : Z; a_size : Z; atom : Z;
  map_offset : Z; map_size : Z; properties : Z; mapped : bool; a_allocator : option Z }.
Record buffer := Buffer {
  b_device : Z; b_device_generation : Z; b_generation : Z; memory_generation : Z; upload_epoch : Z; buffer_revision : Z;
  b_handle : Z; b_memory : Z; b_size : Z; logical_size : Z; b_offset : Z; usage : Z; b_allocator : option Z }.

#[export] Instance allocation_keyed : Keyed allocation := { k_device := a_device; k_generation := a_device_generation; k_handle := a_memory }.
#[export] Instance buffer_keyed : Keyed buffer := { k_device := b_device; k_generation := b_device_generation; k_handle := b_handle }.

Record state := State { allocations : registry allocation; buffers : registry buffer; next_generation : Z }.
Definition initial : state := State empty_registry empty_registry 0.

(** The object with its address. *)
Definition lookup {R} `{Keyed R} (r : registry R) (d : layer_device) (h : Z) : outcome (option (nat * R)) :=
  let! found := find r (handle d) (generation d) h in
  match found with None => Ok None | Some a => let! o := deref r a in Ok (Some (a, o)) end.
Definition find_memory (st : state) (d : layer_device) (h : Z) := lookup (allocations st) d h.
Definition find_buffer (st : state) (d : layer_device) (h : Z) := lookup (buffers st) d h.

Definition set_allocation (st : state) (a : nat) (o : allocation) : state := State (update (allocations st) a o) (buffers st) (next_generation st).
Definition set_buffer (st : state) (a : nat) (o : buffer) : state := State (allocations st) (update (buffers st) a o) (next_generation st).

(** ** Metadata for other passes *)

Definition buffer_size (st : state) (d : layer_device) (h : Z) : outcome (Z * Z) :=
  let! b := find_buffer st d h in
  Ok match b with Some (_, b) => (VK_SUCCESS, logical_size b) | None => (VK_ERROR_INITIALIZATION_FAILED, 0) end.

(** The memory a buffer is bound to, when the handle still names that allocation. *)
Definition memory_of (st : state) (d : layer_device) (b : option (nat * buffer)) : outcome (option (nat * allocation)) :=
  match b with Some (_, b) => find_memory st d (b_memory b) | None => Ok None end.

(** The descriptor range, or no range. *)
Definition storage_buffer (st : state) (d : layer_device) (h offset size : Z) : outcome (Z * option (Z * Z * Z)) :=
  let fail := Ok (VK_ERROR_FEATURE_NOT_PRESENT, None) in
  let! b := find_buffer st d h in
  let! a := memory_of st d b in
  match b, a with
  | Some (_, b), Some (_, a) =>
      if negb (has (usage b) USAGE_STORAGE) || (memory_generation b =? 0) || negb (a_generation a =? memory_generation b) ||
         (a_size a <? b_offset b) || (a_size a - b_offset b <? b_size b) || (b_size b <=? offset) then fail else
      let size := if size =? VK_WHOLE_SIZE then b_size b - offset else size in
      if (size =? 0) || (b_size b - offset <? size) then fail else Ok (VK_SUCCESS, Some (h, offset, size))
  | _, _ => fail
  end.

(** ** Records of allocations and mappings *)

Definition changed_upload_mapping (a : allocation) : allocation :=
  Allocation (a_device a) (a_device_generation a) (a_generation a) (if upload_revision a =? UINT64_MAX then upload_revision a else upload_revision a + 1)
    (a_memory a) (a_size a) (atom a) (map_offset a) (map_size a) (properties a) (mapped a) (a_allocator a).
Definition with_mapping (a : allocation) (m : bool) (offset size : Z) : allocation :=
  Allocation (a_device a) (a_device_generation a) (a_generation a) (upload_revision a) (a_memory a) (a_size a) (atom a) offset size (properties a) m (a_allocator a).

(** The generations of the allocations whose mapping or cache state changed, last one first. *)
Fixpoint explicit_loop (st : state) (d : layer_device) (ranges : list Z) : outcome (state * list Z) :=
  match ranges with
  | [] => Ok (st, [])
  | h :: ranges =>
      let! a := find_memory st d h in
      match a with
      | Some (p, a) => let! (st, gs) := explicit_loop (set_allocation st p (changed_upload_mapping a)) d ranges in Ok (st, gs ++ [a_generation a])
      | None => explicit_loop st d ranges
      end
  end.
Definition explicit_cache_change (st : state) (d : option layer_device) (ranges : list Z) : outcome (state * list Z) :=
  match d with
  | Some d => if has (policy d) HOST_UPLOAD_FLUSH then explicit_loop st d ranges else Ok (st, [])
  | None => Ok (st, [])
  end.

(** The first section of [allocate_memory]: the record the thread keeps, or an error. *)
Definition allocate_begin (st : state) (d : option layer_device) (physical alloc : bool) (size index nonCoherentAtomSize : Z) (types : list Z) (allocator : option Z) : state * (allocation + Z) :=
  match d, physical with
  | Some d, true =>
      if negb alloc then (st, inr VK_ERROR_OUT_OF_HOST_MEMORY) else
      if next_generation st =? UINT64_MAX then (st, inr VK_ERROR_OUT_OF_HOST_MEMORY) else
      let g := next_generation st + 1 in
      (State (allocations st) (buffers st) g,
       inl (Allocation (handle d) (generation d) g 0 0 size nonCoherentAtomSize 0 0 (default 0 (types !! Z.to_nat index)) false allocator))
  | _, _ => (st, inr VK_ERROR_INITIALIZATION_FAILED)
  end.
Definition with_memory (a : allocation) (h : Z) : allocation :=
  Allocation (a_device a) (a_device_generation a) (a_generation a) (upload_revision a) h (a_size a) (atom a) (map_offset a) (map_size a) (properties a) (mapped a) (a_allocator a).
(** The second section, with the driver's answer: the handle or the error. *)
Definition allocate_end (st : state) (a : allocation) (answer : Z + Z) : outcome (state * Z) :=
  match answer with
  | inr e => Ok (st, e)
  | inl h => let! r := link (allocations st) (with_memory a h) in Ok (State r (buffers st) (next_generation st), VK_SUCCESS)
  end.

Definition free_memory (st : state) (device h : Z) : outcome (state * option allocation) :=
  let! (r, o) := remove (allocations st) device h in Ok (State r (buffers st) (next_generation st), o).

Definition map_memory (st : state) (d : option layer_device) (h offset size result : Z) : outcome (state * list Z) :=
  match d with
  | Some d =>
      if negb (result =? VK_SUCCESS) then Ok (st, []) else
      let! a := find_memory st d h in
      match a with
      | Some (p, a) => Ok (set_allocation st p (with_mapping (changed_upload_mapping a) true offset (if size =? VK_WHOLE_SIZE then u64 (a_size a - offset) else size)), [a_generation a])
      | None => Ok (st, [])
      end
  | None => Ok (st, [])
  end.
Definition unmap_memory (st : state) (d : option layer_device) (h : Z) : outcome (state * list Z) :=
  match d with
  | Some d =>
      let! a := find_memory st d h in
      match a with
      | Some (p, a) => Ok (set_allocation st p (with_mapping (changed_upload_mapping a) false (map_offset a) (map_size a)), [a_generation a])
      | None => Ok (st, [])
      end
  | None => Ok (st, [])
  end.

(** ** Records of buffers *)

(** [flags2] is the usage of a [VkBufferUsageFlags2CreateInfo] in the chain. *)
Definition buffer_usage (d : layer_device) (flags2 : option Z) (u : Z) : Z + Z :=
  if negb (maintenance5 d) then inl u else
  match flags2 with
  | None => inl u
  | Some f => if 2 ^ 32 - 1 <? f then inr VK_ERROR_FEATURE_NOT_PRESENT else inl f
  end.

(** The first section of [create_buffer]: the record and the size and usage given to the driver. *)
Definition create_begin (st : state) (d : option layer_device) (alloc polygon : bool) (flags2 : option Z) (flags u size : Z) (allocator : option Z) : state * (buffer + Z) :=
  match d with
  | None => (st, inr VK_ERROR_INITIALIZATION_FAILED)
  | Some d =>
      match buffer_usage d flags2 u with
      | inr e => (st, inr e)
      | inl u =>
          let widened := has u USAGE_INDEX && negb (has flags SPARSE_OR_PROTECTED) && polygon && (size <=? UINT64_MAX - 3) in
          let u := if widened then Z.lor u USAGE_STORAGE else u in
          let translated := if widened then Z.land (size + 3) (UINT64_MAX - 3) else size in
          if negb alloc then (st, inr VK_ERROR_OUT_OF_HOST_MEMORY) else
          if next_generation st =? UINT64_MAX then (st, inr VK_ERROR_OUT_OF_HOST_MEMORY) else
          let g := next_generation st + 1 in
          (State (allocations st) (buffers st) g, inl (Buffer (handle d) (generation d) g 0 0 0 0 0 translated size 0 u allocator))
      end
  end.
Definition with_handle (b : buffer) (h : Z) : buffer :=
  Buffer (b_device b) (b_device_generation b) (b_generation b) (memory_generation b) (upload_epoch b) (buffer_revision b) h (b_memory b) (b_size b) (logical_size b) (b_offset b) (usage b) (b_allocator b).
Definition create_end (st : state) (b : buffer) (answer : Z + Z) : outcome (state * Z) :=
  match answer with
  | inr e => Ok (st, e)
  | inl h => let! r := link (buffers st) (with_handle b h) in Ok (State (allocations st) r (next_generation st), VK_SUCCESS)
  end.
Definition destroy_buffer (st : state) (device h : Z) : outcome (state * option buffer) :=
  let! (r, o) := remove (buffers st) device h in Ok (State (allocations st) r (next_generation st), o).

Definition bound_to (b : buffer) (memory offset g : Z) : buffer :=
  Buffer (b_device b) (b_device_generation b) (b_generation b) g 0 (buffer_revision b) (b_handle b) memory (b_size b) (logical_size b) offset (usage b) (b_allocator b).
Definition bound (st : state) (d : option layer_device) (h memory offset : Z) : outcome state :=
  match d with
  | None => Ok st
  | Some d =>
      let! a := find_memory st d memory in
      let! b := find_buffer st d h in
      Ok match b with
         | Some (p, b) => set_buffer st p (bound_to b memory offset (match a with Some (_, a) => a_generation a | None => 0 end))
         | None => st
         end
  end.
Definition bind_buffer (st : state) (d : option layer_device) (h memory offset result : Z) : outcome state :=
  if result =? VK_SUCCESS then bound st d h memory offset else Ok st.
(** The device is looked up for each element. *)
Fixpoint bind_buffers (st : state) (infos : list (option layer_device * Z * Z * Z)) (result : Z) : outcome state :=
  match infos with
  | [] => Ok st
  | (d, h, memory, offset) :: infos => let! st := bind_buffer st d h memory offset result in bind_buffers st infos result
  end.

Definition release_device (st : state) (device : Z) : outcome (state * list allocation * list buffer) :=
  let! (al, freed) := release (allocations st) device (owned (allocations st)) in
  let! (bl, freed') := release (buffers st) device (owned (buffers st)) in
  Ok (State al bl (next_generation st), freed, freed').

(** ** Ranges in whole atoms *)

(** [begin] and [end] of a byte range, rounded outwards within the allocation. *)
Definition round_down (a : allocation) (b : Z) : Z := u64 (b - b mod atom a).
Definition round_up (a : allocation) (e : Z) : Z :=
  let padding := if e mod atom a =? 0 then 0 else u64 (atom a - e mod atom a) in
  u64 (e + if padding <? u64 (a_size a - e) then padding else u64 (a_size a - e)).
Definition in_mapping (a : allocation) (b e : Z) : bool := negb ((b <? map_offset a) || (u64 (map_offset a + map_size a) <? e)).

(** ** Uploads *)

Record flush := Flush { f_device : layer_device; f_source : Z; f_epoch : Z; f_buffer_generation : Z; f_memory_generation : Z; f_revision : Z; f_buffer_offset : Z; f_memory : Z; f_begin : Z; f_length : Z }.

(** Nothing to do, an error for the command buffer, a flush of this recording that is still good, or a flush. *)
Inductive decision := Nothing | Reject (e : Z) | Reuse (b : buffer) (a : allocation) | Do (f : flush).

Definition host_usage (kind : Z) : Z := if kind =? 2 then USAGE_INDIRECT else if kind =? 1 then Z.lor USAGE_VERTEX USAGE_TRANSFER_DST else USAGE_TRANSFER_SRC.

Definition flush_decide (st : state) (d : layer_device) (source kind : Z) : outcome decision :=
  if negb (has (policy d) HOST_UPLOAD_FLUSH) then Ok Nothing else
  let epoch := if kind =? 1 then recording_epoch d else 0 in
  let! b := find_buffer st d source in
  match b with
  | None => Ok (Reject VK_ERROR_INITIALIZATION_FAILED)
  | Some (_, b) =>
      if negb (usage b =? host_usage kind) then Ok Nothing else
      let! a := find_memory st d (b_memory b) in
      match a with
      | None => Ok (Reject VK_ERROR_INITIALIZATION_FAILED)
      | Some (_, a) =>
          if (memory_generation b =? 0) || negb (a_generation a =? memory_generation b) then Ok (Reject VK_ERROR_INITIALIZATION_FAILED) else
          if negb (mapped a && negb (has (properties a) HOST_COHERENT)) then Ok Nothing else
          if (atom a =? 0) || (a_size a <? b_offset b) || (a_size a - b_offset b <? b_size b) then Ok (Reject VK_ERROR_MEMORY_MAP_FAILED) else
          let begin := round_down a (b_offset b) in
          let end_ := round_up a (u64 (b_offset b + b_size b)) in
          if negb (in_mapping a begin end_) then Ok (Reject VK_ERROR_MEMORY_MAP_FAILED) else
          if negb (epoch =? 0) && negb (upload_revision a =? UINT64_MAX) && (upload_epoch b =? epoch) && (buffer_revision b =? upload_revision a) then Ok (Reuse b a) else
          if a_memory a =? 0 then Ok Nothing else
          Ok (Do (Flush d source epoch (b_generation b) (a_generation a) (upload_revision a) (b_offset b) (a_memory a) begin (u64 (end_ - begin))))
      end
  end.

Definition with_upload (b : buffer) (epoch revision : Z) : buffer :=
  Buffer (b_device b) (b_device_generation b) (b_generation b) (memory_generation b) epoch revision (b_handle b) (b_memory b) (b_size b) (logical_size b) (b_offset b) (usage b) (b_allocator b).
(** The section after a successful flush. *)
Definition flush_publish (st : state) (f : flush) : outcome state :=
  let! b := find_buffer st (f_device f) (f_source f) in
  let! a := find_memory st (f_device f) (f_memory f) in
  match b, a with
  | Some (p, b), Some (_, a) =>
      Ok (if (b_generation b =? f_buffer_generation f) && (b_memory b =? f_memory f) && (b_offset b =? f_buffer_offset f) && (memory_generation b =? f_memory_generation f) &&
             (a_generation a =? f_memory_generation f) && (upload_revision a =? f_revision f) && mapped a
          then set_buffer st p (with_upload b (f_epoch f) (f_revision f))
          else st)
  | _, _ => Ok st
  end.

(** ** Readback *)

Record readback_range := Range { r_memory : Z; r_generation : Z; r_offset : Z; r_size : Z }.
Definition no_range : readback_range := Range 0 0 0 0.

Definition readback (st : state) (d : layer_device) (h offset size : Z) : outcome (Z * readback_range) :=
  if negb (has (policy d) HOST_READBACK_INVALIDATE) then Ok (VK_SUCCESS, no_range) else
  let! b := find_buffer st d h in
  let! a := memory_of st d b in
  match b, a with
  | Some (_, b), Some (_, a) =>
      if negb (usage b =? USAGE_TRANSFER_DST) || negb (a_generation a =? memory_generation b) || negb (mapped a) || has (properties a) HOST_COHERENT then Ok (VK_SUCCESS, no_range) else
      if b_size b <? offset then Ok (VK_ERROR_MEMORY_MAP_FAILED, no_range) else
      let size := if size =? VK_WHOLE_SIZE then b_size b - offset else size in
      if (atom a =? 0) || (b_size b - offset <? size) || (a_size a <? b_offset b) || (a_size a - b_offset b <? b_size b) then Ok (VK_ERROR_MEMORY_MAP_FAILED, no_range) else
      if size =? 0 then Ok (VK_SUCCESS, no_range) else
      let first := u64 (b_offset b + offset) in
      let begin := round_down a first in
      let end_ := round_up a (u64 (first + size)) in
      if negb (in_mapping a begin end_) then Ok (VK_ERROR_MEMORY_MAP_FAILED, no_range)
      else Ok (VK_SUCCESS, Range (a_memory a) (a_generation a) begin (u64 (end_ - begin)))
  | _, _ => Ok (VK_SUCCESS, no_range)
  end.

(** The result, and the range given to [invalidate_memory] when there is one. *)
Definition invalidate (st : state) (d : layer_device) (r : readback_range) : outcome (Z * option (Z * Z * Z)) :=
  let! a := find_memory st d (r_memory r) in
  match a with
  | Some (_, a) =>
      if (a_generation a =? r_generation r) && mapped a then
        let limit := u64 (map_offset a + map_size a) in
        if (r_offset r <? map_offset a) || (limit <? r_offset r) || (u64 (limit - r_offset r) <? r_size r) then Ok (VK_ERROR_MEMORY_MAP_FAILED, None)
        else Ok (VK_SUCCESS, if a_memory a =? 0 then None else Some (a_memory a, r_offset r, r_size r))
      else Ok (VK_SUCCESS, None)
  | None => Ok (VK_SUCCESS, None)
  end.

(** ** The calls that upload *)

(** A whole [flush_upload] without interference: the errors given to the command buffer and the flushes made. *)
Definition flush_upload (st : state) (d : layer_device) (source kind answer : Z) : outcome (state * list Z * list flush) :=
  let! c := flush_decide st d source kind in
  match c with
  | Nothing | Reuse _ _ => Ok (st, [], [])
  | Reject e => Ok (st, [e], [])
  | Do f => if negb (answer =? VK_SUCCESS) then Ok (st, [answer], [f]) else
            if f_epoch f =? 0 then Ok (st, [], [f]) else let! st := flush_publish st f in Ok (st, [], [f])
  end.

(** [answers] are the results of the flushes of the buffers in turn. *)
Fixpoint bind_vertices (st : state) (d : layer_device) (handles answers : list Z) : outcome (state * list Z * list flush) :=
  match handles with
  | [] => Ok (st, [], [])
  | h :: handles =>
      if h =? 0 then bind_vertices st d handles answers else
      let answer := default VK_SUCCESS (answers !! 0%nat) in
      let! (st, es, fs) := flush_upload st d h 1 answer in
      let! (st, es', fs') := bind_vertices st d handles (drop 1 answers) in Ok (st, es ++ es', fs ++ fs')
  end.
Definition copy_buffer_image (st : state) (d : layer_device) (source answer : Z) : outcome (state * list Z * list flush) := flush_upload st d source 0 answer.
Definition draw_indirect (st : state) (d : layer_device) (source count answer : Z) : outcome (state * list Z * list flush) :=
  if count =? 0 then Ok (st, [], []) else flush_upload st d source 2 answer.

(** ** All threads *)

(** What happened so far, most recent first: buffers created with their size, changes of a mapping or of its cache, flushes. *)
Inductive event := Created (g size : Z) | Changed (g : Z) | Flushed (f : flush) | Failed (e : Z).

(** The records of threads that wait for the driver, flushes under way and flushes not yet published. *)
Record sys := Sys { st : state; new_allocations : list allocation; new_buffers : list buffer; flushing : list flush; flushed : list flush; log : list event }.
Definition start : sys := Sys initial [] [] [] [] [].

Inductive op :=
  | OAllocate (d : option layer_device) (physical alloc : bool) (size index atom : Z) (types : list Z) (allocator : option Z) | OAllocated (k : nat) (answer : Z + Z)
  | OFree (device h : Z) | OMap (d : option layer_device) (h offset size result : Z) | OUnmap (d : option layer_device) (h : Z) | OExplicit (d : option layer_device) (ranges : list Z)
  | OCreate (d : option layer_device) (alloc polygon : bool) (flags2 : option Z) (flags u size : Z) (allocator : option Z) | OCreated (k : nat) (answer : Z + Z)
  | ODestroy (device h : Z) | OBind (d : option layer_device) (h memory offset result : Z) | ORelease (device : Z)
  | OUpload (d : layer_device) (source kind : Z) | OFlush (k : nat) (result : Z) | OPublish (k : nat).

Definition with_st (s : sys) (x : state) (es : list event) : sys := Sys x (new_allocations s) (new_buffers s) (flushing s) (flushed s) (es ++ log s).

Definition step (s : sys) (o : op) : outcome sys :=
  match o with
  | OAllocate d physical alloc size index atom types allocator =>
      let (x, r) := allocate_begin (st s) d physical alloc size index atom types allocator in
      Ok match r with inl a => Sys x (a :: new_allocations s) (new_buffers s) (flushing s) (flushed s) (log s) | inr _ => with_st s x [] end
  | OAllocated k answer =>
      match new_allocations s !! k with
      | None => Ok s
      | Some a => let! (x, _) := allocate_end (st s) a answer in Ok (Sys x (delete k (new_allocations s)) (new_buffers s) (flushing s) (flushed s) (log s))
      end
  | OFree device h => let! (x, _) := free_memory (st s) device h in Ok (with_st s x [])
  | OMap d h offset size result => let! (x, gs) := map_memory (st s) d h offset size result in Ok (with_st s x (Changed <$> gs))
  | OUnmap d h => let! (x, gs) := unmap_memory (st s) d h in Ok (with_st s x (Changed <$> gs))
  | OExplicit d ranges => let! (x, gs) := explicit_cache_change (st s) d ranges in Ok (with_st s x (Changed <$> gs))
  | OCreate d alloc polygon flags2 flags u size allocator =>
      let (x, r) := create_begin (st s) d alloc polygon flags2 flags u size allocator in
      Ok match r with inl b => Sys x (new_allocations s) (b :: new_buffers s) (flushing s) (flushed s) (Created (b_generation b) (b_size b) :: log s) | inr _ => with_st s x [] end
  | OCreated k answer =>
      match new_buffers s !! k with
      | None => Ok s
      | Some b => let! (x, _) := create_end (st s) b answer in Ok (Sys x (new_allocations s) (delete k (new_buffers s)) (flushing s) (flushed s) (log s))
      end
  | ODestroy device h => let! (x, _) := destroy_buffer (st s) device h in Ok (with_st s x [])
  | OBind d h memory offset result => let! x := bind_buffer (st s) d h memory offset result in Ok (with_st s x [])
  | ORelease device => let! (x, _, _) := release_device (st s) device in Ok (with_st s x [])
  | OUpload d source kind =>
      let! c := flush_decide (st s) d source kind in
      Ok match c with
         | Nothing | Reuse _ _ => s
         | Reject e => with_st s (st s) [Failed e]
         | Do f => Sys (st s) (new_allocations s) (new_buffers s) (f :: flushing s) (flushed s) (log s)
         end
  | OFlush k result =>
      match flushing s !! k with
      | None => Ok s
      | Some f =>
          let rest := delete k (flushing s) in
          Ok (if result =? VK_SUCCESS then Sys (st s) (new_allocations s) (new_buffers s) rest (if f_epoch f =? 0 then flushed s else f :: flushed s) (Flushed f :: log s)
              else Sys (st s) (new_allocations s) (new_buffers s) rest (flushed s) (Failed result :: log s))
      end
  | OPublish k =>
      match flushed s !! k with
      | None => Ok s
      | Some f => let! x := flush_publish (st s) f in Ok (Sys x (new_allocations s) (new_buffers s) (flushing s) (delete k (flushed s)) (log s))
      end
  end.
Fixpoint run (s : sys) (os : list op) : outcome sys := match os with [] => Ok s | o :: os => let! s := step s o in run s os end.

(** Sizes and offsets are 64-bit values. *)
Definition op_ok (o : op) : Prop :=
  match o with
  | OAllocate _ _ _ size _ atom _ _ => in_range 64 size /\ in_range 64 atom
  | OCreate _ _ _ _ _ _ size _ => in_range 64 size
  | OBind _ _ _ offset _ => in_range 64 offset
  | _ => True
  end.

(** ** Ranges *)

Definition covers (f : flush) (offset size : Z) : Prop := f_begin f <= offset /\ offset + size <= f_begin f + f_length f.

Lemma round_down_ok a b : 0 < atom a -> in_range 64 b -> 0 <= round_down a b <= b /\ round_down a b mod atom a = 0.
Proof.
  intros Ha Hb. unfold round_down, in_range in *. pose proof (Z.mod_pos_bound b (atom a) Ha). pose proof (Z.mod_le b (atom a)). rewrite wrap_small by (unfold in_range; lia). split; [lia|].
  replace (b - b mod atom a) with (atom a * (b / atom a)) by (pose proof (Z.div_mod b (atom a)); lia). rewrite Z.mul_comm. apply Z.mod_mul. lia.
Qed.

Lemma round_up_ok a e : 0 < atom a < 2 ^ 64 -> 0 <= e <= a_size a -> a_size a < 2 ^ 64 -> e <= round_up a e <= a_size a /\ (round_up a e mod atom a = 0 \/ round_up a e = a_size a).
Proof.
  intros Ha He Hs. unfold round_up. pose proof (Z.mod_pos_bound e (atom a) (proj1 Ha)) as Hm. rewrite (wrap_small 64 (a_size a - e)) by (unfold in_range; lia). destruct (Z.eqb_spec (e mod atom a) 0) as [E|E].
  - destruct (Z.ltb_spec 0 (a_size a - e)); rewrite wrap_small by (unfold in_range; lia); [|lia]. rewrite Z.add_0_r. lia.
  - rewrite (wrap_small 64 (atom a - e mod atom a)) by (unfold in_range; lia). destruct (Z.ltb_spec (atom a - e mod atom a) (a_size a - e)); rewrite wrap_small by (unfold in_range; lia); [|lia].
    split; [lia|]. left. replace (e + (atom a - e mod atom a)) with ((e / atom a + 1) * atom a) by (pose proof (Z.div_mod e (atom a)); lia). apply Z.mod_mul. lia.
Qed.

(** A rounded range: whole atoms or up to the end of the allocation, inside the mapping and around the bytes. *)
Record good_range (a : allocation) (first last begin size : Z) : Prop := {
  g_around : 0 <= begin <= first /\ 0 <= size /\ last <= begin + size <= a_size a;
  g_begin : begin mod atom a = 0;
  g_end : (begin + size) mod atom a = 0 \/ begin + size = a_size a;
  g_mapped : map_offset a <= begin /\ begin + size <= u64 (map_offset a + map_size a) }.

Lemma rounded_ok a first last : in_range 64 (atom a) -> atom a <> 0 -> a_size a < 2 ^ 64 -> 0 <= first <= last -> last <= a_size a -> in_mapping a (round_down a first) (round_up a last) = true ->
  good_range a first last (round_down a first) (u64 (round_up a last - round_down a first)).
Proof.
  intros Ha Hz Hs Hf Hl Hm. unfold in_range in Ha. destruct (round_down_ok a first) as [D1 D2]; [lia|unfold in_range; lia|]. destruct (round_up_ok a last) as [U1 U2]; [lia|lia|lia|].
  rewrite wrap_small by (unfold in_range; lia). unfold in_mapping in Hm. apply negb_true_iff, orb_false_iff in Hm as [M1 M2]. apply Z.ltb_ge in M1, M2.
  assert (round_down a first + (round_up a last - round_down a first) = round_up a last) as E by lia. constructor; rewrite ?E; auto; lia.
Qed.

(** ** What every reachable state satisfies *)

Definition is_change (g : Z) (e : event) : bool := match e with Changed g' => g' =? g | _ => false end.
Definition changes (g : Z) (es : list event) : Z := Z.of_nat (length (List.filter (is_change g) es)).

Lemma changes_app g l k : changes g (l ++ k) = changes g l + changes g k.
Proof. unfold changes. rewrite List.filter_app, length_app. lia. Qed.

Lemma changes_nonneg g l : 0 <= changes g l.
Proof. unfold changes. lia. Qed.

Lemma changes_none g l : changes g l = 0 -> Changed g ∉ l.
Proof.
  unfold changes. intros H Hin. apply list_elem_of_In in Hin. assert (In (Changed g) (List.filter (is_change g) l)) as Hf by (apply List.filter_In; split; [assumption|apply Z.eqb_refl]).
  destruct (List.filter _ l); [destruct Hf|cbn in H; lia].
Qed.

(** The revision of an allocation counts the changes of its mapping, up to saturation. *)
Record aok (next : Z) (es : list event) (a : allocation) : Prop := {
  a_gen : 1 <= a_generation a <= next;
  a_rev : upload_revision a = Z.min UINT64_MAX (changes (a_generation a) es);
  a_fits : in_range 64 (a_size a) /\ in_range 64 (atom a) }.

(** A flush in the past, with at least [rev] changes of its memory before it. *)
Definition flushed_before (es : list event) (f : flush) (rev : Z) : Prop :=
  exists newer older, es = newer ++ Flushed f :: older /\ (rev <> UINT64_MAX -> rev <= changes (f_memory_generation f) older).

(** The flush that a buffer's epoch stands for. *)
Definition flushed_for (es : list event) (b : buffer) : Prop :=
  exists f, flushed_before es f (buffer_revision b) /\ f_epoch f = upload_epoch b /\ f_memory_generation f = memory_generation b /\ covers f (b_offset b) (b_size b).

Record bok (es : list event) (b : buffer) : Prop := {
  b_made : Created (b_generation b) (b_size b) ∈ es;
  b_fits : in_range 64 (b_size b) /\ in_range 64 (b_offset b);
  b_epoch : upload_epoch b <> 0 -> flushed_for es b }.

Definition fok (es : list event) (f : flush) : Prop :=
  exists size, Created (f_buffer_generation f) size ∈ es /\ covers f (f_buffer_offset f) size /\ (f_revision f <> UINT64_MAX -> f_revision f <= changes (f_memory_generation f) es).
Definition fdone (es : list event) (f : flush) : Prop :=
  exists size, Created (f_buffer_generation f) size ∈ es /\ covers f (f_buffer_offset f) size /\ flushed_before es f (f_revision f).

Definition contents {R} `{Keyed R} (r : registry R) : list R := (map_to_list (objects r)).*2.

Record inv (s : sys) : Prop := {
  v_allocations : rinv (allocations (st s));
  v_buffers : rinv (buffers (st s));
  v_next : 0 <= next_generation (st s);
  v_distinct : NoDup (a_generation <$> contents (allocations (st s)) ++ new_allocations s);
  v_aok : forall a, a ∈ contents (allocations (st s)) ++ new_allocations s -> aok (next_generation (st s)) (log s) a;
  v_bok : forall b, b ∈ contents (buffers (st s)) ++ new_buffers s -> bok (log s) b;
  v_fok : forall f, f ∈ flushing s -> fok (log s) f;
  v_fdone : forall f, f ∈ flushed s -> fdone (log s) f;
  v_future : forall g, next_generation (st s) < g -> changes g (log s) = 0;
  v_past : forall g size, Created g size ∈ log s -> g <= next_generation (st s);
  v_sizes : forall g n m, Created g n ∈ log s -> Created g m ∈ log s -> n = m }.

(** *** The past stays *)

Lemma flushed_before_grow e es f rev : flushed_before es f rev -> flushed_before (e :: es) f rev.
Proof. intros (newer & older & -> & H). now exists (e :: newer), older. Qed.

Lemma bok_grow e es b : bok es b -> bok (e :: es) b.
Proof. intros [H1 H2 H3]. split; [now right|assumption|]. intros (f & Hf & H)%H3. exists f. split; [now apply flushed_before_grow|assumption]. Qed.

Lemma fok_grow e es f : fok es f -> fok (e :: es) f.
Proof. intros (n & H1 & H2 & H3). exists n. split; [now right|]. split; [assumption|]. intros Hr. specialize (H3 Hr). pose proof (changes_app (f_memory_generation f) [e] es) as E. cbn [app] in E. pose proof (changes_nonneg (f_memory_generation f) [e]). lia. Qed.

Lemma fdone_grow e es f : fdone es f -> fdone (e :: es) f.
Proof. intros (n & H1 & H2 & H3). exists n. split; [now right|]. split; [assumption|]. now apply flushed_before_grow. Qed.

Lemma aok_grow e next es a : aok next es a -> is_change (a_generation a) e = false -> aok next (e :: es) a.
Proof. intros [H1 H2 H3] He. split; [assumption| |assumption]. rewrite H2. unfold changes. cbn [List.filter]. now rewrite He. Qed.

(** *** Contents of a registry *)

Section Contents.
Context {R : Type} `{Keyed R}.

Lemma records_lookup (r : registry R) a o : objects r !! a = Some o -> o ∈ contents r.
Proof. intros Ho. unfold contents. apply list_elem_of_fmap. exists (a, o). split; [reflexivity|now apply elem_of_map_to_list]. Qed.

Lemma contents_in (r : registry R) o : o ∈ contents r -> exists a, objects r !! a = Some o.
Proof. unfold contents. intros ([a x] & -> & Ha)%list_elem_of_fmap. exists a. now apply elem_of_map_to_list in Ha. Qed.

Lemma contents_insert (r r' : registry R) a o : objects r !! a = None -> objects r' = <[a := o]> (objects r) -> contents r' ≡ₚ o :: contents r.
Proof. intros Hn E. unfold contents. rewrite E, map_to_list_insert by assumption. reflexivity. Qed.

Lemma records_update (r : registry R) a o o' : objects r !! a = Some o -> exists rest, contents r ≡ₚ o :: rest /\ contents (update r a o') ≡ₚ o' :: rest.
Proof.
  intros Ho. exists (map_to_list (delete a (objects r))).*2. unfold contents. cbn [update objects]. split.
  - rewrite <- (map_to_list_delete (objects r) a o Ho). reflexivity.
  - rewrite <- (insert_delete_eq (objects r) a o'), map_to_list_insert by apply lookup_delete_eq. reflexivity.
Qed.

Lemma contents_sub (r r' : registry R) : objects r' ⊆ objects r -> exists rest, contents r ≡ₚ contents r' ++ rest.
Proof. intros Hs. destruct (submseteq_Permutation (contents r') (contents r)) as [rest Hr]; [|exists rest; assumption]. unfold contents. apply fmap_submseteq. now apply map_to_list_submseteq. Qed.

Lemma lookup_ok (r : registry R) d h : rinv r -> exists o, lookup r d h = Ok o /\ match o with Some (a, x) => objects r !! a = Some x /\ same_key (handle d) (generation d) h x = true | None => True end.
Proof.
  intros I. unfold lookup. destruct (find r (handle d) (generation d) h) as [[a|]| |] eqn:E; rewrite reg_find_ok in E by assumption; try discriminate; cbn [obind]; [|exists None; auto].
  injection E as E. destruct (find_meets _ _ _ _ E) as (_ & o & Ho & Hk). unfold deref. rewrite Ho. cbn [of_option obind]. exists (Some (a, o)). auto.
Qed.
End Contents.

(** *** Steps *)

Lemma start_inv : inv start.
Proof.
  assert (forall {R} `{Keyed R}, contents (@empty_registry R) = []) as E by (intros; unfold contents; cbn [empty_registry objects]; now rewrite map_to_list_empty).
  constructor; cbn [start st allocations buffers initial next_generation new_allocations new_buffers flushing flushed log]; rewrite ?E; try apply empty_rinv; try (intros x Hx; now apply not_elem_of_nil in Hx); auto; try lia.
  - constructor.
  - intros g size Hx. now apply not_elem_of_nil in Hx.
  - intros g n m Hx. now apply not_elem_of_nil in Hx.
Qed.

(** Records may go away. *)
Lemma sub_inv s al bl : inv s -> rinv al -> rinv bl -> objects al ⊆ objects (allocations (st s)) -> objects bl ⊆ objects (buffers (st s)) -> inv (with_st s (State al bl (next_generation (st s))) []).
Proof.
  intros I Ra Rb Sa Sb. destruct (contents_sub _ _ Sa) as [ra Pa], (contents_sub _ _ Sb) as [rb Pb]. destruct I. constructor; cbn [with_st st allocations buffers next_generation new_allocations new_buffers flushing flushed log app]; auto.
  - rewrite Pa, <- app_assoc, (Permutation_app_comm ra), app_assoc, fmap_app in v_distinct0. now apply NoDup_app in v_distinct0 as [? _].
  - intros a Ha. apply v_aok0. rewrite Pa, !elem_of_app in *. tauto.
  - intros b Hb. apply v_bok0. rewrite Pb, !elem_of_app in *. tauto.
Qed.

(** A mapping or its cache state changes. *)
Lemma change_inv s p a a' : inv s -> objects (allocations (st s)) !! p = Some a -> bucket_of a' = bucket_of a -> a_generation a' = a_generation a -> a_size a' = a_size a -> atom a' = atom a ->
  upload_revision a' = (if upload_revision a =? UINT64_MAX then upload_revision a else upload_revision a + 1) -> inv (with_st s (set_allocation (st s) p a') [Changed (a_generation a)]).
Proof.
  intros I Ha Hk Hg Hs Ht Hr. destruct (records_update _ p a a' Ha) as (rest & P1 & P2). destruct I. assert (NoDup (a_generation <$> a :: rest ++ new_allocations s)) as Hd by (rewrite P1 in v_distinct0; exact v_distinct0).
  constructor; cbn [with_st set_allocation st allocations buffers next_generation new_allocations new_buffers flushing flushed log app]; auto.
  - now apply (reg_update_ok _ p a).
  - rewrite P2. cbn [app fmap list_fmap] in *. now rewrite Hg.
  - intros x Hx. rewrite P2 in Hx. cbn [app fmap list_fmap] in *. apply NoDup_cons in Hd as [Hd _]. apply elem_of_cons in Hx as [->|Hx].
    + destruct (v_aok0 a) as [A1 A2 [A3 A4]]; [rewrite P1; left|]. constructor; [now rewrite Hg| |now rewrite Hs, Ht]. rewrite Hr, Hg, A2. unfold changes. cbn [List.filter is_change]. rewrite Z.eqb_refl. cbn [length].
      fold (changes (a_generation a) (log s)). destruct (Z.eqb_spec (Z.min UINT64_MAX (changes (a_generation a) (log s))) UINT64_MAX); unfold changes in *; lia.
    + apply aok_grow; [apply v_aok0; rewrite P1; now right|]. cbn [is_change]. apply Z.eqb_neq. intros E. apply Hd. rewrite E. now apply list_elem_of_fmap_2.
  - intros b Hb. now apply bok_grow, v_bok0.
  - intros f Hf. now apply fok_grow, v_fok0.
  - intros f Hf. now apply fdone_grow, v_fdone0.
  - intros g Hgt. unfold changes. cbn [List.filter is_change]. destruct (Z.eqb_spec (a_generation a) g) as [<-|]; [|now apply v_future0]. destruct (v_aok0 a) as [A1 _ _]; [rewrite P1; left|]. lia.
  - intros g n [[=]|H]%elem_of_cons. now apply (v_past0 g n).
  - intros g n m [[=]|H1]%elem_of_cons [[=]|H2]%elem_of_cons. now apply (v_sizes0 g).
Qed.

(** A buffer is bound or published. *)
Lemma buffer_inv s p b b' : inv s -> objects (buffers (st s)) !! p = Some b -> bucket_of b' = bucket_of b -> b_generation b' = b_generation b -> b_size b' = b_size b -> in_range 64 (b_offset b') ->
  (upload_epoch b' <> 0 -> flushed_for (log s) b') -> inv (with_st s (set_buffer (st s) p b') []).
Proof.
  intros I Hb Hk Hg Hs Ho He. destruct (records_update _ p b b' Hb) as (rest & P1 & P2). destruct I.
  constructor; cbn [with_st set_buffer st allocations buffers next_generation new_allocations new_buffers flushing flushed log app]; auto.
  - now apply (reg_update_ok _ p b).
  - intros x Hx. rewrite P2 in Hx. cbn [app] in Hx. apply elem_of_cons in Hx as [->|Hx]; [|apply v_bok0; rewrite P1; now right].
    destruct (v_bok0 b) as [B1 [B2 _] _]; [rewrite P1; left|]. constructor; [now rewrite Hg, Hs|split; [now rewrite Hs|assumption]|assumption].
Qed.

(** Only the lists of the threads and the history change. *)
Lemma event_inv s fl fd e : inv s -> (forall g, is_change g e = false) -> (forall g n, e <> Created g n) -> (forall f, f ∈ fl -> fok (e :: log s) f) -> (forall f, f ∈ fd -> fdone (e :: log s) f) ->
  inv (Sys (st s) (new_allocations s) (new_buffers s) fl fd (e :: log s)).
Proof.
  intros I Hc Hn Hf Hd. destruct I. constructor; cbn [st new_allocations new_buffers flushing flushed log]; auto.
  - intros a Ha. apply aok_grow; auto.
  - intros b Hb. apply bok_grow. auto.
  - intros g Hg. unfold changes. cbn [List.filter]. rewrite Hc. now apply v_future0.
  - intros g n [E|H]%elem_of_cons; [now destruct (Hn g n)|]. now apply (v_past0 g n).
  - intros g n m [E|H1]%elem_of_cons [E'|H2]%elem_of_cons; try (now destruct (Hn g n)); try (now destruct (Hn g m)). now apply (v_sizes0 g).
Qed.

Lemma flushes_inv s fl fd : inv s -> (forall f, f ∈ fl -> fok (log s) f) -> (forall f, f ∈ fd -> fdone (log s) f) -> inv (Sys (st s) (new_allocations s) (new_buffers s) fl fd (log s)).
Proof. intros [] Hf Hd. constructor; auto. Qed.

(** A new generation. *)
Lemma new_allocation_inv s a : inv s -> a_generation a = next_generation (st s) + 1 -> upload_revision a = 0 -> in_range 64 (a_size a) -> in_range 64 (atom a) ->
  inv (Sys (State (allocations (st s)) (buffers (st s)) (next_generation (st s) + 1)) (a :: new_allocations s) (new_buffers s) (flushing s) (flushed s) (log s)).
Proof.
  intros I Hg Hr Hs Ht. destruct I. assert (contents (allocations (st s)) ++ a :: new_allocations s ≡ₚ a :: contents (allocations (st s)) ++ new_allocations s) as P by (symmetry; apply Permutation_middle).
  constructor; cbn [st allocations buffers next_generation new_allocations new_buffers flushing flushed log]; auto; try lia.
  - rewrite P. cbn [fmap list_fmap]. apply NoDup_cons. split; [|assumption]. intros (x & E & Hx)%list_elem_of_fmap. destruct (v_aok0 x Hx). lia.
  - intros x Hx. rewrite P in Hx. apply elem_of_cons in Hx as [->|Hx]; [|destruct (v_aok0 x Hx); constructor; auto; lia].
    constructor; [lia| |auto]. rewrite Hr, v_future0 by lia. reflexivity.
  - intros g Hlt. apply v_future0. lia.
  - intros g n H. specialize (v_past0 g n H). lia.
Qed.

Lemma new_buffer_inv s b : inv s -> b_generation b = next_generation (st s) + 1 -> upload_epoch b = 0 -> in_range 64 (b_size b) -> in_range 64 (b_offset b) ->
  inv (Sys (State (allocations (st s)) (buffers (st s)) (next_generation (st s) + 1)) (new_allocations s) (b :: new_buffers s) (flushing s) (flushed s) (Created (b_generation b) (b_size b) :: log s)).
Proof.
  intros I Hg He Hs Ho. destruct I. assert (contents (buffers (st s)) ++ b :: new_buffers s ≡ₚ b :: contents (buffers (st s)) ++ new_buffers s) as P by (symmetry; apply Permutation_middle).
  constructor; cbn [st allocations buffers next_generation new_allocations new_buffers flushing flushed log]; auto; try lia.
  - intros x Hx. destruct (v_aok0 x Hx). apply aok_grow; [|reflexivity]. constructor; auto; lia.
  - intros x Hx. rewrite P in Hx. apply elem_of_cons in Hx as [->|Hx]; [|now apply bok_grow, v_bok0]. constructor; [left|auto|contradiction].
  - intros f Hf. now apply fok_grow, v_fok0.
  - intros f Hf. now apply fdone_grow, v_fdone0.
  - intros g Hlt. change (changes g (log s) = 0). apply v_future0. lia.
  - intros g n [[= -> ->]|H]%elem_of_cons; [lia|]. specialize (v_past0 g n H). lia.
  - intros g n m [E1|H1]%elem_of_cons [E2|H2]%elem_of_cons; [congruence| | |now apply (v_sizes0 g)]; [injection E1 as -> ->; specialize (v_past0 _ _ H2)|injection E2 as -> ->; specialize (v_past0 _ _ H1)]; lia.
Qed.

(** A thread links the record it has kept; after an error it drops it. *)
Lemma allocated_inv s k a answer : inv s -> new_allocations s !! k = Some a -> exists x r, allocate_end (st s) a answer = Ok (x, r) /\ inv (Sys x (delete k (new_allocations s)) (new_buffers s) (flushing s) (flushed s) (log s)).
Proof.
  intros I Hk. pose proof (delete_Permutation _ _ _ Hk) as P. unfold allocate_end. destruct answer as [h|e].
  - destruct (reg_link_ok (allocations (st s)) (with_memory a h) (v_allocations _ I)) as (r & -> & Ir & Hn & Eo). cbn [obind]. eexists _, _. split; [reflexivity|]. pose proof (contents_insert _ _ _ _ Hn Eo) as C. destruct I.
    constructor; cbn [st allocations buffers next_generation new_allocations new_buffers flushing flushed log]; auto.
    + rewrite C. cbn [app]. rewrite P in v_distinct0. rewrite <- Permutation_middle in v_distinct0. exact v_distinct0.
    + intros x Hx. rewrite C in Hx. cbn [app] in Hx. apply elem_of_cons in Hx as [->|Hx]; [|apply v_aok0; rewrite P, elem_of_app, elem_of_cons in *; tauto].
      destruct (v_aok0 a) as [A1 A2 A3]; [rewrite P, elem_of_app, elem_of_cons; auto|]. now constructor.
  - exists (st s), e. split; [reflexivity|]. destruct I. constructor; cbn [st new_allocations new_buffers flushing flushed log]; auto.
    + rewrite P, <- Permutation_middle in v_distinct0. cbn [fmap list_fmap] in v_distinct0. now apply NoDup_cons in v_distinct0 as [_ ?].
    + intros x Hx. apply v_aok0. rewrite P, elem_of_app, elem_of_cons in *. tauto.
Qed.

Lemma created_inv s k b answer : inv s -> new_buffers s !! k = Some b -> exists x r, create_end (st s) b answer = Ok (x, r) /\ inv (Sys x (new_allocations s) (delete k (new_buffers s)) (flushing s) (flushed s) (log s)).
Proof.
  intros I Hk. pose proof (delete_Permutation _ _ _ Hk) as P. unfold create_end. destruct answer as [h|e].
  - destruct (reg_link_ok (buffers (st s)) (with_handle b h) (v_buffers _ I)) as (r & -> & Ir & Hn & Eo). cbn [obind]. eexists _, _. split; [reflexivity|]. pose proof (contents_insert _ _ _ _ Hn Eo) as C. destruct I.
    constructor; cbn [st allocations buffers next_generation new_allocations new_buffers flushing flushed log]; auto.
    intros x Hx. rewrite C in Hx. cbn [app] in Hx. apply elem_of_cons in Hx as [->|Hx]; [|apply v_bok0; rewrite P, elem_of_app, elem_of_cons in *; tauto].
    destruct (v_bok0 b) as [B1 B2 B3]; [rewrite P, elem_of_app, elem_of_cons; auto|]. now constructor.
  - exists (st s), e. split; [reflexivity|]. destruct I. constructor; cbn [st new_allocations new_buffers flushing flushed log]; auto.
    intros x Hx. apply v_bok0. rewrite P, elem_of_app, elem_of_cons in *. tauto.
Qed.

Lemma with_st_log s x es : log (with_st s x es) = es ++ log s.
Proof. reflexivity. Qed.

Lemma with_same s : with_st s (st s) [] = s.
Proof. now destruct s. Qed.

Lemma find_memory_ok s d h : inv s -> exists o, find_memory (st s) d h = Ok o /\ match o with Some (p, a) => objects (allocations (st s)) !! p = Some a /\ aok (next_generation (st s)) (log s) a | None => True end.
Proof.
  intros I. destruct (lookup_ok (allocations (st s)) d h (v_allocations _ I)) as (o & E & Ho). exists o. split; [exact E|]. destruct o as [[p a]|]; [|exact Logic.I]. destruct Ho as [Ho _]. split; [assumption|].
  apply (v_aok _ I). apply elem_of_app. left. now apply (records_lookup _ p).
Qed.

Lemma find_buffer_ok s d h : inv s -> exists o, find_buffer (st s) d h = Ok o /\ match o with Some (p, b) => objects (buffers (st s)) !! p = Some b /\ bok (log s) b | None => True end.
Proof.
  intros I. destruct (lookup_ok (buffers (st s)) d h (v_buffers _ I)) as (o & E & Ho). exists o. split; [exact E|]. destruct o as [[p b]|]; [|exact Logic.I]. destruct Ho as [Ho _]. split; [assumption|].
  apply (v_bok _ I). apply elem_of_app. left. now apply (records_lookup _ p).
Qed.

Lemma explicit_inv d : forall ranges s, inv s -> exists x gs, explicit_loop (st s) d ranges = Ok (x, gs) /\ inv (with_st s x (Changed <$> gs)).
Proof.
  induction ranges as [|h ranges IH]; intros s I; [exists (st s), []; split; [reflexivity|]; change (inv (with_st s (st s) [])); now rewrite with_same|]. cbn [explicit_loop].
  destruct (find_memory_ok s d h I) as ([[p a]|] & -> & Ha); cbn [obind]; [|now apply IH]. destruct Ha as [Ha _].
  destruct (IH (with_st s (set_allocation (st s) p (changed_upload_mapping a)) [Changed (a_generation a)])) as (x & gs & E & Ix); [now apply (change_inv s p a)|]. cbn [with_st st] in E. rewrite E. cbn [obind].
  eexists _, _. split; [reflexivity|]. unfold with_st in *. cbn [st new_allocations new_buffers flushing flushed log] in Ix. rewrite fmap_app. cbn [fmap list_fmap]. now rewrite <- app_assoc.
Qed.

Lemma bound_inv s d h memory offset : inv s -> in_range 64 offset -> exists x, bound (st s) d h memory offset = Ok x /\ inv (with_st s x []).
Proof.
  intros I Ho. unfold bound. destruct d as [d|]; [|exists (st s); split; [reflexivity|]; now rewrite with_same]. destruct (find_memory_ok s d memory I) as (a & -> & _). destruct (find_buffer_ok s d h I) as (b & -> & Hb). cbn [obind].
  eexists. split; [reflexivity|]. destruct b as [[p b]|]; [|now rewrite with_same]. destruct Hb as [Hb _]. apply (buffer_inv s p b); auto. cbn [bound_to upload_epoch]. contradiction.
Qed.

(** What a decision rests on. *)
Definition decided (s : sys) (d : layer_device) (source kind : Z) (c : decision) : Prop :=
  match c with
  | Do f => exists p q b a, find_buffer (st s) d source = Ok (Some (p, b)) /\ find_memory (st s) d (b_memory b) = Ok (Some (q, a)) /\ a_generation a = memory_generation b /\
      usage b = host_usage kind /\ mapped a = true /\ f_memory_generation f = a_generation a /\ f_memory f = a_memory a /\ good_range a (b_offset b) (b_offset b + b_size b) (f_begin f) (f_length f) /\ fok (log s) f
  | Reuse b a => exists p q, find_buffer (st s) d source = Ok (Some (p, b)) /\ find_memory (st s) d (b_memory b) = Ok (Some (q, a)) /\ a_generation a = memory_generation b /\
      kind = 1 /\ upload_epoch b = recording_epoch d /\ recording_epoch d <> 0 /\ buffer_revision b = upload_revision a /\ upload_revision a <> UINT64_MAX /\ bok (log s) b /\ aok (next_generation (st s)) (log s) a
  | _ => True
  end.

Lemma decide_ok s d source kind : inv s -> exists c, flush_decide (st s) d source kind = Ok c /\ decided s d source kind c.
Proof.
  intros I. unfold flush_decide. destruct (negb (has _ _)); [now exists Nothing|]. destruct (find_buffer_ok s d source I) as ([[p b]|] & Eb & Hb); rewrite Eb; cbn [obind]; [|now eexists]. destruct Hb as [_ Hb].
  destruct (Z.eqb_spec (usage b) (host_usage kind)) as [Hu|Hu]; cbn [negb]; [|now eexists]. destruct (find_memory_ok s d (b_memory b) I) as ([[q a]|] & Ea & Ha); rewrite Ea; cbn [obind]; [|now eexists]. destruct Ha as [_ Ha].
  destruct (memory_generation b =? 0); cbn [orb]; [now eexists|]. destruct (Z.eqb_spec (a_generation a) (memory_generation b)) as [Hg|Hg]; cbn [negb]; [|now eexists].
  destruct (mapped a) eqn:Hm; cbn [andb negb]; [|now eexists]. destruct (negb (negb _)); [now eexists|].
  destruct (Z.eqb_spec (atom a) 0) as [Ht|Ht]; cbn [orb]; [now eexists|]. destruct (Z.ltb_spec (a_size a) (b_offset b)) as [H1|H1]; cbn [orb]; [now eexists|]. destruct (Z.ltb_spec (a_size a - b_offset b) (b_size b)) as [H2|H2]; [now eexists|].
  destruct (a_fits _ _ _ Ha) as [Fs Ft], (b_fits _ _ Hb) as [Gs Go]. unfold in_range in *. rewrite (wrap_small 64 (b_offset b + b_size b)) by (unfold in_range; lia).
  destruct (in_mapping a _ _) eqn:Hr; cbn [negb]; [|now eexists]. assert (good_range a (b_offset b) (b_offset b + b_size b) (round_down a (b_offset b)) (u64 (round_up a (b_offset b + b_size b) - round_down a (b_offset b)))) as G by (apply rounded_ok; auto; unfold in_range; lia).
  destruct (_ && _) eqn:Hc.
  - eexists. split; [reflexivity|]. apply andb_true_iff in Hc as [Hc C4]. apply andb_true_iff in Hc as [Hc C3]. apply andb_true_iff in Hc as [C1 C2]. apply Z.eqb_eq in C3, C4. apply negb_true_iff, Z.eqb_neq in C1, C2.
    exists p, q. destruct (Z.eqb_spec kind 1) as [->|]; [|contradiction]. split_and!; auto.
  - destruct (a_memory a =? 0); [now eexists|]. eexists. split; [reflexivity|]. exists p, q, b, a. cbn [f_memory_generation f_memory f_begin f_length]. split_and!; auto.
    exists (b_size b). cbn [f_buffer_generation f_buffer_offset f_revision f_memory_generation]. split; [apply Hb|]. split; [split; apply (g_around _ _ _ _ _ G)|]. rewrite (a_rev _ _ _ Ha). lia.
Qed.

Lemma publish_inv s k f : inv s -> flushed s !! k = Some f -> exists x, flush_publish (st s) f = Ok x /\ inv (Sys x (new_allocations s) (new_buffers s) (flushing s) (delete k (flushed s)) (log s)).
Proof.
  intros I Hk. assert (forall g, g ∈ delete k (flushed s) -> g ∈ flushed s) as Hd by (intros g Hg; rewrite (delete_Permutation _ _ _ Hk); now right).
  assert (inv (Sys (st s) (new_allocations s) (new_buffers s) (flushing s) (delete k (flushed s)) (log s))) as I' by (apply flushes_inv; auto; intros g Hg; [now apply (v_fok _ I)|now apply (v_fdone _ I), Hd]).
  unfold flush_publish. destruct (find_buffer_ok s (f_device f) (f_source f) I) as (b & -> & Hb). destruct (find_memory_ok s (f_device f) (f_memory f) I) as (a & -> & Ha). cbn [obind].
  destruct b as [[p b]|]; [|eauto]. destruct a as [[q a]|]; [|eauto]. eexists. split; [reflexivity|]. destruct (_ && _) eqn:Hc; [|exact I']. destruct Hb as [Hb [B1 B2 _]].
  repeat match goal with H : (_ && _) = true |- _ => apply andb_true_iff in H as [? ?] end. repeat match goal with H : (_ =? _) = true |- _ => apply Z.eqb_eq in H end.
  refine (buffer_inv _ p b (with_upload b (f_epoch f) (f_revision f)) I' Hb eq_refl eq_refl eq_refl (proj2 B2) _). cbn [with_upload upload_epoch log]. intros _. destruct (v_fdone _ I f) as (n & N1 & N2 & N3); [eapply list_elem_of_lookup_2; eassumption|].
  exists f. cbn [with_upload buffer_revision upload_epoch memory_generation b_offset b_size]. split; [assumption|]. split; [reflexivity|]. split; [congruence|]. assert (n = b_size b) as <- by (apply (v_sizes _ I (b_generation b)); congruence).
  replace (b_offset b) with (f_buffer_offset f) by congruence. assumption.
Qed.

Lemma unchanged s : inv s -> exists s', Ok (with_st s (st s) []) = Ok s' /\ inv s'.
Proof. intros I. exists s. now rewrite with_same. Qed.

Lemma land_range64 x y : 0 <= x -> in_range 64 y -> in_range 64 (Z.land x y).
Proof.
  intros Hx [H1 H2]. pose proof (Z.land_nonneg x y) as Hn. split; [tauto|]. destruct (Z.eq_dec (Z.land x y) 0) as [->|Hz]; [lia|]. assert (0 < Z.land x y) by (destruct Hn as [_ Hn]; specialize (Hn (or_introl Hx)); lia).
  apply Z.log2_lt_pow2; [assumption|]. pose proof (Z.log2_land x y Hx H1). assert (y <> 0) by (intros ->; rewrite Z.land_0_r in Hz; contradiction). assert (Z.log2 y < 64) by (apply Z.log2_lt_pow2; lia). lia.
Qed.

Lemma vis_step_ok s o : inv s -> op_ok o -> exists s', step s o = Ok s' /\ inv s'.
Proof.
  intros I Ho. destruct o as [d physical alloc size index at_ types al|k answer|device h|d h offset size result|d h|d ranges|d alloc polygon flags2 flags u size al|k answer|device h|d h memory offset result|device|d source kind|k result|k]; cbn [step op_ok] in *.
  - unfold allocate_begin. destruct d as [d|]; [|now apply unchanged]. destruct physical; [|now apply unchanged].
    destruct (negb alloc); [now apply unchanged|]. destruct (_ =? _); [now apply unchanged|]. eexists. split; [reflexivity|]. now apply new_allocation_inv.
  - destruct (new_allocations s !! k) as [a|] eqn:Ek; [|eauto]. destruct (allocated_inv s k a answer I Ek) as (x & r & -> & Ix). cbn [obind]. eauto.
  - unfold free_memory. destruct (reg_remove_ok (allocations (st s)) device h (v_allocations _ I)) as (r & o & -> & Ir & Hs). cbn [obind]. eexists. split; [reflexivity|]. apply sub_inv; auto. apply (v_buffers _ I).
  - unfold map_memory. destruct d as [d|]; [|now apply unchanged]. destruct (negb _); [now apply unchanged|].
    destruct (find_memory_ok s d h I) as ([[p a]|] & -> & Ha); cbn [obind]; [|now apply unchanged]. destruct Ha as [Ha _]. eexists. split; [reflexivity|]. now apply (change_inv s p a).
  - unfold unmap_memory. destruct d as [d|]; [|now apply unchanged].
    destruct (find_memory_ok s d h I) as ([[p a]|] & -> & Ha); cbn [obind]; [|now apply unchanged]. destruct Ha as [Ha _]. eexists. split; [reflexivity|]. now apply (change_inv s p a).
  - unfold explicit_cache_change. destruct d as [d|]; [|now apply unchanged]. destruct (has _ _); [|now apply unchanged].
    destruct (explicit_inv d ranges s I) as (x & gs & -> & Ix). cbn [obind]. eauto.
  - unfold create_begin. destruct d as [d|]; [|now apply unchanged]. destruct (buffer_usage _ _ _) as [u'|e]; [|now apply unchanged]. cbv zeta.
    destruct (negb alloc); [now apply unchanged|]. destruct (_ =? UINT64_MAX); [now apply unchanged|]. eexists. split; [reflexivity|]. apply new_buffer_inv; auto; cbn [b_size b_offset].
    + destruct (_ && _); [|assumption]. unfold in_range in Ho. apply land_range64; unfold in_range, UINT64_MAX; lia.
    + unfold in_range. lia.
  - destruct (new_buffers s !! k) as [b|] eqn:Ek; [|eauto]. destruct (created_inv s k b answer I Ek) as (x & r & -> & Ix). cbn [obind]. eauto.
  - unfold destroy_buffer. destruct (reg_remove_ok (buffers (st s)) device h (v_buffers _ I)) as (r & o & -> & Ir & Hs). cbn [obind]. eexists. split; [reflexivity|]. apply sub_inv; auto. apply (v_allocations _ I).
  - unfold bind_buffer. destruct (_ =? _); [|now apply unchanged]. destruct (bound_inv s d h memory offset I Ho) as (x & -> & Ix). cbn [obind]. eauto.
  - unfold release_device. destruct (reg_release_ok device (owned (allocations (st s))) (allocations (st s)) (v_allocations _ I) (r_nodup _ (v_allocations _ I)) (fun _ H => H)) as (ra & fa & -> & Ia & Sa & _).
    destruct (reg_release_ok device (owned (buffers (st s))) (buffers (st s)) (v_buffers _ I) (r_nodup _ (v_buffers _ I)) (fun _ H => H)) as (rb & fb & -> & Ib & Sb & _). cbn [obind]. eexists. split; [reflexivity|]. now apply sub_inv.
  - destruct (decide_ok s d source kind I) as (c & -> & Hc). cbn [obind]. destruct c as [|e|b a|f]; eexists; (split; [reflexivity|]); auto.
    + apply event_inv; auto; try discriminate; intros f Hf; [now apply fok_grow, (v_fok _ I)|now apply fdone_grow, (v_fdone _ I)].
    + apply flushes_inv; auto; [|apply (v_fdone _ I)]. intros g [->|Hg]%elem_of_cons; [now destruct Hc as (p & q & b & a & _ & _ & _ & _ & _ & _ & _ & _ & Hf)|now apply (v_fok _ I)].
  - destruct (flushing s !! k) as [f|] eqn:Ek; [|eauto]. pose proof (delete_Permutation _ _ _ Ek) as P. assert (forall g, g ∈ delete k (flushing s) -> g ∈ flushing s) as Hd by (intros g Hg; rewrite P; now right).
    destruct (_ =? VK_SUCCESS); (eexists; split; [reflexivity|]); apply event_inv; auto; try discriminate; intros g Hg; try (now apply fok_grow, (v_fok _ I), Hd); try (now apply fdone_grow, (v_fdone _ I)).
    destruct (f_epoch f =? 0); [now apply fdone_grow, (v_fdone _ I)|]. apply elem_of_cons in Hg as [->|Hg]; [|now apply fdone_grow, (v_fdone _ I)].
    destruct (v_fok _ I f) as (n & N1 & N2 & N3); [rewrite P; left|]. exists n. split; [now right|]. split; [assumption|]. now exists [], (log s).
  - destruct (flushed s !! k) as [f|] eqn:Ek; [|eauto]. destruct (publish_inv s k f I Ek) as (x & -> & Ix). cbn [obind]. eauto.
Qed.

Lemma vis_run_ok : forall os s, inv s -> Forall op_ok os -> exists s', run s os = Ok s' /\ inv s'.
Proof.
  induction os as [|o os IH]; intros s I Hos; [exists s; auto|]. apply Forall_cons in Hos as [Ho Hos]. cbn [run]. destruct (vis_step_ok s o I Ho) as (s1 & -> & I1). cbn [obind]. now apply IH.
Qed.

Lemma reuse_flushed s d source kind b a : inv s -> decided s d source kind (Reuse b a) ->
  exists f newer older, log s = newer ++ Flushed f :: older /\ f_epoch f = recording_epoch d /\ f_memory_generation f = a_generation a /\ covers f (b_offset b) (b_size b) /\ Changed (a_generation a) ∉ newer.
Proof.
  intros I (p & q & _ & _ & Hg & _ & He & Hz & Hr & Hm & Hb & Ha). destruct (b_epoch _ _ Hb) as (f & (newer & older & E & Hc) & E1 & E2 & E3); [congruence|]. exists f, newer, older. split_and!; auto; try congruence.
  apply changes_none. rewrite E2, <- Hg, Hr in Hc. specialize (Hc Hm). pose proof (a_rev _ _ _ Ha) as Ar. rewrite E, changes_app in Ar. pose proof (changes_app (a_generation a) [Flushed f] older) as Ec. cbn [app] in Ec. rewrite Ec in Ar.
  change (changes (a_generation a) [Flushed f]) with 0 in Ar. pose proof (changes_nonneg (a_generation a) newer). lia.
Qed.

(** C13: under any interleaving of the threads of a program, whatever the driver answers, every section of the layer
    returns.  When a vertex upload is not flushed because this recording has already flushed it, the history has a
    successful flush, in this recording, of a range of the memory the buffer is bound to that contains all its bytes, and
    since then that memory was neither mapped, unmapped nor explicitly flushed or invalidated.  When a flush
    is made, its range contains all bytes of the buffer, consists of whole atoms or ends with the allocation, and lies in
    the allocation and in its recorded mapping, without overflow. *)
Theorem uploads_visible (os : list op) (Hos : Forall op_ok os) :
  exists s, run start os = Ok s /\ forall d source kind, exists c, flush_decide (st s) d source kind = Ok c /\
    match c with
    | Reuse b a => exists f newer older, log s = newer ++ Flushed f :: older /\ kind = 1 /\ f_epoch f = recording_epoch d /\ a_generation a = memory_generation b /\
        f_memory_generation f = a_generation a /\ covers f (b_offset b) (b_size b) /\ Changed (a_generation a) ∉ newer
    | Do f => exists p q b a, find_buffer (st s) d source = Ok (Some (p, b)) /\ find_memory (st s) d (b_memory b) = Ok (Some (q, a)) /\ a_generation a = memory_generation b /\
        mapped a = true /\ f_memory f = a_memory a /\ good_range a (b_offset b) (b_offset b + b_size b) (f_begin f) (f_length f)
    | _ => True
    end.
Proof.
  destruct (vis_run_ok os start start_inv Hos) as (s & Er & I). exists s. split; [assumption|]. intros d source kind. destruct (decide_ok s d source kind I) as (c & -> & Hc). exists c. split; [reflexivity|]. destruct c as [|e|b a|f]; auto.
  - destruct (reuse_flushed s d source kind b a I Hc) as (f & newer & older & H1 & H2 & H3 & H4 & H5). destruct Hc as (p & q & _ & _ & Hg & Hk & _). exists f, newer, older. split_and!; auto.
  - destruct Hc as (p & q & b & a & H1 & H2 & H3 & _ & H5 & _ & H7 & H8 & _). exists p, q, b, a. split_and!; auto.
Qed.

(** A 1000-byte vertex buffer at 100 in a mapped allocation of 4096 bytes with atoms of 64. *)
Definition sample_layer : layer_device := Device 77 1 5 9 false.
Definition sample_ops : list op :=
  [OAllocate (Some sample_layer) true true 4096 1 64 [1; 2] None; OAllocated 0 (inl 500); OCreate (Some sample_layer) true false None 0 0x82 1000 None; OCreated 0 (inl 600);
   OBind (Some sample_layer) 600 500 100 VK_SUCCESS; OMap (Some sample_layer) 500 0 VK_WHOLE_SIZE VK_SUCCESS; OUpload sample_layer 600 1; OFlush 0 VK_SUCCESS; OPublish 0].

Definition brief (c : outcome decision) : option (Z * Z) := match c with Ok (Do f) => Some (f_begin f, f_length f) | Ok (Reuse _ _) => Some (-1, -1) | _ => None end.
Definition sample_decision (n : nat) : option (Z * Z) := match run start (take n sample_ops) with Ok s => brief (flush_decide (st s) sample_layer 600 1) | _ => None end.

Lemma uploads_visible_witness : sample_decision 6 = Some (64, 1088) /\ sample_decision 9 = Some (-1, -1) /\ exists s, run start sample_ops = Ok s /\ exists c, flush_decide (st s) sample_layer 600 1 = Ok c.
Proof.
  split; [vm_compute; reflexivity|]. split; [vm_compute; reflexivity|]. destruct (uploads_visible sample_ops) as (s & E & H).
  - unfold sample_ops. repeat constructor; vm_compute; intuition discriminate.
  - exists s. split; [assumption|]. destruct (H sample_layer 600 1) as (c & Ec & _). exists c. exact Ec.
Defined.

(** *** Readback *)

Lemma found_memory_handle s d h q a : inv s -> find_memory (st s) d h = Ok (Some (q, a)) -> a_memory a = h.
Proof.
  intros I E. destruct (lookup_ok (allocations (st s)) d h (v_allocations _ I)) as (o & E' & Ho). unfold find_memory in E. rewrite E in E'. injection E' as <-. destruct Ho as [_ Hk]. unfold same_key in Hk.
  apply andb_true_iff in Hk as [_ Hk]. now apply Z.eqb_eq in Hk.
Qed.

Lemma readback_ok s d h offset size : inv s -> in_range 64 offset -> in_range 64 size -> exists r range, readback (st s) d h offset size = Ok (r, range) /\
  (range = no_range \/ r = VK_SUCCESS /\ exists p q b a, find_buffer (st s) d h = Ok (Some (p, b)) /\ find_memory (st s) d (b_memory b) = Ok (Some (q, a)) /\ a_generation a = memory_generation b /\
    mapped a = true /\ r_memory range = a_memory a /\ r_generation range = a_generation a /\
    good_range a (b_offset b + offset) (b_offset b + (if size =? VK_WHOLE_SIZE then b_size b else offset + size)) (r_offset range) (r_size range)).
Proof.
  intros I Ho Hs. unfold readback. destruct (negb (has _ _)); [eauto|]. destruct (find_buffer_ok s d h I) as ([[p b]|] & Eb & Hb); rewrite Eb; cbn [obind memory_of]; [|eauto]. destruct Hb as [_ Hb].
  destruct (find_memory_ok s d (b_memory b) I) as ([[q a]|] & Ea & Ha); rewrite Ea; cbn [obind]; [|eauto]. destruct Ha as [_ Ha]. destruct (negb (usage b =? _)); cbn [orb]; [eauto|].
  destruct (Z.eqb_spec (a_generation a) (memory_generation b)) as [Hg|Hg]; cbn [negb orb]; [|eauto]. destruct (mapped a) eqn:Hm; cbn [negb orb]; [|eauto]. destruct (has (properties a) _); [eauto|].
  destruct (Z.ltb_spec (b_size b) offset) as [H0|H0]; [eauto|]. cbv zeta. set (n := if size =? VK_WHOLE_SIZE then b_size b - offset else size). destruct (Z.eqb_spec (atom a) 0) as [Ht|Ht]; cbn [orb]; [eauto|].
  destruct (Z.ltb_spec (b_size b - offset) n) as [H1|H1]; cbn [orb]; [eauto|]. destruct (Z.ltb_spec (a_size a) (b_offset b)) as [H2|H2]; cbn [orb]; [eauto|]. destruct (Z.ltb_spec (a_size a - b_offset b) (b_size b)) as [H3|H3]; [eauto|].
  destruct (n =? 0); [eauto|]. destruct (a_fits _ _ _ Ha) as [Fs Ft], (b_fits _ _ Hb) as [Gs Go]. unfold in_range in *. assert (0 <= n) as Hn by (unfold n; destruct (size =? VK_WHOLE_SIZE); lia).
  rewrite (wrap_small 64 (b_offset b + offset)), (wrap_small 64 (b_offset b + offset + n)) by (unfold in_range; lia). destruct (in_mapping a _ _) eqn:Hr; cbn [negb]; [|eauto]. eexists _, _. split; [reflexivity|]. right. split; [reflexivity|].
  exists p, q, b, a. cbn [r_memory r_generation r_offset r_size]. split_and!; auto.
  replace (b_offset b + (if size =? VK_WHOLE_SIZE then b_size b else offset + size)) with (b_offset b + offset + n) by (unfold n; destruct (size =? VK_WHOLE_SIZE); lia). apply rounded_ok; auto; unfold in_range; lia.
Qed.

Lemma invalidate_ok s d range : inv s -> exists out, invalidate (st s) d range = Ok out /\
  forall m o n, out = (VK_SUCCESS, Some (m, o, n)) -> exists q a, find_memory (st s) d (r_memory range) = Ok (Some (q, a)) /\ m = a_memory a /\ a_generation a = r_generation range /\ mapped a = true /\
    map_offset a <= o /\ o + n <= u64 (map_offset a + map_size a).
Proof.
  intros I. unfold invalidate. destruct (find_memory_ok s d (r_memory range) I) as ([[q a]|] & -> & _); cbn [obind]; [|eexists; split; [reflexivity|]; discriminate]. destruct (_ && _) eqn:Hc; [|eexists; split; [reflexivity|]; discriminate].
  apply andb_true_iff in Hc as [Hg%Z.eqb_eq Hm]. cbv zeta. destruct (Z.ltb_spec (r_offset range) (map_offset a)) as [H1|H1]; cbn [orb]; [eexists; split; [reflexivity|]; discriminate|].
  destruct (Z.ltb_spec (u64 (map_offset a + map_size a)) (r_offset range)) as [H2|H2]; cbn [orb]; [eexists; split; [reflexivity|]; discriminate|]. destruct (Z.ltb_spec (u64 (u64 (map_offset a + map_size a) - r_offset range)) (r_size range)) as [H3|H3]; [eexists; split; [reflexivity|]; discriminate|].
  eexists. split; [reflexivity|]. intros m o n E. destruct (a_memory a =? 0); [discriminate|]. injection E as <- <- <-. exists q, a. split_and!; auto. pose proof (Z.mod_le (u64 (map_offset a + map_size a) - r_offset range) (2 ^ 64)) as L. unfold wrap in *. lia.
Qed.

Lemma invalidate_recorded s d range h q a first last : inv s -> find_memory (st s) d h = Ok (Some (q, a)) -> mapped a = true -> r_memory range = a_memory a -> r_generation range = a_generation a ->
  good_range a first last (r_offset range) (r_size range) -> invalidate (st s) d range = Ok (VK_SUCCESS, if a_memory a =? 0 then None else Some (a_memory a, r_offset range, r_size range)).
Proof.
  intros I E Hm Hr Hg [(G1 & Hz & G2) _ _ [G3 G4]]. rewrite <- (found_memory_handle s d h q a I E) in E. unfold invalidate. rewrite Hr, E. cbn [obind]. rewrite Hg, Z.eqb_refl, Hm. cbn [andb]. cbv zeta.
  pose proof (Z.mod_pos_bound (map_offset a + map_size a) (2 ^ 64) ltac:(lia)) as B. fold (u64 (map_offset a + map_size a)) in B.
  rewrite (wrap_small 64 (u64 (map_offset a + map_size a) - r_offset range)) by (unfold in_range; lia). rewrite !(proj2 (Z.ltb_ge _ _)) by lia. cbn [orb]. reflexivity.
Qed.

(** A 200-byte readback buffer at 10 in the same allocation. *)
Definition readback_ops : list op :=
  [OAllocate (Some sample_layer) true true 4096 1 64 [1; 2] None; OAllocated 0 (inl 500); OCreate (Some sample_layer) true false None 0 0x02 200 None; OCreated 0 (inl 601);
   OBind (Some sample_layer) 601 500 10 VK_SUCCESS; OMap (Some sample_layer) 500 0 VK_WHOLE_SIZE VK_SUCCESS].

(** The range recorded for a readback contains the requested bytes (the rest of the buffer for a whole-size request),
    consists of whole atoms or ends with the allocation and lies in its mapping; it belongs to the allocation the
    buffer is bound to, and as long as that one stays mapped as it was the range is accepted for invalidation.  In any later state,
    a range that is given to the driver lies in the current mapping of the very allocation it was recorded for. *)
Theorem readback_confined (os : list op) (d : layer_device) (h offset size : Z) (Hos : Forall op_ok os) (Ho : in_range 64 offset) (Hs : in_range 64 size) :
  exists s r range, run start os = Ok s /\ readback (st s) d h offset size = Ok (r, range) /\
    (range = no_range \/ r = VK_SUCCESS /\ exists p q b a, find_buffer (st s) d h = Ok (Some (p, b)) /\ find_memory (st s) d (b_memory b) = Ok (Some (q, a)) /\ a_generation a = memory_generation b /\
      good_range a (b_offset b + offset) (b_offset b + (if size =? VK_WHOLE_SIZE then b_size b else offset + size)) (r_offset range) (r_size range) /\
      invalidate (st s) d range = Ok (VK_SUCCESS, if a_memory a =? 0 then None else Some (a_memory a, r_offset range, r_size range))) /\
    forall later s', Forall op_ok later -> run s later = Ok s' -> exists out, invalidate (st s') d range = Ok out /\
      forall m o n, out = (VK_SUCCESS, Some (m, o, n)) -> exists q a, find_memory (st s') d (r_memory range) = Ok (Some (q, a)) /\ m = a_memory a /\ a_generation a = r_generation range /\ mapped a = true /\
        map_offset a <= o /\ o + n <= u64 (map_offset a + map_size a).
Proof.
  destruct (vis_run_ok os start start_inv Hos) as (s & Er & I). destruct (readback_ok s d h offset size I Ho Hs) as (r & range & E & H). exists s, r, range. split; [assumption|]. split; [assumption|]. split.
  - destruct H as [H|(-> & p & q & b & a & H1 & H2 & H3 & H4 & H5 & H6 & G)]; [now left|]. right. split; [reflexivity|]. exists p, q, b, a. split_and!; auto. now apply (invalidate_recorded s d range (b_memory b) q a _ _ I H2 H4 H5 H6 G).
  - intros later s' Hl Er'. destruct (vis_run_ok later s I Hl) as (s1 & E1 & I1). rewrite Er' in E1. injection E1 as <-. now apply invalidate_ok.
Qed.

Lemma readback_confined_witness : exists s r range, run start readback_ops = Ok s /\ readback (st s) sample_layer 601 30 100 = Ok (r, range) /\ r_offset range = 0 /\ r_size range = 192 /\
  exists a, invalidate (st s) sample_layer range = Ok (VK_SUCCESS, Some (a, 0, 192)).
Proof.
  destruct (readback_confined readback_ops sample_layer 601 30 100) as (s & r & range & E & Eb & H & _); [unfold readback_ops; repeat constructor; vm_compute; intuition discriminate|split; vm_compute; intuition discriminate|split; vm_compute; intuition discriminate|].
  exists s, r, range. split; [assumption|]. split; [assumption|]. vm_compute in E. injection E as <-. vm_compute in Eb. injection Eb as <- <-. split; [reflexivity|]. split; [reflexivity|]. destruct H as [H|(_ & p & q & b & a & H1 & H2 & _ & _ & H)]; [discriminate|].
  vm_compute in H1. injection H1 as <- <-. vm_compute in H2. injection H2 as <- <-. cbn [a_memory Z.eqb] in H. eauto.
Defined.

(** *** A repeated bind *)

Lemma lookup_update {R} `{Keyed R} (r : registry R) d h a o o' : rinv r -> lookup r d h = Ok (Some (a, o)) -> k_device o' = k_device o -> k_generation o' = k_generation o -> k_handle o' = k_handle o ->
  lookup (update r a o') d h = Ok (Some (a, o')).
Proof.
  intros I E H1 H2 H3. destruct (lookup_ok r d h I) as (x & E' & Hx). rewrite E in E'. injection E' as <-. destruct Hx as [Ho _]. unfold lookup in *. rewrite reg_find_ok in * by (auto; apply (reg_update_ok _ _ o); auto; unfold bucket_of; congruence).
  cbn [obind] in *. assert (forall l, List.find (meets (update r a o') (same_key (handle d) (generation d) h)) l = List.find (meets r (same_key (handle d) (generation d) h)) l) as Ef.
  { induction l as [|y l IH]; [reflexivity|]. cbn [List.find]. rewrite IH. replace (meets (update r a o') (same_key (handle d) (generation d) h) y) with (meets r (same_key (handle d) (generation d) h) y); [reflexivity|].
    unfold meets. cbn [update objects]. destruct (decide (y = a)) as [->|Hne]; [|now rewrite lookup_insert_ne by congruence]. rewrite lookup_insert_eq, Ho. unfold same_key. congruence. }
  cbn [update owned]. rewrite Ef. destruct (List.find _ _) as [y|]; [|discriminate]. unfold deref in *. cbn [update objects]. destruct (objects r !! y) as [oy|] eqn:Ey; [|discriminate]. cbn in E. injection E as -> ->. now rewrite lookup_insert_eq.
Qed.

Lemma upload_again s d source f : inv s -> flush_decide (st s) d source 1 = Ok (Do f) -> recording_epoch d <> 0 -> f_revision f <> UINT64_MAX ->
  f_epoch f = recording_epoch d /\ exists x b a, flush_publish (st s) f = Ok x /\ flush_decide x d source 1 = Ok (Reuse b a).
Proof.
  intros I. unfold flush_decide at 1. destruct (negb (has _ _)) eqn:Hp; [discriminate|]. destruct (find_buffer_ok s d source I) as ([[p b]|] & Eb & Hb); rewrite Eb; cbn [obind]; [|discriminate].
  destruct (negb (usage b =? _)) eqn:Hu; [discriminate|]. destruct (find_memory_ok s d (b_memory b) I) as ([[q a]|] & Ea & Ha); rewrite Ea; cbn [obind]; [|discriminate].
  destruct (_ || _) eqn:Hg; [discriminate|]. destruct (negb (mapped a && _)) eqn:Hm; [discriminate|]. destruct ((_ || _) || _) eqn:Ht; [discriminate|]. destruct (negb (in_mapping _ _ _)) eqn:Hr; [discriminate|]. match goal with |- (if ?c then _ else _) = _ -> _ => destruct c; [discriminate|] end.
  destruct (a_memory a =? 0); [discriminate|]. intros [= <-] He Hv. cbn [f_revision] in Hv. split; [reflexivity|]. pose proof (found_memory_handle s d _ q a I Ea) as Eh.
  assert (memory_generation b = a_generation a) as Eg by (apply orb_false_iff in Hg as [_ Hg%negb_false_iff%Z.eqb_eq]; congruence). assert (mapped a = true) as Em by (apply negb_false_iff, andb_true_iff in Hm; tauto).
  exists (set_buffer (st s) p (with_upload b (recording_epoch d) (upload_revision a))), (with_upload b (recording_epoch d) (upload_revision a)), a. split.
  - unfold flush_publish. cbn [f_device f_source f_memory f_buffer_generation f_buffer_offset f_memory_generation f_revision f_epoch]. rewrite Eb, Eh, Ea. cbn [obind]. now rewrite Eg, Em, !Z.eqb_refl.
  - unfold flush_decide. rewrite Hp. assert (find_buffer (set_buffer (st s) p (with_upload b (recording_epoch d) (upload_revision a))) d source = Ok (Some (p, with_upload b (recording_epoch d) (upload_revision a)))) as -> by (now apply (lookup_update _ _ _ _ b); [apply (v_buffers _ I)|..]).
    cbn [obind with_upload usage b_memory memory_generation b_offset b_size upload_epoch buffer_revision]. rewrite Hu. change (find_memory (set_buffer (st s) p _) d (b_memory b)) with (find_memory (st s) d (b_memory b)). rewrite Ea. cbn [obind].
    rewrite Hg, Hm, Ht, Hr, !Z.eqb_refl, (proj2 (Z.eqb_neq _ _) He), (proj2 (Z.eqb_neq _ _) Hv). reflexivity.
Qed.

(** One flush serves a recording.  When a vertex upload flushes its buffer, with success, no error is
    reported, and the next upload of the same buffer in that recording makes no call and changes
    nothing, unless the revision of the memory is saturated. *)
Theorem upload_flushed_once (os : list op) (d : layer_device) (source : Z) (Hos : Forall op_ok os) :
  exists s x es fs, run start os = Ok s /\ flush_upload (st s) d source 1 VK_SUCCESS = Ok (x, es, fs) /\
    forall f, fs = [f] -> recording_epoch d <> 0 -> f_revision f <> UINT64_MAX -> es = [] /\ forall answer, flush_upload x d source 1 answer = Ok (x, [], []).
Proof.
  destruct (vis_run_ok os start start_inv Hos) as (s & Er & I). assert (exists x es fs, flush_upload (st s) d source 1 VK_SUCCESS = Ok (x, es, fs) /\
    forall f, fs = [f] -> recording_epoch d <> 0 -> f_revision f <> UINT64_MAX -> es = [] /\ forall answer, flush_upload x d source 1 answer = Ok (x, [], [])) as (x & es & fs & H); [|now exists s, x, es, fs].
  unfold flush_upload at 1. destruct (decide_ok s d source 1 I) as (c & Ec & Hc). rewrite Ec. cbn [obind]. destruct c as [|e|b a|f]; try (eexists _, _, []; split; [reflexivity|]; discriminate). cbn [Z.eqb VK_SUCCESS negb].
  destruct (Z.eqb_spec (f_epoch f) 0) as [He|He]; [eexists _, _, [f]; split; [reflexivity|]; intros g [= <-] Hz Hm; destruct (upload_again s d source f I Ec Hz Hm) as [E _]; congruence|].
  assert (exists x, flush_publish (st s) f = Ok x) as [x Ex].
  { unfold flush_publish. destruct (find_buffer_ok s (f_device f) (f_source f) I) as ([[? ?]|] & -> & _); destruct (find_memory_ok s (f_device f) (f_memory f) I) as ([[? ?]|] & -> & _); cbn [obind]; eauto. }
  rewrite Ex. cbn [obind]. eexists x, _, [f]. split; [reflexivity|]. intros g [= <-] Hz Hm. split; [reflexivity|]. intros answer. destruct (upload_again s d source f I Ec Hz Hm) as (_ & x' & b & a & Ex' & Ed). rewrite Ex in Ex'. injection Ex' as <-.
  unfold flush_upload. now rewrite Ed.
Qed.

Lemma upload_flushed_once_witness : exists s x es fs, run start (take 6 sample_ops) = Ok s /\ flush_upload (st s) sample_layer 600 1 VK_SUCCESS = Ok (x, es, fs) /\ length fs = 1%nat /\ flush_upload x sample_layer 600 1 VK_SUCCESS = Ok (x, [], []).
Proof.
  destruct (upload_flushed_once (take 6 sample_ops) sample_layer 600) as (s & x & es & fs & E & Eu & H); [unfold sample_ops; repeat constructor; vm_compute; intuition discriminate|].
  assert (exists f, fs = [f] /\ f_revision f = 1) as (f & Ef & Ev) by (vm_compute in E; injection E as <-; vm_compute in Eu; injection Eu as _ _ <-; eexists; split; reflexivity).
  exists s, x, es, fs. destruct (H f Ef) as [He Ha]; [discriminate|rewrite Ev; discriminate|]. subst fs. split; [assumption|]. split; [assumption|]. split; [reflexivity|apply Ha].
Defined.
End MemVisibility.
