(* ===== verification/Readback.v ===== *)
(** * Readback of GPU writes (vulkan/compat/readback_record.c, readback_submit.c)

    Commands that write host-readable buffers leave ranges with their command buffer; a submission takes a copy of
    the ranges of its command buffers, and a successful wait invalidates the ranges of the submissions it covers.
    Submissions are addresses in a heap with a count, held by the registry, by the completion under way, by the submitting
    thread and by threads about to release them.  A function with several sections under [guard] is modelled by its
    sections; [completion_guard] is the single completion under way.  Results of allocation, of the driver and of the
    invalidation of a range are arguments. *)

From Stdlib Require Import ZArith Lia Bool.
From stdpp Require Import base numbers option gmap list.
From S2P Require Import Prelude Registry MemVisibility.

Open Scope Z_scope.
Open Scope outcome_scope.

Module Readback.
Import Registry MemVisibility.
Local Abbreviation range := readback_range.

(** ** Ranges of a command buffer *)

Record recording := Recording { command : Z; pool : Z; r_device : Z; r_allocator : option Z; r_writes : list range }.

(** Results of allocations, [true] when the list is exhausted. *)
Definition next_alloc (l : list bool) : bool * list bool := match l with [] => (true, []) | b :: l => (b, l) end.

Definition same_range (a b : range) : bool := (r_memory a =? r_memory b) && (r_generation a =? r_generation b) && (r_offset a =? r_offset b) && (r_size a =? r_size b).

Definition append (allocs : list bool) (writes : list range) (r : range) : list range * Z * list bool :=
  if existsb (fun w => same_range w r) writes then (writes, VK_SUCCESS, allocs) else
  let (ok, allocs) := next_alloc allocs in
  if negb ok then (writes, VK_ERROR_OUT_OF_HOST_MEMORY, allocs) else (r :: writes, VK_SUCCESS, allocs).

Fixpoint find_recording (rs : list recording) (c : Z) : option (nat * recording) :=
  match rs with
  | [] => None
  | r :: rs => if command r =? c then Some (0%nat, r) else prod_map S id <$> find_recording rs c
  end.

(** [where_] is what the layer knows of the command buffer: its device, pool and allocator. *)
Definition remember (rs : list recording) (where_ : option (Z * Z * option Z)) (allocs : list bool) (c : Z) (w : range) : list recording * Z * list bool :=
  let add rs k r allocs := (let '(ws, e, allocs) := append allocs (r_writes r) w in
                            (<[k := Recording (command r) (pool r) (r_device r) (r_allocator r) ws]> rs, e, allocs)) in
  match find_recording rs c with
  | Some (k, r) => add rs k r allocs
  | None =>
      match where_ with
      | None => (rs, VK_ERROR_INITIALIZATION_FAILED, allocs)
      | Some (device, pool, allocator) =>
          let (ok, allocs) := next_alloc allocs in
          if negb ok then (rs, VK_ERROR_OUT_OF_HOST_MEMORY, allocs) else
          let r := Recording c pool device allocator [] in add (r :: rs) 0%nat r allocs
      end
  end.

Fixpoint collect_loop (allocs : list bool) (writes : list range) (l : list range) : list range * Z * list bool :=
  match l with
  | [] => (writes, VK_SUCCESS, allocs)
  | w :: l => let '(writes, e, allocs) := append allocs writes w in
              if negb (e =? VK_SUCCESS) then (writes, e, allocs) else collect_loop allocs writes l
  end.
Definition collect (rs : list recording) (allocs : list bool) (writes : list range) (c : Z) : list range * Z * list bool :=
  match find_recording rs c with None => (writes, VK_SUCCESS, allocs) | Some (_, r) => collect_loop allocs writes (r_writes r) end.
Fixpoint collect_all (rs : list recording) (allocs : list bool) (writes : list range) (cs : list Z) : list range * Z * list bool :=
  match cs with
  | [] => (writes, VK_SUCCESS, allocs)
  | c :: cs => let '(writes, e, allocs) := collect rs allocs writes c in
               if negb (e =? VK_SUCCESS) then (writes, e, allocs) else collect_all rs allocs writes cs
  end.

(** [command] 0 stands for a whole pool of a device. *)
Definition forget (rs : list recording) (c device p : Z) : list recording :=
  List.filter (fun r => if negb (c =? 0) then negb (command r =? c) else negb (r_device r =? device) || negb (pool r =? p)) rs.
Definition reset_command (rs : list recording) (c : Z) : list recording := forget rs c 0 0.
Definition reset_pool (rs : list recording) (device p : Z) : list recording := forget rs 0 device p.

(** The recordings and the error given to the command buffer. *)
Definition write_buffer (v : state) (d : layer_device) (rs : list recording) (where_ : option (Z * Z * option Z)) (allocs : list bool) (c h offset size : Z) : outcome (list recording * Z * list bool) :=
  let! (e, r) := readback v d h offset size in
  Ok (if (e =? VK_SUCCESS) && negb (r_memory r =? 0) then remember rs where_ allocs c r else (rs, e, allocs)).

Fixpoint copy_buffer (v : state) (d : layer_device) (rs : list recording) (where_ : option (Z * Z * option Z)) (allocs : list bool) (c dest : Z) (regions : list (Z * Z)) : outcome (list recording * list Z) :=
  match regions with
  | [] => Ok (rs, [])
  | (offset, size) :: regions =>
      let! (rs, e, allocs) := write_buffer v d rs where_ allocs c dest offset size in
      let! (rs, es) := copy_buffer v d rs where_ allocs c dest regions in Ok (rs, if e =? VK_SUCCESS then es else e :: es)
  end.

Fixpoint remember_all (rs : list recording) (where_ : option (Z * Z * option Z)) (allocs : list bool) (c : Z) (l : list range) : list recording * Z * list bool :=
  match l with
  | [] => (rs, VK_SUCCESS, allocs)
  | w :: l => let '(rs, e, allocs) := remember rs where_ allocs c w in
              if negb (e =? VK_SUCCESS) then (rs, e, allocs) else remember_all rs where_ allocs c l
  end.
Definition execute_commands (rs : list recording) (where_ : option (Z * Z * option Z)) (allocs : list bool) (c : Z) (children : list Z) : list recording * Z :=
  let '(writes, e, allocs) := collect_all rs allocs [] children in
  if negb (e =? VK_SUCCESS) then (rs, e) else
  let '(rs, e, _) := remember_all rs where_ allocs c writes in (rs, e).

(** ** Submissions *)

Record submission := Submission {
  s_device : Z; s_generation : Z; serial : Z; queue : Z; fence : Z; s_allocator : option Z; ready : bool; cancelled : bool; references : Z; writes : list range }.
Record pending := Pending { heap : gmap nat submission; submissions : list nat; next_serial : Z; fresh : nat }.
Definition no_submissions : pending := Pending ∅ [] 0 0.

Definition at_ (p : pending) (a : nat) : outcome submission := of_option (heap p !! a).
Definition put (p : pending) (a : nat) (s : submission) : pending := Pending (<[a := s]> (heap p)) (submissions p) (next_serial p) (fresh p).

Definition release (p : pending) (a : nat) : outcome pending :=
  let! s := at_ p a in
  let r := u32 (references s - 1) in
  if r =? 0 then Ok (Pending (delete a (heap p)) (submissions p) (next_serial p) (fresh p))
  else Ok (put p a (Submission (s_device s) (s_generation s) (serial s) (queue s) (fence s) (s_allocator s) (ready s) (cancelled s) r (writes s))).

(** [create], the copy of the ranges and [publish]; [cs] are the command buffers of all batches, [batches] tells
    whether there are any.  No address when the submission is not tracked. *)
Definition submit (p : pending) (rs : list recording) (d : option layer_device) (allocator : option Z) (allocs : list bool) (batches : bool) (q f : Z) (cs : list Z) : pending * (option nat + Z) :=
  match d with
  | None => (p, inr VK_ERROR_INITIALIZATION_FAILED)
  | Some d =>
      if has (policy d) HOST_READBACK_INVALIDATE && (batches || negb (f =? 0)) then
        let (ok, allocs) := next_alloc allocs in
        if negb ok then (p, inr VK_ERROR_OUT_OF_HOST_MEMORY) else
        let '(ws, e, _) := collect_all rs allocs [] cs in
        if negb (e =? VK_SUCCESS) then (p, inr e) else
        if next_serial p =? UINT64_MAX then (p, inr VK_ERROR_OUT_OF_HOST_MEMORY) else
        let n := next_serial p + 1 in
        (Pending (<[fresh p := Submission (handle d) (generation d) n q f allocator false false 2 ws]> (heap p)) (fresh p :: submissions p) n (S (fresh p)), inl (Some (fresh p)))
      else (p, inl None)
  end.

Definition cancel (s : submission) : submission := Submission (s_device s) (s_generation s) (serial s) (queue s) (fence s) (s_allocator s) (ready s) true (references s) (writes s).
(** The first section of [submitted]; the references the thread then releases. *)
Definition submitted (p : pending) (a : nat) (result : Z) : outcome (pending * list nat) :=
  if negb (result =? VK_SUCCESS) then
    let! s := at_ p a in
    let p := put p a (cancel s) in
    if bool_decide (a ∈ submissions p) then Ok (Pending (heap p) (Registry.unlink a (submissions p)) (next_serial p) (fresh p), [a; a]) else Ok (p, [a])
  else Ok (p, [a]).

Definition owner (s : submission) (d : layer_device) : bool := (s_device s =? handle d) && (s_generation s =? generation d).
Definition set_ready (b : bool) (s : submission) : submission := Submission (s_device s) (s_generation s) (serial s) (queue s) (fence s) (s_allocator s) b (cancelled s) (references s) (writes s).

Fixpoint load (p : pending) (l : list nat) : outcome (list (nat * submission)) :=
  match l with [] => Ok [] | a :: l => let! s := at_ p a in let! r := load p l in Ok ((a, s) :: r) end.

(** What a fence, a queue ([f] is 0) or a device (both are 0) covers. *)
Definition covered (d : layer_device) (q f : Z) (all : list (nat * submission)) (s : submission) : bool :=
  if negb (f =? 0) then owner s d && existsb (fun m => owner m.2 d && (fence m.2 =? f) && (queue s =? queue m.2) && (serial s <=? serial m.2)) all
  else owner s d && ((q =? 0) || (queue s =? q)).

Definition detach_completed (p : pending) (d : layer_device) (q f : Z) : outcome (pending * list (nat * submission)) :=
  let! all := load p (submissions p) in
  let marked := (fun x => (x.1, if covered d q f all x.2 then set_ready true x.2 else x.2)) <$> all in
  let taken := List.filter (fun x => ready x.2) marked in
  let left := List.filter (fun x => negb (ready x.2)) marked in
  Ok (Pending (foldr (fun x h => <[x.1 := x.2]> h) (heap p) marked) left.*1 (next_serial p) (fresh p), rev taken).

(** The section of [invalidate_completed] after a failure: whether the reference is to be released. *)
Definition failed (p : pending) (a : nat) : outcome (pending * list nat) :=
  let! s := at_ p a in
  if cancelled s then Ok (p, [a])
  else Ok (Pending (<[a := set_ready false s]> (heap p)) (a :: submissions p) (next_serial p) (fresh p), []).

Fixpoint forget_loop (p : pending) (device : Z) (fs : list Z) (l : list nat) : outcome pending :=
  match l with
  | [] => Ok p
  | a :: l =>
      let! s := at_ p a in
      forget_loop (if (s_device s =? device) && existsb (Z.eqb (fence s)) fs
                   then put p a (Submission (s_device s) (s_generation s) (serial s) (queue s) 0 (s_allocator s) (ready s) (cancelled s) (references s) (writes s)) else p) device fs l
  end.
Definition forget_fences (p : pending) (device : Z) (fs : list Z) : outcome pending := forget_loop p device fs (submissions p).

(** ** All threads *)

(** Published submissions with their ranges, ranges invalidated, submissions whose ranges are all done, submissions that the driver
    refused, submissions dropped with their device. *)
Inductive event := Published (n : Z) (ws : list range) | Invalidated (n : Z) (w : range) | Done (n : Z) | Cancelled (n : Z) | Dropped (n : Z).

(** The thread inside [completion_guard]: the submissions it has detached and the ranges of the first one that are left, the result so far
    and the serials it detached. *)
Record completion := Completion { work : list nat; left : list range; result : Z; taken : list Z }.
Record sys := Sys { pend : pending; recs : list recording; submitters : list nat; owed : list nat; busy : option completion; log : list event }.
Definition start : sys := Sys no_submissions [] [] [] None [].

Inductive op :=
  | ORemember (where_ : option (Z * Z * option Z)) (allocs : list bool) (c : Z) (w : range) | OExecute (where_ : option (Z * Z * option Z)) (allocs : list bool) (c : Z) (children : list Z)
  | OForget (c device p : Z) | OSubmit (d : option layer_device) (allocator : option Z) (allocs : list bool) (batches : bool) (q f : Z) (cs : list Z) | OSubmitted (k : nat) (result : Z)
  | ORelease (k : nat) | OComplete (d : layer_device) (q f : Z) | OInvalidate (result : Z) | OEnd | OForgetFences (device : Z) (fs : list Z) | ODrop (d : layer_device).

(** The ranges of the first submission of a list. *)
Definition first_writes (p : pending) (l : list nat) : outcome (list range) := match l with [] => Ok [] | a :: _ => let! s := at_ p a in Ok (writes s) end.

Definition with_recs (s : sys) (rs : list recording) : sys := Sys (pend s) rs (submitters s) (owed s) (busy s) (log s).

Definition step (s : sys) (o : op) : outcome sys :=
  match o with
  | ORemember where_ allocs c w => Ok (with_recs s (remember (recs s) where_ allocs c w).1.1)
  | OExecute where_ allocs c children => Ok (with_recs s (execute_commands (recs s) where_ allocs c children).1)
  | OForget c device p => Ok (with_recs s (forget (recs s) c device p))
  | OSubmit d allocator allocs batches q f cs =>
      match submit (pend s) (recs s) d allocator allocs batches q f cs with
      | (p, inl (Some a)) => let! x := at_ p a in Ok (Sys p (recs s) (a :: submitters s) (owed s) (busy s) (Published (serial x) (writes x) :: log s))
      | _ => Ok s
      end
  | OSubmitted k r =>
      match submitters s !! k with
      | None => Ok s
      | Some a => let! x := at_ (pend s) a in
                  let! (p, refs) := submitted (pend s) a r in
                  Ok (Sys p (recs s) (delete k (submitters s)) (refs ++ owed s) (busy s) (if r =? VK_SUCCESS then log s else Cancelled (serial x) :: log s))
      end
  | ORelease k =>
      match owed s !! k with
      | None => Ok s
      | Some a => let! p := release (pend s) a in Ok (Sys p (recs s) (submitters s) (delete k (owed s)) (busy s) (log s))
      end
  | OComplete d q f =>
      match busy s with
      | Some _ => Ok s
      | None => let! (p, w) := detach_completed (pend s) d q f in
                let! ws := first_writes p w.*1 in
                Ok (Sys p (recs s) (submitters s) (owed s) (Some (Completion w.*1 ws VK_SUCCESS (serial <$> w.*2))) (log s))
      end
  | OInvalidate r =>
      match busy s with
      | Some (Completion (a :: rest) ws res t) =>
          let! x := at_ (pend s) a in
          match ws with
          | [] => let! ws := first_writes (pend s) rest in
                  Ok (Sys (pend s) (recs s) (submitters s) (a :: owed s) (Some (Completion rest ws res t)) (Done (serial x) :: log s))
          | w :: ws =>
              if r =? VK_SUCCESS then Ok (Sys (pend s) (recs s) (submitters s) (owed s) (Some (Completion (a :: rest) ws res t)) (Invalidated (serial x) w :: log s))
              else let! (p, refs) := failed (pend s) a in
                   let! ws := first_writes p rest in
                   Ok (Sys p (recs s) (submitters s) (refs ++ owed s) (Some (Completion rest ws r t)) (log s))
          end
      | _ => Ok s
      end
  | OEnd => match busy s with
            | Some (Completion [] _ _ _) => Ok (Sys (pend s) (recs s) (submitters s) (owed s) None (log s))
            | _ => Ok s
            end
  | OForgetFences device fs => let! p := forget_fences (pend s) device fs in Ok (Sys p (recs s) (submitters s) (owed s) (busy s) (log s))
  | ODrop d => let! (p, w) := detach_completed (pend s) d 0 0 in
               Ok (Sys p (recs s) (submitters s) (w.*1 ++ owed s) (busy s) ((Dropped <$> (serial <$> w.*2)) ++ log s))
  end.
Fixpoint run (s : sys) (os : list op) : outcome sys := match os with [] => Ok s | o :: os => let! s := step s o in run s os end.

(** ** What every reachable state satisfies *)

Definition working (s : sys) : list nat := match busy s with Some c => work c | None => [] end.
(** One occurrence for each reference. *)
Definition held (s : sys) : list nat := submissions (pend s) ++ working s ++ submitters s ++ owed s.

(** What has become of a published submission. *)
Definition settled (es : list event) (n : Z) : Prop := Done n ∈ es \/ Cancelled n ∈ es \/ Dropped n ∈ es.
Definition waiting (s : sys) (l : list nat) (n : Z) : Prop := exists a x, a ∈ l /\ heap (pend s) !! a = Some x /\ serial x = n.

Record inv (s : sys) : Prop := {
  q_count : forall a x, heap (pend s) !! a = Some x -> references x = Z.of_nat (count a (held s)) /\ 1 <= references x <= 2;
  q_live : forall a, a ∈ held s -> is_Some (heap (pend s) !! a);
  q_nodup : NoDup (submissions (pend s) ++ working s);
  q_fresh : forall a, is_Some (heap (pend s) !! a) -> (a < fresh (pend s))%nat;
  q_published : forall a x, heap (pend s) !! a = Some x -> Published (serial x) (writes x) ∈ log s;
  q_serial : forall n ws, Published n ws ∈ log s -> n <= next_serial (pend s);
  q_distinct : forall n ws ws', Published n ws ∈ log s -> Published n ws' ∈ log s -> ws = ws';
  q_past : forall n, Done n ∈ log s -> n <= next_serial (pend s);
  q_ready : forall a x, a ∈ submissions (pend s) -> heap (pend s) !! a = Some x -> ready x = false;
  q_cancelled : forall a x, heap (pend s) !! a = Some x -> cancelled x = true -> Cancelled (serial x) ∈ log s;
  q_tracked : forall n ws, Published n ws ∈ log s -> waiting s (submissions (pend s) ++ working s) n \/ settled (log s) n;
  q_done : forall n ws w, Done n ∈ log s -> Published n ws ∈ log s -> w ∈ ws -> Invalidated n w ∈ log s;
  q_head : forall c a rest, busy s = Some c -> work c = a :: rest -> exists x done, heap (pend s) !! a = Some x /\ writes x = done ++ left c /\ forall w, w ∈ done -> Invalidated (serial x) w ∈ log s;
  q_taken : forall c n, busy s = Some c -> result c = VK_SUCCESS -> n ∈ taken c -> waiting s (work c) n \/ Done n ∈ log s \/ Cancelled n ∈ log s }.

Lemma start_ok : inv start.
Proof.
  constructor; cbn [start pend no_submissions heap submissions next_serial fresh recs submitters owed busy log held working app]; try discriminate; try constructor; intros;
    repeat match goal with H : _ ∈ [] |- _ => now apply not_elem_of_nil in H | H : ∅ !! _ = Some _ |- _ => now rewrite lookup_empty in H | H : is_Some (∅ !! _) |- _ => destruct H end.
Qed.

(** Flags may change; what a submission is does not. *)
Definition reflagged (es : list event) (h h' : gmap nat submission) : Prop :=
  (forall a, is_Some (h !! a) -> is_Some (h' !! a)) /\
  forall a x', h' !! a = Some x' -> exists x, h !! a = Some x /\ serial x' = serial x /\ writes x' = writes x /\ references x' = references x /\ (cancelled x' = true -> cancelled x = true \/ Cancelled (serial x) ∈ es).

Lemma reflagged_same es h : reflagged es h h.
Proof. split; [auto|]. intros a x Hx. exists x. split_and!; auto. Qed.

Lemma reflagged_insert es h a x x' : h !! a = Some x -> serial x' = serial x -> writes x' = writes x -> references x' = references x -> (cancelled x' = true -> cancelled x = true \/ Cancelled (serial x) ∈ es) -> reflagged es h (<[a := x']> h).
Proof.
  intros Ha H1 H2 H3 H4. split.
  - intros b Hb. destruct (decide (b = a)) as [->|Hne]; [rewrite lookup_insert_eq; eauto|]. now rewrite lookup_insert_ne by congruence.
  - intros b y Hy. destruct (decide (b = a)) as [->|Hne]; [rewrite lookup_insert_eq in Hy; injection Hy as <-; exists x; auto|]. rewrite lookup_insert_ne in Hy by congruence. exists y. split_and!; auto.
Qed.

Lemma waiting_reflagged s s' es l n : reflagged es (heap (pend s)) (heap (pend s')) -> waiting s l n -> waiting s' l n.
Proof.
  intros [R1 R2] (a & x & Ha & Hx & <-). destruct (R1 a) as [x' Hx']; [eauto|]. destruct (R2 a x' Hx') as (y & Hy & Hs & _). rewrite Hx in Hy. injection Hy as <-. exists a, x'. auto.
Qed.

Lemma waiting_sub s l l' n : (forall a, a ∈ l -> a ∈ l') -> waiting s l n -> waiting s l' n.
Proof. intros H (a & x & Ha & Hx). exists a, x. auto. Qed.

Lemma settled_grow es es' n : settled es n -> settled (es' ++ es) n.
Proof. unfold settled. rewrite !elem_of_app. tauto. Qed.

(** A step that moves references between holders and adds to the history. *)
Lemma moved_inv s p' sub' ow' b' es : inv s -> let s' := Sys p' (recs s) sub' ow' b' (es ++ log s) in
  reflagged (es ++ log s) (heap (pend s)) (heap p') -> next_serial p' = next_serial (pend s) -> fresh p' = fresh (pend s) -> (forall a, count a (held s') = count a (held s)) -> (forall n ws, Published n ws ∉ es) ->
  NoDup (submissions p' ++ working s') -> (forall a x, a ∈ submissions p' -> heap p' !! a = Some x -> ready x = false) ->
  (forall n, waiting s (submissions (pend s) ++ working s) n -> waiting s' (submissions p' ++ working s') n \/ settled (es ++ log s) n) ->
  (forall n ws w, Done n ∈ es -> Published n ws ∈ log s -> w ∈ ws -> Invalidated n w ∈ es ++ log s) -> (forall n, Done n ∈ es -> exists ws, Published n ws ∈ log s) ->
  (forall c a rest, b' = Some c -> work c = a :: rest -> exists x done, heap p' !! a = Some x /\ writes x = done ++ left c /\ forall w, w ∈ done -> Invalidated (serial x) w ∈ es ++ log s) ->
  (forall c n, b' = Some c -> result c = VK_SUCCESS -> n ∈ taken c -> waiting s' (work c) n \/ Done n ∈ es ++ log s \/ Cancelled n ∈ es ++ log s) -> inv s'.
Proof.
  intros I s' R En Ef Hh Hes Hn Hr Ht Hd Hdp Hhd Htk. destruct I. assert (forall n ws, Published n ws ∈ es ++ log s -> Published n ws ∈ log s) as Hp by (intros n ws [H|H]%elem_of_app; [now destruct (Hes n ws)|assumption]).
  constructor; cbn [pend log busy s']; auto.
  - intros a x' Hx'. destruct (proj2 R a x' Hx') as (x & Hx & _ & _ & -> & _). rewrite Hh. auto.
  - intros a Ha. apply R, q_live0. apply count_in. rewrite <- Hh. now apply count_in.
  - intros a [x' Hx']. rewrite Ef. destruct (proj2 R a x' Hx') as (x & Hx & _). eauto.
  - intros a x' Hx'. destruct (proj2 R a x' Hx') as (x & Hx & -> & -> & _). apply elem_of_app. right. now apply (q_published0 a x).
  - intros n ws H. rewrite En. eauto.
  - intros n ws ws' H1 H2. eauto.
  - intros n [H|H]%elem_of_app; rewrite En; [|auto]. destruct (Hdp n H) as [ws Hws]. eauto.
  - intros a x' Hx' Hc. destruct (proj2 R a x' Hx') as (x & Hx & -> & _ & _ & Hcc). destruct (Hcc Hc) as [H|H]; [apply elem_of_app; right; eauto|assumption].
  - intros n ws H. destruct (q_tracked0 n ws (Hp _ _ H)) as [H1|H1]; [auto|right; now apply settled_grow].
  - intros n ws w [H|H]%elem_of_app H1 Hw; [apply (Hd n ws); auto|]. apply elem_of_app. right. apply (q_done0 n ws w); auto.
Qed.

(** *** Detaching *)

Lemma submissions_load_ok p l : (forall a, a ∈ l -> is_Some (heap p !! a)) -> exists r, load p l = Ok r /\ r.*1 = l /\ forall a x, (a, x) ∈ r -> heap p !! a = Some x.
Proof.
  induction l as [|a l IH]; intros H; [exists []; split; [reflexivity|]; split; [reflexivity|]; intros a x Hx; now apply not_elem_of_nil in Hx|].
  destruct (H a) as [x Hx]; [left|]. destruct IH as (r & E & E1 & Hr); [intros b Hb; apply H; now right|]. exists ((a, x) :: r). cbn [load]. unfold at_. rewrite Hx, E. cbn [of_option obind fmap list_fmap fst]. rewrite E1.
  split; [reflexivity|]. split; [reflexivity|]. intros b y [[= -> ->]|Hb]%elem_of_cons; auto.
Qed.

Lemma foldr_insert (h : gmap nat submission) (l : list (nat * submission)) : NoDup l.*1 -> (forall a x, (a, x) ∈ l -> foldr (fun x h => <[x.1 := x.2]> h) h l !! a = Some x) /\ (forall a, a ∉ l.*1 -> foldr (fun x h => <[x.1 := x.2]> h) h l !! a = h !! a).
Proof.
  induction l as [|[b y] l IH]; intros Hn; [split; [intros a x H; now apply not_elem_of_nil in H|reflexivity]|]. cbn [fmap list_fmap fst foldr snd] in *. apply NoDup_cons in Hn as [Hb Hn]. destruct (IH Hn) as [H1 H2]. split.
  - intros a x [[= -> ->]|Ha]%elem_of_cons; [apply lookup_insert_eq|]. rewrite lookup_insert_ne; [auto|]. intros ->. apply Hb. now apply (list_elem_of_fmap_2 fst l (a, x)).
  - intros a Ha. rewrite lookup_insert_ne by (intros ->; apply Ha; left). apply H2. intros H. apply Ha. now right.
Qed.

Lemma filter_split {A} (p : A -> bool) l : l ≡ₚ List.filter (fun x => negb (p x)) l ++ List.filter p l.
Proof. induction l as [|x l IH]; [reflexivity|]. cbn [List.filter]. destruct (p x); cbn [negb app]; [rewrite <- Permutation_middle|]; now rewrite <- IH. Qed.

(** Exactly the covered submissions leave the registry. *)
Record detached (p p' : pending) (d : layer_device) (q f : Z) (w : list (nat * submission)) : Prop := {
  d_flags : forall es, reflagged es (heap p) (heap p');
  d_same : next_serial p' = next_serial p /\ fresh p' = fresh p;
  d_split : submissions p ≡ₚ submissions p' ++ w.*1;
  d_left : forall a x, a ∈ submissions p' -> heap p' !! a = Some x -> ready x = false;
  d_work : forall a x, (a, x) ∈ w -> heap p' !! a = Some x;
  d_covered : exists all, load p (submissions p) = Ok all /\ forall a x, heap p !! a = Some x -> a ∈ w.*1 <-> a ∈ submissions p /\ covered d q f all x = true }.

Lemma submissions_detach_ok p d q f : (forall a, a ∈ submissions p -> is_Some (heap p !! a)) -> NoDup (submissions p) -> (forall a x, a ∈ submissions p -> heap p !! a = Some x -> ready x = false) ->
  exists p' w, detach_completed p d q f = Ok (p', w) /\ detached p p' d q f w.
Proof.
  intros Hl Hn Hr. unfold detach_completed. destruct (submissions_load_ok p _ Hl) as (all & E & E1 & Ha). rewrite E. cbn [obind]. eexists _, _. split; [reflexivity|]. set (mark := fun x => (x.1, if covered d q f all x.2 then set_ready true x.2 else x.2)).
  assert (forall a y, (a, y) ∈ mark <$> all -> exists x, heap p !! a = Some x /\ a ∈ submissions p /\ y = (if covered d q f all x then set_ready true x else x) /\ ready y = covered d q f all x) as Hm.
  { intros a y ([b x] & [= -> ->] & Hx)%list_elem_of_fmap. exists x. pose proof (Ha b x Hx) as Hb. assert (b ∈ submissions p) as Hin by (rewrite <- E1; now apply (list_elem_of_fmap_2 fst all (b, x))). split_and!; auto.
    destruct (covered d q f all x); [reflexivity|]. now apply (Hr b). }
  assert ((mark <$> all).*1 = submissions p) as Em by (rewrite <- list_fmap_compose, <- E1; reflexivity). destruct (foldr_insert (heap p) (mark <$> all)) as [F1 F2]; [now rewrite Em|].
  assert (forall a, a ∈ submissions p -> exists y, (a, y) ∈ mark <$> all) as Hin by (intros a Hin; rewrite <- Em in Hin; apply list_elem_of_fmap in Hin as ([b y] & -> & Hy); eauto).
  assert (forall (P : nat * submission -> bool) a y, (a, y) ∈ List.filter P (mark <$> all) <-> (a, y) ∈ mark <$> all /\ P (a, y) = true) as Hf by (intros P a y; rewrite !list_elem_of_In; apply List.filter_In).
  split; cbn [heap submissions next_serial fresh].
  - intros es. split.
    + intros a [x Hx]. destruct (decide (a ∈ submissions p)) as [H|H]; [|rewrite F2 by (rewrite Em; assumption); eauto]. destruct (Hin a H) as [y Hy]. rewrite (F1 a y Hy). eauto.
    + intros a y Hy. destruct (decide (a ∈ submissions p)) as [H|H]; [|rewrite F2 in Hy by (rewrite Em; assumption); exists y; split_and!; auto]. destruct (Hin a H) as [z Hz]. rewrite (F1 a z Hz) in Hy. injection Hy as <-.
      destruct (Hm a z Hz) as (x & Hx & _ & -> & _). exists x. destruct (covered d q f all x); split_and!; auto.
  - auto.
  - rewrite <- Em at 1. rewrite <- fmap_app. apply fmap_Permutation. rewrite (filter_split (fun x => ready x.2) (mark <$> all)) at 1. f_equiv. rewrite <- Permutation_rev. reflexivity.
  - intros a x Hx Hax. apply list_elem_of_fmap in Hx as ([b y] & -> & [Hy Hp]%Hf). cbn [fst] in Hax. rewrite (F1 _ _ Hy) in Hax. injection Hax as <-. now apply negb_true_iff in Hp.
  - intros a x Hx. rewrite <- Permutation_rev in Hx. apply Hf in Hx as [Hx _]. now apply F1.
  - exists all. split; [exact E|]. intros a x Hx. rewrite <- Permutation_rev. split.
    + intros ([b y] & -> & [Hy Hp]%Hf)%list_elem_of_fmap. destruct (Hm b y Hy) as (x' & Hx' & Hs & _ & Hc). cbn [fst snd] in *. split; [assumption|]. congruence.
    + intros [Hs Hc]. destruct (Hin a Hs) as [y Hy]. apply (list_elem_of_fmap_2' fst _ (a, y)); [|reflexivity]. apply Hf. split; [assumption|]. destruct (Hm a y Hy) as (x' & Hx' & _ & _ & Hr'). cbn [snd]. congruence.
Qed.

(** *** Steps *)

Lemma recs_inv s rs : inv s -> inv (with_recs s rs).
Proof. intros []. constructor; auto. Qed.

Lemma registry_live s : inv s -> forall a, a ∈ submissions (pend s) -> is_Some (heap (pend s) !! a).
Proof. intros I a Ha. apply (q_live _ I). unfold held. apply elem_of_app. now left. Qed.

Lemma work_live s c a : inv s -> busy s = Some c -> a ∈ work c -> is_Some (heap (pend s) !! a).
Proof. intros I Hc Ha. apply (q_live _ I). unfold held, working. rewrite Hc, !elem_of_app. auto. Qed.

(** The parts of the invariant about the completion under way, when it is not touched. *)
Lemma head_kept s h' es c a rest : inv s -> reflagged (es ++ log s) (heap (pend s)) h' -> busy s = Some c -> work c = a :: rest ->
  exists x done, h' !! a = Some x /\ writes x = done ++ left c /\ forall w, w ∈ done -> Invalidated (serial x) w ∈ es ++ log s.
Proof.
  intros I [R1 R2] Hc Hw. destruct (q_head _ I c a rest Hc Hw) as (x & done & Hx & Hd & Hi). destruct (R1 a) as [x' Hx']; [eauto|]. destruct (R2 a x' Hx') as (y & Hy & E1 & E2 & _). rewrite Hx in Hy. injection Hy as <-.
  exists x', done. rewrite E1, E2. split_and!; auto. intros w Hw'. apply elem_of_app. right. auto.
Qed.

Lemma taken_kept s s' es c n : inv s -> reflagged (es ++ log s) (heap (pend s)) (heap (pend s')) -> busy s = Some c -> result c = VK_SUCCESS -> n ∈ taken c ->
  waiting s' (work c) n \/ Done n ∈ es ++ log s \/ Cancelled n ∈ es ++ log s.
Proof.
  intros I R Hc Hr Hn. destruct (q_taken _ I c n Hc Hr Hn) as [H|H]; [left; now apply (waiting_reflagged s s' (es ++ log s))|]. rewrite !elem_of_app. tauto.
Qed.

Lemma count_nil a : count a [] = 0%nat.
Proof. reflexivity. Qed.

(** Counting references in the lists of holders. *)
Ltac counts := unfold held, working in *; cbn [pend put heap submissions working busy work submitters owed app]; rewrite ?app_nil_r; repeat first [rewrite holders_app | rewrite count_cons | rewrite count_nil]; try lia.

Lemma submitted_inv s k a r : inv s -> submitters s !! k = Some a -> exists x p refs, heap (pend s) !! a = Some x /\ submitted (pend s) a r = Ok (p, refs) /\
  inv (Sys p (recs s) (delete k (submitters s)) (refs ++ owed s) (busy s) (if r =? VK_SUCCESS then log s else Cancelled (serial x) :: log s)).
Proof.
  intros I Hk. pose proof (fun b => count_delete k a (submitters s) b Hk) as P. destruct (q_live _ I a) as [x Hx]; [unfold held; rewrite !elem_of_app; right; right; left; eapply list_elem_of_lookup_2; eassumption|].
  unfold submitted, at_. rewrite Hx. cbn [of_option obind]. destruct (Z.eqb_spec r VK_SUCCESS) as [Hr|Hr]; cbn [negb].
  - exists x, (pend s), [a]. split; [reflexivity|]. split; [reflexivity|]. apply (moved_inv s _ _ _ _ []); auto; try apply reflagged_same; try (intros; now apply not_elem_of_nil); try (apply I); try (intros n ws w H; now apply not_elem_of_nil in H).
    + intros b. specialize (P b). counts.
    + intros n H. now apply not_elem_of_nil in H.
  - assert (reflagged ([Cancelled (serial x)] ++ log s) (heap (pend s)) (<[a := cancel x]> (heap (pend s)))) as R by (apply (reflagged_insert _ _ a x); auto; intros _; right; left).
    assert (forall b y, b ∈ submissions (pend s) -> <[a := cancel x]> (heap (pend s)) !! b = Some y -> ready y = false) as Hrd.
    { intros b y Hb Hy. destruct (decide (b = a)) as [->|Hne]; [rewrite lookup_insert_eq in Hy; injection Hy as <-; now apply (q_ready _ I a x)|]. rewrite lookup_insert_ne in Hy by congruence. now apply (q_ready _ I b). }
    cbn [put submissions]. destruct (bool_decide_reflect (a ∈ submissions (pend s))) as [Hin|Hin]; eexists x, _, _; (split; [reflexivity|]); (split; [reflexivity|]); apply (moved_inv s _ _ _ _ [Cancelled (serial x)]); auto; cbn [put heap submissions].
    all: try (intros n ws [H|H]%elem_of_cons; [discriminate|now apply not_elem_of_nil in H]); try (intros n ws w [H|H]%elem_of_cons; [discriminate|now apply not_elem_of_nil in H]); try (intros n [H|H]%elem_of_cons; [discriminate|now apply not_elem_of_nil in H]).
    all: try (intros c b rest; now apply (head_kept s)); try (intros c n; now apply (taken_kept s)).
    + intros b. specialize (P b). pose proof (count_unlink a _ b Hin). counts.
    + pose proof (q_nodup _ I) as Hn. change (working _) with (working s). rewrite (unlink_perm a _ Hin) in Hn. now apply NoDup_cons in Hn as [_ ?].
    + intros b y Hb. apply Hrd. rewrite (unlink_perm a _ Hin). now right.
    + intros n (b & y & Hb & Hy & <-). change (working (Sys _ _ _ _ _ _)) with (working s). rewrite (unlink_perm a _ Hin) in Hb. cbn [app] in Hb. apply elem_of_cons in Hb as [->|Hb]; [right; right; left; rewrite Hx in Hy; injection Hy as <-; left|left].
      eapply (waiting_reflagged s); [exact R|]. exists b, y. auto.
    + intros b. specialize (P b). counts.
    + apply I.
    + intros n H. left. eapply (waiting_reflagged s); [exact R|exact H].
Qed.

(** One reference less, to a submission that goes away with the last one. *)
Lemma fewer_inv s p' ow' a : inv s -> let s' := Sys p' (recs s) (submitters s) ow' (busy s) (log s) in
  submissions p' = submissions (pend s) -> next_serial p' = next_serial (pend s) -> fresh p' = fresh (pend s) -> (forall b, count b (held s) = ((if decide (a = b) then 1 else 0) + count b (held s'))%nat) ->
  (forall b, b ∈ held s' -> is_Some (heap p' !! b)) ->
  (forall b y', heap p' !! b = Some y' -> exists y, heap (pend s) !! b = Some y /\ serial y' = serial y /\ writes y' = writes y /\ ready y' = ready y /\ cancelled y' = cancelled y /\
    references y' = references y - (if decide (a = b) then 1 else 0) /\ 1 <= references y') -> inv s'.
Proof.
  intros I s' Es En Ef Hc Hl Hd. assert (forall l n, (forall b, b ∈ l -> b ∈ submissions (pend s) ++ working s) -> waiting s l n -> waiting s' l n) as Hw.
  { intros l n Hsub (b & y & Hb & Hy & E). destruct (Hl b) as [y' Hy']; [unfold held; cbn [s' pend]; rewrite Es, app_assoc; apply elem_of_app; left; exact (Hsub b Hb)|].
    destruct (Hd b y' Hy') as (z & Hz & Ez & _). rewrite Hy in Hz. injection Hz as <-. exists b, y'. split_and!; auto. congruence. }
  destruct I. constructor; cbn [pend log busy s']; try rewrite Es; try rewrite En; try rewrite Ef; auto.
  - intros b y' Hy'. destruct (Hd b y' Hy') as (y & Hy & _ & _ & _ & _ & Er & Hp). destruct (q_count0 b y Hy) as [H1 H2]. specialize (Hc b). destruct (decide (a = b)); lia.
  - intros b [y' Hy']. destruct (Hd b y' Hy') as (y & Hy & _). eauto.
  - intros b y' Hy'. destruct (Hd b y' Hy') as (y & Hy & -> & -> & _). now apply (q_published0 b y).
  - intros b y' Hb Hy'. destruct (Hd b y' Hy') as (y & Hy & _ & _ & -> & _). now apply (q_ready0 b y).
  - intros b y' Hy'. destruct (Hd b y' Hy') as (y & Hy & -> & _ & _ & -> & _). now apply (q_cancelled0 b y).
  - intros n ws H. destruct (q_tracked0 n ws H) as [H'|]; [left|now right]. exact (Hw _ n (fun _ h => h) H').
  - intros c b rest Hb Hwk. destruct (q_head0 c b rest Hb Hwk) as (y & done & Hy & H1 & H2). destruct (Hl b) as [y' Hy']; [unfold held, working; cbn [s' busy]; rewrite Hb, Hwk, !elem_of_app; right; left; left|].
    destruct (Hd b y' Hy') as (z & Hz & E1 & E2 & _). rewrite Hy in Hz. injection Hz as <-. exists y', done. rewrite E1, E2. auto.
  - intros c n Hb Hr' Hn. destruct (q_taken0 c n Hb Hr' Hn) as [H|H]; [left|now right]. apply Hw; [|assumption]. intros b. unfold working. rewrite Hb, elem_of_app. auto.
Qed.

Lemma release_inv s k a : inv s -> owed s !! k = Some a -> exists p, release (pend s) a = Ok p /\ inv (Sys p (recs s) (submitters s) (delete k (owed s)) (busy s) (log s)).
Proof.
  intros I Hk. pose proof (fun b => count_delete k a (owed s) b Hk) as P. destruct (q_live _ I a) as [x Hx]; [unfold held; rewrite !elem_of_app; right; right; right; eapply list_elem_of_lookup_2; eassumption|].
  destruct (q_count _ I a x Hx) as [Hc Hr]. unfold release, at_. rewrite Hx. cbn [of_option obind]. rewrite wrap_small by (unfold in_range; lia).
  assert (forall b, count b (held s) = ((if decide (a = b) then 1 else 0) + count b (submissions (pend s) ++ working s ++ submitters s ++ delete k (owed s)))%nat) as Hh by (intros b; specialize (P b); counts).
  assert (forall b, b ∈ submissions (pend s) ++ working s ++ submitters s ++ delete k (owed s) -> is_Some (heap (pend s) !! b)) as Hl by (intros b Hb; apply (q_live _ I); apply count_in in Hb; apply count_in; specialize (Hh b); lia).
  destruct (Z.eqb_spec (references x - 1) 0) as [Hz|Hz]; eexists; (split; [reflexivity|]); apply (fewer_inv s _ _ a); auto; cbn [put heap].
  - intros b Hb. rewrite lookup_delete_ne; [exact (Hl b Hb)|]. intros <-. apply count_in in Hb. specialize (Hh a). rewrite decide_True in Hh by reflexivity. change (held (Sys _ _ _ _ _ _)) with (submissions (pend s) ++ working s ++ submitters s ++ delete k (owed s)) in Hb. lia.
  - intros b y [Hne Hy]%lookup_delete_Some. exists y. rewrite decide_False by assumption. split_and!; auto; [lia|]. destruct (q_count _ I b y Hy). lia.
  - intros b Hb. destruct (decide (b = a)) as [->|Hne]; [rewrite lookup_insert_eq; eauto|]. rewrite lookup_insert_ne by congruence. exact (Hl b Hb).
  - intros b y Hy. destruct (decide (a = b)) as [<-|Hne]; [rewrite lookup_insert_eq in Hy; injection Hy as <-; exists x; cbn; split_and!; auto; lia|]. rewrite lookup_insert_ne in Hy by congruence. exists y. split_and!; auto; [lia|]. destruct (q_count _ I b y Hy). lia.
Qed.

Lemma submit_inv s d allocator allocs batches q f cs : inv s -> exists s', step s (OSubmit d allocator allocs batches q f cs) = Ok s' /\ inv s'.
Proof.
  intros I. cbn [step]. unfold submit. destruct d as [d|]; [|eauto]. destruct (_ && _); [|eauto]. destruct (next_alloc allocs) as [ok al]. destruct (negb ok); [eauto|]. destruct (collect_all _ _ _ _) as [[ws e] al']. destruct (negb _); [eauto|].
  destruct (_ =? _); [eauto|]. unfold at_. cbn [heap]. rewrite lookup_insert_eq. cbn [of_option obind serial writes]. eexists. split; [reflexivity|]. set (x := Submission _ _ _ _ _ _ _ _ _ ws).
  assert (heap (pend s) !! fresh (pend s) = None) as Hn by (destruct (heap (pend s) !! fresh (pend s)) eqn:E; [|reflexivity]; assert (fresh (pend s) < fresh (pend s))%nat by (apply (q_fresh _ I); eauto); lia).
  assert (fresh (pend s) ∉ held s) as Hout by (intros H; destruct (q_live _ I _ H); congruence).
  assert (forall b y, <[fresh (pend s) := x]> (heap (pend s)) !! b = Some y -> b = fresh (pend s) /\ y = x \/ b <> fresh (pend s) /\ heap (pend s) !! b = Some y) as Hd.
  { intros b y Hy. destruct (decide (b = fresh (pend s))) as [->|Hne]; [rewrite lookup_insert_eq in Hy; injection Hy as <-; auto|]. rewrite lookup_insert_ne in Hy by congruence. auto. }
  assert (forall es n, settled es n -> settled (Published (next_serial (pend s) + 1) ws :: es) n) as Hset by (intros es n; apply (settled_grow es [_])).
  assert (forall l n, waiting s l n -> waiting (Sys (Pending (<[fresh (pend s) := x]> (heap (pend s))) (fresh (pend s) :: submissions (pend s)) (next_serial (pend s) + 1) (S (fresh (pend s)))) (recs s) (fresh (pend s) :: submitters s) (owed s) (busy s) (Published (next_serial (pend s) + 1) ws :: log s)) l n) as Hw.
  { intros l n (b & y & Hb & Hy & E). exists b, y. split_and!; auto. cbn [pend heap]. rewrite lookup_insert_ne by congruence. assumption. }
  destruct I. constructor; cbn [pend log busy heap submissions next_serial fresh]; auto.
  - intros b y [[-> ->]|[Hne Hy]]%Hd.
    + assert (count (fresh (pend s)) (held s) = 0%nat) as H0 by (destruct (count (fresh (pend s)) (held s)) eqn:E; [reflexivity|]; contradict Hout; apply count_in; lia). change (references x) with 2.
      counts. rewrite !decide_True by reflexivity. rewrite !holders_app in H0. lia.
    + destruct (q_count0 b y Hy) as [H1 H2]. split; [|assumption]. rewrite H1. counts. rewrite !decide_False by congruence. lia.
  - intros b Hb. destruct (decide (b = fresh (pend s))) as [->|Hne]; [rewrite lookup_insert_eq; eauto|]. rewrite lookup_insert_ne by congruence. apply q_live0. unfold held, working in *. cbn [pend submissions busy submitters owed] in *.
    rewrite !elem_of_app, !elem_of_cons in *. tauto.
  - change (working (Sys _ _ _ _ _ _)) with (working s). cbn [app]. apply NoDup_cons. split; [|assumption]. intros H. apply Hout. unfold held. rewrite app_assoc. apply elem_of_app. now left.
  - intros b [y [[-> _]|[_ Hy]]%Hd]; [lia|]. assert (b < fresh (pend s))%nat by eauto. lia.
  - intros b y [[-> ->]|[_ Hy]]%Hd; [left|right; eauto].
  - intros n ws' [[= -> ->]|H]%elem_of_cons; [lia|]. specialize (q_serial0 n ws' H). lia.
  - intros n w1 w2 [E1|H1]%elem_of_cons [E2|H2]%elem_of_cons; [congruence| | |eauto]; [injection E1 as -> ->; specialize (q_serial0 _ _ H2)|injection E2 as -> ->; specialize (q_serial0 _ _ H1)]; lia.
  - intros n [[=]|H]%elem_of_cons. specialize (q_past0 n H). lia.
  - intros b y [->|Hb]%elem_of_cons Hy; destruct (Hd b y Hy) as [[E ->]|[Hne Hy']] || destruct (Hd _ y Hy) as [[E ->]|[Hne Hy']]; auto; try congruence. now apply (q_ready0 b).
  - intros b y [[-> ->]|[_ Hy]]%Hd Hc; [discriminate|]. right. eauto.
  - intros n ws' [[= -> ->]|H]%elem_of_cons; [left; exists (fresh (pend s)), x; split_and!; [left|apply lookup_insert_eq|reflexivity]|]. destruct (q_tracked0 n ws' H) as [H'|H']; [left|right; now apply Hset].
    refine (waiting_sub _ _ _ _ _ (Hw _ _ H')). intros b Hb. change (working (Sys _ _ _ _ _ _)) with (working s). cbn [app]. now right.
  - intros n ws' w [[=]|H]%elem_of_cons [[= -> ->]|H1]%elem_of_cons Hw'; [specialize (q_past0 _ H); lia|]. right. eauto.
  - intros c b rest Hb Hwk. destruct (q_head0 c b rest Hb Hwk) as (y & done & Hy & H1 & H2). exists y, done. split; [rewrite lookup_insert_ne by congruence; assumption|]. split; [assumption|]. intros w Hw'. right. auto.
  - intros c n Hb Hr Hn'. destruct (q_taken0 c n Hb Hr Hn') as [H|[H|H]]; [left; now apply Hw|right; left; now right|right; right; now right].
Qed.

(** Nothing but what is said changes in the history. *)
Ltac no_event := intros; match goal with H : _ ∈ [] |- _ => now apply not_elem_of_nil in H | |- _ ∉ [] => apply not_elem_of_nil end.

Lemma first_writes_ok p l : (forall a, a ∈ l -> is_Some (heap p !! a)) -> exists ws, first_writes p l = Ok ws /\ forall a rest, l = a :: rest -> exists x, heap p !! a = Some x /\ ws = writes x.
Proof. intros H. destruct l as [|a l]; [exists []; split; [reflexivity|discriminate]|]. destruct (H a) as [x Hx]; [left|]. exists (writes x). cbn [first_writes]. unfold at_. rewrite Hx. split; [reflexivity|]. intros b rest [= <- <-]. eauto. Qed.

Lemma detach_inv s d q f : inv s -> exists p' w, detach_completed (pend s) d q f = Ok (p', w) /\ detached (pend s) p' d q f w.
Proof. intros I. apply submissions_detach_ok; [now apply registry_live| |apply (q_ready _ I)]. pose proof (q_nodup _ I) as Hn. now apply NoDup_app in Hn as [? _]. Qed.

Lemma complete_inv s d q f : inv s -> exists s', step s (OComplete d q f) = Ok s' /\ inv s'.
Proof.
  intros I. cbn [step]. destruct (busy s) as [c|] eqn:Eb; [eauto|]. destruct (detach_inv s d q f I) as (p' & w & -> & D). cbn [obind]. assert (working s = []) as Ew by (unfold working; now rewrite Eb).
  assert (forall a, a ∈ w.*1 -> is_Some (heap p' !! a)) as Hl by (intros a ([b x] & -> & Hx)%list_elem_of_fmap; cbn [fst]; rewrite (d_work _ _ _ _ _ _ D _ _ Hx); eauto).
  destruct (first_writes_ok p' w.*1 Hl) as (ws & -> & Hws). cbn [obind]. eexists. split; [reflexivity|]. pose proof (d_split _ _ _ _ _ _ D) as Hsp. destruct (d_same _ _ _ _ _ _ D) as [Dn Df].
  apply (moved_inv s _ _ _ _ []); auto; try no_event; try apply (d_flags _ _ _ _ _ _ D).
  - intros b. pose proof (holders_perm b _ _ Hsp). rewrite holders_app in H. unfold held at 2. rewrite Ew. counts.
  - pose proof (q_nodup _ I) as Hn. rewrite Ew, app_nil_r, Hsp in Hn. exact Hn.
  - apply (d_left _ _ _ _ _ _ D).
  - intros n H. left. eapply (waiting_reflagged s); [apply (d_flags _ _ _ _ _ _ D (log s))|]. refine (waiting_sub _ _ _ _ _ H). intros a. rewrite Ew, app_nil_r, Hsp. auto.
  - intros c a rest [= <-] Ha. destruct (Hws a rest Ha) as (x & Hx & ->). exists x, []. split_and!; auto. no_event.
  - intros c n [= <-] _ Hn. left. cbn [taken work] in *. apply list_elem_of_fmap in Hn as (x & -> & Hx). apply list_elem_of_fmap in Hx as ([a y] & -> & Hy). exists a, y. split_and!; auto; [now apply (list_elem_of_fmap_2 fst w (a, y))|]. now apply (d_work _ _ _ _ _ _ D).
Qed.

Lemma drop_inv s d : inv s -> exists s', step s (ODrop d) = Ok s' /\ inv s'.
Proof.
  intros I. cbn [step]. destruct (detach_inv s d 0 0 I) as (p' & w & -> & D). cbn [obind]. eexists. split; [reflexivity|]. pose proof (d_split _ _ _ _ _ _ D) as Hsp. destruct (d_same _ _ _ _ _ _ D) as [Dn Df].
  assert (forall e, e ∈ Dropped <$> (serial <$> w.*2) -> exists n, e = Dropped n) as Hdr by (intros e (n & -> & _)%list_elem_of_fmap; eauto).
  apply (moved_inv s); auto; try apply (d_flags _ _ _ _ _ _ D); try (intros c a rest; now apply (head_kept s); [|apply (d_flags _ _ _ _ _ _ D)]); try (intros c n; apply (taken_kept s); [assumption|apply (d_flags _ _ _ _ _ _ D)]).
  - intros b. pose proof (holders_perm b _ _ Hsp). rewrite holders_app in H. counts.
  - intros n ws H. destruct (Hdr _ H). discriminate.
  - pose proof (q_nodup _ I) as Hn. change (working (Sys _ _ _ _ _ _)) with (working s). rewrite Hsp in Hn. rewrite <- app_assoc, (Permutation_app_comm w.*1), app_assoc in Hn. now apply NoDup_app in Hn as [? _].
  - apply (d_left _ _ _ _ _ _ D).
  - intros n (a & x & Ha & Hx & <-). change (working (Sys _ _ _ _ _ _)) with (working s). assert (a ∈ w.*1 \/ a ∈ submissions p' ++ working s) as [H|H] by (rewrite Hsp, !elem_of_app in Ha; rewrite elem_of_app; tauto).
    + right. right. right. apply elem_of_app. left. apply list_elem_of_fmap in H as ([b y] & -> & Hy). pose proof (d_work _ _ _ _ _ _ D _ _ Hy) as Hy'. destruct (proj2 (d_flags _ _ _ _ _ _ D []) _ _ Hy') as (z & Hz & E & _). cbn [fst] in Hx. rewrite Hx in Hz. injection Hz as <-.
      rewrite <- E. apply list_elem_of_fmap_2, list_elem_of_fmap_2. now apply (list_elem_of_fmap_2 snd w (b, y)).
    + left. eapply (waiting_reflagged s); [apply (d_flags _ _ _ _ _ _ D (log s))|]. exists a, x. auto.
  - intros n ws w' H. destruct (Hdr _ H). discriminate.
  - intros n H. destruct (Hdr _ H). discriminate.
Qed.

Lemma reflagged_trans es h1 h2 h3 : reflagged es h1 h2 -> reflagged es h2 h3 -> reflagged es h1 h3.
Proof.
  intros [A1 A2] [B1 B2]. split; [auto|]. intros a z Hz. destruct (B2 a z Hz) as (y & Hy & E1 & E2 & E3 & E4). destruct (A2 a y Hy) as (x & Hx & F1 & F2 & F3 & F4). exists x. split_and!; try congruence. intros Hc. destruct (E4 Hc) as [H|H]; [auto|rewrite <- F1; auto].
Qed.

Lemma forget_loop_ok es device fs : forall l p, (forall a, a ∈ l -> is_Some (heap p !! a)) -> exists p', forget_loop p device fs l = Ok p' /\ reflagged es (heap p) (heap p') /\
  submissions p' = submissions p /\ next_serial p' = next_serial p /\ fresh p' = fresh p /\ forall a x x', heap p !! a = Some x -> heap p' !! a = Some x' -> ready x' = ready x.
Proof.
  induction l as [|a l IH]; intros p Hl; [exists p; split; [reflexivity|]; split; [apply reflagged_same|]; split_and!; auto; congruence|]. destruct (Hl a) as [x Hx]; [left|]. cbn [forget_loop]. unfold at_. rewrite Hx. cbn [of_option obind].
  match goal with |- context [forget_loop ?q device fs l] => set (p1 := q) end. assert (reflagged es (heap p) (heap p1) /\ submissions p1 = submissions p /\ next_serial p1 = next_serial p /\ fresh p1 = fresh p /\ forall b y y', heap p !! b = Some y -> heap p1 !! b = Some y' -> ready y' = ready y) as (R & E1 & E2 & E3 & Hr).
  { unfold p1. destruct (_ && _); [|split; [apply reflagged_same|]; split_and!; auto; congruence]. split; [apply (reflagged_insert _ _ a x); auto|]. split_and!; auto. intros b y y' Hy Hy'. cbn [put heap] in Hy'.
    destruct (decide (b = a)) as [->|Hne]; [rewrite lookup_insert_eq in Hy'; rewrite Hx in Hy; injection Hy as <-; now injection Hy' as <-|]. rewrite lookup_insert_ne in Hy' by congruence. congruence. }
  destruct (IH p1) as (p' & E & R' & F1 & F2 & F3 & Hr'); [intros b Hb; apply R, Hl; now right|]. exists p'. split; [assumption|]. split; [now apply (reflagged_trans _ _ (heap p1))|]. split_and!; try congruence.
  intros b y y' Hy Hy'. destruct (proj1 R b) as [z Hz]; [eauto|]. rewrite (Hr' b z y' Hz Hy'). now apply (Hr b).
Qed.

Lemma forget_inv s device fs : inv s -> exists s', step s (OForgetFences device fs) = Ok s' /\ inv s'.
Proof.
  intros I. cbn [step]. unfold forget_fences. destruct (forget_loop_ok (log s) device fs (submissions (pend s)) (pend s) (registry_live s I)) as (p' & -> & R & E1 & E2 & E3 & Hr). cbn [obind]. eexists. split; [reflexivity|].
  apply (moved_inv s _ _ _ _ []); auto; try no_event; try (intros c a rest; now apply (head_kept s)); try (intros c n; now apply (taken_kept s)).
  - intros b. counts. rewrite E1. lia.
  - change (working (Sys _ _ _ _ _ _)) with (working s). rewrite E1. apply I.
  - intros a x' Ha Hx'. rewrite E1 in Ha. destruct (proj2 R a x' Hx') as (x & Hx & _). rewrite (Hr a x x' Hx Hx'). now apply (q_ready _ I a).
  - intros n H. left. rewrite E1. eapply (waiting_reflagged s); [exact R|exact H].
Qed.

Lemma end_inv s : inv s -> exists s', step s OEnd = Ok s' /\ inv s'.
Proof.
  intros I. cbn [step]. destruct (busy s) as [[[|a rest] ws r t]|] eqn:Eb; [|eauto|eauto]. eexists. split; [reflexivity|]. assert (working s = []) as Ew by (unfold working; now rewrite Eb).
  apply (moved_inv s _ _ _ _ []); auto; try no_event; try apply reflagged_same; try discriminate.
  - intros b. unfold held at 2. rewrite Ew. counts.
  - pose proof (q_nodup _ I) as Hn. now rewrite Ew in Hn.
  - apply (q_ready _ I).
  - intros n H. left. now rewrite Ew in H.
Qed.

(** The first submission of a completion leaves it. *)
Lemma next_inv s a rest ws r t p' es refs r' : inv s -> busy s = Some (Completion (a :: rest) ws r t) -> reflagged (es ++ log s) (heap (pend s)) (heap p') -> next_serial p' = next_serial (pend s) -> fresh p' = fresh (pend s) ->
  (forall b, (count b (submissions p') + count b refs)%nat = (count b (submissions (pend s)) + if decide (a = b) then 1 else 0)%nat) -> (forall b, b ∈ submissions (pend s) -> b ∈ submissions p') -> (forall b x, b ∈ submissions p' -> heap p' !! b = Some x -> ready x = false) ->
  NoDup (submissions p' ++ rest) -> (forall n ws, Published n ws ∉ es) -> (forall x, heap (pend s) !! a = Some x -> a ∈ submissions p' \/ settled (es ++ log s) (serial x)) ->
  (forall n, Done n ∈ es -> exists x, heap (pend s) !! a = Some x /\ serial x = n /\ ws = []) ->
  (r' = VK_SUCCESS -> r = VK_SUCCESS /\ forall x, heap (pend s) !! a = Some x -> Done (serial x) ∈ es) ->
  exists s', (let! ws := first_writes p' rest in Ok (Sys p' (recs s) (submitters s) (refs ++ owed s) (Some (Completion rest ws r' t)) (es ++ log s))) = Ok s' /\ inv s'.
Proof.
  intros I Eb R En Ef Hc Hsub Hr Hn Hes Ha Hd Ht. assert (working s = a :: rest) as Ew by (unfold working; now rewrite Eb). destruct (work_live s _ a I Eb) as [x Hx]; [left|].
  destruct (first_writes_ok p' rest) as (ws' & -> & Hws); [intros b Hb; apply R, (work_live s _ b I Eb); now right|]. cbn [obind]. eexists. split; [reflexivity|]. apply (moved_inv s); auto.
  - intros b. specialize (Hc b). unfold held at 2. rewrite Ew. counts.
  - intros n (b & y & Hb & Hy & <-). rewrite Ew, elem_of_app, elem_of_cons in Hb. assert (b = a \/ b ∈ submissions (pend s) \/ b ∈ rest) as [->|Hb'] by tauto.
    + rewrite Hx in Hy. injection Hy as <-. destruct (Ha x Hx) as [Hin|Hs]; [left|now right]. eapply (waiting_reflagged s); [exact R|]. exists a, x. split; [apply elem_of_app; now left|auto].
    + left. eapply (waiting_reflagged s); [exact R|]. exists b, y. split; [|auto]. cbn [working busy work]. apply elem_of_app. destruct Hb' as [Hb'|Hb']; [left; now apply Hsub|now right].
  - intros n ws0 w H Hp Hw. destruct (Hd n H) as (y & Hy & <- & ->). destruct (q_head _ I _ a rest Eb eq_refl) as (z & done & Hz & E & Hi). rewrite Hy in Hz. injection Hz as <-. cbn [left] in E. rewrite app_nil_r in E. apply elem_of_app. right. apply Hi. rewrite <- E.
    now rewrite (q_distinct _ I _ _ _ (q_published _ I a y Hy) Hp).
  - intros n H. destruct (Hd n H) as (y & Hy & <- & _). eexists. now apply (q_published _ I a y).
  - intros c b rest' [= <-] Hb. cbn [work left] in *. destruct (Hws b rest' Hb) as (y & Hy & ->). exists y, []. split_and!; auto. no_event.
  - intros c n [= <-] Hr' Hn'. cbn [result work taken] in *. destruct (Ht Hr') as [Hr0 Hdone]. destruct (q_taken _ I _ n Eb Hr0 Hn') as [(b & y & Hb & Hy & <-)|H]; [|rewrite !elem_of_app; tauto].
    cbn [work] in Hb. apply elem_of_cons in Hb as [->|Hb]; [right; left; apply elem_of_app; left; auto|]. left. eapply (waiting_reflagged s); [exact R|]. exists b, y. auto.
Qed.

Lemma invalidate_inv s r : inv s -> exists s', step s (OInvalidate r) = Ok s' /\ inv s'.
Proof.
  intros I. cbn [step]. destruct (busy s) as [[[|a rest] ws res t]|] eqn:Eb; [eauto| |eauto]. assert (working s = a :: rest) as Ew by (unfold working; now rewrite Eb). destruct (work_live s _ a I Eb) as [x Hx]; [left|]. unfold at_. rewrite Hx. cbn [of_option obind].
  pose proof (q_nodup _ I) as Hn. rewrite Ew in Hn. assert (NoDup (submissions (pend s) ++ rest) /\ a ∉ submissions (pend s) ++ rest) as [Hn1 Hn2] by (rewrite <- Permutation_middle in Hn; apply NoDup_cons in Hn; tauto).
  destruct ws as [|w ws].
  - apply (next_inv s a rest [] res t (pend s) [Done (serial x)] [a] res); auto; try apply reflagged_same; try apply (q_ready _ I).
    + intros n ws [H|H]%elem_of_cons; [discriminate|now apply not_elem_of_nil in H].
    + intros y Hy. right. left. rewrite Hx in Hy. injection Hy as <-. left.
    + intros n [[= ->]|H]%elem_of_cons; [eauto|now apply not_elem_of_nil in H].
    + intros Hr. split; [assumption|]. intros y Hy. rewrite Hx in Hy. injection Hy as <-. left.
  - destruct (Z.eqb_spec r VK_SUCCESS) as [Hr|Hr].
    + eexists. split; [reflexivity|]. apply (moved_inv s _ _ _ _ [Invalidated (serial x) w]); auto; try apply reflagged_same; try apply (q_ready _ I); try (intros n ws0 w0 [H|H]%elem_of_cons; [discriminate|now apply not_elem_of_nil in H]); try (intros n ws0 [H|H]%elem_of_cons; [discriminate|now apply not_elem_of_nil in H]);
        try (intros n [H|H]%elem_of_cons; [discriminate|now apply not_elem_of_nil in H]).
      * intros b. unfold held at 2. rewrite Ew. counts.
      * intros n H. left. now rewrite Ew in H.
      * intros c b rest' [= <-] [= <- <-]. destruct (q_head _ I _ a rest Eb eq_refl) as (y & done & Hy & E & Hi). exists y, (done ++ [w]). cbn [left] in *. rewrite Hx in Hy. injection Hy as <-. rewrite <- app_assoc. split_and!; auto.
        intros v [Hv|Hv]%elem_of_app; [right; auto|]. apply list_elem_of_singleton in Hv as ->. left.
      * intros c n [= <-] Hr' Hn'. cbn [result taken work] in *. destruct (q_taken _ I _ n Eb Hr' Hn') as [H|H]; [now left|]. rewrite !elem_of_app. tauto.
    + unfold failed, at_. rewrite Hx. cbn [of_option obind]. destruct (cancelled x) eqn:Ec; cbn [obind].
      * apply (next_inv s a rest (w :: ws) res t (pend s) [] [a] r); auto; try apply reflagged_same; try apply (q_ready _ I); try no_event; try contradiction.
        -- intros y Hy. right. rewrite Hx in Hy. injection Hy as <-. right. left. now apply (q_cancelled _ I a x).
      * assert (reflagged ([] ++ log s) (heap (pend s)) (<[a := set_ready false x]> (heap (pend s)))) as R by (apply (reflagged_insert _ _ a x); auto).
        apply (next_inv s a rest (w :: ws) res t (Pending (<[a := set_ready false x]> (heap (pend s))) (a :: submissions (pend s)) (next_serial (pend s)) (fresh (pend s))) [] [] r); auto; cbn [submissions heap]; try no_event; try contradiction.
        -- intros b. counts.
        -- intros b Hb. now right.
        -- intros b y Hb Hy. destruct (decide (b = a)) as [->|Hne]; [rewrite lookup_insert_eq in Hy; now injection Hy as <-|]. rewrite lookup_insert_ne in Hy by congruence. apply elem_of_cons in Hb as [->|Hb]; [contradiction|]. now apply (q_ready _ I b).
        -- cbn [app]. now apply NoDup_cons.
        -- intros y Hy. left. left.
Qed.

Lemma readback_step_ok s o : inv s -> exists s', step s o = Ok s' /\ inv s'.
Proof.
  intros I. destruct o; [eexists; split; [reflexivity|]; now apply recs_inv|eexists; split; [reflexivity|]; now apply recs_inv|eexists; split; [reflexivity|]; now apply recs_inv|now apply submit_inv| | |now apply complete_inv|now apply invalidate_inv|now apply end_inv|now apply forget_inv|now apply drop_inv]; cbn [step].
  - destruct (submitters s !! k) as [a|] eqn:Ek; [|eauto]. destruct (submitted_inv s k a result0 I Ek) as (x & p & refs & Hx & E & I'). unfold at_. rewrite Hx. cbn [of_option obind]. rewrite E. cbn [obind]. eauto.
  - destruct (owed s !! k) as [a|] eqn:Ek; [|eauto]. destruct (release_inv s k a I Ek) as (p & -> & I'). cbn [obind]. eauto.
Qed.

Lemma readback_run_ok : forall os s, inv s -> exists s', run s os = Ok s' /\ inv s'.
Proof. induction os as [|o os IH]; intros s I; [eauto|]. cbn [run]. destruct (readback_step_ok s o I) as (s1 & -> & I1). cbn [obind]. now apply IH. Qed.

(** What a wait covers: the registered submissions of the device up to one with the fence on the same queue; without a fence those of the
    queue, or all. *)
Definition covers (s : sys) (d : layer_device) (q f : Z) (x : submission) : Prop :=
  owner x d = true /\ if decide (f = 0) then q = 0 \/ queue x = q
                      else exists m y, m ∈ submissions (pend s) /\ heap (pend s) !! m = Some y /\ owner y d = true /\ fence y = f /\ queue x = queue y /\ serial x <= serial y.

Lemma covered_covers s d q f all x : load (pend s) (submissions (pend s)) = Ok all -> inv s -> covered d q f all x = true <-> covers s d q f x.
Proof.
  intros El I. destruct (submissions_load_ok (pend s) _ (registry_live s I)) as (r & El' & E1 & Ha). rewrite El in El'. injection El' as <-. unfold covered, covers. destruct (decide (f = 0)) as [->|Hf]; cbn [Z.eqb negb].
  - rewrite andb_true_iff, orb_true_iff, !Z.eqb_eq. tauto.
  - rewrite (proj2 (Z.eqb_neq f 0)) by assumption. cbn [negb]. rewrite andb_true_iff, existsb_exists. split; (intros [H1 H2]; split; [assumption|]).
    + destruct H2 as ([m y] & Hm%list_elem_of_In & Hb). cbn [snd] in Hb. rewrite !andb_true_iff, !Z.eqb_eq, Z.leb_le in Hb. exists m, y. split; [rewrite <- E1; now apply (list_elem_of_fmap_2 fst all (m, y))|]. split; [now apply Ha|tauto].
    + destruct H2 as (m & y & Hm & Hy & Ho & Hfe & Hq & Hs). rewrite <- E1 in Hm. apply list_elem_of_fmap in Hm as ([m' y'] & -> & Hin). exists (m', y'). split; [now apply list_elem_of_In|]. pose proof (Ha _ _ Hin) as Hy'. cbn [fst snd] in *. rewrite Hy in Hy'. injection Hy' as <-.
      rewrite !andb_true_iff, !Z.eqb_eq, Z.leb_le. auto.
Qed.

Lemma complete_covers s d q f : inv s -> busy s = None -> exists s' c, step s (OComplete d q f) = Ok s' /\ busy s' = Some c /\ forall a x, heap (pend s) !! a = Some x -> a ∈ work c <-> a ∈ submissions (pend s) /\ covers s d q f x.
Proof.
  intros I Eb. cbn [step]. rewrite Eb. destruct (detach_inv s d q f I) as (p' & w & -> & D). cbn [obind]. destruct (first_writes_ok p' w.*1) as (ws & -> & _); [intros a ([b x] & -> & Hx)%list_elem_of_fmap; cbn [fst]; rewrite (d_work _ _ _ _ _ _ D _ _ Hx); eauto|].
  cbn [obind]. eexists _, _. split; [reflexivity|]. split; [reflexivity|]. intros a x Hx. cbn [work]. destruct (d_covered _ _ _ _ _ _ D) as (all & El & Hc). rewrite (Hc a x Hx), (covered_covers s d q f all x El I). reflexivity.
Qed.

(** C14: under any interleaving of recording, submitting, waiting and destroying, whatever the driver and the
    allocator answer, no freed submission is touched, a submission lives exactly as long as it has a holder and
    its count is the number of its holders.  Every published submission is in the registry or in the completion under way
    until all ranges copied from its command buffers have been invalidated, unless the driver refused it or its device is
    gone.  A completion takes exactly the registered submissions that the wait covers, and one that has finished without an
    error has invalidated all it has taken that the driver did not refuse. *)
Theorem readback_tracked (os : list op) :
  exists s, run start os = Ok s /\
    (forall a, a ∈ held s <-> is_Some (heap (pend s) !! a)) /\ (forall a x, heap (pend s) !! a = Some x -> references x = Z.of_nat (count a (held s))) /\
    (forall n ws, Published n ws ∈ log s -> waiting s (submissions (pend s) ++ working s) n \/ (Done n ∈ log s /\ forall w, w ∈ ws -> Invalidated n w ∈ log s) \/ Cancelled n ∈ log s \/ Dropped n ∈ log s) /\
    (forall c n, busy s = Some c -> work c = [] -> result c = VK_SUCCESS -> n ∈ taken c -> Cancelled n ∈ log s \/ Done n ∈ log s /\ forall ws w, Published n ws ∈ log s -> w ∈ ws -> Invalidated n w ∈ log s) /\
    (busy s = None -> forall d q f, exists s' c, step s (OComplete d q f) = Ok s' /\ busy s' = Some c /\ forall a x, heap (pend s) !! a = Some x -> a ∈ work c <-> a ∈ submissions (pend s) /\ covers s d q f x).
Proof.
  destruct (readback_run_ok os start start_ok) as (s & E & I). exists s. split; [assumption|]. split_and!.
  - intros a. split; [apply (q_live _ I)|]. intros [x Hx]. destruct (q_count _ I a x Hx). apply count_in. lia.
  - intros a x Hx. apply (q_count _ I a x Hx).
  - intros n ws H. destruct (q_tracked _ I n ws H) as [H1|[H1|H1]]; [auto| |auto]. right. left. split; [assumption|]. intros w Hw. now apply (q_done _ I n ws).
  - intros c n Hc Hw Hr Hn. destruct (q_taken _ I c n Hc Hr Hn) as [(a & x & Ha & _)|[H|H]]; [rewrite Hw in Ha; now apply not_elem_of_nil in Ha| |auto]. right. split; [assumption|]. intros ws w Hp Hin. now apply (q_done _ I n ws).
  - intros Hb d q f. now apply complete_covers.
Qed.

(** ** Snapshots *)

Lemma same_range_eq a b : same_range a b = true <-> a = b.
Proof. unfold same_range. rewrite !andb_true_iff, !Z.eqb_eq. destruct a, b. cbn. split; [intros (((-> & ->) & ->) & ->); reflexivity|intros [= -> -> -> ->]; auto]. Qed.

Lemma append_ok allocs ws r : let '(ws', e, _) := append allocs ws r in
  e = VK_SUCCESS /\ (forall w, w ∈ ws' <-> w = r \/ w ∈ ws) /\ (NoDup ws -> NoDup ws') \/ e = VK_ERROR_OUT_OF_HOST_MEMORY /\ ws' = ws.
Proof.
  unfold append. destruct (existsb _ ws) eqn:E.
  - left. split; [reflexivity|]. apply existsb_exists in E as (x & Hx%list_elem_of_In & ->%same_range_eq). split; [|auto]. intros w. split; [auto|intros [->|]; auto].
  - destruct (next_alloc allocs) as [[|] l]; cbn [negb]; [left|right; auto]. split; [reflexivity|]. split; [intros w; apply elem_of_cons|]. intros Hn. apply NoDup_cons. split; [|assumption]. intros Hin.
    assert (existsb (fun w => same_range w r) ws = true) by (apply existsb_exists; exists r; split; [now apply list_elem_of_In|now apply same_range_eq]). congruence.
Qed.

(** What adding a list of ranges guarantees. *)
Definition added (ws l ws' : list range) (e : Z) : Prop :=
  e = VK_SUCCESS /\ (forall w, w ∈ ws' <-> w ∈ l \/ w ∈ ws) /\ (NoDup ws -> NoDup ws') \/ e = VK_ERROR_OUT_OF_HOST_MEMORY.

Lemma collect_loop_ok : forall l allocs ws, let '(ws', e, _) := collect_loop allocs ws l in added ws l ws' e.
Proof.
  induction l as [|r l IH]; intros allocs ws; cbn [collect_loop]; [left; split_and!; auto; intros w; rewrite elem_of_nil; tauto|]. pose proof (append_ok allocs ws r) as H. destruct (append allocs ws r) as [[ws1 e1] al1]. destruct H as [(-> & H1 & H2)|[-> ->]]; cbn [Z.eqb VK_SUCCESS VK_ERROR_OUT_OF_HOST_MEMORY negb]; [|now right].
  specialize (IH al1 ws1). destruct (collect_loop al1 ws1 l) as [[ws2 e2] al2]. destruct IH as [(-> & H3 & H4)| ->]; [left|now right]. split_and!; auto. intros w. rewrite H3, H1, elem_of_cons. tauto.
Qed.

Definition recorded (rs : list recording) (c : Z) : list range := match find_recording rs c with Some (_, r) => r_writes r | None => [] end.

Lemma collect_all_ok rs : forall cs allocs ws, let '(ws', e, _) := collect_all rs allocs ws cs in added ws (concat (recorded rs <$> cs)) ws' e.
Proof.
  induction cs as [|c cs IH]; intros allocs ws; cbn [collect_all fmap list_fmap concat]; [left; split_and!; auto; intros w; rewrite elem_of_nil; tauto|]. assert (let '(ws', e, _) := collect rs allocs ws c in added ws (recorded rs c) ws' e) as H.
  { unfold collect, recorded. destruct (find_recording rs c) as [[k r]|]; [apply collect_loop_ok|]. left. split_and!; auto. intros w. rewrite elem_of_nil. tauto. }
  destruct (collect rs allocs ws c) as [[ws1 e1] al1]. destruct H as [(-> & H1 & H2)| ->]; cbn [Z.eqb VK_SUCCESS VK_ERROR_OUT_OF_HOST_MEMORY negb]; [|now right].
  specialize (IH al1 ws1). destruct (collect_all rs al1 ws1 cs) as [[ws2 e2] al2]. destruct IH as [(-> & H3 & H4)| ->]; [left|now right]. split_and!; auto. intros w. rewrite H3, H1, elem_of_app. tauto.
Qed.

(** C33: a submission is a snapshot.  When a submission of a device with the readback policy is published, it owns exactly the ranges
    recorded by the command buffers of its batches, each once, and the registry, in which it comes first, keeps all others;
    when it cannot be, the error is out of memory and nothing has changed. *)
Theorem submission_snapshot (p : pending) (rs : list recording) (d : layer_device) (allocator : option Z) (allocs : list bool) (batches : bool) (q f : Z) (cs : list Z)
    (Hpolicy : has (policy d) HOST_READBACK_INVALIDATE = true) (Hwork : batches || negb (f =? 0) = true) :
  exists p' r, submit p rs (Some d) allocator allocs batches q f cs = (p', r) /\
    match r with
    | inl None => False
    | inl (Some a) => exists x, heap p' = <[a := x]> (heap p) /\ submissions p' = a :: submissions p /\ serial x = next_serial p' /\ next_serial p' = next_serial p + 1 /\ owner x d = true /\ queue x = q /\ fence x = f /\
                        NoDup (writes x) /\ forall w, w ∈ writes x <-> exists c, c ∈ cs /\ w ∈ recorded rs c
    | inr e => e = VK_ERROR_OUT_OF_HOST_MEMORY /\ p' = p
    end.
Proof.
  unfold submit. rewrite Hpolicy, Hwork. cbn [andb]. destruct (next_alloc allocs) as [ok al]. destruct (negb ok); [eexists _, _; split; [reflexivity|]; easy|]. pose proof (collect_all_ok rs cs al []) as H. destruct (collect_all rs al [] cs) as [[ws e] al'].
  destruct H as [(-> & H1 & H2)| ->]; [rewrite Z.eqb_refl; cbn [negb]|do 2 eexists; split; [reflexivity|]; easy]. destruct (next_serial p =? UINT64_MAX); eexists _, _; (split; [reflexivity|]); [easy|].
  eexists. split; [reflexivity|]. cbn [submissions next_serial serial queue fence writes]. split_and!; auto.
  - unfold owner. cbn. now rewrite !Z.eqb_refl.
  - apply H2. constructor.
  - intros w. rewrite H1, elem_of_nil, list_elem_of_In, in_concat. split.
    + intros [(l & Hl & Hw)|Hf]; [|contradiction]. apply list_elem_of_In, list_elem_of_fmap in Hl as (c & -> & Hc). exists c. split; [assumption|now apply list_elem_of_In].
    + intros (c & Hc & Hw). left. exists (recorded rs c). split; [apply list_elem_of_In; now apply list_elem_of_fmap_2|now apply list_elem_of_In].
Qed.

Definition sample_recordings : list recording :=
  (remember (remember (remember [] (Some (77, 8, None)) [] 11 (Range 500 3 0 64)).1.1 None [] 11 (Range 500 3 128 64)).1.1 (Some (77, 8, None)) [] 12 (Range 500 3 0 64)).1.1.

Lemma submission_snapshot_witness : exists p x, submit no_submissions sample_recordings (Some sample_layer) None [] true 20 9 [11; 12; 13] = (p, inl (Some 0%nat)) /\ heap p !! 0%nat = Some x /\ length (writes x) = 2%nat /\
  forall w, w ∈ writes x <-> exists c, c ∈ [11; 12; 13] /\ w ∈ recorded sample_recordings c.
Proof.
  destruct (submission_snapshot no_submissions sample_recordings sample_layer None [] true 20 9 [11; 12; 13] eq_refl eq_refl) as (p & r & E & H). pose proof E as E'. vm_compute in E'. injection E' as Ep Er. subst r. destruct H as (x & Hh & _ & _ & _ & _ & _ & _ & _ & Hw).
  exists p, x. split; [exact E|]. assert (heap p !! 0%nat = Some x) as Hx by (rewrite Hh; apply lookup_insert_eq). split; [exact Hx|]. split; [|exact Hw]. rewrite <- Ep in Hx. vm_compute in Hx. injection Hx as <-. reflexivity.
Defined.

(** A submission whose invalidation fails stays behind when the one with the fence is done: a second wait
    on the fence finds nothing to do and succeeds, although the ranges of the first submission were never invalidated. *)
Definition failing_session : list op :=
  [ORemember (Some (77, 8, None)) [] 11 (Range 500 3 0 64); ORemember (Some (77, 8, None)) [] 12 (Range 500 3 128 64);
   OSubmit (Some sample_layer) None [] true 20 0 [11]; OSubmit (Some sample_layer) None [] true 20 9 [12]; OSubmitted 0 VK_SUCCESS; OSubmitted 0 VK_SUCCESS;
   OComplete sample_layer 0 9; OInvalidate VK_ERROR_MEMORY_MAP_FAILED; OInvalidate VK_SUCCESS; OInvalidate VK_SUCCESS].
Definition outcome_of (os : list op) : outcome (option (list nat * Z) * list nat * bool) :=
  let! s := run start os in Ok ((fun c => (work c, result c)) <$> busy s, submissions (pend s), existsb (fun e => match e with Done 1 => true | _ => false end) (log s)).

Example second_wait_skips :
  outcome_of failing_session = Ok (Some ([], VK_ERROR_MEMORY_MAP_FAILED), [0%nat], false) /\
  outcome_of (failing_session ++ [OEnd; OComplete sample_layer 0 9]) = Ok (Some ([], VK_SUCCESS), [0%nat], false).
Proof. split; vm_compute; reflexivity. Qed.
End Readback.
