(* ===== verification/BcImage.v ===== *)
(** * Images with block-compressed backing (vulkan/compat/bc_image.c)

    An emulated image is a decoded image and a buffer with the compressed blocks of all levels, layers and slices.
    [hybris_bc_image_describe] checks the creation info and lays the levels out; the blocks have
    distinct places in the buffer.  Vulkan calls are answers, calls that create or destroy an object are events. *)

From Stdlib Require Import ZArith Lia Bool.
From stdpp Require Import base numbers option list.
From S2P Require Import Prelude.

Open Scope Z_scope.
Open Scope outcome_scope.

Module BcImage.

Definition VK_SUCCESS : Z := 0.
Definition VK_ERROR_OUT_OF_DEVICE_MEMORY : Z := -2.
Definition VK_ERROR_INITIALIZATION_FAILED : Z := -3.
Definition VK_ERROR_FORMAT_NOT_SUPPORTED : Z := -11.
Definition UINT64_MAX : Z := 2 ^ 64 - 1.
Definition VK_FORMAT_UNDEFINED : Z := 0.
Definition VK_FORMAT_BC1_RGB_UNORM_BLOCK : Z := 131.
Definition VK_FORMAT_BC1_RGBA_UNORM_BLOCK : Z := 133.
Definition VK_FORMAT_BC1_RGBA_SRGB_BLOCK : Z := 134.
Definition VK_FORMAT_BC4_UNORM_BLOCK : Z := 139.
Definition VK_FORMAT_BC4_SNORM_BLOCK : Z := 140.
Definition VK_FORMAT_BC7_SRGB_BLOCK : Z := 146.
Definition VK_FORMAT_R5G6B5_UNORM_PACK16 : Z := 4.
Definition VK_FORMAT_A1R5G5B5_UNORM_PACK16 : Z := 8.
Definition VK_IMAGE_TYPE_2D : Z := 1.
Definition VK_IMAGE_TYPE_3D : Z := 2.
Definition CREATE_CUBE_COMPATIBLE : Z := 0x10.
Definition CREATE_MUTABLE_FORMAT : Z := 0x8.
(** Cube, mutable, 2D-array and 2D-view compatible, multisampled render to single sampled. *)
Definition CREATE_ALLOWED : Z := 0x10 + 0x8 + 0x20 + 0x20000 + 0x40000.
(** Sampled, transfer source and destination. *)
Definition USAGE_ALLOWED : Z := 7.
Definition USAGE_TRANSFER_DST : Z := 2.
Definition LAYOUT_PREINITIALIZED : Z := 8.
Definition MEMORY_DEVICE_LOCAL : Z := 1.
(** Storage, transfer source and destination. *)
Definition BACKING_USAGE : Z := 0x23.

(** ** Formats *)

Definition hybris_bc_image_format (f : Z) : Z :=
  match f with
  | 131 | 133 | 135 | 137 | 145 => 37
  | 132 | 134 | 136 | 138 | 146 => 43
  | 139 => 9 | 140 => 10 | 141 => 16 | 142 => 17
  | 143 | 144 => 97
  | _ => VK_FORMAT_UNDEFINED
  end.

Definition hybris_bc_transcode_format (f : Z) : Z :=
  match f with
  | 131 | 133 | 135 | 137 | 145 => 157
  | 132 | 134 | 136 | 138 | 146 => 158
  | 139 => 153 | 140 => 154 | 141 => 155 | 142 => 156
  | 143 | 144 => 1000066000
  | _ => VK_FORMAT_UNDEFINED
  end.

Definition hybris_bc_mutable_format (f : Z) : bool := (VK_FORMAT_BC1_RGB_UNORM_BLOCK <=? f) && (f <=? VK_FORMAT_BC7_SRGB_BLOCK).
Definition has (flags bit : Z) : bool := negb (Z.land flags bit =? 0).
Definition hybris_bc_view_format_allowed (base view flags : Z) : bool :=
  if base =? view then true else
  has flags CREATE_MUTABLE_FORMAT && hybris_bc_mutable_format base && hybris_bc_mutable_format view &&
  ((base - VK_FORMAT_BC1_RGB_UNORM_BLOCK) / 2 =? (view - VK_FORMAT_BC1_RGB_UNORM_BLOCK) / 2).

(** ** Layout *)

Record extent3d := Extent { width : Z; height : Z; depth : Z }.
Record hybris_bc_image := Image {
  image : Z; blocks : Z; decoded_memory : Z; live : bool; format : Z; decoded_format : Z; type : Z; flags : Z;
  extent : extent3d; mip_levels : Z; layers : Z; block_bytes : Z; mip_offset : list Z; block_size : Z }.
Definition zeroed : hybris_bc_image := Image 0 0 0 false 0 0 0 0 (Extent 0 0 0) 0 0 0 (replicate 32 0) 0.

Definition nonzero (z : Z) : Z := if z =? 0 then 1 else z.
Definition hybris_bc_image_extent (i : hybris_bc_image) (mip : Z) : extent3d :=
  if mip_levels i <=? mip then Extent 0 0 0
  else Extent (nonzero (Z.shiftr (width (extent i)) mip)) (nonzero (Z.shiftr (height (extent i)) mip)) (nonzero (Z.shiftr (depth (extent i)) mip)).

(** Blocks along an extent: [(n + UINT64_C(3)) / 4]. *)
Definition blocks_of (n : Z) : Z := u64 (n + 3) / 4.

Definition hybris_bc_image_slice_size (i : hybris_bc_image) (mip : Z) : Z :=
  let e := hybris_bc_image_extent i mip in u64 (u64 (blocks_of (width e) * blocks_of (height e)) * block_bytes i).
Definition hybris_bc_image_layer_size (i : hybris_bc_image) (mip : Z) : Z :=
  u64 (hybris_bc_image_slice_size i mip * depth (hybris_bc_image_extent i mip)).

(** The structures of the [pNext] chain the code looks at. *)
Inductive chained := FormatList (views : list Z) | ExternalMemory (types : Z) | Swapchain (handle : Z) | OtherStructure.
Record image_info := Info {
  i_flags : Z; i_type : Z; i_format : Z; i_extent : extent3d; i_mips : Z; i_layers : Z; i_samples : Z; i_tiling : Z; i_usage : Z; i_layout : Z; i_chain : list chained }.

Definition refused (i : image_info) : bool :=
  let e := i_extent i in
  (hybris_bc_image_format (i_format i) =? VK_FORMAT_UNDEFINED) || (negb (i_type i =? VK_IMAGE_TYPE_2D) && negb (i_type i =? VK_IMAGE_TYPE_3D)) ||
  negb (i_tiling i =? 0) || negb (i_samples i =? 1) || (negb (i_layout i =? 0) && negb (i_layout i =? LAYOUT_PREINITIALIZED)) ||
  negb (Z.ldiff (i_flags i) CREATE_ALLOWED =? 0) || (has (i_flags i) CREATE_MUTABLE_FORMAT && negb (hybris_bc_mutable_format (i_format i))) ||
  (i_usage i =? 0) || negb (Z.ldiff (i_usage i) USAGE_ALLOWED =? 0) || (width e =? 0) || (height e =? 0) || (depth e =? 0) ||
  ((i_type i =? VK_IMAGE_TYPE_2D) && negb (depth e =? 1)) ||
  ((i_type i =? VK_IMAGE_TYPE_3D) && (negb (i_layers i =? 1) || has (i_flags i) CREATE_CUBE_COMPATIBLE)) ||
  (i_mips i =? 0) || (32 <? i_mips i) || (i_layers i =? 0).

Definition chain_allowed (i : image_info) (c : chained) : bool :=
  match c with
  | FormatList views => forallb (fun v => hybris_bc_view_format_allowed (i_format i) v (i_flags i)) views
  | ExternalMemory t => t =? 0
  | Swapchain h => h =? 0
  | OtherStructure => false
  end.

(** [while (dimension >>= 1) ++levels]; the fuel is the width of the type. *)
Fixpoint count_levels (fuel : nat) (dimension levels : Z) : Z :=
  match fuel with
  | O => levels
  | S fuel => let d := Z.shiftr dimension 1 in if d =? 0 then levels else count_levels fuel d (levels + 1)
  end.
Definition level_limit (e : extent3d) : Z :=
  let d := if height e <? width e then width e else height e in
  count_levels 32 (if d <? depth e then depth e else d) 1.

Definition bytes_per_block (f : Z) : Z :=
  if (f <=? VK_FORMAT_BC1_RGBA_SRGB_BLOCK) || (f =? VK_FORMAT_BC4_UNORM_BLOCK) || (f =? VK_FORMAT_BC4_SNORM_BLOCK) then 8 else 16.

Definition with_layout (i : hybris_bc_image) (offsets : list Z) (size : Z) : hybris_bc_image :=
  Image (image i) (blocks i) (decoded_memory i) (live i) (format i) (decoded_format i) (type i) (flags i) (extent i) (mip_levels i) (layers i) (block_bytes i) offsets size.

(** One level of the loop over the levels. *)
Definition add_level (i : hybris_bc_image) (mip : Z) : outcome (Z * hybris_bc_image) :=
  if 32 <=? mip then Undef else
  let i := with_layout i (<[Z.to_nat mip := block_size i]> (mip_offset i)) (block_size i) in
  let e := hybris_bc_image_extent i mip in
  let n := u64 (blocks_of (width e) * blocks_of (height e)) in
  if UINT64_MAX / block_bytes i / layers i / depth e <? n then Ok (VK_ERROR_OUT_OF_DEVICE_MEMORY, i) else
  let bytes := u64 (u64 (u64 (n * block_bytes i) * layers i) * depth e) in
  if UINT64_MAX - block_size i <? bytes then Ok (VK_ERROR_OUT_OF_DEVICE_MEMORY, i)
  else Ok (VK_SUCCESS, with_layout i (mip_offset i) (u64 (block_size i + bytes))).

(** [n] levels are to be added. *)
Fixpoint add_levels (i : hybris_bc_image) (mip : Z) (n : nat) : outcome (Z * hybris_bc_image) :=
  match n with
  | O => Ok (VK_SUCCESS, i)
  | S n => let! (r, i) := add_level i mip in if negb (r =? VK_SUCCESS) then Ok (r, i) else add_levels i (mip + 1) n
  end.

Definition described (i : image_info) : hybris_bc_image :=
  Image 0 0 0 false (i_format i) 0 (i_type i) (i_flags i) (i_extent i) (i_mips i) (i_layers i) (bytes_per_block (i_format i)) (replicate 32 0) 0.
Definition hybris_bc_image_describe (i : image_info) : outcome (Z * hybris_bc_image) :=
  if refused i || negb (forallb (chain_allowed i) (i_chain i)) || (level_limit (i_extent i) <? i_mips i) then Ok (VK_ERROR_FORMAT_NOT_SUPPORTED, zeroed)
  else add_levels (described i) 0 (Z.to_nat (i_mips i)).

(** The size and usage of the backing buffer. *)
Definition hybris_bc_image_backing_info (i : hybris_bc_image) : Z * Z := (block_size i, BACKING_USAGE).

(** ** Creation and destruction *)

Inductive object := OImage (h : Z) | OMemory (h : Z) | OBuffer (h : Z).
Inductive event := ECreate (o : object) | EDestroy (o : object).
(** A creation's answer: the result code and what it leaves in the handle. *)
Record answer := Answer { code : Z; handle : Z }.
Definition made (mk : Z -> object) (a : answer) : list event := if code a =? VK_SUCCESS then [ECreate (mk (handle a))] else [].
Definition dropped (mk : Z -> object) (h : Z) : list event := if h =? 0 then [] else [EDestroy (mk h)].

Definition hybris_bc_image_destroy (i : hybris_bc_image) : hybris_bc_image * list event :=
  if negb (live i) then (i, []) else (zeroed, dropped OImage (image i) ++ dropped OBuffer (blocks i) ++ dropped OMemory (decoded_memory i)).

(** The type of memory: the first suitable one, or the first suitable one that is local to the device.  [types] are the property
    flags from type [k] on, [best] the choice so far. *)
Fixpoint select_type (bits : Z) (types : list Z) (k : Z) (best : option Z) : option Z :=
  match types with
  | [] => best
  | t :: types =>
      if negb (Z.testbit bits k) then select_type bits types (k + 1) best else
      let best := match best with None => Some k | Some b => Some b end in
      if has t MEMORY_DEVICE_LOCAL then Some k else select_type bits types (k + 1) best
  end.

Definition with_objects (i : hybris_bc_image) (img mem buf df : Z) : hybris_bc_image :=
  Image img buf mem true (format i) df (type i) (flags i) (extent i) (mip_levels i) (layers i) (block_bytes i) (mip_offset i) (block_size i).

(** The format of the decoded image. *)
Definition choose_format (i : image_info) (rgb_mask output : Z) : Z :=
  if negb (output =? VK_FORMAT_UNDEFINED) then output else
  let f := hybris_bc_image_format (i_format i) in
  if has (i_flags i) CREATE_MUTABLE_FORMAT then f else
  let f := if (i_format i =? VK_FORMAT_BC1_RGB_UNORM_BLOCK) && has rgb_mask 1 then VK_FORMAT_R5G6B5_UNORM_PACK16 else f in
  if (i_format i =? VK_FORMAT_BC1_RGBA_UNORM_BLOCK) && has rgb_mask 2 then VK_FORMAT_A1R5G5B5_UNORM_PACK16 else f.

(** What Vulkan answers: whether all entry points are there, the image, its memory bits, the memory, its binding, the buffer. *)
Record answers := Answers { procs : bool; a_image : answer; bits : Z; a_memory : answer; bound : Z; a_buffer : answer }.

Definition hybris_bc_image_create (i : image_info) (types : list Z) (rgb_mask output : Z) (a : answers) : outcome (Z * hybris_bc_image * list event) :=
  let! (r, img) := hybris_bc_image_describe i in
  if negb (r =? VK_SUCCESS) then Ok (r, img, []) else
  if negb (procs a) then Ok (VK_ERROR_INITIALIZATION_FAILED, zeroed, []) else
  let df := choose_format i rgb_mask output in
  let fail r img ev := (let (img, ev') := hybris_bc_image_destroy img in Ok (r, img, ev ++ ev')) in
  let img := with_objects img (handle (a_image a)) 0 0 df in
  let ev := made OImage (a_image a) in
  if negb (code (a_image a) =? VK_SUCCESS) then fail (code (a_image a)) img ev else
  match select_type (bits a) types 0 None with
  | None => fail VK_ERROR_OUT_OF_DEVICE_MEMORY img ev
  | Some _ =>
      let img := with_objects img (handle (a_image a)) (handle (a_memory a)) 0 df in
      let ev := ev ++ made OMemory (a_memory a) in
      if negb (code (a_memory a) =? VK_SUCCESS) then fail (code (a_memory a)) img ev else
      if negb (bound a =? VK_SUCCESS) then fail (bound a) img ev else
      let img := with_objects img (handle (a_image a)) (handle (a_memory a)) (handle (a_buffer a)) df in
      let ev := ev ++ made OBuffer (a_buffer a) in
      if negb (code (a_buffer a) =? VK_SUCCESS) then fail (code (a_buffer a)) img ev else Ok (VK_SUCCESS, img, ev)
  end.

(** [r] is what the driver answers to the binding of the backing. *)
Definition hybris_bc_image_bind (i : hybris_bc_image) (r : Z) : Z := if blocks i =? 0 then VK_ERROR_INITIALIZATION_FAILED else r.

(** ** The place of a block *)

(** As the transfers compute it: slice [s] counts layers and slices of a level, [y] and [x] are in blocks. *)
Definition row_bytes (i : hybris_bc_image) (mip : Z) : Z := u64 (blocks_of (width (hybris_bc_image_extent i mip)) * block_bytes i).
Definition block_address (i : hybris_bc_image) (mip s y x : Z) : outcome Z :=
  let! base := rd (mip_offset i) mip in
  Ok (u64 (u64 (u64 (base + u64 (s * hybris_bc_image_slice_size i mip)) + u64 (y * row_bytes i mip)) + u64 (x * block_bytes i))).

(** The blocks an image has. *)
Definition in_image (i : hybris_bc_image) (mip s y x : Z) : Prop :=
  let e := hybris_bc_image_extent i mip in
  0 <= mip < mip_levels i /\ 0 <= s < layers i * depth e /\ 0 <= y < blocks_of (height e) /\ 0 <= x < blocks_of (width e).

(** The fields are 32-bit values. *)
Definition info_ok (i : image_info) : Prop :=
  in_range 32 (width (i_extent i)) /\ in_range 32 (height (i_extent i)) /\ in_range 32 (depth (i_extent i)) /\ in_range 32 (i_mips i) /\ in_range 32 (i_layers i).

(** Bytes of a level, without wrapping. *)
Definition level_bytes (i : hybris_bc_image) (mip : Z) : Z :=
  let e := hybris_bc_image_extent i mip in blocks_of (width e) * blocks_of (height e) * block_bytes i * layers i * depth e.
Fixpoint total (f : Z -> Z) (n : nat) : Z := match n with O => 0 | S n => total f n + f (Z.of_nat n) end.

Lemma blocks_range n : in_range 32 n -> 1 <= n -> 1 <= blocks_of n <= 2 ^ 30.
Proof. intros H1 H2. unfold blocks_of, in_range in *. rewrite wrap_small by (unfold in_range; lia). split; [apply Z.div_le_lower_bound; lia|]. apply Z.lt_succ_r. apply Z.div_lt_upper_bound; lia. Qed.

(** What the levels leave alone. *)
Record shape (i : hybris_bc_image) : Prop := {
  s_extent : in_range 32 (width (extent i)) /\ in_range 32 (height (extent i)) /\ in_range 32 (depth (extent i));
  s_layers : 1 <= layers i < 2 ^ 32;
  s_bytes : block_bytes i = 8 \/ block_bytes i = 16 }.

Lemma extent_ok i mip : shape i -> 0 <= mip < mip_levels i -> let e := hybris_bc_image_extent i mip in
  1 <= blocks_of (width e) <= 2 ^ 30 /\ 1 <= blocks_of (height e) <= 2 ^ 30 /\ 1 <= depth e < 2 ^ 32.
Proof.
  intros [(Hw & Hh & Hd) _ _] Hm. unfold hybris_bc_image_extent. rewrite (proj2 (Z.leb_gt _ _)) by lia. cbn [width height depth].
  assert (forall n, in_range 32 n -> in_range 32 (nonzero (Z.shiftr n mip)) /\ 1 <= nonzero (Z.shiftr n mip)) as H.
  { intros n [N1 N2]. unfold nonzero, in_range. rewrite Z.shiftr_div_pow2 by lia. assert (0 < 2 ^ mip) by (apply Z.pow_pos_nonneg; lia). assert (0 <= n / 2 ^ mip) by (apply Z.div_pos; lia). assert (n / 2 ^ mip <= n) by (apply Z.div_le_upper_bound; nia). destruct (Z.eqb_spec (n / 2 ^ mip) 0); lia. }
  destruct (H _ Hw), (H _ Hh), (H _ Hd) as [D1 D2]. unfold in_range in D1. split_and!; try apply blocks_range; try assumption; lia.
Qed.

Lemma level_bytes_pos i mip : shape i -> 0 <= mip < mip_levels i -> 0 < level_bytes i mip.
Proof. intros Hs Hm. destruct (extent_ok i mip Hs Hm) as (Hw & Hh & Hd). destruct Hs as [_ Hl Hb]. unfold level_bytes. assert (0 < block_bytes i) by lia. repeat apply Z.mul_pos_pos; lia. Qed.

Lemma add_level_ok i mip : shape i -> 0 <= mip < mip_levels i -> mip < 32 -> 0 <= block_size i <= UINT64_MAX -> exists r i', add_level i mip = Ok (r, i') /\
  (r = VK_SUCCESS -> i' = with_layout i (<[Z.to_nat mip := block_size i]> (mip_offset i)) (block_size i + level_bytes i mip) /\ block_size i + level_bytes i mip <= UINT64_MAX).
Proof.
  intros Hs Hm H32 Hz. unfold add_level. rewrite (proj2 (Z.leb_gt _ _)) by lia. destruct (extent_ok i mip Hs Hm) as (Hw & Hh & Hd). pose proof (level_bytes_pos i mip Hs Hm) as Hp. destruct Hs as [_ Hl Hb].
  cbn [with_layout block_bytes layers mip_offset block_size]. change (hybris_bc_image_extent (with_layout i _ _) mip) with (hybris_bc_image_extent i mip). unfold level_bytes in *. set (e := hybris_bc_image_extent i mip) in *. set (w := blocks_of (width e)) in *. set (h := blocks_of (height e)) in *.
  assert (0 < w * h <= 2 ^ 60) by nia. rewrite (wrap_small 64 (w * h)) by (unfold in_range; lia). destruct (Z.ltb_spec (UINT64_MAX / block_bytes i / layers i / depth e) (w * h)) as [H1|H1]; [eexists _, _; split; [reflexivity|discriminate]|].
  rewrite (Z.div_div UINT64_MAX (block_bytes i) (layers i)), (Z.div_div UINT64_MAX (block_bytes i * layers i) (depth e)) in H1 by nia. assert (w * h * (block_bytes i * layers i * depth e) <= UINT64_MAX) as Hfit.
  { assert (0 < block_bytes i * layers i * depth e) by nia. apply Z.le_trans with (UINT64_MAX / (block_bytes i * layers i * depth e) * (block_bytes i * layers i * depth e)); [apply Z.mul_le_mono_nonneg_r; lia|]. rewrite Z.mul_comm. apply Z.mul_div_le. lia. }
  assert (w * h * block_bytes i <= w * h * block_bytes i * layers i <= w * h * block_bytes i * layers i * depth e) by nia. assert (w * h * block_bytes i * layers i * depth e <= UINT64_MAX) as Hf by nia. unfold UINT64_MAX in *.
  rewrite (wrap_small 64 (w * h * block_bytes i)) by (unfold in_range; nia). rewrite (wrap_small 64 (w * h * block_bytes i * layers i)) by (unfold in_range; nia). rewrite (wrap_small 64 (w * h * block_bytes i * layers i * depth e)) by (unfold in_range; lia).
  destruct (Z.ltb_spec (2 ^ 64 - 1 - block_size i) (w * h * block_bytes i * layers i * depth e)) as [H2|H2]; [eexists _, _; split; [reflexivity|discriminate]|]. eexists _, _. split; [reflexivity|]. intros _. rewrite wrap_small by (unfold in_range; lia). split; [reflexivity|lia].
Qed.

Lemma total_step f n : total f (S n) = total f n + f (Z.of_nat n).
Proof. reflexivity. Qed.

(** The levels follow one another. *)
Lemma add_levels_ok i0 : shape i0 -> mip_levels i0 <= 32 -> length (mip_offset i0) = 32%nat -> forall n mip i, (Z.of_nat mip + Z.of_nat n = mip_levels i0) -> length (mip_offset i) = 32%nat -> i = with_layout i0 (mip_offset i) (block_size i) ->
  block_size i = total (level_bytes i0) mip -> 0 <= block_size i <= UINT64_MAX -> (forall k, (k < mip)%nat -> mip_offset i !! k = Some (total (level_bytes i0) k)) ->
  exists r i', add_levels i (Z.of_nat mip) n = Ok (r, i') /\ (r = VK_SUCCESS -> i' = with_layout i0 (mip_offset i') (total (level_bytes i0) (Z.to_nat (mip_levels i0))) /\
    total (level_bytes i0) (Z.to_nat (mip_levels i0)) <= UINT64_MAX /\ forall k, (k < Z.to_nat (mip_levels i0))%nat -> mip_offset i' !! k = Some (total (level_bytes i0) k)).
Proof.
  intros Hs H32 _. induction n as [|n IH]; intros mip i Hn Hlen Ei Hz Hr Ho; cbn [add_levels].
  - exists VK_SUCCESS, i. split; [reflexivity|]. intros _. replace (Z.to_nat (mip_levels i0)) with mip by lia. rewrite <- Hz. split_and!; auto. lia.
  - assert (shape i) as Hsi by (rewrite Ei; now destruct Hs; constructor). assert (mip_levels i = mip_levels i0) as Em by now rewrite Ei. assert (forall m, level_bytes i m = level_bytes i0 m) as El by (intros m; now rewrite Ei).
    destruct (add_level_ok i (Z.of_nat mip) Hsi) as (r & i' & -> & Hok); [lia|lia|assumption|]. cbn [obind]. destruct (Z.eqb_spec r VK_SUCCESS) as [Hrs|Hrs]; cbn [negb]; [|exists r, i'; split; [reflexivity|contradiction]].
    destruct (Hok Hrs) as [-> Hb]. rewrite Nat2Z.id in *. replace (Z.of_nat mip + 1) with (Z.of_nat (S mip)) by lia. apply IH; cbn [with_layout mip_offset block_size]; auto.
    + lia.
    + now rewrite length_insert.
    + rewrite Ei at 1. reflexivity.
    + rewrite total_step, <- Hz, El. reflexivity.
    + split; [|assumption]. pose proof (level_bytes_pos i (Z.of_nat mip) Hsi). lia.
    + intros k Hk. destruct (decide (k = mip)) as [->|Hne]; [rewrite list_lookup_insert_eq by (rewrite Hlen; lia); now rewrite Hz|]. rewrite list_lookup_insert_ne by congruence. apply Ho. lia.
Qed.

Lemma described_shape i : info_ok i -> refused i = false -> shape (described i) /\ mip_levels (described i) <= 32 /\ 1 <= mip_levels (described i).
Proof.
  intros (H1 & H2 & H3 & H4 & H5) H. unfold refused in H. repeat match goal with H : (_ || _) = false |- _ => apply orb_false_iff in H as [H ?] end. repeat match goal with H : (_ =? _) = false |- _ => apply Z.eqb_neq in H | H : (_ <? _) = false |- _ => apply Z.ltb_ge in H end.
  split; [constructor; cbn [described extent layers block_bytes]|cbn [described mip_levels]; unfold in_range in *; lia].
  - auto.
  - unfold in_range in *. lia.
  - unfold bytes_per_block. match goal with |- context [if ?c then _ else _] => destruct c end; auto.
Qed.

(** A described image: its levels lie one after another in the backing. *)
Record laid_out (i : hybris_bc_image) : Prop := {
  l_shape : shape i;
  l_fits : 0 <= block_size i <= UINT64_MAX;
  l_size : block_size i = total (level_bytes i) (Z.to_nat (mip_levels i));
  l_offset : forall k, (k < Z.to_nat (mip_levels i))%nat -> mip_offset i !! k = Some (total (level_bytes i) k) }.

Lemma total_nonneg f n : (forall k, (k < n)%nat -> 0 <= f (Z.of_nat k)) -> 0 <= total f n.
Proof. induction n as [|n IH]; intros H; [cbn; lia|]. rewrite total_step. specialize (H n ltac:(lia)) as Hn. assert (0 <= total f n) by (apply IH; intros; apply H; lia). lia. Qed.

Lemma describe_ok i : info_ok i -> exists r img, hybris_bc_image_describe i = Ok (r, img) /\ (r = VK_SUCCESS -> laid_out img).
Proof.
  intros Hi. unfold hybris_bc_image_describe. destruct (refused i) eqn:Er; cbn [orb]; [eexists _, _; split; [reflexivity|discriminate]|]. destruct (negb _); cbn [orb]; [eexists _, _; split; [reflexivity|discriminate]|].
  destruct (_ <? _); [eexists _, _; split; [reflexivity|discriminate]|]. destruct (described_shape i Hi Er) as (Hs & H32 & H1).
  destruct (add_levels_ok (described i) Hs H32 eq_refl (Z.to_nat (i_mips i)) 0 (described i)) as (r & img & E & H); [cbn [described mip_levels] in *; lia|reflexivity|reflexivity|reflexivity|unfold UINT64_MAX; cbn; lia|intros; lia|].
  exists r, img. split; [exact E|]. intros Hr. destruct (H Hr) as (Ei & Hf & Ho). assert (forall m, level_bytes img m = level_bytes (described i) m) as El by (intros m; now rewrite Ei).
  assert (forall n, total (level_bytes img) n = total (level_bytes (described i)) n) as Et by (induction n as [|n IH]; [reflexivity|]; now rewrite !total_step, IH, El). assert (mip_levels img = mip_levels (described i)) as Em by now rewrite Ei.
  assert (shape img) as Hsi by (rewrite Ei; now destruct Hs; constructor). assert (0 <= total (level_bytes img) (Z.to_nat (mip_levels img))) by (apply total_nonneg; intros k Hk; pose proof (level_bytes_pos img (Z.of_nat k) Hsi); lia).
  constructor; [assumption| | |]; rewrite ?Et, ?Em; [|rewrite Ei; reflexivity|intros k Hk; rewrite Et; auto]. rewrite Ei. cbn [with_layout block_size]. rewrite Et, Em in *. lia.
Qed.

(** The number of a block within its level. *)
Definition index (i : hybris_bc_image) (mip s y x : Z) : Z :=
  let e := hybris_bc_image_extent i mip in (s * blocks_of (height e) + y) * blocks_of (width e) + x.
Definition offset (i : hybris_bc_image) (mip : Z) : Z := total (level_bytes i) (Z.to_nat mip).

Lemma index_range i mip s y x : shape i -> in_image i mip s y x -> 0 <= index i mip s y x /\ (index i mip s y x + 1) * block_bytes i <= level_bytes i mip.
Proof.
  intros Hs (Hm & H1 & H2 & H3). destruct (extent_ok i mip Hs Hm) as (Hw & Hh & Hd). destruct Hs as [_ Hl Hb]. unfold index, level_bytes. set (e := hybris_bc_image_extent i mip) in *. set (w := blocks_of (width e)) in *. set (h := blocks_of (height e)) in *.
  assert (s * h + y + 1 <= layers i * depth e * h) by nia. assert ((s * h + y) * w + x + 1 <= layers i * depth e * h * w) by nia. split; [nia|]. assert (0 < block_bytes i) by lia. nia.
Qed.

Lemma total_mono f a b : (a <= b)%nat -> (forall k, (k < b)%nat -> 0 <= f (Z.of_nat k)) -> total f a <= total f b.
Proof. intros Hab H. induction b as [|b IH]; [now replace a with 0%nat by lia|]. destruct (decide (a = S b)) as [->|]; [lia|]. rewrite total_step. specialize (H b ltac:(lia)) as Hb. assert (total f a <= total f b) by (apply IH; [lia|intros; apply H; lia]). lia. Qed.

Lemma offset_next i mip : 0 <= mip -> offset i mip + level_bytes i mip = offset i (mip + 1).
Proof. intros H. unfold offset. replace (Z.to_nat (mip + 1)) with (S (Z.to_nat mip)) by lia. rewrite total_step, Z2Nat.id by lia. reflexivity. Qed.

Lemma offset_mono i m n : laid_out i -> 0 <= m <= n -> n <= mip_levels i -> offset i m <= offset i n.
Proof. intros L Hm Hn. apply total_mono; [lia|]. intros k Hk. pose proof (level_bytes_pos i (Z.of_nat k) (l_shape _ L)). lia. Qed.

Lemma level_fits i mip : laid_out i -> 0 <= mip < mip_levels i -> 0 <= offset i mip /\ offset i mip + level_bytes i mip <= block_size i.
Proof.
  intros L Hm. split; [apply (offset_mono i 0 mip L); lia|]. rewrite offset_next by lia. rewrite (l_size _ L). apply (offset_mono i (mip + 1) (mip_levels i) L); lia.
Qed.

Lemma slice_le i mip : shape i -> 0 <= mip < mip_levels i -> let e := hybris_bc_image_extent i mip in blocks_of (width e) * blocks_of (height e) * block_bytes i <= level_bytes i mip.
Proof.
  intros Hs Hm. destruct (extent_ok i mip Hs Hm) as (Hw & Hh & Hd). destruct Hs as [_ Hl Hb]. unfold level_bytes. cbv zeta. set (e := hybris_bc_image_extent i mip) in *. set (n := blocks_of (width e) * blocks_of (height e) * block_bytes i).
  assert (0 < n) by (unfold n; apply Z.mul_pos_pos; [apply Z.mul_pos_pos; lia|lia]). assert (n <= n * layers i) by (apply Z.le_mul_diag_r; lia). assert (n * layers i <= n * layers i * depth e) by (apply Z.le_mul_diag_r; lia). lia.
Qed.

Lemma block_place i mip s y x : laid_out i -> in_image i mip s y x -> block_address i mip s y x = Ok (offset i mip + index i mip s y x * block_bytes i).
Proof.
  intros L H. pose proof (index_range i mip s y x (l_shape _ L) H) as [I1 I2]. pose proof H as (Hm & H1 & H2 & H3). destruct (level_fits i mip L Hm) as [F1 F2]. destruct (extent_ok i mip (l_shape _ L) Hm) as (Hw & Hh & Hd). pose proof (l_fits _ L) as Hf. destruct (l_shape _ L) as [_ Hl Hb]. assert (0 < block_bytes i) by lia.
  unfold block_address, rd. rewrite (proj2 (Z.ltb_ge mip 0)) by lia. rewrite (l_offset _ L) by lia. cbn [of_option obind]. fold (offset i mip). unfold hybris_bc_image_slice_size, row_bytes, index, UINT64_MAX in *. set (e := hybris_bc_image_extent i mip) in *. set (w := blocks_of (width e)) in *. set (h := blocks_of (height e)) in *.
  assert (0 < w * h <= 2 ^ 60) by (split; [apply Z.mul_pos_pos; lia|]; change (2 ^ 60) with (2 ^ 30 * 2 ^ 30); apply Z.mul_le_mono_nonneg; lia). set (bb := block_bytes i) in *.
  assert (0 < w * bb < 2 ^ 64) as B2 by (destruct Hb as [E|E]; rewrite E; lia).
  assert (0 < w * h * bb < 2 ^ 64) as B1 by (pose proof (slice_le i mip (l_shape _ L) Hm) as Hsl; cbv zeta in Hsl; fold e in Hsl; fold w h bb in Hsl; split; [apply Z.mul_pos_pos; lia|lia]). rewrite (wrap_small 64 (w * h)), (wrap_small 64 (w * h * bb)), (wrap_small 64 (w * bb)) by (unfold in_range; lia).
  assert (((s * h + y) * w + x) * bb = s * (w * h * bb) + y * (w * bb) + x * bb) as E by ring. assert (0 <= s * (w * h * bb) /\ 0 <= y * (w * bb) /\ 0 <= x * bb) by (split_and!; apply Z.mul_nonneg_nonneg; lia).
  assert (s * (w * h * bb) + y * (w * bb) + x * bb + bb + offset i mip <= 2 ^ 64 - 1) by lia.
  rewrite (wrap_small 64 (s * (w * h * bb))), (wrap_small 64 (y * (w * bb))), (wrap_small 64 (x * bb)) by (unfold in_range; lia). rewrite (wrap_small 64 (offset i mip + _)) by (unfold in_range; lia). rewrite !wrap_small by (unfold in_range; rewrite ?wrap_small by (unfold in_range; lia); lia). f_equal. lia.
Qed.

Lemma index_inj i mip s y x s' y' x' : in_image i mip s y x -> in_image i mip s' y' x' -> index i mip s y x = index i mip s' y' x' -> s = s' /\ y = y' /\ x = x'.
Proof.
  intros (_ & _ & H2 & H3) (_ & _ & H2' & H3') E. unfold index in E. set (w := blocks_of (width _)) in *. set (h := blocks_of (height _)) in *.
  destruct (Z.div_mod_unique w (s * h + y) (s' * h + y') x x') as [E1 ->]; [lia|lia|lia|]. destruct (Z.div_mod_unique h s s' y y') as [-> ->]; [lia|lia|lia|]. auto.
Qed.

(** C25: the blocks of an image have their own places.  A description returns; when it succeeds every block of every level, layer and
    slice lies in the backing buffer, the arithmetic of its address does not wrap, and two blocks that share a byte are the same block. *)
Theorem backing_layout (i : image_info) (Hi : info_ok i) :
  exists r img, hybris_bc_image_describe i = Ok (r, img) /\
    (r = VK_SUCCESS -> forall mip s y x, in_image img mip s y x -> exists a, block_address img mip s y x = Ok a /\ a = offset img mip + index img mip s y x * block_bytes img /\
      0 <= a /\ a + block_bytes img <= fst (hybris_bc_image_backing_info img) < 2 ^ 64 /\
      forall mip' s' y' x' a', in_image img mip' s' y' x' -> block_address img mip' s' y' x' = Ok a' -> a < a' + block_bytes img -> a' < a + block_bytes img -> (mip, s, y, x) = (mip', s', y', x')).
Proof.
  destruct (describe_ok i Hi) as (r & img & E & H). exists r, img. split; [assumption|]. intros Hr mip s y x Hin. specialize (H Hr). rewrite (block_place img mip s y x H Hin). eexists. split; [reflexivity|]. split; [reflexivity|].
  destruct (index_range _ _ _ _ _ (l_shape _ H) Hin) as [I1 I2]. pose proof Hin as (Hm & _). destruct (level_fits img mip H Hm) as [F1 F2]. pose proof (l_fits _ H) as Hf. unfold UINT64_MAX in Hf. assert (0 < block_bytes img) by (destruct (s_bytes _ (l_shape _ H)); lia).
  cbn [hybris_bc_image_backing_info fst]. split; [nia|]. split; [nia|]. intros mip' s' y' x' a' Hin'. rewrite (block_place img mip' s' y' x' H Hin'). intros [= <-] O1 O2. destruct (index_range _ _ _ _ _ (l_shape _ H) Hin') as [J1 J2]. pose proof Hin' as (Hm' & _).
  assert (forall m m', 0 <= m < m' -> m' < mip_levels img -> offset img m + level_bytes img m <= offset img m') as Hsep by (intros m m' Hmm Hl; rewrite offset_next by lia; apply (offset_mono img (m + 1) m' H); lia).
  destruct (Z.lt_trichotomy mip mip') as [Hlt|[<-|Hgt]]; [specialize (Hsep mip mip' ltac:(lia) ltac:(lia)); nia| |specialize (Hsep mip' mip ltac:(lia) ltac:(lia)); nia].
  destruct (index_inj img mip s y x s' y' x' Hin Hin') as (-> & -> & ->); [nia|reflexivity].
Qed.

(** An array of two layers of 10 by 6 texels with four levels. *)
Definition sample_info : image_info := Info 0 VK_IMAGE_TYPE_2D 145 (Extent 10 6 1) 4 2 1 0 7 0 [].

Lemma backing_layout_witness : exists r img, hybris_bc_image_describe sample_info = Ok (r, img) /\ r = VK_SUCCESS /\ block_size img = 320 /\ exists a, block_address img 1 1 0 1 = Ok a /\ a = 240.
Proof.
  destruct (backing_layout sample_info) as (r & img & E & H); [unfold info_ok, in_range; cbn; lia|]. exists r, img. split; [exact E|]. vm_compute in E. injection E as <- <-. split; [reflexivity|]. split; [reflexivity|].
  destruct (H eq_refl 1 1 0 1) as (a & Ea & -> & _); [unfold in_image; vm_compute; intuition congruence|]. eexists. split; [exact Ea|reflexivity].
Defined.
End BcImage.
