(* ===== verification/BcCopy.v ===== *)
(** * Copies and barriers of compressed images (vulkan/compat/bc_transfer.c, bc_barriers.c)

    A copy between a buffer and an emulated image becomes copies between the buffer and the backing, and an image barrier becomes
    barriers on parts of the backing.  The copies move exactly the bytes that the rules of Vulkan name
    for each block of the region; the barriers cover exactly the blocks of the levels and layers they name. *)

From Stdlib Require Import ZArith Lia Bool.
From stdpp Require Import base numbers option list.
From S2P Require Import Prelude BcImage.

Open Scope Z_scope.
Open Scope outcome_scope.

Module BcCopy.
Import BcImage.

Definition VK_REMAINING : Z := 2 ^ 32 - 1.
Definition VK_ERROR_OUT_OF_HOST_MEMORY : Z := -1.
Definition CAPACITY : Z := 64.

(** [VkBufferImageCopy]; the offsets are signed. *)
Record region := Region {
  bufferOffset : Z; bufferRowLength : Z; bufferImageHeight : Z; mip : Z; baseLayer : Z; layerCount : Z;
  off_x : Z; off_y : Z; off_z : Z; ext : extent3d }.

(** [VkBufferCopy]: source, destination, size. *)
Record copy := Copy { src : Z; dst : Z; size : Z }.

Definition normalize (i : hybris_bc_image) (r : region) : region :=
  if layerCount r =? VK_REMAINING then
    Region (bufferOffset r) (bufferRowLength r) (bufferImageHeight r) (mip r) (baseLayer r) (u32 (layers i - baseLayer r)) (off_x r) (off_y r) (off_z r) (ext r)
  else r.

(** One copy of the row [y] of a slice. *)
Definition row_copy (to_image : bool) (image_offset buffer_offset row buffer_row w y : Z) : copy :=
  let b := u64 (buffer_offset + u64 (y * buffer_row)) in
  let i := u64 (image_offset + u64 (y * row)) in
  if to_image then Copy b i w else Copy i b w.

(** The loop over batches of rows; the fuel is the number of rows left. *)
Fixpoint row_batches (fuel : nat) (f : Z -> copy) (y rows : Z) : outcome (list (list copy)) :=
  if rows <=? y then Ok [] else
  match fuel with
  | O => Undef
  | S fuel => let n := if CAPACITY <? rows - y then CAPACITY else rows - y in
              let! l := row_batches fuel f (y + n) rows in Ok ((f <$> seqZ y n) :: l)
  end.

(** The calls of [vkCmdCopyBuffer] for one slice. *)
Definition slice_copies (to_image : bool) (i : hybris_bc_image) (r : region) (slice : Z) : outcome (list (list copy)) :=
  let row := row_bytes i (mip r) in
  let buffer_row := u64 (blocks_of (if bufferRowLength r =? 0 then width (ext r) else bufferRowLength r) * block_bytes i) in
  let buffer_height := blocks_of (if bufferImageHeight r =? 0 then height (ext r) else bufferImageHeight r) in
  let rows := blocks_of (height (ext r)) in
  let w := u64 (blocks_of (width (ext r)) * block_bytes i) in
  let first := if type i =? VK_IMAGE_TYPE_3D then u32 (off_z r) else baseLayer r in
  let! image_offset := block_address i (mip r) (u64 (first + slice)) (u32 (off_y r) / 4) (u32 (off_x r) / 4) in
  let buffer_offset := u64 (bufferOffset r + u64 (u64 (slice * buffer_row) * buffer_height)) in
  if (row =? w) && (buffer_row =? w) then
    Ok [[if to_image then Copy buffer_offset image_offset (u64 (w * rows)) else Copy image_offset buffer_offset (u64 (w * rows))]]
  else row_batches (Z.to_nat rows) (row_copy to_image image_offset buffer_offset row buffer_row w) 0 rows.

Definition slices (i : hybris_bc_image) (r : region) : Z := if type i =? VK_IMAGE_TYPE_3D then depth (ext r) else layerCount r.

Fixpoint region_slices (to_image : bool) (i : hybris_bc_image) (r : region) (l : list Z) : outcome (list (list copy)) :=
  match l with
  | [] => Ok []
  | k :: l => let! cs := slice_copies to_image i r k in let! rest := region_slices to_image i r l in Ok (cs ++ rest)
  end.
(** The copies of one region, after [normalize]. *)
Definition region_copies (to_image : bool) (i : hybris_bc_image) (r : region) : outcome (list (list copy)) :=
  let r := normalize i r in region_slices to_image i r (seqZ 0 (slices i r)).

(** ** What the copies move *)

(** Byte [q] of the destination receives byte [p] of the source. *)
Definition moves (cs : list (list copy)) (p q : Z) : Prop := exists c t, c ∈ concat cs /\ 0 <= t < size c /\ p = src c + t /\ q = dst c + t.
Definition oriented (to_image : bool) (b i p q : Z) : Prop := if to_image then p = b /\ q = i else p = i /\ q = b.

(** A size in texels as blocks of four. *)
Definition blocks4 (n : Z) : Z := (n + 3) / 4.
(** The rows and columns of blocks of the region, and the blocks of a row and rows of a slice in the buffer. *)
Definition nx (r : region) : Z := blocks4 (width (ext r)).
Definition ny (r : region) : Z := blocks4 (height (ext r)).
Definition bx (r : region) : Z := blocks4 (if bufferRowLength r =? 0 then width (ext r) else bufferRowLength r).
Definition by_ (r : region) : Z := blocks4 (if bufferImageHeight r =? 0 then height (ext r) else bufferImageHeight r).
(** The number of slices that Vulkan gives a region: the depth of its extent in a volume (image type 2), else its layers,
    where [2^32 - 1] stands for all layers from the first one. *)
Definition region_layers (i : hybris_bc_image) (r : region) : Z :=
  if decide (type i = 2) then depth (ext r) else if decide (layerCount r = 2 ^ 32 - 1) then layers i - baseLayer r else layerCount r.
Definition first_slice (i : hybris_bc_image) (r : region) : Z := if type i =? VK_IMAGE_TYPE_3D then off_z r else baseLayer r.

(** Valid use: the region lies in the level, its offsets are in whole blocks, the buffer's rows hold the region's, and all
    addresses are below [2^64]. *)
Record region_ok (i : hybris_bc_image) (r : region) : Prop := {
  r_mip : 0 <= mip r < mip_levels i;
  r_x : 0 <= off_x r < 2 ^ 31 /\ off_x r / 4 + nx r <= blocks_of (width (hybris_bc_image_extent i (mip r)));
  r_y : 0 <= off_y r < 2 ^ 31 /\ off_y r / 4 + ny r <= blocks_of (height (hybris_bc_image_extent i (mip r)));
  r_z : 0 <= off_z r < 2 ^ 31 /\ 0 <= baseLayer r < 2 ^ 32 /\ 0 <= region_layers i r < 2 ^ 32 /\ first_slice i r + region_layers i r <= layers i * depth (hybris_bc_image_extent i (mip r));
  r_ext : in_range 32 (width (ext r)) /\ in_range 32 (height (ext r)) /\ 1 <= width (ext r) /\ 1 <= height (ext r) /\ in_range 32 (bufferRowLength r) /\ in_range 32 (bufferImageHeight r);
  r_buffer : nx r <= bx r /\ ny r <= by_ r /\ 0 <= bufferOffset r /\ bufferOffset r + region_layers i r * by_ r * bx r * block_bytes i < 2 ^ 64 }.

Lemma blocks4_eq n : in_range 32 n -> blocks_of n = blocks4 n.
Proof. intros H. unfold blocks_of, blocks4. rewrite wrap_small; [reflexivity|unfold in_range in *; lia]. Qed.

Lemma region_blocks i r : region_ok i r -> blocks_of (width (ext r)) = nx r /\ blocks_of (height (ext r)) = ny r /\
  blocks_of (if bufferRowLength r =? 0 then width (ext r) else bufferRowLength r) = bx r /\
  blocks_of (if bufferImageHeight r =? 0 then height (ext r) else bufferImageHeight r) = by_ r.
Proof. intros R. destruct (r_ext _ _ R) as (E1 & E2 & _ & _ & E5 & E6). split_and!; apply blocks4_eq; auto; now destruct (_ =? 0). Qed.

(** Of a valid region [normalize] leaves a valid region with all its slices. *)
Lemma normalized i r : shape i -> region_ok i r -> region_ok i (normalize i r) /\ slices i (normalize i r) = region_layers i r /\ region_layers i (normalize i r) = region_layers i r.
Proof.
  intros Hs R. assert (slices i (normalize i r) = region_layers i r /\ region_layers i (normalize i r) = region_layers i r) as [E1 E2].
  { pose proof (r_z _ _ R) as (_ & Hb & [Hc _] & _). pose proof (s_layers _ Hs). unfold region_layers in *. unfold slices, normalize, VK_REMAINING, VK_IMAGE_TYPE_3D.
    destruct (Z.eqb_spec (layerCount r) (2 ^ 32 - 1)) as [E|E]; cbn [layerCount ext baseLayer]; destruct (Z.eqb_spec (type i) 2), (decide (type i = 2)); try contradiction; auto.
    - rewrite decide_True in Hc by assumption. rewrite (decide_True (P := layerCount r = _)) by assumption. rewrite wrap_small by (unfold in_range; lia). split; [reflexivity|]. now destruct (decide _).
    - rewrite (decide_False (P := layerCount r = _)) by assumption. auto. }
  split; [|auto]. destruct R as [R1 R2 R3 R4 R5 R6]. unfold normalize in *. destruct (layerCount r =? VK_REMAINING); [|now constructor]. constructor; try assumption; rewrite E2; assumption.
Qed.

Lemma row_batches_ok (f : Z -> copy) rows : forall fuel y, 0 <= y -> rows - y <= Z.of_nat fuel -> exists l, row_batches fuel f y rows = Ok l /\ forall c, c ∈ concat l <-> exists j, y <= j < rows /\ c = f j.
Proof.
  induction fuel as [|fuel IH]; intros y Hy Hf; cbn [row_batches].
  - rewrite (proj2 (Z.leb_le _ _)) by lia. exists []. split; [reflexivity|]. intros c. cbn [concat]. rewrite elem_of_nil. split; [contradiction|intros (j & Hj & _); lia].
  - destruct (Z.leb_spec rows y) as [Hr|Hr]; [exists []; split; [reflexivity|]; intros c; cbn [concat]; rewrite elem_of_nil; split; [contradiction|intros (j & Hj & _); lia]|]. cbv zeta. set (n := if CAPACITY <? rows - y then CAPACITY else rows - y).
    assert (1 <= n <= rows - y) as Hn by (unfold n, CAPACITY; destruct (Z.ltb_spec 64 (rows - y)); lia). destruct (IH (y + n)) as (l & -> & Hl); [lia|lia|]. cbn [obind]. eexists. split; [reflexivity|]. intros c. cbn [concat]. rewrite elem_of_app, Hl, list_elem_of_fmap. split.
    + intros [(j & -> & Hj%elem_of_seqZ)|(j & Hj & ->)]; exists j; split; auto; lia.
    + intros (j & Hj & ->). destruct (Z.lt_ge_cases j (y + n)); [left; exists j; split; [reflexivity|]; apply elem_of_seqZ; lia|right; exists j; split; [lia|reflexivity]].
Qed.

(** Blocks of the image that the region has. *)
Lemma region_in_image i r k j x : laid_out i -> region_ok i r -> 0 <= k < region_layers i r -> 0 <= j < ny r -> 0 <= x < nx r -> in_image i (mip r) (first_slice i r + k) (off_y r / 4 + j) (off_x r / 4 + x).
Proof.
  intros L [H1 H2 H3 H4 _ _] Hk Hj Hx. assert (0 <= off_x r / 4 /\ 0 <= off_y r / 4) by (split; apply Z.div_pos; lia). assert (0 <= first_slice i r) by (unfold first_slice; destruct (_ =? _); lia). unfold in_image. split_and!; lia.
Qed.

Definition slice_bytes (to_image : bool) (i : hybris_bc_image) (r : region) (k p q : Z) : Prop := exists j t, 0 <= j < ny r /\ 0 <= t < nx r * block_bytes i /\
  oriented to_image (bufferOffset r + (k * by_ r + j) * bx r * block_bytes i + t) (offset i (mip r) + index i (mip r) (first_slice i r + k) (off_y r / 4 + j) (off_x r / 4) * block_bytes i + t) p q.

Lemma slice_copies_ok to_image i r k : laid_out i -> region_ok i r -> 0 <= k < region_layers i r -> exists cs, slice_copies to_image i r k = Ok cs /\ forall p q, moves cs p q <-> slice_bytes to_image i r k p q.
Proof.
  intros L R Hk. destruct (region_blocks i r R) as (Ex & Ey & Ebx & Eby). pose proof (blocks_range (width (ext r)) (proj1 (r_ext _ _ R)) ltac:(apply R)) as Nx. pose proof (blocks_range (height (ext r)) ltac:(apply R) ltac:(apply R)) as Ny. rewrite Ex in Nx. rewrite Ey in Ny.
  assert (1 <= bx r <= 2 ^ 30) as Bx. { rewrite <- Ebx. pose proof (r_ext _ _ R) as (E1 & _ & E3 & _ & E5 & _). destruct (Z.eqb_spec (bufferRowLength r) 0) as [E|E]; apply blocks_range; auto. unfold in_range in E5. lia. }
  pose proof (r_mip _ _ R) as Hm. destruct (extent_ok i (mip r) (l_shape _ L) Hm) as (Hw & Hh & Hd). destruct (level_fits i (mip r) L Hm) as [F1 F2]. pose proof (l_fits _ L) as Hf. destruct (r_buffer _ _ R) as (B1 & B2 & B3 & B4). pose proof (s_bytes _ (l_shape _ L)) as Hb. assert (0 < block_bytes i) as Hb0 by lia.
  assert (forall j, 0 <= j < ny r -> 0 <= bufferOffset r + (k * by_ r + j) * bx r * block_bytes i /\ bufferOffset r + (k * by_ r + j) * bx r * block_bytes i + nx r * block_bytes i < 2 ^ 64) as HB.
  { intros j Hj. assert (k * by_ r + j + 1 <= region_layers i r * by_ r) by (assert ((k + 1) * by_ r <= region_layers i r * by_ r) by (apply Z.mul_le_mono_nonneg_r; lia); lia). assert ((k * by_ r + j + 1) * bx r <= region_layers i r * by_ r * bx r) by (apply Z.mul_le_mono_nonneg_r; lia). assert (0 <= (k * by_ r + j) * bx r) by (assert (0 <= k * by_ r) by (apply Z.mul_nonneg_nonneg; lia); apply Z.mul_nonneg_nonneg; lia). destruct Hb as [E|E]; rewrite E in *; lia. }
  assert (forall j, 0 <= j < ny r -> let a := offset i (mip r) + index i (mip r) (first_slice i r + k) (off_y r / 4 + j) (off_x r / 4) * block_bytes i in
    0 <= a /\ a + nx r * block_bytes i < 2 ^ 64 /\ a = offset i (mip r) + index i (mip r) (first_slice i r + k) (off_y r / 4) (off_x r / 4) * block_bytes i + j * (blocks_of (width (hybris_bc_image_extent i (mip r))) * block_bytes i)) as HA.
  { intros j Hj. cbv zeta. destruct (index_range i _ _ _ _ (l_shape _ L) (region_in_image i r k j 0 L R Hk Hj ltac:(lia))) as [I1 _]. destruct (index_range i _ _ _ _ (l_shape _ L) (region_in_image i r k j (nx r - 1) L R Hk Hj ltac:(lia))) as [_ I2].
    rewrite Z.add_0_r in I1. unfold UINT64_MAX, index in *. destruct Hb as [E|E]; rewrite E in *; lia. }
  assert (0 <= first_slice i r < 2 ^ 32) as Hfs by (unfold first_slice; pose proof (r_z _ _ R); destruct (type i =? VK_IMAGE_TYPE_3D); lia). assert ((if type i =? VK_IMAGE_TYPE_3D then u32 (off_z r) else baseLayer r) = first_slice i r) as Ef.
  { unfold first_slice. destruct (type i =? VK_IMAGE_TYPE_3D); [|reflexivity]. apply wrap_small. pose proof (r_z _ _ R). unfold in_range. lia. }
  pose proof (r_x _ _ R) as [X1 _]. pose proof (r_y _ _ R) as [Y1 _]. pose proof (r_z _ _ R) as (_ & _ & Z1 & _). unfold slice_copies. rewrite Ef. rewrite (wrap_small 64 (first_slice i r + k)), (wrap_small 32 (off_y r)), (wrap_small 32 (off_x r)) by (unfold in_range; lia).
  pose proof (region_in_image i r k 0 0 L R Hk ltac:(lia) ltac:(lia)) as Hin. rewrite !Z.add_0_r in Hin. rewrite (block_place i _ _ _ _ L Hin). cbn [obind]. cbv zeta. rewrite Ex, Ey, Ebx, Eby. clear Ex Ey Ebx Eby. unfold row_bytes.
  set (W := blocks_of (width (hybris_bc_image_extent i (mip r)))) in *. set (bb := block_bytes i) in *. set (A0 := offset i (mip r) + index i (mip r) (first_slice i r + k) (off_y r / 4) (off_x r / 4) * bb) in *.
  assert (0 < nx r * bb < 2 ^ 64 /\ 0 < bx r * bb < 2 ^ 64 /\ 0 < W * bb < 2 ^ 64) as (S1 & S2 & S3) by (destruct Hb as [E|E]; rewrite E; lia). rewrite (wrap_small 64 (W * bb)), (wrap_small 64 (bx r * bb)), (wrap_small 64 (nx r * bb)) by (unfold in_range; lia).
  pose proof (HB 0 ltac:(lia)) as HB0. rewrite Z.add_0_r in HB0. assert (k * (bx r * bb) * by_ r = k * by_ r * bx r * bb) as E1 by ring. assert (0 <= k * (bx r * bb)) as K0 by (apply Z.mul_nonneg_nonneg; lia).
  assert (k * (bx r * bb) <= k * (bx r * bb) * by_ r) as K1 by (rewrite <- (Z.mul_1_r (k * (bx r * bb))) at 1; apply Z.mul_le_mono_nonneg_l; lia).
  rewrite (wrap_small 64 (k * (bx r * bb))) by (unfold in_range; lia). rewrite (wrap_small 64 (k * (bx r * bb) * by_ r)) by (unfold in_range; lia). rewrite (wrap_small 64 (bufferOffset r + k * (bx r * bb) * by_ r)) by (unfold in_range; lia).
  rewrite E1. set (B0 := bufferOffset r + k * by_ r * bx r * bb) in *. assert (forall j, bufferOffset r + (k * by_ r + j) * bx r * bb = B0 + j * (bx r * bb)) as EB by (intros j; unfold B0; ring).
  destruct ((W * bb =? nx r * bb) && (bx r * bb =? nx r * bb)) eqn:Ec.
  - apply andb_true_iff in Ec as [C1%Z.eqb_eq C2%Z.eqb_eq]. pose proof (HA (ny r - 1) ltac:(lia)) as (_ & A2 & A3). rewrite A3 in A2. assert (0 <= nx r * bb * ny r < 2 ^ 64) as Hsz by (split; [apply Z.mul_nonneg_nonneg; lia|]; rewrite C1 in A2; pose proof (HA 0 ltac:(lia)) as (A0p & _ & A00); lia).
    eexists. split; [reflexivity|]. intros p q. unfold moves, slice_bytes. fold bb. rewrite (wrap_small 64 (nx r * bb * ny r)) by (unfold in_range; lia). split.
    + intros (c & t & Hc & Ht & -> & ->). cbn [concat app] in Hc. apply list_elem_of_singleton in Hc as ->. assert (0 <= t < nx r * bb * ny r) as Ht' by (destruct to_image; exact Ht). exists (t / (nx r * bb)), (t mod (nx r * bb)).
      pose proof (Z.mod_pos_bound t (nx r * bb) ltac:(lia)). pose proof (Z.div_mod t (nx r * bb) ltac:(lia)) as Ed. assert (0 <= t / (nx r * bb) < ny r) as Hj by (split; [apply Z.div_pos; lia|apply Z.div_lt_upper_bound; lia]). split; [assumption|]. split; [assumption|].
      pose proof (HA _ Hj) as (_ & _ & ->). rewrite EB, C1, C2. destruct to_image; cbn [oriented src dst]; lia.
    + intros (j & t & Hj & Ht & Ho). pose proof (HA _ Hj) as (_ & _ & EA). rewrite EB, EA, C1, C2 in Ho. eexists _, (j * (nx r * bb) + t). split; [cbn [concat app]; left|].
      assert (0 <= j * (nx r * bb) /\ j * (nx r * bb) + nx r * bb <= nx r * bb * ny r) by (assert ((j + 1) * (nx r * bb) <= ny r * (nx r * bb)) by (apply Z.mul_le_mono_nonneg_r; lia); split; [apply Z.mul_nonneg_nonneg; lia|lia]). destruct to_image; cbn [oriented src dst size] in *; lia.
  - destruct (row_batches_ok (row_copy to_image A0 B0 (W * bb) (bx r * bb) (nx r * bb)) (ny r) (Z.to_nat (ny r)) 0) as (l & -> & Hl); [lia|lia|]. exists l. split; [reflexivity|]. intros p q. unfold moves, slice_bytes. fold bb.
    assert (forall j, 0 <= j < ny r -> row_copy to_image A0 B0 (W * bb) (bx r * bb) (nx r * bb) j = if to_image then Copy (B0 + j * (bx r * bb)) (A0 + j * (W * bb)) (nx r * bb) else Copy (A0 + j * (W * bb)) (B0 + j * (bx r * bb)) (nx r * bb)) as Er.
    { intros j Hj. unfold row_copy. pose proof (HA j Hj) as (A1 & A2 & A3). pose proof (HB j Hj) as [B5 B6]. rewrite EB in B5, B6. rewrite A3 in A1, A2. assert (0 <= j * (W * bb) /\ 0 <= j * (bx r * bb)) by (split; apply Z.mul_nonneg_nonneg; lia).
      pose proof (HA 0 ltac:(lia)) as (A00 & _ & A03). rewrite (wrap_small 64 (j * (bx r * bb))), (wrap_small 64 (j * (W * bb))) by (unfold in_range; lia). rewrite (wrap_small 64 (B0 + _)), (wrap_small 64 (A0 + _)) by (unfold in_range; lia). reflexivity. }
    split.
    + intros (c & t & Hc & Ht & -> & ->). apply Hl in Hc as (j & Hj & ->). rewrite (Er j Hj) in *. pose proof (HA j Hj) as (_ & _ & EA). exists j, t. rewrite EB, EA. destruct to_image; cbn [oriented src dst size] in *; auto.
    + intros (j & t & Hj & Ht & Ho). pose proof (HA j Hj) as (_ & _ & EA). rewrite EB, EA in Ho. exists (row_copy to_image A0 B0 (W * bb) (bx r * bb) (nx r * bb) j), t. split; [apply Hl; eauto|]. rewrite (Er j Hj). destruct to_image; cbn [oriented src dst size] in *; lia.
Qed.

(** The byte of a slice as a byte of a block. *)
Lemma slice_blocks to_image i r k p q : laid_out i -> region_ok i r -> 0 <= k < region_layers i r -> slice_bytes to_image i r k p q <-> exists j x t a, 0 <= j < ny r /\ 0 <= x < nx r /\ 0 <= t < block_bytes i /\
  block_address i (mip r) (first_slice i r + k) (off_y r / 4 + j) (off_x r / 4 + x) = Ok a /\ oriented to_image (bufferOffset r + ((k * by_ r + j) * bx r + x) * block_bytes i + t) (a + t) p q.
Proof.
  intros L R Hk. pose proof (s_bytes _ (l_shape _ L)) as Hb. assert (0 < block_bytes i) as Hb0 by lia. assert (forall j x, index i (mip r) (first_slice i r + k) (off_y r / 4 + j) (off_x r / 4 + x) = index i (mip r) (first_slice i r + k) (off_y r / 4 + j) (off_x r / 4) + x) as Ei by (intros; unfold index; lia). split.
  - intros (j & t & Hj & Ht & Ho). pose proof (Z.mod_pos_bound t (block_bytes i) Hb0) as Hm. pose proof (Z.div_mod t (block_bytes i) ltac:(lia)) as Ed. assert (0 <= t / block_bytes i < nx r) as Hx by (split; [apply Z.div_pos; lia|apply Z.div_lt_upper_bound; lia]).
    eexists j, (t / block_bytes i), (t mod block_bytes i), _. split_and!; try lia; [apply (block_place i _ _ _ _ L), (region_in_image i r k j _ L R Hk Hj Hx)|]. rewrite Ei. destruct to_image; cbn [oriented] in *; lia.
  - intros (j & x & t & a & Hj & Hx & Ht & Ea & Ho). rewrite (block_place i _ _ _ _ L (region_in_image i r k j x L R Hk Hj Hx)), Ei in Ea. injection Ea as <-. exists j, (x * block_bytes i + t). split; [assumption|]. split; [nia|]. destruct to_image; cbn [oriented] in *; lia.
Qed.

Lemma moves_app cs cs' p q : moves (cs ++ cs') p q <-> moves cs p q \/ moves cs' p q.
Proof.
  unfold moves. rewrite concat_app. split.
  - intros (c & t & [Hc|Hc]%elem_of_app & H); [left|right]; eauto.
  - intros [(c & t & Hc & H)|(c & t & Hc & H)]; exists c, t; rewrite elem_of_app; auto.
Qed.

Lemma region_slices_ok to_image i r : laid_out i -> region_ok i r -> forall l, (forall k, k ∈ l -> 0 <= k < region_layers i r) -> exists cs, region_slices to_image i r l = Ok cs /\ forall p q, moves cs p q <-> exists k, k ∈ l /\ slice_bytes to_image i r k p q.
Proof.
  intros L R. induction l as [|k l IH]; intros Hl.
  - exists []. split; [reflexivity|]. intros p q. split; [intros (c & t & Hc & _); now apply not_elem_of_nil in Hc|intros (k & Hk & _); now apply not_elem_of_nil in Hk].
  - cbn [region_slices]. destruct (slice_copies_ok to_image i r k L R) as (cs & -> & Hcs); [apply Hl; left|]. destruct IH as (rest & -> & Hrest); [intros x Hx; apply Hl; now right|]. cbn [obind]. eexists. split; [reflexivity|]. intros p q. rewrite moves_app, Hcs, Hrest. split.
    + intros [H|(x & Hx & H)]; [exists k|exists x]; rewrite elem_of_cons; auto.
    + intros (x & [->|Hx]%elem_of_cons & H); [auto|right; eauto].
Qed.

(** C26: copying a region of a compressed image moves exactly its blocks.  For an image that was described with
    success and a valid region, in either direction, the copies recorded on the backing move byte [t] of block ([k], [j], [x]) of the
    region between its place in the backing and its place in the buffer, with the buffer's row length and height, and
    move nothing else.  The slices [k] are the depth of a volume, else the layers, all remaining ones where the count says so. *)
Theorem copies_exact (info : image_info) (img : hybris_bc_image) (to_image : bool) (r : region) (Hi : info_ok info) (Hd : hybris_bc_image_describe info = Ok (VK_SUCCESS, img)) (Hr : region_ok img r) :
  exists cs, region_copies to_image img r = Ok cs /\
    forall p q, moves cs p q <-> exists k j x t a, 0 <= k < region_layers img r /\ 0 <= j < ny r /\ 0 <= x < nx r /\ 0 <= t < block_bytes img /\
      block_address img (mip r) (first_slice img r + k) (off_y r / 4 + j) (off_x r / 4 + x) = Ok a /\ oriented to_image (bufferOffset r + ((k * by_ r + j) * bx r + x) * block_bytes img + t) (a + t) p q.
Proof.
  destruct (describe_ok info Hi) as (e & img' & E & H). rewrite Hd in E. injection E as <- <-. specialize (H eq_refl). destruct (normalized img r (l_shape _ H) Hr) as (Hn & En & En'). unfold region_copies. cbv zeta. rewrite En.
  assert (forall k, k ∈ seqZ 0 (region_layers img r) <-> 0 <= k < region_layers img r) as Hs by (intros k; rewrite elem_of_seqZ; lia).
  assert (forall k p q, slice_bytes to_image img (normalize img r) k p q <-> slice_bytes to_image img r k p q) as Eb by (intros k p q; unfold normalize; destruct (_ =? _); reflexivity).
  destruct (region_slices_ok to_image img (normalize img r) H Hn (seqZ 0 (region_layers img r))) as (cs & -> & Hcs); [intros k Hk; rewrite En'; now apply Hs|]. exists cs. split; [reflexivity|]. intros p q. rewrite Hcs. split.
  - intros (k & Hk%Hs & Hb). apply Eb, slice_blocks in Hb as (j & x & t & a & Hx); auto. exists k, j, x, t, a. tauto.
  - intros (k & j & x & t & a & Hk & Hx). exists k. split; [now apply Hs|]. apply Eb, slice_blocks; auto. exists j, x, t, a. tauto.
Qed.

(** A copy of 6 by 5 texels at (4, 0) of both layers of the sample, from a buffer with rows of 12 texels. *)
Definition sample_region : region := Region 1000 12 0 0 0 2 4 0 0 (Extent 6 5 1).

Lemma copies_exact_witness : exists img cs, hybris_bc_image_describe sample_info = Ok (VK_SUCCESS, img) /\ region_copies true img sample_region = Ok cs /\
  cs = [[Copy 1000 16 32; Copy 1048 64 32]; [Copy 1096 112 32; Copy 1144 160 32]] /\ moves cs 1150 166.
Proof.
  destruct (describe_ok sample_info) as (e & img & E & _); [unfold info_ok, in_range; cbn; lia|]. pose proof E as E'. vm_compute in E'. injection E' as <- Ei. exists img.
  destruct (copies_exact sample_info img true sample_region) as (cs & Ec & Hm); [unfold info_ok, in_range; cbn; lia|exact E|rewrite <- Ei; constructor; vm_compute; intuition congruence|].
  exists cs. split; [exact E|]. split; [exact Ec|]. split; [rewrite <- Ei in Ec; vm_compute in Ec; now injection Ec as <-|]. apply Hm. exists 1, 1, 0, 6, 160. rewrite <- Ei. vm_compute. intuition congruence.
Defined.

(** ** Barriers *)

(** The access and stage masks and queue families of a barrier, which are passed on. *)
Record access := Access { a_src_stage : Z; a_src : Z; a_dst_stage : Z; a_dst : Z; a_src_family : Z; a_dst_family : Z }.
Record image_barrier := ImageBarrier { ib_image : Z; baseMip : Z; levelCount : Z; ib_layer : Z; ib_layers : Z; ib_access : access }.
Record buffer_barrier := BufferBarrier { bb_buffer : Z; bb_offset : Z; bb_size : Z; bb_access : access }.

Definition level_count (i : hybris_bc_image) (b : image_barrier) : Z := if levelCount b =? VK_REMAINING then u32 (mip_levels i - baseMip b) else levelCount b.
Definition layer_count (i : hybris_bc_image) (b : image_barrier) : Z := if ib_layers b =? VK_REMAINING then u32 (layers i - ib_layer b) else ib_layers b.
Definition backing_range (i : hybris_bc_image) (b : image_barrier) (level : Z) : outcome (Z * Z) :=
  let layer_size := hybris_bc_image_layer_size i level in
  let! base := rd (mip_offset i) level in
  Ok (u64 (base + u64 (layer_size * ib_layer b)), u64 (layer_size * layer_count i b)).

(** The emulated image behind a handle. *)
Definition resources := Z -> option hybris_bc_image.

Fixpoint barrier_count (find : resources) (images : list image_barrier) (count : Z) : Z :=
  match images with
  | [] => count
  | b :: images => barrier_count find images (match find (ib_image b) with Some i => u64 (count + level_count i b) | None => count end)
  end.

Fixpoint level_barriers (i : hybris_bc_image) (b : image_barrier) (l : list Z) : outcome (list buffer_barrier) :=
  match l with
  | [] => Ok []
  | j :: l => let! (o, n) := backing_range i b (u32 (baseMip b + j)) in
              let! rest := level_barriers i b l in Ok (BufferBarrier (blocks i) o n (ib_access b) :: rest)
  end.
Fixpoint image_barriers (find : resources) (images : list image_barrier) : outcome (list buffer_barrier) :=
  match images with
  | [] => Ok []
  | b :: images =>
      match find (ib_image b) with
      | None => image_barriers find images
      | Some i => let! l := level_barriers i b (seqZ 0 (level_count i b)) in let! rest := image_barriers find images in Ok (l ++ rest)
      end
  end.

(** The barriers are passed on as they are, there is no memory, or these take their place. *)
Inductive prepared := Unchanged | NoMemory | Translated (l : list buffer_barrier).
(** [SIZE] is the size of a barrier structure; the array has [count] elements. *)
Definition prepare (SIZE : Z) (find : resources) (alloc : bool) (buffers : list buffer_barrier) (images : list image_barrier) : outcome prepared :=
  let n := Z.of_nat (length buffers) in
  let count := barrier_count find images n in
  if count =? n then Ok Unchanged else
  if (2 ^ 32 - 1 <? count) || (UINT64_MAX / SIZE <? count) then Ok NoMemory else
  if negb alloc then Ok NoMemory else
  let! l := image_barriers find images in
  let all := buffers ++ l in
  if count <? Z.of_nat (length all) then Undef else Ok (Translated all).

(** The error of the command buffer and the barriers given to the driver with those of the images. *)
Definition pipeline_barrier (SIZE : Z) (find : resources) (alloc : bool) (error : Z) (buffers : list buffer_barrier) (images : list image_barrier) : outcome (Z * option (list buffer_barrier * list image_barrier)) :=
  let! p := prepare SIZE find alloc buffers images in
  let error := match p with NoMemory => VK_ERROR_OUT_OF_HOST_MEMORY | _ => error end in
  Ok (error, if error =? VK_SUCCESS then Some (match p with Translated l => l | _ => buffers end, images) else None).

(** The dependencies of [wait_events2], prepared until one fails; [alloc] answers for each, [acc] are the ones done. *)
Fixpoint prepare_all (SIZE : Z) (find : resources) (error : Z) (infos : list (bool * list buffer_barrier * list image_barrier)) (acc : list (list buffer_barrier * list image_barrier)) :
    outcome (Z * list (list buffer_barrier * list image_barrier)) :=
  match infos with
  | [] => Ok (error, acc)
  | (alloc, buffers, images) :: infos =>
      if negb (error =? VK_SUCCESS) then Ok (error, acc) else
      let! p := prepare SIZE find alloc buffers images in
      let error := match p with NoMemory => VK_ERROR_OUT_OF_HOST_MEMORY | _ => error end in
      prepare_all SIZE find error infos (acc ++ [(match p with Translated l => l | _ => buffers end, images)])
  end.
(** [arrays]: the two arrays of the call were allocated. *)
Definition wait_events2 (SIZE : Z) (find : resources) (arrays : bool) (error : Z) (infos : list (bool * list buffer_barrier * list image_barrier)) : outcome (Z * option (list (list buffer_barrier * list image_barrier))) :=
  if negb (Nat.eqb (length infos) 0) && negb arrays then Ok (VK_ERROR_OUT_OF_HOST_MEMORY, None) else
  let! (error, l) := prepare_all SIZE find error infos [] in
  Ok (error, if error =? VK_SUCCESS then Some l else None).

(** *** The bytes they cover *)

(** The levels and layers of a barrier: [2^32 - 1] stands for all from the first one. *)
Definition named_levels (i : hybris_bc_image) (b : image_barrier) : Z := if decide (levelCount b = 2 ^ 32 - 1) then mip_levels i - baseMip b else levelCount b.
Definition named_layers (i : hybris_bc_image) (b : image_barrier) : Z := if decide (ib_layers b = 2 ^ 32 - 1) then layers i - ib_layer b else ib_layers b.

(** Valid use: the levels and layers are in the image. *)
Record barrier_ok (i : hybris_bc_image) (b : image_barrier) : Prop := {
  k_mip : 0 <= baseMip b /\ 0 <= named_levels i b /\ baseMip b + named_levels i b <= mip_levels i;
  k_layer : 0 <= ib_layer b /\ 0 <= named_layers i b /\ ib_layer b + named_layers i b <= layers i;
  k_levels : mip_levels i <= 32 }.

(** A byte of the backing that belongs to a block of the levels and layers of a barrier. *)
Definition named (i : hybris_bc_image) (b : image_barrier) (q : Z) : Prop :=
  exists m s y x a t, in_image i m s y x /\ baseMip b <= m < baseMip b + named_levels i b /\ ib_layer b <= s / depth (hybris_bc_image_extent i m) < ib_layer b + named_layers i b /\
    block_address i m s y x = Ok a /\ 0 <= t < block_bytes i /\ q = a + t.

Lemma named_counts i b : laid_out i -> barrier_ok i b -> level_count i b = named_levels i b /\ layer_count i b = named_layers i b.
Proof.
  intros L [(M1 & M2 & _) (K1 & K2 & _) M4]. pose proof (s_layers _ (l_shape _ L)). unfold level_count, layer_count, named_levels, named_layers, VK_REMAINING in *.
  split; [destruct (Z.eqb_spec (levelCount b) (2 ^ 32 - 1)), (decide (levelCount b = 2 ^ 32 - 1))|destruct (Z.eqb_spec (ib_layers b) (2 ^ 32 - 1)), (decide (ib_layers b = 2 ^ 32 - 1))]; try contradiction; try reflexivity; apply wrap_small; unfold in_range; lia.
Qed.

Lemma index_onto i mip n : laid_out i -> 0 <= mip < mip_levels i -> 0 <= n -> n * block_bytes i < level_bytes i mip -> exists s y x, in_image i mip s y x /\ index i mip s y x = n /\ s = n / (blocks_of (height (hybris_bc_image_extent i mip)) * blocks_of (width (hybris_bc_image_extent i mip))).
Proof.
  intros L Hm Hn Hlt. destruct (extent_ok i mip (l_shape _ L) Hm) as (Hw & Hh & Hd). pose proof (s_bytes _ (l_shape _ L)) as Hb. unfold level_bytes in Hlt. unfold in_image, index. set (e := hybris_bc_image_extent i mip) in *. set (w := blocks_of (width e)) in *. set (h := blocks_of (height e)) in *.
  assert (n < w * h * layers i * depth e) as Hn' by (destruct Hb as [E|E]; rewrite E in Hlt; lia). exists (n / w / h), ((n / w) mod h), (n mod w). pose proof (Z.mod_pos_bound n w ltac:(lia)). pose proof (Z.mod_pos_bound (n / w) h ltac:(lia)). pose proof (Z.div_mod n w ltac:(lia)). pose proof (Z.div_mod (n / w) h ltac:(lia)).
  assert (0 <= n / w) by (apply Z.div_pos; lia). assert (0 <= n / w / h) by (apply Z.div_pos; lia). assert (n / w / h < layers i * depth e) by (rewrite Z.div_div by lia; apply Z.div_lt_upper_bound; nia). split_and!; try lia; try nia. now rewrite Z.div_div, (Z.mul_comm w h) by lia.
Qed.

(** Bytes of one layer of a level, without wrapping. *)
Definition layer_bytes (i : hybris_bc_image) (m : Z) : Z :=
  let e := hybris_bc_image_extent i m in blocks_of (width e) * blocks_of (height e) * block_bytes i * depth e.

Lemma layer_range i m : laid_out i -> 0 <= m < mip_levels i -> 0 < layer_bytes i m /\ layer_bytes i m * layers i = level_bytes i m /\ hybris_bc_image_layer_size i m = layer_bytes i m.
Proof.
  intros L Hm. destruct (extent_ok i m (l_shape _ L) Hm) as (Hw & Hh & Hd). destruct (level_fits i m L Hm) as [F1 F2]. pose proof (l_fits _ L) as Hf. pose proof (s_bytes _ (l_shape _ L)) as Hb. pose proof (s_layers _ (l_shape _ L)) as Hl. pose proof (slice_le i m (l_shape _ L) Hm) as Hs.
  unfold hybris_bc_image_layer_size, hybris_bc_image_slice_size, layer_bytes. unfold level_bytes, UINT64_MAX in *. cbv zeta in *. set (e := hybris_bc_image_extent i m) in *. set (w := blocks_of (width e)) in *. set (h := blocks_of (height e)) in *. set (bb := block_bytes i) in *.
  assert (0 < w * h <= 2 ^ 30 * 2 ^ 30) as Hwh by (split; [apply Z.mul_pos_pos; lia|apply Z.mul_le_mono_nonneg; lia]). assert (0 < bb) by (destruct Hb; lia). assert (0 < w * h * bb) by (apply Z.mul_pos_pos; lia). assert (0 < w * h * bb * depth e) by (apply Z.mul_pos_pos; lia).
  assert (w * h * bb * depth e * layers i = w * h * bb * layers i * depth e) as E by ring. assert (w * h * bb * depth e <= w * h * bb * depth e * layers i) by (rewrite <- (Z.mul_1_r (w * h * bb * depth e)) at 1; apply Z.mul_le_mono_nonneg_l; lia).
  split; [assumption|]. split; [lia|]. rewrite (wrap_small 64 (w * h)) by (unfold in_range; lia). rewrite (wrap_small 64 (w * h * bb)) by (unfold in_range; lia). apply wrap_small. unfold in_range; lia.
Qed.

(** The range of one level. *)
Lemma range_place i b m : laid_out i -> barrier_ok i b -> baseMip b <= m < baseMip b + named_levels i b ->
  backing_range i b m = Ok (offset i m + layer_bytes i m * ib_layer b, layer_bytes i m * named_layers i b).
Proof.
  intros L K Hm. destruct (named_counts i b L K) as [_ Ec]. destruct K as [(M1 & M2 & M3) (K1 & K2 & K3) _]. assert (0 <= m < mip_levels i) as Hm' by lia. destruct (layer_range i m L Hm') as (P & T & E). destruct (level_fits i m L Hm') as [F1 F2]. pose proof (l_fits _ L) as Hf. unfold UINT64_MAX in Hf. unfold backing_range. rewrite E, Ec.
  unfold rd. rewrite (proj2 (Z.ltb_ge _ _)) by lia. rewrite (l_offset _ L) by lia. cbn [of_option obind]. fold (offset i m). set (B := layer_bytes i m) in *.
  assert (B * (ib_layer b + named_layers i b) <= B * layers i) by (apply Z.mul_le_mono_nonneg_l; lia). assert (0 <= B * ib_layer b /\ 0 <= B * named_layers i b) by (split; apply Z.mul_nonneg_nonneg; lia).
  rewrite (wrap_small 64 (B * ib_layer b)), (wrap_small 64 (B * named_layers i b)) by (unfold in_range; lia). rewrite wrap_small by (unfold in_range; lia). reflexivity.
Qed.

(** The bytes of a run of layers of a level are those of their blocks. *)
Lemma range_blocks i m l n q : laid_out i -> 0 <= m < mip_levels i -> 0 <= l -> 0 <= n -> l + n <= layers i ->
  offset i m + layer_bytes i m * l <= q < offset i m + layer_bytes i m * l + layer_bytes i m * n <->
  exists s y x a t, in_image i m s y x /\ l <= s / depth (hybris_bc_image_extent i m) < l + n /\ block_address i m s y x = Ok a /\ 0 <= t < block_bytes i /\ q = a + t.
Proof.
  intros L Hm Hl Hn Hln. destruct (extent_ok i m (l_shape _ L) Hm) as (Hw & Hh & Hd). destruct (layer_range i m L Hm) as (P & T & _). pose proof (s_bytes _ (l_shape _ L)) as Hb. assert (0 < block_bytes i) as Hb0 by lia.
  assert (layer_bytes i m = blocks_of (height (hybris_bc_image_extent i m)) * blocks_of (width (hybris_bc_image_extent i m)) * depth (hybris_bc_image_extent i m) * block_bytes i) as EB by (unfold layer_bytes; cbv zeta; ring). set (B := layer_bytes i m) in *. split.
  - intros Hq. set (r := q - offset i m). assert (B * (l + n) <= B * layers i) by (apply Z.mul_le_mono_nonneg_l; lia). assert (0 <= B * l) by (apply Z.mul_nonneg_nonneg; lia). pose proof (Z.mod_pos_bound r (block_bytes i) Hb0) as Hr. pose proof (Z.div_mod r (block_bytes i) ltac:(lia)) as Er.
    destruct (index_onto i m (r / block_bytes i) L Hm) as (s & y & x & Hin & Ei & Es); [apply Z.div_pos; lia|lia|]. exists s, y, x, (offset i m + index i m s y x * block_bytes i), (r mod block_bytes i). split; [assumption|]. split; [|split; [now apply block_place|lia]].
    rewrite Es, !Z.div_div by (try apply Z.mul_pos_pos; lia). match goal with |- context [r / ?d] => replace d with B by (rewrite EB; ring) end. split; [apply Z.div_le_lower_bound; lia|apply Z.div_lt_upper_bound; lia].
  - intros (s & y & x & a & t & Hin & Hs & Ha & Ht & ->). rewrite (block_place i m s y x L Hin) in Ha. injection Ha as <-. destruct Hin as (_ & _ & Hy & Hx). unfold index. set (e := hybris_bc_image_extent i m) in *. set (w := blocks_of (width e)) in *. set (h := blocks_of (height e)) in *. set (c := s / depth e) in *.
    pose proof (Z.div_mod s (depth e) ltac:(lia)) as Es. pose proof (Z.mod_pos_bound s (depth e) ltac:(lia)) as Em. fold c in Es. assert (depth e * c <= s < depth e * (c + 1)) as Hc by lia.
    assert (h * w * (depth e * c) <= (s * h + y) * w + x < h * w * (depth e * (c + 1))) as Hi. { assert (h * w * (depth e * c) <= h * w * s) by (apply Z.mul_le_mono_nonneg_l; [apply Z.mul_nonneg_nonneg; lia|lia]). assert (h * w * (s + 1) <= h * w * (depth e * (c + 1))) by (apply Z.mul_le_mono_nonneg_l; [apply Z.mul_nonneg_nonneg; lia|lia]). assert ((s * h + y + 1) * w <= (s + 1) * h * w) by (apply Z.mul_le_mono_nonneg_r; lia). assert (0 <= y * w) by (apply Z.mul_nonneg_nonneg; lia). lia. }
    assert (B * l <= B * c /\ B * (c + 1) <= B * (l + n)) as HB by (split; apply Z.mul_le_mono_nonneg_l; lia). set (j := (s * h + y) * w + x) in *. assert (B * c = h * w * (depth e * c) * block_bytes i /\ B * (c + 1) = h * w * (depth e * (c + 1)) * block_bytes i) as (E1 & E2) by (rewrite EB; split; ring).
    destruct Hb as [E|E]; rewrite E in *; lia.
Qed.

Definition covers (l : list buffer_barrier) (buffer : Z) (a : access) (q : Z) : Prop := exists b, b ∈ l /\ bb_buffer b = buffer /\ bb_access b = a /\ bb_offset b <= q < bb_offset b + bb_size b.

Lemma covers_app l l' buffer a q : covers (l ++ l') buffer a q <-> covers l buffer a q \/ covers l' buffer a q.
Proof.
  unfold covers. split.
  - intros (b & [Hb|Hb]%elem_of_app & H); [left|right]; exists b; auto.
  - intros [(b & Hb & H)|(b & Hb & H)]; exists b; rewrite elem_of_app; auto.
Qed.

Lemma level_barriers_ok i b : laid_out i -> barrier_ok i b -> forall l, (forall j, j ∈ l -> 0 <= j < named_levels i b) -> exists bs, level_barriers i b l = Ok bs /\ length bs = length l /\
  forall buffer a q, covers bs buffer a q <-> exists j, j ∈ l /\ blocks i = buffer /\ ib_access b = a /\ offset i (baseMip b + j) + layer_bytes i (baseMip b + j) * ib_layer b <= q < offset i (baseMip b + j) + layer_bytes i (baseMip b + j) * ib_layer b + layer_bytes i (baseMip b + j) * named_layers i b.
Proof.
  intros L K. induction l as [|j l IH]; intros Hl.
  - exists []. split; [reflexivity|]. split; [reflexivity|]. intros. split; [intros (c & Hc & _)|intros (j & Hj & _)]; now apply not_elem_of_nil in Hc || now apply not_elem_of_nil in Hj.
  - destruct (Hl j ltac:(left)) as [J1 J2]. cbn [level_barriers]. destruct K as [(M1 & M2 & M3) K2 K3] eqn:EK. rewrite (wrap_small 32 (baseMip b + j)) by (unfold in_range; lia). rewrite (range_place i b _ L K) by lia. cbn [obind].
    destruct IH as (bs & -> & Hlen & Hbs); [intros x Hx; apply Hl; now right|]. cbn [obind]. eexists. split; [reflexivity|]. split; [cbn [length]; lia|]. intros buffer a q. change (?x :: bs) with ([x] ++ bs). rewrite covers_app, Hbs. split.
    + intros [(c & ->%list_elem_of_singleton & H)|(k & Hk & H)]; [exists j|exists k]; rewrite elem_of_cons; auto.
    + intros (k & [->|Hk]%elem_of_cons & H); [left; eexists; split; [apply list_elem_of_singleton; reflexivity|exact H]|right; eauto].
Qed.

(** The barriers of one image. *)
Lemma named_ranges i b q : laid_out i -> barrier_ok i b -> named i b q <-> exists j, 0 <= j < named_levels i b /\ offset i (baseMip b + j) + layer_bytes i (baseMip b + j) * ib_layer b <= q < offset i (baseMip b + j) + layer_bytes i (baseMip b + j) * ib_layer b + layer_bytes i (baseMip b + j) * named_layers i b.
Proof.
  intros L [(M1 & M2 & M3) (K1 & K2 & K3) _]. unfold named. split.
  - intros (m & s & y & x & a & t & Hin & Hm & H). exists (m - baseMip b). split; [lia|]. replace (baseMip b + (m - baseMip b)) with m by lia. apply range_blocks; auto; [lia|]. exists s, y, x, a, t. tauto.
  - intros (j & Hj & Hq). apply range_blocks in Hq as (s & y & x & a & t & H); auto; [|lia]. exists (baseMip b + j), s, y, x, a, t. intuition lia.
Qed.

Definition images_ok (find : resources) (images : list image_barrier) : Prop := forall b i, b ∈ images -> find (ib_image b) = Some i -> laid_out i /\ barrier_ok i b.
(** A byte of the backing of an image that the barriers name. *)
Definition image_covers (find : resources) (images : list image_barrier) (buffer : Z) (a : access) (q : Z) : Prop := exists b i, b ∈ images /\ find (ib_image b) = Some i /\ blocks i = buffer /\ ib_access b = a /\ named i b q.

Lemma image_barriers_ok find : forall images n, images_ok find images -> 0 <= n -> n + 32 * Z.of_nat (length images) < 2 ^ 64 -> exists l, image_barriers find images = Ok l /\ barrier_count find images n = n + Z.of_nat (length l) /\ Z.of_nat (length l) <= 32 * Z.of_nat (length images) /\
  forall buffer a q, covers l buffer a q <-> image_covers find images buffer a q.
Proof.
  induction images as [|b images IH]; intros n Ho Hn Hlt.
  - exists []. cbn [image_barriers barrier_count length]. split_and!; [reflexivity|lia|lia|]. intros. split; [intros (c & Hc & _)|intros (c & i & Hc & _)]; now apply not_elem_of_nil in Hc.
  - cbn [image_barriers barrier_count length] in *. assert (images_ok find images) as Ho' by (intros c i Hc; apply Ho; now right). destruct (find (ib_image b)) as [i|] eqn:Ef.
    + destruct (Ho b i ltac:(left) Ef) as [L K]. pose proof K as [(M1 & M2 & M3) _ M4]. rewrite (proj1 (named_counts i b L K)). rewrite wrap_small by (unfold in_range; lia). destruct (level_barriers_ok i b L K (seqZ 0 (named_levels i b))) as (bs & -> & Hlen & Hbs); [intros j Hj%elem_of_seqZ; lia|]. rewrite length_seqZ in Hlen. destruct (IH (n + named_levels i b) Ho') as (l & -> & -> & Hll & Hl); [lia|lia|]. cbn [obind].
      eexists. split; [reflexivity|]. rewrite length_app. split; [lia|]. split; [lia|]. intros buffer a q. rewrite covers_app, Hbs, Hl. unfold image_covers. setoid_rewrite elem_of_cons. split.
      * intros [(j & Hj%elem_of_seqZ & H1 & H2 & Hq)|(c & k & H)]; [exists b, i|exists c, k]; split_and!; try tauto. apply named_ranges; auto. exists j. split; [lia|exact Hq].
      * intros (c & k & [->|Hc] & Hk & H1 & H2 & Hq); [left|right; exists c, k; tauto]. rewrite Hk in Ef. injection Ef as ->. apply named_ranges in Hq as (j & Hj & Hq); auto. exists j. split_and!; auto; [apply elem_of_seqZ; lia|tauto|tauto].
    + destruct (IH n Ho') as (l & -> & -> & Hll & Hl); [lia|lia|]. exists l. split_and!; [reflexivity|lia|lia|]. intros buffer a q. rewrite Hl. unfold image_covers. setoid_rewrite elem_of_cons. split; [intros (c & i & H); exists c, i; tauto|intros (c & i & [->|Hc] & H); [destruct H as [H _]; congruence|exists c, i; tauto]].
Qed.

Lemma prepare_returns SIZE find alloc buffers images : 0 < SIZE < 2 ^ 31 -> images_ok find images -> Z.of_nat (length buffers) + 32 * Z.of_nat (length images) < 2 ^ 32 ->
  exists l, (forall buffer a q, covers l buffer a q <-> image_covers find images buffer a q) /\
    prepare SIZE find alloc buffers images = Ok (match l with [] => Unchanged | _ => if alloc then Translated (buffers ++ l) else NoMemory end).
Proof.
  intros HS Ho Hlt. destruct (image_barriers_ok find images (Z.of_nat (length buffers)) Ho) as (l & El & Ec & Hl & Hc); [lia|lia|]. exists l. split; [assumption|]. unfold prepare. rewrite Ec, El. destruct l as [|c l]; [now rewrite (proj2 (Z.eqb_eq _ _)) by (cbn [length]; lia)|].
  set (l' := c :: l) in *. assert (0 < Z.of_nat (length l')) by (unfold l'; cbn [length]; lia). rewrite (proj2 (Z.eqb_neq _ _)) by lia. assert (2 ^ 32 - 1 <= UINT64_MAX / SIZE) by (apply Z.div_le_lower_bound; unfold UINT64_MAX; nia). rewrite !(proj2 (Z.ltb_ge _ _)) by lia. cbn [orb]. destruct alloc; [|reflexivity]. cbn [negb obind].
  rewrite length_app, Nat2Z.inj_add, Z.ltb_irrefl. reflexivity.
Qed.

(** C28: the barriers on images reach their compressed blocks.  When the images are laid out and the ranges are valid, the barriers given to
    the driver are the ones of the caller, in order, and new ones on the backings: with the masks of the image barriers, these cover exactly the bytes of the blocks
    of the levels and layers that the image barriers name, also with [VK_REMAINING].  The array is never overrun, and when memory is
    short nothing is recorded and the command buffer has the error. *)
Theorem barriers_exact (SIZE : Z) (find : resources) (alloc : bool) (buffers : list buffer_barrier) (images : list image_barrier)
    (HS : 0 < SIZE < 2 ^ 31) (Ho : images_ok find images) (Hn : Z.of_nat (length buffers) + 32 * Z.of_nat (length images) < 2 ^ 32) :
  exists l, (forall buffer a q, covers l buffer a q <-> image_covers find images buffer a q) /\
    pipeline_barrier SIZE find alloc VK_SUCCESS buffers images =
      Ok (if alloc || Nat.eqb (length l) 0 then (VK_SUCCESS, Some (buffers ++ l, images)) else (VK_ERROR_OUT_OF_HOST_MEMORY, None)).
Proof.
  destruct (prepare_returns SIZE find alloc buffers images HS Ho Hn) as (l & Hc & E). exists l. split; [assumption|]. unfold pipeline_barrier. rewrite E. destruct l, alloc; cbn; now rewrite ?app_nil_r.
Qed.

(** The second layer of all levels from the second one on of the sample; handle 9 is no emulated image. *)
Definition sample_barriers : list image_barrier := [ImageBarrier 9 0 VK_REMAINING 0 1 (Access 0 1 0 2 7 7); ImageBarrier 5 1 VK_REMAINING 1 VK_REMAINING (Access 0 1 0 2 7 7)].

Lemma barriers_exact_witness : exists img l, hybris_bc_image_describe sample_info = Ok (VK_SUCCESS, img) /\
  pipeline_barrier 56 (fun h => if h =? 5 then Some (with_objects img 5 6 77 37) else None) true VK_SUCCESS [] sample_barriers = Ok (VK_SUCCESS, Some (l, sample_barriers)) /\
  l = [BufferBarrier 77 224 32 (Access 0 1 0 2 7 7); BufferBarrier 77 272 16 (Access 0 1 0 2 7 7); BufferBarrier 77 304 16 (Access 0 1 0 2 7 7)] /\ image_covers (fun h => if h =? 5 then Some (with_objects img 5 6 77 37) else None) sample_barriers 77 (Access 0 1 0 2 7 7) 250.
Proof.
  destruct (describe_ok sample_info) as (e & img & E & L); [unfold info_ok, in_range; cbn; lia|]. pose proof E as E'. vm_compute in E'. injection E' as <- Ei. specialize (L eq_refl). exists img.
  destruct (barriers_exact 56 (fun h => if h =? 5 then Some (with_objects img 5 6 77 37) else None) true [] sample_barriers) as (l & Hc & Hp); [lia| |reflexivity|].
  - intros b i Hb Hf. assert (ib_image b = 5) as Hb5 by (destruct (Z.eqb_spec (ib_image b) 5); congruence). assert (b = ImageBarrier 5 1 VK_REMAINING 1 VK_REMAINING (Access 0 1 0 2 7 7)) as -> by (apply elem_of_cons in Hb as [->|Hb%list_elem_of_singleton]; [discriminate Hb5|assumption]).
    cbn in Hf. injection Hf as <-. split; [destruct L as [[? ? ?] ? ? ?]; constructor; [constructor|..]; assumption|]. rewrite <- Ei. constructor; vm_compute; intuition congruence.
  - cbn [app orb] in Hp. exists l. split; [exact E|]. split; [exact Hp|]. assert (l = [BufferBarrier 77 224 32 (Access 0 1 0 2 7 7); BufferBarrier 77 272 16 (Access 0 1 0 2 7 7); BufferBarrier 77 304 16 (Access 0 1 0 2 7 7)]) as El by (rewrite <- Ei in Hp; vm_compute in Hp; now injection Hp as <-).
    split; [exact El|]. apply Hc. rewrite El. exists (BufferBarrier 77 224 32 (Access 0 1 0 2 7 7)). split; [left|]. cbn [bb_buffer bb_access bb_offset bb_size]. split; [reflexivity|]. split; [reflexivity|lia].
Defined.
End BcCopy.
