(* ===== verification/BcScratch.v ===== *)
(** * Scratch memory of the block decoder (vulkan/compat/bc_transfer.c)

    Decoded blocks go through chunks of scratch memory.  A transfer holds chunks while its command buffer may run, a
    decoder keeps a few idle ones.  Two global counters, under one lock, bound what is live and what is idle; memory is created and
    destroyed outside the lock.  Each locked section is one step. *)

From Stdlib Require Import ZArith Lia Bool.
From stdpp Require Import base numbers option list.
From S2P Require Import Prelude BcImage.

Open Scope Z_scope.
Open Scope outcome_scope.

Module BcScratch.
Import BcImage.

Definition VK_ERROR_OUT_OF_HOST_MEMORY : Z := -1.
Definition CHUNK_MIN : Z := 2 ^ 20.
Definition CHUNK_MAX : Z := 16 * 2 ^ 20.
Definition IDLE_MAX : Z := 32 * 2 ^ 20.
Definition LIVE_MAX : Z := 96 * 2 ^ 20.

Record hybris_bc_scratch := Chunk { buffer : Z; memory : Z; size : Z; used : Z }.
Definition with_used (c : hybris_bc_scratch) (u : Z) : hybris_bc_scratch := Chunk (buffer c) (memory c) (size c) u.

(** [while (size < want && size <= limit / 2) size *= 2]. *)
Fixpoint double (fuel : nat) (size want limit : Z) : outcome Z :=
  if (size <? want) && (size <=? limit / 2) then match fuel with O => Undef | S fuel => double fuel (u64 (size * 2)) want limit end else Ok size.
Definition chunk_size (want limit : Z) : outcome Z := double 64 (if CHUNK_MIN <? limit then CHUNK_MIN else limit) want limit.

(** The smallest idle chunk that is large enough, the first one among equals: its place and the chunk. *)
Fixpoint best_fit (need : Z) (l : list hybris_bc_scratch) (k : nat) (best : option (nat * hybris_bc_scratch)) : option (nat * hybris_bc_scratch) :=
  match l with
  | [] => best
  | c :: l => best_fit need l (S k) (if (need <=? size c) && match best with None => true | Some (_, b) => size c <? size b end then Some (k, c) else best)
  end.

(** The global counters. *)
Record counters := Counters { scratch_live : Z; scratch_idle : Z }.

(** What the first section of [chunk_get] decides: an error, an idle chunk with those that are left, a size for a new
    chunk, or nothing for now. *)
Inductive taken := Refused (r : Z) | Reuse (c : hybris_bc_scratch) (l : list hybris_bc_scratch) | Reserve (size : Z) | NoRoom.

Definition reserve (range need want : Z) (has_chunks : bool) (l : list hybris_bc_scratch) (g : counters) : outcome (taken * counters) :=
  let limit := if CHUNK_MAX <? range then CHUNK_MAX else range in
  if (limit <? need) || (limit <? 64) then Ok (Refused VK_ERROR_FORMAT_NOT_SUPPORTED, g) else
  let want := if limit <? want then limit else want in
  match best_fit need l 0 None with
  | Some (k, c) => Ok (Reuse c (take k l ++ drop (S k) l), Counters (scratch_live g) (u64 (scratch_idle g - size c)))
  | None =>
      let! n := chunk_size want limit in
      if LIVE_MAX <? u64 (scratch_live g + n) then
        if has_chunks then Ok (NoRoom, g) else
        let! n := chunk_size need limit in Ok (Reserve n, Counters (u64 (scratch_live g + n)) (scratch_idle g))
      else Ok (Reserve n, Counters (u64 (scratch_live g + n)) (scratch_idle g))
  end.

(** The last section of [chunk_destroy] and of a failed [chunk_get]. *)
Definition unreserve (n : Z) (g : counters) : counters := Counters (u64 (scratch_live g - n)) (scratch_idle g).

(** The driver's answers to the creation of a chunk. *)
Record chunk_answers := ChunkAnswers { host : bool; c_buffer : answer; c_bits : Z; c_memory : answer; c_bound : Z }.
(** The part of [chunk_get] outside the lock; the chunk is returned on success. *)
Definition create_chunk (types : list Z) (n : Z) (a : chunk_answers) : Z * option hybris_bc_scratch * list event :=
  let fail r b m ev := (r, None, ev ++ dropped OBuffer b ++ dropped OMemory m) in
  if negb (host a) then (VK_ERROR_OUT_OF_HOST_MEMORY, None, []) else
  let ev := made OBuffer (c_buffer a) in
  if negb (code (c_buffer a) =? VK_SUCCESS) then fail (code (c_buffer a)) (handle (c_buffer a)) 0 ev else
  match select_type (c_bits a) types 0 None with
  | None => fail VK_ERROR_OUT_OF_DEVICE_MEMORY (handle (c_buffer a)) 0 ev
  | Some _ =>
      let ev := ev ++ made OMemory (c_memory a) in
      if negb (code (c_memory a) =? VK_SUCCESS) then fail (code (c_memory a)) (handle (c_buffer a)) (handle (c_memory a)) ev else
      if negb (c_bound a =? VK_SUCCESS) then fail (c_bound a) (handle (c_buffer a)) (handle (c_memory a)) ev else
      (VK_SUCCESS, Some (Chunk (handle (c_buffer a)) (handle (c_memory a)) n 0), ev)
  end.

(** The whole of [chunk_get] when no other thread runs: the result, the chunk, the decoder's idle chunks and the counters. *)
Definition chunk_get (range need want : Z) (has_chunks : bool) (types : list Z) (a : chunk_answers) (l : list hybris_bc_scratch) (g : counters) :
    outcome (Z * option hybris_bc_scratch * list hybris_bc_scratch * counters * list event) :=
  let! (t, g) := reserve range need want has_chunks l g in
  match t with
  | Refused r => Ok (r, None, l, g, [])
  | Reuse c l => Ok (VK_SUCCESS, Some c, l, g, [])
  | NoRoom => Ok (VK_SUCCESS, None, l, g, [])
  | Reserve n => let '(r, c, ev) := create_chunk types n a in Ok (r, c, l, if r =? VK_SUCCESS then g else unreserve n g, ev)
  end.

(** The section of [hybris_bc_transfer_finish] for one chunk: kept, with the idle chunks then, or to be destroyed. *)
Definition retire (c : hybris_bc_scratch) (l : list hybris_bc_scratch) (g : counters) : bool * list hybris_bc_scratch * counters :=
  if u64 (scratch_idle g + size c) <=? IDLE_MAX then (true, with_used c 0 :: l, Counters (scratch_live g) (u64 (scratch_idle g + size c)))
  else (false, l, g).

Definition chunk_destroy (c : hybris_bc_scratch) (g : counters) : counters * list event := (unreserve (size c) g, [EDestroy (OBuffer (buffer c)); EDestroy (OMemory (memory c))]).

(** One round of [hybris_bc_transfer_device_finish]. *)
Definition idle_take (c : hybris_bc_scratch) (g : counters) : counters := Counters (scratch_live g) (u64 (scratch_idle g - size c)).
Fixpoint hybris_bc_transfer_device_finish (l : list hybris_bc_scratch) (g : counters) : counters * list event :=
  match l with
  | [] => (g, [])
  | c :: l => let (g, ev) := chunk_destroy c (idle_take c g) in let (g, ev') := hybris_bc_transfer_device_finish l g in (g, ev ++ ev')
  end.
(** The chunks of [hybris_bc_transfer_finish]: the decoder's idle chunks, the counters, the objects destroyed. *)
Fixpoint transfer_finish_chunks (cs l : list hybris_bc_scratch) (g : counters) : list hybris_bc_scratch * counters * list event :=
  match cs with
  | [] => (l, g, [])
  | c :: cs =>
      let '(keep, l, g) := retire c l g in
      let (g, ev) := if keep then (g, []) else chunk_destroy c g in
      let '(l, g, ev') := transfer_finish_chunks cs l g in (l, g, ev ++ ev')
  end.

(** ** Sizes *)

Lemma double_ok want limit : 0 <= limit <= CHUNK_MAX -> forall fuel size, 0 < size <= limit -> CHUNK_MAX < size * 2 ^ Z.of_nat fuel -> exists n, double fuel size want limit = Ok n /\ size <= n <= limit /\ (want <= n \/ limit / 2 < n).
Proof.
  intros Hl. induction fuel as [|fuel IH]; intros n Hn Hf.
  - assert (CHUNK_MAX < n) by (change (2 ^ Z.of_nat 0) with 1 in Hf; lia). lia.
  - cbn [double]. destruct ((n <? want) && (n <=? limit / 2)) eqn:E.
    + apply andb_true_iff in E as [E1%Z.ltb_lt E2%Z.leb_le]. assert (limit / 2 * 2 <= limit) by (pose proof (Z.mul_div_le limit 2 ltac:(lia)); lia). rewrite wrap_small by (unfold in_range, CHUNK_MAX in *; lia).
      destruct (IH (n * 2)) as (k & -> & Hk & Ho); [lia| |exists k; split; [reflexivity|lia]]. rewrite Nat2Z.inj_succ, Z.pow_succ_r in Hf by lia. lia.
    + exists n. split; [reflexivity|]. apply andb_false_iff in E as [E%Z.ltb_ge|E%Z.leb_gt]; lia.
Qed.

Lemma chunk_size_ok want limit : 64 <= limit <= CHUNK_MAX -> exists n, chunk_size want limit = Ok n /\ Z.min CHUNK_MIN limit <= n <= limit /\ (want <= n \/ limit / 2 < n).
Proof.
  intros Hl. unfold chunk_size. assert ((if CHUNK_MIN <? limit then CHUNK_MIN else limit) = Z.min CHUNK_MIN limit) as -> by (destruct (Z.ltb_spec CHUNK_MIN limit); lia). apply double_ok; [lia|unfold CHUNK_MIN; lia|]. unfold CHUNK_MAX in *. change (2 ^ Z.of_nat 64) with (2 ^ 64). unfold CHUNK_MIN. lia.
Qed.

Lemma best_fit_ok need : forall l k best all, (forall j c, best = Some (j, c) -> (j < k)%nat /\ all !! j = Some c /\ need <= size c) -> drop k all = l ->
  match best_fit need l k best with
  | Some (j, c) => all !! j = Some c /\ need <= size c /\ (forall b, best = Some b -> size c <= size (snd b)) /\ forall c', c' ∈ l -> need <= size c' -> size c <= size c'
  | None => best = None /\ forall c', c' ∈ l -> size c' < need
  end.
Proof.
  induction l as [|c l IH]; intros k best all Hb Hl; cbn [best_fit].
  - destruct best as [[j c]|]; [|split; [reflexivity|]; intros c' Hc; now apply not_elem_of_nil in Hc]. destruct (Hb j c eq_refl) as (_ & H1 & H2). split_and!; auto; [intros b [= <-]; cbn; lia|intros c' Hc; now apply not_elem_of_nil in Hc].
  - assert (all !! k = Some c) as Hk by (rewrite <- (Nat.add_0_r k), <- lookup_drop, Hl; reflexivity). assert (drop (S k) all = l) as Hd by (replace (S k) with (k + 1)%nat by lia; rewrite <- drop_drop, Hl; reflexivity).
    set (t := (need <=? size c) && match best with None => true | Some (_, b) => size c <? size b end).
    destruct t eqn:Et; unfold t in Et.
    + apply andb_true_iff in Et as [E1%Z.leb_le E2]. specialize (IH (S k) (Some (k, c)) all ltac:(intros j x [= <- <-]; split; [lia|auto]) Hd). destruct (best_fit need l (S k) (Some (k, c))) as [[j x]|]; [|destruct IH as [IH _]; discriminate]. destruct IH as (I1 & I2 & I3 & I4). specialize (I3 _ eq_refl). cbn [snd] in I3.
      split_and!; auto; [intros [j' b] ->; apply Z.ltb_lt in E2; cbn; lia|]. intros c' [->|Hc]%elem_of_cons Hn; [lia|auto].
    + specialize (IH (S k) best all ltac:(intros j x E; destruct (Hb j x E) as (? & ? & ?); split; [lia|auto]) Hd). destruct (best_fit need l (S k) best) as [[j x]|].
      * destruct IH as (I1 & I2 & I3 & I4). split_and!; auto. intros c' [->|Hc]%elem_of_cons Hn; [|auto]. apply andb_false_iff in Et as [E%Z.leb_gt|E]; [lia|]. destruct best as [[j' b]|]; [|discriminate]. apply Z.ltb_ge in E. specialize (I3 _ eq_refl). cbn [snd] in I3. lia.
      * destruct IH as [-> I2]. split; [reflexivity|]. intros c' [->|Hc]%elem_of_cons; [|auto]. rewrite andb_true_r in Et. now apply Z.leb_gt in Et.
Qed.

(** ** All transfers and decoders *)

(** The idle chunks of each decoder; the decoder and chunks of each transfer; what is reserved for chunks that are being
    created or destroyed, with the decoder. *)
Record system := System { globals : counters; decoders : list (list hybris_bc_scratch); transfers : list (nat * list hybris_bc_scratch); flight : list (nat * Z) }.

Definition held (s : system) : list hybris_bc_scratch := concat (snd <$> transfers s).
Definition all_chunks (s : system) : list hybris_bc_scratch := concat (decoders s) ++ held s.

Section system.
(** The limit of each decoder's device. *)
Context (range : nat -> Z).

(** The sections of all threads, in any order.  The driver's buffers are new; decoding changes what is used of the chunks of its transfer. *)
Inductive step : system -> system -> Prop :=
| st_reuse g ds ts fl t d cs l need want c l' g' : ts !! t = Some (d, cs) -> ds !! d = Some l ->
    reserve (range d) need want (negb (Nat.eqb (length cs) 0)) l g = Ok (Reuse c l', g') ->
    step (System g ds ts fl) (System g' (<[d := l']> ds) (<[t := (d, c :: cs)]> ts) fl)
| st_reserve g ds ts fl t d cs l need want n g' : ts !! t = Some (d, cs) -> ds !! d = Some l -> scratch_live g < 2 ^ 63 ->
    reserve (range d) need want (negb (Nat.eqb (length cs) 0)) l g = Ok (Reserve n, g') ->
    step (System g ds ts fl) (System g' ds ts ((d, n) :: fl))
| st_created g ds ts fl fl' t d cs types n a c ev : ts !! t = Some (d, cs) -> fl ≡ₚ (d, n) :: fl' -> create_chunk types n a = (VK_SUCCESS, Some c, ev) ->
    buffer c ∉ buffer <$> all_chunks (System g ds ts fl) ->
    step (System g ds ts fl) (System g ds (<[t := (d, c :: cs)]> ts) fl')
| st_unreserve g ds ts fl fl' d n : fl ≡ₚ (d, n) :: fl' -> step (System g ds ts fl) (System (unreserve n g) ds ts fl')
| st_retire g ds ts fl t d c cs l keep l' g' : ts !! t = Some (d, c :: cs) -> ds !! d = Some l -> retire c l g = (keep, l', g') ->
    step (System g ds ts fl) (System g' (<[d := l']> ds) (<[t := (d, cs)]> ts) (if keep then fl else (d, size c) :: fl))
| st_device g ds ts fl d c l : ds !! d = Some (c :: l) -> step (System g ds ts fl) (System (idle_take c g) (<[d := l]> ds) ts ((d, size c) :: fl))
| st_used g ds ts fl t d cs cs' : ts !! t = Some (d, cs) -> (fun c => with_used c 0) <$> cs' = (fun c => with_used c 0) <$> cs ->
    step (System g ds ts fl) (System g ds (<[t := (d, cs')]> ts) fl).

Inductive reachable : system -> Prop :=
| r_start nd (owners : list nat) : reachable (System (Counters 0 0) (replicate nd []) ((fun d => (d, [])) <$> owners) [])
| r_step s s' : reachable s -> step s s' -> reachable s'.

Definition bytes (l : list hybris_bc_scratch) : Z := foldr (fun c n => size c + n) 0 l.
Definition total_of (l : list (nat * Z)) : Z := foldr (fun x n => snd x + n) 0 l.
(** The sizes of the chunks of a decoder. *)
Definition sized (d : nat) (n : Z) : Prop := 64 <= n <= CHUNK_MAX /\ Z.min CHUNK_MIN (range d) <= n <= range d.

Record accounted (s : system) : Prop := {
  ac_live : scratch_live (globals s) = bytes (all_chunks s) + total_of (flight s);
  ac_idle : scratch_idle (globals s) = bytes (concat (decoders s));
  ac_max : scratch_idle (globals s) <= IDLE_MAX;
  ac_range : scratch_live (globals s) < 2 ^ 63 + CHUNK_MAX;
  ac_decoders : forall d l, decoders s !! d = Some l -> Forall (fun c => sized d (size c) /\ used c = 0) l;
  ac_transfers : forall t d cs, transfers s !! t = Some (d, cs) -> Forall (fun c => sized d (size c)) cs;
  ac_flight : Forall (fun x => sized (fst x) (snd x)) (flight s);
  ac_distinct : NoDup (buffer <$> all_chunks s) }.

(** *** Lists of chunks *)

Lemma bytes_app l l' : bytes (l ++ l') = bytes l + bytes l'.
Proof. induction l as [|c l IH]; cbn [app bytes foldr]; [reflexivity|]. fold (bytes (l ++ l')) (bytes l). lia. Qed.
Lemma bytes_cons c l : bytes (c :: l) = size c + bytes l.
Proof. reflexivity. Qed.
Lemma bytes_perm l l' : l ≡ₚ l' -> bytes l = bytes l'.
Proof. induction 1; rewrite ?bytes_cons; lia. Qed.
Lemma total_perm l l' : l ≡ₚ l' -> total_of l = total_of l'.
Proof. unfold total_of. induction 1; cbn [foldr]; lia. Qed.

Lemma concat_split {A} (ls : list (list A)) k l : ls !! k = Some l -> exists R, concat ls ≡ₚ l ++ R /\ forall l', concat (<[k := l']> ls) ≡ₚ l' ++ R.
Proof.
  revert k. induction ls as [|x ls IH]; intros [|k] Hk; cbn in Hk; try discriminate.
  - injection Hk as ->. exists (concat ls). split; reflexivity.
  - destruct (IH k Hk) as (R & H1 & H2). exists (x ++ R). cbn [concat insert list_insert]. split; [rewrite H1|intros l'; cbn; rewrite H2]; rewrite !app_assoc; apply Permutation_app_tail, Permutation_app_comm.
Qed.

Lemma held_split g ds ts fl t d cs : ts !! t = Some (d, cs) -> exists R, held (System g ds ts fl) ≡ₚ cs ++ R /\ forall g' ds' fl' cs', held (System g' ds' (<[t := (d, cs')]> ts) fl') ≡ₚ cs' ++ R.
Proof.
  intros Ht. destruct (concat_split (snd <$> ts) t cs) as (R & H1 & H2); [now rewrite list_lookup_fmap, Ht|]. exists R. split; [exact H1|]. intros. unfold held. cbn [transfers]. rewrite list_fmap_insert. apply H2.
Qed.

Lemma bytes_pos l : Forall (fun c => 0 <= size c) l -> 0 <= bytes l.
Proof. induction 1; [cbn; lia|rewrite bytes_cons; lia]. Qed.

Lemma all_sized s : accounted s -> Forall (fun c => 0 <= size c) (concat (decoders s)) /\ Forall (fun c => 0 <= size c) (held s) /\ 0 <= total_of (flight s).
Proof.
  intros H. assert (forall (ls : list (list hybris_bc_scratch)), (forall k l, ls !! k = Some l -> Forall (fun c => 0 <= size c) l) -> Forall (fun c => 0 <= size c) (concat ls)) as Hls by (intros ls Hl; apply Forall_lookup_2 in Hl; induction Hl; cbn [concat]; [constructor|now apply Forall_app]).
  split_and!.
  - apply Hls. intros d l Hd. eapply Forall_impl; [apply (ac_decoders _ H _ _ Hd)|]. intros c [[Hc _] _]. lia.
  - apply Hls. intros t cs Ht. rewrite list_lookup_fmap in Ht. destruct (transfers s !! t) as [[d cs']|] eqn:E; [|discriminate]. injection Ht as <-. eapply Forall_impl; [apply (ac_transfers _ H _ _ _ E)|]. intros c [Hc _]. lia.
  - pose proof (ac_flight _ H) as Hf. induction Hf as [|x l [Hx _] _ IH]; cbn [total_of foldr]; [lia|]. fold (total_of l). lia.
Qed.

(** The account of a state whose lists are known up to order. *)
Lemma accounted_intro g ds ts fl D T : concat ds ≡ₚ D -> held (System g ds ts fl) ≡ₚ T -> scratch_live g = bytes D + bytes T + total_of fl -> scratch_idle g = bytes D -> scratch_idle g <= IDLE_MAX -> scratch_live g < 2 ^ 63 + CHUNK_MAX ->
  (forall d l, ds !! d = Some l -> Forall (fun c => sized d (size c) /\ used c = 0) l) -> (forall t x, ts !! t = Some x -> Forall (fun c => sized (fst x) (size c)) (snd x)) -> Forall (fun x => sized (fst x) (snd x)) fl -> NoDup (buffer <$> D ++ T) -> accounted (System g ds ts fl).
Proof.
  intros PD PT Hl Hi Hm Hr Hd Ht Hf Hn. constructor; unfold all_chunks; cbn [globals decoders transfers flight]; rewrite ?bytes_app, ?(bytes_perm _ _ PD), ?(bytes_perm _ _ PT); auto; [intros t d cs E; apply (Ht t (d, cs) E)|]. now rewrite PD, PT.
Qed.

(** The first section always returns. *)
Lemma reserve_ok d need want has l g : exists t g', reserve (range d) need want has l g = Ok (t, g') /\
  match t with
  | Refused _ | NoRoom => g' = g
  | Reuse c l' => l ≡ₚ c :: l' /\ need <= size c /\ g' = Counters (scratch_live g) (u64 (scratch_idle g - size c))
  | Reserve n => sized d n /\ g' = Counters (u64 (scratch_live g + n)) (scratch_idle g) /\ (has = true -> u64 (scratch_live g + n) <= LIVE_MAX)
  end.
Proof.
  unfold reserve. set (limit := if CHUNK_MAX <? range d then CHUNK_MAX else range d). assert (limit = Z.min CHUNK_MAX (range d)) as El by (unfold limit; destruct (Z.ltb_spec CHUNK_MAX (range d)); lia). destruct ((limit <? need) || (limit <? 64)) eqn:Er; [eexists _, _; split; [reflexivity|reflexivity]|].
  apply orb_false_iff in Er as [E1%Z.ltb_ge E2%Z.ltb_ge]. set (want' := if limit <? want then limit else want). pose proof (best_fit_ok need l 0 None l ltac:(discriminate) eq_refl) as Hb. destruct (best_fit need l 0 None) as [[k c]|].
  - destruct Hb as (B1 & B2 & _ & _). eexists _, _. split; [reflexivity|]. split; [|auto]. rewrite <- (take_drop_middle l k c B1) at 1. symmetry. apply Permutation_middle.
  - assert (forall w, exists n, chunk_size w limit = Ok n /\ sized d n) as Hs. { intros w. destruct (chunk_size_ok w limit) as (n & Ec & Hn & _); [lia|]. exists n. split; [assumption|]. unfold sized, CHUNK_MIN, CHUNK_MAX in *. lia. }
    destruct (Hs want') as (n & -> & Hn). cbn [obind]. destruct (Z.ltb_spec LIVE_MAX (u64 (scratch_live g + n))) as [Hl|Hl].
    + destruct has; [eexists _, _; split; reflexivity|]. destruct (Hs need) as (n' & -> & Hn'). cbn [obind]. eexists _, _. split; [reflexivity|]. split; [assumption|]. split; [reflexivity|discriminate].
    + eexists _, _. split; [reflexivity|]. split; [assumption|]. split; [reflexivity|auto].
Qed.

Lemma retire_ok c l g keep l' g' : 0 <= scratch_idle g <= IDLE_MAX -> 0 <= size c <= CHUNK_MAX -> retire c l g = (keep, l', g') ->
  if keep then l' = with_used c 0 :: l /\ g' = Counters (scratch_live g) (scratch_idle g + size c) /\ scratch_idle g + size c <= IDLE_MAX else l' = l /\ g' = g.
Proof.
  intros Hi Hc. unfold retire. rewrite wrap_small by (unfold in_range, IDLE_MAX, CHUNK_MAX in *; lia). destruct (Z.leb_spec (scratch_idle g + size c) IDLE_MAX); intros [= <- <- <-]; auto.
Qed.

Lemma created_size types n a c ev : create_chunk types n a = (VK_SUCCESS, Some c, ev) -> size c = n /\ used c = 0.
Proof.
  unfold create_chunk. destruct (host a); cbn [negb]; [|discriminate]. destruct (code (c_buffer a) =? VK_SUCCESS); cbn [negb]; [|discriminate]. destruct (select_type _ _ _ _); [|discriminate]. destruct (code (c_memory a) =? VK_SUCCESS); cbn [negb]; [|discriminate]. destruct (c_bound a =? VK_SUCCESS); cbn [negb]; [|discriminate]. intros [= <- <-]. auto.
Qed.

Lemma buffers_used cs cs' : (fun c => with_used c 0) <$> cs' = (fun c => with_used c 0) <$> cs -> buffer <$> cs' = buffer <$> cs /\ bytes cs' = bytes cs /\ (forall P : Z -> Prop, Forall (fun c => P (size c)) cs -> Forall (fun c => P (size c)) cs').
Proof.
  revert cs. induction cs' as [|c' cs' IH]; intros [|c cs]; cbn; try discriminate; [auto|]. intros [= E1 E2 E3 E4]. destruct (IH cs E4) as (-> & Hb & Hf). rewrite E1. split; [reflexivity|]. split; [unfold bytes in Hb; lia|]. intros P H. inversion H; subst. constructor; [now rewrite E3|now apply Hf].
Qed.

Lemma insert_all {A} (P : nat -> A -> Prop) (l : list A) k x : (forall j y, l !! j = Some y -> P j y) -> P k x -> forall j y, <[k := x]> l !! j = Some y -> P j y.
Proof. intros Hl Hx j y Hj. apply list_lookup_insert_Some in Hj as [(-> & -> & _)|(_ & Hj)]; auto. Qed.

Lemma accounted_step s s' : accounted s -> step s s' -> accounted s'.
Proof.
  intros H Hs. pose proof (all_sized s H) as (A1 & A2 & A3). pose proof (ac_transfers s H) as Ht. assert (forall t x, transfers s !! t = Some x -> Forall (fun c => sized (fst x) (size c)) (snd x)) as Ht' by (intros t [d cs] E; exact (Ht t d cs E)). clear Ht.
  destruct H as [Hl Hi Hm Hr Hd _ Hf Hn]. unfold all_chunks in *. rewrite bytes_app in Hl.
  destruct Hs as [g ds ts fl t d cs l need want c l' g' Et Ed Er|g ds ts fl t d cs l need want n g' Et Ed Hlt Er|g ds ts fl fl' t d cs types n a c ev Et Ef Ec Hfresh|g ds ts fl fl' d n Ef|g ds ts fl t d c cs l keep l' g' Et Ed Er|g ds ts fl d c l Ed|g ds ts fl t d cs cs' Et Ec]; cbn [globals decoders transfers flight] in *.
  - destruct (reserve_ok d need want (negb (Nat.eqb (length cs) 0)) l g) as (tk & g2 & E2 & Hok). rewrite E2 in Er. injection Er as -> ->. destruct Hok as (P & _ & ->). destruct (concat_split ds d l Ed) as (R1 & D1 & D2). destruct (held_split g ds ts fl t d cs Et) as (R2 & T1 & T2). pose proof (Hd d l Ed) as Hl'. rewrite P in Hl'. apply Forall_cons_1 in Hl' as [[[Hc1 Hc2] Hc3] Hl'].
    rewrite (bytes_perm _ _ D1), (bytes_perm _ _ T1), !bytes_app, (bytes_perm _ _ P), bytes_cons in *. rewrite D1, P in A1. apply Forall_cons_1 in A1 as [_ A1]. apply bytes_pos in A1. rewrite bytes_app in A1.
    apply (accounted_intro _ _ _ _ (l' ++ R1) (c :: cs ++ R2)); [apply D2|apply T2| | | |assumption| | |assumption|]; cbn [scratch_live scratch_idle]; rewrite ?bytes_cons, ?bytes_app, ?(wrap_small 64 (scratch_idle g - size c)) by (unfold in_range, IDLE_MAX in *; lia); try lia.
    + apply insert_all; auto.
    + apply insert_all; auto. cbn. constructor; [split; assumption|apply (Ht' t (d, cs) Et)].
    + rewrite D1, T1, P in Hn. revert Hn. apply NoDup_Permutation_proper. apply fmap_Permutation. cbn. rewrite <- !Permutation_middle. reflexivity.
  - destruct (reserve_ok d need want (negb (Nat.eqb (length cs) 0)) l g) as (tk & g2 & E2 & Hok). rewrite E2 in Er. injection Er as -> ->. destruct Hok as (Hs & -> & _). apply bytes_pos in A1, A2. pose proof Hs as [Hs1 _]. 
    apply (accounted_intro _ _ _ _ (concat ds) (held (System g ds ts fl))); auto; cbn [scratch_live scratch_idle total_of foldr snd]; fold (total_of fl); rewrite ?(wrap_small 64 (scratch_live g + n)) by (unfold in_range, CHUNK_MAX in *; lia); try lia.
  - destruct (created_size _ _ _ _ _ Ec) as [Es Eu]. destruct (held_split g ds ts fl t d cs Et) as (R2 & T1 & T2). pose proof (total_perm _ _ Ef) as Etot. cbn [total_of foldr snd] in Etot. fold (total_of fl') in Etot. rewrite Ef in Hf. apply Forall_cons_1 in Hf as [Hf1 Hf].
    rewrite (bytes_perm _ _ T1), bytes_app in *. apply (accounted_intro _ _ _ _ (concat ds) (c :: cs ++ R2)); [reflexivity|apply T2| | | | | | |assumption|]; rewrite ?bytes_cons, ?bytes_app; try lia; auto.
    + apply insert_all; auto. cbn. constructor; [now rewrite Es|apply (Ht' t (d, cs) Et)].
    + cbn. rewrite <- Permutation_middle. cbn. constructor; [|now rewrite T1 in Hn]. unfold all_chunks in Hfresh. cbn [decoders] in Hfresh. now rewrite T1 in Hfresh.
  - pose proof (total_perm _ _ Ef) as Etot. cbn [total_of foldr snd] in Etot. fold (total_of fl') in Etot. rewrite Ef in Hf. apply Forall_cons_1 in Hf as [Hf1 Hf]. apply bytes_pos in A1, A2. assert (0 <= total_of fl') by (clear - Hf; induction Hf as [|x l [Hx _] _ IH]; cbn [total_of foldr]; [lia|]; fold (total_of l); lia). destruct Hf1 as [Hf1 _]. cbn [fst snd] in Hf1.
    apply (accounted_intro _ _ _ _ (concat ds) (held (System g ds ts fl))); auto; cbn [unreserve scratch_live scratch_idle]; rewrite ?(wrap_small 64 (scratch_live g - n)) by (unfold in_range, CHUNK_MAX in *; lia); lia.
  - destruct (concat_split ds d l Ed) as (R1 & D1 & D2). destruct (held_split g ds ts fl t d (c :: cs) Et) as (R2 & T1 & T2). pose proof (Ht' t _ Et) as Hcs. cbn in Hcs. apply Forall_cons_1 in Hcs as [Hc Hcs]. pose proof Hc as [Hc1 Hc2]. pose proof (bytes_pos _ A1) as B1. pose proof (bytes_pos _ A2) as B2. apply retire_ok in Er; [|lia|lia].
    rewrite (bytes_perm _ _ T1) in Hl, B2. rewrite (bytes_perm _ _ D1) in Hl, Hi, B1. cbn [app] in *. rewrite !bytes_cons, !bytes_app in *. destruct keep.
    + destruct Er as (-> & -> & Hk). apply (accounted_intro _ _ _ _ (with_used c 0 :: l ++ R1) (cs ++ R2)); [apply D2|apply T2| | | | | | |assumption|]; cbn [scratch_live scratch_idle]; rewrite ?bytes_cons, ?bytes_app; cbn [size with_used]; try lia.
      * apply insert_all; auto.
      * apply insert_all; auto.
      * rewrite D1, T1, <- Permutation_middle in Hn. exact Hn.
    + destruct Er as (-> & ->). apply (accounted_intro _ _ _ _ (l ++ R1) (cs ++ R2)); [apply D2|apply T2| | | | | | | |]; cbn [total_of foldr snd]; fold (total_of fl); rewrite ?bytes_app; try lia.
      * apply insert_all; auto.
      * apply insert_all; auto.
      * constructor; auto.
      * rewrite D1, T1 in Hn. cbn in Hn. rewrite <- Permutation_middle in Hn. now apply NoDup_cons in Hn as [_ Hn].
  - destruct (concat_split ds d (c :: l) Ed) as (R1 & D1 & D2). pose proof (Hd d _ Ed) as Hcl. apply Forall_cons_1 in Hcl as [[Hc Hu] Hcl]. pose proof Hc as [Hc1 Hc2]. pose proof (bytes_pos _ A2) as B2. rewrite D1 in A1. cbn in A1. apply Forall_cons_1 in A1 as [_ A1]. apply bytes_pos in A1. rewrite (bytes_perm _ _ D1) in Hl, Hi. cbn [app] in *. rewrite !bytes_cons in *.
    apply (accounted_intro _ _ _ _ (l ++ R1) (held (System g ds ts fl))); [apply D2|reflexivity| | | | | |assumption| |]; cbn [idle_take scratch_live scratch_idle total_of foldr snd]; fold (total_of fl); rewrite ?(wrap_small 64 (scratch_idle g - size c)) by (unfold in_range, IDLE_MAX in *; lia); try lia.
    + apply insert_all; auto.
    + constructor; auto.
    + rewrite D1 in Hn. cbn in Hn. now apply NoDup_cons in Hn as [_ Hn].
  - destruct (held_split g ds ts fl t d cs Et) as (R2 & T1 & T2). destruct (buffers_used cs cs' Ec) as (Eb & Ey & Ef). rewrite (bytes_perm _ _ T1), bytes_app in Hl.
    apply (accounted_intro _ _ _ _ (concat ds) (cs' ++ R2)); [reflexivity|apply T2| | | | | | |assumption|]; rewrite ?bytes_app; try lia; auto.
    + apply insert_all; auto. apply Ef. apply (Ht' t _ Et).
    + rewrite T1 in Hn. now rewrite !fmap_app, Eb, <- !fmap_app.
Qed.

Lemma accounted_reachable s : reachable s -> accounted s.
Proof.
  induction 1 as [nd owners|s s' _ IH Hs]; [|eapply accounted_step; eauto]. assert (concat (replicate nd ([] : list hybris_bc_scratch)) = []) as E1 by (induction nd; auto). assert (concat (snd <$> ((fun d : nat => (d, [] : list hybris_bc_scratch)) <$> owners)) = []) as E2 by (induction owners; auto).
  apply (accounted_intro _ _ _ _ [] []); cbn [scratch_live scratch_idle]; try (cbn; unfold IDLE_MAX, CHUNK_MAX; lia); [now rewrite E1|unfold held; cbn [transfers]; now rewrite E2| | |constructor|constructor].
  - intros d l Hd. apply lookup_replicate in Hd as [-> _]. constructor.
  - intros t x Hx. rewrite list_lookup_fmap in Hx. destruct (owners !! t); [|discriminate]. injection Hx as <-. constructor.
Qed.

(** A creation that succeeds answers with a handle; one that fails may leave anything in its output. *)
Definition gives (a : answer) : Prop := code a = VK_SUCCESS -> handle a <> 0.
Definition creations (ev : list event) : list object := omap (fun e => match e with ECreate o => Some o | _ => None end) ev.
Definition destructions (ev : list event) : list object := omap (fun e => match e with EDestroy o => Some o | _ => None end) ev.
(** What a failed creation left in its output, when it is not null. *)
Definition leftover (mk : Z -> object) (a : answer) (o : object) : Prop := code a <> VK_SUCCESS /\ handle a <> 0 /\ o = mk (handle a).

Lemma made_dropped mk a : gives a -> exists left, destructions (dropped mk (handle a)) = creations (made mk a) ++ left /\
  creations (dropped mk (handle a)) = [] /\ destructions (made mk a) = [] /\ forall o, o ∈ left -> leftover mk a o.
Proof.
  unfold gives, made, dropped, leftover. intros H. destruct (Z.eqb_spec (code a) VK_SUCCESS) as [E|E], (Z.eqb_spec (handle a) 0) as [E'|E'].
  - now destruct (H E).
  - exists []. split_and!; try reflexivity. intros o Ho. now apply not_elem_of_nil in Ho.
  - exists []. split_and!; try reflexivity. intros o Ho. now apply not_elem_of_nil in Ho.
  - exists [mk (handle a)]. split_and!; try reflexivity. intros o ->%list_elem_of_singleton. auto.
Qed.

Lemma create_chunk_fails types n a r c ev : gives (c_buffer a) -> gives (c_memory a) -> create_chunk types n a = (r, c, ev) -> r <> VK_SUCCESS ->
  c = None /\ exists left, destructions ev ≡ₚ creations ev ++ left /\ forall o, o ∈ left -> leftover OBuffer (c_buffer a) o \/ leftover OMemory (c_memory a) o.
Proof.
  intros Hb Hm E Hr. destruct (made_dropped OBuffer _ Hb) as (lb & B1 & B2 & B3 & B4). destruct (made_dropped OMemory _ Hm) as (lm & M1 & M2 & M3 & M4).
  assert (forall r', (r', None, made OBuffer (c_buffer a) ++ dropped OBuffer (handle (c_buffer a)) ++ dropped OMemory 0) = (r, c, ev) -> c = None /\ exists left, destructions ev ≡ₚ creations ev ++ left /\ forall o, o ∈ left -> leftover OBuffer (c_buffer a) o \/ leftover OMemory (c_memory a) o) as Hone.
  { intros r' [= _ <- <-]. split; [reflexivity|]. exists lb. unfold creations, destructions in *. rewrite !omap_app, B1, B2, B3. cbn. rewrite !app_nil_r. split; [reflexivity|auto]. }
  assert (forall r', (r', None, (made OBuffer (c_buffer a) ++ made OMemory (c_memory a)) ++ dropped OBuffer (handle (c_buffer a)) ++ dropped OMemory (handle (c_memory a))) = (r, c, ev) -> c = None /\ exists left, destructions ev ≡ₚ creations ev ++ left /\ forall o, o ∈ left -> leftover OBuffer (c_buffer a) o \/ leftover OMemory (c_memory a) o) as Htwo.
  { intros r' [= _ <- <-]. split; [reflexivity|]. exists (lb ++ lm). unfold creations, destructions in *. rewrite !omap_app, B1, B2, B3, M1, M2, M3, !app_nil_r. cbn [app]. split; [|intros o [Ho|Ho]%elem_of_app; auto]. rewrite <- !app_assoc. apply Permutation_app_head. rewrite !app_assoc. apply Permutation_app_tail, Permutation_app_comm. }
  unfold create_chunk in E. destruct (host a); cbn [negb] in E; [|injection E as _ <- <-; split; [reflexivity|]; exists []; split; [reflexivity|]; intros o Ho; now apply not_elem_of_nil in Ho].
  destruct (code (c_buffer a) =? VK_SUCCESS); cbn [negb] in E; [|exact (Hone _ E)]. destruct (select_type _ _ _ _); [|exact (Hone _ E)]. destruct (code (c_memory a) =? VK_SUCCESS); cbn [negb] in E; [|exact (Htwo _ E)].
  destruct (c_bound a =? VK_SUCCESS); cbn [negb] in E; [|exact (Htwo _ E)]. now injection E as <- _ _.
Qed.

(** C23: scratch memory is accounted for.  In any interleaving of the locked sections of any number of transfers on any number of decoders, the
    counters are exactly the bytes that exist and the bytes that are idle, and at most 32 MiB are idle; no buffer is in two places.  Taking a chunk
    always returns: an idle chunk is unused, large enough and held by nobody, a new chunk has at least 1 MiB or the device's limit, and a transfer that
    has a chunk never takes the live bytes over 96 MiB.  A creation that fails returns no chunk and destroys each object it made, once; beyond these it destroys only
    a non-null handle that the failed driver call itself left in its output ([garbage_released]).  When all chunks were given back and the decoders destroyed, both counters are zero. *)
Theorem scratch_accounted (s : system) (Hs : reachable s) :
  scratch_live (globals s) = bytes (all_chunks s) + total_of (flight s) /\ scratch_idle (globals s) = bytes (concat (decoders s)) /\ scratch_idle (globals s) <= IDLE_MAX /\ NoDup (buffer <$> all_chunks s) /\
  (forall t d cs l need want, transfers s !! t = Some (d, cs) -> decoders s !! d = Some l -> exists k g, reserve (range d) need want (negb (Nat.eqb (length cs) 0)) l (globals s) = Ok (k, g) /\
     match k with
     | Refused _ | NoRoom => g = globals s
     | Reuse c l' => l ≡ₚ c :: l' /\ need <= size c /\ used c = 0 /\ sized d (size c) /\ (buffer c ∉ buffer <$> held s) /\ g = idle_take c (globals s)
     | Reserve n => sized d n /\ (scratch_live (globals s) < 2 ^ 63 -> g = Counters (scratch_live (globals s) + n) (scratch_idle (globals s)) /\ (cs <> [] -> scratch_live (globals s) + n <= LIVE_MAX))
     end) /\
  (forall types n a r c ev, gives (c_buffer a) -> gives (c_memory a) -> create_chunk types n a = (r, c, ev) -> r <> VK_SUCCESS ->
     c = None /\ exists left, destructions ev ≡ₚ creations ev ++ left /\ forall o, o ∈ left -> leftover OBuffer (c_buffer a) o \/ leftover OMemory (c_memory a) o) /\
  (all_chunks s = [] -> flight s = [] -> globals s = Counters 0 0).
Proof.
  pose proof (accounted_reachable s Hs) as H. pose proof (all_sized s H) as (A1 & A2 & A3). destruct H as [Hl Hi Hm Hr Hd Ht Hf Hn]. split_and!; auto.
  - intros t d cs l need want Et Ed. destruct (reserve_ok d need want (negb (Nat.eqb (length cs) 0)) l (globals s)) as (k & g & E & Hk). exists k, g. split; [assumption|]. destruct k as [r|c l'|n|]; auto.
    + destruct Hk as (P & Hc & ->). pose proof (Hd d l Ed) as Hl'. rewrite P in Hl'. apply Forall_cons_1 in Hl' as [[Hc1 Hc2] _]. split_and!; auto. intros Hin. destruct (concat_split _ d l Ed) as (R & D1 & _). unfold all_chunks in Hn. rewrite D1, P in Hn. cbn in Hn. apply NoDup_cons in Hn as [Hn _]. apply Hn. rewrite !fmap_app, !elem_of_app. auto.
    + destruct Hk as (Hs1 & -> & Hlim). split; [assumption|]. intros Hlt. pose proof Hs1 as [Hs2 _]. unfold all_chunks in Hl. rewrite bytes_app in Hl. apply bytes_pos in A1, A2. rewrite (wrap_small 64 (scratch_live (globals s) + n)) in * by (unfold in_range, CHUNK_MAX in *; lia). split; [reflexivity|]. intros Hc. apply Hlim. destruct cs; [contradiction|reflexivity].
  - intros types n a r c ev Hb Hmem E Hne. exact (create_chunk_fails _ _ _ _ _ _ Hb Hmem E Hne).
  - intros E1 E2. destruct (globals s) as [gl gi]. cbn [scratch_live scratch_idle] in *. rewrite E1, E2 in Hl. unfold all_chunks in E1. apply app_eq_nil in E1 as [E1 _]. rewrite E1 in Hi. cbn in *. now subst.
Qed.
End system.

Definition sample_answers : chunk_answers := ChunkAnswers true (Answer 0 5) 1 (Answer 0 6) 0.
(** The allocation fails: the buffer is destroyed. *)
Definition failing_answers : chunk_answers := ChunkAnswers true (Answer 0 5) 1 (Answer (-2) 0) 0.
(** The same with an output that the failed call overwrote. *)
Definition garbage_answers : chunk_answers := ChunkAnswers true (Answer 0 5) 1 (Answer (-2) 77) 0.

(** [chunk_get] frees whatever handle a failed [vkAllocateMemory] left, since it looks at the handle and not at the result. *)
Example garbage_released : create_chunk [1] (2 ^ 20) garbage_answers = (-2, None, [ECreate (OBuffer 5); EDestroy (OBuffer 5); EDestroy (OMemory 77)]).
Proof. vm_compute. reflexivity. Qed.

(** A transfer took a new chunk and gave it back; a creation failed. *)
Lemma scratch_accounted_witness : exists s, reachable (fun _ => 2 ^ 27) s /\ scratch_live (globals s) = 2 ^ 20 /\ bytes (concat (decoders s)) = 2 ^ 20 /\ held s = [] /\
  exists ev left, create_chunk [1] (2 ^ 20) failing_answers = (-2, None, ev) /\ destructions ev ≡ₚ creations ev ++ left /\ ~ OMemory 77 ∈ left.
Proof.
  set (R := fun _ : nat => 2 ^ 27). assert (reachable R (System (Counters (2 ^ 20) (2 ^ 20)) [[Chunk 5 6 (2 ^ 20) 0]] [(0%nat, [])] [])) as Hr.
  { eapply r_step; [eapply r_step; [eapply r_step; [apply (r_start R 1 [0%nat])|]|]|].
    - eapply (st_reserve R _ _ _ _ 0%nat 0%nat [] [] 64 1000); [reflexivity|reflexivity|cbn; lia|vm_compute; reflexivity].
    - eapply (st_created R _ _ _ _ [] 0%nat 0%nat [] [1] _ sample_answers); [reflexivity|reflexivity|vm_compute; reflexivity|vm_compute; intros Hin; inversion Hin].
    - exact (st_retire R (Counters (2 ^ 20) 0) [[]] [(0%nat, [Chunk 5 6 (2 ^ 20) 0])] [] 0%nat 0%nat (Chunk 5 6 (2 ^ 20) 0) [] [] true _ (Counters (2 ^ 20) (2 ^ 20)) eq_refl eq_refl eq_refl). }
  eexists. split; [exact Hr|]. destruct (scratch_accounted R _ Hr) as (Hl & Hi & _ & _ & _ & Hc & _). split; [exact Hl|]. split; [symmetry; exact Hi|]. split; [reflexivity|].
  destruct (Hc [1] (2 ^ 20) failing_answers (-2) None [ECreate (OBuffer 5); EDestroy (OBuffer 5)]) as (_ & left & H1 & H2); [intros _; discriminate|intros [=]|reflexivity|discriminate|].
  exists [ECreate (OBuffer 5); EDestroy (OBuffer 5)], left. split; [reflexivity|]. split; [exact H1|]. intros Hin. destruct (H2 _ Hin) as [(_ & _ & [=])|(_ & [] & _)]. reflexivity.
Defined.
End BcScratch.
