(* ===== verification/BcUpload.v ===== *)
(** * Decoding a region of a compressed image (vulkan/compat/bc_transfer.c)

    After blocks were copied to the backing, [hybris_bc_decode_image] decodes the region in pieces: a dispatch writes the
    decoded piece to scratch memory, a later copy moves it to the image.  The recorded commands are executed by a small device that
    knows which scratch bytes are written, visible to copies and being read. *)

From Stdlib Require Import ZArith Lia Bool String.
From stdpp Require Import base numbers option list.
From S2P Require Import Prelude BcDecode BcImage BcCopy BcScratch.

Open Scope Z_scope.
Open Scope outcome_scope.

Module BcUpload.
Import BcImage BcScratch.

Definition CB_MAX : Z := CHUNK_MAX.
Definition CAPACITY : nat := 64.
Definition VK_FORMAT_R8G8B8_UNORM : Z := 23.
Definition VK_FORMAT_R8G8B8_SRGB : Z := 29.
Definition VK_FORMAT_R16G16B16_SFLOAT : Z := 90.

(** The quality of transcoding: [secure] is [AT_SECURE], [value] the environment variable, 3 stands for automatic. *)
Definition configure_quality (secure : bool) (value : option string) : Z :=
  if secure then 3 else
  match value with
  | None => 3
  | Some v => if String.eqb v "auto" then 3 else if String.eqb v "fast" then 0 else if String.eqb v "default" then 1 else if String.eqb v "high" then 2 else 3
  end.
Definition level_quality (quality : Z) (e : extent3d) : Z :=
  if negb (quality =? 3) then quality else if 1024 * 1024 <=? u64 (width e * height e) then 0 else 1.

(** ** Recorded commands *)

(** A copy from scratch to the image: place and pitch in the buffer, place in the image, size. *)
Record image_copy := ICopy { i_offset : Z; i_row : Z; i_height : Z; i_layer : Z; i_x : Z; i_y : Z; i_z : Z; i_w : Z; i_h : Z }.
(** Barriers from transfers to compute and back; a decoding of [r] from [base] of the backing to [len] bytes at [at_] of a buffer; copies
    from a buffer; the barriers on the backing around a decoding; copies between the application's buffer and the backing; the replay of the
    application's compute state. *)
Inductive command := ToCompute | ToTransfer | Dispatch (b at_ len base : Z) (r : BcDecode.hybris_bc_region) | CopyImage (b : Z) (l : list image_copy)
| BackingToCompute | BackingToTransfer | CopyBuffer (to_image : bool) (l : list BcCopy.copy) | RestoreCompute.

(** The transfer, the queued copies with their buffers, the commands, and how many requests were answered. *)
Record upload := Upload { chunks : list hybris_bc_scratch; position : nat; held_bytes : Z; pools : list Z; queue : list (Z * image_copy); log : list command; clock : nat }.

Definition set_chunks (u : upload) (cs : list hybris_bc_scratch) (k : nat) (h : Z) : upload := Upload cs k h (pools u) (queue u) (log u) (clock u).
Definition record (u : upload) (l : list command) : upload := Upload (chunks u) (position u) (held_bytes u) (pools u) (queue u) (log u ++ l) (clock u).
Definition tick (u : upload) : upload := Upload (chunks u) (position u) (held_bytes u) (pools u) (queue u) (log u) (S (clock u)).

Definition to_compute (u : upload) : upload := record u [ToCompute].

(** Copies from the same buffer that follow each other are one command. *)
Fixpoint run (b : Z) (q : list (Z * image_copy)) : list image_copy * list (Z * image_copy) :=
  match q with
  | (b', c) :: q' => if b' =? b then let (l, rest) := run b q' in (c :: l, rest) else ([], q)
  | [] => ([], [])
  end.
Fixpoint runs (fuel : nat) (q : list (Z * image_copy)) : list command :=
  match fuel, q with
  | S fuel, (b, c) :: q => let (l, rest) := run b q in CopyImage b (c :: l) :: runs fuel rest
  | _, _ => []
  end.
Definition flush (u : upload) : upload :=
  match queue u with
  | [] => u
  | q => Upload (chunks u) (position u) (held_bytes u) (pools u) [] (log u ++ ToTransfer :: runs (length q) q) (clock u)
  end.

(** What [chunk_get] gives at some time to a transfer with these chunks. *)
Inductive given := Error (r : Z) | Nothing | Got (c : hybris_bc_scratch).
(** The driver's answers to [descriptors]: host memory, the pool, the set. *)
Record pool_answers := PoolAnswers { p_host : bool; p_pool : Z; p_set : Z }.

Section decode.
(** Chunks, descriptor sets and pipelines at each time; the device's limits and offset alignment; the configured quality. *)
Context (give : nat -> list hybris_bc_scratch -> Z -> given) (sets : nat -> pool_answers) (pipelines : nat -> Z) (limits : BcDecode.device_limits) (offset_alignment quality : Z).

(** The loop of [slot]: result, place of the chunk, offset in it. *)
Fixpoint slot_loop (fuel : nat) (u : upload) (want alignment : Z) : outcome (Z * nat * Z * upload) :=
  match fuel with
  | O => Undef
  | S fuel =>
      let reset (u : upload) := (let u := to_compute (flush u) in set_chunks u ((fun c => with_used c 0) <$> chunks u) 0 (held_bytes u)) in
      match chunks u !! position u with
      | Some c =>
          let start := u64 (u64 (u64 (used c + alignment) - 1) / alignment * alignment) in
          if start <? size c then Ok (VK_SUCCESS, position u, start, u) else slot_loop fuel (set_chunks u (chunks u) (S (position u)) (held_bytes u)) want alignment
      | None =>
          if held_bytes u <? CB_MAX then
            let remaining := CB_MAX - held_bytes u in
            match give (clock u) (chunks u) (if want <? remaining then want else remaining) with
            | Error r => Ok (r, 0%nat, 0, tick u)
            | Got c => slot_loop fuel (set_chunks (tick u) (c :: chunks u) 0 (u64 (held_bytes u + size c))) want alignment
            | Nothing => slot_loop fuel (reset (tick u)) want alignment
            end
          else slot_loop fuel (reset u) want alignment
      end
  end.
Definition slot (u : upload) (want alignment : Z) : outcome (Z * nat * Z * upload) := slot_loop (3 + length (chunks u)) u want alignment.

(** A descriptor set of the newest pool, which has 64. *)
Definition descriptors (u : upload) : Z * upload :=
  let a := sets (clock u) in
  let set_pools u l := Upload (chunks u) (position u) (held_bytes u) l (queue u) (log u) (clock u) in
  let u := tick u in
  let fresh := match pools u with [] => true | n :: _ => n =? 64 end in
  if fresh && negb (p_host a) then (VK_ERROR_OUT_OF_HOST_MEMORY, u) else
  if fresh && negb (p_pool a =? VK_SUCCESS) then (p_pool a, u) else
  match (if fresh then 0 :: pools u else pools u) with
  | [] => (p_set a, u)
  | n :: l => if p_set a =? VK_SUCCESS then (VK_SUCCESS, set_pools u ((n + 1) :: l)) else (p_set a, set_pools u (n :: l))
  end.

(** The size of the next piece at ([x], [y]) in [available] blocks of a chunk of which something is [used] or not; nothing if it should go
    to another chunk. *)
Definition piece_size (W H x y band available : Z) (used : bool) : option (Z * Z) :=
  let row_blocks := blocks_of (W - x) in
  if (band =? 0) && (available <? row_blocks) && used then None else
  let width := W - x in
  let max_width := u64 (available * 4) in
  let width := if max_width <? width then u32 max_width else width in
  let max_height := u32 (u64 (available / blocks_of width * 4)) in
  let height := if negb (band =? 0) then band else H - y in
  let height := if max_height <? height then max_height else height in
  let height := if (width <? W - x) && (band =? 0) && (4 <? height) then 4 else height in
  let band := if band =? 0 then height else band in
  if negb (height =? band) then None else Some (width, height).

Definition flag (b : bool) : Z := if b then 1 else 0.
Definition region_of (i : hybris_bc_image) (q w h l row so sr dr : Z) : BcDecode.hybris_bc_region :=
  BcDecode.Region (format i) (decoded_format i) q (flag (decoded_format i =? VK_FORMAT_R16G16B16_SFLOAT))
    (flag ((decoded_format i =? VK_FORMAT_R8G8B8_UNORM) || (decoded_format i =? VK_FORMAT_R8G8B8_SRGB))) w h l row 0 so 0 sr dr.
Definition representation (i : hybris_bc_image) : BcDecode.hybris_bc_region := region_of i 0 0 0 0 0 0 0 0.

(** [hybris_bc_decode_record]: its checks, then the pipeline. *)
Definition decode_record (u : upload) (r : BcDecode.hybris_bc_region) : outcome (Z * upload) :=
  let! (e, _) := BcDecode.prepare_region r limits in
  if negb (e =? VK_SUCCESS) then Ok (e, u) else
  if 2 <? BcDecode.quality r then Ok (VK_ERROR_INITIALIZATION_FAILED, u) else Ok (pipelines (clock u), tick u).

(** [(n + 3u) & ~3u]. *)
Definition round4 (n : Z) : Z := Z.ldiff (u32 (n + 3)) 3.

Definition fill (u : upload) (k : nat) (n : Z) : upload := set_chunks u (alter (fun c => with_used c n) k (chunks u)) (position u) (held_bytes u).

(** The end of an iteration: the copy is queued, and a full queue is flushed. *)
Definition enqueue (u : upload) (b : Z) (c : image_copy) : outcome upload :=
  if Nat.leb CAPACITY (length (queue u)) then Undef else
  let u := Upload (chunks u) (position u) (held_bytes u) (pools u) (queue u ++ [(b, c)]) (log u) (clock u) in
  Ok (if Nat.eqb (length (queue u)) CAPACITY then to_compute (flush u) else u).

Definition volume (i : hybris_bc_image) : bool := type i =? VK_IMAGE_TYPE_3D.
Definition piece_copy (i : hybris_bc_image) (r : BcCopy.region) (layer x y w h at_ : Z) : image_copy :=
  ICopy at_ (round4 w) (round4 h) (if volume i then BcCopy.baseLayer r else u32 (BcCopy.baseLayer r + layer)) (BcCopy.off_x r + x) (BcCopy.off_y r + y) (if volume i then BcCopy.off_z r + layer else 0) w h.

(** A piece of [w] by [h] texels at ([x], [y]) of a layer, to offset [at_] of chunk [k]: result, width decoded, bytes of scratch memory. *)
Definition decode_piece (i : hybris_bc_image) (r : BcCopy.region) (block_out layer x y w h : Z) (u : upload) (k : nat) (at_ : Z) : outcome (Z * Z * Z * upload) :=
  let mip := BcCopy.mip r in
  let e := hybris_bc_image_extent i mip in
  let row := row_bytes i mip in
  let alignment := nonzero offset_alignment in
  let max := BcDecode.maxStorageBufferRange limits in
  let first := if volume i then u32 (BcCopy.off_z r) else BcCopy.baseLayer r in
  let! source := block_address i mip (u64 (first + layer)) (u32 (u32 (BcCopy.off_y r) / 4 + y / 4)) (u32 (u32 (BcCopy.off_x r) / 4 + x / 4)) in
  let base := source - source mod alignment in
  if max <=? source - base then Ok (VK_ERROR_FORMAT_NOT_SUPPORTED, w, 0, u) else
  let available := (max - (source - base)) / block_bytes i in
  if available =? 0 then Ok (VK_ERROR_FORMAT_NOT_SUPPORTED, w, 0, u) else
  let w := if available <? blocks_of w then u32 (u64 (available * 4)) else w in
  let range := u64 (u64 (source - base + u64 ((blocks_of h - 1) * row)) + u64 (blocks_of w * block_bytes i)) in
  if max <? range then Ok (VK_ERROR_FORMAT_NOT_SUPPORTED, w, 0, u) else
  let (e1, u) := descriptors u in
  if negb (e1 =? VK_SUCCESS) then Ok (e1, w, 0, u) else
  let len := u64 (u64 (blocks_of w * blocks_of h) * block_out) in
  let decoding := region_of i (level_quality quality e) w h 1 (round4 (width e)) (source - base) range len in
  let! (e2, u) := decode_record u decoding in
  if negb (e2 =? VK_SUCCESS) then Ok (e2, w, 0, u) else
  match chunks u !! k with
  | None => Undef
  | Some c =>
      let u := fill (record u [Dispatch (buffer c) at_ len base decoding]) k (u64 (at_ + len)) in
      let! u := enqueue u (buffer c) (piece_copy i r layer x y w h at_) in
      Ok (VK_SUCCESS, w, len, u)
  end.

(** The loop over [x]: the result, the height of the last piece, the scratch memory still wanted. *)
Fixpoint columns (fuel : nat) (i : hybris_bc_image) (r : BcCopy.region) (block_out layer y x band height wanted : Z) (u : upload) : outcome (Z * Z * Z * upload) :=
  if BcImage.width (BcCopy.ext r) <=? x then Ok (VK_SUCCESS, height, wanted, u) else
  match fuel with
  | O => Undef
  | S fuel =>
      let alignment := nonzero offset_alignment in
      let! (e, k, at_, u) := slot u wanted (if 256 <? alignment then alignment else 256) in
      if negb (e =? VK_SUCCESS) then Ok (e, height, wanted, u) else
      match chunks u !! k with
      | None => Undef
      | Some c =>
          let available := u64 (size c - at_) / block_out in
          match (if available =? 0 then None else piece_size (BcImage.width (BcCopy.ext r)) (BcImage.height (BcCopy.ext r)) x y band available (negb (used c =? 0))) with
          | None => columns fuel i r block_out layer y x band height wanted (fill u k (size c))
          | Some (w, h) =>
              let! (e, w, len, u) := decode_piece i r block_out layer x y w h u k at_ in
              if negb (e =? VK_SUCCESS) then Ok (e, h, wanted, u) else
              columns fuel i r block_out layer y (u32 (x + w)) h h (if len <? wanted then wanted - len else 0) u
          end
      end
  end.

(** The loop over [y]. *)
Fixpoint bands (fuel columns_fuel : nat) (i : hybris_bc_image) (r : BcCopy.region) (block_out layer y wanted : Z) (u : upload) : outcome (Z * upload) :=
  if BcImage.height (BcCopy.ext r) <=? y then Ok (VK_SUCCESS, u) else
  match fuel with
  | O => Undef
  | S fuel =>
      let! (e, h, wanted, u) := columns columns_fuel i r block_out layer y 0 0 (BcImage.height (BcCopy.ext r) - y) wanted u in
      if negb (e =? VK_SUCCESS) then Ok (e, u) else bands fuel columns_fuel i r block_out layer (u32 (y + h)) wanted u
  end.

Fixpoint decode_layers (fuel : nat) (i : hybris_bc_image) (r : BcCopy.region) (block_out : Z) (l : list Z) (u : upload) : outcome (Z * upload) :=
  match l with
  | [] => Ok (VK_SUCCESS, u)
  | layer :: l =>
      let wanted := u64 (u64 (blocks_of (BcImage.width (BcCopy.ext r)) * blocks_of (BcImage.height (BcCopy.ext r))) * block_out) in
      let! (e, u) := bands fuel fuel i r block_out layer 0 wanted u in
      if negb (e =? VK_SUCCESS) then Ok (e, u) else decode_layers fuel i r block_out l u
  end.

(** [fuel] bounds the loops over [x] and [y]. *)
Definition decode (fuel : nat) (i : hybris_bc_image) (r : BcCopy.region) (u : upload) : outcome (Z * upload) :=
  let u := to_compute u in
  let! block_out := BcDecode.hybris_bc_output_block_bytes (representation i) in
  if block_out =? 0 then Ok (VK_ERROR_FORMAT_NOT_SUPPORTED, u) else
  let! (e, u) := decode_layers fuel i r block_out (seqZ 0 (BcCopy.slices i r)) u in
  if negb (e =? VK_SUCCESS) then Ok (e, u) else Ok (VK_SUCCESS, flush u).

(** The error of the command buffer comes first and last; the queue lives as long as a decoding. *)
Definition hybris_bc_decode_image (fuel : nat) (i : hybris_bc_image) (r : BcCopy.region) (error : Z) (u : upload) : outcome (Z * upload) :=
  if negb (error =? VK_SUCCESS) then Ok (error, u) else
  let u := record u [BackingToCompute] in
  let! (e, u) := decode fuel i r (Upload (chunks u) (position u) (held_bytes u) (pools u) [] (log u) (clock u)) in
  if negb (e =? VK_SUCCESS) then Ok (e, u) else Ok (VK_SUCCESS, record u [BackingToTransfer]).

Fixpoint copy_regions (fuel : nat) (i : hybris_bc_image) (l : list BcCopy.region) (to_image : bool) (error : Z) (u : upload) : outcome (Z * upload) :=
  match l with
  | [] => Ok (error, u)
  | r :: l =>
      let r := BcCopy.normalize i r in
      let! cs := BcCopy.region_slices to_image i r (seqZ 0 (BcCopy.slices i r)) in
      let u := record u (CopyBuffer to_image <$> cs) in
      if to_image then let! (e, u) := hybris_bc_decode_image fuel i r error u in if negb (e =? VK_SUCCESS) then Ok (e, u) else copy_regions fuel i l to_image e u
      else copy_regions fuel i l to_image error u
  end.
(** The result is also the command buffer's error. *)
Definition hybris_bc_copy_buffer_image (fuel : nat) (i : hybris_bc_image) (l : list BcCopy.region) (to_image : bool) (error : Z) (u : upload) : outcome (Z * upload) :=
  if negb (error =? VK_SUCCESS) then Ok (error, u) else
  let! (e, u) := copy_regions fuel i l to_image error u in
  if negb (e =? VK_SUCCESS) then Ok (e, u) else Ok (VK_SUCCESS, if to_image && negb (Nat.eqb (length l) 0) then record u [RestoreCompute] else u).
End decode.

(** ** A device that executes the commands *)

(** Scratch bytes: buffer, offset, length. *)
Definition span : Type := Z * Z * Z.
Definition overlap (s t : span) : bool := let '(b, o, n) := s in let '(b', o', n') := t in (b =? b') && (o <? o' + n') && (o' <? o + n).
(** A decoded piece in scratch memory; [seen]: a barrier has made it visible to copies. *)
Record written := Written { w_span : span; w_base : Z; w_region : BcDecode.hybris_bc_region; seen : bool }.
Definition key (w : written) : Z * Z := fst (w_span w).
(** Decoded pieces, spans that copies may still be reading, and the pieces of the image with what was decoded to them. *)
Record device := Device { pieces : list written; reading : list span; placed : list (image_copy * (Z * BcDecode.hybris_bc_region)) }.

(** A copy needs a visible piece at its place, of its size and pitch. *)
Definition fits (w : written) (c : image_copy) : bool :=
  let r := w_region w in
  (BcDecode.width r =? i_w c) && (BcDecode.height r =? i_h c) && (i_row c =? 4 * blocks_of (i_w c)) && (i_height c =? 4 * blocks_of (i_h c)).
Definition content (w : written) : Z * BcDecode.hybris_bc_region := (w_base w, w_region w).
Definition exec_copy (b : Z) (c : image_copy) (m : device) : option device :=
  match List.find (fun w => bool_decide (key w = (b, i_offset c))) (pieces m) with
  | Some w => if seen w && fits w c then Some (Device (pieces m) (w_span w :: reading m) (placed m ++ [(c, content w)])) else None
  | None => None
  end.
Fixpoint exec_copies (b : Z) (l : list image_copy) (m : device) : option device :=
  match l with [] => Some m | c :: l => match exec_copy b c m with Some m => exec_copies b l m | None => None end end.

(** A dispatch must not write what copies may be reading nor what no copy could have read yet. *)
Definition exec_command (c : command) (m : device) : option device :=
  match c with
  | ToCompute => Some (Device (pieces m) [] (placed m))
  | ToTransfer => Some (Device ((fun w => Written (w_span w) (w_base w) (w_region w) true) <$> pieces m) (reading m) (placed m))
  | Dispatch b o n base r =>
      if existsb (overlap (b, o, n)) (reading m) || existsb (fun w => overlap (b, o, n) (w_span w) && negb (seen w)) (pieces m) then None
      else Some (Device (Written (b, o, n) base r false :: List.filter (fun w => negb (overlap (b, o, n) (w_span w))) (pieces m)) (reading m) (placed m))
  | CopyImage b l => exec_copies b l m
  | CopyBuffer _ _ | BackingToCompute | BackingToTransfer | RestoreCompute => Some m
  end.
Fixpoint exec (l : list command) (m : device) : option device :=
  match l with [] => Some m | c :: l => match exec_command c m with Some m => exec l m | None => None end end.

(** *** Retiring a transfer *)

Definition hybris_bc_transfer_init (u : upload) : upload := Upload [] 0 0 [] (queue u) (log u) (clock u).
(** The transfer afterwards, how many descriptor pools are destroyed, the decoder's idle chunks, the counters and the objects destroyed. *)
Definition hybris_bc_transfer_finish (u : upload) (l : list hybris_bc_scratch) (g : counters) : upload * nat * list hybris_bc_scratch * counters * list event :=
  let '(l, g, ev) := transfer_finish_chunks (chunks u) l g in (hybris_bc_transfer_init u, length (pools u), l, g, ev).
End BcUpload.
