(* ===== verification/BcUploadExact.v ===== *)
(** * Decoding is exact (vulkan/compat/bc_transfer.c)

    The commands that decode a region run on the device of [BcUpload] without a hazard and place every texel once, from its block.  The invariant: what
    a copy may read, or has yet to read, lies below what is used of its chunk. *)

From Stdlib Require Import ZArith Lia Bool.
From stdpp Require Import base numbers option list.
From S2P Require Import Prelude BcDecode BcImage BcCopy BcScratch BcUpload.

Open Scope Z_scope.
Open Scope outcome_scope.

Module BcUploadExact.
Import BcImage BcScratch BcUpload.

(** *** Executing a flush *)

Lemma exec_app l l' m : exec (l ++ l') m = match exec l m with Some m' => exec l' m' | None => None end.
Proof. revert m. induction l as [|c l IH]; intros m; cbn [app exec]; [reflexivity|]. destruct (exec_command c m); auto. Qed.

Fixpoint exec_queue (q : list (Z * image_copy)) (m : device) : option device :=
  match q with [] => Some m | (b, c) :: q => match exec_copy b c m with Some m => exec_queue q m | None => None end end.

Lemma run_split b q l rest : run b q = (l, rest) -> q = ((fun c => (b, c)) <$> l) ++ rest.
Proof.
  revert l. induction q as [|[b' c] q IH]; intros l; cbn [run]; [intros [= <- <-]; reflexivity|]. destruct (Z.eqb_spec b' b) as [->|]; [|intros [= <- <-]; reflexivity]. destruct (run b q) as [l' rest'] eqn:E. intros [= <- <-]. cbn. f_equal. now apply IH.
Qed.

Lemma exec_queue_run b l rest m : exec_queue (((fun c => (b, c)) <$> l) ++ rest) m = match exec_copies b l m with Some m => exec_queue rest m | None => None end.
Proof. revert m. induction l as [|c l IH]; intros m; cbn; [reflexivity|]. destruct (exec_copy b c m); [apply IH|reflexivity]. Qed.

Lemma runs_exec : forall n q m, (length q <= n)%nat -> exec (runs n q) m = exec_queue q m.
Proof.
  induction n as [|n IH]; intros [|[b c] q] m Hn; cbn [length] in Hn; try lia; try reflexivity. cbn [runs]. destruct (run b q) as [l rest] eqn:E. apply run_split in E as ->. cbn [exec exec_command exec_copies exec_queue]. destruct (exec_copy b c m) as [m'|]; [|reflexivity].
  rewrite exec_queue_run. destruct (exec_copies b l m'); [|reflexivity]. apply IH. rewrite length_app in Hn. lia.
Qed.

(** A span below what is used of its chunk. *)
Definition below (cs : list hybris_bc_scratch) (s : span) : Prop := exists c, c ∈ cs /\ buffer c = fst (fst s) /\ snd (fst s) + snd s <= used c.
Definition length_of (w : written) : Z := snd (w_span w).

(** A queued copy and what it will place. *)
Definition queued (cs : list hybris_bc_scratch) (m : device) (x : Z * image_copy) (y : image_copy * (Z * BcDecode.hybris_bc_region)) : Prop :=
  fst y = snd x /\ exists w, w ∈ pieces m /\ key w = (fst x, i_offset (snd x)) /\ fits w (snd x) = true /\ content w = snd y /\ below cs (w_span w).

Definition show (m : device) : device := Device ((fun w => Written (w_span w) (w_base w) (w_region w) true) <$> pieces m) (reading m) (placed m).

Lemma find_key (l : list written) w : NoDup (key <$> l) -> w ∈ l -> List.find (fun x => bool_decide (key x = key w)) l = Some w.
Proof.
  induction l as [|x l IH]; intros Hn Hw; [now apply not_elem_of_nil in Hw|]. cbn in Hn. apply NoDup_cons in Hn as [Hx Hn]. cbn [List.find]. apply elem_of_cons in Hw as [->|Hw]; [now rewrite bool_decide_eq_true_2|]. rewrite bool_decide_eq_false_2; [auto|]. intros E. apply Hx. rewrite E. now apply list_elem_of_fmap_2.
Qed.

Lemma queue_exec cs : forall q ys m, NoDup (key <$> pieces m) -> (forall w, w ∈ pieces m -> seen w = true) -> Forall2 (queued cs m) q ys -> (forall s, s ∈ reading m -> below cs s) ->
  exists rs, exec_queue q m = Some (Device (pieces m) rs (placed m ++ ys)) /\ forall s, s ∈ rs -> below cs s.
Proof.
  induction q as [|[b c] q IH]; intros ys m Hn Hs Hq Hr; inversion Hq as [|x y q' ys' Hx Hq']; subst.
  - exists (reading m). cbn. rewrite app_nil_r. destruct m. auto.
  - destruct Hx as (E1 & w & Hw & Hk & Hf & Hc & Hb). cbn [fst snd] in *. cbn [exec_queue]. unfold exec_copy. rewrite <- Hk, (find_key _ w Hn Hw), (Hs w Hw), Hf. cbn [andb]. set (m' := Device _ _ _).
    destruct (IH ys' m') as (rs & E & Hrs); [exact Hn|exact Hs|exact Hq'|unfold m'; cbn [reading]; intros s [->|Hin]%elem_of_cons; auto|].
    exists rs. split; [|assumption]. rewrite E. unfold m'. cbn [pieces placed]. rewrite <- app_assoc. cbn. destruct y as [yc yw]. cbn [fst snd] in *. now rewrite E1, Hc.
Qed.

Lemma show_queued cs m x y : queued cs m x y -> queued cs (show m) x y.
Proof.
  intros (E & w & Hw & Hk & Hf & Hc & Hb). split; [assumption|]. exists (Written (w_span w) (w_base w) (w_region w) true). split_and!; auto. cbn [pieces show]. apply list_elem_of_fmap. eauto.
Qed.

(** ** The invariant *)

(** The chunks, counters and queue. *)
Record good (u : upload) : Prop := {
  g_chunks : Forall (fun c => CHUNK_MIN <= size c <= CHUNK_MAX /\ 0 <= used c <= size c) (chunks u);
  g_distinct : NoDup (buffer <$> chunks u);
  g_held : held_bytes u = bytes (chunks u) /\ held_bytes u < CB_MAX + CHUNK_MAX;
  g_pools : Forall (fun n => 0 <= n <= 64) (pools u);
  g_queue : (length (queue u) < CAPACITY)%nat }.

(** The commands recorded so far run, and with the queued copies they place [em]; what a copy may read or has not read lies below what is used. *)
Record tracks (m0 : device) (u : upload) (em : list (image_copy * (Z * BcDecode.hybris_bc_region))) (m : device) : Prop := {
  t_exec : exec (log u) m0 = Some m;
  t_keys : NoDup (key <$> pieces m);
  t_length : forall w, w ∈ pieces m -> 0 < length_of w;
  t_read : forall s, s ∈ reading m -> below (chunks u) s;
  t_unseen : forall w, w ∈ pieces m -> seen w = false -> below (chunks u) (w_span w) /\ key w ∈ (fun x => (fst x, i_offset (snd x))) <$> queue u;
  t_queue : exists ys, Forall2 (queued (chunks u) m) (queue u) ys /\ em = placed m ++ ys }.
Definition tracked (m0 : device) (u : upload) (em : list (image_copy * (Z * BcDecode.hybris_bc_region))) : Prop := exists m, tracks m0 u em m.

Lemma show_keys m : key <$> pieces (show m) = key <$> pieces m.
Proof. cbn [show pieces]. rewrite <- list_fmap_compose. reflexivity. Qed.

(** After a flush everything is placed and visible. *)
Lemma flush_tracks m0 u em : tracked m0 u em -> exists m, tracks m0 (flush u) em m /\ placed m = em /\ (forall w, w ∈ pieces m -> seen w = true) /\ queue (flush u) = [] /\ chunks (flush u) = chunks u /\ position (flush u) = position u /\ held_bytes (flush u) = held_bytes u /\ pools (flush u) = pools u /\ clock (flush u) = clock u.
Proof.
  intros (m & [E K Le R U (ys & Q & ->)]). unfold flush. destruct (queue u) as [|x q] eqn:Eq.
  - inversion Q; subst. exists m. split; [constructor; [exact E|exact K|exact Le|exact R|rewrite Eq; exact U|rewrite Eq; exists []; split; [constructor|reflexivity]]|]. rewrite app_nil_r, Eq. split_and!; auto. intros w Hw. destruct (seen w) eqn:Es; [reflexivity|]. destruct (U w Hw Es) as [_ Hin]. now apply not_elem_of_nil in Hin.
  - rewrite <- Eq in Q |- *. assert (Forall2 (queued (chunks u) (show m)) (queue u) ys) as Q' by (eapply Forall2_impl; [exact Q|]; intros; now apply show_queued).
    assert (forall w, w ∈ pieces (show m) -> seen w = true /\ 0 < length_of w) as Hs by (intros w Hw; cbn [show pieces] in Hw; apply list_elem_of_fmap in Hw as (w' & -> & Hw'); split; [reflexivity|exact (Le _ Hw')]).
    destruct (queue_exec (chunks u) (queue u) ys (show m)) as (rs & Ex & Hrs); auto; [now rewrite show_keys|intros w Hw; apply (Hs w Hw)|]. exists (Device (pieces (show m)) rs (placed (show m) ++ ys)). split; [|split_and!; auto; intros w Hw; apply (Hs w Hw)]. constructor; cbn [log chunks queue pieces reading placed].
    + rewrite exec_app, E. cbn [exec exec_command]. rewrite runs_exec by reflexivity. exact Ex.
    + now rewrite show_keys.
    + intros w Hw. apply (Hs w Hw).
    + exact Hrs.
    + intros w Hw Hf. pose proof (proj1 (Hs w Hw)). congruence.
    + exists []. rewrite app_nil_r. split; [constructor|reflexivity].
Qed.

Lemma to_compute_tracks m0 u em m : tracks m0 u em m -> tracks m0 (to_compute u) em (Device (pieces m) [] (placed m)).
Proof.
  intros [E K Le R U Q]. constructor; cbn [to_compute record log chunks queue pieces reading placed]; auto; [now rewrite exec_app, E|]. intros s Hs. now apply not_elem_of_nil in Hs.
Qed.

(** Reusing the scratch memory. *)
Definition rewind (u : upload) : upload := let u := to_compute (flush u) in set_chunks u ((fun c => with_used c 0) <$> chunks u) 0 (held_bytes u).
Lemma bytes_with_used l : bytes ((fun c => with_used c 0) <$> l) = bytes l.
Proof. induction l as [|c l IH]; [reflexivity|]. now rewrite fmap_cons, !bytes_cons, IH. Qed.

Lemma rewind_ok m0 u em : good u -> tracked m0 u em -> good (rewind u) /\ tracked m0 (rewind u) em.
Proof.
  intros [C D H P Q] T. destruct (flush_tracks m0 u em T) as (m & Tm & Ep & Hs & Fq & Fc & Fp & Fh & Fo & Fk). split.
  - constructor; cbn [rewind set_chunks to_compute record chunks position held_bytes pools queue]; rewrite ?Fc, ?Fh, ?Fo, ?Fq; auto.
    + apply Forall_fmap. eapply Forall_impl; [exact C|]. intros c [Hc _]. cbn. unfold CHUNK_MIN in *. lia.
    + rewrite <- list_fmap_compose. exact D.
    + now rewrite bytes_with_used.
    + unfold CAPACITY. cbn. lia.
  - apply to_compute_tracks in Tm as [E K Le R U (ys & Qy & Ey)]. eexists. constructor; cbn [rewind set_chunks log chunks queue pieces reading placed] in *; [exact E|exact K|exact Le| | |].
    + intros s Hin. now apply not_elem_of_nil in Hin.
    + intros w Hw Hf. rewrite (Hs w Hw) in Hf. discriminate.
    + exists []. rewrite app_nil_r. change (queue (to_compute (flush u))) with (queue (flush u)) in *. rewrite Fq. split; [constructor|now rewrite Ep].
Qed.

Section proof.
Context (give : nat -> list hybris_bc_scratch -> Z -> given).
(** What [chunk_get] promises. *)
Class Supply : Prop := supplies : forall n cs want, match give n cs want with
  | Error r => r <> VK_SUCCESS
  | Nothing => cs <> []
  | Got c => CHUNK_MIN <= size c <= CHUNK_MAX /\ used c = 0 /\ buffer c ∉ buffer <$> cs
  end.
Context {supply : Supply} (m0 : device).

Definition room (cs : list hybris_bc_scratch) : Z := foldr (fun c n => size c - used c + n) 0 cs.

(** A place for output: free bytes of the current chunk, of a fresh one, or of one further on. *)
Definition slotted (u : upload) (al : Z) (em : list (image_copy * (Z * BcDecode.hybris_bc_region))) (k : nat) (a : Z) (u' : upload) : Prop :=
  good u' /\ tracked m0 u' em /\ position u' = k /\ (al | a) /\ exists c, chunks u' !! k = Some c /\ used c <= a < size c /\
    ((used c = 0 /\ a = 0) \/ (chunks u' = chunks u /\ room (drop k (chunks u')) <= room (drop (position u) (chunks u)))).

Lemma slot_start c al : 0 < al <= 2 ^ 32 -> 0 <= used c <= size c -> size c <= CHUNK_MAX -> let start := u64 (u64 (u64 (used c + al) - 1) / al * al) in
  used c <= start /\ (al | start) /\ (used c = 0 -> start = 0).
Proof.
  intros Ha Hu Hs. unfold CHUNK_MAX in Hs. cbv zeta. rewrite (wrap_small 64 (used c + al)), (wrap_small 64 (used c + al - 1)) by (unfold in_range; lia). pose proof (Z.div_mod (used c + al - 1) al ltac:(lia)) as E. pose proof (Z.mod_pos_bound (used c + al - 1) al ltac:(lia)) as B. set (d := (used c + al - 1) / al) in *.
  assert (0 <= d) by (apply Z.div_pos; lia). rewrite wrap_small by (unfold in_range; nia). split; [nia|]. split; [exists d; reflexivity|]. intros E0. assert (d = 0) as -> by (unfold d; rewrite E0; apply Z.div_small; lia). reflexivity.
Qed.

Lemma room_nonneg cs : Forall (fun c => CHUNK_MIN <= size c <= CHUNK_MAX /\ 0 <= used c <= size c) cs -> 0 <= room cs.
Proof. induction 1 as [|c cs [_ Hc] _ IH]; cbn [room foldr]; [lia|]. fold (room cs). lia. Qed.

(** Moving along the chunks. *)
Definition at_position (u : upload) (k : nat) : upload := set_chunks u (chunks u) k (held_bytes u).
Lemma at_position_ok u k em : good u -> tracked m0 u em -> good (at_position u k) /\ tracked m0 (at_position u k) em.
Proof. intros [C D H P Q] (m & [E K Le R U T]). split; [constructor; auto|]. exists m. constructor; auto. Qed.

Lemma queued_mono cs cs' m x y : (forall s, below cs s -> below cs' s) -> queued cs m x y -> queued cs' m x y.
Proof. intros H (E & w & Hw & Hk & Hf & Hc & Hb). split; [assumption|]. exists w. auto 6. Qed.

Lemma tracked_mono u u' em : log u' = log u -> queue u' = queue u -> (forall s, below (chunks u) s -> below (chunks u') s) -> tracked m0 u em -> tracked m0 u' em.
Proof.
  intros E1 E2 H (m & [E K Le R U (ys & Q & Ey)]). exists m. constructor; rewrite ?E1, ?E2; auto.
  - intros w Hw Hs. destruct (U w Hw Hs). auto.
  - exists ys. split; [|assumption]. eapply Forall2_impl; [exact Q|]. intros x y. now apply queued_mono.
Qed.

Lemma tick_ok u em : good u -> tracked m0 u em -> good (tick u) /\ tracked m0 (tick u) em.
Proof. intros [C D H P Q] T. split; [constructor; auto|]. now apply (tracked_mono u). Qed.

(** A loop that starts at a chunk with nothing used stops there. *)
Lemma slot_fresh u fuel v want al em c : 0 < al <= 2 ^ 32 -> good v -> tracked m0 v em -> chunks v !! position v = Some c -> used c = 0 -> slot_loop give (S fuel) v want al = Ok (VK_SUCCESS, position v, 0, v) /\ slotted u al em (position v) 0 v.
Proof.
  intros Ha G T Hc Hu. pose proof (Forall_lookup_1 _ _ _ _ (g_chunks _ G) Hc) as [Hs Hus]. destruct (slot_start c al Ha Hus ltac:(lia)) as (_ & S2 & S3). specialize (S3 Hu). cbn [slot_loop]. rewrite Hc, S3. unfold CHUNK_MIN in Hs. rewrite (proj2 (Z.ltb_lt 0 (size c))) by lia.
  split; [reflexivity|]. split; [assumption|]. split; [assumption|]. split; [reflexivity|]. split; [apply Z.divide_0_r|]. exists c. split; [assumption|]. split; [lia|auto].
Qed.

Lemma slot_rewind u fuel v want al em : 0 < al <= 2 ^ 32 -> good v -> tracked m0 v em -> chunks v <> [] -> slot_loop give (S fuel) (rewind v) want al = Ok (VK_SUCCESS, 0%nat, 0, rewind v) /\ slotted u al em 0 0 (rewind v).
Proof.
  intros Ha G T Hc. destruct (rewind_ok m0 v em G T) as [G' T']. destruct (flush_tracks m0 v em T) as (m & _ & _ & _ & _ & Fc & _). assert (exists c, chunks (rewind v) !! 0%nat = Some c /\ used c = 0) as (c & Hc0 & Hu0).
  { cbn [rewind set_chunks to_compute record chunks]. rewrite Fc. destruct (chunks v) as [|c cs]; [contradiction|]. exists (with_used c 0). auto. }
  exact (slot_fresh u fuel (rewind v) want al em c Ha G' T' Hc0 Hu0).
Qed.

Lemma got_ok u em c : good u -> tracked m0 u em -> held_bytes u < CB_MAX -> CHUNK_MIN <= size c <= CHUNK_MAX -> used c = 0 -> buffer c ∉ buffer <$> chunks u ->
  let v := set_chunks (tick u) (c :: chunks u) 0 (u64 (held_bytes u + size c)) in good v /\ tracked m0 v em.
Proof.
  intros [C D [H1 H2] P Q] T Hh Hs Hu Hb v. assert (0 <= bytes (chunks u)) by (apply bytes_pos; eapply Forall_impl; [exact C|]; intros x [Hx _]; unfold CHUNK_MIN in Hx; lia). split.
  - constructor; unfold v; cbn [set_chunks tick chunks position held_bytes pools queue]; [constructor; [unfold CHUNK_MIN in *; lia|assumption]|cbn; constructor; assumption| |assumption|assumption].
    unfold CB_MAX, CHUNK_MIN, CHUNK_MAX in *. rewrite wrap_small by (unfold in_range; lia). rewrite bytes_cons. lia.
  - apply (tracked_mono u); auto. intros s (x & Hx & Hr). exists x. split; [now right|exact Hr].
Qed.

(** Past the last chunk. *)
Lemma slot_end fuel u want al em : 0 < al <= 2 ^ 32 -> good u -> tracked m0 u em -> chunks u !! position u = None -> exists e k a u', slot_loop give (S (S fuel)) u want al = Ok (e, k, a, u') /\ (e = VK_SUCCESS -> slotted u al em k a u') /\ (e <> VK_SUCCESS -> exists n cs w, give n cs w = Error e).
Proof.
  intros Ha G T Hn. destruct (tick_ok u em G T) as [Gt Tt]. cbn [slot_loop]. rewrite Hn. destruct (Z.ltb_spec (held_bytes u) CB_MAX) as [Hh|Hh].
  - set (want' := if want <? _ then _ else _). pose proof (supplies (clock u) (chunks u) want') as Hsup. destruct (give (clock u) (chunks u) want') as [e| |c] eqn:Eg.
    + eexists _, _, _, _. split; [reflexivity|]. split; [contradiction|]. intros _. eauto.
    + destruct (slot_rewind u fuel (tick u) want al em Ha Gt Tt Hsup) as [E S]. eexists _, _, _, _. split; [exact E|]. split; [auto|contradiction].
    + destruct Hsup as (Hs & Hu & Hb). destruct (got_ok u em c G T Hh Hs Hu Hb) as [Gv Tv]. destruct (slot_fresh u fuel _ want al em c Ha Gv Tv eq_refl Hu) as [E S]. eexists _, _, _, _. split; [exact E|]. split; [auto|contradiction].
  - destruct (slot_rewind u fuel u want al em Ha G T) as [E S]; [|eexists _, _, _, _; split; [exact E|]; split; [auto|contradiction]]. pose proof (proj1 (g_held _ G)) as H1. intros E. rewrite E in H1. cbn in H1. unfold CB_MAX, CHUNK_MAX in Hh. lia.
Qed.

(** The place is found after at most one chunk is taken. *)
Lemma slot_scan want al em : 0 < al <= 2 ^ 32 -> forall rest fuel u v, good v -> tracked m0 v em -> chunks v = chunks u -> room (drop (position v) (chunks v)) <= room (drop (position u) (chunks u)) -> drop (position v) (chunks v) = rest ->
  exists e k a u', slot_loop give (length rest + S (S fuel)) v want al = Ok (e, k, a, u') /\ (e = VK_SUCCESS -> slotted u al em k a u') /\ (e <> VK_SUCCESS -> exists n cs w, give n cs w = Error e).
Proof.
  intros Ha. induction rest as [|c rest IH]; intros fuel u v G T Ec Hr Hd.
  - assert (chunks v !! position v = None) as Hn by (rewrite <- (Nat.add_0_r (position v)), <- lookup_drop, Hd; reflexivity). destruct (slot_end fuel v want al em Ha G T Hn) as (e & k & a & u' & E & H1 & H2). exists e, k, a, u'. split; [exact E|]. split; [|assumption]. intros He. destruct (H1 He) as (S1 & S2 & S3 & S4 & x & S5 & S6 & S7). split_and!; auto. exists x. split; [assumption|]. split; [assumption|]. destruct S7 as [S7|[S7 S8]]; [auto|right]. split; [congruence|lia].
  - assert (chunks v !! position v = Some c) as Hc by (rewrite <- (Nat.add_0_r (position v)), <- lookup_drop, Hd; reflexivity). assert (drop (S (position v)) (chunks v) = rest) as Hd' by (replace (S (position v)) with (position v + 1)%nat by lia; rewrite <- drop_drop, Hd; reflexivity).
    pose proof (Forall_lookup_1 _ _ _ _ (g_chunks _ G) Hc) as [Hs Hus]. destruct (slot_start c al Ha Hus ltac:(lia)) as (S1 & S2 & _). cbn [length Nat.add slot_loop]. rewrite Hc. set (start := u64 _) in *. destruct (Z.ltb_spec start (size c)) as [Hlt|Hge].
    + eexists _, _, _, _. split; [reflexivity|]. split; [intros _|contradiction]. split_and!; auto. exists c. split; [assumption|]. split; [lia|]. right. auto.
    + destruct (at_position_ok v (S (position v)) em G T) as [G' T']. apply (IH fuel u (at_position v (S (position v)))); auto. cbn [at_position set_chunks chunks position]. rewrite Hd', Hd in *. cbn [room foldr] in Hr. fold (room rest) in Hr. lia.
Qed.

Lemma slot_ok u want al em : 0 < al <= 2 ^ 32 -> good u -> tracked m0 u em -> exists e k a u', slot give u want al = Ok (e, k, a, u') /\ (e = VK_SUCCESS -> slotted u al em k a u') /\ (e <> VK_SUCCESS -> exists n cs w, give n cs w = Error e).
Proof.
  intros Ha G T. unfold slot. replace (3 + length (chunks u))%nat with (length (drop (position u) (chunks u)) + S (S (1 + (length (chunks u) - length (drop (position u) (chunks u))))))%nat by (rewrite length_drop; lia). apply slot_scan; auto. lia.
Qed.
End proof.

(** ** Pieces *)

Lemma blocks_eq n : 0 <= n < 2 ^ 32 -> blocks_of n = (n + 3) / 4.
Proof. intros H. unfold blocks_of. rewrite wrap_small by (unfold in_range; lia). reflexivity. Qed.

(** Either the piece goes to a chunk of which nothing is used, or it has a size: it fits the blocks that are there, narrow pieces are one row of
    blocks high, and all pieces but the last ones end at whole blocks. *)
Lemma piece_size_ok W H x y band avail u : 0 <= x < W -> W < 2 ^ 32 -> 0 <= y < H -> H < 2 ^ 32 -> 1 <= avail <= 2 ^ 22 -> (band = 0 \/ (1 <= band <= 4 /\ band <= H - y /\ ((4 | band) \/ y + band = H))) ->
  match piece_size W H x y band avail u with
  | None => u = true
  | Some (w, h) => 1 <= w <= W - x /\ 1 <= h <= H - y /\ blocks_of w * blocks_of h <= avail /\ (w < W - x -> (4 | w) /\ h <= 4) /\ ((4 | h) \/ y + h = H) /\ (band <> 0 -> h = band)
  end.
Proof.
  intros Hx HW Hy HH Ha Hb. unfold piece_size. destruct ((band =? 0) && (avail <? blocks_of (W - x)) && u) eqn:E0; [apply andb_true_iff in E0 as [_ ->]; reflexivity|]. clear E0. rewrite (wrap_small 64 (avail * 4)) by (unfold in_range; lia). rewrite (wrap_small 32 (avail * 4)) by (unfold in_range; lia).
  set (w := if avail * 4 <? W - x then avail * 4 else W - x). assert (1 <= w <= W - x /\ w <= avail * 4 /\ (w < W - x -> w = avail * 4)) as (Hw1 & Hw2 & Hw3) by (unfold w; destruct (Z.ltb_spec (avail * 4) (W - x)); lia).
  assert (blocks_of w = (w + 3) / 4) as Ebw by (apply blocks_eq; lia). assert (1 <= blocks_of w <= avail) as Hbw by (rewrite Ebw; split; [apply Z.div_le_lower_bound; lia|apply Z.lt_succ_r, Z.div_lt_upper_bound; lia]). set (q := avail / blocks_of w).
  assert (1 <= q <= avail) as Hq by (split; [apply Z.div_le_lower_bound; lia|apply Z.div_le_upper_bound; [lia|]; rewrite <- (Z.mul_1_l avail) at 1; apply Z.mul_le_mono_nonneg_r; lia]). assert (blocks_of w * q <= avail) as Hfit by (apply Z.mul_div_le; lia). rewrite (wrap_small 64 (q * 4)) by (unfold in_range; lia). rewrite (wrap_small 32 (q * 4)) by (unfold in_range; lia).
  assert (forall h, 1 <= h <= q * 4 -> 1 <= h < 2 ^ 32 -> blocks_of w * blocks_of h <= avail) as Hfits. { intros h Hh Hr. rewrite (blocks_eq h) by lia. assert ((h + 3) / 4 <= q) by (apply Z.lt_succ_r, Z.div_lt_upper_bound; lia). assert (blocks_of w * ((h + 3) / 4) <= blocks_of w * q) by (apply Z.mul_le_mono_nonneg_l; lia). lia. }
  destruct (Z.eqb_spec band 0) as [->|Hne]; cbn [negb].
  - destruct (Z.ltb_spec w (W - x)) as [Hn|Hn]; cbn [andb].
    + assert (blocks_of w = avail) as Ew by (rewrite Ebw, (Hw3 Hn); replace (avail * 4 + 3) with (3 + avail * 4) by ring; rewrite Z.div_add by lia; reflexivity). assert (q = 1) as Eq by (unfold q; rewrite Ew; apply Z.div_same; lia). rewrite Eq in *. change (1 * 4) with 4 in *.
      set (h := if 4 <? (if 4 <? H - y then 4 else H - y) then 4 else if 4 <? H - y then 4 else H - y). assert (h = Z.min 4 (H - y)) as Eh by (unfold h; destruct (Z.ltb_spec 4 (H - y)) as [Hh|Hh]; [symmetry; apply Z.min_l, Z.lt_le_incl, Hh|rewrite (proj2 (Z.ltb_ge 4 (H - y)) Hh); lia]). rewrite Z.eqb_refl. cbn [negb]. split_and!; try lia.
      * apply Hfits; lia.
      * intros _. split; [exists avail; lia|lia].
      * rewrite Eh. destruct (Z.le_ge_cases 4 (H - y)); [left; exists 1; lia|right; lia].
    + set (h := if q * 4 <? H - y then q * 4 else H - y). assert (h = Z.min (q * 4) (H - y)) as Eh by (unfold h; destruct (Z.ltb_spec (q * 4) (H - y)); lia). rewrite Z.eqb_refl. cbn [negb]. split_and!; try lia.
      * apply Hfits; lia.
      * rewrite Eh. destruct (Z.le_ge_cases (q * 4) (H - y)); [left; exists q; lia|right; lia].
  - destruct Hb as [Hb|(Hb1 & Hb2 & Hb3)]; [contradiction|]. rewrite (proj2 (Z.ltb_ge (q * 4) band)) by lia. rewrite andb_false_r. cbn [andb]. rewrite Z.eqb_refl. cbn [negb]. split_and!; auto; try lia.
    + apply Hfits; lia.
    + intros Hn. split; [exists avail; rewrite Hw3 by assumption; ring|lia].
Qed.

Lemma piece_size_fresh W H x y band avail : 0 <= x < W -> W < 2 ^ 32 -> 0 <= y < H -> H < 2 ^ 32 -> 1 <= avail <= 2 ^ 22 -> (band = 0 \/ (1 <= band <= 4 /\ band <= H - y /\ ((4 | band) \/ y + band = H))) -> piece_size W H x y band avail false <> None.
Proof. intros. pose proof (piece_size_ok W H x y band avail false) as Hp. destruct (piece_size _ _ _ _ _ _ _); [discriminate|]. specialize (Hp ltac:(assumption) ltac:(assumption) ltac:(assumption) ltac:(assumption) ltac:(assumption) ltac:(assumption)). discriminate. Qed.

(** *** The decoder accepts them *)

(** Vulkan's required limits; alignments are powers of two. *)
Record limits_ok (l : BcDecode.device_limits) (offset_alignment : Z) : Prop := {
  lo_range : 2 ^ 27 <= BcDecode.maxStorageBufferRange l < 2 ^ 32;
  lo_alignment : exists k, 0 <= k <= 8 /\ nonzero offset_alignment = 2 ^ k;
  lo_groups : 8 <= BcDecode.group_size_x l /\ 8 <= BcDecode.group_size_y l /\ 64 <= BcDecode.group_invocations l /\ 65535 <= BcDecode.group_count_x l /\ 65535 <= BcDecode.group_count_y l /\ 65535 <= BcDecode.group_count_z l }.

(** Three-component decoded formats are for the formats that have three components. *)
Definition formats_agree (i : hybris_bc_image) : Prop :=
  (decoded_format i = VK_FORMAT_R8G8B8_UNORM \/ decoded_format i = VK_FORMAT_R8G8B8_SRGB -> format i = 131 \/ format i = 132) /\ (decoded_format i = VK_FORMAT_R16G16B16_SFLOAT -> BcDecode.family (format i) = 5).

Lemma flags_agree i q w h l row so sr dr : formats_agree i -> let r := region_of i q w h l row so sr dr in
  ((BcDecode.truthy (BcDecode.rgb8 r) && (BcDecode.truthy (BcDecode.rgb16 r) || (negb (BcDecode.format r =? BcDecode.VK_FORMAT_BC1_RGB_UNORM_BLOCK) && negb (BcDecode.format r =? BcDecode.VK_FORMAT_BC1_RGB_SRGB_BLOCK)))) || (BcDecode.truthy (BcDecode.rgb16 r) && negb (BcDecode.family (BcDecode.format r) =? 5))) = false.
Proof.
  intros [F8 F16]. cbn [region_of BcDecode.rgb8 BcDecode.rgb16 BcDecode.format]. assert (forall b, BcDecode.truthy (flag b) = b) as Ht by (intros []; reflexivity). rewrite !Ht. unfold VK_FORMAT_R8G8B8_UNORM, VK_FORMAT_R8G8B8_SRGB, VK_FORMAT_R16G16B16_SFLOAT, BcDecode.VK_FORMAT_BC1_RGB_UNORM_BLOCK, BcDecode.VK_FORMAT_BC1_RGB_SRGB_BLOCK in *.
  destruct (Z.eqb_spec (decoded_format i) 90) as [E|E]; [rewrite E in *; cbn; now rewrite (F16 eq_refl)|]. destruct (Z.eqb_spec (decoded_format i) 23) as [E1|E1]; [destruct F8 as [-> | ->]; auto|]. destruct (Z.eqb_spec (decoded_format i) 29) as [E2|E2]; [destruct F8 as [-> | ->]; auto|]. reflexivity.
Qed.

Lemma prepare_accepts i lim al q w h row so range len bout : limits_ok lim al -> formats_agree i -> BcDecode.hybris_bc_output_block_bytes (representation i) = Ok bout -> 0 < bout <= 128 -> 1 <= w <= 2 ^ 20 -> 1 <= h <= 2 ^ 20 -> w <= row -> row < 2 ^ 32 -> (4 | row) -> 0 <= so -> (4 | so) -> range <= BcDecode.maxStorageBufferRange lim -> len <= BcDecode.maxStorageBufferRange lim ->
  row / 4 * blocks_of h < 2 ^ 32 -> so + ((blocks_of h - 1) * (row / 4) + blocks_of w) * BcDecode.input_bytes (BcDecode.family (format i)) <= range -> blocks_of w * blocks_of h * bout <= len ->
  exists p, BcDecode.prepare_region (region_of i q w h 1 row so range len) lim = Ok (VK_SUCCESS, Some p).
Proof.
  intros [L1 _ (L2 & L3 & L4 & L5 & L6 & L7)] Hf Hb Hb0 Hw Hh Hrow Hrow2 [rb Erb] Hso [sb Esb] Hrange Hlen Hlayer Hsrc Hdst. pose proof (blocks_eq w ltac:(lia)) as Ew. pose proof (blocks_eq h ltac:(lia)) as Eh. assert (1 <= blocks_of w <= 2 ^ 18) as Bw by (rewrite Ew; split; [apply Z.div_le_lower_bound; lia|apply Z.lt_succ_r, Z.div_lt_upper_bound; lia]). assert (1 <= blocks_of h <= 2 ^ 18) as Bh by (rewrite Eh; split; [apply Z.div_le_lower_bound; lia|apply Z.lt_succ_r, Z.div_lt_upper_bound; lia]).
  assert (row / 4 = rb) as Er by (rewrite Erb; apply Z.div_mul; lia). rewrite Er in *. assert (forall z, (4 | z) -> BcDecode.truthy (Z.land z 3) = false) as H4. { intros z [t ->]. change 3 with (Z.ones 2). rewrite Z.land_ones by lia. change (2 ^ 2) with 4. now rewrite Z.mod_mul by lia. }
  unfold BcDecode.prepare_region. pose proof (flags_agree i q w h 1 row so range len Hf) as Hfl. cbv zeta in Hfl. rewrite Hfl. clear Hfl. change (BcDecode.hybris_bc_output_block_bytes (region_of i q w h 1 row so range len)) with (BcDecode.hybris_bc_output_block_bytes (representation i)). rewrite Hb. cbn [obind]. cbn [region_of BcDecode.format BcDecode.width BcDecode.height BcDecode.layers BcDecode.row_length BcDecode.image_height BcDecode.source_offset BcDecode.destination_offset BcDecode.source_range BcDecode.destination_range].
  assert (0 <= BcDecode.family (format i)) as Hfam. { unfold BcDecode.hybris_bc_output_block_bytes in Hb. destruct (Z.ltb_spec (BcDecode.variant (representation i)) 0) as [Hv|Hv]; [injection Hb as Hb'; lia|]. unfold BcDecode.variant in Hv. change (BcDecode.format (representation i)) with (format i) in Hv. destruct (Z.ltb_spec (BcDecode.family (format i)) 0); lia. }
  rewrite (proj2 (Z.ltb_ge (BcDecode.family (format i)) 0)), (proj2 (Z.eqb_neq bout 0)) by lia. cbn [orb]. rewrite (H4 so) by (exists sb; lia). change (BcDecode.truthy (Z.land 0 3)) with false. rewrite (proj2 (Z.eqb_neq w 0)), (proj2 (Z.eqb_neq h 0)) by lia. change (1 =? 0) with false. rewrite (proj2 (Z.ltb_ge _ range)), (proj2 (Z.ltb_ge _ len)), (proj2 (Z.ltb_ge _ 8)), (proj2 (Z.ltb_ge _ 8)), (proj2 (Z.ltb_ge _ 64)) by lia. cbn [orb].
  assert (BcDecode.truthy row = true) as Htr by (unfold BcDecode.truthy; rewrite (proj2 (Z.eqb_neq row 0)) by lia; reflexivity). rewrite Htr. change (BcDecode.truthy 0) with false. rewrite (H4 row) by (exists rb; lia). rewrite (proj2 (Z.ltb_ge row w)), (proj2 (Z.ltb_ge h h)) by lia. cbn [orb andb].
  fold (blocks_of w) (blocks_of h) (blocks_of row). rewrite (blocks_eq row) by lia. rewrite Erb. replace (rb * 4 + 3) with (3 + rb * 4) by ring. rewrite Z.div_add by lia. change (3 / 4) with 0. rewrite Z.add_0_l. assert (1 <= rb) by lia. assert (0 <= rb * blocks_of h) by (apply Z.mul_nonneg_nonneg; lia).
  rewrite (wrap_small 64 (rb * blocks_of h)) by (unfold in_range; lia). change (1 - 1) with 0. rewrite Z.mul_0_r. change (u64 0) with 0. rewrite Z.add_0_l. change (BcDecode.UINT32_MAX / 1) with (2 ^ 32 - 1).
  assert (forall n, 1 <= n <= 2 ^ 18 -> u64 (n + 7) / 8 <= 65535) as Hg8 by (intros n Hn; rewrite wrap_small by (unfold in_range; lia); apply Z.lt_succ_r, Z.div_lt_upper_bound; lia). pose proof (Hg8 _ Bw) as G1. pose proof (Hg8 _ Bh) as G2.
  rewrite (proj2 (Z.ltb_ge _ (rb * blocks_of h))), (proj2 (Z.ltb_ge _ (u64 (blocks_of w + 7) / 8))), (proj2 (Z.ltb_ge _ (u64 (blocks_of h + 7) / 8))), (proj2 (Z.ltb_ge _ 1)) by lia. cbn [orb].
  set (ib := BcDecode.input_bytes (BcDecode.family (format i))) in *. assert (ib = 8 \/ ib = 16) as Hib by (unfold ib, BcDecode.input_bytes; destruct (_ || _); auto). set (n := (blocks_of h - 1) * rb + blocks_of w) in *. assert (0 <= (blocks_of h - 1) * rb) by (apply Z.mul_nonneg_nonneg; lia). assert (1 <= n /\ n * ib < 2 ^ 32) as [Hn1 Hn2] by lia.
  rewrite (wrap_small 64 (blocks_of h - 1)) by (unfold in_range; lia). rewrite !(wrap_small 64 ((blocks_of h - 1) * rb)) by (unfold in_range; destruct Hib as [E|E]; rewrite E in *; lia). rewrite (wrap_small 64 ((blocks_of h - 1) * rb + blocks_of w)) by (fold n; unfold in_range; destruct Hib as [E|E]; rewrite E in *; lia). fold n. rewrite (wrap_small 64 (n * ib)) by (unfold in_range; destruct Hib as [E|E]; rewrite E in *; lia).
  assert (0 < blocks_of w * blocks_of h <= 2 ^ 18 * 2 ^ 18) as Hwh by (split; [apply Z.mul_pos_pos; lia|apply Z.mul_le_mono_nonneg; lia]). rewrite (wrap_small 64 (blocks_of w * blocks_of h)) by (unfold in_range; lia). rewrite Z.mul_1_r. rewrite (wrap_small 64 (blocks_of w * blocks_of h)) by (unfold in_range; lia). set (d := blocks_of w * blocks_of h * bout) in *. assert (0 <= d) by (apply Z.mul_nonneg_nonneg; lia). rewrite (wrap_small 64 d) by (unfold in_range; lia).
  rewrite Z.sub_0_r. rewrite (wrap_small 64 (range - so)), (wrap_small 64 len) by (unfold in_range; lia). change (0 / 4) with 0. rewrite Z.add_0_l. assert (0 <= so / 4 <= so /\ 0 <= n * ib / 4 <= n * ib /\ 0 <= d / 4 <= d) as (D1 & D2 & D3) by (split_and!; try (apply Z.div_pos; lia); apply Z.div_le_upper_bound; lia). rewrite (wrap_small 64 (so / 4 + n * ib / 4)), (wrap_small 64 (d / 4)) by (unfold in_range; lia).
  rewrite !(proj2 (Z.ltb_ge _ _)) by (unfold BcDecode.UINT32_MAX; lia). cbn [orb]. eexists. reflexivity.
Qed.

(** *** Recording a piece *)

Lemma alter_below cs k c n s : cs !! k = Some c -> used c <= n -> below cs s -> below (alter (fun c => with_used c n) k cs) s.
Proof.
  intros Hk Hn (x & Hx & Hb & Hu). apply list_elem_of_lookup_1 in Hx as [j Hj]. destruct (decide (j = k)) as [->|Hne].
  - rewrite Hk in Hj. injection Hj as <-. exists (with_used c n). split; [apply list_elem_of_lookup_2 with k; now rewrite list_lookup_alter_eq, Hk|]. cbn. split; [assumption|lia].
  - exists x. split; [apply list_elem_of_lookup_2 with j; now rewrite list_lookup_alter_ne by auto|auto].
Qed.

Lemma alter_buffers cs k n : buffer <$> alter (fun c => with_used c n) k cs = buffer <$> cs /\ bytes (alter (fun c => with_used c n) k cs) = bytes cs.
Proof.
  revert k. induction cs as [|c cs IH]; intros [|k]; [auto|auto|auto|]. destruct (IH k) as [E1 E2]. cbn [alter list_alter] in *. split; [now rewrite !fmap_cons, E1|now rewrite !bytes_cons, E2].
Qed.

Lemma fill_ok m0 u em k c n : good u -> tracked m0 u em -> chunks u !! k = Some c -> used c <= n <= size c -> good (fill u k n) /\ tracked m0 (fill u k n) em.
Proof.
  intros [C D H P Q] T Hk Hn. destruct (alter_buffers (chunks u) k n) as [E1 E2]. pose proof (Forall_lookup_1 _ _ _ _ C Hk) as [Hs Hu]. split.
  - constructor; cbn [fill set_chunks chunks held_bytes pools queue]; auto; [|now rewrite E1|now rewrite E2]. apply Forall_alter; [assumption|]. intros x Hx [Hsx _]. rewrite Hk in Hx. injection Hx as <-. cbn. lia.
  - apply (tracked_mono m0 u); auto. intros s. cbn [fill set_chunks chunks]. apply (alter_below _ _ c); [assumption|lia].
Qed.

Lemma below_disjoint cs k c a len s : NoDup (buffer <$> cs) -> cs !! k = Some c -> used c <= a -> below cs s -> overlap (buffer c, a, len) s = false.
Proof.
  intros Hn Hk Ha (x & Hx & Hb & Hu). destruct s as [[b o] n]. cbn [fst snd] in *. unfold overlap. destruct (Z.eqb_spec (buffer c) b) as [Eb|]; [|reflexivity]. apply list_elem_of_lookup_1 in Hx as [j Hj]. assert (j = k) as ->. { apply (NoDup_lookup _ j k b Hn); rewrite list_lookup_fmap; [rewrite Hj|rewrite Hk]; cbn; congruence. }
  rewrite Hk in Hj. injection Hj as <-. cbn [andb]. rewrite (proj2 (Z.ltb_ge a (o + n))) by lia. reflexivity.
Qed.

(** The state with a dispatch recorded and its copy queued. *)
Definition dispatched (u : upload) (k : nat) (b a len base : Z) (reg : BcDecode.hybris_bc_region) (cp : image_copy) : upload :=
  Upload (alter (fun c => with_used c (a + len)) k (chunks u)) (position u) (held_bytes u) (pools u) (queue u ++ [(b, cp)]) (log u ++ [Dispatch b a len base reg]) (clock u).

Lemma dispatched_tracks m0 u em k c a len base reg cp : good u -> tracked m0 u em -> chunks u !! k = Some c -> used c <= a -> 0 < len -> i_offset cp = a -> fits (Written (buffer c, a, len) base reg false) cp = true ->
  tracked m0 (dispatched u k (buffer c) a len base reg cp) (em ++ [(cp, (base, reg))]).
Proof.
  intros [C D H P Q] (m & [E K Le R U (ys & Hy & ->)]) Hk Ha Hl Ho Hf. set (w := Written (buffer c, a, len) base reg false). set (cs' := alter (fun c => with_used c (a + len)) k (chunks u)). assert (forall s, below (chunks u) s -> below cs' s) as Hmono by (intros s; apply (alter_below _ _ c); [assumption|lia]).
  assert (below cs' (w_span w)) as Hbw by (exists (with_used c (a + len)); split; [apply list_elem_of_lookup_2 with k; unfold cs'; now rewrite list_lookup_alter_eq, Hk|cbn; lia]). set (keep := fun x : written => negb (overlap (buffer c, a, len) (w_span x))).
  assert (forall x, x ∈ List.filter keep (pieces m) <-> x ∈ pieces m /\ keep x = true) as Hin by (intros x; rewrite !list_elem_of_In; apply filter_In). assert (NoDup (key <$> List.filter keep (pieces m))) as Kf. { clear - K. induction (pieces m) as [|x l IH]; [constructor|]. cbn in K. apply NoDup_cons in K as [K1 K2]. cbn [List.filter]. destruct (keep x); [|auto]. cbn. constructor; [|auto]. intros Hx. apply K1. apply list_elem_of_fmap in Hx as (y & -> & Hy). apply list_elem_of_In, filter_In in Hy as [Hy _]. now apply list_elem_of_fmap_2, list_elem_of_In. }
  exists (Device (w :: List.filter keep (pieces m)) (reading m) (placed m)). constructor; cbn [dispatched log chunks queue pieces reading placed].
  - rewrite exec_app, E. cbn [exec exec_command]. destruct (existsb (overlap (buffer c, a, len)) (reading m)) eqn:Er.
    { apply existsb_exists in Er as (x & Hx & Hx2). apply list_elem_of_In in Hx. rewrite (below_disjoint _ _ c a len _ D Hk Ha (R x Hx)) in Hx2. discriminate. }
    destruct (existsb (fun w => overlap (buffer c, a, len) (w_span w) && negb (seen w)) (pieces m)) eqn:Ew; [|reflexivity].
    apply existsb_exists in Ew as (x & Hx & Hx2). apply andb_true_iff in Hx2 as [Hx2 Hx3%negb_true_iff]. apply list_elem_of_In in Hx. destruct (U x Hx Hx3) as [Hb _]. rewrite (below_disjoint _ _ c a len _ D Hk Ha Hb) in Hx2. discriminate.
  - cbn. constructor; [|exact Kf]. intros Hx. apply list_elem_of_fmap in Hx as (x & Ex & Hx). apply Hin in Hx as [Hx Hkeep]. pose proof (Le x Hx) as Hlx. unfold keep, key, length_of in *. destruct (w_span x) as [[b o] n]. cbn in Ex, Hlx. injection Ex as <- <-. cbn in Hkeep. rewrite Z.eqb_refl, !(proj2 (Z.ltb_lt _ _)) in Hkeep by lia. discriminate.
  - intros x [->|Hx]%elem_of_cons; [exact Hl|]. apply Hin in Hx as [Hx _]. auto.
  - auto.
  - intros x [->|Hx]%elem_of_cons Hs; [split; [exact Hbw|]|].
    + rewrite fmap_app, elem_of_app. right. cbn. rewrite Ho. apply list_elem_of_singleton. reflexivity.
    + apply Hin in Hx as [Hx _]. destruct (U x Hx Hs) as [Hb Hq]. split; [auto|]. rewrite fmap_app, elem_of_app. auto.
  - exists (ys ++ [(cp, (base, reg))]). split; [|now rewrite app_assoc]. apply Forall2_app.
    + eapply Forall2_impl; [exact Hy|]. intros x y (Ex & v & Hv & Hkv & Hfv & Hcv & Hbv). split; [assumption|]. exists v. split_and!; auto. right. apply Hin. split; [assumption|]. unfold keep. now rewrite (below_disjoint _ _ c a len _ D Hk Ha Hbv).
    + constructor; [|constructor]. split; [reflexivity|]. exists w. split; [left|]. split; [cbn; now rewrite Ho|]. auto.
Qed.

(** What stays when a request is answered. *)
Definition same_work (u u' : upload) : Prop := chunks u' = chunks u /\ queue u' = queue u /\ log u' = log u /\ position u' = position u /\ held_bytes u' = held_bytes u.

Lemma same_work_ok m0 u u' em : same_work u u' -> Forall (fun n => 0 <= n <= 64) (pools u') -> good u -> tracked m0 u em -> good u' /\ tracked m0 u' em.
Proof. intros (E1 & E2 & E3 & E4 & E5) Hp [C D H P Q] T. split; [constructor; rewrite ?E1, ?E2, ?E5; auto|]. apply (tracked_mono m0 u); auto. now rewrite E1. Qed.

Lemma descriptors_ok sets m0 u em : good u -> tracked m0 u em -> exists e u', descriptors sets u = (e, u') /\ same_work u u' /\ good u' /\ tracked m0 u' em /\ ((forall n, sets n = PoolAnswers true VK_SUCCESS VK_SUCCESS) -> e = VK_SUCCESS).
Proof.
  intros G T. assert (forall e u', same_work u u' -> Forall (fun n => 0 <= n <= 64) (pools u') -> ((forall n, sets n = PoolAnswers true VK_SUCCESS VK_SUCCESS) -> e = VK_SUCCESS) -> exists e' u'', (e, u') = (e', u'') /\ same_work u u'' /\ good u'' /\ tracked m0 u'' em /\ ((forall n, sets n = PoolAnswers true VK_SUCCESS VK_SUCCESS) -> e' = VK_SUCCESS)) as K.
  { intros e u' S P He. destruct (same_work_ok m0 u u' em S P G T) as [G' T']. exists e, u'. auto. }
  pose proof (g_pools _ G) as P. unfold descriptors. cbn [tick pools]. set (a := sets (clock u)). set (fresh := match pools u with [] => true | n :: _ => n =? 64 end). assert ((forall n, sets n = PoolAnswers true VK_SUCCESS VK_SUCCESS) -> a = PoolAnswers true VK_SUCCESS VK_SUCCESS) as Ha by (intros H; apply H).
  destruct (fresh && negb (p_host a)) eqn:E1; [apply K; [now split_and!|exact P|]; intros H; rewrite (Ha H), andb_false_r in E1; discriminate|]. destruct (fresh && negb (p_pool a =? VK_SUCCESS)) eqn:E2; [apply K; [now split_and!|exact P|]; intros H; rewrite (Ha H), andb_false_r in E2; discriminate|].
  assert (exists n l, (if fresh then 0 :: pools u else pools u) = n :: l /\ 0 <= n <= 63 /\ Forall (fun n => 0 <= n <= 64) l) as (n & l & -> & Hn & Hl). { unfold fresh. destruct (pools u) as [|n l]; [exists 0, []; split_and!; auto; lia|]. apply Forall_cons_1 in P as [Pn Pl]. destruct (Z.eqb_spec n 64); [exists 0, (n :: l); split_and!; auto; try lia; now constructor|exists n, l; split_and!; auto; lia]. }
  destruct (p_set a =? VK_SUCCESS) eqn:E3; apply K; try (now split_and!); cbn [pools]; try (constructor; [lia|assumption]); [auto|]. intros H. rewrite (Ha H) in E3. discriminate.
Qed.

Lemma round4_eq n : 0 <= n < 2 ^ 31 -> round4 n = 4 * blocks_of n.
Proof.
  intros H. unfold round4. rewrite wrap_small by (unfold in_range; lia). change 3 with (Z.ones 2) at 2. rewrite Z.ldiff_ones_r by lia. rewrite Z.shiftr_div_pow2, Z.shiftl_mul_pow2 by lia. change (2 ^ 2) with 4. rewrite blocks_eq by lia. lia.
Qed.

(** The output block sizes. *)
Lemma output_bytes i bout : BcDecode.hybris_bc_output_block_bytes (representation i) = Ok bout -> bout = 0 \/ (4 <= bout <= 128).
Proof.
  unfold BcDecode.hybris_bc_output_block_bytes. destruct (Z.ltb_spec (BcDecode.variant (representation i)) 0) as [Hv|Hv]; [intros [= <-]; auto|]. intros H. right. assert (BcDecode.variant (representation i) < 17) as Hv2. { unfold rd in H. rewrite (proj2 (Z.ltb_ge _ _) Hv) in H. destruct (BcDecode.block_bytes !! Z.to_nat (BcDecode.variant (representation i))) eqn:E; [|discriminate]. apply lookup_lt_Some in E. change (length BcDecode.block_bytes) with 17%nat in E. lia. }
  destruct (BcDecode.words_written _ (conj Hv Hv2)) as (b & Eb & -> & Hw). rewrite Eb in H. injection H as <-. lia.
Qed.

Lemma enqueue_ok m0 u em b cp : (length (queue u) < CAPACITY)%nat -> let v := Upload (chunks u) (position u) (held_bytes u) (pools u) (queue u ++ [(b, cp)]) (log u) (clock u) in
  Forall (fun c => CHUNK_MIN <= size c <= CHUNK_MAX /\ 0 <= used c <= size c) (chunks u) -> NoDup (buffer <$> chunks u) -> held_bytes u = bytes (chunks u) /\ held_bytes u < CB_MAX + CHUNK_MAX -> Forall (fun n => 0 <= n <= 64) (pools u) -> tracked m0 v em ->
  exists u', enqueue u b cp = Ok u' /\ good u' /\ tracked m0 u' em.
Proof.
  intros Hq v C D H P T. unfold enqueue. rewrite (proj2 (Nat.leb_gt _ _) Hq). fold v. destruct (Nat.eqb_spec (length (queue v)) CAPACITY) as [E|E].
  - destruct (flush_tracks m0 v em T) as (m & Tm & _ & _ & Fq & Fc & _ & Fh & Fo & _). eexists. split; [reflexivity|]. split; [|eexists; apply to_compute_tracks, Tm]. constructor; cbn [to_compute record chunks held_bytes pools queue]; rewrite ?Fc, ?Fh, ?Fo, ?Fq; auto. unfold CAPACITY. cbn. lia.
  - exists v. split; [reflexivity|]. split; [|assumption]. constructor; auto. unfold v in *. cbn [queue] in *. rewrite length_app in *. cbn [length] in *. lia.
Qed.

Section region.
Context (give : nat -> list hybris_bc_scratch -> Z -> given) {supply : Supply give} (sets : nat -> pool_answers) (pipelines : nat -> Z) (limits : BcDecode.device_limits) (offset_alignment quality : Z) (m0 : device).
Context (i : hybris_bc_image) (r : BcCopy.region) (bout : Z) (L : laid_out i) (R : BcCopy.region_ok i r) (Lim : limits_ok limits offset_alignment) (Hquality : 0 <= quality <= 3).
Context (Hbout : BcDecode.hybris_bc_output_block_bytes (representation i) = Ok bout) (Hb4 : 4 <= bout <= 128).

Local Abbreviation W := (BcImage.width (BcCopy.ext r)).
Local Abbreviation RH := (BcImage.height (BcCopy.ext r)).
Local Abbreviation level := (hybris_bc_image_extent i (BcCopy.mip r)).

(** The address of the block of texel ([x], [y]) of a slice of the region. *)
Definition source (layer x y : Z) : Z := offset i (BcCopy.mip r) + index i (BcCopy.mip r) (BcCopy.first_slice i r + layer) (BcCopy.off_y r / 4 + y / 4) (BcCopy.off_x r / 4 + x / 4) * block_bytes i.

(** The driver has memory, the formats agree, the image is of a usual size and a slice of the level fits a storage buffer. *)
Definition favourable : Prop :=
  (forall n, sets n = PoolAnswers true VK_SUCCESS VK_SUCCESS) /\ (forall n, pipelines n = VK_SUCCESS) /\ (forall n cs w e, give n cs w <> Error e) /\
  formats_agree i /\ block_bytes i = BcDecode.input_bytes (BcDecode.family (format i)) /\
  BcImage.width level <= 2 ^ 20 /\ BcImage.height level <= 2 ^ 20 /\ hybris_bc_image_slice_size i (BcCopy.mip r) + 256 <= BcDecode.maxStorageBufferRange limits.

Lemma region_sizes : 1 <= W < 2 ^ 32 /\ 1 <= RH < 2 ^ 32 /\ BcCopy.nx r = (W + 3) / 4 /\ BcCopy.ny r = (RH + 3) / 4.
Proof. destruct (BcCopy.r_ext _ _ R) as (E1 & E2 & E3 & E4 & _). unfold in_range in *. unfold BcCopy.nx, BcCopy.ny, BcCopy.blocks4. lia. Qed.

Lemma texel_block layer x y : 0 <= layer < BcCopy.region_layers i r -> 0 <= x < W -> 0 <= y < RH -> in_image i (BcCopy.mip r) (BcCopy.first_slice i r + layer) (BcCopy.off_y r / 4 + y / 4) (BcCopy.off_x r / 4 + x / 4).
Proof.
  intros Hl Hx Hy. destruct region_sizes as (_ & _ & Enx & Eny). apply BcCopy.region_in_image; auto; [rewrite Eny|rewrite Enx]; (split; [apply Z.div_pos; lia|]); apply Z.div_lt_upper_bound; try lia; match goal with |- _ < 4 * (?n / 4) => pose proof (Z.div_mod n 4 ltac:(lia)); pose proof (Z.mod_pos_bound n 4 ltac:(lia)); lia end.
Qed.

Lemma piece_source layer x y : 0 <= layer < BcCopy.region_layers i r -> 0 <= x < W -> 0 <= y < RH ->
  block_address i (BcCopy.mip r) (u64 ((if volume i then u32 (BcCopy.off_z r) else BcCopy.baseLayer r) + layer)) (u32 (u32 (BcCopy.off_y r) / 4 + y / 4)) (u32 (u32 (BcCopy.off_x r) / 4 + x / 4)) = Ok (source layer x y).
Proof.
  intros Hl Hx Hy. pose proof (texel_block layer x y Hl Hx Hy) as Hin. destruct (BcCopy.r_x _ _ R) as [X1 _]. destruct (BcCopy.r_y _ _ R) as [Y1 _]. destruct (BcCopy.r_z _ _ R) as (Z1 & Z2 & Z3 & _). destruct region_sizes as (Wb & Hb & _).
  assert ((if volume i then u32 (BcCopy.off_z r) else BcCopy.baseLayer r) = BcCopy.first_slice i r /\ 0 <= BcCopy.first_slice i r < 2 ^ 32) as [-> Hfs]. { unfold volume, BcCopy.first_slice. destruct (_ =? _); [|split; [reflexivity|lia]]. split; [apply wrap_small; unfold in_range|]; lia. }
  assert (forall a b, 0 <= a < 2 ^ 31 -> 0 <= b < 2 ^ 32 -> 0 <= a / 4 + b / 4 < 2 ^ 32) as Hd. { intros a b Ha Hb'. pose proof (Z.div_pos a 4 ltac:(lia) ltac:(lia)). pose proof (Z.div_pos b 4 ltac:(lia) ltac:(lia)). assert (a / 4 < 2 ^ 29) by (apply Z.div_lt_upper_bound; lia). assert (b / 4 < 2 ^ 30) by (apply Z.div_lt_upper_bound; lia). lia. }
  rewrite (wrap_small 64 _), (wrap_small 32 (BcCopy.off_y r)), (wrap_small 32 (BcCopy.off_x r)), !(wrap_small 32 (_ / 4 + _)) by (unfold in_range; try apply Hd; lia). now apply block_place.
Qed.

(** The blocks of a piece, from the address of the first. *)
Lemma piece_extent layer x y w h : 0 <= layer < BcCopy.region_layers i r -> 0 <= x -> 0 <= y -> (4 | x) -> (4 | y) -> 1 <= w <= W - x -> 1 <= h <= RH - y ->
  0 <= source layer x y /\ (8 | source layer x y) /\ 1 <= blocks_of w /\ 1 <= blocks_of h /\ ((blocks_of h - 1) * blocks_of (BcImage.width level) + blocks_of w) * block_bytes i <= hybris_bc_image_slice_size i (BcCopy.mip r) /\
  source layer x y + ((blocks_of h - 1) * blocks_of (BcImage.width level) + blocks_of w) * block_bytes i <= block_size i /\
  blocks_of w <= blocks_of (BcImage.width level) /\ blocks_of h <= blocks_of (BcImage.height level) /\ hybris_bc_image_slice_size i (BcCopy.mip r) = blocks_of (BcImage.width level) * blocks_of (BcImage.height level) * block_bytes i.
Proof.
  intros Hl Hx Hy [xq Ex] [yq Ey] Hw Hh. destruct region_sizes as (Wb & Hb & Enx & Eny). pose proof (BcCopy.r_mip _ _ R) as Hm. destruct (extent_ok i _ (l_shape _ L) Hm) as (B1 & B2 & _). destruct (level_fits i _ L Hm) as [F1 F2]. pose proof (l_fits _ L) as Hf. pose proof (s_bytes _ (l_shape _ L)) as Hbb. pose proof (slice_le i _ (l_shape _ L) Hm) as Hsl. cbv zeta in *.
  rewrite (blocks_eq w), (blocks_eq h) by lia. set (bw := (w + 3) / 4). set (bh := (h + 3) / 4). assert (1 <= bw /\ 1 <= bh) as [P1 P2] by (split; apply Z.div_le_lower_bound; lia).
  assert (x / 4 = xq /\ y / 4 = yq) as [Dx Dy] by (rewrite Ex, Ey; split; apply Z.div_mul; lia). assert (xq + bw <= BcCopy.nx r) as Q1 by (rewrite Enx; unfold bw; rewrite <- Z.div_add_l by lia; apply Z.div_le_mono; lia). assert (yq + bh <= BcCopy.ny r) as Q2 by (rewrite Eny; unfold bh; rewrite <- Z.div_add_l by lia; apply Z.div_le_mono; lia).
  pose proof (BcCopy.region_in_image i r layer yq xq L R Hl ltac:(lia) ltac:(lia)) as In1. pose proof (BcCopy.region_in_image i r layer (yq + (bh - 1)) (xq + (bw - 1)) L R Hl ltac:(lia) ltac:(lia)) as In2. destruct (index_range i _ _ _ _ (l_shape _ L) In1) as [I1 _]. destruct (index_range i _ _ _ _ (l_shape _ L) In2) as [_ I2].
  unfold source. rewrite Dx, Dy. set (ix := index i _ _ (BcCopy.off_y r / 4 + yq) _) in *. assert (index i (BcCopy.mip r) (BcCopy.first_slice i r + layer) (BcCopy.off_y r / 4 + (yq + (bh - 1))) (BcCopy.off_x r / 4 + (xq + (bw - 1))) = ix + (bh - 1) * blocks_of (BcImage.width level) + (bw - 1)) as E2 by (unfold ix, index; ring). rewrite E2 in I2.
  destruct In2 as (_ & _ & In3 & In4). assert (0 <= BcCopy.off_x r / 4 /\ 0 <= BcCopy.off_y r / 4) as [O1 O2] by (destruct (BcCopy.r_x _ _ R), (BcCopy.r_y _ _ R); split; apply Z.div_pos; lia). set (wb := blocks_of (BcImage.width level)) in *. set (hb := blocks_of (BcImage.height level)) in *.
  assert ((bh - 1) * wb + bw <= wb * hb) as Hsz. { assert ((bh - 1) * wb <= (hb - 1) * wb) by (apply Z.mul_le_mono_nonneg_r; lia). lia. } assert (0 < wb * hb <= 2 ^ 30 * 2 ^ 30) as Hwh by (split; [apply Z.mul_pos_pos; lia|apply Z.mul_le_mono_nonneg; lia]).
  assert (hybris_bc_image_slice_size i (BcCopy.mip r) = wb * hb * block_bytes i) as Es. { unfold hybris_bc_image_slice_size. cbv zeta. fold wb hb. unfold UINT64_MAX in Hf. rewrite (wrap_small 64 (wb * hb)) by (unfold in_range; lia). apply wrap_small. unfold in_range. destruct Hbb as [E|E]; rewrite E in *; lia. }
  assert (8 | block_bytes i) as D8 by (destruct Hbb as [-> | ->]; [exists 1|exists 2]; reflexivity). assert (forall n, (8 | total (level_bytes i) n)) as Dt. { induction n as [|n IH]; [apply Z.divide_0_r|]. rewrite total_step. apply Z.divide_add_r; [assumption|]. unfold level_bytes. cbv zeta. do 2 apply Z.divide_mul_l. apply Z.divide_mul_r, D8. }
  split_and!; auto.
  - destruct Hbb as [E|E]; rewrite E in *; lia.
  - apply Z.divide_add_r; [apply Dt|apply Z.divide_mul_r, D8].
  - rewrite Es. apply Z.mul_le_mono_nonneg_r; lia.
  - destruct Hbb as [E|E]; rewrite E in *; lia.
  - lia.
  - lia.
Qed.

Lemma aligned_rest S k : 0 <= k -> (8 | S) -> (4 | S mod 2 ^ k).
Proof.
  intros Hk HS. destruct (Z.le_gt_cases k 2) as [Hle|Hgt].
  - rewrite (proj2 (Z.mod_divide S (2 ^ k) ltac:(lia))); [apply Z.divide_0_r|]. etransitivity; [|exact HS]. exists (2 ^ (3 - k)). rewrite <- Z.pow_add_r by lia. now replace (3 - k + k) with 3 by lia.
  - rewrite Z.mod_eq by lia. apply Z.divide_sub_r; [etransitivity; [|exact HS]; now exists 2|]. apply Z.divide_mul_l. exists (2 ^ (k - 2)). change 4 with (2 ^ 2). rewrite <- Z.pow_add_r by lia. now replace (k - 2 + 2) with k by lia.
Qed.

Lemma level_sizes : 1 <= BcImage.width level /\ 1 <= BcImage.height level.
Proof.
  unfold hybris_bc_image_extent. rewrite (proj2 (Z.leb_gt _ _)) by apply (BcCopy.r_mip _ _ R). cbn [BcImage.width BcImage.height]. destruct (s_extent _ (l_shape _ L)) as (E1 & E2 & _). unfold in_range in *.
  assert (forall n, 0 <= n -> 1 <= nonzero (Z.shiftr n (BcCopy.mip r))) as Hn by (intros n Hn; unfold nonzero; pose proof (proj2 (Z.shiftr_nonneg n (BcCopy.mip r)) Hn); destruct (Z.eqb_spec (Z.shiftr n (BcCopy.mip r)) 0); lia). split; apply Hn; lia.
Qed.

Lemma prepare_total q l b : BcDecode.hybris_bc_output_block_bytes q = Ok b -> exists e p, BcDecode.prepare_region q l = Ok (e, p).
Proof. intros E. unfold BcDecode.prepare_region. rewrite E. cbn [obind]. repeat match goal with |- context [if ?c then _ else _] => destruct c end; eauto. Qed.

Lemma decode_record_ok u q : BcDecode.hybris_bc_output_block_bytes q = Ok bout -> exists e u', decode_record pipelines limits u q = Ok (e, u') /\ same_work u u' /\ pools u' = pools u /\ (e = VK_SUCCESS -> exists p, BcDecode.prepare_region q limits = Ok (VK_SUCCESS, p)) /\
  ((exists p, BcDecode.prepare_region q limits = Ok (VK_SUCCESS, Some p)) -> (forall n, pipelines n = VK_SUCCESS) -> BcDecode.quality q <= 2 -> e = VK_SUCCESS).
Proof.
  intros E. destruct (prepare_total q limits bout E) as (e & p & Ep). unfold decode_record. rewrite Ep. cbn [obind]. destruct (Z.eqb_spec e VK_SUCCESS) as [->|He]; cbn [negb].
  - destruct (Z.ltb_spec 2 (BcDecode.quality q)); eexists _, _; (split; [reflexivity|]); (split; [now split_and!|]); (split; [reflexivity|]); (split; [eauto|]); intros _ Hp Hq; [lia|apply Hp].
  - eexists _, _. split; [reflexivity|]. split; [now split_and!|]. split; [reflexivity|]. split; [contradiction|]. intros (p' & Ep') _ _. congruence.
Qed.

(** The copy and the decoding of a piece. *)
Definition piece_region (layer x y w h : Z) : BcDecode.hybris_bc_region :=
  let so := source layer x y mod nonzero offset_alignment in
  region_of i (level_quality quality level) w h 1 (round4 (BcImage.width level)) so (so + ((blocks_of h - 1) * blocks_of (BcImage.width level) + blocks_of w) * block_bytes i) (blocks_of w * blocks_of h * bout).
Definition piece_base (layer x y : Z) : Z := source layer x y - source layer x y mod nonzero offset_alignment.

Lemma decode_piece_ok u em k c a layer x y w h : good u -> tracked m0 u em -> chunks u !! k = Some c -> used c <= a < size c -> 0 <= layer < BcCopy.region_layers i r -> 0 <= x -> 0 <= y -> (4 | x) -> (4 | y) -> 1 <= w <= W - x -> 1 <= h <= RH - y -> blocks_of w * blocks_of h <= (size c - a) / bout ->
  exists e len u', decode_piece sets pipelines limits offset_alignment quality i r bout layer x y w h u k a = Ok (e, w, len, u') /\
    (e = VK_SUCCESS -> (exists p, BcDecode.prepare_region (piece_region layer x y w h) limits = Ok (VK_SUCCESS, p)) /\ good u' /\ exists at_, tracked m0 u' (em ++ [(piece_copy i r layer x y w h at_, (piece_base layer x y, piece_region layer x y w h))])) /\ (favourable -> e = VK_SUCCESS).
Proof.
  intros G T Hk Ha Hl Hx Hy Dx Dy Hw Hh Hfit. destruct (piece_extent layer x y w h Hl Hx Hy Dx Dy Hw Hh) as (S0 & S8 & P1 & P2 & Hslice & Hend & Hbw & Hbh & Hsl). destruct region_sizes as (Wb & Hb & _). destruct (lo_alignment _ _ Lim) as (ka & Hka & Eal). pose proof (lo_range _ _ Lim) as Hmax. pose proof (l_fits _ L) as Hf. unfold UINT64_MAX in Hf. pose proof (s_bytes _ (l_shape _ L)) as Hbb.
  pose proof (Forall_lookup_1 _ _ _ _ (g_chunks _ G) Hk) as [Hcs Hcu]. pose proof (extent_ok i _ (l_shape _ L) (BcCopy.r_mip _ _ R)) as (B1 & B2 & _). cbv zeta in *. set (S := source layer x y) in *. set (wb := blocks_of (BcImage.width level)) in *. set (bw := blocks_of w) in *. set (bh := blocks_of h) in *. set (al := nonzero offset_alignment) in *.
  assert (1 <= al <= 256) as Hal by (rewrite Eal; split; [apply (Z.pow_le_mono_r 2 0 ka)|apply (Z.pow_le_mono_r 2 ka 8)]; lia). pose proof (Z.mod_pos_bound S al ltac:(lia)) as Hso. set (so := S mod al) in *.
  assert (bw * bh <= 2 ^ 22) as Hbound by (etransitivity; [exact Hfit|]; apply Z.div_le_upper_bound; [lia|]; unfold CHUNK_MAX in Hcs; lia). assert (bw <= bw * bh /\ bh <= bw * bh) as [Hb1 Hb2] by (split; [rewrite <- (Z.mul_1_r bw) at 1; apply Z.mul_le_mono_nonneg_l|rewrite <- (Z.mul_1_l bh) at 1; apply Z.mul_le_mono_nonneg_r]; lia). assert (0 <= (bh - 1) * wb) as Hrow0 by (apply Z.mul_nonneg_nonneg; lia).
  assert (bw * bh * bout <= size c - a) as Hlen by (pose proof (Z.mul_div_le (size c - a) bout ltac:(lia)); assert (bw * bh * bout <= (size c - a) / bout * bout) by (apply Z.mul_le_mono_nonneg_r; lia); lia). assert (0 < bw * bh * bout) as Hlen0 by (apply Z.mul_pos_pos; lia).
  unfold decode_piece. rewrite (piece_source layer x y Hl ltac:(lia) ltac:(lia)). cbn [obind]. fold S al so. replace (S - (S - so)) with so by ring. rewrite (proj2 (Z.leb_gt _ so)) by lia. assert (2 ^ 22 < (BcDecode.maxStorageBufferRange limits - so) / block_bytes i) as Hav by (apply Z.lt_le_trans with (8388592); [lia|]; apply Z.div_le_lower_bound; destruct Hbb as [E|E]; rewrite E; lia).
  rewrite (proj2 (Z.eqb_neq _ 0)) by lia. fold bw. rewrite (proj2 (Z.ltb_ge _ bw)) by lia. fold bw bh.
  assert (u64 (u64 (so + u64 ((bh - 1) * row_bytes i (BcCopy.mip r))) + u64 (bw * block_bytes i)) = so + ((bh - 1) * wb + bw) * block_bytes i) as Erange.
  { unfold row_bytes. fold wb. assert (so <= S) by (apply Z.mod_le; lia). assert ((bh - 1) * (wb * block_bytes i) = (bh - 1) * wb * block_bytes i) as E1 by ring. assert (0 <= (bh - 1) * wb * block_bytes i) by (apply Z.mul_nonneg_nonneg; lia). assert (0 <= wb * block_bytes i < 2 ^ 64 /\ 0 <= bw * block_bytes i < 2 ^ 64) as [E2 E3] by (destruct Hbb as [E|E]; rewrite E in *; lia).
    rewrite (wrap_small 64 (wb * block_bytes i)) by exact E2. rewrite E1. rewrite (wrap_small 64 ((bh - 1) * wb * block_bytes i)), (wrap_small 64 (bw * block_bytes i)) by (unfold in_range; lia). rewrite (wrap_small 64 (so + _)) by (unfold in_range; lia). rewrite wrap_small by (unfold in_range; lia). ring. }
  rewrite Erange. set (range := so + ((bh - 1) * wb + bw) * block_bytes i) in *. destruct (Z.ltb_spec (BcDecode.maxStorageBufferRange limits) range) as [Hr|Hr]; [eexists _, _, _; split; [reflexivity|]; split; [discriminate|]; intros (_ & _ & _ & _ & _ & _ & _ & Hs); unfold range in Hr; lia|].
  destruct (descriptors_ok sets m0 u em G T) as (e1 & u1 & -> & (C1 & _ & _ & _ & _) & G1 & T1 & D1). destruct (Z.eqb_spec e1 VK_SUCCESS) as [->|He1]; cbn [negb]; [|eexists _, _, _; split; [reflexivity|]; split; [contradiction|]; intros (Hs & _); exfalso; now apply He1, D1].
  rewrite (wrap_small 64 (bw * bh)) by (unfold in_range; lia). rewrite (wrap_small 64 (bw * bh * bout)) by (unfold in_range, CHUNK_MAX in *; lia). change (region_of i (level_quality quality level) w h 1 (round4 (BcImage.width level)) so range (bw * bh * bout)) with (piece_region layer x y w h). set (reg := piece_region layer x y w h).
  destruct (decode_record_ok u1 reg) as (e2 & u2 & E2 & S2 & Po2 & Acc2 & D2); [exact (eq_trans (eq_refl _) Hbout)|]. rewrite E2. cbn [obind]. destruct (same_work_ok m0 u1 u2 em S2 ltac:(rewrite Po2; apply G1) G1 T1) as [G2 T2]. destruct (Z.eqb_spec e2 VK_SUCCESS) as [->|He2]; cbn [negb].
  2: { eexists _, _, _. split; [reflexivity|]. split; [contradiction|]. intros (_ & Fp & _ & Fa & Fb & Fw & Fh & Fs). exfalso. apply He2, D2; [|exact Fp|]. 2: { unfold reg, piece_region. cbn [region_of BcDecode.quality]. unfold level_quality. destruct (Z.eqb_spec quality 3); cbn [negb]; [destruct (_ <=? _)|]; lia. }
    destruct level_sizes as [Q1 Q2]. pose proof (round4_eq (BcImage.width level) ltac:(lia)) as Er4. fold wb in Er4. set (hb := blocks_of (BcImage.height level)) in *. assert (wb <= 2 ^ 18 /\ hb <= 2 ^ 18) as [Q3 Q4] by (unfold wb, hb; rewrite !blocks_eq by lia; split; apply Z.lt_succ_r, Z.div_lt_upper_bound; lia).
    assert (w <= 4 * bw /\ h <= 4 * bh) as [Q5 Q6] by (unfold bw, bh; rewrite !blocks_eq by lia; split; [pose proof (Z.div_mod (w + 3) 4 ltac:(lia)); pose proof (Z.mod_pos_bound (w + 3) 4 ltac:(lia))|pose proof (Z.div_mod (h + 3) 4 ltac:(lia)); pose proof (Z.mod_pos_bound (h + 3) 4 ltac:(lia))]; lia). assert (4 * wb / 4 = wb) as Q7 by (rewrite Z.mul_comm; apply Z.div_mul; lia).
    assert (wb * bh <= wb * hb) as Q8 by (apply Z.mul_le_mono_nonneg_l; lia). assert (wb * hb <= wb * hb * block_bytes i) as Q9 by (rewrite <- (Z.mul_1_r (wb * hb)) at 1; apply Z.mul_le_mono_nonneg_l; [apply Z.mul_nonneg_nonneg|]; lia).
    unfold reg, piece_region. fold S al so bw bh wb range. rewrite Er4. apply (prepare_accepts i limits offset_alignment) with bout; auto; rewrite ?Q7, <- ?Fb; unfold CHUNK_MAX in *; fold bw bh; try lia; [exists wb; lia|]. unfold so. rewrite Eal. now apply aligned_rest. }
  destruct S2 as (C2 & _). assert (chunks u2 !! k = Some c) as Hk2 by now rewrite C2, C1. rewrite Hk2. rewrite (wrap_small 64 (a + bw * bh * bout)) by (unfold in_range, CHUNK_MAX in *; lia). set (cp := piece_copy i r layer x y w h a). set (len := bw * bh * bout) in *.
  assert (w <= 4 * bw /\ h <= 4 * bh) as [Q5 Q6] by (unfold bw, bh; rewrite !blocks_eq by lia; split; [pose proof (Z.div_mod (w + 3) 4 ltac:(lia)); pose proof (Z.mod_pos_bound (w + 3) 4 ltac:(lia))|pose proof (Z.div_mod (h + 3) 4 ltac:(lia)); pose proof (Z.mod_pos_bound (h + 3) 4 ltac:(lia))]; lia).
  assert (fits (Written (buffer c, a, len) (S - so) reg false) cp = true) as Hfits by (unfold fits; cbn [w_region reg piece_region region_of BcDecode.width BcDecode.height cp piece_copy i_w i_h i_row i_height]; rewrite !round4_eq, !Z.eqb_refl by lia; reflexivity).
  pose proof (dispatched_tracks m0 u2 em k c a len (S - so) reg cp G2 T2 Hk2 ltac:(lia) Hlen0 eq_refl Hfits) as Td. destruct (alter_buffers (chunks u2) k (a + len)) as [A1 A2]. destruct G2 as [GC GD GH GP GQ].
  destruct (enqueue_ok m0 (fill (record u2 [Dispatch (buffer c) a len (S - so) reg]) k (a + len)) (em ++ [(cp, (S - so, reg))]) (buffer c) cp) as (u3 & E3 & G3 & T3); cbn [fill set_chunks record chunks position held_bytes pools queue log clock]; auto; [|now rewrite A1|now rewrite A2|].
  - apply Forall_alter; [assumption|]. intros z Hz [Hsz _]. rewrite Hk2 in Hz. injection Hz as <-. cbn. lia.
  - rewrite E3. cbn [obind]. eexists _, _, _. split; [reflexivity|]. split; [|auto]. intros _. split; [now apply Acc2|]. split; [assumption|]. exists a. exact T3.
Qed.

(** *** Tiles *)

(** A piece: layer, place and size. *)
Record tile := Tile { t_layer : Z; t_x : Z; t_y : Z; t_w : Z; t_h : Z }.
Definition holds (t : tile) (k u v : Z) : bool := (t_layer t =? k) && (t_x t <=? u) && (u <? t_x t + t_w t) && (t_y t <=? v) && (v <? t_y t + t_h t).
(** How many pieces hold texel ([u], [v]) of layer [k]. *)
Fixpoint hits (ts : list tile) (k u v : Z) : Z := match ts with [] => 0 | t :: ts => (if holds t k u v then 1 else 0) + hits ts k u v end.
(** What is placed for a piece. *)
Definition entry (t : tile) (x : image_copy * (Z * BcDecode.hybris_bc_region)) : Prop :=
  0 <= t_layer t < BcCopy.region_layers i r /\ 0 <= t_x t /\ 0 <= t_y t /\ (4 | t_x t) /\ (4 | t_y t) /\ 1 <= t_w t <= W - t_x t /\ 1 <= t_h t <= RH - t_y t /\
  (exists p, BcDecode.prepare_region (piece_region (t_layer t) (t_x t) (t_y t) (t_w t) (t_h t)) limits = Ok (VK_SUCCESS, p)) /\ exists a, x = (piece_copy i r (t_layer t) (t_x t) (t_y t) (t_w t) (t_h t) a, (piece_base (t_layer t) (t_x t) (t_y t), piece_region (t_layer t) (t_x t) (t_y t) (t_w t) (t_h t))).

(** The texels of a layer from [x] to the right in a band of rows. *)
Definition in_band (layer x y h k u v : Z) : bool := (layer =? k) && (x <=? u) && (u <? W) && (y <=? v) && (v <? y + h).

(** The commands grew by the pieces of [ts]. *)
Definition grew (u' : upload) (em : list (image_copy * (Z * BcDecode.hybris_bc_region))) (ts : list tile) : Prop := good u' /\ exists es, tracked m0 u' (em ++ es) /\ Forall2 entry ts es.

Lemma grew_app u' em e ts t : Forall2 entry [t] [e] -> grew u' (em ++ [e]) ts -> grew u' em (t :: ts).
Proof. intros He (G & es' & T & F). split; [assumption|]. exists (e :: es'). split; [now rewrite <- app_assoc in T|]. inversion He; subst. now constructor. Qed.

Lemma hits_band layer x y w h ts k u v : 0 < w -> x + w <= W -> hits ts k u v = (if in_band layer (x + w) y h k u v then 1 else 0) -> hits (Tile layer x y w h :: ts) k u v = (if in_band layer x y h k u v then 1 else 0).
Proof.
  intros Hw HW Hts. cbn [hits]. rewrite Hts. unfold holds, in_band. cbn [t_layer t_x t_y t_w t_h]. destruct (layer =? k); cbn [andb]; [|lia]. destruct (Z.leb_spec x u), (Z.ltb_spec u (x + w)), (Z.leb_spec (x + w) u), (Z.ltb_spec u W), (Z.leb_spec y v), (Z.ltb_spec v (y + h)); cbn [andb]; lia.
Qed.

(** The state of a band: no piece yet, or its height, which is one row of blocks when the row is not finished. *)
Definition band_ok (x y band height : Z) : Prop :=
  (band = 0 /\ x < W) \/ (band <> 0 /\ height = band /\ 1 <= band <= RH - y /\ ((4 | band) \/ y + band = RH) /\ (x < W -> band <= 4)).

Lemma room_fill cs k c : Forall (fun c => CHUNK_MIN <= size c <= CHUNK_MAX /\ 0 <= used c <= size c) cs -> cs !! k = Some c -> room (drop k (alter (fun c => with_used c (size c)) k cs)) = room (drop k cs) - (size c - used c).
Proof.
  intros _. revert k. induction cs as [|x cs IH]; intros [|k] Hk; cbn in Hk; try discriminate.
  - injection Hk as ->. cbn. lia.
  - exact (IH k Hk).
Qed.

Lemma fill_size u k c : chunks u !! k = Some c -> fill u k (size c) = set_chunks u (alter (fun c => with_used c (size c)) k (chunks u)) (position u) (held_bytes u).
Proof. intros Hk. unfold fill. f_equal. apply list_alter_ext; [|reflexivity]. intros x Hx. rewrite Hk in Hx. now injection Hx as <-. Qed.

Lemma columns_ok layer y : 0 <= layer < BcCopy.region_layers i r -> 0 <= y < RH -> (4 | y) -> forall n rm x band height wanted u em, W - x <= Z.of_nat n -> room (drop (position u) (chunks u)) <= Z.of_nat rm -> good u -> tracked m0 u em -> 0 <= x -> (x < W -> (4 | x)) -> x <= W -> band_ok x y band height ->
  exists N e h wanted' u', (forall fuel, (N <= fuel)%nat -> columns give sets pipelines limits offset_alignment quality fuel i r bout layer y x band height wanted u = Ok (e, h, wanted', u')) /\
    (e = VK_SUCCESS -> 1 <= h <= RH - y /\ ((4 | h) \/ y + h = RH) /\ (band <> 0 -> h = band) /\ exists ts, grew u' em ts /\ forall k a b, hits ts k a b = if in_band layer x y h k a b then 1 else 0) /\ (favourable -> e = VK_SUCCESS).
Proof.
  intros Hl Hy Dy. induction n as [n IHn] using lt_wf_ind. induction rm as [rm IHr] using lt_wf_ind. intros x band height wanted u em Hn Hrm G T Hx Dx HxW Hband. destruct (Z.leb_spec W x) as [Hend|Hlt].
  - destruct Hband as [[_ Hb]|(Hb0 & -> & Hb1 & Hb2 & _)]; [lia|]. exists 0%nat, VK_SUCCESS, band, wanted, u. split; [intros [|fuel] _; cbn [columns]; now rewrite (proj2 (Z.leb_le W x)) by lia|]. split; [|auto]. intros _. split; [lia|]. split; [assumption|]. split; [auto|]. exists []. split; [split; [assumption|]; exists []; rewrite app_nil_r; split; [assumption|constructor]|].
    intros k a b. cbn [hits]. unfold in_band. destruct (layer =? k), (Z.leb_spec x a), (Z.ltb_spec a W); cbn [andb]; try reflexivity; lia.
  - destruct region_sizes as (Wb & Hb & _). set (al := if 256 <? nonzero offset_alignment then nonzero offset_alignment else 256). assert (0 < al <= 2 ^ 32) as Hal by (destruct (lo_alignment _ _ Lim) as (ka & Hka & Eal); assert (2 ^ ka <= 2 ^ 8) by (apply Z.pow_le_mono_r; lia); unfold al; destruct (Z.ltb_spec 256 (nonzero offset_alignment)); lia).
    assert (band = 0 \/ (1 <= band <= 4 /\ band <= RH - y /\ ((4 | band) \/ y + band = RH))) as Hband' by (destruct Hband as [[-> _]|(_ & _ & B1 & B2 & B3)]; [auto|right; specialize (B3 Hlt); split_and!; auto; lia]).
    destruct (slot_ok give m0 u wanted al em Hal G T) as (e & k & a & u1 & Es & Hs & He). destruct (Z.eqb_spec e VK_SUCCESS) as [->|Hne].
    2: { exists 1%nat, e, height, wanted, u1. split; [|split; [contradiction|intros (_ & _ & Hg & _); exfalso; destruct (He Hne) as (n0 & cs & w & Eg); now apply (Hg n0 cs w e)]]. intros [|fuel] Hf; [lia|]. cbn [columns]. rewrite (proj2 (Z.leb_gt W x)) by lia. fold al. rewrite Es. cbn [obind]. now rewrite (proj2 (Z.eqb_neq _ _) Hne). }
    destruct (Hs eq_refl) as (G1 & T1 & Ep & _ & c & Hk & Hu & Hroom). pose proof (Forall_lookup_1 _ _ _ _ (g_chunks _ G1) Hk) as [Hcs Hcu]. unfold CHUNK_MIN, CHUNK_MAX in Hcs.
    set (next := if (size c - a) / bout =? 0 then None else piece_size W RH x y band ((size c - a) / bout) (negb (used c =? 0))). assert (forall fuel, columns give sets pipelines limits offset_alignment quality (S fuel) i r bout layer y x band height wanted u = match next with
      | None => columns give sets pipelines limits offset_alignment quality fuel i r bout layer y x band height wanted (fill u1 k (size c))
      | Some (w, h) => let! (e, w, len, u) := decode_piece sets pipelines limits offset_alignment quality i r bout layer x y w h u1 k a in
          if negb (e =? VK_SUCCESS) then Ok (e, h, wanted, u) else columns give sets pipelines limits offset_alignment quality fuel i r bout layer y (u32 (x + w)) h h (if len <? wanted then wanted - len else 0) u end) as Estep.
    { intros fuel. cbn [columns]. rewrite (proj2 (Z.leb_gt W x)) by lia. fold al. rewrite Es. cbn [obind negb]. rewrite Z.eqb_refl. cbn [negb]. rewrite Hk, (wrap_small 64 (size c - a)) by (unfold in_range; lia). reflexivity. }
    assert (0 <= (size c - a) / bout <= 2 ^ 22) as Hav by (split; [apply Z.div_pos; lia|apply Z.div_le_upper_bound; lia]). assert (used c = 0 /\ a = 0 -> 1 <= (size c - a) / bout) as Hfresh by (intros [_ ->]; apply Z.div_le_lower_bound; lia).
    destruct next as [[w h]|] eqn:En.
    + unfold next in En. destruct (Z.eqb_spec ((size c - a) / bout) 0) as [E0|E0]; [discriminate|]. pose proof (piece_size_ok W RH x y band ((size c - a) / bout) (negb (used c =? 0)) ltac:(lia) ltac:(lia) ltac:(lia) ltac:(lia) ltac:(lia) Hband') as Hp. rewrite En in Hp. destruct Hp as (Hw & Hh & Hfit & Hnar & Hh4 & Hbh).
      destruct (decode_piece_ok u1 em k c a layer x y w h G1 T1 Hk Hu Hl Hx ltac:(lia) (Dx Hlt) Dy Hw Hh Hfit) as (e & len & u2 & Ed & Hd & Hfav). destruct (Z.eqb_spec e VK_SUCCESS) as [->|Hne].
      2: { exists 1%nat, e, h, wanted, u2. split; [|split; [contradiction|intros Hf; now apply Hfav in Hf]]. intros [|fuel] Hf; [lia|]. rewrite Estep, Ed. cbn [obind]. now rewrite (proj2 (Z.eqb_neq _ _) Hne). }
      destruct (Hd eq_refl) as (Hacc & G2 & at_ & T2). destruct (IHn (Z.to_nat (W - (x + w))) ltac:(lia) (Z.to_nat (room (drop (position u2) (chunks u2)))) (x + w) h h (if len <? wanted then wanted - len else 0) u2 _ ltac:(lia) ltac:(pose proof (room_nonneg (drop (position u2) (chunks u2)) (Forall_drop _ _ _ (g_chunks _ G2))); lia) G2 T2 ltac:(lia)) as (N & e & h' & wanted' & u' & E & Hok & Hfav').
      * intros Hlt'. destruct (Hnar ltac:(lia)) as [Dw _]. apply Z.divide_add_r; auto.
      * lia.
      * right. split_and!; auto; try lia.
      * exists (S N), e, h', wanted', u'. split; [|split; [|assumption]].
        { intros [|fuel] Hf; [lia|]. rewrite Estep, Ed. cbn [obind]. rewrite Z.eqb_refl. cbn [negb]. rewrite wrap_small by (unfold in_range; lia). apply E. lia. }
        intros Hsucc. destruct (Hok Hsucc) as (H1 & H2 & H3 & ts & Hts & Hhits). assert (h <> 0) as Hh0 by (clear - Hh; lia). specialize (H3 Hh0). subst h'. split; [exact H1|]. split; [exact H2|]. split; [exact Hbh|]. exists (Tile layer x y w h :: ts). split; [|intros; apply hits_band; auto; lia].
        refine (grew_app _ _ _ _ _ _ Hts). constructor; [|constructor]. unfold entry. cbn [t_layer t_x t_y t_w t_h]. split; [exact Hl|]. split; [exact Hx|]. split; [exact (proj1 Hy)|]. split; [exact (Dx Hlt)|]. split; [exact Dy|]. split; [exact Hw|]. split; [exact Hh|]. split; [exact Hacc|]. now exists at_.
    + assert (chunks u1 = chunks u /\ room (drop k (chunks u1)) <= room (drop (position u) (chunks u))) as [Ec Hrr]. { destruct Hroom as [Hz|Hz]; [|exact Hz]. exfalso. specialize (Hfresh Hz). unfold next in En. rewrite (proj2 (Z.eqb_neq _ 0)) in En by lia. destruct Hz as [Hz _]. rewrite Hz in En. cbn [Z.eqb negb] in En. revert En. apply piece_size_fresh; auto; lia. }
      destruct (fill_ok m0 u1 em k c (size c) G1 T1 Hk ltac:(lia)) as [G2 T2]. assert (room (drop (position (fill u1 k (size c))) (chunks (fill u1 k (size c)))) = room (drop k (chunks u1)) - (size c - used c)) as Er by (rewrite (fill_size _ _ _ Hk); cbn [set_chunks position chunks]; rewrite Ep; apply room_fill; [apply G1|assumption]). pose proof (room_nonneg _ (Forall_drop _ (position (fill u1 k (size c))) _ (g_chunks _ G2))) as Hr0. rewrite Er in Hr0.
      destruct (IHr (Z.to_nat (room (drop k (chunks u1)) - (size c - used c))) ltac:(lia) x band height wanted (fill u1 k (size c)) em Hn ltac:(rewrite Er; lia) G2 T2 Hx Dx HxW Hband) as (N & e & h & wanted' & u' & E & Hok & Hfav). exists (S N), e, h, wanted', u'. split; [|auto]. intros [|fuel] Hf; [lia|]. rewrite Estep. apply E. lia.
Qed.

Lemma hits_app ts ts' k u v : hits (ts ++ ts') k u v = hits ts k u v + hits ts' k u v.
Proof. induction ts as [|t ts IH]; cbn [app hits]; lia. Qed.

Lemma bands_ok layer : 0 <= layer < BcCopy.region_layers i r -> forall n y wanted u em, RH - y <= Z.of_nat n -> good u -> tracked m0 u em -> 0 <= y <= RH -> (y < RH -> (4 | y)) ->
  exists N e u', (forall fuel cf, (N <= fuel)%nat -> (N <= cf)%nat -> bands give sets pipelines limits offset_alignment quality fuel cf i r bout layer y wanted u = Ok (e, u')) /\
    (e = VK_SUCCESS -> exists ts, grew u' em ts /\ forall k a b, hits ts k a b = if in_band layer 0 y (RH - y) k a b then 1 else 0) /\ (favourable -> e = VK_SUCCESS).
Proof.
  intros Hl. induction n as [n IH] using lt_wf_ind. intros y wanted u em Hn G T Hy Dy. destruct region_sizes as (Wb & Hb & _). destruct (Z.leb_spec RH y) as [Hend|Hlt].
  - exists 0%nat, VK_SUCCESS, u. split; [intros [|fuel] cf _ _; cbn [bands]; now rewrite (proj2 (Z.leb_le RH y)) by lia|]. split; [|auto]. intros _. exists []. split; [split; [assumption|]; exists []; rewrite app_nil_r; split; [assumption|constructor]|]. intros k a b. cbn [hits]. unfold in_band. destruct (layer =? k), (Z.leb_spec 0 a), (Z.ltb_spec a W), (Z.leb_spec y b), (Z.ltb_spec b (y + (RH - y))); cbn [andb]; try reflexivity; lia.
  - assert (band_ok 0 y 0 (RH - y)) as Hbo by (left; split; [reflexivity|clear - Wb; lia]). destruct (columns_ok layer y Hl ltac:(lia) (Dy Hlt) (Z.to_nat W) (Z.to_nat (room (drop (position u) (chunks u)))) 0 0 (RH - y) wanted u em ltac:(lia) ltac:(pose proof (room_nonneg (drop (position u) (chunks u)) (Forall_drop _ _ _ (g_chunks _ G))); lia) G T ltac:(lia) (fun _ => Z.divide_0_r 4) ltac:(lia) Hbo) as (N & e & h & wanted' & u1 & E & Hok & Hfav).
    destruct (Z.eqb_spec e VK_SUCCESS) as [->|Hne].
    2: { exists (S N), e, u1. split; [|split; [contradiction|assumption]]. intros [|fuel] cf Hf1 Hf2; [lia|]. cbn [bands]. rewrite (proj2 (Z.leb_gt RH y)) by lia. rewrite E by lia. cbn [obind]. now rewrite (proj2 (Z.eqb_neq _ _) Hne). }
    destruct (Hok eq_refl) as (H1 & H2 & _ & ts & Hts & Hhits). destruct Hts as (G1 & es & T1 & F1). destruct (IH (Z.to_nat (RH - (y + h))) ltac:(lia) (y + h) wanted' u1 _ ltac:(lia) G1 T1 ltac:(lia)) as (N2 & e2 & u2 & E2 & Hok2 & Hfav2); [intros Hlt'; destruct H2 as [H2|H2]; [apply Z.divide_add_r; auto|lia]|].
    exists (S (Nat.max N N2)), e2, u2. split; [|split; [|assumption]].
    + intros [|fuel] cf Hf1 Hf2; [lia|]. cbn [bands]. rewrite (proj2 (Z.leb_gt RH y)) by lia. rewrite E by lia. cbn [obind]. rewrite Z.eqb_refl. cbn [negb]. rewrite wrap_small by (unfold in_range; lia). apply E2; lia.
    + intros Hs. destruct (Hok2 Hs) as (ts2 & (G2 & es2 & T2 & F2) & Hh2). exists (ts ++ ts2). split; [split; [assumption|]; exists (es ++ es2); split; [now rewrite app_assoc|now apply Forall2_app]|]. intros k a b. rewrite hits_app, Hhits, Hh2. unfold in_band. destruct (layer =? k), (Z.leb_spec 0 a), (Z.ltb_spec a W), (Z.leb_spec y b), (Z.ltb_spec b (y + h)), (Z.leb_spec (y + h) b), (Z.ltb_spec b (y + h + (RH - (y + h)))), (Z.ltb_spec b (y + (RH - y))); cbn [andb]; lia.
Qed.

Lemma decode_layers_ok : forall l u em, NoDup l -> (forall k, k ∈ l -> 0 <= k < BcCopy.region_layers i r) -> good u -> tracked m0 u em ->
  exists N e u', (forall fuel, (N <= fuel)%nat -> decode_layers give sets pipelines limits offset_alignment quality fuel i r bout l u = Ok (e, u')) /\
    (e = VK_SUCCESS -> exists ts, grew u' em ts /\ forall k a b, hits ts k a b = if bool_decide (k ∈ l) && in_band k 0 0 RH k a b then 1 else 0) /\ (favourable -> e = VK_SUCCESS).
Proof.
  destruct region_sizes as (Wb & Hb & _). induction l as [|layer l IH]; intros u em Hnd Hl G T.
  - exists 0%nat, VK_SUCCESS, u. split; [reflexivity|]. split; [|auto]. intros _. exists []. split; [split; [assumption|]; exists []; rewrite app_nil_r; split; [assumption|constructor]|]. reflexivity.
  - apply NoDup_cons in Hnd as [Hni Hnd]. set (wanted := u64 (u64 (blocks_of W * blocks_of RH) * bout)). destruct (bands_ok layer (Hl layer ltac:(left)) (Z.to_nat RH) 0 wanted u em ltac:(lia) G T ltac:(lia) (fun _ => Z.divide_0_r 4)) as (N & e & u1 & E & Hok & Hfav). destruct (Z.eqb_spec e VK_SUCCESS) as [->|Hne].
    2: { exists N, e, u1. split; [|split; [contradiction|assumption]]. intros fuel Hf. cbn [decode_layers]. fold wanted. rewrite E by lia. cbn [obind]. now rewrite (proj2 (Z.eqb_neq _ _) Hne). }
    destruct (Hok eq_refl) as (ts & (G1 & es & T1 & F1) & Hhits). destruct (IH u1 _ Hnd ltac:(intros k Hk; apply Hl; now right) G1 T1) as (N2 & e2 & u2 & E2 & Hok2 & Hfav2). exists (Nat.max N N2), e2, u2. split; [|split; [|assumption]].
    + intros fuel Hf. cbn [decode_layers]. fold wanted. rewrite E by lia. cbn [obind]. rewrite Z.eqb_refl. cbn [negb]. apply E2; lia.
    + intros Hs. destruct (Hok2 Hs) as (ts2 & (G2 & es2 & T2 & F2) & Hh2). exists (ts ++ ts2). split; [split; [assumption|]; exists (es ++ es2); split; [now rewrite app_assoc|now apply Forall2_app]|]. intros k a b. rewrite hits_app, Hhits, Hh2, Z.sub_0_r. unfold in_band at 1. destruct (Z.eqb_spec layer k) as [<-|Hne].
      * rewrite (bool_decide_eq_false_2 (layer ∈ l)), (bool_decide_eq_true_2 (layer ∈ layer :: l)) by (assumption || left). cbn [andb]. unfold in_band. rewrite Z.eqb_refl. cbn [andb]. lia.
      * cbn [andb]. rewrite (bool_decide_ext (k ∈ layer :: l) (k ∈ l)); [lia|]. rewrite elem_of_cons. split; [intros [->|]; [contradiction|assumption]|auto].
Qed.

(** *** The texels of the image *)

(** Where slice [k] of the region is in the image. *)
Definition texel_layer (k : Z) : Z := if volume i then BcCopy.baseLayer r else BcCopy.baseLayer r + k.
Definition texel_z (k : Z) : Z := if volume i then BcCopy.off_z r + k else 0.
(** A copy writes a texel. *)
Definition shows (c : image_copy) (layer z x y : Z) : bool := (i_layer c =? layer) && (i_z c =? z) && (i_x c <=? x) && (x <? i_x c + i_w c) && (i_y c <=? y) && (y <? i_y c + i_h c).
Definition writers (es : list (image_copy * (Z * BcDecode.hybris_bc_region))) (k a b : Z) : list (image_copy * (Z * BcDecode.hybris_bc_region)) :=
  List.filter (fun e => shows (fst e) (texel_layer k) (texel_z k) (BcCopy.off_x r + a) (BcCopy.off_y r + b)) es.

Context (Hlayers : volume i = false -> BcCopy.baseLayer r + BcCopy.region_layers i r <= layers i) (Hwide : BcImage.width (extent i) < 2 ^ 31).

Lemma entry_shows t e k a b : entry t e -> 0 <= k < BcCopy.region_layers i r -> shows (fst e) (texel_layer k) (texel_z k) (BcCopy.off_x r + a) (BcCopy.off_y r + b) = holds t k a b.
Proof.
  intros (Hl & _ & _ & _ & _ & _ & _ & _ & at_ & ->) Hk. cbn [fst]. unfold shows, holds, piece_copy, texel_layer, texel_z. cbn [i_layer i_x i_y i_z i_w i_h]. destruct (BcCopy.r_z _ _ R) as (_ & Z2 & _). pose proof (s_layers _ (l_shape _ L)) as Hla.
  assert ((if volume i then BcCopy.baseLayer r else u32 (BcCopy.baseLayer r + t_layer t)) = if volume i then BcCopy.baseLayer r else BcCopy.baseLayer r + t_layer t) as -> by (destruct (volume i) eqn:Ev; [reflexivity|]; specialize (Hlayers eq_refl); apply wrap_small; unfold in_range; lia).
  assert ((t_layer t =? k) = ((if volume i then BcCopy.baseLayer r else BcCopy.baseLayer r + t_layer t) =? (if volume i then BcCopy.baseLayer r else BcCopy.baseLayer r + k)) && ((if volume i then BcCopy.off_z r + t_layer t else 0) =? (if volume i then BcCopy.off_z r + k else 0))) as -> by (destruct (volume i); rewrite Z.eqb_refl, ?andb_true_l, ?andb_true_r; match goal with |- (?x =? ?y) = (?z =? ?w) => destruct (Z.eqb_spec x y), (Z.eqb_spec z w); lia end).
  f_equal; [f_equal; [f_equal; [f_equal|]|]|]; match goal with |- (?x <=? ?y) = (?z <=? ?w) => destruct (Z.leb_spec x y), (Z.leb_spec z w); lia | |- (?x <? ?y) = (?z <? ?w) => destruct (Z.ltb_spec x y), (Z.ltb_spec z w); lia end.
Qed.

Lemma writers_hits ts es k a b : Forall2 entry ts es -> 0 <= k < BcCopy.region_layers i r -> Z.of_nat (length (writers es k a b)) = hits ts k a b.
Proof.
  intros F Hk. induction F as [|t e ts es He _ IH]; [reflexivity|]. unfold writers in *. cbn [List.filter hits]. rewrite (entry_shows t e k a b He Hk). destruct (holds t k a b); cbn [length]; lia.
Qed.

Lemma prepare_some q l p : BcDecode.prepare_region q l = Ok (VK_SUCCESS, p) -> exists p', p = Some p'.
Proof. unfold BcDecode.prepare_region. destruct (BcDecode.hybris_bc_output_block_bytes q); cbn [obind]; repeat match goal with |- context [if ?c then _ else _] => destruct c end; intros [= <-]; eauto. Qed.

(** The block of a texel, from the copy and the decoding that write it. *)
Definition decoded_from (k a b : Z) (e : image_copy * (Z * BcDecode.hybris_bc_region)) : Prop :=
  let '(c, (base, reg)) := e in
  block_address i (BcCopy.mip r) (BcCopy.first_slice i r + k) (BcCopy.off_y r / 4 + b / 4) (BcCopy.off_x r / 4 + a / 4) =
    Ok (base + BcDecode.source_offset reg + ((BcCopy.off_y r + b - i_y c) / 4 * (BcDecode.row_length reg / 4) + (BcCopy.off_x r + a - i_x c) / 4) * block_bytes i) /\
  0 <= base /\ base + BcDecode.source_range reg <= block_size i /\ exists p, BcDecode.prepare_region reg limits = Ok (VK_SUCCESS, Some p).

Lemma div4 a x : (4 | x) -> (a - x) / 4 = a / 4 - x / 4.
Proof. intros [q ->]. rewrite Z.div_mul by lia. replace (a - q * 4) with (a + - q * 4) by ring. rewrite Z.div_add by lia. lia. Qed.

Lemma level_width : BcImage.width level < 2 ^ 31.
Proof.
  unfold hybris_bc_image_extent. rewrite (proj2 (Z.leb_gt _ _)) by apply (BcCopy.r_mip _ _ R). cbn [BcImage.width]. destruct (s_extent _ (l_shape _ L)) as (E1 & _). unfold in_range in *. pose proof (BcCopy.r_mip _ _ R) as Hm. unfold nonzero. rewrite Z.shiftr_div_pow2 by lia. assert (BcImage.width (extent i) / 2 ^ BcCopy.mip r <= BcImage.width (extent i)) by (apply Z.div_le_upper_bound; [lia|]; nia). destruct (_ =? 0); lia.
Qed.

Lemma entry_decoded t e k a b : entry t e -> 0 <= k < BcCopy.region_layers i r -> 0 <= a < W -> 0 <= b < RH -> holds t k a b = true -> decoded_from k a b e.
Proof.
  intros (Hl & Hx & Hy & Dx & Dy & Hw & Hh & (p & Hp) & at_ & ->) Hk Ha Hb Ht. unfold decoded_from. destruct (piece_extent _ _ _ _ _ Hl Hx Hy Dx Dy Hw Hh) as (S0 & _ & _ & _ & _ & Hend & _). unfold holds in Ht. rewrite !andb_true_iff, !Z.leb_le, !Z.ltb_lt, Z.eqb_eq in Ht. destruct Ht as ((((Ek & T1) & T2) & T3) & T4). subst k.
  destruct (lo_alignment _ _ Lim) as (ka & Hka & Eal). assert (0 < nonzero offset_alignment) as Hal by (rewrite Eal; lia). split; [|split; [|split]].
  - rewrite (block_place i _ _ _ _ L (texel_block (t_layer t) a b Hk Ha Hb)). f_equal. unfold piece_base, piece_region. cbn [region_of BcDecode.source_offset BcDecode.row_length piece_copy i_x i_y]. rewrite round4_eq by (pose proof level_sizes; pose proof level_width; lia). rewrite (Z.mul_comm 4 (blocks_of _)), Z.div_mul by lia.
    replace (BcCopy.off_y r + b - (BcCopy.off_y r + t_y t)) with (b - t_y t) by ring. replace (BcCopy.off_x r + a - (BcCopy.off_x r + t_x t)) with (a - t_x t) by ring. rewrite !div4 by assumption. unfold source, index. ring.
  - unfold piece_base. pose proof (Z.mod_le (source (t_layer t) (t_x t) (t_y t)) (nonzero offset_alignment) S0 Hal). lia.
  - unfold piece_base, piece_region. cbn [region_of BcDecode.source_range]. lia.
  - destruct (prepare_some _ _ _ Hp) as [p' ->]. eauto.
Qed.

Lemma one_writer ts es k a b : Forall2 entry ts es -> 0 <= k < BcCopy.region_layers i r -> 0 <= a < W -> 0 <= b < RH -> hits ts k a b = 1 -> exists e, writers es k a b = [e] /\ decoded_from k a b e.
Proof.
  intros F Hk Ha Hb H1. rewrite <- (writers_hits ts es k a b F Hk) in H1. destruct (writers es k a b) as [|e [|]] eqn:Ew; cbn [length] in H1; try lia. exists e. split; [reflexivity|]. assert (In e (writers es k a b)) as Hin by (rewrite Ew; left; reflexivity). unfold writers in Hin. apply filter_In in Hin as [Hin Hs]. apply list_elem_of_In, list_elem_of_lookup_1 in Hin as [j Hj]. destruct (Forall2_lookup_r _ _ _ _ _ F Hj) as (t & _ & Ht). rewrite (entry_shows t e k a b Ht Hk) in Hs. exact (entry_decoded t e k a b Ht Hk Ha Hb Hs).
Qed.
End region.

Lemma output_total i : exists b, BcDecode.hybris_bc_output_block_bytes (representation i) = Ok b.
Proof.
  unfold BcDecode.hybris_bc_output_block_bytes. destruct (Z.ltb_spec (BcDecode.variant (representation i)) 0) as [Hv|Hv]; [eauto|]. assert (BcDecode.variant (representation i) < 17) as Hv2.
  { unfold BcDecode.variant. assert (BcDecode.family (BcDecode.format (representation i)) <= 6) as Hf. { unfold BcDecode.family, BcDecode.VK_FORMAT_BC1_RGB_UNORM_BLOCK, BcDecode.VK_FORMAT_BC7_SRGB_BLOCK. set (f := BcDecode.format _). destruct (Z.ltb_spec f 131); [cbn; lia|]. destruct (Z.ltb_spec 146 f); [cbn; lia|]. cbn [orb]. destruct (f - 131 <? 4); [lia|]. assert ((f - 131) / 2 < 8) by (apply Z.div_lt_upper_bound; lia). lia. }
    repeat match goal with |- (if ?c then _ else _) < 17 => destruct c end; lia. }
  destruct (BcDecode.words_written _ (conj Hv Hv2)) as (b & Eb & _). rewrite Eb. eauto.
Qed.

(** Between decodings all decoded pieces are visible. *)
Definition settled (m : device) : Prop := NoDup (key <$> pieces m) /\ (forall w, w ∈ pieces m -> 0 < length_of w /\ seen w = true).

(** *** [chunk_get] keeps its promise *)

(** What [chunk_get] gives when, at each time, other threads have left these idle chunks and counters and the driver answers so. *)
Definition from_chunk_get (range : Z) (types : list Z) (env : nat -> list hybris_bc_scratch -> list hybris_bc_scratch * counters * chunk_answers) (n : nat) (cs : list hybris_bc_scratch) (want : Z) : given :=
  let '(l, g, a) := env n cs in
  match chunk_get range 64 want (negb (Nat.eqb (length cs) 0)) types a l g with
  | Ok (_, Some c, _, _, _) => Got c
  | Ok (e, None, _, _, _) => if e =? VK_SUCCESS then Nothing else Error e
  | _ => Error VK_ERROR_OUT_OF_HOST_MEMORY
  end.

(** Idle chunks are as [scratch_accounted] has them; a new buffer is not one that the transfer has. *)
Definition env_ok (env : nat -> list hybris_bc_scratch -> list hybris_bc_scratch * counters * chunk_answers) : Prop := forall n cs, let '(l, g, a) := env n cs in
  Forall (fun c => CHUNK_MIN <= size c <= CHUNK_MAX /\ used c = 0 /\ buffer c ∉ buffer <$> cs) l /\ (handle (c_buffer a) ∉ buffer <$> cs).

Lemma created_chunk types n a e c ev : create_chunk types n a = (e, c, ev) -> match c with Some k => e = VK_SUCCESS /\ size k = n /\ used k = 0 /\ buffer k = handle (c_buffer a) | None => e <> VK_SUCCESS end.
Proof.
  unfold create_chunk. destruct (host a); cbn [negb]; [|intros [= <- <- <-]; discriminate]. destruct (Z.eqb_spec (code (c_buffer a)) VK_SUCCESS); cbn [negb]; [|intros [= <- <- <-]; assumption]. destruct (select_type _ _ _ _); [|intros [= <- <- <-]; discriminate]. destruct (Z.eqb_spec (code (c_memory a)) VK_SUCCESS); cbn [negb]; [|intros [= <- <- <-]; assumption]. destruct (Z.eqb_spec (c_bound a) VK_SUCCESS); cbn [negb]; intros [= <- <- <-]; auto.
Qed.

Lemma no_room range need want l g g' : reserve range need want false l g <> Ok (NoRoom, g').
Proof.
  unfold reserve. repeat match goal with |- context [if ?c then _ else _] => destruct c; try discriminate | |- context [match ?c with Some _ => _ | None => _ end] => destruct c as [[? ?]|]; try discriminate end; repeat match goal with |- context [obind ?c _] => destruct c; cbn [obind]; try discriminate end; repeat match goal with |- context [if ?c then _ else _] => destruct c; try discriminate end; repeat match goal with |- context [obind ?c _] => destruct c; cbn [obind]; try discriminate end.
Qed.

#[export] Instance chunk_get_supplies range types env : 2 ^ 27 <= range -> env_ok env -> Supply (from_chunk_get range types env).
Proof.
  intros Hr He n cs want. unfold from_chunk_get. specialize (He n cs). destruct (env n cs) as [[l g] a]. destruct He as [Hl Hb]. unfold chunk_get. destruct (reserve_ok (fun _ => range) 0 64 want (negb (Nat.eqb (length cs) 0)) l g) as (t & g' & E & Ht). rewrite E. cbn [obind]. destruct t as [e|c l'|k|].
  - assert (e <> VK_SUCCESS) as Hne. { intros ->. revert E. unfold reserve. assert ((if CHUNK_MAX <? range then CHUNK_MAX else range) = CHUNK_MAX) as -> by (rewrite (proj2 (Z.ltb_lt _ _)); [reflexivity|unfold CHUNK_MAX; lia]). change ((CHUNK_MAX <? 64) || (CHUNK_MAX <? 64)) with false. cbv iota. destruct (best_fit 64 l 0 None) as [[? ?]|]; [discriminate|]. destruct (chunk_size _ _); cbn [obind]; [|discriminate|discriminate]. destruct (_ <? _); [|discriminate]. destruct (negb _); [discriminate|]. destruct (chunk_size _ _); discriminate. } rewrite (proj2 (Z.eqb_neq _ _) Hne). exact Hne.
  - destruct Ht as (P & _). rewrite P in Hl. apply Forall_cons_1 in Hl as [Hc _]. exact Hc.
  - destruct Ht as ([Hk1 Hk2] & _). destruct (create_chunk types k a) as [[e c] ev] eqn:Ec. apply created_chunk in Ec. destruct c as [c|]; [destruct Ec as (_ & -> & Hu & ->); split_and!; auto; try (unfold CHUNK_MIN in *; lia)|]. now rewrite (proj2 (Z.eqb_neq _ _) Ec).
  - cbn. intros ->. cbn in E. now apply no_room in E.
Qed.

(** C5: a region is decoded to the image, block by block, without a hazard.  When chunks come as [chunk_get] gives them and the device has Vulkan's required
    limits, decoding a valid region returns, whatever the driver answers.  When it succeeds, the recorded commands run on the device: no dispatch writes scratch memory
    that a copy may still read or has yet to read, and every copy reads a finished, visible piece of its own size.  Every texel of every slice of the region is then
    written by exactly one copy, with what was decoded from the block that holds the texel, and that decoding reads inside the backing and was accepted by the
    checks of the decoder.  It does succeed when the driver does, the formats agree and a slice of the level fits a storage buffer. *)
Theorem upload_exact (give : nat -> list hybris_bc_scratch -> Z -> given) (sets : nat -> pool_answers) (pipelines : nat -> Z) (limits : BcDecode.device_limits) (offset_alignment quality : Z)
    (i : hybris_bc_image) (r : BcCopy.region) (m0 m : device) (u : upload) (Hsup : Supply give) (L : laid_out i) (R : BcCopy.region_ok i r) (Lim : limits_ok limits offset_alignment) (Hq : 0 <= quality <= 3)
    (Hlay : volume i = false -> BcCopy.baseLayer r + BcCopy.region_layers i r <= layers i) (Hcount : volume i = false -> BcCopy.layerCount r <> 2 ^ 32 - 1) (Hwide : width (extent i) < 2 ^ 31) (G : good u) (Q : queue u = []) (E : exec (log u) m0 = Some m) (Sm : settled m) :
  exists N e u', (forall fuel, (N <= fuel)%nat -> decode give sets pipelines limits offset_alignment quality fuel i r u = Ok (e, u')) /\
    (e = VK_SUCCESS -> good u' /\ queue u' = [] /\ exists m' es, exec (log u') m0 = Some m' /\ settled m' /\ placed m' = placed m ++ es /\
       forall k a b, 0 <= k < BcCopy.region_layers i r -> 0 <= a < width (BcCopy.ext r) -> 0 <= b < height (BcCopy.ext r) -> exists x, writers i r es k a b = [x] /\ decoded_from limits i r k a b x) /\
    (favourable give sets pipelines limits i r -> BcDecode.hybris_bc_output_block_bytes (representation i) <> Ok 0 -> e = VK_SUCCESS).
Proof.
  assert (BcCopy.slices i r = BcCopy.region_layers i r) as Eslices by (unfold volume, BcCopy.slices, BcCopy.region_layers, VK_IMAGE_TYPE_3D in *; destruct (Z.eqb_spec (type i) 2), (decide (type i = 2)); try contradiction; auto; now rewrite decide_False by auto).
  destruct Sm as [S1 S2]. assert (tracked m0 (to_compute u) (placed m)) as T0.
  { exists (Device (pieces m) [] (placed m)). constructor; cbn [to_compute record log chunks queue pieces reading placed]; [now rewrite exec_app, E|exact S1|intros w Hw; apply (S2 w Hw)|intros x Hx; now apply not_elem_of_nil in Hx|intros w Hw Hf; destruct (S2 w Hw); congruence|]. rewrite Q. exists []. rewrite app_nil_r. split; [constructor|reflexivity]. }
  assert (good (to_compute u)) as G0 by (destruct G; constructor; auto). destruct (output_total i) as [bout Hbout]. unfold decode. rewrite Hbout, Eslices. cbn [obind]. destruct (Z.eqb_spec bout 0) as [->|Hb0]; [exists 0%nat, VK_ERROR_FORMAT_NOT_SUPPORTED, (to_compute u); split; [reflexivity|]; split; [discriminate|]; now intros _ Hne|].
  destruct (output_bytes i bout Hbout) as [|Hb4]; [contradiction|]. destruct (decode_layers_ok give sets pipelines limits offset_alignment quality m0 i r bout L R Lim Hq Hbout Hb4 (seqZ 0 (BcCopy.region_layers i r)) (to_compute u) (placed m) (NoDup_seqZ _ _)) as (N & e & u1 & Ed & Hok & Hfav); [intros k Hk%elem_of_seqZ; lia|exact G0|exact T0|].
  destruct (Z.eqb_spec e VK_SUCCESS) as [->|Hne]; [|exists N, e, u1; split; [intros fuel Hf; rewrite Ed by assumption; cbn [obind]; now rewrite (proj2 (Z.eqb_neq _ _) Hne)|]; split; [contradiction|auto]].
  exists N, VK_SUCCESS, (flush u1). split; [intros fuel Hf; rewrite Ed by assumption; reflexivity|]. split; [|auto]. intros _. destruct (Hok eq_refl) as (ts & (G1 & es & T1 & F1) & Hhits). destruct (flush_tracks m0 u1 _ T1) as (m' & [X1 X2 X3 _ _ _] & Ep & Hs & Fq & Fc & _ & Fh & Fo & _). split; [destruct G1; constructor; rewrite ?Fc, ?Fh, ?Fo, ?Fq; auto; unfold CAPACITY; cbn; lia|]. split; [assumption|]. exists m', es. split; [exact X1|]. split; [split; [exact X2|auto]|]. split; [exact Ep|].
  intros k a b Hk Ha Hb. apply (one_writer limits offset_alignment quality i r bout L R Lim) with ts; auto. rewrite Hhits, bool_decide_eq_true_2 by (apply elem_of_seqZ; lia). cbn [andb]. unfold in_band. rewrite Z.eqb_refl, !(proj2 (Z.leb_le _ _)), !(proj2 (Z.ltb_lt _ _)) by lia. reflexivity.
Qed.

(** An array of two layers of 10 by 6 texels, of which 6 by 5 texels at (4, 0) are decoded; chunks come from [chunk_get] with new buffers. *)
Definition sample_env (n : nat) (cs : list hybris_bc_scratch) : list hybris_bc_scratch * counters * chunk_answers :=
  ([], Counters 0 0, ChunkAnswers true (Answer VK_SUCCESS (1 + foldr Z.max 0 (buffer <$> cs))) 1 (Answer VK_SUCCESS 7) VK_SUCCESS).
Definition sample_image : hybris_bc_image := match hybris_bc_image_describe sample_info with Ok (_, i) => with_objects i 5 6 77 37 | _ => zeroed end.
Definition sample_limits : BcDecode.device_limits := BcDecode.Limits (2 ^ 27) 128 128 128 65535 65535 65535.

Lemma sample_gives n cs w e : from_chunk_get (2 ^ 27) [1] sample_env n cs w <> Error e.
Proof.
  unfold from_chunk_get, sample_env, chunk_get, reserve. change (CHUNK_MAX <? 2 ^ 27) with true. cbv iota. change ((CHUNK_MAX <? 64) || (CHUNK_MAX <? 64)) with false. cbv iota. cbn [best_fit]. destruct (chunk_size_ok (if CHUNK_MAX <? w then CHUNK_MAX else w) CHUNK_MAX) as (k & -> & Hk & _); [unfold CHUNK_MAX; lia|]. cbn [obind scratch_live scratch_idle]. rewrite Z.add_0_l. unfold CHUNK_MIN, CHUNK_MAX in Hk. rewrite (wrap_small 64 k) by (unfold in_range; lia). rewrite (proj2 (Z.ltb_ge LIVE_MAX k)) by (unfold LIVE_MAX; lia). cbn. discriminate.
Qed.

Lemma upload_exact_witness : exists N u' m' es x, (forall fuel, (N <= fuel)%nat -> decode (from_chunk_get (2 ^ 27) [1] sample_env) (fun _ => PoolAnswers true VK_SUCCESS VK_SUCCESS) (fun _ => VK_SUCCESS) sample_limits 64 3 fuel sample_image BcCopy.sample_region (Upload [] 0 0 [] [] [] 0) = Ok (VK_SUCCESS, u')) /\
  exec (log u') (Device [] [] []) = Some m' /\ placed m' = es /\ writers sample_image BcCopy.sample_region es 1 5 4 = [x] /\ decoded_from sample_limits sample_image BcCopy.sample_region 1 5 4 x.
Proof.
  assert (env_ok sample_env) as He. { intros n cs. cbn [sample_env]. split; [constructor|]. cbn [c_buffer handle]. enough (forall b, b ∈ buffer <$> cs -> b <= foldr Z.max 0 (buffer <$> cs)) as Hle by (intros Hin; apply Hle in Hin; lia). induction (buffer <$> cs) as [|y l IH]; intros b Hb; [now apply not_elem_of_nil in Hb|]. cbn [foldr]. apply elem_of_cons in Hb as [->|Hb]; [lia|]. specialize (IH b Hb). lia. }
  assert (laid_out sample_image) as L. { destruct (describe_ok sample_info) as (e & img & E & L); [unfold info_ok, in_range; cbn; lia|]. unfold sample_image. rewrite E. pose proof E as E'. vm_compute in E'. injection E' as <- _. destruct (L eq_refl) as [[? ? ?] ? ? ?]. constructor; [constructor|..]; assumption. }
  destruct (upload_exact (from_chunk_get (2 ^ 27) [1] sample_env) (fun _ => PoolAnswers true VK_SUCCESS VK_SUCCESS) (fun _ => VK_SUCCESS) sample_limits 64 3 sample_image BcCopy.sample_region (Device [] [] []) (Device [] [] []) (Upload [] 0 0 [] [] [] 0)) as (N & e & u' & E & Hok & Hfav).
  - apply chunk_get_supplies; [lia|exact He].
  - exact L.
  - constructor; vm_compute; intuition congruence.
  - constructor; [cbn; lia|exists 6; cbn; lia|cbn; lia].
  - lia.
  - vm_compute. intuition congruence.
  - vm_compute. intuition congruence.
  - vm_compute. reflexivity.
  - constructor; try constructor; cbn; try reflexivity. unfold CAPACITY; lia.
  - reflexivity.
  - reflexivity.
  - split; [constructor|]. intros w Hw. now apply not_elem_of_nil in Hw.
  - assert (e = VK_SUCCESS) as ->. { apply Hfav; [|vm_compute; discriminate]. split; [reflexivity|]. split; [reflexivity|]. split; [exact sample_gives|]. vm_compute. intuition congruence. }
    destruct (Hok eq_refl) as (_ & _ & m' & es & X1 & _ & X3 & X4). destruct (X4 1 5 4) as (x & Y1 & Y2); [vm_compute; intuition congruence|vm_compute; intuition congruence|vm_compute; intuition congruence|]. exists N, u', m', es, x. auto.
Defined.

(** A strip of 4 by 16384 texels of a large image: its rows span more than a storage buffer, and the copy is refused although no piece needs more
    than a few rows. *)
Definition large_image : hybris_bc_image := match hybris_bc_image_describe (Info 0 VK_IMAGE_TYPE_2D 145 (Extent 16384 16384 1) 1 1 1 0 7 0 []) with Ok (_, i) => with_objects i 5 6 77 37 | _ => zeroed end.
Definition strip : BcCopy.region := BcCopy.Region 0 0 0 0 0 1 0 0 0 (Extent 4 16384 1).
Example narrow_region_refused : exists u, decode (from_chunk_get (2 ^ 27) [1] sample_env) (fun _ => PoolAnswers true VK_SUCCESS VK_SUCCESS) (fun _ => VK_SUCCESS) sample_limits 64 3 10 large_image strip (Upload [] 0 0 [] [] [] 0) = Ok (VK_ERROR_FORMAT_NOT_SUPPORTED, u).
Proof. eexists. vm_compute. reflexivity. Qed.
End BcUploadExact.
