(* ===== verification/BcImageCopy.v ===== *)
(** * Copies between images (vulkan/compat/bc_image_copy.c, bc_record.c)

    A copy between images of which at least one is emulated becomes copies of rows of blocks between backings, or between a backing and
    the other image.  The rows move exactly the blocks that the region names, and exactly those blocks are decoded afterwards. *)

From Stdlib Require Import ZArith Lia Bool.
From stdpp Require Import base numbers option list.
From S2P Require Import Prelude BcDecode BcImage BcCopy BcScratch BcUpload.

Open Scope Z_scope.
Open Scope outcome_scope.

Module BcImageCopy.
Import BcImage.

Definition VK_ERROR_FEATURE_NOT_PRESENT : Z := -8.
Definition VK_ERROR_OUT_OF_HOST_MEMORY : Z := -1.

(** The texels of a block and its bytes, for the formats that can be copied to and from the emulated ones. *)
Record geometry := Geometry { g_width : Z; g_height : Z; g_bytes : Z }.
Definition block_geometry (f : Z) : option geometry :=
  match f with
  | 91 | 92 | 93 | 94 | 95 | 96 | 97 | 101 | 102 | 103 | 110 | 111 | 112 | 1000156009 | 1000156019 => Some (Geometry 1 1 8)
  | 107 | 108 | 109 | 113 | 114 | 115 => Some (Geometry 1 1 16)
  | 131 | 132 | 133 | 134 | 139 | 140 | 147 | 148 | 149 | 150 | 153 | 154 | 1000054001 | 1000054003 | 1000054005 | 1000054007 => Some (Geometry 4 4 8)
  | 135 | 136 | 137 | 138 | 141 | 142 | 143 | 144 | 145 | 146 | 151 | 152 | 155 | 156 | 157 | 158 | 1000066000 => Some (Geometry 4 4 16)
  | 1000156010 | 1000156011 | 1000156020 | 1000156021 | 1000156027 | 1000156028 => Some (Geometry 2 1 8)
  | _ => None
  end.

(** [hybris_bc_resource]; [emulated] if it has an emulated image. *)
Record resource := Resource { r_format : Z; r_type : Z; r_extent : extent3d; r_layers : Z; emulated : option hybris_bc_image }.
(** [VkImageCopy]. *)
Record side := Side { s_mip : Z; s_layer : Z; s_count : Z; s_x : Z; s_y : Z; s_z : Z }.
Record image_region := IRegion { i_src : side; i_dst : side; i_ext : extent3d }.

(** For levels below 32. *)
Definition mip_extent (r : resource) (level : Z) : extent3d :=
  Extent (nonzero (Z.shiftr (width (r_extent r)) level)) (nonzero (Z.shiftr (height (r_extent r)) level)) (nonzero (Z.shiftr (depth (r_extent r)) level)).
Definition block_offset (i : hybris_bc_image) (s : side) (layer row : Z) : outcome Z :=
  block_address i (s_mip s) (u64 ((if type i =? VK_IMAGE_TYPE_3D then u32 (s_z s) else s_layer s) + layer)) (u32 (u32 (s_y s) / 4 + row)) (u32 (s_x s) / 4).
Definition minimum (a b : Z) : Z := if a <? b then a else b.

(** The other image's part of a row: level, layer, offset, size. *)
Record native := Native { n_mip : Z; n_layer : Z; n_x : Z; n_y : Z; n_z : Z; n_w : Z; n_h : Z }.
(** Between backings, from an image to a backing, from a backing to an image; the last two with the offset in the backing. *)
Inductive row_command := RowBacking (c : BcCopy.copy) | RowTo (n : native) (offset : Z) | RowFrom (offset : Z) (n : native).

Definition ceil_div (n d : Z) : Z := u32 (u64 (u64 (n + d) - 1) / d).
Definition columns (sg : geometry) (r : image_region) : Z := ceil_div (width (i_ext r)) (g_width sg).
Definition rows (sg : geometry) (r : image_region) : Z := ceil_div (height (i_ext r)) (g_height sg).
Definition layer_count (src : resource) (r : image_region) : Z :=
  let n := if r_type src =? VK_IMAGE_TYPE_3D then depth (i_ext r) else s_count (i_src r) in
  if n =? BcCopy.VK_REMAINING then u32 (r_layers src - s_layer (i_src r)) else n.
Definition destination_extent (dst : resource) (sg dg : geometry) (r : image_region) : extent3d :=
  let bound := mip_extent dst (s_mip (i_dst r)) in
  Extent (if negb (g_width sg =? g_width dg) then minimum (u32 (u64 (columns sg r * g_width dg))) (u32 (width bound - u32 (s_x (i_dst r)))) else width (i_ext r))
         (if negb (g_height sg =? g_height dg) then minimum (u32 (u64 (rows sg r * g_height dg))) (u32 (height bound - u32 (s_y (i_dst r)))) else height (i_ext r)) (depth (i_ext r)).

(** The copy of the other image [o] for a row; the offsets are signed. *)
Definition native_row (o : resource) (s : side) (e : extent3d) (g : geometry) (layer row : Z) : native :=
  Native (s_mip s) (if r_type o =? VK_IMAGE_TYPE_3D then s_layer s else u32 (s_layer s + layer)) (s_x s) (to_signed 32 (s_y s + u32 (row * g_height g)))
    (if r_type o =? VK_IMAGE_TYPE_3D then to_signed 32 (s_z s + layer) else s_z s) (width e) (minimum (g_height g) (u32 (height e - u32 (row * g_height g)))).

Definition copy_row (src dst : resource) (sg dg : geometry) (r : image_region) (layer row : Z) : outcome row_command :=
  match emulated src, emulated dst with
  | Some a, Some b =>
      let! so := block_offset a (i_src r) layer row in
      let! d := block_offset b (i_dst r) layer row in
      Ok (RowBacking (BcCopy.Copy so d (u64 (columns sg r * g_bytes sg))))
  | _, Some b => let! o := block_offset b (i_dst r) layer row in Ok (RowTo (native_row src (i_src r) (i_ext r) sg layer row) o)
  | Some a, None => let! o := block_offset a (i_src r) layer row in Ok (RowFrom o (native_row dst (i_dst r) (destination_extent dst sg dg r) dg layer row))
  | None, None => Undef
  end.

Fixpoint copy_cells (src dst : resource) (sg dg : geometry) (r : image_region) (l : list (Z * Z)) : outcome (list row_command) :=
  match l with
  | [] => Ok []
  | (layer, row) :: l => let! c := copy_row src dst sg dg r layer row in let! rest := copy_cells src dst sg dg r l in Ok (c :: rest)
  end.
(** The loops over layers and rows. *)
Definition cells (n m : Z) : list (Z * Z) := k ← seqZ 0 n; (fun j => (k, j)) <$> seqZ 0 m.
Definition copy_region (src dst : resource) (sg dg : geometry) (r : image_region) : outcome (list row_command) :=
  copy_cells src dst sg dg r (cells (layer_count src r) (rows sg r)).

(** The region to decode. *)
Definition decode_region (src dst : resource) (sg dg : geometry) (r : image_region) : BcCopy.region :=
  let n := layer_count src r in let s := i_dst r in let e := destination_extent dst sg dg r in
  BcCopy.Region 0 0 0 (s_mip s) (s_layer s) (if r_type dst =? VK_IMAGE_TYPE_3D then 1 else n) (s_x s) (s_y s) (s_z s) (Extent (width e) (height e) (if r_type dst =? VK_IMAGE_TYPE_3D then n else 1)).

Section record.
(** Decoding, as [BcUpload.hybris_bc_decode_image] with its environment: the region and the error to the result and the state. *)
Context (decode : hybris_bc_image -> BcCopy.region -> Z -> BcUpload.upload -> outcome (Z * BcUpload.upload)).

Fixpoint copy_regions (src dst : resource) (sg dg : geometry) (l : list image_region) (error : Z) (done : list (list row_command)) (u : BcUpload.upload) : outcome (Z * list (list row_command) * BcUpload.upload) :=
  match l with
  | [] => Ok (error, done, u)
  | r :: l =>
      let! cs := copy_region src dst sg dg r in
      let done := done ++ [cs] in
      match emulated dst with
      | Some b => let! (e, u) := decode b (decode_region src dst sg dg r) error u in if negb (e =? VK_SUCCESS) then Ok (e, done, u) else copy_regions src dst sg dg l e done u
      | None => copy_regions src dst sg dg l error done u
      end
  end.

(** The command buffer's error, the rows of each region, and the state. *)
Definition copy_images (src dst : resource) (l : list image_region) (error : Z) (u : BcUpload.upload) : outcome (Z * list (list row_command) * BcUpload.upload) :=
  if negb (error =? VK_SUCCESS) then Ok (error, [], u) else
  match block_geometry (r_format src), block_geometry (r_format dst) with
  | Some sg, Some dg =>
      if negb (g_bytes sg =? g_bytes dg) then Ok (VK_ERROR_FORMAT_NOT_SUPPORTED, [], u) else
      let! (e, done, u) := copy_regions src dst sg dg l error [] u in
      Ok (e, done, match emulated dst with Some _ => if (e =? VK_SUCCESS) && negb (Nat.eqb (length l) 0) then BcUpload.record u [BcUpload.RestoreCompute] else u | None => u end)
  | _, _ => Ok (VK_ERROR_FORMAT_NOT_SUPPORTED, [], u)
  end.

(** Nothing for an unknown command buffer, the driver's command, or the emulation's result. *)
Inductive recorded := Ignored | Forwarded | Emulated (e : Z) (l : list (list row_command)) (u : BcUpload.upload).
Definition is_emulated (r : option resource) : bool := match r with Some r => match emulated r with Some _ => true | None => false end | None => false end.
Definition copy_image (known : bool) (src dst : option resource) (l : list image_region) (error : Z) (u : BcUpload.upload) : outcome recorded :=
  if negb known then Ok Ignored else
  if negb (is_emulated src) && negb (is_emulated dst) then Ok Forwarded else
  match src, dst with
  | Some s, Some d => let! (e, done, u) := copy_images s d l error u in Ok (Emulated e done u)
  | _, _ => Ok (Emulated VK_ERROR_FORMAT_NOT_SUPPORTED [] u)
  end.
(** [chained]: the structure extends the command; each region says whether it is extended; [alloc] is the copy's allocation. *)
Definition copy_image2 (known : bool) (src dst : option resource) (chained alloc : bool) (l : list (bool * image_region)) (error : Z) (u : BcUpload.upload) : outcome recorded :=
  if negb known then Ok Ignored else
  if negb (is_emulated src) && negb (is_emulated dst) then Ok Forwarded else
  match src, dst with
  | Some s, Some d =>
      if chained then Ok (Emulated VK_ERROR_FEATURE_NOT_PRESENT [] u) else
      if negb alloc then Ok (Emulated VK_ERROR_OUT_OF_HOST_MEMORY [] u) else
      if existsb fst l then Ok (Emulated VK_ERROR_FEATURE_NOT_PRESENT [] u) else
      let! (e, done, u) := copy_images s d (snd <$> l) error u in Ok (Emulated e done u)
  | _, _ => Ok (Emulated VK_ERROR_FEATURE_NOT_PRESENT [] u)
  end.

(** *** Copies with buffers (bc_record.c) *)

(** [BcUpload.hybris_bc_copy_buffer_image] with its environment. *)
Context (transfer : hybris_bc_image -> list BcCopy.region -> bool -> Z -> BcUpload.upload -> outcome (Z * BcUpload.upload)).
Definition copy_buffer_image (known : bool) (r : option resource) (l : list BcCopy.region) (to_image : bool) (error : Z) (u : BcUpload.upload) : outcome recorded :=
  if negb known then Ok Ignored else
  match r with
  | Some (Resource _ _ _ _ (Some i)) => let! (e, u) := transfer i l to_image error u in Ok (Emulated e [] u)
  | _ => Ok Forwarded
  end.
Definition copy_buffer_image2 (known : bool) (r : option resource) (chained alloc : bool) (l : list (bool * BcCopy.region)) (to_image : bool) (error : Z) (u : BcUpload.upload) : outcome recorded :=
  if negb known then Ok Ignored else
  match r with
  | Some (Resource _ _ _ _ (Some i)) =>
      if chained then Ok (Emulated VK_ERROR_FEATURE_NOT_PRESENT [] u) else
      if negb (Nat.eqb (length l) 0) && negb alloc then Ok (Emulated VK_ERROR_OUT_OF_HOST_MEMORY [] u) else
      if existsb fst l then Ok (Emulated VK_ERROR_FEATURE_NOT_PRESENT [] u) else
      let! (e, u) := transfer i (snd <$> l) to_image error u in Ok (Emulated e [] u)
  | _ => Ok Forwarded
  end.
End record.

(** ** What the rows move *)

(** A block: its address in a backing, or its place in the other image. *)
Inductive place := InBacking (a : Z) | InImage (mip layer z y x : Z).

(** The blocks of a native row, in the order in which they lie in the buffer. *)
Definition native_blocks (g : geometry) (n : native) : list place :=
  j ← seqZ 0 ((n_h n + g_height g - 1) / g_height g); (fun t => InImage (n_mip n) (n_layer n) (n_z n) (n_y n / g_height g + j) (n_x n / g_width g + t)) <$> seqZ 0 ((n_w n + g_width g - 1) / g_width g).
Definition backing_blocks (a bytes n : Z) : list place := (fun t => InBacking (a + t * bytes)) <$> seqZ 0 n.
(** The pairs of source and destination blocks. *)
Definition moved (sg dg : geometry) (c : row_command) : list (place * place) :=
  match c with
  | RowBacking c => zip (backing_blocks (BcCopy.src c) (g_bytes sg) (BcCopy.size c / g_bytes sg)) (backing_blocks (BcCopy.dst c) (g_bytes sg) (BcCopy.size c / g_bytes sg))
  | RowTo n o => let l := native_blocks sg n in zip l (backing_blocks o (g_bytes sg) (Z.of_nat (length l)))
  | RowFrom o n => let l := native_blocks dg n in zip (backing_blocks o (g_bytes sg) (Z.of_nat (length l))) l
  end.

(** Block ([row], [col]) of slice [k] of a side of the region. *)
Definition place_of (o : resource) (s : side) (g : geometry) (k row col : Z) : outcome place :=
  match emulated o with
  | Some i => let! a := block_address i (s_mip s) ((if type i =? VK_IMAGE_TYPE_3D then s_z s else s_layer s) + k) (s_y s / 4 + row) (s_x s / 4 + col) in Ok (InBacking a)
  | None => Ok (InImage (s_mip s) (if r_type o =? VK_IMAGE_TYPE_3D then s_layer s else s_layer s + k) (if r_type o =? VK_IMAGE_TYPE_3D then s_z s + k else s_z s) (s_y s / g_height g + row) (s_x s / g_width g + col))
  end.

(** Valid use: the region's blocks are in the image. *)
Record side_ok (o : resource) (s : side) (g : geometry) (n m c : Z) : Prop := {
  so_offset : 0 <= s_x s < 2 ^ 31 /\ 0 <= s_y s < 2 ^ 31 /\ (0 <= s_z s /\ s_z s + n < 2 ^ 31) /\ 0 <= s_layer s /\ s_layer s + n < 2 ^ 32;
  so_whole : (g_width g | s_x s) /\ (g_height g | s_y s);
  so_mip : 0 <= s_mip s < 32;
  so_extent : width (r_extent o) < 2 ^ 31 /\ height (r_extent o) < 2 ^ 31 /\ 0 <= width (r_extent o) /\ 0 <= height (r_extent o);
  so_inside : s_x s / g_width g + c <= (width (mip_extent o (s_mip s)) + g_width g - 1) / g_width g /\ s_y s / g_height g + m <= (height (mip_extent o (s_mip s)) + g_height g - 1) / g_height g;
  so_emulated : forall i, emulated o = Some i -> laid_out i /\ type i = r_type o /\ extent i = r_extent o /\ g = Geometry 4 4 (block_bytes i) /\ s_mip s < mip_levels i /\
    (if type i =? VK_IMAGE_TYPE_3D then s_z s else s_layer s) + n <= layers i * depth (hybris_bc_image_extent i (s_mip s)) }.

(** The rows and columns of blocks of the region's extent, and its slices: the depth of a volume (image type 2), else the layers
    of the source, where [2^32 - 1] stands for all layers from the first one. *)
Definition block_columns (sg : geometry) (r : image_region) : Z := (width (i_ext r) + g_width sg - 1) / g_width sg.
Definition block_rows (sg : geometry) (r : image_region) : Z := (height (i_ext r) + g_height sg - 1) / g_height sg.
Definition copied_slices (src : resource) (r : image_region) : Z :=
  if decide (r_type src = 2) then depth (i_ext r) else if decide (s_count (i_src r) = 2 ^ 32 - 1) then r_layers src - s_layer (i_src r) else s_count (i_src r).

Record copy_ok (src dst : resource) (sg dg : geometry) (r : image_region) : Prop := {
  co_source : block_geometry (r_format src) = Some sg;
  co_destination : block_geometry (r_format dst) = Some dg;
  co_bytes : g_bytes sg = g_bytes dg;
  co_emulated : is_emulated (Some src) || is_emulated (Some dst) = true;
  co_extent : 1 <= width (i_ext r) < 2 ^ 31 /\ 1 <= height (i_ext r) < 2 ^ 31;
  co_layers : 1 <= copied_slices src r < 2 ^ 32 - 1;
  co_src : side_ok src (i_src r) sg (copied_slices src r) (block_rows sg r) (block_columns sg r);
  co_dst : side_ok dst (i_dst r) dg (copied_slices src r) (block_rows sg r) (block_columns sg r) }.

Lemma geometry_cases f g : block_geometry f = Some g -> (g_width g = 1 \/ g_width g = 2 \/ g_width g = 4) /\ (g_height g = 1 \/ g_height g = 4) /\ (g_bytes g = 8 \/ g_bytes g = 16).
Proof. unfold block_geometry. intros E. repeat match type of E with context [match ?x with _ => _ end] => destruct x; try discriminate E end; injection E as <-; cbn; auto. Qed.

Lemma ceil_eq n d : 1 <= n < 2 ^ 31 -> (d = 1 \/ d = 2 \/ d = 4) -> ceil_div n d = (n + d - 1) / d /\ 1 <= ceil_div n d < 2 ^ 31.
Proof.
  intros Hn Hd. unfold ceil_div. rewrite (wrap_small 64 (n + d)), (wrap_small 64 (n + d - 1)) by (unfold in_range; lia). assert (1 <= (n + d - 1) / d < 2 ^ 31) by (split; [apply Z.div_le_lower_bound; lia|apply Z.div_lt_upper_bound; lia]). rewrite wrap_small by (unfold in_range; lia). auto.
Qed.

Lemma mip_range z m : 0 <= z < 2 ^ 31 -> 0 <= m < 32 -> 1 <= nonzero (Z.shiftr z m) < 2 ^ 31.
Proof.
  intros Hz [Hm _]. unfold nonzero. rewrite Z.shiftr_div_pow2 by lia. assert (0 < 2 ^ m) by (apply Z.pow_pos_nonneg; lia). assert (0 <= z / 2 ^ m <= z) by (split; [apply Z.div_pos; lia|apply Z.div_le_upper_bound; nia]). destruct (Z.eqb_spec (z / 2 ^ m) 0); lia.
Qed.

Lemma blocks_up z : 1 <= z < 2 ^ 31 -> blocks_of z = (z + 4 - 1) / 4.
Proof. intros Hz. unfold blocks_of. rewrite wrap_small by (unfold in_range; lia). f_equal. lia. Qed.

Lemma to_signed_small z : 0 <= z < 2 ^ 31 -> to_signed 32 z = z.
Proof. intros Hz. apply to_signed_id; lia. Qed.

(** A row of an emulated image. *)
Lemma emulated_row o s g n m c i k row : side_ok o s g n m c -> emulated o = Some i -> 0 <= k < n -> 0 <= row < m -> 1 <= c -> exists a, block_offset i s k row = Ok a /\ forall col, 0 <= col < c -> place_of o s g k row col = Ok (InBacking (a + col * g_bytes g)).
Proof.
  intros [(X & Y & Z0 & L0 & L1) _ M (E1 & E2 & E3 & E4) [I1 I2] Em] Ei Hk Hrow Hc. destruct (Em i Ei) as (L & Et & Ee & Eg & Hm & Hf). rewrite Eg in *. cbn [g_width g_height g_bytes] in *. assert (hybris_bc_image_extent i (s_mip s) = mip_extent o (s_mip s)) as Ex by (unfold hybris_bc_image_extent, mip_extent; rewrite (proj2 (Z.leb_gt _ _)), Ee by lia; reflexivity).
  pose proof (mip_range _ (s_mip s) (conj E3 E1) M) as Wr. pose proof (mip_range _ (s_mip s) (conj E4 E2) M) as Hr. 
  assert (0 <= s_x s / 4 < 2 ^ 29 /\ 0 <= s_y s / 4 < 2 ^ 29) as [Dx Dy] by (split; (split; [apply Z.div_pos; lia|apply Z.div_lt_upper_bound; lia])). set (first := if type i =? VK_IMAGE_TYPE_3D then s_z s else s_layer s) in *. assert (0 <= first < 2 ^ 32) as Hfi by (unfold first; destruct (_ =? _); lia).
  assert (forall col, 0 <= col < c -> in_image i (s_mip s) (first + k) (s_y s / 4 + row) (s_x s / 4 + col)) as Hin. { intros col Hcol. unfold in_image. rewrite Ex in *. cbn [mip_extent width height depth] in *. rewrite !blocks_up by assumption. split_and!; lia. }
  assert (s_y s / 4 + row < 2 ^ 32) as Hyr. { assert ((height (mip_extent o (s_mip s)) + 4 - 1) / 4 < 2 ^ 30) by (cbn [mip_extent height]; apply Z.div_lt_upper_bound; lia). lia. }
  exists (offset i (s_mip s) + index i (s_mip s) (first + k) (s_y s / 4 + row) (s_x s / 4) * block_bytes i). split.
  - unfold block_offset. assert ((if type i =? VK_IMAGE_TYPE_3D then u32 (s_z s) else s_layer s) = first) as -> by (unfold first; destruct (_ =? _); [apply wrap_small; unfold in_range; lia|reflexivity]). rewrite (wrap_small 64 (first + k)), (wrap_small 32 (s_y s)), (wrap_small 32 (s_x s)), (wrap_small 32 (s_y s / 4 + row)) by (unfold in_range; lia). pose proof (Hin 0 ltac:(lia)) as H0. rewrite Z.add_0_r in H0. exact (block_place i _ _ _ _ L H0).
  - intros col Hcol. unfold place_of. rewrite Ei. fold first. rewrite (block_place i _ _ _ _ L (Hin col Hcol)). cbn [obind]. do 2 f_equal. unfold index. ring.
Qed.

(** A row of the other image. *)
Lemma native_row_blocks o s g n m c e k row : side_ok o s g n m c -> emulated o = None -> (g_width g = 1 \/ g_width g = 2 \/ g_width g = 4) -> (g_height g = 1 \/ g_height g = 4) -> 0 <= k < n -> 0 <= row < m -> 1 <= height e < 2 ^ 31 -> (height e + g_height g - 1) / g_height g = m -> (width e + g_width g - 1) / g_width g = c ->
  length (native_blocks g (native_row o s e g k row)) = Z.to_nat c /\ forall col, 0 <= col < c -> exists p, place_of o s g k row col = Ok p /\ native_blocks g (native_row o s e g k row) !! Z.to_nat col = Some p.
Proof.
  intros [(X & Y & Z0 & L0 & L1) [_ Wy] M (_ & E2 & _ & E4) [_ I2] _] Ee Hw Hh Hk Hrow Hhe Em Ec. set (gh := g_height g) in *. assert (row * gh < height e) as Hrh. { assert (m * gh <= height e + gh - 1) by (rewrite <- Em, Z.mul_comm; apply Z.mul_div_le; lia). assert ((row + 1) * gh <= m * gh) by (apply Z.mul_le_mono_nonneg_r; lia). lia. } assert (0 <= row * gh) by (apply Z.mul_nonneg_nonneg; lia).
  pose proof (mip_range _ (s_mip s) (conj E4 E2) M) as Hr. fold gh in I2. cbn [mip_extent height] in I2. pose proof Wy as [yq' Ey']. fold gh in Ey'.
  assert (s_y s + row * gh < 2 ^ 31) as Hy. { rewrite Ey', Z.div_mul in I2 by lia. assert ((yq' + m) * gh <= nonzero (Z.shiftr (height (r_extent o)) (s_mip s)) + gh - 1) by (rewrite <- Z.mul_comm; eapply Z.le_trans; [apply Z.mul_le_mono_nonneg_l, I2; lia|apply Z.mul_div_le; lia]). assert ((row + 1) * gh <= m * gh) by (apply Z.mul_le_mono_nonneg_r; lia). lia. }
  unfold native_row. fold gh. rewrite (wrap_small 32 (row * gh)), (wrap_small 32 (height e - row * gh)) by (unfold in_range; lia). rewrite (to_signed_small (s_y s + row * gh)), (to_signed_small (s_z s + k)) by lia. unfold native_blocks. cbn [n_mip n_layer n_x n_y n_z n_w n_h]. fold gh. assert ((minimum gh (height e - row * gh) + gh - 1) / gh = 1) as -> by (unfold minimum; destruct (Z.ltb_spec gh (height e - row * gh)); symmetry; apply Z.div_unique with (if gh <? height e - row * gh then gh - 1 else height e - row * gh - 1); destruct (Z.ltb_spec gh (height e - row * gh)); lia).
  change (seqZ 0 1) with [0]. cbn [mbind list_bind]. rewrite app_nil_r, Ec. destruct Wy as [yq Ey]. fold gh in Ey. assert ((s_y s + row * gh) / gh = s_y s / gh + row) as Edy by (apply Z.div_add; lia).
  split; [rewrite length_fmap, length_seqZ; reflexivity|]. intros col Hcol. rewrite list_lookup_fmap, lookup_seqZ_lt by lia. cbn [fmap option_fmap option_map]. eexists. split; [|reflexivity]. unfold place_of. rewrite Ee, Edy, Z.add_0_r, Z2Nat.id, Z.add_0_l by lia. fold gh. rewrite (wrap_small 32 (s_layer s + k)) by (unfold in_range; lia). reflexivity.
Qed.

(** What is left of the destination has the blocks of the region. *)
Lemma extent_blocks x bound n d : 0 <= x -> (d = 1 \/ d = 2 \/ d = 4) -> (d | x) -> 1 <= n -> 1 <= bound < 2 ^ 31 -> x / d + n <= (bound + d - 1) / d -> let w := minimum (u32 (u64 (n * d))) (u32 (bound - u32 x)) in 1 <= w < 2 ^ 31 /\ (w + d - 1) / d = n.
Proof.
  intros Hx Hd [q Eq] Hn Hb Hin. cbv zeta. assert (x / d = q) as Exq by (rewrite Eq; apply Z.div_mul; lia). rewrite Exq in Hin. assert (n * d <= bound + d - 1 - x) as Hnd. { assert ((q + n) * d <= bound + d - 1) by (apply Z.le_trans with ((bound + d - 1) / d * d); [apply Z.mul_le_mono_nonneg_r; lia|rewrite Z.mul_comm; apply Z.mul_div_le; lia]). lia. } assert (d <= n * d) by nia.
  rewrite (wrap_small 32 x) by (unfold in_range; lia). rewrite (wrap_small 64 (n * d)) by (unfold in_range; lia). rewrite (wrap_small 32 (n * d)), (wrap_small 32 (bound - x)) by (unfold in_range; lia). unfold minimum. destruct (Z.ltb_spec (n * d) (bound - x)) as [Hlt|Hge].
  - split; [lia|]. symmetry. apply Z.div_unique with (d - 1); lia.
  - split; [lia|]. symmetry. apply Z.div_unique with (bound - x + d - 1 - d * n); lia.
Qed.

(** A list that has the blocks of a row. *)
Definition lists (l : list place) (c : Z) (P : Z -> outcome place) : Prop := length l = Z.to_nat c /\ forall col, 0 <= col < c -> exists p, P col = Ok p /\ l !! Z.to_nat col = Some p.

Lemma backing_lists a bytes c P : (forall col, 0 <= col < c -> P col = Ok (InBacking (a + col * bytes))) -> lists (backing_blocks a bytes c) c P.
Proof.
  intros H. unfold backing_blocks. split; [now rewrite length_fmap, length_seqZ|]. intros col Hc. exists (InBacking (a + col * bytes)). split; [auto|]. rewrite list_lookup_fmap, lookup_seqZ_lt by lia. cbn [fmap option_fmap option_map]. now rewrite Z.add_0_l, Z2Nat.id by lia.
Qed.

Lemma zip_lists l l' c P Q p q : lists l c P -> lists l' c Q -> (p, q) ∈ zip l l' <-> exists col, 0 <= col < c /\ P col = Ok p /\ Q col = Ok q.
Proof.
  intros [N1 H1] [N2 H2]. rewrite list_elem_of_lookup. setoid_rewrite lookup_zip_with_Some. split.
  - intros (j & x & y & E & Hx & Hy). injection E as <- <-. pose proof (lookup_lt_Some _ _ _ Hx) as Hlt. exists (Z.of_nat j). split; [lia|]. destruct (H1 (Z.of_nat j) ltac:(lia)) as (p' & -> & Hp). destruct (H2 (Z.of_nat j) ltac:(lia)) as (q' & -> & Hq). rewrite Nat2Z.id in *. split; congruence.
  - intros (col & Hc & Ep & Eq). destruct (H1 col Hc) as (p' & Ep' & Hp). destruct (H2 col Hc) as (q' & Eq' & Hq). exists (Z.to_nat col), p, q. split; [reflexivity|]. split; congruence.
Qed.

(** The counts of the code are those of the region. *)
Lemma counts_ok src dst sg dg r : copy_ok src dst sg dg r -> rows sg r = block_rows sg r /\ columns sg r = block_columns sg r /\ layer_count src r = copied_slices src r.
Proof.
  intros O. destruct (geometry_cases _ _ (co_source _ _ _ _ _ O)) as (Hw & Hh & _). pose proof (co_extent _ _ _ _ _ O) as [E1 E2]. pose proof (co_layers _ _ _ _ _ O) as L.
  split; [apply ceil_eq; auto; tauto|]. split; [apply ceil_eq; auto|]. unfold layer_count, copied_slices, BcCopy.VK_REMAINING, VK_IMAGE_TYPE_3D in *.
  destruct (Z.eqb_spec (r_type src) 2), (decide (r_type src = 2)); try contradiction; cbv zeta; [now rewrite (proj2 (Z.eqb_neq _ _)) by lia|].
  destruct (Z.eqb_spec (s_count (i_src r)) (2 ^ 32 - 1)), (decide (s_count (i_src r) = 2 ^ 32 - 1)); try contradiction; [|reflexivity]. apply wrap_small. unfold in_range. lia.
Qed.

Lemma destination_blocks src dst sg dg r : copy_ok src dst sg dg r -> let e := destination_extent dst sg dg r in
  1 <= width e < 2 ^ 31 /\ 1 <= height e < 2 ^ 31 /\ (width e + g_width dg - 1) / g_width dg = block_columns sg r /\ (height e + g_height dg - 1) / g_height dg = block_rows sg r.
Proof.
  intros O. destruct (counts_ok _ _ _ _ _ O) as (Er & Ec & _). revert O. intros [Hs Hd _ _ [We He] _ _ [(X & Y & _) [Wx Wy] M (E1 & E2 & E3 & E4) [I1 I2] _]]. destruct (geometry_cases _ _ Hs) as (Sw & Sh & _). destruct (geometry_cases _ _ Hd) as (Dw & Dh & _). assert (g_height sg = 1 \/ g_height sg = 2 \/ g_height sg = 4) as Sh' by tauto. assert (g_height dg = 1 \/ g_height dg = 2 \/ g_height dg = 4) as Dh' by tauto. destruct (ceil_eq _ _ We Sw) as [Cw Cw2]. destruct (ceil_eq _ _ He Sh') as [Ch Ch2]. fold (columns sg r) in Cw, Cw2. fold (rows sg r) in Ch, Ch2. rewrite Ec in Cw, Cw2. rewrite Er in Ch, Ch2.
  pose proof (mip_range _ (s_mip (i_dst r)) (conj E3 E1) M) as Wr. pose proof (mip_range _ (s_mip (i_dst r)) (conj E4 E2) M) as Hr. pose proof (extent_blocks (s_x (i_dst r)) _ (block_columns sg r) (g_width dg) ltac:(lia) Dw Wx ltac:(lia) Wr I1) as Fw. pose proof (extent_blocks (s_y (i_dst r)) _ (block_rows sg r) (g_height dg) ltac:(lia) Dh' Wy ltac:(lia) Hr I2) as Fh. cbv zeta in *. unfold destination_extent. rewrite Er, Ec. cbn [width height mip_extent] in *.
  destruct (Z.eqb_spec (g_width sg) (g_width dg)) as [Ew|_], (Z.eqb_spec (g_height sg) (g_height dg)) as [Eh|_]; cbn [negb]; rewrite <- ?Ew, <- ?Eh; repeat split; try lia; try apply Fw; try apply Fh.
Qed.

Lemma copy_row_ok src dst sg dg r k row : copy_ok src dst sg dg r -> 0 <= k < copied_slices src r -> 0 <= row < block_rows sg r ->
  exists c, copy_row src dst sg dg r k row = Ok c /\ forall p q, (p, q) ∈ moved sg dg c <-> exists col, 0 <= col < block_columns sg r /\ place_of src (i_src r) sg k row col = Ok p /\ place_of dst (i_dst r) dg k row col = Ok q.
Proof.
  intros O Hk Hrow. destruct (counts_ok _ _ _ _ _ O) as (Er & Ec & _). pose proof (destination_blocks _ _ _ _ _ O) as (F1 & F2 & F3 & F4). destruct O as [Hs Hd Hb He [We Hh] _ Os Od]. destruct (geometry_cases _ _ Hs) as (Sw & Sh & Sb). destruct (geometry_cases _ _ Hd) as (Dw & Dh & _). destruct (ceil_eq _ _ We Sw) as [Cw Cw2]. destruct (ceil_eq (height (i_ext r)) (g_height sg) Hh ltac:(tauto)) as [Ch _]. fold (columns sg r) in Cw, Cw2. fold (rows sg r) in Ch. rewrite Ec in Cw, Cw2. rewrite Er in Ch.
  unfold copy_row. rewrite ?Ec. destruct (emulated src) as [a|] eqn:Ea, (emulated dst) as [b|] eqn:Eb.
  - destruct (emulated_row _ _ _ _ _ _ a k row Os Ea Hk Hrow ltac:(lia)) as (so & -> & Hso). destruct (emulated_row _ _ _ _ _ _ b k row Od Eb Hk Hrow ltac:(lia)) as (d & -> & Hdo). cbn [obind]. eexists. split; [reflexivity|]. intros p q. cbn [moved BcCopy.src BcCopy.dst BcCopy.size]. rewrite wrap_small by (unfold in_range; destruct Sb as [E|E]; rewrite E; lia). rewrite Z.div_mul by lia. apply zip_lists; apply backing_lists; [exact Hso|]. rewrite Hb. exact Hdo.
  - destruct (emulated_row _ _ _ _ _ _ a k row Os Ea Hk Hrow ltac:(lia)) as (so & -> & Hso). cbn [obind]. eexists. split; [reflexivity|]. intros p q. cbn [moved]. cbv zeta. pose proof (native_row_blocks _ _ _ _ _ _ (destination_extent dst sg dg r) k row Od Eb Dw Dh Hk Hrow F2 F4 F3) as Hn. assert (Z.of_nat (length (native_blocks dg (native_row dst (i_dst r) (destination_extent dst sg dg r) dg k row))) = block_columns sg r) as -> by (rewrite (proj1 Hn); lia). apply zip_lists; [apply backing_lists, Hso|exact Hn].
  - destruct (emulated_row _ _ _ _ _ _ b k row Od Eb Hk Hrow ltac:(lia)) as (d & -> & Hdo). cbn [obind]. eexists. split; [reflexivity|]. intros p q. cbn [moved]. cbv zeta. pose proof (native_row_blocks _ _ _ _ _ _ (i_ext r) k row Os Ea Sw Sh Hk Hrow Hh (eq_sym Ch) (eq_sym Cw)) as Hn. assert (Z.of_nat (length (native_blocks sg (native_row src (i_src r) (i_ext r) sg k row))) = block_columns sg r) as -> by (rewrite (proj1 Hn); lia). apply zip_lists; [exact Hn|apply backing_lists; rewrite Hb; exact Hdo].
  - cbn [is_emulated] in He. rewrite Ea, Eb in He. discriminate.
Qed.

Lemma copy_cells_ok src dst sg dg r : copy_ok src dst sg dg r -> forall l, (forall k row, (k, row) ∈ l -> 0 <= k < copied_slices src r /\ 0 <= row < block_rows sg r) ->
  exists cs, copy_cells src dst sg dg r l = Ok cs /\ forall p q, (p, q) ∈ concat (moved sg dg <$> cs) <-> exists k row col, (k, row) ∈ l /\ 0 <= col < block_columns sg r /\ place_of src (i_src r) sg k row col = Ok p /\ place_of dst (i_dst r) dg k row col = Ok q.
Proof.
  intros O. induction l as [|[k row] l IH]; intros Hl.
  - exists []. split; [reflexivity|]. intros p q. split; [intros Hin; now apply not_elem_of_nil in Hin|intros (k & row & col & Hin & _); now apply not_elem_of_nil in Hin].
  - destruct (Hl k row ltac:(left)) as [Hk Hrow]. destruct (copy_row_ok src dst sg dg r k row O Hk Hrow) as (c & Ec & Hc). destruct IH as (cs & Ecs & Hcs); [intros k' row' Hin; apply Hl; now right|]. cbn [copy_cells]. rewrite Ec. cbn [obind]. rewrite Ecs. cbn [obind]. eexists. split; [reflexivity|]. intros p q. cbn [fmap list_fmap concat]. rewrite elem_of_app, Hc. unfold fmap in Hcs. rewrite Hcs. split.
    + intros [(col & H)|(k' & row' & col & Hin & H)]; [exists k, row, col|exists k', row', col]; rewrite elem_of_cons; auto.
    + intros (k' & row' & col & [E|Hin]%elem_of_cons & H); [injection E as -> ->; left; exists col; exact H|right; exists k', row', col; auto].
Qed.

Lemma elem_cells k row n m : (k, row) ∈ cells n m <-> 0 <= k < n /\ 0 <= row < m.
Proof.
  unfold cells. rewrite list_elem_of_bind. split.
  - intros (x & Hy & Hx%elem_of_seqZ). apply list_elem_of_fmap in Hy as (y & E & Hy%elem_of_seqZ). assert (k = x /\ row = y) as [-> ->] by now inversion E. lia.
  - intros [Hk Hr]. exists k. split; [apply list_elem_of_fmap; exists row; split; [reflexivity|apply elem_of_seqZ; lia]|apply elem_of_seqZ; lia].
Qed.

(** C27: a copy between images moves exactly the blocks of the region.  For a valid region of images of which at least one is emulated, with blocks of equal
    size, the copies move block ([row], [col]) of slice [k] from its place in the source to its place in the destination and nothing else, whichever of the two
    is emulated and whatever the sizes of the blocks in texels.  The slices are the depth of a volume, else the layers of the source, all remaining ones
    where the count says so.  The region that is decoded afterwards has exactly these rows, columns and slices. *)
Theorem image_copies_exact (src dst : resource) (sg dg : geometry) (r : image_region) (O : copy_ok src dst sg dg r) :
  (exists cs, copy_region src dst sg dg r = Ok cs /\ forall p q, (p, q) ∈ concat (moved sg dg <$> cs) <->
     exists k row col, 0 <= k < copied_slices src r /\ 0 <= row < block_rows sg r /\ 0 <= col < block_columns sg r /\ place_of src (i_src r) sg k row col = Ok p /\ place_of dst (i_dst r) dg k row col = Ok q) /\
  (forall i, emulated dst = Some i -> let d := decode_region src dst sg dg r in
     BcCopy.nx d = block_columns sg r /\ BcCopy.ny d = block_rows sg r /\ BcCopy.region_layers i d = copied_slices src r /\ BcCopy.first_slice i d = (if decide (type i = 2) then s_z (i_dst r) else s_layer (i_dst r))).
Proof.
  destruct (counts_ok _ _ _ _ _ O) as (Er & Ec & El). split.
  - unfold copy_region. rewrite Er, El. destruct (copy_cells_ok src dst sg dg r O (cells (copied_slices src r) (block_rows sg r))) as (cs & E & H); [intros k row; apply elem_cells|]. exists cs. split; [exact E|]. intros p q. rewrite H. split; [intros (k & row & col & [Hk Hr]%elem_cells & Hx); exists k, row, col; tauto|intros (k & row & col & Hk & Hr & Hx); exists k, row, col; rewrite elem_cells; tauto].
  - intros i Ei d. pose proof (destination_blocks _ _ _ _ _ O) as (F1 & F2 & F3 & F4). destruct (so_emulated _ _ _ _ _ _ (co_dst _ _ _ _ _ O) i Ei) as (_ & Et & _ & Eg & _). assert (g_width dg = 4 /\ g_height dg = 4) as [Ew Eh] by now rewrite Eg. rewrite Ew in F3. rewrite Eh in F4. unfold d, BcCopy.nx, BcCopy.ny, BcCopy.first_slice, decode_region. cbn [BcCopy.ext BcCopy.layerCount BcCopy.off_z BcCopy.baseLayer width height depth].
    unfold BcCopy.blocks4. pose proof (co_layers _ _ _ _ _ O) as Hn. rewrite El, Et, <- F3, <- F4. split_and!; [f_equal; lia|f_equal; lia| |unfold VK_IMAGE_TYPE_3D; destruct (Z.eqb_spec (r_type dst) 2), (decide (r_type dst = 2)); now try contradiction].
    unfold BcCopy.region_layers. cbn [BcCopy.ext BcCopy.layerCount BcCopy.baseLayer depth]. rewrite Et. unfold VK_IMAGE_TYPE_3D. destruct (Z.eqb_spec (r_type dst) 2), (decide (r_type dst = 2)); try contradiction; [reflexivity|]. now rewrite decide_False by lia.
Qed.

(** Two texels of two layers of an uncompressed image become the last two blocks of the second row of an image of 10 by 6 texels. *)
Definition sample_source : resource := Resource 107 VK_IMAGE_TYPE_2D (Extent 8 8 1) 4 None.
Definition sample_target (i : hybris_bc_image) : resource := Resource 145 VK_IMAGE_TYPE_2D (Extent 10 6 1) 2 (Some i).
Definition sample_copy : image_region := IRegion (Side 0 1 2 1 1 0) (Side 0 0 2 4 4 0) (Extent 2 1 1).

Lemma image_copies_exact_witness : exists img cs, hybris_bc_image_describe sample_info = Ok (VK_SUCCESS, img) /\ copy_region sample_source (sample_target img) (Geometry 1 1 16) (Geometry 4 4 16) sample_copy = Ok cs /\
  cs = [RowTo (Native 0 1 1 1 0 2 1) 64; RowTo (Native 0 2 1 1 0 2 1) 160] /\ (InImage 0 2 0 1 2, InBacking 176) ∈ concat (moved (Geometry 1 1 16) (Geometry 4 4 16) <$> cs) /\
  BcCopy.nx (decode_region sample_source (sample_target img) (Geometry 1 1 16) (Geometry 4 4 16) sample_copy) = 2.
Proof.
  destruct (describe_ok sample_info) as (e & img & E & L); [unfold info_ok, in_range; cbn; lia|]. pose proof E as E'. vm_compute in E'. injection E' as <- Ei. specialize (L eq_refl). exists img.
  destruct (image_copies_exact sample_source (sample_target img) (Geometry 1 1 16) (Geometry 4 4 16) sample_copy) as ((cs & Ec & Hm) & Hd).
  { split; try reflexivity; [cbn; lia|vm_compute; intuition congruence|..]; split; try (cbn; lia); try (split; [now exists 1|now exists 1]); try (vm_compute; intuition congruence).
    intros i Hi. injection Hi as <-. split; [exact L|]. rewrite <- Ei. vm_compute. intuition congruence. }
  exists cs. split; [exact E|]. split; [exact Ec|]. split; [rewrite <- Ei in Ec; vm_compute in Ec; now injection Ec as <-|]. split; [|apply (Hd img eq_refl)].
  apply Hm. exists 1, 0, 1. rewrite <- Ei. vm_compute. intuition congruence.
Defined.
End BcImageCopy.
