(* ===== verification/PolygonEdges.v ===== *)
(** * Triangles as lines (vulkan/compat/polygon_buffers.c, polygon_indices.c, shaders/polygon_indices.comp)

    On a device that cannot rasterise triangles as lines, a draw of triangles becomes an indexed draw of their edges.  The indices come from a
    pattern that all draws without indices share, or from a compute dispatch that reads the application's indices.  Answers of the driver are
    arguments; calls that create or destroy a device object are events.  [polygon_edges_exact]: in any order of its invocations the dispatch
    reads inside the source, writes exactly the reserved range, and leaves there the edges of the triangles that the application's indices form. *)

From Stdlib Require Import ZArith Lia Bool.
From stdpp Require Import base numbers option list.
From S2P Require Import Prelude.

Open Scope Z_scope.
Open Scope outcome_scope.

Module PolygonEdges.

Definition VK_SUCCESS : Z := 0.
Definition VK_ERROR_OUT_OF_HOST_MEMORY : Z := -1.
Definition VK_ERROR_INITIALIZATION_FAILED : Z := -3.
Definition VK_ERROR_FEATURE_NOT_PRESENT : Z := -8.
Definition UINT32_MAX : Z := 2 ^ 32 - 1.
Definition MEMORY_DEVICE_LOCAL : Z := 1.
Definition MEMORY_HOST_VISIBLE : Z := 2.
Definition MEMORY_HOST_COHERENT : Z := 4.
Definition has (flags bit : Z) : bool := negb (Z.land flags bit =? 0).

(** ** Device objects *)

Inductive object := OBuffer (h : Z) | OMemory (h : Z) | OPool (h : Z) | OSetLayout (h : Z) | OLayout (h : Z) | OShader (h : Z) | OPipeline (h : Z).
Inductive event := ECreate (o : object) | EDestroy (o : object).
(** A creation's answer: the result code and what it leaves in the handle. *)
Record answer := Answer { code : Z; handle : Z }.
Definition made (mk : Z -> object) (a : answer) : list event := if code a =? VK_SUCCESS then [ECreate (mk (handle a))] else [].
Definition dropped (mk : Z -> object) (h : Z) : list event := if h =? 0 then [] else [EDestroy (mk h)].

Definition release_buffer (b m : Z) : list event := dropped OBuffer b ++ dropped OMemory m.

(** The first suitable type of memory, or the first that is also coherent (for the host) or local.  [types] are the flags from type [k] on. *)
Fixpoint select_type (host : bool) (bits : Z) (types : list Z) (k : Z) (best : option Z) : option Z :=
  match types with
  | [] => best
  | t :: types =>
      if negb (Z.testbit bits k) || (host && negb (has t MEMORY_HOST_VISIBLE)) then select_type host bits types (k + 1) best else
      let best := match best with None => Some k | Some b => Some b end in
      if has t (if host then MEMORY_HOST_COHERENT else MEMORY_DEVICE_LOCAL) then Some k else select_type host bits types (k + 1) best
  end.

(** The buffer of a size, the types it can use, its memory, the binding. *)
Record buffer_answers := BufferAnswers { a_buffer : Z -> answer; bits : Z; a_memory : answer; bound : Z }.

(** The result, the buffer and its memory. *)
Definition make_buffer (types : list Z) (size : Z) (host : bool) (a : buffer_answers) : Z * Z * Z * list event :=
  let b := a_buffer a size in
  if negb (code b =? VK_SUCCESS) then (code b, handle b, 0, []) else
  let ev := made OBuffer b in
  match select_type host (bits a) types 0 None with
  | None => (VK_ERROR_FEATURE_NOT_PRESENT, 0, 0, ev ++ release_buffer (handle b) 0)
  | Some _ =>
      let r := if code (a_memory a) =? VK_SUCCESS then bound a else code (a_memory a) in
      let ev := ev ++ made OMemory (a_memory a) in
      if r =? VK_SUCCESS then (r, handle b, handle (a_memory a), ev)
      else (r, 0, 0, ev ++ release_buffer (handle b) (handle (a_memory a)))
  end.

(** ** Patterns for draws without indices *)

(** [struct hybris_polygon_pattern] with the words that the host has written. *)
Record pattern := Pattern { p_buffer : Z; p_memory : Z; p_triangles : Z; p_words : list Z }.
(** The six indices of triangle [t]; topologies are 0 (list), 1 (strip), 2 (fan). *)
Definition pattern_triangle (topology t : Z) : list Z :=
  let x := if topology =? 0 then u32 (t * 3) else if topology =? 1 then t else 0 in
  let y := if topology =? 0 then u32 (t * 3 + 1) else u32 (t + 1) in
  let z := if topology =? 0 then u32 (t * 3 + 2) else u32 (t + 2) in
  [x; y; y; z; z; x].
Definition pattern_words (topology count : Z) : list Z := t ← seqZ 0 count; pattern_triangle topology t.

(** The index-conversion pipeline of the device, [struct hybris_polygon_indices]. *)
Record indices := Indices { ready : bool; descriptors : Z; layout : Z; pipeline : Z }.
Definition no_indices : indices := Indices false 0 0 0.
(** The device's part of the state: the patterns by topology, those replaced, the conversion pipeline. *)
Record device := Device { patterns : list (option pattern); retired_patterns : list pattern; polygon : indices }.

(** The host allocation, the buffer, the mapping and the flush. *)
Record pattern_answers := PatternAnswers { a_host : bool; a_make : buffer_answers; a_map : Z; a_flush : Z }.

(** The result, the pattern's buffer on success, the device.  A new pattern of [count] triangles replaces [old], which stays allocated. *)
Definition pattern_grow (types : list Z) (d : device) (topology : Z) (a : pattern_answers) (old : option pattern) (count : Z) : Z * option Z * device * list event :=
  if UINT32_MAX / 6 <? count then (VK_ERROR_FEATURE_NOT_PRESENT, None, d, []) else
  if negb (a_host a) then (VK_ERROR_OUT_OF_HOST_MEMORY, None, d, []) else
  let '(r, b, m, ev) := make_buffer types (u64 (count * 24)) true (a_make a) in
  if negb (r =? VK_SUCCESS) then (r, None, d, ev) else
  let r := if a_map a =? VK_SUCCESS then a_flush a else a_map a in
  if negb (r =? VK_SUCCESS) then (r, None, d, ev ++ release_buffer b m) else
  (VK_SUCCESS, Some b, Device (<[Z.to_nat topology := Some (Pattern b m (u32 count) (pattern_words topology count))]> (patterns d))
                         (match old with Some p => p :: retired_patterns d | None => retired_patterns d end) (polygon d), ev).
(** [triangles] is the count asked for. *)
Definition pattern_for (types : list Z) (d : device) (topology triangles : Z) (a : pattern_answers) : outcome (Z * option Z * device * list event) :=
  let! p := rd (patterns d) topology in
  let enough count := if count <? triangles then triangles else count in
  Ok match p with
     | Some p => if p_triangles p <? triangles then pattern_grow types d topology a (Some p) (enough (u64 (p_triangles p * 2))) else (VK_SUCCESS, Some (p_buffer p), d, [])
     | None => pattern_grow types d topology a None (enough 1024)
     end.

Definition hybris_polygon_patterns_destroy (d : device) : device * list event :=
  let all := rev (omap id (patterns d)) ++ retired_patterns d in
  (Device ((fun _ => None) <$> patterns d) [] (polygon d), p ← all; release_buffer (p_buffer p) (p_memory p)).

(** ** The conversion pipeline (polygon_indices.c) *)

Definition hybris_polygon_indices_destroy (p : indices) : indices * list event :=
  if negb (ready p) then (p, []) else (no_indices, dropped OPipeline (pipeline p) ++ dropped OLayout (layout p) ++ dropped OSetLayout (descriptors p)).

(** Whether all entry points are there, and the four creations. *)
Record indices_answers := IndicesAnswers { procs : bool; a_sets : answer; a_layout : answer; a_shader : answer; a_pipeline : answer }.
Definition hybris_polygon_indices_create (have_device have_resolver : bool) (p : indices) (a : indices_answers) : Z * indices * list event :=
  if negb have_device || negb have_resolver then (VK_ERROR_INITIALIZATION_FAILED, p, []) else
  if negb (procs a) then (VK_ERROR_INITIALIZATION_FAILED, no_indices, []) else
  let fail r p ev := let (p, ev') := hybris_polygon_indices_destroy p in (r, p, ev ++ ev') in
  let p := Indices true (handle (a_sets a)) 0 0 in
  let ev := made OSetLayout (a_sets a) in
  if negb (code (a_sets a) =? VK_SUCCESS) then fail (code (a_sets a)) p ev else
  let p := Indices true (descriptors p) (handle (a_layout a)) 0 in
  let ev := ev ++ made OLayout (a_layout a) in
  if negb (code (a_layout a) =? VK_SUCCESS) then fail (code (a_layout a)) p ev else
  let ev := ev ++ made OShader (a_shader a) in
  if negb (code (a_shader a) =? VK_SUCCESS) then fail (code (a_shader a)) p ev else
  let p := Indices true (descriptors p) (layout p) (handle (a_pipeline a)) in
  let ev := ev ++ made OPipeline (a_pipeline a) ++ [EDestroy (OShader (handle (a_shader a)))] in
  if code (a_pipeline a) =? VK_SUCCESS then (VK_SUCCESS, p, ev) else fail (code (a_pipeline a)) p ev.

(** ** Scratch ranges of a command buffer *)

Record polygon_chunk := Chunk { c_buffer : Z; c_memory : Z; c_size : Z; c_used : Z }.
Record polygon_pool := Pool { pool_handle : Z; pool_used : Z }.
Record storage := Storage { chunks : list polygon_chunk; pools : list polygon_pool }.
Definition no_storage : storage := Storage [] [].

(** The results of resetting each pool; a pool that cannot be reset is destroyed. *)
Fixpoint reset_pools (l : list polygon_pool) (r : list Z) : list polygon_pool * list event :=
  match l with
  | [] => ([], [])
  | p :: l =>
      let (l, ev) := reset_pools l (tail r) in
      if default VK_SUCCESS (head r) =? VK_SUCCESS then (Pool (pool_handle p) 0 :: l, ev) else (l, EDestroy (OPool (pool_handle p)) :: ev)
  end.
Definition unused (c : polygon_chunk) : polygon_chunk := Chunk (c_buffer c) (c_memory c) (c_size c) 0.
Definition hybris_polygon_storage_reset (s : option storage) (r : list Z) : option storage * list event :=
  match s with
  | None => (None, [])
  | Some s => let (l, ev) := reset_pools (pools s) r in (Some (Storage (unused <$> chunks s) l), ev)
  end.
Definition hybris_polygon_storage_destroy (s : option storage) : list event :=
  match s with
  | None => []
  | Some s => ((fun p => EDestroy (OPool (pool_handle p))) <$> pools s) ++ (c ← chunks s; release_buffer (c_buffer c) (c_memory c))
  end.

Definition align (used alignment : Z) : Z := u64 (u64 (u64 (used + alignment) - 1) / alignment * alignment).
(** The first chunk with room: the ones before it, the chunk, its start, the ones after it. *)
Fixpoint find_chunk (alignment size : Z) (l : list polygon_chunk) : option (list polygon_chunk * polygon_chunk * Z * list polygon_chunk) :=
  match l with
  | [] => None
  | c :: l =>
      let start := align (c_used c) alignment in
      if (start <=? c_size c) && (size <=? c_size c - start) then Some ([], c, start, l) else
      match find_chunk alignment size l with Some (before, x, s, after) => Some (c :: before, x, s, after) | None => None end
  end.
Fixpoint find_pool (l : list polygon_pool) : option (list polygon_pool * polygon_pool * list polygon_pool) :=
  match l with
  | [] => None
  | p :: l => if pool_used p =? 64 then match find_pool l with Some (before, x, after) => Some (p :: before, x, after) | None => None end else Some ([], p, l)
  end.
Definition MIB : Z := Z.shiftl 1 20.
Definition chunk_bytes (size : Z) : Z := Z.land (u64 (u64 (size + MIB) - 1)) (u64 (Z.lnot (MIB - 1))).

(** The allocations of a chunk and of a pool, the chunk's buffer, the pool, the descriptor set. *)
Record reserve_answers := ReserveAnswers { h_chunk : bool; a_chunk : buffer_answers; h_pool : bool; a_pool : answer; a_set : answer }.

(** The pool part: the pools before, the pool, the ones after. *)
Definition take_pool (l : list polygon_pool) (a : reserve_answers) : Z * option (list polygon_pool * polygon_pool * list polygon_pool) * list event :=
  match find_pool l with
  | Some x => (VK_SUCCESS, Some x, [])
  | None =>
      if negb (h_pool a) then (VK_ERROR_OUT_OF_HOST_MEMORY, None, []) else
      if negb (code (a_pool a) =? VK_SUCCESS) then (code (a_pool a), None, []) else (VK_SUCCESS, Some ([], Pool (handle (a_pool a)) 0, l), made OPool (a_pool a))
  end.
Definition take_chunk (types : list Z) (alignment size : Z) (l : list polygon_chunk) (a : reserve_answers) : Z * option (list polygon_chunk * polygon_chunk * Z * list polygon_chunk) * list event :=
  match find_chunk alignment size l with
  | Some x => (VK_SUCCESS, Some x, [])
  | None =>
      if negb (h_chunk a) then (VK_ERROR_OUT_OF_HOST_MEMORY, None, []) else
      let '(r, b, m, ev) := make_buffer types (chunk_bytes size) false (a_chunk a) in
      if negb (r =? VK_SUCCESS) then (r, None, ev) else (VK_SUCCESS, Some ([], Chunk b m (chunk_bytes size) 0, 0, l), ev)
  end.

(** The result, the buffer and the offset on success, the storage. *)
Definition reserve (types : list Z) (offset_alignment : Z) (s : storage) (size : Z) (a : reserve_answers) : Z * option (Z * Z) * storage * list event :=
  let alignment := if offset_alignment <? 4 then 4 else offset_alignment in
  match take_chunk types alignment size (chunks s) a with
  | (r, None, ev) => (r, None, s, ev)
  | (_, Some (before, c, start, after), ev) =>
      let with_chunk c := before ++ c :: after in
      match take_pool (pools s) a with
      | (r, None, ev') => (r, None, Storage (with_chunk c) (pools s), ev ++ ev')
      | (_, Some (first, p, rest), ev') =>
          if negb (code (a_set a) =? VK_SUCCESS) then (code (a_set a), None, Storage (with_chunk c) (first ++ p :: rest), ev ++ ev') else
          (VK_SUCCESS, Some (c_buffer c, start), Storage (with_chunk (Chunk (c_buffer c) (c_memory c) (c_size c) (u64 (start + size)))) (first ++ Pool (pool_handle p) (u32 (pool_used p + 1)) :: rest), ev ++ ev')
      end
  end.

(** ** The edges of a draw *)

Record limits := Limits { offset_alignment : Z; max_range : Z; max_x : Z; max_y : Z }.
(** [VkDescriptorBufferInfo]: a range of a buffer, in bytes. *)
Record buffer_range := Range { b_handle : Z; b_offset : Z; b_size : Z }.
Record hybris_polygon_push := Push { byte_offset : Z; index_size : Z; push_triangles : Z; push_topology : Z; push_restart : bool; row : Z }.
(** What the command buffer that runs before the draw is given; the sets are the two ranges written to the descriptor set. *)
Inductive pre_command :=
| PBarrier (src_stage dst_stage src_access dst_access : Z)
| PBindPipeline (h : Z)
| PBindSets (layout : Z) (source destination : buffer_range)
| PPush (layout : Z) (p : hybris_polygon_push)
| PDispatch (x y : Z).
Definition ALL_COMMANDS : Z := 0x10000.
Definition COMPUTE_SHADER : Z := 0x800.
Definition VERTEX_INPUT : Z := 4.
Definition ACCESS_MEMORY : Z := 0x8000 + 0x10000.
Definition ACCESS_SHADER : Z := 0x20 + 0x40.
Definition ACCESS_SHADER_WRITE : Z := 0x40.
Definition ACCESS_INDEX_READ : Z := 2.

Definition triangle_count (topology count : Z) : Z := if topology =? 0 then count / 3 else if 3 <=? count then count - 2 else 0.
(** The groups in a row and the rows; dividing by a limit of zero is undefined. *)
Definition group_rows (l : limits) (tris : Z) : outcome (Z * Z) :=
  let groups := u64 (tris + 63) / 64 in
  if groups <=? max_x l then Ok (groups, 1) else
  if max_x l =? 0 then Undef else Ok (max_x l, u64 (u64 (groups + max_x l) - 1) / max_x l).

(** The allocations of the edges and of the storage, and the answers of the parts. *)
Record edges_answers := EdgesAnswers { h_edges : bool; a_pattern : pattern_answers; a_indices : indices_answers; h_storage : bool; a_reserve : reserve_answers }.

(** The result, the buffer and the offset of the edges on success, the device, the storage of the command buffer and its commands. *)
Definition hybris_polygon_edges_create (types : list Z) (l : limits) (d : device) (s : option storage) (count topology : Z) (source : option buffer_range)
  (byte_off isize : Z) (restart : bool) (a : edges_answers) : outcome (Z * option (Z * Z) * device * option storage * list pre_command * list event) :=
  let tris := triangle_count topology count in
  if (2 <? topology) || (tris =? 0) || (UINT32_MAX / 6 <? tris) then Ok (VK_ERROR_FEATURE_NOT_PRESENT, None, d, s, [], []) else
  let size := u64 (tris * 24) in
  if max_range l <? size then Ok (VK_ERROR_FEATURE_NOT_PRESENT, None, d, s, [], []) else
  if negb (h_edges a) then Ok (VK_ERROR_OUT_OF_HOST_MEMORY, None, d, s, [], []) else
  match source with
  | None => let! (r, b, d, ev) := pattern_for types d topology tris (a_pattern a) in Ok (r, (fun b => (b, 0)) <$> b, d, s, [], ev)
  | Some src =>
      let '(r, p, ev) := if ready (polygon d) then (VK_SUCCESS, polygon d, []) else hybris_polygon_indices_create true true (polygon d) (a_indices a) in
      let d := Device (patterns d) (retired_patterns d) p in
      if negb (r =? VK_SUCCESS) then Ok (r, None, d, s, [], ev) else
      match (match s with Some s => Some s | None => if h_storage a then Some no_storage else None end) with
      | None => Ok (VK_ERROR_OUT_OF_HOST_MEMORY, None, d, s, [], ev)
      | Some s =>
          match reserve types (offset_alignment l) s size (a_reserve a) with
          | (r, None, s, ev') => Ok (r, None, d, Some s, [], ev ++ ev')
          | (_, Some (b, start), s, ev') =>
              let! (gx, gy) := group_rows l tris in
              if (gx =? 0) || (UINT32_MAX / 64 <? gx) || (max_y l <? gy) then Ok (VK_ERROR_FEATURE_NOT_PRESENT, None, d, Some s, [], ev ++ ev') else
              Ok (VK_SUCCESS, Some (b, start), d, Some s,
                  [PBarrier ALL_COMMANDS COMPUTE_SHADER ACCESS_MEMORY ACCESS_SHADER; PBindPipeline (pipeline p); PBindSets (layout p) src (Range b start size);
                   PPush (layout p) (Push byte_off isize tris topology (restart && (topology =? 1)) (u32 (gx * 64))); PDispatch (u32 gx) (u32 gy);
                   PBarrier COMPUTE_SHADER VERTEX_INPUT ACCESS_SHADER_WRITE ACCESS_INDEX_READ], ev ++ ev')
          end
      end
  end.

(** ** The shader (polygon_indices.comp) *)

(** Memory by buffer and word. *)
Definition memory := Z -> Z -> Z.
(** A word of a bound range; outside it the access is undefined. *)
Definition load (m : memory) (b : buffer_range) (w : Z) : outcome Z := if (0 <=? w) && (4 * w + 4 <=? b_size b) then Ok (m (b_handle b) (b_offset b / 4 + w)) else Undef.

Definition idx (m : memory) (src : buffer_range) (p : hybris_polygon_push) (k : Z) : outcome Z :=
  let b := u32 (byte_offset p + u32 (k * index_size p)) in
  let! word := load m src (Z.shiftr b 2) in
  Ok (if index_size p =? 4 then word else if index_size p =? 2 then Z.land (Z.shiftr word (Z.land b 2 * 8)) 0xffff else Z.land (Z.shiftr word (Z.land b 3 * 8)) 0xff).

(** The writes of one invocation: word of the destination and value. *)
Definition invocation (m : memory) (src : buffer_range) (p : hybris_polygon_push) (g : Z * Z) : outcome (list (Z * Z)) :=
  let t := u32 (g.1 + u32 (g.2 * row p)) in
  if push_triangles p <=? t then Ok [] else
  let! (a, b, c) :=
    if push_topology p =? 0 then let! a := idx m src p (u32 (3 * t)) in let! b := idx m src p (u32 (3 * t + 1)) in let! c := idx m src p (u32 (3 * t + 2)) in Ok (a, b, c)
    else if push_topology p =? 1 then let! a := idx m src p t in let! b := idx m src p (u32 (t + 1)) in let! c := idx m src p (u32 (t + 2)) in Ok (a, b, c)
    else let! a := idx m src p 0 in let! b := idx m src p (u32 (t + 1)) in let! c := idx m src p (u32 (t + 2)) in Ok (a, b, c) in
  let r := if index_size p =? 4 then 0xffffffff else if index_size p =? 2 then 0xffff else 0xff in
  let '(a, b, c) := if push_restart p && ((a =? r) || (b =? r) || (c =? r)) then (0, 0, 0) else (a, b, c) in
  let o := u32 (6 * t) in
  Ok [(o, a); (u32 (o + 1), b); (u32 (o + 2), b); (u32 (o + 3), c); (u32 (o + 4), c); (u32 (o + 5), a)].

(** ** Running it *)

Definition store (m : memory) (h w v : Z) : memory := fun h' w' => if (h' =? h) && (w' =? w) then v else m h' w'.
Fixpoint stores (m : memory) (dst : buffer_range) (l : list (Z * Z)) : outcome memory :=
  match l with
  | [] => Ok m
  | (w, v) :: l => if (0 <=? w) && (4 * w + 4 <=? b_size dst) then stores (store m (b_handle dst) (b_offset dst / 4 + w) v) dst l else Undef
  end.
(** Invocations, each as one step, in the order given. *)
Fixpoint run (m : memory) (src dst : buffer_range) (p : hybris_polygon_push) (l : list (Z * Z)) : outcome memory :=
  match l with
  | [] => Ok m
  | g :: l => let! ws := invocation m src p g in let! m := stores m dst ws in run m src dst p l
  end.
(** The invocations of a dispatch: 64 in a group. *)
Definition grid (x y : Z) : list (Z * Z) := j ← seqZ 0 y; (fun i => (i, j)) <$> seqZ 0 (x * 64).

(** ** The triangles of a stream of indices *)

Definition triangle : Type := Z * Z * Z.
Fixpoint list_triangles (l : list Z) : list triangle := match l with a :: b :: c :: l => (a, b, c) :: list_triangles l | _ => [] end.
Fixpoint strip_triangles (l : list Z) : list triangle := match l with a :: ((b :: c :: _) as l) => (a, b, c) :: strip_triangles l | _ => [] end.
Fixpoint fan_triangles (a : Z) (l : list Z) : list triangle := match l with b :: ((c :: _) as l) => (a, b, c) :: fan_triangles a l | _ => [] end.
(** The strips between restarts. *)
Fixpoint split (r : Z) (l : list Z) : list (list Z) :=
  match l with
  | [] => [[]]
  | x :: l => if x =? r then [] :: split r l else match split r l with [] => [[x]] | s :: ss => (x :: s) :: ss end
  end.
(** The triangles that the fixed-function assembly makes; [r] restarts a strip. *)
Definition assemble (topology : Z) (r : option Z) (l : list Z) : list triangle :=
  if topology =? 0 then list_triangles l else if topology =? 1 then match r with Some r => concat (strip_triangles <$> split r l) | None => strip_triangles l end
  else match l with [] => [] | a :: l => fan_triangles a l end.
Definition edges (t : triangle) : list (Z * Z) := let '(a, b, c) := t in [(a, b); (b, c); (c, a)].
(** Lines of one point have no fragments. *)
Definition proper (e : Z * Z) : bool := negb (e.1 =? e.2).

(** ** What the shader makes of them *)

Definition corners (topology t : Z) : triangle := if topology =? 0 then (3 * t, 3 * t + 1, 3 * t + 2) else if topology =? 1 then (t, t + 1, t + 2) else (0, t + 1, t + 2).
(** Triangle [t] of the indices [v], none if it touches a restart. *)
Definition slot (v : Z -> Z) (topology : Z) (r : option Z) (t : Z) : option triangle :=
  let '(x, y, z) := corners topology t in
  match r with Some r => if (v x =? r) || (v y =? r) || (v z =? r) then None else Some (v x, v y, v z) | None => Some (v x, v y, v z) end.
Definition at_of (l : list Z) (k : Z) : Z := default 0 (l !! Z.to_nat k).
Definition slots (l : list Z) (topology : Z) (r : option Z) : list (option triangle) := slot (at_of l) topology r <$> seqZ 0 (triangle_count topology (Z.of_nat (length l))).

Lemma at_of_cons a l k : 0 <= k -> at_of (a :: l) (k + 1) = at_of l k.
Proof. intros H. unfold at_of. now rewrite Z2Nat.inj_add, Nat.add_1_r by lia. Qed.

Lemma seqZ_step n : 0 <= n -> seqZ 0 (n + 1) = 0 :: (Z.add 1 <$> seqZ 0 n).
Proof. intros H. rewrite seqZ_cons by lia. rewrite fmap_add_seqZ. repeat f_equal; lia. Qed.

(** The slots of a longer stream, in general form. *)
Lemma slots_step a l topology r d : 0 <= d -> triangle_count topology (Z.of_nat (length (a :: l))) = d + 1 -> forall l', triangle_count topology (Z.of_nat (length l')) = d ->
  (forall t, 0 <= t < d -> slot (at_of (a :: l)) topology r (1 + t) = slot (at_of l') topology r t) -> slots (a :: l) topology r = slot (at_of (a :: l)) topology r 0 :: slots l' topology r.
Proof.
  intros Hd E l' E' H. unfold slots. rewrite E, E', seqZ_step by lia. cbn [fmap list_fmap]. f_equal. fold (fmap (M := list) (A := Z) (B := Z)). rewrite <- list_fmap_compose. apply list_fmap_ext. intros i t Ht%lookup_seqZ. apply H. lia.
Qed.

Lemma list_slots l : omap id (slots l 0 None) = list_triangles l.
Proof.
  induction l as [l IH] using (induction_ltof1 _ (@length Z)). unfold ltof in IH. destruct l as [|a [|b [|c l]]]; [reflexivity..|]. cbn [list_triangles]. rewrite <- IH by (cbn; lia).
  rewrite (slots_step a (b :: c :: l) 0 None (triangle_count 0 (Z.of_nat (length l)))) with (l' := l).
  - reflexivity.
  - unfold triangle_count. cbn. apply Z.div_pos; lia.
  - unfold triangle_count. cbn [Z.eqb Pos.eqb length]. rewrite !Nat2Z.inj_succ. replace (Z.succ (Z.succ (Z.succ (Z.of_nat (length l))))) with (Z.of_nat (length l) + 1 * 3) by lia. rewrite Z.div_add by lia. lia.
  - reflexivity.
  - intros t Ht. unfold slot, corners. cbn [Z.eqb Pos.eqb]. replace (3 * (1 + t)) with (3 * t + 1 + 1 + 1) by ring. replace (3 * t + 1 + 1 + 1 + 1) with (3 * t + 1 + 1 + 1 + 1) by ring. replace (3 * t + 1 + 1 + 1 + 2) with (3 * t + 2 + 1 + 1 + 1) by ring. rewrite !at_of_cons by lia. reflexivity.
Qed.

Lemma strip_step a l r : (2 <= length l)%nat -> slots (a :: l) 1 r = slot (at_of (a :: l)) 1 r 0 :: slots l 1 r.
Proof.
  intros H. unfold triangle_count. apply (slots_step a l 1 r (Z.of_nat (length l) - 2)); [lia| | |].
  - unfold triangle_count. cbn [Z.eqb Pos.eqb length]. rewrite Nat2Z.inj_succ. destruct (Z.leb_spec 3 (Z.succ (Z.of_nat (length l)))); lia.
  - unfold triangle_count. cbn [Z.eqb Pos.eqb]. destruct (Z.leb_spec 3 (Z.of_nat (length l))); lia.
  - intros t Ht. unfold slot, corners. cbn [Z.eqb Pos.eqb]. replace (1 + t) with (t + 1) by ring. replace (t + 1 + 2) with (t + 2 + 1) by ring. rewrite !at_of_cons by lia. reflexivity.
Qed.

Lemma short_slots l topology r : 0 < topology -> (length l < 3)%nat -> slots l topology r = [].
Proof. intros Ht H. unfold slots, triangle_count. rewrite (proj2 (Z.eqb_neq _ _)) by lia. rewrite (proj2 (Z.leb_gt _ _)) by lia. reflexivity. Qed.

Lemma omap_slot (x : option triangle) l : omap id (x :: l) = match x with Some t => t :: omap id l | None => omap id l end.
Proof. reflexivity. Qed.

Lemma strip_slots l : omap id (slots l 1 None) = strip_triangles l.
Proof.
  induction l as [|a l IH]; [reflexivity|]. destruct l as [|b [|c l]]; [reflexivity..|]. rewrite strip_step by (cbn; lia). rewrite omap_slot. change (slot _ 1 None 0) with (Some (a, b, c)). cbv iota. rewrite IH. reflexivity.
Qed.

Lemma split_cons r l : exists s ss, split r l = s :: ss.
Proof. destruct l as [|x l]; [eexists _, _; reflexivity|]. cbn [split]. destruct (x =? r); [eauto|]. destruct (split r l); eauto. Qed.

Lemma restart_slots r l : omap id (slots l 1 (Some r)) = concat (strip_triangles <$> split r l).
Proof.
  induction l as [|a l IH]; [reflexivity|]. destruct l as [|b [|c l]].
  - rewrite short_slots by (cbn; lia). cbn. now destruct (a =? r).
  - rewrite short_slots by (cbn; lia). cbn. now destruct (a =? r), (b =? r).
  - rewrite strip_step by (cbn; lia). rewrite omap_slot. change (slot _ 1 (Some r) 0) with (if (a =? r) || (b =? r) || (c =? r) then None else Some (a, b, c)). rewrite IH. remember (b :: c :: l) as k eqn:Ek. cbn [split]. destruct (Z.eqb_spec a r) as [->|Ha]; [reflexivity|].
    subst k. cbn [split]. destruct (b =? r); [reflexivity|]. destruct (c =? r); [destruct (split_cons r l) as (s & ss & ->); reflexivity|]. destruct (split_cons r l) as (s & ss & ->). reflexivity.
Qed.

Lemma fan_slots a l : omap id (slots (a :: l) 2 None) = fan_triangles a l.
Proof.
  induction l as [|b l IH]; [reflexivity|]. destruct l as [|c l]; [reflexivity|]. change (fan_triangles a (b :: c :: l)) with ((a, b, c) :: fan_triangles a (c :: l)). rewrite <- IH. set (d := triangle_count 2 (Z.of_nat (length (a :: c :: l)))). assert (0 <= d) as Hd by (unfold d, triangle_count; cbn [Z.eqb Pos.eqb]; destruct (Z.leb_spec 3 (Z.of_nat (length (a :: c :: l)))); lia).
  rewrite (slots_step a (b :: c :: l) 2 None d Hd) with (l' := a :: c :: l); [reflexivity| |reflexivity|].
  - unfold d, triangle_count. cbn [Z.eqb Pos.eqb length]. rewrite !Nat2Z.inj_succ. destruct (Z.leb_spec 3 (Z.succ (Z.succ (Z.succ (Z.of_nat (length l)))))), (Z.leb_spec 3 (Z.succ (Z.succ (Z.of_nat (length l))))); lia.
  - intros t Ht. unfold slot, corners. cbn [Z.eqb Pos.eqb]. replace (1 + t + 1) with (t + 1 + 1) by ring. replace (1 + t + 2) with (t + 1 + 1 + 1) by ring. replace (t + 2) with (t + 1 + 1) by ring. rewrite !at_of_cons by lia. reflexivity.
Qed.

(** The shader's slots are the triangles of the stream. *)
Lemma slots_assemble topology r l : (topology = 0 \/ topology = 1 \/ topology = 2) -> (r <> None -> topology = 1) -> omap id (slots l topology r) = assemble topology r l.
Proof.
  intros Ht Hr. unfold assemble. destruct r as [r|].
  - rewrite (Hr ltac:(discriminate)). apply restart_slots.
  - destruct Ht as [->|[->| ->]]; cbn [Z.eqb Pos.eqb]; [apply list_slots|apply strip_slots|]. destruct l as [|a l]; [reflexivity|apply fan_slots].
Qed.

(** ** Indices in memory *)

(** Bytes are little-endian in their words. *)
Definition byte (m : memory) (h a : Z) : Z := m h (a / 4) / 2 ^ (8 * (a mod 4)) mod 256.
Definition read_index (m : memory) (h a isize : Z) : Z :=
  if isize =? 1 then byte m h a else if isize =? 2 then byte m h a + 256 * byte m h (a + 1)
  else byte m h a + 256 * byte m h (a + 1) + 65536 * byte m h (a + 2) + 16777216 * byte m h (a + 3).
(** The [n] indices from byte [a] on. *)
Definition stream (m : memory) (h a isize n : Z) : list Z := (fun k => read_index m h (a + k * isize) isize) <$> seqZ 0 n.
Definition words_ok (m : memory) : Prop := forall h w, in_range 32 (m h w).

Lemma byte_at m h q s : 0 <= s < 4 -> byte m h (4 * q + s) = m h q / 2 ^ (8 * s) mod 256.
Proof. intros Hs. unfold byte. replace (4 * q + s) with (s + q * 4) by ring. rewrite Z.div_add, Z_mod_plus_full, (Z.div_small s 4), (Z.mod_small s 4) by lia. reflexivity. Qed.

Lemma land_low b q s : b = 4 * q + s -> 0 <= s < 4 -> Z.land b 3 = s /\ Z.land b 2 = Z.land s 2.
Proof.
  intros -> Hs. assert (Z.land (4 * q + s) 3 = s) as E. { change 3 with (Z.ones 2). rewrite Z.land_ones by lia. change (2 ^ 2) with 4. replace (4 * q + s) with (s + q * 4) by ring. rewrite Z_mod_plus_full. apply Z.mod_small. lia. }
  split; [exact E|]. change 2 with (Z.land 3 2) at 1. now rewrite Z.land_assoc, E.
Qed.

Lemma shifted_word w s n : 0 <= s -> 0 <= n -> Z.land (Z.shiftr w s) (Z.ones n) = w / 2 ^ s mod 2 ^ n.
Proof. intros Hs Hn. now rewrite Z.land_ones, Z.shiftr_div_pow2 by lia. Qed.

Lemma bytes_of_half w d : 0 < d -> w / d mod 65536 = w / d mod 256 + 256 * (w / (d * 256) mod 256).
Proof. intros Hd. rewrite <- Z.div_div by lia. generalize (w / d). intros x. Z.to_euclidean_division_equations. lia. Qed.

(** The shader reads the indices that the fixed function reads. *)
Lemma word_index m h q s isize : words_ok m -> 0 <= s < 4 -> (isize = 1 \/ isize = 2 /\ (s = 0 \/ s = 2) \/ isize = 4 /\ s = 0) ->
  (if isize =? 4 then m h q else if isize =? 2 then Z.land (Z.shiftr (m h q) (Z.land s 2 * 8)) 0xffff else Z.land (Z.shiftr (m h q) (s * 8)) 0xff) = read_index m h (4 * q + s) isize.
Proof.
  intros M Hs [->|[[-> Hc]|[-> ->]]]; unfold read_index; cbn [Z.eqb Pos.eqb].
  - change 0xff with (Z.ones 8). rewrite shifted_word, byte_at by lia. now rewrite (Z.mul_comm s 8).
  - change 0xffff with (Z.ones 16). rewrite <- !Z.add_assoc, !byte_at by lia. destruct Hc as [-> | ->]; rewrite shifted_word by (vm_compute; discriminate); [exact (bytes_of_half (m h q) 1 ltac:(lia))|]. etransitivity; [exact (bytes_of_half (m h q) 65536 ltac:(lia))|reflexivity].
  - rewrite <- !Z.add_assoc, !byte_at by lia. destruct (M h q) as [M1 M2]. change (2 ^ (8 * 0)) with 1. change (2 ^ (8 * (0 + 1))) with 256. change (2 ^ (8 * (0 + 2))) with 65536. change (2 ^ (8 * (0 + 3))) with 16777216. change (2 ^ 32) with 4294967296 in M2. clear M. generalize dependent (m h q). intros w M1 M2. Z.to_euclidean_division_equations. lia.
Qed.

(** ** Invocations *)

Fixpoint numbered (o : Z) (l : list Z) : list (Z * Z) := match l with [] => [] | v :: l => (o, v) :: numbered (o + 1) l end.
Definition six (t : option triangle) : list Z := match t with Some (a, b, c) => [a; b; b; c; c; a] | None => replicate 6 0 end.

Lemma length_six t : length (six t) = 6%nat.
Proof. now destruct t as [[[a b] c]|]. Qed.

(** Valid use of a dispatch: the indices are in the source range, which has whole words. *)
Record dispatch_ok (m : memory) (src dst : buffer_range) (p : hybris_polygon_push) (count : Z) : Prop := {
  do_words : words_ok m;
  do_size : index_size p = 1 \/ index_size p = 2 \/ index_size p = 4;
  do_topology : push_topology p = 0 \/ push_topology p = 1 \/ push_topology p = 2;
  do_count : 0 <= count;
  do_triangles : push_triangles p = triangle_count (push_topology p) count /\ push_triangles p <= UINT32_MAX / 6;
  do_offset : 0 <= byte_offset p /\ (index_size p | byte_offset p);
  do_source : 0 <= b_offset src /\ (4 | b_offset src) /\ (4 | b_size src) /\ b_size src < 2 ^ 32 /\ byte_offset p + count * index_size p <= b_size src;
  do_target : (4 | b_offset dst) /\ b_size dst = 24 * push_triangles p;
  do_apart : b_handle src <> b_handle dst }.

Section dispatch.
Context (m0 : memory) (src dst : buffer_range) (p : hybris_polygon_push) (count : Z) (D : dispatch_ok m0 src dst p count).

Definition indices_of : list Z := stream m0 (b_handle src) (b_offset src + byte_offset p) (index_size p) count.
Definition restart_value : Z := if index_size p =? 4 then 0xffffffff else if index_size p =? 2 then 0xffff else 0xff.
Definition restart_of : option Z := if push_restart p then Some restart_value else None.

Lemma idx_ok m k : words_ok m -> (forall w, m (b_handle src) w = m0 (b_handle src) w) -> 0 <= k < count -> idx m src p k = Ok (at_of indices_of k).
Proof.
  intros M Hm Hk. destruct D as [_ Hz _ _ _ [B0 [bq Eb]] (S0 & [q Eq] & [z Ez] & S3 & S4) _ _]. set (i := index_size p) in *. assert (0 <= k * i /\ byte_offset p + k * i + i <= byte_offset p + count * i) as [K1 K2] by (destruct Hz as [E|[E|E]]; rewrite E; lia). unfold idx. fold i.
  rewrite (wrap_small 32 (k * i)), wrap_small by (unfold in_range; lia). set (b := byte_offset p + k * i) in *. pose proof (Z.div_mod b 4 ltac:(lia)) as Ebm. pose proof (Z.mod_pos_bound b 4 ltac:(lia)) as Bm. set (bw := b / 4) in *. set (s := b mod 4) in *. rewrite Z.shiftr_div_pow2 by lia. change (2 ^ 2) with 4. fold bw. unfold load.
  rewrite (proj2 (Z.leb_le 0 bw)), (proj2 (Z.leb_le (4 * bw + 4) _)) by (unfold bw; try apply Z.div_pos; lia). cbn [andb obind]. destruct (land_low b bw s Ebm Bm) as [-> ->].
  rewrite Hm, Eq, Z.div_mul by lia. f_equal. unfold at_of, indices_of, stream. rewrite list_lookup_fmap, lookup_seqZ_lt by lia. cbn [fmap option_fmap option_map default]. rewrite Z.add_0_l, Z2Nat.id by lia. fold i. rewrite Eq. replace (q * 4 + byte_offset p + k * i) with (4 * (q + bw) + s) by (rewrite <- Z.add_assoc; fold b; lia).
  rewrite <- Hm. etransitivity; [apply (word_index m (b_handle src) (q + bw) s i M Bm)|].
  - destruct Hz as [E|[E|E]]; rewrite E in *; [auto| |].
    + right. left. split; [reflexivity|]. assert (b = 2 * (bq + k)) by (unfold b; lia). lia.
    + right. right. split; [reflexivity|]. assert (b = 4 * (bq + k)) by (unfold b; lia). lia.
  - unfold read_index, byte. now rewrite !Hm.
Qed.

Definition number (g : Z * Z) : Z := g.1 + g.2 * row p.
Definition target (t : Z) : list Z := six (slot (at_of indices_of) (push_topology p) restart_of t).

Lemma corner_range t : 0 <= t < push_triangles p -> let '(x, y, z) := corners (push_topology p) t in 0 <= x < count /\ 0 <= y < count /\ 0 <= z < count.
Proof.
  intros Ht. destruct D as [_ _ Hto Hc [Et _] _ _ _ _]. rewrite Et in Ht. unfold triangle_count, corners in *. destruct Hto as [E|[E|E]]; rewrite E in *; cbn [Z.eqb Pos.eqb] in *.
  - pose proof (Z.mul_div_le count 3 ltac:(lia)). lia.
  - destruct (Z.leb_spec 3 count); lia.
  - destruct (Z.leb_spec 3 count); lia.
Qed.

Lemma invocation_ok m g : words_ok m -> (forall w, m (b_handle src) w = m0 (b_handle src) w) -> 0 <= g.1 -> 0 <= g.2 * row p -> number g < 2 ^ 32 ->
  invocation m src p g = Ok (if push_triangles p <=? number g then [] else numbered (6 * number g) (target (number g))).
Proof.
  intros M Hm G1 G2 G3. unfold invocation. unfold number in *. rewrite (wrap_small 32 (g.2 * row p)), wrap_small by (unfold in_range; lia). set (t := g.1 + g.2 * row p) in *. destruct (Z.leb_spec (push_triangles p) t) as [Hge|Hlt]; [reflexivity|].
  pose proof (corner_range t ltac:(lia)) as Hcr. assert (push_triangles p <= 715827882) as Hmax by apply (do_triangles _ _ _ _ _ D). unfold target, slot, corners in *. rewrite (wrap_small 32 (6 * t)) by (unfold in_range; lia). rewrite !(wrap_small 32 (6 * t + _)) by (unfold in_range; lia). fold restart_value. unfold restart_of.
  destruct (do_topology _ _ _ _ _ D) as [E|[E|E]]; rewrite E in *; cbn [Z.eqb Pos.eqb] in *; rewrite ?(wrap_small 32 (3 * t)), ?(wrap_small 32 (3 * t + 1)), ?(wrap_small 32 (3 * t + 2)), ?(wrap_small 32 (t + 1)), ?(wrap_small 32 (t + 2)) by (unfold in_range; lia);
    rewrite !idx_ok by (auto; lia); cbn [obind]; destruct (push_restart p); cbn [andb]; try (destruct (_ || _)); cbn [six replicate numbered]; repeat (f_equal; try lia).
Qed.

Lemma stores_ok dst' vs : forall m o, 0 <= o -> 4 * (o + Z.of_nat (length vs)) <= b_size dst' -> exists m', stores m dst' (numbered o vs) = Ok m' /\
  (forall h w, (h <> b_handle dst' \/ w < b_offset dst' / 4 + o \/ b_offset dst' / 4 + o + Z.of_nat (length vs) <= w) -> m' h w = m h w) /\
  (forall j v, vs !! j = Some v -> m' (b_handle dst') (b_offset dst' / 4 + o + Z.of_nat j) = v).
Proof.
  induction vs as [|v vs IH]; intros m o Ho Hs; cbn [numbered stores].
  - exists m. split; [reflexivity|]. split; [reflexivity|]. intros j v. rewrite lookup_nil. discriminate.
  - cbn [length] in Hs. rewrite (proj2 (Z.leb_le _ _)), (proj2 (Z.leb_le _ _)) by lia. cbn [andb]. destruct (IH (store m (b_handle dst') (b_offset dst' / 4 + o) v) (o + 1)) as (m' & -> & H1 & H2); [lia|lia|]. exists m'. split; [reflexivity|]. split.
    + intros h w Hw. cbn [length] in Hw. rewrite H1 by lia. unfold store. destruct (Z.eqb_spec h (b_handle dst')), (Z.eqb_spec w (b_offset dst' / 4 + o)); cbn [andb]; try reflexivity. lia.
    + intros [|j] x Hx; cbn in Hx.
      * injection Hx as <-. rewrite Z.add_0_r, H1 by lia. unfold store. now rewrite !Z.eqb_refl.
      * rewrite <- (H2 j x Hx). f_equal. lia.
Qed.

Lemma target_words t v : v ∈ target t -> in_range 32 v.
Proof.
  assert (forall k, in_range 32 (at_of indices_of k)) as Hr.
  { intros k. unfold at_of, indices_of, stream. destruct (_ !! _) as [x|] eqn:E; cbn; [|unfold in_range; lia]. apply list_lookup_fmap_Some_1 in E as (y & -> & _). unfold read_index, byte, in_range. assert (forall a, 0 <= a mod 256 < 256) as B by (intros; apply Z.mod_pos_bound; lia). repeat match goal with |- context [?a mod 256] => pose proof (B a); generalize dependent (a mod 256); intros end. repeat case_match; lia. }
  unfold target, slot. destruct (corners _ _) as [[x y] z]. assert (in_range 32 0) by (unfold in_range; lia). assert (forall o, (o = None \/ o = Some (at_of indices_of x, at_of indices_of y, at_of indices_of z)) -> v ∈ six o -> in_range 32 v) as Hs. { intros o [-> | ->]; cbn; rewrite !elem_of_cons; intros Hv; assert (~ v ∈ []) by apply not_elem_of_nil; intuition (subst; auto). }
  apply Hs. destruct restart_of; [destruct (_ || _)|]; auto.
Qed.

(** Any list of invocations. *)
Lemma run_range_ok l : (forall g, g ∈ l -> 0 <= g.1 /\ 0 <= g.2 * row p /\ number g < 2 ^ 32) -> forall m, words_ok m -> (forall w, m (b_handle src) w = m0 (b_handle src) w) -> exists m', run m src dst p l = Ok m' /\ words_ok m' /\
  (forall h w, (h <> b_handle dst \/ forall g j, g ∈ l -> number g < push_triangles p -> 0 <= j < 6 -> w <> b_offset dst / 4 + 6 * number g + j) -> m' h w = m h w) /\
  (forall g j v, g ∈ l -> number g < push_triangles p -> target (number g) !! j = Some v -> m' (b_handle dst) (b_offset dst / 4 + 6 * number g + Z.of_nat j) = v).
Proof.
  destruct (do_target _ _ _ _ _ D) as [_ Hsize]. pose proof (do_apart _ _ _ _ _ D) as Hne. induction l as [|g l IH] using rev_ind; intros Hl m M Hm.
  - exists m. split; [reflexivity|]. split; [exact M|]. split; [reflexivity|]. intros g j v Hg. now apply not_elem_of_nil in Hg.
  - destruct (IH) with (m := m) as (m1 & E1 & M1 & F1 & F2); [intros x Hx; apply Hl; apply elem_of_app; now left|exact M|exact Hm|]. assert (forall k m2, run m2 src dst p (k ++ [g]) = let! m3 := run m2 src dst p k in run m3 src dst p [g]) as Erun. { induction k as [|x k IHk]; intros m2; [cbn [app run]; reflexivity|]. cbn [app run]. destruct (invocation m2 src p x); cbn [obind]; [|reflexivity..]. destruct (stores m2 dst _); cbn [obind]; [apply IHk|reflexivity..]. }
    rewrite Erun, E1. cbn [obind run]. destruct (Hl g) as (G1 & G2 & G3); [apply elem_of_app; right; left|]. assert (forall w, m1 (b_handle src) w = m0 (b_handle src) w) as Hm1 by (intros w; rewrite F1 by auto; apply Hm). rewrite (invocation_ok m1 g M1 Hm1 G1 G2 G3). cbn [obind]. assert (0 <= number g) as G0 by (unfold number; lia). destruct (Z.leb_spec (push_triangles p) (number g)) as [Hge|Hlt].
    + cbn [stores obind]. exists m1. split; [reflexivity|]. split; [exact M1|]. split.
      * intros h w Hw. apply F1. destruct Hw as [Hw|Hw]; [now left|right]. intros x j Hx. apply Hw. apply elem_of_app. now left.
      * intros x j v [Hx|Hx%list_elem_of_singleton]%elem_of_app Hlt Hv; [now apply F2|subst x; lia].
    + destruct (stores_ok dst (target (number g)) m1 (6 * number g)) as (m2 & -> & S1 & S2); [lia|unfold target; rewrite length_six; lia|]. cbn [obind]. unfold target in S1. rewrite length_six in S1. exists m2. split; [reflexivity|]. split; [|split].
      * intros h w. destruct (Z.eq_dec h (b_handle dst)) as [->|Hh]; [|rewrite S1 by auto; apply M1]. destruct (Z_lt_dec w (b_offset dst / 4 + 6 * number g)); [rewrite S1 by auto; apply M1|]. destruct (Z_le_dec (b_offset dst / 4 + 6 * number g + Z.of_nat 6) w); [rewrite S1 by auto; apply M1|].
        destruct (lookup_lt_is_Some_2 (target (number g)) (Z.to_nat (w - (b_offset dst / 4 + 6 * number g)))) as [v Hv]; [unfold target; rewrite length_six; lia|]. pose proof (S2 _ _ Hv) as Ew. rewrite Z2Nat.id in Ew by lia. replace (b_offset dst / 4 + 6 * number g + (w - (b_offset dst / 4 + 6 * number g))) with w in Ew by ring. rewrite Ew. eapply target_words, list_elem_of_lookup_2, Hv.
      * intros h w Hw. rewrite S1; [apply F1; destruct Hw as [Hw|Hw]; [now left|right]; intros x j Hx; apply Hw; apply elem_of_app; now left|]. destruct Hw as [Hw|Hw]; [now left|right]. specialize (Hw g (w - (b_offset dst / 4 + 6 * number g)) ltac:(apply elem_of_app; right; left) Hlt). lia.
      * intros x j v Hx Hxt Hv. pose proof (lookup_lt_Some _ _ _ Hv) as Hj. unfold target in Hj. rewrite length_six in Hj. destruct (Z.eq_dec (number x) (number g)) as [En|En]; [rewrite En in *; now apply S2|]. apply elem_of_app in Hx as [Hx|Hx%list_elem_of_singleton]; [|now subst x]. rewrite S1 by lia. now apply F2.
Qed.
End dispatch.

(** ** The grid of a dispatch *)

Definition limits_ok (l : limits) : Prop := (exists n, 0 <= n <= 32 /\ offset_alignment l = 2 ^ n) /\ 1 <= max_x l < 2 ^ 32 /\ 1 <= max_y l < 2 ^ 32 /\ 0 <= max_range l < 2 ^ 32.

Lemma elem_grid g x y : g ∈ grid x y <-> 0 <= g.1 < x * 64 /\ 0 <= g.2 < y.
Proof.
  destruct g as [i j]. unfold grid. rewrite list_elem_of_bind. cbn [fst snd]. split.
  - intros (k & Hk & Hj%elem_of_seqZ). apply list_elem_of_fmap in Hk as (i' & E & Hi%elem_of_seqZ). injection E as -> ->. lia.
  - intros [Hi Hj]. exists j. split; [apply list_elem_of_fmap; exists i; split; [reflexivity|apply elem_of_seqZ; lia]|apply elem_of_seqZ; lia].
Qed.

Lemma rows_cover l tris : limits_ok l -> 1 <= tris <= 715827882 -> exists gx gy, group_rows l tris = Ok (gx, gy) /\ 1 <= gx < 2 ^ 26 /\ 1 <= gy < 2 ^ 32 /\ tris <= gy * (gx * 64) < 2 ^ 32.
Proof.
  intros (_ & Hx & _) Ht. unfold group_rows. rewrite (wrap_small 64 (tris + 63)) by (unfold in_range; lia). pose proof (Z.div_mod (tris + 63) 64 ltac:(lia)) as Eg. pose proof (Z.mod_pos_bound (tris + 63) 64 ltac:(lia)). set (n := (tris + 63) / 64) in *. destruct (Z.leb_spec n (max_x l)) as [Hle|Hgt].
  - exists n, 1. split; [reflexivity|]. lia.
  - rewrite (proj2 (Z.eqb_neq _ _)) by lia. rewrite (wrap_small 64 (n + max_x l)), (wrap_small 64 (n + max_x l - 1)) by (unfold in_range; lia). set (gx := max_x l) in *. pose proof (Z.div_mod (n + gx - 1) gx ltac:(lia)) as Eq. pose proof (Z.mod_pos_bound (n + gx - 1) gx ltac:(lia)). set (q := (n + gx - 1) / gx) in *. exists gx, q. split; [reflexivity|]. assert (n <= q * gx < n + gx) by lia. assert (1 <= q) by nia. assert (q <= q * gx) by nia. replace (q * (gx * 64)) with (q * gx * 64) by ring. lia.
Qed.

(** ** Lines *)

Fixpoint lines (l : list Z) : list (Z * Z) := match l with a :: b :: l => (a, b) :: lines l | _ => [] end.

Lemma lines_slots (l : list (option triangle)) : List.filter proper (lines (concat (six <$> l))) = List.filter proper (concat (edges <$> omap id l)).
Proof. induction l as [|[[[a b] c]|] l IH]; [reflexivity| |exact IH]. cbn -[proper]. cbn -[proper] in IH. unfold fmap in *. now rewrite IH. Qed.

Lemma read_word m h w : words_ok m -> read_index m h (4 * w) 4 = m h w.
Proof. intros M. rewrite <- (Z.add_0_r (4 * w)). symmetry. exact (word_index m h w 0 4 M ltac:(lia) ltac:(auto)). Qed.

(** A list of words in memory, as blocks of six. *)
Lemma stream_blocks m h a n (f : Z -> list Z) : words_ok m -> (4 | a) -> 0 <= n -> (forall t j, 0 <= t < n -> 0 <= j < 6 -> f t !! Z.to_nat j = Some (m h (a / 4 + 6 * t + j))) -> (forall t, length (f t) = 6%nat) -> stream m h a 4 (6 * n) = concat (f <$> seqZ 0 n).
Proof.
  intros M [q Eq] Hn Hf Hlen. assert (a / 4 = q) as Ea by (rewrite Eq; apply Z.div_mul; lia). rewrite Ea in Hf. unfold stream. assert (forall k : nat, Z.of_nat k <= n -> (fun k => read_index m h (a + k * 4) 4) <$> seqZ 0 (6 * Z.of_nat k) = concat (f <$> seqZ 0 (Z.of_nat k))) as H; [|specialize (H (Z.to_nat n)); rewrite Z2Nat.id in H by lia; apply H; lia].
  induction k as [|k IH]; intros Hk; [reflexivity|]. replace (6 * Z.of_nat (S k)) with (6 * Z.of_nat k + 6) by lia. replace (Z.of_nat (S k)) with (Z.of_nat k + 1) by lia. rewrite !seqZ_app by lia. rewrite !fmap_app, concat_app, IH by lia. f_equal. rewrite !Z.add_0_l. change (seqZ (Z.of_nat k) 1) with [Z.of_nat k]. cbn [fmap list_fmap concat]. rewrite app_nil_r. set (t := Z.of_nat k) in *.
  apply list_eq. intros i. destruct (decide (i < 6)%nat) as [Hi|Hi].
  - pose proof (Hf t (Z.of_nat i) ltac:(lia) ltac:(lia)) as E. rewrite Nat2Z.id in E. rewrite E, list_lookup_fmap, lookup_seqZ_lt by lia. cbn [fmap option_fmap option_map]. f_equal. rewrite <- (read_word m h _ M). f_equal. lia.
  - rewrite !lookup_ge_None_2; [reflexivity|rewrite Hlen; lia|rewrite length_fmap, length_seqZ; lia].
Qed.

(** ** A dispatch *)

Lemma slot_ext v v' topology r t : (let '(x, y, z) := corners topology t in v x = v' x /\ v y = v' y /\ v z = v' z) -> slot v topology r t = slot v' topology r t.
Proof. unfold slot. destruct (corners topology t) as [[x y] z]. now intros (-> & -> & ->). Qed.

Lemma length_stream m h a i n : 0 <= n -> Z.of_nat (length (stream m h a i n)) = n.
Proof. intros H. unfold stream. rewrite length_fmap, length_seqZ. lia. Qed.

(** In any order of the invocations. *)
Lemma dispatch_result m src dst p count gx gy order : dispatch_ok m src dst p count -> row p = gx * 64 -> 1 <= gx -> push_triangles p <= gy * (gx * 64) < 2 ^ 32 -> order ≡ₚ grid gx gy ->
  exists m', run m src dst p order = Ok m' /\ words_ok m' /\ stream m' (b_handle dst) (b_offset dst) 4 (6 * push_triangles p) = concat (six <$> slots (indices_of m src p count) (push_topology p) (restart_of p)) /\
  forall h w, h <> b_handle dst \/ w < b_offset dst / 4 \/ b_offset dst / 4 + 6 * push_triangles p <= w -> m' h w = m h w.
Proof.
  intros D Er Hgx Ht Ho. assert (forall g, g ∈ order <-> 0 <= g.1 < row p /\ 0 <= g.2 < gy) as Hg by (intros g; rewrite Ho, elem_grid, Er; reflexivity). assert (0 <= push_triangles p) as T0. { destruct D as [_ _ _ Hc [-> _] _ _ _ _]. unfold triangle_count. destruct (_ =? 0); [apply Z.div_pos; lia|]. destruct (Z.leb_spec 3 count); lia. }
  destruct (run_range_ok m src dst p count D order) with (m := m) as (m' & E & M & F1 & F2); [|apply (do_words _ _ _ _ _ D)|reflexivity|].
  { intros g Hin%Hg. split; [lia|]. split; [apply Z.mul_nonneg_nonneg; lia|]. unfold number. assert ((g.2 + 1) * row p <= gy * row p) by (apply Z.mul_le_mono_nonneg_r; lia). rewrite Er in *. lia. }
  exists m'. split; [exact E|]. split; [exact M|]. split.
  - rewrite (stream_blocks m' _ _ (push_triangles p) (target m src p count) M); [| |exact T0| |intros t; apply length_six].
    + unfold slots, indices_of. rewrite length_stream by apply (do_count _ _ _ _ _ D). rewrite <- (proj1 (do_triangles _ _ _ _ _ D)). rewrite <- list_fmap_compose. reflexivity.
    + apply (do_target _ _ _ _ _ D).
    + intros t j Htt Hj. destruct (lookup_lt_is_Some_2 (target m src p count t) (Z.to_nat j)) as [v Hv]; [unfold target; rewrite length_six; lia|]. rewrite Hv. f_equal. symmetry. assert (number p (t mod row p, t / row p) = t) as En by (unfold number; cbn [fst snd]; pose proof (Z.div_mod t (row p) ltac:(lia)); lia).
      specialize (F2 (t mod row p, t / row p) (Z.to_nat j) v). rewrite En, Z2Nat.id in F2 by lia. apply F2; [|lia|exact Hv]. apply Hg. cbn [fst snd]. split; [apply Z.mod_pos_bound; lia|]. split; [apply Z.div_pos; lia|]. apply Z.div_lt_upper_bound; [lia|]. rewrite Er. lia.
  - intros h w Hw. apply F1. destruct Hw as [Hw|Hw]; [now left|right]. intros g j Hin%Hg Hn Hj. assert (0 <= number p g) by (unfold number; assert (0 <= g.2 * row p) by (apply Z.mul_nonneg_nonneg; lia); lia). lia.
Qed.

(** ** Reserved ranges *)

Lemma land_above k x : 0 <= k <= 64 -> in_range 64 x -> Z.land x (u64 (Z.lnot (2 ^ k - 1))) = x / 2 ^ k * 2 ^ k.
Proof.
  intros Hk Hx. rewrite <- Z.shiftr_div_pow2, <- Z.shiftl_mul_pow2 by lia. replace (2 ^ k - 1) with (Z.ones k) by (rewrite Z.ones_equiv; lia). apply Z.bits_inj'. intros i Hi. rewrite Z.land_spec, wrap_testbit, Z.lnot_spec, Z.shiftl_spec by lia. destruct (Z.ltb_spec i k).
  - rewrite Z.ones_spec_low, (Z.testbit_neg_r _ (i - k)) by lia. cbn [negb]. now rewrite !andb_false_r.
  - rewrite Z.ones_spec_high, Z.shiftr_spec by lia. replace (i - k + k) with i by ring. cbn [negb]. rewrite andb_true_r. destruct (Z.ltb_spec i 64); [now rewrite andb_true_r|]. now rewrite (testbit_high 64 x), andb_false_r by (auto; lia).
Qed.

Lemma chunk_bytes_ok size : 0 < size < 2 ^ 32 -> size <= chunk_bytes size < 2 ^ 33.
Proof.
  intros H. unfold chunk_bytes. change MIB with (2 ^ 20). rewrite (wrap_small 64 (size + 2 ^ 20)), (wrap_small 64 (size + 2 ^ 20 - 1)) by (unfold in_range; lia). rewrite land_above by (unfold in_range; lia). pose proof (Z.div_mod (size + 2 ^ 20 - 1) (2 ^ 20) ltac:(lia)). pose proof (Z.mod_pos_bound (size + 2 ^ 20 - 1) (2 ^ 20) ltac:(lia)). lia.
Qed.

Lemma align_ok used n : 0 <= used < 2 ^ 40 -> 2 <= n <= 32 -> used <= align used (2 ^ n) /\ (4 | align used (2 ^ n)).
Proof.
  intros Hu Hn. assert (4 <= 2 ^ n <= 2 ^ 32) as Hp by (change 4 with (2 ^ 2); split; apply Z.pow_le_mono_r; lia). unfold align. set (al := 2 ^ n) in *. rewrite (wrap_small 64 (used + al)), (wrap_small 64 (used + al - 1)) by (unfold in_range; lia). pose proof (Z.div_mod (used + al - 1) al ltac:(lia)). pose proof (Z.mod_pos_bound (used + al - 1) al ltac:(lia)). rewrite wrap_small by (unfold in_range; lia). split; [lia|]. apply Z.divide_mul_r. unfold al. exists (2 ^ (n - 2)). change 4 with (2 ^ 2). rewrite <- Z.pow_add_r by lia. f_equal. lia.
Qed.

Definition chunk_ok (c : polygon_chunk) : Prop := 0 <= c_used c <= c_size c /\ c_size c < 2 ^ 40.
Definition buffers (s : storage) : list Z := c_buffer <$> chunks s.
(** Distinct buffers, used at most to their end. *)
Definition storage_ok (s : storage) : Prop := (forall c, c ∈ chunks s -> chunk_ok c) /\ NoDup (buffers s).
(** A range that has been handed out. *)
Definition within (s : storage) (r : buffer_range) : Prop := exists c, c ∈ chunks s /\ c_buffer c = b_handle r /\ 0 <= b_offset r /\ b_offset r + b_size r <= c_used c.
Definition disjoint (r r' : buffer_range) : Prop := b_handle r <> b_handle r' \/ b_offset r + b_size r <= b_offset r' \/ b_offset r' + b_size r' <= b_offset r.
(** The buffer that a driver gives to a new chunk is not one of the others. *)
Definition fresh_chunk (s : storage) (size : Z) (a : reserve_answers) : Prop := ~ handle (a_buffer (a_chunk a) (chunk_bytes size)) ∈ buffers s.

Lemma find_chunk_ok al size l before c start after : find_chunk al size l = Some (before, c, start, after) -> l = before ++ c :: after /\ start = align (c_used c) al /\ start <= c_size c /\ size <= c_size c - start.
Proof.
  revert before. induction l as [|x l IH]; intros before; cbn [find_chunk]; [discriminate|]. destruct (_ && _) eqn:E.
  - intros [= <- <- <- <-]. apply andb_true_iff in E as [E1%Z.leb_le E2%Z.leb_le]. auto.
  - destruct (find_chunk al size l) as [[[[b y] st] af]|]; [|discriminate]. intros [= <- <- <- <-]. destruct (IH b eq_refl) as (-> & H). auto.
Qed.

Lemma make_buffer_handle types size host a r b m ev : make_buffer types size host a = (r, b, m, ev) -> r = VK_SUCCESS -> b = handle (a_buffer a size).
Proof.
  unfold make_buffer. destruct (Z.eqb_spec (code (a_buffer a size)) VK_SUCCESS) as [_|Hne]; cbn [negb]; [|intros [= <- <- <- <-] E; contradiction].
  destruct (select_type _ _ _ _ _); [|intros [= <- <- <- <-] E; discriminate]. destruct (Z.eqb_spec (if code (a_memory a) =? VK_SUCCESS then bound a else code (a_memory a)) VK_SUCCESS) as [_|Hne]; intros [= <- <- <- <-] E; [reflexivity|contradiction].
Qed.

(** The chunk chosen, old or new. *)
Lemma take_chunk_ok types n size s a r before c start after ev : storage_ok s -> 2 <= n <= 32 -> 0 < size < 2 ^ 32 -> fresh_chunk s size a -> take_chunk types (2 ^ n) size (chunks s) a = (r, Some (before, c, start, after), ev) ->
  chunk_ok c /\ c_used c <= start /\ start + size <= c_size c /\ (4 | start) /\ NoDup (c_buffer <$> before ++ c :: after) /\
  (chunks s = before ++ c :: after \/ c_used c = 0 /\ chunks s = after /\ before = []).
Proof.
  intros [So Sn] Hn Hs Hf. unfold take_chunk. destruct (find_chunk (2 ^ n) size (chunks s)) as [[[[b x] st] af]|] eqn:E.
  - intros [= <- <- <- <- <- <-]. destruct (find_chunk_ok _ _ _ _ _ _ _ E) as (El & -> & H1 & H2). assert (chunk_ok x) as Hx by (apply So; rewrite El; apply elem_of_app; right; left). destruct Hx as [Hu Hz]. destruct (align_ok (c_used x) n) as [A1 A2]; [lia|lia|]. split; [now split|]. unfold buffers in Sn. rewrite El in Sn. split_and!; auto; lia.
  - destruct (h_chunk a); cbn [negb]; [|discriminate]. destruct (make_buffer types (chunk_bytes size) false (a_chunk a)) as [[[r' b] m] ev'] eqn:Em. destruct (Z.eqb_spec r' VK_SUCCESS) as [->|]; cbn [negb]; [|discriminate]. intros [= <- <- <- <- <- <-]. pose proof (make_buffer_handle _ _ _ _ _ _ _ _ Em eq_refl) as ->. pose proof (chunk_bytes_ok size Hs) as Hcb.
    cbn [c_used c_size app c_buffer fmap list_fmap]. split; [split; cbn; lia|]. split; [lia|]. split; [lia|]. split; [apply Z.divide_0_r|]. split; [apply NoDup_cons; auto|right; auto].
Qed.

Lemma polygon_reserve_ok types al s size a r o s' ev : storage_ok s -> (exists n, 0 <= n <= 32 /\ al = 2 ^ n) -> 0 < size < 2 ^ 32 -> fresh_chunk s size a -> reserve types al s size a = (r, o, s', ev) ->
  storage_ok s' /\ (forall x, within s x -> within s' x) /\ (forall h, h ∈ buffers s' -> h ∈ buffers s \/ h = handle (a_buffer (a_chunk a) (chunk_bytes size))) /\
  (forall b start, o = Some (b, start) -> r = VK_SUCCESS /\ (4 | start) /\ within s' (Range b start size) /\ forall x, within s x -> disjoint x (Range b start size)).
Proof.
  intros S (n & Hn & ->) Hs Hf. unfold reserve. set (al := if 2 ^ n <? 4 then 4 else 2 ^ n). assert (exists n', 2 <= n' <= 32 /\ al = 2 ^ n') as (n' & Hn' & ->). { unfold al. destruct (Z.ltb_spec (2 ^ n) 4) as [H|H]; [exists 2; split; [lia|reflexivity]|]. exists n. split; [|reflexivity]. split; [|lia]. destruct (Z_lt_le_dec n 2) as [Hl|]; [|assumption]. assert (2 ^ n <= 2 ^ 1) by (apply Z.pow_le_mono_r; lia). lia. }
  destruct (take_chunk types (2 ^ n') size (chunks s) a) as [[r1 [[[[before c] start] after]|]] ev1] eqn:Et; [|intros [= <- <- <- <-]; split_and!; auto; discriminate].
  destruct (take_chunk_ok _ _ _ _ _ _ _ _ _ _ _ S Hn' Hs Hf Et) as (Hc & Hus & Hfit & Hdiv & Hnd & Hold). assert (forall u l, c_used c <= u <= c_size c -> let s2 := Storage (before ++ Chunk (c_buffer c) (c_memory c) (c_size c) u :: after) l in storage_ok s2 /\ (forall x, within s x -> within s2 x) /\ (forall h, h ∈ buffers s2 -> h ∈ buffers s \/ h = handle (a_buffer (a_chunk a) (chunk_bytes size)))) as Hany.
  { intros u l Hu s2. split; [split|split].
    - unfold s2. cbn [chunks]. intros x Hx. destruct S as [So _]. apply elem_of_app in Hx as [Hx|[->|Hx]%elem_of_cons]; [|destruct Hc; split; cbn; lia|]; apply So; destruct Hold as [->|(_ & -> & ->)]; rewrite ?elem_of_app, ?elem_of_cons; auto. now apply not_elem_of_nil in Hx.
    - unfold buffers, s2. cbn [chunks]. rewrite fmap_app in *. exact Hnd.
    - intros x (y & Hy & Eb & Ho & Hend). destruct Hold as [Eold|(_ & Es & Ebf)].
      + rewrite Eold in Hy. apply elem_of_app in Hy as [Hy|[->|Hy]%elem_of_cons]; [exists y|exists (Chunk (c_buffer c) (c_memory c) (c_size c) u)|exists y]; unfold s2; cbn [chunks]; rewrite elem_of_app, elem_of_cons; cbn; split_and!; auto; lia.
      + rewrite Es in Hy. exists y. unfold s2. rewrite Ebf. cbn [chunks app]. rewrite elem_of_cons. auto.
    - intros h Hh. unfold buffers, s2 in *. cbn [chunks] in Hh. destruct Hold as [->|(_ & Es & ->)]; [left; rewrite fmap_app in *; exact Hh|]. unfold take_chunk in Et. rewrite Es. cbn in Hh. apply elem_of_cons in Hh as [->|Hh]; [|now left]. destruct (find_chunk (2 ^ n') size (chunks s)) as [[[[b x] st] af]|] eqn:E; [left; injection Et as _ Eb0 _ _ Ea0 _; destruct (find_chunk_ok _ _ _ _ _ _ _ E) as (El & _); rewrite Es, Eb0, Ea0 in El; apply (f_equal length) in El; cbn in El; lia|].
      destruct (h_chunk a); cbn [negb] in Et; [|discriminate]. destruct (make_buffer types (chunk_bytes size) false (a_chunk a)) as [[[r' b] m] ev'] eqn:Em. destruct (Z.eqb_spec r' VK_SUCCESS) as [->|]; cbn [negb] in Et; [|discriminate]. injection Et as _ <- _ _. right. exact (make_buffer_handle _ _ _ _ _ _ _ _ Em eq_refl). }
  assert (forall l, Storage (before ++ c :: after) l = Storage (before ++ Chunk (c_buffer c) (c_memory c) (c_size c) (c_used c) :: after) l) as Esame by now destruct c. destruct Hc as [Hc1 Hc2].
  destruct (take_pool (pools s) a) as [[r2 [[[first p] rest]|]] ev2]; [|intros [= <- <- <- <-]; rewrite Esame; destruct (Hany (c_used c) (pools s)) as (H1 & H2 & H3); [lia|]; split_and!; auto; discriminate].
  destruct (_ =? VK_SUCCESS); cbn [negb]; [|intros [= <- <- <- <-]; rewrite Esame; destruct (Hany (c_used c) (first ++ p :: rest)) as (H1 & H2 & H3); [lia|]; split_and!; auto; discriminate].
  intros [= <- <- <- <-]. rewrite (wrap_small 64 (start + size)) by (unfold in_range; lia). destruct (Hany (start + size) (first ++ Pool (pool_handle p) (u32 (pool_used p + 1)) :: rest)) as (H1 & H2 & H3); [lia|]. split_and!; auto. intros b st [= <- <-]. split; [reflexivity|]. split; [assumption|]. split.
  - exists (Chunk (c_buffer c) (c_memory c) (c_size c) (start + size)). cbn. rewrite elem_of_app, elem_of_cons. split_and!; auto; lia.
  - intros x (y & Hy & Eb & Ho & Hend). unfold disjoint. cbn [b_handle b_offset b_size]. rewrite <- Eb. destruct Hold as [Eold|(H0 & Es & Ebf)].
    + rewrite Eold in Hy. rewrite fmap_app in Hnd. cbn [fmap list_fmap] in Hnd. apply NoDup_app in Hnd as (_ & Hd1 & Hd2). apply NoDup_cons in Hd2 as [Hd2 _]. apply elem_of_app in Hy as [Hy|[->|Hy]%elem_of_cons]; [left|right; left; lia|left]; intros E.
      * apply (Hd1 (c_buffer c)); [rewrite <- E; now apply list_elem_of_fmap_2|left].
      * apply Hd2. rewrite <- E. now apply list_elem_of_fmap_2.
    + left. rewrite Ebf in Hnd. rewrite Es in Hy. cbn [app fmap list_fmap] in Hnd. apply NoDup_cons in Hnd as [Hd _]. intros E. apply Hd. rewrite <- E. now apply list_elem_of_fmap_2.
Qed.

(** ** Patterns *)

Lemma triangles_nonneg topology count : 0 <= count -> 0 <= triangle_count topology count.
Proof. intros H. unfold triangle_count. destruct (_ =? 0); [apply Z.div_pos; lia|]. destruct (Z.leb_spec 3 count); lia. Qed.

Definition live (d : device) : list pattern := omap id (patterns d) ++ retired_patterns d.
Definition pattern_ok (topology : Z) (p : pattern) : Prop := 1 <= p_triangles p <= UINT32_MAX / 6 /\ p_words p = pattern_words topology (p_triangles p).
Definition device_ok (d : device) : Prop := length (patterns d) = 3%nat /\ forall t p, patterns d !! t = Some (Some p) -> pattern_ok (Z.of_nat t) p.
(** The memory of a pattern still has what the host has written. *)
Definition holds (m : memory) (p : pattern) : Prop := forall j v, p_words p !! j = Some v -> m (p_buffer p) (Z.of_nat j) = v.

Lemma omap_insert (l : list (option pattern)) t o p : l !! t = Some o -> (forall q, q ∈ omap id l -> q ∈ omap id (<[t := Some p]> l) \/ o = Some q) /\ p ∈ omap id (<[t := Some p]> l) /\ (forall q, q ∈ omap id (<[t := Some p]> l) -> q = p \/ q ∈ omap id l).
Proof.
  intros Ht. assert (forall (q : pattern) (k : list (option pattern)), q ∈ omap id k <-> Some q ∈ k) as Ho. { intros q k. rewrite list_elem_of_omap. split; [intros (x & Hx & E); unfold id in E; now subst x|intros H; now exists (Some q)]. } split_and!.
  - intros q. rewrite !Ho, !list_elem_of_lookup. intros (i & Hi). destruct (decide (i = t)) as [->|Hne]; [right; congruence|left]. exists i. now rewrite list_lookup_insert_ne.
  - apply Ho. rewrite list_elem_of_lookup. exists t. apply list_lookup_insert_eq. now apply lookup_lt_Some in Ht.
  - intros q. rewrite !Ho, !list_elem_of_lookup. intros (i & Hi). destruct (decide (i = t)) as [->|Hne]; [rewrite list_lookup_insert_eq in Hi by (eapply lookup_lt_Some, Ht); left; congruence|right]. exists i. now rewrite list_lookup_insert_ne in Hi.
Qed.

(** The pattern of a topology, new or old, has enough triangles; no pattern is given up. *)
Definition pattern_post (d : device) (topology tris : Z) (a : pattern_answers) (x : Z * option Z * device * list event) : Prop :=
  let '(r, o, d', ev) := x in
  device_ok d' /\ polygon d' = polygon d /\ (forall p, p ∈ live d -> p ∈ live d') /\ (forall p, p ∈ live d' -> p ∈ live d \/ exists n, p_buffer p = handle (a_buffer (a_make a) n)) /\
  (forall b, o = Some b -> r = VK_SUCCESS /\ exists p, p ∈ live d' /\ p_buffer p = b /\ p_words p = pattern_words topology (p_triangles p) /\ tris <= p_triangles p <= UINT32_MAX / 6) /\ (o = None -> r <> VK_SUCCESS).

Lemma pattern_for_ok types d topology tris a : device_ok d -> 0 <= topology <= 2 -> 1 <= tris <= UINT32_MAX / 6 -> exists x, pattern_for types d topology tris a = Ok x /\ pattern_post d topology tris a x.
Proof.
  intros [Hl Hp] Ht Htr. unfold pattern_for. destruct (rd_ok (patterns d) topology) as (o & -> & Eo); [lia|]. cbn [obind]. eexists. split; [reflexivity|].
  assert (forall r ev, r <> VK_SUCCESS -> pattern_post d topology tris a (r, None, d, ev)) as Hfail by (intros r ev Hr; split_and!; auto; [now split|discriminate]).
  assert (forall count, tris <= count -> pattern_post d topology tris a (pattern_grow types d topology a o count)) as Hgrow.
  { intros count Hc. unfold pattern_grow. destruct (Z.ltb_spec (UINT32_MAX / 6) count) as [|Hmax]; [now apply Hfail|]. destruct (a_host a); cbn [negb]; [|now apply Hfail]. destruct (make_buffer types (u64 (count * 24)) true (a_make a)) as [[[r b] mm] ev] eqn:Em. destruct (Z.eqb_spec r VK_SUCCESS) as [->|Hr]; cbn [negb]; [|now apply Hfail]. pose proof (make_buffer_handle _ _ _ _ _ _ _ _ Em eq_refl) as Eb.
    destruct (Z.eqb_spec (if a_map a =? VK_SUCCESS then a_flush a else a_map a) VK_SUCCESS) as [_|Hr]; cbn [negb]; [|now apply Hfail]. rewrite (wrap_small 32 count) by (unfold in_range; change (UINT32_MAX / 6) with 715827882 in *; lia). set (p := Pattern b mm count (pattern_words topology count)). destruct (omap_insert _ _ _ p Eo) as (O1 & O2 & O3). split_and!; [split; cbn [patterns]|reflexivity|..].
    - now rewrite length_insert.
    - intros t q Hq. destruct (decide (t = Z.to_nat topology)) as [->|Hne].
      + rewrite list_lookup_insert_eq in Hq by lia. injection Hq as <-. rewrite Z2Nat.id by lia. split; cbn [p_triangles p_words p]; [lia|reflexivity].
      + rewrite list_lookup_insert_ne in Hq by congruence. now apply Hp.
    - intros q [Hq|Hq]%elem_of_app; unfold live; cbn [patterns retired_patterns]; rewrite elem_of_app; [destruct (O1 q Hq) as [H| ->]; [now left|right; left]|right; destruct o; [now right|assumption]].
    - intros q. unfold live. cbn [patterns retired_patterns]. rewrite !elem_of_app. intros [Hq|Hq]; [destruct (O3 q Hq) as [->|H]; [right; exists (u64 (count * 24)); exact Eb|auto]|]. left. destruct o as [o|]; [|auto]. apply elem_of_cons in Hq as [->|Hq]; [|auto]. left. apply list_elem_of_omap. exists (Some o). split; [eapply list_elem_of_lookup_2, Eo|reflexivity].
    - intros b' [= <-]. split; [reflexivity|]. exists p. split; [unfold live; cbn [patterns]; rewrite elem_of_app; now left|]. cbn [p p_buffer p_words p_triangles]. split_and!; auto; lia.
    - discriminate. }
  assert (forall n, tris <= (if n <? tris then tris else n)) as Hn by (intros n; destruct (Z.ltb_spec n tris); lia). destruct o as [q|]; [|apply Hgrow, Hn]. destruct (Z.ltb_spec (p_triangles q) tris) as [Hlt|Hge]; [apply Hgrow, Hn|]. destruct (Hp _ _ Eo) as [Q1 Q2]. rewrite Z2Nat.id in Q2 by lia.
  split_and!; auto; [now split|]. intros b [= <-]. split; [reflexivity|]. exists q. split; [|split_and!; auto; lia]. unfold live. apply elem_of_app. left. apply list_elem_of_omap. exists (Some q). split; [eapply list_elem_of_lookup_2, Eo|reflexivity].
Qed.

Lemma lookup_blocks (f : Z -> list Z) n t j : (forall x, length (f x) = 6%nat) -> (t < n)%nat -> (j < 6)%nat -> (seqZ 0 (Z.of_nat n) ≫= f) !! (6 * t + j)%nat = f (Z.of_nat t) !! j.
Proof.
  intros Hf. revert t. induction n as [|n IH]; intros t Ht Hj; [lia|]. assert (forall k, length (seqZ 0 (Z.of_nat k) ≫= f) = (6 * k)%nat) as Hlen. { induction k as [|k IHk]; [reflexivity|]. replace (Z.of_nat (S k)) with (Z.of_nat k + 1) by lia. rewrite seqZ_app by lia. rewrite bind_app, length_app, IHk. rewrite Z.add_0_l. change (seqZ (Z.of_nat k) 1) with [Z.of_nat k]. cbn [mbind list_bind]. rewrite app_nil_r, Hf. lia. }
  replace (Z.of_nat (S n)) with (Z.of_nat n + 1) by lia. rewrite seqZ_app by lia. rewrite bind_app, Z.add_0_l. change (seqZ (Z.of_nat n) 1) with [Z.of_nat n]. cbn [mbind list_bind]. rewrite app_nil_r. destruct (decide (t = n)) as [->|Hne].
  - rewrite lookup_app_r by (unfold mbind in Hlen; rewrite Hlen; lia). unfold mbind in Hlen. rewrite Hlen. f_equal. lia.
  - rewrite lookup_app_l by (unfold mbind in Hlen; rewrite Hlen; lia). apply IH; lia.
Qed.

(** A pattern in memory is the edges of vertices 0, 1, 2, ... *)
Lemma pattern_stream m p topology count : words_ok m -> holds m p -> 0 <= topology <= 2 -> 0 <= count -> p_words p = pattern_words topology (p_triangles p) -> triangle_count topology count <= p_triangles p <= UINT32_MAX / 6 ->
  stream m (p_buffer p) 0 4 (6 * triangle_count topology count) = concat (six <$> slots (seqZ 0 count) topology None).
Proof.
  intros M Hh Ht Hc Ew Hn. change (UINT32_MAX / 6) with 715827882 in Hn. pose proof (triangles_nonneg topology count Hc) as H0. set (tris := triangle_count topology count) in *. rewrite (stream_blocks m _ 0 tris (pattern_triangle topology) M (Z.divide_0_r 4) H0).
  - unfold slots. rewrite length_seqZ, Z2Nat.id by lia. fold tris. rewrite <- list_fmap_compose. f_equal. apply list_fmap_ext. intros i t Hi%lookup_seqZ. assert (0 <= t < tris) as Htt by lia. assert (forall k, 0 <= k < count -> at_of (seqZ 0 count) k = k) as Hat by (intros k Hk; unfold at_of; rewrite lookup_seqZ_lt by lia; cbn; lia). unfold compose, slot, corners, pattern_triangle, triangle_count in *. assert (topology = 0 \/ topology = 1 \/ topology = 2) as [E|[E|E]] by lia; subst topology; cbn [Z.eqb Pos.eqb] in *.
    + pose proof (Z.mul_div_le count 3 ltac:(lia)). rewrite !Hat by (unfold tris in Htt; lia). rewrite !wrap_small by (unfold in_range; lia). cbn [six]. repeat (f_equal; try lia).
    + unfold tris in Htt. destruct (Z.leb_spec 3 count); [|lia]. rewrite !Hat by lia. rewrite !wrap_small by (unfold in_range; lia). reflexivity.
    + unfold tris in Htt. destruct (Z.leb_spec 3 count); [|lia]. rewrite !Hat by lia. rewrite !wrap_small by (unfold in_range; lia). reflexivity.
  - intros t j Htt Hj. destruct (lookup_lt_is_Some_2 (pattern_triangle topology t) (Z.to_nat j)) as [v Hv]; [cbn; lia|]. rewrite Hv. f_equal. symmetry. change (0 / 4) with 0. rewrite Z.add_0_l. replace (6 * t + j) with (Z.of_nat (6 * Z.to_nat t + Z.to_nat j)) by lia. apply Hh. rewrite Ew. unfold pattern_words. replace (p_triangles p) with (Z.of_nat (Z.to_nat (p_triangles p))) by lia. rewrite lookup_blocks by (reflexivity || lia). now rewrite Z2Nat.id by lia.
  - reflexivity.
Qed.

(** ** The commands of a draw *)

(** Valid use of a source: the indices lie in the range, whose ends are whole words. *)
Record source_ok (m : memory) (src : buffer_range) (byte_off isize count : Z) : Prop := {
  so_words : words_ok m;
  so_size : isize = 1 \/ isize = 2 \/ isize = 4;
  so_count : 0 <= count < 2 ^ 32;
  so_offset : 0 <= byte_off /\ (isize | byte_off);
  so_range : 0 <= b_offset src /\ (4 | b_offset src) /\ (4 | b_size src) /\ b_size src < 2 ^ 32 /\ byte_off + count * isize <= b_size src }.

Definition restart_index (isize : Z) : Z := if isize =? 4 then 0xffffffff else if isize =? 2 then 0xffff else 0xff.
Definition restart_at (restart : bool) (topology isize : Z) : option Z := if restart && (topology =? 1) then Some (restart_index isize) else None.

(** What a successful call for indexed draws has recorded. *)
Record recorded (l : limits) (s : storage) (src : buffer_range) (count topology byte_off isize : Z) (restart : bool) (b start : Z) (s' : option storage) (cmds : list pre_command) (x y lay pipe : Z) (p : hybris_polygon_push) : Prop := {
  re_topology : topology = 0 \/ topology = 1 \/ topology = 2;
  re_triangles : 1 <= triangle_count topology count <= UINT32_MAX / 6;
  re_storage : exists st, s' = Some st /\ storage_ok st /\ within st (Range b start (24 * triangle_count topology count)) /\ (forall r, within s r -> within st r /\ disjoint r (Range b start (24 * triangle_count topology count)));
  re_start : (4 | start);
  re_push : p = Push byte_off isize (triangle_count topology count) topology (restart && (topology =? 1)) (x * 64);
  re_groups : 1 <= x /\ triangle_count topology count <= y * (x * 64) < 2 ^ 32;
  re_commands : cmds = [PBarrier ALL_COMMANDS COMPUTE_SHADER ACCESS_MEMORY ACCESS_SHADER; PBindPipeline pipe; PBindSets lay src (Range b start (24 * triangle_count topology count)); PPush lay p; PDispatch x y; PBarrier COMPUTE_SHADER VERTEX_INPUT ACCESS_SHADER_WRITE ACCESS_INDEX_READ] }.

Lemma edges_recorded types l d s count topology src byte_off isize restart a r b start d' s' cmds ev : limits_ok l -> storage_ok (default no_storage s) -> 0 <= topology -> 0 <= count -> fresh_chunk (default no_storage s) (24 * triangle_count topology count) (a_reserve a) ->
  hybris_polygon_edges_create types l d s count topology (Some src) byte_off isize restart a = Ok (r, Some (b, start), d', s', cmds, ev) ->
  exists x y lay pipe p, recorded l (default no_storage s) src count topology byte_off isize restart b start s' cmds x y lay pipe p.
Proof.
  intros L S Ht0 Hc F. unfold hybris_polygon_edges_create. pose proof (triangles_nonneg topology count Hc) as Hnn. set (tris := triangle_count topology count) in *. destruct (Z.ltb_spec 2 topology) as [|Ht]; [discriminate|]. destruct (Z.eqb_spec tris 0) as [|Hz]; [discriminate|]. destruct (Z.ltb_spec (UINT32_MAX / 6) tris) as [|Hmax]; [discriminate|]. cbn [orb]. change (UINT32_MAX / 6) with 715827882 in Hmax.
  rewrite (wrap_small 64 (tris * 24)), (Z.mul_comm tris 24) by (unfold in_range; lia). destruct (Z.ltb_spec (max_range l) (24 * tris)) as [|Hr]; [discriminate|]. destruct (h_edges a); cbn [negb]; [|discriminate]. destruct (if ready (polygon d) then _ else _) as [[r0 p0] ev0]. destruct (r0 =? VK_SUCCESS); cbn [negb]; [|discriminate].
  assert (forall st, default no_storage s = st -> match reserve types (offset_alignment l) st (24 * tris) (a_reserve a) with (r, None, s, ev') => Ok (r, None, Device (patterns d) (retired_patterns d) p0, Some s, [], ev0 ++ ev') | (_, Some (b, start), s, ev') => let! (gx, gy) := group_rows l tris in if (gx =? 0) || (UINT32_MAX / 64 <? gx) || (max_y l <? gy) then Ok (VK_ERROR_FEATURE_NOT_PRESENT, None, Device (patterns d) (retired_patterns d) p0, Some s, [], ev0 ++ ev') else
      Ok (VK_SUCCESS, Some (b, start), Device (patterns d) (retired_patterns d) p0, Some s, [PBarrier ALL_COMMANDS COMPUTE_SHADER ACCESS_MEMORY ACCESS_SHADER; PBindPipeline (pipeline p0); PBindSets (layout p0) src (Range b start (24 * tris)); PPush (layout p0) (Push byte_off isize tris topology (restart && (topology =? 1)) (u32 (gx * 64))); PDispatch (u32 gx) (u32 gy); PBarrier COMPUTE_SHADER VERTEX_INPUT ACCESS_SHADER_WRITE ACCESS_INDEX_READ], ev0 ++ ev') end = Ok (r, Some (b, start), d', s', cmds, ev) ->
    exists x y lay pipe p, recorded l st src count topology byte_off isize restart b start s' cmds x y lay pipe p) as H.
  { intros st Est. rewrite Est in S, F. destruct (reserve types (offset_alignment l) st (24 * tris) (a_reserve a)) as [[[r1 [[b1 st1]|]] s1] ev1] eqn:Er; [|discriminate]. pose proof L as (La & Hx & Hy & Hm). assert (0 < 24 * tris < 2 ^ 32) as Hsz by lia. destruct (polygon_reserve_ok _ _ _ _ _ _ _ _ _ S La Hsz F Er) as (S1 & W1 & _ & R1). destruct (R1 _ _ eq_refl) as (_ & D1 & W2 & W3). destruct (rows_cover l tris L ltac:(lia)) as (gx & gy & -> & Gx & Gy & Gt). cbn [obind]. destruct (_ || _); [discriminate|]. intros [= <- <- <- <- <- <- <-]. rewrite (wrap_small 32 (gx * 64)), (wrap_small 32 gx), (wrap_small 32 gy) by (unfold in_range; lia). exists gx, gy, (layout p0), (pipeline p0), (Push byte_off isize tris topology (restart && (topology =? 1)) (gx * 64)). split; try reflexivity; auto; try (change (UINT32_MAX / 6) with 715827882; lia); try lia.
    exists s1. split_and!; auto. }
  destruct s as [st|]; [exact (H st eq_refl)|]. destruct (h_storage a); [exact (H no_storage eq_refl)|discriminate].
Qed.

Lemma recorded_dispatch l s src count topology byte_off isize restart b start s' cmds x y lay pipe p m : recorded l s src count topology byte_off isize restart b start s' cmds x y lay pipe p -> source_ok m src byte_off isize count -> b_handle src <> b -> dispatch_ok m src (Range b start (24 * triangle_count topology count)) p count.
Proof. intros [Ht Hn _ Hs -> _ _] [W Z C O R] Hb. split; cbn [index_size push_topology push_triangles byte_offset b_offset b_size b_handle]; auto; lia. Qed.

Lemma restart_recorded byte_off isize t topology restart x : restart_of (Push byte_off isize t topology (restart && (topology =? 1)) x) = restart_at restart topology isize.
Proof. reflexivity. Qed.

Lemma restart_strips restart topology isize : restart_at restart topology isize <> None -> topology = 1.
Proof. unfold restart_at. destruct (Z.eqb_spec topology 1); [auto|]. rewrite andb_false_r. contradiction. Qed.

(** C19: the dispatch of an indexed draw writes the edges of the draw's triangles.  When the conversion is recorded, its range has not been handed out before, and in every
    order of the invocations the dispatch reads only inside the source range, changes nothing outside its own range, and leaves there as a list of lines the three edges
    of each triangle that the application's indices (of 1, 2 or 4 bytes, as a list, a strip with or without restarts, or a fan) form, apart from lines of a single point. *)
Theorem polygon_edges_exact types l d s count topology src byte_off isize restart a r b start d' s' cmds ev m (L : limits_ok l) (S : storage_ok (default no_storage s)) (T : 0 <= topology)
    (F : fresh_chunk (default no_storage s) (24 * triangle_count topology count) (a_reserve a)) (O : source_ok m src byte_off isize count) (B : b_handle src <> b)
    (E : hybris_polygon_edges_create types l d s count topology (Some src) byte_off isize restart a = Ok (r, Some (b, start), d', s', cmds, ev)) :
  let tris := triangle_count topology count in let dst := Range b start (24 * tris) in
  (forall x, within (default no_storage s) x -> disjoint x dst) /\
  exists x y lay pipe p, cmds = [PBarrier ALL_COMMANDS COMPUTE_SHADER ACCESS_MEMORY ACCESS_SHADER; PBindPipeline pipe; PBindSets lay src dst; PPush lay p; PDispatch x y; PBarrier COMPUTE_SHADER VERTEX_INPUT ACCESS_SHADER_WRITE ACCESS_INDEX_READ] /\
  forall order, order ≡ₚ grid x y -> exists m', run m src dst p order = Ok m' /\
    List.filter proper (lines (stream m' b start 4 (6 * tris))) = List.filter proper (concat (edges <$> assemble topology (restart_at restart topology isize) (stream m (b_handle src) (b_offset src + byte_off) isize count))) /\
    (forall h w, h <> b \/ w < start / 4 \/ start / 4 + 6 * tris <= w -> m' h w = m h w).
Proof.
  intros tris dst. destruct (edges_recorded _ _ _ _ _ _ _ _ _ _ _ _ _ _ _ _ _ _ L S T (proj1 (so_count _ _ _ _ _ O)) F E) as (x & y & lay & pipe & p & R). pose proof (recorded_dispatch _ _ _ _ _ _ _ _ _ _ _ _ _ _ _ _ _ m R O B) as D. destruct R as [Ht Hn (st & _ & _ & _ & Hd) Hs -> [Hx Hg] ->]. split; [intros z Hz; apply Hd, Hz|].
  eexists x, y, lay, pipe, _. split; [reflexivity|]. intros order Ho. destruct (dispatch_result _ _ _ _ _ x y order D eq_refl Hx Hg Ho) as (m' & Er & _ & Es & Ef). exists m'. split; [exact Er|]. cbn [b_handle b_offset push_triangles push_topology] in *. split; [|exact Ef].
  unfold tris. rewrite Es, lines_slots, restart_recorded, slots_assemble by (auto; apply restart_strips). reflexivity.
Qed.

(** A strip of seven 16-bit indices with a restart: two triangles. *)
Definition sample_limits : limits := Limits 16 (2 ^ 27) 65535 65535.
Definition sample_source : buffer_range := Range 9 0 16.
Definition sample_memory : memory := fun h w => if h =? 9 then default 0 ([0x00020001; 0xffff0003; 0x00050004; 0x00000006] !! Z.to_nat w) else 0.
Definition sample_make (b m : Z) : buffer_answers := BufferAnswers (fun _ => Answer 0 b) 1 (Answer 0 m) 0.
Definition sample_answers : edges_answers :=
  EdgesAnswers true (PatternAnswers true (sample_make 40 41) 0 0) (IndicesAnswers true (Answer 0 30) (Answer 0 31) (Answer 0 32) (Answer 0 33)) true (ReserveAnswers true (sample_make 20 21) true (Answer 0 22) (Answer 0 23)).
Definition sample_device : device := Device [None; None; None] [] no_indices.

Lemma sample_words : words_ok sample_memory.
Proof.
  intros h w. unfold sample_memory. destruct (h =? 9); [|unfold in_range; lia]. destruct (Z.to_nat w) as [|[|[|[|n]]]]; split; vm_compute; discriminate || reflexivity.
Qed.

Lemma polygon_edges_exact_witness : exists m' d' s' cmds ev, hybris_polygon_edges_create [7] sample_limits sample_device None 7 1 (Some sample_source) 0 2 true sample_answers = Ok (0, Some (20, 0), d', s', cmds, ev) /\
  (exists p, run sample_memory sample_source (Range 20 0 120) p (grid 1 1) = Ok m') /\ List.filter proper (lines (stream m' 20 0 4 30)) = [(1, 2); (2, 3); (3, 1); (4, 5); (5, 6); (6, 4)].
Proof.
  pose (E := hybris_polygon_edges_create [7] sample_limits sample_device None 7 1 (Some sample_source) 0 2 true sample_answers). vm_compute in E. match eval red in E with Ok (_, _, ?d', ?s', ?cmds, ?ev) => destruct (polygon_edges_exact [7] sample_limits sample_device None 7 1 sample_source 0 2 true sample_answers 0 20 0 d' s' cmds ev sample_memory) as (_ & x & y & lay & pipe & p & Ec & H) end.
  - unfold limits_ok. cbn. split; [exists 4; lia|lia].
  - split; [intros c Hc; now apply not_elem_of_nil in Hc|apply NoDup_nil; exact I].
  - lia.
  - intros Hin. now apply not_elem_of_nil in Hin.
  - split; [exact sample_words|auto|lia|split; [lia|now exists 0]|cbn; split_and!; try lia; [now exists 0|now exists 4]].
  - discriminate.
  - vm_compute. reflexivity.
  - vm_compute in Ec. injection Ec. intros. subst. destruct (H (grid 1 1)) as (m' & Er & El & _); [reflexivity|]. exists m'. eexists _, _, _, _. split; [vm_compute; reflexivity|]. split; [eexists; exact Er|]. etransitivity; [exact El|]. vm_compute. reflexivity.
Defined.
End PolygonEdges.
