(* ===== verification/PolygonDraw.v ===== *)
(** * Recording draws as lines and points (vulkan/compat/polygon_record.c, polygon_pipeline.c)

    The layer follows what the application binds, replaces draws of pipelines that should rasterise lines or points, and puts the commands that convert
    indices in a command buffer of its own that runs first.  [polygon_recording_exact]: executed by a device after that command buffer, a recording draws for
    each replaced draw the edges of the triangles (or the points) that the application's draw has, leaves every other draw as it is, and restores all bindings. *)

From Stdlib Require Import ZArith Lia Bool.
From stdpp Require Import base numbers option list.
From S2P Require Import Prelude MemVisibility PolygonEdges.

Open Scope Z_scope.
Open Scope outcome_scope.

Module PolygonDraw.
Import PolygonEdges.

Definition VK_WHOLE_SIZE : Z := 2 ^ 64 - 1.
Definition INT32_MAX : Z := 2 ^ 31 - 1.
Definition POINT_LIST : Z := 0.
Definition LINE_LIST : Z := 1.
Definition TRIANGLE_LIST : Z := 3.
Definition TRIANGLE_STRIP : Z := 4.
Definition TRIANGLE_FAN : Z := 5.
Definition MODE_FILL : Z := 0.
Definition MODE_LINE : Z := 1.
Definition MODE_POINT : Z := 2.
Definition STAGE_VERTEX : Z := 1.
Definition STAGE_FRAGMENT : Z := 0x10.
Definition CREATE_LIBRARY : Z := 0x800.
(** Derivative, fail on required compilation, early return. *)
Definition CREATE_DROPPED : Z := 4 + 0x100 + 0x200.
Definition DYNAMIC_TOPOLOGY : Z := 1000267002.
Definition DYNAMIC_RESTART : Z := 1000377004.
Definition DYNAMIC_POLYGON_MODE : Z := 1000455004.
Definition INDEX_UINT16 : Z := 0.
Definition INDEX_UINT32 : Z := 1.
Definition INDEX_UINT8 : Z := 1000265000.

(** ** Pipelines (polygon_pipeline.c) *)

Record raster := Raster { discard : bool; polygon_mode : Z; cull_mode : Z; depth_bias : bool }.
(** What is used of [VkGraphicsPipelineCreateInfo]; [g_libraries]: the chain has a library structure. *)
Record graphics_info := GraphicsInfo { g_assembly : option (Z * bool); g_raster : option raster; g_flags : Z; g_libraries : bool; g_stages : list Z; g_dynamic : list Z; g_base : Z * Z }.
Record pipe := Pipe { filled : Z; variant : Z; mode : Z; p_topology : Z; p_restart : bool; dynamic_topology : bool; dynamic_restart : bool }.

Definition dynamic (g : graphics_info) (state : Z) : bool := existsb (Z.eqb state) (g_dynamic g).
(** The pipeline without its filled handle, which the caller sets, and the description of the variant. *)
Definition hybris_polygon_pipeline_create (g : graphics_info) (m : Z) (alloc : bool) (a : answer) : Z * option (pipe * graphics_info) :=
  match g_assembly g, g_raster g with
  | Some (t, r), Some ra =>
      if discard ra || (negb (m =? MODE_LINE) && negb (m =? MODE_POINT)) || has (g_flags g) CREATE_LIBRARY || dynamic g DYNAMIC_POLYGON_MODE then (VK_ERROR_FEATURE_NOT_PRESENT, None) else
      if g_libraries g then (VK_ERROR_FEATURE_NOT_PRESENT, None) else
      if negb (forallb (fun s => (s =? STAGE_VERTEX) || (s =? STAGE_FRAGMENT)) (g_stages g)) then (VK_ERROR_FEATURE_NOT_PRESENT, None) else
      if negb (t =? TRIANGLE_LIST) && negb (t =? TRIANGLE_STRIP) && negb (t =? TRIANGLE_FAN) then (VK_ERROR_FEATURE_NOT_PRESENT, None) else
      if negb alloc then (VK_ERROR_OUT_OF_HOST_MEMORY, None) else
      let v := GraphicsInfo (Some (if m =? MODE_LINE then LINE_LIST else POINT_LIST, false)) (Some (Raster (discard ra) MODE_FILL 0 false)) (Z.land (g_flags g) (Z.lnot CREATE_DROPPED)) (g_libraries g) (g_stages g) (g_dynamic g) (0, -1) in
      if negb (code a =? VK_SUCCESS) then (code a, None) else
      (VK_SUCCESS, Some (Pipe 0 (handle a) m t r (dynamic g DYNAMIC_TOPOLOGY) (dynamic g DYNAMIC_RESTART), v))
  | _, _ => (VK_ERROR_FEATURE_NOT_PRESENT, None)
  end.

(** ** The recording *)

(** What the application has bound, as far as the layer knows. *)
Record bindings := Bindings { graphics : Z; index : Z; index_offset : Z; index_bytes : Z; index_type : Z; topology : Z; restart : bool; topology_known : bool; restart_known : bool }.
(** The command buffer that runs first. *)
Record prepass_state := PrepassState { pre_pool : Z; pre_cmd : Z; pre_open : bool; has_prepass : bool }.
(** [struct hybris_polygon_link]: a buffer written, or a secondary command buffer with its epoch. *)
Inductive link := LWritten (b : Z) | LChild (c epoch : Z).
Record recording := Recording { family : Z; simultaneous : bool; bound_state : bindings; pre : prepass_state; scratch : option storage; edge_sources : list Z; unknown_writes : bool; links : list link }.

Definition set_bindings (s : recording) (b : bindings) : recording := Recording (family s) (simultaneous s) b (pre s) (scratch s) (edge_sources s) (unknown_writes s) (links s).
Definition set_pre (s : recording) (p : prepass_state) : recording := Recording (family s) (simultaneous s) (bound_state s) p (scratch s) (edge_sources s) (unknown_writes s) (links s).
Definition set_scratch (s : recording) (c : option storage) : recording := Recording (family s) (simultaneous s) (bound_state s) (pre s) c (edge_sources s) (unknown_writes s) (links s).
Definition set_writes (s : recording) (u : bool) (l : list link) : recording := Recording (family s) (simultaneous s) (bound_state s) (pre s) (scratch s) (edge_sources s) u l.
Definition add_edges (s : recording) (source : Z) : recording := Recording (family s) (simultaneous s) (bound_state s) (pre s) (scratch s) (source :: edge_sources s) (unknown_writes s) (links s).

Definition bind_pipeline (b : bindings) (h : Z) : bindings := Bindings h (index b) (index_offset b) (index_bytes b) (index_type b) (topology b) (restart b) (topology_known b) (restart_known b).
Definition bind_index (b : bindings) (h offset size type : Z) : bindings := Bindings (graphics b) h offset size type (topology b) (restart b) (topology_known b) (restart_known b).
Definition bind_topology (b : bindings) (t : Z) : bindings := Bindings (graphics b) (index b) (index_offset b) (index_bytes b) (index_type b) t (restart b) true (restart_known b).
Definition bind_restart (b : bindings) (r : bool) : bindings := Bindings (graphics b) (index b) (index_offset b) (index_bytes b) (index_type b) (topology b) r (topology_known b) true.
(** Nothing is known of the bindings. *)
Definition forget (b : bindings) : bindings := Bindings 0 0 (index_offset b) (index_bytes b) (index_type b) (topology b) (restart b) false false.

Definition clear_recording (s : recording) : recording := Recording (family s) (simultaneous s) (forget (bound_state s)) (PrepassState 0 0 false false) (scratch s) [] false [].
(** [r] are the results of resetting the pools. *)
Definition hybris_polygon_record_reset (s : recording) (r : list Z) : recording * list event :=
  let s := clear_recording s in let (c, ev) := hybris_polygon_storage_reset (scratch s) r in (set_scratch s c, ev).
Definition hybris_polygon_record_finish (s : recording) : recording * list event :=
  let s := clear_recording s in (set_scratch s None, hybris_polygon_storage_destroy (scratch s)).

Definition written (s : recording) (b : Z) : bool := unknown_writes s || existsb (fun l => match l with LWritten x => x =? b | LChild _ _ => b =? 0 end) (links s).
(** [alloc]: the allocation succeeds. The error of the command buffer is the second result. *)
Definition hybris_polygon_record_written (s : recording) (b : Z) (alloc : bool) : recording * list Z :=
  if written s b then (s, []) else
  if negb alloc then (set_writes s true (links s), [VK_ERROR_OUT_OF_HOST_MEMORY]) else (set_writes s (unknown_writes s) (LWritten b :: links s), []).

(** The compute bit of the queue families, the lookups, the allocation, the pool, the command buffer and its begin. *)
Record prepass_answers := PrepassAnswers { a_found : bool; a_families : list bool; a_query : bool; a_cpool : answer; a_command : answer; a_begin : Z }.
(** The result, the command buffer and the state. *)
Definition prepass_begin (p : prepass_state) (a : prepass_answers) : Z * Z * prepass_state :=
  if negb (code (a_command a) =? VK_SUCCESS) then (code (a_command a), handle (a_command a), p) else
  if a_begin a =? VK_SUCCESS then (VK_SUCCESS, handle (a_command a), PrepassState (pre_pool p) (handle (a_command a)) true (has_prepass p)) else (a_begin a, handle (a_command a), p).
Definition prepass (s : recording) (a : prepass_answers) : Z * Z * prepass_state :=
  let p := pre s in
  if negb (pre_cmd p =? 0) then (if pre_open p then VK_SUCCESS else VK_ERROR_FEATURE_NOT_PRESENT, pre_cmd p, p) else
  if negb (pre_pool p =? 0) then prepass_begin p a else
  if negb (a_found a) then (VK_ERROR_INITIALIZATION_FAILED, 0, p) else
  match a_families a !! Z.to_nat (family s) with
  | None => (VK_ERROR_FEATURE_NOT_PRESENT, 0, p)
  | Some compute =>
      if negb (a_query a) then (VK_ERROR_OUT_OF_HOST_MEMORY, 0, p) else
      if negb compute then (VK_ERROR_FEATURE_NOT_PRESENT, 0, p) else
      let p := PrepassState (handle (a_cpool a)) (pre_cmd p) (pre_open p) (has_prepass p) in
      if negb (code (a_cpool a) =? VK_SUCCESS) then (code (a_cpool a), 0, p) else prepass_begin p a
  end.
(** [r]: the result of ending the command buffer. *)
Definition hybris_polygon_record_end (s : recording) (r : Z) : recording * Z :=
  let p := pre s in if negb (pre_open p) then (s, VK_SUCCESS) else (set_pre s (PrepassState (pre_pool p) (pre_cmd p) false (has_prepass p)), r).

(** ** Draws *)

(** The driver's commands; [Effect] stands for one that may change memory. *)
Inductive command :=
| BindPipeline (h : Z)
| SetTopology (t : Z)
| SetRestart (r : bool)
| BindIndex (h offset type : Z)
| BindIndex2 (h offset size type : Z)
| DrawIndexed (n instances first vertex_offset first_instance : Z)
| Draw (n instances first first_instance : Z)
| Effect (f : memory -> memory).

(** What draws depend on apart from the recording: whether the emulation is on, the memory types and limits, the entry points for sized index buffers and dynamic state,
    the compression layer's device, the published pipelines by filled handle, and [hybris_memory_visibility_storage_buffer]. *)
Record env := Env { active : bool; types : list Z; device_limits : limits; bind2 : bool; set_topology : bool; set_restart : bool; bc_found : bool; lookup : Z -> option pipe; storage_buffer : Z -> Z -> Z -> option buffer_range }.
(** The reference can be taken, the result of handing it to the command buffer, and the answers of the parts. *)
Record draw_answers := DrawAnswers { acquired : bool; a_retain : Z; a_prepass : prepass_answers; a_edges : edges_answers }.
(** The result of a draw: whether it is done, the commands for both command buffers, the errors, and whether a reference to the pipeline is kept. *)
Record drawn := Drawn { handled : bool; after : recording; dev : device; cmds : list command; pres : list pre_command; errors : list Z; kept : bool; events : list event }.

Definition shape_of (t : Z) : Z := if t =? TRIANGLE_LIST then 0 else if t =? TRIANGLE_STRIP then 1 else if t =? TRIANGLE_FAN then 2 else 3.
Definition index_size_of (type : Z) : Z := if type =? INDEX_UINT32 then 4 else if type =? INDEX_UINT16 then 2 else if type =? INDEX_UINT8 then 1 else 0.
(** Errors other than a missing feature. *)
Definition reported (r : Z) : list Z := if r =? VK_ERROR_FEATURE_NOT_PRESENT then [] else [r].
Definition enter (p : pipe) (t : Z) : list command := BindPipeline (variant p) :: (if dynamic_topology p then [SetTopology t] else []) ++ (if dynamic_restart p then [SetRestart false] else []).
Definition restore (p : pipe) (t : Z) (r : bool) : list command := BindPipeline (filled p) :: (if dynamic_topology p then [SetTopology t] else []) ++ (if dynamic_restart p then [SetRestart r] else []).
Definition rebind_index (b : bindings) : list command :=
  if index b =? 0 then [] else if negb (index_bytes b =? VK_WHOLE_SIZE) then [BindIndex2 (index b) (index_offset b) (index_bytes b) (index_type b)] else [BindIndex (index b) (index_offset b) (index_type b)].

(** The source of the indices: the range and the offset of the first index in it. *)
Definition index_source (e : env) (s : recording) (shape count first vertex_offset : Z) (r : bool) : option (buffer_range * Z * Z) :=
  let b := bound_state s in
  if (index b =? 0) || written s (index b) || simultaneous s || (r && (negb (shape =? 1) || (vertex_offset <? 0))) then None else
  let isize := index_size_of (index_type b) in
  if (isize =? 0) || (negb (index_bytes b =? VK_WHOLE_SIZE) && (index_bytes b <? u64 (u64 (first + count) * isize))) then None else
  let first_byte := u64 (index_offset b + u64 (first * isize)) in
  let alignment := offset_alignment (device_limits e) in
  if (alignment =? 0) || (first_byte <? index_offset b) then None else
  let base := u64 (first_byte / alignment * alignment) in
  let range := Z.land (u64 (u64 (u64 (first_byte - base) + u64 (count * isize)) + 3)) (u64 (Z.lnot 3)) in
  if (max_range (device_limits e) <? range) || (UINT32_MAX <? u64 (first_byte - base)) then None else
  match storage_buffer e (index b) base range with
  | None => None
  | Some src => Some (src, u32 (u64 (first_byte - base)), isize)
  end.

(** The draw of the edges. *)
Definition line_commands (p : pipe) (b : bindings) (t : Z) (r indexed : bool) (buffer offset tris instances first vertex_offset first_instance : Z) : list command :=
  enter p LINE_LIST ++ [BindIndex buffer offset INDEX_UINT32; DrawIndexed (u32 (tris * 6)) instances 0 (if indexed then vertex_offset else to_signed 32 first) first_instance] ++ rebind_index b ++ restore p t r.

(** Once the source is known; [s] has the state of the prepass, [h] is its command buffer. *)
Definition draw_lines (e : env) (s : recording) (d : device) (p : pipe) (t : Z) (r indexed : bool) (shape count instances first vertex_offset first_instance h : Z) (source : option (buffer_range * Z * Z)) (a : draw_answers) : outcome drawn :=
  let '(src, byte_off, isize) := match source with Some (src, o, i) => (Some src, o, i) | None => (None, 0, 0) end in
  let! (res, edge, d, c, pc, ev) := hybris_polygon_edges_create (types e) (device_limits e) d (scratch s) count shape src byte_off isize r (a_edges a) in
  let s := set_scratch s c in
  match edge with
  | Some (buffer, offset) =>
      if negb (res =? VK_SUCCESS) then Ok (Drawn false s d [] pc (reported res) false ev) else
      if negb (a_retain a =? VK_SUCCESS) then Ok (Drawn false s d [] pc [a_retain a] false ev) else
      let q := pre s in
      let s := add_edges (set_pre s (PrepassState (pre_pool q) (pre_cmd q) (pre_open q) (has_prepass q || negb (h =? 0)))) (if indexed then index (bound_state s) else 0) in
      Ok (Drawn true s d (line_commands p (bound_state s) t r indexed buffer offset (triangle_count shape count) instances first vertex_offset first_instance) pc [] true ev)
  | None => Ok (Drawn false s d [] pc (reported res) false ev)
  end.

Definition draw_polygon (e : env) (s : recording) (d : device) (indexed : bool) (count instances first vertex_offset first_instance : Z) (a : draw_answers) : outcome drawn :=
  let unsupported := Ok (Drawn false s d [] [] [] false []) in
  let nothing := Ok (Drawn true s d [] [] [] false []) in
  let b := bound_state s in
  if graphics b =? 0 then unsupported else
  match (if acquired a then lookup e (graphics b) else None) with
  | None => unsupported
  | Some p =>
      let t := if dynamic_topology p then topology b else p_topology p in
      let r := if dynamic_restart p then restart b else p_restart p in
      if (dynamic_topology p && negb (topology_known b)) || (dynamic_restart p && negb (restart_known b)) then unsupported else
      let shape := shape_of t in
      if 2 <? shape then unsupported else
      if (count =? 0) || (instances =? 0) then nothing else
      if (dynamic_topology p && negb (set_topology e)) || (dynamic_restart p && negb (set_restart e)) then unsupported else
      if mode p =? MODE_POINT then
        if indexed && r then unsupported else
        if negb (a_retain a =? VK_SUCCESS) then Ok (Drawn false s d [] [] [a_retain a] false []) else
        Ok (Drawn true s d (enter p POINT_LIST ++ [if indexed then DrawIndexed count instances first vertex_offset first_instance else Draw count instances first first_instance] ++ restore p t r) [] [] true [])
      else
        let tris := triangle_count shape count in
        if tris =? 0 then nothing else
        if (UINT32_MAX / 6 <? tris) || (negb indexed && (INT32_MAX <? first)) then unsupported else
        if negb (index b =? 0) && negb (index_bytes b =? VK_WHOLE_SIZE) && negb (bind2 e) then unsupported else
        if negb (bc_found e) then unsupported else
        if negb indexed then draw_lines e s d p t r indexed shape count instances first vertex_offset first_instance 0 None a else
        match index_source e s shape count first vertex_offset r with
        | None => unsupported
        | Some source =>
            let '(res, h, q) := prepass s (a_prepass a) in
            let s := set_pre s q in
            if negb (res =? VK_SUCCESS) then Ok (Drawn false s d [] [] (reported res) false []) else
            draw_lines e s d p t r indexed shape count instances first vertex_offset first_instance h (Some source) a
        end
  end.

(** ** Calls of the application *)

(** The commands that matter, with what the environment answers; [f] is the effect on memory of a transfer to buffer [b] or of a dispatch. *)
Inductive call :=
| CBind (h : Z)
| CTopology (t : Z)
| CRestart (r : bool)
| CIndex (h offset type : Z)
| CIndex2 (h offset size type : Z)
| CDraw (n instances first first_instance : Z) (a : draw_answers)
| CDrawIndexed (n instances first vertex_offset first_instance : Z) (a : draw_answers)
| CWrite (b : Z) (f : memory -> memory) (alloc : bool)
| CDispatch (f : memory -> memory).

(** The command that the application means. *)
Definition plain (c : call) : command :=
  match c with
  | CBind h => BindPipeline h
  | CTopology t => SetTopology t
  | CRestart r => SetRestart r
  | CIndex h o t => BindIndex h o t
  | CIndex2 h o s t => BindIndex2 h o s t
  | CDraw n i f b _ => Draw n i f b
  | CDrawIndexed n i f v b _ => DrawIndexed n i f v b
  | CWrite _ f _ => Effect f
  | CDispatch f => Effect f
  end.

Definition pass (s : recording) (d : device) (c : call) : drawn := Drawn false s d [plain c] [] [] false [].
(** The draws fall back to the application's command. *)
Definition finish_draw (c : call) (x : drawn) : drawn := if handled x then x else Drawn false (after x) (dev x) [plain c] (pres x) (errors x) (kept x) (events x).

(** The entry points: what is recorded for a call. *)
Definition record_call (e : env) (s : recording) (d : device) (c : call) : outcome drawn :=
  let b := bound_state s in
  if negb (active e) then Ok (pass s d c) else
  match c with
  | CBind h => Ok (pass (set_bindings s (bind_pipeline b h)) d c)
  | CTopology t => Ok (pass (set_bindings s (bind_topology b t)) d c)
  | CRestart r => Ok (pass (set_bindings s (bind_restart b r)) d c)
  | CIndex h o t => Ok (pass (set_bindings s (bind_index b h o VK_WHOLE_SIZE t)) d c)
  | CIndex2 h o n t => Ok (pass (set_bindings s (bind_index b h o n t)) d c)
  | CDraw n i f base a => let! x := draw_polygon e s d false n i f 0 base a in Ok (finish_draw c x)
  | CDrawIndexed n i f v base a => let! x := draw_polygon e s d true n i f v base a in Ok (finish_draw c x)
  | CWrite x _ alloc => let (s, err) := hybris_polygon_record_written s x alloc in Ok (Drawn false s d [plain c] [] err false [])
  | CDispatch _ => Ok (pass (set_writes s true (links s)) d c)
  end.

(** A whole recording: the results of the calls, the state at the end. *)
Fixpoint record_calls (e : env) (s : recording) (d : device) (l : list call) : outcome (list drawn * recording * device) :=
  match l with
  | [] => Ok ([], s, d)
  | c :: l => let! x := record_call e s d c in let! (xs, s, d) := record_calls e (after x) (dev x) l in Ok (x :: xs, s, d)
  end.

(** ** A device that executes recordings *)

(** What a pipeline fixes of the input assembly. *)
Record config := Config { f_topology : Z; f_restart : bool; f_dynamic_topology : bool; f_dynamic_restart : bool }.
Definition config_of (g : graphics_info) : config :=
  let (t, r) := default (0, false) (g_assembly g) in Config t r (dynamic g DYNAMIC_TOPOLOGY) (dynamic g DYNAMIC_RESTART).

(** The bindings of the device and its memory; an index buffer is bound with its offset, size and type. *)
Record machine := Machine { m_pipeline : Z; m_topology : Z; m_restart : bool; m_index : option (Z * Z * Z * Z); m_memory : memory }.
(** A draw as the input assembly gets it: the indices, the offset added to them, the instances. *)
Record entry := Entry { n_pipeline : Z; n_topology : Z; n_restart : option Z; n_indices : list Z; n_offset : Z; n_instances : Z; n_first_instance : Z }.

Section machine.
Context (cfg : Z -> config).

Definition topology_in (m : machine) : Z := let c := cfg (m_pipeline m) in if f_dynamic_topology c then m_topology m else f_topology c.
Definition restart_in (m : machine) : bool := let c := cfg (m_pipeline m) in if f_dynamic_restart c then m_restart m else f_restart c.

(** An indexed draw without an index buffer, or one that reads past the bound size, is invalid. *)
Definition step (m : machine) (c : command) : option (machine * list entry) :=
  match c with
  | BindPipeline h => Some (Machine h (m_topology m) (m_restart m) (m_index m) (m_memory m), [])
  | SetTopology t => Some (Machine (m_pipeline m) t (m_restart m) (m_index m) (m_memory m), [])
  | SetRestart r => Some (Machine (m_pipeline m) (m_topology m) r (m_index m) (m_memory m), [])
  | BindIndex h o t => Some (Machine (m_pipeline m) (m_topology m) (m_restart m) (Some (h, o, VK_WHOLE_SIZE, t)) (m_memory m), [])
  | BindIndex2 h o n t => Some (Machine (m_pipeline m) (m_topology m) (m_restart m) (Some (h, o, n, t)) (m_memory m), [])
  | DrawIndexed n i f v base =>
      match m_index m with
      | None => None
      | Some (h, o, size, t) =>
          let isize := index_size_of t in
          if negb (size =? VK_WHOLE_SIZE) && (size <? (f + n) * isize) then None else
          Some (m, [Entry (m_pipeline m) (topology_in m) (if restart_in m then Some (restart_index isize) else None) (stream (m_memory m) h (o + f * isize) isize n) v i base])
      end
  | Draw n i f base => Some (m, [Entry (m_pipeline m) (topology_in m) None (seqZ f n) 0 i base])
  | Effect g => Some (Machine (m_pipeline m) (m_topology m) (m_restart m) (m_index m) (g (m_memory m)), [])
  end.
Fixpoint exec (m : machine) (l : list command) : option (machine * list entry) :=
  match l with
  | [] => Some (m, [])
  | c :: l => match step m c with Some (m, es) => match exec m l with Some (m, es') => Some (m, es ++ es') | None => None end | None => None end
  end.
(** Groups of commands, with the draws of each. *)
Fixpoint exec_groups (m : machine) (l : list (list command)) : option (machine * list (list entry)) :=
  match l with
  | [] => Some (m, [])
  | g :: l => match exec m g with Some (m, es) => match exec_groups m l with Some (m, ess) => Some (m, es :: ess) | None => None end | None => None end
  end.

Lemma exec_gpu_app m l k : exec m (l ++ k) = match exec m l with Some (m1, es) => match exec m1 k with Some (m2, es') => Some (m2, es ++ es') | None => None end | None => None end.
Proof.
  revert m. induction l as [|c l IH]; intros m; cbn [app exec]; [now destruct (exec m k) as [[m' es]|]|]. destruct (step m c) as [[m1 es]|]; [|reflexivity]. rewrite IH. destruct (exec m1 l) as [[m2 es2]|]; [|reflexivity]. destruct (exec m2 k) as [[m3 es3]|]; [|reflexivity]. now rewrite app_assoc.
Qed.
End machine.

(** The command buffer that runs first: every dispatch runs its invocations in some order with the last sets and constants. *)
Inductive pre_runs : memory -> option (buffer_range * buffer_range) -> option hybris_polygon_push -> list pre_command -> memory -> Prop :=
| PR_done m b p : pre_runs m b p [] m
| PR_barrier m b p x y z w l m' : pre_runs m b p l m' -> pre_runs m b p (PBarrier x y z w :: l) m'
| PR_pipeline m b p h l m' : pre_runs m b p l m' -> pre_runs m b p (PBindPipeline h :: l) m'
| PR_sets m b p lay src dst l m' : pre_runs m (Some (src, dst)) p l m' -> pre_runs m b p (PBindSets lay src dst :: l) m'
| PR_push m b p lay q l m' : pre_runs m b (Some q) l m' -> pre_runs m b p (PPush lay q :: l) m'
| PR_dispatch m src dst q x y order m1 l m' : order ≡ₚ grid x y -> run m src dst q order = Ok m1 -> pre_runs m1 (Some (src, dst)) (Some q) l m' -> pre_runs m (Some (src, dst)) (Some q) (PDispatch x y :: l) m'.

(** ** The dispatches of a recording *)

Record job := Job { j_src : buffer_range; j_dst : buffer_range; j_push : hybris_polygon_push; j_x : Z; j_y : Z; j_count : Z; j_layout : Z; j_pipeline : Z }.
Definition job_commands (j : job) : list pre_command :=
  [PBarrier ALL_COMMANDS COMPUTE_SHADER ACCESS_MEMORY ACCESS_SHADER; PBindPipeline (j_pipeline j); PBindSets (j_layout j) (j_src j) (j_dst j); PPush (j_layout j) (j_push j); PDispatch (j_x j) (j_y j); PBarrier COMPUTE_SHADER VERTEX_INPUT ACCESS_SHADER_WRITE ACCESS_INDEX_READ].

(** Buffers of the application, of scratch memory and of patterns. *)
Inductive owner := App | Scratch | Patterns.

Section jobs.
Context (kind : Z -> owner) (m0 : memory).

Record job_ok (j : job) : Prop := {
  jo_dispatch : dispatch_ok m0 (j_src j) (j_dst j) (j_push j) (j_count j);
  jo_row : row (j_push j) = j_x j * 64;
  jo_grid : 1 <= j_x j /\ push_triangles (j_push j) <= j_y j * (j_x j * 64) < 2 ^ 32;
  jo_source : kind (b_handle (j_src j)) = App;
  jo_target : kind (b_handle (j_dst j)) = Scratch /\ 0 <= b_offset (j_dst j) }.
(** The range has the edges that the job makes of the memory at the start. *)
Definition done (m : memory) (j : job) : Prop :=
  stream m (b_handle (j_dst j)) (b_offset (j_dst j)) 4 (6 * push_triangles (j_push j)) = concat (six <$> slots (indices_of m0 (j_src j) (j_push j) (j_count j)) (push_topology (j_push j)) (restart_of (j_push j))).
Fixpoint apart (l : list job) : Prop := match l with [] => True | j :: l => (forall k, k ∈ l -> disjoint (j_dst j) (j_dst k)) /\ apart l end.
(** The memory that a job needs is the one at the start. *)
Definition early (m : memory) : Prop := words_ok m /\ forall h, kind h = App -> forall w, m h w = m0 h w.

Lemma stream_same m m' h a i n : (forall w, m h w = m' h w) -> stream m h a i n = stream m' h a i n.
Proof. intros H. unfold stream. apply list_fmap_ext. intros j k _. unfold read_index, byte. now rewrite !H. Qed.

Lemma job_early j m : job_ok j -> early m -> dispatch_ok m (j_src j) (j_dst j) (j_push j) (j_count j) /\ indices_of m (j_src j) (j_push j) (j_count j) = indices_of m0 (j_src j) (j_push j) (j_count j).
Proof.
  intros J [W E]. split; [destruct (jo_dispatch j J) as [_ D2 D3 D4 D5 D6 D7 D8 D9]; split; auto|]. apply stream_same, E, J.
Qed.

(** A job: what its dispatch leaves. *)
Lemma job_runs j m order : job_ok j -> early m -> order ≡ₚ grid (j_x j) (j_y j) -> exists m1, run m (j_src j) (j_dst j) (j_push j) order = Ok m1 /\ early m1 /\ done m1 j /\ forall h w, h <> b_handle (j_dst j) \/ w < b_offset (j_dst j) / 4 \/ b_offset (j_dst j) / 4 + 6 * push_triangles (j_push j) <= w -> m1 h w = m h w.
Proof.
  intros J E Ho. destruct (job_early j m J E) as [D Ei]. destruct (dispatch_result m _ _ _ _ _ _ order D (jo_row j J) (proj1 (jo_grid j J)) (proj2 (jo_grid j J)) Ho) as (m1 & Er & W1 & Es & Ef). exists m1. split; [exact Er|]. split; [|split; [unfold done; now rewrite Es, Ei|exact Ef]]. split; [exact W1|]. intros h Hh w. rewrite Ef; [now apply E|]. left. intros ->. pose proof (jo_target j J) as [Ht _]. congruence.
Qed.

(** A later job leaves the range of an earlier one alone. *)
Lemma done_frame j k m m1 : job_ok j -> job_ok k -> disjoint (j_dst j) (j_dst k) -> (forall h w, h <> b_handle (j_dst k) \/ w < b_offset (j_dst k) / 4 \/ b_offset (j_dst k) / 4 + 6 * push_triangles (j_push k) <= w -> m1 h w = m h w) -> done m j -> done m1 j.
Proof.
  intros J K Hd Hf H. unfold done in *. rewrite <- H. destruct (do_target _ _ _ _ _ (jo_dispatch j J)) as [[a Ea] Sa]. destruct (do_target _ _ _ _ _ (jo_dispatch k K)) as [[b Eb] Sb]. destruct (jo_target j J) as [_ Oj]. unfold stream. apply list_fmap_ext. intros i t Ht%lookup_seqZ. unfold disjoint in Hd. rewrite Ea, Eb, Sa, Sb in *. rewrite Z.div_mul in Hf by lia.
  assert (forall q, q = a + t -> m1 (b_handle (j_dst j)) q = m (b_handle (j_dst j)) q) as Hq by (intros q ->; apply Hf; lia). unfold read_index, byte. cbn [Z.eqb Pos.eqb]. rewrite !Hq; [reflexivity|..]; symmetry; first [apply Z.div_unique with 3; lia|apply Z.div_unique with 2; lia|apply Z.div_unique with 1; lia|apply Z.div_unique with 0; lia].
Qed.

Lemma job_inv j l m b p m' : pre_runs m b p (job_commands j ++ l) m' -> exists order m1, order ≡ₚ grid (j_x j) (j_y j) /\ run m (j_src j) (j_dst j) (j_push j) order = Ok m1 /\ pre_runs m1 (Some (j_src j, j_dst j)) (Some (j_push j)) l m'.
Proof.
  unfold job_commands. cbn [app]. intros H. inversion H as [|? ? ? ? ? ? ? ? ? H1| | | |]; subst. inversion H1 as [| |? ? ? ? ? ? H2| | |]; subst. inversion H2 as [| | |? ? ? ? ? ? ? ? H3| |]; subst. inversion H3 as [| | | |? ? ? ? ? ? ? H4|]; subst. inversion H4 as [| | | | |? ? ? ? ? ? order m1 ? ? Ho Hr H5]; subst. inversion H5 as [|? ? ? ? ? ? ? ? ? H6| | | |]; subst. eauto 6.
Qed.

Lemma job_intro j l m b p m1 m' order : order ≡ₚ grid (j_x j) (j_y j) -> run m (j_src j) (j_dst j) (j_push j) order = Ok m1 -> pre_runs m1 (Some (j_src j, j_dst j)) (Some (j_push j)) l m' -> pre_runs m b p (job_commands j ++ l) m'.
Proof. intros Ho Hr H. unfold job_commands. cbn [app]. repeat constructor. eapply PR_dispatch; eauto. now constructor. Qed.

(** The dispatches run, and whatever order is chosen every range has its edges at the end. *)
Lemma jobs_run l : (forall j, j ∈ l -> job_ok j) -> apart l -> forall m b p, early m -> (exists m', pre_runs m b p (concat (job_commands <$> l)) m') /\
  forall m', pre_runs m b p (concat (job_commands <$> l)) m' -> early m' /\ (forall j, j ∈ l -> done m' j) /\ (forall k, job_ok k -> (forall j, j ∈ l -> disjoint (j_dst k) (j_dst j)) -> done m k -> done m' k) /\ forall h, kind h = Patterns -> forall w, m' h w = m h w.
Proof.
  induction l as [|j l IH]; intros Hl Ha m b p E.
  - split; [exists m; constructor|]. intros m' H. inversion H; subst. split; [assumption|]. split; [intros j Hj; now apply not_elem_of_nil in Hj|]. auto.
  - assert (job_ok j) as J by (apply Hl; left). cbn [apart] in Ha. destruct Ha as [Hj Ha]. cbn [fmap list_fmap concat]. assert (forall k, k ∈ l -> job_ok k) as Hl' by (intros k Hk; apply Hl; now right). split.
    + destruct (job_runs j m (grid (j_x j) (j_y j)) J E ltac:(reflexivity)) as (m1 & Er & E1 & _ & _). destruct (IH Hl' Ha m1 (Some (j_src j, j_dst j)) (Some (j_push j)) E1) as [[m' H'] _]. exists m'. eapply job_intro; [reflexivity|exact Er|exact H'].
    + intros m' (order & m1 & Ho & Er & H')%job_inv. destruct (job_runs j m order J E Ho) as (m1' & Er' & E1 & D1 & F1). assert (m1' = m1) as -> by congruence. destruct (IH Hl' Ha m1 (Some (j_src j, j_dst j)) (Some (j_push j)) E1) as [_ HI]. destruct (HI m' H') as (E' & D' & K' & P'). split; [exact E'|]. split_and!.
      * intros k [->|Hk]%elem_of_cons; [|now apply D']. apply K'; auto.
      * intros k K Hd Hk. apply K'; [exact K|intros i Hi; apply Hd; now right|]. apply (done_frame k j m m1); auto. apply Hd. left.
      * intros h Hh w. rewrite P' by assumption. apply F1. left. intros ->. pose proof (jo_target j J) as [Ht _]. congruence.
Qed.
End jobs.

(** ** One draw *)

(** The chunk handle of a call and the pattern handle, for a size. *)
Definition chunk_handle (a : edges_answers) (n : Z) : Z := handle (a_buffer (a_chunk (a_reserve a)) n).
Definition pattern_handle (a : edges_answers) (n : Z) : Z := handle (a_buffer (a_make (a_pattern a)) n).
Definition scratch_of (s : option storage) : storage := default no_storage s.
(** The driver gives a new chunk a buffer that none of the others has. *)
Definition fresh_for (s : option storage) (a : edges_answers) : Prop := forall n, ~ chunk_handle a n ∈ buffers (scratch_of s).

(** What creating edges leaves, whatever is answered. *)
Definition edges_post (l : limits) (d : device) (s : option storage) (count shape : Z) (src : option buffer_range) (byte_off isize : Z) (r : bool) (a : edges_answers) (x : Z * option (Z * Z) * device * option storage * list pre_command * list event) : Prop :=
  let '(res, o, d', s', pc, ev) := x in
  device_ok d' /\ (forall p, p ∈ live d -> p ∈ live d') /\ (forall p, p ∈ live d' -> p ∈ live d \/ exists n, p_buffer p = pattern_handle a n) /\
  storage_ok (scratch_of s') /\ (forall z, within (scratch_of s) z -> within (scratch_of s') z) /\ (forall h, h ∈ buffers (scratch_of s') -> h ∈ buffers (scratch_of s) \/ exists n, h = chunk_handle a n) /\
  (o = None -> pc = []) /\
  forall b start, o = Some (b, start) -> res = VK_SUCCESS /\
    match src with
    | None => pc = [] /\ start = 0 /\ exists p, p ∈ live d' /\ p_buffer p = b /\ p_words p = pattern_words shape (p_triangles p) /\ triangle_count shape count <= p_triangles p <= UINT32_MAX / 6
    | Some src => exists x y lay pipe p, recorded l (scratch_of s) src count shape byte_off isize r b start s' pc x y lay pipe p
    end.

Lemma reserve_post ty l s size a : limits_ok l -> storage_ok s -> 0 < size < 2 ^ 32 -> ~ handle (a_buffer (a_chunk a) (chunk_bytes size)) ∈ buffers s -> let '(r, o, s', ev) := reserve ty (offset_alignment l) s size a in
  storage_ok s' /\ (forall z, within s z -> within s' z) /\ (forall h, h ∈ buffers s' -> h ∈ buffers s \/ h = handle (a_buffer (a_chunk a) (chunk_bytes size))).
Proof. intros L S Hs F. destruct (reserve ty (offset_alignment l) s size a) as [[[r o] s'] ev] eqn:E. destruct (polygon_reserve_ok _ _ _ _ _ _ _ _ _ S (proj1 L) Hs F E) as (H1 & H2 & H3 & _). auto. Qed.

Lemma edges_create_ok ty l d s count shape src byte_off isize r a : limits_ok l -> device_ok d -> storage_ok (scratch_of s) -> fresh_for s a -> 0 <= shape -> 0 <= count ->
  exists x, hybris_polygon_edges_create ty l d s count shape src byte_off isize r a = Ok x /\ edges_post l d s count shape src byte_off isize r a x.
Proof.
  intros L Dk S F Hsh Hc. assert (exists x, hybris_polygon_edges_create ty l d s count shape src byte_off isize r a = Ok x /\ let '(res, o, d', s', pc, ev) := x in
    (device_ok d' /\ (forall p, p ∈ live d -> p ∈ live d') /\ (forall p, p ∈ live d' -> p ∈ live d \/ exists n, p_buffer p = pattern_handle a n)) /\ (storage_ok (scratch_of s') /\ (forall z, within (scratch_of s) z -> within (scratch_of s') z) /\ (forall h, h ∈ buffers (scratch_of s') -> h ∈ buffers (scratch_of s) \/ exists n, h = chunk_handle a n)) /\ (o = None -> pc = []) /\
    forall b start, o = Some (b, start) -> res = VK_SUCCESS /\ (src = None -> pc = [] /\ start = 0 /\ exists p, p ∈ live d' /\ p_buffer p = b /\ p_words p = pattern_words shape (p_triangles p) /\ triangle_count shape count <= p_triangles p <= UINT32_MAX / 6)) as ([[[[[res o] d'] s'] pc] ev] & E & (D1 & D2 & D3) & (S1 & S2 & S3) & N & H).
  2: { exists (res, o, d', s', pc, ev). split; [exact E|]. repeat (split; [assumption|]). intros b start Ho. destruct (H b start Ho) as [Hr Hn]. split; [exact Hr|]. destruct src as [src|]; [|now apply Hn]. subst o. eapply edges_recorded; eauto. exact (F _). }
  unfold hybris_polygon_edges_create. pose proof (triangles_nonneg shape count Hc) as Hnn. set (tris := triangle_count shape count) in *. assert (forall d', device_ok d' -> (forall p, p ∈ live d -> p ∈ live d') -> live d' = live d -> device_ok d' /\ (forall p, p ∈ live d -> p ∈ live d') /\ (forall p, p ∈ live d' -> p ∈ live d \/ exists n, p_buffer p = pattern_handle a n)) as Hdev by (intros d' X Y Z; split_and!; auto; rewrite Z; auto). assert (storage_ok (scratch_of s) /\ (forall z, within (scratch_of s) z -> within (scratch_of s) z) /\ (forall h, h ∈ buffers (scratch_of s) -> h ∈ buffers (scratch_of s) \/ exists n, h = chunk_handle a n)) as Hsame by auto.
  destruct (Z.ltb_spec 2 shape) as [|Ht]; [eexists; split; [reflexivity|]; split_and!; auto; discriminate|]. destruct (Z.eqb_spec tris 0) as [|Hz]; [eexists; split; [reflexivity|]; split_and!; auto; discriminate|]. destruct (Z.ltb_spec (UINT32_MAX / 6) tris) as [|Hmax]; [eexists; split; [reflexivity|]; split_and!; auto; discriminate|]. cbn [orb]. assert (tris <= 715827882) as Hmax' by assumption.
  rewrite (wrap_small 64 (tris * 24)), (Z.mul_comm tris 24) by (unfold in_range; lia). destruct (Z.ltb_spec (max_range l) (24 * tris)) as [|Hr]; [eexists; split; [reflexivity|]; split_and!; auto; discriminate|]. destruct (h_edges a); cbn [negb]; [|eexists; split; [reflexivity|]; split_and!; auto; discriminate]. destruct src as [src|].
  - destruct (if ready (polygon d) then _ else _) as [[r0 p0] ev0]. set (d1 := Device (patterns d) (retired_patterns d) p0). assert (device_ok d1 /\ (forall p, p ∈ live d -> p ∈ live d1) /\ (forall p, p ∈ live d1 -> p ∈ live d \/ exists n, p_buffer p = pattern_handle a n)) as Hd1 by (apply Hdev; auto). destruct (r0 =? VK_SUCCESS); cbn [negb]; [|eexists; split; [reflexivity|]; split_and!; try apply Hd1; try apply Hsame; auto; discriminate].
    assert (0 < 24 * tris < 2 ^ 32) as Hsz by (destruct L as (_ & _ & _ & L); lia). destruct (match s with Some s0 => _ | None => _ end) as [st|] eqn:Est; [|eexists; split; [reflexivity|]; split_and!; try apply Hd1; try apply Hsame; auto; discriminate]. assert (scratch_of s = st) as Es by (destruct s; cbn in *; [congruence|destruct (h_storage a); congruence]). rewrite Es in *. pose proof (reserve_post ty l st (24 * tris) (a_reserve a) L S Hsz) as Hres. destruct (reserve ty (offset_alignment l) st (24 * tris) (a_reserve a)) as [[[r1 o1] s1] ev1]. destruct Hres as (R1 & R2 & R3); [unfold fresh_for in F; rewrite Es in F; apply (F _)|]. assert (forall h, h ∈ buffers s1 -> h ∈ buffers st \/ exists n, h = chunk_handle a n) as R3' by (intros h Hh; destruct (R3 h Hh) as [|E]; eauto).
    destruct o1 as [[b1 st1]|]; [|eexists; split; [reflexivity|]; split_and!; try apply Hd1; auto; discriminate]. destruct (rows_cover l tris L ltac:(lia)) as (gx & gy & -> & _). cbn [obind]. destruct (_ || _); eexists; (split; [reflexivity|]); split_and!; try apply Hd1; auto; try discriminate. intros b start [= <- <-]. split; [reflexivity|discriminate].
  - destruct (pattern_for_ok ty d shape tris (a_pattern a) Dk ltac:(lia) ltac:(lia)) as ([[[r1 o1] d1] ev1] & -> & P1 & _ & P3 & P4 & P5 & P6). cbn [obind]. eexists. split; [reflexivity|]. split_and!; auto. intros b start Ho. destruct o1 as [b1|]; [|discriminate]. cbn in Ho. injection Ho as <- <-. destruct (P5 b1 eq_refl) as [-> Hp]. auto.
Qed.

(** A storage range is the one asked for. *)
Class StorageBuffers (f : Z -> Z -> Z -> option buffer_range) : Prop := storage_exact : forall h o n r, n <> VK_WHOLE_SIZE -> f h o n = Some r -> r = Range h o n.

(** The memory records of [MemVisibility] are such a function. *)
Definition visible_storage (st : MemVisibility.state) (d : MemVisibility.layer_device) (h o n : Z) : option buffer_range :=
  match MemVisibility.storage_buffer st d h o n with Ok (_, Some (h, o, n)) => Some (Range h o n) | _ => None end.
#[export] Instance visible_storage_exact st d : StorageBuffers (visible_storage st d).
Proof.
  intros h o n r Hn. unfold visible_storage, MemVisibility.storage_buffer. destruct (MemVisibility.find_buffer st d h) as [b| |]; cbn [obind]; try discriminate. destruct (MemVisibility.memory_of st d b) as [a| |]; cbn [obind]; try discriminate. destruct b as [[i b]|]; [|discriminate]. destruct a as [[k a]|]; [|discriminate].
  destruct (_ || _); [discriminate|]. change MemVisibility.VK_WHOLE_SIZE with VK_WHOLE_SIZE. rewrite (proj2 (Z.eqb_neq _ _) Hn). destruct (_ || _); [discriminate|]. now intros [= <-].
Qed.

Section draws.
Context (kind : Z -> owner) (m0 : memory) (e : env) (cfg : Z -> config).

(** A published pipeline was made by [hybris_polygon_pipeline_create], and the device knows both of its handles. *)
Definition registered (h : Z) (p : pipe) : Prop :=
  exists g md alloc a v p0, hybris_polygon_pipeline_create g md alloc a = (VK_SUCCESS, Some (p0, v)) /\ p = Pipe h (variant p0) (mode p0) (p_topology p0) (p_restart p0) (dynamic_topology p0) (dynamic_restart p0) /\ cfg h = config_of g /\ cfg (variant p0) = config_of v.
Record env_ok : Prop := {
  eo_limits : limits_ok (device_limits e);
  eo_alignment : (4 | offset_alignment (device_limits e));
  eo_pipes : forall h p, lookup e h = Some p -> registered h p;
  eo_buffers : StorageBuffers (storage_buffer e) }.
(** Handles are what they should be. *)
Record answers_ok (a : draw_answers) : Prop := {
  ao_chunks : forall n, kind (chunk_handle (a_edges a) n) = Scratch;
  ao_patterns : forall n, kind (pattern_handle (a_edges a) n) = Patterns;
  ao_command : code (a_command (a_prepass a)) = VK_SUCCESS -> handle (a_command (a_prepass a)) <> 0 }.

(** The state between calls. *)
Record rec_ok (s : recording) (d : device) : Prop := {
  ro_device : device_ok d;
  ro_storage : storage_ok (scratch_of (scratch s));
  ro_kinds : forall h, h ∈ buffers (scratch_of (scratch s)) -> kind h = Scratch;
  ro_patterns : forall p, p ∈ live d -> kind (p_buffer p) = Patterns;
  ro_index : index (bound_state s) <> 0 -> kind (index (bound_state s)) = App /\ 0 <= index_offset (bound_state s) < 2 ^ 64 /\ 0 < index_size_of (index_type (bound_state s)) /\ (index_size_of (index_type (bound_state s)) | index_offset (bound_state s)) }.

Lemma pipe_facts h p : registered h p -> filled p = h /\ (mode p = MODE_LINE \/ mode p = MODE_POINT) /\ cfg h = Config (p_topology p) (p_restart p) (dynamic_topology p) (dynamic_restart p) /\ cfg (variant p) = Config (if mode p =? MODE_LINE then LINE_LIST else POINT_LIST) false (dynamic_topology p) (dynamic_restart p).
Proof.
  intros (g & md & alloc & a & v & p0 & Hc & -> & Hh & Hv). cbn [filled mode p_topology p_restart dynamic_topology dynamic_restart variant]. split; [reflexivity|]. unfold hybris_polygon_pipeline_create in Hc. destruct (g_assembly g) as [[t r]|] eqn:Eg; [|discriminate]. destruct (g_raster g) as [ra|]; [|discriminate]. destruct (Z.eqb_spec md MODE_LINE) as [->|Hl]; cbn [negb andb] in Hc.
  - rewrite orb_false_r in Hc. repeat match type of Hc with (if ?c then _ else _) = _ => destruct c; [discriminate|] end. injection Hc as <- <-. split; [now left|]. rewrite Hh, Hv. unfold config_of. rewrite Eg. auto.
  - destruct (Z.eqb_spec md MODE_POINT) as [->|]; cbn [negb] in Hc; [|rewrite orb_true_r in Hc; discriminate]. rewrite orb_false_r in Hc. repeat match type of Hc with (if ?c then _ else _) = _ => destruct c; [discriminate|] end. injection Hc as <- <-. split; [now right|]. rewrite Hh, Hv. unfold config_of. rewrite Eg. auto.
Qed.

Lemma index_size_cases t : index_size_of t = 0 \/ index_size_of t = 1 \/ index_size_of t = 2 \/ index_size_of t = 4.
Proof. unfold index_size_of. repeat case_match; auto. Qed.

(** The range of the indices of a draw. *)
Lemma index_source_ok s d shape count first vertex_offset r src bo isize : env_ok -> words_ok m0 -> rec_ok s d -> 0 <= count < 2 ^ 32 -> 0 <= first < 2 ^ 32 -> index_source e s shape count first vertex_offset r = Some (src, bo, isize) ->
  let b := bound_state s in index b <> 0 /\ written s (index b) = false /\ isize = index_size_of (index_type b) /\ (r = true -> shape = 1) /\ source_ok m0 src bo isize count /\ b_handle src = index b /\ b_offset src + bo = index_offset b + first * isize.
Proof.
  intros [L Al _ Sb] W R Hc Hf H b. unfold index_source in H. fold b in H. destruct (Z.eqb_spec (index b) 0) as [|Hi]; [discriminate|]. destruct (written s (index b)) eqn:Ew; [discriminate|]. destruct (simultaneous s); [discriminate|]. cbn [orb] in H. destruct (r && _) eqn:Er; [discriminate|]. set (i := index_size_of (index_type b)) in *. destruct (ro_index s d R Hi) as (_ & Ho & Hpos & Hdiv). fold b i in Ho, Hpos, Hdiv. assert (i = 1 \/ i = 2 \/ i = 4) as Hi4 by (destruct (index_size_cases (index_type b)) as [E|E]; fold i in E; [lia|exact E]).
  destruct (_ || _) in H; [discriminate|]. rewrite (wrap_small 64 (first * i)) in H by (unfold in_range; destruct Hi4 as [E|[E|E]]; rewrite E; lia). set (fb := u64 (index_offset b + first * i)) in *. destruct (Z.eqb_spec (offset_alignment (device_limits e)) 0) as [|Ha0]; [discriminate|]. destruct (Z.ltb_spec fb (index_offset b)) as [|Hge]; [discriminate|]. cbn [orb] in H.
  assert (0 <= first * i < 2 ^ 34) as Hfi by (destruct Hi4 as [E|[E|E]]; rewrite E; lia). assert (fb = index_offset b + first * i) as Efb. { unfold fb in *. destruct (Z_lt_le_dec (index_offset b + first * i) (2 ^ 64)); [apply wrap_small; unfold in_range; lia|]. exfalso. assert (u64 (index_offset b + first * i) = index_offset b + first * i - 2 ^ 64) as E by (symmetry; apply (Z.mod_unique_pos _ _ 1); lia). rewrite E in Hge. lia. }
  assert (0 <= fb < 2 ^ 64) as Hfb by (unfold fb; apply wrap_range; lia). destruct L as ((n & Hn & En) & _ & _ & Hmr). set (al := offset_alignment (device_limits e)) in *. assert (1 <= al <= 2 ^ 32) as Hal. { rewrite En. split; [assert (0 < 2 ^ n) by (apply Z.pow_pos_nonneg; lia); lia|apply Z.pow_le_mono_r; lia]. } pose proof (Z.div_mod fb al Ha0) as Edm. pose proof (Z.mod_pos_bound fb al ltac:(lia)) as Hm. set (q := fb / al) in *. assert (0 <= q * al <= fb) as Hq by (assert (0 <= q) by (apply Z.div_pos; lia); split; [apply Z.mul_nonneg_nonneg; lia|lia]). rewrite (wrap_small 64 (q * al)) in H by (unfold in_range; lia). rewrite (wrap_small 64 (fb - q * al)) in H by (unfold in_range; lia). set (o := fb - q * al) in *. assert (0 <= o < al) as Hoo by (unfold o; lia).
  assert (0 <= count * i < 2 ^ 34) as Hci by (destruct Hi4 as [E|[E|E]]; rewrite E; lia). rewrite (wrap_small 64 (count * i)), (wrap_small 64 (o + count * i)), (wrap_small 64 (o + count * i + 3)) in H by (unfold in_range; lia). change (Z.lnot 3) with (Z.lnot (2 ^ 2 - 1)) in H. rewrite land_above in H by (unfold in_range; lia). change (2 ^ 2) with 4 in H. set (range := (o + count * i + 3) / 4 * 4) in *. pose proof (Z.div_mod (o + count * i + 3) 4 ltac:(lia)) as Er4. pose proof (Z.mod_pos_bound (o + count * i + 3) 4 ltac:(lia)) as Hr4. destruct (Z.ltb_spec (max_range (device_limits e)) range) as [|Hrange]; [discriminate|]. destruct (Z.ltb_spec UINT32_MAX o) as [|Ho32]; [discriminate|]. cbn [orb] in H.
  destruct (storage_buffer e (index b) (q * al) range) as [x|] eqn:Es; [|discriminate]. injection H as <- <- <-. assert (x = Range (index b) (q * al) range) as -> by (refine (Sb _ _ _ _ _ Es); unfold VK_WHOLE_SIZE; lia). rewrite (wrap_small 32 o) by (unfold in_range, UINT32_MAX in *; lia). destruct Al as [al4 Eal]. cbn [b_handle b_offset]. split_and!; auto.
  - intros ->. destruct (Z.eqb_spec shape 1); [assumption|discriminate].
  - split; cbn [b_offset b_size]; auto.
    + split; [lia|]. destruct Hdiv as [k Ek]. unfold o. rewrite Efb, Ek, Eal. destruct Hi4 as [E|[E|E]]; rewrite E; [apply Z.divide_1_l|exists (k + first - q * al4 * 2); lia|exists (k + first - q * al4); lia].
    + split; [lia|]. split; [exists (q * al4); lia|]. split; [exists ((o + count * i + 3) / 4); reflexivity|]. split; [lia|]. unfold range. lia.
  - unfold o. lia.
Qed.

(** What every call leaves, with the dispatches it has recorded. *)
Record call_post (s : recording) (d : device) (fresh : Z -> Prop) (x : drawn) (js : list job) : Prop := {
  cp_rec : rec_ok (after x) (dev x);
  cp_pre : has_prepass (pre s) = true -> has_prepass (pre (after x)) = true;
  cp_live : forall p, p ∈ live d -> p ∈ live (dev x);
  cp_within : forall z, within (scratch_of (scratch s)) z -> within (scratch_of (scratch (after x))) z;
  cp_buffers : forall h, h ∈ buffers (scratch_of (scratch (after x))) -> h ∈ buffers (scratch_of (scratch s)) \/ fresh h;
  cp_jobs : pres x = concat (job_commands <$> js) /\ (js = [] \/ exists j, js = [j]);
  cp_job : forall j, j ∈ js -> job_ok kind m0 j /\ within (scratch_of (scratch (after x))) (j_dst j) /\ forall z, within (scratch_of (scratch s)) z -> disjoint z (j_dst j) }.
Definition same_bindings (s s' : recording) : Prop := bound_state s' = bound_state s /\ unknown_writes s' = unknown_writes s /\ links s' = links s.
Definition chunk_of (a : draw_answers) (h : Z) : Prop := exists n, h = chunk_handle (a_edges a) n.

(** Where the lines of a draw come from. *)
Definition line_source (d : device) (s : recording) (js : list job) (shape count : Z) (r : bool) (b start : Z) (source : option (buffer_range * Z * Z)) : Prop :=
  match source with
  | None => start = 0 /\ exists q, q ∈ live d /\ p_buffer q = b /\ p_words q = pattern_words shape (p_triangles q) /\ triangle_count shape count <= p_triangles q <= UINT32_MAX / 6
  | Some (src, o, isize) => has_prepass (pre s) = true /\ exists j, js = [j] /\ b_handle (j_dst j) = b /\ b_offset (j_dst j) = start /\ push_triangles (j_push j) = triangle_count shape count /\ push_topology (j_push j) = shape /\ restart_of (j_push j) = restart_at r shape isize /\
      indices_of m0 (j_src j) (j_push j) (j_count j) = stream m0 (b_handle src) (b_offset src + o) isize count
  end.

Lemma no_jobs s d f x : rec_ok (after x) (dev x) -> (has_prepass (pre s) = true -> has_prepass (pre (after x)) = true) -> dev x = d -> scratch (after x) = scratch s -> pres x = [] -> call_post s d f x [].
Proof. intros R Hp <- Es Ep. split; auto; try rewrite Es; auto. intros j Hj. now apply not_elem_of_nil in Hj. Qed.

Lemma draw_lines_ok s d p t r indexed shape count instances first vertex_offset first_instance h source a : env_ok -> words_ok m0 -> rec_ok s d -> answers_ok a -> fresh_for (scratch s) (a_edges a) -> 0 <= shape -> 0 <= count ->
  (forall src o i, source = Some (src, o, i) -> h <> 0 /\ source_ok m0 src o i count /\ kind (b_handle src) = App) ->
  exists x js, draw_lines e s d p t r indexed shape count instances first vertex_offset first_instance h source a = Ok x /\ call_post s d (chunk_of a) x js /\ same_bindings s (after x) /\ (handled x = false -> cmds x = []) /\
    (handled x = true -> exists b start, cmds x = line_commands p (bound_state s) t r indexed b start (triangle_count shape count) instances first vertex_offset first_instance /\ line_source (dev x) (after x) js shape count r b start source).
Proof.
  intros E W R A F Hsh Hc Hsrc. unfold draw_lines. set (osrc := match source with Some (src, o, i) => (Some src, o, i) | None => (None, 0, 0) end). destruct osrc as [[os o] i] eqn:Eos. destruct (edges_create_ok (types e) (device_limits e) d (scratch s) count shape os o i r (a_edges a)) as ([[[[[res ed] d1] c1] pc] ev] & -> & P); [apply E|apply R|apply R|exact F|exact Hsh|exact Hc|]. cbn [obind]. destruct P as (D1 & D2 & D3 & S1 & S2 & S3 & N & P).
  assert (forall s2, scratch s2 = c1 -> bound_state s2 = bound_state s -> rec_ok s2 d1) as Hrec. { intros s2 <- Eb. destruct R as [_ _ Rk Rp Ri]. destruct A as [A1 A2 _]. split; auto; [|intros q Hq; destruct (D3 q Hq) as [H|[n ->]]; auto|rewrite Eb; exact Ri]. intros k Hk. destruct (S3 k Hk) as [H|[n ->]]; auto. }
  assert (exists js, pc = concat (job_commands <$> js) /\ (js = [] \/ exists j, js = [j]) /\ (forall j, j ∈ js -> job_ok kind m0 j /\ within (scratch_of c1) (j_dst j) /\ forall z, within (scratch_of (scratch s)) z -> disjoint z (j_dst j)) /\ (forall b start, ed = Some (b, start) -> forall s2, (h <> 0 -> has_prepass (pre s2) = true) -> line_source d1 s2 js shape count r b start source)) as (js & Ejs & Hone & Hjob & Hline).
  { destruct ed as [[b start]|]; [|exists []; split; [rewrite N; reflexivity|]; split; [now left|]; split; [intros j Hj; now apply not_elem_of_nil in Hj|discriminate]]. destruct (P b start eq_refl) as [_ Hp]. destruct source as [[[src so] si]|].
    - injection Eos as <- <- <-. destruct Hp as (x & y & lay & pp & pu & Rec). destruct (Hsrc src so si eq_refl) as (Hh & So & Ka). pose proof Rec as Rec'. destruct Rec as [Ht Hn (st & -> & Sk & Wi & Wd) Hst Epu Hg ->]. assert (kind b = Scratch) as Kb. { destruct Wi as (c & Hin & Ec & _). cbn in Ec. destruct (S3 b) as [H|[n ->]]; [cbn; rewrite <- Ec; unfold buffers; now apply list_elem_of_fmap_2|now apply R|apply A]. }
      pose proof (recorded_dispatch _ _ _ _ _ _ _ _ _ _ _ _ _ _ _ _ _ m0 Rec' So ltac:(congruence)) as Dk. exists [Job src (Range b start (24 * triangle_count shape count)) pu x y count lay pp]. split; [reflexivity|]. split; [right; eauto|]. split.
      + intros j ->%list_elem_of_singleton. cbn [j_dst]. split; [|split; [exact Wi|intros z Hz; apply Wd, Hz]]. split; cbn [j_src j_dst j_push j_x j_y j_count b_handle b_offset]; auto; [now rewrite Epu|rewrite Epu; exact Hg|split; [exact Kb|destruct Wi as (c & _ & _ & Ho & _); exact Ho]].
      + intros b' start' [= <- <-] s2 Hs2. split; [auto|]. eexists. split; [reflexivity|]. cbn [j_dst b_handle b_offset j_push j_src j_count]. rewrite Epu. cbn [push_triangles push_topology byte_offset index_size]. split_and!; reflexivity.
    - injection Eos as <- <- <-. destruct Hp as (-> & -> & Hq). exists []. split; [reflexivity|]. split; [now left|]. split; [intros j Hj; now apply not_elem_of_nil in Hj|]. intros b' start' [= <- <-] s2 _. now split. }
  assert (forall x, dev x = d1 -> scratch (after x) = c1 -> bound_state (after x) = bound_state s -> pres x = pc -> (has_prepass (pre s) = true -> has_prepass (pre (after x)) = true) -> call_post s d (chunk_of a) x js) as Hpost. { intros x <- Ec Eb Epc Hpre. split; auto; try rewrite Ec; auto. rewrite Epc. auto. }
  destruct ed as [[b start]|].
  - destruct (P b start eq_refl) as [-> _]. cbn [VK_SUCCESS]. rewrite Z.eqb_refl. cbn [negb]. destruct (a_retain a =? VK_SUCCESS); cbn [negb].
    + eexists _, js. split; [reflexivity|]. split; [apply Hpost; try reflexivity; cbn; intros ->; reflexivity|]. split; [now split|]. split; [discriminate|]. intros _. exists b, start. split; [reflexivity|]. apply (Hline b start eq_refl). intros Hh. cbn. apply orb_true_iff. right. apply negb_true_iff. now apply Z.eqb_neq.
    + eexists _, js. split; [reflexivity|]. split; [apply Hpost; auto|]. split; [now split|]. split; [reflexivity|discriminate].
  - eexists _, js. split; [reflexivity|]. split; [apply Hpost; auto|]. split; [now split|]. split; [reflexivity|discriminate].
Qed.

Definition topology_of (b : bindings) (p : pipe) : Z := if dynamic_topology p then topology b else p_topology p.
Definition restart_flag (b : bindings) (p : pipe) : bool := if dynamic_restart p then restart b else p_restart p.
(** The ways in which a draw is replaced. *)
Definition point_commands (p : pipe) (t : Z) (r indexed : bool) (count instances first vertex_offset first_instance : Z) : list command :=
  enter p POINT_LIST ++ [if indexed then DrawIndexed count instances first vertex_offset first_instance else Draw count instances first first_instance] ++ restore p t r.
Definition replaced (b : bindings) (s : recording) (x : drawn) (js : list job) (indexed : bool) (count instances first vertex_offset first_instance : Z) : Prop :=
  exists p, graphics b <> 0 /\ lookup e (graphics b) = Some p /\ (dynamic_topology p = true -> topology_known b = true) /\ (dynamic_restart p = true -> restart_known b = true) /\
  let t := topology_of b p in let r := restart_flag b p in shape_of t <= 2 /\
  ((cmds x = [] /\ (count = 0 \/ instances = 0 \/ mode p <> MODE_POINT /\ triangle_count (shape_of t) count = 0)) \/
   (mode p = MODE_POINT /\ (indexed = true -> r = false) /\ cmds x = point_commands p t r indexed count instances first vertex_offset first_instance) \/
   (mode p <> MODE_POINT /\ exists buffer start source, cmds x = line_commands p b t r indexed buffer start (triangle_count (shape_of t) count) instances first vertex_offset first_instance /\
      1 <= triangle_count (shape_of t) count <= UINT32_MAX / 6 /\ line_source (dev x) (after x) js (shape_of t) count r buffer start source /\
      if indexed then exists src o isize, source = Some (src, o, isize) /\ index b <> 0 /\ written s (index b) = false /\ isize = index_size_of (index_type b) /\ (r = true -> shape_of t = 1) /\ b_handle src = index b /\ b_offset src + o = index_offset b + first * isize
      else source = None /\ first <= INT32_MAX)).

Lemma prepass_ok s a res h q : answers_ok a -> prepass s (a_prepass a) = (res, h, q) -> has_prepass q = has_prepass (pre s) /\ (res = VK_SUCCESS -> h <> 0).
Proof.
  intros A. unfold prepass. destruct (Z.eqb_spec (pre_cmd (pre s)) 0) as [E0|Hne]; cbn [negb]; [|intros [= <- <- <-]; auto]. assert (forall p res h q, prepass_begin p (a_prepass a) = (res, h, q) -> has_prepass q = has_prepass p /\ (res = VK_SUCCESS -> h <> 0)) as Hb.
  { intros p r1 h1 q1. unfold prepass_begin. destruct (Z.eqb_spec (code (a_command (a_prepass a))) VK_SUCCESS) as [Ec|Hn]; cbn [negb]; [|intros [= <- <- <-]; split; [reflexivity|contradiction]]. destruct (Z.eqb_spec (a_begin (a_prepass a)) VK_SUCCESS) as [Eb|Hb]; intros [= <- <- <-]; (split; [reflexivity|]); intros H; [now apply A|contradiction]. }
  destruct (pre_pool (pre s) =? 0); cbn [negb]; [|apply Hb]. destruct (a_found _); cbn [negb]; [|intros [= <- <- <-]; split; [reflexivity|discriminate]]. destruct (_ !! _) as [c|]; [|intros [= <- <- <-]; split; [reflexivity|discriminate]]. destruct (a_query _); cbn [negb]; [|intros [= <- <- <-]; split; [reflexivity|discriminate]]. destruct c; cbn [negb]; [|intros [= <- <- <-]; split; [reflexivity|discriminate]]. destruct (Z.eqb_spec (code (a_cpool (a_prepass a))) VK_SUCCESS) as [_|Hn]; cbn [negb]; [intros H; apply Hb in H as [-> H]; auto|intros [= <- <- <-]; split; [reflexivity|contradiction]].
Qed.

Lemma draw_polygon_ok s d indexed count instances first vertex_offset first_instance a : env_ok -> words_ok m0 -> rec_ok s d -> answers_ok a -> fresh_for (scratch s) (a_edges a) -> 0 <= count < 2 ^ 32 -> 0 <= first < 2 ^ 32 ->
  exists x js, draw_polygon e s d indexed count instances first vertex_offset first_instance a = Ok x /\ call_post s d (chunk_of a) x js /\ same_bindings s (after x) /\ (handled x = false -> cmds x = []) /\ (handled x = true -> replaced (bound_state s) s x js indexed count instances first vertex_offset first_instance).
Proof.
  intros E W R A F Hc Hf. assert (forall x s', after x = s' -> dev x = d -> pres x = [] -> cmds x = [] -> handled x = false -> rec_ok s' d -> same_bindings s s' -> scratch s' = scratch s -> (has_prepass (pre s) = true -> has_prepass (pre s') = true) -> exists x0 js, Ok x = Ok x0 /\ call_post s d (chunk_of a) x0 js /\ same_bindings s (after x0) /\ (handled x0 = false -> cmds x0 = []) /\ (handled x0 = true -> replaced (bound_state s) s x0 js indexed count instances first vertex_offset first_instance)) as Hmiss.
  { intros x s' <- Ed Ep Ec Eh Rs Sb Es Hp. exists x, []. split; [reflexivity|]. split; [apply no_jobs; auto; now rewrite Ed|]. split; [exact Sb|]. split; [auto|congruence]. }
  assert (same_bindings s s) as Sb by now split. unfold draw_polygon. set (b := bound_state s) in *. destruct (Z.eqb_spec (graphics b) 0) as [|Hg]; [eapply Hmiss; eauto|]. destruct (acquired a); [|eapply Hmiss; eauto]. destruct (lookup e (graphics b)) as [p|] eqn:El; [|eapply Hmiss; eauto]. fold (topology_of b p) (restart_flag b p). destruct (_ || _) eqn:Ek; [eapply Hmiss; eauto|]. apply orb_false_iff in Ek as [Ek1 Ek2]. assert (dynamic_topology p = true -> topology_known b = true) as Kt by (intros H; rewrite H in Ek1; now apply negb_false_iff in Ek1). assert (dynamic_restart p = true -> restart_known b = true) as Kr by (intros H; rewrite H in Ek2; now apply negb_false_iff in Ek2). set (t := topology_of b p). set (r := restart_flag b p). destruct (Z.ltb_spec 2 (shape_of t)) as [|Hsh]; [eapply Hmiss; eauto|]. assert (0 <= shape_of t) as Hs0 by (unfold shape_of; repeat case_match; lia).
  assert (forall x js, call_post s d (chunk_of a) x js -> same_bindings s (after x) -> handled x = true -> replaced b s x js indexed count instances first vertex_offset first_instance -> exists x0 js, Ok x = Ok x0 /\ call_post s d (chunk_of a) x0 js /\ same_bindings s (after x0) /\ (handled x0 = false -> cmds x0 = []) /\ (handled x0 = true -> replaced (bound_state s) s x0 js indexed count instances first vertex_offset first_instance)) as Hdone by (intros x js H1 H2 H3 H4; exists x, js; split_and!; auto; congruence).
  destruct ((count =? 0) || (instances =? 0)) eqn:Ez. { eapply (Hdone _ []); [apply no_jobs; auto|exact Sb|reflexivity|]. exists p. split; [exact Hg|]. split; [exact El|]. split; [exact Kt|]. split; [exact Kr|]. split; [exact Hsh|]. left. split; [reflexivity|]. apply orb_true_iff in Ez as [Ez%Z.eqb_eq|Ez%Z.eqb_eq]; auto. }
  destruct ((dynamic_topology p && negb (set_topology e)) || (dynamic_restart p && negb (set_restart e))); [eapply Hmiss; eauto|]. destruct (Z.eqb_spec (mode p) MODE_POINT) as [Hm|Hm].
  - destruct (indexed && r) eqn:Eir; [eapply Hmiss; eauto|]. destruct (a_retain a =? VK_SUCCESS); cbn [negb]; [|eapply Hmiss; eauto]. eapply (Hdone _ []); [apply no_jobs; auto|exact Sb|reflexivity|]. exists p. split; [exact Hg|]. split; [exact El|]. split; [exact Kt|]. split; [exact Kr|]. split; [exact Hsh|]. right. left. split; [exact Hm|]. split; [intros ->; exact Eir|reflexivity].
  - destruct (Z.eqb_spec (triangle_count (shape_of t) count) 0) as [Et|Et]. { eapply (Hdone _ []); [apply no_jobs; auto|exact Sb|reflexivity|]. exists p. split; [exact Hg|]. split; [exact El|]. split; [exact Kt|]. split; [exact Kr|]. split; [exact Hsh|]. left. split; [reflexivity|]. auto. }
    destruct (Z.ltb_spec (UINT32_MAX / 6) (triangle_count (shape_of t) count)) as [|Hmax]; cbn [orb]; [eapply Hmiss; eauto|]. destruct (negb indexed && _) eqn:Ef; [eapply Hmiss; eauto|]. destruct (negb (index b =? 0) && negb (index_bytes b =? VK_WHOLE_SIZE) && negb (bind2 e)); [eapply Hmiss; eauto|]. destruct (bc_found e); cbn [negb]; [|eapply Hmiss; eauto]. pose proof (triangles_nonneg (shape_of t) count (proj1 Hc)) as Hnn. destruct indexed; cbn [negb andb] in *.
    + destruct (index_source e s (shape_of t) count first vertex_offset r) as [[[src o] isize]|] eqn:Ei; [|eapply Hmiss; eauto]. destruct (index_source_ok _ _ _ _ _ _ _ _ _ _ E W R Hc Hf Ei) as (I1 & I2 & I3 & I4 & I5 & I6 & I7). destruct (prepass s (a_prepass a)) as [[res h] q] eqn:Ep. destruct (prepass_ok _ _ _ _ _ A Ep) as [Eq Hh]. set (s1 := set_pre s q). assert (rec_ok s1 d) as R1 by (destruct R; now split). assert (has_prepass (pre s) = true -> has_prepass (pre s1) = true) as Hp1 by (cbn; now rewrite Eq). destruct (Z.eqb_spec res VK_SUCCESS) as [Er|]; cbn [negb]; [|eapply Hmiss; eauto].
      destruct (draw_lines_ok s1 d p t r true (shape_of t) count instances first vertex_offset first_instance h (Some (src, o, isize)) a E W R1 A F Hs0 (proj1 Hc)) as (x & js & Ex & Cp & Sx & N & L). { intros src' o' i' [= <- <- <-]. split; [auto|]. split; [exact I5|]. rewrite I6. now apply R. }
      exists x, js. split; [exact Ex|]. split; [destruct Cp as [C1 C2 C3 C4 C5 C6 C7]; split; auto|]. split; [exact Sx|]. split; [exact N|]. intros Hx. destruct (L Hx) as (buf & st & Ec & Ls). exists p. split; [exact Hg|]. split; [exact El|]. split; [exact Kt|]. split; [exact Kr|]. split; [exact Hsh|]. right. right. split; [exact Hm|]. exists buf, st, (Some (src, o, isize)). split; [exact Ec|]. split; [fold t; lia|]. split; [exact Ls|]. exists src, o, isize. split_and!; auto.
    + destruct (draw_lines_ok s d p t r false (shape_of t) count instances first vertex_offset first_instance 0 None a E W R A F Hs0 (proj1 Hc)) as (x & js & Ex & Cp & Sx & N & L); [discriminate|]. exists x, js. split; [exact Ex|]. split; [exact Cp|]. split; [exact Sx|]. split; [exact N|]. intros Hx. destruct (L Hx) as (buf & st & Ec & Ls). exists p. split; [exact Hg|]. split; [exact El|]. split; [exact Kt|]. split; [exact Kr|]. split; [exact Hsh|]. right. right. split; [exact Hm|]. exists buf, st, None. split; [exact Ec|]. split; [fold t; lia|]. split; [exact Ls|]. split; [reflexivity|]. now apply Z.ltb_ge in Ef.
Qed.

(** ** Application and device in step *)

Section lockstep.
Context (m1 : memory).

(** The layer knows what the application has bound, and which buffers it has not written. *)
Definition tracked (s : recording) (A : machine) : Prop :=
  let b := bound_state s in (graphics b = 0 \/ graphics b = m_pipeline A) /\ (topology_known b = true -> topology b = m_topology A) /\ (restart_known b = true -> restart b = m_restart A) /\
  ((index b = 0 /\ m_index A = None) \/ (index b <> 0 /\ m_index A = Some (index b, index_offset b, index_bytes b, index_type b))).
Definition clean (s : recording) (A : machine) : Prop := forall h, kind h = App -> written s h = false -> forall w, m_memory A h w = m0 h w.
(** The application's machine [A] runs its own commands, the device [M] the recorded ones, from memory [m1] that the first command buffer has left. *)
Record lock (s : recording) (A M : machine) : Prop := {
  lk_state : m_pipeline M = m_pipeline A /\ m_topology M = m_topology A /\ m_restart M = m_restart A;
  lk_index : m_index A <> None -> m_index M = m_index A;
  lk_kinds : forall h o n t, m_index A = Some (h, o, n, t) -> kind h = App;
  lk_tracked : active e = true -> tracked s A;
  lk_app : forall h, kind h = App -> forall w, m_memory M h w = m_memory A h w;
  lk_inner : forall h, kind h <> App -> forall w, m_memory M h w = m1 h w;
  lk_words : words_ok (m_memory A) /\ words_ok (m_memory M);
  lk_clean : active e = true -> clean s A }.

Definition shift (o : Z) (l : list (Z * Z)) : list (Z * Z) := (fun x => (x.1 + o, x.2 + o)) <$> l.
(** The lines of a list of lines, and the edges of the triangles of a draw; restarts matter for strips. *)
Definition line_list (y : entry) : list (Z * Z) := List.filter proper (shift (n_offset y) (lines (n_indices y))).
Definition triangle_edges (x : entry) : list (Z * Z) := List.filter proper (shift (n_offset x) (concat (edges <$> assemble (shape_of (n_topology x)) (n_restart x) (n_indices x)))).

(** The corners of the triangles of a draw, and the indices after its last complete triangle. *)
Definition corners (t : triangle) : list Z := let '(a, b, c) := t in [a; b; c].
Definition triangle_corners (x : entry) : list Z := concat (corners <$> assemble (shape_of (n_topology x)) (n_restart x) (n_indices x)).
Definition leftover (shape : Z) (l : list Z) : list Z := if shape =? 0 then drop (3 * (length l / 3)) l else if (length l <? 3)%nat then l else [].

(** What the device draws for a draw of the application; for points the indices of an incomplete triangle are drawn as well. *)
Definition shown (replacement : bool) (app drv : list entry) : Prop :=
  if replacement then
    exists x p, app = [x] /\ lookup e (n_pipeline x) = Some p /\
    ((drv = [] /\ (n_instances x = 0 \/ n_indices x = [] \/ mode p = MODE_LINE /\ triangle_edges x = [])) \/
     (mode p = MODE_POINT /\ n_restart x = None /\ exists y, drv = [y] /\ y = Entry (variant p) POINT_LIST None (n_indices x) (n_offset x) (n_instances x) (n_first_instance x) /\
        forall v, v ∈ n_indices y <-> v ∈ triangle_corners x \/ v ∈ leftover (shape_of (n_topology x)) (n_indices x)) \/
     (mode p = MODE_LINE /\ exists y, drv = [y] /\ n_pipeline y = variant p /\ n_topology y = LINE_LIST /\ n_restart y = None /\ n_instances y = n_instances x /\ n_first_instance y = n_first_instance x /\ line_list y = triangle_edges x))
  else drv = app.

Lemma filter_shift o l : List.filter proper (shift o l) = shift o (List.filter proper l).
Proof.
  induction l as [|[a b] l IH]; [reflexivity|]. change (shift o ((a, b) :: l)) with ((a + o, b + o) :: shift o l). cbn [List.filter]. rewrite IH. unfold proper. cbn [fst snd]. destruct (Z.eqb_spec a b) as [->|Hne]; [now rewrite Z.eqb_refl|]. rewrite (proj2 (Z.eqb_neq _ _)) by lia. reflexivity.
Qed.

(** Adding to all indices adds to all corners. *)
Definition move (o : Z) (t : triangle) : triangle := let '(a, b, c) := t in (o + a, o + b, o + c).
Lemma assemble_move topology o l : assemble topology None (Z.add o <$> l) = move o <$> assemble topology None l.
Proof.
  unfold assemble. destruct (topology =? 0); [|destruct (topology =? 1)].
  - induction l as [l IH] using (induction_ltof1 _ (@length Z)). unfold ltof in IH. destruct l as [|a [|b [|c l]]]; [reflexivity..|]. cbn. unfold fmap in IH. rewrite IH by (cbn; lia). reflexivity.
  - induction l as [|a l IH]; [reflexivity|]. destruct l as [|b [|c l]]; [reflexivity..|]. cbn -[Z.add] in *. now rewrite IH.
  - destruct l as [|a l]; [reflexivity|]. cbn [fmap list_fmap]. induction l as [|b l IH]; [reflexivity|]. destruct l as [|c l]; [reflexivity|]. cbn -[Z.add] in *. now rewrite IH.
Qed.

Lemma edges_move o l : concat (edges <$> (move o <$> l)) = shift o (concat (edges <$> l)).
Proof. induction l as [|[[a b] c] l IH]; [reflexivity|]. change (concat (edges <$> (move o <$> (a, b, c) :: l))) with (edges (o + a, o + b, o + c) ++ concat (edges <$> (move o <$> l))). rewrite IH. rewrite (Z.add_comm o a), (Z.add_comm o b), (Z.add_comm o c). reflexivity. Qed.

Lemma shift_zero l : shift 0 l = l.
Proof. induction l as [|[a b] l IH]; [reflexivity|]. change (shift 0 ((a, b) :: l)) with ((a + 0, b + 0) :: shift 0 l). rewrite IH, !Z.add_0_r. reflexivity. Qed.

Lemma no_triangles topology r l : 0 <= topology <= 2 -> triangle_count topology (Z.of_nat (length l)) = 0 -> assemble topology r l = [].
Proof.
  intros Ht H. assert (assemble topology (if topology =? 1 then r else None) l = []) as Hn. { rewrite <- slots_assemble; [unfold slots; now rewrite H|lia|]. destruct (Z.eqb_spec topology 1); [auto|contradiction]. } unfold assemble in *. destruct (Z.eqb_spec topology 1); [now subst|]. exact Hn.
Qed.

(** Every index is a corner of a triangle or left over. *)
Lemma list_corners l : forall v, v ∈ l <-> v ∈ concat (corners <$> assemble 0 None l) \/ v ∈ leftover 0 l.
Proof.
  induction l as [l IH] using (induction_ltof1 _ (@length Z)). unfold ltof in IH. intros v. destruct l as [|a [|b [|c l]]]; [cbn; rewrite ?elem_of_nil; tauto..|]. specialize (IH l ltac:(cbn; lia) v).
  change (concat (corners <$> assemble 0 None (a :: b :: c :: l))) with ([a; b; c] ++ concat (corners <$> assemble 0 None l)). unfold leftover in *. cbn [Z.eqb] in *. replace (length (a :: b :: c :: l) / 3)%nat with (S (length l / 3)) by (change (length (a :: b :: c :: l)) with (3 + length l)%nat; replace (3 + length l)%nat with (length l + 1 * 3)%nat by lia; rewrite Nat.div_add by lia; lia). replace (3 * S (length l / 3))%nat with (3 + 3 * (length l / 3))%nat by lia. change (drop (3 + 3 * (length l / 3)) (a :: b :: c :: l)) with (drop (3 * (length l / 3)) l).
  rewrite elem_of_app, !elem_of_cons, IH, elem_of_nil. tauto.
Qed.
Lemma strip_corners l : forall a b c v, v ∈ a :: b :: c :: l <-> v ∈ concat (corners <$> strip_triangles (a :: b :: c :: l)).
Proof.
  induction l as [|d l IH]; intros a b c v; [reflexivity|]. change (concat (corners <$> strip_triangles (a :: b :: c :: d :: l))) with ([a; b; c] ++ concat (corners <$> strip_triangles (b :: c :: d :: l))).
  rewrite elem_of_app, <- IH, !elem_of_cons, elem_of_nil. clear IH. tauto.
Qed.
Lemma fan_corners a l : forall b c v, v ∈ a :: b :: c :: l <-> v ∈ concat (corners <$> fan_triangles a (b :: c :: l)).
Proof.
  induction l as [|d l IH]; intros b c v; [reflexivity|]. change (concat (corners <$> fan_triangles a (b :: c :: d :: l))) with ([a; b; c] ++ concat (corners <$> fan_triangles a (c :: d :: l))).
  rewrite elem_of_app, <- IH, !elem_of_cons, elem_of_nil. clear IH. tauto.
Qed.
Lemma corners_leftover shape l : 0 <= shape <= 2 -> forall v, v ∈ l <-> v ∈ concat (corners <$> assemble shape None l) \/ v ∈ leftover shape l.
Proof. intros H. assert (shape = 0 \/ shape = 1 \/ shape = 2) as [->|[->| ->]] by lia; [apply list_corners| |]; intros v; destruct l as [|a [|b [|c l]]]; try (cbn; rewrite ?elem_of_nil; tauto); cbn [leftover Z.eqb Pos.eqb length Nat.ltb Nat.leb]; rewrite elem_of_nil; [pose proof (strip_corners l a b c v) as E|pose proof (fan_corners a l b c v) as E]; unfold assemble; cbn [Z.eqb Pos.eqb]; tauto. Qed.

(** *** The commands of a replacement *)

Lemma enter_exec p t M : exec cfg M (enter p t) = Some (Machine (variant p) (if dynamic_topology p then t else m_topology M) (if dynamic_restart p then false else m_restart M) (m_index M) (m_memory M), []).
Proof. unfold enter. destruct (dynamic_topology p), (dynamic_restart p); reflexivity. Qed.
Lemma restore_exec p t r M : exec cfg M (restore p t r) = Some (Machine (filled p) (if dynamic_topology p then t else m_topology M) (if dynamic_restart p then r else m_restart M) (m_index M) (m_memory M), []).
Proof. unfold restore. destruct (dynamic_topology p), (dynamic_restart p); reflexivity. Qed.
Lemma rebind_exec b M : exec cfg M (rebind_index b) = Some (Machine (m_pipeline M) (m_topology M) (m_restart M) (if index b =? 0 then m_index M else Some (index b, index_offset b, index_bytes b, index_type b)) (m_memory M), []).
Proof. unfold rebind_index. destruct (index b =? 0); [now destruct M|]. destruct (Z.eqb_spec (index_bytes b) VK_WHOLE_SIZE) as [E|E]; cbn [negb]; [rewrite E|]; reflexivity. Qed.

Lemma lock_after s s' A M M' : lock s A M -> same_bindings s s' -> m_pipeline M' = m_pipeline A -> m_topology M' = m_topology A -> m_restart M' = m_restart A -> (m_index A <> None -> m_index M' = m_index A) -> m_memory M' = m_memory M -> lock s' A M'.
Proof.
  intros [L1 L2 L0 L3 L4 L5 L6 L7] (Eb & Eu & El) H1 H2 H3 H4 H5. split; auto; try rewrite H5; auto.
  - unfold tracked. rewrite Eb. exact L3.
  - intros Ha h Hk Hw. apply L7; auto. unfold written in *. now rewrite Eu, El in Hw.
Qed.

(** What the application's draw looks like, from what the layer knows. *)
Lemma tracked_entry s A M p : env_ok -> active e = true -> lock s A M -> graphics (bound_state s) <> 0 -> lookup e (graphics (bound_state s)) = Some p -> (dynamic_topology p = true -> topology_known (bound_state s) = true) -> (dynamic_restart p = true -> restart_known (bound_state s) = true) ->
  m_pipeline A = graphics (bound_state s) /\ filled p = m_pipeline A /\ topology_in cfg A = topology_of (bound_state s) p /\ restart_in cfg A = restart_flag (bound_state s) p /\ (dynamic_topology p = true -> topology_of (bound_state s) p = m_topology A) /\ (dynamic_restart p = true -> restart_flag (bound_state s) p = m_restart A).
Proof.
  intros E Ha L Hg El Kt Kr. destruct (lk_tracked _ _ _ L Ha) as (Tg & Tt & Tr & _). destruct Tg as [Tg|Tg]; [contradiction|]. destruct (pipe_facts _ _ (eo_pipes E _ _ El)) as (Ef & _ & Ec & _). unfold topology_in, restart_in, topology_of, restart_flag. rewrite <- Tg, Ec. cbn [f_dynamic_topology f_dynamic_restart f_topology f_restart]. split_and!; auto.
  - destruct (dynamic_topology p); [symmetry; auto|reflexivity].
  - destruct (dynamic_restart p); [symmetry; auto|reflexivity].
  - intros H. rewrite H. auto.
  - intros H. rewrite H. auto.
Qed.

(** The state of the device after a replacement. *)
Lemma restored s A M p M' : lock s A M -> filled p = m_pipeline A -> (dynamic_topology p = true -> topology_of (bound_state s) p = m_topology A) -> (dynamic_restart p = true -> restart_flag (bound_state s) p = m_restart A) ->
  m_topology M' = (if dynamic_topology p then m_topology M' else m_topology M) -> m_restart M' = (if dynamic_restart p then m_restart M' else m_restart M) ->
  exec cfg M' (restore p (topology_of (bound_state s) p) (restart_flag (bound_state s) p)) = Some (Machine (m_pipeline A) (m_topology A) (m_restart A) (m_index M') (m_memory M'), []).
Proof.
  intros L Ef Ht Hr H1 H2. rewrite restore_exec, Ef. destruct (lk_state _ _ _ L) as (_ & E2 & E3). repeat f_equal; [destruct (dynamic_topology p); [auto|congruence]|destruct (dynamic_restart p); [auto|congruence]].
Qed.

Lemma shape_range t : shape_of t <= 2 -> 0 <= shape_of t <= 2.
Proof. intros H. split; [unfold shape_of; repeat case_match; lia|exact H]. Qed.

(** The device's lines and the application's edges are the same. *)
Lemma lines_equal l topology r o : (topology = 0 \/ topology = 1 \/ topology = 2) -> (r <> None -> topology = 1) -> List.filter proper (shift o (lines (concat (six <$> slots l topology r)))) = List.filter proper (shift o (concat (edges <$> assemble topology r l))).
Proof. intros Ht Hr. rewrite !filter_shift, lines_slots, slots_assemble by auto. reflexivity. Qed.

(** The index stream of the lines, in the memory of the device. *)
Lemma line_stream s A M d s' js shape count r b start source : lock s A M -> (shape = 0 \/ shape = 1 \/ shape = 2) -> 0 <= count -> (has_prepass (pre s') = true -> forall j, j ∈ js -> done m0 m1 j) -> (forall q, q ∈ live d -> holds m1 q /\ kind (p_buffer q) = Patterns) -> (forall j, j ∈ js -> kind (b_handle (j_dst j)) = Scratch) ->
  line_source d s' js shape count r b start source -> stream (m_memory M) b start 4 (6 * triangle_count shape count) = concat (six <$> match source with Some (src, o, i) => slots (stream m0 (b_handle src) (b_offset src + o) i count) shape (restart_at r shape i) | None => slots (seqZ 0 count) shape None end).
Proof.
  intros L Hs Hc Hd Hp Hk H. destruct source as [[[src o] i]|]; cbn [line_source] in H.
  - destruct H as (Hh & j & -> & <- & <- & Et & Etop & Er & Ei). assert (j ∈ [j]) as Hj by left. rewrite (stream_same (m_memory M) m1) by (intros w; apply L; rewrite (Hk j Hj); discriminate). pose proof (Hd Hh j Hj) as D. unfold done in D. rewrite Et, Etop, Er, Ei in D. exact D.
  - destruct H as (-> & q & Hq & <- & Ew & Hn). destruct (Hp q Hq) as [Hh Kq]. assert (forall w, m_memory M (p_buffer q) w = m1 (p_buffer q) w) as Em by (intros w; apply L; rewrite Kq; discriminate). apply pattern_stream; auto; [apply L| |lia]. intros j v Hv. rewrite Em. now apply Hh.
Qed.

Lemma line_replacement s A M A' es p x js indexed count instances first vertex_offset first_instance buffer start source : env_ok -> active e = true -> lock s A M -> graphics (bound_state s) <> 0 -> lookup e (graphics (bound_state s)) = Some p -> (dynamic_topology p = true -> topology_known (bound_state s) = true) -> (dynamic_restart p = true -> restart_known (bound_state s) = true) -> 0 <= count -> 0 <= first ->
  (index (bound_state s) <> 0 -> kind (index (bound_state s)) = App) -> same_bindings s (after x) -> (has_prepass (pre (after x)) = true -> forall j, j ∈ js -> done m0 m1 j) -> (forall q, q ∈ live (dev x) -> holds m1 q /\ kind (p_buffer q) = Patterns) -> (forall j, j ∈ js -> kind (b_handle (j_dst j)) = Scratch) ->
  let b := bound_state s in let t := topology_of b p in let r := restart_flag b p in shape_of t <= 2 -> mode p <> MODE_POINT -> cmds x = line_commands p b t r indexed buffer start (triangle_count (shape_of t) count) instances first vertex_offset first_instance -> 1 <= triangle_count (shape_of t) count <= UINT32_MAX / 6 -> line_source (dev x) (after x) js (shape_of t) count r buffer start source ->
  (if indexed then exists src o isize, source = Some (src, o, isize) /\ index b <> 0 /\ written s (index b) = false /\ isize = index_size_of (index_type b) /\ (r = true -> shape_of t = 1) /\ b_handle src = index b /\ b_offset src + o = index_offset b + first * isize else source = None /\ first <= INT32_MAX) ->
  step cfg A (if indexed then DrawIndexed count instances first vertex_offset first_instance else Draw count instances first first_instance) = Some (A', es) ->
  exists M' es', exec cfg M (cmds x) = Some (M', es') /\ lock (after x) A' M' /\ shown true es es'.
Proof.
  intros E Ha L Hg El Kt Kr Hc Hf Hik Sb Hd Hp Hk b t r Hsh Hm Ec Htri Hls Hsrc Hstep. destruct (tracked_entry s A M p E Ha L Hg El Kt Kr) as (Ep & Ef & Et & Er & Rt & Rr). fold b t r in Et, Er, Rt, Rr. destruct (pipe_facts _ _ (eo_pipes E _ _ El)) as (_ & Hmode & _ & Ecv). assert (mode p = MODE_LINE) as Hml by tauto. rewrite Hml in Ecv. cbn [Z.eqb MODE_LINE Pos.eqb] in Ecv. pose proof (shape_range t Hsh) as Hsr. assert (shape_of t = 0 \/ shape_of t = 1 \/ shape_of t = 2) as Hs3 by lia.
  set (tris := triangle_count (shape_of t) count) in *. change (UINT32_MAX / 6) with 715827882 in Htri. pose proof (line_stream s A M (dev x) (after x) js (shape_of t) count r buffer start source L Hs3 Hc Hd Hp Hk Hls) as Estr. fold tris in Estr. set (v := if indexed then vertex_offset else to_signed 32 first).
  set (y := Entry (variant p) LINE_LIST None (stream (m_memory M) buffer start 4 (6 * tris)) v instances first_instance). set (M2 := Machine (variant p) (if dynamic_topology p then LINE_LIST else m_topology M) (if dynamic_restart p then false else m_restart M) (Some (buffer, start, VK_WHOLE_SIZE, INDEX_UINT32)) (m_memory M)).
  assert (exists M', exec cfg M (cmds x) = Some (M', [y]) /\ lock (after x) A M') as (M' & Eex & L').
  { rewrite Ec. unfold line_commands. rewrite exec_gpu_app, enter_exec. cbn [exec app step m_index]. fold M2. assert (topology_in cfg M2 = LINE_LIST /\ restart_in cfg M2 = false) as [T2 R2] by (unfold topology_in, restart_in, M2; cbn [m_pipeline m_topology m_restart]; rewrite Ecv; cbn; now destruct (dynamic_topology p), (dynamic_restart p)). change (index_size_of INDEX_UINT32) with 4. rewrite Z.eqb_refl. cbn [negb andb]. cbn [m_pipeline m_topology m_restart m_memory m_index]. fold M2. rewrite T2, R2. rewrite Z.mul_0_l, Z.add_0_r, (wrap_small 32 (tris * 6)), (Z.mul_comm tris 6) by (unfold in_range; lia). fold v. fold y.
    rewrite exec_gpu_app, rebind_exec. set (M3 := Machine (m_pipeline M2) (m_topology M2) (m_restart M2) (if index b =? 0 then m_index M2 else Some (index b, index_offset b, index_bytes b, index_type b)) (m_memory M2)). unfold t, r, b. rewrite (restored s A M p M3 L Ef Rt Rr) by (unfold M3, M2; cbn [m_topology m_restart]; first [now destruct (dynamic_topology p)|now destruct (dynamic_restart p)]). eexists. split; [reflexivity|]. apply (lock_after s _ A M); auto. cbn [m_index]. intros Hi. destruct (lk_tracked _ _ _ L Ha) as (_ & _ & _ & [[_ Hn]|[Hn Hn']]); [contradiction|]. unfold M3. cbn [m_index]. fold b in Hn. rewrite (proj2 (Z.eqb_neq _ _) Hn). now rewrite Hn'. }
  assert (forall a0, es = [a0] -> n_pipeline a0 = m_pipeline A -> n_instances a0 = instances -> n_first_instance a0 = first_instance -> line_list y = triangle_edges a0 -> shown true es [y]) as Hshow by (intros a0 -> H1 H2 H3 H4; exists a0, p; split; [reflexivity|]; split; [rewrite H1, Ep; exact El|]; right; right; split; [exact Hml|]; exists y; split_and!; auto).
  destruct indexed.
  - destruct Hsrc as (src & o & isize & -> & Hi & Hw & Eis & Hr1 & Eh & Eo). cbn [step] in Hstep. destruct (lk_tracked _ _ _ L Ha) as (_ & _ & _ & [[Hn _]|[_ Hn]]); [contradiction|]. fold b in Hn. rewrite Hn in Hstep. destruct (negb _ && _); [discriminate|]. injection Hstep as <- <-. exists M', [y]. split; [exact Eex|]. split; [exact L'|]. eapply Hshow; [reflexivity|reflexivity|reflexivity|reflexivity|]. unfold line_list, triangle_edges. cbn [y n_offset n_indices n_topology n_restart]. fold b. rewrite Et, Er, Estr, Eh, Eo, <- Eis. rewrite (stream_same (m_memory A) m0) by (intros w; apply (lk_clean _ _ _ L Ha); auto).
    rewrite lines_equal by (auto; apply restart_strips). unfold restart_at. fold r. destruct r; [rewrite (Hr1 eq_refl)|]; reflexivity.
  - destruct Hsrc as [-> Hmax]. cbn [step] in Hstep. injection Hstep as <- <-. exists M', [y]. split; [exact Eex|]. split; [exact L'|]. eapply Hshow; [reflexivity|reflexivity|reflexivity|reflexivity|]. unfold line_list, triangle_edges. cbn [y n_offset n_indices n_topology n_restart]. rewrite Et, Estr, lines_equal by (auto; contradiction). unfold v. rewrite to_signed_id by (unfold INT32_MAX in Hmax; lia). rewrite shift_zero, <- edges_move, <- assemble_move. do 3 f_equal. rewrite fmap_add_seqZ. repeat f_equal; lia.
Qed.

Definition draw_command (indexed : bool) (count instances first vertex_offset first_instance : Z) : command := if indexed then DrawIndexed count instances first vertex_offset first_instance else Draw count instances first first_instance.

(** The entry of a draw with another pipeline state. *)
Definition entry_of (A : machine) (indexed : bool) (count instances first vertex_offset first_instance pipeline topology : Z) (restart : bool) : entry :=
  let '(h, o, _, t) := default (0, 0, 0, 0) (m_index A) in let isize := index_size_of t in
  Entry pipeline topology (if indexed && restart then Some (restart_index isize) else None) (if indexed then stream (m_memory A) h (o + first * isize) isize count else seqZ first count) (if indexed then vertex_offset else 0) instances first_instance.

Lemma draw_step A indexed count instances first vertex_offset first_instance A' es : step cfg A (draw_command indexed count instances first vertex_offset first_instance) = Some (A', es) ->
  A' = A /\ es = [entry_of A indexed count instances first vertex_offset first_instance (m_pipeline A) (topology_in cfg A) (restart_in cfg A)] /\
  forall M, (forall h, kind h = App -> forall w, m_memory M h w = m_memory A h w) -> (m_index A <> None -> m_index M = m_index A) -> (forall h o n t, m_index A = Some (h, o, n, t) -> kind h = App) ->
    step cfg M (draw_command indexed count instances first vertex_offset first_instance) = Some (M, [entry_of A indexed count instances first vertex_offset first_instance (m_pipeline M) (topology_in cfg M) (restart_in cfg M)]).
Proof.
  unfold draw_command, entry_of. destruct indexed; cbn [step]; [|intros [= <- <-]; split; [reflexivity|]; split; [now destruct (m_index A) as [[[[h o] n] t]|]|]; intros; now destruct (m_index A) as [[[[h o] n] t]|]].
  destruct (m_index A) as [[[[h o] n] t]|] eqn:Ei; [|discriminate]. destruct (negb _ && _) eqn:Eb; [discriminate|]. intros [= <- <-]. cbn [default andb]. split; [reflexivity|]. split; [reflexivity|]. intros M Hm Hi Hk. rewrite Hi by discriminate. rewrite Eb. rewrite (stream_same (m_memory M) (m_memory A)) by (apply Hm; eapply Hk; reflexivity). reflexivity.
Qed.

Lemma entry_length A indexed count instances first vertex_offset first_instance p t r : 0 <= count -> Z.of_nat (length (n_indices (entry_of A indexed count instances first vertex_offset first_instance p t r))) = count.
Proof. intros H. unfold entry_of. destruct (default _ _) as [[[h o] n] ty]. cbn [n_indices]. destruct indexed; [now apply length_stream|]. rewrite length_seqZ. lia. Qed.

(** A replaced draw. *)
Lemma replacement_shown s A M A' es x js indexed count instances first vertex_offset first_instance : env_ok -> active e = true -> lock s A M -> 0 <= count -> 0 <= first ->
  (index (bound_state s) <> 0 -> kind (index (bound_state s)) = App) -> same_bindings s (after x) -> (has_prepass (pre (after x)) = true -> forall j, j ∈ js -> done m0 m1 j) -> (forall q, q ∈ live (dev x) -> holds m1 q /\ kind (p_buffer q) = Patterns) -> (forall j, j ∈ js -> kind (b_handle (j_dst j)) = Scratch) ->
  replaced (bound_state s) s x js indexed count instances first vertex_offset first_instance -> step cfg A (draw_command indexed count instances first vertex_offset first_instance) = Some (A', es) ->
  exists M' es', exec cfg M (cmds x) = Some (M', es') /\ lock (after x) A' M' /\ shown true es es'.
Proof.
  intros E Ha L Hc Hf Hik Sb Hd Hp Hk (p & Hg & El & Kt & Kr & Hsh & Hcase) Hstep. destruct (tracked_entry s A M p E Ha L Hg El Kt Kr) as (Ep & Ef & Et & Er & Rt & Rr). destruct (pipe_facts _ _ (eo_pipes E _ _ El)) as (_ & Hmode & _ & Ecv). set (b := bound_state s) in *. set (t := topology_of b p) in *. set (r := restart_flag b p) in *.
  destruct Hcase as [[Ec Hwhy]|[(Hm & Hr & Ec)|(Hm & buffer & start & source & Ec & Htri & Hls & Hsrc)]].
  - destruct (draw_step _ _ _ _ _ _ _ _ _ Hstep) as (-> & -> & _). rewrite Ec. exists M, []. split; [reflexivity|]. split; [apply (lock_after s _ A M); auto; try apply L|]. set (a0 := entry_of _ _ _ _ _ _ _ _ _ _). pose proof (entry_length A indexed count instances first vertex_offset first_instance (m_pipeline A) (topology_in cfg A) (restart_in cfg A) Hc) as Hlen. fold a0 in Hlen. assert (n_pipeline a0 = m_pipeline A /\ n_instances a0 = instances /\ n_topology a0 = t) as (A1 & A2 & A3) by (unfold a0, entry_of; destruct (default _ _) as [[[h o] n] ty]; auto).
    exists a0, p. split; [reflexivity|]. split; [now rewrite A1, Ep|]. left. split; [reflexivity|]. destruct Hwhy as [->|[->|[Hm Hn]]]; [right; left; destruct (n_indices a0); [reflexivity|cbn in Hlen; lia]|now left|]. right. right. split; [tauto|]. unfold triangle_edges. rewrite A3, no_triangles; [reflexivity|apply shape_range, Hsh|now rewrite Hlen].
  - destruct (draw_step _ _ _ _ _ _ _ _ _ Hstep) as (-> & -> & Hany). rewrite Hm in Ecv. cbn [Z.eqb MODE_LINE MODE_POINT Pos.eqb] in Ecv. rewrite Ec. unfold point_commands. fold (draw_command indexed count instances first vertex_offset first_instance). rewrite exec_gpu_app, enter_exec. cbn [app exec]. set (M2 := Machine _ _ _ _ _). assert (topology_in cfg M2 = POINT_LIST /\ restart_in cfg M2 = false) as [T2 R2] by (unfold topology_in, restart_in, M2; cbn [m_pipeline m_topology m_restart]; rewrite Ecv; cbn; now destruct (dynamic_topology p), (dynamic_restart p)).
    assert (forall h o n ty, m_index A = Some (h, o, n, ty) -> kind h = App) as Happ by (intros h o n ty Hi; destruct (lk_tracked _ _ _ L Ha) as (_ & _ & _ & [[_ Hn]|[Hn Hn']]); [congruence|rewrite Hn' in Hi; injection Hi as <- <- <- <-; auto]). rewrite (Hany M2 (lk_app _ _ _ L) (lk_index _ _ _ L) Happ). unfold t, r, b. rewrite (restored s A M p M2 L Ef Rt Rr) by (unfold M2; cbn [m_topology m_restart]; first [now destruct (dynamic_topology p)|now destruct (dynamic_restart p)]). eexists _, _. split; [reflexivity|]. split; [apply (lock_after s _ A M); auto; apply L|]. rewrite T2, R2. cbn [app]. unfold entry_of. destruct (default _ _) as [[[h o] n] ty]. eexists _, p. split; [reflexivity|]. split; [cbn; now rewrite Ep|]. right. left. split; [exact Hm|]. rewrite andb_false_r. cbn [n_restart n_indices n_offset n_instances n_first_instance]. assert ((if indexed && restart_in cfg A then Some (restart_index (index_size_of ty)) else None) = None) as Hnr by (destruct indexed; [|reflexivity]; rewrite Er; fold b r; now rewrite (Hr eq_refl)). split; [exact Hnr|]. eexists. split; [reflexivity|]. split; [reflexivity|]. unfold triangle_corners. cbn [n_indices n_topology n_restart]. rewrite Hnr, Et. apply corners_leftover, shape_range, Hsh.
  - eapply (line_replacement s A M A' es p x js indexed count instances first vertex_offset first_instance buffer start source); eauto.
Qed.

(** ** Calls *)

(** A transfer to [b], and a dispatch: they depend on and change the application's memory only. *)
Definition transfer_ok (b : Z) (f : memory -> memory) : Prop :=
  kind b = App /\ (forall m h w, h <> b -> f m h w = m h w) /\ (forall m, words_ok m -> words_ok (f m)) /\ (forall m m', (forall h, kind h = App -> forall w, m h w = m' h w) -> forall w, f m b w = f m' b w).
Definition compute_ok (f : memory -> memory) : Prop :=
  (forall m h w, kind h <> App -> f m h w = m h w) /\ (forall m, words_ok m -> words_ok (f m)) /\ (forall m m', (forall h, kind h = App -> forall w, m h w = m' h w) -> forall h, kind h = App -> forall w, f m h w = f m' h w).
Definition binding_ok (h o t : Z) : Prop := h <> 0 /\ kind h = App /\ 0 <= o < 2 ^ 64 /\ 0 < index_size_of t /\ (index_size_of t | o).
(** Valid use. *)
Definition call_ok (c : call) : Prop :=
  match c with
  | CBind _ | CTopology _ | CRestart _ => True
  | CIndex h o t | CIndex2 h o _ t => binding_ok h o t
  | CDraw n _ f _ a | CDrawIndexed n _ f _ _ a => 0 <= n < 2 ^ 32 /\ 0 <= f < 2 ^ 32 /\ answers_ok a
  | CWrite b f _ => transfer_ok b f
  | CDispatch f => compute_ok f
  end.
Definition answers_of (c : call) : option draw_answers := match c with CDraw _ _ _ _ a | CDrawIndexed _ _ _ _ _ a => Some a | _ => None end.
(** The buffers that the driver could give to a new chunk during the call. *)
Definition new_of (c : call) (h : Z) : Prop := exists a, answers_of c = Some a /\ chunk_of a h.
Definition fresh_call (s : recording) (c : call) : Prop := forall h, new_of c h -> ~ h ∈ buffers (scratch_of (scratch s)).

(** The application's own command on the device. *)
Lemma plain_step s s' A M A' es c : lock s A M -> call_ok c -> step cfg A (plain c) = Some (A', es) -> (active e = true -> tracked s' A' /\ clean s' A') -> exists M', exec cfg M [plain c] = Some (M', es) /\ lock s' A' M'.
Proof.
  intros L Hc Hs Hn. destruct L as [(L1 & L2 & L3) Li Lk _ La Ln [W1 W2] _]. assert (exists M', step cfg M (plain c) = Some (M', es) /\ lock s' A' M') as (M' & E & L'); [|exists M'; cbn [exec]; rewrite E, app_nil_r; auto].
  destruct c as [h|t|r|h o t|h o n t|n i f base a|n i f v base a|b f al|f]; cbn [plain step call_ok] in *; try (injection Hs as <- <-; eexists; split; [reflexivity|]; split; cbn [m_pipeline m_topology m_restart m_index m_memory]; auto; try (intros H; destruct (Hn H); assumption); congruence).
  - injection Hs as <- <-. eexists. split; [reflexivity|]. split; cbn [m_pipeline m_topology m_restart m_index m_memory]; auto; try (intros H; destruct (Hn H); assumption). intros h' o' n' t' [= <- <- <- <-]. apply Hc.
  - injection Hs as <- <-. eexists. split; [reflexivity|]. split; cbn [m_pipeline m_topology m_restart m_index m_memory]; auto; try (intros H; destruct (Hn H); assumption). intros h' o' n' t' [= <- <- <- <-]. apply Hc.
  - destruct (draw_step A false n i f 0 base A' es Hs) as (-> & -> & Hany). pose proof (Hany M La Li Lk) as E. unfold draw_command in E. cbn [step] in E. exists M. split; [rewrite E; unfold topology_in, restart_in; rewrite L1, L2, L3; reflexivity|]. split; auto; intros H; destruct (Hn H); assumption.
  - destruct (draw_step A true n i f v base A' es Hs) as (-> & -> & Hany). pose proof (Hany M La Li Lk) as E. unfold draw_command in E. cbn [step] in E. exists M. split; [rewrite E; unfold topology_in, restart_in; rewrite L1, L2, L3; reflexivity|]. split; auto; intros H; destruct (Hn H); assumption.
  - injection Hs as <- <-. destruct Hc as (Kb & Ho & Hw & Hsame). eexists. split; [reflexivity|]. split; cbn [m_pipeline m_topology m_restart m_index m_memory]; auto; try (intros H; destruct (Hn H); assumption).
    + intros h Kh w. destruct (Z.eq_dec h b) as [->|Hne]; [apply Hsame; auto|rewrite !Ho by assumption; auto].
    + intros h Kh w. rewrite Ho by congruence. auto.
  - injection Hs as <- <-. destruct Hc as (Ho & Hw & Hsame). eexists. split; [reflexivity|]. split; cbn [m_pipeline m_topology m_restart m_index m_memory]; auto; try (intros H; destruct (Hn H); assumption). intros h Kh w. rewrite Ho by assumption. auto.
Qed.
End lockstep.

(** What a call records, and what the device draws for it. *)
Definition call_shown (s : recording) (c : call) (x : drawn) (js : list job) : Prop :=
  forall m1 A M A' es, lock m1 s A M -> (has_prepass (pre (after x)) = true -> forall j, j ∈ js -> done m0 m1 j) -> (forall q, q ∈ live (dev x) -> holds m1 q) -> step cfg A (plain c) = Some (A', es) ->
  exists M' es', exec cfg M (cmds x) = Some (M', es') /\ lock m1 (after x) A' M' /\ shown (handled x) es es'.

Lemma pass_ok s s' d c x : env_ok -> rec_ok s' d -> call_ok c -> after x = s' -> dev x = d -> pres x = [] -> cmds x = [plain c] -> handled x = false -> pre s' = pre s -> scratch s' = scratch s ->
  (active e = true -> forall A A' es, tracked s A -> clean s A -> step cfg A (plain c) = Some (A', es) -> tracked s' A' /\ clean s' A') -> call_post s d (new_of c) x [] /\ call_shown s c x [].
Proof.
  intros E R Hc <- Ed Ep Ec Eh Epre Esc Hn. split; [apply no_jobs; auto; [now rewrite Ed|rewrite Epre; auto]|]. intros m1 A M A' es L _ _ Hs. destruct (plain_step m1 s (after x) A M A' es c L Hc Hs) as (M' & Ex & L'). { intros Ha. eapply Hn; eauto; [apply (lk_tracked _ _ _ _ L Ha)|apply (lk_clean _ _ _ _ L Ha)]. } exists M', es. rewrite Ec, Eh. split; [exact Ex|]. split; [exact L'|reflexivity].
Qed.

Lemma draw_call_ok s d c indexed count instances first vertex_offset first_instance a : env_ok -> words_ok m0 -> rec_ok s d -> call_ok c -> fresh_call s c -> active e = true -> plain c = draw_command indexed count instances first vertex_offset first_instance -> answers_of c = Some a -> answers_ok a -> 0 <= count < 2 ^ 32 -> 0 <= first < 2 ^ 32 ->
  exists x js, (let! x := draw_polygon e s d indexed count instances first vertex_offset first_instance a in Ok (finish_draw c x)) = Ok x /\ call_post s d (new_of c) x js /\ call_shown s c x js.
Proof.
  intros E W R Hc F Ha Ep Ea A Hn Hf. destruct (draw_polygon_ok s d indexed count instances first vertex_offset first_instance a E W R A) as (x & js & -> & [C1 C2 C3 C4 C5 C6 C7] & Sb & N & H); [intros n Hin; apply (F (chunk_handle (a_edges a) n)); [exists a; split; [exact Ea|now exists n]|exact Hin]|assumption|assumption|]. cbn [obind]. exists (finish_draw c x), js. split; [reflexivity|].
  assert (call_post s d (new_of c) x js) as Cp by (split; auto; intros h Hh; destruct (C5 h Hh) as [|Hx]; [now left|right; exists a; auto]). unfold finish_draw. destruct (handled x) eqn:Eh.
  - split; [exact Cp|]. intros m1 A0 M A' es L Hd Hp Hs. rewrite Eh. rewrite Ep in Hs. eapply (replacement_shown m1 s A0 M A' es x js); eauto; [lia|lia|intros Hi; apply (ro_index s d R Hi)|intros q Hq; split; [auto|apply C1, Hq]|intros j Hj; apply (C7 j Hj)].
  - split; [destruct Cp as [P1 P2 P3 P4 P5 P6 P7]; split; auto|]. intros m1 A0 M A' es L _ _ Hs. cbn [cmds after handled]. destruct (plain_step m1 s (after x) A0 M A' es c L Hc Hs) as (M' & Ex & L'); [|exists M', es; split; [exact Ex|]; split; [exact L'|reflexivity]]. intros _. rewrite Ep in Hs. destruct (draw_step _ _ _ _ _ _ _ _ _ Hs) as (-> & _ & _). destruct Sb as (S1 & S2 & S3). split; [unfold tracked; rewrite S1; apply (lk_tracked _ _ _ _ L Ha)|]. intros h Kh Hw. apply (lk_clean _ _ _ _ L Ha h Kh). unfold written in *. now rewrite S2, S3 in Hw.
Qed.

Lemma rec_bindings s d b : rec_ok s d -> (index b <> 0 -> kind (index b) = App /\ 0 <= index_offset b < 2 ^ 64 /\ 0 < index_size_of (index_type b) /\ (index_size_of (index_type b) | index_offset b)) -> rec_ok (set_bindings s b) d.
Proof. intros [R1 R2 R3 R4 _] H. now split. Qed.

Lemma written_post s b alloc s' err : hybris_polygon_record_written s b alloc = (s', err) -> bound_state s' = bound_state s /\ pre s' = pre s /\ scratch s' = scratch s /\ forall h, written s' h = false -> written s h = false /\ h <> b.
Proof.
  unfold hybris_polygon_record_written. destruct (written s b) eqn:Ew; [intros [= <- <-]; split_and!; auto; intros h Hh; split; [exact Hh|congruence]|]. destruct alloc; cbn [negb]; intros [= <- <-]; split_and!; auto; intros h; unfold written; cbn [unknown_writes links set_writes existsb]; [|discriminate].
  intros [H1 H2]%orb_false_iff. apply orb_false_iff in H2 as [H2 H3]. rewrite H1, H3. split; [reflexivity|]. intros ->. now rewrite Z.eqb_refl in H2.
Qed.

Local Ltac passed := match goal with |- call_post ?s ?d _ ?x _ /\ _ => apply (pass_ok s (after x) d); try reflexivity; auto end.

Lemma call_step s d c : env_ok -> words_ok m0 -> rec_ok s d -> call_ok c -> fresh_call s c -> exists x js, record_call e s d c = Ok x /\ call_post s d (new_of c) x js /\ call_shown s c x js.
Proof.
  intros E W R Hc F. unfold record_call. destruct (active e) eqn:Ha; cbn [negb]; [|eexists _, []; split; [reflexivity|]; eapply (pass_ok s s d); eauto; congruence]. pose proof (ro_index s d R) as Ri.
  destruct c as [h|t|r|h o t|h o n t|n i f base a|n i f v base a|b f al|f].
  - eexists _, []. split; [reflexivity|]. passed; [now apply rec_bindings|]. intros _ A A' es (T1 & T2 & T3 & T4) Cl [= <- <-]. split; [|exact Cl]. split; [now right|]. auto.
  - eexists _, []. split; [reflexivity|]. passed; [now apply rec_bindings|]. intros _ A A' es (T1 & T2 & T3 & T4) Cl [= <- <-]. split; [|exact Cl]. split; [exact T1|]. split; [reflexivity|]. auto.
  - eexists _, []. split; [reflexivity|]. passed; [now apply rec_bindings|]. intros _ A A' es (T1 & T2 & T3 & T4) Cl [= <- <-]. split; [|exact Cl]. split; [exact T1|]. split; [exact T2|]. split; [reflexivity|exact T4].
  - eexists _, []. split; [reflexivity|]. passed; [apply rec_bindings; [exact R|intros _; apply Hc]|]. intros _ A A' es (T1 & T2 & T3 & T4) Cl [= <- <-]. split; [|exact Cl]. split; [exact T1|]. split; [exact T2|]. split; [exact T3|]. right. split; [apply Hc|reflexivity].
  - eexists _, []. split; [reflexivity|]. passed; [apply rec_bindings; [exact R|intros _; apply Hc]|]. intros _ A A' es (T1 & T2 & T3 & T4) Cl [= <- <-]. split; [|exact Cl]. split; [exact T1|]. split; [exact T2|]. split; [exact T3|]. right. split; [apply Hc|reflexivity].
  - destruct Hc as (H1 & H2 & H3). now apply (draw_call_ok s d _ false n i f 0 base a).
  - destruct Hc as (H1 & H2 & H3). now apply (draw_call_ok s d _ true n i f v base a).
  - destruct (hybris_polygon_record_written s b al) as [s' err] eqn:Ew. destruct (written_post s b al s' err Ew) as (B1 & B2 & B3 & B4). eexists _, []. split; [reflexivity|]. assert (rec_ok s' d) as R'. { destruct R as [R1 R2 R3 R4 R5]. split; try rewrite B3; auto. now rewrite B1. } eapply (pass_ok s s' d); eauto. intros _ A A' es T Cl [= <- <-]. split; [unfold tracked in *; rewrite B1; exact T|]. intros h Kh Hw w. destruct (B4 h Hw) as [Hw' Hne]. destruct Hc as (_ & Ho & _). cbn [m_memory]. rewrite Ho by assumption. now apply Cl.
  - eexists _, []. split; [reflexivity|]. assert (rec_ok (set_writes s true (links s)) d) as R' by (destruct R; now split). passed. intros _ A A' es T Cl [= <- <-]. split; [exact T|]. intros h _ Hw. discriminate.
Qed.

(** ** Whole recordings *)

(** No two calls are given the same buffer for a chunk. *)
Fixpoint distinct (l : list call) : Prop := match l with [] => True | c :: l => (forall c' h, c' ∈ l -> new_of c h -> ~ new_of c' h) /\ distinct l end.
Definition plains (l : list call) : list (list command) := (fun c => [plain c]) <$> l.

Record calls_post (s : recording) (d : device) (l : list call) (xs : list drawn) (s' : recording) (d' : device) (js : list job) : Prop := {
  cs_rec : rec_ok s' d';
  cs_pre : has_prepass (pre s) = true -> has_prepass (pre s') = true;
  cs_live : forall p, p ∈ live d -> p ∈ live d';
  cs_jobs : concat (pres <$> xs) = concat (job_commands <$> js) /\ apart js;
  cs_job : forall j, j ∈ js -> job_ok kind m0 j /\ forall z, within (scratch_of (scratch s)) z -> disjoint z (j_dst j);
  cs_shown : forall m1 A M A' ess, lock m1 s A M -> (has_prepass (pre s') = true -> forall j, j ∈ js -> done m0 m1 j) -> (forall q, q ∈ live d' -> holds m1 q) -> exec_groups cfg A (plains l) = Some (A', ess) ->
    exists M' ess', exec_groups cfg M (cmds <$> xs) = Some (M', ess') /\ lock m1 s' A' M' /\ Forall3 shown (handled <$> xs) ess ess' }.

Lemma calls_recorded l : env_ok -> words_ok m0 -> forall s d, rec_ok s d -> (forall c, c ∈ l -> call_ok c /\ fresh_call s c) -> distinct l -> exists xs s' d' js, record_calls e s d l = Ok (xs, s', d') /\ calls_post s d l xs s' d' js.
Proof.
  intros E W. induction l as [|c l IH]; intros s d R Hl Hd; cbn [record_calls].
  - exists [], s, d, []. split; [reflexivity|]. split; [exact R|auto|auto|now split|intros j Hj; now apply not_elem_of_nil in Hj|]. intros m1 A M A' ess L _ _ [= <- <-]. exists M, []. split; [reflexivity|]. split; [exact L|constructor].
  - destruct (Hl c ltac:(left)) as [Hc Hf]. destruct (call_step s d c E W R Hc Hf) as (x & js & -> & Cp & Cs). cbn [obind]. destruct Hd as [Hd1 Hd]. destruct (IH (after x) (dev x) (cp_rec _ _ _ _ _ Cp)) as (xs & s' & d' & ks & -> & P); [|exact Hd|].
    { intros c' Hc'. destruct (Hl c' ltac:(now right)) as [H1 H2]. split; [exact H1|]. intros h Hn Hin. destruct (cp_buffers _ _ _ _ _ Cp h Hin) as [Hb|Hb]; [exact (H2 h Hn Hb)|exact (Hd1 c' h Hc' Hb Hn)]. }
    cbn [obind]. exists (x :: xs), s', d', (js ++ ks). split; [reflexivity|]. destruct P as [P1 P2 P3 [P4 P5] P6 P7]. destruct Cp as [C1 C2 C3 C4 C5 [C6 C6'] C7]. split; auto.
    + split; [change (concat (pres <$> x :: xs)) with (pres x ++ concat (pres <$> xs)); now rewrite P4, fmap_app, concat_app, C6|]. destruct C6' as [->|[j ->]]; [exact P5|]. cbn [app apart]. split; [|exact P5]. intros k Hk. apply (P6 k Hk). apply (C7 j). left.
    + intros j [Hj|Hj]%elem_of_app; [destruct (C7 j Hj) as (H1 & _ & H2); auto|]. destruct (P6 j Hj) as [H1 H2]. auto.
    + intros m1 A M A' ess L Hdn Hh Hex. change (plains (c :: l)) with ([plain c] :: plains l) in Hex. cbn [exec_groups exec] in Hex. destruct (step cfg A (plain c)) as [[A1 es]|] eqn:Es; [|discriminate]. rewrite app_nil_r in Hex. destruct (exec_groups cfg A1 (plains l)) as [[A2 ess2]|] eqn:Eg; [|discriminate]. injection Hex as <- <-.
      destruct (Cs m1 A M A1 es L) as (M1 & es' & Ex & L1 & S1); [intros Hp j Hj; apply Hdn; [auto|apply elem_of_app; now left]|intros q Hq; auto|exact Es|]. destruct (P7 m1 A1 M1 A2 ess2 L1) as (M2 & ess' & Ex2 & L2 & S2); [intros Hp j Hj; apply Hdn; [exact Hp|apply elem_of_app; now right]|exact Hh|exact Eg|]. exists M2, (es' :: ess'). change (cmds <$> x :: xs) with (cmds x :: (cmds <$> xs)). cbn [exec_groups]. rewrite Ex, Ex2. split; [reflexivity|]. split; [exact L2|]. now constructor.
Qed.
End draws.

(** The commands that run first: none if no replaced draw needs them. *)
Definition first_commands (s : recording) (xs : list drawn) : list pre_command := if has_prepass (pre s) then concat (pres <$> xs) else [].
Definition with_memory (A : machine) (m : memory) : machine := Machine (m_pipeline A) (m_topology A) (m_restart A) (m_index A) m.

(** C6: a recording draws what the application means.  After a reset, any sequence of valid calls (binds, dynamic state, index buffers, transfers, dispatches, draws) is recorded
    without undefined behaviour, whatever the driver and the allocator answer.  On every memory with the patterns in it the commands that run first can run, and whatever the order
    of their invocations, the device then executes the recorded commands when the application's own commands are valid: a draw that is replaced becomes, with the same instances,
    the edges of its triangles as lines; for the point mode, exactly the corners of its triangles and the indices of an incomplete last triangle as points; or nothing when it has none; every other draw is as
    the application made it; and in the end pipeline, dynamic state, index buffer with offset, size and type, and the application's memory are what its own commands leave. *)
Theorem polygon_recording_exact (kind : Z -> owner) (cfg : Z -> config) (e : env) (m0 : memory) (s0 : recording) (rs : list Z) (d : device) (l : list call) (A : machine) :
  let s := fst (hybris_polygon_record_reset s0 rs) in
  env_ok e cfg -> words_ok m0 -> rec_ok kind s d -> (forall c, c ∈ l -> call_ok kind c /\ fresh_call s c) -> distinct l -> m_index A = None -> m_memory A = m0 ->
  exists xs s' d', record_calls e s d l = Ok (xs, s', d') /\ (exists m1, pre_runs m0 None None (first_commands s' xs) m1) /\
  forall m1 A' ess, (forall q, q ∈ live d' -> holds m0 q) -> pre_runs m0 None None (first_commands s' xs) m1 -> exec_groups cfg A (plains l) = Some (A', ess) ->
  exists M' ess', exec_groups cfg (with_memory A m1) (cmds <$> xs) = Some (M', ess') /\ Forall3 (shown e) (handled <$> xs) ess ess' /\
    m_pipeline M' = m_pipeline A' /\ m_topology M' = m_topology A' /\ m_restart M' = m_restart A' /\ (m_index A' <> None -> m_index M' = m_index A') /\ forall h, kind h = App -> forall w, m_memory M' h w = m_memory A' h w.
Proof.
  intros s E W R Hl Hd Hi Hm. destruct (calls_recorded kind m0 e cfg l E W s d R Hl Hd) as (xs & s' & d' & js & Er & [P1 P2 P3 [P4 P5] P6 P7]). exists xs, s', d'. split; [exact Er|]. assert (early kind m0 m0) as Hearly by now split. assert (forall j, j ∈ js -> job_ok kind m0 j) as Hjobs by (intros j Hj; now apply P6).
  assert (forall m1, pre_runs m0 None None (first_commands s' xs) m1 -> early kind m0 m1 /\ (has_prepass (pre s') = true -> forall j, j ∈ js -> done m0 m1 j) /\ forall h, kind h = Patterns -> forall w, m1 h w = m0 h w) as Hrun.
  { unfold first_commands. intros m1 H. destruct (has_prepass (pre s')); [|inversion H; subst; split; [exact Hearly|]; split; [discriminate|auto]]. rewrite P4 in H. destruct (jobs_run kind m0 js Hjobs P5 m0 None None Hearly) as [_ HR]. destruct (HR m1 H) as (H1 & H2 & _ & H3). auto. }
  split. { unfold first_commands. destruct (has_prepass (pre s')); [|exists m0; constructor]. rewrite P4. apply (jobs_run kind m0 js Hjobs P5 m0 None None Hearly). }
  intros m1 A' ess Hh Hpre Hex. destruct (Hrun m1 Hpre) as ([W1 Happ] & Hdone & Hpat). destruct (P7 m1 A (with_memory A m1) A' ess) as (M' & ess' & Ex & L' & Sh); [|exact Hdone| |exact Hex|].
  - split; cbn [with_memory m_pipeline m_topology m_restart m_index m_memory]; auto; try congruence; try (rewrite Hm; now auto).
    intros _. unfold s, hybris_polygon_record_reset, tracked. destruct (hybris_polygon_storage_reset _ _) as [c ev]. cbn. rewrite Hi. split_and!; auto; discriminate.
  - intros q Hq j v Hv. rewrite Hpat by (apply P1, Hq). now apply (Hh q Hq).
  - exists M', ess'. split; [exact Ex|]. split; [exact Sh|]. destruct (lk_state _ _ _ _ _ _ _ L') as (H1 & H2 & H3). split_and!; auto; [apply (lk_index _ _ _ _ _ _ _ L')|apply (lk_app _ _ _ _ _ _ _ L')].
Qed.

(** The strip of [PolygonEdges] as an indexed draw of a pipeline that rasterises lines. *)
Definition sample_kind (h : Z) : owner := if h =? 20 then Scratch else if h =? 40 then Patterns else App.
Definition sample_info : graphics_info := GraphicsInfo (Some (TRIANGLE_STRIP, true)) (Some (Raster false MODE_LINE 0 false)) 0 false [STAGE_VERTEX; STAGE_FRAGMENT] [] (0, 0).
Definition sample_pipe : pipe := Pipe 50 51 MODE_LINE TRIANGLE_STRIP true false false.
Definition sample_config (h : Z) : config := if h =? 51 then Config LINE_LIST false false false else Config TRIANGLE_STRIP true false false.
Definition sample_env : env := Env true [7] sample_limits true true true true (fun h => if h =? 50 then Some sample_pipe else None) (fun h o n => Some (Range h o n)).
Definition sample_recording : recording := Recording 0 false (Bindings 0 0 0 0 0 0 false false false) (PrepassState 0 0 false false) None [] false [].
Definition sample_draw : draw_answers := DrawAnswers true 0 (PrepassAnswers true [true] true (Answer 0 60) (Answer 0 61) 0) sample_answers.
Definition sample_calls : list call := [CBind 50; CIndex 9 0 INDEX_UINT16; CDrawIndexed 7 1 0 0 0 sample_draw].
Definition sample_machine : machine := Machine 0 0 false None sample_memory.

(** Two vertices of a triangle list have no triangle, but the point mode draws both. *)
Example incomplete_points :
  let e := Env true [7] sample_limits true true true true (fun h => if h =? 50 then Some (Pipe 50 51 MODE_POINT TRIANGLE_LIST false false false) else None) (fun h o n => Some (Range h o n)) in
  (let! x := record_call e (set_bindings sample_recording (bind_pipeline (bound_state sample_recording) 50)) sample_device (CDraw 2 1 0 0 sample_draw) in Ok (handled x, cmds x)) = Ok (true, [BindPipeline 51; Draw 2 1 0 0; BindPipeline 50]) /\
  assemble (shape_of TRIANGLE_LIST) None (seqZ 0 2) = [].
Proof. split; reflexivity. Qed.

Lemma polygon_recording_exact_witness : exists xs s' d' m1 M' y, record_calls sample_env (fst (hybris_polygon_record_reset sample_recording [])) sample_device sample_calls = Ok (xs, s', d') /\
  exec_groups sample_config (with_memory sample_machine m1) (cmds <$> xs) = Some (M', [[]; []; [y]]) /\ n_pipeline y = 51 /\ line_list y = [(1, 2); (2, 3); (3, 1); (4, 5); (5, 6); (6, 4)] /\ m_pipeline M' = 50.
Proof.
  destruct (polygon_recording_exact sample_kind sample_config sample_env sample_memory sample_recording [] sample_device sample_calls sample_machine) as (xs & s' & d' & Er & (m1 & Hm1) & H).
  - split; [unfold limits_ok; cbn; split; [exists 4; lia|lia]|now exists 4|intros h p; cbn; destruct (Z.eqb_spec h 50) as [->|]; [intros [= <-]|discriminate]; exists sample_info, MODE_LINE, true, (Answer 0 51); eexists _, _; split; [reflexivity|]; repeat split|intros h o n r _ [= <-]; reflexivity].
  - exact sample_words.
  - split; try (cbn; intros x Hx; now apply not_elem_of_nil in Hx); [split; [reflexivity|intros [|[|[|t]]] p; cbn; discriminate]|split; [intros c Hc; now apply not_elem_of_nil in Hc|apply NoDup_nil; exact I]|cbn; lia].
  - intros c Hc. split; [|intros h _ Hin; now apply not_elem_of_nil in Hin]. unfold sample_calls in Hc. rewrite !elem_of_cons in Hc. destruct Hc as [->|[->|[->|Hc]]]; [exact I| | |now apply not_elem_of_nil in Hc].
    + unfold call_ok, binding_ok. split; [lia|]. split; [reflexivity|]. split; [lia|]. split; [reflexivity|apply Z.divide_0_r].
    + split; [lia|]. split; [lia|]. split; [intros n; reflexivity|intros n; reflexivity|discriminate].
  - cbn [distinct sample_calls]. split; [intros c' h _ (a & Ha & _); discriminate|]. split; [intros c' h _ (a & Ha & _); discriminate|]. split; [intros c' h Hc; now apply not_elem_of_nil in Hc|exact I].
  - reflexivity.
  - reflexivity.
  - pose proof Er as Er'. vm_compute in Er'. injection Er' as <- <- <-. destruct (exec_groups sample_config sample_machine (plains sample_calls)) as [[A' ess]|] eqn:Ea; [|vm_compute in Ea; discriminate]. destruct (H m1 A' ess) as (M' & ess' & Ex & Sh & Hp & _); [intros q Hq; now apply not_elem_of_nil in Hq|exact Hm1|reflexivity|]. vm_compute in Ea. injection Ea as <- <-.
    inversion Sh as [|h1 e1 f1 H1 E1 F1 S1 R1]; subst. inversion R1 as [|h2 e2 f2 H2 E2 F2 S2 R2]; subst. inversion R2 as [|h3 e3 f3 H3 E3 F3 S3 R3]; subst. inversion R3; subst. cbn [shown] in S1, S2. subst f1 f2. destruct S3 as (x & p & Eapp & El & [[Ed Hw]|[(Hm & _)|(Hm & y & -> & Y1 & _ & _ & _ & _ & Y2)]]).
    + injection Eapp as <-. exfalso. vm_compute in Hw. intuition discriminate.
    + injection Eapp as <-. vm_compute in El. injection El as <-. vm_compute in Hm. discriminate.
    + injection Eapp as <-. vm_compute in El. injection El as <-. eexists _, _, _, m1, M', y. split; [exact Er|]. split; [exact Ex|]. split; [exact Y1|]. split; [etransitivity; [exact Y2|vm_compute; reflexivity]|exact Hp].
Defined.
End PolygonDraw.
