(* ===== verification/PolygonPipelines.v ===== *)
(** * Ownership of the emulated pipelines (vulkan/compat/polygon_pipeline.c, attach_polygon of shader_dispatch.c)

    A pipeline of an emulated polygon mode is in a list that all threads share, with a count of the
    references to it: one of the list, and one of every user.  Every critical section of the mutex
    is one move, and so is every destruction, which happens after the mutex is released; moves of different threads come in
    any order.  [pipelines_counted]: nothing is used after it is freed, every reference is counted, and a
    pipeline is destroyed once, with both its handles, when its last reference is dropped. *)

From Stdlib Require Import ZArith Lia Bool String.
From stdpp Require Import base numbers option gmap list.
From S2P Require Import Prelude Registry PolygonEdges PolygonDraw.

Open Scope Z_scope.
Open Scope outcome_scope.

Module PolygonPipelines.
Import Registry.
Import PolygonEdges PolygonDraw.

(** What [struct hybris_polygon_pipeline] has for its owners. *)
Record owned_pipe := Owned { o_device : Z; o_filled : Z; o_variant : Z; references : Z }.
Record pipelines := Pipelines { heap : gmap nat owned_pipe; listed : list nat; next_address : nat }.

Definition object_at (s : pipelines) (a : nat) : outcome owned_pipe := of_option (heap s !! a).
Definition set_references (s : pipelines) (a : nat) (o : owned_pipe) (n : Z) : pipelines := Pipelines (<[a := Owned (o_device o) (o_filled o) (o_variant o) n]> (heap s)) (listed s) (next_address s).

(** The handles that are destroyed are the second result. *)
Definition hybris_polygon_pipeline_destroy (s : pipelines) (a : nat) : outcome (pipelines * list Z) :=
  let! o := object_at s a in
  Ok (Pipelines (delete a (heap s)) (listed s) (next_address s), (if o_variant o =? 0 then [] else [o_variant o]) ++ (if o_filled o =? 0 then [] else [o_filled o])).

(** An object of the caller is published. *)
Definition hybris_polygon_pipeline_publish (s : pipelines) (device filled variant : Z) : pipelines :=
  let a := next_address s in Pipelines (<[a := Owned device filled variant 1]> (heap s)) (a :: listed s) (S a).

Definition is_pipe (device h : Z) (o : owned_pipe) : bool := (o_device o =? device) && (o_filled o =? h).
Fixpoint first_pipe (s : pipelines) (device h : Z) (l : list nat) : outcome (option nat) :=
  match l with
  | [] => Ok None
  | a :: l => let! o := object_at s a in if is_pipe device h o then Ok (Some a) else first_pipe s device h l
  end.
Definition hybris_polygon_pipeline_acquire (s : pipelines) (device h : Z) : outcome (option nat * pipelines) :=
  let! found := first_pipe s device h (listed s) in
  match found with
  | None => Ok (None, s)
  | Some a => let! o := object_at s a in if references o =? UINT32_MAX then Ok (None, s) else Ok (Some a, set_references s a o (u32 (references o + 1)))
  end.

(** The critical section of a release: whether the object is to be destroyed. *)
Definition release_locked (s : pipelines) (a : nat) : outcome (bool * pipelines) :=
  let! o := object_at s a in
  let n := u32 (references o - 1) in Ok (n =? 0, set_references s a o n).
Definition hybris_polygon_pipeline_release (s : pipelines) (a : nat) : outcome (pipelines * list Z) :=
  let! (retire, s) := release_locked s a in if retire then hybris_polygon_pipeline_destroy s a else Ok (s, []).

Definition remove_locked (s : pipelines) (device h : Z) : outcome (option nat * pipelines) :=
  let! found := first_pipe s device h (listed s) in
  match found with None => Ok (None, s) | Some a => Ok (Some a, Pipelines (heap s) (unlink a (listed s)) (next_address s)) end.
Definition hybris_polygon_pipeline_remove (s : pipelines) (device h : Z) : outcome (bool * pipelines * list Z) :=
  let! (found, s) := remove_locked s device h in
  match found with None => Ok (false, s, []) | Some a => let! (s, ev) := hybris_polygon_pipeline_release s a in Ok (true, s, ev) end.

(** What stays in the list, and what is taken out, the last first. *)
Fixpoint take_device (s : pipelines) (device : Z) (l removed : list nat) : outcome (list nat * list nat) :=
  match l with
  | [] => Ok ([], removed)
  | a :: l => let! o := object_at s a in if o_device o =? device then take_device s device l (a :: removed) else let! (kept, removed) := take_device s device l removed in Ok (a :: kept, removed)
  end.
Definition release_device_locked (s : pipelines) (device : Z) : outcome (list nat * pipelines) :=
  let! (kept, removed) := take_device s device (listed s) [] in Ok (removed, Pipelines (heap s) kept (next_address s)).
Fixpoint release_all (s : pipelines) (l : list nat) : outcome (pipelines * list Z) :=
  match l with [] => Ok (s, []) | a :: l => let! (s, ev) := hybris_polygon_pipeline_release s a in let! (s, ev') := release_all s l in Ok (s, ev ++ ev') end.
Definition hybris_polygon_pipelines_release_device (s : pipelines) (device : Z) : outcome (pipelines * list Z) :=
  let! (removed, s) := release_device_locked s device in release_all s removed.

(** [polygon]: the device emulates. The pipeline of the application is [h]; a mode that cannot be emulated is drawn solid. *)
Definition attach_polygon (s : pipelines) (polygon : bool) (device : Z) (original changed : graphics_info) (h : Z) (alloc : bool) (a : answer) : Z * pipelines :=
  match g_raster original with
  | None => (VK_SUCCESS, s)
  | Some ra =>
      if negb polygon || (polygon_mode ra =? MODE_FILL) then (VK_SUCCESS, s) else
      match hybris_polygon_pipeline_create changed (polygon_mode ra) alloc a with
      | (r, Some (p, _)) => if r =? VK_SUCCESS then (VK_SUCCESS, hybris_polygon_pipeline_publish s device h (variant p)) else (r, s)
      | (r, None) => if r =? VK_ERROR_FEATURE_NOT_PRESENT then (VK_SUCCESS, s) else (r, s)
      end
  end.
(** The application destroys a pipeline: what is left for the driver to destroy. *)
Definition destroy_pipeline (s : pipelines) (device h : Z) : outcome (pipelines * list Z) :=
  let! x := hybris_polygon_pipeline_remove s device h in
  let '(found, s, ev) := x in Ok (s, if found then ev else [h]).

(** The edges of a draw, destroyed with the command buffer or when they could not be made: [e] is the pipeline they keep. *)
Definition hybris_polygon_edges_destroy (s : pipelines) (e : option (option nat)) : outcome (pipelines * list Z) :=
  match e with Some (Some a) => hybris_polygon_pipeline_release s a | _ => Ok (s, []) end.

(** *** Policy and notes *)

(** [HYBRIS_POLYGON_MODE], which privileged programs ignore. *)
Definition configure (secure : bool) (v : option string) : Z :=
  match (if secure then None else v) with Some v => if String.eqb v "0" then 0 else if String.eqb v "force" then 2 else 1 | None => 1 end.
(** [native]: the feature of a known physical device. *)
Definition hybris_polygon_emulated (policy : Z) (native : option bool) : bool :=
  if policy =? 0 then false else match native with None => false | Some f => (policy =? 2) || negb f end.
(** The notes reported so far, and whether this one is written. *)
Definition hybris_polygon_note (reported : list string) (reason : string) : list string * bool :=
  if existsb (String.eqb reason) reported then (reported, false) else if (length reported =? 32)%nat then (reported, false) else (reported ++ [reason], true).

Lemma note_once reported reason : NoDup reported -> (length reported <= 32)%nat -> let (r, w) := hybris_polygon_note reported reason in NoDup r /\ (length r <= 32)%nat /\ (w = true -> ~ reason ∈ reported).
Proof.
  intros Hn Hl. unfold hybris_polygon_note. destruct (existsb _ _) eqn:E; [split_and!; auto; discriminate|]. assert (~ reason ∈ reported) as Hr by (intros H; apply not_true_iff_false in E; apply E, existsb_exists; exists reason; split; [now apply list_elem_of_In|apply String.eqb_refl]). destruct (Nat.eqb_spec (length reported) 32) as [E1|E1]; [split_and!; auto; discriminate|]. rewrite length_app. cbn [length]. split_and!; auto; [|lia]. apply NoDup_app. split_and!; auto; [intros x Hx ->%list_elem_of_singleton; contradiction|apply NoDup_singleton].
Qed.

(** ** Threads *)

(** The references of the threads and of the command buffers; the objects that a thread is about to destroy; all that were made; those destroyed, with the handles. *)
Record owners := Owners { shared : pipelines; held : list nat; retiring : list nat; made : list (Z * Z * Z); gone : list (nat * list Z) }.
Definition no_pipelines : owners := Owners (Pipelines ∅ [] 0) [] [] [] [].
Inductive move :=
| MAttach (polygon : bool) (device : Z) (original changed : graphics_info) (h : Z) (alloc : bool) (a : answer)
| MAcquire (device h : Z) | MRemove (device h : Z) | MReleaseDevice (device : Z) | MRelease (k : nat) | MDestroy (k : nat).
Definition step (m : owners) (v : move) : outcome owners :=
  match v with
  | MAttach p d o c h al a =>
      let s := snd (attach_polygon (shared m) p d o c h al a) in
      Ok (Owners s (held m) (retiring m) (if (next_address s =? next_address (shared m))%nat then made m else made m ++ [(d, h, handle a)]) (gone m))
  | MAcquire d h => let! (o, s) := hybris_polygon_pipeline_acquire (shared m) d h in Ok (Owners s (match o with Some a => a :: held m | None => held m end) (retiring m) (made m) (gone m))
  | MRemove d h => let! (o, s) := remove_locked (shared m) d h in Ok (Owners s (match o with Some a => a :: held m | None => held m end) (retiring m) (made m) (gone m))
  | MReleaseDevice d => let! (l, s) := release_device_locked (shared m) d in Ok (Owners s (l ++ held m) (retiring m) (made m) (gone m))
  | MRelease k => match held m !! k with None => Ok m | Some a => let! (r, s) := release_locked (shared m) a in Ok (Owners s (delete k (held m)) (if r then a :: retiring m else retiring m) (made m) (gone m)) end
  | MDestroy k => match retiring m !! k with None => Ok m | Some a => let! (s, ev) := hybris_polygon_pipeline_destroy (shared m) a in Ok (Owners s (held m) (delete k (retiring m)) (made m) ((a, ev) :: gone m)) end
  end.
Fixpoint steps (m : owners) (l : list move) : outcome owners := match l with [] => Ok m | v :: l => let! m := step m v in steps m l end.

(** ** The accounts *)

Definition refs (m : owners) : list nat := listed (shared m) ++ held m.
Definition key_of (o : owned_pipe) : Z * Z * Z := (o_device o, o_filled o, o_variant o).
Definition handles (k : Z * Z * Z) : list Z := let '(_, f, v) := k in (if v =? 0 then [] else [v]) ++ (if f =? 0 then [] else [f]).
Record accounted (m : owners) : Prop := {
  ac_counted : forall a, a ∈ refs m -> exists o, heap (shared m) !! a = Some o /\ references o = Z.of_nat (count a (refs m)) /\ references o <= UINT32_MAX;
  ac_listed : NoDup (listed (shared m));
  ac_retiring : NoDup (retiring m) /\ forall a, a ∈ retiring m -> is_Some (heap (shared m) !! a) /\ ~ a ∈ refs m;
  ac_heap : forall a o, heap (shared m) !! a = Some o -> (a ∈ refs m \/ a ∈ retiring m) /\ made m !! a = Some (key_of o);
  ac_next : next_address (shared m) = length (made m);
  ac_gone : NoDup ((gone m).*1) /\ forall a ev, (a, ev) ∈ gone m -> heap (shared m) !! a = None /\ exists k, made m !! a = Some k /\ ev = handles k;
  ac_made : forall a, (a < length (made m))%nat -> is_Some (heap (shared m) !! a) \/ a ∈ (gone m).*1 }.

Lemma no_pipelines_ok : accounted no_pipelines.
Proof. split; cbn; try (now intros; lia); [intros a H; now apply not_elem_of_nil in H|constructor|split; [constructor|intros a H; now apply not_elem_of_nil in H]|intros a o H; rewrite lookup_empty in H; discriminate|split; [constructor|intros a ev H; now apply not_elem_of_nil in H]]. Qed.

(** The same references in other hands. *)
Lemma handed m s h : accounted m -> heap s = heap (shared m) -> next_address s = next_address (shared m) -> NoDup (listed s) -> listed s ++ h ≡ₚ refs m -> accounted (Owners s h (retiring m) (made m) (gone m)).
Proof.
  intros [A1 A2 A3 A4 A5 A6 A7] Hh Hn Hl Hp. split; cbn [shared held retiring made gone]; unfold refs; cbn [shared held]; rewrite ?Hh, ?Hn; try assumption.
  - intros a Ha. rewrite Hp in Ha. destruct (A1 a Ha) as (o & H1 & H2 & H3). exists o. split_and!; auto. rewrite H2. f_equal. apply holders_perm. now rewrite Hp.
  - split; [apply A3|]. intros a Ha. rewrite Hp. now apply A3.
  - intros a o Ha. rewrite Hp. now apply A4.
Qed.

Lemma object_at_ok m a : accounted m -> a ∈ refs m -> exists o, object_at (shared m) a = Ok o /\ heap (shared m) !! a = Some o /\ references o = Z.of_nat (count a (refs m)) /\ references o <= UINT32_MAX.
Proof. intros A Ha. destruct (ac_counted _ A a Ha) as (o & H & H1). exists o. unfold object_at. rewrite H. auto. Qed.

Lemma first_pipe_ok m d h l : accounted m -> (forall a, a ∈ l -> a ∈ refs m) -> exists r, first_pipe (shared m) d h l = Ok r /\
  match r with Some a => a ∈ l /\ exists o, heap (shared m) !! a = Some o /\ is_pipe d h o = true | None => forall a o, a ∈ l -> heap (shared m) !! a = Some o -> is_pipe d h o = false end.
Proof.
  intros A. induction l as [|a l IH]; intros Hl; cbn [first_pipe]; [exists None; split; [reflexivity|]; intros a o H; now apply not_elem_of_nil in H|]. destruct (object_at_ok m a A) as (o & -> & Ho & _); [apply Hl; left|]. cbn [obind]. destruct (is_pipe d h o) eqn:E; [exists (Some a); split; [reflexivity|]; split; [left|now exists o]|]. destruct IH as (r & -> & Hr); [intros x Hx; apply Hl; now right|]. exists r. split; [reflexivity|]. destruct r as [x|]; [destruct Hr as [H1 H2]; split; [now right|exact H2]|]. intros x o' [->|Hx]%elem_of_cons Hx'; [congruence|eauto].
Qed.
Lemma in_listed m a : a ∈ listed (shared m) -> a ∈ refs m.
Proof. intros H. apply elem_of_app. now left. Qed.

Lemma publish_ok m d f v : accounted m -> accounted (Owners (hybris_polygon_pipeline_publish (shared m) d f v) (held m) (retiring m) (made m ++ [(d, f, v)]) (gone m)).
Proof.
  intros [A1 A2 A3 A4 A5 A6 A7]. set (n := next_address (shared m)) in *. assert (heap (shared m) !! n = None) as Hn. { destruct (heap (shared m) !! n) as [o|] eqn:E; [|reflexivity]. destruct (A4 _ _ E) as [_ H]. apply lookup_lt_Some in H. lia. } assert (~ n ∈ refs m) as Hr by (intros H; destruct (A1 _ H) as (o & H1 & _); congruence).
  assert (forall a, a <> n -> <[n := Owned d f v 1]> (heap (shared m)) !! a = heap (shared m) !! a) as Hs by (intros a Ha; now apply lookup_insert_ne).
  split; unfold refs; cbn [shared held retiring made gone hybris_polygon_pipeline_publish heap listed next_address app]; fold n.
  - intros a Ha. change (n :: listed (shared m) ++ held m) with (n :: refs m) in *. rewrite count_cons. apply elem_of_cons in Ha as [->|Ha].
    + exists (Owned d f v 1). rewrite lookup_insert_eq, decide_True by reflexivity. split; [reflexivity|]. cbn [references]. assert (count n (refs m) = 0%nat) as -> by (destruct (count n (refs m)) eqn:E; [reflexivity|exfalso; apply Hr, count_in; lia]). split; [reflexivity|vm_compute; discriminate].
    + rewrite Hs, decide_False by congruence. now apply A1.
  - constructor; [|exact A2]. intros H. now apply Hr, in_listed.
  - destruct A3 as [A31 A32]. split; [exact A31|]. intros a Ha. destruct (A32 a Ha) as [H1 H2]. rewrite Hs by (intros ->; rewrite Hn in H1; now destruct H1). split; [exact H1|]. intros [->|H]%elem_of_cons; [|now apply H2]. rewrite Hn in H1. now destruct H1.
  - intros a o Ha. destruct (decide (a = n)) as [->|Hne].
    + rewrite lookup_insert_eq in Ha. injection Ha as <-. split; [left; left|]. rewrite A5. now apply list_lookup_middle.
    + rewrite Hs in Ha by assumption. destruct (A4 _ _ Ha) as [H1 H2]. split; [destruct H1; [left; now right|now right]|]. now apply lookup_app_l_Some.
  - rewrite length_app, A5. cbn. lia.
  - destruct A6 as [A61 A62]. split; [exact A61|]. intros a ev Ha. destruct (A62 a ev Ha) as (H1 & k & Hk & He). split; [|exists k; split; [now apply lookup_app_l_Some|exact He]]. rewrite Hs; [exact H1|]. intros ->. apply lookup_lt_Some in Hk. lia.
  - intros a. rewrite length_app. cbn. intros Ha. destruct (decide (a = n)) as [->|Hne]; [left; rewrite lookup_insert_eq; eauto|]. rewrite Hs by assumption. apply A7. lia.
Qed.

(** A count changes with the references. *)
Lemma recounted m h r a o n : accounted m -> heap (shared m) !! a = Some o -> n = Z.of_nat (count a (listed (shared m) ++ h)) -> n <= UINT32_MAX -> (forall x, x <> a -> count x h = count x (held m)) ->
  (retiring m = r /\ (0 < count a (listed (shared m) ++ h))%nat \/ r = a :: retiring m /\ count a (listed (shared m) ++ h) = 0%nat) -> ~ a ∈ retiring m -> accounted (Owners (set_references (shared m) a o n) h r (made m) (gone m)).
Proof.
  intros [A1 A2 A3 A4 A5 A6 A7] Ho Hn Hm Hc Hr Hnr. assert (forall x, x <> a -> count x (listed (shared m) ++ h) = count x (refs m)) as Hc' by (intros x Hx; unfold refs; rewrite !holders_app; now rewrite Hc).
  assert (forall x, x <> a -> x ∈ listed (shared m) ++ h <-> x ∈ refs m) as Hin by (intros x Hx; rewrite !count_in; now rewrite Hc'). assert (forall x o', <[a := o']> (heap (shared m)) !! x = if decide (a = x) then Some o' else heap (shared m) !! x) as Hs by (intros x o'; destruct (decide (a = x)) as [<-|Hx]; [now rewrite lookup_insert_eq|now rewrite lookup_insert_ne]).
  split; cbn [shared held retiring made gone set_references heap listed next_address]; unfold refs; cbn [shared held set_references listed]; try assumption.
  - intros x Hx. rewrite Hs. destruct (decide (a = x)) as [<-|Hne]; [eexists; split; [reflexivity|]; cbn [references]; auto|]. rewrite Hc' by congruence. apply A1, Hin; congruence.
  - destruct A3 as [A31 A32]. assert (forall x, x ∈ retiring m -> is_Some (<[a := Owned (o_device o) (o_filled o) (o_variant o) n]> (heap (shared m)) !! x) /\ ~ x ∈ listed (shared m) ++ h) as H. { intros x Hx. destruct (A32 x Hx) as [H1 H2]. assert (x <> a) by (intros ->; contradiction). rewrite Hs, decide_False by congruence. split; [exact H1|]. now rewrite Hin. }
    destruct Hr as [[<- _]|[-> H0]]; [now split|]. split; [now constructor|]. intros x [->|Hx]%elem_of_cons; [|auto]. rewrite Hs, decide_True by reflexivity. split; [eauto|]. rewrite count_in. lia.
  - intros x o'. rewrite Hs. destruct (decide (a = x)) as [<-|Hne].
    + intros [= <-]. split; [|exact (proj2 (A4 _ _ Ho))]. destruct Hr as [[<- H0]|[-> H0]]; [left; now apply count_in|right; left].
    + intros Hx. destruct (A4 _ _ Hx) as [H1 H2]. split; [|exact H2]. rewrite Hin by congruence. destruct H1 as [H1|H1]; [now left|right]. destruct Hr as [[<- _]|[-> _]]; [exact H1|now right].
  - destruct A6 as [A61 A62]. split; [exact A61|]. intros x ev Hx. destruct (A62 x ev Hx) as [H1 H2]. rewrite Hs, decide_False by congruence. auto.
  - intros x Hx. rewrite Hs. destruct (decide (a = x)); [left; eauto|auto].
Qed.

Lemma not_retiring m a : accounted m -> a ∈ refs m -> ~ a ∈ retiring m.
Proof. intros A Ha Hr. now apply (proj2 (ac_retiring _ A) a Hr). Qed.

Lemma polygon_acquire_ok m d h : accounted m -> exists r s, hybris_polygon_pipeline_acquire (shared m) d h = Ok (r, s) /\ accounted (Owners s (match r with Some a => a :: held m | None => held m end) (retiring m) (made m) (gone m)) /\
  match r with
  | Some a => a ∈ listed (shared m) /\ exists o, heap (shared m) !! a = Some o /\ is_pipe d h o = true
  | None => forall a o, a ∈ listed (shared m) -> heap (shared m) !! a = Some o -> is_pipe d h o = true -> exists b o', b ∈ listed (shared m) /\ heap (shared m) !! b = Some o' /\ is_pipe d h o' = true /\ references o' = UINT32_MAX
  end.
Proof.
  intros A. unfold hybris_polygon_pipeline_acquire. destruct (first_pipe_ok m d h (listed (shared m)) A (in_listed m)) as (r & -> & Hr). cbn [obind]. destruct r as [a|]; [|exists None, (shared m); split; [reflexivity|]; split; [destruct m; exact A|]; intros a o Ha Ho Hp; rewrite (Hr a o Ha Ho) in Hp; discriminate].
  destruct Hr as [Ha (o & Ho & Hp)]. destruct (object_at_ok m a A (in_listed _ _ Ha)) as (o' & -> & Ho' & Hc & Hb). assert (o' = o) as -> by congruence. cbn [obind]. destruct (Z.eqb_spec (references o) UINT32_MAX) as [E|E]; [exists None, (shared m); split; [reflexivity|]; split; [destruct m; exact A|]; intros; exists a, o; auto|].
  eexists (Some a), _. split; [reflexivity|]. split; [|split; [exact Ha|now exists o]]. assert (count a (listed (shared m) ++ a :: held m) = S (count a (refs m))) as Hn by (unfold refs; rewrite !holders_app, count_cons, decide_True by reflexivity; lia). apply recounted; auto.
  - rewrite Hn, (wrap_small 32) by (unfold in_range, UINT32_MAX in *; lia). lia.
  - rewrite (wrap_small 32) by (unfold in_range, UINT32_MAX in *; lia). lia.
  - intros x Hx. rewrite count_cons, decide_False by congruence. reflexivity.
  - left. split; [reflexivity|]. rewrite Hn. lia.
  - apply not_retiring; auto using in_listed.
Qed.

Lemma release_locked_ok m k a : accounted m -> held m !! k = Some a -> exists r s, release_locked (shared m) a = Ok (r, s) /\ accounted (Owners s (delete k (held m)) (if r then a :: retiring m else retiring m) (made m) (gone m)).
Proof.
  intros A Hk. assert (a ∈ refs m) as Ha by (apply elem_of_app; right; eapply list_elem_of_lookup_2, Hk). destruct (object_at_ok m a A Ha) as (o & Eo & Ho & Hc & Hb). unfold release_locked. rewrite Eo. cbn [obind]. assert (count a (refs m) = S (count a (listed (shared m) ++ delete k (held m)))) as Hn by (unfold refs; rewrite !holders_app, (count_delete k a _ a Hk), decide_True by reflexivity; lia). rewrite (wrap_small 32) by (unfold in_range, UINT32_MAX in *; lia).
  do 2 eexists. split; [reflexivity|]. apply recounted; auto.
  - lia.
  - lia.
  - intros x Hx. rewrite (count_delete k a _ x Hk), decide_False by congruence. reflexivity.
  - destruct (Z.eqb_spec (references o - 1) 0) as [E|E]; [right|left]; (split; [reflexivity|lia]).
  - now apply not_retiring.
Qed.

Lemma remove_locked_ok m d h : accounted m -> exists r s, remove_locked (shared m) d h = Ok (r, s) /\ accounted (Owners s (match r with Some a => a :: held m | None => held m end) (retiring m) (made m) (gone m)).
Proof.
  intros A. unfold remove_locked. destruct (first_pipe_ok m d h (listed (shared m)) A (in_listed m)) as (r & -> & Hr). cbn [obind]. destruct r as [a|]; [|exists None, (shared m); split; [reflexivity|destruct m; exact A]]. destruct Hr as [Ha _]. do 2 eexists. split; [reflexivity|]. cbn beta iota. pose proof (unlink_perm a _ Ha) as Hp. apply handed; auto; cbn [listed].
  - pose proof (ac_listed _ A) as Hl. rewrite Hp in Hl. now apply NoDup_cons in Hl.
  - unfold refs. rewrite Hp at 2. symmetry. apply (Permutation_middle (unlink a (listed (shared m))) (held m) a).
Qed.

Lemma take_device_ok m d l : accounted m -> (forall a, a ∈ l -> a ∈ refs m) -> forall r, exists kept removed, take_device (shared m) d l r = Ok (kept, removed) /\ kept ++ removed ≡ₚ l ++ r /\ (NoDup l -> NoDup kept) /\ (forall a, a ∈ kept -> a ∈ l).
Proof.
  intros A. induction l as [|a l IH]; intros Hl r; cbn [take_device]; [exists [], r; auto using NoDup_nil_2|]. destruct (object_at_ok m a A) as (o & -> & Ho & _); [apply Hl; left|]. cbn [obind]. assert (forall x, x ∈ l -> x ∈ refs m) as Hl' by (intros x Hx; apply Hl; now right). destruct (o_device o =? d).
  - destruct (IH Hl' (a :: r)) as (k & e & -> & H1 & H2 & H3). exists k, e. split; [reflexivity|]. split; [rewrite H1; symmetry; apply (Permutation_middle l r a)|]. split; [intros H; apply NoDup_cons in H as [_ H]; auto|intros x Hx; right; auto].
  - destruct (IH Hl' r) as (k & e & -> & H1 & H2 & H3). cbn [obind]. exists (a :: k), e. split; [reflexivity|]. split; [cbn [app]; now rewrite H1|]. split; [intros [N1 N2]%NoDup_cons; constructor; auto|intros x [->|Hx]%elem_of_cons; [left|right; auto]].
Qed.

Lemma release_device_locked_ok m d : accounted m -> exists r s, release_device_locked (shared m) d = Ok (r, s) /\ accounted (Owners s (r ++ held m) (retiring m) (made m) (gone m)).
Proof.
  intros A. unfold release_device_locked. destruct (take_device_ok m d (listed (shared m)) A (in_listed m) []) as (k & e & -> & H1 & H2 & _). cbn [obind]. do 2 eexists. split; [reflexivity|]. rewrite app_nil_r in H1. apply handed; auto; cbn [listed]; [apply H2, A|]. unfold refs. now rewrite app_assoc, H1.
Qed.

Lemma destroy_ok m k a : accounted m -> retiring m !! k = Some a -> exists s ev, hybris_polygon_pipeline_destroy (shared m) a = Ok (s, ev) /\ accounted (Owners s (held m) (delete k (retiring m)) (made m) ((a, ev) :: gone m)).
Proof.
  intros [A1 A2 [A31 A32] A4 A5 [A61 A62] A7] Hk. assert (a ∈ retiring m) as Ha by (eapply list_elem_of_lookup_2, Hk). destruct (A32 a Ha) as [[o Ho] Hr]. unfold hybris_polygon_pipeline_destroy, object_at. rewrite Ho. cbn [of_option obind]. do 2 eexists. split; [reflexivity|]. pose proof (delete_Permutation _ k a Hk) as Hp. pose proof A31 as Hd. rewrite Hp in Hd. apply NoDup_cons in Hd as [Hd1 Hd2].
  assert (forall x, x <> a -> x ∈ retiring m -> x ∈ delete k (retiring m)) as Hx. { intros x Hx H. rewrite Hp in H. apply elem_of_cons in H as [->|H]; [contradiction|exact H]. }
  split; unfold refs; cbn [shared held retiring made gone heap listed next_address]; try assumption.
  - intros x H. rewrite lookup_delete_ne by (intros ->; contradiction). now apply A1.
  - split; [exact Hd2|]. intros x H. assert (x <> a) by (intros ->; contradiction). rewrite lookup_delete_ne by congruence. apply A32. rewrite Hp. now right.
  - intros x o' H. apply lookup_delete_Some in H as [Hne H]. destruct (A4 _ _ H) as [H1 H2]. split; [|exact H2]. destruct H1; [now left|right; auto].
  - assert (forall ev, ~ (a, ev) ∈ gone m) as Hg by (intros ev H; destruct (A62 _ _ H) as [H1 _]; congruence). split.
    + cbn [fmap list_fmap]. constructor; [|exact A61]. intros ([x ev] & E & H)%list_elem_of_fmap. cbn in E. subst x. now apply (Hg ev).
    + intros x ev [[= -> ->]|H]%elem_of_cons; [split; [apply lookup_delete_eq|]; exists (key_of o); split; [exact (proj2 (A4 _ _ Ho))|reflexivity]|]. destruct (A62 _ _ H) as [H1 H2]. split; [|exact H2]. apply lookup_delete_None. now right.
  - intros x H. destruct (decide (a = x)) as [<-|Hne]; [right; left|]. rewrite lookup_delete_ne by assumption. destruct (A7 x H); [now left|right; now right].
Qed.

Lemma polygon_attach_ok m p d o c h al a : accounted m -> exists m', step m (MAttach p d o c h al a) = Ok m' /\ accounted m'.
Proof.
  intros A. eexists. split; [reflexivity|]. cbn [snd]. assert (snd (attach_polygon (shared m) p d o c h al a) = shared m \/ exists v, v = handle a /\ snd (attach_polygon (shared m) p d o c h al a) = hybris_polygon_pipeline_publish (shared m) d h v) as H.
  { unfold attach_polygon. destruct (g_raster o) as [ra|]; [|now left]. destruct (_ || _); [now left|]. destruct (hybris_polygon_pipeline_create c (polygon_mode ra) al a) as [r [[q g]|]] eqn:E; [|left; destruct (r =? _); reflexivity]. destruct (r =? VK_SUCCESS); [|now left]. right. exists (variant q). split; [|reflexivity]. revert E. unfold hybris_polygon_pipeline_create. destruct (g_assembly c) as [[tp rs]|]; [|discriminate]. destruct (g_raster c); [|discriminate]. repeat (match goal with |- (if ?b then _ else _) = _ -> _ => destruct b; [discriminate|] end). now intros [= _ <- _]. }
  destruct H as [->|(v & -> & ->)]; [rewrite Nat.eqb_refl; destruct m; exact A|]. cbn [next_address hybris_polygon_pipeline_publish]. rewrite (proj2 (Nat.eqb_neq _ _)) by lia. now apply publish_ok.
Qed.

Lemma move_ok m v : accounted m -> exists m', step m v = Ok m' /\ accounted m'.
Proof.
  intros A. destruct v as [p d o c h al a|d h|d h|d|k|k]; [now apply polygon_attach_ok|..]; cbn [step].
  - destruct (polygon_acquire_ok m d h A) as (r & s & -> & H & _). cbn [obind]. eauto.
  - destruct (remove_locked_ok m d h A) as (r & s & -> & H). cbn [obind]. eauto.
  - destruct (release_device_locked_ok m d A) as (r & s & -> & H). cbn [obind]. eauto.
  - destruct (held m !! k) as [a|] eqn:E; [|eauto]. destruct (release_locked_ok m k a A E) as (r & s & -> & H). cbn [obind]. eauto.
  - destruct (retiring m !! k) as [a|] eqn:E; [|eauto]. destruct (destroy_ok m k a A E) as (s & ev & -> & H). cbn [obind]. eauto.
Qed.

Lemma steps_ok l : forall m, accounted m -> exists m', steps m l = Ok m' /\ accounted m'.
Proof. induction l as [|v l IH]; intros m A; cbn [steps]; [eauto|]. destruct (move_ok m v A) as (m1 & -> & A1). cbn [obind]. auto. Qed.

Lemma steps_app l k : forall m m', steps m l = Ok m' -> steps m (l ++ k) = steps m' k.
Proof. induction l as [|v l IH]; intros m m'; cbn [steps app]; [now intros [= ->]|]. destruct (step m v) as [m1| |]; cbn [obind]; [apply IH|discriminate|discriminate]. Qed.

(** A whole release, by the thread that holds the last reference taken. *)
Lemma release_as_steps m a rest : accounted m -> held m = a :: rest -> exists l m' s ev, hybris_polygon_pipeline_release (shared m) a = Ok (s, ev) /\ steps m l = Ok m' /\ shared m' = s /\ held m' = rest /\ retiring m' = retiring m /\ concat ((gone m').*2) = ev ++ concat ((gone m).*2).
Proof.
  intros A Hh. assert (held m !! 0%nat = Some a) as Hk by now rewrite Hh. destruct (release_locked_ok m 0 a A Hk) as (r & s & Er & A1). unfold hybris_polygon_pipeline_release. rewrite Er. cbn [obind]. rewrite Hh in A1. change (delete 0%nat (a :: rest)) with rest in A1. destruct r.
  - destruct (destroy_ok _ 0 a A1 eq_refl) as (s' & ev & Ed & A2). cbn [shared] in Ed. exists [MRelease 0; MDestroy 0], (Owners s' rest (retiring m) (made m) ((a, ev) :: gone m)), s', ev. split; [exact Ed|]. split; [|auto]. set (m1 := Owners s rest (a :: retiring m) (made m) (gone m)).
    assert (step m (MRelease 0) = Ok m1) as E1 by (cbn [step]; rewrite Hk, Er; cbn [obind]; now rewrite Hh). assert (step m1 (MDestroy 0) = Ok (Owners s' rest (retiring m) (made m) ((a, ev) :: gone m))) as E2 by (unfold step; change (retiring m1 !! 0%nat) with (Some a); cbn beta iota; change (shared m1) with s; now rewrite Ed). cbn [steps]. rewrite E1. cbn [obind]. now rewrite E2.
  - exists [MRelease 0], (Owners s rest (retiring m) (made m) (gone m)), s, []. split; [reflexivity|]. split; [|auto]. cbn [steps step]. rewrite Hk, Er. cbn [obind]. now rewrite Hh.
Qed.

Lemma release_all_as_steps l : forall m rest, accounted m -> held m = l ++ rest -> exists k m' s ev, release_all (shared m) l = Ok (s, ev) /\ steps m k = Ok m' /\ shared m' = s /\ held m' = rest /\ retiring m' = retiring m /\ concat ((gone m').*2) ≡ₚ ev ++ concat ((gone m).*2).
Proof.
  induction l as [|a l IH]; intros m rest A Hh; cbn [release_all]; [exists [], m, (shared m), []; split; [reflexivity|]; auto|]. destruct (release_as_steps m a (l ++ rest) A Hh) as (k1 & m1 & s1 & ev1 & -> & E1 & <- & H1 & R1 & G1). cbn [obind]. destruct (steps_ok k1 m A) as (m1' & E1' & A1). assert (m1' = m1) as -> by congruence. destruct (IH m1 rest A1 H1) as (k2 & m2 & s2 & ev2 & -> & E2 & <- & H2 & R2 & G2). cbn [obind]. exists (k1 ++ k2), m2, (shared m2), (ev1 ++ ev2). split; [reflexivity|]. split; [now rewrite (steps_app k1 k2 m m1)|]. split_and!; auto; [congruence|]. rewrite G2, G1, !app_assoc. apply Permutation_app_tail, Permutation_app_comm.
Qed.

(** The calls of the application are moves of one thread. *)
Lemma remove_as_steps m d h : accounted m -> exists l m' found ev, hybris_polygon_pipeline_remove (shared m) d h = Ok (found, shared m', ev) /\ steps m l = Ok m' /\ held m' = held m /\ retiring m' = retiring m /\ concat ((gone m').*2) = ev ++ concat ((gone m).*2).
Proof.
  intros A. unfold hybris_polygon_pipeline_remove. destruct (remove_locked_ok m d h A) as (r & s & Er & A1). rewrite Er. cbn [obind]. assert (step m (MRemove d h) = Ok (Owners s (match r with Some a => a :: held m | None => held m end) (retiring m) (made m) (gone m))) as Es by (cbn [step]; now rewrite Er). destruct r as [a|].
  - destruct (release_as_steps _ a (held m) A1 eq_refl) as (l & m' & s' & ev & Ef & El & <- & H1 & H2 & H3). cbn [shared] in Ef. rewrite Ef. cbn [obind]. exists (MRemove d h :: l), m', true, ev. split; [reflexivity|]. split; [cbn [steps]; rewrite Es; exact El|auto].
  - exists [MRemove d h], (Owners s (held m) (retiring m) (made m) (gone m)), false, []. split; [reflexivity|]. split; [cbn [steps]; now rewrite Es|auto].
Qed.

Lemma release_device_as_steps m d : accounted m -> exists l m' ev, hybris_polygon_pipelines_release_device (shared m) d = Ok (shared m', ev) /\ steps m l = Ok m' /\ held m' = held m /\ retiring m' = retiring m /\ concat ((gone m').*2) ≡ₚ ev ++ concat ((gone m).*2).
Proof.
  intros A. unfold hybris_polygon_pipelines_release_device. destruct (release_device_locked_ok m d A) as (r & s & Er & A1). rewrite Er. cbn [obind]. destruct (release_all_as_steps r _ (held m) A1 eq_refl) as (l & m' & s' & ev & Ef & El & <- & H1 & H2 & H3). cbn [shared] in Ef. rewrite Ef. exists (MReleaseDevice d :: l), m', ev. split; [reflexivity|]. split; [cbn [steps step]; rewrite Er; exact El|auto].
Qed.

(** C21: for all sequences of moves of any threads (a pipeline attached and published, a lookup that takes a reference, a removal, the release of a device, the drop of a reference, a destruction): nothing freed is used;
    every object in the list or held by a user is alive and its 32-bit count is the number of its references; an object without references is about to be destroyed by exactly one thread, or has been destroyed once, with
    exactly the handles it was made with; every object that was made is alive or destroyed. A lookup gives an object of the list with the device and handle, or none if there is no such object or its count is at the maximum.
    Removing a pipeline and releasing a device are such moves of the calling thread. *)
Theorem pipelines_counted (l : list move) :
  exists m, steps no_pipelines l = Ok m /\ accounted m /\
  (forall d h, exists r s, hybris_polygon_pipeline_acquire (shared m) d h = Ok (r, s) /\
     match r with
     | Some a => a ∈ listed (shared m) /\ exists o, heap (shared m) !! a = Some o /\ is_pipe d h o = true
     | None => forall a o, a ∈ listed (shared m) -> heap (shared m) !! a = Some o -> is_pipe d h o = true -> exists b o', b ∈ listed (shared m) /\ heap (shared m) !! b = Some o' /\ is_pipe d h o' = true /\ references o' = UINT32_MAX
     end) /\
  (forall d h, exists k m' found ev, hybris_polygon_pipeline_remove (shared m) d h = Ok (found, shared m', ev) /\ steps m k = Ok m' /\ held m' = held m /\ retiring m' = retiring m /\ concat ((gone m').*2) = ev ++ concat ((gone m).*2)) /\
  forall d, exists k m' ev, hybris_polygon_pipelines_release_device (shared m) d = Ok (shared m', ev) /\ steps m k = Ok m' /\ held m' = held m /\ retiring m' = retiring m /\ concat ((gone m').*2) ≡ₚ ev ++ concat ((gone m).*2).
Proof.
  destruct (steps_ok l no_pipelines no_pipelines_ok) as (m & Em & A). exists m. split; [exact Em|]. split; [exact A|]. split; [|split; [intros d h; now apply remove_as_steps|intros d; now apply release_device_as_steps]].
  intros d h. destruct (polygon_acquire_ok m d h A) as (r & s & H1 & _ & H2). exists r, s. auto.
Qed.

(** A device is released while a command buffer holds a pipeline of it: the pipeline is destroyed with the command buffer. *)
Example pipelines_example :
  let g := GraphicsInfo (Some (TRIANGLE_LIST, false)) (Some (Raster false MODE_LINE 2 false)) 0 false [STAGE_VERTEX] [] (0, 0) in
  (let! m := steps no_pipelines [MAttach true 1 g g 50 true (Answer 0 51); MAcquire 1 50; MReleaseDevice 1; MRelease 0] in Ok (held m, retiring m, gone m)) = Ok ([0%nat], [], []) /\
  (let! m := steps no_pipelines [MAttach true 1 g g 50 true (Answer 0 51); MAcquire 1 50; MReleaseDevice 1; MRelease 0; MRelease 0; MDestroy 0] in Ok (held m, retiring m, gone m)) = Ok ([], [], [(0%nat, [51; 50])]).
Proof. split; vm_compute; reflexivity. Qed.
End PolygonPipelines.
