(* ===== verification/PolygonSubmit.v ===== *)
(** * Submitting conversions before draws (vulkan/compat/polygon_submit.c, the queries of polygon_record.c)

    Every command buffer of the application is submitted after the command buffers that convert its indices and those of the secondary command buffers it
    executes.  [polygon_submit_exact]: a submission that goes through has for each command buffer exactly these, without repetition, directly before
    it and with its device mask, and waits before all of them; one that cannot is refused without being submitted. *)

From Stdlib Require Import ZArith Lia Bool.
From stdpp Require Import base numbers option list.
From S2P Require Import Prelude MemVisibility PolygonEdges PolygonDraw.

Open Scope Z_scope.
Open Scope outcome_scope.

Module PolygonSubmit.
Import PolygonEdges PolygonDraw.

(** The recording of a command buffer, if it has one, and its epoch. *)
Record view := View { epoch : Z; record : recording }.
Definition views := Z -> option view.

(** ** Secondary command buffers *)

(** [f]: the allocation of each link and write succeeds, in order; an exhausted list means success. *)
Definition alloc (f : list bool) : bool * list bool := match f with [] => (true, []) | b :: f => (b, f) end.

(** The buffers that a child has written are written by its parent. *)
Fixpoint inherit (s : recording) (l : list link) (f : list bool) : recording * list Z * list bool :=
  match l with
  | [] => (s, [], f)
  | LWritten b :: l =>
      if b =? 0 then inherit s l f else
      let '(ok, f') := if written s b then (true, f) else alloc f in
      let (s, err) := hybris_polygon_record_written s b ok in
      let '(s, err', f) := inherit s l f' in (s, err ++ err', f)
  | LChild _ _ :: l => inherit s l f
  end.
(** The errors for the sources of the child's edges that the parent has written. *)
Definition stale_sources (s : recording) (child : recording) : list Z :=
  x ← edge_sources child; if negb (x =? 0) && written s x then [VK_ERROR_FEATURE_NOT_PRESENT] else [].
Fixpoint execute_children (t : views) (s : recording) (l : list Z) (f : list bool) : recording * list Z * list bool :=
  match l with
  | [] => (s, [], f)
  | c :: l =>
      match t c with
      | None => execute_children t s l f
      | Some v =>
          let err := stale_sources s (record v) in
          let (ok, f) := alloc f in
          if negb ok then let '(s, err', f) := execute_children t s l f in (s, err ++ VK_ERROR_OUT_OF_HOST_MEMORY :: err', f) else
          let s := set_writes s (unknown_writes s || unknown_writes (record v)) (LChild c (epoch v) :: links s) in
          let '(s, err1, f) := inherit s (links (record v)) f in
          let '(s, err2, f) := execute_children t s l f in (s, err ++ err1 ++ err2, f)
      end
  end.
Definition hybris_polygon_record_execute (t : views) (s : recording) (l : list Z) (f : list bool) : recording * list Z * list bool :=
  let '(s, err, f) := execute_children t s l f in (set_bindings s (forget (bound_state s)), err, f).

(** The command buffers to run first, none if one of them cannot be. *)
Fixpoint child_prepasses (t : views) (l : list link) : option (list Z) :=
  match l with
  | [] => Some []
  | LWritten _ :: l => child_prepasses t l
  | LChild c ep :: l =>
      match t c with
      | None => None
      | Some v =>
          if negb (epoch v =? ep) then None else
          let p := pre (record v) in
          if has_prepass p then (if pre_open p then None else match child_prepasses t l with Some r => Some (pre_cmd p :: r) | None => None end) else child_prepasses t l
      end
  end.
Definition all_prepasses (t : views) (c : Z) : option (list Z) :=
  match t c with
  | None => Some []
  | Some v =>
      let p := pre (record v) in
      if has_prepass p then (if pre_open p then None else match child_prepasses t (links (record v)) with Some r => Some (pre_cmd p :: r) | None => None end) else child_prepasses t (links (record v))
  end.
(** The count, and what is stored in an array of [capacity] elements. *)
Definition hybris_polygon_record_prepasses (t : views) (c capacity : Z) : Z * list Z :=
  match all_prepasses t c with
  | None => (UINT32_MAX, [])
  | Some l => let n := Z.of_nat (length l) in (if UINT32_MAX <=? n then UINT32_MAX else n, take (Z.to_nat capacity) l)
  end.

(** ** Expansion of a list of command buffers *)

Fixpoint total_length (t : views) (l : list Z) (length : Z) : option Z :=
  match l with
  | [] => Some length
  | c :: l => let extra := fst (hybris_polygon_record_prepasses t c 0) in if extra =? UINT32_MAX then None else total_length t l (u64 (length + extra))
  end.
(** [list[used++] = cb] unless it is in [list[start .. used)]; [j] counts the elements looked at. *)
Fixpoint compact (a : list Z) (start used : nat) (j n : nat) : list Z * nat :=
  match n with
  | O => (a, used)
  | S n =>
      let cb := default 0 (a !! (start + j)%nat) in
      if existsb (Z.eqb cb) (take (used - start) (drop start a)) then compact a start used (S j) n else compact (<[used := cb]> a) start (S used) (S j) n
  end.
Fixpoint expand_loop (t : views) (l : list Z) (a : list Z) (used : nat) : option (list Z * nat) :=
  match l with
  | [] => Some (a, used)
  | c :: l =>
      let capacity := fst (hybris_polygon_record_prepasses t c 0) in
      let (got, stored) := hybris_polygon_record_prepasses t c capacity in
      if negb (got =? capacity) then None else
      let (a, used) := compact (blit a used stored) used used 0 (Z.to_nat got) in
      expand_loop t l (<[used := c]> a) (S used)
  end.
(** The list, if there is memory for it. *)
Definition expand (t : views) (l : list Z) (f : list bool) : option (list Z) * list bool :=
  let n := Z.of_nat (length l) in
  match total_length t l n with
  | None => (None, f)
  | Some len =>
      if UINT32_MAX <? len then (None, f) else
      if len =? n then (Some l, f) else
      let (ok, f) := alloc f in
      if negb ok then (None, f) else
      match expand_loop t l (replicate (Z.to_nat len) 0) 0 with Some (a, used) => (Some (take used a), f) | None => (None, f) end
  end.

(** ** Submissions *)

(** A structure of the chain: the device group's masks, one that can be copied, another. *)
Inductive node := NGroup (masks : list Z) | NKnown (id : Z) | NOther (id : Z).
(** [VkSubmitInfo]: command buffers, stages of the waits, chain. *)
Record submit := Submit { commands : list Z; stages : list Z; chain : list node }.
Definition ALL_COMMANDS_STAGE : Z := 0x10000.

(** The masks of the changed list: [k] is [original_index].  Valid use gives as many masks as commands or none, so the default
    for a missing one is never read. *)
Fixpoint group_masks (changed original old : list Z) (k : nat) : list Z :=
  match changed with
  | [] => []
  | c :: changed =>
      (if (0 <? Z.of_nat (length old)) then default 0 (old !! k) else 1) ::
      group_masks changed original old (if (c =? default 0 (original !! k)) && (S k <? length original)%nat then S k else k)
  end.
(** The last group structure of the chain is replaced; what comes before it is copied, what comes after it is kept. *)
Definition has_group (l : list node) : bool := existsb (fun n => match n with NGroup _ => true | _ => false end) l.
Fixpoint copy_chain (l : list node) (changed original : list Z) (f : list bool) : Z * list node * list bool :=
  match l with
  | [] => (VK_SUCCESS, [], f)
  | n :: l =>
      match n with
      | NOther _ => (VK_ERROR_FEATURE_NOT_PRESENT, [], f)
      | _ =>
          let (ok, f) := alloc f in
          if negb ok then (VK_ERROR_OUT_OF_HOST_MEMORY, [], f) else
          match n, has_group l with
          | NGroup old, false =>
              let (ok, f) := alloc f in
              if negb ok then (VK_ERROR_OUT_OF_HOST_MEMORY, [], f) else (VK_SUCCESS, NGroup (group_masks changed original old 0) :: l, f)
          | _, _ => let '(r, k, f) := copy_chain l changed original f in (r, n :: k, f)
          end
      end
  end.
Definition group_chain (l : list node) (changed original : list Z) (f : list bool) : Z * list node * list bool :=
  if has_group l then copy_chain l changed original f else (VK_SUCCESS, l, f).

(** One structure: the result and the changed structure. *)
Definition change_submit (t : views) (i : submit) (f : list bool) : Z * submit * list bool :=
  match expand t (commands i) f with
  | (None, f) => if negb (Nat.eqb (length (commands i)) 0) then (VK_ERROR_OUT_OF_HOST_MEMORY, i, f) else (VK_SUCCESS, i, f)
  | (Some l, f) =>
      if Nat.eqb (length l) (length (commands i)) then (VK_SUCCESS, Submit l (stages i) (chain i), f) else
      let (ok, f) := if Nat.eqb (length (stages i)) 0 then (true, f) else alloc f in
      if negb ok then (VK_ERROR_OUT_OF_HOST_MEMORY, i, f) else
      let '(r, c, f) := group_chain (chain i) l (commands i) f in
      (r, Submit l ((fun _ => ALL_COMMANDS_STAGE) <$> stages i) c, f)
  end.
Fixpoint change_submits (t : views) (l : list submit) (f : list bool) : Z * list submit * list bool :=
  match l with
  | [] => (VK_SUCCESS, [], f)
  | i :: l =>
      let '(r, i, f) := change_submit t i f in
      if negb (r =? VK_SUCCESS) then (r, [], f) else let '(r, l, f) := change_submits t l f in (r, i :: l, f)
  end.
(** What the driver is given, or the error. *)
Inductive submitted := Passed (l : list submit) | Refused (r : Z).
Definition needed (t : views) (l : list submit) : bool := existsb (fun i => existsb (fun c => negb (fst (hybris_polygon_record_prepasses t c 0) =? 0)) (commands i)) l.
(** [found]: the queue has a device. *)
Definition hybris_polygon_submit (t : views) (l : list submit) (found : bool) (f : list bool) : submitted :=
  if negb (needed t l) then Passed l else
  if negb found then Refused VK_ERROR_INITIALIZATION_FAILED else
  let (ok, f) := alloc f in
  if negb ok then Refused VK_ERROR_OUT_OF_HOST_MEMORY else
  let '(r, l, _) := change_submits t l f in if r =? VK_SUCCESS then Passed l else Refused r.

(** *** The second form *)

(** [VkCommandBufferSubmitInfo]: handle, mask, and whether it is the application's. *)
Record info2 := Info2 { i_handle : Z; i_mask : Z; i_own : bool }.
(** [VkSubmitInfo2]: command buffers and stages of the waits. *)
Record submit2 := Submit2 { commands2 : list info2; stages2 : list Z }.
Fixpoint commands_of (changed : list Z) (original : list info2) (k : nat) : list info2 :=
  match changed with
  | [] => []
  | c :: changed =>
      match original !! k with
      | None => []
      | Some o => if c =? i_handle o then o :: commands_of changed original (if (S k <? length original)%nat then S k else k) else Info2 c (i_mask o) false :: commands_of changed original k
      end
  end.
Definition change_submit2 (t : views) (i : submit2) (f : list bool) : Z * submit2 * list bool :=
  let n := length (commands2 i) in
  let (ok, f) := alloc f in
  if negb (Nat.eqb n 0) && negb ok then (VK_ERROR_OUT_OF_HOST_MEMORY, i, f) else
  match expand t (i_handle <$> commands2 i) f with
  | (None, f) => if negb (Nat.eqb n 0) then (VK_ERROR_OUT_OF_HOST_MEMORY, i, f) else (VK_SUCCESS, Submit2 [] (stages2 i), f)
  | (Some l, f) =>
      let (ok, f) := alloc f in
      if negb (Nat.eqb (length l) 0) && negb ok then (VK_ERROR_OUT_OF_HOST_MEMORY, i, f) else
      let c := commands_of l (commands2 i) 0 in
      if Nat.eqb (length l) n || Nat.eqb (length (stages2 i)) 0 then (VK_SUCCESS, Submit2 c (stages2 i), f) else
      let (ok, f) := alloc f in
      if negb ok then (VK_ERROR_OUT_OF_HOST_MEMORY, i, f) else (VK_SUCCESS, Submit2 c ((fun _ => ALL_COMMANDS_STAGE) <$> stages2 i), f)
  end.
Fixpoint change_submits2 (t : views) (l : list submit2) (f : list bool) : Z * list submit2 * list bool :=
  match l with
  | [] => (VK_SUCCESS, [], f)
  | i :: l =>
      let '(r, i, f) := change_submit2 t i f in
      if negb (r =? VK_SUCCESS) then (r, [], f) else let '(r, l, f) := change_submits2 t l f in (r, i :: l, f)
  end.
Inductive submitted2 := Passed2 (l : list submit2) | Refused2 (r : Z).
Definition hybris_polygon_submit2 (t : views) (l : list submit2) (found : bool) (f : list bool) : submitted2 :=
  if negb (existsb (fun i => existsb (fun c => negb (fst (hybris_polygon_record_prepasses t (i_handle c) 0) =? 0)) (commands2 i)) l) then Passed2 l else
  if negb found then Refused2 VK_ERROR_INITIALIZATION_FAILED else
  let (ok, f) := alloc f in
  if negb ok then Refused2 VK_ERROR_OUT_OF_HOST_MEMORY else
  let '(r, l, _) := change_submits2 t l f in if r =? VK_SUCCESS then Passed2 l else Refused2 r.

(** ** What a submission should be *)

(** Each element once, where it first occurs. *)
Fixpoint dedup (seen l : list Z) : list Z := match l with [] => [] | x :: l => if existsb (Z.eqb x) seen then dedup seen l else x :: dedup (seen ++ [x]) l end.
Definition firsts (t : views) (c : Z) : list Z := dedup [] (default [] (all_prepasses t c)).
Definition group (t : views) (c : Z) : list Z := firsts t c ++ [c].

Lemma in_existsb x l : existsb (Z.eqb x) l = true <-> x ∈ l.
Proof. rewrite existsb_exists. split; [intros (y & Hy & ->%Z.eqb_eq); now apply list_elem_of_In|intros H; exists x; split; [now apply list_elem_of_In|apply Z.eqb_refl]]. Qed.

Lemma dedup_ok l : forall seen, NoDup seen -> NoDup (seen ++ dedup seen l) /\ forall x, x ∈ seen ++ dedup seen l <-> x ∈ seen ++ l.
Proof.
  induction l as [|y l IH]; intros seen Hs; cbn [dedup]; [rewrite app_nil_r; auto|]. destruct (existsb (Z.eqb y) seen) eqn:E.
  - apply in_existsb in E. destruct (IH seen Hs) as [H1 H2]. split; [exact H1|]. intros x. rewrite H2, !elem_of_app, elem_of_cons. intuition congruence.
  - assert (~ y ∈ seen) as Hy by (intros H; apply in_existsb in H; congruence). destruct (IH (seen ++ [y])) as [H1 H2]; [apply NoDup_app; split_and!; auto; [intros x Hx ->%list_elem_of_singleton; contradiction|apply NoDup_singleton]|]. rewrite <- app_assoc in H1. split; [exact H1|]. intros x. specialize (H2 x). rewrite <- !app_assoc in H2. exact H2.
Qed.

Lemma firsts_ok t c l : all_prepasses t c = Some l -> NoDup (firsts t c) /\ forall x, x ∈ firsts t c <-> x ∈ l.
Proof. intros E. unfold firsts. rewrite E. cbn [default]. apply (dedup_ok l [] (NoDup_nil_2)). Qed.

(** ** Compaction in place *)

Lemma compact_dedup n : forall a start used j, (start <= used <= start + j)%nat -> (start + j + n <= length a)%nat -> exists a' used', compact a start used j n = (a', used') /\ length a' = length a /\ (used <= used' <= used + n)%nat /\
  take used' a' = take used a ++ dedup (take (used - start) (drop start a)) (take n (drop (start + j) a)).
Proof.
  induction n as [|n IH]; intros a start used j Hu Hl; cbn [compact].
  - exists a, used. cbn [take dedup]. rewrite app_nil_r. split_and!; auto; lia.
  - destruct (lookup_lt_is_Some_2 a (start + j)%nat ltac:(lia)) as [cb Hcb]. rewrite Hcb. change (default 0 (Some cb)) with cb. rewrite (drop_S a cb (start + j)%nat Hcb). cbn [take dedup]. destruct (existsb (Z.eqb cb) (take (used - start) (drop start a))).
    + destruct (IH a start used (S j)) as (a' & u' & -> & H1 & H2 & H3); [lia|lia|]. exists a', u'. split; [reflexivity|]. split; [exact H1|]. split; [lia|]. rewrite H3. repeat f_equal. lia.
    + destruct (IH (<[used := cb]> a) start (S used) (S j)) as (a' & u' & -> & H1 & H2 & H3); [lia|rewrite length_insert; lia|]. rewrite length_insert in H1. exists a', u'. split; [reflexivity|]. split; [exact H1|]. split; [lia|]. rewrite H3. rewrite (take_S_r (<[used := cb]> a) used cb) by (apply list_lookup_insert_eq; lia). rewrite take_insert_ge by lia. rewrite <- app_assoc. cbn [app]. f_equal. f_equal. f_equal.
      * replace (S used - start)%nat with (S (used - start)) by lia. rewrite (take_S_r _ _ cb) by (rewrite lookup_drop; replace (start + (used - start))%nat with used by lia; apply list_lookup_insert_eq; lia). f_equal. apply list_eq. intros i. destruct (decide (i < used - start)%nat) as [Hi|Hi]; [rewrite !lookup_take_lt, !lookup_drop by lia; now rewrite list_lookup_insert_ne by lia|rewrite !lookup_take_ge by lia; reflexivity].
      * f_equal. rewrite drop_insert_lt by lia. f_equal. lia.
Qed.

(** ** Expansion *)

Definition weight (t : views) (c : Z) : Z := Z.of_nat (length (default [] (all_prepasses t c))).
Fixpoint total_weight (t : views) (l : list Z) : Z := match l with [] => 0 | c :: l => 1 + weight t c + total_weight t l end.
Definition later (f f' : list bool) : Prop := false ∈ f' -> false ∈ f.

Lemma total_weight_pos t l : Z.of_nat (length l) <= total_weight t l.
Proof. induction l as [|c l IH]; cbn [total_weight length]; [lia|]. unfold weight. lia. Qed.

Lemma weight_in t c l : c ∈ l -> 1 + weight t c <= total_weight t l.
Proof.
  induction l as [|x l IH]; intros H; [now apply not_elem_of_nil in H|]. cbn [total_weight]. pose proof (total_weight_pos t l). apply elem_of_cons in H as [->|H]; [lia|]. specialize (IH H). unfold weight in *. lia.
Qed.

Lemma prepasses_count t c k p : all_prepasses t c = Some p -> Z.of_nat (length p) < UINT32_MAX -> hybris_polygon_record_prepasses t c k = (Z.of_nat (length p), take (Z.to_nat k) p).
Proof. intros E H. unfold hybris_polygon_record_prepasses. rewrite E. now rewrite (proj2 (Z.leb_gt _ _)). Qed.

Lemma total_length_ok t l : forall n, 0 <= n -> n + total_weight t l < 2 ^ 33 -> total_weight t l <= UINT32_MAX -> match total_length t l n with Some len => (forall c, c ∈ l -> all_prepasses t c <> None) /\ len = n + total_weight t l - Z.of_nat (length l) | None => exists c, c ∈ l /\ all_prepasses t c = None end.
Proof.
  induction l as [|c l IH]; intros n Hn Hb Hm; cbn [total_length total_weight length] in *; [split; [intros c Hc; now apply not_elem_of_nil in Hc|lia]|]. unfold weight in *. destruct (all_prepasses t c) as [p|] eqn:E; [|unfold hybris_polygon_record_prepasses; rewrite E; cbn; exists c; split; [left|exact E]]. cbn [default] in *. change (id p) with p in *. pose proof (total_weight_pos t l) as Hp. rewrite (prepasses_count t c 0 p E) by lia. cbn [fst]. rewrite (proj2 (Z.eqb_neq _ _)) by lia. rewrite (wrap_small 64) by (unfold in_range; lia). specialize (IH (n + Z.of_nat (length p)) ltac:(lia) ltac:(lia) ltac:(lia)). destruct (total_length t l _) as [len|].
  - destruct IH as [H1 ->]. split; [|lia]. intros x [->|Hx]%elem_of_cons; [congruence|auto].
  - destruct IH as (x & Hx & Ex). exists x. split; [now right|exact Ex].
Qed.

Lemma group_length t c : Z.of_nat (length (group t c)) <= 1 + weight t c /\ (weight t c <> 0 -> (1 < length (group t c))%nat).
Proof.
  unfold group, firsts, weight. set (p := default [] (all_prepasses t c)). rewrite length_app. cbn [length]. assert (forall l seen, (length (dedup seen l) <= length l)%nat) as H by (induction l as [|x l IH]; intros seen; cbn [dedup length]; [lia|destruct (existsb _ _); cbn [length]; [specialize (IH seen)|specialize (IH (seen ++ [x]))]; lia]). specialize (H p []). split; [lia|]. destruct p as [|x p]; cbn; lia.
Qed.

Lemma expand_loop_ok t l : (forall c, c ∈ l -> all_prepasses t c <> None) -> total_weight t l <= UINT32_MAX -> forall a used, (Z.of_nat used + total_weight t l <= Z.of_nat (length a)) -> exists a' used', expand_loop t l a used = Some (a', used') /\ take used' a' = take used a ++ concat (group t <$> l) /\ length a' = length a /\ (used' <= length a)%nat.
Proof.
  induction l as [|c l IH]; intros Ha Hm a used Hl; cbn [expand_loop total_weight] in *.
  - exists a, used. cbn. rewrite app_nil_r. split_and!; auto. lia.
  - destruct (all_prepasses t c) as [p|] eqn:E; [|exfalso; apply (Ha c); [left|exact E]]. assert (weight t c = Z.of_nat (length p)) as Ew by (unfold weight; now rewrite E). pose proof (total_weight_pos t l). rewrite (prepasses_count t c 0 p E) by lia. cbn [fst]. rewrite (prepasses_count t c _ p E) by lia. rewrite Z.eqb_refl. cbn [negb]. rewrite Nat2Z.id, take_ge by lia.
    destruct (compact_dedup (length p) (blit a used p) used used 0) as (a1 & u1 & -> & L1 & U1 & T1); [lia|rewrite length_blit; lia|]. rewrite length_blit in L1 by lia. rewrite Nat.sub_diag, Nat.add_0_r in T1. cbn [take] in T1. assert (take used (blit a used p) = take used a /\ take (length p) (drop used (blit a used p)) = p) as [B1 B2]. { unfold blit. assert (length (take used a) = used) as Hlen by (rewrite length_take; lia). split; [rewrite take_app_le by lia; rewrite take_ge by lia; reflexivity|]. rewrite drop_app_ge by lia. rewrite Hlen, Nat.sub_diag, drop_0. rewrite take_app_le by lia. now rewrite take_ge. } rewrite B1, B2 in T1.
    destruct (IH) with (a := <[u1 := c]> a1) (used := S u1) as (a' & u' & -> & T2 & L2 & U2); [intros x Hx; apply Ha; now right|lia|rewrite length_insert; lia|]. rewrite length_insert in L2, U2. exists a', u'. split; [reflexivity|]. split; [|split; [congruence|lia]]. rewrite T2. rewrite (take_S_r (<[u1 := c]> a1) u1 c) by (apply list_lookup_insert_eq; lia). rewrite take_insert_ge by lia. rewrite T1. change (concat (group t <$> c :: l)) with (group t c ++ concat (group t <$> l)). unfold group at 2, firsts. rewrite E. change (default [] (Some p)) with p. now rewrite <- !app_assoc.
Qed.

Lemma alloc_later f ok f' : alloc f = (ok, f') -> later f f' /\ (ok = false -> false ∈ f).
Proof. destruct f as [|b f]; cbn; intros [= <- <-]; [split; [intros H; now apply not_elem_of_nil in H|discriminate]|]. split; [now right|intros ->; left]. Qed.

Lemma plain_groups t l : total_weight t l = Z.of_nat (length l) -> concat (group t <$> l) = l.
Proof.
  induction l as [|c l IH]; intros H; [reflexivity|]. cbn [total_weight length] in H. pose proof (total_weight_pos t l). assert (weight t c = 0) as Hw by (unfold weight in *; lia). change (concat (group t <$> c :: l)) with (group t c ++ concat (group t <$> l)). rewrite IH by (unfold weight in *; lia). unfold group, firsts, weight in *. destruct (default [] (all_prepasses t c)); [reflexivity|cbn in Hw; lia].
Qed.

Lemma grown_groups t l : total_weight t l <> Z.of_nat (length l) -> length (concat (group t <$> l)) <> length l.
Proof.
  intros H. assert (forall k, Z.of_nat (length k) <= Z.of_nat (length (concat (group t <$> k))) /\ (total_weight t k <> Z.of_nat (length k) -> Z.of_nat (length k) < Z.of_nat (length (concat (group t <$> k))))) as Hk; [|destruct (Hk l) as [_ H2]; specialize (H2 H); lia]. induction k as [|c k [IH1 IH2]]; [cbn; lia|]. change (concat (group t <$> c :: k)) with (group t c ++ concat (group t <$> k)). rewrite length_app. cbn [total_weight length]. destruct (group_length t c) as [_ G]. assert (1 <= length (group t c))%nat by (unfold group; rewrite length_app; cbn; lia). pose proof (total_weight_pos t k). split; [lia|]. intros Hne. destruct (Z.eq_dec (weight t c) 0) as [E|E]; [rewrite E in Hne; lia|specialize (G E); lia].
Qed.

Lemma expand_ok t l f o f' : total_weight t l <= UINT32_MAX -> expand t l f = (o, f') -> later f f' /\ match o with Some a => (forall c, c ∈ l -> all_prepasses t c <> None) /\ a = concat (group t <$> l) | None => false ∈ f \/ exists c, c ∈ l /\ all_prepasses t c = None end.
Proof.
  intros Hm. pose proof (total_weight_pos t l) as Hp. unfold expand. pose proof (total_length_ok t l (Z.of_nat (length l)) ltac:(lia) ltac:(unfold UINT32_MAX in *; lia) Hm) as HT. destruct (total_length t l _) as [len|]; [|intros [= <- <-]; split; [now intros ?|now right]]. destruct HT as [Ha ->]. replace (Z.of_nat (length l) + total_weight t l - Z.of_nat (length l)) with (total_weight t l) by ring. rewrite (proj2 (Z.ltb_ge _ _)) by lia. destruct (Z.eqb_spec (total_weight t l) (Z.of_nat (length l))) as [E|E]; [intros [= <- <-]; split; [now intros ?|]; split; [exact Ha|now rewrite plain_groups]|].
  destruct (alloc f) as [ok f1] eqn:Ef. destruct (alloc_later _ _ _ Ef) as [L1 L2]. destruct ok; cbn [negb]; [|intros [= <- <-]; split; [exact L1|left; auto]]. destruct (expand_loop_ok t l Ha Hm (replicate (Z.to_nat (total_weight t l)) 0) 0) as (a & u & -> & T & _); [rewrite length_replicate; lia|]. intros [= <- <-]. split; [exact L1|]. split; [exact Ha|]. rewrite T. reflexivity.
Qed.

(** ** Masks and structures *)

Definition mask_at (old : list Z) (k : nat) : Z := if 0 <? Z.of_nat (length old) then default 0 (old !! k) else 1.
(** Each command buffer's mask for its whole group. *)
Fixpoint spread (t : views) (l old : list Z) (k : nat) : list Z := match l with [] => [] | c :: l => replicate (length (group t c)) (mask_at old k) ++ spread t l old (S k) end.
(** The command buffers that run first are not among the application's. *)
Definition apart_from (t : views) (l : list Z) : Prop := forall c x, c ∈ l -> x ∈ firsts t c -> ~ x ∈ l.

Lemma group_masks_skip p changed original old k : (forall x, x ∈ p -> ~ x ∈ original) -> (k < length original)%nat -> group_masks (p ++ changed) original old k = replicate (length p) (mask_at old k) ++ group_masks changed original old k.
Proof.
  intros Hp Hk. induction p as [|x p IH]; [reflexivity|]. cbn [app group_masks length replicate]. assert ((x =? default 0 (original !! k)) = false) as ->. { apply Z.eqb_neq. intros ->. destruct (lookup_lt_is_Some_2 original k Hk) as [c Hc]. rewrite Hc in Hp. apply (Hp c); [left|]. eapply list_elem_of_lookup_2, Hc. } cbn [andb]. rewrite IH by (intros y Hy; apply Hp; now right). reflexivity.
Qed.

Lemma group_masks_ok t l : forall pre, apart_from t (pre ++ l) -> forall old, group_masks (concat (group t <$> l)) (pre ++ l) old (length pre) = spread t l old (length pre).
Proof.
  induction l as [|c l IH]; intros pre Ha old; [reflexivity|]. change (concat (group t <$> c :: l)) with (group t c ++ concat (group t <$> l)). cbn [spread]. unfold group at 1. rewrite <- app_assoc. rewrite group_masks_skip; [|intros x Hx; apply (Ha c x); [apply elem_of_app; right; left|exact Hx]|rewrite length_app; cbn; lia]. cbn [app group_masks]. fold (mask_at old (length pre)). rewrite list_lookup_middle by reflexivity. change (default 0 (Some c)) with c. rewrite Z.eqb_refl. cbn [andb]. replace (length (group t c)) with (S (length (firsts t c))) by (unfold group; rewrite length_app; cbn; lia). rewrite replicate_S_end, <- app_assoc. cbn [app]. do 2 f_equal. destruct l as [|c' l]; [reflexivity|]. rewrite (proj2 (Nat.ltb_lt _ _)) by (rewrite length_app; cbn; lia). specialize (IH (pre ++ [c])). rewrite length_app, <- app_assoc in IH. cbn [app length] in IH. rewrite Nat.add_1_r in IH. apply IH. exact Ha.
Qed.

(** The last group structure with its masks spread. *)
Fixpoint spread_chain (t : views) (l : list Z) (c : list node) : list node :=
  match c with
  | [] => []
  | NGroup old :: c => if has_group c then NGroup old :: spread_chain t l c else NGroup (spread t l old 0) :: c
  | n :: c => n :: spread_chain t l c
  end.

Lemma copy_chain_ok t l c : apart_from t l -> has_group c = true -> forall f r c' f', copy_chain c (concat (group t <$> l)) l f = (r, c', f') -> later f f' /\ (r = VK_SUCCESS -> c' = spread_chain t l c) /\ (r <> VK_SUCCESS -> false ∈ f \/ exists n, NOther n ∈ c).
Proof.
  intros Ha. induction c as [|n c IH]; intros Hg f r c' f'; [discriminate|]. cbn [copy_chain]. destruct n as [old|i|i]; [| |intros [= <- <- <-]; split; [now intros ?|]; split; [discriminate|intros _; right; exists i; left]].
  - destruct (alloc f) as [ok f1] eqn:Ef. destruct (alloc_later _ _ _ Ef) as [L1 L2]. destruct ok; cbn [negb]; [|intros [= <- <- <-]; split; [exact L1|]; split; [discriminate|auto]]. cbn [spread_chain]. destruct (has_group c) eqn:Eg.
    + destruct (copy_chain c (concat (group t <$> l)) l f1) as [[r1 c1] f2] eqn:Ec. intros [= <- <- <-]. destruct (IH eq_refl f1 r1 c1 f2 Ec) as (H1 & H2 & H3). split; [intros H; auto|]. split; [intros H; now rewrite H2|]. intros H. destruct (H3 H) as [H4|[n Hn]]; [left; auto|right; exists n; now right].
    + destruct (alloc f1) as [ok f2] eqn:Ef2. destruct (alloc_later _ _ _ Ef2) as [M1 M2]. destruct ok; cbn [negb]; intros [= <- <- <-]; (split; [intros H; auto|]); [split; [intros _; do 2 f_equal; exact (group_masks_ok t l [] Ha old)|contradiction]|split; [discriminate|auto]].
  - destruct (alloc f) as [ok f1] eqn:Ef. destruct (alloc_later _ _ _ Ef) as [L1 L2]. destruct ok; cbn [negb]; [|intros [= <- <- <-]; split; [exact L1|]; split; [discriminate|auto]]. cbn [spread_chain]. assert (has_group c = true) as Hg' by exact Hg. destruct (copy_chain c (concat (group t <$> l)) l f1) as [[r1 c1] f2] eqn:Ec. intros H. assert ((r, c', f') = (r1, NKnown i :: c1, f2)) as [= -> -> ->] by (destruct (has_group c); congruence). destruct (IH Hg' f1 r1 c1 f2 Ec) as (H1 & H2 & H3). split; [intros Hf; auto|]. split; [intros Hr; now rewrite H2|]. intros Hr. destruct (H3 Hr) as [H4|[n Hn]]; [left; auto|right; exists n; now right].
Qed.

(** All that has to run before a command buffer can, and its group has each of it once. *)
(** The command buffers with the conversions for [c] and for the secondary command buffers it executes. *)
Definition opened (v : view) : Prop := has_prepass (pre (record v)) = true /\ pre_open (pre (record v)) = true.
Definition converted_by (v : view) (x : Z) : Prop := has_prepass (pre (record v)) = true /\ pre_cmd (pre (record v)) = x.
Definition converts (t : views) (c x : Z) : Prop := exists v, t c = Some v /\ (converted_by v x \/ exists ch ep w, LChild ch ep ∈ links (record v) /\ t ch = Some w /\ converted_by w x).
(** A secondary command buffer is as it was when it was recorded. *)
Definition current (t : views) (ch ep : Z) : Prop := exists w, t ch = Some w /\ epoch w = ep /\ ~ opened w.
Record covered (t : views) (c : Z) : Prop := {
  cv_once : NoDup (firsts t c);
  cv_exact : forall x, x ∈ firsts t c <-> converts t c x;
  cv_current : forall v, t c = Some v -> ~ opened v /\ forall ch ep, LChild ch ep ∈ links (record v) -> current t ch ep }.
Definition unavailable (t : views) (c : Z) : Prop := exists v, t c = Some v /\ (opened v \/ exists ch ep, LChild ch ep ∈ links (record v) /\ ~ current t ch ep).

Lemma child_prepasses_ok t l : match child_prepasses t l with
  | Some r => (forall ch ep, LChild ch ep ∈ l -> current t ch ep) /\ forall x, x ∈ r <-> exists ch ep w, LChild ch ep ∈ l /\ t ch = Some w /\ converted_by w x
  | None => exists ch ep, LChild ch ep ∈ l /\ ~ current t ch ep end.
Proof.
  induction l as [|[b|c ep] l IH]; cbn [child_prepasses].
  - split; [intros ch ep H; now apply not_elem_of_nil in H|]. intros x. split; [intros H; now apply not_elem_of_nil in H|intros (? & ? & ? & H & _); now apply not_elem_of_nil in H].
  - destruct (child_prepasses t l) as [r|]; [|destruct IH as (ch & ep & H & Hn); exists ch, ep; split; [now right|exact Hn]]. destruct IH as [H1 H2]. split; [intros ch ep [H|H]%elem_of_cons; [discriminate|auto]|]. intros x. rewrite H2. split; intros (ch & ep & w & H & Hw); exists ch, ep, w; (split; [|exact Hw]); [now right|apply elem_of_cons in H as [H|H]; [discriminate|exact H]].
  - destruct (t c) as [v|] eqn:Ec; [|exists c, ep; split; [left|intros (w & Hw & _); congruence]]. destruct (Z.eqb_spec (epoch v) ep) as [He|He]; cbn [negb]; [|exists c, ep; split; [left|intros (w & Hw & Hew & _); congruence]]. destruct (has_prepass (pre (record v))) eqn:Eh.
    + destruct (pre_open (pre (record v))) eqn:Eo; [exists c, ep; split; [left|intros (w & Hw & _ & Hn); apply Hn; assert (w = v) as -> by congruence; now split]|]. assert (current t c ep) as Hc by (exists v; split_and!; auto; intros [_ H]; congruence).
      destruct (child_prepasses t l) as [r|]; [|destruct IH as (ch & ep' & H & Hn); exists ch, ep'; split; [now right|exact Hn]]. destruct IH as [H1 H2]. split; [intros ch ep' [[= -> ->]|H]%elem_of_cons; auto|]. intros x. rewrite elem_of_cons, H2. split.
      * intros [->|(ch & ep' & w & H & Hw)]; [exists c, ep, v; split; [left|]; split; [exact Ec|now split]|exists ch, ep', w; split; [now right|exact Hw]].
      * intros (ch & ep' & w & [[= -> ->]|H]%elem_of_cons & Ew & Hw); [left; assert (w = v) as -> by congruence; symmetry; apply Hw|right; eauto 6].
    + assert (current t c ep) as Hc by (exists v; split_and!; auto; intros [H _]; congruence). destruct (child_prepasses t l) as [r|]; [|destruct IH as (ch & ep' & H & Hn); exists ch, ep'; split; [now right|exact Hn]]. destruct IH as [H1 H2]. split; [intros ch ep' [[= -> ->]|H]%elem_of_cons; auto|]. intros x. rewrite H2. split; [intros (ch & ep' & w & H & Hw); exists ch, ep', w; split; [now right|exact Hw]|].
      intros (ch & ep' & w & [[= -> ->]|H]%elem_of_cons & Ew & Hw1 & Hw2); [congruence|unfold converted_by; eauto 8].
Qed.

Lemma all_prepasses_ok t c : match all_prepasses t c with
  | Some l => (forall x, x ∈ l <-> converts t c x) /\ forall v, t c = Some v -> ~ opened v /\ forall ch ep, LChild ch ep ∈ links (record v) -> current t ch ep
  | None => unavailable t c end.
Proof.
  unfold all_prepasses, converts, unavailable. destruct (t c) as [v|] eqn:Ec; [|split; [intros x; split; [intros H; now apply not_elem_of_nil in H|intros (v & Hv & _); discriminate]|discriminate]]. pose proof (child_prepasses_ok t (links (record v))) as H. destruct (has_prepass (pre (record v))) eqn:Eh.
  - destruct (pre_open (pre (record v))) eqn:Eo; [exists v; split; [reflexivity|left; now split]|]. destruct (child_prepasses t (links (record v))) as [r|]; [|exists v; auto]. destruct H as [H1 H2]. split.
    + intros x. rewrite elem_of_cons, H2. split; [intros [->|H]; exists v; (split; [reflexivity|]); [left; now split|now right]|]. intros (v' & [= <-] & [[_ <-]|H]); auto.
    + intros v' [= <-]. split; [intros [_ H]; congruence|exact H1].
  - destruct (child_prepasses t (links (record v))) as [r|]; [|exists v; auto]. destruct H as [H1 H2]. split.
    + intros x. rewrite H2. split; [intros H; exists v; auto|]. intros (v' & [= <-] & [[H _]|H]); [congruence|exact H].
    + intros v' [= <-]. split; [intros [H _]; congruence|exact H1].
Qed.

Lemma none_unavailable t c : all_prepasses t c = None -> unavailable t c.
Proof. intros E. pose proof (all_prepasses_ok t c) as H. now rewrite E in H. Qed.

Lemma covered_ok t c : all_prepasses t c <> None -> covered t c.
Proof. pose proof (all_prepasses_ok t c) as H. destruct (all_prepasses t c) as [l|] eqn:E; [|contradiction]. intros _. destruct H as [H1 H2]. destruct (firsts_ok _ _ _ E) as [H3 H4]. split; [exact H3|intros x; now rewrite H4|exact H2]. Qed.

(** Valid use. *)
Definition submit_ok (t : views) (i : submit) : Prop := apart_from t (commands i) /\ total_weight t (commands i) <= UINT32_MAX.
(** A structure that has been submitted for another one. *)
Record submitted_as (t : views) (i i' : submit) : Prop := {
  sa_available : forall c, c ∈ commands i -> covered t c;
  sa_commands : commands i' = concat (group t <$> commands i);
  sa_rest : commands i' = commands i /\ stages i' = stages i /\ chain i' = chain i \/
    length (commands i') <> length (commands i) /\ stages i' = ((fun _ => ALL_COMMANDS_STAGE) <$> stages i) /\ chain i' = (if has_group (chain i) then spread_chain t (commands i) (chain i) else chain i) }.
(** Why a structure cannot be submitted. *)
Definition blocked (t : views) (i : submit) : Prop := (exists c, c ∈ commands i /\ unavailable t c) \/ exists n, NOther n ∈ chain i.

Lemma change_submit_ok t i f r i' f' : submit_ok t i -> change_submit t i f = (r, i', f') -> later f f' /\ (r = VK_SUCCESS -> submitted_as t i i') /\ (r <> VK_SUCCESS -> false ∈ f \/ blocked t i).
Proof.
  intros [Ha Hw]. unfold change_submit. destruct (expand t (commands i) f) as [o f1] eqn:Ee. destruct (expand_ok t _ _ _ _ Hw Ee) as [L1 He]. destruct o as [l|].
  - destruct He as [Hav ->]. assert (forall c, c ∈ commands i -> covered t c) as Hcov by (intros c Hc; apply covered_ok; auto). destruct (Nat.eqb_spec (length (concat (group t <$> commands i))) (length (commands i))) as [En|En].
    + intros [= <- <- <-]. split; [exact L1|]. split; [|contradiction]. intros _. split; auto. left. cbn. split; auto. apply plain_groups. destruct (Z.eq_dec (total_weight t (commands i)) (Z.of_nat (length (commands i)))) as [E|E]; [exact E|]. now apply grown_groups in E.
    + destruct (if Nat.eqb (length (stages i)) 0 then (true, f1) else alloc f1) as [ok f2] eqn:Ef. assert (later f1 f2 /\ (ok = false -> false ∈ f1)) as [L2 L3] by (destruct (Nat.eqb (length (stages i)) 0); [injection Ef as <- <-; split; [now intros ?|discriminate]|now apply alloc_later]). destruct ok; cbn [negb]; [|intros [= <- <- <-]; split; [intros H; auto|]; split; [discriminate|auto]]. unfold group_chain. destruct (has_group (chain i)) eqn:Eg.
      * destruct (copy_chain (chain i) _ (commands i) f2) as [[r1 c1] f3] eqn:Ec. destruct (copy_chain_ok t _ _ Ha Eg _ _ _ _ Ec) as (C1 & C2 & C3). intros [= <- <- <-]. split; [intros H; auto|]. split; [intros H; split; auto; right; rewrite Eg; cbn; split_and!; auto|]. intros H. destruct (C3 H) as [H1|H1]; [left; auto|right; now right].
      * intros [= <- <- <-]. split; [intros H; auto|]. split; [|contradiction]. intros _. split; auto. right. rewrite Eg. cbn. auto.
  - assert (r <> VK_SUCCESS -> false ∈ f \/ blocked t i) as Hbl by (intros _; destruct He as [H|(c & Hc & Ec)]; [now left|right; left; exists c; split; [exact Hc|now apply none_unavailable]]). destruct (Nat.eqb_spec (length (commands i)) 0) as [E0|E0]; cbn [negb]; intros [= <- <- <-].
    + split; [exact L1|]. split; [|exact Hbl]. intros _. apply nil_length_inv in E0. destruct i as [cm st ch]; cbn in *. subst cm. split; cbn; auto; intros c Hc; now apply not_elem_of_nil in Hc.
    + split; [exact L1|]. split; [discriminate|exact Hbl].
Qed.

Lemma change_submits_ok t l : (forall i, i ∈ l -> submit_ok t i) -> forall f r l' f', change_submits t l f = (r, l', f') -> later f f' /\ (r = VK_SUCCESS -> Forall2 (submitted_as t) l l') /\ (r <> VK_SUCCESS -> false ∈ f \/ exists i, i ∈ l /\ blocked t i).
Proof.
  induction l as [|i l IH]; intros Hl f r l' f'; cbn [change_submits]; [intros [= <- <- <-]; split; [now intros ?|]; split; [constructor|contradiction]|]. destruct (change_submit t i f) as [[r1 i1] f1] eqn:E1. destruct (change_submit_ok t i f r1 i1 f1 (Hl i ltac:(left)) E1) as (A1 & A2 & A3). destruct (Z.eqb_spec r1 VK_SUCCESS) as [->|Hr]; cbn [negb].
  - destruct (change_submits t l f1) as [[r2 l2] f2] eqn:E2. destruct (IH (fun x Hx => Hl x ltac:(now right)) f1 r2 l2 f2 E2) as (B1 & B2 & B3). intros [= <- <- <-]. split; [intros H; auto|]. split; [intros H; constructor; auto|]. intros H. destruct (B3 H) as [H1|(x & Hx & H1)]; [left; auto|right; exists x; split; [now right|exact H1]].
  - intros [= <- <- <-]. split; [exact A1|]. split; [contradiction|]. intros _. destruct (A3 Hr) as [H1|H1]; [now left|right; exists i; split; [left|exact H1]].
Qed.

(** *** The second form *)

Definition groups2 (t : views) (l : list info2) : list info2 := o ← l; ((fun x => Info2 x (i_mask o) false) <$> firsts t (i_handle o)) ++ [o].
Definition submit2_ok (t : views) (i : submit2) : Prop := apart_from t (i_handle <$> commands2 i) /\ total_weight t (i_handle <$> commands2 i) <= UINT32_MAX.
Record submitted2_as (t : views) (i i' : submit2) : Prop := {
  s2_available : forall o, o ∈ commands2 i -> covered t (i_handle o);
  s2_commands : commands2 i' = groups2 t (commands2 i);
  s2_rest : commands2 i' = commands2 i /\ stages2 i' = stages2 i \/ length (commands2 i') <> length (commands2 i) /\ stages2 i' = ((fun _ => ALL_COMMANDS_STAGE) <$> stages2 i) }.
Definition blocked2 (t : views) (i : submit2) : Prop := exists o, o ∈ commands2 i /\ unavailable t (i_handle o).

Lemma commands_skip p changed original k o : original !! k = Some o -> (forall x, x ∈ p -> x <> i_handle o) -> commands_of (p ++ changed) original k = ((fun x => Info2 x (i_mask o) false) <$> p) ++ commands_of changed original k.
Proof.
  intros Ho Hp. induction p as [|x p IH]; [reflexivity|]. cbn [app commands_of]. rewrite Ho, (proj2 (Z.eqb_neq _ _)) by (apply Hp; left). rewrite IH by (intros y Hy; apply Hp; now right). reflexivity.
Qed.

Lemma commands_of_ok t l : forall pre, apart_from t (i_handle <$> pre ++ l) -> commands_of (concat (group t <$> (i_handle <$> l))) (pre ++ l) (length pre) = groups2 t l.
Proof.
  induction l as [|o l IH]; intros pre Ha; [reflexivity|]. change (concat (group t <$> (i_handle <$> o :: l))) with (group t (i_handle o) ++ concat (group t <$> (i_handle <$> l))). change (groups2 t (o :: l)) with ((((fun x => Info2 x (i_mask o) false) <$> firsts t (i_handle o)) ++ [o]) ++ groups2 t l). unfold group at 1. rewrite <- !app_assoc. assert ((pre ++ o :: l) !! length pre = Some o) as Ho by now apply list_lookup_middle. assert (i_handle o ∈ i_handle <$> pre ++ o :: l) as Hin by (apply list_elem_of_fmap_2, elem_of_app; right; left).
  rewrite (commands_skip _ _ _ _ o Ho) by (intros x Hx ->; exact (Ha _ _ Hin Hx Hin)). f_equal. cbn [app commands_of]. rewrite Ho, Z.eqb_refl. f_equal. destruct l as [|o' l]; [reflexivity|]. rewrite (proj2 (Nat.ltb_lt _ _)) by (rewrite length_app; cbn; lia). specialize (IH (pre ++ [o])). rewrite length_app, <- app_assoc in IH. cbn [app length] in IH. rewrite Nat.add_1_r in IH. apply IH, Ha.
Qed.

Lemma length_groups2 t l : length (groups2 t l) = length (concat (group t <$> (i_handle <$> l))).
Proof.
  induction l as [|o l IH]; [reflexivity|]. change (concat (group t <$> (i_handle <$> o :: l))) with (group t (i_handle o) ++ concat (group t <$> (i_handle <$> l))). change (groups2 t (o :: l)) with ((((fun x => Info2 x (i_mask o) false) <$> firsts t (i_handle o)) ++ [o]) ++ groups2 t l). unfold group at 1. rewrite !length_app, IH, length_fmap. reflexivity.
Qed.

Lemma plain_groups2 t l : total_weight t (i_handle <$> l) = Z.of_nat (length (i_handle <$> l)) -> groups2 t l = l.
Proof.
  induction l as [|o l IH]; intros H; [reflexivity|]. change (i_handle <$> o :: l) with (i_handle o :: (i_handle <$> l)) in H. cbn [total_weight length] in H. pose proof (total_weight_pos t (i_handle <$> l)). change (groups2 t (o :: l)) with ((((fun x => Info2 x (i_mask o) false) <$> firsts t (i_handle o)) ++ [o]) ++ groups2 t l). rewrite IH by (unfold weight in *; lia). assert (weight t (i_handle o) = 0) as Hw by (unfold weight in *; lia). unfold firsts, weight in *. destruct (default [] (all_prepasses t (i_handle o))); [reflexivity|cbn in Hw; lia].
Qed.

Lemma change_submit2_ok t i f r i' f' : submit2_ok t i -> change_submit2 t i f = (r, i', f') -> later f f' /\ (r = VK_SUCCESS -> submitted2_as t i i') /\ (r <> VK_SUCCESS -> false ∈ f \/ blocked2 t i).
Proof.
  intros [Ha Hw]. unfold change_submit2. destruct (alloc f) as [ok f1] eqn:Ef. destruct (alloc_later _ _ _ Ef) as [L1 L1']. destruct (negb (Nat.eqb (length (commands2 i)) 0) && negb ok) eqn:Eok. { intros [= <- <- <-]. split; [exact L1|]. split; [discriminate|]. intros _. left. apply L1'. apply andb_true_iff in Eok as [_ Eok]. now apply negb_true_iff in Eok. }
  destruct (expand t (i_handle <$> commands2 i) f1) as [o f2] eqn:Ee. destruct (expand_ok t _ _ _ _ Hw Ee) as [L2 He]. destruct o as [l|].
  - destruct He as [Hav ->]. assert (forall o, o ∈ commands2 i -> covered t (i_handle o)) as Hcov by (intros o Ho; apply covered_ok, Hav, list_elem_of_fmap_2, Ho). destruct (alloc f2) as [ok2 f3] eqn:Ef2. destruct (alloc_later _ _ _ Ef2) as [L3 L3']. destruct (_ && negb ok2) eqn:Eok2. { intros [= <- <- <-]. split; [intros H; auto|]. split; [discriminate|]. intros _. left. apply L1, L2, L3'. apply andb_true_iff in Eok2 as [_ Eok2]. now apply negb_true_iff in Eok2. }
    pose proof (commands_of_ok t (commands2 i) [] Ha) as Ec. cbn [app length] in Ec. rewrite Ec. assert (length (concat (group t <$> (i_handle <$> commands2 i))) = length (commands2 i) -> groups2 t (commands2 i) = commands2 i) as Hsame by (intros En; apply plain_groups2; destruct (Z.eq_dec (total_weight t (i_handle <$> commands2 i)) (Z.of_nat (length (i_handle <$> commands2 i)))) as [E|E]; [exact E|]; apply grown_groups in E; rewrite length_fmap in E; contradiction). destruct (Nat.eqb_spec (length (concat (group t <$> (i_handle <$> commands2 i)))) (length (commands2 i))) as [En|En]; cbn [orb].
    + intros [= <- <- <-]. split; [intros H; auto|]. split; [|contradiction]. intros _. split; auto.
    + assert (length (groups2 t (commands2 i)) <> length (commands2 i)) as En' by now rewrite length_groups2. destruct (Nat.eqb_spec (length (stages2 i)) 0) as [E0|E0]; [intros [= <- <- <-]; split; [intros H; auto|]; split; [|contradiction]; intros _; split; auto; right; apply nil_length_inv in E0; cbn; rewrite E0; auto|]. destruct (alloc f3) as [ok3 f4] eqn:Ef3. destruct (alloc_later _ _ _ Ef3) as [L4 L4']. destruct ok3; cbn [negb]; intros [= <- <- <-]; (split; [intros H; auto|]); [split; [intros _; split; auto|contradiction]|split; [discriminate|intros _; left; auto]].
  - assert (r <> VK_SUCCESS -> false ∈ f \/ blocked2 t i) as Hbl. { intros _. destruct He as [H|(c & Hc & Ec)]; [left; auto|right]. apply list_elem_of_fmap in Hc as (o & -> & Ho). exists o. split; [exact Ho|now apply none_unavailable]. } destruct (Nat.eqb_spec (length (commands2 i)) 0) as [E0|E0]; cbn [negb]; intros [= <- <- <-].
    + split; [intros H; auto|]. split; [|exact Hbl]. intros _. apply nil_length_inv in E0. destruct i as [cm st]; cbn in *. subst cm. split; cbn; auto; intros o Ho; now apply not_elem_of_nil in Ho.
    + split; [intros H; auto|]. split; [discriminate|exact Hbl].
Qed.

Lemma change_submits2_ok t l : (forall i, i ∈ l -> submit2_ok t i) -> forall f r l' f', change_submits2 t l f = (r, l', f') -> later f f' /\ (r = VK_SUCCESS -> Forall2 (submitted2_as t) l l') /\ (r <> VK_SUCCESS -> false ∈ f \/ exists i, i ∈ l /\ blocked2 t i).
Proof.
  induction l as [|i l IH]; intros Hl f r l' f'; cbn [change_submits2]; [intros [= <- <- <-]; split; [now intros ?|]; split; [constructor|contradiction]|]. destruct (change_submit2 t i f) as [[r1 i1] f1] eqn:E1. destruct (change_submit2_ok t i f r1 i1 f1 (Hl i ltac:(left)) E1) as (A1 & A2 & A3). destruct (Z.eqb_spec r1 VK_SUCCESS) as [->|Hr]; cbn [negb].
  - destruct (change_submits2 t l f1) as [[r2 l2] f2] eqn:E2. destruct (IH (fun x Hx => Hl x ltac:(now right)) f1 r2 l2 f2 E2) as (B1 & B2 & B3). intros [= <- <- <-]. split; [intros H; auto|]. split; [intros H; constructor; auto|]. intros H. destruct (B3 H) as [H1|(x & Hx & H1)]; [left; auto|right; exists x; split; [now right|exact H1]].
  - intros [= <- <- <-]. split; [exact A1|]. split; [contradiction|]. intros _. destruct (A3 Hr) as [H1|H1]; [now left|right; exists i; split; [left|exact H1]].
Qed.

(** A command buffer without conversions. *)
Lemma none_needed t c : weight t c < UINT32_MAX -> fst (hybris_polygon_record_prepasses t c 0) = 0 -> all_prepasses t c = Some [].
Proof.
  intros Hw H. unfold weight in Hw. unfold hybris_polygon_record_prepasses in H. destruct (all_prepasses t c) as [p|]; [|discriminate]. change (default [] (Some p)) with p in Hw. rewrite (proj2 (Z.leb_gt _ _)) in H by assumption. cbn in H. destruct p; [reflexivity|cbn in H; lia].
Qed.

Lemma unneeded t l : total_weight t l <= UINT32_MAX -> (forall c, c ∈ l -> fst (hybris_polygon_record_prepasses t c 0) = 0) -> (forall c, c ∈ l -> covered t c) /\ total_weight t l = Z.of_nat (length l).
Proof.
  intros Hw H. assert (forall c, c ∈ l -> all_prepasses t c = Some []) as Hn by (intros c Hc; apply none_needed; [pose proof (weight_in t c l Hc); lia|auto]). split; [intros c Hc; apply covered_ok; rewrite Hn by assumption; discriminate|]. clear Hw H. induction l as [|c l IH]; [reflexivity|]. cbn [total_weight length]. rewrite IH by (intros x Hx; apply Hn; now right). unfold weight. rewrite (Hn c) by left. cbn. lia.
Qed.

Lemma existsb_none {B} (p : B -> bool) l : existsb p l = false -> forall x, x ∈ l -> p x = false.
Proof. intros H x Hx. destruct (p x) eqn:E; [|reflexivity]. rewrite <- H. symmetry. apply existsb_exists. exists x. split; [now apply list_elem_of_In|exact E]. Qed.

(** ** Executing secondary command buffers *)

(** What is known to be written and linked is not forgotten. *)
Definition extends (s s' : recording) : Prop := (unknown_writes s = true -> unknown_writes s' = true) /\ forall l, l ∈ links s -> l ∈ links s'.
#[export] Instance extends_preorder : PreOrder extends.
Proof. split; [intros s; split; auto|intros s1 s2 s3 [H1 H2] [H3 H4]; split; auto]. Qed.

Lemma written_link s b : b <> 0 -> written s b = true <-> unknown_writes s = true \/ LWritten b ∈ links s.
Proof.
  intros Hb. unfold written. rewrite orb_true_iff, existsb_exists. split; (intros [H|H]; [now left|right]).
  - destruct H as (l & Hl%list_elem_of_In & E). destruct l as [x|c ep]; apply Z.eqb_eq in E; [now subst|contradiction].
  - exists (LWritten b). split; [now apply list_elem_of_In|apply Z.eqb_refl].
Qed.

Lemma written_extends s s' b : b <> 0 -> extends s s' -> written s b = true -> written s' b = true.
Proof. intros Hb [H1 H2]. rewrite !written_link by assumption. intros [H|H]; auto. Qed.

Lemma record_written_ok s b ok : let (s', err) := hybris_polygon_record_written s b ok in extends s s' /\ written s' b = true.
Proof.
  unfold hybris_polygon_record_written. destruct (written s b) eqn:E; [split; [reflexivity|exact E]|]. destruct ok; cbn [negb].
  - split; [split; cbn; [auto|intros l Hl; now right]|]. unfold written. cbn. rewrite Z.eqb_refl. apply orb_true_r.
  - split; [split; cbn; auto|reflexivity].
Qed.

Lemma inherit_ok l : forall s f s' err f', inherit s l f = (s', err, f') -> extends s s' /\ forall b, b <> 0 -> LWritten b ∈ l -> written s' b = true.
Proof.
  induction l as [|[x|c ep] l IH]; intros s f s' err f'; cbn [inherit].
  - intros [= <- <- <-]. split; [reflexivity|]. intros b _ H. now apply not_elem_of_nil in H.
  - destruct (Z.eqb_spec x 0) as [Hx|Hx]; [intros E; destruct (IH _ _ _ _ _ E) as [H1 H2]; split; [exact H1|]; intros b Hb [[= ->]|H]%elem_of_cons; [contradiction|auto]|]. destruct (if written s x then (true, f) else alloc f) as [ok f1]. pose proof (record_written_ok s x ok) as Hw. destruct (hybris_polygon_record_written s x ok) as [s1 e1]. destruct (inherit s1 l f1) as [[s2 e2] f2] eqn:E. intros [= <- <- <-]. destruct (IH _ _ _ _ _ E) as [H1 H2]. destruct Hw as [W1 W2]. split; [now transitivity s1|]. intros b Hb [[= ->]|H]%elem_of_cons; [now apply (written_extends s1)|auto].
  - intros E. destruct (IH _ _ _ _ _ E) as [H1 H2]. split; [exact H1|]. intros b Hb [H|H]%elem_of_cons; [discriminate|auto].
Qed.

(** A child that a command buffer executes: linked as it is now, its writes known, its converted indices not written before. *)
Record executed (t : views) (s s' : recording) (c : Z) (v : view) : Prop := {
  ex_linked : LChild c (epoch v) ∈ links s';
  ex_written : forall b, b <> 0 -> written (record v) b = true -> written s' b = true;
  ex_sources : forall x, x ∈ edge_sources (record v) -> x <> 0 -> written s x = false }.

Lemma stale_none s child : stale_sources s child = [] -> forall x, x ∈ edge_sources child -> x <> 0 -> written s x = false.
Proof.
  unfold stale_sources. intros H x Hx Hn. induction (edge_sources child) as [|y l IH]; [now apply not_elem_of_nil in Hx|]. change ((if negb (y =? 0) && written s y then [VK_ERROR_FEATURE_NOT_PRESENT] else []) ++ (z ← l; if negb (z =? 0) && written s z then [VK_ERROR_FEATURE_NOT_PRESENT] else []) = []) in H. apply app_eq_nil in H as [H1 H2]. apply elem_of_cons in Hx as [->|Hx]; [|auto]. rewrite (proj2 (Z.eqb_neq y 0) Hn) in H1. destruct (written s y); [discriminate|reflexivity].
Qed.

Lemma execute_children_ok t l : forall s f s' f', execute_children t s l f = (s', [], f') -> extends s s' /\ forall c v, c ∈ l -> t c = Some v -> executed t s s' c v.
Proof.
  induction l as [|c l IH]; intros s f s' f'; cbn [execute_children]; [intros [= <- <-]; split; [reflexivity|]; intros c v H; now apply not_elem_of_nil in H|]. destruct (t c) as [v|] eqn:Ec.
  - destruct (alloc f) as [ok f1]. destruct ok; cbn [negb]; [|destruct (execute_children t s l f1) as [[s1 e1] f2]; intros [= _ H _]; apply app_eq_nil in H as [_ H]; discriminate]. set (s0 := set_writes _ _ _). destruct (inherit s0 (links (record v)) f1) as [[s1 e1] f2] eqn:Ei. destruct (execute_children t s1 l f2) as [[s2 e2] f3] eqn:Ee. intros [= <- He <-]. apply app_eq_nil in He as [He1 He]. apply app_eq_nil in He as [He2 ->]. destruct (inherit_ok _ _ _ _ _ _ Ei) as [I1 I2]. destruct (IH _ _ _ _ Ee) as [X1 X2].
    assert (extends s s0) as X0 by (split; cbn; [intros ->; reflexivity|intros x Hx; now right]). split; [now transitivity s1; [transitivity s0|]|]. intros c' v' [->|Hc]%elem_of_cons Ev.
    + assert (v' = v) as -> by congruence. split; [apply X1, I1; cbn; left| |now apply stale_none]. intros b Hb Hw. apply (written_extends s1); auto. apply written_link in Hw as [Hw|Hw]; [|auto|exact Hb]. apply written_link; [exact Hb|]. left. apply I1. cbn. rewrite Hw. apply orb_true_r.
    + destruct (X2 _ _ Hc Ev) as [Y1 Y2 Y3]. split; auto. intros x Hx Hn. destruct (written s x) eqn:E; [|reflexivity]. rewrite <- (Y3 x Hx Hn). symmetry. apply (written_extends s); [exact Hn| |exact E]. now transitivity s0.
  - intros E. destruct (IH _ _ _ _ E) as [H1 H2]. split; [exact H1|]. intros c' v' [->|Hc]%elem_of_cons Ev; [congruence|auto].
Qed.

Lemma unneeded_submit t i : submit_ok t i -> (forall c, c ∈ commands i -> fst (hybris_polygon_record_prepasses t c 0) = 0) -> submitted_as t i i.
Proof. intros [Ha Hw] H. destruct (unneeded t _ Hw H) as [H1 H2]. split; [exact H1|now rewrite plain_groups|now left]. Qed.

Lemma unneeded_submit2 t i : submit2_ok t i -> (forall o, o ∈ commands2 i -> fst (hybris_polygon_record_prepasses t (i_handle o) 0) = 0) -> submitted2_as t i i.
Proof.
  intros [Ha Hw] H. destruct (unneeded t _ Hw) as [H1 H2]; [intros c (o & -> & Ho)%list_elem_of_fmap; auto|]. split; [intros o Ho; apply H1, list_elem_of_fmap_2, Ho|now rewrite plain_groups2|now left].
Qed.

Lemma no_count x : negb (x =? 0) = false -> x = 0.
Proof. intros H%negb_false_iff. now apply Z.eqb_eq. Qed.

(** C20: for the recordings [t] of the command buffers and the submissions [l] and [l2] in the two forms of the interface, where no command buffer of a conversion is itself submitted and the lists fit in 32 bits: when the call goes
    through, every structure given to the driver has, for each command buffer of the application in its order, first the closed command buffers that convert the indices of it and of its secondary command buffers, each once
    and with the device mask of the command buffer, then the command buffer itself; no secondary command buffer was recorded again since; and where something was added all waits are before all commands. When the call is
    refused, nothing is submitted, the result is an error, and the queue has no device, memory has run out, a conversion is not available, or the chain has a structure that cannot be copied. And a command buffer that executes
    secondary command buffers without an error has each of them linked at its epoch, counts their writes as its own, and has written none of the buffers whose indices they convert. *)
Theorem polygon_submit_exact (t : views) (l : list submit) (l2 : list submit2) (found : bool) (f : list bool) (V : forall i, i ∈ l -> submit_ok t i) (V2 : forall i, i ∈ l2 -> submit2_ok t i) :
  match hybris_polygon_submit t l found f with
  | Passed l' => Forall2 (submitted_as t) l l'
  | Refused r => r <> VK_SUCCESS /\ (found = false \/ false ∈ f \/ exists i, i ∈ l /\ blocked t i)
  end /\
  match hybris_polygon_submit2 t l2 found f with
  | Passed2 l' => Forall2 (submitted2_as t) l2 l'
  | Refused2 r => r <> VK_SUCCESS /\ (found = false \/ false ∈ f \/ exists i, i ∈ l2 /\ blocked2 t i)
  end /\
  forall s kids fe s' fe', hybris_polygon_record_execute t s kids fe = (s', [], fe') -> forall c v, c ∈ kids -> t c = Some v -> executed t s s' c v.
Proof.
  unfold hybris_polygon_submit, hybris_polygon_submit2, needed. split_and!.
  - destruct (existsb _ l) eqn:En; cbn [negb].
    + destruct found; [|split; [discriminate|now left]]. destruct (alloc f) as [ok f1] eqn:Ef. destruct (alloc_later _ _ _ Ef) as [L1 L2]. destruct ok; cbn [negb]; [|split; [discriminate|auto]]. destruct (change_submits t l f1) as [[r l'] f2] eqn:Ec. destruct (change_submits_ok t l V _ _ _ _ Ec) as (_ & H1 & H2). destruct (Z.eqb_spec r VK_SUCCESS) as [E|E]; [auto|]. split; [exact E|]. right. destruct (H2 E); auto.
    + apply Forall_Forall2_diag, Forall_forall. intros i Hi. apply unneeded_submit; [auto|]. intros c Hc. apply no_count. exact (existsb_none _ _ (existsb_none _ _ En i Hi) c Hc).
  - destruct (existsb _ l2) eqn:En; cbn [negb].
    + destruct found; [|split; [discriminate|now left]]. destruct (alloc f) as [ok f1] eqn:Ef. destruct (alloc_later _ _ _ Ef) as [L1 L2]. destruct ok; cbn [negb]; [|split; [discriminate|auto]]. destruct (change_submits2 t l2 f1) as [[r l'] f2] eqn:Ec. destruct (change_submits2_ok t l2 V2 _ _ _ _ Ec) as (_ & H1 & H2). destruct (Z.eqb_spec r VK_SUCCESS) as [E|E]; [auto|]. split; [exact E|]. right. destruct (H2 E); auto.
    + apply Forall_Forall2_diag, Forall_forall. intros i Hi. apply unneeded_submit2; [auto|]. intros c Hc. apply no_count. exact (existsb_none _ _ (existsb_none _ _ En i Hi) c Hc).
  - intros s kids fe s' fe'. unfold hybris_polygon_record_execute. destruct (execute_children t s kids fe) as [[s1 e1] f1] eqn:E. intros [= <- -> <-] c v Hc Ev. destruct (execute_children_ok _ _ _ _ _ _ E) as [_ H]. destruct (H c v Hc Ev) as [H1 H2 H3]. now split.
Qed.

(** Command buffer 100 converts indices in 60 and executes 101, which converts in 61 and has been recorded once; 102 has no conversions. *)
Definition sample_child : recording := set_pre sample_recording (PrepassState 71 61 false true).
Definition sample_parent : recording := set_pre sample_recording (PrepassState 70 60 false true).
Definition sample_children : views := fun c => if c =? 101 then Some (View 1 sample_child) else None.
Definition sample_executed : recording := fst (fst (hybris_polygon_record_execute sample_children sample_parent [101; 101] [])).
Definition sample_views : views := fun c => if c =? 100 then Some (View 5 sample_executed) else sample_children c.
Definition sample_submit : submit := Submit [102; 100] [0x800] [NKnown 1; NGroup [1; 3]; NOther 9].
Definition sample_submit2 : submit2 := Submit2 [Info2 102 1 true; Info2 100 3 true] [0x800].

Lemma polygon_submit_exact_witness : hybris_polygon_submit sample_views [sample_submit] true [] = Passed [Submit [102; 60; 61; 100] [0x10000] [NKnown 1; NGroup [1; 3; 3; 3]; NOther 9]] /\
  hybris_polygon_submit2 sample_views [sample_submit2] true [] = Passed2 [Submit2 [Info2 102 1 true; Info2 60 3 false; Info2 61 3 false; Info2 100 3 true] [0x10000]] /\
  hybris_polygon_submit sample_views [sample_submit] true [true; false] = Refused VK_ERROR_OUT_OF_HOST_MEMORY /\
  covered sample_views 100 /\ executed sample_children sample_parent sample_executed 101 (View 1 sample_child).
Proof.
  assert (forall c x, c ∈ [102; 100] -> x ∈ firsts sample_views c -> ~ x ∈ [102; 100]) as Ha.
  { intros c x [->|[->|H%not_elem_of_nil]%elem_of_cons]%elem_of_cons Hx; [vm_compute in Hx; now apply not_elem_of_nil in Hx| |contradiction]. change (firsts sample_views 100) with [60; 61] in Hx. apply elem_of_cons in Hx as [->|[->|H%not_elem_of_nil]%elem_of_cons]; [| |contradiction]; intros [H|[H|H%not_elem_of_nil]%elem_of_cons]%elem_of_cons; [discriminate|discriminate|contradiction|discriminate|discriminate|contradiction]. }
  destruct (polygon_submit_exact sample_views [sample_submit] [sample_submit2] true []) as (H1 & _ & _).
  { intros i ->%list_elem_of_singleton. split; [exact Ha|vm_compute; discriminate]. }
  { intros i ->%list_elem_of_singleton. split; [exact Ha|vm_compute; discriminate]. }
  destruct (polygon_submit_exact sample_children [] [] true [] ltac:(intros i H%not_elem_of_nil; contradiction) ltac:(intros i H%not_elem_of_nil; contradiction)) as (_ & _ & H3).
  split; [reflexivity|]. split; [reflexivity|]. split; [reflexivity|]. split.
  - change (hybris_polygon_submit sample_views [sample_submit] true []) with (Passed [Submit [102; 60; 61; 100] [0x10000] [NKnown 1; NGroup [1; 3; 3; 3]; NOther 9]]) in H1. inversion H1 as [|? ? ? ? [H _ _]]. apply H. right. left.
  - apply (H3 sample_parent [101; 101] [] sample_executed []); [reflexivity|left|reflexivity].
Defined.
End PolygonSubmit.
