(* ===== verification/LinkerPool.v ===== *)
(** * The linker's table of libraries (common/jb/linker.c, linker.h)

    [struct soinfo] and the pool of 128 of them behind the static [libdl_info]:
    the load-order list ([solist], [sonext]) and the free list threaded through
    [next].  Entry 0 of [so] is [libdl_info], entry [i + 1] is [sopool[i]]; a
    pointer is an index or null.  The linker runs under the caller's lock, so its
    operations are single steps. *)

From Stdlib Require Import ZArith Lia Bool.
From stdpp Require Import base numbers option list.
From S2P Require Import Prelude CStr StrL.

Open Scope Z_scope.
Open Scope outcome_scope.

Module LinkerPool.
Import CStr.

Definition SO_MAX : nat := 128.
Definition SOINFO_NAME_LEN : nat := 128.
Definition FLAG_LINKED : Z := 1.
Definition FLAG_ERROR : Z := 2.
Definition FLAG_EXE : Z := 4.

Record Elf_Sym := Sym { st_name : Z; st_value : Z; st_size : Z; st_info : Z; st_shndx : Z }.

(** The fields the modelled functions use.  [dynamic] is the table of (tag, value) pairs,
    a function pointer is 0 when null, and a null array is [None]. *)
Record soinfo := SoInfo {
  name : str; base : Z; size : Z; flags : Z; next : option nat; refcount : Z;
  dynamic : option (list (Z * Z));
  strtab : list Z; symtab : list Elf_Sym; nbucket : Z; nchain : Z; bucket : list Z; chain : list Z;
  preinit_array : option (list Z); preinit_array_count : Z;
  init_array : option (list Z); init_array_count : Z;
  fini_array : option (list Z); fini_array_count : Z;
  init_func : Z; fini_func : Z; constructors_called : bool }.

(** [memset(si, 0, sizeof(soinfo))] with a name. *)
Definition fresh (n : str) : soinfo := SoInfo n 0 0 0 None 0 None [] [] 0 0 [] [] None 0 None 0 None 0 0 0 false.

Definition set_next (p : option nat) (s : soinfo) : soinfo :=
  SoInfo (name s) (base s) (size s) (flags s) p (refcount s) (dynamic s) (strtab s) (symtab s) (nbucket s) (nchain s) (bucket s) (chain s)
    (preinit_array s) (preinit_array_count s) (init_array s) (init_array_count s) (fini_array s) (fini_array_count s)
    (init_func s) (fini_func s) (constructors_called s).
Definition set_refcount (r : Z) (s : soinfo) : soinfo :=
  SoInfo (name s) (base s) (size s) (flags s) (next s) r (dynamic s) (strtab s) (symtab s) (nbucket s) (nchain s) (bucket s) (chain s)
    (preinit_array s) (preinit_array_count s) (init_array s) (init_array_count s) (fini_array s) (fini_array_count s)
    (init_func s) (fini_func s) (constructors_called s).
Definition set_dynamic (d : option (list (Z * Z))) (s : soinfo) : soinfo :=
  SoInfo (name s) (base s) (size s) (flags s) (next s) (refcount s) d (strtab s) (symtab s) (nbucket s) (nchain s) (bucket s) (chain s)
    (preinit_array s) (preinit_array_count s) (init_array s) (init_array_count s) (fini_array s) (fini_array_count s)
    (init_func s) (fini_func s) (constructors_called s).
Definition set_called (c : bool) (s : soinfo) : soinfo :=
  SoInfo (name s) (base s) (size s) (flags s) (next s) (refcount s) (dynamic s) (strtab s) (symtab s) (nbucket s) (nchain s) (bucket s) (chain s)
    (preinit_array s) (preinit_array_count s) (init_array s) (init_array_count s) (fini_array s) (fini_array_count s)
    (init_func s) (fini_func s) c.

(** [solist] is always [&libdl_info]. *)
Record linker := Linker { so : list soinfo; socount : nat; freelist : option nat; sonext : nat }.
Definition solist : nat := 0%nat.

(** Access through a pointer; null and wild pointers are undefined. *)
Definition deref (l : list soinfo) (p : option nat) : outcome soinfo := let! i := of_option p in of_option (l !! i).
Definition upd (l : list soinfo) (i : nat) (f : soinfo -> soinfo) : outcome (list soinfo) :=
  let! s := of_option (l !! i) in Ok (<[i := f s]> l).

(** The first steps of [alloc_info]: an entry at the head of the free list. *)
Definition grow_freelist (st : linker) : outcome (option linker) :=
  match freelist st with
  | Some _ => Ok (Some st)
  | None =>
      if (socount st =? SO_MAX)%nat then Ok None
      else let i := S (socount st) in
           let! so := upd (so st) i (set_next None) in Ok (Some (Linker so (S (socount st)) (Some i) (sonext st)))
  end.

Definition alloc_info (st : linker) (n : str) : outcome (option nat * linker) :=
  if (SOINFO_NAME_LEN <=? length n)%nat then Ok (None, st) else
  let! grown := grow_freelist st in
  match grown with
  | None => Ok (None, st)
  | Some st =>
      let! si := of_option (freelist st) in
      let! s := of_option (so st !! si) in
      let! (buf, _) := StrL.strlcpy (replicate SOINFO_NAME_LEN 0) n SOINFO_NAME_LEN in
      let! nm := cstr buf in
      let l := <[si := fresh nm]> (so st) in
      let! l := upd l (sonext st) (set_next (Some si)) in
      let! l := upd l si (fun s => set_refcount 0 (set_next None s)) in
      Ok (Some si, Linker l (socount st) (next s) si)
  end.

(** [for(trav = solist; ...)]: the entry before [si], [None] when [si] is not in the list. *)
Fixpoint free_loop (fuel : nat) (l : list soinfo) (trav : option nat) (si : nat) (prev : option nat) : outcome (option (option nat)) :=
  match fuel with
  | O => Undef
  | S fuel =>
      match trav with
      | None => Ok None
      | Some t => if (t =? si)%nat then Ok (Some prev)
                  else let! s := of_option (l !! t) in free_loop fuel l (next s) si (Some t)
      end
  end.

Definition free_info (st : linker) (si : nat) : outcome linker :=
  let! found := free_loop (S (length (so st))) (so st) (Some solist) si None in
  match found with
  | None => Ok st
  | Some prev =>
      let! prev := of_option prev in
      let! s := of_option (so st !! si) in
      let! l := upd (so st) prev (set_next (next s)) in
      let sonext := if (si =? sonext st)%nat then prev else sonext st in
      let! l := upd l si (set_next (freelist st)) in
      Ok (Linker l (socount st) (Some si) sonext)
  end.

(** ** Invariant *)

(** The entries from pointer [p] to pointer [q], following [next]. *)
Fixpoint seg (l : list soinfo) (p : option nat) (js : list nat) (q : option nat) : Prop :=
  match js with
  | [] => p = q
  | j :: js => p = Some j /\ exists s, l !! j = Some s /\ seg l (next s) js q
  end.
Definition linked (l : list soinfo) (p : option nat) (js : list nat) : Prop := seg l p js None.

Record pool_inv (st : linker) (live free : list nat) : Prop := {
  i_len : length (so st) = 129%nat;
  i_count : (socount st <= SO_MAX)%nat;
  i_live : linked (so st) (Some solist) live;
  i_free : linked (so st) (freelist st) free;
  i_last : last live = Some (sonext st);
  i_all : live ++ free ≡ₚ seq 0 (S (socount st)) }.

(** [libdl_info] on ARM: the names, a symbol per function ([entry k] is the address of the [k]-th) and a hash table
    with one bucket. *)
Definition ANDROID_LIBDL_STRTAB : list Z :=
  [100; 108; 111; 112; 101; 110; 0] ++
  [100; 108; 99; 108; 111; 115; 101; 0] ++
  [100; 108; 115; 121; 109; 0] ++
  [100; 108; 101; 114; 114; 111; 114; 0] ++
  [100; 108; 97; 100; 100; 114; 0] ++
  [100; 108; 95; 105; 116; 101; 114; 97; 116; 101; 95; 112; 104; 100; 114; 0] ++
  [100; 108; 95; 117; 110; 119; 105; 110; 100; 95; 102; 105; 110; 100; 95; 101; 120; 105; 100; 120; 0] ++ [0].
Definition libdl_symbol (entry : nat -> Z) (k : nat) (n : Z) : Elf_Sym := Sym n (entry k) 0 (Z.shiftl 1 4) 1.
Definition libdl_symtab (entry : nat -> Z) : list Elf_Sym :=
  Sym (Z.of_nat (length ANDROID_LIBDL_STRTAB) - 1) 0 0 0 0 ::
  [libdl_symbol entry 0 0; libdl_symbol entry 1 7; libdl_symbol entry 2 15; libdl_symbol entry 3 21; libdl_symbol entry 4 29; libdl_symbol entry 5 36; libdl_symbol entry 6 52].
Definition libdl_buckets : list Z := [1].
Definition libdl_chains : list Z := [0; 2; 3; 4; 5; 6; 7; 0].
Definition libdl_name : str := [108; 105; 98; 100; 108; 46; 115; 111].
Definition libdl_info (entry : nat -> Z) : soinfo :=
  SoInfo libdl_name 0 0 FLAG_LINKED None 1 None ANDROID_LIBDL_STRTAB (libdl_symtab entry) 1 8 libdl_buckets libdl_chains None 0 None 0 None 0 0 0 false.

Definition initial (entry : nat -> Z) : linker := Linker (libdl_info entry :: replicate 128 (fresh [])) 0 None 0.

(** ** List segments *)

Lemma seg_app l p a b q : seg l p (a ++ b) q <-> exists r, seg l p a r /\ seg l r b q.
Proof.
  revert p. induction a as [|j a IH]; intros p; cbn [seg app].
  - split; [intros H; exists p; auto|intros (r & -> & H); exact H].
  - split.
    + intros (-> & s & Hs & H). apply IH in H as (r & H1 & H2). exists r. split; [split; [reflexivity|exists s; auto]|assumption].
    + intros (r & (-> & s & Hs & H1) & H2). split; [reflexivity|]. exists s. split; [assumption|]. apply IH. eauto.
Qed.

(** Entries whose links are unchanged form the same segment. *)
Lemma seg_ext l l' p js q :
  (forall j s, j ∈ js -> l !! j = Some s -> exists s', l' !! j = Some s' /\ next s' = next s) -> seg l p js q -> seg l' p js q.
Proof.
  revert p. induction js as [|j js IH]; intros p He; cbn [seg]; [done|]. intros (-> & s & Hs & H). split; [reflexivity|].
  destruct (He j s) as (s' & Hs' & Hn); [left|assumption|]. exists s'. split; [assumption|]. rewrite Hn. apply IH; [|assumption].
  intros k t Hk. apply He. now right.
Qed.

Lemma seg_in l p js q : seg l p js q -> forall j, j ∈ js -> exists s, l !! j = Some s.
Proof.
  revert p. induction js as [|j js IH]; intros p; cbn [seg]; intros H k Hk; [now apply not_elem_of_nil in Hk|].
  destruct H as (_ & s & Hs & H). apply elem_of_cons in Hk as [->|Hk]; eauto.
Qed.

(** Updates away from a segment, or of other fields, keep it. *)
Lemma seg_insert l p js q i s : i ∉ js -> seg l p js q -> seg (<[i := s]> l) p js q.
Proof.
  intros Hi. apply seg_ext. intros j t Hj Ht. exists t. split; [|reflexivity]. rewrite list_lookup_insert_ne; [assumption|]. intros ->. contradiction.
Qed.

Lemma seg_one l j q : seg l (Some j) [j] q <-> exists s, l !! j = Some s /\ next s = q.
Proof. cbn [seg]. split; [intros (_ & s & ? & ?)|intros (s & ? & ?)]; eauto. Qed.

Lemma free_loop_found l si : forall a b p pr fuel, (length a < fuel)%nat -> si ∉ a -> seg l p (a ++ si :: b) None ->
  free_loop fuel l p si pr = Ok (Some (match last a with Some x => Some x | None => pr end)).
Proof.
  induction a as [|j a IH]; intros b p pr fuel Hf Hs H; (destruct fuel as [|fuel]; [cbn in Hf; lia|]); cbn [free_loop app seg] in *.
  - destruct H as (-> & _). now rewrite Nat.eqb_refl.
  - destruct H as (-> & s & Hj & H). rewrite not_elem_of_cons in Hs. destruct Hs as [Hne Hs].
    rewrite (proj2 (Nat.eqb_neq j si)) by congruence. rewrite Hj. cbn [of_option obind]. cbn [length] in Hf.
    rewrite (IH b _ _ fuel ltac:(lia) Hs H). rewrite last_cons. now destruct (last a).
Qed.

Lemma free_loop_missing l si : forall js p pr fuel, (length js < fuel)%nat -> si ∉ js -> seg l p js None -> free_loop fuel l p si pr = Ok None.
Proof.
  induction js as [|j js IH]; intros p pr fuel Hf Hs H; (destruct fuel as [|fuel]; [cbn in Hf; lia|]); cbn [free_loop seg] in *.
  - now rewrite H.
  - destruct H as (-> & s & Hj & H). rewrite not_elem_of_cons in Hs. destruct Hs as [Hne Hs].
    rewrite (proj2 (Nat.eqb_neq j si)) by congruence. rewrite Hj. cbn [of_option obind length] in *. apply IH; auto. lia.
Qed.

Lemma split_last {A} (l : list A) x : last l = Some x -> exists a, l = a ++ [x].
Proof. induction l as [|y l IH] using rev_ind; [discriminate|]. rewrite last_snoc. intros [= ->]. eauto. Qed.

(** ** Allocation *)

(** Two tables agree up to the links, away from [i]. *)
Definition same_but (i : nat) (l l' : list soinfo) : Prop :=
  forall j s, j <> i -> l !! j = Some s -> exists q, l' !! j = Some (set_next q s).

Lemma set_next_same s : set_next (next s) s = s.
Proof. now destruct s. Qed.

Lemma upd_ok l i f s : l !! i = Some s -> upd l i f = Ok (<[i := f s]> l).
Proof. intros H. unfold upd. now rewrite H. Qed.

Lemma lookup_so st live free i : pool_inv st live free -> (i < 129)%nat -> exists s, so st !! i = Some s.
Proof. intros I Hi. apply lookup_lt_is_Some_2. rewrite (i_len _ _ _ I). exact Hi. Qed.

Lemma inv_nodup st live free : pool_inv st live free -> NoDup (live ++ free).
Proof. intros I. rewrite (i_all _ _ _ I). apply NoDup_seq. Qed.

Lemma inv_range st live free i : pool_inv st live free -> i ∈ live ++ free -> (i < 129)%nat.
Proof. intros I Hi. rewrite (i_all _ _ _ I), elem_of_seq in Hi. pose proof (i_count _ _ _ I). unfold SO_MAX in *. lia. Qed.

Lemma grow_ok st live free : pool_inv st live free ->
  exists r, grow_freelist st = Ok r /\
  match r with
  | None => length live = 129%nat
  | Some st' => exists si free', pool_inv st' live (si :: free') /\ freelist st' = Some si /\ sonext st' = sonext st /\ (si ∉ live) /\
      exists q, so st' = so st \/ exists s, so st !! si = Some s /\ so st' = <[si := set_next q s]> (so st)
  end.
Proof.
  intros I. pose proof (inv_nodup _ _ _ I) as Hnd. unfold grow_freelist. destruct (freelist st) as [f|] eqn:Ef.
  - exists (Some st). split; [reflexivity|]. pose proof (i_free _ _ _ I) as Hf. rewrite Ef in Hf. destruct free as [|si free]; [discriminate|].
    exists si, free. destruct Hf as ([= ->] & _). split_and!; auto; [|exists None; auto].
    intros Hin. apply NoDup_app in Hnd as (_ & Hd & _). apply (Hd si Hin). left.
  - pose proof (i_free _ _ _ I) as Hf. rewrite Ef in Hf. destruct free as [|si free]; [|now destruct Hf].
    pose proof (i_all _ _ _ I) as Ha. rewrite app_nil_r in Ha. destruct (Nat.eqb_spec (socount st) SO_MAX) as [Hm|Hm].
    + exists None. split; [reflexivity|]. rewrite Ha, length_seq. unfold SO_MAX in *. lia.
    + pose proof (i_count _ _ _ I) as Hc. unfold SO_MAX in *. set (i := S (socount st)).
      destruct (lookup_so st live [] i I) as [s Hs]; [lia|]. rewrite (upd_ok _ _ _ s Hs). cbn [obind]. eexists (Some _). split; [reflexivity|].
      assert (i ∉ live) as Hi by (rewrite Ha, elem_of_seq; lia).
      exists i, []. split_and!; [|reflexivity|reflexivity|assumption|exists None; right; exists s; split; [assumption|reflexivity]].
      constructor; cbn [so socount freelist sonext].
      * rewrite length_insert. apply (i_len _ _ _ I).
      * unfold SO_MAX. lia.
      * apply seg_insert; [assumption|apply (i_live _ _ _ I)].
      * apply seg_one. exists (set_next None s). rewrite list_lookup_insert_eq; [auto|apply lookup_lt_Some in Hs; exact Hs].
      * apply (i_last _ _ _ I).
      * rewrite Ha, (seq_S (S (socount st))). reflexivity.
Qed.

Lemma name_copied n : StrL.no_nul n -> (length n < 128)%nat ->
  exists buf k, StrL.strlcpy (replicate SOINFO_NAME_LEN 0) n SOINFO_NAME_LEN = Ok (buf, k) /\ cstr buf = Ok n.
Proof.
  intros Hn Hl. eexists _, _. split; [apply (StrL.strlcpy_spec (replicate 128 0) n 128 Hn); rewrite length_replicate; lia|].
  cbn match. rewrite take_ge by lia. unfold cstr. rewrite split_at_mid; [reflexivity|]. intros Hin.
  apply list_elem_of_In in Hin. exact (proj1 (List.Forall_forall _ _) Hn 0 Hin eq_refl).
Qed.

Lemma alloc_ok st live free n : pool_inv st live free -> StrL.no_nul n ->
  exists r st', alloc_info st n = Ok (r, st') /\
  match r with
  | None => st' = st /\ ((128 <= length n)%nat \/ length live = 129%nat)
  | Some i => (length n < 128)%nat /\ (i ∉ live) /\ same_but i (so st) (so st') /\ so st' !! i = Some (fresh n) /\
              exists free', pool_inv st' (live ++ [i]) free'
  end.
Proof.
  intros I Hn. unfold alloc_info. destruct (Nat.leb_spec SOINFO_NAME_LEN (length n)) as [Hl|Hl]; [eexists _, _; split; [reflexivity|]; split; [reflexivity|left; exact Hl]|].
  destruct (grow_ok st live free I) as (r & -> & Hr). cbn [obind]. destruct r as [st1|]; [|eexists None, st; split; [reflexivity|]; split; auto].
  destruct Hr as (si & free' & I1 & Ef & Es & Hsi & q & Hso). rewrite Ef. cbn [of_option obind].
  pose proof (i_free _ _ _ I1) as Hf. rewrite Ef in Hf. destruct Hf as (_ & s & Hs & Hf). rewrite Hs. cbn [of_option obind].
  destruct (name_copied n Hn Hl) as (buf & k & -> & Hcs). cbn [obind]. rewrite Hcs. cbn [obind].
  pose proof (inv_nodup _ _ _ I1) as Hnd. pose proof (i_live _ _ _ I1) as Hlive. pose proof (i_last _ _ _ I1) as Hlast.
  apply split_last in Hlast as [a Ea]. set (t := sonext st1) in *. rewrite Ea in Hlive. unfold linked in Hlive. apply seg_app in Hlive as (p & Ha & Ht).
  destruct Ht as (-> & ts & Hts & Htn). cbn [seg] in Htn.
  assert (t <> si) as Hne by (intros ->; apply Hsi; rewrite Ea, elem_of_app; right; left).
  assert (si < length (so st1))%nat as Hb by (apply lookup_lt_Some in Hs; exact Hs). assert (t < length (so st1))%nat as Hbt by (apply lookup_lt_Some in Hts; exact Hts).
  rewrite (upd_ok _ _ _ ts) by (rewrite list_lookup_insert_ne by congruence; exact Hts). cbn [obind].
  rewrite (upd_ok _ _ _ (fresh n)) by (rewrite list_lookup_insert_ne by congruence; apply list_lookup_insert_eq; lia). cbn [obind].
  eexists (Some si), _. split; [reflexivity|]. change (set_refcount 0 (set_next None (fresh n))) with (fresh n). cbn [so].
  set (l := <[si := fresh n]> (<[t := set_next (Some si) ts]> (<[si := fresh n]> (so st1)))).
  assert (l !! si = Some (fresh n)) as Lsi by (apply list_lookup_insert_eq; rewrite !length_insert; lia).
  assert (l !! t = Some (set_next (Some si) ts)) as Lt by (unfold l; rewrite list_lookup_insert_ne by congruence; apply list_lookup_insert_eq; rewrite length_insert; lia).
  assert (forall j, j <> si -> j <> t -> l !! j = so st1 !! j) as Lo by (intros; unfold l; now rewrite !list_lookup_insert_ne by congruence).
  split_and!; [exact Hl|assumption| |exact Lsi|].
  - intros j js Hj Hjs. assert (so st1 !! j = Some js) as Hj1.
    { destruct Hso as [->|(s0 & _ & ->)]; [exact Hjs|now rewrite list_lookup_insert_ne by congruence]. }
    destruct (decide (j = t)) as [->|Hjt].
    + exists (Some si). rewrite Lt. congruence.
    + exists (next js). rewrite (Lo j Hj Hjt), Hj1. now rewrite set_next_same.
  - exists free'. apply NoDup_app in Hnd as (Hn1 & Hd & Hn2). apply NoDup_cons in Hn2 as [Hsf Hn2].
    constructor; cbn [so socount freelist sonext].
    + unfold l. rewrite !length_insert. apply (i_len _ _ _ I1).
    + apply (i_count _ _ _ I1).
    + rewrite Ea, <- app_assoc. unfold linked. apply seg_app. exists (Some t). split.
      * refine (seg_ext _ _ _ _ _ _ Ha). intros j js Hj Hjs. exists js. split; [|reflexivity]. rewrite Lo; [assumption| |].
        -- intros ->. apply Hsi. rewrite Ea, elem_of_app. now left.
        -- intros ->. rewrite Ea in Hn1. apply NoDup_app in Hn1 as (_ & Hd' & _). apply (Hd' t Hj). left.
      * cbn [app seg]. split; [reflexivity|]. exists (set_next (Some si) ts). split; [exact Lt|]. split; [reflexivity|]. exists (fresh n). auto.
    + refine (seg_ext _ _ _ _ _ _ Hf). intros j js Hj Hjs. exists js. split; [|reflexivity]. rewrite Lo; [assumption| |].
      * intros ->. contradiction.
      * intros ->. apply (Hd t); [rewrite Ea, elem_of_app; right; left|now right].
    + apply last_snoc.
    + pose proof (i_all _ _ _ I1) as Hall. rewrite <- app_assoc. cbn [app]. exact Hall.
Qed.

(** ** Freeing *)

Lemma free_missing st live free si : pool_inv st live free -> si ∉ live -> free_info st si = Ok st.
Proof.
  intros I Hs. unfold free_info. rewrite (free_loop_missing (so st) si live); [reflexivity| |assumption|apply (i_live _ _ _ I)].
  assert (length (live ++ free) <= 129)%nat by (rewrite (i_all _ _ _ I), length_seq; pose proof (i_count _ _ _ I); unfold SO_MAX in *; lia).
  rewrite length_app in *. rewrite (i_len _ _ _ I). lia.
Qed.

Lemma live_head st live free : pool_inv st live free -> exists live', live = 0%nat :: live'.
Proof.
  intros I. pose proof (i_live _ _ _ I) as H. pose proof (i_last _ _ _ I) as Hl. destruct live as [|j live]; [discriminate|]. destruct H as ([= <-] & _). eauto.
Qed.

Lemma filter_without si js : si ∉ js -> List.filter (fun j => negb (j =? si)%nat) js = js.
Proof.
  induction js as [|j js IH]; intros Hj; [reflexivity|]. rewrite not_elem_of_cons in Hj. cbn [List.filter].
  rewrite (proj2 (Nat.eqb_neq j si)) by (intros ->; tauto). cbn [negb]. f_equal. tauto.
Qed.

Lemma free_ok st live free si : pool_inv st live free -> si ∈ live -> si <> 0%nat ->
  exists st', free_info st si = Ok st' /\ same_but si (so st) (so st') /\ pool_inv st' (List.filter (fun j => negb (j =? si)%nat) live) (si :: free).
Proof.
  intros I Hin Hnz. pose proof (inv_nodup _ _ _ I) as Hnd. apply NoDup_app in Hnd as (Hn1 & Hd & Hn2).
  apply list_elem_of_split in Hin as (a' & b & Elive). destruct (live_head _ _ _ I) as [live' E0].
  destruct a' as [|x a' _] using rev_ind; [rewrite E0 in Elive; cbn in Elive; congruence|]. clear E0 live'.
  rewrite Elive in Hn1. apply NoDup_app in Hn1 as (Hna & Hda & Hnb). apply NoDup_cons in Hnb as [Hsb Hnb]. apply NoDup_app in Hna as (Hna & Hxa & _).
  assert (si ∉ a' ++ [x]) as Hsa by (intros H; apply (Hda si H); left). rewrite not_elem_of_app, not_elem_of_cons in Hsa. destruct Hsa as (Hsa & Hsx & _).
  assert (x ∉ b) as Hxb by (intros H; apply (Hda x); [rewrite elem_of_app; right; left|now right]).
  assert (forall j, j ∈ a' -> j ∉ b) as Hab by (intros j Hj H; apply (Hda j); [rewrite elem_of_app; now left|now right]).
  assert (x ∉ a') as Hxa' by (intros H; apply (Hxa x H); left).
  pose proof (i_live _ _ _ I) as Hl. rewrite Elive in Hl. unfold free_info.
  rewrite (free_loop_found (so st) si (a' ++ [x]) b (Some solist) None); [|
    assert (length (live ++ free) <= 129)%nat by (rewrite (i_all _ _ _ I), length_seq; pose proof (i_count _ _ _ I); unfold SO_MAX in *; lia);
    rewrite Elive, !length_app in *; cbn [length] in *; rewrite (i_len _ _ _ I); lia
    |rewrite not_elem_of_app, not_elem_of_cons; split_and!; auto; apply not_elem_of_nil|exact Hl].
  rewrite last_snoc. cbn [of_option obind].
  unfold linked in Hl. rewrite <- app_assoc in Hl. apply seg_app in Hl as (p & Ha & Hl). cbn [app seg] in Hl.
  destruct Hl as (-> & xs & Hx & Hxn & ss & Hs & Hb). rewrite Hs. cbn [of_option obind]. rewrite (upd_ok _ _ _ xs Hx). cbn [obind].
  rewrite (upd_ok _ _ _ ss) by (rewrite list_lookup_insert_ne by congruence; exact Hs). cbn [obind]. eexists. split; [reflexivity|]. cbn [so].
  set (l := <[si := set_next (freelist st) ss]> (<[x := set_next (next ss) xs]> (so st))).
  assert (l !! si = Some (set_next (freelist st) ss)) as Lsi by (apply list_lookup_insert_eq; rewrite length_insert; apply lookup_lt_Some in Hs; exact Hs).
  assert (l !! x = Some (set_next (next ss) xs)) as Lx by (unfold l; rewrite list_lookup_insert_ne by congruence; apply list_lookup_insert_eq; apply lookup_lt_Some in Hx; exact Hx).
  assert (forall j, j <> si -> j <> x -> l !! j = so st !! j) as Lo by (intros; unfold l; now rewrite !list_lookup_insert_ne by congruence).
  assert (forall p js q, (forall j, j ∈ js -> j <> si /\ j <> x) -> seg (so st) p js q -> seg l p js q) as Ext.
  { intros p js q Hjs. apply seg_ext. intros j t Hj Ht. destruct (Hjs j Hj). exists t. rewrite Lo by assumption. auto. }
  assert (List.filter (fun j => negb (j =? si)%nat) live = a' ++ x :: b) as Ef.
  { rewrite Elive, !List.filter_app. cbn [List.filter]. rewrite Nat.eqb_refl, (proj2 (Nat.eqb_neq x si)) by congruence. cbn [negb].
    rewrite !filter_without by assumption. now rewrite <- app_assoc. }
  split.
  { intros j js Hj Hjs. destruct (decide (j = x)) as [->|Hjx]; [exists (next ss); rewrite Lx; congruence|].
    exists (next js). rewrite Lo, Hjs by assumption. now rewrite set_next_same. }
  rewrite Ef. constructor; cbn [so socount freelist sonext].
  - unfold l. rewrite !length_insert. apply (i_len _ _ _ I).
  - apply (i_count _ _ _ I).
  - unfold linked. apply seg_app. exists (Some x). split; [apply Ext; [|exact Ha]; intros j Hj; split; intros ->; contradiction|].
    cbn [seg]. split; [reflexivity|]. exists (set_next (next ss) xs). split; [exact Lx|]. apply Ext; [|exact Hb]. intros j Hj; split; intros ->; contradiction.
  - cbn [linked seg]. split; [reflexivity|]. exists (set_next (freelist st) ss). split; [exact Lsi|]. apply Ext; [|apply (i_free _ _ _ I)].
    intros j Hj. split; intros ->; eapply Hd; try exact Hj; rewrite Elive, !elem_of_app; [right; left|left; right; left].
  - pose proof (i_last _ _ _ I) as Hlast. rewrite Elive in Hlast. destruct b as [|y b _] using rev_ind.
    + rewrite last_snoc in Hlast. injection Hlast as <-. rewrite Nat.eqb_refl. apply last_snoc.
    + rewrite app_comm_cons, app_assoc, last_snoc in Hlast. injection Hlast as <-.
      destruct (Nat.eqb_spec si y) as [->|_]; [exfalso; apply Hsb; rewrite elem_of_app; right; left|].
      now rewrite app_comm_cons, app_assoc, last_snoc.
  - rewrite <- (i_all _ _ _ I), Elive. rewrite <- !app_assoc. cbn [app]. solve_Permutation.
Qed.

(** ** Sequences of operations *)

Inductive op := OAlloc (n : str) | OFree (si : nat).

Definition step (st : linker) (o : op) : outcome (option nat * linker) :=
  match o with
  | OAlloc n => alloc_info st n
  | OFree si => let! st := free_info st si in Ok (None, st)
  end.

Fixpoint run (st : linker) (os : list op) : outcome (list (option nat) * linker) :=
  match os with
  | [] => Ok ([], st)
  | o :: os => let! (a, st) := step st o in let! (xs, st) := run st os in Ok (a :: xs, st)
  end.

(** The libraries in load order: allocation appends a new entry, or fails when the name is too long
    or 129 libraries are loaded; freeing removes an entry, or nothing when it is not loaded. *)
Inductive spec_step (ls : list (nat * str)) : op -> option nat -> list (nat * str) -> Prop :=
| SAlloc (n : str) (i : nat) : (length n < SOINFO_NAME_LEN)%nat -> i ∉ ls.*1 -> spec_step ls (OAlloc n) (Some i) (ls ++ [(i, n)])
| SFull (n : str) : (SOINFO_NAME_LEN <= length n)%nat \/ length ls = S SO_MAX -> spec_step ls (OAlloc n) None ls
| SFree (i : nat) : spec_step ls (OFree i) None (List.filter (fun p => negb (p.1 =? i)%nat) ls).

Inductive spec_run : list (nat * str) -> list op -> list (option nat) -> list (nat * str) -> Prop :=
| RNil ls : spec_run ls [] [] ls
| RCons ls o a ls1 os xs ls2 : spec_step ls o a ls1 -> spec_run ls1 os xs ls2 -> spec_run ls (o :: os) (a :: xs) ls2.

Definition op_ok (o : op) : Prop := match o with OAlloc n => StrL.no_nul n | OFree i => i <> 0%nat end.

(** The list a state stands for. *)
Definition loaded (st : linker) (ls : list (nat * str)) : Prop :=
  (exists free, pool_inv st (ls.*1) free) /\ forall i n, (i, n) ∈ ls -> exists s, so st !! i = Some s /\ name s = n.

Lemma names_kept i l l' : same_but i l l' -> forall j n, j <> i -> (exists s, l !! j = Some s /\ name s = n) -> exists s, l' !! j = Some s /\ name s = n.
Proof. intros H j n Hj (s & Hs & Hn). destruct (H j s Hj Hs) as [q Hq]. eauto. Qed.

Lemma filter_fst i (ls : list (nat * str)) :
  (List.filter (fun p => negb (p.1 =? i)%nat) ls).*1 = List.filter (fun j => negb (j =? i)%nat) ls.*1.
Proof. induction ls as [|[j n] ls IH]; [reflexivity|]. cbn. destruct (j =? i)%nat; cbn; [assumption|now f_equal]. Qed.

Lemma elem_fst (i : nat) (n : str) (ls : list (nat * str)) : (i, n) ∈ ls -> i ∈ ls.*1.
Proof. intros H. apply list_elem_of_fmap. exists (i, n). auto. Qed.

Lemma pool_step_ok st ls o : loaded st ls -> op_ok o -> exists a st' ls', step st o = Ok (a, st') /\ spec_step ls o a ls' /\ loaded st' ls'.
Proof.
  intros [[free I] Hn] Ho. destruct o as [n|i]; cbn [step op_ok] in *.
  - destruct (alloc_ok st _ free n I Ho) as (r & st' & -> & Hr). destruct r as [i|].
    + destruct Hr as (Hl & Hi & Hsame & Hf & free' & I'). exists (Some i), st', (ls ++ [(i, n)]). split; [reflexivity|]. split; [now constructor|].
      split; [exists free'; now rewrite fmap_app|]. intros j m Hj. rewrite elem_of_app, list_elem_of_singleton in Hj. destruct Hj as [Hj|[= -> ->]]; [|eauto].
      apply (names_kept i _ _ Hsame); [|now apply Hn]. intros ->. now apply Hi, (elem_fst i m).
    + destruct Hr as [-> Hr]. exists None, st, ls. split; [reflexivity|]. split; [constructor; rewrite length_fmap in Hr; exact Hr|]. split; eauto.
  - destruct (decide (i ∈ ls.*1)) as [Hin|Hout].
    + destruct (free_ok st _ free i I Hin Ho) as (st' & -> & Hsame & I'). cbn [obind]. eexists _, _, _. split; [reflexivity|]. split; [constructor|].
      split; [exists (i :: free); now rewrite filter_fst|]. intros j m Hj. apply list_elem_of_In, List.filter_In in Hj as [Hj Hji]. apply list_elem_of_In in Hj.
      cbn in Hji. apply negb_true_iff, Nat.eqb_neq in Hji. apply (names_kept i _ _ Hsame); auto.
    + rewrite (free_missing st _ free i I Hout). cbn [obind]. eexists _, _, _. split; [reflexivity|]. split; [constructor|].
      assert (List.filter (fun p => negb (p.1 =? i)%nat) ls = ls) as ->; [|split; eauto].
      clear I Hn. induction ls as [|[j m] ls IH]; [reflexivity|]. cbn [fmap list_fmap fst] in Hout. rewrite not_elem_of_cons in Hout. cbn [List.filter fst].
      rewrite (proj2 (Nat.eqb_neq j i)) by (intros ->; tauto). cbn [negb]. f_equal. tauto.
Qed.

Lemma pool_run_ok : forall os st ls, loaded st ls -> Forall op_ok os ->
  exists xs st' ls', run st os = Ok (xs, st') /\ spec_run ls os xs ls' /\ loaded st' ls'.
Proof.
  induction os as [|o os IH]; intros st ls Hl Hos; cbn [run]; [exists [], st, ls; split_and!; [reflexivity|constructor|assumption]|].
  apply Forall_cons in Hos as [Ho Hos]. destruct (pool_step_ok st ls o Hl Ho) as (a & st1 & ls1 & -> & S1 & L1). cbn [obind].
  destruct (IH st1 ls1 L1 Hos) as (xs & st2 & ls2 & -> & S2 & L2). cbn [obind]. exists (a :: xs), st2, ls2. split_and!; [reflexivity|now apply (RCons _ _ _ ls1)|assumption].
Qed.

Lemma initial_loaded entry : loaded (initial entry) [(0%nat, libdl_name)].
Proof.
  split.
  - exists []. constructor; [reflexivity|unfold SO_MAX; cbn; lia| |reflexivity|reflexivity|reflexivity].
    split; [reflexivity|]. exists (libdl_info entry). split; reflexivity.
  - intros i n Hin. apply list_elem_of_singleton in Hin as [= -> ->]. exists (libdl_info entry). split; reflexivity.
Qed.

(** C16: every sequence of allocations and frees of library records, from the initial table, returns without
    a wild access; the load list and the free list stay disjoint, acyclic and together hold every entry handed
    out, [sonext] stays the last loaded library, and the table behaves as the list of loaded libraries in
    load order: an allocation appends an unused entry under its name and fails only for a long name or
    a full table, a free removes exactly its entry, and no other library's record changes. *)
Theorem soinfo_pool_refines (entry : nat -> Z) (os : list op) :
  Forall op_ok os -> exists xs st ls, run (initial entry) os = Ok (xs, st) /\ spec_run [(0%nat, libdl_name)] os xs ls /\ loaded st ls.
Proof. exact (pool_run_ok os (initial entry) _ (initial_loaded entry)). Qed.

Definition sample_ops : list op := [OAlloc [97]; OAlloc [98]; OFree 1%nat; OAlloc [99]; OFree 7%nat; OAlloc (replicate 128 97); OFree 2%nat; OAlloc [100]].

Lemma soinfo_pool_refines_witness :
  exists xs st ls, run (initial Z.of_nat) sample_ops = Ok (xs, st) /\ spec_run [(0%nat, libdl_name)] sample_ops xs ls /\ loaded st ls.
Proof.
  apply (soinfo_pool_refines Z.of_nat sample_ops). repeat (apply List.Forall_cons; [cbn; try lia; unfold StrL.no_nul; repeat constructor; discriminate|]). constructor.
Defined.

Example sample_ids : exists st, run (initial Z.of_nat) sample_ops = Ok ([Some 1; Some 2; None; Some 1; None; None; None; Some 2]%nat, st).
Proof. eexists. vm_compute. reflexivity. Qed.
End LinkerPool.
