(* ===== verification/LinkerLookup.v ===== *)
(** * Symbol lookup (common/jb/linker.c)

    The ELF hash, the search of one library's hash table, the search order of a
    relocation ([_do_lookup]) and of [dlsym] ([lookup]), and the searches by
    address.  A [DT_NEEDED] value holds, after linking, the pointer to the needed
    library's record: the index of [LinkerPool].  A walk that would not end runs
    out of fuel and is [Undef]; on well-formed tables it always ends. *)

From Stdlib Require Import ZArith Lia Bool.
From stdpp Require Import base numbers option list.
From S2P Require Import Prelude CStr StrL LinkerPool.

Open Scope Z_scope.
Open Scope outcome_scope.

Module LinkerLookup.
Import CStr LinkerPool.

Definition STB_GLOBAL : Z := 1.
Definition STB_WEAK : Z := 2.
Definition SHN_UNDEF : Z := 0.
Definition DT_NULL : Z := 0.
Definition DT_NEEDED : Z := 1.
Definition ELF32_ST_BIND (info : Z) : Z := Z.shiftr info 4.

Definition hash_step (h c : Z) : Z :=
  let h := u32 (u32 (Z.shiftl h 4) + c) in
  let g := Z.land h 0xf0000000 in
  let h := Z.lxor h g in
  Z.lxor h (Z.shiftr g 24).
Definition elfhash (n : str) : Z := fold_left hash_step n 0.

(** The string of a symbol. *)
Definition sym_name (si : soinfo) (s : Elf_Sym) : outcome str := cstr (drop (Z.to_nat (st_name s)) (strtab si)).

(** [ELF32_ST_BIND] global or weak, and defined in a section. *)
Definition binds (s : Elf_Sym) : bool :=
  ((ELF32_ST_BIND (st_info s) =? STB_GLOBAL) || (ELF32_ST_BIND (st_info s) =? STB_WEAK)) && negb (st_shndx s =? 0).

Fixpoint chain_loop (fuel : nat) (si : soinfo) (n : str) (i : Z) : outcome (option Z) :=
  match fuel with
  | O => Undef
  | S fuel =>
      if i =? 0 then Ok None else
      let! s := rd (symtab si) i in
      let! nm := sym_name si s in
      if (match strcmp nm n with Eq => true | _ => false end) && binds s then Ok (Some i)
      else let! i := rd (chain si) i in chain_loop fuel si n i
  end.

(** The index in the symbol table of the symbol found. *)
Definition _elf_lookup (si : soinfo) (hash : Z) (n : str) : outcome (option Z) :=
  if nbucket si =? 0 then Undef else
  let! i := rd (bucket si) (hash mod nbucket si) in
  chain_loop (S (length (chain si))) si n i.

Definition lookup_in_library (si : soinfo) (n : str) : outcome (option Z) := _elf_lookup si (elfhash n) n.

Definition validate_soinfo (p : Z) : bool := (0 <=? p) && (p <=? Z.of_nat SO_MAX).

(** The symbol and the library it was found in. *)
Fixpoint preload_loop (l : list soinfo) (hash : Z) (n : str) (ps : list nat) : outcome (option (nat * Z)) :=
  match ps with
  | [] => Ok None
  | p :: ps => let! lsi := of_option (l !! p) in
               let! s := _elf_lookup lsi hash n in
               match s with Some s => Ok (Some (p, s)) | None => preload_loop l hash n ps end
  end.

(** [Ok None] is the error return for a bad pointer, [Ok (Some r)] the result of the loop. *)
Fixpoint needed_loop (l : list soinfo) (hash : Z) (n : str) (d : list (Z * Z)) : outcome (option (option (nat * Z))) :=
  match d with
  | [] => Undef
  | (tag, v) :: d =>
      if tag =? DT_NULL then Ok (Some None)
      else if tag =? DT_NEEDED then
        if negb (validate_soinfo v) then Ok None else
        let! lsi := of_option (l !! Z.to_nat v) in
        let! s := _elf_lookup lsi hash n in
        match s with
        | Some s => let! sym := rd (symtab lsi) s in
                    if negb (st_shndx sym =? SHN_UNDEF) then Ok (Some (Some (Z.to_nat v, s))) else needed_loop l hash n d
        | None => needed_loop l hash n d
        end
      else needed_loop l hash n d
  end.

Definition _do_lookup (l : list soinfo) (preloads : list nat) (somain : option nat) (si : nat) (n : str) : outcome (option (nat * Z)) :=
  let hash := elfhash n in
  let! me := of_option (l !! si) in
  let! s := _elf_lookup me hash n in
  match s with
  | Some s => Ok (Some (si, s))
  | None =>
      let! r := preload_loop l hash n preloads in
      match r with
      | Some r => Ok (Some r)
      | None =>
          let! d := of_option (dynamic me) in
          let! r := needed_loop l hash n d in
          match r with
          | None => Ok None
          | Some (Some r) => Ok (Some r)
          | Some None =>
              match somain with
              | None => Ok None
              | Some m => let! lsi := of_option (l !! m) in
                          let! s := _elf_lookup lsi hash n in Ok (pair m <$> s)
              end
          end
      end
  end.

(** [dlsym]'s search from [start] along the load list. *)
Fixpoint lookup_loop (fuel : nat) (l : list soinfo) (hash : Z) (n : str) (si : option nat) : outcome (option (nat * Z)) :=
  match fuel with
  | O => Undef
  | S fuel =>
      match si with
      | None => Ok None
      | Some i =>
          let! s := of_option (l !! i) in
          if negb (Z.land (flags s) FLAG_ERROR =? 0) then lookup_loop fuel l hash n (next s) else
          let! r := _elf_lookup s hash n in
          match r with Some r => Ok (Some (i, r)) | None => lookup_loop fuel l hash n (next s) end
      end
  end.

Definition lookup (st : linker) (n : str) (start : option nat) : outcome (option (nat * Z)) :=
  lookup_loop (S (length (so st))) (so st) (elfhash n) n (match start with None => Some solist | Some _ => start end).

(** The first library of the load list that passes a test. *)
Fixpoint find_loop (fuel : nat) (test : soinfo -> bool) (l : list soinfo) (si : option nat) : outcome (option nat) :=
  match fuel with
  | O => Undef
  | S fuel =>
      match si with
      | None => Ok None
      | Some i => let! s := of_option (l !! i) in if test s then Ok (Some i) else find_loop fuel test l (next s)
      end
  end.

Definition find_containing_library (st : linker) (addr : Z) : outcome (option nat) :=
  find_loop (S (length (so st))) (fun s => (base s <=? addr) && (u32 (addr - base s) <? size s)) (so st) (Some solist).

Definition addr_to_name (st : linker) (addr : Z) : outcome str :=
  let! r := find_loop (S (length (so st))) (fun s => (base s <=? addr) && (addr <? u32 (base s + size s))) (so st) (Some solist) in
  match r with
  | Some i => let! s := of_option (so st !! i) in Ok (name s)
  | None => Ok []
  end.

Fixpoint containing_loop (todo : nat) (si : soinfo) (soaddr i : Z) : outcome (option Z) :=
  match todo with
  | O => Ok None
  | S todo =>
      let! s := rd (symtab si) i in
      if negb (st_shndx s =? SHN_UNDEF) && (st_value s <=? soaddr) && (soaddr <? u32 (st_value s + st_size s))
      then Ok (Some i) else containing_loop todo si soaddr (i + 1)
  end.

Definition find_containing_symbol (si : soinfo) (addr : Z) : outcome (option Z) :=
  containing_loop (Z.to_nat (nchain si)) si (u32 (addr - base si)) 0.

(** ** Well-formed tables *)

(** The symbols from [i] along the chain. *)
Fixpoint chained (si : soinfo) (i : Z) (js : list Z) : Prop :=
  match js with
  | [] => i = 0
  | j :: js => i = j /\ 0 < j < Z.of_nat (length (symtab si)) /\ exists m, rd (chain si) j = Ok m /\ chained si m js
  end.

Record table_ok (si : soinfo) : Prop := {
  t_bucket : 0 < nbucket si /\ length (bucket si) = Z.to_nat (nbucket si);
  t_names : forall j s, rd (symtab si) j = Ok s -> exists n, sym_name si s = Ok n;
  t_chains : forall b i, rd (bucket si) b = Ok i -> exists js, chained si i js /\ (length js <= length (chain si))%nat;
  t_hashed : forall j s n, 0 < j -> rd (symtab si) j = Ok s -> sym_name si s = Ok n -> binds s = true ->
    exists i js, rd (bucket si) (elfhash n mod nbucket si) = Ok i /\ chained si i js /\ j ∈ js }.

(** Symbol [j] of the library is a definition of [n]. *)
Definition defines (si : soinfo) (n : str) (j : Z) : Prop :=
  0 < j /\ exists s, rd (symtab si) j = Ok s /\ sym_name si s = Ok n /\ binds s = true.

(** ** One table *)

Lemma strcmp_test a b : (match strcmp a b with Eq => true | _ => false end) = true <-> a = b.
Proof.
  split; [|intros ->; now rewrite strcmp_refl]. destruct (strcmp a b) eqn:E; try discriminate. intros _. now apply strcmp_eq.
Qed.

Lemma chain_loop_ok si n : table_ok si -> forall js i fuel, chained si i js -> (length js < fuel)%nat ->
  exists r, chain_loop fuel si n i = Ok r /\
  match r with Some j => j ∈ js /\ defines si n j | None => forall j, j ∈ js -> ~ defines si n j end.
Proof.
  intros T. induction js as [|j js IH]; intros i fuel Hc Hf; (destruct fuel as [|fuel]; [cbn in Hf; lia|]); cbn [chain_loop chained] in *.
  - subst i. exists None. split; [reflexivity|]. intros j Hj. now apply not_elem_of_nil in Hj.
  - destruct Hc as (-> & Hj & m & Hm & Hc). rewrite (proj2 (Z.eqb_neq j 0)) by lia.
    destruct (rd_ok (symtab si) j) as (s & Hs & _); [lia|]. rewrite Hs. cbn [obind]. destruct (t_names si T j s Hs) as [nm Hnm]. rewrite Hnm. cbn [obind].
    destruct (_ && _) eqn:E.
    + apply andb_true_iff in E as [E1 E2]. apply strcmp_test in E1 as ->. exists (Some j). split; [reflexivity|]. split; [left|].
      split; [lia|]. exists s. auto.
    + rewrite Hm. cbn [obind length] in *. destruct (IH m fuel Hc ltac:(lia)) as (r & -> & Hr). exists r. split; [reflexivity|].
      destruct r as [k|]; [destruct Hr; split; [now right|assumption]|]. intros k [->|Hk]%elem_of_cons; [|now apply Hr].
      intros (_ & s' & Hs' & Hn' & Hb'). rewrite Hs in Hs'. injection Hs' as <-. rewrite Hnm in Hn'. injection Hn' as ->.
      rewrite (proj2 (strcmp_test n n) eq_refl), Hb' in E. discriminate.
Qed.

Lemma chained_unique si : forall js i js', chained si i js -> chained si i js' -> js = js'.
Proof.
  induction js as [|j js IH]; intros i [|j' js']; cbn [chained]; intros H H'; [reflexivity|lia|lia|].
  destruct H as (-> & _ & m & Hm & H), H' as (<- & _ & m' & Hm' & H'). rewrite Hm in Hm'. injection Hm' as <-. f_equal. eauto.
Qed.

(** The hash search agrees with a search of the whole symbol table. *)
Lemma elf_lookup_ok si n : table_ok si ->
  exists r, _elf_lookup si (elfhash n) n = Ok r /\ match r with Some j => defines si n j | None => forall j, ~ defines si n j end.
Proof.
  intros T. destruct (t_bucket si T) as [Hn Hl]. unfold _elf_lookup. rewrite (proj2 (Z.eqb_neq _ 0)) by lia.
  pose proof (Z.mod_pos_bound (elfhash n) (nbucket si) Hn). destruct (rd_ok (bucket si) (elfhash n mod nbucket si)) as (i & Hi & _); [lia|].
  rewrite Hi. cbn [obind]. destruct (t_chains si T _ _ Hi) as (js & Hc & Hlen).
  destruct (chain_loop_ok si n T js i (S (length (chain si))) Hc) as (r & -> & Hr); [lia|]. exists r. split; [reflexivity|].
  destruct r as [j|]; [now destruct Hr|]. intros j Hd. apply (Hr j); [|assumption]. destruct Hd as (Hj & s & Hs & Hnm & Hb).
  destruct (t_hashed si T j s n Hj Hs Hnm Hb) as (i' & js' & Hi' & Hc' & Hin). rewrite Hi in Hi'. injection Hi' as <-.
  now rewrite (chained_unique si js i js' Hc Hc').
Qed.

(** ** Search orders *)

(** [r] is the definition in the first library of [order] that has one. *)
Definition first_definition (l : list soinfo) (n : str) (order : list nat) (r : option (nat * Z)) : Prop :=
  match r with
  | Some (p, j) => exists before after si, order = before ++ p :: after /\ l !! p = Some si /\ defines si n j /\
      forall q sq k, q ∈ before -> l !! q = Some sq -> ~ defines sq n k
  | None => forall q sq k, q ∈ order -> l !! q = Some sq -> ~ defines sq n k
  end.

Definition libraries_ok (l : list soinfo) (order : list nat) : Prop := forall q, q ∈ order -> exists si, l !! q = Some si /\ table_ok si.

Lemma first_nil l n : first_definition l n [] None.
Proof. intros q sq k Hq. now apply not_elem_of_nil in Hq. Qed.

Lemma first_cons l n p si order r : l !! p = Some si ->
  (forall j, ~ defines si n j) -> first_definition l n order r -> first_definition l n (p :: order) r.
Proof.
  intros Hp Hno H. destruct r as [[q j]|]; cbn in *.
  - destruct H as (b & a & sq & -> & Hq & Hd & Hb). exists (p :: b), a, sq. split_and!; auto. intros q' sq' k [->|Hq']%elem_of_cons Hl; [|eauto].
    rewrite Hp in Hl. injection Hl as <-. apply Hno.
  - intros q sq k [->|Hq]%elem_of_cons Hl; [|eauto]. rewrite Hp in Hl. injection Hl as <-. apply Hno.
Qed.

Lemma first_hit l n p si order j : l !! p = Some si -> defines si n j -> first_definition l n (p :: order) (Some (p, j)).
Proof. intros Hp Hd. exists [], order, si. split_and!; auto. intros q sq k Hq. now apply not_elem_of_nil in Hq. Qed.

Lemma first_app l n a b r : first_definition l n a r -> (r = None -> first_definition l n b None) -> first_definition l n (a ++ b) r.
Proof.
  intros Ha Hb. destruct r as [[p j]|]; cbn in *.
  - destruct Ha as (x & y & si & -> & Hp & Hd & Hx). exists x, (y ++ b), si. split_and!; auto. now rewrite <- app_assoc.
  - intros q sq k [Hq|Hq]%elem_of_app; [eauto|now apply (Hb eq_refl)].
Qed.

Lemma first_app_r l n a b r : first_definition l n a None -> first_definition l n b r -> first_definition l n (a ++ b) r.
Proof.
  intros Ha Hb. destruct r as [[p j]|]; [|apply first_app; auto]. destruct Hb as (x & y & si & -> & Hp & Hd & Hx).
  exists (a ++ x), y, si. split_and!; auto; [now rewrite <- app_assoc|]. intros q sq k [Hq|Hq]%elem_of_app; [now apply Ha|now apply Hx].
Qed.

(** The needed libraries: the values of the [DT_NEEDED] entries before the end of the table. *)
Fixpoint needed (d : list (Z * Z)) : list nat :=
  match d with
  | [] => []
  | (tag, v) :: d => if tag =? DT_NULL then [] else if tag =? DT_NEEDED then Z.to_nat v :: needed d else needed d
  end.
Definition terminated (d : list (Z * Z)) : Prop := DT_NULL ∈ d.*1.
Definition needed_valid (d : list (Z * Z)) : Prop := forall v, (DT_NEEDED, v) ∈ d -> validate_soinfo v = true.

Lemma preload_loop_ok l n : forall ps, libraries_ok l ps ->
  exists r, preload_loop l (elfhash n) n ps = Ok r /\ first_definition l n ps r.
Proof.
  induction ps as [|p ps IH]; intros Hl; cbn [preload_loop]; [exists None; split; [reflexivity|apply first_nil]|].
  destruct (Hl p) as (si & Hp & T); [left|]. rewrite Hp. cbn [of_option obind]. destruct (elf_lookup_ok si n T) as (r & -> & Hr). cbn [obind].
  destruct r as [j|]; [exists (Some (p, j)); split; [reflexivity|now apply (first_hit l n p si)]|].
  destruct IH as (r & -> & Hf); [intros q Hq; apply Hl; now right|]. exists r. split; [reflexivity|now apply (first_cons l n p si)].
Qed.

Lemma needed_loop_ok l n : forall d, terminated d -> needed_valid d -> libraries_ok l (needed d) ->
  exists r, needed_loop l (elfhash n) n d = Ok (Some r) /\ first_definition l n (needed d) r.
Proof.
  induction d as [|[tag v] d IH]; intros Ht Hv Hl; cbn [needed_loop needed] in *; [unfold terminated in Ht; cbn in Ht; now apply not_elem_of_nil in Ht|].
  destruct (Z.eqb_spec tag DT_NULL) as [->|Hn]; [exists None; split; [reflexivity|apply first_nil]|].
  assert (terminated d) as Ht' by (unfold terminated in *; cbn in Ht; apply elem_of_cons in Ht as [E|Ht]; [congruence|assumption]).
  assert (needed_valid d) as Hv' by (intros w Hw; apply Hv; now right).
  destruct (Z.eqb_spec tag DT_NEEDED) as [->|Ht1]; [|auto]. rewrite (Hv v) by left. cbn [negb].
  destruct (Hl (Z.to_nat v)) as (si & Hp & T); [left|]. rewrite Hp. cbn [of_option obind]. destruct (elf_lookup_ok si n T) as (r & -> & Hr). cbn [obind].
  destruct r as [j|].
  - pose proof Hr as (_ & s & Hs & _ & Hb). rewrite Hs. cbn [obind]. unfold binds in Hb. apply andb_true_iff in Hb as [_ Hb]. unfold SHN_UNDEF. rewrite Hb.
    exists (Some (Z.to_nat v, j)). split; [reflexivity|now apply (first_hit l n _ si)].
  - destruct IH as (r & -> & Hf); [assumption|assumption|intros q Hq; apply Hl; now right|]. exists r. split; [reflexivity|now apply (first_cons l n _ si)].
Qed.

Definition scope (si : nat) (preloads : list nat) (d : list (Z * Z)) (somain : option nat) : list nat :=
  (si :: preloads) ++ needed d ++ match somain with Some m => [m] | None => [] end.

Lemma do_lookup_first (l : list soinfo) preloads somain (si : nat) me d (n : str) :
  l !! si = Some me -> dynamic me = Some d -> terminated d -> needed_valid d -> libraries_ok l (scope si preloads d somain) ->
  exists r, _do_lookup l preloads somain si n = Ok r /\ first_definition l n (scope si preloads d somain) r.
Proof.
  intros Hme Hd Ht Hv Hl. unfold _do_lookup, scope in *. rewrite Hme. cbn [of_option obind].
  destruct (Hl si) as (me' & Hme' & T); [left|]. rewrite Hme in Hme'. injection Hme' as <-.
  destruct (elf_lookup_ok me n T) as (r & -> & Hr). cbn [obind]. cbn [app].
  destruct r as [j|]; [eexists; split; [reflexivity|now apply (first_hit l n si me)]|].
  destruct (preload_loop_ok l n preloads) as (r1 & -> & H1); [intros q Hq; apply Hl; cbn [app]; right; rewrite elem_of_app; now left|]. cbn [obind].
  destruct r1 as [r1|]; [eexists; split; [reflexivity|]; apply (first_cons l n si me); auto; now apply first_app|].
  rewrite Hd. cbn [of_option obind].
  destruct (needed_loop_ok l n d Ht Hv) as (r2 & -> & H2); [intros q Hq; apply Hl; cbn [app]; right; rewrite !elem_of_app; tauto|]. cbn [obind].
  destruct r2 as [r2|].
  { eexists; split; [reflexivity|]. apply (first_cons l n si me); auto. apply first_app_r; [assumption|now apply first_app]. }
  destruct somain as [m|].
  - destruct (Hl m) as (mi & Hm & Tm); [cbn [app]; right; rewrite !elem_of_app; right; right; left|]. rewrite Hm. cbn [of_option obind].
    destruct (elf_lookup_ok mi n Tm) as (r3 & -> & H3). cbn [obind]. eexists. split; [reflexivity|]. apply (first_cons l n si me); auto.
    apply first_app_r; [assumption|]. apply first_app_r; [assumption|]. destruct r3 as [j|]; cbn [fmap option_fmap option_map].
    + now apply (first_hit l n m mi).
    + apply (first_cons l n m mi); auto. apply first_nil.
  - eexists. split; [reflexivity|]. apply (first_cons l n si me); auto. apply first_app_r; [assumption|]. apply first_app_r; [assumption|apply first_nil].
Qed.

(** C17: a relocation of library [si] resolves a name to the definition in the first
    library of its scope (itself, the preloads, its needed libraries in order, the main program) that has a
    global or weak definition, and to nothing only when none has one: the hash tables are searched
    without missing a symbol, and the search always ends. *)
Theorem relocation_lookup_order (l : list soinfo) preloads somain (si : nat) me d (n : str) :
  l !! si = Some me -> dynamic me = Some d -> terminated d -> needed_valid d -> libraries_ok l (scope si preloads d somain) ->
  exists r, _do_lookup l preloads somain si n = Ok r /\ first_definition l n (scope si preloads d somain) r.
Proof. apply do_lookup_first. Qed.

(** A library [n] defining the one-letter symbol [c], with needed libraries [ds]. *)
Definition sample_lib (n : str) (c : Z) (ds : list Z) (nx : option nat) : soinfo :=
  SoInfo n 0x1000 0x1000 FLAG_LINKED nx 1 (Some (((fun v => (DT_NEEDED, v)) <$> ds) ++ [(DT_NULL, 0)]))
    [0; c; 0] [Sym 0 0 0 0 0; Sym 1 0x40 4 0x12 3] 1 2 [1] [0; 0] None 0 None 0 None 0 0 0 false.
Definition sample_libs : list soinfo := [sample_lib [48] 97 [] (Some 1%nat); sample_lib [49] 98 [2] (Some 2%nat); sample_lib [50] 99 [] None].

Lemma sample_table n c ds nx : 0 < c -> table_ok (sample_lib n c ds nx).
Proof.
  intros Hc. assert (forall j s, rd [Sym 0 0 0 0 0; Sym 1 0x40 4 0x12 3] j = Ok s -> (j = 0 /\ s = Sym 0 0 0 0 0) \/ (j = 1 /\ s = Sym 1 0x40 4 0x12 3)) as Hrd.
  { intros j s. unfold rd. destruct (Z.ltb_spec j 0); [discriminate|]. destruct (Z.to_nat j) as [|[|k]] eqn:E; cbn; [| |destruct k; discriminate].
    - intros [= <-]. left. split; [lia|reflexivity].
    - intros [= <-]. right. split; [lia|reflexivity]. }
  assert (sym_name (sample_lib n c ds nx) (Sym 1 0x40 4 0x12 3) = Ok [c]) as Hnm.
  { unfold sym_name, cstr. change (drop _ _) with ([c] ++ 0 :: []). rewrite split_at_mid; [reflexivity|]. rewrite list_elem_of_singleton. lia. }
  assert (forall b i, rd [1] b = Ok i -> i = 1) as Hb.
  { intros b i. unfold rd. destruct (b <? 0); [discriminate|]. destruct (Z.to_nat b) as [|k]; cbn; [now intros [= <-]|destruct k; discriminate]. }
  assert (chained (sample_lib n c ds nx) 1 [1]) as Hch.
  { cbn. split; [reflexivity|]. split; [lia|]. exists 0. split; reflexivity. }
  constructor; cbn [symtab strtab nbucket bucket chain sample_lib].
  - split; [lia|reflexivity].
  - intros j s Hs. destruct (Hrd j s Hs) as [[_ ->]|[_ ->]]; [exists []; reflexivity|eauto].
  - intros b i ->%Hb. exists [1]. split; [exact Hch|cbn; lia].
  - intros j s m Hj Hs Hm _. destruct (Hrd j s Hs) as [[-> _]|[-> ->]]; [lia|]. exists 1, [1]. rewrite Z.mod_1_r. split_and!; [reflexivity|exact Hch|left].
Qed.

Lemma relocation_lookup_order_witness :
  exists r, _do_lookup sample_libs [] (Some 0%nat) 1 [99] = Ok r /\ first_definition sample_libs [99] [1; 2; 0]%nat r.
Proof.
  apply (relocation_lookup_order sample_libs [] (Some 0%nat) 1 (sample_lib [49] 98 [2] (Some 2%nat)) [(DT_NEEDED, 2); (DT_NULL, 0)] [99]).
  - reflexivity.
  - reflexivity.
  - right. left.
  - intros v Hv. apply elem_of_cons in Hv as [[= ->]|Hv]; [reflexivity|]. apply list_elem_of_singleton in Hv. discriminate.
  - intros q Hq. cbn in Hq. rewrite !elem_of_cons in Hq. destruct Hq as [->|[->|[->|Hq]]]; [..|now apply not_elem_of_nil in Hq];
      (eexists; split; [reflexivity|now apply sample_table]).
Defined.

Example sample_found : _do_lookup sample_libs [] (Some 0%nat) 1 [99] = Ok (Some (2%nat, 1)) /\ _do_lookup sample_libs [] (Some 0%nat) 1 [100] = Ok None.
Proof. split; vm_compute; reflexivity. Qed.

(** ** Searches along the load list *)

Definition usable (l : list soinfo) (i : nat) : bool := match l !! i with Some s => Z.land (flags s) FLAG_ERROR =? 0 | None => false end.

Lemma lookup_loop_ok l n : forall js p fuel, seg l p js None -> (length js < fuel)%nat -> libraries_ok l (List.filter (usable l) js) ->
  exists r, lookup_loop fuel l (elfhash n) n p = Ok r /\ first_definition l n (List.filter (usable l) js) r.
Proof.
  induction js as [|j js IH]; intros p fuel Hs Hf Hl; (destruct fuel as [|fuel]; [cbn in Hf; lia|]); cbn [lookup_loop seg List.filter] in *.
  - subst p. exists None. split; [reflexivity|apply first_nil].
  - destruct Hs as (-> & s & Hj & Hs). rewrite Hj. cbn [of_option obind length] in *. unfold usable in Hl at 1 |- * at 1. rewrite Hj in *.
    destruct (Z.land (flags s) FLAG_ERROR =? 0); cbn [negb].
    + destruct (Hl j) as (s' & Hj' & T); [left|]. rewrite Hj in Hj'. injection Hj' as <-. destruct (elf_lookup_ok s n T) as (r & -> & Hr). cbn [obind].
      destruct r as [k|]; [eexists; split; [reflexivity|now apply (first_hit l n j s)]|].
      destruct (IH (next s) fuel Hs ltac:(lia)) as (r & -> & Hr'); [intros q Hq; apply Hl; now right|]. exists r. split; [reflexivity|now apply (first_cons l n j s)].
    + apply IH; auto. lia.
Qed.

Lemma find_loop_ok test l : forall js p fuel, seg l p js None -> (length js < fuel)%nat ->
  find_loop fuel test l p = Ok (List.find (fun i => match l !! i with Some s => test s | None => false end) js).
Proof.
  induction js as [|j js IH]; intros p fuel Hs Hf; (destruct fuel as [|fuel]; [cbn in Hf; lia|]); cbn [find_loop seg List.find] in *.
  - now subst p.
  - destruct Hs as (-> & s & Hj & Hs). rewrite Hj. cbn [of_option obind length] in *. destruct (test s); [reflexivity|]. apply IH; auto. lia.
Qed.

Lemma live_short st live free : pool_inv st live free -> (length live < S (length (so st)))%nat.
Proof.
  intros I. pose proof (f_equal length (eq_refl (live ++ free))) as _. assert (length (live ++ free) <= 129)%nat.
  { rewrite (i_all _ _ _ I), length_seq. pose proof (i_count _ _ _ I). unfold SO_MAX in *. lia. }
  rewrite length_app in *. rewrite (i_len _ _ _ I). lia.
Qed.

(** The load list from its start, or from a library of it. *)
Definition suffix_from (live : list nat) (start : option nat) (js : list nat) : Prop :=
  match start with None => js = live | Some i => exists a js', live = a ++ js /\ js = i :: js' end.

(** In any reachable table, [dlsym]'s search from the beginning or from a library returns the
    definition in the first later library of the load list that loaded without error, and the search by
    address returns the first library whose range holds the address; both always end. *)
Theorem load_list_searches (st : linker) live free :
  pool_inv st live free ->
  (forall n start js, suffix_from live start js -> libraries_ok (so st) (List.filter (usable (so st)) js) ->
     exists r, lookup st n start = Ok r /\ first_definition (so st) n (List.filter (usable (so st)) js) r) /\
  (forall addr, in_range 32 addr -> (forall i s, so st !! i = Some s -> in_range 32 (base s) /\ in_range 32 (size s)) ->
     find_containing_library st addr =
     Ok (List.find (fun i => match so st !! i with Some s => bool_decide (base s <= addr < base s + size s) | None => false end) live)).
Proof.
  intros I. pose proof (live_short _ _ _ I) as Hlen. pose proof (i_live _ _ _ I) as Hs. unfold linked in Hs. split.
  - intros n start js Hj Hl. unfold lookup. destruct start as [i|]; cbn in Hj.
    + destruct Hj as (a & js' & -> & ->). apply seg_app in Hs as (p & _ & Hs). pose proof Hs as [-> _]. rewrite length_app in Hlen. cbn [length] in Hlen.
      apply lookup_loop_ok; [exact Hs|cbn; lia|exact Hl].
    + subst js. now apply lookup_loop_ok.
  - intros addr Ha Hr. unfold find_containing_library. rewrite (find_loop_ok _ (so st) live); [|exact Hs|exact Hlen]. f_equal.
    clear Hs Hlen I. induction live as [|i live IH]; [reflexivity|]. cbn [List.find].
    assert ((match so st !! i with Some s => (base s <=? addr) && (u32 (addr - base s) <? size s) | None => false end) =
            (match so st !! i with Some s => bool_decide (base s <= addr < base s + size s) | None => false end)) as ->; [|now rewrite IH].
    destruct (so st !! i) as [s|] eqn:E; [|reflexivity]. destruct (Hr i s E) as [Hb Hz]. unfold in_range in *.
    destruct (Z.leb_spec (base s) addr) as [Hle|Hgt]; cbn [andb].
    + assert (u32 (addr - base s) = addr - base s) as -> by (apply wrap_small; unfold in_range; lia).
      destruct (Z.ltb_spec (addr - base s) (size s)); symmetry; [apply bool_decide_eq_true_2|apply bool_decide_eq_false_2]; lia.
    + symmetry. apply bool_decide_eq_false_2. lia.
Qed.

Definition sample_linker : linker := Linker (sample_libs ++ replicate 126 (fresh [])) 2 None 2.

Lemma sample_inv : pool_inv sample_linker [0; 1; 2]%nat [].
Proof.
  constructor; [reflexivity|unfold SO_MAX; cbn; lia| |reflexivity|reflexivity|reflexivity].
  split; [reflexivity|]. eexists. split; [reflexivity|]. split; [reflexivity|]. eexists. split; [reflexivity|]. split; [reflexivity|]. eexists. split; [reflexivity|]. reflexivity.
Qed.

Lemma load_list_searches_witness :
  exists r, lookup sample_linker [98] (Some 1%nat) = Ok r /\
    first_definition (so sample_linker) [98] (List.filter (usable (so sample_linker)) [1; 2]%nat) r.
Proof.
  apply (load_list_searches sample_linker [0; 1; 2]%nat [] sample_inv).
  - exists [0%nat], [2%nat]. split; reflexivity.
  - intros q Hq. replace (List.filter (usable (so sample_linker)) [1; 2]%nat) with [1; 2]%nat in Hq by (vm_compute; reflexivity). rewrite !elem_of_cons in Hq. destruct Hq as [->|[->|Hq]]; [..|now apply not_elem_of_nil in Hq];
      (eexists; split; [reflexivity|now apply sample_table]).
Defined.

(** ** The hash *)

(** The hash function of the System V ABI. *)
Definition abi_step (h c : Z) : Z :=
  let h := u32 (16 * h + c) in
  let g := Z.land h 0xf0000000 in
  let h := if g =? 0 then h else Z.lxor h (Z.shiftr g 24) in
  Z.land h (Z.lxor (2 ^ 32 - 1) g).
Definition abi_hash (n : str) : Z := fold_left abi_step n 0.

Lemma hash_step_abi h c : hash_step h c = abi_step h c.
Proof.
  unfold hash_step, abi_step. rewrite Z.shiftl_mul_pow2, (Z.mul_comm h) by lia. change (2 ^ 4) with 16.
  assert (u32 (u32 (16 * h) + c) = u32 (16 * h + c)) as -> by apply (Zplus_mod_idemp_l (16 * h) c (2 ^ 32)).
  set (x := u32 (16 * h + c)). assert (in_range 32 x) as Hx by (apply wrap_range; lia).
  assert (Z.lxor (Z.lxor x (Z.land x 0xf0000000)) (Z.shiftr (Z.land x 0xf0000000) 24) =
    Z.land (Z.lxor x (Z.shiftr (Z.land x 0xf0000000) 24)) (Z.lxor (2 ^ 32 - 1) (Z.land x 0xf0000000))) as E.
  { apply Z.bits_inj'. intros i Hi. repeat first [rewrite Z.lxor_spec|rewrite Z.land_spec|rewrite Z.shiftr_spec by lia].
    destruct (Z.le_gt_cases 32 i) as [Hh|Hl].
    - rewrite (testbit_high 32 x i), (testbit_high 32 x (i + 24)) by (auto; lia). reflexivity.
    - assert (0 <= i < 32) as Hr by lia. clear Hi Hl. assert (exists k, (k < 32)%nat /\ i = Z.of_nat k) as (k & Hk & ->) by (exists (Z.to_nat i); lia).
      do 32 (destruct k as [|k]; [cbn; destruct (Z.testbit x _); try reflexivity; rewrite ?andb_true_r, ?andb_false_r; try reflexivity; try (destruct (Z.testbit x _); reflexivity)|]). lia. }
  destruct (Z.eqb_spec (Z.land x 0xf0000000) 0) as [E0|_]; [|exact E]. rewrite E0. change (Z.shiftr 0 24) with 0. rewrite !Z.lxor_0_r. change (2 ^ 32 - 1) with (Z.ones 32). rewrite Z.land_ones by lia. symmetry. now apply (wrap_small 32).
Qed.

Lemma elfhash_abi n : elfhash n = abi_hash n.
Proof.
  unfold elfhash, abi_hash. generalize 0. induction n as [|c n IH]; intros h; [reflexivity|]. cbn [fold_left]. now rewrite hash_step_abi, IH.
Qed.
End LinkerLookup.
