(* ===== verification/LinkerInit.v ===== *)
(** * Constructors and destructors (common/jb/linker.c)

    [call_array], [call_constructors_recursive] and [call_destructors].  A called
    function is an event; that the function may itself load
    libraries is not represented.  The recursion follows [DT_NEEDED] and is cut by
    the [constructors_called] flag: it ends on every table, cyclic ones included,
    within as many levels as there are libraries. *)

From Stdlib Require Import ZArith Lia Bool.
From stdpp Require Import base numbers option list.
From S2P Require Import Prelude CStr LinkerPool LinkerLookup.

Open Scope Z_scope.
Open Scope outcome_scope.

Module LinkerInit.
Import CStr LinkerPool LinkerLookup.

Definition libc_name : str := [108; 105; 98; 99; 46; 115; 111].

(** [(int) func == 0 || (int) func == -1] is skipped. *)
Definition runnable (f : Z) : bool := negb (f =? 0) && negb (f =? 2 ^ 32 - 1).

Fixpoint call_loop (n : nat) (ctor : list Z) (i inc : Z) : outcome (list Z) :=
  match n with
  | O => Ok []
  | S n => let! func := rd ctor i in
           let! fs := call_loop n ctor (i + inc) inc in
           Ok (if runnable func then func :: fs else fs)
  end.

(** The functions called, in order; a null array is only valid with no elements. *)
Definition call_array (ctor : option (list Z)) (count : Z) (reverse : bool) : outcome (list Z) :=
  let a := default [] ctor in
  if reverse then call_loop (Z.to_nat count) a (count - 1) (-1) else call_loop (Z.to_nat count) a 0 1.

(** A call: the library, whether from its [preinit_array], and the function. *)
Inductive phase := Preinit | Init.
Record event := Called { ev_lib : nat; ev_phase : phase; ev_func : Z }.

(** The loop over the dependencies; [rec] is the recursive call. *)
Fixpoint needed_constructors (rec : list soinfo -> nat -> outcome (list soinfo * list event)) (d : list (Z * Z)) (l : list soinfo)
  : outcome (list soinfo * list event) :=
  match d with
  | [] => Undef
  | (tag, v) :: d =>
      if tag =? DT_NULL then Ok (l, [])
      else if (tag =? DT_NEEDED) && validate_soinfo v then
        let! (l, ev) := rec l (Z.to_nat v) in
        let! (l, ev') := needed_constructors rec d l in Ok (l, ev ++ ev')
      else needed_constructors rec d l
  end.

Definition tagged (i : nat) (p : phase) (fs : list Z) : list event := Called i p <$> fs.

Fixpoint call_constructors_recursive (fuel : nat) (l : list soinfo) (i : nat) : outcome (list soinfo * list event) :=
  match fuel with
  | O => Undef
  | S fuel =>
      let! s := of_option (l !! i) in
      if constructors_called s then Ok (l, []) else
      if bool_decide (name s = libc_name) then Ok (l, []) else
      let l := <[i := set_called true s]> l in
      let! pre := (if negb (Z.land (flags s) FLAG_EXE =? 0) then call_array (preinit_array s) (preinit_array_count s) false else Ok []) in
      let! (l, deps) := (match dynamic s with
                         | Some d => needed_constructors (call_constructors_recursive fuel) d l
                         | None => Ok (l, [])
                         end) in
      let init := if init_func s =? 0 then [] else [init_func s] in
      let! arr := (match init_array s with Some _ => call_array (init_array s) (init_array_count s) false | None => Ok [] end) in
      Ok (l, tagged i Preinit pre ++ deps ++ tagged i Init (init ++ arr))
  end.

Definition call_destructors (s : soinfo) : outcome (list Z) :=
  let! arr := (match fini_array s with Some _ => call_array (fini_array s) (fini_array_count s) true | None => Ok [] end) in
  Ok (arr ++ if fini_func s =? 0 then [] else [fini_func s]).

(** ** Specification *)

(** The functions of an array that are called. *)
Definition listed (a : option (list Z)) (count : Z) : list Z := List.filter runnable (take (Z.to_nat count) (default [] a)).

Definition init_functions (s : soinfo) : list Z :=
  (if init_func s =? 0 then [] else [init_func s]) ++ match init_array s with Some _ => listed (init_array s) (init_array_count s) | None => [] end.
Definition preinit_functions (s : soinfo) : list Z :=
  if negb (Z.land (flags s) FLAG_EXE =? 0) then listed (preinit_array s) (preinit_array_count s) else [].

Fixpoint valid_needed (d : list (Z * Z)) : list nat :=
  match d with
  | [] => []
  | (tag, v) :: d => if tag =? DT_NULL then [] else if (tag =? DT_NEEDED) && validate_soinfo v then Z.to_nat v :: valid_needed d else valid_needed d
  end.
Definition deps (s : soinfo) : list nat := match dynamic s with Some d => valid_needed d | None => [] end.

Record lib_ok (s : soinfo) : Prop := {
  o_dynamic : forall d, dynamic s = Some d -> terminated d;
  o_preinit : 0 <= preinit_array_count s <= Z.of_nat (length (default [] (preinit_array s)));
  o_init : 0 <= init_array_count s <= Z.of_nat (length (default [] (init_array s)));
  o_fini : 0 <= fini_array_count s <= Z.of_nat (length (default [] (fini_array s))) }.

(** Every library is sound and its valid dependencies are libraries of the table. *)
Definition table_sound (l : list soinfo) : Prop :=
  forall i s, l !! i = Some s -> lib_ok s /\ forall k, k ∈ deps s -> (k < length l)%nat.

(** ** Arrays *)

Lemma call_loop_forward a : forall n i, (i + n <= length a)%nat -> call_loop n a (Z.of_nat i) 1 = Ok (List.filter runnable (take n (drop i a))).
Proof.
  induction n as [|n IH]; intros i Hi; cbn [call_loop]; [reflexivity|]. destruct (rd_ok a (Z.of_nat i)) as (f & -> & Hf); [lia|].
  rewrite Nat2Z.id in Hf. cbn [obind]. replace (Z.of_nat i + 1) with (Z.of_nat (S i)) by lia. rewrite IH by lia. cbn [obind].
  rewrite (drop_S _ _ _ Hf). reflexivity.
Qed.

Lemma call_loop_backward a : forall n, (n <= length a)%nat -> call_loop n a (Z.of_nat n - 1) (-1) = Ok (rev (List.filter runnable (take n a))).
Proof.
  induction n as [|n IH]; intros Hn; cbn [call_loop]; [reflexivity|]. destruct (rd_ok a (Z.of_nat (S n) - 1)) as (f & -> & Hf); [lia|].
  replace (Z.to_nat (Z.of_nat (S n) - 1)) with n in Hf by lia. cbn [obind]. replace (Z.of_nat (S n) - 1 + -1) with (Z.of_nat n - 1) by lia.
  rewrite IH by lia. cbn [obind]. rewrite (take_S_r _ _ _ Hf), List.filter_app, rev_app_distr. cbn [List.filter]. now destruct (runnable f).
Qed.

Lemma call_array_forward a count : 0 <= count <= Z.of_nat (length (default [] a)) -> call_array a count false = Ok (listed a count).
Proof. intros H. unfold call_array, listed. change 0 with (Z.of_nat 0). rewrite call_loop_forward by lia. now rewrite drop_0. Qed.

Lemma call_array_backward a count : 0 <= count <= Z.of_nat (length (default [] a)) -> call_array a count true = Ok (rev (listed a count)).
Proof.
  intros H. unfold call_array, listed. replace count with (Z.of_nat (Z.to_nat count)) at 2 by lia. now rewrite call_loop_backward by lia.
Qed.

(** ** The recursion *)

(** The libraries of [order] get their flag, nothing else changes. *)
Definition marks (l : list soinfo) (order : list nat) (l' : list soinfo) : Prop :=
  length l' = length l /\ forall j s, l !! j = Some s -> l' !! j = Some (if decide (j ∈ order) then set_called true s else s).

Definition done (l : list soinfo) (k : nat) : Prop := exists s, l !! k = Some s /\ (name s = libc_name \/ constructors_called s = true).
Definition of_lib (f : soinfo -> list Z) (p : phase) (l : list soinfo) (j : nat) : list event :=
  match l !! j with Some s => tagged j p (f s) | None => [] end.
Definition in_phase (p : phase) (ev : list event) : list event :=
  List.filter (fun e => match p, ev_phase e with Preinit, Preinit | Init, Init => true | _, _ => false end) ev.
Definition acyclic (rank : nat -> nat) (l : list soinfo) : Prop := forall j s k, l !! j = Some s -> k ∈ deps s -> (rank k < rank j)%nat.

(** What processing the libraries [roots] does: [order] lists the libraries initialised, in completion order. *)
Record initialises (l : list soinfo) (roots : list nat) (l' : list soinfo) (ev : list event) (order : list nat) : Prop := {
  s_marks : marks l order l';
  s_nodup : NoDup order;
  s_new : forall j, j ∈ order -> exists s, l !! j = Some s /\ constructors_called s = false /\ name s <> libc_name;
  s_init : in_phase Init ev = concat (of_lib init_functions Init l <$> order);
  s_pre : in_phase Preinit ev ≡ₚ concat (of_lib preinit_functions Preinit l <$> order);
  s_roots : forall k, k ∈ roots -> done l' k;
  s_deps : forall rank, acyclic rank l ->
    (forall j, j ∈ order -> exists k, k ∈ roots /\ (rank j <= rank k)%nat) /\
    forall a j b s k, order = a ++ j :: b -> l !! j = Some s -> k ∈ deps s -> k ∈ a \/ done l k }.

Lemma marks_nil l : marks l [] l.
Proof. split; [reflexivity|]. intros j s Hj. destruct (decide (j ∈ [])) as [H|]; [now apply not_elem_of_nil in H|assumption]. Qed.

Lemma marks_app l o1 l1 o2 l2 : marks l o1 l1 -> marks l1 o2 l2 -> marks l (o1 ++ o2) l2.
Proof.
  intros [L1 M1] [L2 M2]. split; [congruence|]. intros j s Hj. rewrite (M2 j _ (M1 j s Hj)).
  destruct (decide (j ∈ o1)) as [H1|H1], (decide (j ∈ o2)) as [H2|H2], (decide (j ∈ o1 ++ o2)) as [H3|H3]; rewrite elem_of_app in H3; try tauto; reflexivity.
Qed.

Lemma marks_back l o l' j s' : marks l o l' -> l' !! j = Some s' -> exists s, l !! j = Some s /\ (s' = s \/ (j ∈ o /\ s' = set_called true s)).
Proof.
  intros [L M] Hj. destruct (lookup_lt_is_Some_2 l j) as [s Hs]; [rewrite <- L; now apply lookup_lt_Some in Hj|]. exists s. split; [assumption|].
  rewrite (M j s Hs) in Hj. destruct (decide (j ∈ o)); injection Hj as <-; auto.
Qed.

Lemma marks_fields {A} (f : soinfo -> A) l o l' : marks l o l' -> (forall s, f (set_called true s) = f s) ->
  forall j, f <$> l' !! j = f <$> l !! j.
Proof.
  intros M Hf j. destruct (l !! j) as [s|] eqn:E.
  - rewrite (proj2 M j s E). cbn. now destruct (decide _); rewrite ?Hf.
  - destruct (l' !! j) as [s'|] eqn:E'; [|reflexivity]. destruct (marks_back l o l' j s' M E') as (s & Hs & _). congruence.
Qed.

Lemma marks_done l o l' k : marks l o l' -> done l k -> done l' k.
Proof.
  intros M (s & Hs & H). pose proof (proj2 M k s Hs) as Hk. eexists. split; [exact Hk|]. destruct (decide _); [|assumption]. now right.
Qed.

Lemma marks_new l o l' k : marks l o l' -> k ∈ o -> (k < length l)%nat -> done l' k.
Proof.
  intros M Hk Hl. destruct (lookup_lt_is_Some_2 l k Hl) as [s Hs]. pose proof (proj2 M k s Hs) as H. destruct (decide (k ∈ o)); [|contradiction].
  eexists. split; [exact H|now right].
Qed.

Lemma lib_ok_called s : lib_ok s -> lib_ok (set_called true s).
Proof. intros [? ? ? ?]. now constructor. Qed.

Lemma marks_sound l o l' : marks l o l' -> table_sound l -> table_sound l'.
Proof.
  intros M T j s' Hj. destruct (marks_back l o l' j s' M Hj) as (s & Hs & [->|[_ ->]]); destruct (T j s Hs) as [O D]; rewrite (proj1 M);
    (split; [now try apply lib_ok_called|assumption]).
Qed.

Lemma of_lib_marks f p l o l' : marks l o l' -> (forall s, f (set_called true s) = f s) -> forall j, of_lib f p l' j = of_lib f p l j.
Proof.
  intros M Hf j. unfold of_lib. pose proof (marks_fields f l o l' M Hf j) as E. destruct (l !! j), (l' !! j); cbn in E; congruence.
Qed.

Lemma acyclic_marks rank l o l' : marks l o l' -> acyclic rank l -> acyclic rank l'.
Proof.
  intros M H j s' k Hj Hk. destruct (marks_back l o l' j s' M Hj) as (s & Hs & [->|[_ ->]]); exact (H j s k Hs Hk).
Qed.

Lemma initialises_nil l ks : (forall k, k ∈ ks -> done l k) -> initialises l ks l [] [].
Proof.
  intros H. constructor; [apply marks_nil|constructor| |reflexivity|reflexivity|assumption|].
  - intros j Hj. now apply not_elem_of_nil in Hj.
  - intros rank _. split; [intros j Hj; now apply not_elem_of_nil in Hj|]. intros a j b s k E. now destruct a.
Qed.

Lemma in_phase_app p a b : in_phase p (a ++ b) = in_phase p a ++ in_phase p b.
Proof. apply List.filter_app. Qed.

Lemma concat_ext {A B} (f g : A -> list B) l : (forall x, f x = g x) -> concat (f <$> l) = concat (g <$> l).
Proof. intros H. f_equal. apply list_fmap_ext. intros; apply H. Qed.

(** One root after another. *)
Lemma initialises_app l k l1 e1 o1 ks l2 e2 o2 :
  initialises l [k] l1 e1 o1 -> initialises l1 ks l2 e2 o2 -> initialises l (k :: ks) l2 (e1 ++ e2) (o1 ++ o2).
Proof.
  intros I1 I2. pose proof (s_marks _ _ _ _ _ I1) as M1. constructor.
  - apply (marks_app l o1 l1); [assumption|apply I2].
  - apply NoDup_app. split_and!; [apply I1| |apply I2]. intros j H1 H2. destruct (s_new _ _ _ _ _ I2 j H2) as (s & Hs & Hc & _).
    destruct (s_new _ _ _ _ _ I1 j H1) as (s0 & Hs0 & _ & _). rewrite (proj2 M1 j s0 Hs0) in Hs. destruct (decide (j ∈ o1)); [|contradiction]. injection Hs as <-. discriminate.
  - intros j [Hj|Hj]%elem_of_app; [now apply I1|]. destruct (s_new _ _ _ _ _ I2 j Hj) as (s & Hs & Hc & Hn).
    destruct (marks_back l o1 l1 j s M1 Hs) as (s0 & Hs0 & [->|[_ ->]]); [eauto|discriminate].
  - rewrite in_phase_app, fmap_app, concat_app, (s_init _ _ _ _ _ I1), (s_init _ _ _ _ _ I2). f_equal. apply concat_ext. now apply (of_lib_marks _ _ _ o1).
  - rewrite in_phase_app, fmap_app, concat_app, (s_pre _ _ _ _ _ I1), (s_pre _ _ _ _ _ I2). apply Permutation_app_head.
    rewrite (concat_ext (of_lib preinit_functions Preinit l1) (of_lib preinit_functions Preinit l)); [reflexivity|]. now apply (of_lib_marks _ _ _ o1).
  - intros j [->|Hj]%elem_of_cons; [|now apply I2]. apply (marks_done l1 o2 l2); [apply I2|]. apply (s_roots _ _ _ _ _ I1). left.
  - intros rank Ha. destruct (s_deps _ _ _ _ _ I1 rank Ha) as [R1 D1]. destruct (s_deps _ _ _ _ _ I2 rank (acyclic_marks _ _ _ _ M1 Ha)) as [R2 D2]. split.
    + intros j [Hj|Hj]%elem_of_app; [destruct (R1 j Hj) as (x & Hx & Hr); apply list_elem_of_singleton in Hx as ->; exists k; split; [left|assumption]|].
      destruct (R2 j Hj) as (x & Hx & Hr). exists x. split; [now right|assumption].
    + intros a j b s x E Hs Hx. apply app_eq_app in E as (c & [[E1 E2]|[E1 E2]]).
      * destruct c as [|y c].
        -- rewrite app_nil_r in E1. subst a. cbn in E2. destruct (D2 [] j b (if decide (j ∈ o1) then set_called true s else s) x) as [H|H].
           ++ now rewrite <- E2.
           ++ now apply (proj2 M1).
           ++ now destruct (decide _).
           ++ now apply not_elem_of_nil in H.
           ++ destruct H as (s' & Hs' & H). destruct (marks_back l o1 l1 x s' M1 Hs') as (s0 & Hs0 & [->|[Hx1 ->]]); [right; exists s0; auto|left; exact Hx1].
        -- cbn in E2. injection E2 as <- ->. eapply D1; eauto.
      * subst a. destruct (D2 c j b (if decide (j ∈ o1) then set_called true s else s) x) as [H|H].
        -- exact E2.
        -- now apply (proj2 M1).
        -- now destruct (decide _).
        -- left. rewrite elem_of_app. now right.
        -- destruct H as (s' & Hs' & H). destruct (marks_back l o1 l1 x s' M1 Hs') as (s0 & Hs0 & [->|[Hx1 ->]]); [right; exists s0; auto|left; rewrite elem_of_app; now left].
Qed.

(** A library after its dependencies. *)
Section one_library.
Context (l : list soinfo) (i : nat) (s : soinfo) (Hi : l !! i = Some s) (Hc : constructors_called s = false) (Hn : name s <> libc_name).
#[local] Abbreviation l1 := (<[i := set_called true s]> l).

Lemma marks_one : marks l [i] l1.
Proof.
  split; [apply length_insert|]. intros j t Hj. destruct (decide (j ∈ [i])) as [H|H]; rewrite list_elem_of_singleton in H.
  - subst j. rewrite list_lookup_insert_eq by now apply lookup_lt_Some in Hi. congruence.
  - now rewrite list_lookup_insert_ne by congruence.
Qed.

Lemma done_back o l2 k : marks l1 o l2 -> k <> i -> done l2 k -> k ∈ o \/ done l k.
Proof.
  intros M Hk (s' & Hs' & H). destruct (marks_back l1 o l2 k s' M Hs') as (t & Ht & [->|[Ho _]]); [|now left].
  destruct (marks_back l [i] l1 k t marks_one Ht) as (u & Hu & [->|[Ho _]]); [right; exists u; auto|]. apply list_elem_of_singleton in Ho. congruence.
Qed.

Lemma initialises_one l2 ev order : initialises l1 (deps s) l2 ev order ->
  initialises l [i] l2 (tagged i Preinit (preinit_functions s) ++ ev ++ tagged i Init (init_functions s)) (order ++ [i]).
Proof.
  intros I. pose proof marks_one as M1. pose proof (s_marks _ _ _ _ _ I) as M2.
  assert (marks l (order ++ [i]) l2) as M.
  { destruct (marks_app _ _ _ _ _ M1 M2) as [L M]. split; [exact L|]. intros j t Hj. rewrite (M j t Hj).
    destruct (decide (j ∈ [i] ++ order)) as [H|H], (decide (j ∈ order ++ [i])) as [H'|H']; try reflexivity; rewrite elem_of_app in *; tauto. }
  assert (i ∉ order) as Hio.
  { intros H. destruct (s_new _ _ _ _ _ I i H) as (t & Ht & Hf & _).  rewrite list_lookup_insert_eq in Ht by now apply lookup_lt_Some in Hi.
    injection Ht as <-. discriminate. }
  assert (forall p q fs, in_phase p (tagged i q fs) = match p, q with Preinit, Preinit | Init, Init => tagged i q fs | _, _ => [] end) as Hph.
  { intros p q fs. unfold in_phase, tagged. destruct p, q; induction fs as [|f fs IH]; cbn in *; congruence. }
  constructor.
  - exact M.
  - apply NoDup_app. split_and!; [apply I|intros j Hj; rewrite list_elem_of_singleton; congruence|apply NoDup_singleton].
  - intros j [Hj|Hj]%elem_of_app; [|apply list_elem_of_singleton in Hj as ->; eauto]. destruct (s_new _ _ _ _ _ I j Hj) as (t & Ht & Hf & Hl).
    destruct (marks_back l [i] l1 j t M1 Ht) as (u & Hu & [->|[_ ->]]); [eauto|discriminate].
  - rewrite !in_phase_app, !Hph, (s_init _ _ _ _ _ I), fmap_app, concat_app. cbn [app fmap list_fmap concat]. unfold of_lib at 3. rewrite Hi, app_nil_r. f_equal.
    apply concat_ext. now apply (of_lib_marks _ _ _ [i]).
  - rewrite !in_phase_app, !Hph, (s_pre _ _ _ _ _ I), fmap_app, concat_app. cbn [app fmap list_fmap concat]. unfold of_lib at 3. rewrite Hi, !app_nil_r.
    rewrite (concat_ext (of_lib preinit_functions Preinit l1) (of_lib preinit_functions Preinit l)) by now apply (of_lib_marks _ _ _ [i]). apply Permutation_app_comm.
  - intros k ->%list_elem_of_singleton. apply (marks_new l (order ++ [i])); [exact M|rewrite elem_of_app; right; left|now apply lookup_lt_Some in Hi].
  - intros rank Ha. destruct (s_deps _ _ _ _ _ I rank (acyclic_marks _ _ _ _ M1 Ha)) as [R D].
    assert (forall j, j ∈ order -> (rank j < rank i)%nat) as Hr.
    { intros j Hj. destruct (R j Hj) as (k & Hk & Hle). pose proof (Ha i s k Hi Hk). lia. }
    split; [intros j [Hj|Hj]%elem_of_app; exists i; (split; [left|]); [apply Nat.lt_le_incl; auto|apply list_elem_of_singleton in Hj as ->; lia]|].
    intros a j b t k E Ht Hk. pose proof (Ha j t k Ht Hk) as Hkj. destruct b as [|y b _] using rev_ind.
    + apply app_inj_tail in E as [<- <-]. rewrite Hi in Ht. injection Ht as <-. apply (done_back order l2 k M2); [intros ->; lia|now apply (s_roots _ _ _ _ _ I)].
    + rewrite app_comm_cons, app_assoc in E. apply app_inj_tail in E as [E <-].
      assert (j ∈ order) as Hj by (rewrite E, elem_of_app; right; left). pose proof (Hr j Hj).
      destruct (D a j b (if decide (j ∈ [i]) then set_called true t else t) k E) as [H'|H']; [now apply (proj2 M1)|now destruct (decide _)|now left|].
      destruct (done_back [] l1 k (marks_nil l1)) as [H''|H'']; [intros ->; lia|exact H'|now apply not_elem_of_nil in H''|now right].
Qed.
End one_library.

(** ** Termination *)

Definition open_count (l : list soinfo) : nat := length (List.filter (fun s => negb (constructors_called s)) l).

Lemma open_mark l i s : l !! i = Some s -> constructors_called s = false -> open_count l = S (open_count (<[i := set_called true s]> l)).
Proof.
  intros Hi Hc. unfold open_count. rewrite <- (take_drop_middle l i s Hi) at 1. rewrite insert_take_drop by now apply lookup_lt_Some in Hi.
  rewrite !List.filter_app, !length_app. cbn [List.filter constructors_called set_called negb]. rewrite Hc. cbn [negb length]. lia.
Qed.

Lemma open_le : forall l l', length l' = length l -> (forall j s, l !! j = Some s -> exists s', l' !! j = Some s' /\ (constructors_called s = true -> constructors_called s' = true)) ->
  (open_count l' <= open_count l)%nat.
Proof.
  unfold open_count. induction l as [|s l IH]; intros [|s' l'] Hl H; [cbn; lia|discriminate|discriminate|]. cbn [length] in Hl.
  assert (length (List.filter (fun s => negb (constructors_called s)) l') <= length (List.filter (fun s => negb (constructors_called s)) l))%nat.
  { apply IH; [lia|]. intros j t Hj. exact (H (S j) t Hj). }
  destruct (H 0%nat s eq_refl) as (t & [= <-] & Ht). cbn [List.filter]. destruct (constructors_called s); [rewrite Ht by reflexivity; cbn; lia|].
  destruct (constructors_called s'); cbn; lia.
Qed.

Lemma open_marks l o l' : marks l o l' -> (open_count l' <= open_count l)%nat.
Proof.
  intros [L M]. apply open_le; [exact L|]. intros j s Hj. eexists. split; [exact (M j s Hj)|]. destruct (decide (j ∈ o)); auto.
Qed.

Lemma needed_initialises rec fuel :
  (forall l i, table_sound l -> (i < length l)%nat -> (open_count l < fuel)%nat -> exists l' ev order, rec l i = Ok (l', ev) /\ initialises l [i] l' ev order) ->
  forall d l, terminated d -> table_sound l -> (forall k, k ∈ valid_needed d -> (k < length l)%nat) -> (open_count l < fuel)%nat ->
  exists l' ev order, needed_constructors rec d l = Ok (l', ev) /\ initialises l (valid_needed d) l' ev order.
Proof.
  intros Hrec. induction d as [|[tag v] d IH]; intros l Ht T Hk Hf; cbn [needed_constructors valid_needed] in *.
  { unfold terminated in Ht. cbn in Ht. now apply not_elem_of_nil in Ht. }
  destruct (Z.eqb_spec tag DT_NULL) as [->|Hz].
  { exists l, [], []. split; [reflexivity|]. apply initialises_nil. intros k Hk'. now apply not_elem_of_nil in Hk'. }
  assert (terminated d) as Ht' by (unfold terminated in *; cbn in Ht; apply elem_of_cons in Ht as [E|Ht]; [congruence|assumption]).
  destruct (_ && _); [|now apply IH].
  destruct (Hrec l (Z.to_nat v) T) as (l1 & e1 & o1 & -> & I1); [apply Hk; left|assumption|]. cbn [obind].
  pose proof (s_marks _ _ _ _ _ I1) as M1. destruct (IH l1 Ht') as (l2 & e2 & o2 & -> & I2).
  - now apply (marks_sound l o1).
  - intros k Hk'. rewrite (proj1 M1). apply Hk. now right.
  - pose proof (open_marks l o1 l1 M1). lia.
  - cbn [obind]. exists l2, (e1 ++ e2), (o1 ++ o2). split; [reflexivity|]. now apply (initialises_app l (Z.to_nat v) l1 e1 o1).
Qed.

Lemma constructors_initialise : forall fuel l i, table_sound l -> (i < length l)%nat -> (open_count l < fuel)%nat ->
  exists l' ev order, call_constructors_recursive fuel l i = Ok (l', ev) /\ initialises l [i] l' ev order.
Proof.
  induction fuel as [|fuel IH]; intros l i T Hi Hf; [lia|]. cbn [call_constructors_recursive].
  destruct (lookup_lt_is_Some_2 l i Hi) as [s Hs]. rewrite Hs. cbn [of_option obind].
  assert ((name s = libc_name \/ constructors_called s = true) -> exists l' ev order, Ok (l, @nil event) = Ok (l', ev) /\ initialises l [i] l' ev order) as Hdone.
  { intros H. exists l, [], []. split; [reflexivity|]. apply initialises_nil. intros k ->%list_elem_of_singleton. exists s. auto. }
  destruct (constructors_called s) eqn:Hc; [auto|]. destruct (bool_decide (name s = libc_name)) eqn:Hl; [apply bool_decide_eq_true in Hl; auto|].
  apply bool_decide_eq_false in Hl. clear Hdone. destruct (T i s Hs) as [O D]. pose proof (marks_one l i s Hs) as M1.
  assert ((if negb (Z.land (flags s) FLAG_EXE =? 0) then call_array (preinit_array s) (preinit_array_count s) false else Ok []) = Ok (preinit_functions s)) as ->.
  { unfold preinit_functions. destruct (negb _); [|reflexivity]. apply call_array_forward, O. }
  cbn [obind]. set (l1 := <[i := set_called true s]> l) in *.
  assert (exists l2 ev order, (match dynamic s with Some d => needed_constructors (call_constructors_recursive fuel) d l1 | None => Ok (l1, []) end) = Ok (l2, ev) /\
    initialises l1 (deps s) l2 ev order) as (l2 & ev & order & -> & I).
  { pose proof (open_mark l i s Hs Hc) as Hop. fold l1 in Hop. unfold deps in D |- *. destruct (dynamic s) as [d|] eqn:Ed.
    - apply (needed_initialises _ fuel IH); [now apply (o_dynamic s O)|now apply (marks_sound l [i])| |lia].
      intros k Hk. unfold l1. rewrite length_insert. auto.
    - exists l1, [], []. split; [reflexivity|]. apply initialises_nil. intros k Hk. now apply not_elem_of_nil in Hk. }
  cbn [obind].
  assert ((match init_array s with Some _ => call_array (init_array s) (init_array_count s) false | None => Ok [] end) =
    Ok (match init_array s with Some _ => listed (init_array s) (init_array_count s) | None => [] end)) as ->.
  { destruct (init_array s) as [a|] eqn:Ea; [|reflexivity]. rewrite <- Ea. apply call_array_forward. apply O. }
  cbn [obind]. eexists l2, _, (order ++ [i]). split; [reflexivity|]. exact (initialises_one l i s Hs Hc Hl l2 ev order I).
Qed.

(** C18: [call_constructors_recursive] returns on every sound table, also when the
    dependencies are cyclic; each library's constructors run at most once and only if they had not run and it
    is not libc; the constructors of a library run in order, [DT_INIT] before [DT_INIT_ARRAY], skipping null
    and -1 entries, and without cycles after those of every library it needs; nothing but the flags
    of the libraries run changes. *)
Theorem constructors_terminate_in_order (l : list soinfo) (i : nat) :
  table_sound l -> (i < length l)%nat ->
  exists l' ev order, call_constructors_recursive (S (length l)) l i = Ok (l', ev) /\ initialises l [i] l' ev order.
Proof.
  intros T Hi. apply constructors_initialise; [assumption|assumption|]. unfold open_count. pose proof (List.filter_length_le (fun s => negb (constructors_called s)) l). lia.
Qed.

(** Two libraries that need each other and a third both need. *)
Definition sample_lib (n : Z) (ds : list Z) (arr : list Z) (called : bool) : soinfo :=
  SoInfo [n] 0x1000 0x1000 FLAG_LINKED None 1 (Some (((fun v => (DT_NEEDED, v)) <$> ds) ++ [(DT_NULL, 0)])) [] [] 0 0 [] []
    None 0 (Some arr) (Z.of_nat (length arr)) None 0 (n * 16) 0 called.
Definition sample_libs : list soinfo := [sample_lib 1 [1; 2] [10; 0; 11] false; sample_lib 2 [2; 0] [2 ^ 32 - 1; 20] false; sample_lib 3 [200] [30] false].

Lemma constructors_terminate_in_order_witness :
  exists l' ev order, call_constructors_recursive 4 sample_libs 0 = Ok (l', ev) /\ initialises sample_libs [0%nat] l' ev order.
Proof.
  apply (constructors_terminate_in_order sample_libs 0); [|cbn; lia].
  intros j s Hj. assert (exists n ds arr c, s = sample_lib n ds arr c /\ (forall k, k ∈ deps s -> (k < 3)%nat)) as (n & ds & arr & c & -> & Hd).
  { destruct j as [|[|[|j]]]; cbn in Hj; [injection Hj as <-..|destruct j; discriminate]; (eexists _, _, _, _; split; [reflexivity|]);
      apply (Forall_forall (fun k => (k < 3)%nat)); apply (bool_decide_unpack _); vm_compute; exact I. }
  split; [|exact Hd]. constructor; cbn [preinit_array_count preinit_array init_array_count init_array fini_array_count fini_array sample_lib default length]; [|cbn; lia..].
  intros d. cbn [dynamic sample_lib]. intros [= <-]. unfold terminated. rewrite fmap_app, elem_of_app. right. left.
Defined.

Example sample_calls : exists l', call_constructors_recursive 4 sample_libs 0 =
  Ok (l', [Called 2 Init 48; Called 2 Init 30; Called 1 Init 32; Called 1 Init 20; Called 0 Init 16; Called 0 Init 10; Called 0 Init 11]).
Proof. eexists. vm_compute. reflexivity. Qed.

Lemma destructors_reversed s : lib_ok s -> call_destructors s =
  Ok (match fini_array s with Some _ => rev (listed (fini_array s) (fini_array_count s)) | None => [] end ++ if fini_func s =? 0 then [] else [fini_func s]).
Proof.
  intros O. unfold call_destructors. destruct (fini_array s) as [a|] eqn:E; [|reflexivity]. rewrite <- E, call_array_backward by apply O. reflexivity.
Qed.
End LinkerInit.
