(* ===== verification/LinkerStdio.v ===== *)
(** * Reopening closed standard descriptors (common/jb/linker.c, [nullify_closed_stdio])

    The process's descriptor table is the set of open descriptors; [open] returns the
    lowest free one.  Each system call takes the next of a list of answers: 0 lets it
    do its work, an errno makes it fail with that errno and no effect (an empty list
    answers 0), so the interrupted-call loops are structural. *)

From Stdlib Require Import ZArith Lia Bool.
From stdpp Require Import base numbers option gmap sets list.
From S2P Require Import Prelude.

Open Scope Z_scope.
#[local] Set Warnings "-clear-no-such-hyp".

Module LinkerStdio.

Definition EINTR : Z := 4.
Definition EBADF : Z := 9.

Definition fdset := gset Z.

(** The lowest descriptor not in use. *)
Fixpoint free_from (fuel : nat) (fds : fdset) (i : Z) : Z :=
  match fuel with O => i | S fuel => if decide (i ∈ fds) then free_from fuel fds (i + 1) else i end.
Definition lowest_free (fds : fdset) : Z := free_from (size fds) fds 0.

(** [do { status = fcntl(i, F_GETFL); } while (status < 0 && errno == EINTR);]: errno, 0 for success. *)
Fixpoint fcntl_loop (fds : fdset) (i : Z) (answers : list Z) : Z * list Z :=
  match answers with
  | [] => (if decide (i ∈ fds) then 0 else EBADF, [])
  | a :: answers =>
      if a =? EINTR then fcntl_loop fds i answers
      else ((if a =? 0 then if decide (i ∈ fds) then 0 else EBADF else a), answers)
  end.

(** [do { status = dup2(dev_null, i); } while (...)]. *)
Fixpoint dup2_loop (fds : fdset) (i : Z) (answers : list Z) : Z * fdset * list Z :=
  match answers with
  | [] => (0, {[i]} ∪ fds, [])
  | a :: answers =>
      if a =? EINTR then dup2_loop fds i answers
      else if a =? 0 then (0, {[i]} ∪ fds, answers) else (a, fds, answers)
  end.

(** One [close]; closing a descriptor that is not open fails with [EBADF]. *)
Definition close (fds : fdset) (fd : Z) (a : Z) : Z * fdset :=
  if a =? 0 then if decide (fd ∈ fds) then (0, fds ∖ {[fd]}) else (EBADF, fds) else (a, fds).

Fixpoint close_loop (fds : fdset) (fd : Z) (answers : list Z) : Z * fdset * list Z :=
  match answers with
  | [] => let '(e, fds) := close fds fd 0 in (e, fds, [])
  | a :: answers =>
      if a =? EINTR then close_loop fds fd answers
      else let '(e, fds) := close fds fd a in (e, fds, answers)
  end.

(** The body of the loop over descriptors [todo]: return value, table, answers left. *)
Fixpoint nullify_loop (todo : list Z) (dev_null : Z) (ret : Z) (fds : fdset) (answers : list Z) : Z * fdset * list Z :=
  match todo with
  | [] => (ret, fds, answers)
  | i :: todo =>
      if i =? dev_null then nullify_loop todo dev_null ret fds answers else
      let '(status, answers) := fcntl_loop fds i answers in
      if status =? 0 then nullify_loop todo dev_null ret fds answers
      else if negb (status =? EBADF) then nullify_loop todo dev_null (-1) fds answers
      else let '(status, fds, answers) := dup2_loop fds i answers in
           nullify_loop todo dev_null (if status =? 0 then ret else -1) fds answers
  end.

(** [open_fails]: whether opening /dev/null fails. *)
Definition nullify_closed_stdio (open_fails : bool) (fds : fdset) (answers : list Z) : Z * fdset :=
  if open_fails then (-1, fds) else
  let dev_null := lowest_free fds in
  let fds := {[dev_null]} ∪ fds in
  let '(ret, fds, answers) := nullify_loop [0; 1; 2] dev_null 0 fds answers in
  let '(ret, fds, answers) :=
    (if 2 <? dev_null then
       let '(status, fds, answers) := close_loop fds dev_null answers in (if status =? 0 then ret else -1, fds, answers)
     else (ret, fds, answers)) in
  (ret, snd (close fds dev_null (default 0 (head answers)))).

(** ** What the call achieves *)

Lemma free_from_spec fds : forall fuel i, let r := free_from fuel fds i in
  i <= r <= i + Z.of_nat fuel /\ (forall j, i <= j < r -> j ∈ fds) /\ (r ∈ fds -> r = i + Z.of_nat fuel).
Proof.
  induction fuel as [|fuel IH]; intros i; cbn [free_from]; cbv zeta; [split; [lia|]; split; intros; lia|].
  destruct (decide (i ∈ fds)) as [H|H]; [|split; [lia|]; split; [intros; lia|contradiction]].
  destruct (IH (i + 1)) as (H1 & H2 & H3). split; [lia|]. split; [|intros H4; specialize (H3 H4); lia].
  intros j Hj. destruct (decide (j = i)) as [->|]; [assumption|]. apply H2. lia.
Qed.

Lemma lowest_free_spec fds : (lowest_free fds ∉ fds) /\ 0 <= lowest_free fds /\ forall i, 0 <= i < lowest_free fds -> i ∈ fds.
Proof.
  unfold lowest_free. destruct (free_from_spec fds (size fds) 0) as (H1 & H2 & H3). split_and!; [|lia|exact H2].
  intros Hin. specialize (H3 Hin). assert ((list_to_set (seqZ 0 (Z.of_nat (S (size fds)))) : fdset) ⊆ fds) as Hsub.
  { intros j Hj. apply elem_of_list_to_set, elem_of_seqZ in Hj. destruct (decide (j = Z.of_nat (size fds))) as [->|]; [|apply H2; lia].
    now rewrite H3 in Hin. }
  apply subseteq_size in Hsub. rewrite size_list_to_set in Hsub by apply NoDup_seqZ. rewrite length_seqZ in Hsub. lia.
Qed.

Lemma nullify_loop_ok dev_null : forall todo ret fds,
  nullify_loop todo dev_null ret fds [] = (ret, list_to_set (List.filter (fun i => negb (i =? dev_null)) todo) ∪ fds, []).
Proof.
  induction todo as [|i todo IH]; intros ret fds; cbn [nullify_loop List.filter list_to_set]; [f_equal; f_equal; set_solver|].
  destruct (Z.eqb_spec i dev_null) as [->|Hi]; [apply IH|]. cbn [negb list_to_set fcntl_loop].
  destruct (decide (i ∈ fds)) as [Hin|Hout]; cbn [Z.eqb]; [|change (EBADF =? 0) with false; change (EBADF =? EBADF) with true; cbn [negb dup2_loop Z.eqb]];
    rewrite IH; f_equal; f_equal; set_solver.
Qed.

(** When no system call fails, [nullify_closed_stdio] returns 0 and opens every closed
    one of descriptors 0, 1 and 2 except the lowest, which the final unconditional [close] closes again: a
    process started with a closed standard descriptor still has a closed one; with all three open
    nothing changes. *)
Theorem nullify_leaves_one_closed (fds : fdset) :
  nullify_closed_stdio false fds [] =
  (0, if decide ({[0; 1; 2]} ⊆ fds) then fds else ({[0; 1; 2]} ∪ fds) ∖ {[lowest_free fds]}) /\
  (~ {[0; 1; 2]} ⊆ fds -> 0 <= lowest_free fds <= 2 /\ lowest_free fds ∉ snd (nullify_closed_stdio false fds [])).
Proof.
  destruct (lowest_free_spec fds) as (Hd & Hd0 & Hlow). set (d := lowest_free fds) in *.
  assert (nullify_closed_stdio false fds [] =
    (0, if decide ({[0; 1; 2]} ⊆ fds) then fds else ({[0; 1; 2]} ∪ fds) ∖ {[d]})) as E.
  { unfold nullify_closed_stdio. fold d. rewrite nullify_loop_ok.
    set (set1 := list_to_set _ ∪ _). assert (set1 = {[0; 1; 2]} ∪ ({[d]} ∪ fds)) as ->.
    { unfold set1. cbn [List.filter]. destruct (Z.eqb_spec 0 d), (Z.eqb_spec 1 d), (Z.eqb_spec 2 d); cbn [negb list_to_set]; set_solver. }
    cbn [close_loop head default]. destruct (Z.ltb_spec 2 d) as [Hgt|Hle].
    - assert ({[0; 1; 2]} ⊆ fds) as Hall by (intros x Hx; apply Hlow; rewrite !elem_of_union, !elem_of_singleton in Hx; lia).
      unfold close. rewrite Z.eqb_refl. destruct (decide (d ∈ {[0; 1; 2]} ∪ ({[d]} ∪ fds))) as [_|H]; [|set_solver].
      change (0 =? 0) with true. cbn [head default]. rewrite decide_False by set_solver. rewrite decide_True by assumption. cbn [snd]. f_equal. set_solver.
    - unfold close. change (0 =? 0) with true. rewrite decide_True by set_solver. cbn [snd].
      rewrite decide_False by (intros H; apply Hd, H; assert (d = 0 \/ d = 1 \/ d = 2) as [->|[->| ->]] by lia; set_solver). f_equal. set_solver. }
  split; [exact E|]. rewrite E. cbn [snd]. intros Hn. rewrite decide_False by assumption. split; [|set_solver].
  split; [assumption|]. destruct (Z.le_gt_cases d 2) as [|Hgt]; [assumption|]. exfalso. apply Hn. intros x Hx. apply Hlow. rewrite !elem_of_union, !elem_of_singleton in Hx. lia.
Qed.

Lemma nullify_leaves_one_closed_witness :
  0 <= lowest_free {[1; 2]} <= 2 /\ lowest_free {[1; 2]} ∉ snd (nullify_closed_stdio false {[1; 2]} []).
Proof.
  apply (nullify_leaves_one_closed {[1; 2]}). intros H. specialize (H 0). rewrite !elem_of_union, !elem_of_singleton in H. lia.
Defined.

Example stdin_stays_closed : nullify_closed_stdio false {[1; 2]} [] = (0, {[1; 2]}).
Proof. vm_compute. reflexivity. Qed.
End LinkerStdio.
