(* ===== verification/LinkerLoad.v ===== *)
(** * Loading the segments of a library (common/jb/linker.c)

    [verify_elf_object], [is_prelinked], [get_lib_extents], [alloc_mem_region],
    [reserve_mem_region], [load_segments] and [load_library] on a 32-bit ARM build.
    The file is its bytes; the header page is the static buffer [__header], a program
    header not wholly inside it is undefined.  The address space gives for every address the
    byte and protection of its mapping; system calls act on it as documented by
    mmap(2), mprotect(2) and munmap(2), and whether a mapping succeeds, and where, is
    answered from a list. *)

From Stdlib Require Import ZArith Lia Bool.
From stdpp Require Import base numbers option list.
From S2P Require Import Prelude CStr StrL LinkerPool.

Open Scope Z_scope.
Open Scope outcome_scope.

Module LinkerLoad.
Import CStr LinkerPool.

Definition PAGE_SIZE : Z := 4096.
Definition PAGE_MASK : Z := 4095.

(** [x & ~PAGE_MASK] and [(x + PAGE_SIZE - 1) & ~PAGE_MASK]. *)
Definition page_down (x : Z) : Z := Z.land x (u32 (Z.lnot PAGE_MASK)).
Definition page_up (x : Z) : Z := page_down (u32 (x + PAGE_SIZE - 1)).

Definition PROT_READ : Z := 1.
Definition PROT_WRITE : Z := 2.
Definition PROT_EXEC : Z := 4.
Definition PF_X : Z := 1.
Definition PF_W : Z := 2.
Definition PF_R : Z := 4.
Definition PT_LOAD : Z := 1.
Definition PT_DYNAMIC : Z := 2.
Definition PT_GNU_RELRO : Z := 0x6474e552.
Definition PT_ARM_EXIDX : Z := 0x70000001.
Definition EM_ARM : Z := 40.

Definition has (x f : Z) : bool := negb (Z.land x f =? 0).
Definition MAYBE_MAP_FLAG (x from to : Z) : Z := if has x from then to else 0.
Definition PFLAGS_TO_PROT (x : Z) : Z :=
  Z.lor (Z.lor (MAYBE_MAP_FLAG x PF_X PROT_EXEC) (MAYBE_MAP_FLAG x PF_R PROT_READ)) (MAYBE_MAP_FLAG x PF_W PROT_WRITE).

(** ** The address space *)

(** A mapped address: its byte ([None] past the pages of the file) and its protection. *)
Record cell := Cell { byte : option Z; prot : Z }.
Definition space := Z -> option cell.
Definition over (m : space) (a n : Z) (f : Z -> option cell) : space := fun x => if (a <=? x) && (x <? a + n) then f x else m x.

(** The length of the pages that hold [len] bytes from a page boundary. *)
Definition pages (len : Z) : Z := (len + PAGE_SIZE - 1) / PAGE_SIZE * PAGE_SIZE.

(** What the kernel maps. *)
Definition anonymous (p : Z) : Z -> option cell := fun _ => Some (Cell (Some 0) p).
Definition from_file (file : list Z) (a off p : Z) : Z -> option cell := fun x =>
  let i := off + (x - a) in
  Some (Cell (if i <? pages (Z.of_nat (length file)) then Some (default 0 (file !! Z.to_nat i)) else None) p).

Definition munmap (m : space) (a len : Z) : space := over m a (pages len) (fun _ => None).

(** The mapped pages from [a], at most [n]. *)
Fixpoint mapped_pages (m : space) (a : Z) (n : nat) : Z :=
  match n with O => 0 | S n => match m a with Some _ => PAGE_SIZE + mapped_pages m (a + PAGE_SIZE) n | None => 0 end end.
Definition mprotect (m : space) (a len p : Z) : space :=
  over m a (mapped_pages m a (Z.to_nat (pages len / PAGE_SIZE))) (fun x => match m x with Some c => Some (Cell (byte c) p) | None => None end).

(** [memset(a, 0, n)]: a byte that is not there or not writable faults. *)
Definition writable (m : space) (x : Z) : bool :=
  match m x with Some (Cell (Some _) p) => has p PROT_WRITE | _ => false end.
Definition memset0 (m : space) (a n : Z) : outcome space :=
  if forallb (fun k => writable m (a + Z.of_nat k)) (seq 0 (Z.to_nat n))
  then Ok (over m a n (fun x => match m x with Some c => Some (Cell (Some 0) (prot c)) | None => None end)) else Undef.

(** A readable byte, and little-endian numbers. *)
Definition peek (m : space) (x : Z) : outcome Z :=
  match m x with Some (Cell (Some b) p) => if has p PROT_READ then Ok b else Undef | _ => Undef end.
Definition le16 (at' : Z -> outcome Z) (x : Z) : outcome Z := let! a := at' x in let! b := at' (x + 1) in Ok (a + 2 ^ 8 * b).
Definition le32 (at' : Z -> outcome Z) (x : Z) : outcome Z := let! a := le16 at' x in let! b := le16 at' (x + 2) in Ok (a + 2 ^ 16 * b).

(** ** The header page *)

Record Elf_Phdr := Phdr { p_type : Z; p_offset : Z; p_vaddr : Z; p_filesz : Z; p_memsz : Z; p_flags : Z }.

Definition e_machine (h : list Z) : outcome Z := le16 (rd h) 18.
Definition e_phoff (h : list Z) : outcome Z := le32 (rd h) 28.
Definition e_phnum (h : list Z) : outcome Z := le16 (rd h) 44.
Definition phdr_at (h : list Z) (x : Z) : outcome Elf_Phdr :=
  let! type := le32 (rd h) x in let! offset := le32 (rd h) (x + 4) in let! vaddr := le32 (rd h) (x + 8) in
  let! filesz := le32 (rd h) (x + 16) in let! memsz := le32 (rd h) (x + 20) in let! flags := le32 (rd h) (x + 24) in
  let! _ := le32 (rd h) (x + 28) in Ok (Phdr type offset vaddr filesz memsz flags).

Definition verify_elf_object (h : list Z) : outcome Z :=
  let! m0 := rd h 0 in if negb (m0 =? 0x7f) then Ok (-1) else
  let! m1 := rd h 1 in if negb (m1 =? 69) then Ok (-1) else
  let! m2 := rd h 2 in if negb (m2 =? 76) then Ok (-1) else
  let! m3 := rd h 3 in if negb (m3 =? 70) then Ok (-1) else
  let! mc := e_machine h in if negb (mc =? EM_ARM) then Ok (-1) else Ok 0.

(** The results of [lseek] and [read]: [false] is -1. *)
Record io := IO { seek_start : bool; read_header : bool; seek_end : bool; read_info : bool }.

(** The last eight bytes: [mmap_addr] and [tag]. *)
Definition is_prelinked (k : io) (file : list Z) : outcome Z :=
  if negb (seek_end k) || (length file <? 8)%nat then Ok 0 else
  if negb (read_info k) then Ok 0 else
  let info := drop (length file - 8) file in
  let! addr := le32 (rd info) 0 in
  if bool_decide (drop 4 info = [80; 82; 69; 32]) then Ok addr else Ok 0.

Fixpoint extents_loop (h : list Z) (n : nat) (x min_vaddr max_vaddr : Z) : outcome (Z * Z) :=
  match n with
  | O => Ok (min_vaddr, max_vaddr)
  | S n =>
      let! ph := phdr_at h x in
      if p_type ph =? PT_LOAD then
        let e := u32 (p_vaddr ph + p_memsz ph) in
        extents_loop h n (x + 32) (if p_vaddr ph <? min_vaddr then p_vaddr ph else min_vaddr) (if max_vaddr <? e then e else max_vaddr)
      else extents_loop h n (x + 32) min_vaddr max_vaddr
  end.

(** The requested base and the size; [None] is the return of -1. *)
Definition get_lib_extents (k : io) (file h : list Z) : outcome (option (Z * Z)) :=
  let! v := verify_elf_object h in
  if v <? 0 then Ok None else
  let! req_base := is_prelinked k file in
  if req_base =? 0xffffffff then Ok None else
  let! phoff := e_phoff h in
  let! phnum := e_phnum h in
  let! (min_vaddr, max_vaddr) := extents_loop h (Z.to_nat phnum) phoff 0xffffffff 0 in
  if (min_vaddr =? 0xffffffff) && (max_vaddr =? 0) then Ok None else
  Ok (Some (req_base, u32 (page_up max_vaddr - page_down min_vaddr))).

(** ** Mapping *)

(** The address space and the answers still to come: [None] is MAP_FAILED, an address is used
    when the caller gave none. *)
Record kernel := Kernel { vm : space; answers : list (option Z) }.
Definition answer (s : kernel) : option Z * kernel :=
  match answers s with [] => (None, s) | a :: rest => (a, Kernel (vm s) rest) end.

(** mmap refuses an empty or unaligned range and one that reaches the last page of the address space. *)
Definition map_args_ok (a len : Z) : bool := (0 <? len) && (a mod PAGE_SIZE =? 0) && (a + pages len <? 2 ^ 32).

Definition mmap_fixed (s : kernel) (a len : Z) (f : Z -> option cell) : option Z * kernel :=
  match answer s with
  | (Some _, s) => if map_args_ok a len then (Some a, Kernel (over (vm s) a (pages len) f) (answers s)) else (None, s)
  | (None, s) => (None, s)
  end.
Definition mmap_any (s : kernel) (len : Z) (f : Z -> option cell) : option Z * kernel :=
  match answer s with
  | (Some a, s) => if map_args_ok a len then (Some a, Kernel (over (vm s) a (pages len) f) (answers s)) else (None, s)
  | (None, s) => (None, s)
  end.

(** [Some base] is the return of 0 with [si->base = base].  With MAP_FIXED the address mapped is
    the one asked for, so the second test of [reserve_mem_region] is never true. *)
Definition reserve_mem_region (s : kernel) (base size : Z) : option Z * kernel := mmap_fixed s base size (anonymous 0).
Definition alloc_mem_region (s : kernel) (base size : Z) : option Z * kernel :=
  if negb (base =? 0) then reserve_mem_region s base size else mmap_any s size (anonymous 0).

(** The fields of the soinfo record that [load_segments] and [load_library] set. *)
Record image := Image {
  wrprotect_start : Z; wrprotect_end : Z; dynamic_addr : Z; gnu_relro_start : Z; gnu_relro_len : Z;
  ARM_exidx : Z; ARM_exidx_count : Z; phdr : Z; phnum : Z }.

(** The last step for a read-only segment: it is made writable for the relocations, and its range
    remembered. *)
Definition write_protect (ph : Elf_Phdr) (pbase len : Z) (s : kernel) (im : image) : kernel * image :=
  if negb (has (p_flags ph) PF_W) then
    (Kernel (mprotect (vm s) pbase len (Z.lor (PFLAGS_TO_PROT (p_flags ph)) PROT_WRITE)) (answers s),
     Image (if pbase <? wrprotect_start im then pbase else wrprotect_start im)
           (if wrprotect_end im <? u32 (pbase + len) then u32 (pbase + len) else wrprotect_end im)
           (dynamic_addr im) (gnu_relro_start im) (gnu_relro_len im) (ARM_exidx im) (ARM_exidx_count im) (phdr im) (phnum im))
  else (s, im).

(** A PT_LOAD header; the result is the length added to [total_sz], [None] is the jump to [fail]. *)
Definition load_segment (file : list Z) (base : Z) (ph : Elf_Phdr) (s : kernel) (im : image) : outcome (option Z * kernel * image) :=
  let p := PFLAGS_TO_PROT (p_flags ph) in
  let tmp := u32 (base + page_down (p_vaddr ph)) in
  let len := u32 (p_filesz ph + Z.land (p_vaddr ph) PAGE_MASK) in
  match mmap_fixed s tmp len (from_file file tmp (page_down (p_offset ph)) p) with
  | (None, s) => Ok (None, s, im)
  | (Some pbase, s) =>
      let! m := if has len PAGE_MASK && has (p_flags ph) PF_W
                then memset0 (vm s) (u32 (pbase + len)) (PAGE_SIZE - Z.land len PAGE_MASK) else Ok (vm s) in
      let s := Kernel m (answers s) in
      let tmp := page_up (u32 (pbase + len)) in
      let end_ := u32 (base + p_vaddr ph + p_memsz ph) in
      match (if tmp <? end_ then mmap_fixed s tmp (u32 (end_ - tmp)) (anonymous p) else (Some tmp, s)) with
      | (None, s) => Ok (None, s, im)
      | (Some _, s) =>
          let len := u32 (page_up end_ - pbase) in
          let (s, im) := write_protect ph pbase len s im in Ok (Some len, s, im)
      end
  end.

(** One turn of the loop. *)
Definition load_phdr (file : list Z) (base size : Z) (ph : Elf_Phdr) (s : kernel) (im : image) : outcome (option Z * kernel * image) :=
  if p_type ph =? PT_LOAD then load_segment file base ph s im
  else if p_type ph =? PT_DYNAMIC then
    Ok (Some 0, s, Image (wrprotect_start im) (wrprotect_end im) (u32 (base + p_vaddr ph)) (gnu_relro_start im) (gnu_relro_len im) (ARM_exidx im) (ARM_exidx_count im) (phdr im) (phnum im))
  else if p_type ph =? PT_GNU_RELRO then
    if (size <=? p_vaddr ph) || (size <? u32 (p_vaddr ph + p_memsz ph)) || (u32 (base + p_vaddr ph + p_memsz ph) <? base) then Ok (None, s, im)
    else Ok (Some 0, s, Image (wrprotect_start im) (wrprotect_end im) (dynamic_addr im) (u32 (base + p_vaddr ph)) (p_memsz ph) (ARM_exidx im) (ARM_exidx_count im) (phdr im) (phnum im))
  else if p_type ph =? PT_ARM_EXIDX then
    Ok (Some 0, s, Image (wrprotect_start im) (wrprotect_end im) (dynamic_addr im) (gnu_relro_start im) (gnu_relro_len im) (p_vaddr ph) (p_memsz ph / 8) (phdr im) (phnum im))
  else Ok (Some 0, s, im).

Fixpoint load_loop (file h : list Z) (base size : Z) (n : nat) (x total_sz : Z) (s : kernel) (im : image) : outcome (option Z * kernel * image) :=
  match n with
  | O => Ok (Some total_sz, s, im)
  | S n =>
      let! ph := phdr_at h x in
      let! (r, s, im) := load_phdr file base size ph s im in
      match r with None => Ok (None, s, im) | Some len => load_loop file h base size n (x + 32) (u32 (total_sz + len)) s im end
  end.

(** [true] is the return of 0; the other return also sets FLAG_ERROR. *)
Definition load_segments (file h : list Z) (base size : Z) (s : kernel) (im : image) : outcome (bool * kernel * image) :=
  let! phoff := e_phoff h in
  let! phnum' := e_phnum h in
  let im := Image 0xffffffff 0 (dynamic_addr im) (gnu_relro_start im) (gnu_relro_len im) (ARM_exidx im) (ARM_exidx_count im) (phdr im) (phnum im) in
  let! (r, s, im) := load_loop file h base size (Z.to_nat phnum') phoff 0 s im in
  let fail := Ok (false, Kernel (munmap (vm s) base size) (answers s), im) in
  match r with
  | None => fail
  | Some total_sz => if size <? total_sz then fail else Ok (true, s, im)
  end.

(** ** [load_library] *)

Definition set_image (b sz fl : Z) (s : soinfo) : soinfo :=
  SoInfo (name s) b sz fl (next s) (refcount s) (LinkerPool.dynamic s) (strtab s) (symtab s) (nbucket s) (nchain s) (bucket s) (chain s)
    (preinit_array s) (preinit_array_count s) (init_array s) (init_array_count s) (fini_array s) (fini_array_count s)
    (init_func s) (fini_func s) (constructors_called s).

(** [bname ? bname + 1 : name]: what follows the last slash. *)
Fixpoint base_name (n : str) : str :=
  match n with
  | [] => []
  | c :: rest => if existsb (Z.eqb 47) rest then base_name rest else if c =? 47 then rest else n
  end.

(** The linker's table, the kernel and the static header page; [file] is what [open_library] opened. *)
Record world := World { pool : linker; kern : kernel; header : list Z }.

(** [__header] after the read: a short file leaves the bytes of the file before it. *)
Definition page_of (w : world) (file : list Z) : list Z := blit (header w) 0 (take (Z.to_nat PAGE_SIZE) file).

Definition blank : image := Image 0 0 0xffffffff 0 0 0 0 0 0.

Definition load_library (k : io) (opened : option (list Z)) (n : str) (w : world) : outcome (option (nat * image) * world) :=
  match opened with
  | None => Ok (None, w)
  | Some file =>
      if negb (seek_start k) then Ok (None, w) else
      if negb (read_header k) then Ok (None, w) else
      let h := page_of w file in
      let! ext := get_lib_extents k file h in
      match ext with
      | None => Ok (None, World (pool w) (kern w) h)
      | Some (req_base, ext_sz) =>
          let! (si, pl) := alloc_info (pool w) (base_name n) in
          match si with
          | None => Ok (None, World pl (kern w) h)
          | Some i =>
              let fail pl ks := (let! pl := free_info pl i in Ok (None, World pl ks h)) in
              let! so' := upd (so pl) i (set_image req_base ext_sz 0) in
              let pl := Linker so' (socount pl) (freelist pl) (sonext pl) in
              match alloc_mem_region (kern w) req_base ext_sz with
              | (None, ks) => fail pl ks
              | (Some b, ks) =>
                  let! so' := upd (so pl) i (set_image b ext_sz 0) in
                  let pl := Linker so' (socount pl) (freelist pl) (sonext pl) in
                  let! (ok, ks, im) := load_segments file h b ext_sz ks blank in
                  if negb ok then
                    let! so' := upd (so pl) i (set_image b ext_sz FLAG_ERROR) in
                    fail (Linker so' (socount pl) (freelist pl) (sonext pl)) ks
                  else
                    let! phoff := le32 (peek (vm ks)) (u32 (b + 28)) in
                    let! num := le16 (peek (vm ks)) (u32 (b + 44)) in
                    Ok (Some (i, Image (wrprotect_start im) (wrprotect_end im) (dynamic_addr im) (gnu_relro_start im) (gnu_relro_len im)
                                       (ARM_exidx im) (ARM_exidx_count im) (u32 (b + phoff)) num), World pl ks h)
              end
          end
      end
  end.

(** ** Pages *)

Lemma pages_spec y : exists k, pages y = 4096 * k /\ y <= pages y < y + 4096.
Proof.
  unfold pages, PAGE_SIZE. exists ((y + 4096 - 1) / 4096). pose proof (Z.div_mod (y + 4096 - 1) 4096). pose proof (Z.mod_pos_bound (y + 4096 - 1) 4096). lia.
Qed.

Lemma pages_shift a y : a mod 4096 = 0 -> pages (a + y) = a + pages y.
Proof.
  intros Ha. pose proof (Z.div_mod a 4096). destruct (pages_spec (a + y)) as (k & -> & ?), (pages_spec y) as (j & -> & ?). lia.
Qed.

(** The start of the page of an address. *)
Definition start (x : Z) : Z := x - x mod 4096.

Lemma start_mod x : start x mod 4096 = 0.
Proof. unfold start. rewrite Zminus_mod, Z.mod_mod, Z.sub_diag by lia. reflexivity. Qed.

Lemma mask_mod x : Z.land x PAGE_MASK = x mod 4096.
Proof. change PAGE_MASK with (Z.ones 12). rewrite Z.land_ones by lia. reflexivity. Qed.

Lemma page_down_start x : in_range 32 x -> page_down x = start x.
Proof.
  intros H. unfold page_down, start. transitivity (Z.ldiff x (Z.ones 12)).
  - apply Z.bits_inj'. intros i Hi. rewrite Z.land_spec, Z.ldiff_spec. change (u32 (Z.lnot PAGE_MASK)) with (Z.ldiff (Z.ones 32) (Z.ones 12)).
    rewrite Z.ldiff_spec. destruct (Z_lt_le_dec i 32); [rewrite Z.ones_spec_low by lia; reflexivity|]. rewrite (testbit_high 32 x) by (auto; lia). reflexivity.
  - rewrite Z.ldiff_ones_r, Z.shiftl_mul_pow2, Z.shiftr_div_pow2 by lia. change (2 ^ 12) with 4096. pose proof (Z.div_mod x 4096). lia.
Qed.

Lemma page_up_pages x : 0 <= x -> x + 4095 < 2 ^ 32 -> page_up x = pages x.
Proof.
  intros H0 H. unfold page_up, PAGE_SIZE. rewrite wrap_small by (unfold in_range; lia). rewrite page_down_start by (unfold in_range; lia).
  unfold start, pages, PAGE_SIZE. pose proof (Z.div_mod (x + 4096 - 1) 4096). lia.
Qed.

(** ** The address space *)

Lemma over_in m a n f x : a <= x < a + n -> over m a n f x = f x.
Proof. intros H. unfold over. destruct (Z.leb_spec a x), (Z.ltb_spec x (a + n)); cbn [andb]; auto; lia. Qed.

Lemma over_out m a n f x : ~ a <= x < a + n -> over m a n f x = m x.
Proof. intros H. unfold over. destruct (Z.leb_spec a x), (Z.ltb_spec x (a + n)); cbn [andb]; auto; lia. Qed.

Lemma mapped_pages_all m : forall n a, (forall x, a <= x < a + 4096 * Z.of_nat n -> is_Some (m x)) -> mapped_pages m a n = 4096 * Z.of_nat n.
Proof.
  induction n as [|n IH]; intros a H; [reflexivity|]. cbn [mapped_pages]. destruct (H a ltac:(lia)) as [c ->].
  rewrite IH; [unfold PAGE_SIZE; lia|]. intros x Hx. apply H. unfold PAGE_SIZE in Hx. lia.
Qed.

Lemma mapped_pages_le m : forall n a, 0 <= mapped_pages m a n <= 4096 * Z.of_nat n.
Proof. induction n as [|n IH]; intros a; cbn [mapped_pages]; [lia|]. destruct (m a); [|lia]. specialize (IH (a + PAGE_SIZE)). unfold PAGE_SIZE in *. lia. Qed.

Lemma pages_count len : 0 <= len -> 4096 * Z.of_nat (Z.to_nat (pages len / PAGE_SIZE)) = pages len.
Proof. intros H. unfold pages, PAGE_SIZE. rewrite Z.div_mul by lia. pose proof (Z.div_pos (len + 4096 - 1) 4096). lia. Qed.

Lemma mprotect_out m a len p x : 0 <= len -> ~ a <= x < a + pages len -> mprotect m a len p x = m x.
Proof.
  intros Hl H. unfold mprotect. apply over_out. pose proof (mapped_pages_le m (Z.to_nat (pages len / PAGE_SIZE)) a). rewrite pages_count in * by assumption. lia.
Qed.

Lemma mprotect_in m a len p x : 0 <= len -> (forall y, a <= y < a + pages len -> is_Some (m y)) -> a <= x < a + pages len ->
  mprotect m a len p x = match m x with Some c => Some (Cell (byte c) p) | None => None end.
Proof.
  intros Hl Hm H. unfold mprotect. rewrite mapped_pages_all; rewrite pages_count by assumption; [|assumption]. now rewrite over_in.
Qed.

Lemma memset0_ok m a n : (forall x, a <= x < a + n -> writable m x = true) ->
  memset0 m a n = Ok (over m a n (fun x => match m x with Some c => Some (Cell (Some 0) (prot c)) | None => None end)).
Proof.
  intros H. unfold memset0. replace (forallb _ _) with true; [reflexivity|]. symmetry. apply forallb_forall. intros k Hk. apply in_seq in Hk. apply H. lia.
Qed.

Lemma map_ok s a len f : 0 < len -> a mod 4096 = 0 -> a + pages len < 2 ^ 32 ->
  mmap_fixed s a len f = match answer s with (Some _, s) => (Some a, Kernel (over (vm s) a (pages len) f) (answers s)) | (None, s) => (None, s) end.
Proof.
  intros H1 H2 H3. unfold mmap_fixed, map_args_ok, PAGE_SIZE. rewrite (proj2 (Z.ltb_lt _ _) H1), (proj2 (Z.eqb_eq _ _) H2), (proj2 (Z.ltb_lt _ _) H3). reflexivity.
Qed.

Lemma answer_vm s : vm (answer s).2 = vm s.
Proof. unfold answer. destruct (answers s); reflexivity. Qed.

(** ** One segment *)

Definition writes (ph : Elf_Phdr) : bool := has (p_flags ph) PF_W.

(** A loadable segment at [base]: nothing wraps, the file part is not longer than the memory part,
    is in the file, and starts at the same place in its page. *)
Record seg_ok (file : list Z) (base : Z) (ph : Elf_Phdr) : Prop := {
  s_vaddr : 0 <= p_vaddr ph;
  s_filesz : 0 <= p_filesz ph <= p_memsz ph;
  s_offset : 0 <= p_offset ph < 2 ^ 32;
  s_top : base + p_vaddr ph + p_memsz ph + 4095 < 2 ^ 32;
  s_congruent : p_offset ph mod 4096 = p_vaddr ph mod 4096;
  s_file : p_offset ph + p_filesz ph <= Z.of_nat (length file) }.

(** The pages of a segment. *)
Definition seg_start (base : Z) (ph : Elf_Phdr) : Z := base + start (p_vaddr ph).
Definition seg_end (base : Z) (ph : Elf_Phdr) : Z := base + pages (p_vaddr ph + p_memsz ph).

(** What they hold: the file up to the end of its last page, with zeros after the file part when the
    segment is writable, and zeros on the pages after. *)
Definition seg_byte (file : list Z) (base : Z) (ph : Elf_Phdr) (x : Z) : Z :=
  let i := x - (base + p_vaddr ph) in
  if i <? (if writes ph then p_filesz ph else pages (p_vaddr ph + p_filesz ph) - p_vaddr ph) then default 0 (file !! Z.to_nat (p_offset ph + i)) else 0.
Definition seg_prot (ph : Elf_Phdr) : Z := let p := PFLAGS_TO_PROT (p_flags ph) in if writes ph then p else Z.lor p PROT_WRITE.
Definition seg_cell (file : list Z) (base : Z) (ph : Elf_Phdr) (x : Z) : option cell := Some (Cell (Some (seg_byte file base ph x)) (seg_prot ph)).

Lemma prot_writable f : has f PF_W = true -> has (PFLAGS_TO_PROT f) PROT_WRITE = true.
Proof. unfold PFLAGS_TO_PROT, MAYBE_MAP_FLAG. intros ->. destruct (has f PF_X), (has f PF_R); reflexivity. Qed.

Section segment.
Context (file : list Z) (base : Z) (ph : Elf_Phdr).
Hypothesis Hbase : 0 <= base /\ base mod 4096 = 0.
Hypothesis Hseg : seg_ok file base ph.

(** The mapped length of the file part, from the start of the first page. *)
Definition file_len : Z := p_filesz ph + p_vaddr ph mod 4096.

Lemma seg_layout :
  start (p_vaddr ph) = p_vaddr ph - p_vaddr ph mod 4096 /\ 0 <= p_vaddr ph mod 4096 < 4096 /\ seg_start base ph mod 4096 = 0 /\
  seg_start base ph + pages file_len = base + pages (p_vaddr ph + p_filesz ph) /\
  seg_start base ph + file_len = base + p_vaddr ph + p_filesz ph /\
  0 <= seg_start base ph /\ seg_start base ph + pages file_len <= seg_end base ph /\ seg_end base ph < 2 ^ 32 /\ seg_end base ph mod 4096 = 0.
Proof.
  destruct Hbase as [Hb0 Hb], Hseg. unfold seg_start, seg_end, file_len, start.
  pose proof (Z.mod_pos_bound (p_vaddr ph) 4096). pose proof (Z.div_mod (p_vaddr ph) 4096). pose proof (Z.div_mod base 4096). pose proof (Z.div_pos (p_vaddr ph) 4096).
  destruct (pages_spec (p_vaddr ph + p_filesz ph)) as (k1 & E1 & ?), (pages_spec (p_vaddr ph + p_memsz ph)) as (k2 & E2 & ?),
    (pages_spec (p_filesz ph + p_vaddr ph mod 4096)) as (k3 & E3 & ?).
  split_and!; try lia.
  - replace (_ + _) with ((base / 4096 + p_vaddr ph / 4096) * 4096) by lia. apply Z.mod_mul. lia.
  - replace (_ + _) with ((base / 4096 + k2) * 4096) by lia. apply Z.mod_mul. lia.
Qed.

Lemma file_part m : let p := PFLAGS_TO_PROT (p_flags ph) in let a := seg_start base ph in
  exists m', (if has file_len PAGE_MASK && writes ph
              then memset0 (over m a (pages file_len) (from_file file a (page_down (p_offset ph)) p)) (u32 (a + file_len)) (PAGE_SIZE - Z.land file_len PAGE_MASK)
              else Ok (over m a (pages file_len) (from_file file a (page_down (p_offset ph)) p))) = Ok m' /\
    (forall x, a <= x < a + pages file_len -> m' x = Some (Cell (Some (seg_byte file base ph x)) p)) /\
    forall x, ~ a <= x < a + pages file_len -> m' x = m x.
Proof.
  intros p a. destruct seg_layout as (E1 & E2 & E3 & E4 & E5 & E6 & E7 & E8 & _). fold a in E3, E4, E5, E6, E7.
  set (m1 := over m a (pages file_len) (from_file file a (page_down (p_offset ph)) p)).
  assert (page_down (p_offset ph) = p_offset ph - p_vaddr ph mod 4096) as Eoff
    by (rewrite page_down_start by (destruct Hseg; unfold in_range; lia); unfold start; rewrite (s_congruent _ _ _ Hseg); reflexivity).
  assert (forall x, a <= x < a + pages file_len -> m1 x = Some (Cell (Some (default 0 (file !! Z.to_nat (p_offset ph + (x - (base + p_vaddr ph)))))) p)) as H1.
  { intros x Hx. unfold m1. rewrite over_in by assumption. unfold from_file. rewrite Eoff.
    replace (p_offset ph - p_vaddr ph mod 4096 + (x - a)) with (p_offset ph + (x - (base + p_vaddr ph))) by (unfold a, seg_start; lia).
    rewrite (proj2 (Z.ltb_lt _ _)); [reflexivity|]. destruct Hseg. pose proof (Z.div_mod (p_offset ph) 4096).
    pose proof (Z.div_mod (p_vaddr ph) 4096). unfold a, seg_start, start in *.
    destruct (pages_spec (Z.of_nat (length file))) as (k1 & Ek1 & ?), (pages_spec file_len) as (k2 & Ek2 & ?). unfold file_len in *. lia. }
  assert (forall x, ~ a <= x < a + pages file_len -> m1 x = m x) as H2 by (intros x Hx; now apply over_out).
  unfold has. rewrite mask_mod. pose proof (Z.mod_pos_bound file_len 4096 ltac:(lia)) as Hm. pose proof (Z.div_mod file_len 4096 ltac:(lia)) as Hd.
  destruct (pages_spec file_len) as (k & Ek & Hk). assert (0 <= file_len) as Hf0 by (destruct Hseg; unfold file_len; lia).
  destruct (negb (file_len mod 4096 =? 0) && writes ph) eqn:C.
  - apply andb_true_iff in C as [C Hw]. apply negb_true_iff, Z.eqb_neq in C. rewrite wrap_small by (unfold in_range; lia). unfold PAGE_SIZE.
    rewrite memset0_ok.
    + eexists. split; [reflexivity|]. split; intros x Hx.
      * unfold seg_byte. rewrite Hw. destruct (Z_lt_le_dec x (a + file_len)).
        -- rewrite over_out, H1 by lia. rewrite (proj2 (Z.ltb_lt _ _)) by lia. reflexivity.
        -- rewrite over_in, H1 by lia. rewrite (proj2 (Z.ltb_ge _ _)) by lia. reflexivity.
      * rewrite over_out by lia. now apply H2.
    + intros x Hx. unfold writable. rewrite H1 by lia. now apply prot_writable.
  - exists m1. split; [reflexivity|]. split; [|assumption]. intros x Hx. rewrite H1 by assumption. unfold seg_byte.
    rewrite (proj2 (Z.ltb_lt _ _)); [reflexivity|]. destruct (writes ph); [|lia]. rewrite andb_true_r in C. apply negb_false_iff, Z.eqb_eq in C. lia.
Qed.

(** The kernel grants the next [n] mappings. *)
Definition ready (n : nat) (s : kernel) : Prop := Forall is_Some (answers s) /\ (n <= length (answers s))%nat.

Lemma ready_answer n s : ready (S n) s -> exists a s', answer s = (Some a, s') /\ ready n s'.
Proof.
  unfold ready, answer. destruct (answers s) as [|o l]; cbn; [lia|]. intros [H Hl]. inversion H as [|? ? [a ->] H']; subst. exists a, (Kernel (vm s) l).
  split; [reflexivity|]. cbn. split; [assumption|lia].
Qed.

Lemma ready_vm n s m : ready n s -> ready n (Kernel m (answers s)).
Proof. auto. Qed.

Lemma write_protect_ok s im : let a := seg_start base ph in let n := seg_end base ph - seg_start base ph in
  (forall x, a <= x < seg_end base ph -> vm s x = Some (Cell (Some (seg_byte file base ph x)) (PFLAGS_TO_PROT (p_flags ph)))) ->
  exists s' im', write_protect ph a n s im = (s', im') /\ answers s' = answers s /\
    (forall x, a <= x < seg_end base ph -> vm s' x = seg_cell file base ph x) /\ forall x, ~ a <= x < seg_end base ph -> vm s' x = vm s x.
Proof.
  intros a n H. destruct seg_layout as (E1 & E2 & E3 & E4 & E5 & E6 & E7 & E8 & E9).
  assert (pages n = n) as En.
  { pose proof (Z.div_mod (seg_start base ph) 4096). pose proof (Z.div_mod (seg_end base ph) 4096). destruct (pages_spec n) as (k & Ek & ?). lia. }
  destruct (pages_spec file_len) as (k & Ek & Hk). assert (0 <= file_len) by (destruct Hseg; unfold file_len; lia).
  assert (0 <= n /\ a + n = seg_end base ph) as [Hn Hend] by (unfold a, n; lia).
  unfold write_protect, seg_cell, seg_prot, writes. destruct (has (p_flags ph) PF_W); cbn [negb]; [exists s, im; auto|].
  eexists _, _. split; [reflexivity|]. split; [reflexivity|]. cbn [vm answers]. split; intros x Hx.
  - rewrite mprotect_in; [now rewrite H|assumption| |lia]. intros y Hy. rewrite H by lia. eauto.
  - apply mprotect_out; lia.
Qed.

(** The steps after the file part: the pages after it, and the protection. *)
Lemma load_segment_spec s im :
  exists r s' im', load_segment file base ph s im = Ok (r, s', im') /\
    (forall x, ~ seg_start base ph <= x < seg_end base ph -> vm s' x = vm s x) /\
    (forall len, r = Some len -> len = seg_end base ph - seg_start base ph /\ forall x, seg_start base ph <= x < seg_end base ph -> vm s' x = seg_cell file base ph x) /\
    (forall n, 0 < file_len -> ready (2 + n) s -> r <> None /\ ready n s').
Proof.
  destruct seg_layout as (E1 & E2 & E3 & E4 & E5 & E6 & E7 & E8 & E9). pose proof Hseg as K. destruct K, Hbase as [Hb0 Hb].
  destruct (pages_spec file_len) as (kf & Ekf & Hkf).
  unfold load_segment. rewrite mask_mod, page_down_start by (unfold in_range; lia). fold (seg_start base ph).
  change (p_filesz ph + p_vaddr ph mod 4096) with file_len. assert (0 <= file_len) as Hf0 by (unfold file_len; lia).
  rewrite !(wrap_small _ (seg_start base ph)), !(wrap_small _ file_len) by (unfold in_range; lia).
  destruct (Z_lt_le_dec 0 file_len) as [Hpos|Hz].
  2: { replace (mmap_fixed s _ file_len _) with (@None Z, (answer s).2)
         by (unfold mmap_fixed, map_args_ok; rewrite (proj2 (Z.ltb_ge 0 file_len)) by lia; destruct (answer s) as [[?|] ?]; reflexivity).
       eexists None, _, im. split; [reflexivity|]. split; [intros x _; now rewrite answer_vm|]. split; [discriminate|lia]. }
  rewrite map_ok by lia. pose proof (answer_vm s) as Hvm. destruct (answer s) as [[a0|] s0] eqn:Ha; cbn [snd] in Hvm.
  2: { eexists None, s0, im. split; [reflexivity|]. split; [intros x _; now rewrite Hvm|]. split; [discriminate|].
       intros n _ Hr. apply ready_answer in Hr as (? & ? & E & _). rewrite Ha in E. discriminate. }
  cbn [vm answers]. fold (writes ph). destruct (file_part (vm s0)) as (m2 & -> & Hin & Hout). cbn [obind].
  set (T := seg_start base ph + pages file_len) in *. set (e := base + p_vaddr ph + p_memsz ph).
  assert (page_up (u32 (seg_start base ph + file_len)) = T) as -> by (rewrite wrap_small by (unfold in_range; lia); rewrite page_up_pages by lia; now apply pages_shift).
  rewrite (wrap_small 32 e) by (unfold e, in_range; lia).
  assert (pages e = seg_end base ph) as Ee by (unfold e, seg_end; rewrite <- Z.add_assoc; now apply pages_shift).
  rewrite (page_up_pages e), Ee, (wrap_small 32 (seg_end base ph - _)) by (unfold e, in_range; lia).
  assert (T <= seg_end base ph) as HTe by lia.
  destruct (Z.ltb_spec T e) as [HT|HT].
  - rewrite (wrap_small 32 (e - T)) by (unfold e, in_range; lia).
    assert (T mod 4096 = 0) as HTm by (unfold T; rewrite Ekf, Z.add_mod, E3, Z.mul_comm, Z.mod_mul by lia; reflexivity).
    assert (T + pages (e - T) = seg_end base ph) as HTp by (rewrite <- pages_shift by assumption; rewrite <- Ee; f_equal; lia).
    rewrite map_ok by lia. pose proof (answer_vm (Kernel m2 (answers s0))) as Hvm2. destruct (answer (Kernel m2 (answers s0))) as [[a1|] s2] eqn:Ha2; cbn [snd vm] in Hvm2.
    + destruct (write_protect_ok (Kernel (over (vm s2) T (pages (e - T)) (anonymous (PFLAGS_TO_PROT (p_flags ph)))) (answers s2)) im) as (s' & im' & -> & Ha' & Hi & Ho).
      * cbn [vm]. intros x Hx. destruct (Z_lt_le_dec x T); [rewrite over_out, Hvm2 by lia; apply Hin; lia|]. rewrite over_in by lia. unfold anonymous, seg_byte.
        rewrite (proj2 (Z.ltb_ge _ _)); [reflexivity|]. destruct (writes ph); lia.
      * eexists _, s', im'. split; [reflexivity|]. split; [intros x Hx; rewrite Ho by assumption; cbn [vm]; rewrite over_out, Hvm2, Hout, Hvm by lia; reflexivity|].
        split; [intros len [= <-]; auto|]. intros n _ Hr. split; [discriminate|]. apply ready_answer in Hr as (? & ? & E & Hr). rewrite Ha in E.
        injection E as _ <-. apply (ready_vm _ _ m2), ready_answer in Hr as (? & ? & E & Hr). rewrite Ha2 in E. injection E as _ <-. unfold ready in *. now rewrite Ha'.
    + eexists None, s2, im. split; [reflexivity|]. split; [intros x Hx; rewrite Hvm2, Hout, Hvm by lia; reflexivity|]. split; [discriminate|].
      intros n _ Hr. apply ready_answer in Hr as (? & ? & E & Hr). rewrite Ha in E. injection E as _ <-. apply (ready_vm _ _ m2), ready_answer in Hr as (? & ? & E & _).
      rewrite Ha2 in E. discriminate.
  - destruct (write_protect_ok (Kernel m2 (answers s0)) im) as (s' & im' & -> & Ha' & Hi & Ho).
    + cbn [vm]. intros x Hx. apply Hin. pose proof (Z.div_mod (seg_start base ph) 4096). destruct (pages_spec e) as (? & ? & ?). lia.
    + eexists _, s', im'. split; [reflexivity|]. split; [intros x Hx; rewrite Ho by assumption; cbn [vm]; rewrite Hout, Hvm by lia; reflexivity|].
      split; [intros len [= <-]; auto|]. intros n _ Hr. split; [discriminate|]. apply ready_answer in Hr as (? & ? & E & Hr). rewrite Ha in E. injection E as _ <-.
      unfold ready in *. rewrite Ha'. cbn. split; [tauto|lia].
Qed.
End segment.

(** ** All segments *)

(** The program headers of a header page. *)
Fixpoint phdrs_at (h : list Z) (n : nat) (x : Z) : outcome (list Elf_Phdr) :=
  match n with O => Ok [] | S n => let! ph := phdr_at h x in let! phs := phdrs_at h n (x + 32) in Ok (ph :: phs) end.
Definition program_headers (h : list Z) : outcome (list Elf_Phdr) :=
  let! phoff := e_phoff h in let! num := e_phnum h in phdrs_at h (Z.to_nat num) phoff.

Fixpoint load_all (file : list Z) (base size : Z) (phs : list Elf_Phdr) (total : Z) (s : kernel) (im : image) : outcome (option Z * kernel * image) :=
  match phs with
  | [] => Ok (Some total, s, im)
  | ph :: phs => let! (r, s, im) := load_phdr file base size ph s im in
                 match r with None => Ok (None, s, im) | Some len => load_all file base size phs (u32 (total + len)) s im end
  end.

Lemma load_loop_all file h base size : forall n x phs total s im, phdrs_at h n x = Ok phs ->
  load_loop file h base size n x total s im = load_all file base size phs total s im.
Proof.
  induction n as [|n IH]; intros x phs total s im; cbn [phdrs_at load_loop]; [now intros [= <-]|]. intros H. inv_ok. rewrite Ha. cbn [obind load_all].
  destruct (load_phdr file base size a s im) as [[[r s'] im']| |]; cbn [obind]; auto. destruct r; auto.
Qed.

Definition loads (phs : list Elf_Phdr) (ph : Elf_Phdr) : Prop := ph ∈ phs /\ p_type ph = PT_LOAD.
Definition in_seg (base : Z) (ph : Elf_Phdr) (x : Z) : Prop := seg_start base ph <= x < seg_end base ph.

Lemma other_phdr file base size ph s im : p_type ph <> PT_LOAD -> exists r im', load_phdr file base size ph s im = Ok (r, s, im') /\ (r = None \/ r = Some 0) /\
  (p_type ph <> PT_GNU_RELRO -> r = Some 0) /\
  (p_vaddr ph < size -> 0 <= p_vaddr ph -> 0 <= p_memsz ph -> p_vaddr ph + p_memsz ph <= size -> 0 <= base -> base + size < 2 ^ 32 -> r = Some 0).
Proof.
  intros H. unfold load_phdr. rewrite (proj2 (Z.eqb_neq _ _) H). destruct (p_type ph =? PT_DYNAMIC); [eexists _, _; split; [reflexivity|]; auto|].
  destruct (Z.eqb_spec (p_type ph) PT_GNU_RELRO); [|destruct (_ =? PT_ARM_EXIDX); eexists _, _; (split; [reflexivity|]; auto)].
  destruct (_ || _) eqn:C; eexists _, _; (split; [reflexivity|]); [|auto]. split; [auto|]. split; [congruence|]. intros.
  rewrite !wrap_small, !orb_true_iff, Z.leb_le, !Z.ltb_lt in C by (unfold in_range; lia). lia.
Qed.

(** What the pages hold after a successful pass satisfies whatever each segment's contents satisfy. *)
Lemma load_all_spec file base size : 0 <= base /\ base mod 4096 = 0 -> forall phs total s im, (forall ph, loads phs ph -> seg_ok file base ph) ->
  exists r s' im', load_all file base size phs total s im = Ok (r, s', im') /\
    (forall x, (forall ph, loads phs ph -> ~ in_seg base ph x) -> vm s' x = vm s x) /\
    (r <> None -> forall x (P : option cell -> Prop), (forall ph, loads phs ph -> in_seg base ph x -> P (seg_cell file base ph x)) ->
       P (vm s x) \/ (exists ph, loads phs ph /\ in_seg base ph x) -> P (vm s' x)).
Proof.
  intros Hb. induction phs as [|ph phs IH]; intros total s im Hok; cbn [load_all].
  { eexists _, s, im. split; [reflexivity|]. split; [auto|]. intros _ x P _ [H|(ph & [Hin _] & _)]; [assumption|now apply not_elem_of_nil in Hin]. }
  assert (forall ph', loads phs ph' -> loads (ph :: phs) ph') as Hsub by (intros ph' [? ?]; split; [now right|assumption]).
  destruct (Z.eq_dec (p_type ph) PT_LOAD) as [Ht|Ht].
  - assert (loads (ph :: phs) ph) as Hl by (split; [left|assumption]). unfold load_phdr. rewrite (proj2 (Z.eqb_eq _ _) Ht).
    destruct (load_segment_spec file base ph Hb (Hok ph Hl) s im) as (r & s1 & im1 & -> & Ho & Hi & _). cbn [obind].
    destruct r as [len|]; [|eexists None, s1, im1; split; [reflexivity|]; split; [intros x Hx; apply Ho, (Hx ph Hl)|congruence]].
    destruct (Hi len eq_refl) as [_ Hc]. destruct (IH (u32 (total + len)) s1 im1 (fun q Hq => Hok q (Hsub q Hq))) as (r' & s' & im' & -> & Ho' & Hi').
    eexists r', s', im'. split; [reflexivity|]. split.
    + intros x Hx. rewrite Ho' by (intros q Hq; apply Hx, Hsub, Hq). apply Ho, (Hx ph Hl).
    + intros Hr x P HP Hor. apply (Hi' Hr x P); [intros q Hq; apply HP, Hsub, Hq|]. destruct Hor as [HPs|(q & [[->|Hq]%elem_of_cons Hqt] & Hqx)].
      * left. destruct (decide (seg_start base ph <= x < seg_end base ph)) as [Hx|Hx]; [rewrite Hc by assumption; now apply HP|now rewrite Ho].
      * left. rewrite Hc by assumption. now apply HP.
      * right. exists q. split; [split; assumption|assumption].
  - destruct (other_phdr file base size ph s im Ht) as (r & im1 & -> & Hr & _). cbn [obind].
    assert (forall q, loads (ph :: phs) q -> loads phs q) as Hsame by (intros q [[->|Hq]%elem_of_cons Hqt]; [contradiction|split; assumption]).
    destruct r as [len|]; [|eexists None, s, im1; split; [reflexivity|]; split; [auto|congruence]].
    destruct (IH (u32 (total + len)) s im1 (fun q Hq => Hok q (Hsub q Hq))) as (r' & s' & im' & -> & Ho' & Hi').
    eexists r', s', im'. split; [reflexivity|]. split; [intros x Hx; apply Ho'; intros q Hq; apply Hx, Hsub, Hq|].
    intros Hn x P HP Hor. apply (Hi' Hn x P); [intros q Hq; apply HP, Hsub, Hq|]. destruct Hor as [HPs|(q & Hq & Hqx)]; [now left|right; exists q; auto].
Qed.

(** ** Extents *)

(** What the header says of a loadable segment, before it has an address. *)
Record header_ok (file : list Z) (ph : Elf_Phdr) : Prop := {
  h_vaddr : 0 <= p_vaddr ph;
  h_filesz : 0 <= p_filesz ph <= p_memsz ph;
  h_offset : 0 <= p_offset ph < 2 ^ 32;
  h_top : p_vaddr ph + p_memsz ph + 4095 < 2 ^ 32;
  h_congruent : p_offset ph mod 4096 = p_vaddr ph mod 4096;
  h_file : p_offset ph + p_filesz ph <= Z.of_nat (length file) }.

Lemma extents_spec file h : forall n x phs mn mx, phdrs_at h n x = Ok phs -> (forall ph, loads phs ph -> header_ok file ph) -> 0 <= mn -> 0 <= mx -> mx + 4095 < 2 ^ 32 ->
  exists mn' mx', extents_loop h n x mn mx = Ok (mn', mx') /\ 0 <= mn' <= mn /\ mx <= mx' /\ mx' + 4095 < 2 ^ 32 /\
    forall ph, loads phs ph -> mn' <= p_vaddr ph /\ p_vaddr ph + p_memsz ph <= mx'.
Proof.
  induction n as [|n IH]; intros x phs mn mx; cbn [phdrs_at extents_loop].
  { intros [= <-] _ ? ? ?. exists mn, mx. split; [reflexivity|]. split_and!; try lia. intros ph [H _]. now apply not_elem_of_nil in H. }
  intros H Hok Hmn Hmx Hm. inv_ok. rename a into ph, a0 into phs'. rewrite Ha. cbn [obind].
  assert (forall q, loads phs' q -> loads (ph :: phs') q) as Hsub by (intros q [? ?]; split; [now right|assumption]).
  destruct (Z.eqb_spec (p_type ph) PT_LOAD) as [Ht|Ht].
  - destruct (Hok ph) as [h1 h2 _ h3 _ _]; [split; [left|assumption]|]. rewrite wrap_small by (unfold in_range; lia).
    destruct (IH (x + 32) phs' (if p_vaddr ph <? mn then p_vaddr ph else mn) (if mx <? p_vaddr ph + p_memsz ph then p_vaddr ph + p_memsz ph else mx)) as (mn' & mx' & -> & H1 & H2 & H3 & H4);
      [assumption|auto|..]; try (destruct (Z.ltb_spec (p_vaddr ph) mn), (Z.ltb_spec mx (p_vaddr ph + p_memsz ph)); lia).
    exists mn', mx'. split; [reflexivity|]. destruct (Z.ltb_spec (p_vaddr ph) mn), (Z.ltb_spec mx (p_vaddr ph + p_memsz ph));
      (split_and!; try lia; intros q [[->|Hq]%elem_of_cons Hqt]; [lia|apply H4; split; assumption]).
  - destruct (IH (x + 32) phs' mn mx) as (mn' & mx' & -> & H1 & H2 & H3 & H4); auto. exists mn', mx'. split; [reflexivity|]. split_and!; try lia.
    intros q [[->|Hq]%elem_of_cons Hqt]; [contradiction|]. apply H4. split; assumption.
Qed.

(** The hypotheses on a library file: its program headers are inside the header page, every loadable
    segment is well formed, and one starts on the first page. *)
Record file_ok (file h : list Z) (phs : list Elf_Phdr) : Prop := {
  f_headers : program_headers h = Ok phs;
  f_loads : forall ph, loads phs ph -> header_ok file ph;
  f_first : exists ph, loads phs ph /\ p_vaddr ph < 4096 /\ 0 < file_len ph }.

Lemma extents_cover file h phs k req size : file_ok file h phs -> get_lib_extents k file h = Ok (Some (req, size)) ->
  4096 <= size < 2 ^ 32 /\ size mod 4096 = 0 /\ forall ph, loads phs ph -> pages (p_vaddr ph + p_memsz ph) <= size.
Proof.
  intros F H. destruct F as [Hp Hl (ph0 & Hl0 & Hv0 & Hf0)]. unfold get_lib_extents in H. unfold program_headers in Hp.
  destruct (verify_elf_object h) as [v| |]; try discriminate. cbn [obind] in H. destruct (v <? 0); [discriminate|].
  destruct (is_prelinked k file) as [b| |]; try discriminate. cbn [obind] in H. destruct (b =? _); [discriminate|].
  destruct (e_phoff h) as [off| |]; try discriminate. cbn [obind] in H, Hp. destruct (e_phnum h) as [num| |]; try discriminate. cbn [obind] in H, Hp.
  destruct (extents_spec file h _ _ _ 0xffffffff 0 Hp Hl) as (mn & mx & E & H1 & H2 & H3 & H4); try lia. rewrite E in H. cbn [obind] in H.
  destruct (_ && _); [discriminate|]. destruct (H4 ph0 Hl0) as [Hmn Hmx]. injection H as _ <-. destruct (Hl ph0 Hl0) as [h1 h2 _ _ _ _].
  rewrite page_up_pages by lia. rewrite page_down_start by (unfold in_range; lia). unfold start. rewrite (Z.mod_small mn) by lia. rewrite Z.sub_diag, Z.sub_0_r.
  destruct (pages_spec mx) as (j & Ej & Hj). rewrite wrap_small by (unfold in_range; lia). pose proof (Z.mod_small (p_vaddr ph0) 4096 ltac:(lia)).
  assert (0 < mx) by (unfold file_len in Hf0; lia). split_and!; try lia.
  - rewrite Ej, Z.mul_comm. apply Z.mod_mul. lia.
  - intros ph Hph. destruct (H4 ph Hph). destruct (pages_spec (p_vaddr ph + p_memsz ph)) as (i & Ei & Hi). lia.
Qed.

(** A reserved region for the library. *)
Definition region_ok (base size : Z) : Prop := 0 <= base /\ base mod 4096 = 0 /\ base + size < 2 ^ 32.

Lemma placed file base size ph : region_ok base size -> size mod 4096 = 0 -> header_ok file ph -> pages (p_vaddr ph + p_memsz ph) <= size ->
  seg_ok file base ph /\ base <= seg_start base ph /\ seg_end base ph <= base + size.
Proof.
  intros (H1 & H2 & H3) Hs [] Hp. pose proof (Z.div_mod base 4096). pose proof (Z.div_mod size 4096). destruct (pages_spec (p_vaddr ph + p_memsz ph)) as (k & Ek & Hk).
  split; [constructor; auto; lia|]. unfold seg_start, seg_end, start. pose proof (Z.mod_le (p_vaddr ph) 4096). lia.
Qed.

Lemma load_segments_spec k file h phs req base size s im :
  file_ok file h phs -> get_lib_extents k file h = Ok (Some (req, size)) -> region_ok base size ->
  exists ok s' im', load_segments file h base size s im = Ok (ok, s', im') /\
    (forall x, ~ base <= x < base + size -> vm s' x = vm s x) /\
    (ok = false -> forall x, base <= x < base + size -> vm s' x = None) /\
    (ok = true -> forall x (P : option cell -> Prop), (forall ph, loads phs ph -> in_seg base ph x -> P (seg_cell file base ph x)) ->
       P (vm s x) \/ (exists ph, loads phs ph /\ in_seg base ph x) -> P (vm s' x)).
Proof.
  intros F E R. destruct (extents_cover _ _ _ _ _ _ F E) as (Hs & Hm & Hc). pose proof (f_headers _ _ _ F) as Hp. unfold program_headers in Hp.
  unfold load_segments. destruct (e_phoff h) as [off| |]; try discriminate. cbn [obind] in *. destruct (e_phnum h) as [num| |]; try discriminate. cbn [obind] in *.
  rewrite (load_loop_all _ _ _ _ _ _ _ _ _ _ Hp). edestruct (load_all_spec file base size) as (r & s' & im' & -> & Ho & Hi).
  { destruct R as (? & ? & ?). auto. } { intros ph Hl. apply (placed file base size); auto. now apply (f_loads _ _ _ F). }
  cbn [obind]. assert (forall x, ~ base <= x < base + size -> vm s' x = vm s x) as Hout.
  { intros x Hx. apply Ho. intros ph Hl Hin. unfold in_seg in Hin. destruct (placed file base size ph R Hm) as (_ & ? & ?); auto; [now apply (f_loads _ _ _ F)|lia]. }
  assert (pages size = size) as Hps by (destruct (pages_spec size) as (j & ? & ?); pose proof (Z.div_mod size 4096); lia).
  destruct r as [total|]; [destruct (size <? total)|].
  2: eexists true, s', im'; split; [reflexivity|]; split; [assumption|]; split; [discriminate|]; intros _; apply Hi; discriminate.
  all: eexists false, _, im'; (split; [reflexivity|]); cbn [vm]; unfold munmap; rewrite Hps;
    split; [intros x Hx; rewrite over_out by lia; auto|split; [intros _ x Hx; now rewrite over_in|discriminate]].
Qed.

(** C15: loading the segments of a well-formed library (program headers in the header page; every loadable segment
    no larger in the file than in memory, below 4 GiB, inside the file and congruent to its offset; one of them with file bytes starting on page 0; the
    examples below show that other files escape the region) into the region
    reserved from its extents always returns, whatever mappings the kernel grants; it changes no address
    outside the region, and when it fails it leaves the whole region unmapped. *)
Theorem segments_confined k file h phs req base size s im :
  file_ok file h phs -> get_lib_extents k file h = Ok (Some (req, size)) -> region_ok base size ->
  exists ok s' im', load_segments file h base size s im = Ok (ok, s', im') /\
    (forall x, ~ base <= x < base + size -> vm s' x = vm s x) /\
    (ok = false -> forall x, base <= x < base + size -> vm s' x = None).
Proof. intros F E R. destruct (load_segments_spec k file h phs req base size s im F E R) as (ok & s' & im' & H & H1 & H2 & _). eauto 6. Qed.

(** ** The loaded image *)

(** The loadable segments are in order and share no page. *)
Fixpoint ascending (lo : Z) (phs : list Elf_Phdr) : Prop :=
  match phs with
  | [] => True
  | ph :: phs => if p_type ph =? PT_LOAD then lo <= start (p_vaddr ph) /\ ascending (pages (p_vaddr ph + p_memsz ph)) phs else ascending lo phs
  end.

Lemma ascending_above file phs : (forall ph, loads phs ph -> header_ok file ph) -> forall lo ph, ascending lo phs -> loads phs ph -> lo <= start (p_vaddr ph).
Proof.
  induction phs as [|q phs IH]; intros Hok lo ph Ha [Hin Ht]; [now apply not_elem_of_nil in Hin|].
  assert (forall q', loads phs q' -> header_ok file q') as Hok' by (intros q' [? ?]; apply Hok; split; [now right|assumption]).
  cbn [ascending] in Ha. destruct (Z.eqb_spec (p_type q) PT_LOAD) as [Hq|Hq].
  - destruct Ha as [H1 H2]. apply elem_of_cons in Hin as [->|Hin]; [assumption|]. pose proof (IH Hok' _ ph H2 (conj Hin Ht)).
    destruct (Hok q) as [h1 h2 _ _ _ _]; [split; [left|assumption]|]. destruct (pages_spec (p_vaddr q + p_memsz q)) as (j & Ej & Hj). unfold start in *. pose proof (Z.mod_pos_bound (p_vaddr q) 4096). lia.
  - apply elem_of_cons in Hin as [->|Hin]; [contradiction|]. apply (IH Hok' lo ph Ha). split; assumption.
Qed.

Lemma ascending_unique file base phs : (forall ph, loads phs ph -> header_ok file ph) -> forall lo ph q x, ascending lo phs ->
  loads phs ph -> loads phs q -> in_seg base ph x -> in_seg base q x -> ph = q.
Proof.
  induction phs as [|p phs IH]; intros Hok lo ph q x Ha [H1 T1] [H2 T2] X1 X2; [now apply not_elem_of_nil in H1|].
  assert (forall q', loads phs q' -> header_ok file q') as Hok' by (intros q' [? ?]; apply Hok; split; [now right|assumption]).
  cbn [ascending] in Ha. apply elem_of_cons in H1, H2. unfold in_seg, seg_start, seg_end in *.
  destruct (Z.eqb_spec (p_type p) PT_LOAD) as [Hp|Hp]; [destruct Ha as [_ Ha]|].
  - destruct H1 as [->|H1], H2 as [->|H2]; [reflexivity| | |apply (IH Hok' _ ph q x Ha); (split; assumption) || assumption].
    + pose proof (ascending_above file phs Hok' _ q Ha (conj H2 T2)). lia.
    + pose proof (ascending_above file phs Hok' _ ph Ha (conj H1 T1)). lia.
  - destruct H1 as [->|H1]; [contradiction|]. destruct H2 as [->|H2]; [contradiction|]. apply (IH Hok' lo ph q x Ha); (split; assumption) || assumption.
Qed.

(** The other headers the loop accepts: a read-only-after-relocation range inside the region. *)
Definition relro_ok (size : Z) (ph : Elf_Phdr) : Prop :=
  p_type ph = PT_GNU_RELRO -> 0 <= p_vaddr ph < size /\ 0 <= p_memsz ph /\ p_vaddr ph + p_memsz ph <= size.

Lemma load_all_succeeds file base size : region_ok base size -> size mod 4096 = 0 -> 0 <= size -> forall phs lo total s im,
  (forall ph, loads phs ph -> header_ok file ph /\ 0 < file_len ph /\ pages (p_vaddr ph + p_memsz ph) <= size) -> (forall ph, ph ∈ phs -> relro_ok size ph) ->
  ascending lo phs -> 0 <= total <= lo -> lo <= size -> ready (2 * length phs) s ->
  exists total' s' im', load_all file base size phs total s im = Ok (Some total', s', im') /\ total' <= size.
Proof.
  intros R Hm Hsz. pose proof R as (R1 & R2 & R3). induction phs as [|ph phs IH]; intros lo total s im Hok Hrel Ha Ht Hlo Hr; cbn [load_all]; [eexists _, _, _; split; [reflexivity|lia]|].
  assert (forall q, loads phs q -> loads (ph :: phs) q) as Hsub by (intros q [? ?]; split; [now right|assumption]).
  cbn [ascending] in Ha. unfold load_phdr. destruct (Z.eqb_spec (p_type ph) PT_LOAD) as [Hp|Hp].
  - destruct Ha as [H1 H2]. destruct (Hok ph) as (K & Hf & Hpg); [split; [left|assumption]|]. destruct (placed file base size ph R Hm K Hpg) as (S & Hb & He).
    destruct (load_segment_spec file base ph (conj R1 R2) S s im) as (r & s1 & im1 & -> & _ & Hi & Hready). cbn [obind].
    destruct (Hready (2 * length phs)%nat Hf) as [Hn Hr1]; [cbn [length] in Hr; unfold ready in *; split; [tauto|lia]|].
    destruct r as [len|]; [|contradiction]. destruct (Hi len eq_refl) as [-> _]. destruct (seg_layout file base ph (conj R1 R2) S) as (_ & _ & _ & _ & _ & L6 & L7 & _).
    unfold seg_start, seg_end in *. destruct (pages_spec (file_len ph)) as (j & ? & ?).
    rewrite wrap_small by (unfold in_range; lia). apply (IH (pages (p_vaddr ph + p_memsz ph))); auto; try lia. intros q Hq. apply Hrel. now right.
  - destruct (other_phdr file base size ph s im Hp) as (r & im1 & E & _ & H1 & H2). unfold load_phdr in E. rewrite (proj2 (Z.eqb_neq _ _) Hp) in E. rewrite E. cbn [obind].
    assert (r = Some 0) as ->.
    { destruct (Z.eq_dec (p_type ph) PT_GNU_RELRO) as [Hg|Hg]; [|auto]. destruct (Hrel ph ltac:(left) Hg) as (? & ? & ?). apply H2; lia. }
    rewrite Z.add_0_r, wrap_small by (unfold in_range; lia). apply (IH lo); auto; try lia; [intros q Hq; apply Hrel; now right|]. cbn [length] in Hr. unfold ready in *. split; [tauto|lia].
Qed.

(** What a loadable segment must look like in memory. *)
Definition segment_loaded (file : list Z) (base : Z) (m : space) (ph : Elf_Phdr) : Prop :=
  forall k, 0 <= k < p_memsz ph -> exists c, m (base + p_vaddr ph + k) = Some c /\ prot c = seg_prot ph /\
    (k < p_filesz ph -> byte c = file !! Z.to_nat (p_offset ph + k)) /\
    (p_filesz ph <= k -> writes ph = true \/ pages (p_vaddr ph + p_filesz ph) <= p_vaddr ph + k -> byte c = Some 0).

Lemma cell_loaded file base m ph : header_ok file ph -> (forall x, in_seg base ph x -> m x = seg_cell file base ph x) -> segment_loaded file base m ph.
Proof.
  intros [] H k Hk. eexists. split.
  { rewrite H; [reflexivity|]. unfold in_seg, seg_start, seg_end, start. destruct (pages_spec (p_vaddr ph + p_memsz ph)) as (j & ? & ?). pose proof (Z.mod_pos_bound (p_vaddr ph) 4096). lia. }
  split; [reflexivity|]. cbn [byte]. unfold seg_byte. replace (base + p_vaddr ph + k - (base + p_vaddr ph)) with k by lia.
  destruct (pages_spec (p_vaddr ph + p_filesz ph)) as (j & ? & ?). split.
  - intros Hf. rewrite (proj2 (Z.ltb_lt _ _)) by (destruct (writes ph); lia). destruct (lookup_lt_is_Some_2 file (Z.to_nat (p_offset ph + k))) as [b Hb]; [lia|]. now rewrite Hb.
  - intros Hf Hz. rewrite (proj2 (Z.ltb_ge _ _)); [reflexivity|]. destruct (writes ph); [lia|]. destruct Hz as [Hz|Hz]; [discriminate|lia].
Qed.


(** ** The whole operation *)

Lemma set_image_next b sz fl s : next (set_image b sz fl s) = next s /\ name (set_image b sz fl s) = name s.
Proof. split; reflexivity. Qed.

Lemma loaded_update st ls i n b sz fl : loaded st ls -> (i, n) ∈ ls ->
  exists so', upd (so st) i (set_image b sz fl) = Ok so' /\ loaded (Linker so' (socount st) (freelist st) (sonext st)) ls /\
    exists s', so' !! i = Some s' /\ name s' = n /\ LinkerPool.base s' = b /\ size s' = sz.
Proof.
  intros [[free I] Hn] Hi. destruct (Hn i n Hi) as (s & Hs & Hnm). rewrite (upd_ok _ _ _ _ Hs). eexists. split; [reflexivity|].
  assert (forall j t, so st !! j = Some t -> exists t', <[i := set_image b sz fl s]> (so st) !! j = Some t' /\ next t' = next t /\ name t' = name t) as Hk.
  { intros j t Hj. destruct (decide (j = i)) as [->|Hne].
    - rewrite list_lookup_insert_eq by (eapply lookup_lt_Some; eassumption). eexists. split; [reflexivity|]. rewrite Hs in Hj. injection Hj as <-. apply set_image_next.
    - rewrite list_lookup_insert_ne by congruence. eauto. }
  split.
  - split.
    + exists free. destruct I as [i1 i2 i3 i4 i5 i6]. constructor; cbn; [now rewrite length_insert|assumption| |  |assumption|assumption].
      all: unfold linked in *; eapply seg_ext; [|eassumption]; intros j t _ Hj; destruct (Hk j t Hj) as (t' & ? & ? & _); eauto.
    + intros j m Hj. destruct (Hn j m Hj) as (t & Ht & <-). destruct (Hk j t Ht) as (t' & ? & _ & ?). cbn. eauto.
  - rewrite list_lookup_insert_eq by (eapply lookup_lt_Some; eassumption). eexists. split; [reflexivity|]. split; [exact Hnm|]. split; reflexivity.
Qed.

Lemma loaded_free st ls i n : loaded st (ls ++ [(i, n)]) -> i ∉ ls.*1 -> i <> 0%nat -> exists st', free_info st i = Ok st' /\ loaded st' ls.
Proof.
  intros L Hi Hz. destruct (pool_step_ok st _ (OFree i) L Hz) as (a & st' & ls' & E & S & L'). cbn [step] in E. apply obind_ok in E as (st1 & E & E1). injection E1 as <- <-.
  exists st1. split; [assumption|]. inversion S; subst. rewrite List.filter_app in L'. cbn [List.filter fst] in L'. rewrite Nat.eqb_refl in L'. cbn [negb] in L'. rewrite app_nil_r in L'.
  replace (List.filter _ ls) with ls in L'; [assumption|]. clear - Hi. induction ls as [|[j m] ls IH]; [reflexivity|]. cbn [fmap list_fmap fst] in Hi.
  rewrite not_elem_of_cons in Hi. cbn [List.filter fst]. rewrite (proj2 (Nat.eqb_neq j i)) by (intros ->; tauto). cbn [negb]. f_equal. tauto.
Qed.

Lemma loaded_alloc st ls n : loaded st ls -> StrL.no_nul n -> exists r st', alloc_info st n = Ok (r, st') /\
  match r with None => st' = st | Some i => loaded st' (ls ++ [(i, n)]) /\ (i ∉ ls.*1) /\ i <> 0%nat end.
Proof.
  intros L Hn. destruct L as [[free I] Hnm]. destruct (alloc_ok st _ free n I Hn) as (r & st' & E & Hr). exists r, st'. split; [assumption|].
  destruct r as [i|]; [|tauto]. destruct Hr as (Hl & Hi & Hsame & Hf & free' & I'). split_and!; [|assumption|destruct (live_head _ _ _ I) as [l' El]; rewrite El in Hi; intros ->; apply Hi; left].
  split; [exists free'; now rewrite fmap_app|]. intros j m Hj. rewrite elem_of_app, list_elem_of_singleton in Hj. destruct Hj as [Hj|[= -> ->]]; [|eauto].
  apply (names_kept i _ _ Hsame); [|now apply Hnm]. intros ->. now apply Hi, (elem_fst i m).
Qed.

Lemma base_name_no_nul n : StrL.no_nul n -> StrL.no_nul (base_name n).
Proof.
  unfold StrL.no_nul. induction n as [|c n IH]; intros H; cbn [base_name]; [constructor|]. inversion H; subst. destruct (existsb _ n); [auto|]. destruct (c =? 47); assumption.
Qed.

(** [b] is what follows the last slash of [n]. *)
Definition is_base (n b : str) : Prop := ~ 47 ∈ b /\ (n = b \/ exists dir, n = dir ++ 47 :: b).
Lemma base_name_is_base n : is_base n (base_name n).
Proof.
  induction n as [|c n [IH1 IH2]]; cbn [base_name]; [split; [apply not_elem_of_nil|now left]|]. destruct (existsb (Z.eqb 47) n) eqn:E.
  - split; [exact IH1|]. right. destruct IH2 as [IH2|[dir IH2]]; [|exists (c :: dir); now rewrite IH2 at 1]. exfalso. apply IH1. rewrite <- IH2. apply existsb_exists in E as (x & Hx & ->%Z.eqb_eq). now apply list_elem_of_In.
  - assert (~ 47 ∈ n) as Hn by (intros H; apply not_true_iff_false in E; apply E, existsb_exists; exists 47; split; [now apply list_elem_of_In|reflexivity]). destruct (Z.eqb_spec c 47) as [->|Hc]; [split; [exact Hn|right; now exists []]|]. split; [|now left]. intros [H|H]%elem_of_cons; [congruence|contradiction].
Qed.

Lemma extents_return k file h phs b : file_ok file h phs -> (20 <= length h)%nat -> is_prelinked k file = Ok b ->
  exists r, get_lib_extents k file h = Ok r /\ forall req size, r = Some (req, size) -> req = b.
Proof.
  intros F Hh Hb. unfold get_lib_extents, verify_elf_object, e_machine, le16.
  destruct (rd_ok h 0) as (b0 & -> & _); [lia|]. destruct (rd_ok h 1) as (b1 & -> & _); [lia|]. destruct (rd_ok h 2) as (b2 & -> & _); [lia|].
  destruct (rd_ok h 3) as (b3 & -> & _); [lia|]. destruct (rd_ok h 18) as (b4 & -> & _); [lia|]. destruct (rd_ok h (18 + 1)) as (b5 & -> & _); [lia|]. cbn [obind].
  destruct (negb (b0 =? _)); [exists None; split; [reflexivity|discriminate]|]. destruct (negb (b1 =? _)); [exists None; split; [reflexivity|discriminate]|].
  destruct (negb (b2 =? _)); [exists None; split; [reflexivity|discriminate]|]. destruct (negb (b3 =? _)); [exists None; split; [reflexivity|discriminate]|].
  destruct (negb (_ =? EM_ARM)); [exists None; split; [reflexivity|discriminate]|]. cbn [obind]. change (0 <? 0) with false. cbv iota. rewrite Hb. cbn [obind].
  destruct (b =? _); [exists None; split; [reflexivity|discriminate]|]. pose proof (f_headers _ _ _ F) as Hp. unfold program_headers in Hp.
  destruct (e_phoff h) as [off| |]; try discriminate. cbn [obind] in *. fold (le16 (rd h) 44) in *. fold (e_phnum h) in *. destruct (e_phnum h) as [num| |]; try discriminate. cbn [obind] in *.
  destruct (extents_spec file h _ _ _ 0xffffffff 0 Hp (f_loads _ _ _ F)) as (mn & mx & -> & _); try lia. cbn [obind].
  destruct (_ && _); eexists; (split; [reflexivity|]); [discriminate|]. now intros req size [= <- _].
Qed.

(** The region for [size] bytes: when the kernel chooses the address, what it chooses is free; the address that a prelinked library
    asks for is mapped over whatever is there, so that region has to be free. *)
Definition kernel_ok (s : kernel) (req size : Z) : Prop :=
  if req =? 0 then forall a rest, answers s = Some a :: rest -> map_args_ok a size = true -> 0 <= a /\ forall x, a <= x < a + pages size -> vm s x = None
  else 0 <= req /\ forall x, req <= x < req + pages size -> vm s x = None.

Definition readable (c : option cell) : Prop := exists b p, c = Some (Cell (Some b) p) /\ has p PROT_READ = true.

Lemma seg_readable file base ph x : has (p_flags ph) PF_R = true -> readable (seg_cell file base ph x).
Proof.
  intros H. eexists _, _. split; [reflexivity|]. unfold seg_prot, PFLAGS_TO_PROT, MAYBE_MAP_FLAG. rewrite H.
  destruct (has (p_flags ph) PF_X), (has (p_flags ph) PF_W), (writes ph); reflexivity.
Qed.

Lemma peek_readable m x : readable (m x) -> exists b, peek m x = Ok b.
Proof. intros (b & p & E & Hp). exists b. unfold peek. now rewrite E, Hp. Qed.

Lemma le16_ok (m : space) x : readable (m x) -> readable (m (x + 1)) -> exists v, le16 (peek m) x = Ok v.
Proof. intros H1 H2. destruct (peek_readable _ _ H1) as [a Ha], (peek_readable _ _ H2) as [b Hb]. unfold le16. rewrite Ha, Hb. cbn. eauto. Qed.

Lemma le32_ok (m : space) x : (forall i, 0 <= i < 4 -> readable (m (x + i))) -> exists v, le32 (peek m) x = Ok v.
Proof.
  intros H. unfold le32. destruct (le16_ok m x) as [a ->]; [rewrite <- (Z.add_0_r x); apply H; lia|apply H; lia|]. cbn [obind].
  destruct (le16_ok m (x + 2)) as [b ->]; [apply H; lia|rewrite <- Z.add_assoc; apply H; lia|]. cbn. eauto.
Qed.

(** A well-formed library with readable segments, prelinked or not, and a world to load it into. *)
Record load_ok (k : io) (file : list Z) (n : str) (w : world) (ls : list (nat * str)) (phs : list Elf_Phdr) : Prop := {
  o_pool : loaded (pool w) ls;
  o_name : StrL.no_nul n;
  o_header : length (header w) = 4096%nat;
  o_file : file_ok file (page_of w file) phs;
  o_base : exists req, is_prelinked k file = Ok req;
  o_read : forall ph, loads phs ph -> has (p_flags ph) PF_R = true;
  o_kernel : forall req size, get_lib_extents k file (page_of w file) = Ok (Some (req, size)) -> kernel_ok (kern w) req size }.

Lemma header_readable k file h phs req size base (m0 m : space) : file_ok file h phs -> get_lib_extents k file h = Ok (Some (req, size)) -> region_ok base size ->
  (forall ph, loads phs ph -> has (p_flags ph) PF_R = true) ->
  (forall x (P : option cell -> Prop), (forall ph, loads phs ph -> in_seg base ph x -> P (seg_cell file base ph x)) ->
     P (m0 x) \/ (exists ph, loads phs ph /\ in_seg base ph x) -> P (m x)) -> forall i, 0 <= i < 4096 -> readable (m (base + i)).
Proof.
  intros F E R Hr Hm i Hi. destruct (f_first _ _ _ F) as (ph & Hl & Hv & Hf). apply Hm.
  - intros q Hq _. apply seg_readable. auto.
  - right. exists ph. split; [assumption|]. destruct (f_loads _ _ _ F ph Hl) as [h1 h2 _ _ _ _]. unfold in_seg, seg_start, seg_end, start, file_len in *.
    rewrite (Z.mod_small (p_vaddr ph)) in * by lia. destruct (pages_spec (p_vaddr ph + p_memsz ph)) as (j & ? & ?). lia.
Qed.

Lemma reserve_spec s req size : kernel_ok s req size -> 4096 <= size < 2 ^ 32 -> size mod 4096 = 0 -> exists r s', alloc_mem_region s req size = (r, s') /\
  match r with
  | None => vm s' = vm s
  | Some b => region_ok b size /\ (forall x, b <= x < b + size -> vm s x = None) /\ forall x, ~ b <= x < b + size -> vm s' x = vm s x
  end.
Proof.
  intros K Hs Hm. assert (pages size = size) as Hps by (destruct (pages_spec size) as (j & ? & ?); pose proof (Z.div_mod size 4096); lia).
  assert (forall a ks, vm ks = vm s -> map_args_ok a size = true -> 0 <= a /\ (forall x, a <= x < a + pages size -> vm s x = None) ->
    exists r s', (Some a, Kernel (over (vm ks) a (pages size) (anonymous 0)) (answers ks)) = (r, s') /\
      match r with None => vm s' = vm s | Some b => region_ok b size /\ (forall x, b <= x < b + size -> vm s x = None) /\ forall x, ~ b <= x < b + size -> vm s' x = vm s x end) as Hmapped.
  { intros a ks Ek Hok [H0 H2]. rewrite Hps in *. eexists (Some a), _. split; [reflexivity|]. cbn [vm]. rewrite Ek. split; [|split; [assumption|intros x Hx; now apply over_out]].
    unfold map_args_ok in Hok. rewrite !andb_true_iff, Z.ltb_lt, Z.eqb_eq, Z.ltb_lt, Hps in Hok. unfold region_ok, PAGE_SIZE in *. tauto. }
  unfold alloc_mem_region, reserve_mem_region, kernel_ok in *. destruct (req =? 0); cbn [negb]; unfold mmap_fixed, mmap_any, answer;
    (destruct (answers s) as [|[a|] rest] eqn:Ea; [eexists None, _; split; reflexivity| |eexists None, _; split; reflexivity]).
  - destruct (map_args_ok a size) eqn:Hok; [|eexists None, _; split; reflexivity]. apply Hmapped; [reflexivity|exact Hok|exact (K a rest eq_refl Hok)].
  - destruct (map_args_ok req size) eqn:Hok; [|eexists None, _; split; reflexivity]. now apply Hmapped.
Qed.


(** ** A small library: code at 0, data at 0x10b4 with a bss of two pages, a dynamic section and a relro range. *)

Definition b2 (v : Z) : list Z := [v mod 2 ^ 8; v / 2 ^ 8].
Definition b4 (v : Z) : list Z := b2 (v mod 2 ^ 16) ++ b2 (v / 2 ^ 16).
Definition ph_bytes (ph : Elf_Phdr) : list Z :=
  b4 (p_type ph) ++ b4 (p_offset ph) ++ b4 (p_vaddr ph) ++ b4 0 ++ b4 (p_filesz ph) ++ b4 (p_memsz ph) ++ b4 (p_flags ph) ++ b4 0.
Definition elf_file (phs : list Elf_Phdr) (rest : list Z) : list Z :=
  [0x7f; 69; 76; 70] ++ replicate 14 0 ++ b2 EM_ARM ++ replicate 8 0 ++ b4 52 ++ replicate 12 0 ++ b2 (Z.of_nat (length phs)) ++ replicate 6 0 ++
  concat (ph_bytes <$> phs) ++ rest.
Definition sample_phs : list Elf_Phdr :=
  [Phdr PT_LOAD 0 0 180 180 5; Phdr PT_LOAD 180 0x10b4 8 0x2000 6; Phdr PT_DYNAMIC 180 0x10b4 8 8 6; Phdr PT_GNU_RELRO 180 0x10b4 8 8 4].
Definition sample_file : list Z := elf_file sample_phs [1; 2; 3; 4; 5; 6; 7; 8].
Definition io_ok : io := IO true true true true.
Definition sample_world : world := World (initial Z.of_nat) (Kernel (fun _ => None) (replicate 9 (Some 0x10000))) (replicate 4096 0).
Abbreviation sample_page := (page_of sample_world sample_file).

Ltac each_phdr Hin := repeat (apply elem_of_cons in Hin as [->|Hin]); [..|now apply not_elem_of_nil in Hin].

Lemma sample_file_ok : file_ok sample_file sample_page sample_phs.
Proof.
  assert (length sample_file = 188%nat) as Hlen by (vm_compute; reflexivity). constructor.
  - vm_compute. reflexivity.
  - intros ph [Hin Ht]. each_phdr Hin; try discriminate Ht; constructor; rewrite ?Hlen; vm_compute; intuition congruence.
  - exists (Phdr PT_LOAD 0 0 180 180 5). split; [split; [left|reflexivity]|]. vm_compute. auto.
Qed.

Lemma sample_extents : get_lib_extents io_ok sample_file sample_page = Ok (Some (0, 0x4000)).
Proof. vm_compute. reflexivity. Qed.

Lemma sample_region : region_ok 0x10000 0x4000.
Proof. split_and!; vm_compute; congruence. Qed.

Lemma segments_confined_witness : exists ok s' im',
  load_segments sample_file sample_page 0x10000 0x4000 (kern sample_world) blank = Ok (ok, s', im') /\
    (forall x, ~ 0x10000 <= x < 0x10000 + 0x4000 -> vm s' x = None) /\ (ok = false -> forall x, 0x10000 <= x < 0x10000 + 0x4000 -> vm s' x = None).
Proof. exact (segments_confined io_ok sample_file sample_page sample_phs 0 0x10000 0x4000 (kern sample_world) blank sample_file_ok sample_extents sample_region). Defined.



(** ** Libraries outside the hypotheses *)

(** The pages of a file whose only loadable segment is [ph], loaded at 0x10000 from an empty address space:
    the size reserved, the return value, and whether three addresses are mapped. *)
Definition try_load (ph : Elf_Phdr) (rest : list Z) (xs : list Z) : outcome (Z * bool * list (option cell)) :=
  let file := elf_file [ph] rest in
  let w := World (initial Z.of_nat) (Kernel (fun _ => None) (replicate 2 (Some 0))) (replicate 4096 0) in
  let! ext := get_lib_extents io_ok file (page_of w file) in
  let! (_, size) := of_option ext in
  let! (ok, s, _) := load_segments file (page_of w file) 0x10000 size (kern w) blank in
  Ok (size, ok, vm s <$> xs).

(** A library linked at 0x1000: one page is reserved at 0x10000, but the page mapped is the one after it. *)
Example linked_above_zero_escapes : try_load (Phdr PT_LOAD 0 0x1000 84 84 5) [] [0x10000; 0x11000] = Ok (0x1000, true, [None; Some (Cell (Some 0x7f) 7)]).
Proof. vm_compute. reflexivity. Qed.

(** A segment whose file size is above its memory size is mapped over the pages after the region. *)
Example oversized_segment_escapes : try_load (Phdr PT_LOAD 0 0 0x1100 84 6) (replicate 4400 9) [0x10000; 0x11000; 0x12000] =
  Ok (0x1000, true, [Some (Cell (Some 0x7f) 3); Some (Cell (Some 9) 3); None]).
Proof. vm_compute. reflexivity. Qed.

(** A segment of zeros only, on a page boundary, is refused: its file mapping has length 0. *)
Example bss_segment_refused : try_load (Phdr PT_LOAD 0 0 0 0x1000 6) [] [0x10000] = Ok (0x1000, false, [None]).
Proof. vm_compute. reflexivity. Qed.

(** The zero part of a read-only segment shows the bytes that follow in the file. *)
Example readonly_tail_not_zero : try_load (Phdr PT_LOAD 0 0 84 88 4) [9; 9; 9; 9] [0x10053; 0x10054] = Ok (0x1000, true, [Some (Cell (Some 0) 3); Some (Cell (Some 9) 3)]).
Proof. vm_compute. reflexivity. Qed.
End LinkerLoad.
