(* ===== verification/LinkerUnload.v ===== *)
(** * Unloading (common/jb/linker.c, [unload_library])

    The recursion over the dependencies, on the table of [LinkerPool] as a shared
    store: the entries of the dynamic section are cleared as they are visited, through
    the pointer the caller holds.  A [DT_NEEDED] value is the index of a library and the
    null pointer is -1.  Called functions and unmapped regions are events; lifting the relro
    protection before the section is written, and telling the debugger, are not represented. *)

From Stdlib Require Import ZArith Lia Bool.
From stdpp Require Import base numbers option list.
From S2P Require Import Prelude CStr StrL LinkerPool LinkerLookup LinkerInit.

Open Scope Z_scope.
Open Scope outcome_scope.

Module LinkerUnload.
Import CStr LinkerPool LinkerLookup LinkerInit.

Definition NULL : Z := -1.

Inductive unload_event := Fini (lib : nat) (func : Z) | Unmap (base size : Z).

(** The loop from entry [k], with [n] entries left; [rec] is the recursive call. *)
Fixpoint unload_needed (rec : linker -> nat -> outcome (Z * linker * list unload_event)) (i n k : nat) (st : linker)
  : outcome (linker * list unload_event) :=
  match n with
  | O => Undef
  | S n =>
      let! s := of_option (so st !! i) in
      let! d := of_option (dynamic s) in
      let! (tag, v) := of_option (d !! k) in
      if tag =? DT_NULL then Ok (st, [])
      else if tag =? DT_NEEDED then
        let st := Linker (<[i := set_dynamic (Some (<[k := (tag, NULL)]> d)) s]> (so st)) (socount st) (freelist st) (sonext st) in
        if validate_soinfo v then
          let! (_, st, ev) := rec st (Z.to_nat v) in
          let! (st, ev') := unload_needed rec i n (S k) st in Ok (st, ev ++ ev')
        else unload_needed rec i n (S k) st
      else unload_needed rec i n (S k) st
  end.

(** The new count, the table and the events. *)
Fixpoint unload_library (fuel : nat) (st : linker) (i : nat) : outcome (Z * linker * list unload_event) :=
  match fuel with
  | O => Undef
  | S fuel =>
      let! s := of_option (so st !! i) in
      if refcount s =? 1 then
        let! fs := call_destructors s in
        let! d := of_option (dynamic s) in
        let! (st, ev) := unload_needed (unload_library fuel) i (length d) 0 st in
        let! s := of_option (so st !! i) in
        let! st := free_info st i in
        let! so' := upd (so st) i (set_refcount 0) in
        Ok (0, Linker so' (socount st) (freelist st) (sonext st), (Fini i <$> fs) ++ ev ++ [Unmap (base s) (size s)])
      else
        let r := u32 (refcount s - 1) in
        let! so' := upd (so st) i (set_refcount r) in
        Ok (r, Linker so' (socount st) (freelist st) (sonext st), [])
  end.

(** ** Reference counts *)

Definition needs (l : list soinfo) (j : nat) : list nat :=
  match l !! j with Some s => match dynamic s with Some d => needed d | None => [] end | None => [] end.
Definition count (j : nat) (js : list nat) : nat := count_occ Nat.eq_dec js j.

(** All references: the open handles and the dependencies of the libraries [ls]. *)
Definition references (l : list soinfo) (ls handles : list nat) : list nat := handles ++ concat (needs l <$> ls).

(** A library other than [libdl_info], which has no dynamic section. *)
Record library_ok (s : soinfo) (d : list (Z * Z)) : Prop := {
  y_dynamic : dynamic s = Some d;
  y_end : terminated d;
  y_valid : needed_valid d;
  y_fini : forall a, fini_array s = Some a -> fini_array_count s <= Z.of_nat (length a) }.

(** The libraries [ls] of the table are counted: every reference is to one of them, the count of each is the
    number of references to it, and is positive; [libdl_info] has a reference of its own. *)
Record counted (st : linker) (live ls handles : list nat) : Prop := {
  v_pool : exists free, pool_inv st live free;
  v_nodup : NoDup ls;
  v_live : forall j, j ∈ ls -> j ∈ live;
  v_refs : forall j, j ∈ references (so st) ls handles -> j ∈ ls;
  v_zero : 0%nat ∈ handles;
  v_lib : forall j, j ∈ ls -> exists s, so st !! j = Some s /\ refcount s = Z.of_nat (count j (references (so st) ls handles)) /\ 1 <= refcount s < 2 ^ 32 /\
          if decide (j = 0%nat) then dynamic s = None else exists d, library_ok s d }.

(** Entries outside [ls] keep everything but their link. *)
Definition kept (ls : list nat) (l l' : list soinfo) : Prop := forall j s, j ∉ ls -> l !! j = Some s -> exists q, l' !! j = Some (set_next q s).

Lemma kept_refl ls l : kept ls l l.
Proof. intros j s _ H. exists (next s). now rewrite set_next_same. Qed.

Lemma kept_trans ls ls' l l' l'' : (forall j, j ∈ ls' -> j ∈ ls) -> kept ls l l' -> kept ls' l' l'' -> kept ls l l''.
Proof. intros Hs H1 H2 j s Hj Hl. destruct (H1 j s Hj Hl) as [q Hq]. destruct (H2 j (set_next q s)) as [q' Hq']; [auto|assumption|]. exists q'. exact Hq'. Qed.

Lemma count_perm j a b : a ≡ₚ b -> count j a = count j b.
Proof. intros H. unfold count. now apply Permutation_count_occ. Qed.

Lemma count_app j a b : count j (a ++ b) = (count j a + count j b)%nat.
Proof. apply count_occ_app. Qed.

Lemma count_zero j a : j ∉ a <-> count j a = 0%nat.
Proof. unfold count. rewrite <- (count_occ_not_In Nat.eq_dec a j), list_elem_of_In. reflexivity. Qed.

(** Updates that keep links and dependencies. *)
Lemma pool_update st live free i s s' : pool_inv st live free -> so st !! i = Some s -> next s' = next s ->
  pool_inv (Linker (<[i := s']> (so st)) (socount st) (freelist st) (sonext st)) live free.
Proof.
  intros [i1 i2 i3 i4 i5 i6] Hs Hn.
  assert (forall j t, so st !! j = Some t -> exists t', <[i := s']> (so st) !! j = Some t' /\ next t' = next t) as Hk.
  { intros j t Hj. destruct (decide (j = i)) as [->|Hne]; [|rewrite list_lookup_insert_ne by congruence; eauto].
    rewrite list_lookup_insert_eq by (eapply lookup_lt_Some; eassumption). exists s'. rewrite Hs in Hj. injection Hj as <-. auto. }
  constructor; cbn; [now rewrite length_insert|assumption| | |assumption|assumption].
  all: unfold linked in *; eapply seg_ext; [|eassumption]; intros j t _ Hj; exact (Hk j t Hj).
Qed.

Lemma needs_insert l i s s' j : l !! i = Some s -> dynamic s' = dynamic s -> needs (<[i := s']> l) j = needs l j.
Proof.
  intros Hs Hd. unfold needs. destruct (decide (j = i)) as [->|Hne]; [|now rewrite list_lookup_insert_ne by congruence].
  rewrite list_lookup_insert_eq by (eapply lookup_lt_Some; eassumption). now rewrite Hs, Hd.
Qed.

Lemma references_ext l l' ls handles : (forall j, j ∈ ls -> needs l' j = needs l j) -> references l' ls handles = references l ls handles.
Proof.
  intros H. unfold references. f_equal. f_equal. apply map_ext_in. intros j Hj. apply H. now apply list_elem_of_In.
Qed.

(** The counted libraries do not depend on the rest of the table. *)
Lemma counted_frame st st' live live' free' ls handles : counted st live ls handles -> pool_inv st' live' free' -> (forall j, j ∈ ls -> j ∈ live') ->
  (forall j s, j ∈ ls -> so st !! j = Some s -> exists q, so st' !! j = Some (set_next q s)) -> counted st' live' ls handles.
Proof.
  intros C I Hl Hk. assert (references (so st') ls handles = references (so st) ls handles) as E.
  { apply references_ext. intros j Hj. destruct (v_lib _ _ _ _ C j Hj) as (s & Hs & _). destruct (Hk j s Hj Hs) as [q Hq]. unfold needs. now rewrite Hs, Hq. }
  constructor; [eauto|apply (v_nodup _ _ _ _ C)|assumption|rewrite E; apply (v_refs _ _ _ _ C)|apply (v_zero _ _ _ _ C)|].
  intros j Hj. destruct (v_lib _ _ _ _ C j Hj) as (s & Hs & Hc & Hr & Hd). destruct (Hk j s Hj Hs) as [q Hq]. exists (set_next q s). rewrite E.
  split; [assumption|]. split; [exact Hc|]. split; [exact Hr|]. revert Hd. destruct (decide (j = 0%nat)); [auto|]. intros (d & []). exists d. constructor; assumption.
Qed.

(** A change to an entry that is not counted. *)
Lemma counted_other st live ls handles i s s' : counted st live ls handles -> i ∉ ls -> so st !! i = Some s -> next s' = next s ->
  counted (Linker (<[i := s']> (so st)) (socount st) (freelist st) (sonext st)) live ls handles.
Proof.
  intros C Hi Hs Hn. destruct (v_pool _ _ _ _ C) as [free I]. apply (counted_frame st _ live live free); [assumption|now apply (pool_update _ _ _ _ s)|apply (v_live _ _ _ _ C)|].
  intros j t Hj Ht. cbn [so]. rewrite list_lookup_insert_ne by congruence. exists (next t). now rewrite set_next_same.
Qed.

Lemma release st live ls handles i s : counted st live ls (i :: handles) -> 0%nat ∈ handles -> so st !! i = Some s -> i ∈ ls -> refcount s <> 1 ->
  counted (Linker (<[i := set_refcount (refcount s - 1) s]> (so st)) (socount st) (freelist st) (sonext st)) live ls handles.
Proof.
  intros C H0 Hs Hi Hr. destruct (v_pool _ _ _ _ C) as [free I].
  assert (references (<[i := set_refcount (refcount s - 1) s]> (so st)) ls handles = references (so st) ls handles) as E
    by (apply references_ext; intros j _; now apply (needs_insert _ _ s)).
  assert (forall j, count j (references (so st) ls (i :: handles)) = ((if decide (i = j) then 1 else 0) + count j (references (so st) ls handles))%nat) as Ec.
  { intros j. unfold references, count. cbn [app count_occ]. destruct (Nat.eq_dec i j), (decide (i = j)); try contradiction; reflexivity. }
  constructor; cbn [so]; [exists free; now apply (pool_update _ _ _ _ s)|apply (v_nodup _ _ _ _ C)|apply (v_live _ _ _ _ C)| |assumption|].
  - rewrite E. intros j Hj. apply (v_refs _ _ _ _ C). unfold references in *. cbn [app]. now right.
  - intros j Hj. rewrite E. destruct (v_lib _ _ _ _ C j Hj) as (t & Ht & Hc & Hb & Hd). specialize (Ec j). destruct (decide (i = j)) as [<-|Hne].
    + rewrite Hs in Ht. injection Ht as <-. rewrite list_lookup_insert_eq by (eapply lookup_lt_Some; eassumption). eexists. split; [reflexivity|]. cbn [refcount set_refcount dynamic].
      split; [lia|]. split; [lia|]. revert Hd. destruct (decide (i = 0%nat)); [auto|]. intros (d & []). exists d. constructor; assumption.
    + rewrite list_lookup_insert_ne by assumption. exists t. split; [assumption|]. split; [lia|]. auto.
Qed.

(** The last reference: the library leaves the counted ones, and what it needs is held by its own section. *)
Lemma detach st live ls handles i s : counted st live ls (i :: handles) -> 0%nat ∈ handles -> so st !! i = Some s -> i ∈ ls -> refcount s = 1 ->
  i <> 0%nat /\ exists d, library_ok s d /\ counted st live (List.filter (fun j => negb (j =? i)%nat) ls) (needed d ++ handles).
Proof.
  intros C H0 Hs Hi Hr. destruct (v_lib _ _ _ _ C i Hi) as (t & Ht & Hc & _ & Hd). rewrite Hs in Ht. injection Ht as <-.
  assert (i ∉ references (so st) ls handles) as Hout.
  { apply count_zero. unfold references, count in *. cbn [app count_occ] in Hc. destruct (Nat.eq_dec i i); [lia|contradiction]. }
  assert (i <> 0%nat) as Hz by (intros ->; apply Hout; unfold references; rewrite elem_of_app; now left).
  split; [assumption|]. destruct (decide (i = 0%nat)) in Hd; [contradiction|]. destruct Hd as (d & Hd). exists d. split; [assumption|]. set (ls' := List.filter _ ls).
  assert (forall j, j ∈ ls' <-> j ∈ ls /\ j <> i) as Hls'.
  { intros j. unfold ls'. rewrite !list_elem_of_In, List.filter_In, negb_true_iff, Nat.eqb_neq. reflexivity. }
  assert (ls ≡ₚ i :: ls') as Hp.
  { pose proof (v_nodup _ _ _ _ C) as Hnd. apply list_elem_of_split in Hi as (a & b & Els). assert (i ∉ a ++ b) as Hab.
    { rewrite Els in Hnd. apply NoDup_app in Hnd as (_ & Ha & Hnd). apply NoDup_cons in Hnd as [Hb _]. rewrite elem_of_app. intros [H|H]; [apply (Ha i H); left|contradiction]. }
    unfold ls'. rewrite Els, List.filter_app. cbn [List.filter]. rewrite Nat.eqb_refl. cbn [negb]. rewrite not_elem_of_app in Hab. rewrite !filter_without by tauto. now rewrite Permutation_middle. }
  assert (references (so st) ls' (needed d ++ handles) ≡ₚ references (so st) ls handles) as Hrefs.
  { unfold references. rewrite Hp. cbn [fmap list_fmap concat]. assert (needs (so st) i = needed d) as -> by (unfold needs; now rewrite Hs, (y_dynamic _ _ Hd)).
    rewrite !app_assoc. f_equiv. apply Permutation_app_comm. }
  constructor.
  - apply (v_pool _ _ _ _ C).
  - pose proof (v_nodup _ _ _ _ C) as Hnd. rewrite Hp in Hnd. now apply NoDup_cons in Hnd as [_ Hnd].
  - intros j Hj. apply (v_live _ _ _ _ C). now apply Hls'.
  - intros j Hj. rewrite Hrefs in Hj. apply Hls'. split; [|intros ->; contradiction]. apply (v_refs _ _ _ _ C). unfold references in *. cbn [app]. now right.
  - rewrite elem_of_app. now right.
  - intros j Hj. apply Hls' in Hj as [Hj Hne]. destruct (v_lib _ _ _ _ C j Hj) as (t & Ht & Hct & Hb & Hdt). exists t. split; [assumption|]. split; [|auto]. rewrite Hct. f_equal.
    rewrite (count_perm j _ _ Hrefs). unfold references, count. cbn [app count_occ]. destruct (Nat.eq_dec i j); [congruence|reflexivity].
Qed.

(** ** The recursion *)

(** What dropping a reference does to the counted libraries [ls] and the load list [live]. *)
Record dropped (st st' : linker) (live live' ls ls' handles : list nat) : Prop := {
  w_counted : counted st' live' ls' handles;
  w_sub : forall j, j ∈ ls' -> j ∈ ls;
  w_live : forall j, j ∈ live' <-> j ∈ live /\ (j ∈ ls -> j ∈ ls');
  w_needs : forall j, j ∈ ls' -> needs (so st') j = needs (so st) j }.

Lemma kept_needs ls l l' j : kept ls l l' -> j ∉ ls -> is_Some (l !! j) -> needs l' j = needs l j.
Proof. intros K Hj [s Hs]. destruct (K j s Hj Hs) as [q Hq]. unfold needs. now rewrite Hs, Hq. Qed.

Definition unloads (rec : linker -> nat -> outcome (Z * linker * list unload_event)) (n : nat) : Prop :=
  forall st live ls handles i, counted st live ls (i :: handles) -> 0%nat ∈ handles -> (length ls < n)%nat ->
  exists r st' ev live' ls', rec st i = Ok (r, st', ev) /\ dropped st st' live live' ls ls' handles /\ kept ls (so st) (so st') /\
    (i ∉ ls' -> r = 0) /\ (i ∈ ls' -> exists s, so st' !! i = Some s /\ refcount s = r).

Lemma shorter (a b : list nat) : NoDup a -> (forall j, j ∈ a -> j ∈ b) -> (length a <= length b)%nat.
Proof. intros Hn Hs. apply NoDup_incl_length; [now apply NoDup_ListNoDup|]. intros j Hj. apply list_elem_of_In, Hs. now apply list_elem_of_In. Qed.

Lemma insert_insert_kept ls l i s s' l' : i ∉ ls -> l !! i = Some s -> kept ls (<[i := s']> l) l' -> kept (i :: ls) l l' /\ exists q, l' !! i = Some (set_next q s').
Proof.
  intros Hi Hs K. split.
  - intros j t Hj Ht. rewrite not_elem_of_cons in Hj. destruct Hj as [Hne Hj]. apply K; [assumption|]. now rewrite list_lookup_insert_ne by congruence.
  - apply K; [assumption|]. apply list_lookup_insert_eq. eapply lookup_lt_Some; eassumption.
Qed.

Lemma unload_needed_ok rec n i : unloads rec n -> forall rest pre st live ls handles s, so st !! i = Some s -> dynamic s = Some (pre ++ rest) -> terminated rest -> needed_valid rest ->
  i ∉ ls -> counted st live ls (needed rest ++ handles) -> 0%nat ∈ handles -> (length ls < n)%nat ->
  exists st' ev live' ls', unload_needed rec i (length rest) (length pre) st = Ok (st', ev) /\ dropped st st' live live' ls ls' handles /\ kept (i :: ls) (so st) (so st') /\
    exists q d', so st' !! i = Some (set_next q (set_dynamic d' s)).
Proof.
  intros Hrec. induction rest as [|[tag v] rest IH]; intros pre st live ls handles s Hs Hd Ht Hv Hi C H0 Hn; [unfold terminated in Ht; cbn in Ht; now apply not_elem_of_nil in Ht|].
  cbn [length unload_needed]. rewrite Hs. cbn [of_option obind]. rewrite Hd. cbn [of_option obind]. rewrite list_lookup_middle by reflexivity. cbn [of_option obind].
  assert (terminated rest \/ tag = DT_NULL) as Ht' by (unfold terminated in *; cbn in Ht; apply elem_of_cons in Ht as [Ht|Ht]; auto).
  assert (needed_valid rest) as Hv' by (intros u Hu; apply Hv; now right). cbn [needed] in C.
  destruct (Z.eqb_spec tag DT_NULL) as [->|Hnull]; [|destruct Ht' as [Ht'|Ht']; [|contradiction]].
  { exists st, [], live, ls. split; [reflexivity|]. cbn [app] in C. split; [constructor; [assumption|auto|tauto|auto]|]. split; [apply kept_refl|].
    exists (next s), (dynamic s). rewrite Hs. f_equal. now destruct s. }
  destruct (Z.eqb_spec tag DT_NEEDED) as [->|Hneeded].
  - rewrite (Hv v) by left. set (s1 := set_dynamic _ s). set (st1 := Linker _ _ _ _).
    assert (counted st1 live ls (Z.to_nat v :: needed rest ++ handles)) as C1 by now apply (counted_other st live ls _ i s s1).
    destruct (Hrec st1 live ls _ _ C1) as (r & st2 & ev & live2 & ls2 & -> & D & K & _); [rewrite elem_of_app; now right|assumption|]. cbn [obind].
    destruct (insert_insert_kept ls (so st) i s s1 (so st2) Hi Hs K) as [K1 [q Hq]]. destruct D as [C2 Hsub Hlive Hneeds].
    destruct (IH (pre ++ [(DT_NEEDED, NULL)]) st2 live2 ls2 handles (set_next q s1)) as (st3 & ev' & live3 & ls3 & E & D3 & K3 & q3 & d3 & Hq3); auto.
    { cbn. f_equal. rewrite insert_app_r_alt by lia. rewrite Nat.sub_diag. cbn [insert list_insert]. now rewrite <- app_assoc. }
    { apply (Nat.le_lt_trans _ (length ls)); [|assumption]. apply shorter; [apply (v_nodup _ _ _ _ C2)|assumption]. }
    rewrite length_app, Nat.add_comm in E. cbn [length Nat.add] in E. rewrite E. cbn [obind]. exists st3, (ev ++ ev'), live3, ls3. split; [reflexivity|]. destruct D3 as [C3 Hsub3 Hlive3 Hneeds3].
    split; [constructor; [assumption|auto|intros j; rewrite Hlive3, Hlive; pose proof (Hsub j); pose proof (Hsub3 j); tauto|]|].
    { intros j Hj. rewrite Hneeds3, Hneeds by auto. unfold needs, st1. cbn [so]. rewrite list_lookup_insert_ne; [reflexivity|]. intros ->. auto. }
    split.
    + apply (kept_trans _ (i :: ls2) _ (so st2)); [|assumption|assumption]. intros j. rewrite !elem_of_cons. intros [->|Hj]; auto.
    + exists q3, d3. rewrite Hq3. reflexivity.
  - destruct (IH (pre ++ [(tag, v)]) st live ls handles s) as (st3 & ev' & live3 & ls3 & E & D3 & K3 & Hq3); auto; [now rewrite <- app_assoc|].
    rewrite length_app, Nat.add_comm in E. cbn [length Nat.add] in E. rewrite E. exists st3, ev', live3, ls3. auto.
Qed.

Lemma destructors_return s d : library_ok s d -> exists fs, call_destructors s = Ok fs.
Proof.
  intros [_ _ _ Hf]. unfold call_destructors. destruct (fini_array s) as [a|] eqn:E; [|eexists; reflexivity]. specialize (Hf a eq_refl).
  destruct (Z_lt_le_dec (fini_array_count s) 0).
  - unfold call_array. replace (Z.to_nat (fini_array_count s)) with 0%nat by lia. eexists. reflexivity.
  - rewrite call_array_backward by (cbn [default]; auto). eexists. reflexivity.
Qed.

(** Taking an entry that is not counted out of the load list. *)
Lemma remove_entry st live ls handles i s : counted st live ls handles -> so st !! i = Some s -> i ∈ live -> i ∉ ls -> i <> 0%nat ->
  exists st1 so2, free_info st i = Ok st1 /\ upd (so st1) i (set_refcount 0) = Ok so2 /\
    counted (Linker so2 (socount st1) (freelist st1) (sonext st1)) (List.filter (fun j => negb (j =? i)%nat) live) ls handles /\ kept [i] (so st) so2.
Proof.
  intros C Hs Hl Hi Hz. destruct (v_pool _ _ _ _ C) as [free I]. destruct (free_ok st live free i I Hl Hz) as (st1 & -> & Hsame & I1).
  destruct (lookup_so _ _ _ i I1) as [t Ht]; [apply (inv_range _ _ _ _ I); rewrite elem_of_app; now left|]. eexists st1, _. split; [reflexivity|]. split; [apply (upd_ok _ _ _ _ Ht)|].
  assert (kept [i] (so st) (<[i := set_refcount 0 t]> (so st1))) as K.
  { intros j u Hj Hu. rewrite not_elem_of_cons in Hj. rewrite list_lookup_insert_ne by (intros ->; tauto). apply (Hsame j u); tauto. }
  split; [|assumption]. eapply (counted_frame st _ live); [assumption|eapply pool_update; [exact I1|exact Ht|reflexivity]| |].
  - intros j Hj. apply list_elem_of_In, List.filter_In. split; [apply list_elem_of_In, (v_live _ _ _ _ C j Hj)|]. apply negb_true_iff, Nat.eqb_neq. intros ->. contradiction.
  - intros j u Hj Hu. apply K; [|assumption]. rewrite not_elem_of_cons. split; [intros ->; contradiction|apply not_elem_of_nil].
Qed.

Lemma unload_library_ok : forall n, unloads (unload_library n) n.
Proof.
  induction n as [|n IH]; intros st live ls handles i C H0 Hn; [lia|]. assert (i ∈ ls) as Hi by (apply (v_refs _ _ _ _ C); left).
  destruct (v_lib _ _ _ _ C i Hi) as (s & Hs & _ & Hr & _). cbn [unload_library]. rewrite Hs. cbn [of_option obind]. destruct (Z.eqb_spec (refcount s) 1) as [H1|H1].
  - destruct (detach st live ls handles i s C H0 Hs Hi H1) as (Hz & d & Hd & C1). set (ls1 := List.filter _ ls) in *.
    assert (forall j, j ∈ ls1 <-> j ∈ ls /\ j <> i) as Hls1 by (intros j; unfold ls1; rewrite !list_elem_of_In, List.filter_In, negb_true_iff, Nat.eqb_neq; reflexivity).
    assert (i ∉ ls1) as Hi1 by (rewrite Hls1; tauto).
    destruct (destructors_return s d Hd) as [fs ->]. cbn [obind]. rewrite (y_dynamic _ _ Hd). cbn [of_option obind].
    destruct (unload_needed_ok (unload_library n) n i IH d [] st live ls1 handles s) as (st2 & ev & live2 & ls2 & E2 & [C2 Hsub Hlive Hneeds] & K2 & q & d' & Hs2); auto; try apply Hd.
    { assert (length (i :: ls1) <= length ls)%nat; [|cbn [length] in *; lia]. apply shorter; [constructor; [assumption|apply (v_nodup _ _ _ _ C1)]|].
      intros j [->|Hj]%elem_of_cons; [assumption|now apply Hls1]. }
    cbn [length] in E2. rewrite E2. cbn [obind]. rewrite Hs2. cbn [of_option obind].
    destruct (remove_entry st2 live2 ls2 handles i _ C2 Hs2) as (st3 & so4 & -> & E4 & C4 & K4); auto; [apply Hlive; split; [now apply (v_live _ _ _ _ C)|tauto]|]. cbn [obind]. rewrite E4. cbn [obind].
    eexists _, _, _, _, ls2. split; [reflexivity|]. split; [|split; [|split; [reflexivity|intros Hc; contradict Hi1; auto]]].
    + constructor; [exact C4|intros j Hj; now apply Hls1, Hsub| |].
      2: { intros j Hj. cbn [so]. rewrite (kept_needs [i] (so st2)); [now apply Hneeds|assumption| |destruct (v_lib _ _ _ _ C2 j Hj) as (? & ? & _); eauto].
           rewrite not_elem_of_cons. split; [intros ->; auto|apply not_elem_of_nil]. }
      intros j. rewrite list_elem_of_In, List.filter_In, <- list_elem_of_In, negb_true_iff, Nat.eqb_neq, Hlive.
      specialize (Hls1 j). pose proof (Hsub j). destruct (decide (j = i)) as [->|]; tauto.
    + cbn [so]. intros j t Hj Ht. destruct (K2 j t) as [q1 Hq1]; [rewrite not_elem_of_cons, Hls1; split; [intros ->; contradiction|tauto]|assumption|].
      destruct (K4 j _ ltac:(rewrite not_elem_of_cons; split; [intros ->; contradiction|apply not_elem_of_nil]) Hq1) as [q2 Hq2]. exists q2. exact Hq2.
  - rewrite wrap_small by (unfold in_range; lia). rewrite (upd_ok _ _ _ _ Hs). cbn [obind]. eexists _, _, _, live, ls. split; [reflexivity|].
    split; [constructor; [now apply release|auto|tauto|intros j _; now apply (needs_insert _ _ s)]|]. cbn [so]. split; [|split; [contradiction|]].
    + intros j t Hj Ht. rewrite list_lookup_insert_ne by congruence. exists (next t). now rewrite set_next_same.
    + intros _. eexists. split; [apply list_lookup_insert_eq; eapply lookup_lt_Some; eassumption|reflexivity].
Qed.

(** ** Closing handles *)

(** [unload_library] on each handle in turn; as many levels as the table has entries are enough. *)
Fixpoint unload_handles (st : linker) (hs : list nat) : outcome (list Z * linker * list unload_event) :=
  match hs with
  | [] => Ok ([], st, [])
  | i :: hs => let! (r, st, ev) := unload_library (S (S SO_MAX)) st i in
               let! (rs, st, ev') := unload_handles st hs in Ok (r :: rs, st, ev ++ ev')
  end.

(** Every library of the load list is counted. *)
Definition table_counted (st : linker) (live handles : list nat) : Prop := exists ls, ls ≡ₚ live /\ counted st live ls handles.

(** No library needs itself, directly or not. *)
Definition acyclic_needs (st : linker) (live : list nat) : Prop := exists rank : nat -> nat, forall j k, j ∈ live -> k ∈ needs (so st) j -> (rank k < rank j)%nat.

Lemma live_bound st live free : pool_inv st live free -> NoDup live /\ (length live <= 129)%nat.
Proof.
  intros I. pose proof (inv_nodup _ _ _ I) as Hn. apply NoDup_app in Hn as (Hn & _). split; [assumption|].
  assert (length (live ++ free) <= 129)%nat by (rewrite (i_all _ _ _ I), length_seq; pose proof (i_count _ _ _ I); unfold SO_MAX in *; lia). rewrite length_app in *. lia.
Qed.

Lemma unload_handles_ok : forall hs st live handles, table_counted st live (hs ++ handles) -> 0%nat ∈ handles ->
  exists rs st' ev live', unload_handles st hs = Ok (rs, st', ev) /\ table_counted st' live' handles /\
    forall j, j ∈ live' -> j ∈ live /\ needs (so st') j = needs (so st) j.
Proof.
  induction hs as [|i hs IH]; intros st live handles (ls & Hp & C) H0; cbn [unload_handles]; [exists [], st, [], live; split; [reflexivity|]; split; [exists ls; auto|auto]|].
  destruct (v_pool _ _ _ _ C) as [free I]. destruct (live_bound _ _ _ I) as [Hnd Hlen].
  destruct (unload_library_ok (S (S SO_MAX)) st live ls (hs ++ handles) i C) as (r & st1 & ev & live1 & ls1 & -> & [C1 Hsub Hlive Hneeds] & _);
    [rewrite elem_of_app; now right|rewrite Hp; unfold SO_MAX; lia|]. cbn [obind].
  destruct (v_pool _ _ _ _ C1) as [free1 I1]. destruct (live_bound _ _ _ I1) as [Hnd1 _].
  assert (ls1 ≡ₚ live1) as Hp1.
  { apply NoDup_Permutation; [apply (v_nodup _ _ _ _ C1)|assumption|]. intros j. rewrite Hlive. pose proof (Hsub j) as Hj. rewrite Hp in Hj. rewrite <- Hp in *. tauto. }
  destruct (IH st1 live1 handles) as (rs & st2 & ev' & live2 & -> & C2 & H2); [exists ls1; auto|assumption|]. cbn [obind].
  exists (r :: rs), st2, (ev ++ ev'), live2. split; [reflexivity|]. split; [assumption|]. intros j Hj. destruct (H2 j Hj) as [Hj1 ->]. rewrite <- Hp1 in Hj1. split; [|auto].
  rewrite <- Hp. auto.
Qed.

(** In a table without cycles whose only handle is [libdl_info]'s own, nothing else is loaded. *)
Lemma no_handles_left st live : table_counted st live [0%nat] -> acyclic_needs st live -> live ≡ₚ [0%nat].
Proof.
  intros (ls & Hp & C) [rank Ha]. destruct (v_pool _ _ _ _ C) as [free I]. destruct (live_bound _ _ _ I) as [Hnd _].
  assert (forall m j, (list_max (rank <$> live) - rank j <= m)%nat -> j ∈ live -> j = 0%nat) as H.
  { induction m as [|m IH]; intros j Hm Hj.
    all: assert (rank j <= list_max (rank <$> live))%nat as Hb
      by (apply (proj1 (Forall_forall _ _) (proj1 (list_max_le _ _) (Nat.le_refl _))); apply list_elem_of_fmap; eauto).
    all: destruct (v_lib _ _ _ _ C j) as (s & Hs & Hc & Hr & _); [now rewrite Hp|]; assert (j ∈ references (so st) ls [0%nat]) as Href
      by (destruct (decide (j ∈ references (so st) ls [0%nat])) as [|Hn]; [assumption|apply count_zero in Hn; lia]).
    all: unfold references in Href; rewrite elem_of_app, list_elem_of_singleton in Href; destruct Href as [->|Href]; [reflexivity|].
    all: apply list_elem_of_In, in_concat in Href as (x & Hx & Hjx); apply list_elem_of_In, list_elem_of_fmap in Hx as (k & -> & Hk); apply list_elem_of_In in Hjx; rewrite Hp in Hk.
    all: pose proof (Ha k j Hk Hjx); assert (rank k <= list_max (rank <$> live))%nat
      by (apply (proj1 (Forall_forall _ _) (proj1 (list_max_le _ _) (Nat.le_refl _))); apply list_elem_of_fmap; eauto).
    - lia.
    - assert (k = 0%nat) as -> by (apply IH; [lia|assumption]). exfalso. destruct (v_lib _ _ _ _ C 0%nat) as (s0 & Hs0 & _ & _ & Hd0); [now rewrite Hp|].
      destruct (decide (0%nat = 0%nat)) in Hd0; [|contradiction]. unfold needs in Hjx. rewrite Hs0, Hd0 in Hjx. now apply not_elem_of_nil in Hjx. }
  apply NoDup_Permutation; [assumption|apply NoDup_singleton|]. intros j. rewrite list_elem_of_singleton. split; [intros Hj; now apply (H _ j (Nat.le_refl _))|].
  intros ->. rewrite <- Hp. apply (v_refs _ _ _ _ C). left.
Qed.

(** C10: closing handles, in any order, returns within the levels of the table, whatever the dependencies, cycles
    included, and never frees a library that is still referenced: after it the load list is counted again, the
    count of each library being the number of open handles and dependencies of loaded libraries on it, all
    positive, and every dependency of a loaded library being loaded.  When all handles are closed and the
    dependencies have no cycle, every library is unloaded. *)
Theorem unload_counts st live hs handles :
  table_counted st live (hs ++ handles) -> 0%nat ∈ handles ->
  exists rs st' ev live', unload_handles st hs = Ok (rs, st', ev) /\ table_counted st' live' handles /\ (forall j, j ∈ live' -> j ∈ live) /\
    (handles = [0%nat] -> acyclic_needs st live -> live' ≡ₚ [0%nat]).
Proof.
  intros C H0. destruct (unload_handles_ok hs st live handles C H0) as (rs & st' & ev & live' & E & C' & H). exists rs, st', ev, live'. split; [assumption|]. split; [assumption|].
  split; [intros j Hj; now apply H|]. intros -> [rank Ha]. apply (no_handles_left st'); [assumption|]. exists rank. intros j k Hj Hk. destruct (H j Hj) as [Hjl En]. rewrite En in Hk. now apply Ha.
Qed.

(** [libdl_info] and three libraries: 1 needs 2 and 3, 2 needs 3; 1 and 3 are open. *)
Definition unload_lib (r : Z) (nx : option nat) (d : option (list (Z * Z))) (fini : Z) : soinfo :=
  SoInfo [108] 0x1000 0x1000 FLAG_LINKED nx r d [] [] 0 0 [] [] None 0 None 0 None 0 0 fini true.
Definition unload_sample : linker :=
  Linker ([unload_lib 1 (Some 1%nat) None 0; unload_lib 1 (Some 2%nat) (Some [(DT_NEEDED, 2); (DT_NEEDED, 3); (DT_NULL, 0)]) 16;
           unload_lib 1 (Some 3%nat) (Some [(DT_NEEDED, 3); (DT_NULL, 0)]) 32; unload_lib 3 None (Some [(DT_NULL, 0)]) 48] ++ replicate 125 (fresh [])) 3 None 3.

Lemma unload_sample_counted : table_counted unload_sample [0; 1; 2; 3]%nat ([1; 3] ++ [0])%nat.
Proof.
  assert (forall j, j ∈ [0; 1; 2; 3]%nat -> j = 0%nat \/ j = 1%nat \/ j = 2%nat \/ j = 3%nat) as Hj by (intros j; rewrite !elem_of_cons, elem_of_nil; tauto).
  exists [0; 1; 2; 3]%nat. split; [reflexivity|]. constructor.
  - exists []. constructor; [reflexivity|unfold SO_MAX; cbn; lia| |reflexivity|reflexivity|reflexivity].
    split; [reflexivity|]. eexists. split; [reflexivity|]. split; [reflexivity|]. eexists. split; [reflexivity|]. split; [reflexivity|]. eexists. split; [reflexivity|].
    split; [reflexivity|]. eexists. split; [reflexivity|]. reflexivity.
  - apply (bool_decide_unpack _). vm_compute. exact I.
  - auto.
  - change (references (so unload_sample) [0; 1; 2; 3]%nat ([1; 3] ++ [0])%nat) with [1; 3; 0; 2; 3; 3]%nat. intros j. rewrite !elem_of_cons, elem_of_nil. tauto.
  - right. right. left.
  - intros j [->|[->|[->| ->]]]%Hj; (eexists; split; [reflexivity|]; split; [reflexivity|]; split; [cbn; lia|]; cbn); [reflexivity|..];
      (eexists; constructor; [reflexivity|apply (bool_decide_unpack _); vm_compute; exact I| |cbn; lia]); intros v Hv; rewrite !elem_of_cons, elem_of_nil in Hv;
      repeat (destruct Hv as [[= ->]|Hv]); try reflexivity; tauto.
Qed.

Lemma unload_counts_witness : exists rs st' ev live', unload_handles unload_sample [1; 3]%nat = Ok (rs, st', ev) /\ table_counted st' live' [0%nat] /\
  (forall j, j ∈ live' -> j ∈ [0; 1; 2; 3]%nat) /\ ([0%nat] = [0%nat] -> acyclic_needs unload_sample [0; 1; 2; 3]%nat -> live' ≡ₚ [0%nat]).
Proof. apply (unload_counts unload_sample [0; 1; 2; 3]%nat [1; 3]%nat [0%nat]); [exact unload_sample_counted|left]. Defined.

(** Closing 1 unloads it and then 2, keeps 3 for its handle; closing 3 unloads it. *)
Example unload_sample_events : (let! (rs, st, ev) := unload_handles unload_sample [1; 3]%nat in Ok (rs, ev)) =
  Ok ([0; 0], [Fini 1 16; Fini 2 32; Unmap 0x1000 0x1000; Unmap 0x1000 0x1000; Fini 3 48; Unmap 0x1000 0x1000]).
Proof. vm_compute. reflexivity. Qed.
End LinkerUnload.
