(* ===== verification/LinkerReloc.v ===== *)
(** * Relocation (common/jb/linker.c, [reloc_library], ARM)

    The loop over a relocation table without the tracing build option.  Memory is the
    address space of [LinkerLoad]; reading an address that is not readable and writing one that is
    not writable is undefined.  The hook table
    [_get_hooked_symbol] is a function of the symbol and the requesting library, 0
    when there is no hook.  The local variable [s] survives from one relocation to
    the next, as in the code, and starts uninitialised. *)

From Stdlib Require Import ZArith Lia Bool.
From stdpp Require Import base numbers option list.
From S2P Require Import Prelude CStr LinkerPool LinkerLookup LinkerLoad.

Open Scope Z_scope.
Open Scope outcome_scope.

Module LinkerReloc.
Import CStr LinkerPool LinkerLookup.
Import LinkerLoad (space, cell, Cell, byte, prot, over, peek, writable, le16, le32, has, PROT_READ, PROT_WRITE).

Definition R_ARM_NONE : Z := 0.
Definition R_ARM_ABS32 : Z := 2.
Definition R_ARM_REL32 : Z := 3.
Definition R_ARM_COPY : Z := 20.
Definition R_ARM_GLOB_DAT : Z := 21.
Definition R_ARM_JUMP_SLOT : Z := 22.
Definition R_ARM_RELATIVE : Z := 23.

Record Elf_Rel := Rel { r_offset : Z; r_info : Z }.
Definition ELF32_R_TYPE (info : Z) : Z := Z.land info 0xff.
Definition ELF32_R_SYM (info : Z) : Z := Z.shiftr info 8.

(** Little-endian words. *)
Definition load32 (m : space) (a : Z) : outcome Z := le32 (peek m) a.

Definition set_byte (m : space) (x v : Z) : option cell := match m x with Some c => Some (Cell (Some v) (prot c)) | None => None end.
Definition put32 (m : space) (a v : Z) : space := over m a 4 (fun x => set_byte m x (v / 2 ^ (8 * (x - a)) mod 2 ^ 8)).

Definition store32 (m : space) (a v : Z) : outcome space :=
  if forallb (fun k => writable m (a + k)) [0; 1; 2; 3] then Ok (put32 m a v) else Undef.

(** [memcpy((void * )dst, (void * )src, n)], byte by byte. *)
Fixpoint copy (n : nat) (m : space) (dst src : Z) : outcome space :=
  match n with
  | O => Ok m
  | S n => let! b := peek m src in
           if writable m dst then copy n (over m dst 1 (fun x => set_byte m x b)) (dst + 1) (src + 1) else Undef
  end.

(** The variable [s]. *)
Inductive sym_var := Uninit | Null | Ptr (s : Elf_Sym).

(** "libdsyscalls.so" *)
Definition libdsyscalls : str := [108; 105; 98; 100; 115; 121; 115; 99; 97; 108; 108; 115; 46; 115; 111].

Definition weak_type_ok (type : Z) : bool :=
  (type =? R_ARM_JUMP_SLOT) || (type =? R_ARM_GLOB_DAT) || (type =? R_ARM_ABS32) || (type =? R_ARM_RELATIVE) || (type =? R_ARM_NONE).

Section reloc.
Context (hooked : str -> str -> Z) (libs : list soinfo) (preloads : list nat) (somain : option nat) (i : nat) (si : soinfo).

(** [s] and [sym_addr] after the symbol part; [None] is the error return. *)
Definition resolve (type sym : Z) (s : sym_var) : outcome (option (sym_var * Z)) :=
  if sym =? 0 then Ok (Some (Null, 0)) else
  let! sy := rd (symtab si) sym in
  let! nm := sym_name si sy in
  let hook := hooked nm (name si) in
  if negb (hook =? 0) then Ok (Some (s, hook)) else
  let! found := _do_lookup libs preloads somain i nm in
  match found with
  | None =>
      if negb (ELF32_ST_BIND (st_info sy) =? STB_WEAK) && negb (bool_decide (name si = libdsyscalls)) then Ok None
      else if weak_type_ok type then Ok (Some (Ptr sy, 0)) else Ok None
  | Some (p, j) =>
      let! lsi := of_option (libs !! p) in
      let! d := rd (symtab lsi) j in
      Ok (Some (Ptr d, u32 (st_value d + base lsi)))
  end.

(** The store; [None] is the error return. *)
Definition apply_reloc (r : Elf_Rel) (s : sym_var) (sym_addr : Z) (m : space) : outcome (option space) :=
  let type := ELF32_R_TYPE (r_info r) in
  let reloc := u32 (r_offset r + base si) in
  if (type =? R_ARM_JUMP_SLOT) || (type =? R_ARM_GLOB_DAT) then let! m := store32 m reloc sym_addr in Ok (Some m)
  else if type =? R_ARM_ABS32 then let! w := load32 m reloc in let! m := store32 m reloc (u32 (w + sym_addr)) in Ok (Some m)
  else if type =? R_ARM_REL32 then let! w := load32 m reloc in let! m := store32 m reloc (u32 (w + u32 (sym_addr - r_offset r))) in Ok (Some m)
  else if type =? R_ARM_RELATIVE then
    if negb (ELF32_R_SYM (r_info r) =? 0) then Ok None
    else let! w := load32 m reloc in let! m := store32 m reloc (u32 (w + base si)) in Ok (Some m)
  else if type =? R_ARM_COPY then
    match s with Ptr d => let! m := copy (Z.to_nat (st_size d)) m reloc sym_addr in Ok (Some m) | _ => Undef end
  else if type =? R_ARM_NONE then Ok (Some m)
  else Ok None.

Fixpoint reloc_loop (rel : list Elf_Rel) (s : sym_var) (m : space) : outcome (Z * space) :=
  match rel with
  | [] => Ok (0, m)
  | r :: rel =>
      let! res := resolve (ELF32_R_TYPE (r_info r)) (ELF32_R_SYM (r_info r)) s in
      match res with
      | None => Ok (-1, m)
      | Some (s, sym_addr) =>
          let! m' := apply_reloc r s sym_addr m in
          match m' with None => Ok (-1, m) | Some m => reloc_loop rel s m end
      end
  end.

Definition reloc_library (rel : list Elf_Rel) (count : nat) (m : space) : outcome (Z * space) :=
  if (length rel <? count)%nat then Undef else reloc_loop (take count rel) Uninit m.

(** ** Specification *)

(** The type is the low byte of [r_info], the symbol the rest: 2 is R_ARM_ABS32, 21 GLOB_DAT, 22 JUMP_SLOT, 23 RELATIVE. *)
Definition type_of (r : Elf_Rel) : Z := r_info r mod 256.
Definition symbol_of (r : Elf_Rel) : Z := r_info r / 256.
Definition named (r : Elf_Rel) (sy : Elf_Sym) (nm : str) : Prop := symbol_of r <> 0 /\ rd (symtab si) (symbol_of r) = Ok sy /\ sym_name si sy = Ok nm.
(** A symbol that may be left unresolved: a weak one, or any one of the library of system calls. *)
Definition optional (sy : Elf_Sym) : Prop := st_info sy / 16 = 2 \/ name si = libdsyscalls.

(** The address of a relocation's symbol: 0 for no symbol; the hook's; that of the first definition in scope, moved to where its library is; 0 for an
    optional symbol that nobody defines. *)
Inductive resolves (d : list (Z * Z)) (r : Elf_Rel) : Z -> Prop :=
| r_none : symbol_of r = 0 -> resolves d r 0
| r_hook sy nm : named r sy nm -> hooked nm (name si) <> 0 -> resolves d r (hooked nm (name si))
| r_defined sy nm p j lib def : named r sy nm -> hooked nm (name si) = 0 -> first_definition libs nm (scope i preloads d somain) (Some (p, j)) ->
    libs !! p = Some lib -> rd (symtab lib) j = Ok def -> resolves d r ((st_value def + base lib) mod 2 ^ 32)
| r_optional sy nm : named r sy nm -> hooked nm (name si) = 0 -> first_definition libs nm (scope i preloads d somain) None -> optional sy -> resolves d r 0.

Definition place (r : Elf_Rel) : Z := (r_offset r + base si) mod 2 ^ 32.

(** The value the ARM ELF supplement defines, from the word [w] in place and the symbol's address. *)
Definition relocated (r : Elf_Rel) (w sym_addr : Z) : Z :=
  if (type_of r =? 22) || (type_of r =? 21) then sym_addr
  else if type_of r =? 2 then (w + sym_addr) mod 2 ^ 32 else (w + base si) mod 2 ^ 32.

(** The types whose stores the supplement defines this way. *)
Definition plain (r : Elf_Rel) : bool :=
  (type_of r =? 22) || (type_of r =? 21) || (type_of r =? 2) || ((type_of r =? 23) && (symbol_of r =? 0)).

(** The library and those of its scope are well formed; every symbol is hooked, defined in scope or optional; every place is mapped, and no two places overlap. *)
Definition apart (a b : Z) : Prop := a + 4 <= b \/ b + 4 <= a.
Record rels_ok (d : list (Z * Z)) (rel : list Elf_Rel) (m : space) : Prop := {
  k_self : libs !! i = Some si /\ dynamic si = Some d /\ terminated d /\ needed_valid d;
  k_scope : libraries_ok libs (scope i preloads d somain);
  k_plain : forall r, r ∈ rel -> plain r = true;
  k_symbol : forall r, r ∈ rel -> symbol_of r = 0 \/ exists sy nm, named r sy nm /\ in_range 32 (hooked nm (name si)) /\
    (hooked nm (name si) = 0 -> first_definition libs nm (scope i preloads d somain) None -> optional sy);
  k_mapped : forall r, r ∈ rel -> exists w, load32 m (place r) = Ok w;
  k_writable : forall r x, r ∈ rel -> place r <= x < place r + 4 -> writable m x = true;
  k_apart : ForallOrdPairs (fun r r' => apart (place r) (place r')) rel }.

(** ** Words in memory *)

Lemma put_lookup m a v x : ~ a <= x < a + 4 -> put32 m a v x = m x.
Proof. intros H. now apply LinkerLoad.over_out. Qed.

Lemma put_byte m a v x : a <= x < a + 4 -> put32 m a v x = set_byte m x (v / 2 ^ (8 * (x - a)) mod 2 ^ 8).
Proof. intros H. unfold put32. now rewrite LinkerLoad.over_in. Qed.

Lemma peek_cell m x b : peek m x = Ok b -> exists p, m x = Some (Cell (Some b) p) /\ has p PROT_READ = true.
Proof. unfold peek. destruct (m x) as [[[b'|] p]|]; try discriminate. destruct (has p PROT_READ) eqn:E; [|discriminate]. intros [= ->]. eauto. Qed.

Lemma peek_put m a v x b : peek m x = Ok b -> a <= x < a + 4 -> peek (put32 m a v) x = Ok (v / 2 ^ (8 * (x - a)) mod 2 ^ 8).
Proof. intros H Hx. apply peek_cell in H as (p & E & Hp). unfold peek. rewrite put_byte by assumption. unfold set_byte. rewrite E. cbn [prot]. now rewrite Hp. Qed.

Lemma load32_bytes m a w : load32 m a = Ok w -> forall x, a <= x < a + 4 -> exists b, peek m x = Ok b.
Proof.
  unfold load32, le32, le16. intros H x Hx. inv_ok. assert (x = a \/ x = a + 1 \/ x = a + 2 \/ x = a + 2 + 1) as [->|[->|[->| ->]]] by lia; eauto.
Qed.

Lemma load_put_same m a v w : load32 m a = Ok w -> in_range 32 v -> load32 (put32 m a v) a = Ok v.
Proof.
  intros Hw H. unfold in_range in H. pose proof (load32_bytes m a w Hw) as Hb. unfold load32, le32, le16.
  destruct (Hb a ltac:(lia)) as [b0 H0], (Hb (a + 1) ltac:(lia)) as [b1 H1], (Hb (a + 2) ltac:(lia)) as [b2 H2], (Hb (a + 2 + 1) ltac:(lia)) as [b3 H3].
  rewrite (peek_put m a v a b0 H0), (peek_put m a v (a + 1) b1 H1), (peek_put m a v (a + 2) b2 H2), (peek_put m a v (a + 2 + 1) b3 H3) by lia. cbn [obind]. f_equal.
  replace (a - a) with 0 by lia. replace (a + 1 - a) with 1 by lia. replace (a + 2 - a) with 2 by lia. replace (a + 2 + 1 - a) with 3 by lia.
  change (2 ^ (8 * 0)) with 1. change (2 ^ (8 * 1)) with (2 ^ 8). change (2 ^ (8 * 2)) with (2 ^ 16). change (2 ^ (8 * 3)) with (2 ^ 24). rewrite Z.div_1_r.
  assert (v / 2 ^ 24 mod 2 ^ 8 = v / 2 ^ 24) as -> by (apply Z.mod_small; split; [apply Z.div_pos; lia|apply Z.div_lt_upper_bound; lia]).
  pose proof (Z.div_mod v (2 ^ 8)). pose proof (Z.div_mod (v / 2 ^ 8) (2 ^ 8)). pose proof (Z.div_mod (v / 2 ^ 16) (2 ^ 8)).
  rewrite !Z.div_div in * by lia. change (2 ^ 8 * 2 ^ 8) with (2 ^ 16) in *. change (2 ^ 16 * 2 ^ 8) with (2 ^ 24) in *. lia.
Qed.

Lemma load_ext m m' a : (forall x, a <= x < a + 4 -> m' x = m x) -> load32 m' a = load32 m a.
Proof. intros H. unfold load32, le32, le16, peek. rewrite !H by lia. reflexivity. Qed.

Lemma load_put_other m a b v : apart a b -> load32 (put32 m a v) b = load32 m b.
Proof. intros H. unfold apart in H. apply load_ext. intros x Hx. apply put_lookup. lia. Qed.

Lemma store32_ok m a v : (forall x, a <= x < a + 4 -> writable m x = true) -> store32 m a v = Ok (put32 m a v).
Proof. intros H. unfold store32. cbn [forallb]. rewrite !H by lia. reflexivity. Qed.

Lemma writable_put m a v x : ~ a <= x < a + 4 -> writable (put32 m a v) x = writable m x.
Proof. intros H. unfold writable. now rewrite put_lookup. Qed.

(** ** One relocation *)

Lemma info_parts r : ELF32_R_TYPE (r_info r) = type_of r /\ ELF32_R_SYM (r_info r) = symbol_of r.
Proof. unfold ELF32_R_TYPE, ELF32_R_SYM. change 0xff with (Z.ones 8). rewrite Z.land_ones, Z.shiftr_div_pow2 by lia. auto. Qed.

Lemma plain_weak_type r : plain r = true -> weak_type_ok (type_of r) = true.
Proof. unfold plain, weak_type_ok. destruct (Z.eqb_spec (type_of r) 22) as [->|]; [reflexivity|]. destruct (Z.eqb_spec (type_of r) 21) as [->|]; [reflexivity|]. destruct (Z.eqb_spec (type_of r) 2) as [->|]; [reflexivity|]. destruct (Z.eqb_spec (type_of r) 23) as [->|]; [reflexivity|discriminate]. Qed.

Lemma resolve_any d rel m r s : rels_ok d rel m -> r ∈ rel -> exists s' a, resolve (ELF32_R_TYPE (r_info r)) (ELF32_R_SYM (r_info r)) s = Ok (Some (s', a)) /\ resolves d r a /\ in_range 32 a.
Proof.
  intros K Hr. destruct (info_parts r) as [-> ->]. unfold resolve. destruct (k_symbol _ _ _ K r Hr) as [E|(sy & nm & N & Hh & Hopt)]; [rewrite E; exists Null, 0; split; [reflexivity|]; split; [now apply r_none|unfold in_range; lia]|].
  destruct N as (Hs & Hsy & Hnm). rewrite (proj2 (Z.eqb_neq _ _) Hs), Hsy. cbn [obind]. rewrite Hnm. cbn [obind]. assert (named r sy nm) as N by (split_and!; auto). destruct (Z.eqb_spec (hooked nm (name si)) 0) as [Eh|Eh]; cbn [negb]; [|eexists _, _; split; [reflexivity|]; split; [eapply r_hook; eauto|exact Hh]].
  destruct (k_self _ _ _ K) as (Hi & Hd & Ht & Hv). destruct (do_lookup_first libs preloads somain i si d nm Hi Hd Ht Hv (k_scope _ _ _ K)) as (f & -> & Hf). cbn [obind]. destruct f as [[p j]|].
  - pose proof Hf as (_ & _ & lib & _ & Hp & (Hj & def & Hdef & _) & _). rewrite Hp. cbn [of_option obind]. rewrite Hdef. cbn [obind]. eexists _, _. split; [reflexivity|]. split; [eapply r_defined; eauto|apply wrap_range; lia].
  - pose proof (Hopt Eh Hf) as Ho. assert (negb (ELF32_ST_BIND (st_info sy) =? STB_WEAK) && negb (bool_decide (name si = libdsyscalls)) = false) as ->.
    { unfold ELF32_ST_BIND. rewrite Z.shiftr_div_pow2 by lia. destruct Ho as [Ho|Ho]; [change (2 ^ 4) with 16; rewrite Ho; reflexivity|rewrite bool_decide_eq_true_2 by assumption; apply andb_false_r]. }
    rewrite (plain_weak_type r (k_plain _ _ _ K r Hr)). eexists _, 0. split; [reflexivity|]. split; [eapply r_optional; eauto|unfold in_range; lia].
Qed.

Lemma relocated_range r w a : in_range 32 a -> in_range 32 (relocated r w a).
Proof. intros Ha. unfold relocated. destruct (_ || _); [assumption|]. destruct (_ =? _); apply wrap_range; lia. Qed.

Lemma apply_plain r s a m w : plain r = true -> load32 m (place r) = Ok w -> (forall x, place r <= x < place r + 4 -> writable m x = true) ->
  apply_reloc r s a m = Ok (Some (put32 m (place r) (relocated r w a))).
Proof.
  intros Hp Hw Hx. unfold plain in Hp. unfold apply_reloc, relocated. fold (u32 (r_offset r + base si)) in *. change (u32 (r_offset r + base si)) with (place r). destruct (info_parts r) as [-> ->].
  change R_ARM_JUMP_SLOT with 22. change R_ARM_GLOB_DAT with 21. change R_ARM_ABS32 with 2. destruct ((type_of r =? 22) || (type_of r =? 21)); [now rewrite (store32_ok _ _ _ Hx)|].
  cbn [orb] in Hp. destruct (type_of r =? 2); [rewrite Hw; cbn [obind]; now rewrite (store32_ok _ _ _ Hx)|].
  cbn [orb] in Hp. apply andb_true_iff in Hp as [Ht Hs]. apply Z.eqb_eq in Ht. rewrite Ht, Hs.
  change (23 =? R_ARM_REL32) with false. change (23 =? R_ARM_RELATIVE) with true. cbn [negb]. rewrite Hw. cbn [obind]. now rewrite (store32_ok _ _ _ Hx).
Qed.

(** What the loop leaves in memory. *)
Definition relocated_memory (d : list (Z * Z)) (rel : list Elf_Rel) (m m' : space) : Prop :=
  (forall r, r ∈ rel -> exists w a, load32 m (place r) = Ok w /\ resolves d r a /\ load32 m' (place r) = Ok (relocated r w a)) /\
  forall x, (forall r, r ∈ rel -> ~ place r <= x < place r + 4) -> m' x = m x.

Lemma reloc_loop_ok d : forall rel s m, rels_ok d rel m -> exists m', reloc_loop rel s m = Ok (0, m') /\ relocated_memory d rel m m'.
Proof.
  induction rel as [|r rel IH]; intros s m K; cbn [reloc_loop].
  { exists m. split; [reflexivity|]. split; [intros r Hr; now apply not_elem_of_nil in Hr|reflexivity]. }
  destruct (resolve_any d (r :: rel) m r s K ltac:(left)) as (s' & a & -> & Ha & Hr32). destruct (k_mapped _ _ _ K r) as [w Hw]; [left|]. cbn [obind]. rewrite (apply_plain r s' a m w (k_plain _ _ _ K r ltac:(left)) Hw (fun x => k_writable _ _ _ K r x ltac:(left))). cbn [obind].
  set (v := relocated r w a) in *. pose proof (k_apart _ _ _ K) as Hap. inversion Hap as [|? ? Hfirst Hrest]; subst.
  assert (forall r', r' ∈ rel -> apart (place r) (place r')) as Hapart by (intros r' Hr'; apply list_elem_of_In in Hr'; exact (proj1 (List.Forall_forall _ _) Hfirst r' Hr')).
  destruct (IH s' (put32 m (place r) v)) as (m' & -> & H1 & H2).
  { constructor.
    - exact (k_self _ _ _ K).
    - exact (k_scope _ _ _ K).
    - intros r' Hr'. apply (k_plain _ _ _ K). now right.
    - intros r' Hr'. apply (k_symbol _ _ _ K). now right.
    - intros r' Hr'. rewrite load_put_other by auto. apply (k_mapped _ _ _ K). now right.
    - intros r' x Hr' Hx. rewrite writable_put by (pose proof (Hapart r' Hr') as Hd; unfold apart in Hd; lia). apply (k_writable _ _ _ K r'); [now right|assumption].
    - exact Hrest. }
  exists m'. split; [reflexivity|]. split.
  - intros r' [->|Hr']%elem_of_cons.
    + exists w, a. split_and!; auto. fold v. rewrite <- (load_put_same m (place r) v w Hw) by now apply relocated_range. apply load_ext.
      intros x Hx. apply H2. intros r' Hr'. pose proof (Hapart r' Hr') as Hd. unfold apart in Hd. lia.
    + destruct (H1 r' Hr') as (w' & a' & Hw' & Ha' & Hm'). rewrite load_put_other in Hw' by auto. eauto.
  - intros x Hx. rewrite H2 by (intros r' Hr'; apply Hx; now right). apply put_lookup. apply Hx. left.
Qed.
End reloc.

(** C22: relocating a table of absolute, GOT, PLT and relative relocations of a library whose scope has well-formed symbol tables, whose symbols
    are hooked, defined in scope, weak or of the library of system calls, and whose places are mapped and do
    not overlap returns 0, stores in every place the value the ARM ELF supplement defines from the
    word there and the symbol's address (the hook's if there is one, else value plus load base of the first definition
    in scope, else 0), and changes no other byte. *)
Theorem relocations_applied hooked libs preloads somain i si d rel m :
  rels_ok hooked libs preloads somain i si d rel m ->
  exists m', reloc_library hooked libs preloads somain i si rel (length rel) m = Ok (0, m') /\
    relocated_memory hooked libs preloads somain i si d rel m m'.
Proof. intros K. unfold reloc_library. rewrite Nat.ltb_irrefl, take_ge by lia. now apply reloc_loop_ok. Qed.

(** A library at 0x1000 with a relative relocation at 0x1008 and a GOT entry at 0x100c for the symbol it defines. *)
Definition sample_si : soinfo := LinkerLookup.sample_lib [48] 97 [] None.
Definition sample_mem : space := fun x => if (0x1008 <=? x) && (x <? 0x1010) then Some (Cell (Some (x - 0x1000)) 3) else None.
Definition sample_rels : list Elf_Rel := [Rel 8 R_ARM_RELATIVE; Rel 12 (0x100 + R_ARM_GLOB_DAT)].

Lemma relocations_applied_witness :
  exists m', reloc_library (fun _ _ => 0) [sample_si] [] None 0 sample_si sample_rels 2 sample_mem = Ok (0, m') /\
    relocated_memory (fun _ _ => 0) [sample_si] [] None 0 sample_si [(DT_NULL, 0)] sample_rels sample_mem m'.
Proof.
  apply (relocations_applied (fun _ _ => 0) [sample_si] [] None 0 sample_si [(DT_NULL, 0)] sample_rels sample_mem).
  assert (forall r, r ∈ sample_rels -> r = Rel 8 R_ARM_RELATIVE \/ r = Rel 12 (0x100 + R_ARM_GLOB_DAT)) as Hr.
  { intros r Hr. unfold sample_rels in Hr. rewrite !elem_of_cons in Hr. destruct Hr as [Hr|[Hr|Hr]]; auto. now apply not_elem_of_nil in Hr. }
  constructor.
  - split; [reflexivity|]. split; [reflexivity|]. split; [left|]. intros v Hv. apply list_elem_of_singleton in Hv. discriminate.
  - intros q Hq. cbn in Hq. apply list_elem_of_singleton in Hq as ->. eexists. split; [reflexivity|now apply LinkerLookup.sample_table].
  - intros r [->| ->]%Hr; reflexivity.
  - intros r [->| ->]%Hr; [now left|right]. exists (Sym 1 0x40 4 0x12 3), [97]. split; [split_and!; [discriminate|reflexivity|reflexivity]|]. split; [unfold in_range; lia|]. intros _ Hn. exfalso. apply (Hn 0%nat sample_si 1); [left|reflexivity|]. split; [lia|]. eexists. split; [reflexivity|]. split; reflexivity.
  - intros r [->| ->]%Hr; [exists 0x0b0a0908|exists 0x0f0e0d0c]; vm_compute; reflexivity.
  - intros r x [->| ->]%Hr Hx; unfold writable, sample_mem; [replace (place _ _) with 0x1008 in Hx by reflexivity|replace (place _ _) with 0x100c in Hx by reflexivity]; rewrite (proj2 (Z.leb_le _ _)), (proj2 (Z.ltb_lt _ _)) by lia; reflexivity.
  - apply FOP_cons; [constructor; [left; vm_compute; congruence|constructor]|repeat constructor].
Defined.

Example sample_relocated :
  (let! (r, m) := reloc_library (fun _ _ => 0) [sample_si] [] None 0 sample_si sample_rels 2 sample_mem in
   let! a := load32 m 0x1008 in let! b := load32 m 0x100c in Ok (r, a, b)) = Ok (0, 0x0b0a1908, 0x1040).
Proof. vm_compute. reflexivity. Qed.

(** A PC-relative relocation subtracts the link-time offset, not the place: with the library at 0x1000 the result is 0x1000 too large. *)
Example rel32_not_pc_relative :
  (let! (r, m) := reloc_library (fun _ _ => 0) [sample_si] [] None 0 sample_si [Rel 8 (0x100 + R_ARM_REL32)] 1 sample_mem in
   let! w := load32 m 0x1008 in Ok (r, w)) = Ok (0, u32 (0x0b0a0908 + 0x1040 - 0x1008) + 0x1000).
Proof. vm_compute. reflexivity. Qed.

(** A copy relocation of a hooked symbol reads the uninitialised [s]. *)
Example hooked_copy_undefined : reloc_library (fun _ _ => 0x5000) [sample_si] [] None 0 sample_si [Rel 8 (0x100 + R_ARM_COPY)] 1 sample_mem = Undef.
Proof. vm_compute. reflexivity. Qed.
End LinkerReloc.
