(* ===== verification/LinkerPath.v ===== *)
(** * Finding library files (common/jb/linker.c)

    [parse_library_path], [parse_preloads], [_open_lib] and [open_library].  The parsed path is the
    static buffer, in which [strsep] overwrites separators, and the array of offsets of its
    entries (a null entry ends it).  The file system says of every path what [stat] and [open]
    find there; the environment is [getenv]. *)

From Stdlib Require Import ZArith Lia Bool String Ascii.
From stdpp Require Import base numbers option list.
From S2P Require Import Prelude CStr StrL LinkerFormat LinkerLoad.

Open Scope Z_scope.
Open Scope outcome_scope.

Module LinkerPath.
Import CStr.

Definition LDPATH_BUFSIZE : nat := 512.
Definition LDPATH_MAX : nat := 8.
Definition LDPRELOAD_BUFSIZE : nat := 512.
Definition LDPRELOAD_MAX : nat := 8.

(** ** [strsep] *)

Definition is_delim (delim : str) (c : Z) : bool := existsb (Z.eqb c) delim.

(** [strcspn] from offset [s]: where a separator ([true]) or the NUL is. *)
Fixpoint scan_sep (fuel : nat) (buf : list Z) (delim : str) (s : nat) : outcome (nat * bool) :=
  match fuel with
  | O => Undef
  | S fuel => let! c := rd buf (Z.of_nat s) in
              if c =? 0 then Ok (s, false) else if is_delim delim c then Ok (s, true) else scan_sep fuel buf delim (S s)
  end.

(** The token, the pointer after it, and the buffer. *)
Definition strsep (buf : list Z) (p : option nat) (delim : str) : outcome (option nat * option nat * list Z) :=
  match p with
  | None => Ok (None, None, buf)
  | Some s => let! (e, hit) := scan_sep (S (length buf)) buf delim s in
              if hit then let! buf := put buf (Z.of_nat e) [0] in Ok (Some s, Some (S e), buf) else Ok (Some s, None, buf)
  end.

(** ** Parsing *)

Record paths := Paths { pbuf : list Z; entries : list (option nat) }.

Definition set_entry (es : list (option nat)) (i : nat) (e : option nat) : outcome (list (option nat)) :=
  if (i <? length es)%nat then Ok (<[i := e]> es) else Undef.

(** The [while] loop; the index it ends with. *)
Fixpoint parse_loop (fuel max i : nat) (p : option nat) (delim : str) (st : paths) : outcome (nat * paths) :=
  match fuel with
  | O => Undef
  | S fuel =>
      if (i <? max)%nat then
        let! (tok, p, buf) := strsep (pbuf st) p delim in
        let! es := set_entry (entries st) i tok in
        match tok with
        | None => Ok (i, Paths buf es)
        | Some s => let! c := rd buf (Z.of_nat s) in
                    parse_loop fuel max (if c =? 0 then i else S i) p delim (Paths buf es)
        end
      else Ok (i, st)
  end.

Definition parse_list (size max : nat) (st : paths) (path delim : str) : outcome paths :=
  let! (buf, len) := StrL.strlcpy (pbuf st) path size in
  let! (i, st) := parse_loop (S (S size)) max 0 (Some 0%nat) delim (Paths buf (entries st)) in
  let! c := rd (pbuf st) (Z.of_nat size - 2) in
  let last := if (0 <? i)%nat && (Z.of_nat size <=? len) && negb (c =? 0) then (i - 1)%nat else i in
  let! es := set_entry (entries st) last None in
  Ok (Paths (pbuf st) es).

Definition parse_library_path := parse_list LDPATH_BUFSIZE LDPATH_MAX.
Definition parse_preloads := parse_list LDPRELOAD_BUFSIZE LDPRELOAD_MAX.

(** The static objects before the first call. *)
Definition no_paths : paths := Paths (replicate LDPATH_BUFSIZE 0) (replicate (S LDPATH_MAX) None).

(** ** Opening *)

(** What is at a path: nothing, something that is not a regular file, a file that cannot be opened, or
    a file with its bytes. *)
Inductive node := Missing | Special | Locked | Regular (bytes : list Z).

Section open.
(** [junk] is what the uninitialised [buf] holds. *)
Context (files : str -> node) (getenv : str -> option str) (default_path : option str) (junk : list Z).

Definition _open_lib (name : str) : option (list Z) := match files name with Regular b => Some b | _ => None end.

(** "HYBRIS_LINKER_FORCE_BASENAME", "HYBRIS_LD_LIBRARY_PATH", "/vendor/lib", "/system/lib", "%s/%s" *)
Definition FORCE_BASENAME : str := [72; 89; 66; 82; 73; 83; 95; 76; 73; 78; 75; 69; 82; 95; 70; 79; 82; 67; 69; 95; 66; 65; 83; 69; 78; 65; 77; 69].
Definition HYBRIS_LD_LIBRARY_PATH : str := [72; 89; 66; 82; 73; 83; 95; 76; 68; 95; 76; 73; 66; 82; 65; 82; 89; 95; 80; 65; 84; 72].
Definition sopaths : list str := [[47; 118; 101; 110; 100; 111; 114; 47; 108; 105; 98]; [47; 115; 121; 115; 116; 101; 109; 47; 108; 105; 98]].
Definition fmt : str := [37; 115; 47; 37; 115].

(** One turn of either [for] loop: [Some] is the return. *)
Definition try_dir (dir name : str) : outcome (option (list Z)) :=
  let! (buf, n) := LinkerFormat.format_buffer junk 512 fmt [LinkerFormat.AStr dir; LinkerFormat.AStr name] in
  if (n <? 0) || (512 <=? n) then Ok None else let! path := cstr buf in Ok (_open_lib path).

Fixpoint ldpaths_loop (n i : nat) (st : paths) (name : str) : outcome (option (list Z)) :=
  match n with
  | O => Undef
  | S n => let! e := rd (entries st) (Z.of_nat i) in
           match e with
           | None => Ok None
           | Some s => let! dir := cstr (drop s (pbuf st)) in
                       let! f := try_dir dir name in
                       match f with Some b => Ok (Some b) | None => ldpaths_loop n (S i) st name end
           end
  end.

Fixpoint sopaths_loop (dirs : list str) (name : str) : outcome (option (list Z)) :=
  match dirs with
  | [] => Ok None
  | dir :: dirs => let! f := try_dir dir name in match f with Some b => Ok (Some b) | None => sopaths_loop dirs name end
  end.

(** The path is parsed on first use; the environment's has precedence over the configured one. *)
Definition parse_paths (st : paths) : outcome paths :=
  let! e := rd (entries st) 0 in
  let! st := (match getenv HYBRIS_LD_LIBRARY_PATH, default_path, e with None, Some dp, None => parse_library_path st dp [58] | _, _, _ => Ok st end) in
  let! e := rd (entries st) 0 in
  match getenv HYBRIS_LD_LIBRARY_PATH, e with Some p, None => parse_library_path st p [58] | _, _ => Ok st end.

Definition search_path (st : paths) (name : str) : outcome (option (list Z) * paths) :=
  let! st := parse_paths st in
  let! f := ldpaths_loop (S (length (entries st))) 0 st name in
  match f with
  | Some b => Ok (Some b, st)
  | None => let! f := sopaths_loop sopaths name in Ok (f, st)
  end.

(** [fuel] bounds the recursive call, whose name has no slash. *)
Fixpoint open_library (fuel : nat) (st : paths) (name : option str) : outcome (option (list Z) * paths) :=
  match fuel with
  | O => Undef
  | S fuel =>
      match name with
      | None => Ok (None, st)
      | Some name =>
          if (256 <? length name)%nat then Ok (None, st) else
          let! c := chr name 0 in
          let! (f, st) := (if (c =? 47) && (match getenv FORCE_BASENAME with Some _ => true | None => false end)
                           then open_library fuel st (Some (LinkerLoad.base_name name)) else Ok (None, st)) in
          match f with
          | Some b => Ok (Some b, st)
          | None =>
              match (if c =? 47 then _open_lib name else None) with
              | Some b => Ok (Some b, st)
              | None => search_path st name
              end
          end
      end
  end.
End open.

(** ** Specification of the path *)

Definition bytes (s : string) : str := (fun c => Z.of_N (N_of_ascii c)) <$> list_ascii_of_string s.
Definition system_dirs : list str := [bytes "/vendor/lib"; bytes "/system/lib"].

(** The fields of a string between separators, and the ones that are not empty. *)
Fixpoint fields (delim s : str) : list str :=
  match s with
  | [] => [[]]
  | c :: s => if is_delim delim c then [] :: fields delim s
              else match fields delim s with [] => [[c]] | f :: fs => (c :: f) :: fs end
  end.
Definition components (delim s : str) : list str := List.filter (fun f => negb (bool_decide (f = []))) (fields delim s).

(** Entry [k] of the parsed array is the string [s], inside the bytes [b]. *)
Definition holds (b : list Z) (es : list (option nat)) (k : nat) (s : str) : Prop :=
  exists o tail, es !! k = Some (Some o) /\ (o <= length b)%nat /\ drop o b = s ++ 0 :: tail /\ StrL.no_nul s.

Lemma holds_app b c es k s : holds b es k s -> holds (b ++ c) es k s.
Proof.
  intros (o & tail & He & Hl & Hd & Hs). exists o, (tail ++ c). split; [assumption|]. rewrite length_app. split; [lia|]. split; [|assumption].
  rewrite drop_app_le, Hd by assumption. now rewrite <- app_assoc.
Qed.

Lemma holds_other b es k s i e : i <> k -> holds b es k s -> holds b (<[i := e]> es) k s.
Proof. intros Hne (o & tail & He & H). exists o, tail. now rewrite list_lookup_insert_ne by assumption. Qed.

Lemma scan_sep_ok delim post : forall t pre fuel, StrL.no_nul t -> (length t < fuel)%nat ->
  exists f hit, scan_sep fuel (pre ++ t ++ 0 :: post) delim (length pre) = Ok ((length pre + length f)%nat, hit) /\ Forall (fun c => is_delim delim c = false) f /\
    if hit then exists d r, t = f ++ d :: r /\ is_delim delim d = true /\ fields delim t = f :: fields delim r else t = f /\ fields delim t = [t].
Proof.
  induction t as [|c t IH]; intros pre fuel Hn Hf; (destruct fuel as [|fuel]; [cbn in Hf; lia|]); cbn [scan_sep].
  - cbn [app]. rewrite StrL.rd_mid. cbn [obind]. exists [], false. rewrite Nat.add_0_r. split; [reflexivity|]. split; [constructor|]. auto.
  - cbn [app]. rewrite StrL.rd_mid. cbn [obind]. inversion Hn as [|? ? Hc Ht]; subst. rewrite (proj2 (Z.eqb_neq _ _) Hc). cbn [fields]. destruct (is_delim delim c) eqn:D.
    + exists [], true. rewrite Nat.add_0_r. split; [reflexivity|]. split; [constructor|]. exists c, t. auto.
    + destruct (IH (pre ++ [c]) fuel Ht ltac:(cbn in Hf; lia)) as (f & hit & E & Hd & H). rewrite length_app in E. cbn [length] in E. rewrite Nat.add_1_r, <- app_assoc in E. cbn [app] in E.
      exists (c :: f), hit. split; [rewrite E; do 2 f_equal; cbn; lia|]. split; [now constructor|]. destruct hit.
      * destruct H as (d & r & -> & Hdd & ->). exists d, r. auto.
      * destruct H as [-> ->]. auto.
Qed.

(** The state after the loop on the text [t] that follows the bytes [pre]. *)
Record parsed (delim : str) (max : nat) (pre t post : list Z) (i : nat) (acc : list str) (i' : nat) (st' : paths) : Prop := {
  q_len : length (entries st') = S max;
  q_size : length (pbuf st') = length (pre ++ t ++ 0 :: post);
  q_pre : take (length pre) (pbuf st') = pre;
  q_count : i' = length (acc ++ take (max - i) (components delim t));
  q_strings : forall k s, (acc ++ take (max - i) (components delim t)) !! k = Some s -> holds (pbuf st') (entries st') k s;
  q_plain : forall u x, t = u ++ [x] -> is_delim delim x = false -> pbuf st' !! (length pre + length u)%nat = Some x;
  q_cut : forall u x, t = u ++ [x] -> is_delim delim x = true -> (i + length (components delim t) < max)%nat -> pbuf st' !! (length pre + length u)%nat = Some 0 }.

Lemma components_cons delim t f r : fields delim t = f :: fields delim r -> components delim t = (if bool_decide (f = []) then [] else [f]) ++ components delim r.
Proof. unfold components. intros ->. cbn [List.filter]. now destruct (bool_decide (f = [])). Qed.

Section loop.
Context (delim : str) (max : nat) (post : list Z).

Lemma at_end (pre u : list Z) x rest : (pre ++ (u ++ [x]) ++ rest) !! (length pre + length u)%nat = Some x.
Proof. rewrite lookup_app_r by lia. replace (length pre + length u - length pre)%nat with (length u) by lia. rewrite <- app_assoc. cbn [app]. now rewrite list_lookup_middle. Qed.

(** The last field: the entry just written is in the buffer, and the next [strsep] ends the loop. *)
Lemma parse_last fuel i b es : (0 < fuel)%nat -> (i <= max)%nat -> length es = S max ->
  exists es', parse_loop fuel max i None delim (Paths b es) = Ok (i, Paths b es') /\ length es' = S max /\ forall k s, (k < i)%nat -> holds b es k s -> holds b es' k s.
Proof.
  intros Hf Hi He. destruct fuel as [|fuel]; [lia|]. cbn [parse_loop strsep pbuf entries]. destruct (Nat.ltb_spec i max); cbn [obind].
  - unfold set_entry. rewrite (proj2 (Nat.ltb_lt _ _)) by lia. cbn [obind]. eexists. split; [reflexivity|]. split; [now rewrite length_insert|]. intros k s Hk. apply holds_other. lia.
  - exists es. auto.
Qed.

Lemma record_entry pre f x es i acc : length es = S max -> (i < max)%nat -> length acc = i -> StrL.no_nul f ->
  (forall k s, acc !! k = Some s -> holds pre es k s) -> forall k s, (acc ++ if bool_decide (f = []) then [] else [f]) !! k = Some s ->
  holds (pre ++ f ++ 0 :: x) (<[i := Some (length pre)]> es) k s.
Proof.
  intros He Hi Ha Hf H k s Hk. destruct (Nat.lt_ge_cases k i) as [Hlt|Hge].
  - rewrite lookup_app_l in Hk by lia. apply holds_app, holds_other; [lia|auto].
  - rewrite lookup_app_r in Hk by lia. destruct (bool_decide (f = [])); [discriminate|]. destruct (k - length acc)%nat eqn:E; [|discriminate]. injection Hk as <-.
    replace k with i by lia. exists (length pre), x. rewrite list_lookup_insert_eq by lia. rewrite length_app, drop_app_length. split_and!; auto. lia.
Qed.

Lemma take_more (a b : list str) n m : (length a <= 1)%nat -> (length a <= n)%nat -> m = (n - length a)%nat -> a ++ take m b = take n (a ++ b).
Proof. intros _ H ->. rewrite take_app_ge by assumption. reflexivity. Qed.

Lemma parse_loop_ok : forall fuel t pre i acc es, StrL.no_nul t -> (S (length t) < fuel)%nat -> length es = S max -> length acc = i -> (i <= max)%nat ->
  (forall k s, acc !! k = Some s -> holds pre es k s) ->
  exists i' st', parse_loop fuel max i (Some (length pre)) delim (Paths (pre ++ t ++ 0 :: post) es) = Ok (i', st') /\ parsed delim max pre t post i acc i' st'.
Proof.
  induction fuel as [|fuel IH]; intros t pre i acc es Hn Hf He Ha Hi H; [lia|]. cbn [parse_loop pbuf entries strsep]. destruct (Nat.ltb_spec i max) as [Hlt|Hge].
  2: { eexists i, _. split; [reflexivity|]. assert (max - i = 0)%nat as E0 by lia. constructor; rewrite ?E0; cbn [pbuf entries take]; rewrite ?app_nil_r;
         [assumption|reflexivity|now rewrite take_app_length|auto|intros k s Hk; apply holds_app; auto|intros u x -> _; apply at_end|intros; lia]. }
  destruct (scan_sep_ok delim post t pre (S (length (pre ++ t ++ 0 :: post))) Hn) as (f & hit & -> & Hd & Hhit); [rewrite !length_app; cbn; lia|]. cbn [obind]. destruct hit.
  - destruct Hhit as (d & r & -> & Hdd & Hfs). pose proof (components_cons delim _ f r Hfs) as Hcs. set (new := if bool_decide (f = []) then [] else [f]) in *.
    assert (StrL.no_nul f /\ StrL.no_nul r) as [Hnf Hnr] by (unfold StrL.no_nul in *; apply Forall_app in Hn as [? Hn]; inversion Hn; auto).
    assert (put (pre ++ (f ++ d :: r) ++ 0 :: post) (Z.of_nat (length pre + length f)) [0] = Ok ((pre ++ f ++ [0]) ++ r ++ 0 :: post)) as ->.
    { replace (pre ++ (f ++ d :: r) ++ 0 :: post) with ((pre ++ f) ++ d :: (r ++ 0 :: post)) by (rewrite <- !app_assoc; reflexivity).
      rewrite <- length_app, StrL.put_next. f_equal. rewrite <- !app_assoc. reflexivity. }
    cbn [obind]. unfold set_entry. rewrite (proj2 (Nat.ltb_lt _ _)) by lia. cbn [obind].
    assert (rd ((pre ++ f ++ [0]) ++ r ++ 0 :: post) (Z.of_nat (length pre)) = Ok (match f with [] => 0 | c :: _ => c end)) as ->.
    { rewrite <- !app_assoc. destruct f as [|c f]; cbn [app]; apply StrL.rd_mid. }
    cbn [obind]. set (i1 := if _ =? 0 then i else S i).
    assert (length (acc ++ new) = i1) as Hi1.
    { unfold i1, new. rewrite length_app. destruct f as [|c f]; cbn; [lia|]. inversion Hnf; subst. rewrite (proj2 (Z.eqb_neq _ _)) by assumption. cbn. lia. }
    replace (S (length pre + length f)) with (length (pre ++ f ++ [0])) by (rewrite !length_app; cbn; lia).
    destruct (IH r (pre ++ f ++ [0]) i1 (acc ++ new) (<[i := Some (length pre)]> es)) as (i' & st' & -> & [Q1 Q2 Q3 Q4 Q5 Q6 Q7]); auto.
    { rewrite length_app in Hf. cbn in Hf. lia. } { now rewrite length_insert. } { unfold i1. destruct (_ =? 0); lia. }
    { apply (record_entry pre f [] es i acc); auto. }
    exists i', st'. split; [reflexivity|]. assert (length new <= 1)%nat as Hl1 by (unfold new; destruct (bool_decide _); cbn; lia).
    assert ((acc ++ new) ++ take (max - i1) (components delim r) = acc ++ take (max - i) (components delim (f ++ d :: r))) as Eacc.
    { rewrite <- app_assoc. f_equal. rewrite Hcs. rewrite length_app in Hi1. apply take_more; lia. }
    rewrite Eacc in *. constructor; auto.
    + rewrite Q2. rewrite !length_app. cbn [length]. rewrite ?length_app. cbn [length]. lia.
    + rewrite <- (take_drop (length (pre ++ f ++ [0])) (pbuf st')), Q3, <- app_assoc. now rewrite take_app_length.
    + intros u x E Hx. destruct r as [|r0 r'] using rev_ind; [|clear IHr'].
      * apply app_inj_tail in E as [-> ->]. congruence.
      * rewrite app_comm_cons, app_assoc in E. apply app_inj_tail in E as [<- <-]. rewrite <- (Q6 r' r0 eq_refl Hx). f_equal. rewrite !length_app. cbn. lia.
    + intros u x E Hx Hc. rewrite Hcs, length_app in Hc. destruct r as [|r0 r'] using rev_ind; [|clear IHr'].
      * apply app_inj_tail in E as [<- <-]. rewrite <- (take_drop (length (pre ++ f ++ [0])) (pbuf st')), Q3. rewrite lookup_app_l by (rewrite !length_app; cbn; lia).
        pose proof (at_end pre f 0 []) as X. rewrite app_nil_r in X. exact X.
      * rewrite app_comm_cons, app_assoc in E. apply app_inj_tail in E as [<- <-]. rewrite <- (Q7 r' r0 eq_refl Hx) by (rewrite length_app in Hi1; lia). f_equal. rewrite !length_app. cbn. lia.
  - destruct Hhit as [<- Hfs]. assert (components delim t = if bool_decide (t = []) then [] else [t]) as Hcs by (unfold components; rewrite Hfs; cbn; now destruct (bool_decide _)).
    cbn [obind]. unfold set_entry. rewrite (proj2 (Nat.ltb_lt _ _)) by lia. cbn [obind].
    assert (rd (pre ++ t ++ 0 :: post) (Z.of_nat (length pre)) = Ok (match t with [] => 0 | c :: _ => c end)) as -> by (destruct t as [|c t']; apply StrL.rd_mid).
    cbn [obind]. set (i1 := if _ =? 0 then i else S i).
    assert (length (acc ++ components delim t) = i1) as Hi1.
    { unfold i1. rewrite Hcs, length_app. destruct t as [|c t']; cbn; [lia|]. inversion Hn; subst. rewrite (proj2 (Z.eqb_neq _ _)) by assumption. cbn. lia. }
    destruct (parse_last fuel i1 (pre ++ t ++ 0 :: post) (<[i := Some (length pre)]> es)) as (es' & -> & He' & Hh); [lia|unfold i1; destruct (_ =? 0); lia|now rewrite length_insert|].
    eexists i1, _. split; [reflexivity|]. assert (take (max - i) (components delim t) = components delim t) as Et by (apply take_ge; rewrite length_app in Hi1; unfold i1 in Hi1; destruct (_ =? 0); lia).
    constructor; cbn [pbuf entries]; rewrite ?Et; [assumption|reflexivity|now rewrite take_app_length|auto| |intros u x -> _; apply at_end|].
    + intros k s Hk. apply Hh; [rewrite <- Hi1; eapply lookup_lt_Some; eassumption|]. rewrite Hcs in Hk. now apply (record_entry pre t post es i acc).
    + intros u x -> Hx. rewrite Forall_app in Hd. destruct Hd as [_ Hd]. inversion Hd; congruence.
Qed.
End loop.

(** The array holds the strings [ps], ended by a null entry. *)
Definition path_list (st : paths) (ps : list str) : Prop :=
  (forall k s, ps !! k = Some s -> holds (pbuf st) (entries st) k s) /\ entries st !! length ps = Some None.

Definition sized (size max : nat) (st : paths) : Prop := length (pbuf st) = size /\ length (entries st) = S max.

Lemma end_list st ps n i : (forall k s, ps !! k = Some s -> holds (pbuf st) (entries st) k s) -> i = length (take n ps) -> (i < length (entries st))%nat ->
  path_list (Paths (pbuf st) (<[i := None]> (entries st))) (take n ps).
Proof.
  intros H -> Hi. split; cbn [pbuf entries]; [|now apply list_lookup_insert_eq]. intros k s Hk. pose proof (lookup_lt_Some _ _ _ Hk). apply holds_other; [lia|].
  apply H. rewrite lookup_take in Hk. case_decide; [assumption|discriminate].
Qed.

Lemma last_split (t : str) : t <> [] -> exists u x, t = u ++ [x] /\ List.last t 0 = x.
Proof. intros H. destruct t as [|x u _] using rev_ind; [contradiction|]. exists u, x. split; [reflexivity|]. apply List.last_last. Qed.

Lemma components_plain delim u x : is_delim delim x = false -> components delim (u ++ [x]) <> [].
Proof.
  intros Hx. unfold components. enough (exists f, f ∈ fields delim (u ++ [x]) /\ f <> []) as (f & Hf & Hn).
  { intros E. assert (f ∈ List.filter (fun f => negb (bool_decide (f = []))) (fields delim (u ++ [x]))) as H; [|rewrite E in H; now apply not_elem_of_nil in H].
    apply list_elem_of_In, List.filter_In. split; [now apply list_elem_of_In|]. now rewrite bool_decide_eq_false_2. }
  induction u as [|c u (f & Hf & Hn)]; cbn [app fields].
  - rewrite Hx. exists [x]. split; [left|discriminate].
  - destruct (is_delim delim c); [exists f; split; [now right|assumption]|]. destruct (fields delim (u ++ [x])) as [|g gs]; [now apply not_elem_of_nil in Hf|].
    apply elem_of_cons in Hf as [->|Hf]; [exists (c :: g); split; [left|discriminate]|exists f; split; [now right|assumption]].
Qed.

Lemma parse_list_ok size max st path delim : (2 <= size)%nat -> sized size max st -> StrL.no_nul path ->
  exists st' ps, parse_list size max st path delim = Ok st' /\ sized size max st' /\ path_list st' ps /\
    let cs := components delim (take (size - 1) path) in
    (exists n, ps = take n cs) /\ ((length path < size)%nat -> ps = take max cs) /\
    ((size <= length path)%nat -> (length cs < max)%nat -> ps = if is_delim delim (List.last (take (size - 1) path) 0) then cs else removelast cs).
Proof.
  intros Hs [Hb He] Hn. unfold parse_list. rewrite StrL.strlcpy_spec by (auto; lia). destruct size as [|size]; [lia|]. cbn [obind]. replace (S size - 1)%nat with size by lia.
  set (t := take size path). set (post := drop _ _). assert (StrL.no_nul t) as Hnt by now apply Forall_take. assert (length t <= size)%nat as Hlt by (unfold t; rewrite length_take; lia).
  assert (length (t ++ 0 :: post) = S size) as Hbuf by (rewrite length_app; cbn [length]; unfold t, post; rewrite length_take, length_drop; lia).
  destruct (parse_loop_ok delim max post (S (S (S size))) t [] 0 [] (entries st)) as (i & st1 & E1 & [Q1 Q2 _ Q4 Q5 Q6 Q7]); auto; try lia; [discriminate|].
  cbn [length app] in E1. rewrite E1. cbn [obind app] in *. rewrite Nat.sub_0_r in *. set (cs := components delim t) in *. rewrite Hbuf in Q2.
  destruct (rd_ok (pbuf st1) (Z.of_nat (S size) - 2)) as (c & -> & Hc); [lia|]. cbn [obind]. replace (Z.to_nat (Z.of_nat (S size) - 2)) with (size - 1)%nat in Hc by lia.
  set (cut := (0 <? i)%nat && _ && _). assert (i <= max)%nat as Him by (rewrite Q4, length_take; lia).
  unfold set_entry. rewrite (proj2 (Nat.ltb_lt _ _)) by (destruct cut; lia). cbn [obind].
  set (n := if cut then (i - 1)%nat else i). assert (n = length (take n (take max cs))) as En by (rewrite length_take, <- Q4; unfold n; destruct cut; lia).
  eexists _, (take n (take max cs)). split; [reflexivity|]. split; [split; cbn; [lia|now rewrite length_insert]|]. split; [apply (end_list st1); auto; unfold n; destruct cut; lia|].
  cbv zeta. split; [exists (min n max); now rewrite take_take|]. split.
  - intros Hshort. assert (cut = false) as Ec by (unfold cut; rewrite (proj2 (Z.leb_gt _ _)) by lia; now rewrite andb_false_r). unfold n. rewrite Ec, Q4. now rewrite take_ge by lia.
  - intros Hlong Hfew. assert (length t = size) as Hlen by (unfold t; rewrite length_take; lia). destruct (last_split t) as (u & x & Et & ->); [intros E; rewrite E in Hlen; cbn in Hlen; lia|].
    rewrite (take_ge cs) in * by lia. assert (length u = size - 1)%nat as Hu by (rewrite Et, length_app in Hlen; cbn in Hlen; lia).
    assert (c = if is_delim delim x then 0 else x) as Ecx.
    { destruct (is_delim delim x) eqn:D; [pose proof (Q7 u x Et D ltac:(lia)) as E|pose proof (Q6 u x Et D) as E]; cbn [length Nat.add] in E; rewrite Hu, Hc in E; congruence. }
    unfold n, cut. rewrite (proj2 (Z.leb_le _ _)) by lia. destruct (is_delim delim x) eqn:D; subst c.
    + rewrite andb_false_r, Q4. now rewrite take_ge by lia.
    + assert (x <> 0) as Hx by (rewrite Et in Hnt; apply Forall_app in Hnt as [_ Hnt]; now inversion Hnt). rewrite (proj2 (Z.eqb_neq _ _) Hx). cbn [negb]. rewrite !andb_true_r.
      pose proof (components_plain delim u x D) as Hne. rewrite <- Et in Hne. fold cs in Hne. destruct cs as [|y ys _] using rev_ind; [contradiction|].
      rewrite length_app in Q4. cbn [length] in Q4. rewrite (proj2 (Nat.ltb_lt _ _)) by lia. rewrite removelast_last. rewrite take_app_le by lia. now rewrite take_ge by lia.
Qed.

(** ** The search *)

Lemma emit_plain o s : LinkerFormat.emit LinkerFormat.list_send o s (-1) false false = Ok (o ++ s).
Proof. unfold LinkerFormat.emit. rewrite (proj2 (Z.ltb_ge _ (-1))) by lia. reflexivity. Qed.

Lemma format_path a b : LinkerFormat.formatted fmt [LinkerFormat.AStr a; LinkerFormat.AStr b] = Ok (a ++ [47] ++ b).
Proof.
  lazy -[LinkerFormat.emit LinkerFormat.list_send app]. rewrite emit_plain. lazy -[LinkerFormat.emit LinkerFormat.list_send app].
  change (LinkerFormat.list_send ([] ++ a) [47]) with (@Ok str (a ++ [47])). cbv beta iota. rewrite emit_plain. now rewrite <- app_assoc.
Qed.

Lemma parse_path_ok st ps p : sized LDPATH_BUFSIZE LDPATH_MAX st -> path_list st ps -> StrL.no_nul p -> (length p < 512)%nat ->
  exists st', parse_library_path st p [58] = Ok st' /\ sized LDPATH_BUFSIZE LDPATH_MAX st' /\ path_list st' (take LDPATH_MAX (components [58] p)).
Proof.
  intros Hs _ Hn Hl. destruct (parse_list_ok LDPATH_BUFSIZE LDPATH_MAX st p [58]) as (st' & ps' & E & Hs' & Hp & _ & Hshort & _); auto; [unfold LDPATH_BUFSIZE; lia|].
  exists st'. split; [exact E|]. split; [assumption|]. rewrite (Hshort ltac:(unfold LDPATH_BUFSIZE; lia)) in Hp. rewrite (take_ge p) in Hp by (unfold LDPATH_BUFSIZE; lia). assumption.
Qed.

Section search.
Context (files : str -> node) (getenv : str -> option str) (default_path : option str) (junk : list Z).
Hypothesis junk_size : length junk = 512%nat.

(** The string the path is parsed from. *)
Definition path_string : option str := match getenv (bytes "HYBRIS_LD_LIBRARY_PATH") with Some p => Some p | None => default_path end.
Hypothesis path_short : forall p, path_string = Some p -> StrL.no_nul p /\ (length p < 512)%nat.

(** The directories searched when the array holds [ps]: an empty array is parsed again. *)
Definition search_dirs (ps : list str) : list str :=
  match ps with [] => match path_string with Some p => take 8 (components [58] p) | None => [] end | _ => ps end.

(** The paths a name stands for in a list of directories; one of 512 bytes or more is left out. *)
Definition in_dirs (dirs : list str) (name : str) : list str := List.filter (fun p => (length p <? 512)%nat) ((fun d => d ++ [47] ++ name) <$> dirs).

Definition forced : bool := match getenv (bytes "HYBRIS_LINKER_FORCE_BASENAME") with Some _ => true | None => false end.
(** The last component of a path. *)
Definition file_name (name : str) : str := default [] (last (fields [47] name)).

(** All paths tried for a name, in order. *)
Definition candidates (ps : list str) (name : str) : list str :=
  let dirs := search_dirs ps ++ system_dirs in
  if bool_decide (head name = Some 47)
  then (if forced then in_dirs dirs (file_name name) else []) ++ [name] ++ in_dirs dirs name
  else in_dirs dirs name.

Fixpoint first_file (cs : list str) : option (list Z) :=
  match cs with [] => None | p :: cs => match files p with Regular b => Some b | _ => first_file cs end end.

Lemma first_file_app a b : first_file (a ++ b) = match first_file a with Some f => Some f | None => first_file b end.
Proof. induction a as [|p a IH]; cbn; [reflexivity|]. now destruct (files p). Qed.

Lemma try_dir_ok dir name : StrL.no_nul dir -> StrL.no_nul name -> try_dir files junk dir name = Ok (first_file (in_dirs [dir] name)).
Proof.
  intros Hd Hn. unfold try_dir. set (p := dir ++ [47] ++ name). destruct (LinkerFormat.format_buffer_holds fmt _ p junk 511 (format_path dir name) ltac:(lia)) as (rest & -> & _).
  cbn [obind in_dirs fmap list_fmap List.filter]. fold p. rewrite (proj2 (Z.ltb_ge _ 0)) by lia. cbn [orb]. destruct (Z.leb_spec 512 (Z.of_nat (length p))), (Nat.ltb_spec (length p) 512); try lia; [reflexivity|].
  rewrite take_ge by lia. assert (0 ∉ p) as Hp.
  { intros H1. assert (StrL.no_nul p) as H2 by (unfold p, StrL.no_nul in *; rewrite !Forall_app; split_and!; auto; repeat constructor; lia). apply (proj1 (Forall_forall _ _) H2 0 H1). reflexivity. }
  unfold cstr. rewrite split_at_mid by assumption. cbn [obind first_file]. unfold _open_lib. now destruct (files p).
Qed.

Lemma in_dirs_cons d ds name : in_dirs (d :: ds) name = in_dirs [d] name ++ in_dirs ds name.
Proof. unfold in_dirs. cbn [fmap list_fmap List.filter]. now destruct (_ <? _)%nat. Qed.

Lemma sopaths_loop_ok name : StrL.no_nul name -> forall ds, Forall StrL.no_nul ds -> sopaths_loop files junk ds name = Ok (first_file (in_dirs ds name)).
Proof.
  intros Hn. induction ds as [|d ds IH]; intros Hd; cbn [sopaths_loop]; [reflexivity|]. inversion Hd; subst. rewrite try_dir_ok, (in_dirs_cons d ds), first_file_app by assumption. cbn [obind].
  destruct (first_file (in_dirs [d] name)); [reflexivity|]. now apply IH.
Qed.

Lemma ldpaths_loop_ok st name : StrL.no_nul name -> forall ps pre n, path_list st (pre ++ ps) -> (length ps < n)%nat ->
  ldpaths_loop files junk n (length pre) st name = Ok (first_file (in_dirs ps name)).
Proof.
  intros Hn. induction ps as [|d ps IH]; intros pre n [Hp He] Hl; (destruct n as [|n]; [lia|]); cbn [ldpaths_loop].
  - rewrite app_nil_r in He. unfold rd. rewrite (proj2 (Z.ltb_ge _ 0)) by lia. rewrite Nat2Z.id, He. reflexivity.
  - destruct (Hp (length pre) d) as (o & tail & Ho & _ & Hd & Hnd); [now rewrite list_lookup_middle|]. unfold rd. rewrite (proj2 (Z.ltb_ge _ 0)) by lia. rewrite Nat2Z.id, Ho. cbn [of_option obind].
    rewrite Hd. unfold cstr. rewrite split_at_mid by (intros H0; apply (proj1 (Forall_forall _ _) Hnd 0 H0); reflexivity). cbn [obind]. rewrite try_dir_ok, (in_dirs_cons d ps), first_file_app by assumption.
    cbn [obind]. destruct (first_file (in_dirs [d] name)); [reflexivity|]. rewrite <- (IH (pre ++ [d]) n); [rewrite length_app; cbn; now rewrite Nat.add_1_r|split; now rewrite <- app_assoc|cbn in Hl; lia].
Qed.

Lemma first_entry st ps : path_list st ps -> sized LDPATH_BUFSIZE LDPATH_MAX st -> exists e, rd (entries st) 0 = Ok e /\ (e = None <-> ps = []).
Proof.
  intros [Hp He] _. unfold rd. change (0 <? 0) with false. change (Z.to_nat 0) with 0%nat. cbv iota. destruct ps as [|d ps].
  - cbn [length] in He. rewrite He. exists None. split; [reflexivity|tauto].
  - destruct (Hp 0%nat d eq_refl) as (o & ? & Ho & _). rewrite Ho. exists (Some o). split; [reflexivity|]. split; discriminate.
Qed.

Lemma parse_steps st ps : sized LDPATH_BUFSIZE LDPATH_MAX st -> path_list st ps -> exists st', parse_paths getenv default_path st = Ok st' /\
  sized LDPATH_BUFSIZE LDPATH_MAX st' /\ path_list st' (search_dirs ps).
Proof.
  intros Hs Hp. unfold parse_paths. destruct (first_entry st ps Hp Hs) as (e & -> & He). cbn [obind]. unfold search_dirs. pose proof path_short as Hsh. unfold path_string in *. change (bytes "HYBRIS_LD_LIBRARY_PATH") with HYBRIS_LD_LIBRARY_PATH in *.
  destruct (getenv HYBRIS_LD_LIBRARY_PATH) as [p|].
  - cbn [obind]. destruct (first_entry st ps Hp Hs) as (e' & -> & He'). cbn [obind]. destruct (Hsh p eq_refl). destruct e' as [o|].
    + exists st. split; [reflexivity|]. split; [assumption|]. destruct ps; [discriminate (proj2 He' eq_refl)|assumption].
    + rewrite (proj1 He' eq_refl). now apply (parse_path_ok st ps).
  - destruct default_path as [dp|], e as [o|]; cbn [obind].
    2: { destruct (Hsh dp eq_refl). rewrite (proj1 He eq_refl). destruct (parse_path_ok st ps dp) as (st' & -> & Hs' & Hp'); auto. cbn [obind].
         destruct (first_entry st' _ Hp' Hs') as (e' & -> & _). cbn [obind]. exists st'. auto. }
    all: destruct (first_entry st ps Hp Hs) as (e' & -> & _); cbn [obind]; exists st; (split; [reflexivity|]); (split; [assumption|]).
    all: destruct ps; [|assumption]. all: first [discriminate (proj2 He eq_refl)|assumption].
Qed.

Lemma search_again ps : search_dirs (search_dirs ps) = search_dirs ps.
Proof. unfold search_dirs. destruct ps; [|reflexivity]. destruct path_string as [p|]; [|reflexivity]. now destruct (take 8 (components [58] p)). Qed.

Lemma sopaths_plain : Forall StrL.no_nul sopaths.
Proof. repeat constructor; lia. Qed.

Lemma in_dirs_app a b name : in_dirs (a ++ b) name = in_dirs a name ++ in_dirs b name.
Proof. unfold in_dirs. now rewrite fmap_app, List.filter_app. Qed.

(** The last part, for any name. *)
Lemma search_ok st ps name : sized LDPATH_BUFSIZE LDPATH_MAX st -> path_list st ps -> StrL.no_nul name -> exists st',
  search_path files getenv default_path junk st name = Ok (first_file (in_dirs (search_dirs ps ++ sopaths) name), st') /\ sized LDPATH_BUFSIZE LDPATH_MAX st' /\ path_list st' (search_dirs ps).
Proof.
  intros Hs Hp Hn. destruct (parse_steps st ps Hs Hp) as (st' & E & Hs' & Hp'). exists st'. split; [|auto]. unfold search_path. rewrite E. cbn [obind].
  pose proof (ldpaths_loop_ok st' name Hn (search_dirs ps) [] (S (length (entries st')))) as E1. cbn [length app] in E1. rewrite E1.
  - cbn [obind]. rewrite in_dirs_app, first_file_app. destruct (first_file (in_dirs (search_dirs ps) name)); [reflexivity|]. now rewrite (sopaths_loop_ok name Hn _ sopaths_plain).
  - exact Hp'.
  - destruct Hp' as [_ He]. apply lookup_lt_Some in He. lia.
Qed.

Lemma head_chr name : exists c, chr name 0 = Ok c /\ (c =? 47) = bool_decide (head name = Some 47).
Proof.
  destruct name as [|c name]; [exists 0; split; reflexivity|]. exists c. split; [apply (chr_mid [] c name)|].
  cbn [head]. destruct (Z.eqb_spec c 47) as [->|H]; symmetry; [now apply bool_decide_eq_true_2|apply bool_decide_eq_false_2; congruence].
Qed.

Lemma open_relative fuel st ps name : sized LDPATH_BUFSIZE LDPATH_MAX st -> path_list st ps -> StrL.no_nul name -> (length name <= 256)%nat -> head name <> Some 47 ->
  exists st', open_library files getenv default_path junk (S fuel) st (Some name) = Ok (first_file (in_dirs (search_dirs ps ++ sopaths) name), st') /\
    sized LDPATH_BUFSIZE LDPATH_MAX st' /\ path_list st' (search_dirs ps).
Proof.
  intros Hs Hp Hn Hl Hh. cbn [open_library]. rewrite (proj2 (Nat.ltb_ge _ _) Hl). destruct (head_chr name) as (c & -> & Hc). cbn [obind]. rewrite Hc, bool_decide_eq_false_2 by assumption. cbn [obind andb]. now apply search_ok.
Qed.

Lemma base_name_plain : forall name, head (LinkerLoad.base_name name) <> Some 47 /\ (length (LinkerLoad.base_name name) <= length name)%nat.
Proof.
  induction name as [|c name [IH1 IH2]]; cbn [LinkerLoad.base_name]; [split; [discriminate|lia]|]. destruct (existsb (Z.eqb 47) name) eqn:E; [split; [assumption|cbn; lia]|].
  destruct (Z.eqb_spec c 47) as [->|Hc]; [|split; [cbn; congruence|lia]]. split; [|cbn; lia]. destruct name as [|x name]; [discriminate|]. cbn in E. intros [= ->]. discriminate.
Qed.

(** What follows the last slash. *)
Lemma fields_slash d b : fields [47] (d ++ 47 :: b) = fields [47] d ++ fields [47] b.
Proof.
  induction d as [|c d IH]; cbn [app fields]; [reflexivity|]. destruct (is_delim [47] c); [now rewrite IH|]. rewrite IH. destruct d as [|x d]; [reflexivity|]. cbn [fields]. destruct (is_delim [47] x); [reflexivity|]. now destruct (fields [47] d).
Qed.

Lemma file_name_base name : file_name name = LinkerLoad.base_name name.
Proof.
  unfold file_name. assert (forall n, ~ 47 ∈ n -> fields [47] n = [n]) as Hplain.
  { induction n as [|c n IH]; intros H; [reflexivity|]. cbn [fields is_delim existsb]. rewrite (proj2 (Z.eqb_neq c 47)) by (intros ->; apply H; left). cbn [orb]. rewrite IH; [reflexivity|]. intros Hn. apply H. now right. }
  destruct (LinkerLoad.base_name_is_base name) as [Hb [E|[d E]]]; [rewrite <- E in *; rewrite E at 1; now rewrite Hplain by (now rewrite <- E)|]. rewrite E at 1. now rewrite fields_slash, (Hplain _ Hb), last_snoc.
Qed.

Lemma open_step fuel st ps name : sized LDPATH_BUFSIZE LDPATH_MAX st -> path_list st ps -> StrL.no_nul name -> (length name <= 256)%nat -> head name = Some 47 ->
  (exists st1, open_library files getenv default_path junk fuel st (Some (LinkerLoad.base_name name)) = Ok (first_file (in_dirs (search_dirs ps ++ sopaths) (LinkerLoad.base_name name)), st1) /\
     sized LDPATH_BUFSIZE LDPATH_MAX st1 /\ path_list st1 (search_dirs ps)) ->
  exists st', open_library files getenv default_path junk (S fuel) st (Some name) = Ok (first_file (candidates ps name), st') /\
    sized LDPATH_BUFSIZE LDPATH_MAX st' /\ (path_list st' (search_dirs ps) \/ path_list st' ps).
Proof.
  intros Hs Hp Hn Hl Hh (st1 & Erec & Hs1 & Hp1). unfold candidates. change system_dirs with sopaths. rewrite file_name_base. rewrite bool_decide_eq_true_2 by assumption. cbn [open_library]. rewrite (proj2 (Nat.ltb_ge _ _) Hl).
  destruct (head_chr name) as (c & -> & Hc). cbn [obind]. rewrite Hc, bool_decide_eq_true_2 by assumption. cbn [obind andb].
  change (match getenv FORCE_BASENAME with Some _ => true | None => false end) with forced.
  assert (forall st ps', sized LDPATH_BUFSIZE LDPATH_MAX st -> path_list st ps' -> search_dirs ps' = search_dirs ps -> path_list st (search_dirs ps) \/ path_list st ps ->
    exists st', (match _open_lib files name with Some b => Ok (Some b, st) | None => search_path files getenv default_path junk st name end) = Ok (match files name with Regular b => Some b | _ => first_file (in_dirs (search_dirs ps ++ sopaths) name) end, st') /\
    sized LDPATH_BUFSIZE LDPATH_MAX st' /\ (path_list st' (search_dirs ps) \/ path_list st' ps)) as Hrest.
  { intros st2 ps' Hs2 Hp2 Esd Hor. unfold _open_lib. destruct (files name); [..|exists st2; auto]; destruct (search_ok st2 ps' name Hs2 Hp2 Hn) as (st' & E & Hs' & Hp'); rewrite Esd in *; exists st'; (split; [exact E|]; auto). }
  destruct forced.
  - rewrite Erec. cbn [obind]. rewrite first_file_app. destruct (first_file (in_dirs _ (LinkerLoad.base_name name))); [exists st1; auto|]. cbn [app first_file]. apply (Hrest st1 (search_dirs ps)); auto. apply search_again.
  - cbn [obind app first_file]. apply (Hrest st ps); auto.
Qed.

Lemma open_ok st ps name : sized LDPATH_BUFSIZE LDPATH_MAX st -> path_list st ps -> StrL.no_nul name -> (length name <= 256)%nat ->
  exists st', open_library files getenv default_path junk 2 st (Some name) = Ok (first_file (candidates ps name), st') /\
    sized LDPATH_BUFSIZE LDPATH_MAX st' /\ (path_list st' (search_dirs ps) \/ path_list st' ps).
Proof.
  intros Hs Hp Hn Hl. destruct (bool_decide_reflect (head name = Some 47)) as [Hh|Hh].
  - apply open_step; auto. destruct (base_name_plain name) as [Hb Hbl]. apply open_relative; auto; [now apply LinkerLoad.base_name_no_nul|lia].
  - unfold candidates. change system_dirs with sopaths. rewrite bool_decide_eq_false_2 by assumption. destruct (open_relative 1 st ps name Hs Hp Hn Hl Hh) as (st' & E & H1 & H2). exists st'. auto.
Qed.
End search.

(** C11: the library path and the search.  Parsing a path of fewer than 512 bytes keeps its first eight non-empty
    components in order.  Opening a library name of at most 256 bytes returns the first regular file that can be
    opened among, in order: for an absolute name the base name in every directory (when that is forced) and the name
    itself, then the name in the directories of the path and in /vendor/lib and /system/lib, leaving out
    paths that do not fit the buffer; a longer name is not opened.  The directories parsed are kept; a list that is empty
    is parsed again by the next call. *)
Theorem library_search files getenv default_path junk st ps name :
  length junk = 512%nat -> (forall p, path_string getenv default_path = Some p -> StrL.no_nul p /\ (length p < 512)%nat) ->
  sized LDPATH_BUFSIZE LDPATH_MAX st -> path_list st ps -> StrL.no_nul name ->
  (forall p, StrL.no_nul p -> (length p < 512)%nat -> exists st', parse_library_path st p [58] = Ok st' /\ path_list st' (take 8 (components [58] p))) /\
  ((length name <= 256)%nat -> exists st', open_library files getenv default_path junk 2 st (Some name) = Ok (first_file files (candidates getenv default_path ps name), st') /\
     sized LDPATH_BUFSIZE LDPATH_MAX st' /\ (path_list st' (search_dirs getenv default_path ps) \/ path_list st' ps)) /\
  ((256 < length name)%nat -> open_library files getenv default_path junk 2 st (Some name) = Ok (None, st)).
Proof.
  intros Hj Hsh Hs Hp Hn. split_and!.
  - intros p Hnp Hlp. destruct (parse_path_ok st ps p Hs Hp Hnp Hlp) as (st' & E & _ & H). eauto.
  - now apply open_ok.
  - intros Hl. cbn [open_library]. now rewrite (proj2 (Nat.ltb_lt _ _) Hl).
Qed.

(** ** A small file system: liba.so in /odm and in /system/lib, the latter unreadable. *)

Definition s_liba : str := [108; 105; 98; 97].
Definition s_odm : str := [47; 111].
Definition sample_files (p : str) : node :=
  if bool_decide (p = s_odm ++ [47] ++ s_liba) then Regular [7] else if bool_decide (p = [47; 115; 121; 115; 116; 101; 109; 47; 108; 105; 98; 47] ++ s_liba) then Locked else Missing.
Definition sample_env (v : str) : option str := if bool_decide (v = HYBRIS_LD_LIBRARY_PATH) then Some ([58; 47; 118; 58; 58] ++ s_odm) else None.

Lemma library_search_witness : exists st', open_library sample_files sample_env None (replicate 512 1) 2 no_paths (Some s_liba) = Ok (Some [7], st').
Proof.
  destruct (library_search sample_files sample_env None (replicate 512 1) no_paths [] s_liba) as (_ & H & _).
  - reflexivity.
  - intros p [= <-]. split; [repeat constructor; lia|cbn; lia].
  - split; reflexivity.
  - split; [discriminate|reflexivity].
  - repeat constructor; lia.
  - destruct H as (st' & E & _); [cbn; lia|]. exists st'. rewrite E. vm_compute. reflexivity.
Defined.

(** Nine directories and an overlong rest: the eighth directory, complete in the buffer, is forgotten. *)
Example truncated_path_drops_entry :
  let path := concat (replicate 9 [47; 97; 58]) ++ replicate 600 98 in
  (let! st := parse_library_path no_paths path [58] in Ok (entries st)) = Ok (((fun k => Some (3 * k)%nat) <$> seq 0 7) ++ [None; None]).
Proof. vm_compute. reflexivity. Qed.
End LinkerPath.
