(* ===== verification/LinkerLink.v ===== *)
(** * Linking (common/jb/linker.c)

    [link_image] for a library (neither FLAG_EXE nor FLAG_LINKER is set: those branches belong to the
    start-up code, which does not run here), [init_library] and [find_library], whose recursion through
    [DT_NEEDED] loads, relocates and counts the dependencies.  The dynamic section and the tables
    it names are read from the library's memory when it is linked: symbol and hash tables before the
    relocations, the function arrays after them; later changes of that memory do not show in the record.
    The recursion carries fuel apart from the outcome, so that running out of it is not confused
    with undefined behaviour. *)

From Stdlib Require Import ZArith Lia Bool.
From stdpp Require Import base numbers option list.
From S2P Require Import Prelude CStr StrL LinkerPool LinkerLookup LinkerInit LinkerLoad LinkerReloc LinkerPath LinkerUnload.

Open Scope Z_scope.
Open Scope outcome_scope.

Module LinkerLink.
Import CStr LinkerPool LinkerLookup LinkerUnload.
Import LinkerLoad (space, peek, le16, le32, kernel, Kernel, vm, answers, answer, image, world, World, pool, kern, header).
Import LinkerReloc (Elf_Rel, Rel).

(** ** Fuel *)

Definition fueled (A : Type) : Type := option (outcome A).
Definition fbind {A B} (c : fueled A) (k : A -> fueled B) : fueled B :=
  match c with Some (Ok a) => k a | Some Abort => Some Abort | Some Undef => Some Undef | None => None end.
Notation "'let?' x ':=' c 'in' k" := (fbind c (fun x => k)) (at level 10, x pattern, c at level 100, k at level 200) : outcome_scope.

(** ** The dynamic section *)

Definition DT_PLTRELSZ : Z := 2.
Definition DT_PLTGOT : Z := 3.
Definition DT_HASH : Z := 4.
Definition DT_STRTAB : Z := 5.
Definition DT_SYMTAB : Z := 6.
Definition DT_RELA : Z := 7.
Definition DT_INIT : Z := 12.
Definition DT_FINI : Z := 13.
Definition DT_REL : Z := 17.
Definition DT_RELSZ : Z := 18.
Definition DT_PLTREL : Z := 20.
Definition DT_DEBUG : Z := 21.
Definition DT_JMPREL : Z := 23.
Definition DT_INIT_ARRAY : Z := 25.
Definition DT_FINI_ARRAY : Z := 26.
Definition DT_INIT_ARRAYSZ : Z := 27.
Definition DT_FINI_ARRAYSZ : Z := 28.
Definition DT_PREINIT_ARRAY : Z := 32.
Definition DT_PREINIT_ARRAYSZ : Z := 33.

(** The (tag, value) pairs from address [a] to the null tag. *)
Fixpoint read_dynamic (fuel : nat) (m : space) (a : Z) : outcome (list (Z * Z)) :=
  match fuel with
  | O => Undef
  | S fuel => let! tag := le32 (peek m) a in
              if tag =? DT_NULL then Ok [(DT_NULL, 0)]
              else let! v := le32 (peek m) (a + 4) in let! d := read_dynamic fuel m (a + 8) in Ok ((tag, v) :: d)
  end.

(** What the section says: addresses (0 when absent), counts and functions. *)
Record dyn := Dyn {
  nbucket_ : Z; nchain_ : Z; bucket_at : Z; chain_at : Z; strtab_at : Z; symtab_at : Z; plt_rel : Z; plt_rel_count : Z; rel : Z; rel_count : Z; plt_got : Z;
  init_at : Z; fini_at : Z; init_array_at : Z; init_count : Z; fini_array_at : Z; fini_count : Z; preinit_array_at : Z; preinit_count : Z }.
Definition no_dyn : dyn := Dyn 0 0 0 0 0 0 0 0 0 0 0 0 0 0 0 0 0 0 0.

(** One turn of the switch: [None] is the jump to [fail], and the new value of the entry. *)
Definition dyn_entry (m : space) (base r_debug : Z) (tag v : Z) (x : dyn) : outcome (option (dyn * Z)) :=
  let p := u32 (base + v) in
  if tag =? DT_HASH then
    let! nb := le32 (peek m) p in let! nc := le32 (peek m) (p + 4) in
    Ok (Some (Dyn nb nc (u32 (p + 8)) (u32 (p + 8 + nb * 4)) (strtab_at x) (symtab_at x) (plt_rel x) (plt_rel_count x) (rel x) (rel_count x) (plt_got x) (init_at x) (fini_at x) (init_array_at x) (init_count x) (fini_array_at x) (fini_count x) (preinit_array_at x) (preinit_count x), v))
  else if tag =? DT_STRTAB then
    Ok (Some (Dyn (nbucket_ x) (nchain_ x) (bucket_at x) (chain_at x) p (symtab_at x) (plt_rel x) (plt_rel_count x) (rel x) (rel_count x) (plt_got x) (init_at x) (fini_at x) (init_array_at x) (init_count x) (fini_array_at x) (fini_count x) (preinit_array_at x) (preinit_count x), v))
  else if tag =? DT_SYMTAB then
    Ok (Some (Dyn (nbucket_ x) (nchain_ x) (bucket_at x) (chain_at x) (strtab_at x) p (plt_rel x) (plt_rel_count x) (rel x) (rel_count x) (plt_got x) (init_at x) (fini_at x) (init_array_at x) (init_count x) (fini_array_at x) (fini_count x) (preinit_array_at x) (preinit_count x), v))
  else if tag =? DT_PLTREL then Ok (if negb (v =? DT_REL) then None else Some (x, v))
  else if tag =? DT_JMPREL then
    Ok (Some (Dyn (nbucket_ x) (nchain_ x) (bucket_at x) (chain_at x) (strtab_at x) (symtab_at x) p (plt_rel_count x) (rel x) (rel_count x) (plt_got x) (init_at x) (fini_at x) (init_array_at x) (init_count x) (fini_array_at x) (fini_count x) (preinit_array_at x) (preinit_count x), v))
  else if tag =? DT_PLTRELSZ then
    Ok (Some (Dyn (nbucket_ x) (nchain_ x) (bucket_at x) (chain_at x) (strtab_at x) (symtab_at x) (plt_rel x) (v / 8) (rel x) (rel_count x) (plt_got x) (init_at x) (fini_at x) (init_array_at x) (init_count x) (fini_array_at x) (fini_count x) (preinit_array_at x) (preinit_count x), v))
  else if tag =? DT_REL then
    Ok (Some (Dyn (nbucket_ x) (nchain_ x) (bucket_at x) (chain_at x) (strtab_at x) (symtab_at x) (plt_rel x) (plt_rel_count x) p (rel_count x) (plt_got x) (init_at x) (fini_at x) (init_array_at x) (init_count x) (fini_array_at x) (fini_count x) (preinit_array_at x) (preinit_count x), v))
  else if tag =? DT_RELSZ then
    Ok (Some (Dyn (nbucket_ x) (nchain_ x) (bucket_at x) (chain_at x) (strtab_at x) (symtab_at x) (plt_rel x) (plt_rel_count x) (rel x) (v / 8) (plt_got x) (init_at x) (fini_at x) (init_array_at x) (init_count x) (fini_array_at x) (fini_count x) (preinit_array_at x) (preinit_count x), v))
  else if tag =? DT_PLTGOT then
    Ok (Some (Dyn (nbucket_ x) (nchain_ x) (bucket_at x) (chain_at x) (strtab_at x) (symtab_at x) (plt_rel x) (plt_rel_count x) (rel x) (rel_count x) p (init_at x) (fini_at x) (init_array_at x) (init_count x) (fini_array_at x) (fini_count x) (preinit_array_at x) (preinit_count x), v))
  else if tag =? DT_DEBUG then Ok (Some (x, r_debug))
  else if tag =? DT_RELA then Ok None
  else if tag =? DT_INIT then
    Ok (Some (Dyn (nbucket_ x) (nchain_ x) (bucket_at x) (chain_at x) (strtab_at x) (symtab_at x) (plt_rel x) (plt_rel_count x) (rel x) (rel_count x) (plt_got x) p (fini_at x) (init_array_at x) (init_count x) (fini_array_at x) (fini_count x) (preinit_array_at x) (preinit_count x), v))
  else if tag =? DT_FINI then
    Ok (Some (Dyn (nbucket_ x) (nchain_ x) (bucket_at x) (chain_at x) (strtab_at x) (symtab_at x) (plt_rel x) (plt_rel_count x) (rel x) (rel_count x) (plt_got x) (init_at x) p (init_array_at x) (init_count x) (fini_array_at x) (fini_count x) (preinit_array_at x) (preinit_count x), v))
  else if tag =? DT_INIT_ARRAY then
    Ok (Some (Dyn (nbucket_ x) (nchain_ x) (bucket_at x) (chain_at x) (strtab_at x) (symtab_at x) (plt_rel x) (plt_rel_count x) (rel x) (rel_count x) (plt_got x) (init_at x) (fini_at x) p (init_count x) (fini_array_at x) (fini_count x) (preinit_array_at x) (preinit_count x), v))
  else if tag =? DT_INIT_ARRAYSZ then
    Ok (Some (Dyn (nbucket_ x) (nchain_ x) (bucket_at x) (chain_at x) (strtab_at x) (symtab_at x) (plt_rel x) (plt_rel_count x) (rel x) (rel_count x) (plt_got x) (init_at x) (fini_at x) (init_array_at x) (v / 4) (fini_array_at x) (fini_count x) (preinit_array_at x) (preinit_count x), v))
  else if tag =? DT_FINI_ARRAY then
    Ok (Some (Dyn (nbucket_ x) (nchain_ x) (bucket_at x) (chain_at x) (strtab_at x) (symtab_at x) (plt_rel x) (plt_rel_count x) (rel x) (rel_count x) (plt_got x) (init_at x) (fini_at x) (init_array_at x) (init_count x) p (fini_count x) (preinit_array_at x) (preinit_count x), v))
  else if tag =? DT_FINI_ARRAYSZ then
    Ok (Some (Dyn (nbucket_ x) (nchain_ x) (bucket_at x) (chain_at x) (strtab_at x) (symtab_at x) (plt_rel x) (plt_rel_count x) (rel x) (rel_count x) (plt_got x) (init_at x) (fini_at x) (init_array_at x) (init_count x) (fini_array_at x) (v / 4) (preinit_array_at x) (preinit_count x), v))
  else if tag =? DT_PREINIT_ARRAY then
    Ok (Some (Dyn (nbucket_ x) (nchain_ x) (bucket_at x) (chain_at x) (strtab_at x) (symtab_at x) (plt_rel x) (plt_rel_count x) (rel x) (rel_count x) (plt_got x) (init_at x) (fini_at x) (init_array_at x) (init_count x) (fini_array_at x) (fini_count x) p (preinit_count x), v))
  else if tag =? DT_PREINIT_ARRAYSZ then
    Ok (Some (Dyn (nbucket_ x) (nchain_ x) (bucket_at x) (chain_at x) (strtab_at x) (symtab_at x) (plt_rel x) (plt_rel_count x) (rel x) (rel_count x) (plt_got x) (init_at x) (fini_at x) (init_array_at x) (init_count x) (fini_array_at x) (fini_count x) (preinit_array_at x) (v / 4), v))
  else Ok (Some (x, v)).

Fixpoint dyn_loop (m : space) (base r_debug : Z) (d : list (Z * Z)) (x : dyn) : outcome (option (dyn * list (Z * Z))) :=
  match d with
  | [] => Undef
  | (tag, v) :: d =>
      if tag =? DT_NULL then Ok (Some (x, (tag, v) :: d)) else
      let! r := dyn_entry m base r_debug tag v x in
      match r with
      | None => Ok None
      | Some (x, v) => let! r := dyn_loop m base r_debug d x in Ok (match r with None => None | Some (x, d) => Some (x, (tag, v) :: d) end)
      end
  end.

(** ** The tables in memory

    A table is read as far as it is readable and inside the library; what the code would read past that is undefined. *)

Definition fits (s : soinfo) (a unit count : Z) : nat := Z.to_nat (Z.min count ((base s + size s - a) / unit)).

Fixpoint bytes_at (n : nat) (m : space) (a : Z) : list Z :=
  match n with O => [] | S n => match peek m a with Ok b => b :: bytes_at n m (a + 1) | _ => [] end end.
Fixpoint words_at (n : nat) (m : space) (a : Z) : list Z :=
  match n with O => [] | S n => match le32 (peek m) a with Ok w => w :: words_at n m (a + 4) | _ => [] end end.

Definition symbol_at (m : space) (a : Z) : outcome Elf_Sym :=
  let! n := le32 (peek m) a in let! v := le32 (peek m) (a + 4) in let! sz := le32 (peek m) (a + 8) in
  let! info := peek m (a + 12) in let! shndx := le16 (peek m) (a + 14) in Ok (Sym n v sz info shndx).
Fixpoint symbols_at (n : nat) (m : space) (a : Z) : list Elf_Sym :=
  match n with O => [] | S n => match symbol_at m a with Ok s => s :: symbols_at n m (a + 16) | _ => [] end end.

Fixpoint rels_at (n : nat) (m : space) (a : Z) : list Elf_Rel :=
  match n with
  | O => []
  | S n => match le32 (peek m) a, le32 (peek m) (a + 4) with Ok o, Ok i => Rel o i :: rels_at n m (a + 8) | _, _ => [] end
  end.

(** A function array, with as many elements as the section says. *)
Definition array_at (s : soinfo) (m : space) (a count : Z) : outcome (option (list Z)) :=
  if a =? 0 then Ok None else
  let l := words_at (fits s a 4 count) m a in if Z.of_nat (length l) <? count then Undef else Ok (Some l).

(** The record after the dynamic section was read. *)
Definition set_tables (m : space) (x : dyn) (d : list (Z * Z)) (s : soinfo) : soinfo :=
  SoInfo (name s) (base s) (size s) (flags s) (next s) (refcount s) (Some d)
    (bytes_at (fits s (strtab_at x) 1 (size s)) m (strtab_at x)) (symbols_at (fits s (symtab_at x) 16 (nchain_ x)) m (symtab_at x))
    (nbucket_ x) (nchain_ x) (words_at (fits s (bucket_at x) 4 (nbucket_ x)) m (bucket_at x)) (words_at (fits s (chain_at x) 4 (nchain_ x)) m (chain_at x))
    None (preinit_count x) None (init_count x) None (fini_count x) (init_at x) (fini_at x) (constructors_called s).

Definition set_arrays (pre ini fin : option (list Z)) (s : soinfo) : soinfo :=
  SoInfo (name s) (base s) (size s) (flags s) (next s) (refcount s) (dynamic s) (strtab s) (symtab s) (nbucket s) (nchain s) (bucket s) (chain s)
    pre (preinit_array_count s) ini (init_array_count s) fin (fini_array_count s) (init_func s) (fini_func s) (constructors_called s).

Definition set_flags (f : Z) (s : soinfo) : soinfo :=
  SoInfo (name s) (base s) (size s) f (next s) (refcount s) (dynamic s) (strtab s) (symtab s) (nbucket s) (nchain s) (bucket s) (chain s)
    (preinit_array s) (preinit_array_count s) (init_array s) (init_array_count s) (fini_array s) (fini_array_count s)
    (init_func s) (fini_func s) (constructors_called s).

(** ** Linking *)

(** The loader's table, memory and header page, the search paths, and the results of the reads of
    each file still to be opened. *)
Record system := System { loader : world; search : LinkerPath.paths; ios : list LinkerLoad.io }.

Definition table (w : system) : list soinfo := so (pool (loader w)).
Definition memory (w : system) : space := vm (kern (loader w)).
Definition with_table (w : system) (l : list soinfo) : system :=
  let p := pool (loader w) in
  System (World (Linker l (socount p) (freelist p) (sonext p)) (kern (loader w)) (header (loader w))) (search w) (ios w).
Definition with_kernel (w : system) (k : kernel) : system := System (World (pool (loader w)) k (header (loader w))) (search w) (ios w).

Definition lift {A} (c : outcome A) : fueled A := Some c.
Definition update (w : system) (i : nat) (f : soinfo -> soinfo) : outcome system := let! l := upd (table w) i f in Ok (with_table w l).

(** [si->refcount++]. *)
Definition retain (w : system) (j : nat) : outcome system := update w j (fun s => set_refcount (u32 (refcount s + 1)) s).

(** A call of [find_library]: the library, the new state and how many times a count was incremented. *)
Definition finder : Type := option str -> system -> fueled (option nat * system * nat).

(** The loop over [DT_NEEDED] from entry [k], with [n] entries left; [false] is the jump to [fail]. *)
Fixpoint link_needed (find : finder) (i n k : nat) (w : system) : fueled (bool * system * nat) :=
  match n with
  | O => lift Undef
  | S n =>
      let? s := lift (of_option (table w !! i)) in
      let? d := lift (of_option (dynamic s)) in
      let? (tag, v) := lift (of_option (d !! k)) in
      if tag =? DT_NULL then lift (Ok (true, w, 0%nat))
      else if tag =? DT_NEEDED then
        let? nm := lift (cstr (drop (Z.to_nat v) (strtab s))) in
        let? (r, w, c) := find (Some nm) w in
        match r with
        | None => lift (Ok (false, w, c))
        | Some j =>
            let? w := lift (update w i (fun s => set_dynamic ((fun d => <[k := (DT_NEEDED, Z.of_nat j)]> d) <$> dynamic s) s)) in
            let? w := lift (retain w j) in
            let? (ok, w, c') := link_needed find i n (S k) w in lift (Ok (ok, w, (c + S c')%nat))
        end
      else link_needed find i n (S k) w
  end.

(** The two protections at the end; the result of the first is ignored, the second fails when the kernel refuses or
    a page of the range is not mapped. *)
Definition protect_text (im : image) (k : kernel) : kernel :=
  if negb (LinkerLoad.wrprotect_start im =? 0xffffffff) && negb (LinkerLoad.wrprotect_end im =? 0)
  then Kernel (LinkerLoad.mprotect (vm k) (LinkerLoad.wrprotect_start im) (u32 (LinkerLoad.wrprotect_end im - LinkerLoad.wrprotect_start im)) (Z.lor LinkerLoad.PROT_READ LinkerLoad.PROT_EXEC)) (answers k)
  else k.
Definition protect_relro (im : image) (k : kernel) : bool * kernel :=
  let rs := LinkerLoad.gnu_relro_start im in
  if negb (rs =? 0) && negb (LinkerLoad.gnu_relro_len im =? 0) then
    let start := LinkerLoad.page_down rs in
    let len := u32 (u32 (rs - start) + LinkerLoad.gnu_relro_len im) in
    match answer k with
    | (None, k) => (false, k)
    | (Some _, k) => let n := LinkerLoad.pages len in
                     (LinkerLoad.mapped_pages (vm k) start (Z.to_nat (n / LinkerLoad.PAGE_SIZE)) =? n,
                      Kernel (LinkerLoad.mprotect (vm k) start len LinkerLoad.PROT_READ) (answers k))
    end
  else (true, k).

Section link.
Context (hooked : str -> str -> Z) (preloads : list nat) (somain : option nat) (r_debug : Z).

(** A relocation table of library [i], when there is one; [false] is the jump to [fail]. *)
Definition relocate (i : nat) (at' count : Z) (w : system) : outcome (bool * system) :=
  if at' =? 0 then Ok (true, w) else
  let! s := of_option (table w !! i) in
  let! (r, m) := LinkerReloc.reloc_library hooked (table w) preloads somain i s (rels_at (fits s at' 8 count) (memory w) at') (Z.to_nat count) (memory w) in
  Ok (r =? 0, with_kernel w (Kernel m (answers (kern (loader w))))).

Definition link_fail (i : nat) (w : system) (c : nat) : outcome (bool * system * nat) :=
  let! w := update w i (fun s => set_flags (Z.lor (flags s) FLAG_ERROR) s) in Ok (false, w, c).

(** After the dependencies. *)
Definition link_rest (x : dyn) (im : image) (i : nat) (w : system) (c : nat) : outcome (bool * system * nat) :=
  let! (ok, w) := relocate i (plt_rel x) (plt_rel_count x) w in
  if negb ok then link_fail i w c else
  let! (ok, w) := relocate i (rel x) (rel_count x) w in
  if negb ok then link_fail i w c else
  let! w := update w i (fun s => set_flags (Z.lor (flags s) FLAG_LINKED) s) in
  let! s := of_option (table w !! i) in
  let! pre := array_at s (memory w) (preinit_array_at x) (preinit_count x) in
  let! ini := array_at s (memory w) (init_array_at x) (init_count x) in
  let! fin := array_at s (memory w) (fini_array_at x) (fini_count x) in
  let! w := update w i (set_arrays pre ini fin) in
  let (ok, k) := protect_relro im (protect_text im (kern (loader w))) in
  if negb ok then link_fail i (with_kernel w k) c else Ok (true, with_kernel w k, c).

(** [true] is the return of 0. *)
Definition link_image (find : finder) (i : nat) (im : image) (w : system) : fueled (bool * system * nat) :=
  if LinkerLoad.dynamic_addr im =? 0xffffffff then lift (link_fail i w 0) else
  let? s := lift (of_option (table w !! i)) in
  let? d := lift (read_dynamic (fits s (LinkerLoad.dynamic_addr im) 8 (size s)) (memory w) (LinkerLoad.dynamic_addr im)) in
  let? r := lift (dyn_loop (memory w) (base s) r_debug d no_dyn) in
  match r with
  | None => lift (link_fail i w 0)
  | Some (x, d) =>
      let? w := lift (update w i (set_tables (memory w) x d)) in
      if (strtab_at x =? 0) || (symtab_at x =? 0) then lift (link_fail i w 0) else
      let? (ok, w, c) := link_needed find i (length d) 0 w in
      if negb ok then lift (link_fail i w c) else lift (link_rest x im i w c)
  end.

(** The region is unmapped when linking fails; the record stays in the table. *)
Definition init_library (find : finder) (i : nat) (im : image) (w : system) : fueled (option nat * system * nat) :=
  let? (ok, w, c) := link_image find i im w in
  let? s := lift (of_option (table w !! i)) in
  if negb ok then lift (Ok (None, with_kernel w (Kernel (LinkerLoad.munmap (memory w) (base s) (size s)) (answers (kern (loader w)))), c))
  else lift (Ok (Some i, w, c)).

(** ** Finding a library *)

(** The walk of the load list for a record of that name. *)
Definition by_name (l : list soinfo) (bname : str) : outcome (option nat) :=
  find_loop (S (length l)) (fun s => match strcmp bname (name s) with Eq => true | _ => false end) l (Some solist).

Context (files : str -> LinkerPath.node) (getenv : str -> option str) (default_path : option str) (junk : list Z).

Fixpoint find_library (fuel : nat) (n : option str) (w : system) : fueled (option nat * system * nat) :=
  match fuel with
  | O => None
  | S fuel =>
      match n with
      | None => lift (Ok (somain, w, 0%nat))
      | Some n =>
          let? hit := lift (by_name (table w) (LinkerLoad.base_name n)) in
          match hit with
          | Some j =>
              let? s := lift (of_option (table w !! j)) in
              if LinkerLoad.has (flags s) FLAG_ERROR then lift (Ok (None, w, 0%nat))
              else if LinkerLoad.has (flags s) FLAG_LINKED then lift (Ok (Some j, w, 0%nat))
              else lift (Ok (None, w, 0%nat))
          | None =>
              let? (file, ps) := lift (LinkerPath.open_library files getenv default_path junk 2 (search w) (Some n)) in
              let k := default (LinkerLoad.IO false false false false) (head (ios w)) in
              let? (r, lw) := lift (LinkerLoad.load_library k file n (loader w)) in
              let w := System lw ps (tail (ios w)) in
              match r with
              | None => lift (Ok (None, w, 0%nat))
              | Some (i, im) => init_library (find_library fuel) i im w
              end
          end
      end
  end.
End link.
End LinkerLink.
