(* ===== verification/LinkerRefs.v ===== *)
(** * Reference counts while libraries are linked

    [find_library] of [LinkerLink] on the table counted as in [LinkerUnload]: the counted libraries are the linked
    ones.  A library that is being linked is in the load list but not counted; the references its section has
    taken so far are held like handles, and stay so when linking fails. *)

From Stdlib Require Import ZArith Lia Bool Btauto.
From stdpp Require Import base numbers option list.
From S2P Require Import Prelude CStr StrL LinkerPool LinkerLookup LinkerInit LinkerLoad LinkerReloc LinkerPath LinkerUnload LinkerLink.

Open Scope Z_scope.
Open Scope outcome_scope.

Module LinkerRefs.
Import CStr LinkerPool LinkerLookup LinkerUnload LinkerLink.
Import LinkerLoad (world, World, pool, kern, header, has, image).

(** ** The invariant *)

(** Linked without error. *)
Definition good (s : soinfo) : bool := has (flags s) FLAG_LINKED && negb (has (flags s) FLAG_ERROR).

Record linkinv (st : linker) (live ls handles : list nat) : Prop := {
  l_counted : counted st live ls handles;
  l_good : forall j s, j ∈ live -> so st !! j = Some s -> good s = true -> j ∈ ls;
  l_acyclic : acyclic_needs st ls }.

Lemma acyclic_ext st st' ls ls' : acyclic_needs st ls -> (forall j, j ∈ ls' -> j ∈ ls /\ needs (so st') j = needs (so st) j) -> acyclic_needs st' ls'.
Proof. intros [rank H] E. exists rank. intros j k Hj Hk. destruct (E j Hj) as [Hl En]. rewrite En in Hk. now apply H. Qed.

(** Entries of the load list that are not counted were there before. *)
Definition clean (live live' ls' : list nat) : Prop := forall j, j ∈ live' -> j ∉ ls' -> j ∈ live.

(** The table with entry [i] replaced. *)
Definition put (st : linker) (i : nat) (s : soinfo) : linker := Linker (<[i := s]> (so st)) (socount st) (freelist st) (sonext st).

(** What a step that only adds libraries and references does; the entries of [ex] apart, records that are not counted keep
    everything but their link. *)
Record grown (ex : list nat) (st st' : linker) (live live' ls ls' handles handles' : list nat) (c : nat) : Prop := {
  g_inv : linkinv st' live' ls' handles';
  g_live : forall j, j ∈ live -> j ∈ live';
  g_ls : forall j, j ∈ ls -> j ∈ ls';
  g_old : forall j, j ∈ live -> j ∈ ls' -> j ∈ ls;
  g_held : forall j s, j ∈ live -> j ∉ ls -> j ∉ ex -> so st !! j = Some s -> exists q, so st' !! j = Some (set_next q s);
  g_count : (length (references (so st') ls' handles') <= length (references (so st) ls handles) + c)%nat }.

Lemma grown_refl ex st live ls handles : linkinv st live ls handles -> grown ex st st live live ls ls handles handles 0.
Proof. intros H. constructor; auto; [intros j s _ _ _ Hs; exists (next s); now rewrite set_next_same|lia]. Qed.

Lemma grown_trans ex st1 st2 st3 live1 live2 live3 ls1 ls2 ls3 h1 h2 h3 c d :
  grown ex st1 st2 live1 live2 ls1 ls2 h1 h2 c -> grown ex st2 st3 live2 live3 ls2 ls3 h2 h3 d -> grown ex st1 st3 live1 live3 ls1 ls3 h1 h3 (c + d).
Proof.
  intros A B. constructor; [apply (g_inv _ _ _ _ _ _ _ _ _ _ B)| | | | |pose proof (g_count _ _ _ _ _ _ _ _ _ _ A); pose proof (g_count _ _ _ _ _ _ _ _ _ _ B); lia].
  - intros j Hj. eapply g_live; [exact B|]. eapply g_live; eassumption.
  - intros j Hj. eapply g_ls; [exact B|]. eapply g_ls; eassumption.
  - intros j Hj Hl. eapply g_old; [exact A|assumption|]. eapply g_old; [exact B| |assumption]. eapply g_live; eassumption.
  - intros j s Hj Hn He Hs. destruct (g_held _ _ _ _ _ _ _ _ _ _ A j s Hj Hn He Hs) as [q Hq].
    destruct (g_held _ _ _ _ _ _ _ _ _ _ B j (set_next q s)) as [q' Hq']; [eapply g_live; eassumption| |assumption|assumption|exists q'; exact Hq'].
    intros Hl. apply Hn. eapply g_old; eassumption.
Qed.

Lemma grown_weaken ex ex' st st' live live' ls ls' h h' c c' : (forall j, j ∈ live -> j ∈ ex' -> j ∈ ex) -> (c' <= c)%nat ->
  grown ex' st st' live live' ls ls' h h' c' -> grown ex st st' live live' ls ls' h h' c.
Proof. intros He Hc []. constructor; auto. lia. Qed.

Lemma clean_trans live live1 live' ls1 ls' : clean live live1 ls1 -> clean live1 live' ls' -> (forall j, j ∈ ls1 -> j ∈ ls') -> clean live live' ls'.
Proof. intros A B H j Hj Hn. apply A; auto. Qed.

(** ** Single steps *)

Lemma pool_put st live free i s s' : pool_inv st live free -> so st !! i = Some s -> next s' = next s -> pool_inv (put st i s') live free.
Proof. apply pool_update. Qed.

(** A change to an entry that is not counted, leaving it uncounted. *)
Lemma grown_pending st live ls handles i s s' : linkinv st live ls handles -> i ∉ ls -> so st !! i = Some s -> next s' = next s -> good s' = false ->
  grown [i] st (put st i s') live live ls ls handles handles 0.
Proof.
  intros [C G R] Hi Hs Hn Hg. assert (forall j, j ∈ ls -> needs (so (put st i s')) j = needs (so st) j) as Hneeds.
  { intros j Hj. unfold needs, put. cbn [so]. rewrite list_lookup_insert_ne; [reflexivity|]. intros ->. contradiction. }
  constructor; auto.
  - constructor; [now apply (counted_other _ _ _ _ i s)| |apply (acyclic_ext _ _ _ _ R); auto]. intros j t Hj. unfold put. cbn [so]. destruct (decide (j = i)) as [->|Hne].
    + rewrite list_lookup_insert_eq by (eapply lookup_lt_Some; eassumption). intros [= <-]. congruence.
    + rewrite list_lookup_insert_ne by congruence. now apply G.
  - intros j t _ _ Hx Ht. unfold put. cbn [so]. rewrite list_lookup_insert_ne by (intros ->; apply Hx; left). exists (next t). now rewrite set_next_same.
  - rewrite (references_ext (so st)); [lia|assumption].
Qed.

(** The load list grows by entries that are not linked. *)
Lemma grown_frame st st' live live' free' ls handles : linkinv st live ls handles -> pool_inv st' live' free' -> (forall j, j ∈ live -> j ∈ live') ->
  (forall j s, j ∈ live -> so st !! j = Some s -> exists q, so st' !! j = Some (set_next q s)) ->
  (forall j s, j ∈ live' -> j ∉ live -> so st' !! j = Some s -> good s = false) -> grown [] st st' live live' ls ls handles handles 0.
Proof.
  intros [C G R] I Hl Hk Hnew. assert (forall j, j ∈ ls -> needs (so st') j = needs (so st) j) as Hneeds.
  { intros j Hj. destruct (v_lib _ _ _ _ C j Hj) as (s & Hs & _). destruct (Hk j s (v_live _ _ _ _ C j Hj) Hs) as [q Hq]. unfold needs. now rewrite Hs, Hq. }
  assert (counted st' live' ls handles) as C'.
  { apply (counted_frame st _ live live' free'); auto; [intros j Hj; apply Hl, (v_live _ _ _ _ C j Hj)|]. intros j s Hj. apply Hk, (v_live _ _ _ _ C j Hj). }
  constructor; auto.
  - constructor; [assumption| |apply (acyclic_ext _ _ _ _ R); auto]. intros j s Hj Hs Hg. destruct (decide (j ∈ live)) as [Hin|Hout]; [|rewrite (Hnew j s Hj Hout Hs) in Hg; discriminate].
    destruct (v_pool _ _ _ _ C) as [free I0]. destruct (lookup_so _ _ _ j I0) as [t Ht]; [apply (inv_range _ _ _ _ I0); rewrite elem_of_app; now left|].
    destruct (Hk j t Hin Ht) as [q Hq]. rewrite Hs in Hq. injection Hq as ->. exact (G j t Hin Ht Hg).
  - rewrite (references_ext (so st)); [lia|assumption].
Qed.

(** [si->refcount++] on a table entry. *)
Definition bump (st : linker) (j : nat) : linker :=
  match so st !! j with Some s => put st j (set_refcount (u32 (refcount s + 1)) s) | None => st end.
Definition bumped (r : option nat) (st : linker) : linker := match r with Some j => bump st j | None => st end.

Lemma pool_bumped r st live free : pool_inv st live free -> pool_inv (bumped r st) live free.
Proof. intros I. destruct r as [j|]; [|exact I]. cbn [bumped]. unfold bump. destruct (so st !! j) as [s|] eqn:E; [now apply (pool_put _ _ _ _ s)|exact I]. Qed.

Lemma count_length j js : (count j js <= length js)%nat.
Proof. apply count_occ_bound. Qed.

Lemma library_frame s s' d : library_ok s d -> dynamic s' = dynamic s -> fini_array s' = fini_array s -> fini_array_count s' = fini_array_count s -> library_ok s' d.
Proof. intros [] E1 E2 E3. constructor; [now rewrite E1|assumption|assumption|now rewrite E2, E3]. Qed.

Lemma lookup_put st i s s' j : so st !! i = Some s' -> so (put st i s) !! j = if decide (j = i) then Some s else so st !! j.
Proof.
  intros H. unfold put. cbn [so]. destruct (decide (j = i)) as [->|Hne]; [|now rewrite list_lookup_insert_ne by congruence].
  apply list_lookup_insert_eq. eapply lookup_lt_Some; eassumption.
Qed.

Lemma lookup_bump st j k : j <> k -> so (bump st j) !! k = so st !! k.
Proof. intros Hne. unfold bump. destruct (so st !! j) eqn:E; [|reflexivity]. unfold put. cbn [so]. now rewrite list_lookup_insert_ne. Qed.

(** Another reference to a counted library. *)
Lemma acquire st live ls handles j : linkinv st live ls handles -> j ∈ ls -> Z.of_nat (length (references (so st) ls handles)) + 1 < 2 ^ 32 ->
  grown [] st (bump st j) live live ls ls handles (j :: handles) 1.
Proof.
  intros [C G R] Hj Hb. destruct (v_lib _ _ _ _ C j Hj) as (s & Hs & Hc & Hr & Hd). unfold bump. rewrite Hs. pose proof (count_length j (references (so st) ls handles)) as Hlen.
  assert (references (so st) ls (j :: handles) = j :: references (so st) ls handles) as Ej by reflexivity.
  assert (references (so (put st j (set_refcount (u32 (refcount s + 1)) s))) ls (j :: handles) = j :: references (so st) ls handles) as E.
  { rewrite (references_ext (so st)); [exact Ej|]. intros k _. now apply (needs_insert _ _ s). }
  destruct (v_pool _ _ _ _ C) as [free I]. constructor; auto; cycle 1.
  - intros k t Hk Hn _ Ht. unfold put. cbn [so]. rewrite list_lookup_insert_ne by congruence. exists (next t). now rewrite set_next_same.
  - rewrite E. cbn [length]. lia.
  - constructor; [constructor| |apply (acyclic_ext _ _ _ _ R); intros k Hk; split; [assumption|now apply (needs_insert _ _ s)]].
    + exists free. now apply (pool_put _ _ _ _ s).
    + apply (v_nodup _ _ _ _ C).
    + apply (v_live _ _ _ _ C).
    + rewrite E. intros k [->|Hk]%elem_of_cons; [assumption|]. now apply (v_refs _ _ _ _ C).
    + right. apply (v_zero _ _ _ _ C).
    + intros k Hk. rewrite E. unfold put. cbn [so]. unfold count at 1. cbn [count_occ]. destruct (decide (k = j)) as [->|Hne].
      * rewrite list_lookup_insert_eq by (eapply lookup_lt_Some; eassumption). eexists. split; [reflexivity|]. cbn [refcount set_refcount]. rewrite wrap_small by (unfold in_range; lia).
        destruct (Nat.eq_dec j j); [|contradiction]. fold (count j (references (so st) ls handles)). split; [lia|]. split; [lia|]. revert Hd. destruct (decide (j = 0%nat)); [auto|].
        intros (d & H). exists d. eapply library_frame; [exact H|reflexivity|reflexivity|reflexivity].
      * rewrite list_lookup_insert_ne by congruence. destruct (v_lib _ _ _ _ C k Hk) as (t & Ht & Hct & Hrest). exists t. split; [assumption|]. destruct (Nat.eq_dec j k); [congruence|]. auto.
    + intros k t Hk. unfold put. cbn [so]. destruct (decide (k = j)) as [->|Hne]; [intros _ _; assumption|]. rewrite list_lookup_insert_ne by congruence. now apply G.
Qed.

Lemma needs_counted st live ls handles j k : counted st live ls handles -> j ∈ ls -> k ∈ needs (so st) j -> k ∈ ls.
Proof.
  intros C Hj Hk. apply (v_refs _ _ _ _ C). unfold references. rewrite elem_of_app. right. apply list_elem_of_In, in_concat. exists (needs (so st) j).
  split; [apply in_map; now apply list_elem_of_In|now apply list_elem_of_In].
Qed.

(** A new library that only needs the others. *)
Lemma acyclic_add st st' ls i : acyclic_needs st ls -> i ∉ ls -> (forall j k, j ∈ ls -> k ∈ needs (so st) j -> k ∈ ls) -> (forall k, needs (so st') k = needs (so st) k) -> (forall k, k ∈ needs (so st) i -> k ∈ ls) -> acyclic_needs st' (i :: ls).
Proof.
  intros [rank R] Hi Hcl Hn Hin. exists (fun k => if decide (k = i) then S (list_max (rank <$> ls)) else rank k). intros j k Hj Hk. rewrite Hn in Hk.
  destruct (decide (j = i)) as [->|Hji].
  - rewrite decide_False by (intros ->; apply Hi; auto). enough (rank k <= list_max (rank <$> ls))%nat by lia.
    apply (proj1 (Forall_forall _ _) (proj1 (list_max_le _ _) (Nat.le_refl _))). apply list_elem_of_fmap. eauto.
  - apply elem_of_cons in Hj as [->|Hj]; [contradiction|]. destruct (decide (k = i)) as [->|]; [|now apply R].
    contradict Hi. eauto.
Qed.

(** A library that is now linked: the references of its section are its own, and it has one holder. *)
Lemma attach st live ls handles extra i s d : counted st live ls (extra ++ handles) -> (forall j t, j <> i -> j ∈ live -> so st !! j = Some t -> good t = true -> j ∈ ls) -> acyclic_needs st ls -> i ∈ live -> i ∉ ls -> i <> 0%nat -> so st !! i = Some s -> refcount s = 0 ->
  library_ok s d -> needed d ≡ₚ extra -> 0%nat ∈ handles ->
  linkinv (bump st i) live (i :: ls) (i :: handles) /\ length (references (so (bump st i)) (i :: ls) (i :: handles)) = S (length (references (so st) ls (extra ++ handles))).
Proof.
  intros C G R Hl Hi Hz Hs Hr Hd Hp H0. unfold bump. rewrite Hs, Hr. change (u32 (0 + 1)) with 1. destruct (v_pool _ _ _ _ C) as [free I].
  set (s' := set_refcount 1 s). assert (references (so (put st i s')) (i :: ls) (i :: handles) ≡ₚ i :: references (so st) ls (extra ++ handles)) as E.
  { rewrite (references_ext (so st)); [|intros k _; now apply (needs_insert _ _ s)]. unfold references. cbn [fmap list_fmap concat app]. f_equiv.
    assert (needs (so st) i = needed d) as -> by (unfold needs; now rewrite Hs, (y_dynamic _ _ Hd)). rewrite Hp. rewrite !app_assoc. f_equiv. apply Permutation_app_comm. }
  split; [|rewrite (Permutation_length E); reflexivity]. constructor; [constructor| |].
    + exists free. now apply (pool_put _ _ _ _ s).
    + constructor; [assumption|apply (v_nodup _ _ _ _ C)].
    + intros k [->|Hk]%elem_of_cons; [assumption|now apply (v_live _ _ _ _ C)].
    + intros k Hk. rewrite E in Hk. apply elem_of_cons in Hk as [->|Hk]; [left|]. right. now apply (v_refs _ _ _ _ C).
    + right. assumption.
    + intros k Hk. rewrite (count_perm k _ _ E). unfold put. cbn [so]. unfold count at 1. cbn [count_occ]. destruct (decide (k = i)) as [->|Hne].
      * rewrite list_lookup_insert_eq by (eapply lookup_lt_Some; eassumption). exists s'. split; [reflexivity|]. destruct (Nat.eq_dec i i); [|contradiction]. fold (count i (references (so st) ls (extra ++ handles))).
        assert (count i (references (so st) ls (extra ++ handles)) = 0%nat) as -> by (apply count_zero; intros Hin; apply Hi, (v_refs _ _ _ _ C i Hin)).
        split; [reflexivity|]. split; [cbn; lia|]. destruct (decide (i = 0%nat)); [contradiction|]. exists d. eapply library_frame; [exact Hd|reflexivity|reflexivity|reflexivity].
      * apply elem_of_cons in Hk as [->|Hk]; [contradiction|]. rewrite list_lookup_insert_ne by congruence. destruct (v_lib _ _ _ _ C k Hk) as (t & Ht & Hct & Hrest). exists t.
        split; [assumption|]. destruct (Nat.eq_dec i k); [congruence|]. auto.
    + intros k t Hk. unfold put. cbn [so]. destruct (decide (k = i)) as [->|Hne]; [intros _ _; left|]. rewrite list_lookup_insert_ne by congruence. intros Ht Hg. right. now apply (G k t Hne Hk).
    + apply (acyclic_add st (put st i s') ls i); [assumption|assumption|intros j k; now apply (needs_counted st live ls (extra ++ handles))|intros k; now apply (needs_insert _ _ s)|]. intros k Hk. apply (v_refs _ _ _ _ C). unfold references. rewrite !elem_of_app. left. left.
      rewrite <- Hp. unfold needs in Hk. now rewrite Hs, (y_dynamic _ _ Hd) in Hk.
Qed.

Lemma attach_grown st0 st live0 live ls0 ls handles extra i s s' d c : grown [i] st0 st live0 live ls0 ls handles (extra ++ handles) c -> i ∈ live -> i ∉ live0 -> i ∉ ls ->
  so st !! i = Some s -> next s' = next s -> refcount s' = 0 -> library_ok s' d -> needed d ≡ₚ extra -> 0%nat ∈ handles -> 0%nat ∈ live0 ->
  grown [] st0 (bump (put st i s') i) live0 live ls0 (i :: ls) handles (i :: handles) (c + 1).
Proof.
  intros A Hl Hl0 Hi Hs Hn Hr Hd Hp H0 H00. destruct (g_inv _ _ _ _ _ _ _ _ _ _ A) as [C G R]. pose proof (lookup_put _ _ s' _ i Hs) as Hs'. rewrite decide_True in Hs' by reflexivity.
  assert (forall j, j ∈ ls -> needs (so (put st i s')) j = needs (so st) j) as Hneeds.
  { intros j Hj. unfold needs. rewrite (lookup_put _ _ _ _ _ Hs), decide_False by congruence. reflexivity. }
  destruct (attach (put st i s') live ls handles extra i s' d) as [L E]; auto; [now apply (counted_other _ _ _ _ i s)| |apply (acyclic_ext _ _ _ _ R); auto|congruence|].
  { intros j t Hne Hj. rewrite (lookup_put _ _ _ _ _ Hs), decide_False by assumption. now apply G. }
  constructor; [exact L|apply (g_live _ _ _ _ _ _ _ _ _ _ A)| | | |].
  - intros j Hj. right. now apply (g_ls _ _ _ _ _ _ _ _ _ _ A).
  - intros j Hj [->|Hjl]%elem_of_cons; [contradiction|]. now apply (g_old _ _ _ _ _ _ _ _ _ _ A).
  - intros j t Hj Hnj _ Ht. assert (j <> i) by congruence. rewrite lookup_bump, (lookup_put _ _ _ _ _ Hs), decide_False by congruence.
    apply (g_held _ _ _ _ _ _ _ _ _ _ A j t Hj Hnj); [|assumption]. now rewrite list_elem_of_singleton.
  - rewrite E. rewrite (references_ext (so st)); [pose proof (g_count _ _ _ _ _ _ _ _ _ _ A); lia|assumption].
Qed.

(** ** Loading *)

Definition same_live (live : list nat) (l l' : list soinfo) : Prop := forall j s, j ∈ live -> l !! j = Some s -> exists q, l' !! j = Some (set_next q s).

Lemma same_refl live l : same_live live l l.
Proof. intros j s _ H. exists (next s). now rewrite set_next_same. Qed.

(** The new entry [i] at the end of the load list, with record [s]. *)
Record appended (st st' : linker) (live : list nat) (i : nat) (s : soinfo) : Prop := {
  a_pool : exists free, pool_inv st' (live ++ [i]) free;
  a_new : i ∉ live;
  a_entry : so st' !! i = Some s;
  a_same : same_live live (so st) (so st') }.

Lemma appended_update st st' live i s s' : appended st st' live i s -> next s' = next s -> appended st (put st' i s') live i s'.
Proof.
  intros [[free I] Hi Hs Hk] Hn. constructor; [exists free; now apply (pool_put _ _ _ _ s)|assumption|apply list_lookup_insert_eq; eapply lookup_lt_Some; eassumption|].
  intros j t Hj Ht. unfold put. cbn [so]. rewrite list_lookup_insert_ne by congruence. now apply Hk.
Qed.

Lemma appended_free st st' live free i s st'' : pool_inv st live free -> appended st st' live i s -> free_info st' i = Ok st'' -> (exists free', pool_inv st'' live free') /\ same_live live (so st) (so st'').
Proof.
  intros I0 [[free1 I] Hi Hs Hk] E. assert (i <> 0%nat) as Hz. { intros ->. apply Hi. destruct (live_head _ _ _ I0) as [l ->]. left. }
  destruct (free_ok _ _ _ i I) as (st1 & E1 & Hsame & I1); [rewrite elem_of_app; right; left|assumption|]. rewrite E in E1. injection E1 as <-.
  rewrite List.filter_app, filter_without in I1 by assumption. cbn [List.filter] in I1. rewrite Nat.eqb_refl in I1. cbn [negb] in I1. rewrite app_nil_r in I1. split; [eauto|].
  intros j t Hj Ht. destruct (Hk j t Hj Ht) as [q Hq]. destruct (Hsame j (set_next q t)) as [q' Hq']; [congruence|assumption|]. exists q'. exact Hq'.
Qed.

Lemma upd_entry st i f s l : so st !! i = Some s -> upd (so st) i f = Ok l -> Linker l (socount st) (freelist st) (sonext st) = put st i (f s).
Proof. intros Hs. rewrite (upd_ok _ _ _ _ Hs). now intros [= <-]. Qed.

Lemma load_effect k opened n w r w' live free : pool_inv (pool w) live free -> StrL.no_nul n -> LinkerLoad.load_library k opened n w = Ok (r, w') ->
  match r with
  | None => (exists free', pool_inv (pool w') live free') /\ same_live live (so (pool w)) (so (pool w'))
  | Some (i, im) => exists s, appended (pool w) (pool w') live i s /\ refcount s = 0 /\ flags s = 0
  end.
Proof.
  intros I Hn. pose proof (same_refl live (so (pool w))) as Hrefl. unfold LinkerLoad.load_library.
  destruct opened as [file|]; [|intros [= <- <-]; eauto]. destruct (negb _); [intros [= <- <-]; eauto|]. destruct (negb _); [intros [= <- <-]; eauto|].
  destruct (LinkerLoad.get_lib_extents _ _ _) as [ext| |]; cbn [obind]; try discriminate. destruct ext as [[rb sz]|]; [|intros [= <- <-]; eauto].
  destruct (alloc_ok _ _ _ _ I (LinkerLoad.base_name_no_nul n Hn)) as (si & pl & -> & Ha). cbn [obind]. destruct si as [i|]; [|destruct Ha as [-> _]; intros [= <- <-]; eauto].
  destruct Ha as (_ & Hi & Hsame & Hs & free1 & I1). assert (appended (pool w) pl live i (fresh (LinkerLoad.base_name n))) as A.
  { constructor; [eauto|assumption|assumption|]. intros j t Hj Ht. apply Hsame; [congruence|assumption]. }
  rewrite (upd_ok _ _ _ _ Hs). cbn [obind]. fold (put pl i (LinkerLoad.set_image rb sz 0 (fresh (LinkerLoad.base_name n)))).
  assert (forall s pl' ks h r1 w1, appended (pool w) pl' live i s -> (let! pl := free_info pl' i in Ok (None, World pl ks h)) = Ok (r1, w1) ->
    r1 = @None (nat * image) /\ (exists free', pool_inv (pool w1) live free') /\ same_live live (so (pool w)) (so (pool w1))) as Hfail.
  { intros s pl' ks h r1 w1 A' E. destruct (free_info pl' i) as [pl2| |] eqn:Ef; try discriminate. injection E as <- <-. split; [reflexivity|]. exact (appended_free _ _ _ _ _ _ _ I A' Ef). }
  apply (appended_update _ _ _ _ _ (LinkerLoad.set_image rb sz 0 (fresh (LinkerLoad.base_name n)))) in A; [|reflexivity]. set (st1 := put pl i _) in *.
  destruct (LinkerLoad.alloc_mem_region _ _ _) as [[b|] ks]; [|intros E; destruct (Hfail _ _ _ _ _ _ A E) as (-> & H); exact H].
  rewrite (upd_ok _ _ _ _ (a_entry _ _ _ _ _ A)). cbn [obind so]. fold (put st1 i (LinkerLoad.set_image b sz 0 (LinkerLoad.set_image rb sz 0 (fresh (LinkerLoad.base_name n))))).
  apply (appended_update _ _ _ _ _ (LinkerLoad.set_image b sz 0 (LinkerLoad.set_image rb sz 0 (fresh (LinkerLoad.base_name n))))) in A; [|reflexivity]. set (st2 := put st1 i _) in *.
  destruct (LinkerLoad.load_segments _ _ _ _ _ _) as [[[ok ks1] im]| |]; cbn [obind]; try discriminate. destruct (negb ok).
  - rewrite (upd_ok _ _ _ _ (a_entry _ _ _ _ _ A)). cbn [obind]. intros E.
    eapply (appended_update _ _ _ _ _ (LinkerLoad.set_image b sz FLAG_ERROR (LinkerLoad.set_image b sz 0 (LinkerLoad.set_image rb sz 0 (fresh (LinkerLoad.base_name n)))))) in A; [|reflexivity].
    destruct (Hfail _ _ _ _ _ _ A E) as (-> & H). exact H.
  - destruct (LinkerLoad.le32 _ _) as [po| |]; cbn [obind]; try discriminate. destruct (LinkerLoad.le16 _ _) as [nu| |]; cbn [obind]; try discriminate.
    intros [= <- <-]. cbn [pool]. eexists. split; [exact A|]. split; reflexivity.
Qed.

(** ** The dynamic section *)

Definition nonnull (es : list (Z * Z)) : Prop := Forall (fun e => e.1 <> DT_NULL) es.
Definition section_of (es : list (Z * Z)) : list (Z * Z) := es ++ [(DT_NULL, 0)].

Lemma read_dynamic_shape m : forall fuel a d, read_dynamic fuel m a = Ok d -> exists es, d = section_of es /\ nonnull es.
Proof.
  induction fuel as [|fuel IH]; intros a d; cbn [read_dynamic]; [discriminate|]. destruct (LinkerLoad.le32 _ a) as [tag| |]; cbn [obind]; try discriminate.
  destruct (Z.eqb_spec tag DT_NULL); [intros [= <-]; exists []; split; [reflexivity|constructor]|].
  destruct (LinkerLoad.le32 _ (a + 4)) as [v| |]; cbn [obind]; try discriminate. destruct (read_dynamic fuel m (a + 8)) as [d'| |] eqn:E; cbn [obind]; try discriminate. intros [= <-].
  destruct (IH _ _ E) as (es & -> & Hes). exists ((tag, v) :: es). split; [reflexivity|]. now constructor.
Qed.

Lemma dyn_loop_shape m base rd : forall es x x' d', nonnull es -> dyn_loop m base rd (section_of es) x = Ok (Some (x', d')) -> exists es', d' = section_of es' /\ nonnull es'.
Proof.
  induction es as [|[tag v] es IH]; intros x x' d' Hn.
  - cbn. intros [= <- <-]. exists []. split; [reflexivity|constructor].
  - apply Forall_cons in Hn as [Ht Hn]. cbn [section_of app dyn_loop fst] in *. rewrite (proj2 (Z.eqb_neq _ _) Ht). destruct (dyn_entry _ _ _ _ _ _) as [[[x1 v1]|]| |]; cbn [obind]; try discriminate.
    destruct (dyn_loop _ _ _ (es ++ _) x1) as [[[x2 d2]|]| |] eqn:E; cbn [obind]; try discriminate. intros [= <- <-].
    destruct (IH _ _ _ Hn E) as (es' & -> & Hes). exists ((tag, v1) :: es'). split; [reflexivity|]. now constructor.
Qed.

Lemma needed_app a b : nonnull a -> needed (a ++ b) = needed a ++ needed b.
Proof.
  induction a as [|[tag v] a IH]; intros Hn; [reflexivity|]. apply Forall_cons in Hn as [Ht Hn]. cbn [needed app fst] in *. rewrite (proj2 (Z.eqb_neq _ _) Ht), (IH Hn).
  now destruct (tag =? DT_NEEDED).
Qed.

Lemma needed_section es : nonnull es -> needed (section_of es) = needed es.
Proof. intros H. unfold section_of. rewrite needed_app by assumption. cbn. apply app_nil_r. Qed.

Lemma section_terminated es : terminated (section_of es).
Proof. unfold terminated, section_of. rewrite fmap_app, elem_of_app. right. left. Qed.

Lemma cstr_no_nul buf s : cstr buf = Ok s -> StrL.no_nul s.
Proof.
  unfold cstr. destruct (split_at 0 buf) as [t [r|]] eqn:E; [|discriminate]. intros [= <-]. apply split_at_app in E as [H _]. apply Forall_forall. intros c Hc ->. contradiction.
Qed.

(** ** The dependencies *)

Definition P (w : system) : linker := pool (loader w).

(** Room for [c] more references. *)
Definition room (st : linker) (ls handles : list nat) (c : nat) : Prop := Z.of_nat (length (references (so st) ls handles) + c) < 2 ^ 32.

Lemma bump_put st i j s : i <> j -> bump (put st i s) j = put (bump st j) i s.
Proof.
  intros Hne. unfold bump, put. cbn [so]. rewrite list_lookup_insert_ne by assumption. destruct (so st !! j); [|reflexivity]. cbn. f_equal. now apply list_insert_insert_ne.
Qed.

(** The entry of a dependency is stored in the section of the library that is being linked. *)
Lemma take_reference st st1 live live1 ls ls1 handles i j c s d : grown [] st (bump st1 j) live live1 ls ls1 handles ([j] ++ handles) c ->
  i ∈ live -> i ∉ ls -> so st !! i = Some s -> good s = false ->
  i <> j /\ (i ∉ ls1) /\ exists q, so st1 !! i = Some (set_next q s) /\
    let st2 := bump (put st1 i (set_dynamic d (set_next q s))) j in
    grown [i] st st2 live live1 ls ls1 handles ([j] ++ handles) c /\ so st2 !! i = Some (set_dynamic d (set_next q s)).
Proof.
  intros A Hl Hi Hs Hg. assert (i ∉ ls1) as Hi1 by (intros H; apply Hi; eapply g_old; eassumption).
  assert (j ∈ ls1) as Hj by (apply (v_refs _ _ _ _ (l_counted _ _ _ _ (g_inv _ _ _ _ _ _ _ _ _ _ A))); left). assert (i <> j) as Hne by congruence.
  split; [assumption|]. split; [assumption|]. destruct (g_held _ _ _ _ _ _ _ _ _ _ A i s Hl Hi (not_elem_of_nil i) Hs) as [q Hq]. exists q.
  assert (so st1 !! i = Some (set_next q s)) as Hq1 by (now rewrite lookup_bump in Hq by congruence). split; [assumption|].
  rewrite bump_put by assumption. cbn zeta. split; [|rewrite (lookup_put _ _ _ _ _ Hq); now rewrite decide_True].
  replace c with (c + 0)%nat by lia. eapply grown_trans; [eapply grown_weaken; [|apply Nat.le_refl|exact A]; intros k _ H; now apply not_elem_of_nil in H|].
  apply (grown_pending _ _ _ _ i (set_next q s)); auto. eapply g_inv; exact A.
Qed.

Lemma set_dynamic_same q s : set_next q (set_dynamic (dynamic s) s) = set_next q s.
Proof. reflexivity. Qed.

Section finding.
Context (somain : option nat).

(** What a call of [find_library] guarantees of its result: the load list only grows, and the references stay counted
    once the caller has counted its own. *)
Definition found (w : system) (live : list nat) (o : outcome (option nat * system * nat)) : Prop :=
  forall r w' c, o = Ok (r, w', c) -> exists live' free', pool_inv (P w') live' free' /\ (forall j, j ∈ live -> j ∈ live') /\
  forall ls handles, linkinv (P w) live ls handles -> (forall m, somain = Some m -> m ∈ ls) -> room (P w) ls handles (c + length (option_list r)) ->
    exists ls' extra, grown [] (P w) (bumped r (P w')) live live' ls ls' handles (extra ++ handles) (c + length (option_list r)) /\ (forall j, r = Some j -> extra = [j] /\ clean live live' ls').

(** [fuel] levels are enough. *)
Definition finds (find : finder) (fuel : nat) : Prop :=
  forall n w live free, pool_inv (P w) live free -> (130 <= length live + fuel)%nat -> (forall s, n = Some s -> StrL.no_nul s) ->
  exists o, find n w = Some o /\ found w live o.

Lemma live_longer st live free st' live' free' : pool_inv st live free -> pool_inv st' live' free' -> (forall j, j ∈ live -> j ∈ live') -> (length live <= length live')%nat.
Proof. intros I I' H. destruct (live_bound _ _ _ I) as [Hn _]. now apply shorter. Qed.

(** The invariant of the loop from entry [length done]. *)
Definition needed_post (i : nat) (ok : bool) (w w' : system) (live live' ls handles : list nat) (s : soinfo) (done : list (Z * Z)) (c : nat) : Prop :=
  exists ls' extra, grown [i] (P w) (P w') live live' ls ls' handles (extra ++ handles) c /\
    exists rest' q, table w' !! i = Some (set_next q (set_dynamic (Some (done ++ section_of rest')) s)) /\
      (ok = true -> nonnull rest' /\ needed rest' ≡ₚ extra /\ (forall v, (DT_NEEDED, v) ∈ rest' -> validate_soinfo v = true) /\ clean live live' ls').

Lemma needed_stop i w live ls handles s done rest ok : linkinv (P w) live ls handles -> table w !! i = Some s -> dynamic s = Some (done ++ section_of rest) ->
  (ok = true -> rest = []) -> needed_post i ok w w live live ls handles s done 0.
Proof.
  intros L Hs Hd Hr. exists ls, []. split; [now apply grown_refl|]. exists rest, (next s). rewrite <- Hd, set_dynamic_same, set_next_same. split; [assumption|].
  intros Hok. rewrite (Hr Hok). split_and!; [constructor|reflexivity| |now intros j Hj _]. intros v Hv. now apply not_elem_of_nil in Hv.
Qed.

Lemma needed_fail i w w' live live' ls ls' handles extra s done rest c : grown [] (P w) (P w') live live' ls ls' handles (extra ++ handles) c ->
  i ∈ live -> i ∉ ls -> table w !! i = Some s -> dynamic s = Some (done ++ section_of rest) -> needed_post i false w w' live live' ls handles s done c.
Proof.
  intros A Hl Hi Hs Hd. exists ls', extra. split; [eapply grown_weaken; [|apply Nat.le_refl|exact A]; intros k _ H; now apply not_elem_of_nil in H|].
  destruct (g_held _ _ _ _ _ _ _ _ _ _ A i s Hl Hi (not_elem_of_nil i) Hs) as [q Hq]. exists rest, q. rewrite <- Hd, set_dynamic_same. split; [exact Hq|discriminate].
Qed.

(** An entry that is not a dependency is passed over. *)
Lemma needed_other i ok w w' live live' ls handles s done tag v c : tag <> DT_NULL -> tag <> DT_NEEDED ->
  needed_post i ok w w' live live' ls handles s (done ++ [(tag, v)]) c -> needed_post i ok w w' live live' ls handles s done c.
Proof.
  intros Ht Hn (ls' & extra & A & rest' & q & Hs & Hok). exists ls', extra. split; [assumption|]. exists ((tag, v) :: rest'), q. rewrite Hs, <- app_assoc. split; [reflexivity|].
  intros E. destruct (Hok E) as (H1 & H2 & H3 & H4). split; [now constructor|]. split; [cbn [needed]; now rewrite (proj2 (Z.eqb_neq _ _) Ht), (proj2 (Z.eqb_neq _ _) Hn)|]. split; [|assumption].
  intros u [[= <- ->]|Hu]%elem_of_cons; [congruence|auto].
Qed.

(** One dependency found, then the rest of the loop. *)
Lemma needed_step i ok w w2 w' live live1 live' ls ls1 handles s done v rest j c c' q :
  grown [i] (P w) (P w2) live live1 ls ls1 handles ([j] ++ handles) (c + 1) -> clean live live1 ls1 -> (j <= 128)%nat ->
  dynamic s = Some (done ++ section_of ((DT_NEEDED, v) :: rest)) ->
  needed_post i ok w2 w' live1 live' ls1 ([j] ++ handles) (set_dynamic (Some ((done ++ [(DT_NEEDED, Z.of_nat j)]) ++ section_of rest)) (set_next q s)) (done ++ [(DT_NEEDED, Z.of_nat j)]) c' ->
  needed_post i ok w w' live live' ls handles s done (c + S c').
Proof.
  intros A Hc Hj Hd (ls' & extra & B & rest' & q' & Hs & Hok). exists ls', (extra ++ [j]). split.
  - rewrite <- app_assoc. replace (c + S c')%nat with ((c + 1) + c')%nat by lia. eapply grown_trans; eassumption.
  - exists ((DT_NEEDED, Z.of_nat j) :: rest'), q'. split; [rewrite Hs; rewrite <- app_assoc; reflexivity|]. intros E. destruct (Hok E) as (Hn & Hp & Hv & Hcl). split; [now constructor|]. split; [|split].
    + cbn [needed]. change (DT_NEEDED =? DT_NULL) with false. change (DT_NEEDED =? DT_NEEDED) with true. cbn iota. rewrite Nat2Z.id, Hp. apply Permutation_cons_append.
    + intros u [[= ->]|Hu]%elem_of_cons; [|auto]. unfold validate_soinfo, SO_MAX. destruct (Z.leb_spec 0 (Z.of_nat j)), (Z.leb_spec (Z.of_nat j) (Z.of_nat 128)); cbn [andb]; lia || reflexivity.
    + apply (clean_trans _ live1 _ ls1); auto. apply (g_ls _ _ _ _ _ _ _ _ _ _ B).
Qed.

Lemma insert_done (done rest : list (Z * Z)) e x : <[length done := x]> (done ++ section_of (e :: rest)) = (done ++ [x]) ++ section_of rest.
Proof. unfold section_of. cbn [app]. rewrite insert_app_r_alt by lia. rewrite Nat.sub_diag. cbn [insert list_insert]. now rewrite <- app_assoc. Qed.

Lemma room_after ex st st' live live' ls ls' handles handles' c n : grown ex st st' live live' ls ls' handles handles' c -> room st ls handles (c + n) -> room st' ls' handles' n.
Proof. intros A H. pose proof (g_count _ _ _ _ _ _ _ _ _ _ A). unfold room in *. lia. Qed.

Lemma room_less st ls handles c c' : (c' <= c)%nat -> room st ls handles c -> room st ls handles c'.
Proof. unfold room. lia. Qed.

Lemma update_ok w i f s : table w !! i = Some s -> exists w', update w i f = Ok w' /\ P w' = put (P w) i (f s) /\ kern (loader w') = kern (loader w).
Proof. intros Hs. unfold update. rewrite (upd_ok _ _ _ _ Hs). eexists. split; [reflexivity|]. split; reflexivity. Qed.

Lemma retain_inv w j w' : retain w j = Ok w' -> P w' = bump (P w) j.
Proof.
  unfold retain, update, upd. destruct (table w !! j) as [s|] eqn:E; [|discriminate]. cbn [of_option obind]. intros [= <-]. unfold bump. change (so (P w)) with (table w). rewrite E. reflexivity.
Qed.

Lemma pool_bump st live free j : pool_inv st live free -> pool_inv (bump st j) live free.
Proof. apply (pool_bumped (Some j)). Qed.

Lemma live_entry w live free i : pool_inv (P w) live free -> i ∈ live -> exists s, table w !! i = Some s.
Proof. intros I Hi. apply (lookup_so _ _ _ i I). apply (inv_range _ _ _ _ I). rewrite elem_of_app. now left. Qed.

(** Before entry [length done]: the library [i], with entry [s], is being linked. *)
Record needed_pre (i : nat) (w : system) (live ls handles : list nat) (s : soinfo) (done rest : list (Z * Z)) (c : nat) : Prop := {
  n_inv : linkinv (P w) live ls handles;
  n_main : forall m, somain = Some m -> m ∈ ls;
  n_room : room (P w) ls handles c;
  n_live : i ∈ live;
  n_out : i ∉ ls;
  n_entry : table w !! i = Some s;
  n_good : good s = false;
  n_dynamic : dynamic s = Some (done ++ section_of rest);
  n_nonnull : nonnull rest }.

Lemma needed_pass i w live ls handles s done e rest c : needed_pre i w live ls handles s done (e :: rest) c -> needed_pre i w live ls handles s (done ++ [e]) rest c.
Proof.
  intros []. apply Forall_cons in n_nonnull0 as [_ Hn]. constructor; auto. rewrite n_dynamic0. unfold section_of. cbn [app]. now rewrite <- app_assoc.
Qed.

(** A dependency was found and its reference stored: the next turn, and what it gives back. *)
Lemma needed_taken i j w w1 w2 w3 live live1 free1 ls ls1 handles s0 s1 done v rest c1 c' : needed_pre i w live ls handles s0 done ((DT_NEEDED, v) :: rest) (c1 + S c') ->
  grown [] (P w) (bump (P w1) j) live live1 ls ls1 handles ([j] ++ handles) (c1 + 1) -> clean live live1 ls1 -> pool_inv (P w1) live1 free1 ->
  table w1 !! i = Some s1 -> P w2 = put (P w1) i (set_dynamic ((fun d => <[length done := (DT_NEEDED, Z.of_nat j)]> d) <$> dynamic s1) s1) -> P w3 = bump (P w2) j ->
  exists s3, needed_pre i w3 live1 ls1 ([j] ++ handles) s3 (done ++ [(DT_NEEDED, Z.of_nat j)]) rest c' /\
    forall ok w' live', needed_post i ok w3 w' live1 live' ls1 ([j] ++ handles) s3 (done ++ [(DT_NEEDED, Z.of_nat j)]) c' -> needed_post i ok w w' live live' ls handles s0 done (c1 + S c').
Proof.
  intros [] A Hcl I1 Hs1 E2 E3. destruct (take_reference (P w) (P w1) live live1 ls ls1 handles i j _ s0 (Some ((done ++ [(DT_NEEDED, Z.of_nat j)]) ++ section_of rest)) A) as (Hne & Hni1 & q & Hq & B & Hs3); auto.
  assert (s1 = set_next q s0) as -> by (change (so (P w1)) with (table w1) in Hq; congruence). set (s3 := set_dynamic (Some ((done ++ [(DT_NEEDED, Z.of_nat j)]) ++ section_of rest)) (set_next q s0)) in *.
  assert (P w3 = bump (put (P w1) i s3) j) as E3'.
  { rewrite E3, E2. cbn [dynamic set_next]. rewrite n_dynamic0. cbn [fmap option_fmap option_map]. rewrite insert_done. reflexivity. }
  rewrite <- E3' in B, Hs3. destruct (g_inv _ _ _ _ _ _ _ _ _ _ B) as [C G R]. apply Forall_cons in n_nonnull0 as [_ Hn]. exists s3. split.
  - constructor; auto; [constructor; assumption|intros m Em; eapply g_ls; [exact B|auto]| |eapply g_live; [exact B|assumption]].
    apply (room_after _ _ _ _ _ _ _ _ _ _ _ B). refine (room_less _ _ _ _ _ _ n_room0). lia.
  - intros ok w' live' Hpost. apply (needed_step i ok w w3 w' live live1 live' ls ls1 handles s0 done v rest j c1 c' q B); auto.
    assert (j < 129)%nat; [|lia]. apply (inv_range _ _ _ j I1). rewrite elem_of_app. left. apply (v_live _ _ _ _ C), (v_refs _ _ _ _ C). left.
Qed.

(** What the loop from entry [k] guarantees. *)
Definition links_needed (i k : nat) (w : system) (live : list nat) (o : outcome (bool * system * nat)) : Prop :=
  forall ok w' c, o = Ok (ok, w', c) -> exists live' free', pool_inv (P w') live' free' /\ (forall j, j ∈ live -> j ∈ live') /\
    forall ls handles s done rest, needed_pre i w live ls handles s done rest c -> k = length done -> needed_post i ok w w' live live' ls handles s done c.

Lemma at_entry i w live ls handles s done rest c d k e : needed_pre i w live ls handles s done rest c -> table w !! i = Some s -> dynamic s = Some d -> k = length done -> d !! k = Some e ->
  e = (DT_NULL, 0) /\ rest = [] \/ e.1 <> DT_NULL /\ exists rest', rest = e :: rest'.
Proof.
  intros [] _ Hd -> He. rewrite n_dynamic0 in Hd. injection Hd as <-. rewrite lookup_app_r, Nat.sub_diag in He by lia. destruct rest as [|e' rest]; cbn in He; injection He as ->; [left; auto|].
  apply Forall_cons in n_nonnull0 as [Hn _]. eauto.
Qed.

Lemma link_needed_ok find fuel i : finds find fuel -> forall n k w live free, pool_inv (P w) live free -> i ∈ live -> (130 <= length live + fuel)%nat ->
  exists o, link_needed find i n k w = Some o /\ links_needed i k w live o.
Proof.
  intros Hf. induction n as [|n IH]; intros k w live free I Hi Hfuel; [eexists; split; [reflexivity|discriminate]|].
  destruct (live_entry w live free i I Hi) as [s0 Hs0]. cbn [link_needed]. rewrite Hs0. cbn [of_option lift fbind].
  destruct (dynamic s0) as [d|] eqn:Ed; cbn [of_option lift fbind]; [|eexists; split; [reflexivity|discriminate]].
  destruct (d !! k) as [[tag v]|] eqn:Ek; cbn [of_option lift fbind]; [|eexists; split; [reflexivity|discriminate]].
  assert (forall ls handles s done rest c, needed_pre i w live ls handles s done rest c -> k = length done -> s = s0 /\ ((tag, v) = (DT_NULL, 0) /\ rest = [] \/ tag <> DT_NULL /\ exists rest', rest = (tag, v) :: rest')) as Hat.
  { intros ls handles s done rest c Hp Hk. assert (s = s0) as -> by (pose proof (n_entry _ _ _ _ _ _ _ _ _ Hp); congruence). split; [reflexivity|]. exact (at_entry i w live ls handles s0 done rest c d k _ Hp Hs0 Ed Hk Ek). }
  destruct (Z.eqb_spec tag DT_NULL) as [Ht|Ht].
  { eexists. split; [reflexivity|]. intros ok w' c [= <- <- <-]. exists live, free. split; [assumption|]. split; [auto|]. intros ls handles s done rest Hp Hk.
    destruct (Hat _ _ _ _ _ _ Hp Hk) as (-> & [[_ ->]|[Hc _]]); [|contradiction]. apply (needed_stop _ _ _ _ _ _ _ []); auto; apply Hp. }
  destruct (Z.eqb_spec tag DT_NEEDED) as [->|Hnt].
  2: { destruct (IH (S k) w live free I Hi Hfuel) as (o & -> & Ho). exists o. split; [reflexivity|]. intros ok w' c E. destruct (Ho ok w' c E) as (live' & free' & I' & Hl & H).
       exists live', free'. split; [assumption|]. split; [assumption|]. intros ls handles s done rest Hp Hk. destruct (Hat _ _ _ _ _ _ Hp Hk) as (-> & [[[= Hc _] _]|(_ & rest' & ->)]); [contradiction|].
       apply (needed_other i ok w w' live live' ls handles s0 done tag v c Ht Hnt). apply (H ls handles s0 _ rest'); [now apply needed_pass|rewrite length_app, Hk; cbn; lia]. }
  destruct (cstr _) as [nm| |] eqn:En; cbn [lift fbind]; [|eexists; split; [reflexivity|discriminate]..]. apply cstr_no_nul in En.
  destruct (Hf (Some nm) w live free I Hfuel) as (o & -> & Ho); [now intros t [= <-]|].
  destruct o as [[[r w1] c1]| |]; cbn [fbind]; [|eexists; split; [reflexivity|discriminate]..]. destruct (Ho r w1 c1 eq_refl) as (live1 & free1 & I1 & Hl1 & H1). destruct r as [j|].
  2: { eexists. split; [reflexivity|]. intros ok w' c [= <- <- <-]. exists live1, free1. split; [assumption|]. split; [assumption|].
       intros ls handles s done rest [] Hk. cbn [option_list length bumped] in H1. rewrite Nat.add_0_r in H1.
       destruct (H1 ls handles) as (ls' & extra & A & _); auto. apply (needed_fail _ _ _ _ _ _ ls' _ extra _ _ rest); assumption. }
  destruct (live_entry w1 live1 free1 i I1 (Hl1 i Hi)) as [s1 Hs1].
  destruct (update_ok w1 i (fun s => set_dynamic ((fun d => <[k := (DT_NEEDED, Z.of_nat j)]> d) <$> dynamic s) s) s1 Hs1) as (w2 & -> & E2 & _). cbn [lift fbind].
  destruct (retain w2 j) as [w3| |] eqn:E3; cbn [lift fbind]; [|eexists; split; [reflexivity|discriminate]..]. apply retain_inv in E3.
  assert (pool_inv (P w3) live1 free1) as I3 by (rewrite E3, E2; apply pool_bump; now apply (pool_put _ _ _ _ s1)).
  pose proof (live_longer _ _ _ _ _ _ I I1 Hl1) as Hlen. destruct (IH (S k) w3 live1 free1 I3 (Hl1 i Hi) ltac:(lia)) as (o & -> & Ho3).
  destruct o as [[[ok' w'] c']| |]; cbn [fbind]; [|eexists; split; [reflexivity|discriminate]..]. eexists. split; [reflexivity|]. intros ok w'' c [= <- <- <-].
  destruct (Ho3 ok' w' c' eq_refl) as (live' & free' & I' & Hl' & H'). exists live', free'. split; [assumption|]. split; [auto|]. intros ls handles s done rest Hp Hk.
  destruct (Hat _ _ _ _ _ _ Hp Hk) as (-> & [[[= Hc _] _]|(_ & rest' & ->)]). destruct (H1 ls handles) as (ls1 & extra & A & Hex); [apply Hp|apply Hp| |].
  { refine (room_less _ _ _ _ _ _ (n_room _ _ _ _ _ _ _ _ _ Hp)). cbn. lia. }
  destruct (Hex j eq_refl) as [-> Hcl]. rewrite Hk in E2. destruct (needed_taken i j w w1 w2 w3 live live1 free1 ls ls1 handles s0 s1 done v rest' c1 c' Hp A Hcl I1 Hs1 E2 E3) as (s3 & Hp3 & Hback).
  apply Hback, (H' ls1 _ s3 _ rest' Hp3). rewrite length_app, Hk. cbn. lia.
Qed.
End finding.

(** ** The rest of [link_image] *)

Lemma put_put st i s s' : put (put st i s) i s' = put st i s'.
Proof. unfold put. cbn. now rewrite list_insert_insert_eq. Qed.

Lemma error_not_good s : good (set_flags (Z.lor (flags s) FLAG_ERROR) s) = false.
Proof.
  unfold good, has. cbn [flags set_flags]. assert (Z.land (Z.lor (flags s) FLAG_ERROR) FLAG_ERROR = 2) as ->; [|now rewrite andb_false_r].
  apply Z.bits_inj'. intros n Hn. change FLAG_ERROR with 2. rewrite Z.land_spec, Z.lor_spec. destruct (Z.testbit 2 n); btauto.
Qed.

(** The entry of [i] has changed, and what the rest of the linker sees of it has not. *)
Record entry_set (w w' : system) (i : nat) (s s' : soinfo) : Prop := {
  e_put : P w' = put (P w) i s';
  e_next : next s' = next s;
  e_count : refcount s' = refcount s;
  e_dynamic : dynamic s' = dynamic s }.

Lemma link_fail_effect i w c ok w' c' s : table w !! i = Some s -> link_fail i w c = Ok (ok, w', c') ->
  ok = false /\ c' = c /\ entry_set w w' i s (set_flags (Z.lor (flags s) FLAG_ERROR) s).
Proof.
  intros Hs. unfold link_fail. destruct (update_ok w i (fun s => set_flags (Z.lor (flags s) FLAG_ERROR) s) s Hs) as (w1 & -> & E & _). cbn [obind]. intros [= <- <- <-]. split; [reflexivity|].
  split; [reflexivity|]. now constructor.
Qed.

Section linking.
Context (hooked : str -> str -> Z) (preloads : list nat) (somain : option nat) (r_debug : Z).

Lemma relocate_effect i a n w ok w' : relocate hooked preloads somain i a n w = Ok (ok, w') -> P w' = P w.
Proof.
  unfold relocate. destruct (a =? 0); [now intros [= <- <-]|]. destruct (table w !! i); cbn [of_option obind]; [|discriminate].
  destruct (LinkerReloc.reloc_library _ _ _ _ _ _ _ _ _) as [[r m]| |]; cbn [obind]; try discriminate. now intros [= <- <-].
Qed.

Lemma array_long s m a n l : array_at s m a n = Ok (Some l) -> n <= Z.of_nat (length l).
Proof.
  unfold array_at. destruct (a =? 0); [discriminate|]. destruct (Z.ltb_spec (Z.of_nat (length (words_at (fits s a 4 n) m a))) n); [discriminate|]. now intros [= <-].
Qed.

Lemma link_rest_effect x im i w c ok w' c' s : table w !! i = Some s ->
  link_rest hooked preloads somain x im i w c = Ok (ok, w', c') ->
  c' = c /\ exists s', entry_set w w' i s s' /\ (ok = false -> good s' = false) /\ (ok = true -> fini_array_count s = fini_count x -> forall a, fini_array s' = Some a -> fini_array_count s' <= Z.of_nat (length a)).
Proof.
  intros Hs. unfold link_rest.
  assert (forall w1, P w1 = P w -> link_fail i w1 c = Ok (ok, w', c') -> c' = c /\ exists s', entry_set w w' i s s' /\ (ok = false -> good s' = false) /\
    (ok = true -> fini_array_count s = fini_count x -> forall a, fini_array s' = Some a -> fini_array_count s' <= Z.of_nat (length a))) as Hfail.
  { intros w1 E1 E. assert (table w1 !! i = Some s) as Hs1 by (unfold table in *; fold (P w1); now rewrite E1).
    destruct (link_fail_effect i w1 c ok w' c' s Hs1 E) as (-> & -> & [H1 H2 H3 H4]). split; [reflexivity|]. eexists. split; [constructor; [rewrite H1, E1; reflexivity|reflexivity..]|].
    split; [intros _; apply error_not_good|discriminate]. }
  destruct (relocate _ _ _ i (plt_rel x) _ w) as [[ok1 w1]| |] eqn:R1; cbn [obind]; try discriminate. apply relocate_effect in R1. destruct ok1; cbn [negb]; [|now apply Hfail].
  destruct (relocate _ _ _ i (rel x) _ w1) as [[ok2 w2]| |] eqn:R2; cbn [obind]; try discriminate. apply relocate_effect in R2. rewrite R1 in R2. destruct ok2; cbn [negb]; [|now apply Hfail].
  assert (table w2 !! i = Some s) as Hs2 by (unfold table in *; fold (P w2); now rewrite R2).
  destruct (update_ok w2 i (fun s => set_flags (Z.lor (flags s) FLAG_LINKED) s) s Hs2) as (w3 & -> & E3 & _). cbn [obind].
  pose proof (lookup_put (P w2) i (set_flags (Z.lor (flags s) FLAG_LINKED) s) s i Hs2) as Hs3. rewrite decide_True, <- E3 in Hs3 by reflexivity. change (so (P w3)) with (table w3) in Hs3. rewrite Hs3. cbn [of_option obind].
  destruct (array_at _ _ (preinit_array_at x) _) as [pre| |]; cbn [obind]; try discriminate. destruct (array_at _ _ (init_array_at x) _) as [ini| |]; cbn [obind]; try discriminate.
  destruct (array_at _ _ (fini_array_at x) _) as [fin| |] eqn:Ef; cbn [obind]; try discriminate.
  destruct (update_ok w3 i (set_arrays pre ini fin) _ Hs3) as (w4 & -> & E4 & _). cbn [obind]. rewrite E3, put_put, R2 in E4. set (s4 := set_arrays pre ini fin _) in *.
  destruct (protect_relro _ _) as [ok5 k5]. destruct ok5; cbn [negb].
  - intros [= <- <- <-]. split; [reflexivity|]. exists s4. split; [constructor; [exact E4|reflexivity..]|]. split; [discriminate|]. intros _ Hx a Ha. cbn in Ha. subst fin. rewrite <- Hx in Ef. apply array_long in Ef. exact Ef.
  - intros E. assert (table (with_kernel w4 k5) !! i = Some s4) as Hs4. { change (table (with_kernel w4 k5)) with (so (P w4)). rewrite E4, (lookup_put _ _ _ _ _ Hs). now rewrite decide_True. }
    destruct (link_fail_effect i _ c ok w' c' s4 Hs4 E) as (-> & -> & [H1 H2 H3 H4]). split; [reflexivity|]. eexists. split; [constructor; [rewrite H1; change (P (with_kernel w4 k5)) with (P w4); rewrite E4, put_put; reflexivity|reflexivity..]|].
    split; [intros _; apply error_not_good|discriminate].
Qed.

(** From the table [st0] before the library [i] was added, with one more reference when linking succeeded. *)
Definition link_post (i : nat) (ok : bool) (st0 st' : linker) (live0 live' ls handles : list nat) (c : nat) : Prop :=
  exists ls' extra, grown [] st0 (bumped (if ok then Some i else None) st') live0 live' ls ls' handles (extra ++ handles) (c + if ok then 1 else 0) /\ (ok = true -> extra = [i] /\ clean live0 live' ls').

Lemma link_failed i st0 st w' live0 live live' ls ls' handles extra s' s c : grown [i] st0 st live0 live ls ls handles handles 0 -> i ∉ live0 ->
  grown [i] st w' live live' ls ls' handles (extra ++ handles) c -> i ∉ ls' -> so w' !! i = Some s -> next s' = next s -> good s' = false ->
  link_post i false st0 (put w' i s') live0 live' ls handles c.
Proof.
  intros A Hi B Hi' Hs Hn Hg. exists ls', extra. split; [|discriminate]. cbn [bumped]. eapply (grown_weaken _ [i]); [intros j Hj ->%list_elem_of_singleton; contradiction|apply Nat.le_refl|].
  replace (c + 0)%nat with ((0 + c) + 0)%nat by lia. eapply grown_trans; [eapply grown_trans; [exact A|exact B]|].
  apply (grown_pending _ _ _ _ i s); auto. apply (g_inv _ _ _ _ _ _ _ _ _ _ B).
Qed.

Lemma link_done i st0 st w' live0 live live' ls ls' handles extra s' s d c : grown [i] st0 st live0 live ls ls handles handles 0 -> i ∉ live0 -> 0%nat ∈ live0 -> i ∈ live ->
  grown [i] st w' live live' ls ls' handles (extra ++ handles) c -> i ∉ ls' -> so w' !! i = Some s -> next s' = next s -> refcount s' = 0 -> library_ok s' d -> needed d ≡ₚ extra -> clean live live' ls' -> (forall j, j ∈ live -> j = i \/ j ∈ live0) ->
  link_post i true st0 (put w' i s') live0 live' ls handles c.
Proof.
  intros A Hi H0 Hl B Hi' Hs Hn Hr Hd Hp Hcl Hlive. exists (i :: ls'), [i]. split.
  2: { intros _. split; [reflexivity|]. intros j Hj Hnj. rewrite not_elem_of_cons in Hnj. destruct Hnj as [Hne Hnj]. destruct (Hlive j) as [->|]; auto. contradiction. }
  cbn [bumped]. apply (attach_grown _ _ _ _ _ _ _ extra _ s _ d); auto.
  - replace c with (0 + c)%nat by lia. eapply grown_trans; [exact A|exact B].
  - now apply (g_live _ _ _ _ _ _ _ _ _ _ B).
  - exact (v_zero _ _ _ _ (l_counted _ _ _ _ (g_inv _ _ _ _ _ _ _ _ _ _ A))).
Qed.

(** The library [i] with entry [s], added to the table since [st0] and not linked. *)
Record pending (st0 : linker) (w : system) (live0 live ls handles : list nat) (i : nat) (s : soinfo) : Prop := {
  p_grown : grown [i] st0 (P w) live0 live ls ls handles handles 0;
  p_new : i ∉ live0;
  p_out : i ∉ ls;
  p_live : i ∈ live;
  p_only : forall j, j ∈ live -> j = i \/ j ∈ live0;
  p_zero : 0%nat ∈ live0;
  p_entry : table w !! i = Some s;
  p_count : refcount s = 0;
  p_flags : flags s = 0 }.

Lemma pending_set st0 w w' live0 live ls handles i s s' : pending st0 w live0 live ls handles i s -> P w' = put (P w) i s' -> next s' = next s -> refcount s' = 0 -> flags s' = 0 ->
  pending st0 w' live0 live ls handles i s'.
Proof.
  intros [] E Hn Hr Hf. constructor; auto.
  - eapply (grown_trans _ _ _ _ _ _ _ _ _ _ _ _ _ 0 0); [eassumption|]. rewrite E. apply (grown_pending _ _ _ _ i s); auto; [eapply g_inv; eassumption|]. unfold good. now rewrite Hf.
  - change (table w') with (so (P w')). rewrite E, (lookup_put _ _ _ _ _ p_entry0). now rewrite decide_True.
Qed.

Lemma section_valid es : (forall v, (DT_NEEDED, v) ∈ es -> validate_soinfo v = true) -> needed_valid (section_of es).
Proof. intros H v Hv. unfold section_of in Hv. rewrite elem_of_app in Hv. destruct Hv as [Hv|Hv]; [auto|]. apply list_elem_of_singleton in Hv. discriminate. Qed.

(** After the loop over the dependencies. *)
Lemma link_after x im i w w1 ok1 c1 ok w' c st0 live0 live live1 ls handles s : pending st0 w live0 live ls handles i s ->
  needed_post i ok1 w w1 live live1 ls handles s [] c1 -> fini_array_count s = fini_count x ->
  (if negb ok1 then link_fail i w1 c1 else link_rest hooked preloads somain x im i w1 c1) = Ok (ok, w', c) ->
  link_post i ok st0 (P w') live0 live1 ls handles c.
Proof.
  intros [] (ls' & extra & B & rest & q & Hs & Hok) Hx E. cbn [app] in *. set (s1 := set_next q _) in *.
  assert (i ∉ ls') as Hi by (intros H; apply p_out0; eapply g_old; eassumption). destruct ok1; cbn [negb] in E.
  - destruct (link_rest_effect x im i w1 c1 ok w' c s1 Hs E) as (-> & s2 & [-> Hn Hr Hd] & H1 & H2). destruct ok.
    + destruct (Hok eq_refl) as (Hnn & Hp & Hv & Hcl). apply (link_done i _ (P w) _ _ live _ _ ls' _ extra _ s1 (section_of rest)); auto; [rewrite Hr; exact p_count0| |now rewrite needed_section].
      constructor; [now rewrite Hd|apply section_terminated|now apply section_valid|auto].
    + apply (link_failed i _ (P w) _ _ live _ _ ls' _ extra _ s1); auto.
  - destruct (link_fail_effect i w1 c1 ok w' c s1 Hs E) as (-> & -> & [-> Hn _ _]). apply (link_failed i _ (P w) _ _ live _ _ ls' _ extra _ s1); auto. apply error_not_good.
Qed.

Lemma link_fail_post i w w' ok c c' st0 live0 live ls handles s : pending st0 w live0 live ls handles i s -> link_fail i w c = Ok (ok, w', c') -> c = 0%nat ->
  link_post i ok st0 (P w') live0 live ls handles c'.
Proof.
  intros [] E ->. destruct (link_fail_effect i w 0 ok w' c' s p_entry0 E) as (-> & -> & [-> Hn _ _]).
  apply (link_failed i st0 (P w) (P w) live0 live live ls ls handles [] _ s); auto; [apply grown_refl; eapply g_inv; eassumption|apply error_not_good].
Qed.

(** What linking the new library [i] guarantees. *)
Definition links (i : nat) (w : system) (live : list nat) (o : outcome (bool * system * nat)) : Prop :=
  forall ok w' c, o = Ok (ok, w', c) -> exists live' free', pool_inv (P w') live' free' /\ (forall j, j ∈ live -> j ∈ live') /\
    forall st0 live0 ls handles s, pending st0 w live0 live ls handles i s -> (forall m, somain = Some m -> m ∈ ls) -> room st0 ls handles (c + if ok then 1 else 0) ->
      link_post i ok st0 (P w') live0 live' ls handles c.

Lemma links_fail i w live free s : pool_inv (P w) live free -> table w !! i = Some s -> links i w live (link_fail i w 0).
Proof.
  intros I Hs ok w' c E. destruct (link_fail_effect i w 0 ok w' c s Hs E) as (_ & _ & [Ep Hn _ _]). exists live, free. split; [rewrite Ep; now apply (pool_put _ _ _ _ s)|]. split; [auto|].
  intros st0 live0 ls handles s' Hp _ _. now apply (link_fail_post i w w' ok 0 c st0 live0 live ls handles s').
Qed.

Lemma after_pool x im i w ok1 c ok w' c' live free s : pool_inv (P w) live free -> table w !! i = Some s ->
  (if negb ok1 then link_fail i w c else link_rest hooked preloads somain x im i w c) = Ok (ok, w', c') -> c' = c /\ pool_inv (P w') live free.
Proof.
  intros I Hs. destruct ok1; cbn [negb]; intros E.
  - destruct (link_rest_effect x im i w c ok w' c' s Hs E) as (-> & s' & [-> Hn _ _] & _). split; [reflexivity|]. now apply (pool_put _ _ _ _ s).
  - destruct (link_fail_effect i w c ok w' c' s Hs E) as (_ & -> & [-> Hn _ _]). split; [reflexivity|]. now apply (pool_put _ _ _ _ s).
Qed.

Lemma link_image_ok find fuel i im w live free : finds somain find fuel -> pool_inv (P w) live free -> i ∈ live -> (130 <= length live + fuel)%nat ->
  exists o, link_image hooked preloads somain r_debug find i im w = Some o /\ links i w live o.
Proof.
  intros Hf I Hi Hfuel. destruct (live_entry w live free i I Hi) as [s Hs]. unfold link_image.
  destruct (LinkerLoad.dynamic_addr im =? 0xffffffff); [eexists; split; [reflexivity|now apply (links_fail _ _ _ free s)]|]. rewrite Hs. cbn [of_option lift fbind].
  destruct (read_dynamic _ _ _) as [d| |] eqn:Er; cbn [lift fbind]; [|eexists; split; [reflexivity|discriminate]..]. destruct (read_dynamic_shape _ _ _ _ Er) as (es0 & -> & Hes0).
  destruct (dyn_loop _ _ _ _ _) as [r| |] eqn:Ed; cbn [lift fbind]; [|eexists; split; [reflexivity|discriminate]..].
  destruct r as [[x d']|]; [|eexists; split; [reflexivity|now apply (links_fail _ _ _ free s)]]. destruct (dyn_loop_shape _ _ _ _ _ _ _ Hes0 Ed) as (es & -> & Hes).
  destruct (update_ok w i (set_tables (memory w) x (section_of es)) s Hs) as (w1 & -> & E1 & _). cbn [lift fbind]. set (s1 := set_tables (memory w) x (section_of es) s) in *.
  assert (pool_inv (P w1) live free) as I1 by (rewrite E1; now apply (pool_put _ _ _ _ s)). assert (table w1 !! i = Some s1) as Hs1.
  { change (table w1) with (so (P w1)). rewrite E1, (lookup_put _ _ _ _ _ Hs). now rewrite decide_True. }
  assert (forall st0 live0 ls handles s', pending st0 w live0 live ls handles i s' -> pending st0 w1 live0 live ls handles i s1) as Hpend.
  { intros st0 live0 ls handles s' Hp. assert (s' = s) as -> by (pose proof (p_entry _ _ _ _ _ _ _ _ Hp); congruence). apply (pending_set st0 w w1 live0 live ls handles i s s1 Hp E1); [reflexivity|exact (p_count _ _ _ _ _ _ _ _ Hp)|exact (p_flags _ _ _ _ _ _ _ _ Hp)]. }
  destruct (_ || _).
  { eexists. split; [reflexivity|]. intros ok w' c E. destruct (links_fail i w1 live free s1 I1 Hs1 ok w' c E) as (live' & free' & I' & Hl & H). exists live', free'. split; [assumption|]. split; [assumption|].
    intros st0 live0 ls handles s' Hp. apply (H st0 live0 ls handles s1). eauto. }
  destruct (link_needed_ok somain find fuel i Hf (length (section_of es)) 0 w1 live free I1 Hi Hfuel) as (o & -> & Ho).
  destruct o as [[[ok1 w2] c1]| |]; cbn [fbind]; [|eexists; split; [reflexivity|discriminate]..]. destruct (Ho ok1 w2 c1 eq_refl) as (live2 & free2 & I2 & Hl2 & H2).
  destruct (live_entry w2 live2 free2 i I2 (Hl2 i Hi)) as [s2 Hs2]. exists (if negb ok1 then link_fail i w2 c1 else link_rest hooked preloads somain x im i w2 c1).
  split; [now destruct ok1|]. intros ok w' c E. destruct (after_pool x im i w2 ok1 c1 ok w' c live2 free2 s2 I2 Hs2 E) as [-> I3]. exists live2, free2. split; [assumption|]. split; [assumption|].
  intros st0 live0 ls handles s' Hp Hm Hr. apply Hpend in Hp. apply (link_after x im i w1 w2 ok1 c1 ok w' c1 st0 live0 live live2 ls handles s1 Hp); [|reflexivity|exact E].
  assert (grown [i] st0 (P w1) live0 live ls ls handles handles 0) as A by apply Hp. apply (H2 ls handles s1 [] es); [|reflexivity].
  constructor; [exact (g_inv _ _ _ _ _ _ _ _ _ _ A)|assumption| |assumption|apply Hp|assumption| |reflexivity|assumption].
  - apply (room_after _ _ _ _ _ _ _ _ _ 0 c1 A). refine (room_less _ _ _ _ _ _ Hr). lia.
  - unfold good. now rewrite (p_flags _ _ _ _ _ _ _ _ Hp).
Qed.

Lemma init_library_ok find fuel i im w live free : finds somain find fuel -> pool_inv (P w) live free -> i ∈ live -> (130 <= length live + fuel)%nat ->
  exists o, init_library hooked preloads somain r_debug find i im w = Some o /\ forall r w' c, o = Ok (r, w', c) ->
    exists live' free', pool_inv (P w') live' free' /\ (forall j, j ∈ live -> j ∈ live') /\
    forall st0 live0 ls handles s, pending st0 w live0 live ls handles i s -> (forall m, somain = Some m -> m ∈ ls) -> room st0 ls handles (c + length (option_list r)) ->
      exists ls' extra, grown [] st0 (bumped r (P w')) live0 live' ls ls' handles (extra ++ handles) (c + length (option_list r)) /\ (forall j, r = Some j -> extra = [j] /\ clean live0 live' ls').
Proof.
  intros Hf I Hi Hfuel. unfold init_library. destruct (link_image_ok find fuel i im w live free Hf I Hi Hfuel) as (o & -> & Ho).
  destruct o as [[[ok w1] c1]| |]; cbn [fbind]; [|eexists; split; [reflexivity|discriminate]..]. destruct (Ho ok w1 c1 eq_refl) as (live' & free' & I' & Hl & H).
  destruct (table w1 !! i) as [s1|]; cbn [of_option lift fbind]; [|eexists; split; [reflexivity|discriminate]].
  destruct ok; cbn [negb]; eexists; (split; [reflexivity|]); intros r w' c [= <- <- <-]; exists live', free'; (split; [assumption|]); (split; [assumption|]); intros st0 live0 ls handles s Hp Hm Hr;
    destruct (H st0 live0 ls handles s Hp Hm Hr) as (ls' & extra & A & He); exists ls', extra; (split; [exact A|]); [|discriminate].
  intros j [= <-]. auto.
Qed.

(** ** [find_library] *)

Context (files : str -> LinkerPath.node) (getenv : str -> option str) (default_path : option str) (junk : list Z).

Lemma by_name_ok w live free bname : pool_inv (P w) live free ->
  exists r, by_name (table w) bname = Ok r /\ forall j, r = Some j -> j ∈ live.
Proof.
  intros I. unfold by_name. eexists. split.
  - rewrite (find_loop_ok _ (table w) live); [reflexivity|exact (i_live _ _ _ I)|]. pose proof (live_bound _ _ _ I) as [_ H]. change (table w) with (so (P w)). rewrite (i_len _ _ _ I). lia.
  - intros j H. apply List.find_some in H as [H _]. now apply list_elem_of_In.
Qed.

(** The library, if any, is one that is counted already. *)
Lemma found_here w live free m : pool_inv (P w) live free ->
  (forall ls handles j, m = Some j -> linkinv (P w) live ls handles -> (forall m, somain = Some m -> m ∈ ls) -> j ∈ ls) -> found somain w live (Ok (m, w, 0%nat)).
Proof.
  intros I Hm r w' c [= <- <- <-]. exists live, free. split; [assumption|]. split; [auto|]. intros ls handles L Hs Hr. destruct m as [j|].
  - exists ls, [j]. split; [|intros k [= <-]; split; [reflexivity|now intros i Hi _]]. apply acquire; [assumption|eauto|]. unfold room in Hr. cbn in Hr. lia.
  - exists ls, []. split; [|discriminate]. now apply grown_refl.
Qed.

(** Nothing was loaded: the entries of the load list are as before. *)
Lemma found_unloaded w w1 live free : pool_inv (P w1) live free -> same_live live (so (P w)) (so (P w1)) -> found somain w live (Ok (None, w1, 0%nat)).
Proof.
  intros I Hk r w' c [= <- <- <-]. exists live, free. split; [assumption|]. split; [auto|]. intros ls handles L _ _. exists ls, []. split; [|discriminate].
  apply (grown_frame _ _ live live free); auto. contradiction.
Qed.

Lemma appended_pending w w1 live ls handles i s : linkinv (P w) live ls handles -> appended (P w) (P w1) live i s -> refcount s = 0 -> flags s = 0 ->
  pending (P w) w1 live (live ++ [i]) ls handles i s.
Proof.
  intros L [[free I] Hi Hs Hk] Hr Hf. destruct (v_pool _ _ _ _ (l_counted _ _ _ _ L)) as [free0 I0]. constructor; auto.
  - eapply grown_weaken; [|apply Nat.le_refl|apply (grown_frame _ _ live _ free); auto].
    + intros j _ H. now apply not_elem_of_nil in H.
    + intros j Hj. rewrite elem_of_app. now left.
    + intros j t Hj Hn Ht. rewrite elem_of_app, list_elem_of_singleton in Hj. destruct Hj as [Hj| ->]; [contradiction|]. unfold good. rewrite Hs in Ht. injection Ht as <-. now rewrite Hf.
  - intros Hl. apply Hi. exact (v_live _ _ _ _ (l_counted _ _ _ _ L) i Hl).
  - rewrite elem_of_app. right. left.
  - intros j Hj. rewrite elem_of_app, list_elem_of_singleton in Hj. tauto.
  - destruct (live_head _ _ _ I0) as [l ->]. left.
Qed.

Lemma find_library_ok : forall fuel, finds somain (find_library hooked preloads somain r_debug files getenv default_path junk fuel) fuel.
Proof.
  induction fuel as [|fuel IH]; intros n w live free I Hfuel Hn; [pose proof (live_bound _ _ _ I); lia|]. cbn [find_library]. destruct n as [n|].
  2: { eexists. split; [reflexivity|]. apply (found_here w live free somain I). auto. }
  destruct (by_name_ok w live free (LinkerLoad.base_name n) I) as (hit & -> & Hhit). cbn [lift fbind]. destruct hit as [j|].
  - destruct (live_entry w live free j I (Hhit j eq_refl)) as [s Hs]. rewrite Hs. cbn [of_option lift fbind].
    assert (found somain w live (Ok (None, w, 0%nat))) as Hnone by (apply (found_here w live free None I); discriminate).
    destruct (has (flags s) FLAG_ERROR) eqn:He; [eauto|]. destruct (has (flags s) FLAG_LINKED) eqn:Hk; [|eauto]. eexists. split; [reflexivity|].
    apply (found_here w live free (Some j) I). intros ls handles k [= <-] L _. apply (l_good _ _ _ _ L j s); [now apply Hhit|assumption|]. unfold good. now rewrite He, Hk.
  - destruct (LinkerPath.open_library _ _ _ _ _ _ _) as [[file ps]| |]; cbn [lift fbind]; [|eexists; split; [reflexivity|discriminate]..].
    destruct (LinkerLoad.load_library _ _ _ _) as [[r lw]| |] eqn:El; cbn [lift fbind]; [|eexists; split; [reflexivity|discriminate]..].
    pose proof (load_effect _ _ _ _ _ _ live free I (Hn n eq_refl) El) as Hload. destruct r as [[i im]|].
    2: { destruct Hload as [[free' I'] Hk]. eexists. split; [reflexivity|]. now apply (found_unloaded w _ live free'). }
    destruct Hload as (s & A & Hr & Hf). set (w1 := System lw ps _). change (pool (loader w)) with (P w) in A. change (pool lw) with (P w1) in A. destruct (a_pool _ _ _ _ _ A) as [free1 I1].
    destruct (init_library_ok _ fuel i im w1 (live ++ [i]) free1 IH I1) as (o & -> & Ho); [rewrite elem_of_app; right; left|rewrite length_app; cbn; lia|].
    exists o. split; [reflexivity|]. intros r w' c E. destruct (Ho r w' c E) as (live' & free' & I' & Hl & H). exists live', free'. split; [assumption|].
    split; [intros j Hj; apply Hl; rewrite elem_of_app; now left|]. intros ls handles L Hm Hroom. apply (H (P w) live ls handles s); auto. now apply appended_pending.
Qed.
End linking.
End LinkerRefs.
