(* ===== verification/LinkerDlfcn.v ===== *)
(** * The dynamic-loading interface (common/jb/dlfcn.c)

    [android_dlopen], [android_dlclose], [android_dlsym], [android_dladdr] and [android_dlerror] over the linker's
    state; each runs under one recursive lock and is a single step.  The text of the linker's last error is an argument.
    A handle is null, the host's [RTLD_NEXT] or a library; [RTLD_DEFAULT] is glibc's, the null pointer. *)

From Stdlib Require Import ZArith Lia Bool.
From stdpp Require Import base numbers option list.
From S2P Require Import Prelude CStr StrL LinkerFormat LinkerPool LinkerLookup LinkerInit LinkerLoad LinkerReloc LinkerPath LinkerUnload LinkerLink LinkerRefs.

Open Scope Z_scope.
Open Scope outcome_scope.

Module LinkerDlfcn.
Import CStr LinkerPool LinkerLookup LinkerInit LinkerUnload LinkerLink LinkerRefs.
Import LinkerLoad (world, World, pool, kern, header, has, Kernel, vm, answers).

(** ** State and errors *)

Inductive dl_code := DL_ERR_CANNOT_LOAD_LIBRARY | DL_ERR_INVALID_LIBRARY_HANDLE | DL_ERR_BAD_SYMBOL_NAME | DL_ERR_SYMBOL_NOT_FOUND | DL_ERR_SYMBOL_NOT_GLOBAL.
Definition dl_errors (e : dl_code) : str :=
  match e with
  | DL_ERR_CANNOT_LOAD_LIBRARY => [67; 97; 110; 110; 111; 116; 32; 108; 111; 97; 100; 32; 108; 105; 98; 114; 97; 114; 121]
  | DL_ERR_INVALID_LIBRARY_HANDLE => [73; 110; 118; 97; 108; 105; 100; 32; 108; 105; 98; 114; 97; 114; 121; 32; 104; 97; 110; 100; 108; 101]
  | DL_ERR_BAD_SYMBOL_NAME => [73; 110; 118; 97; 108; 105; 100; 32; 115; 121; 109; 98; 111; 108; 32; 110; 97; 109; 101]
  | DL_ERR_SYMBOL_NOT_FOUND => [83; 121; 109; 98; 111; 108; 32; 110; 111; 116; 32; 102; 111; 117; 110; 100]
  | DL_ERR_SYMBOL_NOT_GLOBAL => [83; 121; 109; 98; 111; 108; 32; 105; 115; 32; 110; 111; 116; 32; 103; 108; 111; 98; 97; 108]
  end.

(** The linker, [dl_err_buf], and whether [dl_err_str] points to it or is null. *)
Record dl := Dl { sys : system; dl_err_buf : list Z; dl_err_str : bool }.

Definition set_dlerror (e : dl_code) (linker_error : str) (d : dl) : outcome dl :=
  let! (b, _) := LinkerFormat.format_buffer (dl_err_buf d) 1024 [37; 115; 58; 32; 37; 115] [LinkerFormat.AStr (dl_errors e); LinkerFormat.AStr linker_error] in
  Ok (Dl (sys d) b true).

Definition android_dlerror (d : dl) : outcome (option str * dl) :=
  let! r := (if dl_err_str d then let! s := cstr (dl_err_buf d) in Ok (Some s) else Ok None) in
  Ok (r, Dl (sys d) (dl_err_buf d) false).

Inductive handle := HNull | HNext | HLib (i : nat).
Definition RTLD_DEFAULT : handle := HNull.
Definition RTLD_NEXT : handle := HNext.
Definition handle_eqb (a b : handle) : bool :=
  match a, b with HNull, HNull => true | HNext, HNext => true | HLib i, HLib j => (i =? j)%nat | _, _ => false end.

(** ** Opening and closing *)

Section dlopen.
Context (hooked : str -> str -> Z) (preloads : list nat) (somain : option nat) (r_debug : Z).
Context (files : str -> LinkerPath.node) (getenv : str -> option str) (default_path : option str) (junk : list Z).

(** The handle, the state, the constructors run and the number of increments of a reference count.  130 levels of
    [find_library] and 131 of the constructors are enough. *)
Definition android_dlopen (filename : option str) (linker_error : str) (d : dl) : fueled (option nat * dl * list event * nat) :=
  let? (ret, w, c) := find_library hooked preloads somain r_debug files getenv default_path junk 130 filename (sys d) in
  match ret with
  | None => let? d := lift (set_dlerror DL_ERR_CANNOT_LOAD_LIBRARY linker_error (Dl w (dl_err_buf d) (dl_err_str d))) in lift (Ok (None, d, [], c))
  | Some i =>
      let? (l, ev) := lift (call_constructors_recursive 131 (table w) i) in
      let? w := lift (retain (with_table w l) i) in
      lift (Ok (Some i, Dl w (dl_err_buf d) (dl_err_str d), ev, S c))
  end.
End dlopen.

(** The regions of the unloaded libraries are unmapped. *)
Definition unmapped (m : LinkerLoad.space) (ev : list unload_event) : LinkerLoad.space :=
  fold_left (fun m e => match e with Unmap b n => LinkerLoad.munmap m b n | Fini _ _ => m end) ev m.

Definition android_dlclose (h : nat) (d : dl) : outcome (Z * dl * list unload_event) :=
  let w := sys d in
  let! (_, p, ev) := unload_library (S (S SO_MAX)) (P w) h in
  let k := kern (loader w) in
  Ok (0, Dl (System (World p (Kernel (unmapped (vm k) ev) (answers k)) (header (loader w))) (search w) (ios w)) (dl_err_buf d) (dl_err_str d), ev).

(** ** Symbols and addresses *)

(** The address, 0 for null; [ret_addr] is the caller's return address. *)
Definition android_dlsym (h : handle) (symbol : option str) (ret_addr : Z) (linker_error : str) (d : dl) : outcome (Z * dl) :=
  let st := P (sys d) in
  let err e := (let! d := set_dlerror e linker_error d in Ok (0, d)) in
  if handle_eqb h HNull then err DL_ERR_INVALID_LIBRARY_HANDLE else
  match symbol with
  | None => err DL_ERR_BAD_SYMBOL_NAME
  | Some symbol =>
      let! sym := (if handle_eqb h RTLD_DEFAULT then lookup st symbol None
                   else if handle_eqb h RTLD_NEXT then
                     let! si := find_containing_library st ret_addr in
                     match si with
                     | None => Ok None
                     | Some i => let! s := of_option (so st !! i) in
                                 match next s with None => Ok None | Some _ => lookup st symbol (next s) end
                     end
                   else match h with
                        | HLib i => let! found := of_option (so st !! i) in let! r := lookup_in_library found symbol in Ok (pair i <$> r)
                        | _ => Undef
                        end) in
      match sym with
      | None => err DL_ERR_SYMBOL_NOT_FOUND
      | Some (i, k) =>
          let! found := of_option (so st !! i) in
          let! sym := rd (symtab found) k in
          if (ELF32_ST_BIND (st_info sym) =? STB_GLOBAL) && negb (st_shndx sym =? 0) then Ok (u32 (st_value sym + base found), d)
          else err DL_ERR_SYMBOL_NOT_GLOBAL
      end
  end.

Record Dl_info := DlInfo { dli_fname : str; dli_fbase : Z; dli_sname : option str; dli_saddr : Z }.

(** [None] is the return of 0, which leaves [info] alone. *)
Definition android_dladdr (addr : Z) (d : dl) : outcome (option Dl_info) :=
  let st := P (sys d) in
  let! si := find_containing_library st addr in
  match si with
  | None => Ok None
  | Some i =>
      let! s := of_option (so st !! i) in
      let! sym := find_containing_symbol s addr in
      match sym with
      | None => Ok (Some (DlInfo (name s) (base s) None 0))
      | Some k => let! sym := rd (symtab s) k in
                  let! nm := sym_name s sym in Ok (Some (DlInfo (name s) (base s) (Some nm) (u32 (base s + st_value sym))))
      end
  end.

(** ** Errors *)

(** What [dlerror] reports for an error. *)
Definition message (e : dl_code) (err : str) : str := take 1023 (dl_errors e ++ [58; 32] ++ err).

(** The error [e] is pending: it is reported once. *)
Definition reports (d d' : dl) (e : dl_code) (err : str) : Prop :=
  sys d' = sys d /\ length (dl_err_buf d') = 1024%nat /\ exists d1, android_dlerror d' = Ok (Some (message e err), d1) /\ android_dlerror d1 = Ok (None, d1).

Lemma format_error a b : LinkerFormat.formatted [37; 115; 58; 32; 37; 115] [LinkerFormat.AStr a; LinkerFormat.AStr b] = Ok (a ++ [58; 32] ++ b).
Proof.
  lazy -[LinkerFormat.emit LinkerFormat.list_send app]. rewrite LinkerPath.emit_plain. lazy -[LinkerFormat.emit LinkerFormat.list_send app].
  change (LinkerFormat.list_send ([] ++ a) [58; 32]) with (@Ok str (a ++ [58; 32])). cbv beta iota. rewrite LinkerPath.emit_plain. now rewrite <- app_assoc.
Qed.

Lemma message_no_nul e err : StrL.no_nul err -> StrL.no_nul (message e err).
Proof.
  intros H. unfold message. apply Forall_take. apply Forall_app. split; [destruct e; unfold dl_errors; repeat constructor; discriminate|]. apply Forall_app. split; [repeat constructor; discriminate|assumption].
Qed.

Lemma cstr_prefix s rest : StrL.no_nul s -> cstr (s ++ 0 :: rest) = Ok s.
Proof. intros H. unfold cstr. rewrite split_at_mid; [reflexivity|]. intros Hin. exact (proj1 (Forall_forall _ _) H 0 Hin eq_refl). Qed.

Lemma set_dlerror_ok e err d : length (dl_err_buf d) = 1024%nat -> StrL.no_nul err -> exists d', set_dlerror e err d = Ok d' /\ reports d d' e err.
Proof.
  intros Hb Hn. unfold set_dlerror. destruct (LinkerFormat.format_buffer_holds _ _ _ (dl_err_buf d) 1023 (format_error (dl_errors e) err)) as (rest & -> & Hlen & _); [lia|]. cbn [obind].
  eexists. split; [reflexivity|]. split; [reflexivity|]. split; [cbn [dl_err_buf]; congruence|]. fold (message e err). unfold android_dlerror. cbn [dl_err_str dl_err_buf].
  rewrite (cstr_prefix _ _ (message_no_nul e err Hn)). cbn [obind]. eexists. split; reflexivity.
Qed.

(** ** Symbols *)

(** C34: on a handle whose hash table is well formed, [android_dlsym] always returns, and returns the run-time address of a global
    definition of the name exactly when the search of the table meets one; it fails, leaving the linker
    unchanged, with "Symbol is not global" when it meets a weak definition instead, and with "Symbol not found" only when the library has
    no global or weak definition of the name.  Null handles and null names are refused.  After a failure
    [android_dlerror] gives the message, cut to 1023 bytes, once, and then null. *)
Theorem dlsym_resolves d i si n ret_addr err :
  length (dl_err_buf d) = 1024%nat -> StrL.no_nul err -> so (P (sys d)) !! i = Some si -> table_ok si ->
  (exists a d', android_dlsym (HLib i) (Some n) ret_addr err d = Ok (a, d') /\
    ((exists j s, defines si n j /\ rd (symtab si) j = Ok s /\ ELF32_ST_BIND (st_info s) = STB_GLOBAL /\ a = u32 (st_value s + base si) /\ d' = d) \/
     (a = 0 /\ (exists j s, defines si n j /\ rd (symtab si) j = Ok s /\ ELF32_ST_BIND (st_info s) = STB_WEAK) /\ reports d d' DL_ERR_SYMBOL_NOT_GLOBAL err) \/
     (a = 0 /\ (forall j, ~ defines si n j) /\ reports d d' DL_ERR_SYMBOL_NOT_FOUND err))) /\
  (exists d', android_dlsym HNull (Some n) ret_addr err d = Ok (0, d') /\ reports d d' DL_ERR_INVALID_LIBRARY_HANDLE err) /\
  (exists d', android_dlsym (HLib i) None ret_addr err d = Ok (0, d') /\ reports d d' DL_ERR_BAD_SYMBOL_NAME err).
Proof.
  intros Hb Hn Hi T. split; [|split].
  - unfold android_dlsym. cbn [handle_eqb RTLD_DEFAULT RTLD_NEXT]. rewrite Hi. cbn [of_option obind]. unfold lookup_in_library. destruct (elf_lookup_ok si n T) as (r & -> & Hr). cbn [obind].
    destruct r as [j|]; cbn [fmap option_fmap option_map].
    + pose proof Hr as (_ & s & Hs & _ & Hbind). rewrite Hi. cbn [of_option obind]. rewrite Hs. cbn [obind]. unfold binds in Hbind. apply andb_true_iff in Hbind as [Hbind Hdef]. rewrite Hdef, andb_true_r.
      destruct (Z.eqb_spec (ELF32_ST_BIND (st_info s)) STB_GLOBAL) as [Hg|Hg].
      * eexists _, d. split; [reflexivity|]. left. exists j, s. auto.
      * destruct (set_dlerror_ok DL_ERR_SYMBOL_NOT_GLOBAL err d Hb Hn) as (d' & -> & H). cbn [obind]. eexists 0, d'. split; [reflexivity|]. right. left. split; [reflexivity|]. split; [|assumption].
        exists j, s. split; [assumption|]. split; [assumption|]. cbn [orb] in Hbind. now apply Z.eqb_eq in Hbind.
    + destruct (set_dlerror_ok DL_ERR_SYMBOL_NOT_FOUND err d Hb Hn) as (d' & -> & H). cbn [obind]. eexists 0, d'. split; [reflexivity|]. auto.
  - unfold android_dlsym. cbn [handle_eqb]. destruct (set_dlerror_ok DL_ERR_INVALID_LIBRARY_HANDLE err d Hb Hn) as (d' & -> & H). cbn [obind]. eauto.
  - unfold android_dlsym. cbn [handle_eqb]. destruct (set_dlerror_ok DL_ERR_BAD_SYMBOL_NAME err d Hb Hn) as (d' & -> & H). cbn [obind]. eauto.
Qed.

(** The names of [libdl_info]'s functions. *)
Definition libdl_names : list str :=
  [[100; 108; 111; 112; 101; 110]; [100; 108; 99; 108; 111; 115; 101]; [100; 108; 115; 121; 109]; [100; 108; 101; 114; 114; 111; 114]; [100; 108; 97; 100; 100; 114];
   [100; 108; 95; 105; 116; 101; 114; 97; 116; 101; 95; 112; 104; 100; 114]; [100; 108; 95; 117; 110; 119; 105; 110; 100; 95; 102; 105; 110; 100; 95; 101; 120; 105; 100; 120]].

Lemma small_index {A} (l : list A) j x : rd l j = Ok x -> exists k, j = Z.of_nat k /\ (k < length l)%nat /\ l !! k = Some x.
Proof.
  unfold rd. destruct (Z.ltb_spec j 0); [discriminate|]. destruct (l !! Z.to_nat j) eqn:E; [|discriminate]. cbn. intros [= <-]. exists (Z.to_nat j). split; [lia|]. split; [|assumption].
  now apply lookup_lt_Some in E.
Qed.

(** The hand-made hash table of libdl is well formed, and each name leads to its function. *)
Lemma libdl_chain entry : chained (libdl_info entry) 1 [1; 2; 3; 4; 5; 6; 7].
Proof. repeat (split; [reflexivity|]; split; [cbn; lia|]; eexists; split; [reflexivity|]). reflexivity. Qed.

Lemma libdl_table_ok entry : table_ok (libdl_info entry).
Proof.
  constructor.
  - split; [cbn; lia|reflexivity].
  - intros j s (k & -> & Hk & Hs)%small_index. do 8 (destruct k as [|k]; [injection Hs as <-; eexists; vm_compute; reflexivity|]). cbn in Hk. lia.
  - intros b i (k & -> & Hk & Hi)%small_index. destruct k; [|cbn in Hk; lia]. injection Hi as <-. exists [1; 2; 3; 4; 5; 6; 7]. split; [apply libdl_chain|cbn; lia].
  - intros j s n Hj (k & -> & Hk & Hs)%small_index _ _. change (nbucket (libdl_info entry)) with 1. rewrite Z.mod_1_r. exists 1, [1; 2; 3; 4; 5; 6; 7]. split; [reflexivity|]. split; [apply libdl_chain|].
    cbn in Hk. do 8 (destruct k as [|k]; [lia || (rewrite !elem_of_cons; tauto)|]). lia.
Qed.

Lemma libdl_finds entry k n : libdl_names !! k = Some n -> lookup_in_library (libdl_info entry) n = Ok (Some (Z.of_nat (S k))).
Proof. intros H. do 7 (destruct k as [|k]; [injection H as <-; vm_compute; reflexivity|]). destruct k; discriminate. Qed.

(** ** References *)

Lemma counted_perm st live ls h h' : h ≡ₚ h' -> counted st live ls h -> counted st live ls h'.
Proof.
  intros Hp C. assert (references (so st) ls h ≡ₚ references (so st) ls h') as E by (unfold references; now rewrite Hp).
  constructor; [apply (v_pool _ _ _ _ C)|apply (v_nodup _ _ _ _ C)|apply (v_live _ _ _ _ C)|intros j; rewrite <- E; apply (v_refs _ _ _ _ C)|rewrite <- Hp; apply (v_zero _ _ _ _ C)|].
  intros j Hj. rewrite <- (count_perm j _ _ E). now apply (v_lib _ _ _ _ C).
Qed.

Lemma linkinv_perm st live ls h h' : h ≡ₚ h' -> linkinv st live ls h -> linkinv st live ls h'.
Proof. intros Hp []. constructor; auto. now apply (counted_perm _ _ _ h). Qed.

(** ** The constructors only mark the records *)

Definition marked (l l' : list soinfo) : Prop := length l' = length l /\ forall j s, l !! j = Some s -> exists b, l' !! j = Some (set_called b s).

Lemma marked_refl l : marked l l.
Proof. split; [reflexivity|]. intros j s H. exists (constructors_called s). now destruct s. Qed.

Lemma marked_trans l l1 l2 : marked l l1 -> marked l1 l2 -> marked l l2.
Proof. intros [E1 H1] [E2 H2]. split; [congruence|]. intros j s Hs. destruct (H1 j s Hs) as [b Hb]. destruct (H2 j _ Hb) as [b' Hb']. exists b'. exact Hb'. Qed.

Lemma marked_one l i s : l !! i = Some s -> marked l (<[i := set_called true s]> l).
Proof.
  intros Hs. split; [now rewrite length_insert|]. intros j t Ht. destruct (decide (j = i)) as [->|Hne].
  - rewrite list_lookup_insert_eq by (eapply lookup_lt_Some; eassumption). exists true. congruence.
  - rewrite list_lookup_insert_ne by congruence. exists (constructors_called t). rewrite Ht. now destruct t.
Qed.

Lemma needed_marked rec : (forall l i l' ev, rec l i = Ok (l', ev) -> marked l l') -> forall d l l' ev, needed_constructors rec d l = Ok (l', ev) -> marked l l'.
Proof.
  intros Hr. induction d as [|[tag v] d IH]; intros l l' ev; cbn [needed_constructors]; [discriminate|]. destruct (tag =? DT_NULL); [intros [= <- <-]; apply marked_refl|].
  destruct (_ && _); [|apply IH]. destruct (rec l _) as [[l1 e1]| |] eqn:E1; cbn [obind]; try discriminate. destruct (needed_constructors rec d l1) as [[l2 e2]| |] eqn:E2; cbn [obind]; try discriminate.
  intros [= <- <-]. eapply marked_trans; [eapply Hr; exact E1|eapply IH; exact E2].
Qed.

Lemma constructors_mark : forall fuel l i l' ev, call_constructors_recursive fuel l i = Ok (l', ev) -> marked l l'.
Proof.
  induction fuel as [|fuel IH]; intros l i l' ev; cbn [call_constructors_recursive]; [discriminate|]. destruct (l !! i) as [s|] eqn:Hs; cbn [of_option obind]; [|discriminate].
  destruct (constructors_called s); [intros [= <- <-]; apply marked_refl|]. destruct (bool_decide _); [intros [= <- <-]; apply marked_refl|].
  destruct (if negb _ then _ else _) as [pre| |]; cbn [obind]; try discriminate.
  destruct (match dynamic s with Some d => _ | None => _ end) as [[l1 e1]| |] eqn:E1; cbn [obind]; try discriminate.
  destruct (match init_array s with Some _ => _ | None => _ end) as [arr| |]; cbn [obind]; try discriminate. intros [= <- <-].
  apply (marked_trans _ _ _ (marked_one l i s Hs)). destruct (dynamic s) as [d|]; [eapply needed_marked; [exact IH|exact E1]|]. injection E1 as <- <-. apply marked_refl.
Qed.

Lemma marked_needs l l' j : marked l l' -> needs l' j = needs l j.
Proof.
  intros [Hlen Hm]. unfold needs. destruct (l !! j) as [s|] eqn:E; [destruct (Hm j s E) as [b ->]; reflexivity|].
  now rewrite (proj2 (lookup_ge_None l' j)) by (rewrite Hlen; now apply lookup_ge_None).
Qed.

Lemma marked_bump st l' i : marked (so st) l' -> marked (so (bump st i)) (so (bump (Linker l' (socount st) (freelist st) (sonext st)) i)).
Proof.
  intros [Hlen Hm]. unfold bump. cbn [so]. destruct (so st !! i) as [s|] eqn:Hs.
  - destruct (Hm i s Hs) as [b Hb]. rewrite Hb. unfold put. cbn [so]. split; [now rewrite !length_insert|]. intros j t. destruct (decide (j = i)) as [->|Hne].
    + rewrite list_lookup_insert_eq by (eapply lookup_lt_Some; eassumption). intros [= <-]. rewrite list_lookup_insert_eq by (eapply lookup_lt_Some; eassumption). exists b. reflexivity.
    + rewrite !list_lookup_insert_ne by congruence. apply Hm.
  - rewrite (proj2 (lookup_ge_None l' i)) by (rewrite Hlen; now apply lookup_ge_None). now split.
Qed.

(** Marks are not counted. *)
Lemma linkinv_marked st l' live ls handles : linkinv st live ls handles -> marked (so st) l' -> linkinv (Linker l' (socount st) (freelist st) (sonext st)) live ls handles.
Proof.
  intros [C G R] M. pose proof (fun j => marked_needs _ _ j M) as Hn. destruct M as [Hlen Hm].
  assert (references l' ls handles = references (so st) ls handles) as Er by (apply references_ext; auto).
  constructor; [constructor| |apply (acyclic_ext _ _ _ _ R); cbn; auto]; cbn [so].
  - destruct (v_pool _ _ _ _ C) as [free []]. exists free. constructor; cbn; [congruence|assumption| | |assumption|assumption].
    all: unfold linked in *; eapply seg_ext; [|eassumption]; intros j t _ Hj; destruct (Hm j t Hj) as [b Hb]; eauto.
  - apply (v_nodup _ _ _ _ C).
  - apply (v_live _ _ _ _ C).
  - rewrite Er. apply (v_refs _ _ _ _ C).
  - apply (v_zero _ _ _ _ C).
  - intros j Hj. rewrite Er. destruct (v_lib _ _ _ _ C j Hj) as (s & Hs & Hc & Hr & Hd). destruct (Hm j s Hs) as [b Hb]. exists (set_called b s). split; [assumption|]. split; [exact Hc|]. split; [exact Hr|].
    revert Hd. destruct (decide (j = 0%nat)); [auto|]. intros (d & H). exists d. eapply library_frame; [exact H|reflexivity..].
  - intros j s Hj Hs Hg. destruct (v_pool _ _ _ _ C) as [free I]. destruct (lookup_so _ _ _ j I) as [t Ht]; [apply (inv_range _ _ _ _ I); rewrite elem_of_app; now left|].
    destruct (Hm j t Ht) as [b Hb]. rewrite Hs in Hb. injection Hb as ->. exact (G j t Hj Ht Hg).
Qed.

(** ** Closing *)

Lemma concat_sub (f : nat -> list nat) ls' ls : ls' ⊆+ ls -> (length (concat (f <$> ls')) <= length (concat (f <$> ls)))%nat.
Proof. intros H. apply submseteq_Permutation in H as [k H]. rewrite H, fmap_app, concat_app, length_app. lia. Qed.

Lemma references_sub l l' ls ls' handles i : NoDup ls' -> (forall j, j ∈ ls' -> j ∈ ls) -> (forall j, j ∈ ls' -> needs l' j = needs l j) ->
  (length (references l' ls' handles) <= length (references l ls (i :: handles)))%nat.
Proof.
  intros Hn Hs He. rewrite (references_ext l l' ls' handles He). unfold references. rewrite !length_app. cbn [length].
  pose proof (concat_sub (needs l) ls' ls (NoDup_submseteq _ _ Hn Hs)). lia.
Qed.

Lemma close_ok st live ls handles h : linkinv st live ls (h :: handles) -> 0%nat ∈ handles ->
  exists r st' ev live' ls', unload_library (S (S SO_MAX)) st h = Ok (r, st', ev) /\ linkinv st' live' ls' handles /\
    (length (references (so st') ls' handles) <= length (references (so st) ls (h :: handles)))%nat /\ (live ≡ₚ ls -> live' ≡ₚ ls').
Proof.
  intros [C G R] H0. destruct (v_pool _ _ _ _ C) as [free I]. destruct (live_bound _ _ _ I) as [Hnd Hlen].
  assert (length ls <= length live)%nat by (apply shorter; [apply (v_nodup _ _ _ _ C)|apply (v_live _ _ _ _ C)]).
  destruct (unload_library_ok (S (S SO_MAX)) st live ls handles h C H0) as (r & st' & ev & live' & ls' & E & [C' Hsub Hlive Hneeds] & K & _); [unfold SO_MAX; lia|].
  exists r, st', ev, live', ls'. split; [assumption|]. split; [constructor; [assumption| |]|split].
  - intros j s Hj Hs Hg. apply Hlive in Hj as [Hj Hin]. apply Hin. destruct (decide (j ∈ ls)) as [|Hn]; [assumption|].
    destruct (lookup_so _ _ _ j I) as [t Ht]; [apply (inv_range _ _ _ _ I); rewrite elem_of_app; now left|]. destruct (K j t Hn Ht) as [q Hq]. rewrite Hs in Hq. injection Hq as ->. now apply (G j t).
  - apply (acyclic_ext _ _ _ _ R). auto.
  - apply references_sub; auto. apply (v_nodup _ _ _ _ C').
  - intros Hp. destruct (v_pool _ _ _ _ C') as [free' I']. destruct (live_bound _ _ _ I') as [Hnd' _]. apply NoDup_Permutation; [assumption|apply (v_nodup _ _ _ _ C')|].
    intros j. rewrite Hlive. pose proof (Hsub j) as Hj. rewrite <- Hp in *. tauto.
Qed.

(** ** Sessions *)

Section session.
Context (hooked : str -> str -> Z) (preloads : list nat) (r_debug : Z).
Context (files : str -> LinkerPath.node) (getenv : str -> option str) (default_path : option str) (junk : list Z).

(** Before the first call only [libdl_info] is there; [somain] is null. *)
Record start (d : dl) : Prop := {
  s_table : exists entry, P (sys d) = initial entry;
  s_buffer : length (dl_err_buf d) = 1024%nat }.

(** The states after calls that close only open handles: the open handles, the number of increments of a count so far, and
    whether an open failed. *)
Inductive session (d0 : dl) : dl -> list nat -> nat -> bool -> Prop :=
  | S_start : session d0 d0 [] 0 false
  | S_open d hs n f filename linker_error r d' ev c : session d0 d hs n f -> (forall s, filename = Some s -> StrL.no_nul s) ->
      android_dlopen hooked preloads None r_debug files getenv default_path junk filename linker_error d = Some (Ok (r, d', ev, c)) ->
      session d0 d' (option_list r ++ hs) (n + c) (f || match r with None => true | Some _ => false end)
  | S_close d hs n f h hs' r d' ev : session d0 d hs n f -> hs ≡ₚ h :: hs' -> android_dlclose h d = Ok (r, d', ev) -> session d0 d' hs' n f.

(** Every library is counted by the open handles [hs], the references kept by failed links, and [libdl_info]'s own. *)
Definition tracked (d : dl) (hs : list nat) (n : nat) (f : bool) : Prop :=
  exists live ls leaks, linkinv (P (sys d)) live ls (leaks ++ hs ++ [0%nat]) /\ (length (references (table (sys d)) ls (leaks ++ hs ++ [0%nat])) <= 1 + n)%nat /\
    (f = false -> leaks = [] /\ live ≡ₚ ls).

Lemma start_tracked d : start d -> tracked d [] 0 false.
Proof.
  intros [[entry E] _]. unfold tracked, table. fold (P (sys d)). rewrite E. exists [0%nat], [0%nat], []. split; [|split; [reflexivity|auto]]. constructor.
  - constructor.
    + exists []. constructor; [reflexivity|unfold SO_MAX; cbn; lia| |reflexivity|reflexivity|reflexivity]. split; [reflexivity|]. exists (libdl_info entry). split; reflexivity.
    + apply NoDup_singleton.
    + auto.
    + intros j. cbn. auto.
    + left.
    + intros j ->%list_elem_of_singleton. exists (libdl_info entry). split; [reflexivity|]. split; [reflexivity|]. split; [cbn; lia|reflexivity].
  - auto.
  - exists (fun _ => 0%nat). intros j k ->%list_elem_of_singleton Hk. now apply not_elem_of_nil in Hk.
Qed.

(** One more open, after [find_library]. *)
Lemma opened_tracked d w w' l' hs n f i c live live' ls ls' leaks : tracked d hs n f ->
  linkinv (P (sys d)) live ls (leaks ++ hs ++ [0%nat]) -> (length (references (table (sys d)) ls (leaks ++ hs ++ [0%nat])) <= 1 + n)%nat -> (f = false -> leaks = [] /\ live ≡ₚ ls) ->
  grown [] (P (sys d)) (bump (P w) i) live live' ls ls' (leaks ++ hs ++ [0%nat]) (i :: leaks ++ hs ++ [0%nat]) (c + 1) -> clean live live' ls' ->
  marked (table w) l' -> retain (with_table w l') i = Ok w' -> forall b e, tracked (Dl w' b e) (i :: hs) (n + S c) f.
Proof.
  intros _ L Hlen Hf A Hc M E b e. apply retain_inv in E. pose proof (marked_bump (P w) l' i M) as M'. set (st := Linker l' (socount (P w)) (freelist (P w)) (sonext (P w))) in *.
  change (P w' = bump st i) in E. assert (linkinv (P w') live' ls' (i :: leaks ++ hs ++ [0%nat])) as L'.
  { rewrite E. replace (bump st i) with (Linker (so (bump st i)) (socount (bump (P w) i)) (freelist (bump (P w) i)) (sonext (bump (P w) i))).
    - apply linkinv_marked; [exact (g_inv _ _ _ _ _ _ _ _ _ _ A)|assumption].
    - unfold bump, st. cbn [so]. destruct M as [Hl Hm]. change (so (P w)) with (table w). destruct (table w !! i) as [s|] eqn:Hs; [destruct (Hm i s Hs) as [? ->]; reflexivity|].
      rewrite (proj2 (lookup_ge_None l' i)) by (rewrite Hl; now apply lookup_ge_None). reflexivity. }
  assert (i :: leaks ++ hs ++ [0%nat] ≡ₚ leaks ++ (i :: hs) ++ [0%nat]) as Hp by (cbn [app]; apply Permutation_middle).
  exists live', ls', leaks. cbn [sys]. split; [now apply (linkinv_perm _ _ _ _ _ Hp)|]. split.
  - assert (references (table w') ls' (leaks ++ (i :: hs) ++ [0%nat]) ≡ₚ references (so (bump (P w) i)) ls' (i :: leaks ++ hs ++ [0%nat])) as ->.
    { change (table w') with (so (P w')). rewrite E. unfold references. rewrite <- Hp. f_equiv. apply Permutation_refl'. f_equal. apply map_ext. intros j. now apply marked_needs. }
    pose proof (g_count _ _ _ _ _ _ _ _ _ _ A). change (table (sys d)) with (so (P (sys d))) in Hlen. lia.
  - intros F. destruct (Hf F) as [-> Hpl]. split; [reflexivity|]. destruct (v_pool _ _ _ _ (l_counted _ _ _ _ L')) as [free' I']. destruct (live_bound _ _ _ I') as [Hnd _].
    apply NoDup_Permutation; [assumption|apply (v_nodup _ _ _ _ (l_counted _ _ _ _ L'))|]. intros j. split; [|apply (v_live _ _ _ _ (l_counted _ _ _ _ L'))].
    intros Hj. destruct (decide (j ∈ ls')) as [|Hn]; [assumption|]. apply (g_ls _ _ _ _ _ _ _ _ _ _ A). rewrite <- Hpl. now apply Hc.
Qed.

Lemma dlopen_tracked d hs n f filename err : tracked d hs n f -> (forall s, filename = Some s -> StrL.no_nul s) ->
  exists o, android_dlopen hooked preloads None r_debug files getenv default_path junk filename err d = Some o /\
    forall r d' ev c, o = Ok (r, d', ev, c) -> Z.of_nat (1 + n + c) < 2 ^ 32 -> tracked d' (option_list r ++ hs) (n + c) (f || match r with None => true | Some _ => false end).
Proof.
  intros T Hn. pose proof T as (live & ls & leaks & L & Hlen & Hf). destruct (v_pool _ _ _ _ (l_counted _ _ _ _ L)) as [free I]. unfold android_dlopen.
  destruct (find_library_ok hooked preloads None r_debug files getenv default_path junk 130 filename (sys d) live free I ltac:(lia) Hn) as (o & -> & Ho).
  destruct o as [[[ret w] c0]| |]; cbn [fbind]; [|eexists; split; [reflexivity|discriminate]..].
  destruct (Ho ret w c0 eq_refl) as (live' & free' & I' & Hl & H). specialize (H ls _ L ltac:(discriminate)). unfold room in H. change (so (P (sys d))) with (table (sys d)) in H. destruct ret as [i|].
  - destruct (call_constructors_recursive _ _ _) as [[l' ev]| |] eqn:Ec; cbn [lift fbind]; [|eexists; split; [reflexivity|discriminate]..].
    destruct (retain _ i) as [w'| |] eqn:Er; cbn [lift fbind]; [|eexists; split; [reflexivity|discriminate]..]. eexists. split; [reflexivity|]. intros r d' ev' c [= <- <- <- <-] Hb.
    destruct H as (ls' & extra & A & Hex); [change (length (option_list (Some i))) with 1%nat; lia|]. destruct (Hex i eq_refl) as [-> Hc]. rewrite orb_false_r. cbn [option_list app].
    exact (opened_tracked d w w' l' hs n f i c0 live live' ls ls' leaks T L Hlen Hf A Hc (constructors_mark _ _ _ _ _ Ec) Er _ _).
  - destruct (set_dlerror _ _ _) as [d1| |] eqn:Es; cbn [lift fbind]; [|eexists; split; [reflexivity|discriminate]..]. eexists. split; [reflexivity|]. intros r d' ev' c [= <- <- <- <-] Hb.
    destruct H as (ls' & extra & A & _); [change (length (option_list None)) with 0%nat; lia|]. unfold set_dlerror in Es. destruct (LinkerFormat.format_buffer _ _ _ _) as [[b x]| |]; cbn [obind] in Es; try discriminate. injection Es as <-.
    exists live', ls', (extra ++ leaks). cbn [sys bumped option_list app] in *. rewrite <- app_assoc. split; [exact (g_inv _ _ _ _ _ _ _ _ _ _ A)|]. split; [|rewrite orb_true_r; discriminate].
    pose proof (g_count _ _ _ _ _ _ _ _ _ _ A) as Hg. change (so (P w)) with (table w) in Hg. change (so (P (sys d))) with (table (sys d)) in Hg. change (length (option_list None)) with 0%nat in Hg. change (option_list None ++ hs) with hs. lia.
Qed.

Lemma dlclose_tracked d hs n f h hs' : tracked d hs n f -> hs ≡ₚ h :: hs' -> exists r d' ev, android_dlclose h d = Ok (r, d', ev) /\ tracked d' hs' n f.
Proof.
  intros (live & ls & leaks & L & Hlen & Hf) Hp. assert (leaks ++ hs ++ [0%nat] ≡ₚ h :: leaks ++ hs' ++ [0%nat]) as Hq by (rewrite Hp; cbn [app]; symmetry; apply Permutation_middle).
  apply (linkinv_perm _ _ _ _ _ Hq) in L. destruct (close_ok _ _ _ _ _ L) as (r & st' & ev & live' & ls' & E & L' & Hc & Hcl); [rewrite !elem_of_app; right; right; left|].
  unfold android_dlclose. rewrite E. cbn [obind]. eexists _, _, _. split; [reflexivity|]. exists live', ls', leaks. cbn [sys]. split; [exact L'|]. split.
  - etransitivity; [exact Hc|]. etransitivity; [|exact Hlen]. apply Nat.eq_le_incl. unfold references. now rewrite Hq.
  - intros F. destruct (Hf F) as [-> Hpl]. auto.
Qed.

Lemma session_tracked d0 d hs n f : start d0 -> session d0 d hs n f -> Z.of_nat (1 + n) < 2 ^ 32 -> tracked d hs n f.
Proof.
  intros Hs. induction 1 as [|d hs n f filename err r d' ev c _ IH Hn E|d hs n f h hs' r d' ev _ IH Hp E]; intros Hb.
  - now apply start_tracked.
  - destruct (dlopen_tracked d hs n f filename err) as (o & Eo & H); [apply IH; lia|assumption|]. rewrite E in Eo. injection Eo as <-. apply (H r d' ev c eq_refl). lia.
  - destruct (dlclose_tracked d hs n f h hs' (IH Hb) Hp) as (r1 & d1 & ev1 & E1 & T). rewrite E in E1. injection E1 as <- <- <-. assumption.
Qed.

Lemma tracked_empty d n : tracked d [] n false -> exists free, pool_inv (P (sys d)) [0%nat] free.
Proof.
  intros (live & ls & leaks & L & _ & Hf). destruct (Hf eq_refl) as [-> Hp]. cbn [app] in L. destruct L as [C G R].
  assert (live ≡ₚ [0%nat]) as Hl. { apply (no_handles_left (P (sys d))); [exists ls; split; [now symmetry|assumption]|]. destruct R as [rank R]. exists rank. intros j k Hj. apply R. now rewrite <- Hp. }
  destruct (v_pool _ _ _ _ C) as [free I]. apply Permutation_singleton_r in Hl as ->. eauto.
Qed.
End session.

(** C4: in every session of [android_dlopen] and [android_dlclose] calls that closes only open handles, for any files,
    hooks and answers of the kernel: the reference count of every linked library is exactly the number of
    open handles on it, of linked libraries that need it and of references left behind by links that failed,
    never zero, and the libraries it needs are linked too; the dependencies have no cycle.  If no open has failed, the load list has
    only linked libraries, and once all handles are closed it holds [libdl_info] alone.  The recursion of an open
    ends within 130 levels, and closing an open handle always returns.  (Fewer than 2^32 - 1 increments.) *)
Theorem handles_counted hooked preloads r_debug files getenv default_path junk d0 d hs n f :
  start d0 -> session hooked preloads r_debug files getenv default_path junk d0 d hs n f -> Z.of_nat (1 + n) < 2 ^ 32 ->
  tracked d hs n f /\ (f = false -> hs = [] -> exists free, pool_inv (P (sys d)) [0%nat] free) /\
  (forall filename err, (forall s, filename = Some s -> StrL.no_nul s) -> is_Some (android_dlopen hooked preloads None r_debug files getenv default_path junk filename err d)) /\
  (forall h, h ∈ hs -> exists r d' ev, android_dlclose h d = Ok (r, d', ev)).
Proof.
  intros Hs H Hb. pose proof (session_tracked _ _ _ _ _ _ _ _ _ _ _ _ Hs H Hb) as T. split; [assumption|]. split; [intros -> ->; now apply (tracked_empty d n)|]. split.
  - intros filename err Hn. destruct (dlopen_tracked hooked preloads r_debug files getenv default_path junk d hs n f filename err T Hn) as (o & -> & _). eauto.
  - intros h Hh. apply elem_of_Permutation in Hh as [hs' Hp]. destruct (dlclose_tracked d hs n f h hs' T Hp) as (r & d' & ev & E & _). eauto.
Qed.

(** ** Two libraries: a needs b and has a GOT entry, at 268, for b's function f *)

Definition file_a : list Z := [127; 69; 76; 70; 1; 1; 1] ++ replicate 9 0 ++ [3; 0; 40; 0; 1; 0; 0; 0; 0; 0; 0; 0; 52] ++ replicate 11 0 ++ [52; 0; 32; 0; 2; 0; 0; 0; 0; 0; 0; 0; 1] ++ replicate 15 0 ++ [28; 1; 0; 0; 28; 1; 0; 0; 6; 0; 0; 0; 0; 16; 0; 0; 2; 0; 0; 0; 116; 0; 0; 0; 116; 0; 0; 0; 116; 0; 0; 0; 64; 0; 0; 0; 64; 0; 0; 0; 6; 0; 0; 0; 4; 0; 0; 0; 1; 0; 0; 0; 5; 0; 0; 0; 4; 0; 0; 0; 180; 0; 0; 0; 5; 0; 0; 0; 252; 0; 0; 0; 6; 0; 0; 0; 204; 0; 0; 0; 17; 0; 0; 0; 4; 1; 0; 0; 18; 0; 0; 0; 8; 0; 0; 0; 12; 0; 0; 0; 96] ++ replicate 11 0 ++ [1; 0; 0; 0; 3; 0; 0; 0; 1; 0; 0; 0; 0; 0; 0; 0; 2] ++ replicate 23 0 ++ [1; 0; 0; 0; 68; 0; 0; 0; 4; 0; 0; 0; 18; 0; 1; 0; 3] ++ replicate 11 0 ++ [18; 0; 0; 0; 0; 103; 0; 102; 0; 98; 0; 0; 12; 1; 0; 0; 21; 2] ++ replicate 18 0.
Definition file_b : list Z := [127; 69; 76; 70; 1; 1; 1] ++ replicate 9 0 ++ [3; 0; 40; 0; 1; 0; 0; 0; 0; 0; 0; 0; 52] ++ replicate 11 0 ++ [52; 0; 32; 0; 2; 0; 0; 0; 0; 0; 0; 0; 1] ++ replicate 15 0 ++ [228; 0; 0; 0; 228; 0; 0; 0; 6; 0; 0; 0; 0; 16; 0; 0; 2; 0; 0; 0; 116; 0; 0; 0; 116; 0; 0; 0; 116; 0; 0; 0; 40; 0; 0; 0; 40; 0; 0; 0; 6; 0; 0; 0; 4; 0; 0; 0; 4; 0; 0; 0; 156; 0; 0; 0; 5; 0; 0; 0; 208; 0; 0; 0; 6; 0; 0; 0; 176; 0; 0; 0; 13; 0; 0; 0; 80] ++ replicate 11 0 ++ [1; 0; 0; 0; 2; 0; 0; 0; 1] ++ replicate 27 0 ++ [1; 0; 0; 0; 64; 0; 0; 0; 4; 0; 0; 0; 18; 0; 1; 0; 0; 102] ++ replicate 18 0.
(** c needs b and z, which does not exist. *)
Definition file_c : list Z := [127; 69; 76; 70; 1; 1; 1] ++ replicate 9 0 ++ [3; 0; 40; 0; 1; 0; 0; 0; 0; 0; 0; 0; 52] ++ replicate 11 0 ++ [52; 0; 32; 0; 2; 0; 0; 0; 0; 0; 0; 0; 1] ++ replicate 15 0 ++ [220; 0; 0; 0; 220; 0; 0; 0; 6; 0; 0; 0; 0; 16; 0; 0; 2; 0; 0; 0; 116; 0; 0; 0; 116; 0; 0; 0; 116; 0; 0; 0; 48; 0; 0; 0; 48; 0; 0; 0; 6; 0; 0; 0; 4; 0; 0; 0; 1; 0; 0; 0; 1; 0; 0; 0; 1; 0; 0; 0; 3; 0; 0; 0; 4; 0; 0; 0; 164; 0; 0; 0; 5; 0; 0; 0; 196; 0; 0; 0; 6; 0; 0; 0; 180] ++ replicate 11 0 ++ [1; 0; 0; 0; 1] ++ replicate 28 0 ++ [98; 0; 122] ++ replicate 20 0.
Definition sample_files (p : str) : LinkerPath.node :=
  match last p with Some 97 => LinkerPath.Regular file_a | Some 98 => LinkerPath.Regular file_b | Some 99 => LinkerPath.Regular file_c | _ => LinkerPath.Missing end.
Definition sample_start : dl :=
  Dl (System (World (initial Z.of_nat) (Kernel (fun _ => None) [Some 0x10000; Some 0; Some 0x20000; Some 0]) (replicate 4096 0)) LinkerPath.no_paths (replicate 4 (LinkerLoad.IO true true true true)))
     (replicate 1024 0) false.
Local Abbreviation sample_open n d := (android_dlopen (fun _ _ => 0) [] None 0x7000 sample_files (fun _ => None) None (replicate 512 1) (Some n) [] d).

(** A result without the state it leaves, and that state. *)
Definition brief {A B C D} (o : fueled (A * B * C * D)) : option (A * C * D) := match o with Some (Ok (a, _, c, d)) => Some (a, c, d) | _ => None end.
Definition state_of (o : fueled (option nat * dl * list event * nat)) : dl := match o with Some (Ok (_, d, _, _)) => d | _ => sample_start end.

Lemma brief_some {A C D} (o : fueled (A * dl * C * D)) a c d : brief o = Some (a, c, d) -> exists b, o = Some (Ok (a, b, c, d)).
Proof. unfold brief. destruct o as [[[[[x y] z] t]| |]|]; try discriminate. intros [= <- <- <-]. eauto. Qed.

(** Opening a loads and links both, runs a's initialiser and stores the address of f in the GOT entry. *)
Example sample_opened : brief (sample_open [97] sample_start) = Some (Some 1%nat, [Called 1 Init 0x10060], 2%nat) /\
  LinkerReloc.load32 (memory (sys (state_of (sample_open [97] sample_start)))) (0x10000 + 268) = Ok 0x20040.
Proof. split; vm_compute; reflexivity. Qed.

(** a is open, then closed. *)
Lemma handles_counted_witness : exists d d', session (fun _ _ => 0) [] 0x7000 sample_files (fun _ => None) None (replicate 512 1) sample_start d [1%nat] 2 false /\
  session (fun _ _ => 0) [] 0x7000 sample_files (fun _ => None) None (replicate 512 1) sample_start d' [] 2 false /\ tracked d [1%nat] 2 false /\ exists free, pool_inv (P (sys d')) [0%nat] free.
Proof.
  destruct (brief_some _ _ _ _ (proj1 sample_opened)) as [d E].
  assert (start sample_start) as Hs by (split; [exists Z.of_nat; reflexivity|reflexivity]).
  assert (session (fun _ _ => 0) [] 0x7000 sample_files (fun _ => None) None (replicate 512 1) sample_start d [1%nat] 2 false) as H1.
  { refine (S_open _ _ _ _ _ _ _ _ sample_start [] 0 false (Some [97]) [] (Some 1%nat) d _ 2 (S_start _ _ _ _ _ _ _ _) _ E). intros s [= <-]. repeat constructor. discriminate. }
  destruct (handles_counted _ _ _ _ _ _ _ sample_start d [1%nat] 2 false Hs H1 ltac:(lia)) as (T & _ & _ & Hclose).
  destruct (Hclose 1%nat ltac:(left)) as (r & d' & ev & E'). pose proof (S_close _ _ _ _ _ _ _ _ d [1%nat] 2 false 1 [] r d' ev H1 ltac:(reflexivity) E') as H2.
  exists d, d'. split; [assumption|]. split; [assumption|]. split; [assumption|].
  exact (proj1 (proj2 (handles_counted _ _ _ _ _ _ _ sample_start d' [] 2 false Hs H2 ltac:(lia))) eq_refl eq_refl).
Defined.

(** The open of c fails; its record stays in the load list, marked as failed, and so does b, with a reference nobody will
    drop. *)
Example failed_open_leaks : brief (sample_open [99] sample_start) = Some (None, [], 1%nat) /\
  (fun s => (name s, flags s, refcount s, next s)) <$> take 3 (table (sys (state_of (sample_open [99] sample_start)))) =
  [(libdl_name, FLAG_LINKED, 1, Some 1%nat); ([99], FLAG_ERROR, 0, Some 2%nat); ([98], FLAG_LINKED, 1, None)].
Proof. split; vm_compute; reflexivity. Qed.

Lemma dlsym_resolves_witness : exists a d', android_dlsym (HLib 0) (Some [100; 108; 115; 121; 109]) 0 [] sample_start = Ok (a, d') /\
  (exists d', android_dlsym RTLD_DEFAULT (Some [100; 108; 115; 121; 109]) 0 [] sample_start = Ok (0, d') /\ reports sample_start d' DL_ERR_INVALID_LIBRARY_HANDLE []).
Proof.
  destruct (dlsym_resolves sample_start 0 (libdl_info Z.of_nat) [100; 108; 115; 121; 109] 0 [] ltac:(reflexivity) ltac:(constructor) ltac:(reflexivity) (libdl_table_ok Z.of_nat)) as ((a & d' & E & _) & H & _).
  exists a, d'. split; [exact E|exact H].
Defined.

Example dlsym_of_libdl : android_dlsym (HLib 0) (Some [100; 108; 115; 121; 109]) 0 [] sample_start = Ok (2, sample_start).
Proof. vm_compute. reflexivity. Qed.
End LinkerDlfcn.
